(* ===== verification/_CoqProject ===== *)
-Q . S2P
Prelude.v
Cap.v
CapTable.v
CapRevoke.v
CapSpec.v
Buddy.v
BuddySpec.v
Pmm.v
PmmSpec.v
PmmClaims.v
Heap.v
HeapSpec.v
Task.v
Cfs.v
Deadline.v
Sched.v
SchedSpec.v
Bandwidth.v
Pi.v
Wait.v
WaitSpec.v
Poll.v
Channel.v
ChannelSpec.v
PollSet.v
PollSpec.v
PollSetSpec.v
Bitmap.v
Frames.v
Cow.v
Swap.v
AddressSpace.v
AddressSpaceSpec.v
World.v
Vma.v
VmaTree.v
VmaRb.v
VmaOps.v
VmaSpec.v
VmaRefine.v
Fault.v
FaultSpec.v
CowSpec.v
FdTable.v
Process.v
ProcessSpec.v
ProcessRefine.v
Memory.v
KHeap.v
KHeapInv.v
KHeapOps.v
KHeapMerge.v
KHeapAlloc.v
KHeapSpec.v
Timer.v
TimerSpec.v
Crc32.v
Crc32Spec.v
Bytes.v
Cache.v
CacheSpec.v
Journal.v
JournalSpec.v
FsLayout.v
ViperFs.v
FsWorld.v
FsBitmap.v
FsFile.v
FsData.v
FsWrite.v
FsDirent.v
FsDir.v
FsInode.v
FsCreate.v
FsUnlink.v
FsSuper.v
FsLink.v
FsDirRefine.v
FsDemo.v
FsClaims.v
