(* ===== verification/Prelude.v ===== *)
(** * ViperDOS kernel verification library

    A shallow embedding of the core of the ViperDOS kernel ([src/kernel]) and
    theorems about it.  Every definition that models code keeps the name it has
    in the source and follows its branches, early returns and integer widths.

    ** How the parts of the system fit together

    Tasks name kernel objects by handles, which a capability table per process
    ([cap/]) maps to an object, a kind and rights.  Physical pages come from
    the physical memory manager ([mm/pmm]), which owns a bitmap and hands the
    larger part of the memory to a buddy allocator ([mm/buddy]).  The kernel
    heap ([mm/kheap]) cuts pages into blocks for the rest of the kernel.  A process
    ([viper/viper]) has an address space, that is a tree of page tables
    ([viper/address_space]), a set of virtual memory areas ([mm/vma]), a
    capability table and a table of file descriptors ([fs/vfs]).  Page faults
    ([mm/fault]) fill in the pages of an area on demand, copy pages shared by
    copy on write ([mm/cow]) and bring pages back from swap ([mm/swap]).  The scheduler
    ([sched/scheduler]) keeps ready tasks per CPU in two heaps ([sched/heap]),
    ordered by deadline and by virtual runtime ([sched/cfs], [sched/deadline]),
    and in real-time queues; CPU bandwidth control, priority inheritance and
    the timer wheel ([lib/timerwheel]) make tasks wait and run again.  Tasks
    block on wait queues ([sched/wait]), exchange messages and capabilities
    over channels ([ipc/channel]), and wait for events with timers and poll
    sets ([ipc/poll], [ipc/pollset]).  The file
    system ([fs/viperfs/viperfs]) keeps files and directories in blocks, which it
    reads and writes through a cache ([fs/cache]), and makes groups of writes
    atomic with a journal ([fs/viperfs/journal]) whose blocks are protected by a
    checksum ([lib/crc32]).

    ** Files

    - [Prelude]: machine integers, the result monad, lists indexed as arrays,
      bits, shared lemmas, tactics and hints.
    - [Cap]: [cap/rights.hpp], [handle.hpp], [table.hpp], [table.cpp].
      [CapTable]: the invariant of the free list and the refinement of a map
      from handles to capabilities.  [CapRevoke]: revocation and the derivation
      forest.  [CapSpec]: the theorems.
    - [Buddy]: [mm/buddy.cpp], [buddy.hpp].  [BuddySpec]: the accounting of
      pages.
    - [Pmm]: [mm/pmm.cpp], [pmm.hpp], against the class [BlockAllocator].
      [PmmSpec]: the laws [BlockLaws] of that class, their proof for the buddy
      allocator, and the lemmas; [PmmClaims]: the theorems.
    - [Bitmap]: the bitmap code that [address_space.cpp] and [swap.cpp] share.
      [Frames]: physical memory and the class [FrameAllocator] with its laws
      [FrameLaws], which the physical memory manager and a list of free frames
      satisfy.
    - [Cow]: [mm/cow.cpp], the reference counts.  [Swap]: [mm/swap.cpp] against
      the class [SectorDevice].
    - [AddressSpace]: [viper/address_space.cpp].  [AddressSpaceSpec]: page tables
      as a partial map from pages to frames and flags.  [World]: creation,
      destruction and cloning of address spaces.
    - [Vma]: [mm/vma.cpp], the list and the red-black tree of areas.  [VmaTree],
      [VmaRb], [VmaOps]: the tree as an inductive type, its colours and the
      pointer operations on it.  [VmaSpec], [VmaRefine]: the refinement of a
      sorted list of disjoint regions.
    - [Fault]: [mm/fault.cpp] and [handle_demand_fault] of [mm/vma.cpp].
      [FaultSpec]: demand paging and stack growth.  [CowSpec]: copy on write.
    - [Memory]: bytes of memory and [crt.cpp].  [KHeap]: [mm/kheap.cpp].
      [KHeapInv]: blocks, free lists and their invariant; [KHeapOps],
      [KHeapMerge], [KHeapAlloc]: the steps of the operations; [KHeapSpec]: the
      contract of the heap.
    - [FdTable]: [FDTable] of [fs/vfs/vfs.hpp].
    - [Process]: [viper/viper.cpp].  [ProcessSpec]: the forest of processes.
      [ProcessRefine]: the refinement of a map from identifiers to parent and
      status.
    - [Heap]: [sched/heap.hpp].  [HeapSpec]: order and index consistency.
    - [Task]: the fields of [sched/task.hpp] that the scheduler uses.
    - [Cfs]: [sched/cfs.hpp].  [Deadline]: [sched/deadline.cpp].
    - [Sched]: [sched/scheduler.cpp].  [SchedSpec]: the ready structures.
    - [Bandwidth]: [sched/bandwidth.cpp].  [Pi]: [sched/pi.cpp].
    - [Wait]: [sched/wait.cpp], [wait.hpp], [task::wakeup], against the class
      [TaskOps].  [WaitSpec]: the laws [TaskLaws] of that class, their proof for
      the scheduler, order and consistency of the queues.
    - [Poll]: [ipc/poll.cpp].  [PollSpec]: sleeping tasks.
    - [Channel]: [ipc/channel.cpp], [kobj/channel.cpp].  [ChannelSpec]: the
      refinement of bounded queues, the transfer of handles, blocking.
    - [PollSet]: [poll::poll] and [ipc/pollset.cpp].  [PollSetSpec]: what a scan
      reports, and the wake-up of a waiting task.
    - [Timer]: [lib/timerwheel.cpp].  [TimerSpec]: exactness of the wheel.
    - [Crc32]: [lib/crc32.cpp].  [Crc32Spec]: comparison with the polynomial.
    - [Bytes]: little-endian fields of a block of bytes.
    - [Cache]: [fs/cache.cpp], [lib/lru_list.hpp], against the class
      [BlockDevice].  [CacheSpec]: the laws [DeviceLaws] of a device, a disk in
      memory that satisfies them, and the refinement of an array of blocks.
    - [Journal]: [fs/viperfs/journal.cpp] and the journal part of mounting.
      [JournalSpec]: crash safety.
    - [FsLayout]: [fs/viperfs/format.hpp], the layout on disk, with the class
      [Codec] of encodings.  [ViperFs]: [fs/viperfs/viperfs.cpp], the driver over
      the block cache, with the class [Env] for the timer, the memory for inodes
      and uninitialised arrays.  [FsWorld]: the driver over an array of blocks,
      by the refinement of the cache.  [FsBitmap], [FsFile], [FsData], [FsWrite]:
      the allocator, the tree of blocks of a file, reading and writing.
      [FsDirent], [FsDir]: the records of a directory and its operations.
      [FsInode], [FsCreate], [FsUnlink], [FsLink], [FsSuper]: the inode table,
      creating, deleting, symbolic links, the superblock.  [FsDirRefine]: the
      refinement of a finite map by a directory.  [FsDemo]: a small disk.
      [FsClaims]: the theorems.

    ** What the theorems show

    Capabilities: each operation of a table implements the operation on a map
    from handles to capabilities; no sequence of calls gives a handle more
    rights than an inserted capability had; revocation frees exactly a
    derivation tree as long as parents form a forest, which every operation
    but [remove] preserves, and does not return on a cycle.

    Memory: initialising, allocating and freeing move exactly the named pages
    between the free lists and the caller, also across splitting, coalescing
    and the per-CPU caches; the manager's theorems are proved from the laws of
    its block allocator.  Lemmas that are not in the manifest show a double
    free through the page cache and pages that [free_pages] leaks.

    Address spaces and faults: mapping, unmapping and translating agree with a
    partial map from virtual pages to frames, out of memory included; areas
    behave as a sorted list of disjoint regions and are found in a number of
    steps logarithmic in their number; a page fault in an area maps the
    page of the address with the right contents and permissions, prefaults the
    pages after it in an anonymous area, and fails only when frames run out;
    prefaulting replaces pages that are in use; the first write to a shared page
    gives the writer a copy and leaves the other's page as it was; a page that
    is swapped out and in has its old contents; stack growth can pass the guard
    page.

    Processes: creating (also when the table, the memory or the kernel heap is
    full), exiting and waiting implement operations on a map from identifiers to
    parent and status, and keep the list of all processes and the lists of
    children a forest; a creation that runs out of memory damages the
    list of children of its parent; fork of a process made by [create] fails.

    Kernel heap: allocating, freeing and resizing implement operations on a map
    of live allocations that never overlap and whose contents only their owners
    change.  [kmalloc] is covered also where an arena hands out too small a block;
    [kzalloc] and [krealloc] only where it does not, and all of them only where
    growth does not damage the table of regions.  Concrete runs show both
    defects; coalescing leaves no free neighbours.

    Scheduling: the heaps return the least key and keep the index in every
    task; enqueueing places a task in the structure of its policy and
    dequeueing takes the task that the order of policies prescribes; admission
    control keeps its bound and where it overflows; the virtual runtime against
    the exact quotient; throttling and replenishing of bandwidth; boosting along
    a chain of mutexes.

    Waiting and messages: every waiter is blocked, in exactly one queue and in
    order of priority, and is woken in this order; channels give the results of
    one bounded queue per channel; handles sent with a message leave one table
    and arrive in the other with rights cut to the receiver's bound, as far as it
    has room; the first of the blocked receivers becomes ready when a message is
    sent and its next round returns it; a task in an infinite wait on a poll set
    that is fully registered becomes ready when a message comes to one of its
    channels, and reports it; a sleeping task becomes ready in time; a scan
    of a poll set reports exactly what is ready.

    Timers: advancing the clock fires exactly the due timers, in order and once;
    scheduling and cancelling are inverse; identifiers can be reused too early.

    Storage: the checksum equals the reference division on every input that
    does not reach the one wrong entry of the table, and detects every change of
    a byte; the cache behaves as an array of blocks; a commit that fits
    without reclaiming the journal is atomic under a crash after any of the
    device writes it causes, evictions of other dirty blocks included; a committed transaction is replayed over
    later changes.

    File system: what is written to a file is read back, within blocks that were
    free, and nothing else changes; a directory is a finite map; creating a file
    and deleting one change exactly the entry, the inode and the blocks of the
    file; unmounting leaves on the device what the driver saw, and mounting the
    device with an empty cache finds it; the superblock is found from its copy
    when the first is damaged; symbolic links lose their target, writes into new
    blocks expose old data, and the copy of the superblock can lie in a file.
    The theorems hold for states in which the driver's structures are well
    formed ([sane], [file_ok], [dir_ok]), which the operations preserve; creating
    and unmounting are treated with the journal disabled.  [create_dir], [rmdir], [rename], [truncate] and
    the inode cache are modelled without theorems.

    ** Conventions

    An integer of [w] bits is a [Z] and operations that can leave its range are
    followed by [wrap w].  A fallible computation is a [res]: [Ok], [Ub] (an
    access outside an array) or [Diverge].  Pointers to elements of a static
    array are indices, null pointers are [None].  Linked lists threaded through
    objects are lists of their elements, head first.  Locks are left out: each
    operation runs to completion, and concurrent use is a sequence of
    operations.  An operation that yields is split there into the part before
    and the part that runs when the task resumes.  Messages on the serial console are left out.

    ** Fuel

    Loops that are not structural take fuel: [revoke] by the size of the table,
    which suffices on a forest; coalescing by the number of orders; the loops of
    the heap by its size; the clock of the timer wheel by the number of
    milliseconds to advance; [replay] by the size of the journal plus one, as
    each transaction takes at least two blocks; loops over a byte counter by
    256; loops over areas by 258, as an address space has at most 256 areas;
    loops over lists of processes by 66, as there are 64 slots; page table
    walks are unrolled over the four levels; the lists of the kernel heap by one
    more than the 16-byte units of the heap, as every block has at least two; the
    loops of the file system over a range of bytes by its number of blocks plus
    two, over a directory by its number of blocks plus two, over a block of
    records by its number of bytes.  The theorems state that the functions return [Ok], so the fuel is
    enough wherever they apply.

    ** Not modelled

    Interleavings inside an operation (the code takes locks), the assembly of
    context switches and exceptions, maintenance of the TLB and of the caches,
    device drivers, the system call layer,
    paths and mounts of the virtual file system, and everything in user space.  The
    file that backs an area is a parameter of the model.  These
    are listed in the manifest with the reason. *)

From Stdlib Require Export ZArith Lia.
From stdpp Require Export base tactics option list numbers gmap.
#[global] Open Scope Z_scope.
#[global] Set Warnings "-clear-no-such-hyp".

(** ** Machine integers

    A [w]-bit unsigned integer of the kernel is a [Z]; every operation of the
    source that can leave the range is followed by the truncation its C++ type
    performs. *)

Definition wrap (w z : Z) : Z := z mod 2 ^ w.

Abbreviation u8 := (wrap 8).
Abbreviation u16 := (wrap 16).
Abbreviation u32 := (wrap 32).
Abbreviation u64 := (wrap 64).

(** [in_width w z]: [z] is a value of the [w]-bit unsigned type. *)
Definition in_width (w z : Z) : Prop := 0 <= z < 2 ^ w.

Lemma wrap_in_width w z : 0 <= w -> in_width w (wrap w z).
Proof. intros Hw. apply Z.mod_pos_bound, Z.pow_pos_nonneg; lia. Qed.

Lemma wrap_small w z : in_width w z -> wrap w z = z.
Proof. apply Z.mod_small. Qed.

Lemma u8_range z : 0 <= u8 z < 256.
Proof. apply (wrap_in_width 8). lia. Qed.
Lemma u32_range z : 0 <= u32 z < 4294967296.
Proof. apply (wrap_in_width 32). lia. Qed.
Lemma u64_range z : 0 <= u64 z < 18446744073709551616.
Proof. apply (wrap_in_width 64). lia. Qed.

Lemma u8_small z : 0 <= z < 256 -> u8 z = z.
Proof. apply (wrap_small 8). Qed.
Lemma u32_small z : 0 <= z < 4294967296 -> u32 z = z.
Proof. apply (wrap_small 32). Qed.
Lemma u64_small z : 0 <= z < 18446744073709551616 -> u64 z = z.
Proof. apply (wrap_small 64). Qed.

(** ** Bit fields *)

Lemma land_low_high k lo hi : 0 <= k -> 0 <= lo < 2 ^ k -> Z.land lo (hi * 2 ^ k) = 0.
Proof.
  intros Hk Hlo. apply Z.bits_inj'. intros n Hn. rewrite Z.land_spec, Z.bits_0.
  destruct (Z.lt_ge_cases n k).
  - rewrite Z.mul_pow2_bits_low by lia. apply andb_false_r.
  - rewrite <- (Z.mod_small lo (2 ^ k)) by lia.
    rewrite Z.mod_pow2_bits_high by lia. done.
Qed.

(** Packing a [k]-bit field below another one is addition. *)
Lemma lor_low_high k lo hi :
  0 <= k -> 0 <= lo < 2 ^ k -> Z.lor lo (hi * 2 ^ k) = lo + hi * 2 ^ k.
Proof. intros. symmetry. apply Z.add_nocarry_lor, land_low_high; done. Qed.

(** Masking with [~(2^k - 1)] rounds down to a multiple of [2^k]. *)
Lemma land_align_down k x :
  0 <= k < 64 -> 0 <= x < 2 ^ 64 ->
  Z.land x (u64 (Z.lnot (2 ^ k - 1))) = x / 2 ^ k * 2 ^ k.
Proof.
  intros Hk Hx. replace (2 ^ k - 1) with (Z.ones k) by (rewrite Z.ones_equiv; lia).
  rewrite <- Z.shiftr_div_pow2, <- Z.shiftl_mul_pow2, <- Z.ldiff_ones_r by lia.
  apply Z.bits_inj'. intros n Hn. unfold wrap.
  rewrite Z.land_spec, Z.ldiff_spec. destruct (Z.lt_ge_cases n 64).
  - rewrite Z.mod_pow2_bits_low, Z.lnot_spec by lia. done.
  - rewrite <- (Z.mod_small x (2 ^ 64)) by lia.
    by rewrite (Z.mod_pow2_bits_high x) by lia.
Qed.

(** Testing the low [k] bits tests divisibility by [2^k]. *)
Lemma land_mask_mod k x : 0 <= k -> Z.land x (2 ^ k - 1) = x mod 2 ^ k.
Proof.
  intros Hk. replace (2 ^ k - 1) with (Z.ones k) by (rewrite Z.ones_equiv; lia).
  by apply Z.land_ones.
Qed.

(** Testing, setting and clearing one bit of a word. *)
Lemma land_bit w i : 0 <= i -> (Z.land w (2 ^ i) =? 0) = negb (Z.testbit w i).
Proof.
  intros Hi. destruct (Z.testbit w i) eqn:E; cbn [negb].
  - apply Z.eqb_neq. intros H0. apply (f_equal (fun z => Z.testbit z i)) in H0.
    by rewrite Z.land_spec, Z.pow2_bits_true, E, Z.bits_0 in H0.
  - apply Z.eqb_eq, Z.bits_inj'. intros n Hn. rewrite Z.land_spec, Z.bits_0, Z.pow2_bits_eqb by done.
    destruct (Z.eqb_spec i n); [subst; by rewrite E|apply andb_false_r].
Qed.

Lemma lor_bit w i n : 0 <= i -> Z.testbit (Z.lor w (2 ^ i)) n = (i =? n) || Z.testbit w n.
Proof. intros Hi. rewrite Z.lor_spec, Z.pow2_bits_eqb by done. apply orb_comm. Qed.

Lemma one_bit_small k bit : 0 <= bit < k -> wrap k (Z.shiftl 1 bit) = 2 ^ bit.
Proof. intros Hb. rewrite Z.shiftl_1_l. apply wrap_small. split; [lia|].
  apply Z.pow_lt_mono_r; lia. Qed.

(** [w & ~(1 << i)] in a [k]-bit type. *)
Lemma land_clear k w i n :
  0 <= i -> in_width k w -> 0 <= k -> 0 <= n ->
  Z.testbit (Z.land w (wrap k (Z.lnot (Z.shiftl 1 i)))) n = negb (i =? n) && Z.testbit w n.
Proof.
  intros Hi Hw Hk Hn. rewrite Z.land_spec, Z.shiftl_1_l. destruct (Z.lt_ge_cases n k).
  - unfold wrap. rewrite Z.mod_pow2_bits_low, Z.lnot_spec, Z.pow2_bits_eqb by lia. apply andb_comm.
  - rewrite <- (Z.mod_small w (2 ^ k)) by done. rewrite Z.mod_pow2_bits_high by lia. by rewrite andb_false_r.
Qed.

(** A word whose bits from [k] on are clear fits in [k] bits. *)
Lemma in_width_bits k w : 0 <= k -> (forall n, k <= n -> Z.testbit w n = false) -> 0 <= w -> in_width k w.
Proof.
  intros Hk Hb Hw. replace w with (w mod 2 ^ k); [by apply (wrap_in_width k)|].
  apply Z.bits_inj'. intros n Hn. destruct (Z.lt_ge_cases n k).
  - by rewrite Z.mod_pow2_bits_low by lia.
  - by rewrite Z.mod_pow2_bits_high, Hb by lia.
Qed.

Lemma in_width_high k w n : in_width k w -> 0 <= k <= n -> Z.testbit w n = false.
Proof. intros Hw Hn. rewrite <- (Z.mod_small w (2 ^ k)) by done.
  by apply Z.mod_pow2_bits_high. Qed.

Lemma lor_width k a b : 0 <= k -> in_width k a -> in_width k b -> in_width k (Z.lor a b).
Proof.
  intros Hk Ha Hb. apply in_width_bits; [done| |apply Z.lor_nonneg; split; [apply Ha|apply Hb]].
  intros n Hn. by rewrite Z.lor_spec, !(in_width_high k) by done.
Qed.

Lemma land_width_l k a b : 0 <= k -> in_width k a -> in_width k (Z.land a b).
Proof.
  intros Hk Ha. apply in_width_bits; [done| |apply Z.land_nonneg; left; apply Ha].
  intros n Hn. by rewrite Z.land_spec, (in_width_high k a) by done.
Qed.

(** ** Truncation tactic *)

(** Removes every truncation whose argument is in range by arithmetic. *)
Ltac unwrap :=
  repeat match goal with
  | |- context [wrap 8 ?z] => rewrite (u8_small z) by lia
  | |- context [wrap 32 ?z] => rewrite (u32_small z) by lia
  | |- context [wrap 64 ?z] => rewrite (u64_small z) by lia
  end.

(** ** Results

    [Ok a]: the code returns.  [Ub]: it performs an access outside an array
    (undefined behaviour in the source).  [Diverge]: the fuel of the model ran
    out, that is, the code had not returned after that many steps. *)

Inductive res (A : Type) : Type :=
| Ok (a : A)
| Ub
| Diverge.
Arguments Ok {A} a.
Arguments Ub {A}.
Arguments Diverge {A}.

#[export] Instance res_ret : MRet res := fun A a => Ok a.
#[export] Instance res_bind : MBind res := fun A B f m =>
  match m with Ok a => f a | Ub => Ub | Diverge => Diverge end.
#[export] Instance res_eq_dec {A} `{EqDecision A} : EqDecision (res A).
Proof. solve_decision. Defined.

Lemma bind_Ok {A B} (f : A -> res B) (a : A) : (Ok a ≫= f) = f a.
Proof. reflexivity. Qed.

Lemma bind_inv {A B} (m : res A) (f : A -> res B) b :
  (m ≫= f) = Ok b -> exists a, m = Ok a /\ f a = Ok b.
Proof. destruct m; naive_solver. Qed.

(** A loop whose body may fail, over the list of its index values. *)
Fixpoint foldM {A B} (f : B -> A -> res B) (l : list A) (b : B) : res B :=
  match l with
  | [] => Ok b
  | a :: l => b ← f b a; foldM f l b
  end.

Lemma foldM_app {A B} (f : B -> A -> res B) l1 l2 b :
  foldM f (l1 ++ l2) b = (b ← foldM f l1 b; foldM f l2 b).
Proof. revert b. induction l1 as [|a l1 IH]; intros b; [done|]; simpl.
  destruct (f b a); simpl; [apply IH|done|done]. Qed.

(** The loop rule: an invariant indexed by the part of the list already
    visited and the part still to visit. *)
Lemma foldM_inv {A B} (f : B -> A -> res B) (P : list A -> B -> Prop) l b :
  P [] b ->
  (forall done_ a rest b, l = done_ ++ a :: rest -> P done_ b ->
     exists b', f b a = Ok b' /\ P (done_ ++ [a]) b') ->
  exists b', foldM f l b = Ok b' /\ P l b'.
Proof.
  intros H0 Hs.
  cut (forall rest done_ b, l = done_ ++ rest -> P done_ b ->
    exists b', foldM f rest b = Ok b' /\ P l b').
  { intros H. by apply (H l []). }
  induction rest as [|a rest IH]; intros done_ b0 Hl Hp; simpl.
  - rewrite app_nil_r in Hl. subst. eauto.
  - destruct (Hs done_ a rest b0 Hl Hp) as (b1 & -> & Hp1). simpl.
    apply (IH (done_ ++ [a])); [|done]. by rewrite <- app_assoc.
Qed.

(** The indices already visited by a [for] loop from 0. *)
Lemma seqZ_prefix n done_ i rest :
  seqZ 0 n = done_ ++ i :: rest -> done_ = seqZ 0 i /\ 0 <= i < n.
Proof.
  intros H. assert (Hi : seqZ 0 n !! length done_ = Some i).
  { rewrite H. apply list_lookup_middle. done. }
  apply lookup_seqZ in Hi as [-> Hn]. split; [|lia].
  apply (f_equal (take (length done_))) in H.
  rewrite take_app_length in H. rewrite <- H at 1. apply list_eq. intros j.
  destruct (decide (j < length done_)%nat).
  - rewrite lookup_take_lt by done. by rewrite !lookup_seqZ_lt by lia.
  - by rewrite lookup_take_ge, lookup_seqZ_ge by lia.
Qed.

(** ** Counting the elements of a list that satisfy a test *)

Definition countb {A} (p : A -> bool) (l : list A) : nat := length (List.filter p l).

Lemma countb_le {A} (p q : A -> bool) l :
  (forall x, x ∈ l -> p x = true -> q x = true) -> (countb p l <= countb q l)%nat.
Proof.
  unfold countb. induction l as [|a l IH]; intros H; simpl; [lia|].
  assert (IH' := IH (fun x Hx => H x (list_elem_of_further _ _ _ Hx))).
  destruct (p a) eqn:E.
  - rewrite (H a) by (done || apply list_elem_of_here). simpl. lia.
  - destruct (q a); simpl; lia.
Qed.

Lemma countb_lt {A} (p q : A -> bool) l x :
  (forall x, x ∈ l -> p x = true -> q x = true) ->
  x ∈ l -> q x = true -> p x = false -> (countb p l < countb q l)%nat.
Proof.
  unfold countb. induction l as [|a l IH]; intros H Hx Hq Hp; simpl.
  { by apply not_elem_of_nil in Hx. }
  pose proof (countb_le p q l (fun x Hx => H x (list_elem_of_further _ _ _ Hx))) as Hle.
  unfold countb in Hle. apply elem_of_cons in Hx as [->|Hx].
  - rewrite Hp, Hq. simpl. lia.
  - assert (IH' := IH (fun x Hx => H x (list_elem_of_further _ _ _ Hx)) Hx Hq Hp).
    destruct (p a) eqn:E.
    + rewrite (H a) by (done || apply list_elem_of_here). simpl. lia.
    + destruct (q a); simpl; lia.
Qed.

Lemma countb_length {A} (p : A -> bool) l : (countb p l <= length l)%nat.
Proof. unfold countb. induction l; simpl; [done|]. destruct (p _); simpl; lia. Qed.

(** Partial correctness of a loop: what the body keeps, the loop keeps. *)
Lemma foldM_keeps {A B} (f : B -> A -> res B) (P : B -> Prop) l b b' :
  (forall b a b', P b -> f b a = Ok b' -> P b') -> P b -> foldM f l b = Ok b' -> P b'.
Proof.
  intros Hf. revert b. induction l as [|a l IH]; intros b Hb; simpl; [congruence|].
  intros (b1 & H1 & H2)%bind_inv. eauto.
Qed.

(** ** Arrays: C arrays indexed by an integer, with out-of-range accesses
    reported as undefined behaviour. *)

Definition rd {A} (l : list A) (i : Z) : res A :=
  if i <? 0 then Ub
  else match l !! Z.to_nat i with Some a => Ok a | None => Ub end.

Definition wr {A} (l : list A) (i : Z) (a : A) : res (list A) :=
  if (i <? 0) || (Z.of_nat (length l) <=? i) then Ub
  else Ok (<[Z.to_nat i := a]> l).

Lemma rd_nat {A} (l : list A) (i : nat) a :
  l !! i = Some a -> rd l (Z.of_nat i) = Ok a.
Proof. intros H. unfold rd. destruct (Z.ltb_spec (Z.of_nat i) 0); [lia|].
  by rewrite Nat2Z.id, H. Qed.

Lemma rd_Z {A} (l : list A) (i : Z) a :
  0 <= i -> l !! Z.to_nat i = Some a -> rd l i = Ok a.
Proof. intros Hi H. rewrite <- (Z2Nat.id i) by done. by apply rd_nat. Qed.

Lemma rd_inv {A} (l : list A) i a :
  rd l i = Ok a -> 0 <= i /\ l !! Z.to_nat i = Some a.
Proof. unfold rd. destruct (Z.ltb_spec i 0); [done|].
  destruct (l !! Z.to_nat i) eqn:E; intros ?; simplify_eq. done. Qed.

Lemma wr_inv {A} (l l' : list A) i a :
  wr l i a = Ok l' -> 0 <= i < Z.of_nat (length l) /\ l' = <[Z.to_nat i := a]> l.
Proof. unfold wr. destruct (Z.ltb_spec i 0); [done|].
  destruct (Z.leb_spec (Z.of_nat (length l)) i); [done|]. intros [= <-]. split; [lia|done]. Qed.

Lemma wr_nat {A} (l : list A) (i : nat) a :
  (i < length l)%nat -> wr l (Z.of_nat i) a = Ok (<[i := a]> l).
Proof. intros H. unfold wr.
  destruct (Z.ltb_spec (Z.of_nat i) 0); [lia|].
  destruct (Z.leb_spec (Z.of_nat (length l)) (Z.of_nat i)); [lia|].
  by rewrite Nat2Z.id. Qed.

Lemma wr_Z {A} (l : list A) (i : Z) a :
  0 <= i < Z.of_nat (length l) -> wr l i a = Ok (<[Z.to_nat i := a]> l).
Proof. intros H. rewrite <- (Z2Nat.id i) at 1 by lia. apply wr_nat. lia. Qed.

(** ** Automation *)

(** Linear arithmetic with division and remainder by constants. *)
Ltac div_lia := Z.to_euclidean_division_equations; lia.

(** Case analysis on the tests of the source: the first conditional of the goal
    (or of a hypothesis), its comparisons turned into propositions. *)
Ltac cmp_spec b :=
  lazymatch b with
  | negb ?b => cmp_spec b
  | ?a && ?b => cmp_spec a
  | ?a || ?b => cmp_spec a
  | ?a <? ?b => destruct (Z.ltb_spec a b)
  | ?a <=? ?b => destruct (Z.leb_spec a b)
  | ?a =? ?b => destruct (Z.eqb_spec a b)
  | decide ?P => destruct (decide P)
  | bool_decide ?P => destruct (bool_decide_reflect P)
  | _ => let E := fresh "E" in destruct b eqn:E
  end.
Ltac case_cmp :=
  match goal with
  | |- context [if ?b then _ else _] => cmp_spec b
  end; cbn [negb andb orb]; try (lia || done).
Ltac case_cmp_in H :=
  match type of H with
  | context [if ?b then _ else _] => cmp_spec b
  end; cbn [negb andb orb] in H; try (lia || done).

Create HintDb viper.
#[export] Hint Resolve u8_range u32_range u64_range : viper.
