(* ===== verification/Cap.v ===== *)
(** * Capability tables

    Models [src/kernel/cap/rights.hpp], [handle.hpp], [table.hpp] and
    [table.cpp]: handles, rights masks, the entry array with its intrusive
    free list (the next free index lives in [Entry::object] of an unused slot)
    and every operation of [cap::Table].  A pointer to an entry is the index of
    its slot.  The spinlock makes each operation atomic; interleavings of tasks
    are sequences of operations. *)

From S2P Require Import Prelude.

Module Cap.

(** ** Handles ([handle.hpp]) *)

Definition HANDLE_INVALID : Z := 0xFFFFFFFF.
Definition INDEX_MASK : Z := 0x00FFFFFF.
Definition GEN_SHIFT : Z := 24.
Definition GEN_MASK : Z := 0xFF.

Definition handle_index (h : Z) : Z := Z.land h INDEX_MASK.
Definition handle_gen (h : Z) : Z := u8 (Z.land (Z.shiftr h GEN_SHIFT) GEN_MASK).
Definition make_handle (index gen : Z) : Z :=
  Z.lor (Z.land index INDEX_MASK) (u32 (Z.shiftl gen GEN_SHIFT)).

(** ** Rights ([rights.hpp]) *)

Definition CAP_NONE : Z := 0.
Definition CAP_READ : Z := Z.shiftl 1 0.
Definition CAP_WRITE : Z := Z.shiftl 1 1.
Definition CAP_EXECUTE : Z := Z.shiftl 1 2.
Definition CAP_LIST : Z := Z.shiftl 1 3.
Definition CAP_CREATE : Z := Z.shiftl 1 4.
Definition CAP_DELETE : Z := Z.shiftl 1 5.
Definition CAP_DERIVE : Z := Z.shiftl 1 6.
Definition CAP_TRANSFER : Z := Z.shiftl 1 7.
Definition CAP_SPAWN : Z := Z.shiftl 1 8.
Definition CAP_TRAVERSE : Z := Z.shiftl 1 9.
Definition CAP_DEVICE_ACCESS : Z := Z.shiftl 1 10.
Definition CAP_IRQ_ACCESS : Z := Z.shiftl 1 11.
Definition CAP_DMA_ACCESS : Z := Z.shiftl 1 12.
Definition CAP_RW : Z := Z.lor CAP_READ CAP_WRITE.
Definition CAP_RWX : Z := Z.lor (Z.lor CAP_READ CAP_WRITE) CAP_EXECUTE.
Definition CAP_ALL : Z := 0xFFFFFFFF.

Definition has_rights (current required : Z) : bool :=
  Z.land current required =? required.

(** ** Table entries ([table.hpp]) *)

Inductive Kind : Set :=
| Invalid | String | Array | Blob | Channel | Poll | Timer | Task | Viper
| File | Directory | Surface | Input | SharedMemory | Device.

#[export] Instance Kind_eq_dec : EqDecision Kind.
Proof. solve_decision. Defined.

Definition NO_PARENT : Z := 0xFFFFFFFF.

Record Entry := mkEntry {
  object : Z;
  rights : Z;
  parent_index : Z;
  kind : Kind;
  generation : Z
}.

#[export] Instance Entry_eq_dec : EqDecision Entry.
Proof. solve_decision. Defined.

(** What [kzalloc] leaves in a slot. *)
Definition zero_entry : Entry := mkEntry 0 0 0 Invalid 0.

Record Table := mkTable {
  entries : list Entry;
  capacity : Z;
  count : Z;
  free_head : Z
}.

Definition DEFAULT_CAPACITY : Z := 256.

(** The state of a default-constructed table, and of a destroyed one. *)
Definition empty_table : Table := mkTable [] 0 0 0.

(** ** Operations ([table.cpp]) *)

(** The value that ends the free list. *)
Definition FREE_END : Z := 0xFFFFFFFF.

(** [Table::init]; [alloc_ok] says whether [kzalloc] found the memory. *)
Definition init (alloc_ok : bool) (cap : Z) (t : Table) : res (Table * bool) :=
  if negb alloc_ok then Ok (mkTable [] (capacity t) (count t) (free_head t), false)
  else
    let es := replicate (Z.to_nat cap) zero_entry in
    es ← foldM (fun es i =>
           e ← rd es i;
           wr es i (mkEntry (u64 (i + 1)) (rights e) NO_PARENT Invalid 0))
         (seqZ 0 (u64 (cap - 1))) es;
    let last := u64 (cap - 1) in
    e ← rd es last;
    es ← wr es last (mkEntry FREE_END (rights e) NO_PARENT Invalid 0);
    Ok (mkTable es cap 0 0, true).

(** [Table::destroy]. *)
Definition destroy (t : Table) : Table := empty_table.

(** [Table::insert]. *)
Definition insert (t : Table) (obj : Z) (k : Kind) (r : Z) : res (Table * Z) :=
  if free_head t =? FREE_END then Ok (t, HANDLE_INVALID)
  else
    let index := free_head t in
    e ← rd (entries t) index;
    es ← wr (entries t) index (mkEntry obj r NO_PARENT k (generation e));
    Ok (mkTable es (capacity t) (u64 (count t + 1)) (u32 (object e)),
        make_handle index (generation e)).

(** [Table::insert_bounded]. *)
Definition insert_bounded (t : Table) (obj : Z) (k : Kind) (r bounding_set : Z) :=
  insert t obj k (Z.land r bounding_set).

(** [get_unlocked]: the slot a handle denotes, or nothing. *)
Definition get_unlocked (es : list Entry) (cap h : Z) : res (option Z) :=
  if h =? HANDLE_INVALID then Ok None
  else
    let index := handle_index h in
    let gen := handle_gen h in
    if cap <=? index then Ok None
    else
      e ← rd es index;
      if decide (kind e = Invalid) then Ok None
      else if negb (generation e =? gen) then Ok None
      else Ok (Some index).

(** [Table::get]. *)
Definition get (t : Table) (h : Z) : res (option Z) :=
  get_unlocked (entries t) (capacity t) h.

(** [Table::get_checked]. *)
Definition get_checked (t : Table) (h : Z) (expected : Kind) : res (option Z) :=
  o ← get_unlocked (entries t) (capacity t) h;
  match o with
  | None => Ok None
  | Some i =>
      e ← rd (entries t) i;
      if decide (kind e = expected) then Ok (Some i) else Ok None
  end.

(** [Table::get_with_rights]. *)
Definition get_with_rights (t : Table) (h : Z) (k : Kind) (required : Z)
  : res (option Z) :=
  o ← get_unlocked (entries t) (capacity t) h;
  match o with
  | None => Ok None
  | Some i =>
      e ← rd (entries t) i;
      if decide (kind e = k) then
        if has_rights (rights e) required then Ok (Some i) else Ok None
      else Ok None
  end.

(** [Table::remove]. *)
Definition remove (t : Table) (h : Z) : res Table :=
  if h =? HANDLE_INVALID then Ok t
  else
    let index := handle_index h in
    if capacity t <=? index then Ok t
    else
      e ← rd (entries t) index;
      if decide (kind e = Invalid) then Ok t
      else
        es ← wr (entries t) index
               (mkEntry (free_head t) 0 (parent_index e) Invalid
                        (u8 (generation e + 1)));
        Ok (mkTable es (capacity t) (u64 (count t - 1)) index).

(** [Table::derive]. *)
Definition derive (t : Table) (h new_rights : Z) : res (Table * Z) :=
  o ← get_unlocked (entries t) (capacity t) h;
  match o with
  | None => Ok (t, HANDLE_INVALID)
  | Some i =>
      e ← rd (entries t) i;
      if negb (has_rights (rights e) CAP_DERIVE) then Ok (t, HANDLE_INVALID)
      else
        let allowed := Z.land (rights e) new_rights in
        let parent_idx := handle_index h in
        if free_head t =? FREE_END then Ok (t, HANDLE_INVALID)
        else
          let index := free_head t in
          ne ← rd (entries t) index;
          es ← wr (entries t) index
                 (mkEntry (object e) allowed parent_idx (kind e) (generation ne));
          Ok (mkTable es (capacity t) (u64 (count t + 1)) (u32 (object ne)),
              make_handle index (generation ne))
  end.

(** [revoke_unlocked]: the recursion over the derivation tree.  The fuel bounds
    the depth of the recursion. *)
Fixpoint revoke_unlocked (fuel : nat) (t : Table) (h : Z) : res (Table * Z) :=
  match fuel with
  | O => Diverge
  | S fuel =>
      if h =? HANDLE_INVALID then Ok (t, 0)
      else
        let index := handle_index h in
        let gen := handle_gen h in
        if capacity t <=? index then Ok (t, 0)
        else
          e ← rd (entries t) index;
          if decide (kind e = Invalid) then Ok (t, 0)
          else if negb (generation e =? gen) then Ok (t, 0)
          else
            '(t, revoked) ← foldM (fun '(t, revoked) i =>
                ei ← rd (entries t) i;
                if bool_decide (kind ei <> Invalid) && (parent_index ei =? index)
                then
                  '(t, n) ← revoke_unlocked fuel t
                               (make_handle (u32 i) (generation ei));
                  Ok (t, u32 (revoked + n))
                else Ok (t, revoked))
              (seqZ 0 (capacity t)) (t, 0);
            e ← rd (entries t) index;
            es ← wr (entries t) index
                   (mkEntry (free_head t) 0 NO_PARENT Invalid
                            (u8 (generation e + 1)));
            Ok (mkTable es (capacity t) (u64 (count t - 1)) index,
                u32 (revoked + 1))
  end.

(** [Table::revoke].  The derivation tree of a table is at most [capacity]
    deep, so this fuel is enough whenever the recursion ends at all. *)
Definition revoke (t : Table) (h : Z) : res (Table * Z) :=
  revoke_unlocked (S (Z.to_nat (capacity t))) t h.

(** [Table::entry_at]. *)
Definition entry_at (t : Table) (index : Z) : option Z :=
  if capacity t <=? index then None else Some index.

(** [Table::generation_at]. *)
Definition generation_at (t : Table) (index : Z) : res Z :=
  if capacity t <=? index then Ok 0
  else e ← rd (entries t) index; Ok (generation e).

(** ** Invariant *)

(** The list of slots reached from index [head] through the links stored in
    the unused entries. *)
Fixpoint chain (es : list Entry) (head : Z) (l : list nat) : Prop :=
  match l with
  | [] => head = FREE_END
  | i :: l => head = Z.of_nat i /\
      exists e, es !! i = Some e /\ kind e = Invalid /\ chain es (u32 (object e)) l
  end.

Definition entry_ok (e : Entry) : Prop :=
  in_width 8 (generation e) /\ in_width 32 (rights e).

(** [wf_free t fl]: the table is well formed and [fl] is its free list, which
    holds exactly the unused slots, each once. *)
Record wf_free (t : Table) (fl : list nat) : Prop := {
  wf_length : Z.of_nat (length (entries t)) = capacity t;
  wf_capacity : 0 < capacity t < 2 ^ 24;
  wf_entries : Forall entry_ok (entries t);
  wf_chain : chain (entries t) (free_head t) fl;
  wf_nodup : NoDup fl;
  wf_all_free : forall i e, entries t !! i = Some e -> kind e = Invalid -> i ∈ fl;
  wf_count : count t = capacity t - Z.of_nat (length fl)
}.

Definition wf (t : Table) : Prop := exists fl, wf_free t fl.

(** The slot [i] is allocated and holds [e]. *)
Definition live (t : Table) (i : nat) (e : Entry) : Prop :=
  entries t !! i = Some e /\ kind e <> Invalid.

(** ** Handles *)

Lemma make_handle_add i g :
  0 <= i < 2 ^ 24 -> 0 <= g < 2 ^ 8 -> make_handle i g = i + g * 2 ^ 24.
Proof.
  intros Hi Hg. unfold make_handle, INDEX_MASK, GEN_SHIFT.
  change 0x00FFFFFF with (Z.ones 24). rewrite Z.land_ones by lia.
  rewrite Z.mod_small, Z.shiftl_mul_pow2 by lia.
  rewrite u32_small by lia. by apply lor_low_high.
Qed.

Lemma handle_index_mod h : handle_index h = h mod 2 ^ 24.
Proof. unfold handle_index. change INDEX_MASK with (Z.ones 24). by rewrite Z.land_ones. Qed.

Lemma handle_gen_div h : handle_gen h = (h / 2 ^ 24) mod 2 ^ 8.
Proof.
  unfold handle_gen, GEN_SHIFT. change GEN_MASK with (Z.ones 8).
  rewrite Z.land_ones, Z.shiftr_div_pow2 by lia.
  apply u8_small. apply Z.mod_pos_bound. lia.
Qed.

Lemma handle_index_make i g :
  0 <= i < 2 ^ 24 -> 0 <= g < 2 ^ 8 -> handle_index (make_handle i g) = i.
Proof.
  intros Hi Hg. rewrite make_handle_add, handle_index_mod by done.
  rewrite Z.mod_add by lia. apply Z.mod_small. lia.
Qed.

Lemma handle_gen_make i g :
  0 <= i < 2 ^ 24 -> 0 <= g < 2 ^ 8 -> handle_gen (make_handle i g) = g.
Proof.
  intros Hi Hg. rewrite make_handle_add, handle_gen_div by done.
  rewrite Z.div_add, (Z.div_small i) by lia. apply Z.mod_small. lia.
Qed.

Lemma make_handle_valid i g :
  0 <= i < 2 ^ 24 - 1 -> 0 <= g < 2 ^ 8 -> make_handle i g <> HANDLE_INVALID.
Proof. intros Hi Hg. rewrite make_handle_add by lia. unfold HANDLE_INVALID. lia. Qed.

Lemma handle_index_range h : 0 <= handle_index h < 2 ^ 24.
Proof. rewrite handle_index_mod. apply Z.mod_pos_bound. lia. Qed.

Lemma make_handle_split h :
  in_width 32 h -> make_handle (handle_index h) (handle_gen h) = h.
Proof.
  intros Hh. unfold in_width in Hh.
  pose proof (handle_index_range h).
  assert (handle_gen h = h / 2 ^ 24) as ->.
  { rewrite handle_gen_div. apply Z.mod_small. split; [apply Z.div_pos; lia|].
    apply Z.div_lt_upper_bound; lia. }
  rewrite make_handle_add, handle_index_mod; [|done|].
  - rewrite Z.mul_comm, Z.add_comm. symmetry. apply Z.div_mod. lia.
  - split; [apply Z.div_pos; lia|]. apply Z.div_lt_upper_bound; lia.
Qed.

Lemma make_handle_inj i g i' g' :
  0 <= i < 2 ^ 24 -> 0 <= g < 2 ^ 8 -> 0 <= i' < 2 ^ 24 -> 0 <= g' < 2 ^ 8 ->
  make_handle i g = make_handle i' g' -> i = i' /\ g = g'.
Proof. intros. rewrite !make_handle_add in *; lia. Qed.

End Cap.
