(* ===== verification/CapTable.v ===== *)
(** * The capability table implements a map from handles to capabilities

    Preservation of the free-list invariant by every operation of
    [src/kernel/cap/table.cpp], and the refinement of the table by a finite map
    from handles to (object, kind, rights). *)

From S2P Require Import Prelude Cap.

Module CapTable.
Import Cap.

(** ** Abstract view *)

(** What a valid handle gives access to. *)
Record Capability := mkCap { c_object : Z; c_kind : Kind; c_rights : Z }.

#[export] Instance Capability_eq_dec : EqDecision Capability.
Proof. solve_decision. Defined.

Definition view (e : Entry) : Capability := mkCap (object e) (kind e) (rights e).

Definition bindings (es : list Entry) : list (Z * Capability) :=
  mjoin (imap (fun i e =>
    if decide (kind e = Invalid) then []
    else [(make_handle (Z.of_nat i) (generation e), view e)]) es).

(** The abstract state of a table: its handles and what they denote. *)
Definition abs (t : Table) : gmap Z Capability := list_to_map (bindings (entries t)).

(** The table after slot [i] is taken from the free list and filled with [e],
    and after slot [i] is released. *)
Definition fill (t : Table) (i : nat) (next : Z) (e : Entry) : Table :=
  mkTable (<[i := e]> (entries t)) (capacity t) (count t + 1) next.

Definition freed (t : Table) (i : nat) (e : Entry) (parent : Z) : Table :=
  mkTable (<[i := mkEntry (free_head t) 0 parent Invalid (u8 (generation e + 1))]>
             (entries t)) (capacity t) (count t - 1) (Z.of_nat i).

(** ** The free list *)

Lemma chain_frame es head l i e :
  chain es head l -> i ∉ l -> chain (<[i := e]> es) head l.
Proof.
  revert head. induction l as [|j l IH]; intros head; simpl; [done|].
  intros (-> & ej & Hj & Hk & Hc) Hi. apply not_elem_of_cons in Hi as [Hne Hi].
  split; [done|]. exists ej. rewrite list_lookup_insert_ne by done. auto.
Qed.

Lemma chain_invalid es head l i e :
  chain es head l -> i ∈ l -> es !! i = Some e -> kind e = Invalid.
Proof.
  revert head. induction l as [|j l IH]; intros head; simpl.
  { intros _ Hi. by apply not_elem_of_nil in Hi. }
  intros (-> & ej & Hj & Hk & Hc) Hi He.
  apply elem_of_cons in Hi as [->|Hi]; [congruence|eauto].
Qed.

Lemma chain_lt es head l i : chain es head l -> i ∈ l -> (i < length es)%nat.
Proof.
  revert head. induction l as [|j l IH]; intros head; simpl.
  { intros _ Hi. by apply not_elem_of_nil in Hi. }
  intros (_ & e & He & _ & Hc) [->|Hi]%elem_of_cons; [by eapply lookup_lt_Some|eauto].
Qed.

(** Distinct slots of the table are at most as many as its entries. *)
Lemma slots_length (es : list Entry) (l : list nat) :
  NoDup l -> (forall i, i ∈ l -> (i < length es)%nat) -> (length l <= length es)%nat.
Proof.
  intros Hnd Hlt. rewrite <- (length_seq (length es) 0).
  apply submseteq_length, NoDup_submseteq; [done|].
  intros i Hi%Hlt. apply elem_of_seq. lia.
Qed.

Section invariant.
Context (t : Table) (fl : list nat) (Hwf : wf_free t fl).

Lemma slot_bounds i e : entries t !! i = Some e -> 0 <= Z.of_nat i < capacity t.
Proof. intros H%lookup_lt_Some. pose proof (wf_length _ _ Hwf). lia. Qed.

Lemma slot_ok i e : entries t !! i = Some e -> entry_ok e.
Proof. intros H. eapply Forall_lookup_1; [apply Hwf|done]. Qed.

Lemma free_not_live i e : live t i e -> i ∉ fl.
Proof. intros [He Hk] Hi. by eapply chain_invalid in Hi; [|apply Hwf|]. Qed.

Lemma fl_length : (length fl <= length (entries t))%nat.
Proof.
  apply slots_length; [apply Hwf|]. intros i. eapply chain_lt, Hwf.
Qed.

Lemma count_bounds : 0 <= count t <= capacity t.
Proof. pose proof fl_length. destruct Hwf. lia. Qed.

End invariant.

Lemma head_free t fl : wf_free t fl -> free_head t = FREE_END <-> fl = [].
Proof.
  intros Hwf. pose proof (wf_chain _ _ Hwf) as Hc. destruct fl as [|i l]; [done|].
  destruct Hc as (Hh & e & He & _). split; [|done]. intros Hend.
  apply (slot_bounds _ _ Hwf) in He. pose proof (wf_capacity _ _ Hwf).
  unfold FREE_END in *. lia.
Qed.

Lemma head_u32 t fl : wf_free t fl -> u32 (free_head t) = free_head t.
Proof.
  intros Hwf. pose proof (wf_chain _ _ Hwf) as Hc. destruct fl as [|i l].
  { simpl in Hc. rewrite Hc. done. }
  destruct Hc as (-> & e & He%(slot_bounds _ _ Hwf) & _).
  pose proof (wf_capacity _ _ Hwf). apply u32_small. lia.
Qed.

Lemma live_count t fl i e : wf_free t fl -> live t i e -> 0 < count t.
Proof.
  intros Hwf [He Hk]. rewrite (wf_count _ _ Hwf).
  assert (S (length fl) <= length (entries t))%nat.
  { apply (slots_length _ (i :: fl)).
    - apply NoDup_cons; split; [|apply Hwf]. by eapply free_not_live.
    - intros j [->|Hj]%elem_of_cons; [by eapply lookup_lt_Some|].
      eapply chain_lt; [apply Hwf|done]. }
  pose proof (wf_length _ _ Hwf). lia.
Qed.

Lemma fill_wf t i fl ne e :
  wf_free t (i :: fl) -> entries t !! i = Some ne -> kind e <> Invalid ->
  entry_ok e -> wf_free (fill t i (u32 (object ne)) e) fl.
Proof.
  intros Hwf Hne Hk He. pose proof (wf_nodup _ _ Hwf) as [Hi Hnd]%NoDup_cons.
  pose proof (wf_chain _ _ Hwf) as (_ & ne' & Hne' & _ & Hc).
  rewrite Hne in Hne'. simplify_eq.
  split; simpl.
  - rewrite length_insert. apply Hwf.
  - apply Hwf.
  - apply Forall_insert; [apply Hwf|done].
  - by apply chain_frame.
  - done.
  - intros j ej Hj Hkj. destruct (decide (i = j)) as [<-|Hij].
    + rewrite list_lookup_insert_eq in Hj by (by eapply lookup_lt_Some). congruence.
    + rewrite list_lookup_insert_ne in Hj by done.
      pose proof (wf_all_free _ _ Hwf _ _ Hj Hkj) as [?|?]%elem_of_cons; [congruence|done].
  - rewrite (wf_count _ _ Hwf). simpl. lia.
Qed.

Lemma freed_wf t i fl e p :
  wf_free t fl -> live t i e -> wf_free (freed t i e p) (i :: fl).
Proof.
  intros Hwf Hl. pose proof (free_not_live _ _ Hwf _ _ Hl) as Hi.
  destruct Hl as [He Hk]. pose proof (lookup_lt_Some _ _ _ He).
  split; simpl.
  - rewrite length_insert. apply Hwf.
  - apply Hwf.
  - apply Forall_insert; [apply Hwf|]. split; simpl; [apply u8_range|done].
  - split; [done|]. eexists. rewrite list_lookup_insert_eq by done.
    split; [done|]. split; [done|]. simpl. rewrite (head_u32 _ _ Hwf).
    apply chain_frame; [apply Hwf|done].
  - apply NoDup_cons. split; [done|apply Hwf].
  - intros j ej Hj Hkj. apply elem_of_cons. destruct (decide (i = j)) as [<-|Hij]; [by left|].
    rewrite list_lookup_insert_ne in Hj by done. right. by eapply wf_all_free.
  - rewrite (wf_count _ _ Hwf). lia.
Qed.

(** ** Lookups *)

Lemma elem_of_bindings es h c :
  (h, c) ∈ bindings es <->
  exists i e, es !! i = Some e /\ kind e <> Invalid /\
    h = make_handle (Z.of_nat i) (generation e) /\ c = view e.
Proof.
  unfold bindings. rewrite list_elem_of_join. setoid_rewrite elem_of_lookup_imap.
  split.
  - intros (l & Hin & i & e & -> & He). case_decide; set_solver.
  - intros (i & e & He & Hk & -> & ->). eexists. split; [|by exists i, e].
    rewrite decide_False by done. set_solver.
Qed.

Lemma live_handle_inj t fl i e j e' :
  wf_free t fl -> live t i e -> entries t !! j = Some e' ->
  make_handle (Z.of_nat i) (generation e) = make_handle (Z.of_nat j) (generation e') ->
  i = j /\ e = e'.
Proof.
  intros Hwf [Hi _] Hj Heq. pose proof (wf_capacity _ _ Hwf).
  pose proof (slot_bounds _ _ Hwf _ _ Hi). pose proof (slot_bounds _ _ Hwf _ _ Hj).
  destruct (slot_ok _ _ Hwf _ _ Hi), (slot_ok _ _ Hwf _ _ Hj).
  apply make_handle_inj in Heq as [Hij Hg]; [|unfold in_width in *; lia..].
  apply Nat2Z.inj in Hij. subst. split; congruence.
Qed.

Lemma abs_lookup t fl h c :
  wf_free t fl ->
  abs t !! h = Some c <->
  exists i e, live t i e /\ h = make_handle (Z.of_nat i) (generation e) /\ c = view e.
Proof.
  intros Hwf. unfold abs. split.
  - intros Hin%elem_of_list_to_map_2%elem_of_bindings. unfold live. naive_solver.
  - intros (i & e & Hl & -> & ->). apply elem_of_list_to_map_1'.
    + intros c' (j & e' & Hj & _ & Heq & ->)%elem_of_bindings.
      by destruct (live_handle_inj _ _ _ _ _ _ Hwf Hl Hj Heq) as [_ ->].
    + destruct Hl. apply elem_of_bindings. eauto 10.
Qed.

Lemma get_spec t fl h :
  wf_free t fl -> in_width 32 h ->
  match get t h with
  | Ok (Some i) => exists e, 0 <= i /\ live t (Z.to_nat i) e /\
                     handle_index h = i /\ h = make_handle i (generation e)
  | Ok None => abs t !! h = None
  | _ => False
  end.
Proof.
  intros Hwf Hh. unfold get, get_unlocked.
  pose proof (handle_index_range h) as Hr. pose proof (wf_capacity _ _ Hwf).
  assert (Hnone : (forall i e, live t i e -> h = make_handle (Z.of_nat i) (generation e) -> False)
            -> abs t !! h = None).
  { intros Hn. apply eq_None_not_Some. intros [c (i & e & Hl & -> & _)%(abs_lookup _ _ _ _ Hwf)].
    eauto. }
  assert (Hidx : forall i e, live t i e -> h = make_handle (Z.of_nat i) (generation e) ->
            handle_index h = Z.of_nat i /\ handle_gen h = generation e /\ Z.of_nat i < capacity t).
  { intros i e [He _] ->. pose proof (slot_bounds _ _ Hwf _ _ He).
    destruct (slot_ok _ _ Hwf _ _ He). unfold in_width in *.
    rewrite handle_index_make, handle_gen_make by lia. lia. }
  case_cmp.
  { apply Hnone. intros i e' [He _] Hh'. pose proof (slot_bounds _ _ Hwf _ _ He).
    destruct (slot_ok _ _ Hwf _ _ He). unfold in_width in *.
    apply (make_handle_valid (Z.of_nat i) (generation e')); lia. }
  case_cmp.
  { apply Hnone. intros i e Hl Hh'. destruct (Hidx _ _ Hl Hh'). lia. }
  destruct (lookup_lt_is_Some_2 (entries t) (Z.to_nat (handle_index h))) as [e He].
  { pose proof (wf_length _ _ Hwf). lia. }
  rewrite (rd_Z _ _ e) by (done || lia). simpl. case_decide.
  { apply Hnone. intros i e' Hl Hh'. destruct (Hidx _ _ Hl Hh') as (Hi & _).
    destruct Hl as [He' Hk']. rewrite Hi, Nat2Z.id in He. congruence. }
  case_cmp.
  - exists e. split; [lia|]. split; [done|]. split; [done|].
    match goal with H : generation e = _ |- _ => rewrite H end.
    by rewrite make_handle_split.
  - apply Hnone. intros i e' Hl Hh'. destruct (Hidx _ _ Hl Hh') as (Hi & Hg & _).
    destruct Hl as [He' Hk']. rewrite Hi, Nat2Z.id in He. congruence.
Qed.

(** ** Operations on well-formed tables *)

Lemma wr_slot t fl i e e' :
  wf_free t fl -> entries t !! i = Some e ->
  wr (entries t) (Z.of_nat i) e' = Ok (<[i := e']> (entries t)).
Proof. intros _ H. apply wr_nat. by eapply lookup_lt_Some. Qed.

Lemma count_succ t i fl : wf_free t (i :: fl) -> u64 (count t + 1) = count t + 1.
Proof.
  intros Hwf. pose proof (count_bounds _ _ Hwf). pose proof (wf_capacity _ _ Hwf).
  apply u64_small. lia.
Qed.

Lemma count_pred t fl i e : wf_free t fl -> live t i e -> u64 (count t - 1) = count t - 1.
Proof.
  intros Hwf Hl. pose proof (live_count _ _ _ _ Hwf Hl).
  pose proof (count_bounds _ _ Hwf). pose proof (wf_capacity _ _ Hwf).
  apply u64_small. lia.
Qed.

Lemma insert_full t obj k r : wf_free t [] -> insert t obj k r = Ok (t, HANDLE_INVALID).
Proof. intros Hwf. unfold insert. by rewrite (wf_chain _ _ Hwf : free_head t = FREE_END). Qed.

Lemma insert_fill t i fl obj k r :
  wf_free t (i :: fl) ->
  exists ne, entries t !! i = Some ne /\ kind ne = Invalid /\ free_head t <> FREE_END /\
    insert t obj k r =
      Ok (fill t i (u32 (object ne)) (mkEntry obj r NO_PARENT k (generation ne)),
          make_handle (Z.of_nat i) (generation ne)).
Proof.
  intros Hwf. pose proof (wf_chain _ _ Hwf) as (Hh & ne & Hne & Hk & _).
  assert (free_head t <> FREE_END) by (by rewrite (head_free _ _ Hwf)).
  exists ne. do 3 (split; [done|]). unfold insert. case_cmp.
  rewrite Hh, (rd_nat _ _ _ Hne). simpl. rewrite (wr_slot _ _ _ _ _ Hwf Hne). simpl.
  by rewrite (count_succ _ _ _ Hwf).
Qed.

Lemma remove_live t fl i e h :
  wf_free t fl -> live t i e -> handle_index h = Z.of_nat i -> h <> HANDLE_INVALID ->
  remove t h = Ok (freed t i e (parent_index e)).
Proof.
  intros Hwf Hl Hi Hh. unfold remove. case_cmp.
  destruct Hl as [He Hk]. pose proof (slot_bounds _ _ Hwf _ _ He).
  rewrite Hi. case_cmp. rewrite (rd_nat _ _ _ He). simpl. case_cmp.
  rewrite (wr_slot _ _ _ _ _ Hwf He). simpl.
  by rewrite (count_pred _ _ _ _ Hwf (conj He Hk)).
Qed.

Lemma handle_live t fl i e h :
  wf_free t fl -> live t i e -> h = make_handle (Z.of_nat i) (generation e) ->
  handle_index h = Z.of_nat i /\ handle_gen h = generation e /\ h <> HANDLE_INVALID /\
  Z.of_nat i < capacity t.
Proof.
  intros Hwf [He _] ->. pose proof (slot_bounds _ _ Hwf _ _ He).
  pose proof (wf_capacity _ _ Hwf).
  destruct (slot_ok _ _ Hwf _ _ He). unfold in_width in *.
  rewrite handle_index_make, handle_gen_make by lia.
  split; [done|]. split; [done|]. split; [apply make_handle_valid; lia|lia].
Qed.

Lemma get_live t fl i e h :
  wf_free t fl -> live t i e -> h = make_handle (Z.of_nat i) (generation e) ->
  get_unlocked (entries t) (capacity t) h = Ok (Some (Z.of_nat i)).
Proof.
  intros Hwf Hl Hh. destruct (handle_live _ _ _ _ _ Hwf Hl Hh) as (Hi & Hg & Hv & Hc).
  destruct Hl as [He Hk]. unfold get_unlocked. case_cmp. rewrite Hi. case_cmp.
  rewrite (rd_nat _ _ _ He). simpl. case_cmp. rewrite Hg. case_cmp.
Qed.

(** A handle denotes a capability exactly when [get] finds its slot. *)
Lemma get_abs t fl h :
  wf_free t fl -> in_width 32 h ->
  (exists i e, live t i e /\ h = make_handle (Z.of_nat i) (generation e) /\
     get t h = Ok (Some (Z.of_nat i)) /\ abs t !! h = Some (view e)) \/
  (get t h = Ok None /\ abs t !! h = None).
Proof.
  intros Hwf Hh. pose proof (get_spec _ _ _ Hwf Hh) as Hg.
  destruct (get t h) as [[i|]| |]; [|by right|done|done]. left.
  destruct Hg as (e & Hi & Hl & _ & Hhe). rewrite <- (Z2Nat.id i) in Hhe by done.
  exists (Z.to_nat i), e. rewrite Z2Nat.id in * by done. split; [done|].
  split; [done|]. split; [done|]. apply (abs_lookup _ _ _ _ Hwf).
  exists (Z.to_nat i), e. by rewrite Z2Nat.id.
Qed.

(** ** Effect on the abstract map *)

Lemma live_fill t i next e j e' :
  (i < length (entries t))%nat ->
  (forall ne, entries t !! i = Some ne -> kind ne = Invalid) -> kind e <> Invalid ->
  live (fill t i next e) j e' <-> (j = i /\ e' = e) \/ live t j e'.
Proof.
  intros Hi Hinv Hk. unfold live, fill; simpl. destruct (decide (i = j)) as [<-|Hij].
  - rewrite list_lookup_insert_eq by done. naive_solver.
  - rewrite list_lookup_insert_ne by done. naive_solver.
Qed.

Lemma live_freed t i e p j e' :
  live t i e -> live (freed t i e p) j e' <-> j <> i /\ live t j e'.
Proof.
  intros [He Hk]. unfold live, freed; simpl.
  pose proof (lookup_lt_Some _ _ _ He). destruct (decide (i = j)) as [<-|Hij].
  - rewrite list_lookup_insert_eq by done. naive_solver.
  - rewrite list_lookup_insert_ne by done. naive_solver.
Qed.

Lemma abs_fill t i fl ne e :
  wf_free t (i :: fl) -> entries t !! i = Some ne -> kind ne = Invalid ->
  kind e <> Invalid -> entry_ok e -> generation e = generation ne ->
  let h := make_handle (Z.of_nat i) (generation ne) in
  abs t !! h = None /\ abs (fill t i (u32 (object ne)) e) = <[h := view e]> (abs t).
Proof.
  intros Hwf Hne Hkn Hk He Hg h.
  pose proof (fill_wf _ _ _ _ _ Hwf Hne Hk He) as Hwf'.
  pose proof (lookup_lt_Some _ _ _ Hne) as Hlt.
  assert (Hnl : forall j e', live t j e' -> h = make_handle (Z.of_nat j) (generation e') -> False).
  { intros j e' Hl Hh. destruct (live_handle_inj _ _ _ _ _ _ Hwf Hl Hne (eq_sym Hh)) as [-> ->].
    by destruct Hl. }
  split.
  - apply eq_None_not_Some. intros [c (j & e' & Hl & Hh & _)%(abs_lookup _ _ _ _ Hwf)]. eauto.
  - apply map_eq. intros h'. apply option_eq. intros c.
    rewrite (abs_lookup _ _ _ _ Hwf'), lookup_insert_Some, (abs_lookup _ _ _ _ Hwf).
    setoid_rewrite (live_fill t i (u32 (object ne)) e); [|done|by intros; simplify_eq|done].
    subst h. rewrite <- Hg. rewrite <- Hg in Hnl. naive_solver.
Qed.

Lemma abs_freed t i fl e p :
  wf_free t fl -> live t i e ->
  abs (freed t i e p) = delete (make_handle (Z.of_nat i) (generation e)) (abs t).
Proof.
  intros Hwf Hl. pose proof (freed_wf _ _ _ _ p Hwf Hl) as Hwf'.
  apply map_eq. intros h. apply option_eq. intros c.
  rewrite (abs_lookup _ _ _ _ Hwf'), lookup_delete_Some, (abs_lookup _ _ _ _ Hwf).
  setoid_rewrite (live_freed _ _ _ p _ _ Hl). split.
  - intros (j & e' & (Hne & Hl') & -> & ->). split; [|by eauto].
    intros Heq. destruct Hl' as [Hj ?].
    by destruct (live_handle_inj _ _ _ _ _ _ Hwf Hl Hj Heq) as [-> _].
  - intros (Hne & j & e' & Hl' & -> & ->). exists j, e'. split; [|done].
    split; [|done]. intros ->. destruct Hl, Hl'. congruence.
Qed.

End CapTable.
