(* ===== verification/CapRevoke.v ===== *)
(** * Revocation

    [cap::Table::revoke] ([src/kernel/cap/table.cpp]) walks the derivation tree
    recorded in [Entry::parent_index].  When the live entries form a forest it
    returns, and it frees exactly the capability and everything derived from
    it.  [remove] does not keep the forest shape, and then the recursion need
    not end. *)

From S2P Require Import Prelude Cap CapTable.

Module CapRevoke.
Import Cap CapTable.

(** ** Derivation trees *)

(** [desc t a i]: slot [i] is live and derived, in any number of steps, from
    the live slot [a]. *)
Inductive desc (t : Table) (a : nat) : nat -> Prop :=
| desc_refl e : live t a e -> desc t a a
| desc_step i e j :
    live t i e -> parent_index e = Z.of_nat j -> desc t a j -> desc t a i.

(** [ranked t f]: every live entry ranks above its live parent, so the parent
    links have no cycle. *)
Definition ranked (t : Table) (f : nat -> nat) : Prop :=
  forall i e j ej, live t i e -> live t j ej -> parent_index e = Z.of_nat j ->
    (f j < f i)%nat.

Definition acyclic (t : Table) : Prop := exists f, ranked t f.

(** The live entries form a forest: no cycles, and a parent link that is not
    [NO_PARENT] leads to a live entry. *)
Definition forest (t : Table) : Prop :=
  acyclic t /\
  forall i e, live t i e -> parent_index e = NO_PARENT \/
    exists j ej, parent_index e = Z.of_nat j /\ live t j ej.

(** [frees t t' D]: [t'] is [t] with exactly the slots of [D] released. *)
Record frees (t t' : Table) (D : nat -> Prop) : Prop := {
  fr_capacity : capacity t' = capacity t;
  fr_length : length (entries t') = length (entries t);
  fr_slot : forall i e, entries t !! i = Some e ->
    (entries t' !! i = Some e /\ ~ D i) \/
    (D i /\ kind e <> Invalid /\ exists o, entries t' !! i =
       Some (mkEntry o 0 NO_PARENT Invalid (u8 (generation e + 1))))
}.

(** The number of live slots ranked above [k]. *)
Definition above (t : Table) (f : nat -> nat) (k : nat) : nat :=
  countb (fun i => match entries t !! i with
                   | Some e => bool_decide (kind e <> Invalid) && (k <? f i)%nat
                   | None => false
                   end) (seq 0 (length (entries t))).

(** ** Facts about [frees] and [desc] *)

Lemma frees_live t t' D i e :
  frees t t' D -> live t' i e -> live t i e /\ ~ D i.
Proof.
  intros Hf [He Hk].
  destruct (lookup_lt_is_Some_2 (entries t) i) as [e0 He0].
  { rewrite <- (fr_length _ _ _ Hf). by eapply lookup_lt_Some. }
  destruct (fr_slot _ _ _ Hf _ _ He0) as [[He' HD]|(_ & _ & o & He')].
  - by rewrite He in He'; simplify_eq.
  - by rewrite He in He'; simplify_eq.
Qed.

Lemma frees_keep t t' D i e :
  frees t t' D -> live t i e -> live t' i e \/ D i.
Proof.
  intros Hf [He Hk]. destruct (fr_slot _ _ _ Hf _ _ He) as [[He' _]|[HD _]]; [|by right].
  by left.
Qed.

Lemma frees_trans t t1 t2 D1 D2 :
  frees t t1 D1 -> frees t1 t2 D2 -> frees t t2 (fun i => D1 i \/ D2 i).
Proof.
  intros H1 H2. split.
  - etransitivity; [apply H2|apply H1].
  - etransitivity; [apply H2|apply H1].
  - intros i e He. destruct (fr_slot _ _ _ H1 _ _ He) as [[He1 HD]|(HD & Hk & o & He1)].
    + destruct (fr_slot _ _ _ H2 _ _ He1) as [[He2 HD2]|(HD2 & Hk & He2)].
      * left. naive_solver.
      * right. naive_solver.
    + right. destruct (fr_slot _ _ _ H2 _ _ He1) as [[He2 HD2]|(HD2 & Hk2 & He2)].
      * split_and!; [by left|done|by exists o].
      * done.
Qed.

Lemma frees_iff t t' D D' :
  frees t t' D -> (forall i, D i <-> D' i) -> frees t t' D'.
Proof.
  intros Hf HD. split; [apply Hf|apply Hf|]. intros i e He.
  destruct (fr_slot _ _ _ Hf _ _ He); rewrite <- HD; auto.
Qed.

Lemma frees_none t : frees t t (fun _ => False).
Proof. split; [done|done|]. auto. Qed.

Lemma freed_frees t i e :
  live t i e -> frees t (freed t i e NO_PARENT) (fun j => j = i).
Proof.
  intros [He Hk]. pose proof (lookup_lt_Some _ _ _ He).
  split; simpl; [done|apply length_insert|]. intros j ej Hj.
  destruct (decide (i = j)) as [<-|Hij].
  - right. simplify_eq. split_and!; [done|done|]. eexists. by apply list_lookup_insert_eq.
  - left. rewrite list_lookup_insert_ne by done. auto.
Qed.

Lemma ranked_frees t t' D f : frees t t' D -> ranked t f -> ranked t' f.
Proof.
  intros Hf Hr i e j ej Hi Hj Hp. apply (frees_live _ _ _ _ _ Hf) in Hi as [Hi _].
  apply (frees_live _ _ _ _ _ Hf) in Hj as [Hj _]. eauto.
Qed.

Lemma desc_live t a i : desc t a i -> (exists e, live t i e) /\ (exists e, live t a e).
Proof. induction 1; naive_solver. Qed.

Lemma desc_trans t a b i : desc t a b -> desc t b i -> desc t a i.
Proof. intros Hab. induction 1; [done|by eapply desc_step]. Qed.

(** Every descendant other than [a] itself descends from a child of [a]. *)
Lemma desc_child t a i :
  desc t a i -> i = a \/ exists c ec, live t c ec /\ parent_index ec = Z.of_nat a /\ desc t c i.
Proof.
  induction 1 as [e Hl|i e j Hl Hp Hd IH]; [by left|]. right.
  destruct IH as [->|(c & ec & Hc & Hpc & Hdc)].
  - exists i, e. split_and!; [done|done|by eapply desc_refl].
  - exists c, ec. split_and!; [done|done|by eapply desc_step].
Qed.

Lemma desc_ranked t f a i : ranked t f -> desc t a i -> i = a \/ (f a < f i)%nat.
Proof.
  intros Hr. induction 1 as [e Hl|i e j Hl Hp Hd IH]; [by left|]. right.
  destruct (desc_live _ _ _ Hd) as [[ej Hj] _].
  pose proof (Hr _ _ _ _ Hl Hj Hp). destruct IH as [->|]; lia.
Qed.

(** Revoking [c] in a table where some slots are already free frees what is
    left of the descendants of [c]. *)
Lemma desc_frees t t' D c i :
  frees t t' D -> (forall x y, D x -> desc t x y -> D y) ->
  (D i \/ desc t' c i) <-> (D i \/ (desc t c i)).
Proof.
  intros Hf Hcl. split; (intros [HD|Hd]; [by left|]).
  - right. induction Hd as [e Hl|i e j Hl Hp Hd IH].
    + apply (frees_live _ _ _ _ _ Hf) in Hl as [Hl _]. by eapply desc_refl.
    + apply (frees_live _ _ _ _ _ Hf) in Hl as [Hl _]. by eapply desc_step.
  - induction Hd as [e Hl|i e j Hl Hp Hd IH].
    + destruct (frees_keep _ _ _ _ _ Hf Hl) as [Hl'|HD]; [|by left].
      right. by eapply desc_refl.
    + destruct IH as [HD|IH].
      * left. eapply Hcl; [exact HD|]. eapply desc_step; [done|done|].
        destruct (desc_live _ _ _ Hd) as [[ej Hj] _]. by eapply desc_refl.
      * destruct (frees_keep _ _ _ _ _ Hf Hl) as [Hl'|HD]; [|by left].
        right. by eapply desc_step.
Qed.

Lemma above_child t t' D f a c ec :
  frees t t' D -> live t c ec -> (f a < f c)%nat -> (above t' f (f c) < above t f (f a))%nat.
Proof.
  intros Hf Hc Hr. unfold above. rewrite (fr_length _ _ _ Hf). apply countb_lt with (x := c).
  - intros i _. destruct (entries t' !! i) as [e|] eqn:He; [|done].
    intros [Hk%bool_decide_eq_true Hlt%Nat.ltb_lt]%andb_true_iff.
    destruct (frees_live _ _ _ i e Hf (conj He Hk)) as [[-> _] _].
    apply andb_true_iff. split; [by apply bool_decide_eq_true|]. apply Nat.ltb_lt. lia.
  - destruct Hc as [Hc _]. apply elem_of_seq. apply lookup_lt_Some in Hc. lia.
  - destruct Hc as [-> Hk]. apply andb_true_iff. split; [by apply bool_decide_eq_true|].
    by apply Nat.ltb_lt.
  - destruct (entries t' !! c); [|done]. by rewrite Nat.ltb_irrefl, andb_false_r.
Qed.

Lemma above_length t f k : (above t f k <= length (entries t))%nat.
Proof. unfold above. etransitivity; [apply countb_length|]. by rewrite length_seq. Qed.

(** ** The recursion *)

(** What the loop over the table has freed when it has visited the indices
    [done_]: the trees below the children of [a] among them. *)
Definition below (t : Table) (a : nat) (done_ : list Z) (x : nat) : Prop :=
  exists c ec, Z.of_nat c ∈ done_ /\ live t c ec /\ parent_index ec = Z.of_nat a /\ desc t c x.

Lemma below_closed t a l x y : below t a l x -> desc t x y -> below t a l y.
Proof. intros (c & ec & ? & ? & ? & ?) Hd. exists c, ec. split_and!; eauto using desc_trans. Qed.

Lemma below_snoc t a l c :
  (forall x, below t a (l ++ [Z.of_nat c]) x <->
     below t a l x \/ (exists ec, live t c ec /\ parent_index ec = Z.of_nat a) /\ desc t c x).
Proof.
  intros x. unfold below. setoid_rewrite elem_of_app. setoid_rewrite list_elem_of_singleton.
  split.
  - intros (c' & ec & [Hin|Heq] & Hl & Hp & Hd); [left; by exists c', ec|].
    apply Nat2Z.inj in Heq. subst. right. eauto.
  - intros [(c' & ec & Hin & Hl & Hp & Hd)|[(ec & Hl & Hp) Hd]].
    + exists c', ec. auto.
    + exists c, ec. auto.
Qed.

Lemma below_not_self t f a l ea : ranked t f -> live t a ea -> ~ below t a l a.
Proof.
  intros Hr Ha (c & ec & _ & Hl & Hp & Hd). pose proof (Hr _ _ _ _ Hl Ha Hp).
  destruct (desc_ranked _ _ _ _ Hr Hd) as [->|]; lia.
Qed.

Lemma below_all t a ea x :
  live t a ea -> (below t a (seqZ 0 (Z.of_nat (length (entries t)))) x \/ x = a) <-> desc t a x.
Proof.
  intros Ha. split.
  - intros [(c & ec & _ & Hl & Hp & Hd)| ->]; [|by eapply desc_refl].
    eapply desc_trans; [|exact Hd]. eapply desc_step; [done|done|]. by eapply desc_refl.
  - intros Hx. apply desc_child in Hx as [->|(c & ec & Hl & Hp & Hd)]; [by right|].
    left. exists c, ec.
    split_and!; [|done..]. apply elem_of_seqZ. destruct Hl as [Hl%lookup_lt_Some _]. lia.
Qed.

(** The state of the loop after the indices [done_]. *)
Definition loop_state (t : Table) (a : nat) (done_ : list Z) (s : Table * Z) : Prop :=
  exists fl, wf_free s.1 fl /\ frees t s.1 (below t a done_) /\
    count s.1 = count t - s.2 /\ 0 <= s.2.

(** One call on a live slot releases its tree. *)
Definition releases (t : Table) (a : nat) (r : res (Table * Z)) : Prop :=
  exists t' fl n, r = Ok (t', n) /\ frees t t' (desc t a) /\ wf_free t' fl /\
    count t' = count t - n /\ 1 <= n.

Section loop.
Context (rec : Table -> Z -> res (Table * Z)) (t : Table) (fl : list nat) (a : nat).
Hypothesis Hwf : wf_free t fl.
Hypothesis Hrec : forall tk flk c ec,
  wf_free tk flk -> frees t tk (below t a (seqZ 0 (Z.of_nat c))) -> live tk c ec ->
  parent_index ec = Z.of_nat a ->
  releases tk c (rec tk (make_handle (Z.of_nat c) (generation ec))).

Lemma loop_step c s :
  (c < length (entries t))%nat ->
  loop_state t a (seqZ 0 (Z.of_nat c)) s ->
  exists s', (fun '(t, revoked) i =>
      ei ← rd (entries t) i;
      if bool_decide (kind ei <> Invalid) && (parent_index ei =? Z.of_nat a)
      then
        '(t, n) ← rec t (make_handle (u32 i) (generation ei));
        Ok (t, u32 (revoked + n))
      else Ok (t, revoked)) s (Z.of_nat c) = Ok s' /\
    loop_state t a (seqZ 0 (Z.of_nat c) ++ [Z.of_nat c]) s'.
Proof.
  intros Hc. destruct s as [tk rk]. intros (flk & Hwfk & Hf & Hn & Hpos). simpl in *.
  pose proof (wf_capacity _ _ Hwf). pose proof (wf_length _ _ Hwf).
  pose proof (count_bounds _ _ Hwf).
  destruct (lookup_lt_is_Some_2 (entries tk) c) as [ec Hec].
  { by rewrite (fr_length _ _ _ Hf). }
  rewrite (rd_nat _ _ _ Hec). simpl. unwrap.
  destruct (bool_decide_reflect (kind ec <> Invalid)) as [Hk|Hk]; simpl;
    [destruct (Z.eqb_spec (parent_index ec) (Z.of_nat a)) as [Hp|Hp]|].
  - destruct (Hrec tk flk c ec Hwfk Hf (conj Hec Hk) Hp)
      as (t' & fl' & n & -> & Hf' & Hwf' & Hn' & Hpos').
    pose proof (count_bounds _ _ Hwf'). simpl. eexists. split; [done|].
    exists fl'. simpl. rewrite u32_small by lia. split_and!; [done| |lia|lia].
    eapply frees_iff; [eapply frees_trans; [exact Hf|exact Hf']|]. intros x. cbn.
    rewrite (desc_frees _ _ _ _ _ Hf), below_snoc by (apply below_closed).
    destruct (frees_live _ _ _ _ _ Hf (conj Hec Hk)) as [Hl _]. naive_solver.
  - eexists. split; [done|]. exists flk. split_and!; [done| |done|done].
    eapply frees_iff; [exact Hf|]. intros x. rewrite below_snoc.
    destruct (frees_live _ _ _ _ _ Hf (conj Hec Hk)) as [[Hl _] _].
    split; [by left|]. intros [?|[(e & [He _] & Hpe) _]]; [done|]. congruence.
  - eexists. split; [done|]. exists flk. split_and!; [done| |done|done].
    eapply frees_iff; [exact Hf|]. intros x. rewrite below_snoc. split; [by left|].
    intros [?|[(e & Hl & Hpe) Hd]]; [done|].
    destruct (frees_keep _ _ _ _ _ Hf Hl) as [[Hl' ?]|HD];
      [by rewrite Hec in Hl'; simplify_eq|].
    by eapply below_closed.
Qed.

Lemma loop_ok :
  exists s, foldM (fun '(t, revoked) i =>
      ei ← rd (entries t) i;
      if bool_decide (kind ei <> Invalid) && (parent_index ei =? Z.of_nat a)
      then
        '(t, n) ← rec t (make_handle (u32 i) (generation ei));
        Ok (t, u32 (revoked + n))
      else Ok (t, revoked)) (seqZ 0 (capacity t)) (t, 0) = Ok s /\
    loop_state t a (seqZ 0 (capacity t)) s.
Proof.
  apply (foldM_inv _ (loop_state t a)).
  - exists fl. split_and!; simpl; [done| |lia|done].
    eapply frees_iff; [apply frees_none|]. intros x. split; [done|].
    intros (c & ec & Hin & _). by apply not_elem_of_nil in Hin.
  - intros done_ i rest s Hl Hs. pose proof (wf_capacity _ _ Hwf).
    assert (done_ = seqZ 0 i /\ 0 <= i < capacity t) as [-> Hi].
    { apply seqZ_prefix in Hl as [-> Hi]. split; [by f_equal|]; lia. }
    rewrite <- (Z2Nat.id i) in Hs |- * by lia. apply loop_step; [|done].
    pose proof (wf_length _ _ Hwf). lia.
Qed.
End loop.

Lemma revoke_ok fuel : forall t fl f a e,
  wf_free t fl -> ranked t f -> live t a e -> (above t f (f a) < fuel)%nat ->
  releases t a (revoke_unlocked fuel t (make_handle (Z.of_nat a) (generation e))).
Proof.
  induction fuel as [|fuel IH]; intros t fl f a e Hwf Hr Ha Hfuel; [lia|].
  destruct (handle_live _ _ _ _ _ Hwf Ha eq_refl) as (Hi & Hg & Hv & Hc).
  cbn [revoke_unlocked]. case_cmp. rewrite Hi, Hg. case_cmp.
  destruct Ha as [Ha Hk]. rewrite (rd_nat _ _ _ Ha). cbn [mbind res_bind]. case_cmp.
  rewrite Z.eqb_refl. cbn [negb].
  destruct (loop_ok (revoke_unlocked fuel) t fl a Hwf)
    as ([tk rk] & -> & flk & Hwfk & Hf & Hn & Hpos).
  { intros tk flk c ec Hwfk Hf Hc' Hp. eapply IH; [done|by eapply ranked_frees|done|].
    destruct (frees_live _ _ _ _ _ Hf Hc') as [Hlc _].
    pose proof (above_child _ _ _ _ a _ _ Hf Hlc (Hr _ _ _ _ Hlc (conj Ha Hk) Hp)). lia. }
  assert (Hak : live tk a e).
  { destruct (frees_keep _ _ _ _ _ Hf (conj Ha Hk)) as [?|HD]; [done|].
    by apply (below_not_self _ _ _ _ _ Hr (conj Ha Hk)) in HD. }
  simpl in *. rewrite (rd_nat _ _ _ (proj1 Hak)). simpl.
  rewrite (wr_slot _ _ _ _ _ Hwfk (proj1 Hak)). simpl.
  rewrite (count_pred _ _ _ _ Hwfk Hak).
  pose proof (freed_wf _ _ _ _ NO_PARENT Hwfk Hak) as Hwf'.
  pose proof (count_bounds _ _ Hwf). pose proof (wf_capacity _ _ Hwf).
  pose proof (count_bounds _ _ Hwf'). simpl in *.
  exists (freed tk a e NO_PARENT), (a :: flk), (rk + 1).
  rewrite u32_small by lia. split_and!; [done| |done|simpl; lia|lia].
  eapply frees_iff; [eapply frees_trans; [exact Hf|by apply freed_frees]|].
  intros x. cbn. rewrite <- (wf_length _ _ Hwf). by eapply below_all.
Qed.

End CapRevoke.
