(* ===== verification/CapSpec.v ===== *)
(** * Properties of capability tables

    The claims about [src/kernel/cap]: the table implements a map from handles
    to capabilities, derivation attenuates, no sequence of calls amplifies
    rights, revocation frees exactly a derivation tree, and two places where
    [remove] breaks what the rest of the component relies on. *)

From S2P Require Import Prelude Cap CapTable CapRevoke.

Module CapSpec.
Import Cap CapTable CapRevoke.

(** ** Calls *)

(** A call that creates no capability from nothing. *)
Inductive narrow_step (t : Table) : Table -> Prop :=
| narrow_derive h r t' h' : derive t h r = Ok (t', h') -> narrow_step t t'
| narrow_remove h t' : remove t h = Ok t' -> narrow_step t t'
| narrow_revoke fuel h t' n : revoke_unlocked fuel t h = Ok (t', n) -> narrow_step t t'.

(** The tables the calls lead to, when [remove] is only used on handles from
    which nothing live is derived. *)
Inductive reachable : Table -> Prop :=
| reach_init cap t0 t : 0 < cap < 2 ^ 24 -> init true cap t0 = Ok (t, true) -> reachable t
| reach_insert t obj k r t' h :
    reachable t -> k <> Invalid -> in_width 32 r -> insert t obj k r = Ok (t', h) ->
    reachable t'
| reach_derive t h r t' h' :
    reachable t -> in_width 32 h -> in_width 32 r -> derive t h r = Ok (t', h') ->
    reachable t'
| reach_remove t h t' :
    reachable t -> (forall j ej, live t j ej -> parent_index ej <> handle_index h) ->
    remove t h = Ok t' -> reachable t'
| reach_revoke t h t' n :
    reachable t -> in_width 32 h -> revoke t h = Ok (t', n) -> reachable t'.

(** [narrower e e0]: [e] names the same object as [e0] with no more rights. *)
Definition narrower (e e0 : Entry) : Prop :=
  object e = object e0 /\ kind e = kind e0 /\ Z.land (rights e) (rights e0) = rights e.

(** Deriving a handle, closing the original and deriving again makes two slots
    each other's parent. *)
Definition cycle_calls : res (Table * Z) :=
  '(t, _) ← init true 2 empty_table;
  '(t, h0) ← insert t 0x1000 File CAP_ALL;
  '(t, h1) ← derive t h0 CAP_ALL;
  t ← remove t h0;
  '(t, h2) ← derive t h1 CAP_ALL;
  Ok (t, h1).

(** A table of four slots: a file capability and one derived from it. *)
Definition demo_table : Table :=
  mkTable [mkEntry 0x1000 CAP_ALL NO_PARENT File 0; mkEntry 0x1000 CAP_READ 0 File 0;
           mkEntry 3 0 NO_PARENT Invalid 0; mkEntry FREE_END 0 NO_PARENT Invalid 0] 4 2 2.

(** ** Initialisation *)

Definition link (i : nat) : Entry := mkEntry (Z.of_nat i + 1) 0 NO_PARENT Invalid 0.

Lemma init_loop n es :
  (n <= length es)%nat -> Z.of_nat (length es) < 2 ^ 24 ->
  (forall i, (i < length es)%nat -> es !! i = Some zero_entry) ->
  exists es', foldM (fun es i =>
      e ← rd es i; wr es i (mkEntry (u64 (i + 1)) (rights e) NO_PARENT Invalid 0))
    (seqZ 0 (Z.of_nat n)) es = Ok es' /\ length es' = length es /\
    forall i, (i < length es)%nat ->
      es' !! i = Some (if decide (i < n)%nat then link i else zero_entry).
Proof.
  intros Hn Hlen Hz.
  destruct (foldM_inv (fun es i =>
      e ← rd es i; wr es i (mkEntry (u64 (i + 1)) (rights e) NO_PARENT Invalid 0))
    (fun done_ es' => length es' = length es /\ forall i, (i < length es)%nat ->
       es' !! i = Some (if decide (i < length done_)%nat then link i else zero_entry))
    (seqZ 0 (Z.of_nat n)) es) as (es' & -> & Hl & He).
  - split; [done|]. intros i Hi. rewrite decide_False by (simpl; lia). auto.
  - intros done_ i rest es' Hsplit [Hl He].
    destruct (seqZ_prefix _ _ _ _ Hsplit) as [Hd Hi].
    assert (Hld : length done_ = Z.to_nat i) by (rewrite Hd, length_seqZ; done).
    rewrite <- (Z2Nat.id i) by lia. set (k := Z.to_nat i) in *.
    rewrite (rd_nat _ k zero_entry) by (rewrite He by lia; rewrite decide_False by lia; done).
    simpl. rewrite wr_nat by lia. eexists. split; [done|].
    split; [by rewrite length_insert|]. intros j Hj. rewrite length_app; simpl.
    destruct (decide (k = j)) as [<-|Hkj].
    + rewrite list_lookup_insert_eq by lia. rewrite decide_True by lia.
      unfold link. by rewrite u64_small by lia.
    + rewrite list_lookup_insert_ne, He by done.
      repeat case_decide; lia || done.
  - exists es'. rewrite length_seqZ, Nat2Z.id in He. auto.
Qed.

Lemma chain_links es k i :
  (forall j, (i <= j < i + k)%nat -> es !! j = Some (link j)) ->
  Z.of_nat (length es) < 2 ^ 24 -> (i + k < length es)%nat ->
  es !! (i + k)%nat = Some (mkEntry FREE_END 0 NO_PARENT Invalid 0) ->
  chain es (Z.of_nat i) (seq i (S k)).
Proof.
  revert i. induction k as [|k IH]; intros i Hlink Hlen Hb Hlast.
  - rewrite Nat.add_0_r in Hlast. split; [done|]. eexists. split; [done|]. done.
  - split; [done|]. exists (link i). split; [apply Hlink; lia|]. split; [done|].
    simpl object. rewrite u32_small by lia.
    replace (Z.of_nat i + 1) with (Z.of_nat (S i)) by lia. apply IH; [|done|lia|].
    + intros j Hj. apply Hlink. lia.
    + by replace (S i + k)%nat with (i + S k)%nat by lia.
Qed.

Lemma init_ok cap t0 :
  0 < cap < 2 ^ 24 ->
  exists t, init true cap t0 = Ok (t, true) /\ wf_free t (seq 0 (Z.to_nat cap)) /\
    capacity t = cap.
Proof.
  intros Hcap. unfold init. cbn [negb].
  set (es0 := replicate (Z.to_nat cap) zero_entry).
  assert (Hl0 : length es0 = Z.to_nat cap) by apply length_replicate.
  rewrite !u64_small by lia.
  destruct (init_loop (Z.to_nat (cap - 1)) es0) as (es & Hloop & Hl & He);
    [lia|lia|intros i Hi; by apply lookup_replicate_2; lia|].
  rewrite Z2Nat.id in Hloop by lia. rewrite Hloop. cbn [mbind res_bind].
  set (n := Z.to_nat (cap - 1)) in *.
  assert (Hlast : es !! n = Some zero_entry)
    by (rewrite He by lia; by rewrite decide_False by lia).
  rewrite (rd_Z _ _ zero_entry) by (done || lia). cbn [mbind res_bind].
  rewrite wr_Z by lia. cbn [mbind res_bind]. eexists. split; [done|].
  split; [|done]. fold n. set (es' := <[n := _]> es).
  assert (He' : forall i, (i < Z.to_nat cap)%nat ->
    es' !! i = Some (if decide (i = n) then mkEntry FREE_END 0 NO_PARENT Invalid 0 else link i)).
  { intros i Hi. unfold es'. case_decide; subst.
    - by rewrite list_lookup_insert_eq by lia.
    - rewrite list_lookup_insert_ne, He by lia. by rewrite decide_True by lia. }
  assert (Hl' : length es' = Z.to_nat cap) by (unfold es'; rewrite length_insert; lia).
  split; simpl.
  - rewrite Hl'. lia.
  - lia.
  - apply Forall_lookup_2. intros i e Hi. rewrite He' in Hi by (apply lookup_lt_Some in Hi; lia).
    by case_decide; simplify_eq.
  - replace (Z.to_nat cap) with (S n) by lia. apply (chain_links es' n 0).
    + intros j Hj. rewrite He' by lia. by rewrite decide_False by lia.
    + lia.
    + lia.
    + rewrite He' by lia. by rewrite decide_True by lia.
  - apply NoDup_seq.
  - intros i e Hi _. apply elem_of_seq. apply lookup_lt_Some in Hi. lia.
  - rewrite length_seq. lia.
Qed.

(** ** Derivation *)

Lemma derive_cases t fl h r :
  wf_free t fl -> in_width 32 h ->
  derive t h r = Ok (t, HANDLE_INVALID) /\
    (abs t !! h = None \/ fl = [] \/
     exists c, abs t !! h = Some c /\ has_rights (c_rights c) CAP_DERIVE = false) \/
  exists i e n ne fl', live t i e /\ abs t !! h = Some (view e) /\
    has_rights (rights e) CAP_DERIVE = true /\
    fl = n :: fl' /\ entries t !! n = Some ne /\ kind ne = Invalid /\
    handle_index h = Z.of_nat i /\
    derive t h r =
      Ok (fill t n (u32 (object ne))
            (mkEntry (object e) (Z.land (rights e) r) (Z.of_nat i) (kind e) (generation ne)),
          make_handle (Z.of_nat n) (generation ne)).
Proof.
  intros Hwf Hh. unfold derive.
  destruct (get_abs _ _ _ Hwf Hh) as [(i & e & Hl & Hhe & Hget & Habs)|[Hget Habs]];
    unfold get in Hget; rewrite Hget; cbn [mbind res_bind]; [|by left; auto].
  destruct (handle_live _ _ _ _ _ Hwf Hl Hhe) as (Hi & _).
  destruct Hl as [He Hk]. rewrite (rd_nat _ _ _ He). cbn [mbind res_bind].
  destruct (has_rights (rights e) CAP_DERIVE) eqn:Hd; cbn [negb].
  2:{ left. split; [done|]. right; right. by exists (view e). }
  destruct fl as [|n fl'].
  { left. rewrite (wf_chain _ _ Hwf : free_head t = FREE_END). auto. }
  right. pose proof (wf_chain _ _ Hwf) as (Hfh & ne & Hne & Hkn & _).
  exists i, e, n, ne, fl'. do 7 (split; [done|]).
  assert (free_head t <> FREE_END) by (by rewrite (head_free _ _ Hwf)).
  case_cmp. rewrite Hfh, (rd_nat _ _ _ Hne). simpl.
  rewrite (wr_slot _ _ _ _ _ Hwf Hne). simpl. by rewrite (count_succ _ _ _ Hwf), Hi.
Qed.

Lemma land_width a b : in_width 32 a -> 0 <= b -> in_width 32 (Z.land a b).
Proof.
  unfold in_width. intros Ha Hb. split; [apply Z.land_nonneg; lia|].
  destruct (Z.eq_dec (Z.land a b) 0) as [->|]; [lia|].
  apply Z.log2_lt_cancel. eapply Z.le_lt_trans; [apply Z.log2_land; lia|].
  rewrite Z.log2_pow2 by lia. pose proof (Z.log2_nonneg a). pose proof (Z.log2_nonneg b).
  destruct (Z.eq_dec a 0) as [->|]; [simpl; lia|].
  assert (Z.log2 a < 32) by (apply Z.log2_lt_pow2; lia). lia.
Qed.

(** ** The forest shape is kept *)

Lemma live_lt t fl i e : wf_free t fl -> live t i e -> Z.of_nat i < 2 ^ 24.
Proof.
  intros Hwf [He _]. pose proof (slot_bounds _ _ Hwf _ _ He).
  pose proof (wf_capacity _ _ Hwf). lia.
Qed.

Lemma forest_fill t n fl ne e :
  wf_free t (n :: fl) -> entries t !! n = Some ne -> kind e <> Invalid ->
  forest t ->
  (parent_index e = NO_PARENT \/ exists j ej, parent_index e = Z.of_nat j /\ live t j ej) ->
  forest (fill t n (u32 (object ne)) e).
Proof.
  intros Hwf Hne Hk [[f Hf] Hpar] Hp.
  assert (Hinv : kind ne = Invalid).
  { pose proof (wf_chain _ _ Hwf) as (_ & ? & ? & ? & _). congruence. }
  pose proof (lookup_lt_Some _ _ _ Hne) as Hlt.
  assert (Hlive : forall j e', live (fill t n (u32 (object ne)) e) j e' <->
                    (j = n /\ e' = e) \/ live t j e').
  { intros. apply live_fill; [done|by intros; simplify_eq|done]. }
  assert (Hdead : forall e', ~ live t n e') by (intros e' [? ?]; congruence).
  assert (Hnop : forall j ej, live (fill t n (u32 (object ne)) e) j ej -> NO_PARENT <> Z.of_nat j).
  { intros j ej Hj Hz. unfold NO_PARENT in Hz.
    apply Hlive in Hj as [[-> _]|Hj]; [|apply (live_lt _ _ _ _ Hwf) in Hj; lia].
    pose proof (slot_bounds _ _ Hwf _ _ Hne). pose proof (wf_capacity _ _ Hwf). lia. }
  split.
  - exists (fun i => if decide (i = n) then S (f (Z.to_nat (parent_index e))) else f i).
    intros i ei j ej [[-> ->]|Hi]%Hlive Hj Hpi.
    + destruct Hp as [Hp|(p & ep & Hp & Hlp)]; [exfalso; eapply Hnop; [done|congruence]|].
      rewrite Hp in Hpi. apply Nat2Z.inj in Hpi as <-. rewrite Hp, Nat2Z.id.
      rewrite (decide_True (P := n = n)) by done. rewrite decide_False; [lia|].
      intros ->. by apply (Hdead ep).
    + rewrite (decide_False (P := i = n)) by (intros ->; by apply (Hdead ei)).
      destruct (Hpar _ _ Hi) as [Hnp|(p & ep & Hpp & Hlp)];
        [exfalso; eapply Hnop; [done|congruence]|].
      rewrite Hpp in Hpi. apply Nat2Z.inj in Hpi as <-.
      rewrite decide_False by (intros ->; by apply (Hdead ep)). eauto.
  - intros i ei [[-> ->]|Hi]%Hlive.
    + destruct Hp as [?|(p & ep & ? & ?)]; [by left|right]. exists p, ep.
      split; [done|]. apply Hlive. by right.
    + destruct (Hpar _ _ Hi) as [?|(p & ep & ? & ?)]; [by left|right]. exists p, ep.
      split; [done|]. apply Hlive. by right.
Qed.

(** Releasing slots keeps the forest when no survivor has a released parent. *)
Lemma forest_shrink t t' :
  forest t -> (forall i e, live t' i e -> live t i e) ->
  (forall i e j ej, live t' i e -> live t j ej -> parent_index e = Z.of_nat j -> live t' j ej) ->
  forest t'.
Proof.
  intros [[f Hf] Hpar] Hsub Hkeep. split.
  - exists f. intros i e j ej Hi Hj. eauto.
  - intros i e Hi. destruct (Hpar _ _ (Hsub _ _ Hi)) as [?|(j & ej & Hp & Hj)]; [by left|].
    right. eauto.
Qed.

(** ** What a call leaves live *)

Lemma narrower_refl e : narrower e e.
Proof. unfold narrower. by rewrite Z.land_diag. Qed.

Lemma narrower_trans e1 e2 e3 : narrower e1 e2 -> narrower e2 e3 -> narrower e1 e3.
Proof.
  intros (Ho & Hk & Hr) (Ho' & Hk' & Hr'). split_and!; [congruence|congruence|].
  rewrite <- Hr at 1. rewrite <- Z.land_assoc, Hr'. done.
Qed.

Lemma live_write t i e j e' c n fh :
  live (mkTable (<[i := e]> (entries t)) c n fh) j e' ->
  (kind e <> Invalid /\ e' = e) \/ live t j e'.
Proof.
  intros [Hj Hk]. simpl in Hj. apply list_lookup_insert_Some in Hj as [(<- & -> & _)|[_ Hj]].
  - by left.
  - by right.
Qed.

Lemma revoke_shrinks fuel : forall t h t' n,
  revoke_unlocked fuel t h = Ok (t', n) -> forall i e, live t' i e -> live t i e.
Proof.
  induction fuel as [|fuel IH]; intros t h t' n; [done|]. cbn [revoke_unlocked].
  destruct (h =? HANDLE_INVALID); [by intros [= -> _]|].
  destruct (capacity t <=? handle_index h); [by intros [= -> _]|].
  intros (e0 & _ & H)%bind_inv. revert H.
  destruct (decide (kind e0 = Invalid)); [by intros [= -> _]|].
  destruct (negb (generation e0 =? handle_gen h)); [by intros [= -> _]|].
  intros ([tk rk] & Hloop & H)%bind_inv.
  assert (Hk : forall i e, live tk i e -> live t i e).
  { refine (foldM_keeps _ (fun s : Table * Z => forall i e, live s.1 i e -> live t i e)
      _ _ _ _ _ Hloop); [|by intros].
    intros [t1 r1] i s' Hs. intros (ei & _ & H')%bind_inv.
    destruct (bool_decide _ && _); [|by simplify_eq].
    apply bind_inv in H' as ([t2 m] & H2 & [= <-]). simpl in *. eauto. }
  apply bind_inv in H as (e1 & _ & H). apply bind_inv in H as (es & Hw & [= <- _]).
  apply wr_inv in Hw as [_ ->]. intros i e Hl.
  apply live_write in Hl as [[? _]|Hl]; [done|by apply Hk].
Qed.

Lemma narrow_step_live t t' :
  narrow_step t t' -> forall i e, live t' i e -> exists j e0, live t j e0 /\ narrower e e0.
Proof.
  assert (Hid : forall i e, live t i e -> exists j e0, live t j e0 /\ narrower e e0).
  { intros i e Hl. exists i, e. split; [done|apply narrower_refl]. }
  intros Hs i e Hl. destruct Hs as [h r t' h' H|h t' H|fuel h t' n H].
  - unfold derive in H. apply bind_inv in H as (o & Hg & H).
    destruct o as [p|]; [|by simplify_eq; eauto]. apply bind_inv in H as (ep & Hep & H).
    destruct (negb _); [by simplify_eq; eauto|]. destruct (_ =? FREE_END); [by simplify_eq; eauto|].
    apply bind_inv in H as (ne & _ & H). apply bind_inv in H as (es & Hw & [= <- _]).
    apply wr_inv in Hw as [_ ->]. apply live_write in Hl as [[_ ->]|Hl]; [|eauto].
    apply rd_inv in Hep as [_ Hep]. exists (Z.to_nat p), ep. split.
    + split; [done|]. unfold get_unlocked in Hg.
      repeat case_cmp_in Hg. apply bind_inv in Hg as (eq & Hrd & Hg).
      repeat case_cmp_in Hg. simplify_eq. apply rd_inv in Hrd as [_ Hrd]. congruence.
    + split_and!; [done|done|]. simpl. rewrite <- Z.land_assoc, (Z.land_comm r), Z.land_assoc.
      by rewrite Z.land_diag.
  - unfold remove in H. destruct (h =? _); [by simplify_eq; eauto|].
    destruct (capacity t <=? _); [by simplify_eq; eauto|].
    apply bind_inv in H as (e1 & _ & H). destruct (decide _); [by simplify_eq; eauto|].
    apply bind_inv in H as (es & Hw & [= <-]). apply wr_inv in Hw as [_ ->].
    apply live_write in Hl as [[? _]|Hl]; [done|eauto].
  - eauto using revoke_shrinks.
Qed.

(** ** Claims *)

Lemma full_count t fl : wf_free t fl -> fl = [] <-> count t = capacity t.
Proof.
  intros Hwf. rewrite (wf_count _ _ Hwf). destruct fl; simpl; [naive_solver lia|].
  split; [done|lia].
Qed.

Lemma fill_handle_valid t n fl ne :
  wf_free t (n :: fl) -> entries t !! n = Some ne ->
  make_handle (Z.of_nat n) (generation ne) <> HANDLE_INVALID.
Proof.
  intros Hwf Hne. pose proof (slot_bounds _ _ Hwf _ _ Hne).
  pose proof (wf_capacity _ _ Hwf). destruct (slot_ok _ _ Hwf _ _ Hne) as [Hg _].
  unfold in_width in Hg. apply make_handle_valid; lia.
Qed.

(** What inserting does to the handle map. *)
Lemma insert_abs t obj k r :
  wf t -> k <> Invalid -> in_width 32 r ->
  exists t' h, insert t obj k r = Ok (t', h) /\ wf t' /\
    if count t <? capacity t
    then h <> HANDLE_INVALID /\ abs t !! h = None /\ abs t' = <[h := mkCap obj k r]> (abs t)
    else h = HANDLE_INVALID /\ t' = t.
Proof.
  intros [fl Hwf] Hk Hr. pose proof (count_bounds _ _ Hwf).
  pose proof (full_count _ _ Hwf) as Hfull. destruct fl as [|n fl].
  - exists t, HANDLE_INVALID. rewrite insert_full by done. split; [done|].
    split; [by exists []|]. pose proof (proj1 Hfull eq_refl). case_cmp.
  - destruct (insert_fill t n fl obj k r Hwf) as (ne & Hne & Hkn & _ & Heq).
    assert (Hok : entry_ok (mkEntry obj r NO_PARENT k (generation ne))).
    { split; [apply (slot_ok _ _ Hwf _ _ Hne)|done]. }
    destruct (abs_fill _ _ _ _ _ Hwf Hne Hkn (Hk : kind (mkEntry _ _ _ k _) <> _) Hok eq_refl)
      as [Hfresh Habs].
    do 2 eexists. split; [exact Heq|]. split.
    { exists fl. by apply fill_wf. }
    case_cmp; [|exfalso; assert (n :: fl = []) by (apply Hfull; lia); done].
    split; [by eapply fill_handle_valid|]. auto.
Qed.

(** [Table::insert] on a well-formed table either hands out a handle that
    was not in use and adds exactly that binding to the handle map, or, when
    every slot is taken, returns [HANDLE_INVALID] and changes nothing. *)
Theorem insert_refines t obj k r :
  wf t -> k <> Invalid -> in_width 32 r ->
  exists t' h, insert t obj k r = Ok (t', h) /\ wf t' /\
    if count t <? capacity t
    then h <> HANDLE_INVALID /\ abs t !! h = None /\ abs t' = <[h := mkCap obj k r]> (abs t)
    else h = HANDLE_INVALID /\ t' = t.
Proof. apply insert_abs. Qed.

(** (C3) [Table::derive] succeeds exactly when the handle is valid, carries
    [CAP_DERIVE] and a slot is free; the new handle is fresh and names the same
    object and kind with the intersection of the rights.  Otherwise nothing
    changes. *)
Theorem derive_refines t h r :
  wf t -> in_width 32 h -> 0 <= r ->
  exists t' h', derive t h r = Ok (t', h') /\ wf t' /\
    match abs t !! h with
    | Some c =>
        if has_rights (c_rights c) CAP_DERIVE && (count t <? capacity t)
        then h' <> HANDLE_INVALID /\ abs t !! h' = None /\
             abs t' = <[h' := mkCap (c_object c) (c_kind c) (Z.land (c_rights c) r)]> (abs t)
        else h' = HANDLE_INVALID /\ t' = t
    | None => h' = HANDLE_INVALID /\ t' = t
    end.
Proof.
  intros [fl Hwf] Hh Hr. pose proof (full_count _ _ Hwf) as Hfull.
  pose proof (count_bounds _ _ Hwf).
  destruct (derive_cases _ _ _ r Hwf Hh)
    as [(-> & Hc)|(i & e & n & ne & fl' & Hl & -> & Hd & -> & Hne & Hkn & _ & ->)].
  - exists t, HANDLE_INVALID. split; [done|]. split; [by exists fl|].
    destruct Hc as [->|[Hnil|(c & -> & Hc)]]; [done| |by rewrite Hc].
    apply Hfull in Hnil. destruct (abs t !! h); [|done].
    case_cmp. case_cmp.
  - set (e' := mkEntry _ _ _ _ _). assert (Hk' : kind e' <> Invalid) by (apply Hl).
    assert (Hok : entry_ok e').
    { split; [apply (slot_ok _ _ Hwf _ _ Hne)|]. apply land_width; [|done].
      apply (slot_ok _ _ Hwf _ _ (proj1 Hl)). }
    destruct (abs_fill _ _ _ _ _ Hwf Hne Hkn Hk' Hok eq_refl) as [Hfresh Habs].
    do 2 eexists. split; [done|]. split; [exists fl'; by apply fill_wf|].
    simpl. rewrite Hd. simpl.
    case_cmp; [|exfalso; assert (n :: fl' = []) by (apply Hfull; lia); done].
    split; [by eapply fill_handle_valid|]. auto.
Qed.

(** What removing does to the handle map. *)
Lemma remove_abs t h c :
  wf t -> in_width 32 h -> abs t !! h = Some c ->
  exists t', remove t h = Ok t' /\ wf t' /\ abs t' = delete h (abs t) /\ get t' h = Ok None.
Proof.
  intros [fl Hwf] Hh Hc. apply (abs_lookup _ _ _ _ Hwf) in Hc as (i & e & Hl & Hhe & _).
  destruct (handle_live _ _ _ _ _ Hwf Hl Hhe) as (Hi & _ & Hv & _).
  exists (freed t i e (parent_index e)). rewrite (remove_live _ _ _ _ _ Hwf Hl Hi Hv).
  pose proof (freed_wf _ _ _ _ (parent_index e) Hwf Hl) as Hwf'.
  pose proof (abs_freed _ _ _ _ (parent_index e) Hwf Hl) as Habs. rewrite <- Hhe in Habs.
  split_and!; [done|by exists (i :: fl)|done|].
  destruct (get_abs _ _ _ Hwf' Hh) as [(j & ej & _ & _ & _ & Hsome)|[Hget _]]; [|done].
  by rewrite Habs, lookup_delete_eq in Hsome.
Qed.

(** [Table::remove] of a valid handle deletes exactly that binding; the
    handle no longer resolves. *)
Theorem remove_refines t h c :
  wf t -> in_width 32 h -> abs t !! h = Some c ->
  exists t', remove t h = Ok t' /\ wf t' /\ abs t' = delete h (abs t) /\ get t' h = Ok None.
Proof. apply remove_abs. Qed.

(** [Table::get_with_rights] resolves a handle exactly when the handle map
    binds it to a capability of the requested kind that holds every requested
    right. *)
Theorem get_with_rights_refines t h k required :
  wf t -> in_width 32 h ->
  exists o, get_with_rights t h k required = Ok o /\
    (is_Some o <-> exists c, abs t !! h = Some c /\ c_kind c = k /\
       forall n, 0 <= n -> Z.testbit required n = true -> Z.testbit (c_rights c) n = true).
Proof.
  intros [fl Hwf] Hh. unfold get_with_rights.
  destruct (get_abs _ _ _ Hwf Hh) as [(i & e & Hl & Hhe & Hget & Habs)|[Hget Habs]];
    unfold get in Hget; rewrite Hget, Habs; cbn [mbind res_bind].
  2:{ exists None. split; [done|]. split; [by intros [? ?]|naive_solver]. }
  rewrite (rd_nat _ _ _ (proj1 Hl)). cbn [mbind res_bind].
  assert (Hbits : has_rights (rights e) required = true <->
    forall n, 0 <= n -> Z.testbit required n = true -> Z.testbit (rights e) n = true).
  { unfold has_rights. rewrite Z.eqb_eq. split.
    - intros Heq n Hn Hb. rewrite <- Heq, Z.land_spec in Hb. by apply andb_true_iff in Hb as [? _].
    - intros Hb. apply Z.bits_inj'. intros n Hn. rewrite Z.land_spec.
      destruct (Z.testbit required n) eqn:E; [by rewrite Hb|apply andb_false_r]. }
  case_decide as Hk; [destruct (has_rights (rights e) required) eqn:Hr|].
  - eexists. split; [done|]. split; [|by eauto]. intros _. exists (view e).
    split_and!; [done|done|]. by apply Hbits.
  - exists None. split; [done|]. split; [by intros [? ?]|].
    intros (c & [= <-] & _ & Hb). apply Hbits in Hb. congruence.
  - exists None. split; [done|]. split; [by intros [? ?]|naive_solver].
Qed.

Lemma revoke_dead t fl h :
  wf_free t fl -> in_width 32 h -> abs t !! h = None -> forall fuel,
  revoke_unlocked (S fuel) t h = Ok (t, 0).
Proof.
  intros Hwf Hh Habs fuel.
  destruct (get_abs _ _ _ Hwf Hh) as [(i & e & _ & _ & _ & Hs)|[Hget _]]; [congruence|].
  unfold get, get_unlocked in Hget. cbn [revoke_unlocked].
  destruct (h =? HANDLE_INVALID); [done|].
  destruct (capacity t <=? handle_index h); [done|].
  destruct (rd (entries t) (handle_index h)) as [e| |]; cbn [mbind res_bind] in *; [|done|done].
  destruct (decide (kind e = Invalid)); [done|].
  by destruct (negb (generation e =? handle_gen h)).
Qed.

Lemma revoke_live t fl h c :
  wf_free t fl -> acyclic t -> abs t !! h = Some c ->
  exists t' fl' n, revoke t h = Ok (t', n) /\
    frees t t' (desc t (Z.to_nat (handle_index h))) /\ wf_free t' fl' /\
    count t' = count t - n /\ 1 <= n.
Proof.
  intros Hwf [f Hf] Hc. apply (abs_lookup _ _ _ _ Hwf) in Hc as (a & e & Hl & -> & _).
  destruct (handle_live _ _ _ _ _ Hwf Hl eq_refl) as (Hi & _). rewrite Hi, Nat2Z.id.
  apply (revoke_ok _ t fl f); [done|done|done|].
  pose proof (above_length t f (f a)). pose proof (wf_length _ _ Hwf). lia.
Qed.

(** (C1) On a well-formed table whose derivation links have no cycle,
    [Table::revoke] of a valid handle returns; the capabilities left are
    exactly those not derived from it (directly or transitively), unchanged;
    the result counts the revoked ones; and no handle to a revoked slot
    resolves any more. *)
Theorem revoke_exact t h c :
  wf t -> acyclic t -> abs t !! h = Some c ->
  exists t' n, revoke t h = Ok (t', n) /\ wf t' /\
    (forall i e, live t' i e <-> live t i e /\ ~ desc t (Z.to_nat (handle_index h)) i) /\
    n = count t - count t' /\ 1 <= n /\
    (forall i e, live t i e -> desc t (Z.to_nat (handle_index h)) i ->
       get t' (make_handle (Z.of_nat i) (generation e)) = Ok None).
Proof.
  intros [fl Hwf] Hac Hc.
  destruct (revoke_live _ _ _ _ Hwf Hac Hc) as (t' & fl' & n & Hr & Hf & Hwf' & Hn & Hpos).
  exists t', n. split_and!; [done|by exists fl'| |lia|done|].
  - intros i e. split; [by apply frees_live|]. intros [Hl HD].
    by destruct (frees_keep _ _ _ _ _ Hf Hl).
  - intros i e Hl HD. set (hi := make_handle _ _).
    assert (Hw : in_width 32 hi).
    { pose proof (live_lt _ _ _ _ Hwf Hl). destruct Hl as [He _].
      destruct (slot_ok _ _ Hwf _ _ He) as [Hg _]. unfold in_width in *.
      unfold hi. rewrite make_handle_add by lia. lia. }
    destruct (get_abs _ _ _ Hwf' Hw) as [(j & ej & Hj & Hh & _)|[? _]]; [|done].
    destruct (frees_live _ _ _ _ _ Hf Hj) as [Hj' HnD].
    destruct (live_handle_inj _ _ _ _ _ _ Hwf Hl (proj1 Hj') Hh) as [-> _]. done.
Qed.

Lemma remove_cases t fl h t' :
  wf_free t fl -> remove t h = Ok t' ->
  t' = t \/ exists i e, live t i e /\ handle_index h = Z.of_nat i /\
    t' = freed t i e (parent_index e).
Proof.
  intros Hwf. pose proof (handle_index_range h). unfold remove.
  case_cmp; [naive_solver|]. case_cmp; [naive_solver|].
  destruct (lookup_lt_is_Some_2 (entries t) (Z.to_nat (handle_index h))) as [e He].
  { pose proof (wf_length _ _ Hwf). lia. }
  rewrite (rd_Z _ _ e) by (done || lia). simpl. case_cmp; [naive_solver|].
  intros Heq. right. exists (Z.to_nat (handle_index h)), e.
  assert (Hl : live t (Z.to_nat (handle_index h)) e) by done.
  split; [done|]. rewrite Z2Nat.id by lia. split; [done|].
  pose proof (remove_live t fl _ e h Hwf Hl) as Hrm. rewrite Z2Nat.id in Hrm by lia.
  specialize (Hrm eq_refl ltac:(done)). unfold remove in Hrm.
  rewrite (rd_Z _ _ e) in Hrm by (done || lia). simpl in Hrm.
  rewrite decide_False in Hrm by done.
  repeat case_cmp_in Hrm. congruence.
Qed.

(** (C4) Every table reached from [init] by calls in which [remove] is only
    applied to handles with nothing derived from them is well formed (the free
    list holds exactly the unused slots, the count is right) and its live
    entries form a derivation forest. *)
Theorem reachable_forest t : reachable t -> wf t /\ forest t.
Proof.
  induction 1 as [cap t0 t Hcap Hinit|t obj k r t' h _ [[fl Hwf] Hfo] Hk Hr Hins
    |t h r t' h' _ [[fl Hwf] Hfo] Hh Hr Hder|t h t' _ [[fl Hwf] Hfo] Hleaf Hrem
    |t h t' n _ [[fl Hwf] Hfo] Hh Hrev].
  - destruct (init_ok cap t0 Hcap) as (t1 & Hi & Hwf & Hcap1). rewrite Hinit in Hi. simplify_eq.
    assert (Hdead : forall i e, ~ live t1 i e).
    { intros i e Hl. pose proof (free_not_live _ _ Hwf _ _ Hl) as Hn. apply Hn.
      apply elem_of_seq. destruct Hl as [He%(slot_bounds _ _ Hwf) _]. lia. }
    split; [by eexists|]. split; [exists (fun _ => O)|].
    + intros i e j ej Hl. by apply Hdead in Hl.
    + intros i e Hl. by apply Hdead in Hl.
  - destruct fl as [|n fl].
    { rewrite insert_full in Hins by done. simplify_eq. split; [by exists []|done]. }
    destruct (insert_fill t n fl obj k r Hwf) as (ne & Hne & Hkn & _ & Heq).
    rewrite Hins in Heq. simplify_eq. split.
    + exists fl. apply fill_wf; [done..|]. split; [apply (slot_ok _ _ Hwf _ _ Hne)|done].
    + eapply forest_fill; [done|done|done|done|by left].
  - destruct (derive_cases _ _ _ r Hwf Hh)
      as [(Heq & _)|(i & e & n & ne & fl' & Hl & _ & Hd & -> & Hne & Hkn & Hi & Heq)];
      rewrite Hder in Heq; simplify_eq; [split; [by exists fl|done]|].
    split.
    + exists fl'. apply fill_wf; [done|done|apply Hl|].
      split; [apply (slot_ok _ _ Hwf _ _ Hne)|]. apply land_width; [|apply Hr].
      apply (slot_ok _ _ Hwf _ _ (proj1 Hl)).
    + eapply forest_fill; [done|done|apply Hl|done|]. right. by exists i, e.
  - destruct (remove_cases _ _ _ _ Hwf Hrem) as [->|(i & e & Hl & Hi & ->)];
      [split; [by exists fl|done]|].
    split; [exists (i :: fl); by apply freed_wf|].
    apply (forest_shrink t); [done|..].
    + intros j ej. rewrite live_freed by done. by intros [_ ?].
    + intros j ej p ep. rewrite !live_freed by done. intros [Hj Hlj] Hp Hpar.
      split; [|done]. intros ->. apply (Hleaf _ _ Hlj). congruence.
  - destruct (abs t !! h) as [c|] eqn:Habs.
    2:{ unfold revoke in Hrev. rewrite (revoke_dead _ _ _ Hwf Hh Habs) in Hrev.
        simplify_eq. split; [by exists fl|done]. }
    destruct (revoke_live _ _ _ _ Hwf (proj1 Hfo) Habs) as (t1 & fl' & m & Hr & Hf & Hwf' & _).
    rewrite Hrev in Hr. simplify_eq. split; [by exists fl'|].
    apply (forest_shrink t); [done|..].
    + intros i e Hl. by apply (frees_live _ _ _ _ _ Hf) in Hl as [? _].
    + intros i e j ej Hl Hj Hp. apply (frees_live _ _ _ _ _ Hf) in Hl as [Hl HnD].
      destruct (frees_keep _ _ _ _ _ Hf Hj) as [?|HD]; [done|].
      exfalso. apply HnD. by eapply desc_step.
Qed.

(** (C2) No amplification: after any sequence of [derive], [remove] and
    [revoke] calls, whatever their arguments, every live capability names an
    object that was live before, with the same kind and a subset of the rights
    some capability to it had. *)
Theorem no_amplification t t' :
  rtc narrow_step t t' ->
  forall i e, live t' i e -> exists j e0, live t j e0 /\ narrower e e0.
Proof.
  induction 1 as [t|t t1 t2 Hs _ IH]; intros i e Hl.
  - exists i, e. split; [done|apply narrower_refl].
  - destruct (IH _ _ Hl) as (j & e0 & Hj & Hn).
    destruct (narrow_step_live _ _ Hs _ _ Hj) as (k & e1 & Hk & Hn').
    exists k, e1. eauto using narrower_trans.
Qed.

(** [Table::remove] does not compare generations: a stale handle, which
    [get] rejects, still frees the slot and so deletes the capability that
    reuses it. *)
Theorem remove_ignores_generation t i e h :
  wf t -> live t i e -> in_width 32 h -> h <> HANDLE_INVALID ->
  handle_index h = Z.of_nat i -> handle_gen h <> generation e ->
  get t h = Ok None /\
  exists t', remove t h = Ok t' /\
    abs t' = delete (make_handle (Z.of_nat i) (generation e)) (abs t) /\
    is_Some (abs t !! make_handle (Z.of_nat i) (generation e)).
Proof.
  intros [fl Hwf] Hl Hw Hh Hi Hg. split.
  - destruct (get_abs _ _ _ Hwf Hw) as [(j & ej & Hj & Heq & _)|[? _]]; [|done].
    destruct (handle_live _ _ _ _ _ Hwf Hj Heq) as (Hij & Hgj & _).
    rewrite Hi in Hij. apply Nat2Z.inj in Hij. subst j.
    destruct Hl as [He _], Hj as [Hj _]. congruence.
  - eexists. split; [by eapply remove_live|]. split; [by eapply abs_freed|].
    exists (view e). apply (abs_lookup _ _ _ _ Hwf). by exists i, e.
Qed.

(** (C5) There are calls on a fresh table (derive from a handle, [remove] the
    original, derive again) after which [revoke] of a valid handle never
    returns, whatever the depth of recursion allowed: two slots have become
    each other's parent. *)
Theorem revoke_diverges :
  exists t h, cycle_calls = Ok (t, h) /\ is_Some (abs t !! h) /\ ~ acyclic t /\
    forall fuel, revoke_unlocked fuel t h = Diverge.
Proof.
  eexists _, _. split; [vm_compute; reflexivity|].
  set (t := mkTable _ _ _ _). split; [vm_compute; by eexists|]. split.
  - intros [f Hf].
    assert (Hl0 : live t 0 (mkEntry 0x1000 CAP_ALL 1 File 1)) by (by split).
    assert (Hl1 : live t 1 (mkEntry 0x1000 CAP_ALL 0 File 0)) by (by split).
    pose proof (Hf _ _ 1%nat _ Hl0 Hl1 eq_refl). pose proof (Hf _ _ 0%nat _ Hl1 Hl0 eq_refl).
    lia.
  - intros fuel.
    cut (revoke_unlocked fuel t 1 = Diverge /\ revoke_unlocked fuel t 0x1000000 = Diverge);
      [by intros [? _]|].
    induction fuel as [|fuel [IH1 IH0]]; [done|]. split.
    + simpl. change (make_handle (u32 (Z.of_nat 0 + 0)) 1) with 0x1000000. by rewrite IH0.
    + simpl. change (make_handle (u32 (Z.of_nat 1 + 0)) 0) with 1. by rewrite IH1.
Qed.

(** ** Witnesses *)

Lemma demo_calls :
  ('(t, _) ← init true 4 empty_table;
   '(t, h0) ← insert t 0x1000 File CAP_ALL;
   '(t, _) ← derive t h0 CAP_READ; Ok t) = Ok demo_table.
Proof. vm_compute. reflexivity. Qed.

Lemma demo_wf : wf demo_table.
Proof.
  exists [2%nat; 3%nat]. split; [done|done| | | | |done].
  - unfold demo_table. simpl. repeat apply Forall_cons_2; apply Forall_nil_2 || by split.
  - simpl. split; [done|]. eexists. split; [done|]. split; [done|].
    split; [done|]. eexists. by split.
  - apply (bool_decide_unpack _). by vm_compute.
  - intros i e. do 4 (destruct i as [|i]; [simpl; intros [= <-]; set_solver|]). done.
Qed.

Lemma demo_acyclic : acyclic demo_table.
Proof.
  exists (fun i => i). intros i e j ej [Hi Hk] [Hj _] Hp. unfold demo_table in *.
  apply lookup_lt_Some in Hj. simpl in Hj.
  destruct i as [|[|[|[|i]]]]; simpl in *; simplify_eq; simpl in *; try done;
    unfold NO_PARENT in *; lia.
Qed.

Lemma insert_refines_witness :
  exists t' h, insert demo_table 0x2000 Channel CAP_RW = Ok (t', h) /\ wf t' /\
    h <> HANDLE_INVALID /\ abs demo_table !! h = None /\
    abs t' = <[h := mkCap 0x2000 Channel CAP_RW]> (abs demo_table).
Proof. apply (insert_refines demo_table 0x2000 Channel CAP_RW demo_wf); done. Defined.

Lemma derive_refines_witness :
  exists t' h', derive demo_table 0 CAP_RW = Ok (t', h') /\ wf t' /\
    h' <> HANDLE_INVALID /\ abs demo_table !! h' = None /\
    abs t' = <[h' := mkCap 0x1000 File (Z.land CAP_ALL CAP_RW)]> (abs demo_table).
Proof. apply (derive_refines demo_table 0 CAP_RW demo_wf); done. Defined.

Lemma remove_refines_witness :
  exists t', remove demo_table 1 = Ok t' /\ wf t' /\
    abs t' = delete 1 (abs demo_table) /\ get t' 1 = Ok None.
Proof. apply (remove_refines demo_table 1 (mkCap 0x1000 File CAP_READ) demo_wf); done. Defined.

Lemma get_with_rights_refines_witness :
  exists o, get_with_rights demo_table 1 File CAP_WRITE = Ok o /\
    (is_Some o <-> exists c, abs demo_table !! 1 = Some c /\ c_kind c = File /\
       forall n, 0 <= n -> Z.testbit CAP_WRITE n = true -> Z.testbit (c_rights c) n = true).
Proof. apply (get_with_rights_refines demo_table 1 File CAP_WRITE demo_wf); done. Defined.

Lemma revoke_exact_witness :
  exists t' n, revoke demo_table 0 = Ok (t', n) /\ wf t' /\ n = count demo_table - count t'.
Proof.
  destruct (revoke_exact demo_table 0 (mkCap 0x1000 File CAP_ALL) demo_wf demo_acyclic eq_refl)
    as (t' & n & ? & ? & _ & ? & _). eauto.
Defined.

(** The table that calls leave. *)
Definition left_by {A} (r : res (Table * A)) : Table := match r with Ok (t, _) => t | _ => empty_table end.

(** Two files; from the first a handle and from that another are derived, from
    the second a handle; the last handle of the first chain is closed, and the
    second file is revoked with what was derived from it. *)
Definition run_0 : Table := Eval vm_compute in left_by (init true 6 empty_table).
Definition run_1 : Table := Eval vm_compute in left_by (insert run_0 0x1000 File CAP_ALL).
Definition run_2 : Table := Eval vm_compute in left_by (derive run_1 0 CAP_ALL).
Definition run_3 : Table := Eval vm_compute in left_by (derive run_2 1 CAP_READ).
Definition run_4 : Table := Eval vm_compute in left_by (insert run_3 0x2000 Channel CAP_ALL).
Definition run_5 : Table := Eval vm_compute in left_by (derive run_4 3 CAP_READ).
Definition run_6 : Table := Eval vm_compute in left_by (t ← remove run_5 2; Ok (t, tt)).
Definition run_7 : Table := Eval vm_compute in left_by (revoke run_6 3).

Lemma run_reachable : reachable run_7.
Proof.
  assert (R0 : reachable run_0) by (apply (reach_init 6 empty_table); [lia|by vm_compute]).
  assert (R1 : reachable run_1) by (by apply (reach_insert run_0 0x1000 File CAP_ALL _ 0)).
  assert (R2 : reachable run_2) by (by apply (reach_derive run_1 0 CAP_ALL _ 1)).
  assert (R3 : reachable run_3) by (by apply (reach_derive run_2 1 CAP_READ _ 2)).
  assert (R4 : reachable run_4) by (by apply (reach_insert run_3 0x2000 Channel CAP_ALL _ 3)).
  assert (R5 : reachable run_5) by (by apply (reach_derive run_4 3 CAP_READ _ 4)).
  assert (R6 : reachable run_6).
  { apply (reach_remove run_5 2); [done| |by vm_compute]. intros j ej [Hj _].
    do 6 (destruct j as [|j]; [simpl in Hj; injection Hj as <-; by vm_compute|]). done. }
  by apply (reach_revoke run_6 3 _ 2).
Qed.

Lemma reachable_forest_witness :
  live run_7 0 (mkEntry 0x1000 CAP_ALL NO_PARENT File 0) /\ live run_7 1 (mkEntry 0x1000 CAP_ALL 0 File 0) /\
  reachable run_7 /\ wf run_7 /\ forest run_7.
Proof.
  split; [by split|]. split; [by split|]. split; [exact run_reachable|]. exact (reachable_forest run_7 run_reachable).
Defined.

(** Two handles are derived, one from the other, and the first is closed; the
    capability that is left has the rights of the last request. *)
Definition narrowed : Table := Eval vm_compute in left_by (t ← remove run_3 1; Ok (t, tt)).

Lemma no_amplification_witness :
  derive run_1 0 CAP_ALL = Ok (run_2, 1) /\ derive run_2 1 CAP_READ = Ok (run_3, 2) /\ remove run_3 1 = Ok narrowed /\
  live narrowed 2 (mkEntry 0x1000 CAP_READ 1 File 0) /\
  exists j e0, live run_1 j e0 /\ narrower (mkEntry 0x1000 CAP_READ 1 File 0) e0.
Proof.
  assert (E1 : derive run_1 0 CAP_ALL = Ok (run_2, 1)) by (by vm_compute). assert (E2 : derive run_2 1 CAP_READ = Ok (run_3, 2)) by (by vm_compute).
  assert (E3 : remove run_3 1 = Ok narrowed) by (by vm_compute). assert (Hl : live narrowed 2 (mkEntry 0x1000 CAP_READ 1 File 0)) by (by split).
  do 3 (split; [assumption|]). split; [exact Hl|]. apply (no_amplification run_1 narrowed) with (i := 2%nat); [|exact Hl].
  eapply rtc_l; [exact (narrow_derive run_1 _ _ _ _ E1)|]. eapply rtc_l; [exact (narrow_derive run_2 _ _ _ _ E2)|].
  eapply rtc_l; [exact (narrow_remove run_3 _ _ E3)|apply rtc_refl].
Defined.

Lemma remove_ignores_generation_witness :
  get demo_table 0x5000001 = Ok None /\
  exists t', remove demo_table 0x5000001 = Ok t' /\
    abs t' = delete (make_handle 1 0) (abs demo_table) /\
    is_Some (abs demo_table !! make_handle 1 0).
Proof.
  apply (remove_ignores_generation demo_table 1 (mkEntry 0x1000 CAP_READ 0 File 0) 0x5000001 demo_wf);
    done.
Defined.

End CapSpec.
