(* ===== verification/Buddy.v ===== *)
(** * The buddy allocator

    Models [src/kernel/mm/buddy.hpp] and [buddy.cpp], with the page alignment
    helpers of [pmm.hpp].  The free list of an order, which the kernel threads
    through the first bytes of the free blocks, is the list of the addresses of
    its blocks, head first; [FreeBlock::order] is written and never read and is
    left out.  The identifier of the running CPU ([cpu::current_id]) is an
    argument of the operations that use the per-CPU page caches. *)

From S2P Require Import Prelude.

Module Buddy.

Definition MAX_ORDER : Z := 10.
Definition PAGE_SIZE : Z := 4096.
Definition PAGE_SHIFT : Z := 12.
Definition PERCPU_CACHE_SIZE : Z := 8.
Definition MAX_CPUS : Z := 4.

(** [pmm::page_align_up] and [pmm::page_align_down]: [& ~(PAGE_SIZE - 1)]. *)
Definition page_align_up (addr : Z) : Z :=
  Z.land (u64 (addr + PAGE_SIZE - 1)) (u64 (Z.lnot (PAGE_SIZE - 1))).
Definition page_align_down (addr : Z) : Z :=
  Z.land addr (u64 (Z.lnot (PAGE_SIZE - 1))).

Record FreeArea := mkArea { free_list : list Z; acount : Z }.

Record PerCpuPageCache := mkCache { cpages : list Z; ccount : Z }.

Record BuddyAllocator := mkBuddy {
  free_areas : list FreeArea;
  mem_start : Z;
  mem_end : Z;
  total_pages : Z;
  initialized : bool;
  percpu_cache_enabled : bool;
  percpu_cache : list PerCpuPageCache
}.

Definition set_areas (b : BuddyAllocator) (l : list FreeArea) : BuddyAllocator :=
  mkBuddy l (mem_start b) (mem_end b) (total_pages b) (initialized b)
    (percpu_cache_enabled b) (percpu_cache b).
Definition set_caches (b : BuddyAllocator) (l : list PerCpuPageCache) : BuddyAllocator :=
  mkBuddy (free_areas b) (mem_start b) (mem_end b) (total_pages b) (initialized b)
    (percpu_cache_enabled b) l.

(** ** Per-CPU page cache *)

Definition percpu_cache_alloc (cpu_id : Z) (b : BuddyAllocator) : res (BuddyAllocator * Z) :=
  if negb (percpu_cache_enabled b) then Ok (b, 0)
  else if MAX_CPUS <=? cpu_id then Ok (b, 0)
  else
    cache ← rd (percpu_cache b) cpu_id;
    if ccount cache =? 0 then Ok (b, 0)
    else
      let n := ccount cache - 1 in
      page ← rd (cpages cache) n;
      cs ← wr (percpu_cache b) cpu_id (mkCache (cpages cache) n);
      Ok (set_caches b cs, page).

Definition percpu_cache_free (cpu_id addr : Z) (b : BuddyAllocator)
  : res (BuddyAllocator * bool) :=
  if negb (percpu_cache_enabled b) then Ok (b, false)
  else if MAX_CPUS <=? cpu_id then Ok (b, false)
  else
    cache ← rd (percpu_cache b) cpu_id;
    if PERCPU_CACHE_SIZE <=? ccount cache then Ok (b, false)
    else
      ps ← wr (cpages cache) (ccount cache) addr;
      cs ← wr (percpu_cache b) cpu_id (mkCache ps (ccount cache + 1));
      Ok (set_caches b cs, true).

(** ** Free lists *)

Definition add_to_free_list (addr order : Z) (b : BuddyAllocator) : res BuddyAllocator :=
  a ← rd (free_areas b) order;
  l ← wr (free_areas b) order (mkArea (addr :: free_list a) (u64 (acount a + 1)));
  Ok (set_areas b l).

(** Unlinks the first block at [addr]. *)
Fixpoint unlink (addr : Z) (l : list Z) : option (list Z) :=
  match l with
  | [] => None
  | x :: l => if x =? addr then Some l
              else match unlink addr l with Some l' => Some (x :: l') | None => None end
  end.

Definition remove_from_free_list (addr order : Z) (b : BuddyAllocator)
  : res (BuddyAllocator * bool) :=
  a ← rd (free_areas b) order;
  match unlink addr (free_list a) with
  | Some l' =>
      l ← wr (free_areas b) order (mkArea l' (u64 (acount a - 1)));
      Ok (set_areas b l, true)
  | None => Ok (b, false)
  end.

Definition pop_from_free_list (order : Z) (b : BuddyAllocator) : res (BuddyAllocator * Z) :=
  a ← rd (free_areas b) order;
  match free_list a with
  | [] => Ok (b, 0)
  | block :: l' =>
      l ← wr (free_areas b) order (mkArea l' (u64 (acount a - 1)));
      Ok (set_areas b l, block)
  end.

Definition get_buddy_addr (addr order : Z) : Z :=
  let block_size := u64 (Z.shiftl PAGE_SIZE order) in
  Z.lxor addr block_size.

(** ** Coalescing and splitting *)

(** The loop of [try_coalesce]; it runs at most [MAX_ORDER - 1 - order] times. *)
Fixpoint try_coalesce_loop (fuel : nat) (addr order : Z) (b : BuddyAllocator)
  : res BuddyAllocator :=
  match fuel with
  | O => Diverge
  | S fuel =>
      if order <? MAX_ORDER - 1 then
        let buddy_addr := get_buddy_addr addr order in
        if (buddy_addr <? mem_start b) || (mem_end b <=? buddy_addr)
        then add_to_free_list addr order b
        else
          '(b', removed) ← remove_from_free_list buddy_addr order b;
          if negb removed then add_to_free_list addr order b'
          else
            let addr := if addr <? buddy_addr then addr else buddy_addr in
            try_coalesce_loop fuel addr (order + 1) b'
      else add_to_free_list addr order b
  end.

Definition try_coalesce (addr order : Z) (b : BuddyAllocator) : res BuddyAllocator :=
  try_coalesce_loop (S (Z.to_nat MAX_ORDER)) addr order b.

Definition split_block (order : Z) (b : BuddyAllocator) : res BuddyAllocator :=
  if (order =? 0) || (MAX_ORDER <=? order) then Ok b
  else
    '(b, addr) ← pop_from_free_list order b;
    if addr =? 0 then Ok b
    else
      let lower_order := order - 1 in
      let block_size := u64 (Z.shiftl PAGE_SIZE lower_order) in
      b ← add_to_free_list addr lower_order b;
      add_to_free_list (u64 (addr + block_size)) lower_order b.

(** ** Allocation *)

(** The first order from [order] on whose free list is not empty. *)
Fixpoint find_order (fuel : nat) (order : Z) (b : BuddyAllocator) : res Z :=
  match fuel with
  | O => Diverge
  | S fuel =>
      if order <? MAX_ORDER then
        a ← rd (free_areas b) order;
        if acount a =? 0 then find_order fuel (order + 1) b else Ok order
      else Ok order
  end.

(** Splits from [current] down to [order]. *)
Fixpoint split_down (fuel : nat) (current order : Z) (b : BuddyAllocator)
  : res BuddyAllocator :=
  match fuel with
  | O => Diverge
  | S fuel =>
      if order <? current then
        b ← split_block current b; split_down fuel (current - 1) order b
      else Ok b
  end.

Definition alloc_pages (cpu_id order : Z) (b : BuddyAllocator) : res (BuddyAllocator * Z) :=
  if MAX_ORDER <=? order then Ok (b, 0)
  else
    '(b, cached) ← (if order =? 0 then percpu_cache_alloc cpu_id b else Ok (b, 0));
    if negb (cached =? 0) then Ok (b, cached)
    else if negb (initialized b) then Ok (b, 0)
    else
      current_order ← find_order (S (Z.to_nat MAX_ORDER)) order b;
      if MAX_ORDER <=? current_order then Ok (b, 0)
      else
        b ← split_down (S (Z.to_nat MAX_ORDER)) current_order order b;
        pop_from_free_list order b.

(** [addr] heads a block of some free list. *)
Definition in_free_lists (addr : Z) (b : BuddyAllocator) : bool :=
  existsb (fun a => existsb (Z.eqb addr) (free_list a)) (free_areas b).

Definition free_pages (cpu_id addr order : Z) (b : BuddyAllocator) : res BuddyAllocator :=
  if MAX_ORDER <=? order then Ok b
  else
    '(b, cached) ← (if order =? 0 then percpu_cache_free cpu_id addr b else Ok (b, false));
    if (cached : bool) then Ok b
    else if negb (initialized b) then Ok b
    else if (addr <? mem_start b) || (mem_end b <=? addr) then Ok b
    else
      let block_size := u64 (Z.shiftl PAGE_SIZE order) in
      if negb (Z.land addr (block_size - 1) =? 0) then Ok b
      else if in_free_lists addr b then Ok b
      else try_coalesce addr order b.

Definition alloc_page (cpu_id : Z) (b : BuddyAllocator) := alloc_pages cpu_id 0 b.
Definition free_page (cpu_id addr : Z) (b : BuddyAllocator) := free_pages cpu_id addr 0 b.

Definition free_pages_count (b : BuddyAllocator) : Z :=
  if negb (initialized b) then 0
  else (fix go (i : Z) (l : list FreeArea) : Z :=
          match l with
          | [] => 0
          | a :: l => u64 (u64 (Z.shiftl (acount a) i) + go (i + 1) l)
          end) 0 (free_areas b).

(** ** Initialisation *)

(** The largest order, from [order] down, of a block that starts at [addr], is
    aligned to its size and ends by [mend]. *)
Fixpoint fit_order (order : nat) (addr mend : Z) : Z :=
  match order with
  | O => 0
  | S o =>
      let block_size := u64 (Z.shiftl PAGE_SIZE (Z.of_nat order)) in
      if negb (Z.land addr (block_size - 1) =? 0) then fit_order o addr mend
      else if mend <? u64 (addr + block_size) then fit_order o addr mend
      else Z.of_nat order
  end.

Fixpoint init_loop (fuel : nat) (addr : Z) (b : BuddyAllocator) : res BuddyAllocator :=
  match fuel with
  | O => Diverge
  | S fuel =>
      if addr <? mem_end b then
        let order := fit_order (Z.to_nat (MAX_ORDER - 1)) addr (mem_end b) in
        let block_size := u64 (Z.shiftl PAGE_SIZE order) in
        b ← add_to_free_list addr order b;
        init_loop fuel (u64 (addr + block_size)) b
      else Ok b
  end.

(** [BuddyAllocator::init].  Each iteration of its loop consumes at least one
    page, which bounds the fuel. *)
Definition init (mstart mend reserved_end : Z) (b : BuddyAllocator)
  : res (BuddyAllocator * bool) :=
  if initialized b then Ok (b, false)
  else
    let ms := page_align_up mstart in
    let me := page_align_down mend in
    let re := page_align_up reserved_end in
    let b := mkBuddy (free_areas b) ms me (total_pages b) false
               (percpu_cache_enabled b) (percpu_cache b) in
    if (me <=? ms) || (me <=? re) then Ok (b, false)
    else
      let b := mkBuddy (replicate (Z.to_nat MAX_ORDER) (mkArea [] 0)) ms me
                 (Z.shiftr (u64 (me - ms)) PAGE_SHIFT) false
                 (percpu_cache_enabled b) (percpu_cache b) in
      b ← init_loop (S (Z.to_nat (Z.shiftr (me - re) PAGE_SHIFT))) re b;
      Ok (mkBuddy (free_areas b) ms me (total_pages b) true true (percpu_cache b), true).

(** A block of 2^order pages that holds [pages] pages, capped at the largest
    order. *)
Fixpoint pages_to_order_loop (fuel : nat) (pages order size : Z) : res Z :=
  match fuel with
  | O => Diverge
  | S fuel =>
      if (size <? pages) && (order <? MAX_ORDER - 1)
      then pages_to_order_loop fuel pages (order + 1) (u64 (Z.shiftl size 1))
      else Ok order
  end.

Definition pages_to_order (pages : Z) : res Z :=
  if pages <=? 1 then Ok 0
  else pages_to_order_loop (S (Z.to_nat MAX_ORDER)) pages 0 1.

(** The allocator before [init], as static initialisation leaves it. *)
Definition fresh : BuddyAllocator :=
  mkBuddy (replicate (Z.to_nat MAX_ORDER) (mkArea [] 0)) 0 0 0 false false
    (replicate (Z.to_nat MAX_CPUS) (mkCache (replicate (Z.to_nat PERCPU_CACHE_SIZE) 0) 0)).

End Buddy.
