(* ===== verification/BuddySpec.v ===== *)
(** * Correctness of the buddy allocator

    The pages of the free lists and of the per-CPU caches are accounted for as
    a list of page numbers: allocation takes exactly the pages of the returned
    block out of it, freeing puts exactly those pages back, and splitting and
    coalescing only permute it. *)

From S2P Require Import Prelude Buddy.

Module BuddySpec.
Import Buddy.

(** ** Accounting *)

Definition block_bytes (o : Z) : Z := PAGE_SIZE * 2 ^ o.

(** The page numbers of a block. *)
Definition bpages (addr o : Z) : list Z := seqZ (addr / PAGE_SIZE) (2 ^ o).

Fixpoint area_pages (o : Z) (l : list FreeArea) : list Z :=
  match l with
  | [] => []
  | a :: l => (free_list a ≫= (fun x => bpages x o)) ++ area_pages (o + 1) l
  end.

Definition cache_addrs (c : PerCpuPageCache) : list Z := take (Z.to_nat (ccount c)) (cpages c).

Definition cached_pages (l : list PerCpuPageCache) : list Z :=
  l ≫= (fun c => (fun x => x / PAGE_SIZE) <$> cache_addrs c).

(** Every page the allocator holds free. *)
Definition all_pages (b : BuddyAllocator) : list Z :=
  area_pages 0 (free_areas b) ++ cached_pages (percpu_cache b).

(** [block_ok b addr o]: a block of order [o] may start at [addr]. *)
Definition block_ok (b : BuddyAllocator) (addr o : Z) : Prop :=
  addr mod block_bytes o = 0 /\ mem_start b <= addr /\ addr + block_bytes o <= mem_end b.

Definition area_ok (b : BuddyAllocator) (o : Z) (a : FreeArea) : Prop :=
  acount a = Z.of_nat (length (free_list a)) /\ Forall (fun x => block_ok b x o) (free_list a).

Definition cache_ok (b : BuddyAllocator) (c : PerCpuPageCache) : Prop :=
  length (cpages c) = Z.to_nat PERCPU_CACHE_SIZE /\ 0 <= ccount c <= PERCPU_CACHE_SIZE /\
  Forall (fun x => block_ok b x 0) (cache_addrs c).

(** Pages are counted at most once, blocks are aligned and in range, the counts
    are right. *)
Record inv (b : BuddyAllocator) : Prop := {
  inv_range : 0 < mem_start b /\ mem_end b <= 2 ^ 63;
  inv_nareas : length (free_areas b) = Z.to_nat MAX_ORDER;
  inv_areas : forall o a, free_areas b !! o = Some a -> area_ok b (Z.of_nat o) a;
  inv_ncaches : length (percpu_cache b) = Z.to_nat MAX_CPUS;
  inv_caches : Forall (cache_ok b) (percpu_cache b);
  inv_nodup : NoDup (all_pages b)
}.

(** Two states of the same region that differ in their free lists only. *)
Definition same_region (b b' : BuddyAllocator) : Prop :=
  mem_start b' = mem_start b /\ mem_end b' = mem_end b /\ total_pages b' = total_pages b /\
  initialized b' = initialized b /\ percpu_cache_enabled b' = percpu_cache_enabled b.

(** ** Block arithmetic *)

Lemma block_bytes_pos o : 0 <= o -> 0 < block_bytes o.
Proof. intros. unfold block_bytes, PAGE_SIZE. pose proof (Z.pow_pos_nonneg 2 o). lia. Qed.

Lemma block_bytes_pow2 o : 0 <= o -> block_bytes o = 2 ^ (12 + o).
Proof. intros. unfold block_bytes, PAGE_SIZE. rewrite Z.pow_add_r by lia. done. Qed.

Lemma block_bytes_succ o : 0 <= o -> block_bytes (o + 1) = 2 * block_bytes o.
Proof. intros. unfold block_bytes. rewrite Z.pow_add_r by lia. lia. Qed.

Lemma block_size_small o : 0 <= o < 10 -> u64 (Z.shiftl PAGE_SIZE o) = block_bytes o.
Proof.
  intros Ho. rewrite Z.shiftl_mul_pow2 by lia. fold (block_bytes o). apply u64_small.
  pose proof (block_bytes_pos o). rewrite block_bytes_pow2 in * by lia.
  pose proof (Z.pow_lt_mono_r 2 (12 + o) 22). lia.
Qed.

Lemma block_bytes_le o : 0 <= o < 10 -> 4096 <= block_bytes o <= 2 ^ 21.
Proof.
  intros Ho. rewrite block_bytes_pow2 by lia.
  pose proof (Z.pow_le_mono_r 2 12 (12 + o)). pose proof (Z.pow_le_mono_r 2 (12 + o) 21). lia.
Qed.

Lemma aligned_page addr o : 0 <= o -> addr mod block_bytes o = 0 -> addr mod PAGE_SIZE = 0.
Proof.
  intros Ho H. unfold block_bytes in H. apply Z.mod_divide in H; [|unfold PAGE_SIZE; lia].
  apply Z.mod_divide; [done|]. etransitivity; [|exact H]. apply Z.divide_factor_l.
Qed.

Lemma bpages_split addr o :
  0 <= o -> addr mod PAGE_SIZE = 0 ->
  bpages addr (o + 1) = bpages addr o ++ bpages (addr + block_bytes o) o.
Proof.
  intros Ho Ha. unfold bpages, block_bytes, PAGE_SIZE in *. rewrite Z.pow_add_r by lia.
  rewrite (Z.mul_comm 4096), Z.div_add by lia.
  pose proof (Z.pow_pos_nonneg 2 o). replace (2 ^ o * 2 ^ 1) with (2 ^ o + 2 ^ o) by lia.
  apply seqZ_app; lia.
Qed.

Lemma bpages_length addr o : 0 <= o -> Z.of_nat (length (bpages addr o)) = 2 ^ o.
Proof. intros. unfold bpages. rewrite length_seqZ. pose proof (Z.pow_pos_nonneg 2 o). lia. Qed.

(** The buddy of an aligned block: the other half of the block of the next
    order. *)
Lemma buddy_cases addr o :
  0 <= o < 10 -> addr mod block_bytes o = 0 -> 0 <= addr ->
  (addr mod block_bytes (o + 1) = 0 /\ get_buddy_addr addr o = addr + block_bytes o) \/
  ((addr - block_bytes o) mod block_bytes (o + 1) = 0 /\
   get_buddy_addr addr o = addr - block_bytes o).
Proof.
  intros Ho Ha Hpos. unfold get_buddy_addr. rewrite block_size_small by done.
  pose proof (block_bytes_pos o ltac:(lia)) as Hb.
  apply Z.mod_divide in Ha as [q ->]; [|lia]. rewrite block_bytes_succ by lia.
  assert (Hx : Z.lxor (q * block_bytes o) (block_bytes o) = Z.lxor q 1 * block_bytes o).
  { rewrite block_bytes_pow2 by lia. rewrite <- (Z.mul_1_l (2 ^ (12 + o))) at 2.
    rewrite <- !Z.shiftl_mul_pow2 by lia. by rewrite Z.shiftl_lxor. }
  rewrite Hx. destruct (Z.Even_or_Odd q) as [[k ->]|[k ->]].
  - left. split.
    + replace (2 * k * block_bytes o) with (k * (2 * block_bytes o)) by lia.
      apply Z.mod_mul. lia.
    + rewrite Z.lxor_comm, <- Z.add_nocarry_lxor; [lia|].
      apply Z.bits_inj'. intros n Hn. rewrite Z.land_spec, Z.bits_0.
      destruct (Z.eq_dec n 0) as [->|]; [by rewrite Z.testbit_even_0, andb_false_r|].
      by rewrite (Z.bits_above_log2 1) by (simpl; lia).
  - right. split.
    + replace ((2 * k + 1) * block_bytes o - block_bytes o) with (k * (2 * block_bytes o)) by lia.
      apply Z.mod_mul. lia.
    + assert (Z.lxor (2 * k + 1) 1 = 2 * k) as ->; [|lia].
      apply Z.bits_inj'. intros n Hn. rewrite Z.lxor_spec.
      destruct (Z.eq_dec n 0) as [->|]; [by rewrite Z.testbit_odd_0, Z.testbit_even_0|].
      rewrite (Z.bits_above_log2 1) by (simpl; lia). rewrite xorb_false_r.
      replace n with (Z.succ (n - 1)) by lia.
      by rewrite Z.testbit_odd_succ, Z.testbit_even_succ by lia.
Qed.

(** Merging an aligned block with its buddy gives an aligned block of the next
    order with the pages of both. *)
Lemma merge_buddies b addr o :
  0 <= o < 10 -> 0 < mem_start b ->
  block_ok b addr o -> block_ok b (get_buddy_addr addr o) o ->
  let m := if addr <? get_buddy_addr addr o then addr else get_buddy_addr addr o in
  block_ok b m (o + 1) /\
  bpages m (o + 1) ≡ₚ bpages addr o ++ bpages (get_buddy_addr addr o) o.
Proof.
  intros Ho Hms (Ha & Hs & He) (Hba & Hbs & Hbe) m.
  pose proof (block_bytes_pos o ltac:(lia)). pose proof (block_bytes_succ o ltac:(lia)).
  unfold m. clear m. destruct (buddy_cases addr o Ho Ha ltac:(lia)) as [[Hal Heq]|[Hal Heq]];
    rewrite Heq in *.
  - case_cmp. split; [split_and!; [done|lia|lia]|].
    rewrite bpages_split; [done|lia|]. by eapply aligned_page; [|exact Ha]; lia.
  - case_cmp. split; [split_and!; [done|lia|lia]|].
    rewrite bpages_split; [|lia|by eapply aligned_page; [|exact Hba]; lia].
    rewrite Z.sub_add. apply Permutation_app_comm.
Qed.

(** ** Free-list updates *)

Definition blocks (o : Z) (a : FreeArea) : list Z := free_list a ≫= (fun x => bpages x o).

Lemma area_pages_update l i a a' o :
  l !! i = Some a ->
  exists rest, area_pages o l ≡ₚ blocks (o + Z.of_nat i) a ++ rest /\
    area_pages o (<[i := a']> l) ≡ₚ blocks (o + Z.of_nat i) a' ++ rest.
Proof.
  revert i o. induction l as [|x l IH]; intros i o H; [done|]. destruct i as [|i]; simpl in *.
  - simplify_eq. rewrite Z.add_0_r. by exists (area_pages (o + 1) l).
  - destruct (IH i (o + 1) H) as (rest & H1 & H2).
    replace (o + Z.of_nat (S i)) with (o + 1 + Z.of_nat i) by lia.
    exists (blocks o x ++ rest). rewrite H1, H2. fold (blocks o x).
    split; by rewrite Permutation_app_swap_app.
Qed.

Lemma set_areas_pages b i a a' :
  free_areas b !! i = Some a ->
  exists rest, all_pages b ≡ₚ blocks (Z.of_nat i) a ++ rest /\
    all_pages (set_areas b (<[i := a']> (free_areas b))) ≡ₚ blocks (Z.of_nat i) a' ++ rest.
Proof.
  intros H. destruct (area_pages_update _ _ _ a' 0 H) as (rest & H1 & H2).
  exists (rest ++ cached_pages (percpu_cache b)). unfold all_pages; simpl.
  rewrite H1, H2, <- !app_assoc. done.
Qed.

Lemma set_areas_inv b i a a' :
  inv b -> free_areas b !! i = Some a -> area_ok b (Z.of_nat i) a' ->
  NoDup (all_pages (set_areas b (<[i := a']> (free_areas b)))) ->
  inv (set_areas b (<[i := a']> (free_areas b))).
Proof.
  intros Hinv Hi Ha Hnd. split; simpl; [apply Hinv|rewrite length_insert; apply Hinv| |apply Hinv|apply Hinv|done].
  intros o x Ho. apply list_lookup_insert_Some in Ho as [(<- & <- & _)|[_ Ho]]; [done|].
  by apply (inv_areas _ Hinv).
Qed.

Lemma area_at b o : inv b -> 0 <= o < 10 -> exists a, free_areas b !! Z.to_nat o = Some a /\
  rd (free_areas b) o = Ok a /\ area_ok b o a.
Proof.
  intros Hinv Ho. destruct (lookup_lt_is_Some_2 (free_areas b) (Z.to_nat o)) as [a Ha].
  { rewrite (inv_nareas _ Hinv). unfold MAX_ORDER. lia. }
  exists a. split_and!; [done|apply rd_Z; [lia|done]|].
  pose proof (inv_areas _ Hinv _ _ Ha) as H. by rewrite Z2Nat.id in H by lia.
Qed.

Lemma wr_area b o a : inv b -> 0 <= o < 10 ->
  wr (free_areas b) o a = Ok (<[Z.to_nat o := a]> (free_areas b)).
Proof.
  intros Hinv Ho. apply wr_Z. rewrite (inv_nareas _ Hinv). unfold MAX_ORDER. lia.
Qed.

(** Every free page lies in the managed region. *)
Lemma page_range b addr o p :
  0 <= o -> block_ok b addr o -> p ∈ bpages addr o ->
  mem_start b <= p * PAGE_SIZE /\ (p + 1) * PAGE_SIZE <= mem_end b.
Proof.
  intros Ho (Ha & Hs & He) Hp. pose proof (aligned_page _ _ Ho Ha) as Hpg.
  unfold bpages in Hp. apply elem_of_seqZ in Hp. unfold block_bytes, PAGE_SIZE in *.
  apply Z.mod_divide in Hpg as [q ->]; [|done]. rewrite Z.div_mul in Hp by done. nia.
Qed.

Lemma elem_of_area_pages l o p :
  p ∈ area_pages o l <-> exists i a x, l !! i = Some a /\ x ∈ free_list a /\ p ∈ bpages x (o + Z.of_nat i).
Proof.
  revert o. induction l as [|a l IH]; intros o; simpl.
  - split; [by intros ?%not_elem_of_nil|]. by intros (i & a & x & ? & _).
  - rewrite elem_of_app, IH, list_elem_of_bind. split.
    + intros [(x & Hp & Hx)|(i & a' & x & Hi & Hx & Hp)].
      * exists 0%nat, a, x. by rewrite Z.add_0_r.
      * exists (S i), a', x. replace (o + Z.of_nat (S i)) with (o + 1 + Z.of_nat i) by lia. done.
    + intros ([|i] & a' & x & Hi & Hx & Hp); simpl in Hi.
      * simplify_eq. rewrite Z.add_0_r in Hp. left. eauto.
      * right. exists i, a', x. replace (o + 1 + Z.of_nat i) with (o + Z.of_nat (S i)) by lia. done.
Qed.

Lemma elem_of_cached_pages l p :
  p ∈ cached_pages l <-> exists c x, c ∈ l /\ x ∈ cache_addrs c /\ p = x / PAGE_SIZE.
Proof.
  unfold cached_pages. rewrite list_elem_of_bind. setoid_rewrite list_elem_of_fmap. naive_solver.
Qed.

Lemma all_pages_range b p :
  inv b -> p ∈ all_pages b -> mem_start b <= p * PAGE_SIZE /\ (p + 1) * PAGE_SIZE <= mem_end b.
Proof.
  intros Hinv. unfold all_pages. rewrite elem_of_app, elem_of_area_pages, elem_of_cached_pages.
  intros [(i & a & x & Hi & Hx & Hp)|(c & x & Hc & Hx & ->)].
  - pose proof (inv_areas _ Hinv _ _ Hi) as [_ Hok]. rewrite Forall_forall in Hok.
    eapply page_range; [|by apply Hok|done]. lia.
  - pose proof (inv_caches _ Hinv) as Hca. rewrite Forall_forall in Hca.
    destruct (Hca _ Hc) as (_ & _ & Hok). rewrite Forall_forall in Hok.
    apply (page_range b x 0); [lia|by apply Hok|]. unfold bpages. apply elem_of_seqZ. lia.
Qed.

Lemma all_pages_length b : inv b -> Z.of_nat (length (all_pages b)) <= 2 ^ 52.
Proof.
  intros Hinv. assert (H : (length (all_pages b) <= length (seqZ 0 (2 ^ 52)))%nat).
  { apply submseteq_length, NoDup_submseteq; [apply Hinv|]. intros p Hp.
    apply (all_pages_range _ _ Hinv) in Hp. pose proof (inv_range _ Hinv).
    apply elem_of_seqZ. unfold PAGE_SIZE in Hp. lia. }
  rewrite length_seqZ in H. lia.
Qed.

Lemma blocks_length o a : 0 <= o -> (length (free_list a) <= length (blocks o a))%nat.
Proof.
  intros Ho. unfold blocks. induction (free_list a) as [|x l IH]; [simpl; lia|].
  rewrite bind_cons, length_app. simpl length at 1. pose proof (bpages_length x o Ho). pose proof (Z.pow_pos_nonneg 2 o). lia.
Qed.

Lemma area_count_bound b o a :
  inv b -> free_areas b !! o = Some a -> Z.of_nat (length (free_list a)) <= 2 ^ 52.
Proof.
  intros Hinv Ha. destruct (set_areas_pages b o a a Ha) as (rest & Hp%Permutation_length & _).
  rewrite length_app in Hp. pose proof (blocks_length (Z.of_nat o) a ltac:(lia)).
  pose proof (all_pages_length _ Hinv). lia.
Qed.

(** ** The free-list operations *)

(** [b'] holds the pages [l] in addition to those of [b]; nothing else of the
    allocator changed. *)
Definition gains (b b' : BuddyAllocator) (l : list Z) : Prop :=
  inv b' /\ same_region b b' /\ all_pages b' ≡ₚ l ++ all_pages b.
Definition loses (b b' : BuddyAllocator) (l : list Z) : Prop :=
  inv b' /\ same_region b b' /\ all_pages b ≡ₚ l ++ all_pages b'.

Definition disjoint_from (l : list Z) (b : BuddyAllocator) : Prop :=
  forall p, p ∈ l -> p ∉ all_pages b.

Lemma same_region_refl b : same_region b b.
Proof. by unfold same_region. Qed.
Lemma same_region_areas b l : same_region b (set_areas b l).
Proof. by unfold same_region. Qed.
Lemma same_region_caches b l : same_region b (set_caches b l).
Proof. by unfold same_region. Qed.
Lemma same_region_trans b1 b2 b3 :
  same_region b1 b2 -> same_region b2 b3 -> same_region b1 b3.
Proof. unfold same_region. intuition congruence. Qed.

Lemma block_ok_region b b' addr o : same_region b b' -> block_ok b addr o <-> block_ok b' addr o.
Proof. intros (H1 & H2 & _). unfold block_ok. by rewrite H1, H2. Qed.

Lemma bpages_nodup addr o : NoDup (bpages addr o).
Proof. apply NoDup_seqZ. Qed.

Lemma NoDup_gains b addr o l :
  inv b -> disjoint_from (bpages addr o) b -> l ≡ₚ bpages addr o ++ all_pages b -> NoDup l.
Proof.
  intros Hinv Hd ->. apply NoDup_app. split_and!; [apply bpages_nodup|done|apply Hinv].
Qed.

Lemma add_ok b addr o :
  inv b -> 0 <= o < 10 -> block_ok b addr o -> disjoint_from (bpages addr o) b ->
  exists b', add_to_free_list addr o b = Ok b' /\ gains b b' (bpages addr o) /\
    percpu_cache b' = percpu_cache b.
Proof.
  intros Hinv Ho Hb Hd. destruct (area_at b o Hinv Ho) as (a & Ha & Hrd & Hc & Hok).
  unfold add_to_free_list. rewrite Hrd. cbn [mbind res_bind]. rewrite wr_area by done.
  cbn [mbind res_bind]. eexists. split; [done|]. set (a' := mkArea _ _).
  pose proof (area_count_bound _ _ _ Hinv Ha).
  destruct (set_areas_pages b _ a a' Ha) as (rest & H1 & H2).
  rewrite Z2Nat.id in H1, H2 by lia.
  assert (Hp : all_pages (set_areas b (<[Z.to_nat o := a']> (free_areas b)))
             ≡ₚ bpages addr o ++ all_pages b).
  { rewrite H2, H1. unfold blocks, a'. cbn [free_list]. by rewrite bind_cons, <- app_assoc. }
  split; [|done]. split_and!; [|apply same_region_areas|done].
  eapply set_areas_inv; [done|done| |by eapply NoDup_gains].
  rewrite Z2Nat.id by lia. split; simpl.
  - rewrite u64_small; lia.
  - by apply Forall_cons.
Qed.

Lemma unlink_spec addr l :
  match unlink addr l with
  | Some l' => l ≡ₚ addr :: l' /\ (length l = S (length l'))%nat
  | None => addr ∉ l
  end.
Proof.
  induction l as [|x l IH]; simpl; [apply not_elem_of_nil|].
  case_cmp; [by subst|]. destruct (unlink addr l) as [l'|].
  - destruct IH as [IH Hl]. split; [|simpl; lia]. rewrite IH. apply perm_swap.
  - apply not_elem_of_cons. auto.
Qed.

(** Taking a block out of a free list. *)
Lemma take_block_ok b o a addr l' :
  inv b -> 0 <= o < 10 -> free_areas b !! Z.to_nat o = Some a -> area_ok b o a ->
  free_list a ≡ₚ addr :: l' ->
  let b' := set_areas b (<[Z.to_nat o := mkArea l' (u64 (acount a - 1))]> (free_areas b)) in
  block_ok b addr o /\ loses b b' (bpages addr o).
Proof.
  intros Hinv Ho Ha [Hc Hok] Hperm b'. set (a' := mkArea _ _) in b'.
  rewrite Hperm in Hok. apply Forall_cons in Hok as [Hb Hok]. split; [done|].
  destruct (set_areas_pages b _ a a' Ha) as (rest & H1 & H2).
  rewrite Z2Nat.id in H1, H2 by lia. fold b' in H2.
  assert (Hp : all_pages b ≡ₚ bpages addr o ++ all_pages b').
  { rewrite H1, H2. unfold blocks, a'. cbn [free_list]. by rewrite Hperm, bind_cons, <- app_assoc. }
  split_and!; [|apply same_region_areas|done].
  eapply set_areas_inv; [done|done| |].
  - rewrite Z2Nat.id by lia. split; simpl; [|done]. pose proof (area_count_bound _ _ _ Hinv Ha).
    apply Permutation_length in Hperm. simpl in Hperm. rewrite u64_small; lia.
  - pose proof (inv_nodup _ Hinv) as Hnd. rewrite Hp in Hnd. by apply NoDup_app in Hnd as (_ & _ & ?).
Qed.

Lemma remove_ok b addr o :
  inv b -> 0 <= o < 10 ->
  exists b' r, remove_from_free_list addr o b = Ok (b', r) /\
    if (r : bool)
    then block_ok b addr o /\ loses b b' (bpages addr o) /\ percpu_cache b' = percpu_cache b
    else b' = b.
Proof.
  intros Hinv Ho. destruct (area_at b o Hinv Ho) as (a & Ha & Hrd & Hok).
  unfold remove_from_free_list. rewrite Hrd. cbn [mbind res_bind].
  pose proof (unlink_spec addr (free_list a)) as Hu.
  destruct (unlink addr (free_list a)) as [l'|]; [|by exists b, false].
  rewrite wr_area by done. cbn [mbind res_bind]. eexists _, true. split; [done|].
  destruct (take_block_ok b o a addr l' Hinv Ho Ha Hok (proj1 Hu)). auto.
Qed.

Lemma pop_ok b o a :
  inv b -> 0 <= o < 10 -> free_areas b !! Z.to_nat o = Some a ->
  exists b' addr, pop_from_free_list o b = Ok (b', addr) /\ percpu_cache b' = percpu_cache b /\
    match free_list a with
    | [] => addr = 0 /\ b' = b
    | x :: _ => addr = x /\ addr <> 0 /\ block_ok b addr o /\ loses b b' (bpages addr o)
    end.
Proof.
  intros Hinv Ho Ha. destruct (area_at b o Hinv Ho) as (a' & Ha' & Hrd & Hok).
  rewrite Ha in Ha'. simplify_eq. unfold pop_from_free_list. rewrite Hrd. cbn [mbind res_bind].
  destruct (free_list a') as [|x l'] eqn:Hl; [by exists b, 0|].
  rewrite wr_area by done. cbn [mbind res_bind]. eexists _, x. split; [done|]. split; [done|].
  destruct (take_block_ok b o a' x l' Hinv Ho Ha Hok) as [Hb Hlo]; [by rewrite Hl|].
  pose proof (inv_range _ Hinv). destruct Hb as (? & ? & ?). split_and!; [done|lia|done|done].
Qed.

Lemma loses_disjoint b b' l : inv b -> loses b b' l -> disjoint_from l b'.
Proof.
  intros Hinv (_ & _ & Hp) p Hl Hb. pose proof (inv_nodup _ Hinv) as Hnd.
  rewrite Hp in Hnd. apply NoDup_app in Hnd as (_ & Hd & _). by eapply Hd.
Qed.

(** The coalescing loop adds exactly the pages of the freed block. *)
Lemma coalesce_ok fuel : forall b addr o,
  inv b -> 0 <= o < 10 -> (10 - o < Z.of_nat fuel) ->
  block_ok b addr o -> disjoint_from (bpages addr o) b ->
  exists b', try_coalesce_loop fuel addr o b = Ok b' /\ gains b b' (bpages addr o) /\
    percpu_cache b' = percpu_cache b.
Proof.
  induction fuel as [|fuel IH]; intros b addr o Hinv Ho Hfuel Hb Hd; [lia|].
  cbn [try_coalesce_loop]. unfold MAX_ORDER. case_cmp; [|by apply add_ok].
  destruct ((_ <? _) || (_ <=? _)); [by apply add_ok|].
  destruct (remove_ok b (get_buddy_addr addr o) o Hinv Ho) as (b1 & r & -> & Hr).
  cbn [mbind res_bind]. destruct r; cbn [negb]; [|subst b1; by apply add_ok].
  destruct Hr as (Hbud & (Hinv1 & Hreg & Hperm) & Hpc).
  pose proof (inv_range _ Hinv) as [Hms _].
  destruct (merge_buddies b addr o ltac:(lia) Hms Hb Hbud) as [Hm Hmp].
  set (m := if addr <? get_buddy_addr addr o then addr else get_buddy_addr addr o) in *.
  destruct (IH b1 m (o + 1)) as (b' & -> & (Hinv' & Hreg' & Hperm') & Hpc'); [done|lia|lia| | |].
  - by apply (block_ok_region b b1).
  - intros p Hp Hp1. rewrite Hmp in Hp. apply elem_of_app in Hp as [Hp|Hp].
    + apply (Hd p Hp). rewrite Hperm. apply elem_of_app. by right.
    + by eapply (loses_disjoint b b1); [..|done].
  - exists b'. split; [done|]. split; [|congruence]. split_and!; [done|by eapply same_region_trans|].
    rewrite Hperm', Hmp, Hperm, <- app_assoc. done.
Qed.

(** ** Splitting and searching *)

Definition nonempty (b : BuddyAllocator) (o : Z) : Prop :=
  exists a, free_areas b !! Z.to_nat o = Some a /\ free_list a <> [].

(** Only the arrangement of the pages changed. *)
Definition rearranged (b b' : BuddyAllocator) : Prop :=
  inv b' /\ same_region b b' /\ all_pages b' ≡ₚ all_pages b /\
  percpu_cache b' = percpu_cache b.

Lemma rearranged_trans b1 b2 b3 : rearranged b1 b2 -> rearranged b2 b3 -> rearranged b1 b3.
Proof.
  intros (_ & Hr & Hp & Hc) (Hi & Hr' & Hp' & Hc').
  split_and!; [done|by eapply same_region_trans|by rewrite Hp'|congruence].
Qed.

Lemma add_nonempty b addr o b' : add_to_free_list addr o b = Ok b' -> nonempty b' o.
Proof.
  unfold add_to_free_list. intros (a & Ha & H)%bind_inv. apply bind_inv in H as (l & Hw & [= <-]).
  apply rd_inv in Ha as [? Ha]. apply wr_inv in Hw as [? ->].
  eexists. simpl. rewrite list_lookup_insert_eq by lia. by split.
Qed.

Lemma split_ok b o :
  inv b -> 1 <= o < 10 -> nonempty b o ->
  exists b', split_block o b = Ok b' /\ rearranged b b' /\ nonempty b' (o - 1).
Proof.
  intros Hinv Ho (a & Ha & Hne). unfold split_block, MAX_ORDER.
  case_cmp. case_cmp.
  destruct (pop_ok b o a Hinv ltac:(lia) Ha) as (b1 & addr & -> & Hpc & Hpop).
  destruct (free_list a) as [|x l]; [done|].
  destruct Hpop as (_ & Hnz & (Hal & Hs & He) & Hlo).
  cbn [mbind res_bind]. case_cmp. rewrite block_size_small by lia.
  pose proof (inv_range _ Hinv). pose proof (block_bytes_le (o - 1) ltac:(lia)).
  pose proof (block_bytes_succ (o - 1) ltac:(lia)) as Hbb. rewrite Z.sub_add in Hbb.
  rewrite u64_small by lia.
  assert (Hal1 : addr mod block_bytes (o - 1) = 0).
  { rewrite Hbb in Hal. apply Z.mod_divide in Hal as [q ->]; [|lia].
    replace (q * (2 * block_bytes (o - 1))) with (q * 2 * block_bytes (o - 1)) by lia.
    apply Z.mod_mul. lia. }
  pose proof Hlo as (Hinv1 & Hreg & Hperm). pose proof (loses_disjoint _ _ _ Hinv Hlo) as Hdis.
  assert (Hsp : bpages addr o = bpages addr (o - 1) ++ bpages (addr + block_bytes (o - 1)) (o - 1)).
  { rewrite <- bpages_split; [by rewrite Z.sub_add|lia|].
    by eapply aligned_page; [|exact Hal1]; lia. }
  rewrite Hsp in Hdis, Hperm.
  destruct (add_ok b1 addr (o - 1)) as (b2 & -> & (Hinv2 & Hreg2 & Hperm2) & Hpc2);
    [done|lia| | |].
  { apply (block_ok_region b b1); [done|]. split_and!; [done|lia|lia]. }
  { intros p Hp. apply Hdis. apply elem_of_app. by left. }
  cbn [mbind res_bind].
  destruct (add_ok b2 (addr + block_bytes (o - 1)) (o - 1))
    as (b3 & Hadd & (Hinv3 & Hreg3 & Hperm3) & Hpc3); [done|lia| | |].
  { apply (block_ok_region b b2); [by eapply same_region_trans|]. split_and!; [|lia|lia].
    rewrite <- Zplus_mod_idemp_l, Hal1, Z.add_0_l. apply Z.mod_same. lia. }
  { intros p Hp Hp2. rewrite Hperm2 in Hp2. apply elem_of_app in Hp2 as [Hp2|Hp2].
    - pose proof (bpages_nodup addr o) as Hnd. rewrite Hsp in Hnd.
      apply NoDup_app in Hnd as (_ & Hnd & _). by eapply Hnd.
    - eapply Hdis; [|exact Hp2]. apply elem_of_app. by right. }
  exists b3. rewrite Hadd. split; [done|]. split; [|by eapply add_nonempty].
  split_and!; [done|by eauto using same_region_trans| |congruence].
  rewrite Hperm3, Hperm2, Hperm, <- app_assoc. apply Permutation_app_swap_app.
Qed.

Lemma split_down_ok fuel : forall b current o,
  inv b -> 0 <= o <= current -> current < 10 -> nonempty b current ->
  current - o < Z.of_nat fuel ->
  exists b', split_down fuel current o b = Ok b' /\ rearranged b b' /\ nonempty b' o.
Proof.
  induction fuel as [|fuel IH]; intros b c o Hinv Ho Hc Hne Hf; [lia|].
  cbn [split_down]. case_cmp.
  - destruct (split_ok b c Hinv ltac:(lia) Hne) as (b1 & -> & Hre & Hne1). cbn [mbind res_bind].
    destruct (IH b1 (c - 1) o) as (b2 & -> & Hre2 & Hne2); [apply Hre|lia|lia|done|lia|].
    exists b2. eauto using rearranged_trans.
  - exists b. assert (c = o) as -> by lia. split; [done|]. split; [|done].
    split_and!; [done|apply same_region_refl|done|done].
Qed.

Lemma find_order_ok fuel : forall b o,
  inv b -> 0 <= o <= 10 -> 10 - o < Z.of_nat fuel ->
  exists c, find_order fuel o b = Ok c /\
    ((c < 10 /\ o <= c /\ nonempty b c) \/
     (10 <= c /\ forall k, o <= k < 10 -> ~ nonempty b k)).
Proof.
  induction fuel as [|fuel IH]; intros b o Hinv Ho Hf; [lia|].
  cbn [find_order]. unfold MAX_ORDER. case_cmp.
  2:{ exists o. split; [done|]. right. split; [lia|]. intros k Hk. lia. }
  destruct (area_at b o Hinv ltac:(lia)) as (a & Ha & -> & Hc & _). cbn [mbind res_bind].
  case_cmp.
  - destruct (IH b (o + 1)) as (c & -> & Hcase); [done|lia|lia|]. exists c. split; [done|].
    destruct Hcase as [(? & ? & ?)|[? Hall]]; [left; split_and!; [done|lia|done]|right].
    split; [done|]. intros k Hk. destruct (Z.eq_dec k o) as [->|]; [|apply Hall; lia].
    intros (a' & Ha' & Hne). rewrite Ha in Ha'. simplify_eq.
    destruct (free_list a'); simpl in *; [done|lia].
  - exists o. split; [done|]. left. split_and!; [done|lia|]. exists a. split; [done|].
    intros Hnil. rewrite Hnil in Hc. simpl in Hc. lia.
Qed.

(** ** The per-CPU caches *)

Definition cpage_list (c : PerCpuPageCache) : list Z := (fun x => x / PAGE_SIZE) <$> cache_addrs c.

Lemma cached_pages_update l i c c' :
  l !! i = Some c ->
  exists rest, cached_pages l ≡ₚ cpage_list c ++ rest /\
    cached_pages (<[i := c']> l) ≡ₚ cpage_list c' ++ rest.
Proof.
  intros H. exists (cached_pages (take i l) ++ cached_pages (drop (S i) l)).
  assert (Hl : forall x, cached_pages (take i l ++ x :: drop (S i) l) ≡ₚ
    cpage_list x ++ (cached_pages (take i l) ++ cached_pages (drop (S i) l))).
  { intros x. unfold cached_pages. rewrite bind_app, bind_cons. fold (cpage_list x).
    apply Permutation_app_swap_app. }
  split.
  - rewrite <- Hl. by rewrite take_drop_middle.
  - rewrite <- Hl. rewrite insert_take_drop; [done|]. by eapply lookup_lt_Some.
Qed.

Lemma set_caches_pages b i c c' :
  percpu_cache b !! i = Some c ->
  exists rest, all_pages b ≡ₚ cpage_list c ++ rest /\
    all_pages (set_caches b (<[i := c']> (percpu_cache b))) ≡ₚ cpage_list c' ++ rest.
Proof.
  intros H. destruct (cached_pages_update _ _ _ c' H) as (rest & H1 & H2).
  exists (area_pages 0 (free_areas b) ++ rest). unfold all_pages; simpl. rewrite H1, H2.
  split; apply Permutation_app_swap_app.
Qed.

Lemma set_caches_inv b i c' :
  inv b -> cache_ok b c' ->
  NoDup (all_pages (set_caches b (<[i := c']> (percpu_cache b)))) ->
  inv (set_caches b (<[i := c']> (percpu_cache b))).
Proof.
  intros Hinv Hc Hnd.
  split; simpl; [apply Hinv|apply Hinv|apply Hinv|rewrite length_insert; apply Hinv| |done].
  apply Forall_insert; [apply Hinv|done].
Qed.

Lemma cache_at b cpu :
  inv b -> 0 <= cpu < MAX_CPUS ->
  exists c, percpu_cache b !! Z.to_nat cpu = Some c /\ rd (percpu_cache b) cpu = Ok c /\
    cache_ok b c /\
    forall c', wr (percpu_cache b) cpu c' = Ok (<[Z.to_nat cpu := c']> (percpu_cache b)).
Proof.
  intros Hinv Hcpu. pose proof (inv_ncaches _ Hinv). unfold MAX_CPUS in *.
  destruct (lookup_lt_is_Some_2 (percpu_cache b) (Z.to_nat cpu)) as [c Hc]; [lia|].
  exists c. split_and!; [done|apply rd_Z; [lia|done]| |intros; apply wr_Z; lia].
  eapply Forall_lookup_1; [apply Hinv|done].
Qed.

Lemma cache_alloc_ok b cpu :
  inv b -> 0 <= cpu ->
  exists b' addr, percpu_cache_alloc cpu b = Ok (b', addr) /\
    ((addr = 0 /\ b' = b /\
      (percpu_cache_enabled b = true -> cpu < MAX_CPUS ->
       exists c, percpu_cache b !! Z.to_nat cpu = Some c /\ cache_addrs c = [])) \/
     (addr <> 0 /\ block_ok b addr 0 /\ loses b b' (bpages addr 0))).
Proof.
  intros Hinv Hcpu. unfold percpu_cache_alloc.
  destruct (percpu_cache_enabled b) eqn:Hen; cbn [negb]; [|exists b, 0; split; [done|]; by left].
  case_cmp; [exists b, 0; split; [done|]; left; split_and!; [done|done|lia]|].
  destruct (cache_at b cpu Hinv ltac:(lia)) as (c & Hc & -> & (Hlen & Hn & Hok) & Hwr).
  cbn [mbind res_bind]. unfold PERCPU_CACHE_SIZE in *. case_cmp.
  { exists b, 0. split; [done|]. left. split_and!; [done|done|]. intros _ _. exists c.
    split; [done|]. unfold cache_addrs. by rewrite e. }
  destruct (lookup_lt_is_Some_2 (cpages c) (Z.to_nat (ccount c - 1))) as [x Hx]; [lia|].
  rewrite (rd_Z _ _ x) by (done || lia). cbn [mbind res_bind]. rewrite Hwr. cbn [mbind res_bind].
  set (c' := mkCache (cpages c) (ccount c - 1)).
  assert (Hsp : cache_addrs c = cache_addrs c' ++ [x]).
  { unfold cache_addrs, c'. simpl. replace (Z.to_nat (ccount c)) with (S (Z.to_nat (ccount c - 1))) by lia.
    by apply take_S_r. }
  rewrite Hsp in Hok. apply Forall_app in Hok as [Hok Hx1]. rewrite Forall_singleton in Hx1.
  eexists _, x. split; [done|]. right. pose proof (inv_range _ Hinv).
  split; [destruct Hx1 as (? & ? & ?); lia|]. split; [done|].
  destruct (set_caches_pages b _ c c' Hc) as (rest & H1 & H2).
  assert (Hp : all_pages b ≡ₚ bpages x 0 ++
    all_pages (set_caches b (<[Z.to_nat cpu := c']> (percpu_cache b)))).
  { rewrite H1, H2. unfold cpage_list. rewrite Hsp, fmap_app, <- app_assoc.
    rewrite Permutation_app_swap_app. done. }
  split_and!; [|apply same_region_caches|done]. apply set_caches_inv; [done| |].
  - split_and!; simpl; [done|unfold PERCPU_CACHE_SIZE; lia..|done].
  - pose proof (inv_nodup _ Hinv) as Hnd. rewrite Hp in Hnd. by apply NoDup_app in Hnd as (_ & _ & ?).
Qed.

Lemma cache_free_ok b cpu addr :
  inv b -> 0 <= cpu -> block_ok b addr 0 -> disjoint_from (bpages addr 0) b ->
  exists b' r, percpu_cache_free cpu addr b = Ok (b', r) /\
    if (r : bool) then gains b b' (bpages addr 0) else b' = b.
Proof.
  intros Hinv Hcpu Hb Hd. unfold percpu_cache_free.
  destruct (percpu_cache_enabled b); cbn [negb]; [|by exists b, false].
  case_cmp; [by exists b, false|].
  destruct (cache_at b cpu Hinv ltac:(lia)) as (c & Hc & -> & (Hlen & Hn & Hok) & Hwr).
  cbn [mbind res_bind]. unfold PERCPU_CACHE_SIZE in *. case_cmp; [by exists b, false|].
  rewrite wr_Z by lia. cbn [mbind res_bind]. rewrite Hwr. cbn [mbind res_bind].
  set (c' := mkCache _ _). eexists _, true. split; [done|]. cbn.
  assert (Hsp : cache_addrs c' = cache_addrs c ++ [addr]).
  { unfold cache_addrs, c'. simpl. replace (Z.to_nat (ccount c + 1)) with (S (Z.to_nat (ccount c))) by lia.
    rewrite (take_S_r _ _ addr) by (by apply list_lookup_insert_eq; lia).
    by rewrite take_insert_ge by lia. }
  destruct (set_caches_pages b _ c c' Hc) as (rest & H1 & H2).
  assert (Hp : all_pages (set_caches b (<[Z.to_nat cpu := c']> (percpu_cache b)))
             ≡ₚ bpages addr 0 ++ all_pages b).
  { rewrite H2, H1. unfold cpage_list. rewrite Hsp, fmap_app, <- app_assoc.
    rewrite Permutation_app_swap_app. done. }
  split_and!; [|apply same_region_caches|done].
  apply set_caches_inv; [done| |by eapply NoDup_gains].
  split_and!; simpl; [by rewrite length_insert|unfold PERCPU_CACHE_SIZE; lia..|].
  rewrite Hsp. apply Forall_app. split; [done|]. by rewrite Forall_singleton.
Qed.

(** ** Initialisation *)

Lemma page_align_up_spec x :
  0 <= x < 2 ^ 63 -> page_align_up x = (x + 4095) / 4096 * 4096.
Proof.
  intros Hx. unfold page_align_up, PAGE_SIZE. change (4096 - 1) with (2 ^ 12 - 1).
  rewrite (u64_small (x + 4096 - 1)) by lia. rewrite land_align_down by lia.
  by replace (x + 4096 - 1) with (x + 4095) by lia.
Qed.

Lemma page_align_down_spec x : 0 <= x < 2 ^ 63 -> page_align_down x = x / 4096 * 4096.
Proof.
  intros Hx. unfold page_align_down, PAGE_SIZE. change (4096 - 1) with (2 ^ 12 - 1).
  by rewrite land_align_down by lia.
Qed.

Lemma fit_order_ok n addr mend :
  (n < 10)%nat -> addr mod PAGE_SIZE = 0 -> 0 <= addr -> addr + PAGE_SIZE <= mend -> mend <= 2 ^ 63 ->
  let o := fit_order n addr mend in
  0 <= o < 10 /\ addr mod block_bytes o = 0 /\ addr + block_bytes o <= mend.
Proof.
  intros Hn Ha Hp He Hm. unfold PAGE_SIZE in *. induction n as [|n IH]; cbn [fit_order].
  { change (block_bytes 0) with 4096. lia. }
  assert (Hlt : (n < 10)%nat) by lia. specialize (IH Hlt).
  rewrite block_size_small by lia.
  pose proof (block_bytes_le (Z.of_nat (S n)) ltac:(lia)).
  destruct (Z.eqb_spec (Z.land addr (block_bytes (Z.of_nat (S n)) - 1)) 0) as [Hal|]; [|done].
  cbn [negb]. rewrite (u64_small (addr + _)) by lia.
  destruct (Z.ltb_spec mend (addr + block_bytes (Z.of_nat (S n)))); [done|].
  rewrite block_bytes_pow2, land_mask_mod, <- block_bytes_pow2 in Hal by lia. lia.
Qed.

Lemma init_loop_ok fuel : forall b re addr,
  inv b -> re mod PAGE_SIZE = 0 -> addr mod PAGE_SIZE = 0 -> mem_end b mod PAGE_SIZE = 0 ->
  mem_start b <= re -> re <= addr <= mem_end b ->
  all_pages b ≡ₚ seqZ (re / PAGE_SIZE) ((addr - re) / PAGE_SIZE) ->
  mem_end b - addr < Z.of_nat fuel * PAGE_SIZE ->
  exists b', init_loop fuel addr b = Ok b' /\ inv b' /\ same_region b b' /\
    percpu_cache b' = percpu_cache b /\ all_pages b' ≡ₚ seqZ (re / PAGE_SIZE) ((mem_end b - re) / PAGE_SIZE).
Proof.
  induction fuel as [|fuel IH]; intros b re addr Hinv Hre Ha Hme Hms Hr Hp Hf.
  { unfold PAGE_SIZE in *. lia. }
  cbn [init_loop]. pose proof (inv_range _ Hinv).
  case_cmp.
  2:{ exists b. assert (addr = mem_end b) as -> by lia.
      split_and!; [done|done|apply same_region_refl|done|done]. }
  destruct (fit_order_ok (Z.to_nat (MAX_ORDER - 1)) addr (mem_end b)) as (Ho & Hal & He);
    [unfold MAX_ORDER; lia|done|lia| |lia|].
  { apply Z.mod_divide in Ha as [ka ->]; [|done]. apply Z.mod_divide in Hme as [km Hkm]; [|done].
    rewrite Hkm in *. unfold PAGE_SIZE in *. lia. }
  set (o := fit_order _ _ _) in *. rewrite block_size_small by done.
  pose proof (block_bytes_le o Ho). pose proof (block_bytes_pos o ltac:(lia)).
  rewrite u64_small by lia.
  assert (Hdiv : exists k, re = k * PAGE_SIZE) by (apply Z.mod_divide in Hre; [|done]; naive_solver).
  assert (Hdiv2 : exists k, addr = k * PAGE_SIZE) by (apply Z.mod_divide in Ha; [|done]; naive_solver).
  destruct Hdiv as [kr ->], Hdiv2 as [ka ->].
  assert (Hpg : (ka * PAGE_SIZE - kr * PAGE_SIZE) / PAGE_SIZE = ka - kr).
  { rewrite <- Z.mul_sub_distr_r. by apply Z.div_mul. }
  rewrite Hpg in Hp. rewrite !Z.div_mul in * by done.
  destruct (add_ok b (ka * PAGE_SIZE) o) as (b1 & -> & (Hinv1 & Hreg & Hperm) & Hpc1);
    [done|done|split_and!; [done|lia|lia]| |].
  { intros p Hp1 Hp2. rewrite Hp in Hp2. unfold bpages in Hp1. rewrite Z.div_mul in Hp1 by done.
    apply elem_of_seqZ in Hp1, Hp2. lia. }
  cbn [mbind res_bind]. pose proof Hreg as (Hms1 & Hme1 & _).
  destruct (IH b1 (kr * PAGE_SIZE) (ka * PAGE_SIZE + block_bytes o))
    as (b2 & Heq & Hinv2 & Hreg2 & Hpc2 & Hperm2); [done|by apply Z.mod_mul|..].
  - unfold block_bytes. rewrite Z.mul_comm, <- Z.mul_add_distr_l, Z.mul_comm. by apply Z.mod_mul.
  - by rewrite Hme1.
  - lia.
  - lia.
  - rewrite Hperm, Hp. unfold bpages. rewrite !Z.div_mul by done.
    replace (ka * PAGE_SIZE + block_bytes o - kr * PAGE_SIZE) with ((ka - kr + 2 ^ o) * PAGE_SIZE)
      by (unfold block_bytes; lia). rewrite Z.div_mul by done.
    rewrite Permutation_app_comm. pose proof (Z.pow_pos_nonneg 2 o).
    rewrite seqZ_app by (unfold PAGE_SIZE in *; lia). by replace (kr + (ka - kr)) with ka by lia.
  - unfold PAGE_SIZE in *. lia.
  - exists b2. rewrite Hme1 in Hperm2. rewrite Z.div_mul in Hperm2 by done.
    split_and!; [done|done|by eapply same_region_trans|congruence|done].
Qed.

(** ** Counting *)

Definition count_loop : Z -> list FreeArea -> Z :=
  fix go (i : Z) (l : list FreeArea) : Z :=
    match l with
    | [] => 0
    | a :: l => u64 (u64 (Z.shiftl (acount a) i) + go (i + 1) l)
    end.

Lemma area_length o a : 0 <= o -> Z.of_nat (length (blocks o a)) = Z.of_nat (length (free_list a)) * 2 ^ o.
Proof.
  intros Ho. unfold blocks. induction (free_list a) as [|x l IH]; [done|].
  rewrite bind_cons, length_app, Nat2Z.inj_add, IH, bpages_length by done. simpl length. lia.
Qed.

Lemma count_loop_ok b l i :
  0 <= i -> (forall j a, l !! j = Some a -> area_ok b (i + Z.of_nat j) a) ->
  Z.of_nat (length (area_pages i l)) <= 2 ^ 52 ->
  count_loop i l = Z.of_nat (length (area_pages i l)).
Proof.
  revert i. induction l as [|a l IH]; intros i Hi Hok Hlen; [done|].
  cbn [count_loop area_pages] in *. fold (blocks i a) in *. fold count_loop.
  rewrite length_app, Nat2Z.inj_add in *. rewrite (area_length i a Hi) in *.
  rewrite IH; [|lia| |lia].
  - destruct (Hok 0%nat a eq_refl) as [-> _]. rewrite Z.shiftl_mul_pow2 by lia.
    pose proof (Z.pow_pos_nonneg 2 i).
    set (n := Z.of_nat (length (free_list a)) * 2 ^ i) in *. assert (0 <= n) by (unfold n; nia).
    rewrite (u64_small n) by lia. apply u64_small. lia.
  - intros j a' Hj. replace (i + 1 + Z.of_nat j) with (i + Z.of_nat (S j)) by lia. by apply Hok.
Qed.

Lemma free_pages_count_ok b :
  inv b -> initialized b = true ->
  free_pages_count b = Z.of_nat (length (area_pages 0 (free_areas b))).
Proof.
  intros Hinv Hi. unfold free_pages_count. rewrite Hi. cbn [negb]. fold count_loop.
  apply (count_loop_ok b); [lia| |].
  - intros j a Hj. rewrite Z.add_0_l. by apply (inv_areas _ Hinv).
  - pose proof (all_pages_length _ Hinv) as H. unfold all_pages in H. rewrite length_app in H. lia.
Qed.

(** ** Claims *)

Lemma alloc_pages_ok b cpu order :
  inv b -> initialized b = true -> 0 <= cpu -> 0 <= order < MAX_ORDER ->
  exists b' addr, alloc_pages cpu order b = Ok (b', addr) /\ inv b' /\ same_region b b' /\
    if addr =? 0
    then b' = b /\ forall k, order <= k < MAX_ORDER -> ~ nonempty b k
    else block_ok b addr order /\ all_pages b ≡ₚ bpages addr order ++ all_pages b' /\
         disjoint_from (bpages addr order) b'.
Proof.
  intros Hinv Hi Hcpu Ho. unfold MAX_ORDER in *. unfold alloc_pages, MAX_ORDER. case_cmp.
  assert (Hfast : exists b1 cached,
    (if order =? 0 then percpu_cache_alloc cpu b else Ok (b, 0)) = Ok (b1, cached) /\
    ((cached = 0 /\ b1 = b) \/
     (cached <> 0 /\ block_ok b cached order /\ loses b b1 (bpages cached order)))).
  { case_cmp; [|by exists b, 0; auto]. subst.
    destruct (cache_alloc_ok b cpu Hinv Hcpu) as (b1 & c & -> & [(-> & -> & _)|H']); eauto 10. }
  destruct Hfast as (b1 & cached & -> & [(-> & ->)|(Hnz & Hb & Hlo)]); cbn [mbind res_bind].
  2:{ case_cmp. exists b1, cached. split; [done|]. pose proof Hlo as (? & ? & ?).
      split_and!; [done|done|]. case_cmp.
      split; [done|]. split; [done|]. by apply (loses_disjoint b). }
  cbn [Z.eqb negb]. rewrite Hi. cbn [negb].
  destruct (find_order_ok (S (Z.to_nat 10)) b order Hinv ltac:(lia) ltac:(lia))
    as (c & -> & [(Hc & Hoc & Hne)|[Hc Hall]]); cbn [mbind res_bind].
  2:{ case_cmp. exists b, 0. split_and!; [done|done|apply same_region_refl|]. simpl. auto. }
  case_cmp.
  destruct (split_down_ok (S (Z.to_nat 10)) b c order Hinv ltac:(lia) Hc Hne ltac:(lia))
    as (b2 & -> & (Hinv2 & Hreg2 & Hperm2 & Hpc2) & (a & Ha & Hnil)). cbn [mbind res_bind].
  destruct (pop_ok b2 order a Hinv2 ltac:(lia) Ha) as (b3 & addr & -> & _ & Hpop).
  destruct (free_list a) as [|x l]; [done|].
  destruct Hpop as (_ & Hnz & Hb & Hlo). pose proof Hlo as (Hinv3 & Hreg3 & Hperm3).
  exists b3, addr. split_and!; [done|done|by eapply same_region_trans|]. case_cmp.
  split; [by apply (block_ok_region b b2)|]. split; [by rewrite <- Hperm2|].
  by apply (loses_disjoint b2).
Qed.

(** (C25) [BuddyAllocator::alloc_pages] on an initialised allocator returns a
    block of the requested order that is aligned to its size, inside the
    region, and whose pages were free and are no longer; it returns 0 only when
    no free list of that order or a larger one has a block. *)
Theorem alloc_pages_sound b cpu order :
  inv b -> initialized b = true -> 0 <= cpu -> 0 <= order < MAX_ORDER ->
  exists b' addr, alloc_pages cpu order b = Ok (b', addr) /\ inv b' /\ same_region b b' /\
    if addr =? 0
    then b' = b /\ forall k, order <= k < MAX_ORDER -> ~ nonempty b k
    else block_ok b addr order /\ all_pages b ≡ₚ bpages addr order ++ all_pages b' /\
         disjoint_from (bpages addr order) b'.
Proof. apply alloc_pages_ok. Qed.

Lemma in_free_lists_page b addr o :
  inv b -> 0 <= o -> disjoint_from (bpages addr o) b -> in_free_lists addr b = false.
Proof.
  intros Hinv Ho Hd. apply not_true_is_false. intros Hin. unfold in_free_lists in Hin.
  apply existsb_exists in Hin as (a & Ha & Hin). apply existsb_exists in Hin as (x & Hx & ->%Z.eqb_eq).
  apply list_elem_of_In, list_elem_of_lookup in Ha as [i Hi].
  assert (Hfirst : forall k, 0 <= k -> x / PAGE_SIZE ∈ bpages x k).
  { intros k Hk. unfold bpages. apply elem_of_seqZ. pose proof (Z.pow_pos_nonneg 2 k). lia. }
  apply (Hd (x / PAGE_SIZE)); [by apply Hfirst|]. unfold all_pages. apply elem_of_app. left.
  apply elem_of_area_pages. exists i, a, x. split_and!; [done|by apply list_elem_of_In|].
  apply Hfirst. lia.
Qed.

Lemma free_pages_ok b cpu addr order :
  inv b -> initialized b = true -> 0 <= cpu -> 0 <= order < MAX_ORDER ->
  block_ok b addr order -> disjoint_from (bpages addr order) b ->
  exists b', free_pages cpu addr order b = Ok b' /\ inv b' /\ same_region b b' /\
    all_pages b' ≡ₚ bpages addr order ++ all_pages b.
Proof.
  intros Hinv Hi Hcpu Ho Hb Hd. unfold MAX_ORDER in *. unfold free_pages, MAX_ORDER. case_cmp.
  assert (Hfast : exists b1 r,
    (if order =? 0 then percpu_cache_free cpu addr b else Ok (b, false)) = Ok (b1, r) /\
    if (r : bool) then gains b b1 (bpages addr order) else b1 = b).
  { case_cmp; [|by exists b, false]. subst.
    destruct (cache_free_ok b cpu addr Hinv Hcpu Hb Hd) as (b1 & r & -> & H'). eauto. }
  destruct Hfast as (b1 & [|] & -> & Hg); cbn [mbind res_bind].
  { exists b1. split; [done|]. apply Hg. }
  subst b1. rewrite Hi. cbn [negb]. pose proof Hb as (Hal & Hs & He).
  pose proof (block_bytes_le order ltac:(lia)). rewrite block_size_small by lia.
  case_cmp. case_cmp.
  rewrite (block_bytes_pow2 order), land_mask_mod, <- block_bytes_pow2 by lia.
  rewrite Hal. cbn [Z.eqb negb]. rewrite (in_free_lists_page _ _ _ Hinv (proj1 Ho) Hd).
  unfold try_coalesce, MAX_ORDER.
  destruct (coalesce_ok (S (Z.to_nat 10)) b addr order) as (b' & -> & Hg & _); [done|lia|lia|done|done|].
  exists b'. split; [done|]. apply Hg.
Qed.

(** (C26) [BuddyAllocator::free_pages] of an aligned block inside the region
    none of whose pages is free adds exactly its pages to the free ones,
    whatever merging with buddies takes place. *)
Theorem free_pages_sound b cpu addr order :
  inv b -> initialized b = true -> 0 <= cpu -> 0 <= order < MAX_ORDER ->
  block_ok b addr order -> disjoint_from (bpages addr order) b ->
  exists b', free_pages cpu addr order b = Ok b' /\ inv b' /\ same_region b b' /\
    all_pages b' ≡ₚ bpages addr order ++ all_pages b.
Proof. apply free_pages_ok. Qed.

Lemma init_fresh_ok mstart mend reserved :
  0 < mstart <= reserved -> reserved < 2 ^ 62 -> mend < 2 ^ 62 ->
  let re := (reserved + 4095) / 4096 in
  let me := mend / 4096 in
  re < me ->
  exists b, init mstart mend reserved fresh = Ok (b, true) /\ inv b /\
    initialized b = true /\ all_pages b ≡ₚ seqZ re (me - re) /\ free_pages_count b = me - re.
Proof.
  intros Hs Hr Hm re me Hlt. unfold init. cbn [initialized fresh].
  assert (Hm0 : 0 <= mend).
  { destruct (Z.le_gt_cases 0 mend); [done|]. unfold re, me in Hlt.
    pose proof (Z.div_pos (reserved + 4095) 4096). pose proof (Z.div_lt_upper_bound mend 4096 0). lia. }
  rewrite !page_align_up_spec, page_align_down_spec by lia. fold re me.
  set (ms := (mstart + 4095) / 4096).
  assert (Hms : 0 < ms <= re) by (unfold ms, re; div_lia).
  destruct (Z.leb_spec (me * 4096) (ms * 4096)); [lia|].
  destruct (Z.leb_spec (me * 4096) (re * 4096)); [lia|]. cbn [orb].
  set (b0 := mkBuddy (replicate _ _) _ _ _ _ _ _).
  assert (Hempty : all_pages b0 = []) by reflexivity.
  assert (Hinv0 : inv b0).
  { split; try (rewrite Hempty; apply NoDup_nil_2); try done.
    - simpl. unfold me in *. div_lia.
    - intros o a Ha. simpl in Ha. change (mkArea [] 0 :: _) with (replicate 10 (mkArea [] 0)) in Ha.
      apply lookup_replicate_1 in Ha as [-> _]. by split.
    - simpl. repeat apply Forall_cons_2; apply Forall_nil_2 || by split_and!. }
  destruct (init_loop_ok (S (Z.to_nat (Z.shiftr (me * 4096 - re * 4096) PAGE_SHIFT))) b0
              (re * 4096) (re * 4096)) as (b & -> & Hinv & Hreg & Hpc & Hp).
  { done. }
  { by apply Z.mod_mul. } { by apply Z.mod_mul. } { by apply Z.mod_mul. }
  { simpl. lia. } { simpl. lia. }
  { rewrite Hempty, Z.sub_diag. done. }
  { unfold b0, PAGE_SHIFT, PAGE_SIZE. cbn [mem_end]. rewrite Z.shiftr_div_pow2 by lia.
    rewrite <- Z.mul_sub_distr_r, Z.div_mul by lia. lia. }
  cbn [mbind res_bind]. eexists. split; [done|]. destruct Hreg as (Hr1 & Hr2 & _).
  set (b' := mkBuddy _ _ _ _ _ _ _). unfold PAGE_SIZE in Hp. cbn [mem_end b0] in Hp.
  rewrite Z.div_mul, <- Z.mul_sub_distr_r, Z.div_mul in Hp by lia.
  assert (Hinv' : inv b').
  { destruct Hinv as [H1 H2 H3 H4 H5 H6]. cbn [mem_start mem_end b0] in Hr1, Hr2.
    assert (Hbk : forall x o, block_ok b x o -> block_ok b' x o).
    { unfold block_ok. cbn [mem_start mem_end b']. rewrite Hr1, Hr2. auto. }
    split; [simpl; unfold me in *; div_lia|done| |done| |done].
    - intros o a Ha. destruct (H3 o a Ha) as [? Hf]. split; [done|].
      eapply Forall_impl; [exact Hf|]. auto.
    - eapply Forall_impl; [exact H5|]. intros c (? & ? & Hf). split_and!; [done|lia..|].
      eapply Forall_impl; [exact Hf|]. auto. }
  split_and!; [done|done|done|].
  rewrite free_pages_count_ok by done.
  assert (Hca : cached_pages (percpu_cache b') = []) by (cbn [percpu_cache b']; by rewrite Hpc).
  pose proof (Permutation_length Hp) as Hl. change (all_pages b) with (all_pages b') in Hl.
  unfold all_pages in Hl. rewrite Hca, app_nil_r, length_seqZ in Hl. rewrite Hl. lia.
Qed.

(** [BuddyAllocator::init] on a fresh allocator hands exactly the pages
    from the end of the reserved area to the end of memory to the free lists,
    each once, in blocks aligned to their size, and reports their number. *)
Theorem init_sound mstart mend reserved :
  0 < mstart <= reserved -> reserved < 2 ^ 62 -> mend < 2 ^ 62 ->
  let re := (reserved + 4095) / 4096 in
  let me := mend / 4096 in
  re < me ->
  exists b, init mstart mend reserved fresh = Ok (b, true) /\ inv b /\
    initialized b = true /\ all_pages b ≡ₚ seqZ re (me - re) /\ free_pages_count b = me - re.
Proof. apply init_fresh_ok. Qed.

Lemma pages_to_order_loop_ok fuel : forall pages o,
  0 <= o < 10 -> 9 - o < Z.of_nat fuel -> (o = 0 \/ 2 ^ (o - 1) < pages) ->
  exists k, pages_to_order_loop fuel pages o (2 ^ o) = Ok k /\ 0 <= k < 10 /\
    (k = 0 \/ 2 ^ (k - 1) < pages) /\ (pages <= 2 ^ k \/ k = 9).
Proof.
  induction fuel as [|fuel IH]; intros pages o Ho Hf Hprev; [lia|].
  cbn [pages_to_order_loop]. unfold MAX_ORDER. case_cmp; [|exists o; split_and!; auto; lia].
  case_cmp; [|exists o; split_and!; auto; lia].
  rewrite Z.shiftl_mul_pow2 by lia. rewrite <- Z.pow_add_r by lia.
  pose proof (Z.pow_le_mono_r 2 (o + 1) 10 ltac:(lia) ltac:(lia)).
  pose proof (Z.pow_pos_nonneg 2 (o + 1)). rewrite u64_small by lia.
  apply IH; [lia|lia|]. right. by replace (o + 1 - 1) with o by lia.
Qed.

Lemma pages_to_order_ok pages :
  0 <= pages ->
  exists o, pages_to_order pages = Ok o /\ 0 <= o < MAX_ORDER /\
    if pages <=? 512 then pages <= 2 ^ o /\ (o = 0 \/ 2 ^ (o - 1) < pages)
    else o = 9 /\ 2 ^ o < pages.
Proof.
  intros Hp. unfold pages_to_order. case_cmp.
  { exists 0. split; [done|]. unfold MAX_ORDER. split; [lia|].
    destruct (Z.leb_spec pages 512); [|lia]. split; [simpl; lia|by left]. }
  destruct (pages_to_order_loop_ok (S (Z.to_nat MAX_ORDER)) pages 0)
    as (k & Hk & Hr & Hlo & Hhi); [lia|unfold MAX_ORDER; lia|by left|].
  exists k. split; [done|]. split; [done|]. case_cmp.
  - split; [|done]. destruct Hhi as [?| ->]; [done|simpl; lia].
  - destruct Hhi as [Hhi| ->]; [|simpl; lia].
    pose proof (Z.pow_le_mono_r 2 k 9 ltac:(lia) ltac:(lia)) as Hle. simpl (2 ^ 9) in Hle. lia.
Qed.

(** [pages_to_order] gives the smallest order whose block holds the
    requested pages as long as they fit in the largest block (512 pages);
    beyond that it silently returns the largest order, whose block is smaller
    than the request. *)
Theorem pages_to_order_spec pages :
  0 <= pages ->
  exists o, pages_to_order pages = Ok o /\ 0 <= o < MAX_ORDER /\
    if pages <=? 512 then pages <= 2 ^ o /\ (o = 0 \/ 2 ^ (o - 1) < pages)
    else o = 9 /\ 2 ^ o < pages.
Proof. apply pages_to_order_ok. Qed.

(** Freeing a block of two pages or more is a no-op when its address is
    outside the region, is not aligned to its size, or already heads a free
    block. *)
Theorem free_pages_rejects b cpu addr order :
  initialized b = true -> 0 < order < MAX_ORDER ->
  addr < mem_start b \/ mem_end b <= addr \/ addr mod block_bytes order <> 0 \/
    in_free_lists addr b = true ->
  free_pages cpu addr order b = Ok b.
Proof.
  intros Hi Ho Hbad. unfold MAX_ORDER in *. unfold free_pages, MAX_ORDER.
  case_cmp. destruct (Z.eqb_spec order 0); [lia|]. cbn [mbind res_bind]. rewrite Hi. cbn [negb].
  rewrite block_size_small by lia.
  rewrite (block_bytes_pow2 order), land_mask_mod, <- block_bytes_pow2 by lia.
  repeat case_cmp.
Qed.

Lemma cache_push b cpu addr c :
  percpu_cache_enabled b = true -> 0 <= cpu < MAX_CPUS ->
  percpu_cache b !! Z.to_nat cpu = Some c -> length (cpages c) = 8%nat -> 0 <= ccount c < 8 ->
  free_page cpu addr b = Ok (set_caches b (<[Z.to_nat cpu :=
    mkCache (<[Z.to_nat (ccount c) := addr]> (cpages c)) (ccount c + 1)]> (percpu_cache b))).
Proof.
  intros Hen Hcpu Hc Hlen Hn. pose proof (lookup_lt_Some _ _ _ Hc).
  unfold free_page, free_pages, percpu_cache_free, MAX_ORDER, MAX_CPUS, PERCPU_CACHE_SIZE in *.
  change (10 <=? 0) with false. change (0 =? 0) with true. rewrite Hen. cbn [negb].
  destruct (Z.leb_spec 4 cpu); [lia|]. rewrite (rd_Z _ cpu c) by (done || lia).
  cbn [mbind res_bind]. destruct (Z.leb_spec 8 (ccount c)); [lia|].
  rewrite wr_Z by lia. cbn [mbind res_bind]. by rewrite wr_Z by lia.
Qed.

Lemma cache_pop b cpu c x :
  percpu_cache_enabled b = true -> 0 <= cpu < MAX_CPUS ->
  percpu_cache b !! Z.to_nat cpu = Some c -> 0 < ccount c ->
  cpages c !! Z.to_nat (ccount c - 1) = Some x -> x <> 0 ->
  alloc_page cpu b = Ok (set_caches b (<[Z.to_nat cpu := mkCache (cpages c) (ccount c - 1)]>
                           (percpu_cache b)), x).
Proof.
  intros Hen Hcpu Hc Hn Hx Hnz. pose proof (lookup_lt_Some _ _ _ Hc).
  unfold alloc_page, alloc_pages, percpu_cache_alloc, MAX_ORDER, MAX_CPUS in *.
  change (10 <=? 0) with false. change (0 =? 0) with true. rewrite Hen. cbn [negb].
  destruct (Z.leb_spec 4 cpu); [lia|]. rewrite (rd_Z _ cpu c) by (done || lia).
  cbn [mbind res_bind]. destruct (Z.eqb_spec (ccount c) 0); [lia|].
  rewrite (rd_Z _ _ x) by (done || lia). cbn [mbind res_bind].
  rewrite wr_Z by lia. cbn [mbind res_bind]. by destruct (Z.eqb_spec x 0).
Qed.

(** The per-CPU cache does not look for double frees: freeing the same
    page twice puts it in the cache twice, and the next two allocations on that
    CPU both return it. *)
Theorem cache_double_free b cpu addr c :
  percpu_cache_enabled b = true -> 0 <= cpu < MAX_CPUS ->
  percpu_cache b !! Z.to_nat cpu = Some c -> length (cpages c) = 8%nat ->
  0 <= ccount c <= 6 -> addr <> 0 ->
  exists b2 b3 b4,
    (b1 ← free_page cpu addr b; free_page cpu addr b1) = Ok b2 /\
    alloc_page cpu b2 = Ok (b3, addr) /\ alloc_page cpu b3 = Ok (b4, addr).
Proof.
  intros Hen Hcpu Hc Hlen Hn Hnz. pose proof (lookup_lt_Some _ _ _ Hc) as Hlt.
  rewrite (cache_push b cpu addr c) by (done || lia). cbn [mbind res_bind].
  set (c1 := mkCache _ _). set (b1 := set_caches b _).
  assert (Hc1 : percpu_cache b1 !! Z.to_nat cpu = Some c1) by (by apply list_lookup_insert_eq).
  assert (Hl1 : length (cpages c1) = 8%nat) by (simpl; by rewrite length_insert).
  rewrite (cache_push b1 cpu addr c1) by (done || simpl; lia).
  set (c2 := mkCache _ (ccount c1 + 1)). set (b2 := set_caches b1 _).
  assert (Hlt1 : (Z.to_nat cpu < length (percpu_cache b1))%nat) by (by eapply lookup_lt_Some).
  assert (Hc2 : percpu_cache b2 !! Z.to_nat cpu = Some c2) by (by apply list_lookup_insert_eq).
  eexists b2, _, _. split; [done|]. split.
  - apply (cache_pop b2 cpu c2); [done|done|done|simpl; lia| |done]. simpl.
    replace (ccount c + 1 + 1 - 1) with (ccount c + 1) by lia.
    apply list_lookup_insert_eq. rewrite length_insert. lia.
  - set (b3 := set_caches b2 _). set (c3 := mkCache (cpages c2) _) in b3.
    assert (Hc3 : percpu_cache b3 !! Z.to_nat cpu = Some c3).
    { apply list_lookup_insert_eq. by eapply lookup_lt_Some. }
    apply (cache_pop b3 cpu c3); [done|done|done|simpl; lia| |done]. simpl.
    replace (ccount c + 1 + 1 - 1 - 1) with (ccount c) by lia.
    rewrite list_lookup_insert_ne by lia. apply list_lookup_insert_eq. lia.
Qed.

(** ** Witnesses *)

(** Sixteen pages from address 0x100000. *)
Definition demo : BuddyAllocator :=
  match init 0x100000 0x110000 0x100000 fresh with Ok (b, _) => b | _ => fresh end.

Lemma demo_ok : init 0x100000 0x110000 0x100000 fresh = Ok (demo, true) /\ inv demo.
Proof.
  destruct (init_fresh_ok 0x100000 0x110000 0x100000) as (b & Hb & Hinv & _);
    [lia|lia|lia|done|].
  assert (demo = b) as -> by (unfold demo; by rewrite Hb). done.
Qed.

Lemma init_sound_witness :
  exists b, init 0x100000 0x110000 0x100000 fresh = Ok (b, true) /\ inv b /\
    initialized b = true /\ all_pages b ≡ₚ seqZ 256 16 /\ free_pages_count b = 16.
Proof. apply (init_sound 0x100000 0x110000 0x100000); [lia|lia|lia|done]. Defined.

Lemma alloc_pages_sound_witness :
  exists b' addr, alloc_pages 1 2 demo = Ok (b', addr) /\ inv b' /\ same_region demo b' /\
    if addr =? 0
    then b' = demo /\ forall k, 2 <= k < MAX_ORDER -> ~ nonempty demo k
    else block_ok demo addr 2 /\ all_pages demo ≡ₚ bpages addr 2 ++ all_pages b' /\
         disjoint_from (bpages addr 2) b'.
Proof. apply (alloc_pages_sound demo 1 2); [apply demo_ok|done|lia|done]. Defined.

(** The same region with its first four pages reserved. *)
Definition demo4 : BuddyAllocator :=
  match init 0x100000 0x110000 0x104000 fresh with Ok (b, _) => b | _ => fresh end.

Lemma demo4_ok : inv demo4 /\ disjoint_from (bpages 0x100000 2) demo4.
Proof.
  destruct (init_fresh_ok 0x100000 0x110000 0x104000) as (b & Hb & Hinv & _ & Hp & _);
    [lia|lia|lia|done|].
  assert (demo4 = b) as -> by (unfold demo4; by rewrite Hb). split; [done|].
  intros p Hp1 Hp2. rewrite Hp in Hp2. unfold bpages in Hp1.
  change (0x100000 / PAGE_SIZE) with 256 in Hp1. change ((0x104000 + 4095) / 4096) with 260 in Hp2.
  apply elem_of_seqZ in Hp1, Hp2. lia.
Qed.

Lemma free_pages_sound_witness :
  exists b', free_pages 0 0x100000 2 demo4 = Ok b' /\ inv b' /\ same_region demo4 b' /\
    all_pages b' ≡ₚ bpages 0x100000 2 ++ all_pages demo4.
Proof.
  apply (free_pages_sound demo4 0 0x100000 2);
    [apply demo4_ok|done|lia|done|by vm_compute|apply demo4_ok].
Defined.

Lemma pages_to_order_spec_witness :
  exists o, pages_to_order 1000 = Ok o /\ 0 <= o < MAX_ORDER /\ o = 9 /\ 2 ^ o < 1000.
Proof. apply (pages_to_order_spec 1000). lia. Defined.

Lemma free_pages_rejects_witness : free_pages 0 0x101000 3 demo = Ok demo.
Proof. apply (free_pages_rejects demo 0 0x101000 3); [done|done|]. right; right; left. by vm_compute. Defined.

Lemma cache_double_free_witness :
  exists b2 b3 b4,
    (b1 ← free_page 2 0x100000 demo4; free_page 2 0x100000 b1) = Ok b2 /\
    alloc_page 2 b2 = Ok (b3, 0x100000) /\ alloc_page 2 b3 = Ok (b4, 0x100000).
Proof.
  apply (cache_double_free demo4 2 0x100000 (mkCache (replicate 8 0) 0)); done.
Defined.

End BuddySpec.
