(* ===== verification/Pmm.v ===== *)
(** * The physical memory manager

    Models [src/kernel/mm/pmm.cpp] and [pmm.hpp]: the bitmap allocator of the
    memory below the framebuffer, and the front end that tries the buddy
    allocator first and routes frees by address.  The buddy allocator is
    reached through the class [BlockAllocator], the operations of
    [mm::buddy::get_allocator()] this file calls; [PmmSpec] states the laws it
    relies on and discharges them for [Buddy].  The bitmap, which lives in RAM
    after the kernel image, is the list of its 64-bit words.  Locks and serial
    output are dropped; the debug counters of the tracked page are kept. *)

From S2P Require Import Prelude Buddy.

Module Pmm.
Import Buddy(PAGE_SIZE, PAGE_SHIFT, page_align_up, page_align_down, pages_to_order).

(** The operations of the block allocator that the manager calls; the first
    argument of the allocating ones is the running CPU. *)
Class BlockAllocator (B : Type) := {
  ba_init : Z -> Z -> Z -> B -> res (B * bool);
  ba_alloc_pages : Z -> Z -> B -> res (B * Z);
  ba_free_page : Z -> Z -> B -> res B;
  ba_free_pages_count : B -> Z;
  ba_total_pages : B -> Z
}.

#[export] Instance buddy_blocks : BlockAllocator Buddy.BuddyAllocator := {
  ba_init := Buddy.init;
  ba_alloc_pages := Buddy.alloc_pages;
  ba_free_page := Buddy.free_page;
  ba_free_pages_count := Buddy.free_pages_count;
  ba_total_pages := Buddy.total_pages
}.

(** [kc::mem::FB_BASE], [kc::mem::FB_SIZE] and the page the debug code tracks. *)
Definition FB_BASE : Z := 0x41000000.
Definition FB_SIZE : Z := 9 * 1024 * 1024.
Definition DEBUG_TRACKED_PAGE : Z := 0x41003000.

Definition bytes_to_pages (bytes : Z) : Z := u64 (u64 (bytes + PAGE_SIZE) - 1) / PAGE_SIZE.

Record pmm (B : Type) := mkPmm {
  buddy : B;
  buddy_available : bool;
  mem_start : Z;
  mem_end : Z;
  total_pages : Z;
  free_count : Z;
  buddy_region_start : Z;
  buddy_region_end : Z;
  bitmap : list Z;
  bitmap_size : Z;
  next_free_hint : Z;
  debug_alloc_count : Z;
  debug_page_allocated : bool
}.
Arguments mkPmm {B}.
Arguments buddy {B}. Arguments buddy_available {B}. Arguments mem_start {B}.
Arguments mem_end {B}. Arguments total_pages {B}. Arguments free_count {B}.
Arguments buddy_region_start {B}. Arguments buddy_region_end {B}. Arguments bitmap {B}.
Arguments bitmap_size {B}. Arguments next_free_hint {B}. Arguments debug_alloc_count {B}.
Arguments debug_page_allocated {B}.

Section Pmm.
Context {B : Type} `{BlockAllocator B}.
Implicit Type s : pmm B.

Definition set_buddy s b : pmm B :=
  mkPmm b (buddy_available s) (mem_start s) (mem_end s) (total_pages s) (free_count s)
    (buddy_region_start s) (buddy_region_end s) (bitmap s) (bitmap_size s) (next_free_hint s)
    (debug_alloc_count s) (debug_page_allocated s).
Definition set_bitmap s bm : pmm B :=
  mkPmm (buddy s) (buddy_available s) (mem_start s) (mem_end s) (total_pages s) (free_count s)
    (buddy_region_start s) (buddy_region_end s) bm (bitmap_size s) (next_free_hint s)
    (debug_alloc_count s) (debug_page_allocated s).
Definition set_counts s fc hint : pmm B :=
  mkPmm (buddy s) (buddy_available s) (mem_start s) (mem_end s) (total_pages s) fc
    (buddy_region_start s) (buddy_region_end s) (bitmap s) (bitmap_size s) hint
    (debug_alloc_count s) (debug_page_allocated s).
Definition set_debug s n a : pmm B :=
  mkPmm (buddy s) (buddy_available s) (mem_start s) (mem_end s) (total_pages s) (free_count s)
    (buddy_region_start s) (buddy_region_end s) (bitmap s) (bitmap_size s) (next_free_hint s)
    n a.

(** ** Bitmap helpers *)

Definition set_bit (page_idx : Z) s : res (pmm B) :=
  let word := page_idx / 64 in
  let bit := page_idx mod 64 in
  w ← rd (bitmap s) word;
  bm ← wr (bitmap s) word (Z.lor w (u64 (Z.shiftl 1 bit)));
  Ok (set_bitmap s bm).

Definition clear_bit (page_idx : Z) s : res (pmm B) :=
  let word := page_idx / 64 in
  let bit := page_idx mod 64 in
  w ← rd (bitmap s) word;
  bm ← wr (bitmap s) word (Z.land w (u64 (Z.lnot (u64 (Z.shiftl 1 bit)))));
  Ok (set_bitmap s bm).

Definition test_bit (page_idx : Z) s : res bool :=
  let word := page_idx / 64 in
  let bit := page_idx mod 64 in
  w ← rd (bitmap s) word;
  Ok (negb (Z.land w (u64 (Z.shiftl 1 bit)) =? 0)).

Definition addr_to_page s (addr : Z) : Z := Z.shiftr (u64 (addr - mem_start s)) PAGE_SHIFT.
Definition page_to_addr s (page_idx : Z) : Z :=
  u64 (mem_start s + u64 (Z.shiftl page_idx PAGE_SHIFT)).

Definition free_page_unlocked (phys_addr : Z) s : res (pmm B) :=
  if (phys_addr <? mem_start s) || (mem_end s <=? phys_addr) then Ok s
  else
    let s := if phys_addr =? DEBUG_TRACKED_PAGE
             then set_debug s (debug_alloc_count s) false else s in
    let page := addr_to_page s phys_addr in
    used ← test_bit page s;
    if negb used then Ok s
    else
      s ← clear_bit page s;
      Ok (set_counts s (u64 (free_count s + 1)) (next_free_hint s)).

(** ** Initialisation *)

Definition init_buddy_region (fb_end : Z) s : res (pmm B) :=
  if mem_end s <=? fb_end then Ok s
  else
    '(b, ok) ← ba_init fb_end (mem_end s) fb_end (buddy s);
    if (ok : bool) then
      Ok (mkPmm b true (mem_start s) (mem_end s) (total_pages s) (free_count s)
            fb_end (mem_end s) (bitmap s) (bitmap_size s) (next_free_hint s)
            (debug_alloc_count s) (debug_page_allocated s))
    else Ok (set_buddy s b).

(** Marks free the pages from [addr] to [fb_start]. *)
Fixpoint mark_free (fuel : nat) (addr fb_start : Z) s : res (pmm B) :=
  match fuel with
  | O => Diverge
  | S fuel =>
      if addr <? fb_start then
        let page := addr_to_page s addr in
        s ← (if page <? total_pages s then
               s ← clear_bit page s;
               Ok (set_counts s (u64 (free_count s + 1)) (next_free_hint s))
             else Ok s);
        mark_free fuel (u64 (addr + PAGE_SIZE)) fb_start s
      else Ok s
  end.

(** The bitmap words are all set before the usable pages are cleared; the loop
    over the pages advances by a page each time, which bounds its fuel. *)
Definition init_bitmap_region (usable_start fb_start : Z) s : res (pmm B) :=
  let s := set_bitmap s (replicate (Z.to_nat (bitmap_size s)) (u64 (Z.lnot 0))) in
  let s := set_counts s 0 (next_free_hint s) in
  mark_free (S (Z.to_nat ((fb_start - usable_start) / PAGE_SIZE + 1))) usable_start fb_start s.

Definition init (ram_start ram_size kernel_end fb_base fb_size_param : Z) s : res (pmm B) :=
  let total := Z.shiftr ram_size PAGE_SHIFT in
  let bsize := u64 (total + 63) / 64 in
  let s := mkPmm (buddy s) (buddy_available s) ram_start (u64 (ram_start + ram_size)) total
             (free_count s) (buddy_region_start s) (buddy_region_end s) (bitmap s) bsize
             (next_free_hint s) (debug_alloc_count s) (debug_page_allocated s) in
  let bitmap_bytes := u64 (bsize * 8) in
  let bitmap_addr := page_align_up kernel_end in
  let usable_start := page_align_up (u64 (bitmap_addr + bitmap_bytes)) in
  let fb_start := if negb (fb_base =? 0) then fb_base else FB_BASE in
  let fb_size := if negb (fb_size_param =? 0) then fb_size_param else FB_SIZE in
  let fb_end := u64 (fb_start + fb_size) in
  s ← init_buddy_region fb_end s;
  init_bitmap_region usable_start fb_start s.

(** ** Allocation *)

(** The first clear bit of [word] among [bits]; stops at the last page. *)
Fixpoint find_bit (word : Z) (bits : list Z) s : res (option Z) :=
  match bits with
  | [] => Ok None
  | bit :: bits =>
      let page := u64 (u64 (word * 64) + bit) in
      if total_pages s <=? page then Ok None
      else
        used ← test_bit page s;
        if negb used then Ok (Some page) else find_bit word bits s
  end.

(** The word scan of [alloc_page], over the loop counter [is_]; the result is
    the word and the page found. *)
Fixpoint find_page (start_word : Z) (is_ : list Z) s : res (option (Z * Z)) :=
  match is_ with
  | [] => Ok None
  | i :: is_ =>
      let word := u64 (start_word + i) mod bitmap_size s in
      w ← rd (bitmap s) word;
      if negb (w =? u64 (Z.lnot 0)) then
        r ← find_bit word (seqZ 0 64) s;
        match r with
        | Some page => Ok (Some (word, page))
        | None => find_page start_word is_ s
        end
      else find_page start_word is_ s
  end.

Definition alloc_page_bitmap s : res (pmm B * Z) :=
  r ← find_page (next_free_hint s) (seqZ 0 (bitmap_size s)) s;
  match r with
  | None => Ok (s, 0)
  | Some (word, page) =>
      s ← set_bit page s;
      let s := set_counts s (u64 (free_count s - 1)) word in
      let result_addr := page_to_addr s page in
      let s := if result_addr =? DEBUG_TRACKED_PAGE
               then set_debug s (u64 (debug_alloc_count s + 1)) true else s in
      Ok (s, result_addr)
  end.

Definition alloc_page (cpu : Z) s : res (pmm B * Z) :=
  '(s, addr) ← (if buddy_available s then
                  '(b, addr) ← ba_alloc_pages cpu 0 (buddy s);
                  Ok (set_buddy s b, addr)
                else Ok (s, 0));
  if negb (addr =? 0) then Ok (s, addr)
  else alloc_page_bitmap s.

(** The page scan of [alloc_pages]: the start of the first run of [count] clear
    bits met. *)
Fixpoint find_run (count start_page : Z) (is_ : list Z) (run_start run_length : Z) s
  : res (option Z) :=
  match is_ with
  | [] => Ok None
  | i :: is_ =>
      let page := u64 (start_page + i) mod total_pages s in
      used ← test_bit page s;
      if negb used then
        let run_start := if run_length =? 0 then page else run_start in
        let run_length := u64 (run_length + 1) in
        if run_length =? count then Ok (Some run_start)
        else find_run count start_page is_ run_start run_length s
      else find_run count start_page is_ run_start 0 s
  end.

Definition alloc_run (count : Z) s : res (pmm B * Z) :=
  let start_page := u64 (next_free_hint s * 64) in
  let start_page := if total_pages s <=? start_page then 0 else start_page in
  r ← find_run count start_page (seqZ 0 (total_pages s)) 0 0 s;
  match r with
  | None => Ok (s, 0)
  | Some run_start =>
      s ← foldM (fun s j => set_bit (u64 (run_start + j)) s) (seqZ 0 count) s;
      let hint := u64 (run_start + count) / 64 in
      let hint := if bitmap_size s <=? hint then 0 else hint in
      let s := set_counts s (u64 (free_count s - count)) hint in
      Ok (s, page_to_addr s run_start)
  end.

Definition alloc_pages (cpu count : Z) s : res (pmm B * Z) :=
  if count =? 0 then Ok (s, 0)
  else if count =? 1 then alloc_page cpu s
  else
    '(s, addr) ← (if buddy_available s then
                    order ← pages_to_order count;
                    '(b, addr) ← ba_alloc_pages cpu order (buddy s);
                    Ok (set_buddy s b, addr)
                  else Ok (s, 0));
    if negb (addr =? 0) then Ok (s, addr)
    else alloc_run count s.

(** ** Freeing *)

Definition in_buddy_region s (phys_addr : Z) : bool :=
  buddy_available s && (buddy_region_start s <=? phys_addr) && (phys_addr <? buddy_region_end s).

Definition free_page (cpu phys_addr : Z) s : res (pmm B) :=
  if in_buddy_region s phys_addr then
    b ← ba_free_page cpu phys_addr (buddy s); Ok (set_buddy s b)
  else free_page_unlocked phys_addr s.

Definition free_pages (cpu phys_addr count : Z) s : res (pmm B) :=
  if in_buddy_region s phys_addr then
    foldM (fun s i =>
             b ← ba_free_page cpu (u64 (phys_addr + u64 (i * PAGE_SIZE))) (buddy s);
             Ok (set_buddy s b)) (seqZ 0 count) s
  else
    foldM (fun s i => free_page_unlocked (u64 (phys_addr + u64 (i * PAGE_SIZE))) s)
      (seqZ 0 count) s.

(** ** Statistics *)

Definition get_total_pages s : Z := total_pages s.
Definition get_free_pages s : Z :=
  let total_free := if buddy_available s then ba_free_pages_count (buddy s) else 0 in
  u64 (total_free + free_count s).
Definition get_used_pages s : Z :=
  if buddy_available s
  then u64 (ba_total_pages (buddy s) - ba_free_pages_count (buddy s)) else 0.

End Pmm.

(** The manager before [init]. *)
Definition fresh {B} (b : B) : pmm B :=
  mkPmm b false 0 0 0 0 0 0 [] 0 0 0 false.

End Pmm.
