(* ===== verification/PmmSpec.v ===== *)
(** * Correctness of the physical memory manager

    The manager holds free the clear bits of its bitmap and the pages of the
    block allocator.  Its theorems are proved against the laws [BlockLaws] of
    the block allocator, which the buddy allocator satisfies. *)

From S2P Require Import Prelude Buddy BuddySpec Pmm.

Module PmmSpec.
Import Buddy(PAGE_SIZE, PAGE_SHIFT, MAX_ORDER).
Import Pmm.

(** ** What the manager relies on *)

(** The free pages of the block allocator, by number, inside the region it was
    initialised with: an allocation takes a block out of them or changes
    nothing, freeing a used page of the region puts it back. *)
Class BlockLaws (B : Type) {ops : BlockAllocator B} := {
  ba_inv : B -> Prop;
  ba_pages : B -> list Z;
  ba_lo : B -> Z;
  ba_hi : B -> Z;
  ba_fresh : B;
  ba_nodup b : ba_inv b -> NoDup (ba_pages b);
  ba_range b p : ba_inv b -> p ∈ ba_pages b ->
    ba_lo b <= p * PAGE_SIZE /\ (p + 1) * PAGE_SIZE <= ba_hi b;
  ba_init_law lo hi :
    0 < lo < hi -> hi < 2 ^ 62 -> lo mod PAGE_SIZE = 0 -> hi mod PAGE_SIZE = 0 ->
    exists b, ba_init lo hi lo ba_fresh = Ok (b, true) /\ ba_inv b /\
      ba_lo b = lo /\ ba_hi b = hi /\
      ba_pages b ≡ₚ seqZ (lo / PAGE_SIZE) ((hi - lo) / PAGE_SIZE);
  ba_alloc_law b cpu o :
    ba_inv b -> 0 <= cpu -> 0 <= o < MAX_ORDER ->
    exists b' addr, ba_alloc_pages cpu o b = Ok (b', addr) /\ ba_inv b' /\
      ba_lo b' = ba_lo b /\ ba_hi b' = ba_hi b /\
      if addr =? 0 then b' = b
      else addr mod PAGE_SIZE = 0 /\ ba_lo b <= addr /\
           addr + 2 ^ o * PAGE_SIZE <= ba_hi b /\
           ba_pages b ≡ₚ seqZ (addr / PAGE_SIZE) (2 ^ o) ++ ba_pages b';
  ba_free_law b cpu addr :
    ba_inv b -> 0 <= cpu -> addr mod PAGE_SIZE = 0 ->
    ba_lo b <= addr -> addr + PAGE_SIZE <= ba_hi b -> addr / PAGE_SIZE ∉ ba_pages b ->
    exists b', ba_free_page cpu addr b = Ok b' /\ ba_inv b' /\
      ba_lo b' = ba_lo b /\ ba_hi b' = ba_hi b /\
      ba_pages b' ≡ₚ addr / PAGE_SIZE :: ba_pages b
}.

(** ** The buddy allocator obeys them *)

Lemma buddy_init_region ms me re b :
  Buddy.init ms me re Buddy.fresh = Ok (b, true) ->
  Buddy.mem_start b = Buddy.page_align_up ms /\ Buddy.mem_end b = Buddy.page_align_down me.
Proof.
  unfold Buddy.init. cbn [Buddy.initialized Buddy.fresh].
  destruct (_ || _); [done|]. intros (b1 & _ & [= <-])%bind_inv. done.
Qed.

#[export, refine] Instance buddy_laws : BlockLaws Buddy.BuddyAllocator := {|
  ba_inv b := BuddySpec.inv b /\ Buddy.initialized b = true;
  ba_pages := BuddySpec.all_pages;
  ba_lo := Buddy.mem_start;
  ba_hi := Buddy.mem_end;
  ba_fresh := Buddy.fresh
|}.
Proof.
  - intros b [Hinv _]. apply Hinv.
  - intros b p [Hinv _] Hp.
    pose proof (BuddySpec.all_pages_range b p Hinv Hp). unfold PAGE_SIZE in *. div_lia.
  - unfold PAGE_SIZE. intros lo hi Hlo Hhi Hml Hmh.
    destruct (BuddySpec.init_fresh_ok lo hi lo) as (b & Hb & Hinv & Hi & Hp & _);
      [lia|lia|lia|div_lia|].
    destruct (buddy_init_region _ _ _ _ Hb) as [Hs He].
    rewrite BuddySpec.page_align_up_spec in Hs by lia.
    rewrite BuddySpec.page_align_down_spec in He by lia.
    exists b. split_and!; [done|done|done|rewrite Hs; div_lia|rewrite He; div_lia|].
    rewrite Hp. by replace ((lo + 4095) / 4096) with (lo / 4096) by div_lia;
      replace (hi / 4096 - lo / 4096) with ((hi - lo) / 4096) by div_lia.
  - intros b cpu o [Hinv Hi] Hcpu Ho.
    destruct (BuddySpec.alloc_pages_ok b cpu o Hinv Hi Hcpu Ho)
      as (b' & addr & Ha & Hinv' & (Hs & He & _ & Hi' & _) & Hr).
    exists b', addr. split_and!; [done|done|congruence|done|done|].
    destruct (addr =? 0); [by destruct Hr|]. destruct Hr as ((Hal & Hl & Hh) & Hp & _).
    split_and!; [|done| |done].
    + eapply BuddySpec.aligned_page; [|exact Hal]. lia.
    + unfold BuddySpec.block_bytes in Hh. lia.
  - intros b cpu addr [Hinv Hi] Hcpu Hal Hl Hh Hn.
    assert (Hone : BuddySpec.bpages addr 0 = [addr / PAGE_SIZE]) by reflexivity.
    destruct (BuddySpec.free_pages_ok b cpu addr 0 Hinv Hi Hcpu ltac:(done))
      as (b' & Ha & Hinv' & (Hs & He & _ & Hi' & _) & Hp).
    { unfold BuddySpec.block_ok. by change (BuddySpec.block_bytes 0) with PAGE_SIZE. }
    { intros p. rewrite Hone, list_elem_of_singleton. by intros ->. }
    exists b'. rewrite Hone in Hp. split_and!; [done|done|congruence|done|done|done].
Defined.

(** ** Bits *)

(** Page [i] is marked used in the bitmap [bm]. *)
Definition bit_at (bm : list Z) (i : Z) : bool :=
  Z.testbit (default 0 (bm !! Z.to_nat (i / 64))) (i mod 64).

Definition words_ok (bm : list Z) : Prop := Forall (in_width 64) bm.

(** [bm'] is [bm] with bit [i] set to [v]. *)
Definition bit_update (bm bm' : list Z) (i : Z) (v : bool) : Prop :=
  length bm' = length bm /\ words_ok bm' /\
  forall j, 0 <= j -> bit_at bm' j = if j =? i then v else bit_at bm j.

Lemma word_lookup (bm : list Z) i :
  0 <= i < 64 * Z.of_nat (length bm) -> exists w, bm !! Z.to_nat (i / 64) = Some w.
Proof. intros Hi. apply lookup_lt_is_Some. div_lia. Qed.

Lemma words_ok_lookup (bm : list Z) (i : nat) w : words_ok bm -> bm !! i = Some w -> in_width 64 w.
Proof. intros H Hw. unfold words_ok in H. rewrite Forall_forall in H.
  by apply H, (list_elem_of_lookup_2 _ i). Qed.

Lemma word_update bm i (f : Z -> Z) v w :
  words_ok bm -> 0 <= i -> bm !! Z.to_nat (i / 64) = Some w -> in_width 64 (f w) ->
  (forall n, 0 <= n < 64 -> Z.testbit (f w) n = if n =? i mod 64 then v else Z.testbit w n) ->
  bit_update bm (<[Z.to_nat (i / 64) := f w]> bm) i v.
Proof.
  intros Hok Hi Hw Hf Hbits. split_and!; [by rewrite length_insert|by apply Forall_insert|].
  intros j Hj. unfold bit_at. destruct (decide (j / 64 = i / 64)) as [E|E].
  - rewrite E, list_lookup_insert_eq, Hw by (by eapply lookup_lt_Some). simpl.
    rewrite Hbits by div_lia. destruct (Z.eqb_spec j i), (Z.eqb_spec (j mod 64) (i mod 64));
      congruence || (exfalso; div_lia).
  - rewrite list_lookup_insert_ne by div_lia. destruct (Z.eqb_spec j i); [congruence|done].
Qed.

Section Spec.
Context {B : Type} {ops : BlockAllocator B} {laws : BlockLaws B}.
Implicit Type s : pmm B.

Lemma test_bit_ok i s :
  0 <= i < 64 * Z.of_nat (length (bitmap s)) -> test_bit i s = Ok (bit_at (bitmap s) i).
Proof.
  intros Hi. destruct (word_lookup _ _ Hi) as [w Hw]. unfold test_bit, bit_at.
  rewrite (rd_Z _ _ w), Hw by (done || div_lia). cbn [mbind res_bind]. f_equal. simpl.
  rewrite (one_bit_small 64) by div_lia.
  by rewrite land_bit, negb_involutive by div_lia.
Qed.

Lemma set_bit_ok i s :
  words_ok (bitmap s) -> 0 <= i < 64 * Z.of_nat (length (bitmap s)) ->
  exists bm, set_bit i s = Ok (set_bitmap s bm) /\ bit_update (bitmap s) bm i true.
Proof.
  intros Hok Hi. destruct (word_lookup _ _ Hi) as [w Hw]. unfold set_bit.
  rewrite (rd_Z _ _ w) by (done || div_lia). cbn [mbind res_bind].
  rewrite wr_Z by div_lia. cbn [mbind res_bind]. eexists. split; [done|].
  pose proof (words_ok_lookup _ _ _ Hok Hw) as Hww. rewrite (one_bit_small 64) by div_lia.
  apply (word_update _ _ (fun w => Z.lor w (2 ^ (i mod 64)))); [done|lia|done| |].
  - apply (lor_width 64); [lia|done|]. split; [lia|]. apply Z.pow_lt_mono_r; div_lia.
  - intros n Hn. rewrite lor_bit, Z.eqb_sym by div_lia. by destruct (n =? i mod 64).
Qed.

Lemma clear_bit_ok i s :
  words_ok (bitmap s) -> 0 <= i < 64 * Z.of_nat (length (bitmap s)) ->
  exists bm, clear_bit i s = Ok (set_bitmap s bm) /\ bit_update (bitmap s) bm i false.
Proof.
  intros Hok Hi. destruct (word_lookup _ _ Hi) as [w Hw]. unfold clear_bit.
  rewrite (rd_Z _ _ w) by (done || div_lia). cbn [mbind res_bind].
  rewrite wr_Z by div_lia. cbn [mbind res_bind]. eexists. split; [done|].
  pose proof (words_ok_lookup _ _ _ Hok Hw) as Hww.
  rewrite (one_bit_small 64) by div_lia. rewrite <- Z.shiftl_1_l.
  apply (word_update _ _ (fun w => Z.land w (u64 (Z.lnot (Z.shiftl 1 (i mod 64)))))); [done|lia|done| |].
  - by apply (land_width_l 64).
  - intros n Hn. rewrite (land_clear 64) by (done || div_lia). rewrite Z.eqb_sym.
    by destruct (n =? i mod 64).
Qed.

(** ** The free pages and the invariant *)

(** The clear bits among the first [n]. *)
Definition clear_pages (bm : list Z) (n : Z) : list Z :=
  List.filter (fun i => negb (bit_at bm i)) (seqZ 0 n).

Definition bitmap_pages s : list Z :=
  (fun i => mem_start s / PAGE_SIZE + i) <$> clear_pages (bitmap s) (total_pages s).

(** The numbers of all the free pages. *)
Definition free_frames s : list Z :=
  bitmap_pages s ++ if buddy_available s then ba_pages (buddy s) else [].

(** The first page of RAM is never free, the bitmap marks used the pages of the
    block allocator, and the count of free pages is the number of clear bits. *)
Record pinv s : Prop := {
  pi_geo : mem_start s mod PAGE_SIZE = 0 /\ 0 <= mem_start s /\ 0 < total_pages s /\
    mem_end s = mem_start s + total_pages s * PAGE_SIZE /\ mem_end s < 2 ^ 62;
  pi_size : bitmap_size s = (total_pages s + 63) / 64 /\
    Z.of_nat (length (bitmap s)) = bitmap_size s;
  pi_words : words_ok (bitmap s);
  pi_hint : 0 <= next_free_hint s < bitmap_size s;
  pi_count : free_count s = Z.of_nat (length (clear_pages (bitmap s) (total_pages s)));
  pi_first : bit_at (bitmap s) 0 = true;
  pi_buddy : buddy_available s = true ->
    ba_inv (buddy s) /\ buddy_region_start s <= ba_lo (buddy s) /\
    ba_hi (buddy s) <= buddy_region_end s /\ mem_start s < buddy_region_start s /\
    buddy_region_end s = mem_end s /\
    forall i, 0 <= i < total_pages s -> buddy_region_start s <= mem_start s + i * PAGE_SIZE ->
      bit_at (bitmap s) i = true
}.

Lemma elem_clear bm n i : i ∈ clear_pages bm n <-> 0 <= i < n /\ bit_at bm i = false.
Proof.
  unfold clear_pages. rewrite list_elem_of_In, filter_In, <- list_elem_of_In, elem_of_seqZ.
  rewrite negb_true_iff. lia || naive_solver lia.
Qed.

Lemma clear_nodup bm n : NoDup (clear_pages bm n).
Proof. unfold clear_pages. apply NoDup_ListNoDup, List.NoDup_filter, NoDup_ListNoDup, NoDup_seqZ. Qed.

Lemma clear_length bm n : 0 <= n -> Z.of_nat (length (clear_pages bm n)) <= n.
Proof. intros Hn. pose proof (countb_length (fun i => negb (bit_at bm i)) (seqZ 0 n)) as H.
  rewrite length_seqZ in H. unfold countb in H. unfold clear_pages. lia. Qed.

(** Setting or clearing the bits of a run moves exactly its pages. *)
Lemma clear_run bm bm' n r c :
  0 <= r -> r + c <= n ->
  (forall j, r <= j < r + c -> bit_at bm j = false) ->
  (forall j, 0 <= j -> bit_at bm' j = (r <=? j) && (j <? r + c) || bit_at bm j) ->
  clear_pages bm n ≡ₚ seqZ r c ++ clear_pages bm' n.
Proof.
  intros Hr Hn Hold Hnew. apply NoDup_Permutation; [apply clear_nodup| |].
  - apply NoDup_app. split_and!; [apply NoDup_seqZ| |apply clear_nodup].
    intros j Hj. rewrite elem_clear. apply elem_of_seqZ in Hj. intros [H0 Hb].
    rewrite Hnew in Hb by lia. destruct (Z.leb_spec r j), (Z.ltb_spec j (r + c)); simpl in Hb; lia || done.
  - intros j. rewrite elem_of_app, !elem_clear, elem_of_seqZ. split.
    + intros [H0 Hb]. destruct (decide (r <= j < r + c)) as [H1|H1]; [left; lia|right].
      split; [done|]. rewrite Hnew, Hb, orb_false_r by lia.
      destruct (Z.leb_spec r j), (Z.ltb_spec j (r + c)); simpl; lia || done.
    + intros [H1|[H0 Hb]]; [split; [lia|apply Hold; lia]|]. split; [done|].
      rewrite Hnew in Hb by lia. by apply orb_false_iff in Hb as [_ ?].
Qed.

Lemma clear_one bm bm' n i :
  bit_update bm bm' i false -> 0 <= i < n -> bit_at bm i = true ->
  clear_pages bm' n ≡ₚ i :: clear_pages bm n.
Proof.
  intros (_ & _ & Hb) Hi Ht. change (i :: clear_pages bm n) with (seqZ i 1 ++ clear_pages bm n).
  apply clear_run; [lia|lia| |].
  - intros j Hj. rewrite Hb by lia. by replace j with i by lia; rewrite Z.eqb_refl.
  - intros j Hj. rewrite Hb by lia. destruct (Z.eqb_spec j i).
    + subst. rewrite Ht. destruct (Z.leb_spec i i), (Z.ltb_spec i (i + 1)); simpl; done || lia.
    + destruct (Z.leb_spec i j), (Z.ltb_spec j (i + 1)); simpl; done || lia.
Qed.

Lemma bitmap_pages_perm s s' r c :
  mem_start s' = mem_start s ->
  clear_pages (bitmap s) (total_pages s) ≡ₚ seqZ r c ++ clear_pages (bitmap s') (total_pages s') ->
  bitmap_pages s ≡ₚ seqZ (mem_start s / PAGE_SIZE + r) c ++ bitmap_pages s'.
Proof.
  intros Hm Hp. unfold bitmap_pages. rewrite Hp, fmap_app, Hm. f_equiv.
  rewrite <- fmap_add_seqZ. reflexivity.
Qed.

Lemma elem_bitmap_pages s i :
  mem_start s / PAGE_SIZE + i ∈ bitmap_pages s <->
  0 <= i < total_pages s /\ bit_at (bitmap s) i = false.
Proof.
  unfold bitmap_pages. rewrite list_elem_of_fmap, <- elem_clear. split.
  - intros (j & Hj & Hin). by replace i with j by lia.
  - intros Hin. eauto.
Qed.

(** ** The scan of [alloc_page] *)

Lemma pi_pages s i : pinv s -> 0 <= i < total_pages s -> 0 <= i < 64 * Z.of_nat (length (bitmap s)).
Proof. intros Hp Hi. destruct (pi_size _ Hp) as [Hs ->]. rewrite Hs. div_lia. Qed.

Lemma pi_total s : pinv s -> 0 < total_pages s < 2 ^ 50 /\ 0 < bitmap_size s < 2 ^ 45.
Proof. intros Hp. destruct (pi_geo _ Hp) as (_ & ? & ? & ? & ?), (pi_size _ Hp) as [Hs _].
  unfold PAGE_SIZE in *. split; [lia|]. rewrite Hs. div_lia. Qed.

Lemma find_bit_ok n : forall s word k,
  pinv s -> 0 <= word < bitmap_size s -> 0 <= k -> k + Z.of_nat n = 64 ->
  exists r, find_bit word (seqZ k (Z.of_nat n)) s = Ok r /\
    match r with
    | Some page => page / 64 = word /\ page ∈ clear_pages (bitmap s) (total_pages s)
    | None => forall b, k <= b < 64 -> word * 64 + b < total_pages s ->
                bit_at (bitmap s) (word * 64 + b) = true
    end.
Proof.
  induction n as [|n IH]; intros s word k Hp Hw Hk Hn.
  { exists None. split; [done|]. intros; lia. }
  rewrite Nat2Z.inj_succ in *. rewrite seqZ_cons by lia. cbn [find_bit].
  pose proof (pi_total _ Hp). unwrap. case_cmp.
  { exists None. split; [done|]. intros; lia. }
  rewrite test_bit_ok by (apply pi_pages; [done|lia]). cbn [mbind res_bind].
  destruct (bit_at _ _) eqn:E; cbn [negb].
  - destruct (IH s word (Z.succ k)) as (r & Hr & Hm); [done|done|lia|lia|].
    rewrite Z.pred_succ. exists r. split; [done|]. destruct r; [done|]. intros b Hb Hlt.
    destruct (decide (b = k)); [by subst|apply Hm; lia].
  - exists (Some (word * 64 + k)). split; [done|]. rewrite elem_clear.
    split_and!; [div_lia|lia|lia|done].
Qed.

Lemma full_word s word i :
  bitmap s !! Z.to_nat word = Some (u64 (Z.lnot 0)) -> 0 <= i -> i / 64 = word ->
  bit_at (bitmap s) i = true.
Proof.
  intros Hw Hi <-. unfold bit_at. rewrite Hw. change (u64 (Z.lnot 0)) with (Z.ones 64). simpl default.
  apply Z.ones_spec_low. div_lia.
Qed.

Lemma find_page_ok is_ : forall s,
  pinv s -> (forall i, i ∈ is_ -> 0 <= i < bitmap_size s) ->
  exists r, find_page (next_free_hint s) is_ s = Ok r /\
    match r with
    | Some (word, page) => page / 64 = word /\ page ∈ clear_pages (bitmap s) (total_pages s)
    | None => forall i p, i ∈ is_ -> 0 <= p < total_pages s ->
                p / 64 = (next_free_hint s + i) mod bitmap_size s -> bit_at (bitmap s) p = true
    end.
Proof.
  induction is_ as [|i is_ IH]; intros s Hp His; cbn [find_page].
  { exists None. split; [done|]. by intros i p ?%not_elem_of_nil. }
  pose proof (pi_total _ Hp). pose proof (pi_hint _ Hp). pose proof (His i ltac:(left)).
  unwrap. set (word := (next_free_hint s + i) mod bitmap_size s).
  assert (Hw : 0 <= word < bitmap_size s) by (apply Z.mod_pos_bound; lia).
  destruct (lookup_lt_is_Some_2 (bitmap s) (Z.to_nat word)) as [w Hlw].
  { destruct (pi_size _ Hp). lia. }
  rewrite (rd_Z _ _ w) by (done || lia). cbn [mbind res_bind].
  destruct (IH s Hp (fun j Hj => His j (list_elem_of_further _ _ _ Hj))) as (r0 & Hr0 & Hm0).
  assert (Hrest : (forall p, 0 <= p < total_pages s -> p / 64 = word -> bit_at (bitmap s) p = true) ->
    match r0 with
    | Some (word, page) => page / 64 = word /\ page ∈ clear_pages (bitmap s) (total_pages s)
    | None => forall i' p, i' ∈ i :: is_ -> 0 <= p < total_pages s ->
                p / 64 = (next_free_hint s + i') mod bitmap_size s -> bit_at (bitmap s) p = true
    end).
  { intros Hall. destruct r0 as [[]|]; [done|]. intros j p Hj Hlt Heq.
    apply elem_of_cons in Hj as [->|Hj]; [by apply Hall|by apply (Hm0 j)]. }
  destruct (Z.eqb_spec w (u64 (Z.lnot 0))) as [->|Hne]; cbn [negb].
  { rewrite Hr0. eexists. split; [done|]. apply Hrest.
    intros p Hlt Heq. eapply full_word; [done|lia|done]. }
  destruct (find_bit_ok 64 s word 0 Hp Hw ltac:(lia) eq_refl) as (r & Hr & Hm).
  change (Z.of_nat 64) with 64 in Hr. rewrite Hr. cbn [mbind res_bind].
  destruct r as [page|]; [by exists (Some (word, page))|].
  rewrite Hr0. eexists. split; [done|]. apply Hrest. intros p Hlt Heq.
  replace p with (word * 64 + p mod 64) by (subst word; rewrite <- Heq; div_lia).
  apply Hm; [div_lia|subst word; rewrite <- Heq; div_lia].
Qed.

(** A scan from the hint visits every word. *)
Lemma find_page_all s :
  pinv s ->
  exists r, find_page (next_free_hint s) (seqZ 0 (bitmap_size s)) s = Ok r /\
    match r with
    | Some (word, page) => page / 64 = word /\ page ∈ clear_pages (bitmap s) (total_pages s)
    | None => clear_pages (bitmap s) (total_pages s) = []
    end.
Proof.
  intros Hp. pose proof (pi_total _ Hp). pose proof (pi_hint _ Hp).
  destruct (find_page_ok (seqZ 0 (bitmap_size s)) s Hp) as (r & Hr & Hm).
  { intros i Hi. apply elem_of_seqZ in Hi. lia. }
  exists r. split; [done|]. destruct r as [[]|]; [done|]. apply elem_of_nil_inv.
  intros p. rewrite elem_clear. intros [Hlt Hb].
  assert (Hw : 0 <= p / 64 < bitmap_size s) by (destruct (pi_size _ Hp) as [-> _]; div_lia).
  rewrite (Hm ((p / 64 - next_free_hint s) mod bitmap_size s) p) in Hb; [done| |done|].
  - apply elem_of_seqZ. pose proof (Z.mod_pos_bound (p / 64 - next_free_hint s) (bitmap_size s)). lia.
  - rewrite Z.add_mod_idemp_r by lia. replace (next_free_hint s + (p / 64 - next_free_hint s)) with (p / 64) by lia.
    by rewrite Z.mod_small.
Qed.

(** ** The scan of [alloc_pages] *)

(** The page visited at position [i] of a scan from [start], and whether it is
    free. *)
Definition at_pos s (start i : Z) : Z := (start + i) mod total_pages s.
Definition free_at s (start i : Z) : Prop := bit_at (bitmap s) (at_pos s start i) = false.

(** After [k] positions, [len] trailing ones are free, no more, and no window
    of [count] positions was free. *)
Definition scan_inv s (start count k run len : Z) : Prop :=
  0 <= len <= k /\ len < count /\ (0 < len -> run = at_pos s start (k - len)) /\
  (forall i, k - len <= i < k -> free_at s start i) /\
  (len = k \/ ~ free_at s start (k - len - 1)) /\
  (forall j, 0 <= j -> j + count <= k -> exists i, j <= i < j + count /\ ~ free_at s start i).

Lemma scan_step_used s start count k run len :
  scan_inv s start count k run len -> 0 <= k -> ~ free_at s start k ->
  scan_inv s start count (k + 1) run 0.
Proof.
  intros (Hl & Hc & Hr & Hf & Hm & Hw) Hk Hu. split_and!; try lia.
  - right. by replace (k + 1 - 0 - 1) with k by lia.
  - intros j H0 Hj. destruct (Z.le_gt_cases (j + count) k); [by apply Hw|]. exists k. split; [lia|done].
Qed.

Lemma scan_step_free s start count k run len :
  scan_inv s start count k run len -> 0 <= k -> free_at s start k -> len + 1 <> count ->
  scan_inv s start count (k + 1) (if len =? 0 then at_pos s start k else run) (len + 1).
Proof.
  intros (Hl & Hc & Hr & Hf & Hm & Hw) Hk Hu Hne.
  split; [lia|]. split; [lia|]. split_and!.
  - intros _. replace (k + 1 - (len + 1)) with (k - len) by lia.
    destruct (Z.eqb_spec len 0); [by subst; rewrite Z.sub_0_r|apply Hr; lia].
  - intros i Hi. destruct (decide (i = k)); [by subst|apply Hf; lia].
  - destruct Hm as [->|Hm]; [by left|right].
    by replace (k + 1 - (len + 1) - 1) with (k - len - 1) by lia.
  - intros j H0 Hj. destruct (Z.le_gt_cases (j + count) k); [by apply Hw|].
    destruct Hm as [->|Hm]; [lia|]. exists (k - len - 1). split; [lia|done].
Qed.

Lemma find_run_ok n : forall s start count k run len,
  pinv s -> 0 <= start < total_pages s -> 0 <= k -> k + Z.of_nat n = total_pages s ->
  0 < count < 2 ^ 60 -> scan_inv s start count k run len ->
  exists r, find_run count start (seqZ k (Z.of_nat n)) run len s = Ok r /\
    match r with
    | Some run => exists j, 0 <= j /\ j + count <= total_pages s /\ run = at_pos s start j /\
                    forall i, j <= i < j + count -> free_at s start i
    | None => forall j, 0 <= j -> j + count <= total_pages s ->
                exists i, j <= i < j + count /\ ~ free_at s start i
    end.
Proof.
  induction n as [|n IH]; intros s start count k run len Hp Hs Hk Hn Hc Hi.
  { exists None. split; [done|]. replace (total_pages s) with k by lia. apply Hi. }
  rewrite Nat2Z.inj_succ in *. rewrite seqZ_cons, Z.pred_succ by lia. cbn [find_run].
  pose proof (pi_total _ Hp). pose proof Hi as (Hl & Hlc & _). unwrap.
  fold (at_pos s start k).
  assert (Hpos : 0 <= at_pos s start k < total_pages s) by (apply Z.mod_pos_bound; lia).
  rewrite test_bit_ok by (by apply pi_pages). cbn [mbind res_bind].
  destruct (bit_at (bitmap s) (at_pos s start k)) eqn:E; cbn [negb].
  - destruct (IH s start count (Z.succ k) run 0) as (r & -> & Hm); eauto; try lia.
    apply (scan_step_used _ _ _ _ run len); [done|lia|]. unfold free_at. congruence.
  - destruct (Z.eqb_spec (len + 1) count) as [<-|Hne].
    + eexists. split; [done|]. cbn beta iota. exists (k - len). destruct Hi as (_ & _ & Hr & Hf & _).
      split_and!; [lia|lia| |].
      * destruct (Z.eqb_spec len 0); [by subst; rewrite Z.sub_0_r|apply Hr; lia].
      * intros i Hi. destruct (decide (i = k)); [by subst|apply Hf; lia].
    + destruct (IH s start count (Z.succ k) (if len =? 0 then at_pos s start k else run) (len + 1))
        as (r & -> & Hm); eauto; try lia. by apply scan_step_free.
Qed.

(** A free stretch of the scan does not wrap, the first page being used. *)
Lemma free_stretch s start j count :
  pinv s -> 0 <= start < total_pages s -> 0 <= j ->
  (forall i, j <= i < j + count -> free_at s start i) ->
  forall i, 0 <= i < count -> at_pos s start (j + i) = at_pos s start j + i.
Proof.
  intros Hp Hs Hj Hf. pose proof (pi_total _ Hp).
  cut (forall n : nat, Z.of_nat n < count ->
         at_pos s start (j + Z.of_nat n) = at_pos s start j + Z.of_nat n).
  { intros Hcut i Hi. rewrite <- (Z2Nat.id i) by lia. apply Hcut. lia. }
  induction n as [|n IHn]; intros Hn; [by rewrite !Z.add_0_r|].
  specialize (IHn ltac:(lia)). specialize (Hf (j + Z.of_nat (S n)) ltac:(lia)).
  unfold free_at in Hf. revert Hf IHn. unfold at_pos. rewrite Nat2Z.inj_succ.
  replace (start + (j + Z.succ (Z.of_nat n))) with ((start + (j + Z.of_nat n)) + 1) by lia.
  rewrite <- (Z.add_mod_idemp_l (start + (j + Z.of_nat n))) by lia.
  set (q := (start + (j + Z.of_nat n)) mod total_pages s).
  assert (Hq : 0 <= q < total_pages s) by (apply Z.mod_pos_bound; lia).
  intros Hf Hqe. destruct (decide (q + 1 = total_pages s)) as [E|E].
  - rewrite E, Z.mod_same in Hf by lia. rewrite (pi_first _ Hp) in Hf. done.
  - rewrite Z.mod_small by lia. lia.
Qed.

(** The scan starts at the hinted word. *)
Definition scan_start s : Z :=
  if total_pages s <=? next_free_hint s * 64 then 0 else next_free_hint s * 64.

(** [count] pages from [r] are clear. *)
Definition clear_from s (r count : Z) : Prop :=
  0 <= r /\ r + count <= total_pages s /\ forall j, r <= j < r + count -> bit_at (bitmap s) j = false.

Lemma find_run_all s count :
  pinv s -> 0 < count < 2 ^ 60 ->
  exists r, find_run count (scan_start s) (seqZ 0 (total_pages s)) 0 0 s = Ok r /\
    match r with
    | Some run => clear_from s run count
    | None => forall r, clear_from s r count -> r < scan_start s < r + count
    end.
Proof.
  intros Hp Hc. pose proof (pi_total _ Hp). pose proof (pi_hint _ Hp).
  assert (Hs : 0 <= scan_start s < total_pages s) by (unfold scan_start; case_cmp).
  destruct (find_run_ok (Z.to_nat (total_pages s)) s (scan_start s) count 0 0 0)
    as (r & Hr & Hm); [done|done|lia|lia|lia| |].
  { split_and!; try lia. }
  rewrite Z2Nat.id in Hr by lia. exists r. split; [done|]. destruct r as [run|].
  - destruct Hm as (j & Hj & Hjc & -> & Hf).
    pose proof (free_stretch s _ j count Hp Hs Hj Hf) as Hpos.
    pose proof (Z.mod_pos_bound (scan_start s + j) (total_pages s) ltac:(lia)) as Hb.
    fold (at_pos s (scan_start s) j) in Hb.
    pose proof (Hpos (count - 1) ltac:(lia)) as Hlast.
    pose proof (Z.mod_pos_bound (scan_start s + (j + (count - 1))) (total_pages s) ltac:(lia)) as Hbl.
    fold (at_pos s (scan_start s) (j + (count - 1))) in Hbl.
    split_and!; [lia|lia|]. intros p Hpr.
    specialize (Hf (j + (p - at_pos s (scan_start s) j)) ltac:(lia)). unfold free_at in Hf.
    rewrite Hpos in Hf by lia. by replace (at_pos s (scan_start s) j + _) with p in Hf by lia.
  - intros r (Hr0 & Hr1 & Hcl). destruct (decide (r < scan_start s < r + count)) as [?|Hno]; [done|].
    exfalso. set (j := if r <? scan_start s then r - scan_start s + total_pages s else r - scan_start s).
    assert (Hj : 0 <= j /\ j + count <= total_pages s) by (unfold j; case_cmp).
    destruct (Hm j) as (i & Hi & Hu); [lia|lia|]. apply Hu. unfold free_at, at_pos.
    assert (E : (scan_start s + i) mod total_pages s = r + (i - j)).
    { unfold j in *. destruct (Z.ltb_spec r (scan_start s)).
      - symmetry. apply (Z.mod_unique _ _ 1); lia.
      - rewrite Z.mod_small by lia. lia. }
    rewrite E. apply Hcl. lia.
Qed.

(** ** Effects on the free pages *)

Definition same_geo s s' : Prop :=
  mem_start s' = mem_start s /\ mem_end s' = mem_end s /\ total_pages s' = total_pages s /\
  bitmap_size s' = bitmap_size s /\ buddy_available s' = buddy_available s /\
  buddy_region_start s' = buddy_region_start s /\ buddy_region_end s' = buddy_region_end s.

(** What keeps the invariant: the used pages of the block allocator's region
    and the first page stay used. *)
Lemma pinv_bitmap s s' :
  pinv s -> same_geo s s' -> buddy s' = buddy s ->
  length (bitmap s') = length (bitmap s) -> words_ok (bitmap s') ->
  0 <= next_free_hint s' < bitmap_size s ->
  free_count s' = Z.of_nat (length (clear_pages (bitmap s') (total_pages s))) ->
  (forall i, 0 <= i < total_pages s -> bit_at (bitmap s) i = true ->
     i = 0 \/ (buddy_available s = true /\ buddy_region_start s <= mem_start s + i * PAGE_SIZE) ->
     bit_at (bitmap s') i = true) ->
  pinv s'.
Proof.
  intros [Hg Hs Hw Hh Hc Hf Hb] (E1 & E2 & E3 & E4 & E5 & E6 & E7) Eb El Hw' Hh' Hc' Hk.
  split; rewrite ?E1, ?E2, ?E3, ?E4, ?E5, ?E6, ?E7, ?Eb, ?El; auto.
  - apply Hk; [lia|done|by left].
  - intros Ha. destruct (Hb Ha) as (? & ? & ? & ? & ? & Hu). split_and!; [done..|].
    intros i Hi Hr. apply Hk; auto.
Qed.

(** [s'] is [s] with the pages of a run taken out of the bitmap. *)
Definition taken s s' (addr count : Z) : Prop :=
  pinv s' /\ same_geo s s' /\ buddy s' = buddy s /\
  exists r, 0 < r /\ clear_from s r count /\ addr = mem_start s + r * PAGE_SIZE /\
    clear_pages (bitmap s) (total_pages s) ≡ₚ seqZ r count ++ clear_pages (bitmap s') (total_pages s').

Lemma take_run_ok s s' r count :
  pinv s -> clear_from s r count -> 0 < count -> same_geo s s' -> buddy s' = buddy s ->
  length (bitmap s') = length (bitmap s) -> words_ok (bitmap s') ->
  (forall j, 0 <= j -> bit_at (bitmap s') j = (r <=? j) && (j <? r + count) || bit_at (bitmap s) j) ->
  0 <= next_free_hint s' < bitmap_size s -> free_count s' = u64 (free_count s - count) ->
  taken s s' (page_to_addr s' r) count.
Proof.
  intros Hp (Hr0 & Hr1 & Hcl) Hc Hg Eb El Hw Hbits Hh Hfc. pose proof (pi_total _ Hp).
  assert (Hperm : clear_pages (bitmap s) (total_pages s) ≡ₚ
                  seqZ r count ++ clear_pages (bitmap s') (total_pages s)) by (by apply clear_run).
  pose proof Hg as (E1 & E2 & E3 & E4 & _). split_and!; [|done|done|].
  - eapply pinv_bitmap; eauto.
    + rewrite Hfc, (pi_count _ Hp). pose proof (Permutation_length Hperm) as Hl.
      rewrite length_app, length_seqZ in Hl.
      pose proof (clear_length (bitmap s) (total_pages s) ltac:(lia)). rewrite u64_small; lia.
    + intros i Hi Hu _. rewrite Hbits, Hu by lia. apply orb_true_r.
  - exists r. rewrite E3. split_and!; [|done..| |done].
    + destruct (decide (r = 0)) as [->|]; [|lia].
      pose proof (pi_first _ Hp) as H0. by rewrite Hcl in H0 by lia.
    + destruct (pi_geo _ Hp) as (? & ? & ? & He & ?). unfold page_to_addr, PAGE_SHIFT, PAGE_SIZE in *.
      rewrite Z.shiftl_mul_pow2, E1 by lia. unwrap. lia.
Qed.

Lemma taken_debug s s' addr count n a : taken s s' addr count -> taken s (set_debug s' n a) addr count.
Proof. intros (Hp & Hg & Hb & Hr). split_and!; [|done|done|done].
  destruct Hp as [P1 P2 P3 P4 P5 P6 P7]. by split. Qed.

Lemma alloc_page_bitmap_ok s :
  pinv s ->
  exists s' addr, alloc_page_bitmap s = Ok (s', addr) /\
    if addr =? 0 then s' = s /\ clear_pages (bitmap s) (total_pages s) = [] else taken s s' addr 1.
Proof.
  intros Hp. unfold alloc_page_bitmap. pose proof (pi_total _ Hp).
  destruct (find_page_all s Hp) as ([[word page]|] & -> & Hm); cbn [mbind res_bind].
  2:{ by exists s, 0. }
  destruct Hm as (Hw & Hin). apply elem_clear in Hin as [Hlt Hb].
  destruct (set_bit_ok page s (pi_words _ Hp) (pi_pages _ _ Hp Hlt)) as (bm & -> & (Hl & Hok & Hbits)).
  cbn [mbind res_bind]. set (s1 := set_counts _ _ _).
  assert (Ht : taken s s1 (page_to_addr s1 page) 1).
  { apply take_run_ok; try done.
    - split_and!; [lia|lia|]. intros j Hj. by replace j with page by lia.
    - intros j Hj. cbn [bitmap s1]. rewrite Hbits by done. destruct (Z.eqb_spec j page).
      + subst. by destruct (Z.leb_spec page page), (Z.ltb_spec page (page + 1)); [|lia..].
      + by destruct (Z.leb_spec page j), (Z.ltb_spec j (page + 1)); [lia|..].
    - cbn. subst word. destruct (pi_size _ Hp) as [-> _]. div_lia. }
  assert (Hnz : page_to_addr s1 page <> 0).
  { destruct Ht as (_ & _ & _ & r & Hr & _ & -> & _). destruct (pi_geo _ Hp). unfold PAGE_SIZE. lia. }
  destruct (page_to_addr s1 page =? DEBUG_TRACKED_PAGE).
  all: do 2 eexists; split; [done|].
  all: destruct (Z.eqb_spec (page_to_addr s1 page) 0); [done|]; by try apply taken_debug.
Qed.

Lemma set_run_ok s r count :
  pinv s -> 0 <= r -> 0 <= count -> r + count <= total_pages s ->
  exists s', foldM (fun s j => set_bit (u64 (r + j)) s) (seqZ 0 count) s = Ok s' /\
    exists bm, s' = set_bitmap s bm /\ length bm = length (bitmap s) /\ words_ok bm /\
      forall j, 0 <= j -> bit_at bm j = (r <=? j) && (j <? r + count) || bit_at (bitmap s) j.
Proof.
  intros Hp Hr Hc Hn. pose proof (pi_total _ Hp).
  destruct (foldM_inv (fun s j => set_bit (u64 (r + j)) s)
    (fun done_ s' => exists bm, s' = set_bitmap s bm /\ length bm = length (bitmap s) /\ words_ok bm /\
      forall j, 0 <= j ->
        bit_at bm j = (r <=? j) && (j <? r + Z.of_nat (length done_)) || bit_at (bitmap s) j)
    (seqZ 0 count) s) as (s' & Hs' & bm & -> & Hbm).
  - exists (bitmap s). split_and!; [by destruct s|done|apply Hp|]. intros j Hj. simpl.
    by destruct (Z.leb_spec r j), (Z.ltb_spec j (r + Z.of_nat 0)); [lia|..].
  - intros done_ i rest s' Hseq (bm & -> & Hl & Hok & Hb).
    destruct (seqZ_prefix _ _ _ _ Hseq) as [-> Hi]. unwrap.
    destruct (set_bit_ok (r + i) (set_bitmap s bm)) as (bm' & -> & Hl' & Hok' & Hb').
    { done. } { cbn [bitmap set_bitmap]. rewrite Hl. apply pi_pages; [done|lia]. }
    eexists. split; [done|]. exists bm'. cbn [bitmap set_bitmap] in *. split_and!; [done|congruence|done|].
    intros j Hj. rewrite Hb', Hb by done. rewrite length_app, length_seqZ. simpl.
    destruct (Z.eqb_spec j (r + i)).
    + subst. by destruct (Z.leb_spec r (r + i)), (Z.ltb_spec (r + i) (r + Z.of_nat (Z.to_nat i + 1))); [|lia..].
    + f_equal. f_equal. destruct (Z.ltb_spec j (r + Z.of_nat (Z.to_nat i))),
        (Z.ltb_spec j (r + Z.of_nat (Z.to_nat i + 1))); done || lia.
  - eexists. split; [done|]. exists bm. rewrite length_seqZ, Z2Nat.id in Hbm by lia. done.
Qed.

Lemma alloc_run_ok s count :
  pinv s -> 0 < count < 2 ^ 60 ->
  exists s' addr, alloc_run count s = Ok (s', addr) /\
    if addr =? 0 then s' = s /\ forall r, clear_from s r count -> r < scan_start s < r + count
    else taken s s' addr count.
Proof.
  intros Hp Hc. unfold alloc_run. pose proof (pi_total _ Hp). pose proof (pi_hint _ Hp).
  rewrite (u64_small (next_free_hint s * 64)) by lia. fold (scan_start s).
  destruct (find_run_all s count Hp Hc) as ([run|] & -> & Hm); cbn [mbind res_bind].
  2:{ by exists s, 0. }
  pose proof Hm as (Hr0 & Hr1 & Hcl).
  destruct (set_run_ok s run count Hp Hr0 ltac:(lia) Hr1) as (s' & -> & bm & -> & Hl & Hok & Hb).
  cbn [mbind res_bind]. set (s1 := set_counts _ _ _).
  assert (Ht : taken s s1 (page_to_addr s1 run) count).
  { apply take_run_ok; try done; [lia|]. cbn [next_free_hint s1 set_counts set_bitmap bitmap_size].
    unwrap. case_cmp. div_lia. }
  do 2 eexists. split; [done|]. destruct (Z.eqb_spec (page_to_addr s1 run) 0) as [E|]; [|done].
  exfalso. destruct Ht as (_ & _ & _ & r & Hr & _ & Ha & _). destruct (pi_geo _ Hp).
  unfold PAGE_SIZE in *. lia.
Qed.

(** ** Allocation *)

Lemma same_geo_refl s : same_geo s s.
Proof. done. Qed.
Lemma same_geo_trans s1 s2 s3 : same_geo s1 s2 -> same_geo s2 s3 -> same_geo s1 s3.
Proof. unfold same_geo. intuition congruence. Qed.

(** A change of the block allocator inside its region. *)
Lemma pinv_buddy s b :
  pinv s -> ba_inv b -> ba_lo b = ba_lo (buddy s) -> ba_hi b = ba_hi (buddy s) ->
  pinv (set_buddy s b).
Proof.
  intros [P1 P2 P3 P4 P5 P6 P7] Hb Hl Hh. split; try done. cbn. rewrite Hl, Hh. intros Ha.
  by destruct (P7 Ha) as (_ & ?).
Qed.

(** A block of [n] pages at [addr] left the block allocator. *)
Definition block_taken s s' (addr n : Z) : Prop :=
  buddy_available s = true /\ exists b, s' = set_buddy s b /\ pinv s' /\
    ba_lo b = ba_lo (buddy s) /\ ba_hi b = ba_hi (buddy s) /\
    addr mod PAGE_SIZE = 0 /\ ba_lo (buddy s) <= addr /\ addr + n * PAGE_SIZE <= ba_hi (buddy s) /\
    ba_pages (buddy s) ≡ₚ seqZ (addr / PAGE_SIZE) n ++ ba_pages b.

Lemma try_block s cpu order :
  pinv s -> 0 <= cpu -> 0 <= order < MAX_ORDER -> buddy_available s = true ->
  exists b addr, ba_alloc_pages cpu order (buddy s) = Ok (b, addr) /\
    if addr =? 0 then set_buddy s b = s else block_taken s (set_buddy s b) addr (2 ^ order).
Proof.
  intros Hp Hcpu Ho Ha. destruct (pi_buddy _ Hp Ha) as (Hb & _).
  destruct (ba_alloc_law (buddy s) cpu order Hb Hcpu Ho) as (b & addr & Hal & Hb' & Hl & Hh & Hr).
  exists b, addr. split; [done|]. destruct (addr =? 0); [subst; by destruct s|].
  destruct Hr as (? & ? & ? & ?). split; [done|]. exists b. split_and!; try done. by apply pinv_buddy.
Qed.

(** The three outcomes of [alloc_pages]. *)
Lemma alloc_any s cpu count :
  pinv s -> 0 <= cpu -> 1 <= count < 2 ^ 60 ->
  exists s' addr o, alloc_pages cpu count s = Ok (s', addr) /\
    Buddy.pages_to_order count = Ok o /\ 0 <= o < MAX_ORDER /\
    (if count <=? 512 then count <= 2 ^ o < 2 * count else 2 ^ o = 512) /\
    if addr =? 0
    then s' = s /\ forall r, clear_from s r count -> r < scan_start s < r + count
    else block_taken s s' addr (2 ^ o) \/ taken s s' addr count.
Proof.
  intros Hp Hcpu Hc. destruct (BuddySpec.pages_to_order_ok count) as (o & Ho & Hor & Hfit); [lia|].
  assert (Hsize : if count <=? 512 then count <= 2 ^ o < 2 * count else 2 ^ o = 512).
  { destruct (Z.leb_spec count 512); [|by destruct Hfit as [-> _]]. destruct Hfit as [Hle Hlo]. split; [done|]. destruct Hlo as [->|Hlt]; [simpl; lia|].
    destruct (decide (o = 0)) as [->|]; [simpl; lia|].
    replace o with (Z.succ (o - 1)) by lia. rewrite Z.pow_succ_r by lia. lia. }
  assert (Htry : exists s1 addr, (if buddy_available s then
      '(b, addr) ← ba_alloc_pages cpu o (buddy s); Ok (set_buddy s b, addr) else Ok (s, 0)) =
      Ok (s1, addr) /\ if addr =? 0 then s1 = s else block_taken s s1 addr (2 ^ o)).
  { destruct (buddy_available s) eqn:Ha; [|by exists s, 0].
    destruct (try_block s cpu o) as (b & addr & -> & Hr); eauto. }
  destruct Htry as (s1 & addr & Hs1 & Hr). unfold alloc_pages.
  destruct (Z.eqb_spec count 0); [lia|]. destruct (Z.eqb_spec count 1) as [->|Hn1].
  - injection Ho as <-. unfold alloc_page. rewrite Hs1. cbn [mbind res_bind].
    destruct (Z.eqb_spec addr 0) as [E0|Hnz]; cbn [negb].
    + subst s1. destruct (alloc_page_bitmap_ok s Hp) as (s' & addr' & -> & Hm).
      exists s', addr', 0. split_and!; try done. destruct (addr' =? 0); [|by right].
      destruct Hm as [-> Hnil]. split; [done|]. intros r (H0 & H1 & Hcl).
      assert (Hin : r ∈ clear_pages (bitmap s) (total_pages s)) by (apply elem_clear; split; [lia|apply Hcl; lia]).
      rewrite Hnil in Hin. by apply not_elem_of_nil in Hin.
    + exists s1, addr, 0. split_and!; try done. destruct (Z.eqb_spec addr 0); [done|]. by left.
  - rewrite Ho. cbn [mbind res_bind]. cbn [mbind res_bind] in Hs1. rewrite Hs1. cbn [mbind res_bind].
    destruct (Z.eqb_spec addr 0) as [E0|Hnz]; cbn [negb].
    + subst s1. destruct (alloc_run_ok s count Hp ltac:(lia)) as (s' & addr' & -> & Hm).
      exists s', addr', o. split_and!; try done; try lia. destruct (addr' =? 0); [done|by right].
    + exists s1, addr, o. split_and!; try done; try lia. destruct (Z.eqb_spec addr 0); [done|]. by left.
Qed.

Lemma alloc_cases s cpu count :
  pinv s -> 0 <= cpu -> 1 <= count <= 512 ->
  exists s' addr o, alloc_pages cpu count s = Ok (s', addr) /\
    Buddy.pages_to_order count = Ok o /\ 0 <= o < MAX_ORDER /\ count <= 2 ^ o < 2 * count /\
    if addr =? 0
    then s' = s /\ forall r, clear_from s r count -> r < scan_start s < r + count
    else block_taken s s' addr (2 ^ o) \/ taken s s' addr count.
Proof.
  intros Hp Hcpu Hc. destruct (alloc_any s cpu count Hp Hcpu ltac:(lia)) as (s' & addr & o & H1 & H2 & H3 & H4 & H5).
  destruct (Z.leb_spec count 512); [|lia]. by exists s', addr, o.
Qed.

Lemma taken_frames s s' addr count :
  pinv s -> taken s s' addr count ->
  addr mod PAGE_SIZE = 0 /\ mem_start s <= addr /\ addr + count * PAGE_SIZE <= mem_end s /\
  free_frames s ≡ₚ seqZ (addr / PAGE_SIZE) count ++ free_frames s'.
Proof.
  intros Hp (Hp' & (E1 & E2 & E3 & E4 & E5 & _) & Eb & r & Hr & (Hr0 & Hr1 & _) & -> & Hperm).
  destruct (pi_geo _ Hp) as (Hal & ? & ? & He & ?). unfold free_frames. rewrite E5, Eb.
  split_and!; [unfold PAGE_SIZE in *; div_lia|unfold PAGE_SIZE; lia|rewrite He; unfold PAGE_SIZE; lia|].
  rewrite (bitmap_pages_perm s s' r count E1 Hperm).
  replace ((mem_start s + r * PAGE_SIZE) / PAGE_SIZE) with (mem_start s / PAGE_SIZE + r)
    by (unfold PAGE_SIZE in *; div_lia).
  by rewrite <- app_assoc.
Qed.

Lemma block_taken_frames s s' addr n :
  pinv s -> block_taken s s' addr n ->
  addr mod PAGE_SIZE = 0 /\ mem_start s <= addr /\ addr + n * PAGE_SIZE <= mem_end s /\
  free_frames s ≡ₚ seqZ (addr / PAGE_SIZE) n ++ free_frames s'.
Proof.
  intros Hp (Ha & b & -> & Hp' & Hl & Hh & Hal & Hlo & Hhi & Hperm).
  destruct (pi_buddy _ Hp Ha) as (_ & ? & ? & ? & ? & _).
  split_and!; [done|lia|lia|]. unfold free_frames. cbn [buddy_available set_buddy buddy].
  rewrite Ha, Hperm. change (bitmap_pages (set_buddy s b)) with (bitmap_pages s).
  by rewrite Permutation_app_swap_app.
Qed.

(** The free pages are counted once. *)
Lemma free_frames_nodup s : pinv s -> NoDup (free_frames s).
Proof.
  intros Hp. unfold free_frames. destruct (pi_geo _ Hp) as (Hal & _). apply NoDup_app. split_and!.
  - unfold bitmap_pages. apply NoDup_fmap_2; [intros ???; lia|apply clear_nodup].
  - intros p Hpb. destruct (buddy_available s) eqn:Ha; [|apply not_elem_of_nil]. intros Hin.
    destruct (pi_buddy _ Hp Ha) as (Hb & Hlo & _ & _ & _ & Hu). apply (ba_range _ _ Hb) in Hin.
    replace p with (mem_start s / PAGE_SIZE + (p - mem_start s / PAGE_SIZE)) in Hpb by lia.
    apply elem_bitmap_pages in Hpb as [Hr Hf]. rewrite Hu in Hf; [done|done|].
    unfold PAGE_SIZE in *. div_lia.
  - destruct (buddy_available s) eqn:Ha; [|apply NoDup_nil_2]. apply ba_nodup.
    by destruct (pi_buddy _ Hp Ha).
Qed.

(** ** Freeing *)

Lemma free_unlocked_ok s i :
  pinv s -> 0 < i < total_pages s -> bit_at (bitmap s) i = true ->
  (buddy_available s = true -> mem_start s + i * PAGE_SIZE < buddy_region_start s) ->
  exists s', free_page_unlocked (mem_start s + i * PAGE_SIZE) s = Ok s' /\ pinv s' /\
    same_geo s s' /\ buddy s' = buddy s /\
    clear_pages (bitmap s') (total_pages s) ≡ₚ i :: clear_pages (bitmap s) (total_pages s).
Proof.
  intros Hp Hi Hu Hreg. pose proof (pi_geo _ Hp) as (Hal & H0 & Ht & He & Hlt).
  unfold free_page_unlocked. unfold PAGE_SIZE in *. case_cmp. case_cmp. cbn zeta.
  set (s1 := if (_ : bool) then set_debug _ _ _ else s).
  assert (E : bitmap s1 = bitmap s /\ mem_start s1 = mem_start s /\ free_count s1 = free_count s /\
              next_free_hint s1 = next_free_hint s /\ same_geo s s1 /\ buddy s1 = buddy s)
    by (unfold s1; destruct (_ =? _); done).
  destruct E as (Ebm & Ems & Efc & Enh & Hg1 & Eb1). clearbody s1.
  assert (Epg : addr_to_page s1 (mem_start s + i * 4096) = i).
  { unfold addr_to_page, PAGE_SHIFT. rewrite Ems, Z.shiftr_div_pow2 by lia. unwrap.
    change (2 ^ 12) with 4096. div_lia. }
  rewrite Epg, test_bit_ok by (rewrite Ebm; apply pi_pages; [done|lia]).
  rewrite Ebm, Hu. cbn [mbind res_bind negb].
  destruct (clear_bit_ok i s1) as (bm & -> & Hbu).
  { rewrite Ebm. apply Hp. } { rewrite Ebm. apply pi_pages; [done|lia]. }
  cbn [mbind res_bind]. eexists. split; [done|]. rewrite Ebm in Hbu.
  pose proof (clear_one _ _ (total_pages s) i Hbu ltac:(lia) Hu) as Hperm.
  destruct Hbu as (Hlen & Hok & Hb). split_and!; [|by destruct Hg1|done|done].
  eapply pinv_bitmap; [exact Hp|by destruct Hg1|done|done|done|..];
    cbn [bitmap next_free_hint free_count set_counts set_bitmap].
  - rewrite Enh. apply Hp.
  - rewrite Efc, Hperm, (pi_count _ Hp). cbn [length].
    pose proof (pi_total _ Hp). pose proof (clear_length (bitmap s) (total_pages s) ltac:(lia)).
    rewrite u64_small; lia.
  - intros j Hj Hu' [->|[Ha Hr]]; rewrite Hb by lia; case_cmp.
    subst. specialize (Hreg Ha). unfold PAGE_SIZE in *. lia.
Qed.

Lemma free_run_ok s i count :
  pinv s -> 0 < i -> 0 <= count -> i + count <= total_pages s ->
  (forall j, i <= j < i + count -> bit_at (bitmap s) j = true) ->
  (buddy_available s = true -> mem_start s + (i + count) * PAGE_SIZE <= buddy_region_start s) ->
  exists s', foldM (fun s' k => free_page_unlocked
      (u64 (mem_start s + i * PAGE_SIZE + u64 (k * PAGE_SIZE))) s') (seqZ 0 count) s = Ok s' /\
    pinv s' /\ same_geo s s' /\ buddy s' = buddy s /\
    clear_pages (bitmap s') (total_pages s) ≡ₚ seqZ i count ++ clear_pages (bitmap s) (total_pages s).
Proof.
  intros Hp Hi Hc Hn Hu Hreg. pose proof (pi_geo _ Hp) as (Hal & H0 & Ht & He & Hlt).
  destruct (foldM_inv (fun s' k => free_page_unlocked
      (u64 (mem_start s + i * PAGE_SIZE + u64 (k * PAGE_SIZE))) s')
    (fun done_ s' => pinv s' /\ same_geo s s' /\ buddy s' = buddy s /\
      clear_pages (bitmap s') (total_pages s) ≡ₚ
        seqZ i (Z.of_nat (length done_)) ++ clear_pages (bitmap s) (total_pages s))
    (seqZ 0 count) s) as (s' & Hs' & Hp' & Hg & Eb & Hperm).
  - done.
  - intros done_ k rest s' Hseq (Hp' & Hg & Eb & Hperm).
    destruct (seqZ_prefix _ _ _ _ Hseq) as [-> Hk]. rewrite length_seqZ, Z2Nat.id in Hperm by lia.
    pose proof Hg as (E1 & E2 & E3 & E4 & E5 & E6 & _). unfold PAGE_SIZE in *. unwrap.
    replace (mem_start s + i * 4096 + k * 4096) with (mem_start s' + (i + k) * 4096) by (rewrite E1; lia).
    destruct (free_unlocked_ok s' (i + k)) as (s2 & Hs2 & Hp2 & Hg2 & Eb2 & Hperm2).
    + done.
    + rewrite E3. lia.
    + apply not_false_is_true. intros Hf.
      assert (Hin : i + k ∈ clear_pages (bitmap s') (total_pages s)) by (apply elem_clear; split; [lia|done]).
      rewrite Hperm, elem_of_app, elem_of_seqZ, elem_clear in Hin. destruct Hin as [?|[_ Hf']]; [lia|].
      by rewrite Hu in Hf' by lia.
    + rewrite E5, E6, E1. intros Ha. specialize (Hreg Ha). unfold PAGE_SIZE. lia.
    + exists s2. unfold PAGE_SIZE in Hs2. split; [done|]. split_and!; [done|by eapply same_geo_trans|congruence|].
      rewrite E3 in Hperm2. rewrite Hperm2, Hperm, length_app, length_seqZ. simpl.
      replace (Z.of_nat (Z.to_nat k + 1)) with (k + 1) by lia.
      rewrite seqZ_app by lia. change (seqZ (i + k) 1) with [i + k].
      rewrite <- app_assoc. cbn [app]. by rewrite <- Permutation_middle.
  - exists s'. rewrite length_seqZ, Z2Nat.id in Hperm by lia. done.
Qed.

(** The regions of both allocators are unchanged. *)
Definition same_bounds s s' : Prop :=
  same_geo s s' /\ ba_lo (buddy s') = ba_lo (buddy s) /\ ba_hi (buddy s') = ba_hi (buddy s).

Lemma free_blocks_ok s cpu addr count :
  pinv s -> 0 <= cpu -> buddy_available s = true -> 0 <= count -> addr mod PAGE_SIZE = 0 ->
  ba_lo (buddy s) <= addr -> addr + count * PAGE_SIZE <= ba_hi (buddy s) ->
  (forall p, p ∈ seqZ (addr / PAGE_SIZE) count -> p ∉ ba_pages (buddy s)) ->
  exists s', foldM (fun s i =>
      b ← ba_free_page cpu (u64 (addr + u64 (i * PAGE_SIZE))) (buddy s); Ok (set_buddy s b))
      (seqZ 0 count) s = Ok s' /\
    pinv s' /\ same_bounds s s' /\ bitmap s' = bitmap s /\
    ba_pages (buddy s') ≡ₚ seqZ (addr / PAGE_SIZE) count ++ ba_pages (buddy s).
Proof.
  intros Hp Hcpu Ha Hc Hal Hlo Hhi Hd. destruct (pi_buddy _ Hp Ha) as (Hb & Hrl & Hrh & Hms & Hme & _).
  pose proof (pi_geo _ Hp) as (_ & H0 & _ & _ & Hlt).
  destruct (foldM_inv (fun s i =>
      b ← ba_free_page cpu (u64 (addr + u64 (i * PAGE_SIZE))) (buddy s); Ok (set_buddy s b))
    (fun done_ s' => pinv s' /\ same_geo s s' /\ bitmap s' = bitmap s /\
      ba_lo (buddy s') = ba_lo (buddy s) /\ ba_hi (buddy s') = ba_hi (buddy s) /\
      ba_pages (buddy s') ≡ₚ seqZ (addr / PAGE_SIZE) (Z.of_nat (length done_)) ++ ba_pages (buddy s))
    (seqZ 0 count) s) as (s' & Hs' & Hp' & Hg & Eb & El & Eh & Hperm).
  - done.
  - intros done_ k rest s' Hseq (Hp' & Hg & Eb & El & Eh & Hperm).
    destruct (seqZ_prefix _ _ _ _ Hseq) as [-> Hk]. rewrite length_seqZ, Z2Nat.id in Hperm by lia.
    assert (Ha' : buddy_available s' = true) by (destruct Hg as (_ & _ & _ & _ & -> & _); done).
    destruct (pi_buddy _ Hp' Ha') as (Hb' & _). unfold PAGE_SIZE in *. unwrap.
    destruct (ba_free_law (buddy s') cpu (addr + k * 4096)) as (b & -> & Hbi & Hl & Hh & Hpb);
      unfold PAGE_SIZE in *; [done|done|div_lia|lia|lia| |].
    { replace ((addr + k * 4096) / 4096) with (addr / 4096 + k) by div_lia.
      rewrite Hperm, elem_of_app, elem_of_seqZ. intros [?|Hin]; [lia|].
      apply (Hd (addr / 4096 + k)); [|done]. apply elem_of_seqZ. lia. }
    cbn [mbind res_bind]. eexists. split; [done|]. cbn [buddy set_buddy bitmap].
    split_and!; [by apply pinv_buddy|by destruct Hg|done|congruence|congruence|].
    rewrite Hpb, Hperm, length_app, length_seqZ. simpl.
    replace (Z.of_nat (Z.to_nat k + 1)) with (k + 1) by lia.
    replace ((addr + k * 4096) / 4096) with (addr / 4096 + k) by div_lia.
    rewrite seqZ_app by lia. change (seqZ (addr / 4096 + k) 1) with [addr / 4096 + k].
    rewrite <- app_assoc. cbn [app]. by rewrite <- Permutation_middle.
  - exists s'. rewrite length_seqZ, Z2Nat.id in Hperm by lia. done.
Qed.

(** The pages of a run lie on one side of the boundary between the two
    allocators. *)
Definition one_side s (addr count : Z) : Prop :=
  if buddy_available s
  then addr + count * PAGE_SIZE <= buddy_region_start s \/
       (ba_lo (buddy s) <= addr /\ addr + count * PAGE_SIZE <= ba_hi (buddy s))
  else True.

Lemma pmm_free_pages_ok s cpu addr count :
  pinv s -> 0 <= cpu -> 0 < count -> addr mod PAGE_SIZE = 0 ->
  mem_start s < addr -> addr + count * PAGE_SIZE <= mem_end s -> one_side s addr count ->
  (forall p, p ∈ seqZ (addr / PAGE_SIZE) count -> p ∉ free_frames s) ->
  exists s', free_pages cpu addr count s = Ok s' /\ pinv s' /\ same_bounds s s' /\
    free_frames s' ≡ₚ seqZ (addr / PAGE_SIZE) count ++ free_frames s.
Proof.
  intros Hp Hcpu Hc Hal Hlo Hhi Hside Hd. pose proof (pi_geo _ Hp) as (Hms & H0 & Ht & He & Hlt).
  unfold free_pages. destruct (in_buddy_region s addr) eqn:Er.
  - unfold in_buddy_region in Er. apply andb_prop in Er as [Er _]. apply andb_prop in Er as [Ha Hge].
    unfold one_side in Hside. rewrite Ha in Hside. apply Z.leb_le in Hge.
    destruct Hside as [Hside|[Hsl Hsh]]; [unfold PAGE_SIZE in Hside; lia|].
    destruct (free_blocks_ok s cpu addr count) as (s' & Hs' & Hp' & Hg & Eb & Hperm); try done; [lia| |].
    { intros p Hin Hpb. apply (Hd p Hin). unfold free_frames. rewrite Ha. apply elem_of_app. by right. }
    exists s'. split_and!; try done. pose proof Hg as ((E1 & E2 & E3 & _ & E5 & _) & _). unfold free_frames, bitmap_pages.
    rewrite E5, Ha, E1, E3, Eb, Hperm. by rewrite Permutation_app_swap_app.
  - set (i := (addr - mem_start s) / PAGE_SIZE).
    assert (Hi : addr = mem_start s + i * PAGE_SIZE) by (unfold i, PAGE_SIZE in *; div_lia).
    assert (Hin : in_buddy_region s addr = false -> buddy_available s = true ->
                  addr + count * PAGE_SIZE <= buddy_region_start s).
    { intros Hnr Ha. unfold in_buddy_region, one_side in *. rewrite Ha in *. cbn [andb] in Hnr.
      destruct (pi_buddy _ Hp Ha) as (_ & ? & ? & _ & ? & _). destruct Hside as [?|[? ?]]; [done|].
      exfalso. revert Hnr. unfold PAGE_SIZE in *. destruct (Z.leb_spec (buddy_region_start s) addr); [|lia].
      destruct (Z.ltb_spec addr (buddy_region_end s)); [done|lia]. }
    destruct (free_run_ok s i count) as (s' & Hs' & Hp' & Hg & Eb & Hperm).
    + done.
    + unfold PAGE_SIZE in *. lia.
    + lia.
    + unfold PAGE_SIZE in *. lia.
    + intros j Hj. apply not_false_is_true. intros Hf. apply (Hd (mem_start s / PAGE_SIZE + j)).
      * apply elem_of_seqZ. unfold PAGE_SIZE in *. div_lia.
      * unfold free_frames. apply elem_of_app. left. apply elem_bitmap_pages.
        unfold PAGE_SIZE in *. split; [lia|done].
    + intros Ha. specialize (Hin Er Ha). unfold PAGE_SIZE in *. lia.
    + exists s'. rewrite <- Hi in Hs'.
      split_and!; [done|done|unfold same_bounds; by rewrite Eb|]. pose proof Hg as (E1 & E2 & E3 & _ & E5 & _).
      unfold free_frames. rewrite E5, Eb.
      rewrite (bitmap_pages_perm s' s i count); [|by rewrite E1|by rewrite E3].
      rewrite E1, <- app_assoc. replace (addr / PAGE_SIZE) with (mem_start s / PAGE_SIZE + i)
        by (unfold PAGE_SIZE in *; div_lia). done.
Qed.

(** ** Initialisation *)

(** What the marking loop keeps, with the pages from [i] on still used. *)
Definition mark_inv s (i : Z) : Prop :=
  words_ok (bitmap s) /\ total_pages s <= 64 * Z.of_nat (length (bitmap s)) /\
  free_count s = Z.of_nat (length (clear_pages (bitmap s) (total_pages s))) /\
  forall j, i <= j < total_pages s -> bit_at (bitmap s) j = true.

Lemma mark_free_ok fuel : forall s i k,
  mem_start s mod PAGE_SIZE = 0 -> 0 <= mem_start s -> 0 <= i ->
  mem_start s + i * PAGE_SIZE < 2 ^ 62 -> mem_start s + k * PAGE_SIZE < 2 ^ 62 ->
  0 <= total_pages s < 2 ^ 50 -> 0 `max` (k - i) < Z.of_nat fuel -> mark_inv s i ->
  exists s' bm fc, mark_free fuel (mem_start s + i * PAGE_SIZE) (mem_start s + k * PAGE_SIZE) s = Ok s' /\
    s' = set_counts (set_bitmap s bm) fc (next_free_hint s) /\ length bm = length (bitmap s) /\
    words_ok bm /\ fc = Z.of_nat (length (clear_pages bm (total_pages s))) /\
    forall j, 0 <= j < total_pages s ->
      bit_at bm j = negb ((i <=? j) && (j <? k)) && bit_at (bitmap s) j.
Proof.
  induction fuel as [|fuel IH]; intros s i k Hal Hms Hi0 Hi Hk Ht Hf (Hw & Hl & Hc & Hu); cbn [mark_free].
  all: unfold PAGE_SIZE in *.
  - lia.
  - case_cmp; cycle 1.
    { exists s, (bitmap s), (free_count s). split_and!; try done; [by destruct s|].
      intros j Hj. destruct (Z.leb_spec i j), (Z.ltb_spec j k); done || lia. }
    assert (Epg : addr_to_page s (mem_start s + i * 4096) = i).
    { unfold addr_to_page, PAGE_SHIFT. rewrite Z.shiftr_div_pow2 by lia. unwrap.
      change (2 ^ 12) with 4096. div_lia. }
    rewrite Epg. rewrite (u64_small (_ + 4096)) by lia.
    replace (mem_start s + i * 4096 + 4096) with (mem_start s + (i + 1) * 4096) by lia.
    case_cmp.
    + destruct (clear_bit_ok i s Hw ltac:(lia)) as (bm & -> & Hbu). cbn [mbind res_bind].
      pose proof (clear_one _ _ (total_pages s) i Hbu ltac:(lia) (Hu i ltac:(lia))) as Hperm.
      pose proof (clear_length (bitmap s) (total_pages s) ltac:(lia)) as Hcl.
      apply Permutation_length in Hperm. cbn [length] in Hperm.
      destruct Hbu as (Hlen & Hok & Hb). set (s1 := set_counts _ _ _).
      destruct (IH s1 (i + 1) k) as (s' & bm' & fc & Hs' & -> & Hl' & Hw' & Hfc & Hb'); try done; try (cbn [s1 mem_start total_pages set_counts set_bitmap]; lia).
      { unfold mark_inv. cbn [bitmap s1 set_counts set_bitmap total_pages free_count].
        split_and!; [done|lia|rewrite u64_small; lia|]. intros j Hj. rewrite Hb by lia.
        destruct (Z.eqb_spec j i); [lia|]. apply Hu. lia. }
      exists (set_counts (set_bitmap s1 bm') fc (next_free_hint s1)), bm', fc.
      split_and!; try done; [cbn in *; congruence|].
      intros j Hj. rewrite Hb' by done. cbn [bitmap s1 set_counts set_bitmap]. rewrite Hb by lia.
      destruct (Z.eqb_spec j i), (Z.leb_spec (i + 1) j), (Z.ltb_spec j k), (Z.leb_spec i j);
        done || lia || (rewrite ?andb_false_r; done).
    + cbn [mbind res_bind].
      destruct (IH s (i + 1) k) as (s' & bm' & fc & Hs' & -> & Hl' & Hw' & Hfc & Hb'); try done; try lia.
      { split_and!; try done. intros j Hj. apply Hu. lia. }
      exists (set_counts (set_bitmap s bm') fc (next_free_hint s)), bm', fc. split_and!; try done.
      intros j Hj. rewrite Hb' by done. destruct (Z.leb_spec (i + 1) j), (Z.leb_spec i j); done || lia.
Qed.

Lemma full_bitmap (n : nat) (i : Z) : 0 <= i < 64 * Z.of_nat n -> bit_at (replicate n (u64 (Z.lnot 0))) i = true.
Proof.
  intros Hi. unfold bit_at. rewrite lookup_replicate_2 by div_lia.
  change (u64 (Z.lnot 0)) with (Z.ones 64). apply Z.ones_spec_low. div_lia.
Qed.

Lemma full_clear (n : nat) (k : Z) : k <= 64 * Z.of_nat n -> clear_pages (replicate n (u64 (Z.lnot 0))) k = [].
Proof.
  intros Hk. apply elem_of_nil_inv. intros i. rewrite elem_clear. intros [Hi Hf].
  by rewrite full_bitmap in Hf by lia.
Qed.

(** The clear pages of a bitmap whose clear bits form an interval. *)
Lemma clear_interval bm n a b :
  0 <= a -> (forall j, 0 <= j < n -> bit_at bm j = negb ((a <=? j) && (j <? b))) ->
  clear_pages bm n ≡ₚ seqZ a (b `min` n - a).
Proof.
  intros Ha Hb. apply NoDup_Permutation; [apply clear_nodup|apply NoDup_seqZ|].
  intros j. rewrite elem_clear, elem_of_seqZ. split.
  - intros [Hj Hf]. rewrite Hb in Hf by done.
    destruct (Z.leb_spec a j), (Z.ltb_spec j b); simpl in Hf; done || lia.
  - intros Hj. split; [lia|]. rewrite Hb by lia.
    destruct (Z.leb_spec a j), (Z.ltb_spec j b); simpl; done || lia.
Qed.

(** The first address handed to the bitmap: after the kernel and the bitmap. *)
Definition first_usable (ram_size kernel_end : Z) : Z :=
  let bitmap_addr := (kernel_end + 4095) / 4096 * 4096 in
  let bitmap_bytes := (ram_size / 4096 + 63) / 64 * 8 in
  (bitmap_addr + bitmap_bytes + 4095) / 4096 * 4096.

Lemma pmm_init_ok ram_start ram_size kernel_end fb_base fb_size :
  ram_start mod PAGE_SIZE = 0 -> ram_size mod PAGE_SIZE = 0 -> 0 <= ram_start -> 0 < ram_size ->
  ram_start + ram_size < 2 ^ 61 -> ram_start < kernel_end < 2 ^ 60 ->
  0 < fb_base < 2 ^ 60 -> fb_base mod PAGE_SIZE = 0 -> 0 < fb_size < 2 ^ 60 ->
  fb_size mod PAGE_SIZE = 0 -> ram_start <= fb_base ->
  let fb_end := fb_base + fb_size in
  let ram_end := ram_start + ram_size in
  let us := first_usable ram_size kernel_end in
  exists s, init ram_start ram_size kernel_end fb_base fb_size (fresh ba_fresh) = Ok s /\ pinv s /\
    free_frames s ≡ₚ seqZ (us / PAGE_SIZE) ((fb_base `min` ram_end - us) / PAGE_SIZE) ++
                     seqZ (fb_end / PAGE_SIZE) ((ram_end - fb_end) / PAGE_SIZE).
Proof.
  intros Hrs Hrz Hr0 Hz0 Hre Hk Hfb Hfbm Hfs Hfsm Hge fb_end ram_end us. unfold PAGE_SIZE in *.
  unfold init, PAGE_SHIFT. rewrite Z.shiftr_div_pow2 by lia. change (2 ^ 12) with 4096.
  set (total := ram_size / 4096).
  assert (Htot : 0 < total /\ total * 4096 = ram_size) by (unfold total; div_lia).
  rewrite (u64_small (ram_start + ram_size)), (u64_small (total + 63)) by lia.
  set (bsize := (total + 63) / 64).
  assert (Hbs : 0 < bsize /\ total <= 64 * bsize /\ bsize <= total) by (unfold bsize; div_lia).
  rewrite (u64_small (bsize * 8)) by lia. rewrite (BuddySpec.page_align_up_spec kernel_end) by lia.
  rewrite u64_small by div_lia. rewrite BuddySpec.page_align_up_spec by div_lia.
  change ((_ + 4095) / 4096 * 4096) with us.
  assert (Hus : us mod 4096 = 0 /\ ram_start + 4096 <= us < 2 ^ 61).
  { unfold us, first_usable. fold total bsize. div_lia. }
  destruct (Z.eqb_spec fb_base 0); [lia|]. destruct (Z.eqb_spec fb_size 0); [lia|]. cbn [negb].
  rewrite (u64_small (fb_base + fb_size)) by lia. fold fb_end ram_end.
  set (s0 := mkPmm _ _ _ _ _ _ _ _ _ _ _ _ _).
  assert (Hbud : exists s1, init_buddy_region fb_end s0 = Ok s1 /\
    mem_start s1 = ram_start /\ mem_end s1 = ram_end /\ total_pages s1 = total /\
    bitmap_size s1 = bsize /\ next_free_hint s1 = 0 /\
    (if buddy_available s1 then ba_pages (buddy s1) else []) ≡ₚ
      seqZ (fb_end / 4096) ((ram_end - fb_end) / 4096) /\
    (buddy_available s1 = true -> ba_inv (buddy s1) /\ ba_lo (buddy s1) = fb_end /\
       ba_hi (buddy s1) = ram_end /\ buddy_region_start s1 = fb_end /\ buddy_region_end s1 = ram_end)).
  { unfold init_buddy_region. cbn [mem_end s0]. case_cmp.
    - exists s0. split_and!; try done. cbn. rewrite seqZ_nil by (unfold ram_end, fb_end in *; div_lia). done.
    - destruct (ba_init_law fb_end ram_end) as (b & Hb & Hinv & Hl & Hh & Hp);
        unfold PAGE_SIZE; [unfold fb_end in *; lia|unfold ram_end; lia|unfold fb_end; div_lia|unfold ram_end; div_lia|].
      cbn [buddy s0]. change (buddy (fresh ba_fresh)) with ba_fresh. rewrite Hb. cbn [mbind res_bind].
      eexists. split; [done|]. cbn. split_and!; done. }
  destruct Hbud as (s1 & -> & Ems & Eme & Et & Ebs & Enh & Hpages & Hba). cbn [mbind res_bind].
  unfold init_bitmap_region. rewrite Ebs. set (s2 := set_counts _ _ _). clear s0.
  set (i := (us - ram_start) / 4096). set (k := (fb_base - ram_start) / 4096).
  destruct (mark_free_ok (S (Z.to_nat ((fb_base - us) / 4096 + 1))) s2 i k)
    as (s' & bm & fc & Hs' & -> & Hl' & Hw' & Hfc & Hb').
  1-7: unfold PAGE_SIZE; change (mem_start s2) with (mem_start s1);
       change (total_pages s2) with (total_pages s1);
       rewrite ?Ems, ?Et; unfold i, k; try lia; div_lia.
  { unfold mark_inv. cbn [bitmap s2 set_counts set_bitmap total_pages free_count].
    rewrite Et, length_replicate, full_clear by lia.
    split_and!; [by apply Forall_replicate|lia|done|]. intros j Hj. apply full_bitmap.
    unfold i in Hj. div_lia. }
  unfold PAGE_SIZE in Hs'. change (mem_start s2) with (mem_start s1) in Hs'. rewrite Ems in Hs'.
  replace (ram_start + i * 4096) with us in Hs' by (unfold i; div_lia).
  replace (ram_start + k * 4096) with fb_base in Hs' by (unfold k; div_lia).
  eexists. split; [exact Hs'|].
  cbn [bitmap s2 set_counts set_bitmap total_pages] in Hl', Hb', Hfc. rewrite Et in Hb', Hfc.
  rewrite length_replicate in Hl'.
  assert (Hbit : forall j, 0 <= j < total -> bit_at bm j = negb ((i <=? j) && (j <? k))).
  { intros j Hj. rewrite Hb', full_bitmap, andb_true_r by lia. done. }
  assert (Hik : 0 < i /\ 0 <= k) by (unfold i, k; div_lia).
  set (s3 := set_counts (set_bitmap s2 bm) fc (next_free_hint s2)).
  assert (Hf : free_frames s3 = ((fun x => ram_start / 4096 + x) <$> clear_pages bm total) ++
                 if buddy_available s1 then ba_pages (buddy s1) else []).
  { unfold free_frames, bitmap_pages. cbn [s3 s2 set_counts set_bitmap mem_start total_pages bitmap
      buddy_available buddy]. by rewrite Ems, Et. }
  split.
  - split; cbn [s3 s2 set_counts set_bitmap mem_start mem_end total_pages bitmap buddy_available buddy
      bitmap_size next_free_hint free_count buddy_region_start buddy_region_end];
      unfold PAGE_SIZE; rewrite ?Ems, ?Eme, ?Et, ?Ebs, ?Enh.
    + split_and!; [done|done|lia|unfold ram_end; lia|unfold ram_end; lia].
    + rewrite Hl'. split; [done|lia].
    + done.
    + lia.
    + done.
    + rewrite Hbit by lia. by destruct (Z.leb_spec i 0); [lia|].
    + intros Ha. destruct (Hba Ha) as (Hbi & -> & -> & -> & ->). split_and!; try done; try lia.
      intros j Hj Hr. rewrite Hbit by done.
      destruct (Z.ltb_spec j k); [|by rewrite andb_false_r]. exfalso.
      unfold fb_end, k in *. div_lia.
  - rewrite Hf, Hpages. f_equiv. rewrite (clear_interval bm total i k) by (done || lia).
    rewrite fmap_add_seqZ. unfold i, k.
    match goal with |- ?a ≡ₚ ?b => enough (a = b) as -> by done end. f_equal.
    + div_lia.
    + destruct (Z.min_spec fb_base ram_end) as [[? ->]|[? ->]];
        destruct (Z.min_spec ((fb_base - ram_start) / 4096) total) as [[? ->]|[? ->]];
        unfold ram_end in *; div_lia.
Qed.

End Spec.

End PmmSpec.
