(* ===== verification/PmmClaims.v ===== *)
(** * Theorems about the physical memory manager

    Initialisation partitions RAM between the two allocators, allocation and
    freeing move exactly the pages they name, invalid frees change nothing; and
    two ways in which the contiguous allocator falls short of its contract.
    Requests for more than 512 pages can get fewer pages than asked for. *)

From S2P Require Import Prelude Buddy BuddySpec Pmm PmmSpec.

Module PmmClaims.
Import Buddy(PAGE_SIZE, PAGE_SHIFT, MAX_ORDER).
Import Pmm PmmSpec.

Section Claims.
Context {B : Type} {ops : BlockAllocator B} {laws : BlockLaws B}.
Implicit Type s : pmm B.


(** [pmm::free_pages] of pages of RAM that are not free, other than the first
    page of RAM and all on one side of the boundary between the two allocators,
    adds exactly these pages to the free ones, and keeps the count of free
    bitmap pages right. *)
Theorem pmm_free_sound s cpu addr count :
  pinv s -> 0 <= cpu -> 0 < count -> addr mod PAGE_SIZE = 0 ->
  mem_start s < addr -> addr + count * PAGE_SIZE <= mem_end s -> one_side s addr count ->
  (forall p, p ∈ seqZ (addr / PAGE_SIZE) count -> p ∉ free_frames s) ->
  exists s', free_pages cpu addr count s = Ok s' /\ pinv s' /\
    free_frames s' ≡ₚ seqZ (addr / PAGE_SIZE) count ++ free_frames s.
Proof.
  intros Hp Hcpu Hc Ha Hlo Hhi Hs Hd.
  destruct (pmm_free_pages_ok s cpu addr count) as (s' & ? & ? & _ & ?); eauto 10.
Qed.

(** [pmm::init] on fresh state, with page-aligned RAM and framebuffer, makes
    free exactly the pages between the end of the bitmap and the framebuffer
    and those from the end of the framebuffer to the end of RAM, each once. *)
Theorem pmm_init_sound ram_start ram_size kernel_end fb_base fb_size :
  ram_start mod PAGE_SIZE = 0 -> ram_size mod PAGE_SIZE = 0 -> 0 <= ram_start -> 0 < ram_size ->
  ram_start + ram_size < 2 ^ 61 -> ram_start < kernel_end < 2 ^ 60 ->
  0 < fb_base < 2 ^ 60 -> fb_base mod PAGE_SIZE = 0 -> 0 < fb_size < 2 ^ 60 ->
  fb_size mod PAGE_SIZE = 0 -> ram_start <= fb_base ->
  let fb_end := fb_base + fb_size in
  let ram_end := ram_start + ram_size in
  let us := first_usable ram_size kernel_end in
  exists s, init ram_start ram_size kernel_end fb_base fb_size (fresh ba_fresh) = Ok s /\ pinv s /\
    NoDup (free_frames s) /\
    free_frames s ≡ₚ seqZ (us / PAGE_SIZE) ((fb_base `min` ram_end - us) / PAGE_SIZE) ++
                     seqZ (fb_end / PAGE_SIZE) ((ram_end - fb_end) / PAGE_SIZE).
Proof.
  intros ??????????? fb_end ram_end us.
  destruct (pmm_init_ok ram_start ram_size kernel_end fb_base fb_size) as (s & ? & Hp & ?); [done..|].
  exists s. split_and!; [done|done|by apply free_frames_nodup|done].
Qed.

(** A contiguous allocation served by the block allocator is rounded up to a
    power of two, but [free_pages] with the same count gives back the requested
    pages only: the pages of the rounding are free before the allocation and
    lost after the free. *)
Theorem pmm_free_leaks s s1 cpu count addr o :
  pinv s -> 0 <= cpu -> 2 <= count <= 512 -> Buddy.pages_to_order count = Ok o ->
  alloc_pages cpu count s = Ok (s1, addr) -> in_buddy_region s1 addr = true ->
  exists s2, free_pages cpu addr count s1 = Ok s2 /\ pinv s2 /\
    free_frames s ≡ₚ seqZ (addr / PAGE_SIZE + count) (2 ^ o - count) ++ free_frames s2.
Proof.
  intros Hp Hcpu Hc Ho Hal Hin. destruct (alloc_cases s cpu count Hp Hcpu ltac:(lia))
    as (s' & addr' & o' & Hal' & Ho' & Hor & Hfit & Hr).
  rewrite Hal in Hal'. injection Hal' as <- <-. rewrite Ho in Ho'. injection Ho' as <-.
  unfold in_buddy_region in Hin. apply andb_prop in Hin as [Hin Hlt]. apply andb_prop in Hin as [Hav Hge].
  apply Z.leb_le in Hge. pose proof (pi_geo _ Hp) as (_ & H0 & _).
  destruct (Z.eqb_spec addr 0) as [->|Hnz].
  { destruct Hr as [-> _]. destruct (pi_buddy _ Hp Hav). lia. }
  destruct Hr as [Hr|Hr].
  - destruct (block_taken_frames _ _ _ _ Hp Hr) as (Ham & Hlo & Hhi & Hperm).
    destruct Hr as (Hav0 & b & -> & Hp1 & El & Eh & _ & Hbl & Hbh & _).
    destruct (pi_buddy _ Hp Hav0) as (_ & ? & ? & ? & ? & _).
    destruct (pmm_free_pages_ok (set_buddy s b) cpu addr count) as (s2 & Hs2 & Hp2 & _ & Hperm2).
    + done. + done. + lia. + done. + cbn; lia.
    + cbn. unfold PAGE_SIZE in *. lia.
    + unfold one_side. cbn. rewrite Hav0, El, Eh. unfold PAGE_SIZE in *. right. lia.
    + intros p Hpin Hpf. pose proof (free_frames_nodup _ Hp) as Hnd. rewrite Hperm in Hnd.
      apply NoDup_app in Hnd as (_ & Hdis & _). apply (Hdis p); [|done].
      apply elem_of_seqZ in Hpin. apply elem_of_seqZ. lia.
    + exists s2. split_and!; [done|done|]. rewrite Hperm2, Hperm.
      replace (2 ^ o) with (count + (2 ^ o - count)) at 1 by lia. rewrite seqZ_app by lia.
      rewrite <- app_assoc. by rewrite Permutation_app_swap_app.
  - exfalso. destruct Hr as (Hp1 & (E1 & _ & E3 & _ & E5 & E6 & _) & _ & r & Hr & (Hr0 & Hr1 & Hcl) & -> & _).
    rewrite E5 in Hav. destruct (pi_buddy _ Hp Hav) as (_ & _ & _ & _ & _ & Hu).
    rewrite E6 in Hge. specialize (Hu r ltac:(lia) Hge). by rewrite Hcl in Hu by lia.
Qed.

(** On the bitmap's side, freeing an address outside RAM or a page that is
    already free changes nothing but the debug flag of the tracked page. *)
Theorem pmm_free_rejects s cpu addr :
  pinv s -> in_buddy_region s addr = false -> 0 <= addr < 2 ^ 62 ->
  addr < mem_start s \/ mem_end s <= addr \/
    (mem_start s <= addr < mem_end s /\ addr / PAGE_SIZE ∈ bitmap_pages s) ->
  exists flag, free_page cpu addr s = Ok (set_debug s (debug_alloc_count s) flag).
Proof.
  intros Hp Hr Ha Hbad. unfold free_page. rewrite Hr. unfold free_page_unlocked.
  assert (Heta : forall s, s = set_debug s (debug_alloc_count s) (debug_page_allocated s)) by (by intros []).
  destruct (Z.ltb_spec addr (mem_start s)), (Z.leb_spec (mem_end s) addr); cbn [orb];
    try (eexists; rewrite <- Heta; done).
  destruct Hbad as [?|[?|[_ Hfree]]]; [lia..|]. cbn zeta.
  set (s1 := if (_ : bool) then set_debug _ _ _ else s).
  assert (E : bitmap s1 = bitmap s /\ mem_start s1 = mem_start s /\
              exists flag, s1 = set_debug s (debug_alloc_count s) flag)
    by (unfold s1; destruct (_ =? _); eauto).
  destruct E as (Ebm & Ems & flag & Es1). clearbody s1.
  pose proof (pi_geo _ Hp) as (Hal & H1 & Ht & He & Hlt).
  assert (Epg : mem_start s / PAGE_SIZE + addr_to_page s1 addr = addr / PAGE_SIZE).
  { unfold addr_to_page, PAGE_SHIFT. rewrite Ems, Z.shiftr_div_pow2 by lia. unwrap.
    change (2 ^ 12) with 4096. unfold PAGE_SIZE in *. div_lia. }
  rewrite <- Epg in Hfree. apply elem_bitmap_pages in Hfree as [Hrange Hclear].
  rewrite test_bit_ok by (rewrite Ebm; by apply pi_pages). rewrite Ebm, Hclear.
  cbn [mbind res_bind negb]. rewrite Es1. eauto.
Qed.

End Claims.

(** ** Witnesses *)

(** Two megabytes of RAM at 1 MiB, with the framebuffer in the middle. *)
Definition demo_init : res (pmm Buddy.BuddyAllocator) :=
  init 0x100000 0x200000 0x101000 0x200000 0x4000 (fresh ba_fresh).
Definition demo : pmm Buddy.BuddyAllocator :=
  match demo_init with Ok s => s | _ => fresh ba_fresh end.

Lemma pmm_demo_ok :
  demo_init = Ok demo /\ pinv demo /\ free_frames demo ≡ₚ seqZ 258 254 ++ seqZ 516 252.
Proof.
  destruct (pmm_init_ok (B := Buddy.BuddyAllocator) 0x100000 0x200000 0x101000 0x200000 0x4000)
    as (s & Hs & Hp & Hf); [done..|].
  assert (Hi : demo_init = Ok s) by (unfold demo_init; exact Hs).
  assert (demo = s) as -> by (unfold demo; by rewrite Hi).
  split; [exact Hi|]. split; [exact Hp|exact Hf].
Qed.

Lemma pmm_init_sound_witness :
  exists s, demo_init = Ok s /\ pinv s /\ NoDup (free_frames s) /\
    free_frames s ≡ₚ seqZ 258 254 ++ seqZ 516 252.
Proof.
  destruct (pmm_init_sound (B := Buddy.BuddyAllocator) 0x100000 0x200000 0x101000 0x200000 0x4000)
    as (s & Hs & Hp & Hn & Hf); [done..|].
  exists s. split; [unfold demo_init; exact Hs|]. split; [exact Hp|]. split; [exact Hn|exact Hf].
Defined.


Lemma pmm_free_sound_witness :
  exists s', free_pages 0 0x200000 4 demo = Ok s' /\ pinv s' /\
    free_frames s' ≡ₚ seqZ 512 4 ++ free_frames demo.
Proof.
  apply (pmm_free_sound demo 0 0x200000 4);
    [apply pmm_demo_ok|lia|lia|done|by vm_compute|by vm_compute|vm_compute; by left|].
  intros p Hp. destruct pmm_demo_ok as (_ & _ & Hf). rewrite Hf, elem_of_app, !elem_of_seqZ.
  apply elem_of_seqZ in Hp. change (0x200000 / PAGE_SIZE) with 512 in Hp. lia.
Defined.

Definition demo3 : pmm Buddy.BuddyAllocator :=
  match alloc_pages 0 3 demo with Ok (s, _) => s | _ => demo end.

(** Three pages are allocated as a block of four; the fourth page is lost. *)
Lemma pmm_free_leaks_witness :
  exists addr s2, alloc_pages 0 3 demo = Ok (demo3, addr) /\
    free_pages 0 addr 3 demo3 = Ok s2 /\ pinv s2 /\
    free_frames demo ≡ₚ seqZ (addr / PAGE_SIZE + 3) 1 ++ free_frames s2.
Proof.
  destruct (pmm_free_leaks demo demo3 0 3 0x204000 2) as (s2 & H1 & H2 & H3);
    [apply pmm_demo_ok|lia|lia|by vm_compute|by vm_compute|by vm_compute|].
  exists 0x204000, s2. split; [by vm_compute|].
  split; [exact H1|]. split; [exact H2|exact H3].
Defined.

Lemma pmm_free_rejects_witness :
  exists flag, free_page 0 0x105000 demo = Ok (set_debug demo (debug_alloc_count demo) flag).
Proof.
  apply (pmm_free_rejects demo 0 0x105000); [apply pmm_demo_ok|by vm_compute|done|].
  right; right. split; [by vm_compute|]. destruct pmm_demo_ok as (_ & Hp & _).
  change (0x105000 / PAGE_SIZE) with (mem_start demo / PAGE_SIZE + 5).
  apply elem_bitmap_pages. by vm_compute.
Defined.

(** One megabyte of RAM without block allocator, after an allocation of 70 pages
    and its release. *)
Definition scan0 : pmm Buddy.BuddyAllocator :=
  match init 0x100000 0x100000 0x101000 0x200000 0x1000 (fresh Buddy.fresh) with
  | Ok s => s | _ => fresh Buddy.fresh end.
Definition scan1 : pmm Buddy.BuddyAllocator :=
  match alloc_pages 0 70 scan0 with Ok (s, _) => s | _ => scan0 end.
Definition scan2 : pmm Buddy.BuddyAllocator :=
  match free_pages 0 0x102000 70 scan1 with Ok s => s | _ => scan1 end.

(** The scan of [alloc_pages] starts at the hinted word and does not join the
    two ends of its circuit: with 254 contiguous free pages (2 to 255 of RAM)
    left after one allocation of 70 pages and its release, a request for 200
    contiguous pages fails. *)
Theorem alloc_pages_misses_run :
  init 0x100000 0x100000 0x101000 0x200000 0x1000 (fresh Buddy.fresh) = Ok scan0 /\
  alloc_pages 0 70 scan0 = Ok (scan1, 0x102000) /\ free_pages 0 0x102000 70 scan1 = Ok scan2 /\
  clear_pages (bitmap scan2) (total_pages scan2) = seqZ 2 254 /\
  alloc_pages 0 200 scan2 = Ok (scan2, 0).
Proof. do 4 (split; [vm_compute; reflexivity|]). vm_compute. reflexivity. Qed.

End PmmClaims.
