(* ===== verification/Heap.v ===== *)
(** * The scheduler's task heap

    Models [src/kernel/sched/heap.hpp].  A task pointer is the identifier of the
    task, an integer; a null pointer is [None].  The heap array holds task
    identifiers, and [heap_index], a field the heap writes in the tasks
    themselves, is a store from identifiers to indices that the heaps share.
    The key function of a heap ([cfs_key] or [deadline_key], which read a task
    field) is a section variable. *)

From stdpp Require Import functions.
From S2P Require Import Prelude.

Module Heap.

(** [HEAP_MAX_SIZE = task::MAX_TASKS]; [NOT_IN_HEAP] is [static_cast<u32>(-1)]. *)
Definition HEAP_MAX_SIZE : Z := 256.
Definition NOT_IN_HEAP : Z := 4294967295.

Record TaskHeap := mkHeap { nodes : list Z; size : Z; heap_index : Z -> Z }.

(** The key a null task has. *)
Definition key_of (field : Z -> Z) (t : option Z) : Z :=
  match t with Some t => field t | None => 18446744073709551615 end.
(** [cfs_key] and [deadline_key], the fields being given as functions of the task. *)
Definition cfs_key (vruntime : Z -> Z) (t : option Z) : Z := key_of vruntime t.
Definition deadline_key (dl_abs_deadline : Z -> Z) (t : option Z) : Z := key_of dl_abs_deadline t.

Definition heap_init (h : TaskHeap) : TaskHeap := mkHeap (nodes h) 0 (heap_index h).
Definition heap_empty (h : TaskHeap) : bool := size h =? 0.
Definition heap_peek (h : TaskHeap) : res (option Z) :=
  if 0 <? size h then t ← rd (nodes h) 0; Ok (Some t) else Ok None.

Section Heap.
Variable key : Z -> Z.

Definition set_node (i t : Z) (h : TaskHeap) : res TaskHeap :=
  ns ← wr (nodes h) i t; Ok (mkHeap ns (size h) (heap_index h)).
Definition set_index (t i : Z) (h : TaskHeap) : TaskHeap :=
  mkHeap (nodes h) (size h) (<[t := i]> (heap_index h)).
Definition set_size (n : Z) (h : TaskHeap) : TaskHeap := mkHeap (nodes h) n (heap_index h).

(** Swaps two entries and updates the indices stored in the two tasks. *)
Definition swap_nodes (i j : Z) (h : TaskHeap) : res TaskHeap :=
  tmp ← rd (nodes h) i;
  nj ← rd (nodes h) j;
  h ← set_node i nj h;
  h ← set_node j tmp h;
  ni ← rd (nodes h) i;
  let h := set_index ni i h in
  nj ← rd (nodes h) j;
  Ok (set_index nj j h).

(** The index decreases at every turn. *)
Fixpoint sift_up_loop (fuel : nat) (idx : Z) (h : TaskHeap) : res TaskHeap :=
  match fuel with
  | O => Diverge
  | S fuel =>
      if 0 <? idx then
        let parent := (idx - 1) / 2 in
        ni ← rd (nodes h) idx;
        np ← rd (nodes h) parent;
        if key np <=? key ni then Ok h
        else h ← swap_nodes idx parent h; sift_up_loop fuel parent h
      else Ok h
  end.
Definition heap_sift_up (idx : Z) (h : TaskHeap) : res TaskHeap :=
  sift_up_loop (S (Z.to_nat idx)) idx h.

(** The entry among [smallest] and [child] with the smaller key. *)
Definition smaller (child smallest : Z) (h : TaskHeap) : res Z :=
  if child <? size h then
    ns ← rd (nodes h) smallest;
    nc ← rd (nodes h) child;
    if key nc <? key ns then Ok child else Ok smallest
  else Ok smallest.

(** The index grows at every turn. *)
Fixpoint sift_down_loop (fuel : nat) (idx : Z) (h : TaskHeap) : res TaskHeap :=
  match fuel with
  | O => Diverge
  | S fuel =>
      let left := 2 * idx + 1 in
      let right := 2 * idx + 2 in
      smallest ← smaller left idx h;
      smallest ← smaller right smallest h;
      if smallest =? idx then Ok h
      else h ← swap_nodes idx smallest h; sift_down_loop fuel smallest h
  end.
Definition heap_sift_down (idx : Z) (h : TaskHeap) : res TaskHeap :=
  sift_down_loop (S (Z.to_nat (size h - idx))) idx h.

Definition heap_insert (t : option Z) (h : TaskHeap) : res (TaskHeap * bool) :=
  match t with
  | None => Ok (h, false)
  | Some t =>
      if HEAP_MAX_SIZE <=? size h then Ok (h, false)
      else if negb (heap_index h t =? NOT_IN_HEAP) then Ok (h, false)
      else
        let idx := size h in
        let h := set_size (u32 (size h + 1)) h in
        h ← set_node idx t h;
        let h := set_index t idx h in
        h ← heap_sift_up idx h;
        Ok (h, true)
  end.

Definition heap_extract_min (h : TaskHeap) : res (TaskHeap * option Z) :=
  if size h =? 0 then Ok (h, None)
  else
    min ← rd (nodes h) 0;
    let h := set_index min NOT_IN_HEAP h in
    let h := set_size (size h - 1) h in
    h ← (if 0 <? size h then
           last ← rd (nodes h) (size h);
           h ← set_node 0 last h;
           let h := set_index last 0 h in
           heap_sift_down 0 h
         else Ok h);
    Ok (h, Some min).

Definition heap_remove (t : option Z) (h : TaskHeap) : res (TaskHeap * bool) :=
  match t with
  | None => Ok (h, false)
  | Some t =>
      if size h <=? heap_index h t then Ok (h, false)
      else
        let idx := heap_index h t in
        nt ← rd (nodes h) idx;
        if negb (nt =? t) then Ok (h, false)
        else
          let h := set_index t NOT_IN_HEAP h in
          let h := set_size (size h - 1) h in
          h ← (if idx <? size h then
                 last ← rd (nodes h) (size h);
                 h ← set_node idx last h;
                 let h := set_index last idx h in
                 let old_key := key t in
                 let new_key := key last in
                 if new_key <? old_key then heap_sift_up idx h else heap_sift_down idx h
               else Ok h);
          Ok (h, true)
  end.

Definition heap_update (t : option Z) (old_key : Z) (h : TaskHeap) : res TaskHeap :=
  match t with
  | None => Ok h
  | Some t =>
      if size h <=? heap_index h t then Ok h
      else
        nt ← rd (nodes h) (heap_index h t);
        if negb (nt =? t) then Ok h
        else
          let new_key := key t in
          if new_key <? old_key then heap_sift_up (heap_index h t) h
          else if old_key <? new_key then heap_sift_down (heap_index h t) h
          else Ok h
  end.

End Heap.

End Heap.
