(* ===== verification/HeapSpec.v ===== *)
(** * Correctness of the task heap

    The heap order is stated on the sequence of keys by position; the two
    sifting loops restore it around one position, and every operation keeps the
    link between the array and the index stored in each task. *)

From stdpp Require Import functions.
From S2P Require Import Prelude Heap.

Module HeapSpec.
Import Heap.

(** ** Heap order by position *)

Definition par (i : Z) : Z := (i - 1) / 2.

Lemma par_lt i : 0 < i -> 0 <= par i < i.
Proof. unfold par. intros. div_lia. Qed.
Lemma par_child i p : 0 <= p -> 0 < i -> par i = p <-> i = 2 * p + 1 \/ i = 2 * p + 2.
Proof. unfold par. intros. split; intros; div_lia. Qed.

(** [f] is the key by position, [n] the size. *)
Definition ordered (n : Z) (f : Z -> Z) : Prop := forall i, 0 < i < n -> f (par i) <= f i.

(** Ordered except around position [idx], whose parent is below its children. *)
Definition hole (n : Z) (f : Z -> Z) (idx : Z) : Prop :=
  (forall i, 0 < i < n -> i <> idx -> par i <> idx -> f (par i) <= f i) /\
  (0 < idx -> forall c, 0 < c < n -> par c = idx -> f (par idx) <= f c).

Definition up_pre (n : Z) (f : Z -> Z) (idx : Z) : Prop :=
  hole n f idx /\ forall c, 0 < c < n -> par c = idx -> f idx <= f c.
Definition down_pre (n : Z) (f : Z -> Z) (idx : Z) : Prop :=
  hole n f idx /\ (0 < idx -> f (par idx) <= f idx).

(** [g] is [f] with the values at [i] and [j] exchanged. *)
Definition swapped {A} (f g : Z -> A) (i j : Z) : Prop :=
  g i = f j /\ g j = f i /\ forall x, 0 <= x -> x <> i -> x <> j -> g x = f x.

Lemma up_done n f idx : up_pre n f idx -> (0 < idx -> f (par idx) <= f idx) -> ordered n f.
Proof.
  intros [[Ho _] Hc] Hp i Hi. destruct (decide (i = idx)) as [->|]; [apply Hp; lia|].
  destruct (decide (par i = idx)) as [E|]; [rewrite E; by apply Hc|by apply Ho].
Qed.

Lemma down_done n f idx :
  down_pre n f idx -> (forall c, 0 < c < n -> par c = idx -> f idx <= f c) -> ordered n f.
Proof. intros [Hh Hp] Hc. apply (up_done n f idx); [by split|done]. Qed.

Lemma up_step n f g idx :
  up_pre n f idx -> 0 < idx < n -> f idx < f (par idx) -> swapped f g idx (par idx) ->
  up_pre n g (par idx).
Proof.
  intros [[Ho Hs] Hc] Hi Hlt (Gi & Gp & Gx). pose proof (par_lt idx ltac:(lia)) as Hp.
  set (p := par idx) in *.
  assert (Hchild : forall c, 0 < c < n -> par c = p -> c <> idx -> f p <= f c).
  { intros c Hcn Ec Hne. rewrite <- Ec. apply Ho; [done|done|lia]. }
  split; [split|].
  - intros i Hin Hni Hnp. pose proof (par_lt i ltac:(lia)).
    destruct (decide (i = idx)) as [->|Hne]; [done|].
    rewrite (Gx i) by lia. destruct (decide (par i = idx)) as [E|E].
    + rewrite E, Gi. apply Hs; [lia|lia|done].
    + rewrite Gx by lia. by apply Ho.
  - intros Hp0 c Hcn Ec. pose proof (par_lt p Hp0).
    assert (Hpp : f (par p) <= f p) by (apply Ho; lia).
    rewrite (Gx (par p)) by lia. destruct (decide (c = idx)) as [->|Hne]; [by rewrite Gi|].
    pose proof (par_lt c ltac:(lia)). rewrite (Gx c) by lia.
    pose proof (Hchild c Hcn Ec Hne). lia.
  - intros c Hcn Ec. rewrite Gp. destruct (decide (c = idx)) as [->|Hne]; [rewrite Gi; lia|].
    pose proof (par_lt c ltac:(lia)). rewrite (Gx c) by lia. pose proof (Hchild c Hcn Ec Hne). lia.
Qed.

Lemma down_step n f g idx m :
  down_pre n f idx -> 0 <= idx -> 0 < m < n -> par m = idx -> f m < f idx ->
  (forall c, 0 < c < n -> par c = idx -> f m <= f c) -> swapped f g idx m ->
  down_pre n g m.
Proof.
  intros [[Ho Hs] Hp] Hi Hm Em Hlt Hmin (Gi & Gm & Gx).
  pose proof (par_lt m ltac:(lia)) as Hpm. split; [split|].
  - intros i Hin Hni Hnp. pose proof (par_lt i ltac:(lia)).
    destruct (decide (i = idx)) as [->|Hne].
    + rewrite Gi, Gx by lia. by apply Hs; [lia| |].
    + rewrite (Gx i) by lia. destruct (decide (par i = idx)) as [E|E].
      * rewrite E, Gi. by apply Hmin.
      * rewrite Gx by lia. by apply Ho.
  - intros _ c Hcn Ec. pose proof (par_lt c ltac:(lia)). rewrite Em, Gi, (Gx c) by lia.
    rewrite <- Ec. apply Ho; lia.
  - intros _. rewrite Em, Gi, Gm. lia.
Qed.

(** ** The heap *)

(** The task at position [i]. *)
Definition nd (h : TaskHeap) (i : Z) : Z := default 0 (nodes h !! Z.to_nat i).

(** Each task in the heap stores its position. *)
Record hwf (h : TaskHeap) : Prop := {
  hw_length : length (nodes h) = Z.to_nat HEAP_MAX_SIZE;
  hw_size : 0 <= size h <= HEAP_MAX_SIZE;
  hw_index : forall i, 0 <= i < size h -> heap_index h (nd h i) = i
}.

Definition contents (h : TaskHeap) : list Z := take (Z.to_nat (size h)) (nodes h).

(** The operations leave alone the index of the tasks outside the heap. *)
Definition moves (h h' : TaskHeap) : Prop :=
  hwf h' /\ size h' = size h /\ contents h' ≡ₚ contents h /\
  forall t, t ∉ contents h -> heap_index h' t = heap_index h t.

Lemma moves_refl h : hwf h -> moves h h.
Proof. intros Hw. unfold moves. split; [done|]. by split_and!. Qed.

Lemma moves_trans h1 h2 h3 : moves h1 h2 -> moves h2 h3 -> moves h1 h3.
Proof.
  intros (_ & E1 & P1 & I1) (W & E2 & P2 & I2).
  split_and!; [done|congruence|by rewrite P2|].
  intros t Ht. rewrite I2 by (by rewrite P1). by apply I1.
Qed.

Lemma rd_nd h i : hwf h -> 0 <= i < HEAP_MAX_SIZE -> rd (nodes h) i = Ok (nd h i).
Proof.
  intros Hw Hi. destruct (lookup_lt_is_Some_2 (nodes h) (Z.to_nat i)) as [t Ht].
  { rewrite (hw_length _ Hw). unfold HEAP_MAX_SIZE in *. lia. }
  rewrite (rd_Z _ _ t) by (done || lia). unfold nd. by rewrite Ht.
Qed.

Lemma elem_contents h t : hwf h -> t ∈ contents h <-> exists i, 0 <= i < size h /\ nd h i = t.
Proof.
  intros Hw. unfold contents. rewrite elem_of_take. pose proof (hw_size _ Hw).
  unfold HEAP_MAX_SIZE in *. split.
  - intros (i & Hi & Hlt). exists (Z.of_nat i). split; [lia|]. unfold nd. by rewrite Nat2Z.id, Hi.
  - intros (i & Hi & <-). exists (Z.to_nat i). split; [|lia]. unfold nd.
    destruct (lookup_lt_is_Some_2 (nodes h) (Z.to_nat i)) as [t Ht]; [|by rewrite Ht].
    rewrite (hw_length _ Hw). unfold HEAP_MAX_SIZE. lia.
Qed.

Lemma nd_inj h i j : hwf h -> 0 <= i < size h -> 0 <= j < size h -> nd h i = nd h j -> i = j.
Proof. intros Hw Hi Hj E. rewrite <- (hw_index _ Hw i), <- (hw_index _ Hw j) by done. by rewrite E. Qed.

Lemma contents_nodup h : hwf h -> NoDup (contents h).
Proof.
  intros Hw. apply NoDup_alt. intros i j t Hi Hj. unfold contents in *.
  apply lookup_take_Some in Hi as [Hi Hil], Hj as [Hj Hjl]. pose proof (hw_size _ Hw).
  apply Nat2Z.inj, (nd_inj h); [done|lia|lia|]. unfold nd. by rewrite !Nat2Z.id, Hi, Hj.
Qed.

Lemma nd_insert ns n hi i t x :
  (Z.to_nat i < length ns)%nat -> 0 <= i -> 0 <= x ->
  nd (mkHeap (<[Z.to_nat i := t]> ns) n hi) x = if x =? i then t else nd (mkHeap ns n hi) x.
Proof.
  intros Hl Hi Hx. unfold nd. cbn [nodes]. destruct (Z.eqb_spec x i) as [->|].
  - by rewrite list_lookup_insert_eq.
  - by rewrite list_lookup_insert_ne by lia.
Qed.

Lemma swap_ok h i j :
  hwf h -> 0 <= i < size h -> 0 <= j < size h -> i <> j ->
  exists h', swap_nodes i j h = Ok h' /\ moves h h' /\ swapped (nd h) (nd h') i j.
Proof.
  intros Hw Hi Hj Hne. pose proof (hw_size _ Hw) as Hs. pose proof (hw_length _ Hw) as Hl.
  unfold HEAP_MAX_SIZE in *. unfold swap_nodes, set_node, set_index.
  rewrite !rd_nd by (done || unfold HEAP_MAX_SIZE; lia). cbn [mbind res_bind].
  rewrite wr_Z by lia. cbn [mbind res_bind nodes size heap_index].
  rewrite wr_Z by (rewrite length_insert; lia). cbn [mbind res_bind nodes size heap_index].
  set (ns := <[Z.to_nat j := _]> _).
  assert (Hns : forall x, 0 <= x -> forall n hi, nd (mkHeap ns n hi) x =
            if x =? j then nd h i else if x =? i then nd h j else nd h x).
  { intros x Hx n hi. unfold ns. rewrite !nd_insert by (rewrite ?length_insert; lia). done. }
  assert (Hrd : forall x, 0 <= x < 256 -> rd ns x = Ok (if x =? j then nd h i else if x =? i then nd h j else nd h x)).
  { intros x Hx. rewrite <- (Hns x ltac:(lia) 0 (heap_index h)).
    destruct (lookup_lt_is_Some_2 ns (Z.to_nat x)) as [t Ht].
    { unfold ns. rewrite !length_insert. lia. }
    rewrite (rd_Z _ _ t) by (done || lia). unfold nd. cbn [nodes]. by rewrite Ht. }
  rewrite !Hrd by lia. cbn [mbind res_bind]. rewrite Z.eqb_refl.
  destruct (Z.eqb_spec i j); [done|]. rewrite Z.eqb_refl.
  eexists. split; [done|]. set (h' := mkHeap _ _ _).
  assert (Hnd : forall x, 0 <= x -> nd h' x = if x =? j then nd h i else if x =? i then nd h j else nd h x)
    by (intros x Hx; by apply Hns).
  assert (Hw' : hwf h').
  { split; [unfold h', ns; cbn; rewrite !length_insert; done|done|]. intros x Hx.
    cbn [heap_index h']. rewrite Hnd by lia. cbn [size h'] in Hx.
    destruct (Z.eqb_spec x j) as [->|]; [by rewrite fn_lookup_insert|].
    destruct (Z.eqb_spec x i) as [->|].
    - rewrite fn_lookup_insert_ne, fn_lookup_insert; [done|]. intros E.
      apply nd_inj in E; [done|done|lia|lia].
    - rewrite !fn_lookup_insert_ne; [by apply Hw| |]; intros E; apply nd_inj in E; done || lia. }
  split; [split_and!|].
  - done.
  - done.
  - apply NoDup_Permutation; [by apply contents_nodup..|]. intros t. rewrite !elem_contents by done.
    split; intros (x & Hx & <-); cbn [size h'] in Hx.
    + rewrite Hnd by lia. repeat case_cmp; eauto.
    + destruct (decide (x = i)) as [->|]; [exists j|destruct (decide (x = j)) as [->|]; [exists i|exists x]].
      all: split; [done|]; rewrite Hnd by lia; repeat case_cmp.
  - intros t Ht. cbn [heap_index h']. rewrite !fn_lookup_insert_ne; [done|..].
    all: intros <-; apply Ht, elem_contents; eauto.
  - split_and!; [rewrite Hnd by lia..|].
    + by destruct (Z.eqb_spec i j); [|rewrite Z.eqb_refl].
    + by rewrite Z.eqb_refl.
    + intros x Hx Hxi Hxj. rewrite Hnd by lia. by destruct (Z.eqb_spec x j), (Z.eqb_spec x i).
Qed.

Section Spec.
Variable key : Z -> Z.

(** The key at position [i]. *)
Definition kf (h : TaskHeap) (i : Z) : Z := key (nd h i).

Lemma swapped_kf h h' i j : swapped (nd h) (nd h') i j -> swapped (kf h) (kf h') i j.
Proof. intros (H1 & H2 & H3). unfold kf. split_and!; [by rewrite H1|by rewrite H2|].
  intros x Hx Hi Hj. by rewrite H3. Qed.

Lemma sift_up_ok fuel : forall idx h,
  hwf h -> 0 <= idx < size h -> idx < Z.of_nat fuel -> up_pre (size h) (kf h) idx ->
  exists h', sift_up_loop key fuel idx h = Ok h' /\ moves h h' /\ ordered (size h') (kf h').
Proof.
  induction fuel as [|fuel IH]; intros idx h Hw Hi Hf Hp; [lia|]. cbn [sift_up_loop].
  pose proof (hw_size _ Hw) as Hs. fold (par idx).
  destruct (Z.ltb_spec 0 idx).
  2:{ exists h. split_and!; [done|by apply moves_refl|]. apply (up_done _ _ idx); [done|lia]. }
  pose proof (par_lt idx ltac:(lia)). rewrite !rd_nd by (done || lia). cbn [mbind res_bind].
  fold (kf h idx) (kf h (par idx)). destruct (Z.leb_spec (kf h (par idx)) (kf h idx)).
  { exists h. split_and!; [done|by apply moves_refl|]. by apply (up_done _ _ idx). }
  destruct (swap_ok h idx (par idx)) as (h1 & -> & Hm & Hsw); [done|lia|lia|lia|].
  cbn [mbind res_bind]. pose proof Hm as (Hw1 & E1 & _).
  destruct (IH (par idx) h1) as (h' & -> & Hm' & Ho); [done|lia|lia| |].
  { rewrite E1. eapply up_step; [done|lia|done|]. by apply swapped_kf. }
  exists h'. split_and!; [done|by eapply moves_trans|done].
Qed.

Lemma smaller_ok h child s :
  hwf h -> 0 <= s < size h -> 0 <= child ->
  exists r, smaller key child s h = Ok r /\ (r = s \/ (r = child /\ child < size h /\ kf h r < kf h s)) /\
    kf h r <= kf h s /\ (child < size h -> kf h r <= kf h child).
Proof.
  intros Hw Hs Hc. pose proof (hw_size _ Hw). unfold smaller. case_cmp.
  2:{ exists s. split_and!; [done|by left|lia|lia]. }
  rewrite !rd_nd by (done || lia). cbn [mbind res_bind]. fold (kf h child) (kf h s).
  destruct (Z.ltb_spec (kf h child) (kf h s)).
  - exists child. split_and!; [done|by right|lia|lia].
  - exists s. split_and!; [done|by left|lia|lia].
Qed.

Lemma sift_down_ok fuel : forall idx h,
  hwf h -> 0 <= idx < size h -> size h - idx < Z.of_nat fuel -> down_pre (size h) (kf h) idx ->
  exists h', sift_down_loop key fuel idx h = Ok h' /\ moves h h' /\ ordered (size h') (kf h').
Proof.
  induction fuel as [|fuel IH]; intros idx h Hw Hi Hf Hp; [lia|]. cbn [sift_down_loop].
  destruct (smaller_ok h (2 * idx + 1) idx Hw Hi ltac:(lia)) as (s1 & -> & Hs1 & Hle1 & Hl1).
  cbn [mbind res_bind].
  destruct (smaller_ok h (2 * idx + 2) s1 Hw) as (s2 & -> & Hs2 & Hle2 & Hl2); [lia|lia|].
  cbn [mbind res_bind].
  assert (Hmin : forall c, 0 < c < size h -> par c = idx -> kf h s2 <= kf h c).
  { intros c Hc Ec. apply par_child in Ec as [-> | ->]; [| |lia|lia].
    - specialize (Hl1 ltac:(lia)). lia.
    - apply Hl2. lia. }
  destruct (Z.eqb_spec s2 idx) as [->|Hne].
  { exists h. split_and!; [done|by apply moves_refl|]. by eapply down_done. }
  assert (Hs : 0 < s2 < size h /\ par s2 = idx /\ kf h s2 < kf h idx /\ idx < s2).
  { rewrite par_child by lia. lia. }
  destruct (swap_ok h idx s2) as (h1 & -> & Hm & Hsw); [done|lia|lia|lia|].
  cbn [mbind res_bind]. pose proof Hm as (Hw1 & E1 & _).
  destruct (IH s2 h1) as (h' & -> & Hm' & Ho); [done|lia|lia| |].
  { rewrite E1. eapply down_step; [done|lia|lia|lia|lia|done|]. by apply swapped_kf. }
  exists h'. split_and!; [done|by eapply moves_trans|done].
Qed.

Lemma heap_min h : hwf h -> ordered (size h) (kf h) -> forall t, t ∈ contents h -> kf h 0 <= key t.
Proof.
  intros Hw Ho t. rewrite elem_contents by done. intros (i & Hi & <-). fold (kf h i).
  cut (forall n : nat, forall i, i < Z.of_nat n -> 0 <= i < size h -> kf h 0 <= kf h i).
  { intros H. apply (H (S (Z.to_nat i))); lia. }
  clear i Hi. induction n as [|n IH]; intros i Hn Hi; [lia|].
  destruct (decide (i = 0)) as [->|]; [lia|]. pose proof (par_lt i ltac:(lia)).
  specialize (IH (par i) ltac:(lia) ltac:(lia)). specialize (Ho i ltac:(lia)). lia.
Qed.

(** [h1] is [h] without the task [t] that was at position [idx]: the last task
    took its place, unless it was the last itself. *)
Definition dropped (h h1 : TaskHeap) (t idx : Z) : Prop :=
  hwf h1 /\ size h1 = size h - 1 /\ contents h ≡ₚ t :: contents h1 /\
  heap_index h1 t = NOT_IN_HEAP /\
  (forall u, u ∉ contents h -> heap_index h1 u = heap_index h u) /\
  forall x, 0 <= x < size h1 -> nd h1 x = if x =? idx then nd h (size h - 1) else nd h x.

Lemma dropped_intro h h1 idx :
  hwf h -> 0 <= idx < size h -> length (nodes h1) = length (nodes h) -> size h1 = size h - 1 ->
  (forall x, 0 <= x < size h1 -> nd h1 x = if x =? idx then nd h (size h - 1) else nd h x) ->
  (forall x, 0 <= x < size h1 -> heap_index h1 (nd h1 x) = x) ->
  heap_index h1 (nd h idx) = NOT_IN_HEAP ->
  (forall u, u ∉ contents h -> heap_index h1 u = heap_index h u) ->
  dropped h h1 (nd h idx) idx.
Proof.
  intros Hw Hi Hl Hs Hnd Hix Ht Hfr. pose proof (hw_size _ Hw) as Hsz.
  assert (Hw1 : hwf h1) by (split; [rewrite Hl; apply Hw|lia|done]).
  split_and!; try done. apply NoDup_Permutation; [by apply contents_nodup| |].
  - apply NoDup_cons_2; [|by apply contents_nodup]. rewrite elem_contents by done.
    intros (x & Hx & E). specialize (Hix x Hx). rewrite E, Ht in Hix.
    unfold NOT_IN_HEAP, HEAP_MAX_SIZE in *. lia.
  - intros u. rewrite elem_of_cons, !elem_contents by done. split.
    + intros (x & Hx & <-). destruct (decide (x = idx)) as [->|]; [by left|right].
      destruct (decide (x = size h - 1)) as [->|].
      * exists idx. split; [lia|]. rewrite Hnd by lia. by rewrite Z.eqb_refl.
      * exists x. split; [lia|]. rewrite Hnd by lia. by destruct (Z.eqb_spec x idx).
    + intros [->|(x & Hx & <-)]; [by exists idx|]. rewrite Hnd by done.
      case_cmp; [exists (size h - 1)|exists x]; (split; [lia|done]).
Qed.

(** The last task takes the place of the one at [idx]. *)
Lemma replace_ok h idx :
  hwf h -> 0 <= idx < size h - 1 ->
  let t := nd h idx in
  let h0 := set_size (size h - 1) (set_index t NOT_IN_HEAP h) in
  let last := nd h (size h - 1) in
  rd (nodes h0) (size h - 1) = Ok last /\
  exists h1, set_node idx last h0 = Ok h1 /\ dropped h (set_index last idx h1) t idx.
Proof.
  intros Hw Hi t h0 last. pose proof (hw_size _ Hw). pose proof (hw_length _ Hw) as Hl.
  unfold HEAP_MAX_SIZE in *. split; [apply (rd_nd h); [done|unfold HEAP_MAX_SIZE; lia]|].
  unfold set_node. rewrite wr_Z by (cbn; lia). cbn [mbind res_bind]. eexists. split; [done|].
  set (h1 := set_index _ _ _).
  assert (Hnd : forall x, 0 <= x -> nd h1 x = if x =? idx then last else nd h x).
  { intros x Hx. unfold h1, set_index. cbn [nodes size heap_index h0 set_size].
    change (nd h x) with (nd (mkHeap (nodes h) (size h - 1) (heap_index h)) x).
    rewrite <- nd_insert by (cbn; lia). done. }
  apply dropped_intro; [done|lia|cbn; by rewrite length_insert|done|..].
  - intros x Hx. apply Hnd. lia.
  - intros x Hx. cbn [size h1 set_index h0 set_size] in Hx. rewrite Hnd by lia.
    cbn [heap_index h1 set_index h0 set_size]. case_cmp; [subst; by rewrite fn_lookup_insert|].
    rewrite !fn_lookup_insert_ne; [by apply Hw; lia| |].
    + intros E. apply nd_inj in E; [done|done|lia|lia].
    + intros E. apply nd_inj in E; done || lia.
  - cbn [heap_index h1 set_index h0 set_size]. rewrite fn_lookup_insert_ne, fn_lookup_insert; [done|].
    intros E. apply nd_inj in E; done || lia.
  - intros u Hu. cbn [heap_index h1 set_index h0 set_size].
    rewrite !fn_lookup_insert_ne; [done|..]; intros <-; apply Hu, elem_contents; try done.
    + exists idx. split; [lia|done].
    + exists (size h - 1). split; [lia|done].
Qed.

Lemma shrink_ok h :
  hwf h -> 0 < size h ->
  dropped h (set_size (size h - 1) (set_index (nd h (size h - 1)) NOT_IN_HEAP h))
    (nd h (size h - 1)) (size h - 1).
Proof.
  intros Hw Hs. apply dropped_intro; [done|lia|done|done|..]; cbn [size set_size set_index heap_index].
  - intros x Hx. by destruct (Z.eqb_spec x (size h - 1)); [lia|].
  - intros x Hx. change (nd _ x) with (nd h x) at 1. rewrite fn_lookup_insert_ne; [by apply Hw; lia|].
    intros E. apply nd_inj in E; done || lia.
  - by rewrite fn_lookup_insert.
  - intros u Hu. rewrite fn_lookup_insert_ne; [done|]. intros <-. apply Hu, elem_contents; [done|].
    exists (size h - 1). split; [lia|done].
Qed.

Lemma dropped_moves h h1 h2 t idx :
  dropped h h1 t idx -> moves h1 h2 ->
  hwf h2 /\ contents h ≡ₚ t :: contents h2 /\ heap_index h2 t = NOT_IN_HEAP /\
  forall u, u ∉ contents h -> heap_index h2 u = heap_index h u.
Proof.
  intros (Hw1 & Es & Hc & Hi & Hfr & _) (Hw2 & _ & Hc2 & Hi2). split_and!; [done|by rewrite Hc2| |].
  2:{ intros u Hu. rewrite Hi2, Hfr; [done|done|]. rewrite Hc in Hu. by apply not_elem_of_cons in Hu as [_ ?]. }
  rewrite Hi2; [done|]. intros Ht. apply elem_contents in Ht as (x & Hx & E); [|done].
  rewrite <- E, (hw_index _ Hw1) in Hi by done. pose proof (hw_size _ Hw1).
  unfold NOT_IN_HEAP, HEAP_MAX_SIZE in *. lia.
Qed.

(** After the replacement the order holds except around [idx]. *)
Lemma dropped_hole h h1 t idx :
  dropped h h1 t idx -> 0 <= idx -> ordered (size h) (kf h) -> hole (size h1) (kf h1) idx.
Proof.
  intros (Hw1 & Es & _ & _ & _ & Hnd) Hi Ho. unfold kf. split.
  - intros i Hin Hne Hpne. pose proof (par_lt i ltac:(lia)). rewrite !Hnd by lia.
    destruct (Z.eqb_spec i idx), (Z.eqb_spec (par i) idx); try done. apply Ho. lia.
  - intros Hi0 c Hc Ec. pose proof (par_lt idx ltac:(lia)). pose proof (par_lt c ltac:(lia)).
    rewrite !Hnd by lia. destruct (Z.eqb_spec c idx), (Z.eqb_spec (par idx) idx); try lia.
    pose proof (Ho c ltac:(lia)) as H1. pose proof (Ho idx ltac:(lia)) as H2.
    rewrite Ec in H1. unfold kf in *. lia.
Qed.

(** Dropping the last task keeps the order. *)
Lemma dropped_last h h1 t :
  dropped h h1 t (size h - 1) -> ordered (size h) (kf h) -> ordered (size h1) (kf h1).
Proof.
  intros (Hw1 & Es & _ & _ & _ & Hnd) Ho i Hi. pose proof (par_lt i ltac:(lia)). unfold kf.
  rewrite !Hnd by lia. destruct (Z.eqb_spec i (size h - 1)), (Z.eqb_spec (par i) (size h - 1)); try lia.
  apply Ho. lia.
Qed.

(** ** Claims *)

Lemma heap_insert_ok h t :
  hwf h -> ordered (size h) (kf h) ->
  exists h' r, heap_insert key (Some t) h = Ok (h', r) /\
    if (r : bool)
    then hwf h' /\ ordered (size h') (kf h') /\ contents h' ≡ₚ t :: contents h /\
         heap_index h t = NOT_IN_HEAP /\
         (forall u, u ∉ contents h -> u <> t -> heap_index h' u = heap_index h u)
    else h' = h /\ (size h = HEAP_MAX_SIZE \/ heap_index h t <> NOT_IN_HEAP).
Proof.
  intros Hw Ho. pose proof (hw_size _ Hw) as Hs. unfold heap_insert. case_cmp.
  { exists h, false. split_and!; [done|done|left; lia]. }
  destruct (Z.eqb_spec (heap_index h t) NOT_IN_HEAP) as [Hnot|]; cbn [negb].
  2:{ exists h, false. split_and!; [done|done|by right]. }
  pose proof (hw_length _ Hw) as Hl. unfold HEAP_MAX_SIZE in *. rewrite u32_small by lia.
  unfold set_node, set_size. cbn [nodes size]. rewrite wr_Z by lia. cbn [mbind res_bind].
  set (h1 := set_index _ _ _). unfold heap_sift_up.
  assert (Hnd : forall x, 0 <= x -> nd h1 x = if x =? size h then t else nd h x).
  { intros x Hx. change (nd h x) with (nd (mkHeap (nodes h) (size h + 1) (heap_index h)) x).
    by rewrite <- nd_insert by lia. }
  assert (Ht : t ∉ contents h).
  { rewrite elem_contents by done. intros (x & Hx & <-). rewrite (hw_index _ Hw) in Hnot by done.
    unfold NOT_IN_HEAP in Hnot. lia. }
  assert (Hw1 : hwf h1).
  { split; [cbn; by rewrite length_insert|cbn; unfold HEAP_MAX_SIZE; lia|]. intros x Hx. cbn [size h1 set_index] in Hx.
    rewrite Hnd by lia. cbn [heap_index h1 set_index]. case_cmp; [subst; by rewrite fn_lookup_insert|].
    rewrite fn_lookup_insert_ne; [apply Hw; lia|]. intros E. apply Ht, elem_contents; [done|]. exists x.
    split; [lia|done]. }
  assert (Hc1 : contents h1 ≡ₚ t :: contents h).
  { apply NoDup_Permutation; [by apply contents_nodup|by apply NoDup_cons_2, contents_nodup|].
    intros u. rewrite elem_of_cons, !elem_contents by done. split.
    - intros (x & Hx & <-). cbn [size h1 set_index] in Hx. rewrite Hnd by lia.
      destruct (Z.eqb_spec x (size h)); [by left|right]. exists x. split; [lia|done].
    - intros [->|(x & Hx & <-)]; [exists (size h)|exists x]; (split; [cbn; lia|]); rewrite Hnd by lia; case_cmp. }
  destruct (sift_up_ok (S (Z.to_nat (size h))) (size h) h1) as (h' & -> & (Hw' & _ & Hc & Hfr) & Ho');
    [done|cbn; lia|lia| |].
  { cbn [size h1 set_index]. split; [split|].
    - intros i Hi Hne _. pose proof (par_lt i ltac:(lia)). unfold kf. rewrite !Hnd by lia.
      destruct (Z.eqb_spec i (size h)), (Z.eqb_spec (par i) (size h)); try lia. apply Ho. lia.
    - intros _ c Hc Ec. pose proof (par_lt c ltac:(lia)). lia.
    - intros c Hc Ec. pose proof (par_lt c ltac:(lia)). lia. }
  exists h', true. split_and!; [done|done|done|by rewrite Hc|done|].
  intros u Hu Hne. rewrite Hfr; [by apply fn_lookup_insert_ne|]. rewrite Hc1. by apply not_elem_of_cons.
Qed.

(** [heap_insert] adds a task that is in no heap to a heap that is not full,
    keeping the heap order and the stored positions; a full heap, or a task whose
    stored index says that it is in a heap, is refused and nothing changes. *)
Theorem heap_insert_sound h t :
  hwf h -> ordered (size h) (kf h) ->
  exists h' r, heap_insert key (Some t) h = Ok (h', r) /\
    if (r : bool)
    then hwf h' /\ ordered (size h') (kf h') /\ contents h' ≡ₚ t :: contents h
    else h' = h /\ (size h = HEAP_MAX_SIZE \/ heap_index h t <> NOT_IN_HEAP).
Proof.
  intros Hw Ho. destruct (heap_insert_ok h t Hw Ho) as (h' & r & H1 & H2).
  exists h', r. split; [done|]. destruct r; [by destruct H2 as (? & ? & ? & _)|done].
Qed.

Lemma heap_extract_ok h :
  hwf h -> ordered (size h) (kf h) ->
  exists h' r, heap_extract_min key h = Ok (h', r) /\
    match r with
    | None => h' = h /\ contents h = []
    | Some t => contents h ≡ₚ t :: contents h' /\ (forall u, u ∈ contents h -> key t <= key u) /\
                heap_index h' t = NOT_IN_HEAP /\ hwf h' /\ ordered (size h') (kf h') /\
                (forall u, u ∉ contents h -> heap_index h' u = heap_index h u)
    end.
Proof.
  intros Hw Ho. pose proof (hw_size _ Hw) as Hs. unfold heap_extract_min.
  destruct (Z.eqb_spec (size h) 0) as [E|Hne].
  { exists h, None. split_and!; [done|done|]. unfold contents. by rewrite E. }
  rewrite rd_nd by (done || unfold HEAP_MAX_SIZE; lia). cbn [mbind res_bind].
  pose proof (heap_min h Hw Ho) as Hmin. unfold kf in Hmin.
  change (size (set_index _ _ h)) with (size h). cbn [size set_size].
  destruct (Z.ltb_spec 0 (size h - 1)).
  - destruct (replace_ok h 0 Hw ltac:(lia)) as (-> & h1 & Hh1 & Hd).
    cbn [mbind res_bind]. rewrite Hh1. cbn [mbind res_bind]. unfold heap_sift_down.
    set (h2 := set_index _ 0 h1) in *. pose proof Hd as (Hw2 & Es & _).
    destruct (sift_down_ok (S (Z.to_nat (size h2 - 0))) 0 h2) as (h' & -> & Hm & Ho'); [done|lia|lia| |].
    { split; [by eapply dropped_hole|lia]. }
    cbn [mbind res_bind]. destruct (dropped_moves _ _ _ _ _ Hd Hm) as (? & ? & ? & ?).
    exists h', (Some (nd h 0)). by split_and!.
  - pose proof (shrink_ok h Hw ltac:(lia)) as Hd. assert (E1 : size h - 1 = 0) by lia.
    rewrite !E1 in Hd. rewrite E1.
    cbn [mbind res_bind]. set (h1 := set_size _ _) in *. exists h1, (Some (nd h 0)).
    pose proof Hd as (Hw1 & Es & Hc & Hi & Hfr & _). split_and!; try done.
    apply (dropped_last h h1 (nd h 0)); [|done]. by rewrite E1.
Qed.

(** [heap_extract_min] returns null on an empty heap; otherwise it removes and
    returns a task whose key is least among all the tasks of the heap, marks it
    as being in no heap, and keeps the heap order and the stored positions. *)
Theorem heap_extract_min_sound h :
  hwf h -> ordered (size h) (kf h) ->
  exists h' r, heap_extract_min key h = Ok (h', r) /\
    match r with
    | None => h' = h /\ contents h = []
    | Some t => contents h ≡ₚ t :: contents h' /\ (forall u, u ∈ contents h -> key t <= key u) /\
                heap_index h' t = NOT_IN_HEAP /\ hwf h' /\ ordered (size h') (kf h')
    end.
Proof.
  intros Hw Ho. destruct (heap_extract_ok h Hw Ho) as (h' & r & H1 & H2).
  exists h', r. split; [done|]. destruct r; [by destruct H2 as (? & ? & ? & ? & ? & _)|done].
Qed.

(** [heap_remove] takes exactly the given task out of the heap, wherever it
    is, restoring the heap order upwards or downwards as needed; a task that is
    not in this heap is refused and nothing changes. *)
Theorem heap_remove_sound h t :
  hwf h -> ordered (size h) (kf h) -> 0 <= heap_index h t ->
  exists h' r, heap_remove key (Some t) h = Ok (h', r) /\
    if (r : bool)
    then contents h ≡ₚ t :: contents h' /\ heap_index h' t = NOT_IN_HEAP /\
         hwf h' /\ ordered (size h') (kf h')
    else h' = h /\ t ∉ contents h.
Proof.
  intros Hw Ho Hidx. pose proof (hw_size _ Hw) as Hs. unfold heap_remove.
  assert (Hin : t ∈ contents h -> heap_index h t < size h /\ nd h (heap_index h t) = t).
  { rewrite elem_contents by done. intros (x & Hx & <-). rewrite (hw_index _ Hw) by done. lia. }
  destruct (Z.leb_spec (size h) (heap_index h t)). { exists h, false. split_and!; [done|done|]. intros ?%Hin. lia. }
  rewrite (rd_nd h (heap_index h t)) by (done || unfold HEAP_MAX_SIZE in *; lia). cbn [mbind res_bind].
  destruct (Z.eqb_spec (nd h (heap_index h t)) t) as [Et|Hne]; cbn [negb].
  2:{ exists h, false. split_and!; [done|done|]. by intros [_ ?]%Hin. }
  remember (heap_index h t) as idx eqn:Ei. clear Hin. subst t.
  change (size (set_index _ _ h)) with (size h). cbn [size set_size].
  destruct (Z.ltb_spec idx (size h - 1)).
  - destruct (replace_ok h idx Hw ltac:(lia)) as (-> & h1 & Hh1 & Hd).
    cbn [mbind res_bind]. rewrite Hh1. cbn [mbind res_bind]. unfold heap_sift_up, heap_sift_down.
    set (h2 := set_index _ idx h1) in *. pose proof Hd as (Hw2 & Es & _ & _ & _ & Hnd).
    pose proof (dropped_hole _ _ _ _ Hd ltac:(lia) Ho) as Hhole.
    assert (Eidx : kf h2 idx = key (nd h (size h - 1))).
    { unfold kf. rewrite Hnd by lia. by rewrite Z.eqb_refl. }
    assert (Hsift : exists h', (if key (nd h (size h - 1)) <? key (nd h idx)
        then sift_up_loop key (S (Z.to_nat idx)) idx h2
        else sift_down_loop key (S (Z.to_nat (size h2 - idx))) idx h2) = Ok h' /\
        moves h2 h' /\ ordered (size h') (kf h')).
    { case_cmp.
      - apply sift_up_ok; [done|lia|lia|]. split; [done|]. intros c Hc Ec.
        pose proof (par_lt c ltac:(lia)). rewrite Eidx. unfold kf. rewrite Hnd by lia.
        destruct (Z.eqb_spec c idx); [lia|]. pose proof (Ho c ltac:(lia)) as H'. rewrite Ec in H'.
        unfold kf in H'. lia.
      - apply sift_down_ok; [done|lia|lia|]. split; [done|]. intros Hi0.
        pose proof (par_lt idx Hi0). rewrite Eidx. unfold kf. rewrite Hnd by lia.
        destruct (Z.eqb_spec (par idx) idx); [lia|]. pose proof (Ho idx ltac:(lia)) as H'.
        unfold kf in H'. lia. }
    destruct Hsift as (h' & -> & Hm & Ho'). cbn [mbind res_bind].
    destruct (dropped_moves _ _ _ _ _ Hd Hm) as (? & ? & ? & ?). exists h', true. by split_and!.
  - assert (idx = size h - 1) by lia. subst idx. pose proof (shrink_ok h Hw ltac:(lia)) as Hd.
    cbn [mbind res_bind]. set (h1 := set_size _ _) in *. exists h1, true.
    pose proof Hd as (Hw1 & Es & Hc & Hi & Hfr & _). split_and!; try done. by eapply dropped_last.
Qed.

(** [heap_update], called after the key of one task of an ordered heap changed
    from [old_key], restores the heap order without changing the tasks it
    holds, whether the key decreased, increased or stayed. *)
Theorem heap_update_sound h t (key0 : Z -> Z) :
  hwf h -> ordered (size h) (fun i => key0 (nd h i)) -> t ∈ contents h ->
  (forall u, u <> t -> key u = key0 u) ->
  exists h', heap_update key (Some t) (key0 t) h = Ok h' /\
    hwf h' /\ ordered (size h') (kf h') /\ contents h' ≡ₚ contents h.
Proof.
  intros Hw Ho Hin Hk. pose proof (hw_size _ Hw) as Hs.
  apply elem_contents in Hin as (idx & Hi & <-); [|done]. unfold heap_update.
  rewrite (hw_index _ Hw) by done. destruct (Z.leb_spec (size h) idx); [lia|].
  rewrite (rd_nd h idx) by (done || lia). cbn [mbind res_bind]. rewrite Z.eqb_refl. cbn [negb].
  assert (Hkf : forall i, 0 <= i < size h -> i <> idx -> kf h i = key0 (nd h i)).
  { intros i Hin Hne. apply Hk. intros E. apply nd_inj in E; done || lia. }
  assert (Hhole : hole (size h) (kf h) idx).
  { split.
    - intros i Hin Hne Hp. pose proof (par_lt i ltac:(lia)). rewrite !Hkf by lia. by apply Ho.
    - intros Hpos c Hc Ec. pose proof (par_lt c ltac:(lia)). pose proof (par_lt idx ltac:(lia)).
      rewrite !Hkf by lia. pose proof (Ho c Hc) as Hc1. pose proof (Ho idx ltac:(lia)) as Hc2.
      cbn beta in Hc1, Hc2. rewrite Ec in Hc1. lia. }
  assert (Hup : key (nd h idx) <= key0 (nd h idx) -> up_pre (size h) (kf h) idx).
  { intros Hle. split; [done|]. intros c Hc Ec. pose proof (par_lt c ltac:(lia)). rewrite (Hkf c) by lia.
    pose proof (Ho c Hc) as Hc1. cbn beta in Hc1. rewrite Ec in Hc1. unfold kf. lia. }
  assert (Hdown : key0 (nd h idx) <= key (nd h idx) -> down_pre (size h) (kf h) idx).
  { intros Hle. split; [done|]. intros Hpos. pose proof (par_lt idx ltac:(lia)). rewrite Hkf by lia.
    pose proof (Ho idx ltac:(lia)) as Hc1. cbn beta in Hc1. unfold kf. lia. }
  unfold heap_sift_up, heap_sift_down.
  destruct (Z.ltb_spec (key (nd h idx)) (key0 (nd h idx))); [|case_cmp].
  - destruct (sift_up_ok (S (Z.to_nat idx)) idx h) as (h' & ? & (? & ? & ? & _) & ?);
      [done|lia|lia|apply Hup; lia|eauto 10].
  - destruct (sift_down_ok (S (Z.to_nat (size h - idx))) idx h) as (h' & ? & (? & ? & ? & _) & ?);
      [done|lia|lia|apply Hdown; lia|eauto 10].
  - exists h. split_and!; [done|done| |done]. apply (up_done _ _ idx); [apply Hup; lia|].
    apply Hdown. lia.
Qed.

End Spec.

(** ** Witnesses *)

Definition empty_heap : TaskHeap := mkHeap (replicate 256 0) 0 (fun _ => NOT_IN_HEAP).

Lemma empty_heap_ok key : hwf empty_heap /\ ordered (size empty_heap) (kf key empty_heap).
Proof. split; [split|]; cbn; try done; try lia. intros i Hi. cbn in Hi. lia. Qed.

(** Tasks 30, 10 and 20, keyed by their identifiers. *)
Definition insert_all (l : list Z) : TaskHeap :=
  match foldM (fun h t => '(h, _) ← heap_insert (fun t => t) (Some t) h; Ok h) l empty_heap with
  | Ok h => h | _ => empty_heap end.
Definition heap3 : TaskHeap := insert_all [30; 10; 20].

Lemma heap3_ok : hwf heap3 /\ ordered (size heap3) (kf (fun t => t) heap3).
Proof.
  split; [split|].
  - by vm_compute.
  - by vm_compute.
  - change (size heap3) with 3. intros i Hi. assert (i = 0 \/ i = 1 \/ i = 2) as [->|[->| ->]] by lia; by vm_compute.
  - change (size heap3) with 3. intros i Hi. assert (i = 1 \/ i = 2) as [->| ->] by lia; by vm_compute.
Qed.

Lemma heap_insert_sound_witness :
  exists h' r, heap_insert (fun t => t) (Some 5) heap3 = Ok (h', r) /\
    if (r : bool)
    then hwf h' /\ ordered (size h') (kf (fun t => t) h') /\ contents h' ≡ₚ 5 :: contents heap3
    else h' = heap3 /\ (size heap3 = HEAP_MAX_SIZE \/ heap_index heap3 5 <> NOT_IN_HEAP).
Proof. apply (heap_insert_sound (fun t => t) heap3 5); apply heap3_ok. Defined.

Lemma heap_extract_min_sound_witness :
  exists h' r, heap_extract_min (fun t => t) heap3 = Ok (h', r) /\
    match r with
    | None => h' = heap3 /\ contents heap3 = []
    | Some t => contents heap3 ≡ₚ t :: contents h' /\ (forall u, u ∈ contents heap3 -> t <= u) /\
                heap_index h' t = NOT_IN_HEAP /\ hwf h' /\ ordered (size h') (kf (fun t => t) h')
    end.
Proof. apply (heap_extract_min_sound (fun t => t) heap3); apply heap3_ok. Defined.

Lemma heap_remove_sound_witness :
  exists h' r, heap_remove (fun t => t) (Some 10) heap3 = Ok (h', r) /\
    if (r : bool)
    then contents heap3 ≡ₚ 10 :: contents h' /\ heap_index h' 10 = NOT_IN_HEAP /\
         hwf h' /\ ordered (size h') (kf (fun t => t) h')
    else h' = heap3 /\ 10 ∉ contents heap3.
Proof.
  apply (heap_remove_sound (fun t => t) heap3 10); [apply heap3_ok|apply heap3_ok|by vm_compute].
Defined.

(** Task 10's key rises from 10 to 100. *)
Definition raised (t : Z) : Z := if t =? 10 then 100 else t.

Lemma heap_update_sound_witness :
  exists h', heap_update raised (Some 10) 10 heap3 = Ok h' /\
    hwf h' /\ ordered (size h') (kf raised h') /\ contents h' ≡ₚ contents heap3.
Proof.
  apply (heap_update_sound raised heap3 10 (fun t => t)); [apply heap3_ok|apply heap3_ok| |].
  - apply elem_contents; [apply heap3_ok|]. exists 0. by vm_compute.
  - intros u Hu. unfold raised. by destruct (Z.eqb_spec u 10).
Defined.

End HeapSpec.
