(* ===== verification/Task.v ===== *)
(** * Tasks

    The scheduling part of [struct Task] of [src/kernel/sched/task.hpp]: the
    fields read or written by the scheduler, the CFS and deadline policies, the
    bandwidth control and priority inheritance.  The deadline and bandwidth
    fields are grouped in two records; the links [next], [prev] and
    [heap_index] are part of the structures that use them. *)

From S2P Require Import Prelude.

Module Task.

Inductive TaskState := Invalid | Ready | Running | Blocked | Exited.
Inductive SchedPolicy := SCHED_OTHER | SCHED_FIFO | SCHED_RR | SCHED_DEADLINE.
#[export] Instance TaskState_eq_dec : EqDecision TaskState.
Proof. solve_decision. Defined.
#[export] Instance SchedPolicy_eq_dec : EqDecision SchedPolicy.
Proof. solve_decision. Defined.

Definition TASK_FLAG_IDLE : Z := Z.shiftl 1 1.
Definition PRIORITY_DEFAULT : Z := 128.
Definition NUM_PRIORITY_QUEUES : Z := 8.
Definition PRIORITIES_PER_QUEUE : Z := 32.
Definition RT_TIME_SLICE_DEFAULT : Z := 100.
Definition MAX_TASKS : Z := 256.
Definition TIME_SLICE_BY_QUEUE : list Z := [20; 18; 15; 12; 10; 8; 5; 5].

Definition time_slice_for_priority (priority : Z) : res Z :=
  let queue := priority / PRIORITIES_PER_QUEUE in
  let queue := if NUM_PRIORITY_QUEUES <=? queue then NUM_PRIORITY_QUEUES - 1 else queue in
  rd TIME_SLICE_BY_QUEUE queue.

Record DlFields := mkDl {
  dl_runtime : Z; dl_deadline : Z; dl_period : Z;
  dl_abs_deadline : Z; dl_missed : Z; dl_flags : Z
}.

Record BwFields := mkBw {
  bw_runtime : Z; bw_period : Z; bw_consumed : Z; bw_period_start : Z; bw_throttled : bool
}.

Record Task := mkTask {
  state : TaskState;
  flags : Z;
  time_slice : Z;
  priority : Z;
  original_priority : Z;
  policy : SchedPolicy;
  cpu_affinity : Z;
  vruntime : Z;
  nice : Z;
  dl : DlFields;
  bw : BwFields;
  blocked_mutex : option Z;
  cpu_ticks : Z;
  switch_count : Z
}.

(** ** Field updates *)

Definition set_state s t := mkTask s (flags t) (time_slice t) (priority t) (original_priority t)
  (policy t) (cpu_affinity t) (vruntime t) (nice t) (dl t) (bw t) (blocked_mutex t) (cpu_ticks t)
  (switch_count t).
Definition set_time_slice x t := mkTask (state t) (flags t) x (priority t) (original_priority t)
  (policy t) (cpu_affinity t) (vruntime t) (nice t) (dl t) (bw t) (blocked_mutex t) (cpu_ticks t)
  (switch_count t).
Definition set_priority x t := mkTask (state t) (flags t) (time_slice t) x (original_priority t)
  (policy t) (cpu_affinity t) (vruntime t) (nice t) (dl t) (bw t) (blocked_mutex t) (cpu_ticks t)
  (switch_count t).
Definition set_policy x t := mkTask (state t) (flags t) (time_slice t) (priority t)
  (original_priority t) x (cpu_affinity t) (vruntime t) (nice t) (dl t) (bw t) (blocked_mutex t)
  (cpu_ticks t) (switch_count t).
Definition set_vruntime x t := mkTask (state t) (flags t) (time_slice t) (priority t)
  (original_priority t) (policy t) (cpu_affinity t) x (nice t) (dl t) (bw t) (blocked_mutex t)
  (cpu_ticks t) (switch_count t).
Definition set_dl x t := mkTask (state t) (flags t) (time_slice t) (priority t)
  (original_priority t) (policy t) (cpu_affinity t) (vruntime t) (nice t) x (bw t)
  (blocked_mutex t) (cpu_ticks t) (switch_count t).
Definition set_bw x t := mkTask (state t) (flags t) (time_slice t) (priority t)
  (original_priority t) (policy t) (cpu_affinity t) (vruntime t) (nice t) (dl t) x
  (blocked_mutex t) (cpu_ticks t) (switch_count t).
Definition set_blocked x t := mkTask (state t) (flags t) (time_slice t) (priority t)
  (original_priority t) (policy t) (cpu_affinity t) (vruntime t) (nice t) (dl t) (bw t) x
  (cpu_ticks t) (switch_count t).
Definition set_stats ticks switches t := mkTask (state t) (flags t) (time_slice t) (priority t)
  (original_priority t) (policy t) (cpu_affinity t) (vruntime t) (nice t) (dl t) (bw t)
  (blocked_mutex t) ticks switches.

Definition is_idle (t : Task) : bool := negb (Z.land (flags t) TASK_FLAG_IDLE =? 0).

(** A task as [task::create] leaves it (the fields of [init_task_fields]). *)
Definition new_task (prio : Z) : Task :=
  mkTask Ready 0 10 prio prio SCHED_OTHER 4294967295 0 0
    (mkDl 0 0 0 0 0 0) (mkBw 0 0 0 0 false) None 0 0.

End Task.
