(* ===== verification/Cfs.v ===== *)
(** * Fair scheduling: weights and virtual runtime

    Models [src/kernel/sched/cfs.hpp].  The weight tables are checked against
    the formula their comment gives, and the virtual runtime against the exact
    quotient it approximates. *)

From S2P Require Import Prelude.

Module Cfs.

Definition NICE_TO_WEIGHT : list Z := [
  88761; 71755; 56483; 46273; 36291; 29154; 23254; 18705; 14949; 11916;
  9548; 7620; 6100; 4904; 3906; 3121; 2501; 1991; 1586; 1277;
  1024; 820; 655; 526; 423; 335; 272; 215; 172; 137;
  110; 87; 70; 56; 45; 36; 29; 23; 18; 15].

Definition NICE_TO_INVERSE_WEIGHT : list Z := [
  48388; 59856; 76040; 92818; 118348; 147320; 184698; 229616; 287308; 360437;
  449829; 563644; 704093; 875809; 1099582; 1376151; 1717300; 2157191; 2708050; 3363326;
  4194304; 5237765; 6557202; 8165337; 10153587; 12820798; 15790321; 19976592; 24970740; 31350126;
  39045157; 49367440; 61356676; 76695844; 95443717; 119304647; 148102320; 186737708; 238609294;
  286331153].

Definition WEIGHT_DEFAULT : Z := 1024.
Definition MIN_GRANULARITY_US : Z := 750.
Definition TARGET_LATENCY_US : Z := 6000.

(** The index of a nice value, clamped to the table. *)
Definition nice_index (nice : Z) : Z :=
  let idx := nice + 20 in
  let idx := if idx <? 0 then 0 else idx in
  if 39 <? idx then 39 else idx.

Definition nice_to_weight (nice : Z) : res Z := rd NICE_TO_WEIGHT (nice_index nice).
Definition nice_to_inverse_weight (nice : Z) : res Z := rd NICE_TO_INVERSE_WEIGHT (nice_index nice).

Definition calc_vruntime_delta (wall_delta_ns nice : Z) : res Z :=
  inv_weight ← nice_to_inverse_weight nice;
  Ok (Z.shiftr (u64 (wall_delta_ns * inv_weight)) 22).

(** ** The tables *)

(** Every inverse weight is 2^32 divided by the weight, rounded to within one;
    weights decrease and inverse weights increase with the nice value. *)
Definition entry_ok (p : Z * Z) : bool :=
  let '(w, iw) := p in (0 <? w) && (0 <? iw) && (iw <? 2 ^ 29) && (Z.abs (w * iw - 2 ^ 32) <=? w).
Definition increasing_at (i : nat) : bool :=
  match NICE_TO_INVERSE_WEIGHT !! i, NICE_TO_INVERSE_WEIGHT !! S i with
  | Some a, Some b => a <? b
  | _, _ => true
  end.

Lemma tables_ok (i : nat) :
  (i < 40)%nat -> exists w iw, NICE_TO_WEIGHT !! i = Some w /\ NICE_TO_INVERSE_WEIGHT !! i = Some iw /\
    0 < w /\ 0 < iw < 2 ^ 29 /\ Z.abs (w * iw - 2 ^ 32) <= w.
Proof.
  intros Hi.
  destruct (lookup_lt_is_Some_2 NICE_TO_WEIGHT i) as [w Hw]; [done|].
  destruct (lookup_lt_is_Some_2 NICE_TO_INVERSE_WEIGHT i) as [iw Hiw]; [done|].
  exists w, iw. split_and!; [done|done|..].
  all: assert (Hin : (w, iw) ∈ zip NICE_TO_WEIGHT NICE_TO_INVERSE_WEIGHT)
    by (apply list_elem_of_lookup; exists i; by rewrite lookup_zip_with, Hw, Hiw).
  all: assert (Hall : forallb entry_ok (zip NICE_TO_WEIGHT NICE_TO_INVERSE_WEIGHT) = true) by done.
  all: rewrite forallb_forall in Hall; apply list_elem_of_In, Hall in Hin; unfold entry_ok in Hin.
  all: repeat rewrite andb_true_iff in Hin; lia.
Qed.

Lemma inverse_mono (i j : nat) a b :
  (i <= j)%nat -> NICE_TO_INVERSE_WEIGHT !! i = Some a -> NICE_TO_INVERSE_WEIGHT !! j = Some b -> a <= b.
Proof.
  intros Hij Ha Hb. pose proof (lookup_lt_Some _ _ _ Hb) as Hlt.
  assert (Hall : forallb increasing_at (seq 0 40) = true) by done. rewrite forallb_forall in Hall.
  revert b Hb. induction Hij as [|j Hij IH]; intros b Hb; [rewrite Ha in Hb; injection Hb as ->; lia|].
  destruct (lookup_lt_is_Some_2 NICE_TO_INVERSE_WEIGHT j) as [c Hc]; [lia|].
  specialize (IH ltac:(lia) c Hc). assert (Hinc : increasing_at j = true).
  { apply Hall, in_seq. change (length NICE_TO_INVERSE_WEIGHT) with 40%nat in Hlt. lia. }
  unfold increasing_at in Hinc. rewrite Hc, Hb in Hinc. apply Z.ltb_lt in Hinc. lia.
Qed.

Lemma nice_index_range nice : 0 <= nice_index nice < 40.
Proof. unfold nice_index. repeat case_cmp. Qed.

Lemma nice_index_mono n n' : n <= n' -> nice_index n <= nice_index n'.
Proof.
  intros H. unfold nice_index. destruct (Z.ltb_spec (n + 20) 0), (Z.ltb_spec (n' + 20) 0);
    repeat case_cmp.
Qed.

(** ** Virtual runtime *)

(** For wall-clock deltas below 2^35 ns (34 s) no product overflows, and the
    virtual runtime charged to a task of weight [w] is [delta * 1024 / w] up to an
    error of [1 + delta / 2^22]; it does not decrease when the nice value grows,
    and at nice 0 it is exactly the wall-clock delta. *)
Theorem calc_vruntime_delta_spec delta nice nice' :
  0 <= delta < 2 ^ 35 -> nice <= nice' ->
  exists w v v', nice_to_weight nice = Ok w /\ 0 < w /\
    calc_vruntime_delta delta nice = Ok v /\ calc_vruntime_delta delta nice' = Ok v' /\
    Z.abs (v * w - WEIGHT_DEFAULT * delta) * 2 ^ 22 <= w * (delta + 2 ^ 22) /\
    v <= v' /\ (nice = 0 -> v = delta).
Proof.
  intros Hd Hn. pose proof (nice_index_range nice) as Hi. pose proof (nice_index_range nice') as Hi'.
  pose proof (nice_index_mono nice nice' Hn) as Hm.
  destruct (tables_ok (Z.to_nat (nice_index nice))) as (w & iw & Hw & Hiw & Hw0 & Hb & He); [lia|].
  destruct (tables_ok (Z.to_nat (nice_index nice'))) as (w' & iw' & _ & Hiw' & _ & Hb' & _); [lia|].
  pose proof (inverse_mono _ _ _ _ (proj1 (Z2Nat.inj_le _ _ (proj1 Hi) (proj1 Hi')) Hm) Hiw Hiw') as Hle.
  unfold nice_to_weight, calc_vruntime_delta, nice_to_inverse_weight.
  rewrite (rd_Z _ _ w), (rd_Z _ _ iw), (rd_Z _ _ iw') by (done || lia). cbn [mbind res_bind].
  rewrite !u64_small by nia. rewrite !Z.shiftr_div_pow2 by lia. change (2 ^ 22) with 4194304 in *.
  eexists w, _, _. split_and!; [done|done|done|done| | |].
  - unfold WEIGHT_DEFAULT. pose proof (Z.div_mod (delta * iw) 4194304 ltac:(lia)) as Hq.
    pose proof (Z.mod_pos_bound (delta * iw) 4194304 ltac:(lia)) as Hr.
    set (q := delta * iw / 4194304) in *. set (r := (delta * iw) mod 4194304) in *.
    assert (Hid : (q * w - 1024 * delta) * 4194304 = delta * (w * iw - 2 ^ 32) - w * r) by lia.
    apply Z.abs_le in He. destruct (Z.abs_spec (q * w - 1024 * delta)) as [[? ->]|[? ->]]; nia.
  - apply Z.div_le_mono; [lia|]. nia.
  - intros ->. change (NICE_TO_INVERSE_WEIGHT !! _) with (Some 4194304) in Hiw. injection Hiw as <-.
    by rewrite Z.div_mul.
Qed.

Lemma calc_vruntime_delta_spec_witness :
  exists w v v', nice_to_weight (-5) = Ok w /\ 0 < w /\
    calc_vruntime_delta 1000000 (-5) = Ok v /\ calc_vruntime_delta 1000000 5 = Ok v' /\
    Z.abs (v * w - WEIGHT_DEFAULT * 1000000) * 2 ^ 22 <= w * (1000000 + 2 ^ 22) /\
    v <= v' /\ (-5 = 0 -> v = 1000000).
Proof. apply (calc_vruntime_delta_spec 1000000 (-5) 5); lia. Defined.

End Cfs.
