(* ===== verification/Deadline.v ===== *)
(** * Deadline scheduling: admission control and deadline misses

    Models [src/kernel/sched/deadline.hpp] and [deadline.cpp].  The global
    [total_bandwidth] is threaded through the operations; pointers that the
    code tests for null are options. *)

From S2P Require Import Prelude Task.

Module Deadline.
Import Task.

Definition MIN_BANDWIDTH_FRACTION : Z := 1000.
Definition DL_FLAG_THROTTLE_ON_MISS : Z := Z.shiftl 1 0.
Definition DL_FLAG_DEMOTE_ON_MISS : Z := Z.shiftl 1 1.
Definition DL_MISS_THRESHOLD : Z := 3.
Definition MAX_TOTAL_BANDWIDTH : Z := 950.

Record DeadlineParams := mkParams { runtime : Z; deadline : Z; period : Z }.

Definition validate_params (params : option DeadlineParams) : bool :=
  match params with
  | None => false
  | Some p =>
      if runtime p =? 0 then false
      else if deadline p <? runtime p then false
      else if period p <? deadline p then false
      else true
  end.

Definition calc_bandwidth (params : option DeadlineParams) : Z :=
  match params with
  | None => 0
  | Some p =>
      if period p =? 0 then 0 else u64 (runtime p * MIN_BANDWIDTH_FRACTION) / period p
  end.

Definition can_admit (total_bandwidth new_bandwidth : Z) : bool :=
  u64 (total_bandwidth + new_bandwidth) <=? MAX_TOTAL_BANDWIDTH.

(** The parameters stored in a task. *)
Definition task_params (t : Task) : DeadlineParams :=
  mkParams (dl_runtime (dl t)) (dl_deadline (dl t)) (dl_period (dl t)).

(** The new total, the task and the result (0, or -1 on error). *)
Definition set_deadline (tb : Z) (t : option Task) (params : option DeadlineParams)
  : Z * option Task * Z :=
  match t, params with
  | Some t', Some p =>
      if negb (validate_params params) then (tb, t, -1)
      else
        let new_bandwidth := calc_bandwidth params in
        let old_bandwidth :=
          if 0 <? dl_period (dl t') then calc_bandwidth (Some (task_params t')) else 0 in
        if negb (can_admit tb (u64 (new_bandwidth - old_bandwidth))) then (tb, t, -1)
        else
          let tb := u64 (u64 (tb - old_bandwidth) + new_bandwidth) in
          let d := dl t' in
          let t' := set_dl (mkDl (runtime p) (deadline p) (period p) (dl_abs_deadline d)
                              (dl_missed d) (dl_flags d)) t' in
          (tb, Some (set_policy SCHED_DEADLINE t'), 0)
  | _, _ => (tb, t, -1)
  end.

Definition clear_deadline (tb : Z) (t : option Task) : Z * option Task :=
  match t with
  | None => (tb, t)
  | Some t =>
      let tb :=
        if 0 <? dl_period (dl t) then
          let bandwidth := calc_bandwidth (Some (task_params t)) in
          if bandwidth <=? tb then tb - bandwidth else tb
        else tb in
      let d := dl t in
      (tb, Some (set_policy SCHED_OTHER (set_dl (mkDl 0 0 0 0 (dl_missed d) (dl_flags d)) t)))
  end.

Definition set_abs_deadline (x : Z) (t : Task) : Task :=
  let d := dl t in
  set_dl (mkDl (dl_runtime d) (dl_deadline d) (dl_period d) x (dl_missed d) (dl_flags d)) t.

Definition replenish (t : option Task) (current_time : Z) : option Task :=
  match t with
  | None => None
  | Some t =>
      if dl_period (dl t) =? 0 then Some t
      else Some (set_abs_deadline (u64 (current_time + dl_deadline (dl t))) t)
  end.

Definition earlier_deadline (a b : option Task) : bool :=
  match a, b with
  | None, _ => false
  | Some _, None => true
  | Some a, Some b => dl_abs_deadline (dl a) <? dl_abs_deadline (dl b)
  end.

Definition check_deadline_miss (t : option Task) (current_time : Z) : bool :=
  match t with
  | None => false
  | Some t =>
      if negb (bool_decide (policy t = SCHED_DEADLINE)) then false
      else if dl_abs_deadline (dl t) =? 0 then false
      else dl_abs_deadline (dl t) <? current_time
  end.

Definition set_missed (n : Z) (t : Task) : Task :=
  let d := dl t in
  set_dl (mkDl (dl_runtime d) (dl_deadline d) (dl_period d) (dl_abs_deadline d) n (dl_flags d)) t.

Definition handle_deadline_miss (tb : Z) (t : option Task) (current_time : Z) : Z * option Task :=
  match t with
  | None => (tb, None)
  | Some t =>
      let t := set_missed (u32 (dl_missed (dl t) + 1)) t in
      if negb (Z.land (dl_flags (dl t)) DL_FLAG_DEMOTE_ON_MISS =? 0)
         && (DL_MISS_THRESHOLD <=? dl_missed (dl t))
      then clear_deadline tb (Some t)
      else if negb (Z.land (dl_flags (dl t)) DL_FLAG_THROTTLE_ON_MISS =? 0) then
        let periods_elapsed :=
          if (0 <? dl_period (dl t)) && (dl_abs_deadline (dl t) <? current_time)
          then u64 (1 + u64 (current_time - dl_abs_deadline (dl t)) / dl_period (dl t))
          else 1 in
        (tb, Some (set_abs_deadline
               (u64 (dl_abs_deadline (dl t) + u64 (periods_elapsed * dl_period (dl t)))) t))
      else (tb, replenish (Some t) current_time)
  end.

Definition get_missed_deadlines (t : option Task) : Z :=
  match t with Some t => dl_missed (dl t) | None => 0 end.
Definition reset_missed_deadlines (t : option Task) : option Task := set_missed 0 <$> t.

(** ** Reserved bandwidth *)

(** The bandwidth a task has reserved. *)
Definition task_bw (t : Task) : Z := calc_bandwidth (Some (task_params t)).
Fixpoint total_bw (ts : list Task) : Z :=
  match ts with [] => 0 | t :: ts => task_bw t + total_bw ts end.
Definition task_ok (t : Task) : Prop := 0 <= dl_period (dl t) /\ 0 <= task_bw t <= 1000.

(** The operations of the component on one task of the table. *)
Inductive dl_step : Z * list Task -> Z * list Task -> Prop :=
| step_set tb tb' ts (i : nat) t t' p r :
    ts !! i = Some t -> set_deadline tb (Some t) (Some p) = (tb', Some t', r) ->
    0 <= runtime p < 2 ^ 64 -> 0 <= period p < 2 ^ 64 ->
    dl_step (tb, ts) (tb', <[i := t']> ts)
| step_clear tb tb' ts (i : nat) t t' :
    ts !! i = Some t -> clear_deadline tb (Some t) = (tb', Some t') ->
    dl_step (tb, ts) (tb', <[i := t']> ts)
| step_miss tb tb' ts (i : nat) t t' now :
    ts !! i = Some t -> handle_deadline_miss tb (Some t) now = (tb', Some t') ->
    dl_step (tb, ts) (tb', <[i := t']> ts)
| step_replenish tb ts (i : nat) t t' now :
    ts !! i = Some t -> replenish (Some t) now = Some t' -> dl_step (tb, ts) (tb, <[i := t']> ts).

Definition dl_inv (s : Z * list Task) : Prop :=
  s.1 = total_bw s.2 /\ s.1 <= MAX_TOTAL_BANDWIDTH /\ Forall task_ok s.2.

Lemma total_bw_nonneg ts : Forall task_ok ts -> 0 <= total_bw ts.
Proof. unfold task_ok. induction 1; simpl; lia. Qed.

Lemma total_bw_insert ts (i : nat) t t' :
  ts !! i = Some t -> total_bw (<[i := t']> ts) = total_bw ts - task_bw t + task_bw t'.
Proof.
  revert i. induction ts as [|u ts IH]; intros [|i]; simpl; intros H; simplify_eq.
  - lia.
  - rewrite (IH i H). lia.
Qed.

Lemma total_bw_elem ts (i : nat) t :
  Forall task_ok ts -> ts !! i = Some t -> task_bw t <= total_bw ts.
Proof.
  intros Hf. revert i. induction Hf as [|u ts Hu Hf IH]; intros [|i]; simpl; intros H; simplify_eq.
  - pose proof (total_bw_nonneg _ Hf). lia.
  - specialize (IH i H). unfold task_ok in Hu. lia.
Qed.

(** A change of one task's reservation that the total follows. *)
Lemma dl_inv_update tb tb' ts (i : nat) t t' :
  dl_inv (tb, ts) -> ts !! i = Some t -> tb' = tb - task_bw t + task_bw t' ->
  task_ok t' -> tb' <= MAX_TOTAL_BANDWIDTH -> dl_inv (tb', <[i := t']> ts).
Proof.
  intros (E & _ & Hf) Hi Htb Hr Hmax. split_and!; cbn [fst snd] in *.
  - rewrite (total_bw_insert _ _ _ t') by done. lia.
  - done.
  - by apply Forall_insert.
Qed.

Lemma bandwidth_range p :
  0 <= runtime p -> runtime p <= period p -> 0 <= calc_bandwidth (Some p) <= 1000.
Proof.
  intros Hr Hp. unfold calc_bandwidth, MIN_BANDWIDTH_FRACTION. case_cmp.
  pose proof (u64_range (runtime p * 1000)).
  assert (u64 (runtime p * 1000) <= runtime p * 1000) by (apply Z.mod_le; lia).
  split; [apply Z.div_pos; lia|]. apply Z.div_le_upper_bound; nia.
Qed.

Lemma validate_true p :
  validate_params (Some p) = true <->
  runtime p <> 0 /\ runtime p <= deadline p /\ deadline p <= period p.
Proof. unfold validate_params. repeat case_cmp; naive_solver lia. Qed.

(** The code's test of [dl_period] is the one of [calc_bandwidth]. *)
Lemma old_bandwidth_eq t :
  0 <= dl_period (dl t) -> (if 0 <? dl_period (dl t) then calc_bandwidth (Some (task_params t)) else 0) = task_bw t.
Proof. intros H. unfold task_bw, calc_bandwidth. cbn. repeat case_cmp. Qed.

Lemma set_deadline_cases tb t p tb' t' r :
  0 <= dl_period (dl t) -> 0 <= task_bw t <= tb -> tb <= MAX_TOTAL_BANDWIDTH ->
  0 <= runtime p < 2 ^ 64 ->
  set_deadline tb (Some t) (Some p) = (tb', Some t', r) ->
  (r = -1 /\ tb' = tb /\ t' = t /\
     (validate_params (Some p) = false \/
      MAX_TOTAL_BANDWIDTH < tb - task_bw t + calc_bandwidth (Some p))) \/
  (r = 0 /\ validate_params (Some p) = true /\ tb' = tb - task_bw t + task_bw t' /\
     tb' <= MAX_TOTAL_BANDWIDTH /\ task_params t' = p /\ policy t' = SCHED_DEADLINE).
Proof.
  intros Hper Hbw Htb Hr. unfold set_deadline. destruct (validate_params (Some p)) eqn:Hv; cbn [negb].
  2:{ intros [= <- <- <-]. left. by auto 10. }
  rewrite old_bandwidth_eq by done. apply validate_true in Hv as (_ & H1 & H2).
  pose proof (bandwidth_range p ltac:(lia) ltac:(lia)) as Hn. unfold MAX_TOTAL_BANDWIDTH in *.
  assert (E : u64 (tb + u64 (calc_bandwidth (Some p) - task_bw t)) =
              tb - task_bw t + calc_bandwidth (Some p)).
  { unfold wrap. rewrite Zplus_mod_idemp_r. rewrite Z.mod_small; lia. }
  unfold can_admit, MAX_TOTAL_BANDWIDTH. rewrite E. case_cmp.
  - rewrite !u64_small by (rewrite ?u64_small; lia). intros [= <- <- <-]. right. unfold task_bw. cbn.
    destruct p. cbn in *. split_and!; done || lia.
  - intros [= <- <- <-]. left. split_and!; [done|done|done|right; lia].
Qed.

Lemma clear_deadline_total tb t tb' t' :
  0 <= dl_period (dl t) -> task_bw t <= tb -> clear_deadline tb (Some t) = (tb', Some t') ->
  tb' = tb - task_bw t /\ task_bw t' = 0.
Proof.
  intros Hp Hle. unfold clear_deadline. fold (task_bw t).
  assert (Hz : dl_period (dl t) = 0 -> task_bw t = 0) by (intros E; unfold task_bw, calc_bandwidth; cbn; by rewrite E).
  remember (task_bw t) as b eqn:Eb. clear Eb. intros [= <- <-]. split; [|done]. repeat case_cmp.
Qed.

(** The other operations keep the reservation. *)
Lemma miss_cases tb t now tb' t' :
  handle_deadline_miss tb (Some t) now = (tb', Some t') ->
  clear_deadline tb (Some (set_missed (u32 (dl_missed (dl t) + 1)) t)) = (tb', Some t') \/
  (tb' = tb /\ task_params t' = task_params t /\ policy t' = policy t).
Proof.
  unfold handle_deadline_miss. destruct (_ && _); [by left|]. destruct (negb _).
  - intros [= <- <-]. by right.
  - unfold replenish. case_cmp; intros [= <- <-]; by right.
Qed.

(** ** Claims *)

(** (C40) Admission control is sound: starting with no reservation, whatever
    sequence of parameter changes, clearings, deadline misses (with their
    demotions) and replenishments is run on the tasks, the global total is the
    sum of the bandwidths the tasks have reserved and never exceeds 95%. *)
Theorem admission_invariant ts s :
  Forall (fun t => dl_period (dl t) = 0) ts -> rtc dl_step (0, ts) s ->
  s.1 = total_bw s.2 /\ s.1 <= MAX_TOTAL_BANDWIDTH.
Proof.
  intros H0 Hr. cut (dl_inv s); [by intros (? & ? & _)|].
  assert (Hi : dl_inv (0, ts)).
  { assert (Hb : forall t, dl_period (dl t) = 0 -> task_bw t = 0).
    { intros t Ht. unfold task_bw, calc_bandwidth. cbn. by rewrite Ht. }
    split_and!; cbn [fst snd]; [|done|].
    - clear Hr. induction H0; cbn [total_bw fst snd] in *; [done|]. rewrite Hb by done. lia.
    - eapply Forall_impl; [exact H0|]. intros t Ht. unfold task_ok. rewrite Hb by done. rewrite Ht. lia. }
  remember (0, ts) as s0 eqn:E. clear E H0. induction Hr as [|s0 s1 s2 Hs _ IH]; [done|]. apply IH. clear IH.
  destruct Hs as [tb tb' ts' i t t' p r Hi0 Hop Hrt Hpr|tb tb' ts' i t t' Hi0 Hop|tb tb' ts' i t t' now Hi0 Hop|tb ts' i t t' now Hi0 Hop];
    pose proof Hi as (Etb & Hmax & Hf); cbn in Etb, Hmax, Hf;
    pose proof (total_bw_elem _ _ _ Hf Hi0) as Hle;
    assert (Hok : task_ok t) by (rewrite Forall_forall in Hf; by eapply Hf, list_elem_of_lookup_2);
    destruct Hok as [Hper Hbw].
  - apply set_deadline_cases in Hop as [(-> & -> & -> & _)|(-> & Hv & -> & Hm & Hp & _)]; try done; try lia.
    + by rewrite list_insert_id.
    + apply validate_true in Hv as (? & ? & ?). eapply dl_inv_update; eauto.
      split; [by rewrite <- Hp in Hpr; apply Hpr|]. unfold task_bw. rewrite Hp.
      apply bandwidth_range; lia.
  - pose proof (clear_deadline_total tb t _ _ Hper ltac:(lia) Hop) as [E1 E0].
    assert (Hok' : task_ok t') by (injection Hop as _ <-; by split).
    eapply dl_inv_update; eauto; lia.
  - apply miss_cases in Hop as [Hop|(-> & Hp & _)].
    + pose proof (clear_deadline_total tb (set_missed (u32 (dl_missed (dl t) + 1)) t) _ _ Hper
        ltac:(change (task_bw (set_missed _ t)) with (task_bw t); lia) Hop) as [E1 E0].
      change (task_bw (set_missed _ t)) with (task_bw t) in *.
      assert (Hok' : task_ok t') by (injection Hop as _ <-; by split).
      eapply dl_inv_update; eauto; lia.
    + assert (E : task_bw t' = task_bw t) by (unfold task_bw; by rewrite Hp).
      eapply dl_inv_update; eauto; [lia|]. split; [|by rewrite E].
      change (0 <= period (task_params t')). by rewrite Hp.
  - unfold replenish in Hop. destruct (Z.eqb_spec (dl_period (dl t)) 0); injection Hop as <-.
    + by rewrite list_insert_id.
    + eapply dl_inv_update; eauto; [change (task_bw (set_abs_deadline _ t)) with (task_bw t); lia|by split].
Qed.

(** [set_deadline] succeeds exactly when the parameters are valid (a positive
    runtime within the deadline, a deadline within the period) and the total
    without the task's old reservation and with its new one stays within 95%;
    when it fails neither the task nor the total changes. *)
Theorem set_deadline_admits tb t p :
  task_ok t -> task_bw t <= tb <= MAX_TOTAL_BANDWIDTH -> 0 <= runtime p < 2 ^ 64 ->
  exists tb' t' r, set_deadline tb (Some t) (Some p) = (tb', Some t', r) /\
    (r = 0 <-> validate_params (Some p) = true /\
               tb - task_bw t + calc_bandwidth (Some p) <= MAX_TOTAL_BANDWIDTH) /\
    (r = 0 -> task_params t' = p /\ policy t' = SCHED_DEADLINE /\
              tb' = tb - task_bw t + task_bw t') /\
    (r <> 0 -> r = -1 /\ tb' = tb /\ t' = t).
Proof.
  intros [Hper Hbw] Htb Hr.
  assert (exists tb' t' r, set_deadline tb (Some t) (Some p) = (tb', Some t', r)) as (tb' & t' & r & Hop).
  { unfold set_deadline. destruct (negb _); [eauto|]. destruct (negb _); eauto. }
  exists tb', t', r. split; [done|].
  apply set_deadline_cases in Hop as [(-> & -> & -> & Hbad)|(-> & Hv & E & Hm & Hp & Hpol)]; try done; try lia.
  - split; [|done]. split; [done|]. intros [Hv Hle]. destruct Hbad; [congruence|lia].
  - split_and!; [|done|done]. split; [|done]. intros _. split; [done|].
    assert (task_bw t' = calc_bandwidth (Some p)) as <- by (unfold task_bw; by rewrite Hp). lia.
Qed.

(** A task that is throttled after a miss is given the first deadline of its own
    grid of periods that lies after the current time. *)
Theorem throttle_catches_up tb t now :
  check_deadline_miss (Some t) now = true ->
  Z.land (dl_flags (dl t)) DL_FLAG_DEMOTE_ON_MISS = 0 ->
  Z.land (dl_flags (dl t)) DL_FLAG_THROTTLE_ON_MISS <> 0 ->
  0 < dl_period (dl t) < 2 ^ 62 -> 0 <= dl_abs_deadline (dl t) -> now < 2 ^ 62 ->
  exists t', handle_deadline_miss tb (Some t) now = (tb, Some t') /\
    now < dl_abs_deadline (dl t') <= now + dl_period (dl t) /\
    (dl_abs_deadline (dl t') - dl_abs_deadline (dl t)) mod dl_period (dl t) = 0 /\
    dl_missed (dl t') = u32 (dl_missed (dl t) + 1).
Proof.
  intros Hm Hd Ht Hp Ha Hn. unfold check_deadline_miss in Hm.
  destruct (bool_decide _); [|done]. cbn [negb] in Hm.
  destruct (Z.eqb_spec (dl_abs_deadline (dl t)) 0); [done|]. apply Z.ltb_lt in Hm.
  unfold handle_deadline_miss. set (t1 := set_missed _ t).
  change (dl_flags (dl t1)) with (dl_flags (dl t)). change (dl_period (dl t1)) with (dl_period (dl t)).
  change (dl_abs_deadline (dl t1)) with (dl_abs_deadline (dl t)).
  rewrite Hd. destruct (Z.eqb_spec (Z.land (dl_flags (dl t)) DL_FLAG_THROTTLE_ON_MISS) 0); [done|].
  cbn [negb Z.eqb andb]. destruct (Z.ltb_spec 0 (dl_period (dl t))); [|lia].
  destruct (Z.ltb_spec (dl_abs_deadline (dl t)) now); [|lia]. cbn [andb].
  rewrite (u64_small (now - _)) by lia.
  set (q := (now - dl_abs_deadline (dl t)) / dl_period (dl t)).
  pose proof (Z.div_mod (now - dl_abs_deadline (dl t)) (dl_period (dl t)) ltac:(lia)) as Hq. fold q in Hq.
  pose proof (Z.mod_pos_bound (now - dl_abs_deadline (dl t)) (dl_period (dl t)) ltac:(lia)) as Hrm.
  assert (0 <= q) by (apply Z.div_pos; lia). assert (q <= now) by nia.
  rewrite (u64_small (1 + q)) by lia. rewrite (u64_small ((1 + q) * _)) by nia. rewrite u64_small by nia.
  eexists. split; [done|]. cbn [dl set_abs_deadline set_dl dl_abs_deadline dl_missed t1 set_missed].
  split_and!; [nia|nia| |done].
  replace (dl_abs_deadline (dl t) + (1 + q) * dl_period (dl t) - dl_abs_deadline (dl t))
    with ((1 + q) * dl_period (dl t)) by lia. apply Z.mod_mul. lia.
Qed.

(** A runtime whose thousandfold is a multiple of 2^64. *)
Definition huge : DeadlineParams := mkParams (2 ^ 61) (2 ^ 61) (2 ^ 61).

(** The bandwidth computation overflows for very large runtimes: a task that asks
    for its whole period is then accounted no bandwidth and is admitted however
    much is already reserved. *)
Theorem overflow_admits tb t :
  dl_period (dl t) = 0 -> 0 <= tb <= MAX_TOTAL_BANDWIDTH ->
  runtime huge = period huge /\
  exists t', set_deadline tb (Some t) (Some huge) = (tb, Some t', 0).
Proof.
  intros Hp Htb. split; [done|]. unfold set_deadline. change (validate_params (Some huge)) with true.
  change (calc_bandwidth (Some huge)) with 0. rewrite Hp. cbn [negb Z.ltb Z.compare].
  change (u64 (0 - 0)) with 0. unfold can_admit, MAX_TOTAL_BANDWIDTH in *. rewrite Z.add_0_r, u64_small by lia.
  destruct (Z.leb_spec tb 950); [|lia]. cbn [negb]. eexists. rewrite Z.sub_0_r, u64_small by (rewrite u64_small; lia).
  rewrite u64_small by lia. rewrite Z.add_0_r. done.
Qed.

(** ** Witnesses *)

Definition demo_params : DeadlineParams := mkParams 300 900 1000.
Definition demo_task : Task := new_task 128.
Definition demo_set : Task :=
  match set_deadline 0 (Some demo_task) (Some demo_params) with (_, Some t, _) => t | _ => demo_task end.

Lemma admission_invariant_witness :
  300 = total_bw [demo_set; demo_task] /\ 300 <= MAX_TOTAL_BANDWIDTH.
Proof.
  apply (admission_invariant [demo_task; demo_task] (300, [demo_set; demo_task])); [by repeat constructor|].
  apply rtc_once. apply (step_set 0 300 [demo_task; demo_task] 0 demo_task demo_set demo_params 0); done.
Defined.

Lemma set_deadline_admits_witness :
  exists tb' t' r, set_deadline 700 (Some demo_task) (Some demo_params) = (tb', Some t', r) /\
    (r = 0 <-> validate_params (Some demo_params) = true /\ 1000 <= MAX_TOTAL_BANDWIDTH) /\
    (r = 0 -> task_params t' = demo_params /\ policy t' = SCHED_DEADLINE /\ tb' = 700 - 0 + task_bw t') /\
    (r <> 0 -> r = -1 /\ tb' = 700 /\ t' = demo_task).
Proof. apply (set_deadline_admits 700 demo_task demo_params); done. Defined.

Definition late_task : Task :=
  set_policy SCHED_DEADLINE (set_dl (mkDl 300 900 1000 5000 0 1) demo_task).

Lemma throttle_catches_up_witness :
  exists t', handle_deadline_miss 300 (Some late_task) 7500 = (300, Some t') /\
    7500 < dl_abs_deadline (dl t') <= 7500 + 1000 /\
    (dl_abs_deadline (dl t') - 5000) mod 1000 = 0 /\ dl_missed (dl t') = u32 (0 + 1).
Proof. apply (throttle_catches_up 300 late_task 7500); done. Defined.

Lemma overflow_admits_witness :
  runtime huge = period huge /\
  exists t', set_deadline 950 (Some demo_task) (Some huge) = (950, Some t', 0).
Proof. apply (overflow_admits 950 demo_task); done. Defined.

End Deadline.
