(* ===== verification/Sched.v ===== *)
(** * The per-CPU scheduler

    Models [src/kernel/sched/scheduler.cpp].  A task pointer is an integer; the
    idle task is the one [task::get_by_id(0)] returns.  The real-time queues,
    linked through the tasks, are lists of tasks, head first.  Locks are taken
    and released within each operation and are left out, except that
    [steal_task] gives up when it cannot take its victim's lock: whether it can
    is an argument.  The current CPU is an argument too.  The switch of address
    space and of register context at the end of [schedule] and [start], the
    debug output and the cross-CPU interrupt are not modelled. *)

From stdpp Require Import functions.
From S2P Require Import Prelude Task Heap Cfs.

Module Sched.
Import Task.

Definition MAX_CPUS : Z := 4.
Definition LOAD_BALANCE_INTERVAL : Z := 100.

(** A task heap without the indices stored in the tasks. *)
Record HeapArr := mkArr { hnodes : list Z; hsize : Z }.

Record PerCpuScheduler := mkCpu {
  deadline_heap : HeapArr;
  cfs_heap : HeapArr;
  rt_queues : list (list Z);
  rt_bitmap : Z;
  context_switches : Z;
  total_tasks : Z;
  steals : Z;
  migrations : Z;
  initialized : bool;
  queue_count : Z;
  min_vruntime : Z;
  cfs_nr_running : Z
}.

(** The scheduler, with the tasks it reads and writes: their fields, the heap
    index stored in them, and the current task of each CPU. *)
Record Sched := mkSched {
  tasks : Z -> Task;
  heap_index : Z -> Z;
  get_by_id : Z -> option Z;
  current : list (option Z);
  per_cpu_sched : list PerCpuScheduler;
  context_switch_count : Z;
  running : bool;
  load_balance_counter : Z
}.

(** ** Updates *)

Definition set_tasks f s := mkSched f (heap_index s) (get_by_id s) (current s) (per_cpu_sched s)
  (context_switch_count s) (running s) (load_balance_counter s).
Definition upd_task (t : Z) (f : Task -> Task) s := set_tasks (<[t := f (tasks s t)]> (tasks s)) s.
Definition set_index f s := mkSched (tasks s) f (get_by_id s) (current s) (per_cpu_sched s)
  (context_switch_count s) (running s) (load_balance_counter s).
Definition set_currents l s := mkSched (tasks s) (heap_index s) (get_by_id s) l (per_cpu_sched s)
  (context_switch_count s) (running s) (load_balance_counter s).
Definition set_cpus l s := mkSched (tasks s) (heap_index s) (get_by_id s) (current s) l
  (context_switch_count s) (running s) (load_balance_counter s).
Definition set_globals n r c s := mkSched (tasks s) (heap_index s) (get_by_id s) (current s)
  (per_cpu_sched s) n r c.

Definition set_deadline_heap h p := mkCpu h (cfs_heap p) (rt_queues p) (rt_bitmap p)
  (context_switches p) (total_tasks p) (steals p) (migrations p) (initialized p) (queue_count p)
  (min_vruntime p) (cfs_nr_running p).
Definition set_cfs_heap h p := mkCpu (deadline_heap p) h (rt_queues p) (rt_bitmap p)
  (context_switches p) (total_tasks p) (steals p) (migrations p) (initialized p) (queue_count p)
  (min_vruntime p) (cfs_nr_running p).
Definition set_rt qs bm p := mkCpu (deadline_heap p) (cfs_heap p) qs bm
  (context_switches p) (total_tasks p) (steals p) (migrations p) (initialized p) (queue_count p)
  (min_vruntime p) (cfs_nr_running p).
Definition set_counts total count p := mkCpu (deadline_heap p) (cfs_heap p) (rt_queues p)
  (rt_bitmap p) (context_switches p) total (steals p) (migrations p) (initialized p) count
  (min_vruntime p) (cfs_nr_running p).
Definition set_moves st mi p := mkCpu (deadline_heap p) (cfs_heap p) (rt_queues p)
  (rt_bitmap p) (context_switches p) (total_tasks p) st mi (initialized p) (queue_count p)
  (min_vruntime p) (cfs_nr_running p).
Definition set_cfs_stats mv nr p := mkCpu (deadline_heap p) (cfs_heap p) (rt_queues p)
  (rt_bitmap p) (context_switches p) (total_tasks p) (steals p) (migrations p) (initialized p)
  (queue_count p) mv nr.

Definition get_cpu (c : Z) s : res PerCpuScheduler := rd (per_cpu_sched s) c.
Definition put_cpu (c : Z) (p : PerCpuScheduler) s : res Sched :=
  l ← wr (per_cpu_sched s) c p; Ok (set_cpus l s).

(** Decrements the task counts of a CPU. *)
Definition less_one p := set_counts (u32 (total_tasks p - 1)) (u32 (queue_count p - 1)) p.
Definition one_more p := set_counts (u32 (total_tasks p + 1)) (u32 (queue_count p + 1)) p.

(** ** Heap calls *)

Definition cfs_key s (t : Z) : Z := vruntime (tasks s t).
Definition deadline_key s (t : Z) : Z := dl_abs_deadline (dl (tasks s t)).

Definition heap_of (h : HeapArr) s : Heap.TaskHeap := Heap.mkHeap (hnodes h) (hsize h) (heap_index s).

Definition heap_insert key (h : HeapArr) (t : Z) s : res (Sched * HeapArr * bool) :=
  '(h', ok) ← Heap.heap_insert key (Some t) (heap_of h s);
  Ok (set_index (Heap.heap_index h') s, mkArr (Heap.nodes h') (Heap.size h'), ok).

Definition heap_extract_min key (h : HeapArr) s : res (Sched * HeapArr * option Z) :=
  '(h', t) ← Heap.heap_extract_min key (heap_of h s);
  Ok (set_index (Heap.heap_index h') s, mkArr (Heap.nodes h') (Heap.size h'), t).

(** ** Helpers *)

Definition advance_min_vruntime (v : Z) (p : PerCpuScheduler) : PerCpuScheduler :=
  if min_vruntime p <? v then set_cfs_stats v (cfs_nr_running p) p else p.

Definition priority_to_queue (prio : Z) : Z := prio / PRIORITIES_PER_QUEUE.

Definition popcount (w : Z) : Z := Z.of_nat (length (List.filter (Z.testbit w) (seqZ 0 32))).
Definition ctz (w : Z) : Z := match List.filter (Z.testbit w) (seqZ 0 32) with i :: _ => i | [] => 32 end.

(** The least loaded initialised CPU of the affinity mask. *)
Definition least_loaded (affinity : Z) s : list Z -> Z * Z -> res (Z * Z) :=
  fix go (is_ : list Z) (best : Z * Z) : res (Z * Z) :=
    match is_ with
    | [] => Ok best
    | i :: is_ =>
        if Z.land affinity (u32 (Z.shiftl 1 i)) =? 0 then go is_ best
        else
          p ← get_cpu i s;
          if negb (initialized p) then go is_ best
          else if queue_count p <? best.2 then go is_ (i, queue_count p) else go is_ best
    end.

Definition select_target_cpu (current_cpu t : Z) s : res Z :=
  let affinity := cpu_affinity (tasks s t) in
  if popcount affinity =? 1 then Ok (ctz affinity)
  else
    p ← get_cpu current_cpu s;
    if negb (Z.land affinity (u32 (Z.shiftl 1 current_cpu)) =? 0) && initialized p
    then Ok current_cpu
    else '(best_cpu, _) ← least_loaded affinity s (seqZ 0 MAX_CPUS) (current_cpu, 4294967295);
         Ok best_cpu.

Definition any_ready_percpu (cpu_id : Z) s : res bool :=
  if MAX_CPUS <=? cpu_id then Ok false
  else p ← get_cpu cpu_id s;
       if negb (initialized p) then Ok false else Ok (0 <? queue_count p).

(** ** Enqueue *)

(** Inserts a task in the structure of its policy. *)
Definition insert_by_policy (t : Z) (p : PerCpuScheduler) s : res (Sched * PerCpuScheduler * bool) :=
  match policy (tasks s t) with
  | SCHED_DEADLINE =>
      '(s, h, inserted) ← heap_insert (deadline_key s) (deadline_heap p) t s;
      Ok (s, set_deadline_heap h p, inserted)
  | SCHED_OTHER =>
      let s := if negb (is_idle (tasks s t)) && (vruntime (tasks s t) <? min_vruntime p)
               then upd_task t (set_vruntime (min_vruntime p)) s else s in
      '(s, h, inserted) ← heap_insert (cfs_key s) (cfs_heap p) t s;
      let p := set_cfs_heap h p in
      if negb inserted then Ok (s, p, false)
      else if negb (is_idle (tasks s t))
      then Ok (s, set_cfs_stats (min_vruntime p) (u32 (cfs_nr_running p + 1)) p, true)
      else Ok (s, p, true)
  | SCHED_FIFO | SCHED_RR =>
      let q_idx := priority_to_queue (priority (tasks s t)) in
      queue ← rd (rt_queues p) q_idx;
      qs ← wr (rt_queues p) q_idx (queue ++ [t]);
      Ok (s, set_rt qs (Z.lor (rt_bitmap p) (u8 (Z.shiftl 1 q_idx))) p, true)
  end.

Definition heap_policy (p : SchedPolicy) : bool :=
  match p with SCHED_DEADLINE | SCHED_OTHER => true | _ => false end.

Definition enqueue_percpu_locked (t : option Z) (cpu_id : Z) s : res Sched :=
  match t with
  | None => Ok s
  | Some t =>
      if MAX_CPUS <=? cpu_id then Ok s
      else
        p ← get_cpu cpu_id s;
        if negb (initialized p) then Ok s
        else if negb (bool_decide (state (tasks s t) = Ready)) &&
                negb (bool_decide (state (tasks s t) = Running)) then Ok s
        else if heap_policy (policy (tasks s t)) && negb (heap_index s t =? Heap.NOT_IN_HEAP) then Ok s
        else
          '(s, p, inserted) ← insert_by_policy t p s;
          if (inserted : bool)
          then put_cpu cpu_id (one_more p) (upd_task t (set_state Ready) s)
          else put_cpu cpu_id p s
  end.

(** ** Dequeue *)

(** The scan of the real-time queues from the highest priority. *)
Fixpoint rt_scan (is_ : list Z) (p : PerCpuScheduler) : res (option (PerCpuScheduler * Z)) :=
  match is_ with
  | [] => Ok None
  | i :: is_ =>
      if Z.land (rt_bitmap p) (u32 (Z.shiftl 1 i)) =? 0 then rt_scan is_ p
      else
        queue ← rd (rt_queues p) i;
        match queue with
        | [] => rt_scan is_ p
        | t :: rest =>
            qs ← wr (rt_queues p) i rest;
            let bm := match rest with
                      | [] => Z.land (rt_bitmap p) (u8 (Z.lnot (Z.shiftl 1 i)))
                      | _ => rt_bitmap p
                      end in
            Ok (Some (set_rt qs bm p, t))
        end
  end.

(** The third class: the task of least virtual runtime. *)
Definition dequeue_cfs (cpu_id : Z) (p : PerCpuScheduler) s : res (Sched * option Z) :=
  if negb (hsize (cfs_heap p) =? 0) then
    '(s, h, t) ← heap_extract_min (cfs_key s) (cfs_heap p) s;
    let p := set_cfs_heap h p in
    match t with
    | Some t =>
        let p := if negb (is_idle (tasks s t))
                 then advance_min_vruntime (vruntime (tasks s t))
                        (set_cfs_stats (min_vruntime p) (u32 (cfs_nr_running p - 1)) p)
                 else p in
        s ← put_cpu cpu_id (less_one p) s; Ok (s, Some t)
    | None => s ← put_cpu cpu_id p s; Ok (s, None)
    end
  else Ok (s, None).

Definition dequeue_rt (cpu_id : Z) (p : PerCpuScheduler) s : res (Sched * option Z) :=
  r ← (if negb (rt_bitmap p =? 0) then rt_scan (seqZ 0 NUM_PRIORITY_QUEUES) p else Ok None);
  match r with
  | Some (p, t) => s ← put_cpu cpu_id (less_one p) s; Ok (s, Some t)
  | None => dequeue_cfs cpu_id p s
  end.

Definition dequeue_percpu_locked (cpu_id : Z) s : res (Sched * option Z) :=
  if MAX_CPUS <=? cpu_id then Ok (s, None)
  else
    p ← get_cpu cpu_id s;
    if negb (initialized p) then Ok (s, None)
    else if negb (hsize (deadline_heap p) =? 0) then
      '(s, h, t) ← heap_extract_min (deadline_key s) (deadline_heap p) s;
      let p := set_deadline_heap h p in
      match t with
      | Some t => s ← put_cpu cpu_id (less_one p) s; Ok (s, Some t)
      | None => dequeue_rt cpu_id p s
      end
    else dequeue_rt cpu_id p s.

(** ** Work stealing *)

Fixpoint most_loaded (current_cpu : Z) (is_ : list Z) (best : Z * Z) s : res (Z * Z) :=
  match is_ with
  | [] => Ok best
  | i :: is_ =>
      if i =? current_cpu then most_loaded current_cpu is_ best s
      else
        p ← get_cpu i s;
        if negb (initialized p) then most_loaded current_cpu is_ best s
        else
          let load := queue_count p in
          if (best.2 <? load) && (2 <=? load) then most_loaded current_cpu is_ (i, load) s
          else most_loaded current_cpu is_ best s
  end.

(** Takes the root of a heap of the victim if its affinity allows. *)
Definition steal_from key (mask : Z) (h : HeapArr) (s : Sched)
  : res (option (Sched * HeapArr * Z)) :=
  if hsize h =? 0 then Ok None
  else
    candidate ← Heap.heap_peek (heap_of h s);
    match candidate with
    | None => Ok None
    | Some c =>
        if Z.land (cpu_affinity (tasks s c)) mask =? 0 then Ok None
        else '(s, h, t) ← heap_extract_min key h s;
             match t with Some t => Ok (Some (s, h, t)) | None => Ok None end
    end.

Definition migrated p := set_moves (steals p) (u32 (migrations p + 1)) (less_one p).

Definition steal_task (got_lock : bool) (current_cpu : Z) s : res (Sched * option Z) :=
  let cpu_mask := u32 (Z.shiftl 1 current_cpu) in
  '(victim_cpu, _) ← most_loaded current_cpu (seqZ 0 MAX_CPUS) (current_cpu, 0) s;
  if victim_cpu =? current_cpu then Ok (s, None)
  else if negb got_lock then Ok (s, None)
  else
    victim ← get_cpu victim_cpu s;
    r ← steal_from (cfs_key s) cpu_mask (cfs_heap victim) s;
    '(s, stolen) ←
      match r with
      | Some (s, h, t) =>
          s ← put_cpu victim_cpu (migrated (set_cfs_heap h victim)) s; Ok (s, Some t)
      | None =>
          r ← steal_from (deadline_key s) cpu_mask (deadline_heap victim) s;
          match r with
          | Some (s, h, t) =>
              s ← put_cpu victim_cpu (migrated (set_deadline_heap h victim)) s; Ok (s, Some t)
          | None => Ok (s, None)
          end
      end;
    match stolen with
    | Some t =>
        p ← get_cpu current_cpu s;
        s ← put_cpu current_cpu (set_moves (u32 (steals p + 1)) (migrations p) p) s;
        Ok (s, Some t)
    | None => Ok (s, None)
    end.

(** ** Initialisation *)

Definition clear_heap (h : HeapArr) : HeapArr := mkArr (hnodes h) 0.

Definition init_percpu (p : PerCpuScheduler) : PerCpuScheduler :=
  mkCpu (clear_heap (deadline_heap p)) (clear_heap (cfs_heap p))
    (replicate (Z.to_nat NUM_PRIORITY_QUEUES) []) 0 0 0 0 0 false 0 (min_vruntime p)
    (cfs_nr_running p).

Definition init s : res Sched :=
  let s := set_cpus (init_percpu <$> per_cpu_sched s) s in
  p ← get_cpu 0 s;
  s ← put_cpu 0 (mkCpu (deadline_heap p) (cfs_heap p) (rt_queues p) (rt_bitmap p)
        (context_switches p) (total_tasks p) (steals p) (migrations p) true (queue_count p)
        (min_vruntime p) (cfs_nr_running p)) s;
  Ok (set_globals 0 false (load_balance_counter s) s).

Definition init_cpu (cpu_id : Z) s : res Sched :=
  if MAX_CPUS <=? cpu_id then Ok s
  else
    p ← get_cpu cpu_id s;
    put_cpu cpu_id (mkCpu (clear_heap (deadline_heap p)) (clear_heap (cfs_heap p))
      (replicate (Z.to_nat NUM_PRIORITY_QUEUES) []) 0 0 0 0 0 true 0 0 0) s.

(** ** Entry points *)

(** The guard of [enqueue] touches the lock of the target CPU first. *)
Definition enqueue (current_cpu : Z) (t : option Z) s : res Sched :=
  match t with
  | None => Ok s
  | Some t' =>
      target_cpu ← select_target_cpu current_cpu t' s;
      _ ← get_cpu target_cpu s;
      enqueue_percpu_locked t target_cpu s
  end.

Definition dequeue (got_lock : bool) (cpu_id : Z) s : res (Sched * option Z) :=
  '(s, t) ← dequeue_percpu_locked cpu_id s;
  match t with
  | Some _ => Ok (s, t)
  | None => steal_task got_lock cpu_id s
  end.

(** The time slice given to a task that is about to run. *)
Definition slice_for (t : Task) : res Z :=
  match policy t with
  | SCHED_DEADLINE =>
      let sl := u32 (dl_runtime (dl t) / 1000000) in Ok (if sl =? 0 then 1 else sl)
  | SCHED_FIFO => Ok 4294967295
  | SCHED_RR => Ok RT_TIME_SLICE_DEFAULT
  | SCHED_OTHER => time_slice_for_priority (priority t)
  end.

(** What [schedule] does with the task that leaves the CPU. *)
Definition put_back (cpu_id cur : Z) s : res Sched :=
  if bool_decide (state (tasks s cur) = Running) then
    original_slice ← time_slice_for_priority (priority (tasks s cur));
    let ticks_used := u32 (original_slice - time_slice (tasks s cur)) in
    let s := upd_task cur (fun t => set_stats (u64 (cpu_ticks t + ticks_used)) (switch_count t) t) s in
    s ← (if bool_decide (policy (tasks s cur) = SCHED_OTHER) && negb (is_idle (tasks s cur))
            && (ticks_used =? 0) then
           delta ← Cfs.calc_vruntime_delta (Cfs.MIN_GRANULARITY_US * 1000) (nice (tasks s cur));
           Ok (upd_task cur (fun t => set_vruntime (u64 (vruntime t + delta)) t) s)
         else Ok s);
    enqueue_percpu_locked (Some cur) cpu_id (upd_task cur (set_state Ready) s)
  else Ok s.

(** Makes [next] the current task. *)
Definition switch_to (cpu_id next : Z) s : res Sched :=
  let s := upd_task next (set_state Running) s in
  sl ← slice_for (tasks s next);
  let s := upd_task next (set_time_slice sl) s in
  let s := upd_task next (fun t => set_stats (cpu_ticks t) (u64 (switch_count t + 1)) t) s in
  let s := set_globals (u64 (context_switch_count s + 1)) (running s) (load_balance_counter s) s in
  l ← wr (current s) cpu_id (Some next);
  Ok (set_currents l s).

Definition schedule (got_lock : bool) (cpu_id : Z) s : res Sched :=
  cur ← rd (current s) cpu_id;
  '(s, next) ← dequeue_percpu_locked cpu_id s;
  '(s, next) ← match next with
               | Some _ => Ok (s, next)
               | None =>
                   '(s, next) ← steal_task got_lock cpu_id s;
                   match next with
                   | Some _ => Ok (s, next)
                   | None => Ok (s, if bool_decide (get_by_id s 0 = cur) then None else get_by_id s 0)
                   end
               end;
  match next with
  | None => Ok s
  | Some next =>
      if bool_decide (cur = Some next) then Ok (upd_task next (set_state Running) s)
      else
        s ← match cur with Some c => put_back cpu_id c s | None => Ok s end;
        if negb (bool_decide (state (tasks s next) = Ready)) &&
           negb (bool_decide (get_by_id s 0 = Some next)) then Ok s
        else switch_to cpu_id next s
  end.

(** The time slice accounting of [tick]; the result says whether to reschedule. *)
Definition charge_tick (cur : Z) s : res (Sched * bool) :=
  match policy (tasks s cur) with
  | SCHED_FIFO => Ok (s, false)
  | SCHED_RR =>
      let s := if 0 <? time_slice (tasks s cur)
               then upd_task cur (fun t => set_time_slice (time_slice t - 1) t) s else s in
      Ok (s, time_slice (tasks s cur) =? 0)
  | _ =>
      s ← (if 0 <? time_slice (tasks s cur) then
             let s := upd_task cur (fun t => set_time_slice (time_slice t - 1) t) s in
             delta ← Cfs.calc_vruntime_delta 1000000 (nice (tasks s cur));
             Ok (upd_task cur (fun t => set_vruntime (u64 (vruntime t + delta)) t) s)
           else Ok s);
      Ok (s, time_slice (tasks s cur) =? 0)
  end.

Definition tick (got_lock : bool) (cpu_id : Z) s : res Sched :=
  if negb (running s) then Ok s
  else
    cur ← rd (current s) cpu_id;
    match cur with
    | None => Ok s
    | Some cur =>
        ready ← any_ready_percpu cpu_id s;
        '(s, need) ←
          (if is_idle (tasks s cur) then Ok (s, ready)
           else
             '(s, need) ← charge_tick cur s;
             if negb need && ready then
               p ← get_cpu cpu_id s;
               let need := negb (hsize (deadline_heap p) =? 0)
                           && negb (bool_decide (policy (tasks s cur) = SCHED_DEADLINE)) in
               Ok (s, need || (negb (rt_bitmap p =? 0)
                               && bool_decide (policy (tasks s cur) = SCHED_OTHER)))
             else Ok (s, need));
        if (need : bool) then schedule got_lock cpu_id s else Ok s
    end.

Definition preempt (got_lock : bool) (cpu_id : Z) s : res Sched :=
  if negb (running s) then Ok s
  else
    cur ← rd (current s) cpu_id;
    match cur with
    | None => Ok s
    | Some cur =>
        if bool_decide (policy (tasks s cur) = SCHED_FIFO) then Ok s
        else if time_slice (tasks s cur) =? 0 then schedule got_lock cpu_id s else Ok s
    end.

(** [start], up to the switch to the first task; [None] when there is no task
    to run and the kernel stops. *)
Definition start (got_lock : bool) (cpu_id : Z) s : res (option Sched) :=
  let s := set_globals (context_switch_count s) true (load_balance_counter s) s in
  '(s, first) ← dequeue got_lock cpu_id s;
  match (match first with Some _ => first | None => get_by_id s 0 end) with
  | None => Ok None
  | Some first =>
      let s := upd_task first (set_state Running) s in
      sl ← slice_for (tasks s first);
      let s := upd_task first (set_time_slice sl) s in
      l ← wr (current s) cpu_id (Some first);
      let s := set_currents l s in
      Ok (Some (set_globals (u64 (context_switch_count s + 1)) true (load_balance_counter s) s))
  end.

Definition get_queue_length (cpu_id queue_idx : Z) s : res Z :=
  if NUM_PRIORITY_QUEUES <=? queue_idx then Ok 0
  else p ← get_cpu cpu_id s; q ← rd (rt_queues p) queue_idx; Ok (Z.of_nat (length q)).

Definition enqueue_on_cpu (current_cpu : Z) (t : option Z) (cpu_id : Z) s : res Sched :=
  match t with
  | None => Ok s
  | Some _ =>
      if MAX_CPUS <=? cpu_id then Ok s
      else
        p ← get_cpu cpu_id s;
        let cpu_id := if negb (initialized p) then current_cpu else cpu_id in
        enqueue_percpu_locked t cpu_id s
  end.

(** Context switches, queue length, steals and migrations of a CPU. *)
Definition get_percpu_stats (cpu_id : Z) s : res (option (Z * Z * Z * Z)) :=
  if MAX_CPUS <=? cpu_id then Ok None
  else p ← get_cpu cpu_id s;
       if negb (initialized p) then Ok (Some (0, 0, 0, 0))
       else Ok (Some (context_switches p, total_tasks p, steals p, migrations p)).

Definition is_running (s : Sched) : bool := running s.
Definition get_context_switches (s : Sched) : Z := context_switch_count s.

Record Stats := mkStats {
  st_context_switches : Z; queue_lengths : list Z; total_ready : Z;
  blocked_tasks : Z; exited_tasks : Z
}.

(** Adds the tasks that wait on one CPU. *)
Definition add_cpu_stats (p : PerCpuScheduler) (st : Stats) : Stats :=
  if negb (initialized p) then st
  else
    let lens := (fun q => Z.of_nat (length q)) <$> rt_queues p in
    mkStats (st_context_switches st) (zip_with (fun a b => u32 (a + b)) (queue_lengths st) lens)
      (u32 (total_ready st + hsize (deadline_heap p) + hsize (cfs_heap p) + foldr Z.add 0 lens))
      (blocked_tasks st) (exited_tasks st).

(** Counts a task of the table that is blocked or exited. *)
Definition add_task_stats (s : Sched) (st : Stats) (i : Z) : Stats :=
  match get_by_id s i with
  | None => st
  | Some t =>
      match state (tasks s t) with
      | Blocked => mkStats (st_context_switches st) (queue_lengths st) (total_ready st)
                     (u32 (blocked_tasks st + 1)) (exited_tasks st)
      | Exited => mkStats (st_context_switches st) (queue_lengths st) (total_ready st)
                    (blocked_tasks st) (u32 (exited_tasks st + 1))
      | _ => st
      end
  end.

Definition get_stats (s : Sched) : Stats :=
  let st := mkStats (context_switch_count s) (replicate (Z.to_nat NUM_PRIORITY_QUEUES) 0) 0 0 0 in
  let st := foldl (fun st p => add_cpu_stats p st) st (per_cpu_sched s) in
  foldl (add_task_stats s) st (seqZ 0 MAX_TASKS).

(** The most and the least loaded CPU, with their loads. *)
Definition load_extremes s (is_ : list Z) : Z * Z * (Z * Z) -> res (Z * Z * (Z * Z)) :=
  foldM (fun '(max_load, max_cpu, (min_load, min_cpu)) i =>
    p ← get_cpu i s;
    if negb (initialized p) then Ok (max_load, max_cpu, (min_load, min_cpu))
    else
      let load := total_tasks p in
      let '(max_load, max_cpu) := if max_load <? load then (load, i) else (max_load, max_cpu) in
      let '(min_load, min_cpu) := if load <? min_load then (load, i) else (min_load, min_cpu) in
      Ok (max_load, max_cpu, (min_load, min_cpu))) is_.

Definition balance_load (got_lock : bool) (current_cpu : Z) s : res Sched :=
  let counter := u32 (load_balance_counter s + 1) in
  if counter <? LOAD_BALANCE_INTERVAL
  then Ok (set_globals (context_switch_count s) (running s) counter s)
  else
    let s := set_globals (context_switch_count s) (running s) 0 s in
    '(max_load, max_cpu, (min_load, min_cpu)) ←
      load_extremes s (seqZ 0 MAX_CPUS) (0, current_cpu, (4294967295, current_cpu));
    if (u32 (min_load + 2) <? max_load) && negb (max_cpu =? min_cpu) then
      '(s, stolen) ← steal_task got_lock min_cpu s;
      match stolen with
      | Some t => enqueue_on_cpu current_cpu (Some t) min_cpu s
      | None => Ok s
      end
    else Ok s.

End Sched.
