(* ===== verification/SchedSpec.v ===== *)
(** * Correctness of the per-CPU scheduler

    The tasks waiting on a CPU are the members of its two heaps and of its
    real-time queues.  Enqueueing adds a task to the structure of its policy,
    dequeueing removes the task the selection order prescribes, and both keep
    the heaps ordered, the bitmap exact and the counters equal to the number of
    waiting tasks. *)

From stdpp Require Import functions.
From S2P Require Import Prelude Task Heap HeapSpec Cfs Sched.

Module SchedSpec.
Import Task Sched.
Import HeapSpec(hwf, ordered, kf, contents, nd, hw_index, elem_contents).

(** ** The waiting tasks of a CPU *)

Definition members (h : HeapArr) : list Z := take (Z.to_nat (hsize h)) (hnodes h).
Definition waiting (p : PerCpuScheduler) : list Z :=
  members (deadline_heap p) ++ concat (rt_queues p) ++ members (cfs_heap p).

(** A heap of the scheduler is well formed and ordered by its key. *)
Definition heap_wf (s : Sched) (key : Z -> Z) (h : HeapArr) : Prop :=
  hwf (heap_of h s) /\ ordered (hsize h) (kf key (heap_of h s)).

Record cpu_wf (s : Sched) (p : PerCpuScheduler) : Prop := {
  cw_dl : heap_wf s (deadline_key s) (deadline_heap p);
  cw_cfs : heap_wf s (cfs_key s) (cfs_heap p);
  cw_disj : forall t, t ∈ members (deadline_heap p) -> t ∉ members (cfs_heap p);
  cw_queues : length (rt_queues p) = Z.to_nat NUM_PRIORITY_QUEUES;
  cw_bitmap : in_width 8 (rt_bitmap p) /\ forall (i : nat) q, rt_queues p !! i = Some q ->
    Z.testbit (rt_bitmap p) (Z.of_nat i) = negb (bool_decide (q = []));
  cw_count : total_tasks p = queue_count p /\
    queue_count p = Z.of_nat (length (waiting p)) /\ queue_count p < 2 ^ 32
}.

(** A heap whose members keep their index and their key stays well formed. *)
Lemma heap_frame s s' key key' h :
  heap_wf s key h ->
  (forall u, u ∈ members h -> heap_index s' u = heap_index s u) ->
  (forall u, u ∈ members h -> key' u = key u) ->
  heap_wf s' key' h.
Proof.
  intros [Hw Ho] Hi Hk.
  assert (Hin : forall i, 0 <= i < hsize h -> nd (heap_of h s) i ∈ members h).
  { intros i Hr. apply (elem_contents (heap_of h s)); [done|]. by exists i. }
  split.
  - destruct Hw as [H1 H2 H3]. split; [done|done|]. intros i Hr. cbn in Hr.
    change (nd (heap_of h s') i) with (nd (heap_of h s) i).
    change (Heap.heap_index (heap_of h s')) with (heap_index s').
    rewrite Hi by (by apply Hin). by apply H3.
  - intros i Hr. pose proof (HeapSpec.par_lt i ltac:(lia)). unfold kf.
    change (nd (heap_of h s')) with (nd (heap_of h s)). rewrite !Hk by (apply Hin; lia). by apply Ho.
Qed.

(** ** Heap calls *)

Lemma extract_ok s key h :
  heap_wf s key h ->
  exists hi h' r, heap_extract_min key h s = Ok (set_index hi s, h', r) /\
    match r with
    | None => hi = heap_index s /\ h' = h /\ members h = []
    | Some t => members h ≡ₚ t :: members h' /\ (forall u, u ∈ members h -> key t <= key u) /\
                heap_wf (set_index hi s) key h' /\
                (forall u, u ∉ members h -> hi u = heap_index s u)
    end.
Proof.
  intros [Hw Ho]. unfold heap_extract_min.
  destruct (HeapSpec.heap_extract_ok key (heap_of h s) Hw Ho) as (h' & r & -> & Hr).
  cbn [mbind res_bind]. exists (Heap.heap_index h'), (mkArr (Heap.nodes h') (Heap.size h')), r.
  split; [done|]. destruct r as [t|].
  - destruct Hr as (Hp & Hmin & _ & Hw' & Ho' & Hfr). split_and!; [done|done| |done].
    split; [by destruct h'|by destruct h'].
  - destruct Hr as [-> Hnil]. split_and!; [done|by destruct h|done].
Qed.

Lemma insert_ok s key h t :
  heap_wf s key h -> hsize h < Heap.HEAP_MAX_SIZE -> heap_index s t = Heap.NOT_IN_HEAP ->
  exists hi h', heap_insert key h t s = Ok (set_index hi s, h', true) /\
    members h' ≡ₚ t :: members h /\ heap_wf (set_index hi s) key h' /\
    (forall u, u ∉ members h -> u <> t -> hi u = heap_index s u).
Proof.
  intros [Hw Ho] Hs Ht. unfold heap_insert.
  destruct (HeapSpec.heap_insert_ok key (heap_of h s) t Hw Ho) as (h' & r & -> & Hr).
  cbn [mbind res_bind]. exists (Heap.heap_index h'), (mkArr (Heap.nodes h') (Heap.size h')).
  destruct r; [|destruct Hr as [_ [Hr|Hr]]; cbn in Hr; [lia|done]].
  destruct Hr as (Hw' & Ho' & Hp & _ & Hfr). split_and!; [done|done| |done].
  split; [by destruct h'|by destruct h'].
Qed.

(** A task in a heap has a heap index. *)
Lemma not_member s key h t : heap_wf s key h -> heap_index s t = Heap.NOT_IN_HEAP -> t ∉ members h.
Proof.
  intros [Hw _] Ht Hin. apply (elem_contents (heap_of h s)) in Hin as (i & Hi & E); [|done].
  pose proof (hw_index _ Hw i Hi) as Hx. rewrite E in Hx. change (heap_index s t = i) in Hx.
  pose proof (HeapSpec.hw_size _ Hw) as Hs. cbn in Hs, Hi.
  unfold Heap.NOT_IN_HEAP, Heap.HEAP_MAX_SIZE in *. lia.
Qed.

Lemma empty_members s key h : heap_wf s key h -> hsize h = 0 -> members h = [].
Proof. intros _ E. unfold members. by rewrite E. Qed.

Lemma nonempty_members s key h : heap_wf s key h -> hsize h <> 0 -> members h <> [].
Proof.
  intros [Hw _] Hne E. apply (f_equal length) in E. unfold members in E.
  pose proof (HeapSpec.hw_size _ Hw) as Hs. pose proof (HeapSpec.hw_length _ Hw) as Hl. cbn in Hs, Hl.
  rewrite length_take, Hl in E. unfold Heap.HEAP_MAX_SIZE in *. simpl in E. lia.
Qed.

(** ** Access to a CPU *)

Lemma get_put c p p' s :
  get_cpu c s = Ok p ->
  exists s', put_cpu c p' s = Ok s' /\ get_cpu c s' = Ok p' /\
    s' = set_cpus (<[Z.to_nat c := p']> (per_cpu_sched s)) s.
Proof.
  unfold get_cpu, put_cpu. intros (Hc & Hl)%rd_inv. pose proof (lookup_lt_Some _ _ _ Hl).
  rewrite wr_Z by lia. cbn [mbind res_bind]. eexists. split_and!; [done| |done].
  cbn. apply rd_Z; [done|]. by apply list_lookup_insert_eq.
Qed.

(** ** The real-time queues *)

(** The head of queue [i], the first one that is not empty. *)
Definition rt_first (p : PerCpuScheduler) (i : nat) (t : Z) (rest : list Z) : Prop :=
  rt_queues p !! i = Some (t :: rest) /\ forall j, (j < i)%nat -> rt_queues p !! j = Some [].

Lemma rt_scan_ok s p n : forall k,
  cpu_wf s p -> (k + n = 8)%nat -> (forall j, (j < k)%nat -> rt_queues p !! j = Some []) ->
  (exists i t rest qs, (i < 8)%nat /\ rt_first p i t rest /\ qs = <[i := rest]> (rt_queues p) /\
     rt_scan (seqZ (Z.of_nat k) (Z.of_nat n)) p =
       Ok (Some (set_rt qs (match rest with
                            | [] => Z.land (rt_bitmap p) (u8 (Z.lnot (Z.shiftl 1 (Z.of_nat i))))
                            | _ => rt_bitmap p end) p, t))) \/
  (rt_scan (seqZ (Z.of_nat k) (Z.of_nat n)) p = Ok None /\
   forall j, (j < 8)%nat -> rt_queues p !! j = Some []).
Proof.
  induction n as [|n IH]; intros k Hw Hk Hprev.
  { right. split; [done|]. intros j Hj. apply Hprev. lia. }
  destruct (cw_bitmap _ _ Hw) as [Hbm Hbits].
  destruct (lookup_lt_is_Some_2 (rt_queues p) k) as [q Hq].
  { rewrite (cw_queues _ _ Hw). unfold NUM_PRIORITY_QUEUES. lia. }
  rewrite Nat2Z.inj_succ, seqZ_cons, Z.pred_succ by lia. cbn [rt_scan].
  rewrite (one_bit_small 32), land_bit, (Hbits k q) by (done || lia).
  destruct (bool_decide_reflect (q = [])) as [->|Hne]; cbn [negb].
  - rewrite <- Nat2Z.inj_succ. apply IH; [done|lia|]. intros j Hj.
    destruct (decide (j = k)) as [->|]; [done|apply Hprev; lia].
  - destruct q as [|t rest]; [done|]. rewrite (rd_nat _ _ _ Hq). cbn [mbind res_bind].
    rewrite wr_nat by (by eapply lookup_lt_Some). cbn [mbind res_bind].
    left. exists k, t, rest. eexists. by split_and!; [lia| | |].
Qed.

Lemma concat_insert (qs : list (list Z)) (i : nat) q q' :
  qs !! i = Some q ->
  exists rest, concat qs ≡ₚ q ++ rest /\ concat (<[i := q']> qs) ≡ₚ q' ++ rest.
Proof.
  intros Hi. exists (concat (take i qs) ++ concat (drop (S i) qs)).
  rewrite insert_take_drop by (by eapply lookup_lt_Some).
  rewrite <- (take_drop_middle qs i q Hi) at 1. rewrite !concat_app. cbn [concat].
  split; apply Permutation_app_swap_app.
Qed.

Lemma rt_empty_concat s p :
  cpu_wf s p -> (forall j, (j < 8)%nat -> rt_queues p !! j = Some []) -> concat (rt_queues p) = [].
Proof.
  intros Hw Hall. assert (E : rt_queues p = replicate 8 []).
  { apply list_eq. intros j. destruct (decide (j < 8)%nat) as [Hj|Hj].
    - rewrite Hall, lookup_replicate_2 by done. done.
    - rewrite !lookup_ge_None_2; [done|rewrite length_replicate; lia|].
      rewrite (cw_queues _ _ Hw). unfold NUM_PRIORITY_QUEUES. lia. }
  by rewrite E.
Qed.

Lemma bitmap_zero s p j :
  cpu_wf s p -> rt_bitmap p = 0 -> (j < 8)%nat -> rt_queues p !! j = Some [].
Proof.
  intros Hw E Hj. destruct (lookup_lt_is_Some_2 (rt_queues p) j) as [q Hq].
  { rewrite (cw_queues _ _ Hw). unfold NUM_PRIORITY_QUEUES. lia. }
  pose proof (proj2 (cw_bitmap _ _ Hw) j q Hq) as Hb. rewrite E, Z.bits_0 in Hb.
  destruct (bool_decide_reflect (q = [])); [by subst|done].
Qed.

(** ** Dequeue *)

(** The task chosen is the one of earliest deadline if there is a deadline task,
    else the head of the first real-time queue that is not empty, else the task
    of least virtual runtime. *)
Definition chosen (s : Sched) (p : PerCpuScheduler) (t : Z) : Prop :=
  (t ∈ members (deadline_heap p) /\
     forall u, u ∈ members (deadline_heap p) -> deadline_key s t <= deadline_key s u) \/
  (members (deadline_heap p) = [] /\ exists i rest, rt_first p i t rest) \/
  (members (deadline_heap p) = [] /\ concat (rt_queues p) = [] /\ t ∈ members (cfs_heap p) /\
     forall u, u ∈ members (cfs_heap p) -> cfs_key s t <= cfs_key s u).

Definition dequeued (c : Z) (s s' : Sched) (p : PerCpuScheduler) (t : Z) : Prop :=
  exists p', get_cpu c s' = Ok p' /\ cpu_wf s' p' /\ initialized p' = initialized p /\
    tasks s' = tasks s /\ waiting p ≡ₚ t :: waiting p' /\ chosen s p t /\
    min_vruntime p <= min_vruntime p'.

(** The counters after one task left. *)
Lemma less_one_wf s p p' t :
  cpu_wf s p -> waiting p ≡ₚ t :: waiting p' -> total_tasks p' = total_tasks p ->
  queue_count p' = queue_count p ->
  total_tasks (less_one p') = queue_count (less_one p') /\
  queue_count (less_one p') = Z.of_nat (length (waiting (less_one p'))) /\
  queue_count (less_one p') < 2 ^ 32.
Proof.
  intros Hw Hp Et Eq. destruct (cw_count _ _ Hw) as (E1 & E2 & E3).
  apply Permutation_length in Hp. cbn [length] in Hp.
  change (waiting (less_one p')) with (waiting p'). unfold less_one. cbn [total_tasks queue_count set_counts].
  rewrite Et, Eq, E1, E2, Hp in *. rewrite u32_small by lia. lia.
Qed.

Lemma dequeue_cfs_ok c s p :
  cpu_wf s p -> get_cpu c s = Ok p -> members (deadline_heap p) = [] -> concat (rt_queues p) = [] ->
  exists s' r, dequeue_cfs c p s = Ok (s', r) /\
    match r with Some t => dequeued c s s' p t | None => s' = s /\ waiting p = [] end.
Proof.
  intros Hw Hc Hdl Hrt. unfold dequeue_cfs.
  destruct (Z.eqb_spec (hsize (cfs_heap p)) 0) as [E|Hne]; cbn [negb].
  { exists s, None. split_and!; [done|done|]. unfold waiting.
    by rewrite Hdl, Hrt, (empty_members s _ _ (cw_cfs _ _ Hw) E). }
  destruct (extract_ok s (cfs_key s) (cfs_heap p) (cw_cfs _ _ Hw)) as (hi & h' & r & -> & Hr).
  cbn [mbind res_bind]. destruct r as [t|].
  2:{ destruct Hr as (_ & _ & Hnil). by destruct (nonempty_members _ _ _ (cw_cfs _ _ Hw) Hne). }
  destruct Hr as (Hp & Hmin & Hwf' & Hfr). change (tasks (set_index hi s)) with (tasks s).
  set (p1 := if negb (is_idle (tasks s t)) then _ else _).
  assert (Hp1 : deadline_heap p1 = deadline_heap p /\ cfs_heap p1 = h' /\ rt_queues p1 = rt_queues p /\
    rt_bitmap p1 = rt_bitmap p /\ total_tasks p1 = total_tasks p /\ queue_count p1 = queue_count p /\
    initialized p1 = initialized p /\ min_vruntime p <= min_vruntime p1).
  { unfold p1, advance_min_vruntime. destruct (negb _); [|by cbn]. case_cmp; cbn in *; split_and!; done || lia. }
  clearbody p1. destruct Hp1 as (E1 & E2 & E3 & E4 & E5 & E6 & E7 & Hmv).
  destruct (get_put c p (less_one p1) (set_index hi s) Hc) as (s' & -> & Hget & ->).
  cbn [mbind res_bind]. eexists _, (Some t). split; [done|]. exists (less_one p1).
  assert (Hwait : waiting p ≡ₚ t :: waiting p1).
  { unfold waiting. rewrite E1, E2, E3, Hdl, Hrt. simpl. done. }
  split_and!; [done| |done|done|done| |done].
  - split; cbn [deadline_heap cfs_heap rt_queues rt_bitmap less_one set_counts]; rewrite ?E1, ?E2, ?E3, ?E4.
    + eapply heap_frame; [apply (cw_dl _ _ Hw)| |done]. rewrite Hdl. by intros u ?%not_elem_of_nil.
    + done.
    + rewrite Hdl. by intros u ?%not_elem_of_nil.
    + apply Hw.
    + apply Hw.
    + by eapply less_one_wf.
  - right. right. split_and!; [done|done| |done]. rewrite Hp. left.
Qed.

Lemma dequeue_rt_ok c s p :
  cpu_wf s p -> get_cpu c s = Ok p -> members (deadline_heap p) = [] ->
  exists s' r, dequeue_rt c p s = Ok (s', r) /\
    match r with Some t => dequeued c s s' p t | None => s' = s /\ waiting p = [] end.
Proof.
  intros Hw Hc Hdl. unfold dequeue_rt.
  destruct (Z.eqb_spec (rt_bitmap p) 0) as [E|Hne]; cbn [negb].
  { cbn [mbind res_bind]. apply dequeue_cfs_ok; try done. eapply rt_empty_concat; [done|].
    intros j Hj. by eapply bitmap_zero. }
  destruct (rt_scan_ok s p 8 0 Hw eq_refl ltac:(lia)) as [(i & t & rest & qs & Hi & Hf & -> & Hs)|[Hs Hall]].
  all: change (seqZ (Z.of_nat 0) (Z.of_nat 8)) with (seqZ 0 NUM_PRIORITY_QUEUES) in Hs; rewrite Hs; cbn [mbind res_bind].
  2:{ apply dequeue_cfs_ok; try done. by eapply rt_empty_concat. }
  clear Hs. set (bm := match rest with [] => _ | _ => _ end).
  set (p1 := set_rt _ bm p). destruct Hf as [Hq Hbefore].
  destruct (get_put c p (less_one p1) s Hc) as (s' & -> & Hget & ->). cbn [mbind res_bind].
  eexists _, (Some t). split; [done|]. exists (less_one p1).
  assert (Hwait : waiting p ≡ₚ t :: waiting p1).
  { unfold waiting. cbn [deadline_heap cfs_heap rt_queues p1 set_rt]. rewrite Hdl. cbn [app].
    destruct (concat_insert _ _ _ rest Hq) as (r' & H1 & H2). rewrite H1, H2. done. }
  destruct (cw_bitmap _ _ Hw) as [Hbm Hbits].
  split_and!; [done| |done|done|done| |done].
  - split; cbn [deadline_heap cfs_heap rt_queues rt_bitmap less_one set_counts p1 set_rt].
    + eapply heap_frame; [apply (cw_dl _ _ Hw)|done|done].
    + eapply heap_frame; [apply (cw_cfs _ _ Hw)|done|done].
    + apply Hw.
    + rewrite length_insert. apply Hw.
    + split.
      { unfold bm. destruct rest; [by apply (land_width_l 8)|done]. }
      intros j q' Hj. destruct (decide (j = i)) as [->|Hji].
      * rewrite list_lookup_insert_eq in Hj by (by eapply lookup_lt_Some). injection Hj as <-.
        unfold bm. destruct rest as [|u rest].
        -- rewrite (land_clear 8), Z.eqb_refl by (done || lia). done.
        -- rewrite (Hbits _ _ Hq). done.
      * rewrite list_lookup_insert_ne in Hj by done. rewrite <- (Hbits _ _ Hj). unfold bm.
        destruct rest; [|done]. rewrite (land_clear 8) by (done || lia).
        by destruct (Z.eqb_spec (Z.of_nat i) (Z.of_nat j)); [lia|].
    + by eapply less_one_wf.
  - right. left. split; [done|]. by exists i, rest.
Qed.

Lemma dequeue_ok c s p :
  0 <= c < MAX_CPUS -> get_cpu c s = Ok p -> initialized p = true -> cpu_wf s p ->
  exists s' r, dequeue_percpu_locked c s = Ok (s', r) /\
    match r with Some t => dequeued c s s' p t | None => s' = s /\ waiting p = [] end.
Proof.
  intros Hc Hg Hi Hw. unfold dequeue_percpu_locked. destruct (Z.leb_spec MAX_CPUS c); [lia|].
  rewrite Hg. cbn [mbind res_bind]. rewrite Hi. cbn [negb].
  destruct (Z.eqb_spec (hsize (deadline_heap p)) 0) as [E|Hne]; cbn [negb].
  { apply dequeue_rt_ok; try done. eapply empty_members; [apply (cw_dl _ _ Hw)|done]. }
  destruct (extract_ok s (deadline_key s) (deadline_heap p) (cw_dl _ _ Hw)) as (hi & h' & r & -> & Hr).
  cbn [mbind res_bind]. destruct r as [t|].
  2:{ destruct Hr as (_ & _ & Hnil). by destruct (nonempty_members _ _ _ (cw_dl _ _ Hw) Hne). }
  destruct Hr as (Hp & Hmin & Hwf' & Hfr).
  set (p1 := set_deadline_heap h' p).
  destruct (get_put c p (less_one p1) (set_index hi s) Hg) as (s' & -> & Hget & ->).
  cbn [mbind res_bind]. eexists _, (Some t). split; [done|]. exists (less_one p1).
  assert (Hwait : waiting p ≡ₚ t :: waiting p1).
  { unfold waiting. cbn [deadline_heap cfs_heap rt_queues p1 set_deadline_heap]. by rewrite Hp. }
  split_and!; [done| |done|done|done| |done].
  - split; cbn [deadline_heap cfs_heap rt_queues rt_bitmap less_one set_counts p1 set_deadline_heap].
    + done.
    + eapply heap_frame; [apply (cw_cfs _ _ Hw)| |done]. intros u Hu. apply Hfr.
      intros Hd. by apply (cw_disj _ _ Hw u Hd).
    + intros u Hu. apply (cw_disj _ _ Hw). rewrite Hp. by right.
    + apply Hw.
    + apply Hw.
    + by eapply less_one_wf.
  - left. split; [|done]. rewrite Hp. left.
Qed.

(** ** Enqueue *)

Lemma upd_same t f s : tasks (upd_task t f s) t = f (tasks s t).
Proof. apply fn_lookup_insert. Qed.
Lemma upd_other t f s u : u <> t -> tasks (upd_task t f s) u = tasks s u.
Proof. intros H. by apply fn_lookup_insert_ne. Qed.

(** What the change of one task leaves alone in a CPU that does not hold it. *)
Lemma wf_upd_out s p t f :
  cpu_wf s p -> t ∉ members (deadline_heap p) -> t ∉ members (cfs_heap p) -> cpu_wf (upd_task t f s) p.
Proof.
  intros [H1 H2 H3 H4 H5 H6] Hd Hc. split; try done.
  - eapply heap_frame; [exact H1|done|]. intros u Hu. unfold deadline_key. rewrite upd_other; [done|]. by intros ->.
  - eapply heap_frame; [exact H2|done|]. intros u Hu. unfold cfs_key. rewrite upd_other; [done|]. by intros ->.
Qed.

(** The state field is not a key. *)
Lemma wf_upd_state s p t x : cpu_wf s p -> cpu_wf (upd_task t (set_state x) s) p.
Proof.
  intros [H1 H2 H3 H4 H5 H6].
  assert (Hk : forall u, cfs_key (upd_task t (set_state x) s) u = cfs_key s u /\
                         deadline_key (upd_task t (set_state x) s) u = deadline_key s u).
  { intros u. unfold cfs_key, deadline_key. destruct (decide (u = t)) as [->|].
    - by rewrite upd_same.
    - by rewrite upd_other. }
  split; try done; (eapply heap_frame; [eassumption|done|intros u _; apply Hk]).
Qed.

Lemma wf_set_cpus s p l : cpu_wf s p -> cpu_wf (set_cpus l s) p.
Proof. intros [H1 H2 H3 H4 H5 H6]. by split. Qed.

(** [p1] holds [t] in addition to what [p] holds. *)
Definition gained (s1 : Sched) (p p1 : PerCpuScheduler) (t : Z) : Prop :=
  cpu_wf s1 (one_more p1) /\ initialized p1 = initialized p /\ waiting p1 ≡ₚ t :: waiting p /\
  min_vruntime p1 = min_vruntime p /\
  match policy (tasks s1 t) with
  | SCHED_DEADLINE => t ∈ members (deadline_heap p1)
  | SCHED_OTHER => t ∈ members (cfs_heap p1)
  | _ => exists q, rt_queues p1 !! Z.to_nat (priority_to_queue (priority (tasks s1 t))) = Some (q ++ [t])
  end.

Lemma one_more_wf s p p' t :
  cpu_wf s p -> waiting p' ≡ₚ t :: waiting p -> queue_count p < 2 ^ 31 ->
  total_tasks p' = total_tasks p -> queue_count p' = queue_count p ->
  total_tasks (one_more p') = queue_count (one_more p') /\
  queue_count (one_more p') = Z.of_nat (length (waiting (one_more p'))) /\
  queue_count (one_more p') < 2 ^ 32.
Proof.
  intros Hw Hp Hlt Et Eq. destruct (cw_count _ _ Hw) as (E1 & E2 & E3).
  apply Permutation_length in Hp. cbn [length] in Hp.
  change (waiting (one_more p')) with (waiting p'). unfold one_more. cbn [total_tasks queue_count set_counts].
  rewrite Et, Eq, E1, E2, Hp in *. rewrite u32_small by lia. lia.
Qed.

(** What enqueueing asks of the task. *)
Definition can_enqueue (s : Sched) (p : PerCpuScheduler) (t : Z) : Prop :=
  heap_index s t = Heap.NOT_IN_HEAP /\ 0 <= priority (tasks s t) < 256 /\
  hsize (deadline_heap p) < Heap.HEAP_MAX_SIZE /\ hsize (cfs_heap p) < Heap.HEAP_MAX_SIZE /\
  queue_count p < 2 ^ 31.

(** [s1] is [s] with the virtual runtime of [t] set to [v] and the heap indices of
    [t] and of the tasks of [p] changed. *)
Definition charged (s s1 : Sched) (p : PerCpuScheduler) (t v : Z) : Prop :=
  (forall u, u <> t -> tasks s1 u = tasks s u) /\ tasks s1 t = set_vruntime v (tasks s t) /\
  per_cpu_sched s1 = per_cpu_sched s /\
  (forall u, u ∉ waiting p -> u <> t -> heap_index s1 u = heap_index s u) /\ get_by_id s1 = get_by_id s.

Lemma charged_same s s1 p t :
  tasks s1 = tasks s -> per_cpu_sched s1 = per_cpu_sched s -> get_by_id s1 = get_by_id s ->
  (forall u, u ∉ waiting p -> u <> t -> heap_index s1 u = heap_index s u) ->
  charged s s1 p t (vruntime (tasks s t)).
Proof. intros E1 E2 E3 E4. unfold charged. rewrite E1. split_and!; [done| |done..]. by destruct (tasks s t). Qed.

Lemma insert_deadline_ok s p t :
  cpu_wf s p -> can_enqueue s p t -> policy (tasks s t) = SCHED_DEADLINE ->
  exists hi p1, insert_by_policy t p s = Ok (set_index hi s, p1, true) /\ gained (set_index hi s) p p1 t /\
    (forall u, u ∉ waiting p -> u <> t -> hi u = heap_index s u).
Proof.
  intros Hw (Hidx & _ & Hs & _ & Hq) Hpol. unfold insert_by_policy. rewrite Hpol.
  destruct (insert_ok s (deadline_key s) (deadline_heap p) t (cw_dl _ _ Hw) Hs Hidx)
    as (hi & h' & -> & Hp & Hwf & Hfr). cbn [mbind res_bind]. eexists hi, _. split; [done|].
  set (p1 := set_deadline_heap h' p).
  pose proof (not_member _ _ _ _ (cw_cfs _ _ Hw) Hidx) as Hnc.
  assert (Hwait : waiting p1 ≡ₚ t :: waiting p).
  { unfold waiting. cbn [deadline_heap cfs_heap rt_queues p1 set_deadline_heap]. by rewrite Hp. }
  split; [|intros u Hu Hne; apply Hfr; [|done]; intros Hm; apply Hu; unfold waiting; rewrite elem_of_app; by left].
  unfold gained. split_and!; [|done|done|done|].
  - split; cbn [deadline_heap cfs_heap rt_queues rt_bitmap one_more set_counts p1 set_deadline_heap].
    + done.
    + eapply heap_frame; [apply (cw_cfs _ _ Hw)| |done]. intros u Hu. apply Hfr; [|by intros ->].
      intros Hd. by apply (cw_disj _ _ Hw u Hd).
    + intros u. rewrite Hp, elem_of_cons. intros [->|Hu]; [done|by apply (cw_disj _ _ Hw)].
    + apply Hw.
    + apply Hw.
    + by eapply one_more_wf.
  - change (policy (tasks (set_index hi s) t)) with (policy (tasks s t)). rewrite Hpol.
    cbn. rewrite Hp. left.
Qed.

(** The normalisation of a task that fell behind. *)
Lemma normalise_ok s p t :
  cpu_wf s p -> t ∉ members (deadline_heap p) -> t ∉ members (cfs_heap p) ->
  exists s1 v, (if negb (is_idle (tasks s t)) && (vruntime (tasks s t) <? min_vruntime p)
                then upd_task t (set_vruntime (min_vruntime p)) s else s) = s1 /\
    cpu_wf s1 p /\ heap_index s1 = heap_index s /\ charged s s1 p t v /\
    (is_idle (tasks s t) = false -> min_vruntime p <= v).
Proof.
  intros Hw Hd Hc. destruct (is_idle (tasks s t)) eqn:Ei; cbn [negb andb]; [|case_cmp].
  - exists s, (vruntime (tasks s t)). split_and!; try done. by apply charged_same.
  - exists (upd_task t (set_vruntime (min_vruntime p)) s), (min_vruntime p).
    split_and!; [done|by apply wf_upd_out|done| |done].
    split_and!; [|apply upd_same|done..]. intros u Hu. by apply upd_other.
  - exists s, (vruntime (tasks s t)). split_and!; try done. by apply charged_same.
Qed.

Lemma insert_cfs_ok s p t :
  cpu_wf s p -> can_enqueue s p t -> policy (tasks s t) = SCHED_OTHER ->
  exists s1 v p1, insert_by_policy t p s = Ok (s1, p1, true) /\ charged s s1 p t v /\
    (is_idle (tasks s t) = false -> min_vruntime p <= v) /\ gained s1 p p1 t.
Proof.
  intros Hw (Hidx & _ & _ & Hs & Hq) Hpol. unfold insert_by_policy. rewrite Hpol.
  pose proof (not_member _ _ _ _ (cw_cfs _ _ Hw) Hidx) as Hnc.
  pose proof (not_member _ _ _ _ (cw_dl _ _ Hw) Hidx) as Hnd.
  destruct (normalise_ok s p t Hw Hnd Hnc) as (s0 & v & -> & Hw0 & Ei0 & (Ht1 & Ht2 & Hcp & Hix & Hby) & Hv).
  destruct (insert_ok s0 (cfs_key s0) (cfs_heap p) t (cw_cfs _ _ Hw0) Hs ltac:(by rewrite Ei0))
    as (hi & h' & -> & Hp & Hwf & Hfr). cbn [mbind res_bind negb].
  change (tasks (set_index hi s0)) with (tasks s0).
  set (p0 := set_cfs_heap h' p).
  assert (exists p1, (if negb (is_idle (tasks s0 t)) then
      Ok (set_index hi s0, set_cfs_stats (min_vruntime p0) (u32 (cfs_nr_running p0 + 1)) p0, true)
      else Ok (set_index hi s0, p0, true)) = Ok (set_index hi s0, p1, true) /\
      deadline_heap p1 = deadline_heap p /\ cfs_heap p1 = h' /\ rt_queues p1 = rt_queues p /\
      rt_bitmap p1 = rt_bitmap p /\ total_tasks p1 = total_tasks p /\ queue_count p1 = queue_count p /\
      initialized p1 = initialized p /\ min_vruntime p1 = min_vruntime p)
    as (p1 & -> & E1 & E2 & E3 & E4 & E5 & E6 & E7 & E8).
  { destruct (negb _); eexists; split; done. }
  exists (set_index hi s0), v, p1. split; [done|]. split.
  { split_and!; [done..| |done]. intros u Hu Hne. rewrite <- Hix by done. apply Hfr; [|done].
    intros Hm. apply Hu. unfold waiting. rewrite !elem_of_app. auto. }
  split; [done|].
  assert (Hwait : waiting p1 ≡ₚ t :: waiting p).
  { unfold waiting. rewrite E1, E2, E3, Hp. rewrite !app_assoc. by rewrite <- Permutation_middle. }
  unfold gained. split_and!; [|done|done|done|].
  - split; cbn [deadline_heap cfs_heap rt_queues rt_bitmap one_more set_counts]; rewrite ?E1, ?E2, ?E3, ?E4.
    + eapply heap_frame; [apply (cw_dl _ _ Hw0)| |done]. intros u Hu. apply Hfr; [|by intros ->].
      by apply (cw_disj _ _ Hw u Hu).
    + done.
    + intros u Hu. rewrite Hp, not_elem_of_cons. split; [by intros ->|by apply (cw_disj _ _ Hw)].
    + apply Hw.
    + apply Hw.
    + by eapply one_more_wf.
  - change (policy (tasks (set_index hi s0) t)) with (policy (tasks s0 t)). rewrite Ht2. cbn. rewrite Hpol.
    rewrite E2, Hp. left.
Qed.

Lemma insert_rt_ok s p t :
  cpu_wf s p -> can_enqueue s p t ->
  policy (tasks s t) = SCHED_FIFO \/ policy (tasks s t) = SCHED_RR ->
  exists p1, insert_by_policy t p s = Ok (s, p1, true) /\ gained s p p1 t.
Proof.
  intros Hw (Hidx & Hprio & _ & _ & Hq) Hpol. destruct (cw_bitmap _ _ Hw) as [Hbm Hbits].
  assert (Hqi : 0 <= priority_to_queue (priority (tasks s t)) < 8)
    by (unfold priority_to_queue, PRIORITIES_PER_QUEUE; div_lia).
  set (i := priority_to_queue (priority (tasks s t))) in *.
  destruct (lookup_lt_is_Some_2 (rt_queues p) (Z.to_nat i)) as [q Hqs].
  { rewrite (cw_queues _ _ Hw). unfold NUM_PRIORITY_QUEUES. lia. }
  pose proof (lookup_lt_Some _ _ _ Hqs) as Hlt.
  exists (set_rt (<[Z.to_nat i := q ++ [t]]> (rt_queues p)) (Z.lor (rt_bitmap p) (u8 (Z.shiftl 1 i))) p).
  set (p1 := set_rt _ _ p).
  assert (Hop : insert_by_policy t p s = Ok (s, p1, true)).
  { unfold insert_by_policy. fold i.
    destruct Hpol as [-> | ->]; rewrite (rd_Z _ _ q) by (done || lia); cbn [mbind res_bind];
      by rewrite wr_Z by lia. }
  split; [done|]. destruct (concat_insert _ _ _ (q ++ [t]) Hqs) as (rest & H1 & H2).
  assert (Hwait : waiting p1 ≡ₚ t :: waiting p).
  { unfold waiting. cbn [deadline_heap cfs_heap rt_queues p1 set_rt]. rewrite H1, H2.
    rewrite <- !app_assoc. rewrite (app_assoc (members _) q). cbn [app].
    rewrite <- Permutation_middle. by rewrite <- app_assoc. }
  unfold gained. split_and!; [|done|done|done|].
  - split; cbn [deadline_heap cfs_heap rt_queues rt_bitmap one_more set_counts p1 set_rt].
    + apply (cw_dl _ _ Hw).
    + apply (cw_cfs _ _ Hw).
    + apply Hw.
    + rewrite length_insert. apply Hw.
    + rewrite (one_bit_small 8) by lia. split.
      { apply lor_width; [lia|done|]. split; [lia|]. apply Z.pow_lt_mono_r; lia. }
      intros j q' Hj. rewrite lor_bit by lia. destruct (decide (j = Z.to_nat i)) as [->|Hne].
      * rewrite list_lookup_insert_eq in Hj by done. injection Hj as <-. rewrite Z2Nat.id, Z.eqb_refl by lia.
        cbn [orb]. rewrite bool_decide_eq_false_2; [done|]. by destruct q.
      * rewrite list_lookup_insert_ne in Hj by done. rewrite <- (Hbits _ _ Hj).
        by destruct (Z.eqb_spec i (Z.of_nat j)); [lia|].
    + by eapply one_more_wf.
  - assert (Hrt : exists q, rt_queues p1 !! Z.to_nat i = Some (q ++ [t])).
    { exists q. by apply list_lookup_insert_eq. }
    by destruct Hpol as [-> | ->].
Qed.

(** [t] waits on [c] and is ready; the other tasks are as they were, and so are
    the heap indices of those that do not wait on [c]. *)
Definition enqueued (c : Z) (s s' : Sched) (p : PerCpuScheduler) (t : Z) : Prop :=
  exists p', get_cpu c s' = Ok p' /\ cpu_wf s' p' /\ initialized p' = initialized p /\
    waiting p' ≡ₚ t :: waiting p /\
    (exists v, tasks s' t = set_state Ready (set_vruntime v (tasks s t))) /\
    (forall u, u <> t -> tasks s' u = tasks s u) /\
    (forall u, u ∉ waiting p -> u <> t -> heap_index s' u = heap_index s u) /\
    get_by_id s' = get_by_id s /\
    (policy (tasks s t) = SCHED_OTHER -> is_idle (tasks s t) = false ->
       min_vruntime p <= vruntime (tasks s' t)) /\
    match policy (tasks s t) with
    | SCHED_DEADLINE => t ∈ members (deadline_heap p')
    | SCHED_OTHER => t ∈ members (cfs_heap p')
    | _ => exists q, rt_queues p' !! Z.to_nat (priority (tasks s t) / 32) = Some (q ++ [t])
    end.

Lemma enqueue_ok c s p t :
  0 <= c < MAX_CPUS -> get_cpu c s = Ok p -> initialized p = true -> cpu_wf s p ->
  state (tasks s t) = Ready \/ state (tasks s t) = Running -> can_enqueue s p t ->
  exists s', enqueue_percpu_locked (Some t) c s = Ok s' /\ enqueued c s s' p t.
Proof.
  intros Hc Hg Hi Hw Hst Hcan. unfold enqueue_percpu_locked. destruct (Z.leb_spec MAX_CPUS c); [lia|].
  rewrite Hg. cbn [mbind res_bind]. rewrite Hi. cbn [negb].
  assert (negb (bool_decide (state (tasks s t) = Ready)) &&
          negb (bool_decide (state (tasks s t) = Running)) = false) as ->.
  { by destruct Hst as [-> | ->]. }
  destruct Hcan as [Hidx Hrest] eqn:Hcan'. clear Hcan'. rewrite Hidx, Z.eqb_refl. cbn [negb].
  rewrite andb_false_r.
  assert (Hins : exists s1 v p1, insert_by_policy t p s = Ok (s1, p1, true) /\ charged s s1 p t v /\
    (policy (tasks s t) = SCHED_OTHER -> is_idle (tasks s t) = false -> min_vruntime p <= v) /\
    gained s1 p p1 t).
  { destruct (policy (tasks s t)) eqn:Hpol.
    - destruct (insert_cfs_ok s p t) as (s1 & v & p1 & ? & ? & ? & ?); eauto 10.
    - destruct (insert_rt_ok s p t) as (p1 & ? & ?); auto.
      exists s, (vruntime (tasks s t)), p1. split_and!; try done. by apply charged_same.
    - destruct (insert_rt_ok s p t) as (p1 & ? & ?); auto.
      exists s, (vruntime (tasks s t)), p1. split_and!; try done. by apply charged_same.
    - destruct (insert_deadline_ok s p t) as (hi & p1 & ? & ? & ?); auto.
      exists (set_index hi s), (vruntime (tasks s t)), p1. split_and!; try done. by apply charged_same. }
  destruct Hins as (s1 & v & p1 & -> & (Ht1 & Ht2 & Hcp & Hix & Hby) & Hv & (Hw1 & Ei & Hwait & _ & Hcls)).
  cbn [mbind res_bind]. set (s2 := upd_task t (set_state Ready) s1).
  assert (Hg2 : get_cpu c s2 = Ok p) by (unfold get_cpu; cbn; by rewrite Hcp).
  destruct (get_put c p (one_more p1) s2 Hg2) as (s' & -> & Hget & ->). eexists. split; [done|].
  exists (one_more p1). rewrite Ht2 in Hcls.
  split_and!; [done|by apply wf_set_cpus, wf_upd_state|done|done| | | | | |].
  - exists v. change (tasks (set_cpus _ s2)) with (tasks s2). unfold s2. by rewrite upd_same, Ht2.
  - intros u Hu. change (tasks (set_cpus _ s2)) with (tasks s2). unfold s2.
    rewrite upd_other by done. by apply Ht1.
  - exact Hix.
  - exact Hby.
  - intros Hpol Hid. change (tasks (set_cpus _ s2)) with (tasks s2). unfold s2.
    rewrite upd_same, Ht2. by apply Hv.
  - cbn in Hcls. by destruct (policy (tasks s t)).
Qed.

Lemma slice_range prio :
  0 <= prio < 256 -> exists o, time_slice_for_priority prio = Ok o /\ 5 <= o <= 20.
Proof.
  intros Hp. unfold time_slice_for_priority, PRIORITIES_PER_QUEUE, NUM_PRIORITY_QUEUES.
  set (q := prio / 32). assert (Hq : 0 <= q < 8) by (unfold q; div_lia).
  destruct (Z.leb_spec 8 q); [lia|].
  assert (H0 : forallb (fun q => match rd TIME_SLICE_BY_QUEUE q with Ok o => (5 <=? o) && (o <=? 20) | _ => false end)
                (seqZ 0 8) = true) by done.
  rewrite forallb_forall in H0. specialize (H0 q ltac:(apply list_elem_of_In, elem_of_seqZ; lia)).
  destruct (rd TIME_SLICE_BY_QUEUE q) as [o| |]; [|done|done]. exists o. split; [done|].
  apply andb_prop in H0 as [?%Z.leb_le ?%Z.leb_le]. lia.
Qed.

(** ** Claims *)

(** (C39) Dequeueing from an initialised CPU returns nothing only when no task waits
    there; otherwise it removes exactly one waiting task: the one of earliest
    deadline if there is a deadline task, else the head of the highest-priority
    real-time queue that is not empty, else the one of least virtual runtime.
    Both heaps stay ordered, the queue bitmap and the counters stay exact, and the
    baseline [min_vruntime] does not go back. *)
Theorem dequeue_selects c s p :
  0 <= c < MAX_CPUS -> get_cpu c s = Ok p -> initialized p = true -> cpu_wf s p ->
  exists s' r, dequeue_percpu_locked c s = Ok (s', r) /\
    match r with Some t => dequeued c s s' p t | None => s' = s /\ waiting p = [] end.
Proof. apply dequeue_ok. Qed.

(** Enqueueing a runnable task that is in no heap on an initialised CPU adds it
    to the structure of its policy (the tail of the queue of its priority for a
    real-time task), marks it ready, lifts the virtual runtime of a task that
    slept to the CPU's baseline, and keeps the CPU's structures consistent; no
    other task changes. *)
Theorem enqueue_places c s p t :
  0 <= c < MAX_CPUS -> get_cpu c s = Ok p -> initialized p = true -> cpu_wf s p ->
  state (tasks s t) = Ready \/ state (tasks s t) = Running -> can_enqueue s p t ->
  exists s', enqueue_percpu_locked (Some t) c s = Ok s' /\ enqueued c s s' p t.
Proof. apply enqueue_ok. Qed.

(** The idle task is not a fallback: its virtual runtime is never advanced, so
    once it waits in the fair heap with virtual runtime 0 it is dequeued before
    every other task of the CPU that has run, although they are runnable. *)
Theorem idle_runs_first c s p t :
  0 <= c < MAX_CPUS -> get_cpu c s = Ok p -> initialized p = true -> cpu_wf s p ->
  members (deadline_heap p) = [] -> concat (rt_queues p) = [] ->
  t ∈ members (cfs_heap p) -> vruntime (tasks s t) = 0 ->
  (forall u, u ∈ members (cfs_heap p) -> u <> t -> 0 < vruntime (tasks s u)) ->
  exists s', dequeue_percpu_locked c s = Ok (s', Some t).
Proof.
  intros Hc Hg Hi Hw Hd Hr Ht Hz Hpos.
  destruct (dequeue_ok c s p Hc Hg Hi Hw) as (s' & r & Hop & Hres). destruct r as [u|].
  - destruct Hres as (p' & _ & _ & _ & _ & _ & Hch & _). exists s'. rewrite Hop. do 2 f_equal.
    destruct Hch as [[Hin _]|[[_ (i & rest & Hq & _)]|(_ & _ & Hin & Hmin)]].
    + rewrite Hd in Hin. by apply not_elem_of_nil in Hin.
    + exfalso. destruct (concat_insert _ _ _ [] Hq) as (r' & H1 & _). rewrite Hr in H1.
      by apply Permutation_nil_l in H1.
    + destruct (decide (u = t)) as [->|Hne]; [done|]. specialize (Hmin t Ht). specialize (Hpos u Hin Hne).
      unfold cfs_key in Hmin. lia.
  - destruct Hres as [_ E]. unfold waiting in E. apply app_eq_nil in E as [_ E].
    apply app_eq_nil in E as [_ E]. rewrite E in Ht. by apply not_elem_of_nil in Ht.
Qed.

(** [enqueue] of a task pinned by its affinity mask to a CPU number the kernel
    does not have accesses the per-CPU table out of range. *)
Theorem enqueue_pinned_out_of_range cur s t k :
  length (per_cpu_sched s) = Z.to_nat MAX_CPUS -> MAX_CPUS <= k < 32 ->
  cpu_affinity (tasks s t) = 2 ^ k ->
  enqueue cur (Some t) s = Ub.
Proof.
  intros Hl Hk Ha. unfold enqueue, select_target_cpu. rewrite Ha.
  assert (Hf : List.filter (Z.testbit (2 ^ k)) (seqZ 0 32) = [k]).
  { assert (H : forallb (fun k => bool_decide (List.filter (Z.testbit (2 ^ k)) (seqZ 0 32) = [k])) (seqZ 4 28) = true)
      by (by vm_compute). rewrite forallb_forall in H.
    assert (Hin : k ∈ seqZ 4 28) by (apply elem_of_seqZ; unfold MAX_CPUS in *; lia).
    apply list_elem_of_In, H, bool_decide_eq_true_1 in Hin. exact Hin. }
  unfold popcount, ctz. rewrite Hf. cbn [length Z.of_nat Z.eqb Pos.eqb mbind res_bind].
  change (Z.of_nat 1 =? 1) with true. cbn [mbind res_bind].
  unfold get_cpu, rd. unfold MAX_CPUS in *. destruct (Z.ltb_spec k 0); [lia|].
  rewrite lookup_ge_None_2 by lia. done.
Qed.

(** When a round-robin task leaves the CPU, the ticks charged to it are the time
    slice of its priority minus what is left of its real-time slice, modulo
    2^32: a task that leaves with more than twenty ticks left is charged more
    than four billion ticks. *)
Theorem round_robin_ticks_wrap c s p t :
  0 <= c < MAX_CPUS -> get_cpu c s = Ok p -> initialized p = true -> cpu_wf s p ->
  can_enqueue s p t -> state (tasks s t) = Running -> policy (tasks s t) = SCHED_RR ->
  20 < time_slice (tasks s t) <= RT_TIME_SLICE_DEFAULT -> 0 <= cpu_ticks (tasks s t) < 2 ^ 63 ->
  exists s', put_back c t s = Ok s' /\ state (tasks s' t) = Ready /\
    cpu_ticks (tasks s' t) >= cpu_ticks (tasks s t) + 4294967200.
Proof.
  intros Hc Hg Hi Hw Hcan Hst Hpol Hsl Hct. pose proof Hcan as (Hidx & Hprio & _).
  unfold put_back. rewrite bool_decide_eq_true_2 by done.
  destruct (slice_range (priority (tasks s t)) Hprio) as (o & -> & Ho). cbn [mbind res_bind].
  assert (E : u32 (o - time_slice (tasks s t)) = o - time_slice (tasks s t) + 4294967296).
  { unfold wrap. rewrite <- (Z_mod_plus_full _ 1). rewrite Z.mod_small; unfold RT_TIME_SLICE_DEFAULT in *; lia. }
  rewrite E. set (n := o - _ + _). set (s1 := upd_task t _ s).
  assert (Hs1 : tasks s1 t = set_stats (u64 (cpu_ticks (tasks s t) + n)) (switch_count (tasks s t)) (tasks s t))
    by (unfold s1; by rewrite upd_same).
  rewrite Hs1. cbn [policy set_stats]. rewrite Hpol. rewrite bool_decide_eq_false_2 by done.
  cbn [andb mbind res_bind]. set (s2 := upd_task t (set_state Ready) s1).
  assert (Hs2 : tasks s2 t = set_state Ready (tasks s1 t)) by apply upd_same.
  assert (Hw2 : cpu_wf s2 p).
  { apply wf_upd_state, wf_upd_out; [done| |];
      [apply (not_member _ _ _ _ (cw_dl _ _ Hw) Hidx)|apply (not_member _ _ _ _ (cw_cfs _ _ Hw) Hidx)]. }
  unfold enqueue_percpu_locked. destruct (Z.leb_spec MAX_CPUS c); [lia|].
  change (get_cpu c s2) with (get_cpu c s). rewrite Hg. cbn [mbind res_bind]. rewrite Hi. cbn [negb].
  rewrite !Hs2, Hs1. cbn [state set_state policy set_stats]. rewrite Hpol.
  rewrite bool_decide_eq_true_2 by done. cbn [negb andb heap_policy].
  destruct (insert_rt_ok s2 p t Hw2) as (p1 & -> & _).
  { unfold can_enqueue. rewrite Hs2, Hs1. exact Hcan. }
  { rewrite Hs2, Hs1. by right. }
  cbn [mbind res_bind]. set (s3 := upd_task t (set_state Ready) s2).
  destruct (get_put c p (one_more p1) s3 Hg) as (s' & -> & _ & ->). eexists. split; [done|].
  change (tasks (set_cpus _ s3)) with (tasks s3).
  assert (Hs3 : tasks s3 t = set_state Ready (tasks s2 t)) by apply upd_same.
  rewrite Hs3, Hs2, Hs1. split; [done|]. cbn [cpu_ticks set_state set_stats].
  unfold n, RT_TIME_SLICE_DEFAULT in *. rewrite u64_small; lia.
Qed.
(** ** Witnesses *)

Definition empty_cpu : PerCpuScheduler :=
  mkCpu (mkArr (replicate 256 0) 0) (mkArr (replicate 256 0) 0) (replicate 8 []) 0 0 0 0 0 true 0 0 0.

(** Task 0 is the idle task, task 2 a running round-robin task, task 3 is pinned
    to CPU 5, tasks 4 and 5 are round-robin tasks of two priorities, tasks 6 and 7
    deadline tasks, task 8 an ordinary task that has run less than the others. *)
Definition boot_tasks (t : Z) : Task :=
  let base := set_vruntime 5000000 (new_task 128) in
  if t =? 0 then mkTask Ready TASK_FLAG_IDLE 10 255 255 SCHED_OTHER 4294967295 0 0
                   (dl base) (bw base) None 0 0
  else if t =? 2 then set_state Running (set_policy SCHED_RR (set_time_slice 90 base))
  else if t =? 3 then mkTask Ready 0 10 128 128 SCHED_OTHER (2 ^ 5) 0 0 (dl base) (bw base) None 0 0
  else if t =? 4 then set_policy SCHED_RR (new_task 100)
  else if t =? 5 then set_policy SCHED_RR (new_task 40)
  else if t =? 6 then set_policy SCHED_DEADLINE (set_dl (mkDl 10 90 100 900 0 0) (new_task 128))
  else if t =? 7 then set_policy SCHED_DEADLINE (set_dl (mkDl 10 70 100 700 0 0) (new_task 128))
  else if t =? 8 then set_vruntime 3000000 (new_task 128)
  else base.

Definition boot : Sched :=
  mkSched boot_tasks (fun _ => Heap.NOT_IN_HEAP) Some (replicate 4 None) (replicate 4 empty_cpu) 0 true 0.

Lemma empty_heap_wf s key : heap_wf s key (mkArr (replicate 256 0) 0).
Proof. split; [split; cbn; try done; intros; lia|]. intros i Hi. cbn in Hi. lia. Qed.

Lemma empty_cpu_wf s : cpu_wf s empty_cpu.
Proof.
  split; try apply empty_heap_wf; try done.
  - intros t Ht. by apply not_elem_of_nil in Ht.
  - split; [done|]. intros i q Hq. change (rt_queues empty_cpu) with (replicate 8 (@nil Z)) in Hq.
    apply lookup_replicate_1 in Hq as [-> _]. apply Z.bits_0.
Qed.

Lemma boot_can t : 0 <= priority (boot_tasks t) < 256 -> can_enqueue boot empty_cpu t.
Proof. intros Hp. split; [done|]. split; [exact Hp|done]. Qed.

Lemma enqueue_places_witness :
  exists s', enqueue_percpu_locked (Some 1) 0 boot = Ok s' /\ enqueued 0 boot s' empty_cpu 1.
Proof.
  apply (enqueue_places 0 boot empty_cpu 1);
    [done|done|done|apply empty_cpu_wf|by left|by apply boot_can].
Defined.

Definition cpu_of (s : Sched) : PerCpuScheduler := match get_cpu 0 s with Ok p => p | _ => empty_cpu end.

(** CPU 0 is initialised and well formed. *)
Definition cpu0_wf (s : Sched) : Prop :=
  get_cpu 0 s = Ok (cpu_of s) /\ initialized (cpu_of s) = true /\ cpu_wf s (cpu_of s).

(** The state after task [t] was enqueued on CPU 0. *)
Definition enq (t : Z) (s : Sched) : Sched :=
  match enqueue_percpu_locked (Some t) 0 s with Ok s' => s' | _ => s end.

Lemma boot_wf : cpu0_wf boot.
Proof. split; [done|]. split; [done|]. apply empty_cpu_wf. Qed.

Lemma enq_wf s t :
  cpu0_wf s -> state (tasks s t) = Ready -> can_enqueue s (cpu_of s) t -> cpu0_wf (enq t s).
Proof.
  intros (Hg & Hi & Hw) Hst Hc.
  destruct (enqueue_ok 0 s (cpu_of s) t) as (s1 & Hs1 & p1 & Hg1 & Hw1 & Hi1 & _); [done..|by left|done|].
  unfold cpu0_wf, enq. rewrite Hs1. unfold cpu_of. rewrite Hg1. by rewrite Hi1.
Qed.

(** Task 1, then the idle task, wait on CPU 0. *)
Definition boot2 : Sched := enq 0 (enq 1 boot).

(** On CPU 0 wait two ordinary tasks; then two round-robin tasks as well; then two
    deadline tasks as well. *)
Definition fair_wait : Sched := enq 8 (enq 1 boot).
Definition rt_wait : Sched := enq 5 (enq 4 fair_wait).
Definition dl_wait : Sched := enq 7 (enq 6 rt_wait).

Ltac enq_step := apply enq_wf; [|by vm_compute|split_and!; by vm_compute].

Lemma boot2_wf : cpu0_wf boot2.
Proof. unfold boot2. do 2 enq_step. apply boot_wf. Qed.

Lemma fair_wait_wf : cpu0_wf fair_wait.
Proof. unfold fair_wait. do 2 enq_step. apply boot_wf. Qed.

Lemma rt_wait_wf : cpu0_wf rt_wait.
Proof. unfold rt_wait. do 2 enq_step. apply fair_wait_wf. Qed.

Lemma dl_wait_wf : cpu0_wf dl_wait.
Proof. unfold dl_wait. do 2 enq_step. apply rt_wait_wf. Qed.

(** Dequeueing from [s] selects [t]. *)
Definition selects (s : Sched) (t : Z) : Prop :=
  exists s', dequeue_percpu_locked 0 s = Ok (s', Some t) /\ dequeued 0 s s' (cpu_of s) t.

Definition picked (s : Sched) : option Z :=
  match dequeue_percpu_locked 0 s with Ok (_, r) => r | _ => None end.

Lemma picked_selects s t s' r :
  picked s = Some t -> dequeue_percpu_locked 0 s = Ok (s', r) ->
  match r with Some t => dequeued 0 s s' (cpu_of s) t | None => s' = s /\ waiting (cpu_of s) = [] end ->
  selects s t.
Proof. unfold picked, selects. intros Hp He Hr. rewrite He in Hp. subst r. by exists s'. Qed.

(** With six tasks of the three classes waiting the deadline task of the earlier
    deadline is taken, though it came last; without the deadline tasks the
    round-robin task of the better priority; without those the ordinary task that
    has run less. *)
Lemma dequeue_selects_witness :
  waiting (cpu_of dl_wait) = [7; 6; 5; 4; 8; 1] /\ selects dl_wait 7 /\
  waiting (cpu_of rt_wait) = [5; 4; 8; 1] /\ selects rt_wait 5 /\
  waiting (cpu_of fair_wait) = [8; 1] /\ selects fair_wait 8.
Proof.
  assert (H0 : 0 <= 0 < MAX_CPUS) by done.
  split; [by vm_compute|]. split.
  { destruct dl_wait_wf as (Hg & Hi & Hw).
    destruct (dequeue_selects 0 dl_wait (cpu_of dl_wait)) as (s' & r & He & Hr); [exact H0|exact Hg|exact Hi|exact Hw|].
    apply (picked_selects _ _ s' r); [by vm_compute|exact He|exact Hr]. }
  split; [by vm_compute|]. split.
  { destruct rt_wait_wf as (Hg & Hi & Hw).
    destruct (dequeue_selects 0 rt_wait (cpu_of rt_wait)) as (s' & r & He & Hr); [exact H0|exact Hg|exact Hi|exact Hw|].
    apply (picked_selects _ _ s' r); [by vm_compute|exact He|exact Hr]. }
  split; [by vm_compute|].
  destruct fair_wait_wf as (Hg & Hi & Hw).
  destruct (dequeue_selects 0 fair_wait (cpu_of fair_wait)) as (s' & r & He & Hr); [exact H0|exact Hg|exact Hi|exact Hw|].
  apply (picked_selects _ _ s' r); [by vm_compute|exact He|exact Hr].
Defined.

Lemma idle_runs_first_witness : exists s', dequeue_percpu_locked 0 boot2 = Ok (s', Some 0).
Proof.
  destruct boot2_wf as (Hg & _ & Hw).
  apply (idle_runs_first 0 boot2 (cpu_of boot2) 0); [done|exact Hg|by vm_compute|exact Hw| | | | |].
  - by vm_compute.
  - by vm_compute.
  - replace (members (cfs_heap (cpu_of boot2))) with [0; 1] by (by vm_compute). left.
  - by vm_compute.
  - replace (members (cfs_heap (cpu_of boot2))) with [0; 1] by (by vm_compute).
    intros u Hu Hne. apply elem_of_cons in Hu as [->|Hu]; [done|].
    apply list_elem_of_singleton in Hu as ->. by vm_compute.
Defined.

Lemma enqueue_pinned_out_of_range_witness : enqueue 0 (Some 3) boot = Ub.
Proof. apply (enqueue_pinned_out_of_range 0 boot 3 5); done. Defined.

(** The round-robin task leaves with 90 of its 100 ticks left. *)
Lemma round_robin_ticks_wrap_witness :
  exists s', put_back 0 2 boot = Ok s' /\ state (tasks s' 2) = Ready /\
    cpu_ticks (tasks s' 2) >= 0 + 4294967200.
Proof.
  apply (round_robin_ticks_wrap 0 boot empty_cpu 2);
    [done|done|done|apply empty_cpu_wf|by apply boot_can|done|done|done|done].
Defined.

End SchedSpec.
