(* ===== verification/Bandwidth.v ===== *)
(** * CPU bandwidth control

    Models [src/kernel/sched/bandwidth.hpp] and [bandwidth.cpp] on the state of
    the scheduler, which [replenish_budget] calls to make a task runnable
    again. *)

From stdpp Require Import functions.
From S2P Require Import Prelude Task Heap Sched SchedSpec.

Module Bandwidth.
Import Task Sched.

Definition MIN_PERIOD_NS : Z := 1000000.
Definition MAX_PERIOD_NS : Z := 1000000000.

Record BandwidthParams := mkParams { runtime : Z; period : Z }.

(** Updates the bandwidth fields of a task. *)
Definition upd_bw (t : Z) (f : BwFields -> BwFields) (s : Sched) : Sched :=
  upd_task t (fun tk => set_bw (f (bw tk)) tk) s.

Definition set_bandwidth (t : option Z) (params : option BandwidthParams) (s : Sched) : Sched * Z :=
  match t, params with
  | Some t, Some p =>
      if negb (runtime p =? 0) && ((period p <? MIN_PERIOD_NS) || (MAX_PERIOD_NS <? period p))
      then (s, -1)
      else if negb (runtime p =? 0) && (period p <? runtime p) then (s, -1)
      else (upd_bw t (fun _ => mkBw (runtime p) (period p) 0 0 false) s, 0)
  | _, _ => (s, -1)
  end.

Definition clear_bandwidth (t : option Z) (s : Sched) : Sched :=
  match t with
  | Some t => upd_bw t (fun _ => mkBw 0 0 0 0 false) s
  | None => s
  end.

Definition account_runtime (t : option Z) (ticks_used : Z) (s : Sched) : Sched * bool :=
  match t with
  | None => (s, true)
  | Some t =>
      let b := bw (tasks s t) in
      if bw_runtime b =? 0 then (s, true)
      else
        let ns_used := u64 (ticks_used * 1000000) in
        let consumed := u64 (bw_consumed b + ns_used) in
        if bw_runtime b <=? consumed
        then (upd_bw t (fun b => mkBw (bw_runtime b) (bw_period b) consumed (bw_period_start b) true) s,
              false)
        else (upd_bw t (fun b => mkBw (bw_runtime b) (bw_period b) consumed (bw_period_start b)
                                   (bw_throttled b)) s, true)
  end.

Definition is_throttled (t : option Z) (s : Sched) : bool :=
  match t with Some t => bw_throttled (bw (tasks s t)) | None => false end.

Definition get_remaining (t : option Z) (s : Sched) : Z :=
  match t with
  | None => 18446744073709551615
  | Some t =>
      let b := bw (tasks s t) in
      if bw_runtime b =? 0 then 18446744073709551615
      else if bw_runtime b <=? bw_consumed b then 0
      else bw_runtime b - bw_consumed b
  end.

Definition replenish_budget (current_cpu : Z) (t : option Z) (current_tick : Z) (s : Sched) : res Sched :=
  match t with
  | None => Ok s
  | Some t =>
      let was_throttled := bw_throttled (bw (tasks s t)) in
      let s := upd_bw t (fun b => mkBw (bw_runtime b) (bw_period b) 0 current_tick false) s in
      if was_throttled && bool_decide (state (tasks s t) = Blocked)
      then enqueue current_cpu (Some t) (upd_task t (set_state Ready) s)
      else Ok s
  end.

(** One turn of the loop of [check_replenish] over the task identifiers. *)
Definition check_task (current_cpu current_tick : Z) (acc : Sched * Z) (i : Z) : res (Sched * Z) :=
  let '(s, count) := acc in
  match get_by_id s i with
  | None => Ok (s, count)
  | Some t =>
      let b := bw (tasks s t) in
      if bw_runtime b =? 0 then Ok (s, count)
      else if negb (bw_throttled b) then Ok (s, count)
      else
        let period_ticks := bw_period b / 1000000 in
        let period_ticks := if period_ticks =? 0 then 1 else period_ticks in
        if u64 (bw_period_start b + period_ticks) <=? current_tick
        then s ← replenish_budget current_cpu (Some t) current_tick s; Ok (s, u32 (count + 1))
        else Ok (s, count)
  end.

Definition check_replenish (current_cpu current_tick : Z) (s : Sched) : res (Sched * Z) :=
  foldM (check_task current_cpu current_tick) (seqZ 0 MAX_TASKS) (s, 0).

(** ** Lemmas *)

(** [bw] fields are not touched by the scheduler's enqueue. *)
Definition same_bw (s s' : Sched) : Prop :=
  (forall t, bw (tasks s' t) = bw (tasks s t)) /\ get_by_id s' = get_by_id s.

Lemma same_bw_refl s : same_bw s s.
Proof. by split. Qed.
Lemma same_bw_trans s1 s2 s3 : same_bw s1 s2 -> same_bw s2 s3 -> same_bw s1 s3.
Proof. intros [H1 E1] [H2 E2]. split; [intros t; by rewrite H2|by rewrite E2]. Qed.

Lemma same_bw_upd s t f : (forall tk, bw (f tk) = bw tk) -> same_bw s (upd_task t f s).
Proof.
  intros Hf. split; [|done]. intros u. destruct (decide (u = t)) as [->|].
  - by rewrite SchedSpec.upd_same.
  - by rewrite SchedSpec.upd_other.
Qed.

Lemma put_cpu_bw c p s s' : put_cpu c p s = Ok s' -> same_bw s s'.
Proof. unfold put_cpu. by intros (l & _ & [= <-])%bind_inv. Qed.

Lemma heap_insert_bw key h t s s' h' r : heap_insert key h t s = Ok (s', h', r) -> same_bw s s'.
Proof. unfold heap_insert. by intros ([h1 ok] & _ & [= <- _ _])%bind_inv. Qed.

Lemma insert_by_policy_bw t p s s' p' r : insert_by_policy t p s = Ok (s', p', r) -> same_bw s s'.
Proof.
  unfold insert_by_policy. destruct (policy (tasks s t)).
  - set (s1 := if (_ : bool) then upd_task _ _ _ else s).
    assert (H1 : same_bw s s1) by (unfold s1; destruct (_ && _); [by apply same_bw_upd|apply same_bw_refl]).
    intros ([[s2 h2] ok] & H2%heap_insert_bw & Hr)%bind_inv. eapply same_bw_trans; [exact H1|].
    cbn beta iota zeta in Hr. repeat case_match; by simplify_eq.
  - intros (q & _ & (qs & _ & [= <- _ _])%bind_inv)%bind_inv. apply same_bw_refl.
  - intros (q & _ & (qs & _ & [= <- _ _])%bind_inv)%bind_inv. apply same_bw_refl.
  - by intros ([[s2 h2] ok] & H2%heap_insert_bw & [= <- _ _])%bind_inv.
Qed.

Lemma enqueue_percpu_bw t c s s' : enqueue_percpu_locked t c s = Ok s' -> same_bw s s'.
Proof.
  unfold enqueue_percpu_locked. destruct t as [t|]; [|intros [= <-]; apply same_bw_refl].
  destruct (_ <=? c); [intros [= <-]; apply same_bw_refl|]. intros (p & _ & H)%bind_inv.
  do 3 (case_match; [injection H as <-; apply same_bw_refl|]).
  apply bind_inv in H as ([[s1 p1] ok] & Hins%insert_by_policy_bw & Hput). destruct ok.
  - apply put_cpu_bw in Hput. eapply same_bw_trans; [exact Hins|]. eapply same_bw_trans; [|exact Hput].
    by apply same_bw_upd.
  - apply put_cpu_bw in Hput. by eapply same_bw_trans.
Qed.

Lemma enqueue_bw c t s s' : enqueue c t s = Ok s' -> same_bw s s'.
Proof.
  unfold enqueue. destruct t; [|intros [= <-]; apply same_bw_refl].
  intros (k & _ & (q & _ & H)%bind_inv)%bind_inv. by apply enqueue_percpu_bw in H.
Qed.

(** What a replenishment leaves to the other tasks. *)
Lemma replenish_other c t now s s' u :
  replenish_budget c (Some t) now s = Ok s' -> u <> t -> bw (tasks s' u) = bw (tasks s u).
Proof.
  intros H Hu. unfold replenish_budget in H. set (s1 := upd_bw t _ s) in H.
  assert (H1 : bw (tasks s1 u) = bw (tasks s u)) by (unfold s1, upd_bw; by rewrite SchedSpec.upd_other).
  case_match; [|by injection H as <-]. apply enqueue_bw in H as [H _].
  rewrite H. rewrite SchedSpec.upd_other by done. done.
Qed.

Lemma replenish_ids c t now s s' : replenish_budget c t now s = Ok s' -> get_by_id s' = get_by_id s.
Proof.
  unfold replenish_budget. destruct t; [|by intros [= <-]]. destruct (_ && _); [|by intros [= <-]].
  by intros [_ H]%enqueue_bw.
Qed.

(** A task that is not throttled keeps its budget, whatever the time. *)
Lemma check_keeps c now s s' n t :
  bw_throttled (bw (tasks s t)) = false -> check_replenish c now s = Ok (s', n) ->
  bw (tasks s' t) = bw (tasks s t).
Proof.
  intros Ht H. unfold check_replenish in H.
  refine (proj1 (foldM_keeps _ (fun acc : Sched * Z => bw (tasks acc.1 t) = bw (tasks s t) /\ True) _ (s, 0) (s', n) _ _ H));
    [|done].
  intros [s1 k] i [s2 k'] [Hb _] Hs. split; [|done]. cbn [fst] in *. unfold check_task in Hs.
  destruct (get_by_id s1 i) as [u|]; [|by injection Hs as <- _].
  cbn zeta in Hs. do 2 (case_match; [by injection Hs as <- _|]). case_match; [|by injection Hs as <- _].
  apply bind_inv in Hs as (s3 & H3 & [= <- _]). rewrite <- Hb.
  eapply replenish_other; [exact H3|]. intros ->. rewrite Hb, Ht in *. done.
Qed.

(** ** Claims *)

(** A task's use of the CPU and the periodic checks, in any order. *)
Inductive event := Use (ticks : Z) | Check (tick : Z).

Definition run_event (cpu t : Z) (s : Sched) (e : event) : res Sched :=
  match e with
  | Use ticks => Ok (account_runtime (Some t) ticks s).1
  | Check now => '(s, _) ← check_replenish cpu now s; Ok s
  end.

Fixpoint used (l : list event) : Z :=
  match l with
  | [] => 0
  | Use ticks :: l => ticks * 1000000 + used l
  | Check _ :: l => used l
  end.

Lemma used_nonneg l : Forall (fun e => match e with Use k => 0 <= k | Check _ => True end) l -> 0 <= used l.
Proof. induction 1 as [|[k|k] l Hk _ IH]; cbn [used]; lia. Qed.

(** The budget is not renewed every period: as long as a task is not throttled,
    no check resets what it has consumed, however much time has passed, so its
    consumption accumulates over all the periods until it reaches the budget. *)
Theorem budget_accumulates cpu t evs s s' :
  let b := bw (tasks s t) in
  bw_runtime b < 2 ^ 63 -> bw_throttled b = false -> 0 <= bw_consumed b ->
  Forall (fun e => match e with Use k => 0 <= k | Check _ => True end) evs ->
  bw_consumed b + used evs < bw_runtime b ->
  foldM (run_event cpu t) evs s = Ok s' ->
  bw (tasks s' t) =
    mkBw (bw_runtime b) (bw_period b) (bw_consumed b + used evs) (bw_period_start b) false.
Proof.
  cbn zeta. revert s. induction evs as [|e evs IH]; intros s Hr Ht Hc Hf Hlt Hop.
  { injection Hop as <-. cbn [used]. rewrite Z.add_0_r. destruct (bw (tasks s t)); cbn in *. by subst. }
  apply Forall_cons in Hf as [He Hf]. pose proof (used_nonneg _ Hf).
  apply bind_inv in Hop as (s1 & H1 & H2). destruct e as [k|now]; cbn [run_event used] in *.
  - injection H1 as <-. set (s1 := (account_runtime (Some t) k s).1) in *.
    assert (E : bw (tasks s1 t) = mkBw (bw_runtime (bw (tasks s t))) (bw_period (bw (tasks s t)))
      (bw_consumed (bw (tasks s t)) + k * 1000000) (bw_period_start (bw (tasks s t))) false).
    { unfold s1, account_runtime. destruct (Z.eqb_spec (bw_runtime (bw (tasks s t))) 0); [lia|].
      rewrite (u64_small (k * 1000000)) by lia. rewrite u64_small by lia.
      case_cmp. cbn [fst]. unfold upd_bw. rewrite SchedSpec.upd_same. cbn. by rewrite Ht. }
    specialize (IH s1). rewrite E in IH. cbn [bw_runtime bw_throttled bw_consumed bw_period bw_period_start] in IH.
    rewrite (IH ltac:(lia) eq_refl ltac:(lia) Hf ltac:(lia) H2). f_equal. lia.
  - apply bind_inv in H1 as ([s2 n] & H1 & [= <-]). apply (check_keeps _ _ _ _ _ t Ht) in H1.
    specialize (IH s2). rewrite H1 in IH. by apply IH.
Qed.

(** [account_runtime] throttles a limited task exactly when what it has consumed,
    this use included, reaches its budget, and the first check after the end of
    the period renews the budget and unthrottles it. *)
Theorem throttle_and_replenish cpu t ticks now s :
  let b := bw (tasks s t) in
  0 < bw_runtime b < 2 ^ 62 -> 0 <= bw_consumed b < 2 ^ 62 -> 0 <= ticks < 2 ^ 32 ->
  let s1 := (account_runtime (Some t) ticks s).1 in
  let b1 := bw (tasks s1 t) in
  bw_consumed b1 = bw_consumed b + ticks * 1000000 /\
  (account_runtime (Some t) ticks s).2 = negb (bw_runtime b <=? bw_consumed b1) /\
  (bw_runtime b <= bw_consumed b1 -> bw_throttled b1 = true /\
     forall s2, replenish_budget cpu (Some t) now s1 = Ok s2 ->
       bw (tasks s2 t) = mkBw (bw_runtime b) (bw_period b) 0 now false).
Proof.
  intros b Hr Hc Ht s1 b1. unfold b1, s1, account_runtime. fold b.
  destruct (Z.eqb_spec (bw_runtime b) 0); [lia|].
  rewrite (u64_small (ticks * 1000000)) by lia. rewrite u64_small by lia.
  destruct (Z.leb_spec (bw_runtime b) (bw_consumed b + ticks * 1000000)); cbn [fst snd];
    unfold upd_bw; rewrite SchedSpec.upd_same; cbn [bw set_bw bw_consumed bw_throttled].
  - destruct (Z.leb_spec (bw_runtime b) (bw_consumed b + ticks * 1000000)); [|lia].
    split_and!; [done|done|]. intros _. split; [done|]. intros s2. unfold replenish_budget.
    set (s3 := upd_task t _ s). set (s4 := upd_bw t _ s3).
    assert (E4 : bw (tasks s4 t) = mkBw (bw_runtime b) (bw_period b) 0 now false).
    { unfold s4, upd_bw. rewrite SchedSpec.upd_same. unfold s3. by rewrite SchedSpec.upd_same. }
    destruct (_ && _); [|by intros [= <-]]. intros [Henq _]%enqueue_bw. rewrite Henq.
    by rewrite SchedSpec.upd_same.
  - destruct (Z.leb_spec (bw_runtime b) (bw_consumed b + ticks * 1000000)); [lia|].
    split_and!; [done|done|]. lia.
Qed.

(** ** Witnesses *)

(** Task 1 may use 50 ms of every 100 ms. *)
Definition limited : Sched :=
  (set_bandwidth (Some 1) (Some (mkParams 50000000 100000000)) SchedSpec.boot).1.

(** It uses 20 ms in each of two seconds; the checks in between renew nothing. *)
Definition uses : list event := [Use 20; Check 1000; Use 20; Check 2000].
Definition after_uses : Sched :=
  match foldM (run_event 0 1) uses limited with Ok s => s | _ => limited end.

Lemma budget_accumulates_witness :
  bw (tasks after_uses 1) = mkBw 50000000 100000000 (0 + used uses) 0 false.
Proof.
  apply (budget_accumulates 0 1 uses limited after_uses); [by vm_compute..| |by vm_compute|].
  - by repeat constructor.
  - unfold after_uses. by vm_compute.
Defined.

Lemma throttle_and_replenish_witness :
  let s1 := (account_runtime (Some 1) 60 limited).1 in
  let b1 := bw (tasks s1 1) in
  bw_consumed b1 = 0 + 60 * 1000000 /\
  (account_runtime (Some 1) 60 limited).2 = negb (50000000 <=? bw_consumed b1) /\
  (50000000 <= bw_consumed b1 -> bw_throttled b1 = true /\
     forall s2, replenish_budget 0 (Some 1) 500 s1 = Ok s2 ->
       bw (tasks s2 1) = mkBw 50000000 100000000 0 500 false).
Proof. apply (throttle_and_replenish 0 1 60 500 limited); done. Defined.

End Bandwidth.
