(* ===== verification/Pi.v ===== *)
(** * Priority inheritance

    Models [src/kernel/sched/pi.hpp] and [pi.cpp].  Tasks and mutexes are
    stores indexed by their identifiers; a null pointer is [None].  The current
    task is an argument.  The spinlock of each mutex, held throughout each
    operation, is left out. *)

From stdpp Require Import functions.
From S2P Require Import Prelude Task.

Module Pi.
Import Task.

Definition MAX_CHAIN_DEPTH : Z := 8.

Record PiMutex := mkMutex {
  owner : option Z;
  owner_original_priority : Z;
  boosted_priority : Z;
  initialized : bool
}.

Record PiState := mkPi { tasks : Z -> Task; mutexes : Z -> PiMutex }.

Definition upd_task (t : Z) (f : Task -> Task) (s : PiState) : PiState :=
  mkPi (<[t := f (tasks s t)]> (tasks s)) (mutexes s).
Definition upd_mutex (m : Z) (f : PiMutex -> PiMutex) (s : PiState) : PiState :=
  mkPi (tasks s) (<[m := f (mutexes s m)]> (mutexes s)).

Definition init_mutex (m : option Z) (s : PiState) : PiState :=
  match m with
  | None => s
  | Some m => upd_mutex m (fun _ => mkMutex None PRIORITY_DEFAULT PRIORITY_DEFAULT true) s
  end.

Definition try_lock (current : option Z) (m : option Z) (s : PiState) : PiState * bool :=
  match m with
  | None => (s, false)
  | Some m =>
      if negb (initialized (mutexes s m)) then (s, false)
      else match owner (mutexes s m), current with
           | Some _, _ => (s, false)
           | None, None => (s, false)
           | None, Some cur =>
               let s := upd_mutex m (fun _ => mkMutex (Some cur) (original_priority (tasks s cur))
                                                (priority (tasks s cur)) true) s in
               (upd_task cur (set_blocked None) s, true)
           end
  end.

Definition set_boosted (p : Z) (m : PiMutex) : PiMutex :=
  mkMutex (owner m) (owner_original_priority m) p (initialized m).

(** The boosting loop of [contend]; [n] is what is left of [MAX_CHAIN_DEPTH]. *)
Fixpoint boost_chain (n : nat) (bp : Z) (current_owner : option Z) (s : PiState) : PiState :=
  match n, current_owner with
  | O, _ => s
  | _, None => s
  | S n, Some o =>
      let s := if bp <? priority (tasks s o) then upd_task o (set_priority bp) s else s in
      match blocked_mutex (tasks s o) with
      | Some next =>
          if initialized (mutexes s next)
          then boost_chain n bp (owner (mutexes s next)) (upd_mutex next (set_boosted bp) s)
          else s
      | None => s
      end
  end.

Definition contend (m : option Z) (waiter : option Z) (s : PiState) : PiState :=
  match m, waiter with
  | Some m, Some w =>
      if negb (initialized (mutexes s m)) then s
      else match owner (mutexes s m) with
           | None => s
           | Some o =>
               let s := upd_task w (set_blocked (Some m)) s in
               if priority (tasks s w) <? priority (tasks s o) then
                 let bp := priority (tasks s w) in
                 let s := boost_chain (Z.to_nat MAX_CHAIN_DEPTH) bp (Some o) s in
                 upd_mutex m (set_boosted bp) s
               else s
           end
  | _, _ => s
  end.


Definition unlock (current : option Z) (m : option Z) (s : PiState) : PiState :=
  match m with
  | None => s
  | Some m =>
      if negb (initialized (mutexes s m)) then s
      else match current with
           | None => s
           | Some cur =>
               if negb (bool_decide (owner (mutexes s m) = Some cur)) then s
               else
                 let s := if negb (priority (tasks s cur) =? original_priority (tasks s cur))
                          then upd_task cur (fun t => set_priority (original_priority t) t) s else s in
                 let s := upd_task cur (set_blocked None) s in
                 upd_mutex m (fun x => mkMutex None PRIORITY_DEFAULT PRIORITY_DEFAULT (initialized x)) s
           end
  end.

Definition is_locked (m : option Z) (s : PiState) : bool :=
  match m with
  | None => false
  | Some m => if negb (initialized (mutexes s m)) then false
              else bool_decide (is_Some (owner (mutexes s m)))
  end.

Definition get_owner (m : option Z) (s : PiState) : option Z :=
  match m with
  | None => None
  | Some m => if negb (initialized (mutexes s m)) then None else owner (mutexes s m)
  end.

Definition boost_priority (t : option Z) (new_priority : Z) (s : PiState) : PiState :=
  match t with
  | None => s
  | Some t => if new_priority <? priority (tasks s t) then upd_task t (set_priority new_priority) s else s
  end.

Definition restore_priority (t : option Z) (s : PiState) : PiState :=
  match t with
  | None => s
  | Some t =>
      let s := if negb (priority (tasks s t) =? original_priority (tasks s t))
               then upd_task t (fun x => set_priority (original_priority x) x) s else s in
      upd_task t (set_blocked None) s
  end.

(** ** The chain of owners *)

(** The tasks the boost visits: the owner, the owner of the mutex it waits for,
    and so on, at most [n] of them. *)
Fixpoint chain (n : nat) (o : option Z) (s : PiState) : list Z :=
  match n, o with
  | O, _ => []
  | _, None => []
  | S n, Some o =>
      o :: match blocked_mutex (tasks s o) with
           | Some next => if initialized (mutexes s next)
                          then chain n (owner (mutexes s next)) s else []
           | None => []
           end
  end.

Lemma task_same t f s : tasks (upd_task t f s) t = f (tasks s t).
Proof. apply fn_lookup_insert. Qed.
Lemma task_other t f s u : u <> t -> tasks (upd_task t f s) u = tasks s u.
Proof. intros H. by apply fn_lookup_insert_ne. Qed.
Lemma mutex_same m f s : mutexes (upd_mutex m f s) m = f (mutexes s m).
Proof. apply fn_lookup_insert. Qed.
Lemma mutex_other m f s u : u <> m -> mutexes (upd_mutex m f s) u = mutexes s u.
Proof. intros H. by apply fn_lookup_insert_ne. Qed.

(** Boosting changes priorities only, and only downwards in number. *)
Definition boosts (s s' : PiState) : Prop :=
  (forall t, priority (tasks s' t) <= priority (tasks s t) /\
             original_priority (tasks s' t) = original_priority (tasks s t) /\
             blocked_mutex (tasks s' t) = blocked_mutex (tasks s t)) /\
  (forall m, owner (mutexes s' m) = owner (mutexes s m) /\
             initialized (mutexes s' m) = initialized (mutexes s m)).

Lemma boosts_refl s : boosts s s.
Proof. split; intros; split_and!; done || lia. Qed.

Lemma boosts_trans s1 s2 s3 : boosts s1 s2 -> boosts s2 s3 -> boosts s1 s3.
Proof.
  intros [H1 M1] [H2 M2]. split.
  - intros t. destruct (H1 t) as (? & ? & ?), (H2 t) as (? & ? & ?). split_and!; [lia|congruence..].
  - intros m. destruct (M1 m) as [? ?], (M2 m) as [? ?]. split; congruence.
Qed.

Lemma boosts_task s o bp : bp < priority (tasks s o) -> boosts s (upd_task o (set_priority bp) s).
Proof.
  intros Hlt. split; [|done]. intros t. destruct (decide (t = o)) as [->|].
  - rewrite task_same. cbn. split_and!; done || lia.
  - rewrite task_other by done. split_and!; done || lia.
Qed.

Lemma boosts_mutex s m bp : boosts s (upd_mutex m (set_boosted bp) s).
Proof.
  split; [intros t; split_and!; done || cbn; lia|]. intros x. destruct (decide (x = m)) as [->|].
  - by rewrite mutex_same.
  - by rewrite mutex_other.
Qed.

Lemma chain_boosts n : forall o s s', boosts s s' -> chain n o s' = chain n o s.
Proof.
  induction n as [|n IH]; intros o s s' Hb; [done|]. destruct o as [o|]; [|done]. cbn [chain].
  destruct Hb as [Ht Hm]. destruct (Ht o) as (_ & _ & ->).
  destruct (blocked_mutex (tasks s o)) as [m|]; [|done]. destruct (Hm m) as [-> ->].
  destruct (initialized (mutexes s m)); [|done]. by rewrite (IH _ s s').
Qed.

Lemma boost_chain_ok n : forall bp o s,
  let s' := boost_chain n bp o s in
  boosts s s' /\ (forall t, t ∈ chain n o s -> priority (tasks s' t) <= bp) /\
  (forall t, t ∉ chain n o s -> priority (tasks s' t) = priority (tasks s t)) /\
  (forall t, priority (tasks s' t) = priority (tasks s t) \/ priority (tasks s' t) = bp).
Proof.
  induction n as [|n IH]; intros bp o s; cbn zeta.
  { cbn. split_and!; [apply boosts_refl|by intros t ?%not_elem_of_nil|done|by left]. }
  destruct o as [o|]; [|cbn; split_and!; [apply boosts_refl|by intros t ?%not_elem_of_nil|done|by left]].
  cbn [boost_chain chain].
  set (s1 := if bp <? priority (tasks s o) then upd_task o (set_priority bp) s else s).
  assert (H1 : boosts s s1 /\ priority (tasks s1 o) <= bp /\
               (forall t, t <> o -> tasks s1 t = tasks s t) /\
               (priority (tasks s1 o) = priority (tasks s o) \/ priority (tasks s1 o) = bp)).
  { unfold s1. case_cmp.
    - split_and!; [by apply boosts_task|rewrite task_same; cbn; lia|intros t Ht; by apply task_other|].
      right. by rewrite task_same.
    - split_and!; [apply boosts_refl|done|done|by left]. }
  destruct H1 as (Hb1 & Hp1 & Ho1 & Hv1). clearbody s1. pose proof Hb1 as [Ht1 Hm1].
  destruct (Ht1 o) as (_ & _ & ->).
  destruct (blocked_mutex (tasks s o)) as [m|]; [destruct (Hm1 m) as [-> ->]; destruct (initialized (mutexes s m))|].
  2,3: split_and!; [done|by intros t ->%list_elem_of_singleton| |];
       intros t; [intros Hne%not_elem_of_cons; by rewrite Ho1 by apply Hne|];
       destruct (decide (t = o)) as [->|]; [done|left; by rewrite Ho1].
  set (s2 := upd_mutex m (set_boosted bp) s1).
  assert (Hb2 : boosts s s2) by (eapply boosts_trans; [exact Hb1|apply boosts_mutex]).
  destruct (IH bp (owner (mutexes s m)) s2) as (Hb3 & Hc3 & Hn3 & Hv3).
  rewrite (chain_boosts _ _ s s2 Hb2) in Hc3, Hn3.
  set (s3 := boost_chain n bp _ s2) in *.
  assert (Hb : boosts s s3) by (by eapply boosts_trans).
  assert (Ho : priority (tasks s3 o) <= bp).
  { destruct Hb3 as [H3 _]. destruct (H3 o) as [H3o _]. change (tasks s2 o) with (tasks s1 o) in H3o. lia. }
  split_and!; [done| | |].
  - intros t Ht. apply elem_of_cons in Ht as [->|Ht]; [done|by apply Hc3].
  - intros t Ht. apply not_elem_of_cons in Ht as [Hne Ht]. rewrite Hn3 by done.
    change (tasks s2 t) with (tasks s1 t). by rewrite Ho1.
  - intros t. destruct (Hv3 t) as [E|E]; [|by right]. change (tasks s2 t) with (tasks s1 t) in E.
    rewrite E. destruct (decide (t = o)) as [->|]; [done|left; by rewrite Ho1].
Qed.

(** ** Claims *)

(** When a task waits for a mutex held by a task of lower priority, every task
    of the chain of owners (up to eight of them) ends up with the waiter's priority or a
    higher one; no priority is lowered, original priorities are kept, and the
    tasks outside the chain are unaffected. *)
Theorem contend_boosts_chain m w o s :
  initialized (mutexes s m) = true -> owner (mutexes s m) = Some o -> w <> o ->
  priority (tasks s w) < priority (tasks s o) ->
  let s0 := upd_task w (set_blocked (Some m)) s in
  let s' := contend (Some m) (Some w) s in
  (forall t, t ∈ chain 8 (Some o) s0 -> priority (tasks s' t) <= priority (tasks s w)) /\
  (forall t, t ∉ chain 8 (Some o) s0 -> priority (tasks s' t) = priority (tasks s t)) /\
  (forall t, priority (tasks s' t) <= priority (tasks s t) /\
             original_priority (tasks s' t) = original_priority (tasks s t)) /\
  blocked_mutex (tasks s' w) = Some m /\ owner (mutexes s' m) = Some o.
Proof.
  intros Hi Ho Hne Hlt s0 s'. subst s'. unfold contend. rewrite Hi, Ho. cbn [negb]. fold s0.
  assert (Hp : forall t, priority (tasks s0 t) = priority (tasks s t) /\
                         original_priority (tasks s0 t) = original_priority (tasks s t)).
  { intros t. unfold s0. destruct (decide (t = w)) as [->|]; [by rewrite task_same|by rewrite task_other]. }
  rewrite !(proj1 (Hp _)). destruct (Z.ltb_spec (priority (tasks s w)) (priority (tasks s o))); [|lia].
  destruct (boost_chain_ok (Z.to_nat MAX_CHAIN_DEPTH) (priority (tasks s w)) (Some o) s0)
    as ([Hb Hm] & Hc & Hn & _).
  change (Z.to_nat MAX_CHAIN_DEPTH) with 8%nat in *.
  set (s1 := boost_chain 8 _ _ s0) in *.
  change (tasks (upd_mutex m (set_boosted (priority (tasks s w))) s1)) with (tasks s1).
  split_and!.
  - done.
  - intros t Ht. rewrite Hn by done. apply Hp.
  - intros t. destruct (Hb t) as (? & ? & _). destruct (Hp t). split; [lia|congruence].
  - destruct (Hb w) as (_ & _ & ->). unfold s0. by rewrite task_same.
  - rewrite mutex_same. cbn [owner set_boosted]. destruct (Hm m) as [-> _]. done.
Qed.

(** Unlocking by the owner frees the mutex and gives the owner back its original
    priority; unlocking by anyone else, or of an uninitialised mutex, does
    nothing. *)
Theorem unlock_restores cur m s :
  let s' := unlock (Some cur) (Some m) s in
  if initialized (mutexes s m) && bool_decide (owner (mutexes s m) = Some cur)
  then owner (mutexes s' m) = None /\
       priority (tasks s' cur) = original_priority (tasks s cur) /\
       blocked_mutex (tasks s' cur) = None /\
       (forall t, t <> cur -> tasks s' t = tasks s t) /\
       (forall x, x <> m -> mutexes s' x = mutexes s x)
  else s' = s.
Proof.
  cbn zeta. unfold unlock. destruct (initialized (mutexes s m)); cbn [negb andb]; [|done].
  destruct (bool_decide _); cbn [negb]; [|done].
  set (s1 := if (_ : bool) then upd_task _ _ _ else s).
  assert (H1 : priority (tasks s1 cur) = original_priority (tasks s cur) /\ mutexes s1 = mutexes s /\
               forall t, t <> cur -> tasks s1 t = tasks s t).
  { unfold s1. destruct (Z.eqb_spec (priority (tasks s cur)) (original_priority (tasks s cur))); cbn [negb]; [done|].
    split_and!; [by rewrite task_same|done|]. intros t Ht. by apply task_other. }
  destruct H1 as (Hp & Hm & Ht). clearbody s1. set (s2 := upd_task cur (set_blocked None) s1).
  change (tasks (upd_mutex m _ s2)) with (tasks s2).
  split_and!; [by rewrite mutex_same|unfold s2; by rewrite task_same|unfold s2; by rewrite task_same| |].
  - intros t Hne. unfold s2. rewrite task_other by done. by apply Ht.
  - intros x Hne. rewrite mutex_other by done. unfold s2. cbn. by rewrite Hm.
Qed.

(** A boost does not last as long as its cause: a task that was boosted because
    a waiter of higher priority waits for its mutex [m1] falls back to its
    original priority as soon as it unlocks any other mutex [m2] it holds, while
    it still owns [m1] and the waiter still waits for it. *)
Theorem unlock_drops_boost m1 m2 w o s :
  m1 <> m2 -> w <> o ->
  initialized (mutexes s m1) = true -> owner (mutexes s m1) = Some o ->
  initialized (mutexes s m2) = true -> owner (mutexes s m2) = Some o ->
  priority (tasks s w) < priority (tasks s o) -> priority (tasks s o) = original_priority (tasks s o) ->
  let s1 := contend (Some m1) (Some w) s in
  let s2 := unlock (Some o) (Some m2) s1 in
  priority (tasks s1 o) <= priority (tasks s w) /\
  priority (tasks s2 o) = original_priority (tasks s o) /\
  owner (mutexes s2 m1) = Some o /\ blocked_mutex (tasks s2 w) = Some m1.
Proof.
  intros Hm Hwo Hi1 Ho1 Hi2 Ho2 Hlt Horig s1 s2. subst s2.
  unfold s1, contend. rewrite Hi1, Ho1. cbn [negb]. set (s0 := upd_task w (set_blocked (Some m1)) s).
  assert (Hp : forall t, priority (tasks s0 t) = priority (tasks s t) /\
                         original_priority (tasks s0 t) = original_priority (tasks s t)).
  { intros t. unfold s0. destruct (decide (t = w)) as [->|]; [by rewrite task_same|by rewrite task_other]. }
  rewrite !(proj1 (Hp _)). destruct (Z.ltb_spec (priority (tasks s w)) (priority (tasks s o))); [|lia].
  destruct (boost_chain_ok (Z.to_nat MAX_CHAIN_DEPTH) (priority (tasks s w)) (Some o) s0)
    as ([Hb Hmx] & Hc & _ & _).
  set (s3 := boost_chain _ _ _ s0) in *. set (s4 := upd_mutex m1 _ s3).
  assert (E4 : initialized (mutexes s4 m2) = true /\ owner (mutexes s4 m2) = Some o /\
               owner (mutexes s4 m1) = Some o).
  { unfold s4. rewrite mutex_other, mutex_same by done. cbn [owner set_boosted]. destruct (Hmx m2) as [-> ->], (Hmx m1) as [-> _]. done. }
  destruct E4 as (Ei & Eo & E1). change (tasks s4) with (tasks s3).
  split; [apply Hc; cbn; left|].
  unfold unlock. rewrite Ei, Eo. cbn [negb]. rewrite bool_decide_eq_true_2 by done. cbn [negb].
  set (s5 := if (_ : bool) then upd_task _ _ _ else s4).
  assert (H5 : priority (tasks s5 o) = original_priority (tasks s o) /\ mutexes s5 = mutexes s4 /\
               tasks s5 w = tasks s3 w).
  { assert (Eorig : original_priority (tasks s4 o) = original_priority (tasks s o))
      by (destruct (Hb o) as (_ & E & _); change (tasks s4) with (tasks s3); rewrite E; apply Hp).
    unfold s5. destruct (Z.eqb_spec (priority (tasks s4 o)) (original_priority (tasks s4 o))); cbn [negb].
    - split_and!; [congruence|done|done].
    - split_and!; [by rewrite task_same|done|]. by rewrite task_other. }
  destruct H5 as (Hp5 & Hm5 & Hw5). clearbody s5. set (s6 := upd_task o (set_blocked None) s5).
  change (tasks (upd_mutex m2 _ s6)) with (tasks s6). split_and!.
  - unfold s6. by rewrite task_same.
  - rewrite mutex_other by done. unfold s6. cbn. by rewrite Hm5.
  - unfold s6. rewrite task_other, Hw5 by done. destruct (Hb w) as (_ & _ & ->). unfold s0. by rewrite task_same.
Qed.

(** ** Witnesses *)

(** Task 1 (priority 200) holds mutexes 10 and 11; task 2 (priority 50) waits. *)
Definition demo : PiState :=
  mkPi (fun t => new_task (if t =? 2 then 50 else 200))
       (fun m => mkMutex (Some 1) 200 200 ((m =? 10) || (m =? 11))).

Lemma contend_boosts_chain_witness :
  let s0 := upd_task 2 (set_blocked (Some 10)) demo in
  let s' := contend (Some 10) (Some 2) demo in
  (forall t, t ∈ chain 8 (Some 1) s0 -> priority (tasks s' t) <= 50) /\
  (forall t, t ∉ chain 8 (Some 1) s0 -> priority (tasks s' t) = priority (tasks demo t)) /\
  (forall t, priority (tasks s' t) <= priority (tasks demo t) /\
             original_priority (tasks s' t) = original_priority (tasks demo t)) /\
  blocked_mutex (tasks s' 2) = Some 10 /\ owner (mutexes s' 10) = Some 1.
Proof. apply (contend_boosts_chain 10 2 1 demo); done. Defined.

Lemma unlock_drops_boost_witness :
  let s1 := contend (Some 10) (Some 2) demo in
  let s2 := unlock (Some 1) (Some 11) s1 in
  priority (tasks s1 1) <= 50 /\ priority (tasks s2 1) = 200 /\
  owner (mutexes s2 10) = Some 1 /\ blocked_mutex (tasks s2 2) = Some 10.
Proof. apply (unlock_drops_boost 10 11 2 1 demo); done. Defined.

End Pi.
