(* ===== verification/Wait.v ===== *)
(** * Wait queues

    Models [src/kernel/sched/wait.hpp] and [wait.cpp], with [task::wakeup] of
    [task.cpp].  A queue is named by its address and holds its tasks head first;
    the links [next] and [prev] of the tasks are these lists.  What the queues
    use of the tasks and of the scheduler is the class [TaskOps]; the scheduler
    model is an instance of it.  The tick counter is an argument.  Diagnostics on
    the serial line are left out. *)

From stdpp Require Import functions.
From S2P Require Import Prelude Task Heap Sched.

Module Wait.
Import Task.

(** ** What wait queues use of the rest of the kernel *)

Class TaskOps (S : Type) := {
  task_state : S -> Z -> TaskState;
  task_priority : S -> Z -> Z;
  task_heap_index : S -> Z -> Z;
  task_by_id : S -> Z -> option Z;
  set_task_state : Z -> TaskState -> S -> S;
  sched_enqueue : Z -> S -> res S
}.

(** The scheduler of the CPU that runs the code. *)
Definition sched_ops (current_cpu : Z) : TaskOps Sched.Sched := {|
  task_state s t := state (Sched.tasks s t);
  task_priority s t := priority (Sched.tasks s t);
  task_heap_index := Sched.heap_index;
  task_by_id := Sched.get_by_id;
  set_task_state t st := Sched.upd_task t (set_state st);
  sched_enqueue t := Sched.enqueue current_cpu (Some t)
|}.

(** ** State *)

Record WaitQueue := mkQueue { waiters : list Z; count : Z }.

(** All wait queues, the fields of the tasks that belong to waiting, and the
    statistics of timeouts. *)
Record Waits := mkWaits {
  queues : Z -> WaitQueue;
  wait_channel : Z -> option Z;
  wait_timeout : Z -> Z;
  timeout_count : Z;
  earliest_timeout : Z
}.

Definition set_queue (q : Z) (x : WaitQueue) (w : Waits) : Waits :=
  mkWaits (<[q := x]> (queues w)) (wait_channel w) (wait_timeout w) (timeout_count w) (earliest_timeout w).
Definition set_channel (t : Z) (q : option Z) (w : Waits) : Waits :=
  mkWaits (queues w) (<[t := q]> (wait_channel w)) (wait_timeout w) (timeout_count w) (earliest_timeout w).
Definition set_timeout (t x : Z) (w : Waits) : Waits :=
  mkWaits (queues w) (wait_channel w) (<[t := x]> (wait_timeout w)) (timeout_count w) (earliest_timeout w).
Definition set_timeouts (n e : Z) (w : Waits) : Waits :=
  mkWaits (queues w) (wait_channel w) (wait_timeout w) n e.

Definition MARKER : Z := 0xDEADBEEF.
Definition TIMED_OUT : Z := 0xFFFFFFFFFFFFFFFF.

Section tasks.
Context {S : Type} {TO : TaskOps S}.

Definition in_heap (s : S) (t : Z) : bool := negb (task_heap_index s t =? Heap.NOT_IN_HEAP).

Definition wait_init (q : Z) (w : Waits) : Waits := set_queue q (mkQueue [] 0) w.

(** Insertion after the last task of higher or equal priority; the list is not
    empty. *)
Fixpoint insert_after (s : S) (t : Z) (l : list Z) : list Z :=
  match l with
  | [] => [t]
  | curr :: rest =>
      match rest with
      | next :: _ =>
          if task_priority s next <=? task_priority s t then curr :: insert_after s t rest
          else curr :: t :: rest
      | [] => [curr; t]
      end
  end.

Definition insert_waiter (s : S) (t : Z) (l : list Z) : list Z :=
  match l with
  | [] => [t]
  | head :: _ => if task_priority s t <? task_priority s head then t :: l else insert_after s t l
  end.

Definition wait_enqueue (q t : Z) (x : Waits * S) : Waits * S :=
  let '(w, s) := x in
  let w := if in_heap s t then set_timeout t MARKER w else w in
  let s := set_task_state t Blocked s in
  let w := set_channel t (Some q) w in
  let wq := queues w q in
  (set_queue q (mkQueue (insert_waiter s t (waiters wq)) (u32 (count wq + 1))) w, s).

(** The search and the unlinking. *)
Fixpoint remove_waiter (t : Z) (l : list Z) : option (list Z) :=
  match l with
  | [] => None
  | curr :: rest =>
      if curr =? t then Some rest
      else match remove_waiter t rest with Some l => Some (curr :: l) | None => None end
  end.

Definition wait_dequeue (q t : Z) (w : Waits) : Waits * bool :=
  let wq := queues w q in
  match remove_waiter t (waiters wq) with
  | Some l => (set_queue q (mkQueue l (u32 (count wq - 1))) (set_channel t None w), true)
  | None => (w, false)
  end.

Definition clear_marker (t : Z) (w : Waits) : Waits :=
  if wait_timeout w t =? MARKER then set_timeout t 0 w else w.

Definition wait_wake_one (q : Z) (x : Waits * S) : res (Waits * S * option Z) :=
  let '(w, s) := x in
  let wq := queues w q in
  match waiters wq with
  | [] => Ok (w, s, None)
  | t :: rest =>
      let w := set_queue q (mkQueue rest (u32 (count wq - 1))) (set_channel t None w) in
      let w := clear_marker t w in
      if in_heap s t then Ok (w, s, Some t)
      else s ← sched_enqueue t (set_task_state t Ready s); Ok (w, s, Some t)
  end.

(** The loop of [wait_wake_all] over the tasks of the queue. *)
Fixpoint wake_loop (l : list Z) (n : Z) (x : Waits * S) : res (Waits * S * Z) :=
  match l with
  | [] => Ok (x, n)
  | t :: l =>
      let '(w, s) := x in
      let w := clear_marker t (set_channel t None w) in
      if bool_decide (task_state s t = Blocked) then
        if in_heap s t then wake_loop l n (w, s)
        else s ← sched_enqueue t (set_task_state t Ready s); wake_loop l (u32 (n + 1)) (w, s)
      else wake_loop l n (w, s)
  end.

Definition wait_wake_all (q : Z) (x : Waits * S) : res (Waits * S * Z) :=
  '(w, s, n) ← wake_loop (waiters (queues x.1 q)) 0 x;
  Ok (set_queue q (mkQueue [] 0) w, s, n).

Definition wait_empty (q : Z) (w : Waits) : bool := bool_decide (waiters (queues w q) = []).
Definition wait_count (q : Z) (w : Waits) : Z := count (queues w q).

Definition wait_enqueue_timeout (current_tick q t timeout_ticks : Z) (x : Waits * S) : Waits * S :=
  let '(w, s) := x in
  let abs_timeout := if 0 <? timeout_ticks then u64 (current_tick + timeout_ticks) else 0 in
  let w := set_timeout t abs_timeout w in
  let w := if 0 <? abs_timeout then
             set_timeouts (u32 (timeout_count w + 1))
               (if (earliest_timeout w =? 0) || (abs_timeout <? earliest_timeout w) then abs_timeout
                else earliest_timeout w) w
           else w in
  wait_enqueue q t (w, s).

(** One task of the scan for expired timeouts; carries the number of woken tasks
    and the new earliest timeout. *)
Definition check_one (current_tick : Z) (x : Waits * S * Z * Z) (i : Z) : res (Waits * S * Z * Z) :=
  let '(w, s, woken, new_earliest) := x in
  match task_by_id s i with
  | None => Ok x
  | Some t =>
      let to := wait_timeout w t in
      if (to =? 0) || (to =? TIMED_OUT) then Ok x
      else if bool_decide (task_state s t = Blocked) && (to <=? current_tick) then
        let w := match wait_channel w t with Some q => (wait_dequeue q t w).1 | None => w end in
        let w := set_channel t None (set_timeout t TIMED_OUT w) in
        let w := if 0 <? timeout_count w then set_timeouts (timeout_count w - 1) (earliest_timeout w) w else w in
        if in_heap s t then Ok (w, s, woken, new_earliest)
        else
          s ← sched_enqueue t (set_task_state t Ready s);
          Ok (w, s, u32 (woken + 1), new_earliest)
      else if bool_decide (task_state s t = Blocked) then
        Ok (w, s, woken, if (new_earliest =? 0) || (to <? new_earliest) then to else new_earliest)
      else Ok x
  end.

Definition check_wait_timeouts (current_tick : Z) (x : Waits * S) : res (Waits * S * Z) :=
  let '(w, s) := x in
  if timeout_count w =? 0 then Ok (w, s, 0)
  else if (0 <? earliest_timeout w) && (current_tick <? earliest_timeout w) then Ok (w, s, 0)
  else
    '(w, s, woken, new_earliest) ← foldM (check_one current_tick) (seqZ 0 MAX_TASKS) (w, s, 0, 0);
    Ok (set_timeouts (timeout_count w) new_earliest w, s, woken).

Definition wait_timed_out (t : Z) (w : Waits) : bool := wait_timeout w t =? TIMED_OUT.
Definition wait_clear_timeout (t : Z) (w : Waits) : Waits := set_timeout t 0 w.

(** [task::wakeup]. *)
Definition wakeup (t : Z) (x : Waits * S) : res (Waits * S * bool) :=
  let '(w, s) := x in
  if negb (bool_decide (task_state s t = Blocked)) then Ok (w, s, false)
  else
    let w := match wait_channel w t with Some q => (wait_dequeue q t w).1 | None => w end in
    s ← sched_enqueue t (set_task_state t Ready s);
    Ok (w, s, true).

End tasks.
End Wait.
