(* ===== verification/WaitSpec.v ===== *)
(** * Wait queues wake tasks in priority order and lose none

    [TaskLaws] states what wait queues need of the scheduler; the scheduler
    model satisfies it.  Against these laws a queue is a stable priority queue,
    and waking hands its first task, or all of them, to the scheduler. *)

From Stdlib Require Import Sorted.
From stdpp Require Import functions.
From S2P Require Import Prelude Task Heap HeapSpec Sched SchedSpec Wait.

Module WaitSpec.
Import Task Wait.

(** ** The contract of the scheduler *)

(** [sound]: the invariant of the scheduler; [valid]: tasks of the task table;
    [ready]: the tasks that wait for a CPU. *)
Class TaskLaws (S : Type) `{!TaskOps S} := {
  sound : S -> Prop;
  valid : Z -> Prop;
  ready : S -> list Z;
  set_state_law s t st u : task_state (set_task_state t st s) u = if u =? t then st else task_state s u;
  set_state_priority s t st u : task_priority (set_task_state t st s) u = task_priority s u;
  block_law s t : sound s -> t ∉ ready s ->
    sound (set_task_state t Blocked s) /\ ready (set_task_state t Blocked s) = ready s;
  blocked_law s t : sound s -> valid t -> task_state s t = Blocked ->
    task_heap_index s t = Heap.NOT_IN_HEAP /\ t ∉ ready s;
  wake_law s t : sound s -> valid t -> task_state s t = Blocked ->
    exists s', sched_enqueue t (set_task_state t Ready s) = Ok s' /\ sound s' /\ ready s' ≡ₚ t :: ready s /\
      (forall u, task_state s' u = if u =? t then Ready else task_state s u) /\
      (forall u, task_priority s' u = task_priority s u)
}.

(** ** The scheduler satisfies it *)

Section scheduler.
Import Sched SchedSpec.
Context (cpu : Z).
Hypothesis Hcpu : 0 <= cpu < MAX_CPUS.

Definition task_ok (t : Z) : Prop := 0 <= t < MAX_TASKS.

(** Ready tasks wait on this CPU; all tasks may run on it. *)
Record sched_sound (s : Sched) : Prop := {
  ss_cpu : exists p, get_cpu cpu s = Ok p /\ initialized p = true /\ cpu_wf s p /\ NoDup (waiting p) /\
    (forall t, t ∈ waiting p -> task_ok t /\ state (tasks s t) = Ready) /\
    (forall t, task_ok t -> t ∉ waiting p -> heap_index s t = Heap.NOT_IN_HEAP);
  ss_prio : forall t, task_ok t -> 0 <= priority (tasks s t) < 256;
  ss_affinity : forall t, task_ok t -> cpu_affinity (tasks s t) = 0xFFFFFFFF
}.

Definition sched_ready (s : Sched) : list Z := match get_cpu cpu s with Ok p => waiting p | _ => [] end.

Lemma tasks_bound l : NoDup l -> (forall t, t ∈ l -> task_ok t) -> (length l <= Z.to_nat MAX_TASKS)%nat.
Proof.
  intros Hn Ht. replace (Z.to_nat MAX_TASKS) with (length (seqZ 0 MAX_TASKS)) by (by rewrite length_seqZ).
  apply submseteq_length, NoDup_submseteq; [done|]. intros t H. apply elem_of_seqZ. apply Ht in H. unfold task_ok in H. lia.
Qed.

(** A valid task outside the CPU leaves room for itself. *)
Lemma sound_can s p t :
  cpu_wf s p -> NoDup (waiting p) -> (forall u, u ∈ waiting p -> task_ok u) -> task_ok t -> t ∉ waiting p ->
  heap_index s t = Heap.NOT_IN_HEAP -> 0 <= priority (tasks s t) < 256 -> can_enqueue s p t.
Proof.
  intros Hw Hn Hok Ht Hnin Hix Hp.
  assert (Hlen : (length (t :: waiting p) <= Z.to_nat MAX_TASKS)%nat).
  { apply tasks_bound; [by constructor|]. intros u [->|Hu]%elem_of_cons; auto. }
  destruct (cw_count _ _ Hw) as (_ & Hq & _). cbn [length] in Hlen. change (Z.to_nat MAX_TASKS) with (Z.to_nat 256) in Hlen.
  destruct (cw_dl _ _ Hw) as [[Hl1 Hs1 _] _]. destruct (cw_cfs _ _ Hw) as [[Hl2 Hs2 _] _].
  unfold waiting in Hlen, Hq. rewrite !length_app in Hlen, Hq. unfold members in Hlen, Hq. rewrite !length_take in Hlen, Hq.
  cbn [Heap.nodes Heap.size heap_of] in *. change Heap.HEAP_MAX_SIZE with 256 in *.
  unfold can_enqueue. change Heap.HEAP_MAX_SIZE with 256. split; [done|]. split; [done|]. split; [lia|]. split; lia.
Qed.

Lemma sound_state s t st :
  sched_sound s -> (t ∈ sched_ready s -> st = Ready) -> sched_sound (upd_task t (set_state st) s).
Proof.
  intros [(p & Hg & Hi & Hw & Hn & Hr & Hx) Hp Ha] Hst. unfold sched_ready in Hst. rewrite Hg in Hst.
  assert (E : forall u, exists st', tasks (upd_task t (set_state st) s) u = set_state st' (tasks s u)).
  { intros u. destruct (decide (u = t)) as [->|].
    - exists st. by rewrite upd_same.
    - exists (state (tasks s u)). rewrite upd_other by done. by destruct (tasks s u). }
  constructor.
  - exists p. split_and!; [done|done|by apply wf_upd_state|done| |done]. intros u Hu. destruct (Hr u Hu) as [Ho Hrd]. split; [done|].
    destruct (decide (u = t)) as [->|]; [rewrite upd_same; by apply Hst|by rewrite upd_other].
  - intros u Hu. destruct (E u) as [st' ->]. by apply Hp.
  - intros u Hu. destruct (E u) as [st' ->]. by apply Ha.
Qed.

Lemma sound_target s t : sched_sound s -> task_ok t -> select_target_cpu cpu t s = Ok cpu.
Proof.
  intros [(p & Hg & Hi & _) _ Ha] Ht. unfold select_target_cpu. rewrite (Ha t Ht).
  change (popcount 4294967295 =? 1) with false. cbv iota zeta. rewrite Hg. cbn [mbind res_bind]. rewrite Hi.
  assert (Hb : forallb (fun c => negb (Z.land 4294967295 (u32 (Z.shiftl 1 c)) =? 0)) (seqZ 0 4) = true) by done.
  rewrite forallb_forall in Hb. rewrite Hb; [done|]. apply list_elem_of_In, elem_of_seqZ. unfold MAX_CPUS in Hcpu. lia.
Qed.

#[local] Instance sched_task_ops : TaskOps Sched := sched_ops cpu.

Definition sched_laws : TaskLaws Sched.
Proof.
  refine {| sound := sched_sound; valid := task_ok; ready := sched_ready |}.
  - intros s t st u. cbn [task_state task_priority task_heap_index set_task_state sched_enqueue sched_task_ops sched_ops]. destruct (Z.eqb_spec u t) as [->|]; [by rewrite upd_same|by rewrite upd_other].
  - intros s t st u. cbn [task_state task_priority task_heap_index set_task_state sched_enqueue sched_task_ops sched_ops]. destruct (decide (u = t)) as [->|]; [by rewrite upd_same|by rewrite upd_other].
  - intros s t Hs Ht. split; [|done]. apply sound_state; [done|]. by intros ?%Ht.
  - intros s t [(p & Hg & Hi & Hw & Hn & Hr & Hx) _ _] Ht Hb. cbn [task_state task_priority task_heap_index set_task_state sched_enqueue sched_task_ops sched_ops] in *. unfold sched_ready. rewrite Hg.
    assert (Hnin : t ∉ waiting p) by (intros Hin; destruct (Hr t Hin); congruence). auto.
  - intros s t Hs Ht Hb. cbn [task_state task_priority task_heap_index set_task_state sched_enqueue sched_task_ops sched_ops] in Hb |- *.
    assert (Hnin : t ∉ sched_ready s).
    { destruct Hs as [(p & Hg & _ & _ & _ & Hr & _) _ _]. unfold sched_ready. rewrite Hg. intros Hin. destruct (Hr t Hin). congruence. }
    set (s1 := upd_task t (set_state Ready) s).
    assert (Hs1 : sched_sound s1) by (apply sound_state; done).
    unfold enqueue. rewrite (sound_target s1 t Hs1 Ht). cbn [mbind res_bind]. destruct Hs1 as [(p & Hg & Hi & Hw & Hn & Hr & Hx) Hp Ha].
    assert (Hg0 : get_cpu cpu s = Ok p) by exact Hg. unfold sched_ready in Hnin |- *. rewrite Hg0 in Hnin |- *.
    rewrite Hg. cbn [mbind res_bind].
    assert (Hcan : can_enqueue s1 p t). { apply sound_can; auto. intros u Hu. by apply Hr. }
    destruct (enqueue_ok cpu s1 p t Hcpu Hg Hi Hw) as (s' & E & p' & Hg' & Hw' & Hi' & Hwt & (v & Hv) & Ho & Hix & Hby & _); [|done|].
    { left. subst s1. by rewrite upd_same. }
    exists s'. rewrite Hg'. split; [exact E|]. split; [|split; [done|split]].
    + constructor.
      * exists p'. rewrite Hi'. split_and!; [done|done|done| | |].
        -- rewrite Hwt. by constructor.
        -- intros u. rewrite Hwt. intros [->|Hu]%elem_of_cons; [split; [done|by rewrite Hv]|].
           destruct (Hr u Hu). destruct (decide (u = t)) as [->|]; [done|]. by rewrite Ho.
        -- intros u Hu. rewrite Hwt, not_elem_of_cons. intros [Hne Hu']. rewrite Hix by done. by apply Hx.
      * intros u Hu. destruct (decide (u = t)) as [->|]; [rewrite Hv; by apply Hp|rewrite Ho by done; by apply Hp].
      * intros u Hu. destruct (decide (u = t)) as [->|]; [rewrite Hv; by apply Ha|rewrite Ho by done; by apply Ha].
    + intros u. destruct (Z.eqb_spec u t) as [->|]; [by rewrite Hv|]. rewrite Ho by done. subst s1. by rewrite upd_other.
    + intros u. destruct (decide (u = t)) as [->|]; [rewrite Hv; subst s1; by rewrite upd_same|]. rewrite Ho by done. subst s1. by rewrite upd_other.
Defined.
End scheduler.

(** ** Priority order *)

Section queue.
Context {S : Type} {TO : TaskOps S} {TL : TaskLaws S}.

Definition before (s : S) (a b : Z) : Prop := task_priority s a <= task_priority s b.
Definition in_order (s : S) (l : list Z) : Prop := StronglySorted (before s) l.

Lemma insert_after_split s t a l :
  before s a t -> in_order s (a :: l) ->
  exists l1 l2, a :: l = l1 ++ l2 /\ insert_after s t (a :: l) = l1 ++ t :: l2 /\
    Forall (fun u => before s u t) l1 /\ Forall (fun u => task_priority s t < task_priority s u) l2.
Proof.
  revert a. induction l as [|b l IH]; intros a Ha Ho.
  - exists [a], []. cbn. repeat split; [by constructor|constructor].
  - cbn [insert_after]. destruct (Z.leb_spec (task_priority s b) (task_priority s t)) as [Hle|Hlt].
    + apply StronglySorted_inv in Ho as [Ho _]. destruct (IH b Hle Ho) as (l1 & l2 & E1 & E2 & F1 & F2).
      exists (a :: l1), l2. cbn [insert_after] in E2. rewrite E2. split; [by rewrite E1|]. split; [done|]. split; [by constructor|done].
    + exists [a], (b :: l). split; [done|]. split; [done|]. split; [by constructor|].
      apply StronglySorted_inv in Ho as [Ho _]. apply StronglySorted_inv in Ho as [_ Hf]. constructor; [done|].
      eapply Forall_impl; [exact Hf|]. intros u. unfold before. lia.
Qed.

(** A task goes behind those of its priority or a higher one. *)
Lemma insert_split s t l :
  in_order s l -> exists l1 l2, l = l1 ++ l2 /\ insert_waiter s t l = l1 ++ t :: l2 /\
    Forall (fun u => before s u t) l1 /\ Forall (fun u => task_priority s t < task_priority s u) l2.
Proof.
  intros Ho. destruct l as [|a l]; cbn [insert_waiter].
  - exists [], []. repeat split; constructor.
  - destruct (Z.ltb_spec (task_priority s t) (task_priority s a)); [|by apply insert_after_split].
    exists [], (a :: l). split; [done|]. split; [done|]. split; [constructor|]. constructor; [done|].
    apply StronglySorted_inv in Ho as [_ Hf]. eapply Forall_impl; [exact Hf|]. intros u. unfold before. lia.
Qed.

Lemma sorted_app s l1 l2 :
  in_order s (l1 ++ l2) <-> in_order s l1 /\ in_order s l2 /\ (forall a b, a ∈ l1 -> b ∈ l2 -> before s a b).
Proof.
  unfold in_order. induction l1 as [|x l1 IH]; cbn [app].
  - split; [|tauto]. intros H. split; [constructor|]. split; [done|]. by intros a b ?%not_elem_of_nil.
  - split.
    + intros [H F]%StronglySorted_inv. apply IH in H as (H1 & H2 & H3). rewrite Forall_app in F. destruct F as [F1 F2].
      split; [by constructor|]. split; [done|]. intros a b [->|Ha]%elem_of_cons Hb; [|by apply H3].
      rewrite Forall_forall in F2. by apply F2.
    + intros (H1 & H2 & H3). apply StronglySorted_inv in H1 as [H1 F1]. constructor.
      * apply IH. split; [done|]. split; [done|]. intros a b Ha. apply H3. by right.
      * apply Forall_app. split; [done|]. apply Forall_forall. intros b Hb. apply H3; [by left|done].
Qed.

Lemma insert_in_order s t l : in_order s l -> in_order s (insert_waiter s t l).
Proof.
  intros Ho. destruct (insert_split s t l Ho) as (l1 & l2 & -> & -> & F1 & F2). rewrite Forall_forall in F1, F2.
  apply sorted_app in Ho as (H1 & H2 & H3). apply sorted_app. split; [done|]. split.
  - constructor; [done|]. apply Forall_forall. intros b Hb. apply F2 in Hb. unfold before. lia.
  - intros a b Ha [->|Hb]%elem_of_cons; [by apply F1|by apply H3].
Qed.

Lemma insert_perm s t l : in_order s l -> insert_waiter s t l ≡ₚ t :: l.
Proof. intros Ho. destruct (insert_split s t l Ho) as (l1 & l2 & -> & -> & _). by rewrite <- Permutation_middle. Qed.

(** The tasks of one priority, in queue order. *)
Definition at_priority (s : S) (p : Z) (l : list Z) : list Z := List.filter (fun u => task_priority s u =? p) l.

Lemma at_priority_app s p l k : at_priority s p (l ++ k) = at_priority s p l ++ at_priority s p k.
Proof. apply List.filter_app. Qed.

Lemma insert_stable s t l p :
  in_order s l -> at_priority s p (insert_waiter s t l) = at_priority s p l ++ at_priority s p [t].
Proof.
  intros Ho. destruct (insert_split s t l Ho) as (l1 & l2 & -> & -> & _ & F2). unfold at_priority.
  rewrite !List.filter_app. cbn [List.filter]. destruct (Z.eqb_spec (task_priority s t) p) as [<-|]; [|by rewrite app_nil_r].
  assert (E : List.filter (fun u => task_priority s u =? task_priority s t) l2 = []).
  { clear Ho. induction F2 as [|u l2 Hu F2 IH]; [done|]. cbn. destruct (Z.eqb_spec (task_priority s u) (task_priority s t)); [lia|done]. }
  by rewrite E, app_nil_r.
Qed.

Lemma in_order_ext s s' l : (forall u, task_priority s' u = task_priority s u) -> in_order s l -> in_order s' l.
Proof. intros E. unfold in_order. induction 1; constructor; [done|]. eapply Forall_impl; [eassumption|]. unfold before. intros u. by rewrite !E. Qed.

Lemma insert_ext s s' t l : (forall u, task_priority s' u = task_priority s u) -> insert_waiter s' t l = insert_waiter s t l.
Proof.
  intros E. destruct l as [|a l]; [done|]. cbn [insert_waiter]. rewrite !E. destruct (_ <? _); [done|].
  revert a. induction l as [|b l IH]; intros a; [done|]. assert (IHb := IH b).
  cbn [insert_after] in IHb |- *. rewrite ?E in IHb. rewrite !E. destruct (task_priority s b <=? _); [by f_equal|done].
Qed.

(** ** The invariant *)

Record winv (x : Waits * S) : Prop := {
  wi_sound : sound x.2;
  wi_order : forall q, in_order x.2 (waiters (queues x.1 q));
  wi_nodup : forall q, NoDup (waiters (queues x.1 q));
  wi_blocked : forall q t, t ∈ waiters (queues x.1 q) -> valid t /\ task_state x.2 t = Blocked /\ wait_channel x.1 t = Some q;
  wi_channel : forall q t, wait_channel x.1 t = Some q -> t ∈ waiters (queues x.1 q);
  wi_count : forall q, count (queues x.1 q) = u32 (Z.of_nat (length (waiters (queues x.1 q))))
}.

Lemma u32_add a b : u32 (u32 a + b) = u32 (a + b).
Proof. unfold wrap. by rewrite Zplus_mod_idemp_l. Qed.

(** A task that can start to wait: it is running, and in no queue. *)
Definition may_wait (t : Z) (x : Waits * S) : Prop := valid t /\ wait_channel x.1 t = None /\ t ∉ ready x.2.

Lemma queue_set q q' x w : queues (set_queue q x w) q' = if q' =? q then x else queues w q'.
Proof. cbn. destruct (Z.eqb_spec q' q) as [->|]; [apply fn_lookup_insert|by apply fn_lookup_insert_ne]. Qed.

Lemma channel_set t u c w : wait_channel (set_channel t c w) u = if u =? t then c else wait_channel w u.
Proof. cbn. destruct (Z.eqb_spec u t) as [->|]; [apply fn_lookup_insert|by apply fn_lookup_insert_ne]. Qed.

Lemma enqueue_winv q t x :
  winv x -> may_wait t x ->
  winv (wait_enqueue q t x) /\ (forall q', waiters (queues (wait_enqueue q t x).1 q') =
    if q' =? q then insert_waiter x.2 t (waiters (queues x.1 q)) else waiters (queues x.1 q')) /\
  ready (wait_enqueue q t x).2 = ready x.2 /\
  (forall u, task_priority (wait_enqueue q t x).2 u = task_priority x.2 u) /\
  (forall u, u <> t -> wait_channel (wait_enqueue q t x).1 u = wait_channel x.1 u).
Proof.
  destruct x as [w s]. intros [Hs Ho Hn Hb Hc Hct] (Hv & Hch & Hr). cbn [fst snd] in *. unfold wait_enqueue.
  set (w0 := if in_heap s t then set_timeout t MARKER w else w).
  assert (Hq0 : queues w0 = queues w) by (subst w0; by destruct (in_heap s t)).
  assert (Hch0 : wait_channel w0 = wait_channel w) by (subst w0; by destruct (in_heap s t)).
  assert (Hqs : forall q, queues (set_channel t (Some q) w0) = queues w0) by done. rewrite Hqs, Hq0. clearbody w0.
  destruct (block_law s t Hs Hr) as [Hs' Hr']. set (s' := set_task_state t Blocked s) in *.
  assert (Hp : forall u, task_priority s' u = task_priority s u) by (intros; apply set_state_priority).
  rewrite (insert_ext s s') by done. cbn [fst snd].
  assert (Hnin : forall q', t ∉ waiters (queues w q')).
  { intros q' Hin. destruct (Hb q' t Hin) as (_ & _ & E). congruence. }
  split; [|split; [|split; [done|split; [done|]]]].
  - constructor; cbn [fst snd].
    + done.
    + intros q'. rewrite queue_set. destruct (q' =? q); [cbn [waiters]; eapply in_order_ext; [exact Hp|]; by apply insert_in_order|].
      rewrite Hqs, Hq0. by eapply in_order_ext.
    + intros q'. rewrite queue_set. destruct (q' =? q); [cbn [waiters]; rewrite insert_perm by done; by constructor|]. by rewrite Hqs, Hq0.
    + intros q' u. rewrite queue_set, Hqs, Hq0. cbn [wait_channel set_queue]. rewrite channel_set, Hch0.
      unfold s'. rewrite set_state_law. destruct (Z.eqb_spec q' q) as [->|Hne]; cbn [waiters].
      * rewrite insert_perm by done. intros [->|Hu]%elem_of_cons; [by rewrite Z.eqb_refl|].
        destruct (Z.eqb_spec u t) as [->|]; [done|]. by apply Hb.
      * intros Hu. destruct (Z.eqb_spec u t) as [->|]; [by destruct (Hnin q')|]. by apply Hb.
    + intros q' u. cbn [wait_channel set_queue]. rewrite channel_set, queue_set, Hqs, Hq0, Hch0. destruct (Z.eqb_spec u t) as [->|].
      * intros [= <-]. rewrite Z.eqb_refl. cbn [waiters]. rewrite insert_perm by done. left.
      * intros Hu%Hc. destruct (Z.eqb_spec q' q) as [->|]; [|done]. cbn [waiters]. rewrite insert_perm by done. by right.
    + intros q'. rewrite queue_set, Hqs, Hq0. destruct (Z.eqb_spec q' q) as [->|]; [|done]. cbn [count waiters].
      rewrite Hct, u32_add. f_equal. rewrite (Permutation_length (insert_perm s t _ (Ho q))). cbn [length]. lia.
  - intros q'. rewrite queue_set, Hqs, Hq0. by destruct (q' =? q).
  - intros u Hu. cbn [wait_channel set_queue]. rewrite channel_set, Hch0. by destruct (Z.eqb_spec u t).
Qed.

(** Leaving a queue. *)
Lemma unlink_winv q l1 t l2 (w : Waits) (s : S) :
  winv (w, s) -> waiters (queues w q) = l1 ++ t :: l2 ->
  winv (set_queue q (mkQueue (l1 ++ l2) (u32 (count (queues w q) - 1))) (set_channel t None w), s).
Proof.
  intros [Hs Ho Hn Hb Hc Hct] E. cbn [fst snd] in *.
  assert (Hnd := Hn q). rewrite E in Hnd. assert (Hnd' := Hnd). rewrite <- Permutation_middle in Hnd. apply NoDup_cons in Hnd as [Hnt Hnd].
  assert (Hother : forall q', q' <> q -> t ∉ waiters (queues w q')).
  { intros q' Hne Hin. destruct (Hb q' t Hin) as (_ & _ & E1). destruct (Hb q t) as (_ & _ & E2); [rewrite E, elem_of_app; right; left|congruence]. }
  assert (Hsub : forall u, u ∈ l1 ++ l2 -> u ∈ waiters (queues w q)).
  { intros u. rewrite E, !elem_of_app, elem_of_cons. tauto. }
  constructor; cbn [fst snd].
  - done.
  - intros q'. rewrite queue_set. destruct (q' =? q); [cbn [waiters]|apply Ho]. specialize (Ho q). rewrite E in Ho.
    apply sorted_app in Ho as (H1 & H2 & H3). apply StronglySorted_inv in H2 as [H2 _]. apply sorted_app. split; [done|]. split; [done|].
    intros a b Ha Hb'. apply H3; [done|by right].
  - intros q'. rewrite queue_set. destruct (q' =? q); [exact Hnd|apply Hn].
  - intros q' u. rewrite queue_set. cbn [wait_channel set_queue]. rewrite channel_set. destruct (Z.eqb_spec q' q) as [->|Hne]; cbn [waiters].
    + intros Hu. destruct (Z.eqb_spec u t) as [->|]; [done|]. apply Hb. by apply Hsub.
    + intros Hu. change (queues (set_channel t None w)) with (queues w) in Hu.
      destruct (Z.eqb_spec u t) as [->|]; [by destruct (Hother q')|by apply Hb].
  - intros q' u. cbn [wait_channel set_queue]. rewrite channel_set, queue_set. destruct (Z.eqb_spec u t) as [->|Hne]; [done|].
    intros Hu%Hc. destruct (Z.eqb_spec q' q) as [->|]; [|done]. cbn [waiters]. rewrite E, elem_of_app, elem_of_cons in Hu. rewrite elem_of_app. tauto.
  - intros q'. rewrite queue_set. destruct (Z.eqb_spec q' q) as [->|]; [|apply Hct]. cbn [count waiters].
    rewrite Hct, E. rewrite <- Z.add_opp_r, u32_add. f_equal. rewrite !length_app. cbn [length]. lia.
Qed.

Lemma winv_same w w' (s : S) :
  (forall q, queues w' q = queues w q) -> wait_channel w' = wait_channel w -> winv (w, s) -> winv (w', s).
Proof.
  intros E1 E2 [Hs Ho Hn Hb Hc Hct]. cbn [fst snd] in *.
  constructor; cbn [fst snd]; [done|intros q|intros q|intros q|intros q t|intros q]; rewrite ?E1, ?E2; auto.
Qed.

Lemma marker_winv t w (s : S) : winv (w, s) -> winv (clear_marker t w, s).
Proof. apply winv_same; [intros q|]; unfold clear_marker; by destruct (_ =? _). Qed.

(** Waking a task that is in no queue. *)
Lemma wake_winv w (s : S) t :
  winv (w, s) -> valid t -> task_state s t = Blocked -> wait_channel w t = None ->
  exists s', sched_enqueue t (set_task_state t Ready s) = Ok s' /\ winv (w, s') /\ ready s' ≡ₚ t :: ready s /\
    (forall u, task_state s' u = if u =? t then Ready else task_state s u) /\ (forall u, task_priority s' u = task_priority s u).
Proof.
  intros [Hs Ho Hn Hb Hc Hct] Hv Hst Hch. cbn [fst snd] in *. destruct (wake_law s t Hs Hv Hst) as (s' & E & Hs' & Hr & Hst' & Hp).
  exists s'. split; [done|]. split; [|done]. constructor; cbn [fst snd]; auto.
  - intros q. by eapply in_order_ext.
  - intros q u Hu. destruct (Hb q u Hu) as (? & ? & ?). rewrite Hst'. destruct (Z.eqb_spec u t) as [->|]; [congruence|done].
Qed.

Lemma blocked_free s t : sound s -> valid t -> task_state s t = Blocked -> in_heap s t = false.
Proof. intros Hs Hv Hb. unfold in_heap. destruct (blocked_law s t Hs Hv Hb) as [-> _]. by rewrite Z.eqb_refl. Qed.

(** What happens to the tasks [l] when they are woken: they become ready. *)
Record woken (l : list Z) (x x' : Waits * S) : Prop := {
  wk_inv : winv x';
  wk_ready : ready x'.2 ≡ₚ l ++ ready x.2;
  wk_state : forall u, task_state x'.2 u = if bool_decide (u ∈ l) then Ready else task_state x.2 u;
  wk_channel : forall u, wait_channel x'.1 u = if bool_decide (u ∈ l) then None else wait_channel x.1 u;
  wk_priority : forall u, task_priority x'.2 u = task_priority x.2 u
}.

Lemma wake_one_ok q x :
  winv x ->
  match waiters (queues x.1 q) with
  | [] => wait_wake_one q x = Ok (x, None)
  | t :: rest => exists x', wait_wake_one q x = Ok (x', Some t) /\ woken [t] x x' /\
      (forall q', waiters (queues x'.1 q') = if q' =? q then rest else waiters (queues x.1 q'))
  end.
Proof.
  destruct x as [w s]. intros Hi. unfold wait_wake_one. cbn [fst snd]. destruct (waiters (queues w q)) as [|t rest] eqn:E; [done|].
  destruct (wi_blocked _ Hi q t) as (Hv & Hst & Hch); [cbn [fst]; rewrite E; left|]. cbn [fst snd] in *.
  rewrite (blocked_free s t (wi_sound _ Hi) Hv Hst). assert (Hi1 := unlink_winv q [] t rest w s Hi E). cbn [app] in Hi1.
  apply (marker_winv t) in Hi1. set (w1 := clear_marker t _) in *.
  assert (Hq : queues w1 = queues (set_queue q (mkQueue rest (u32 (count (queues w q) - 1))) (set_channel t None w)))
    by (unfold w1, clear_marker; by destruct (_ =? _)).
  assert (Hc : wait_channel w1 = wait_channel (set_channel t None w)) by (unfold w1, clear_marker; by destruct (_ =? _)).
  destruct (wake_winv w1 s t Hi1 Hv Hst) as (s' & -> & Hi' & Hr & Hst' & Hp). { rewrite Hc, channel_set, Z.eqb_refl. done. }
  rewrite bind_Ok. exists (w1, s'). split; [done|]. cbn [fst snd]. split.
  - constructor; cbn [fst snd]; [done|done| | |done].
    + intros u. rewrite Hst'. case_bool_decide as Hu; rewrite list_elem_of_singleton in Hu; by destruct (Z.eqb_spec u t).
    + intros u. rewrite Hc, channel_set. case_bool_decide as Hu; rewrite list_elem_of_singleton in Hu; by destruct (Z.eqb_spec u t).
  - intros q'. rewrite Hq, queue_set. by destruct (q' =? q).
Qed.

Lemma wake_loop_ok q l n w (s : S) :
  winv (set_queue q (mkQueue l (u32 (Z.of_nat (length l)))) w, s) ->
  exists w' s', wake_loop l n (w, s) = Ok (w', s', match l with [] => n | _ => u32 (n + Z.of_nat (length l)) end) /\
    woken l (set_queue q (mkQueue l (u32 (Z.of_nat (length l)))) w, s) (set_queue q (mkQueue [] 0) w', s') /\
    (forall q', q' <> q -> queues w' q' = queues w q').
Proof.
  revert n w s. induction l as [|t l IH]; intros n w s Hi; cbn [wake_loop].
  - exists w, s. split; [done|]. split; [|done]. constructor; cbn [fst snd]; try done.
  - destruct (wi_blocked _ Hi q t) as (Hv & Hst & Hch); [cbn [fst]; rewrite queue_set, Z.eqb_refl; left|]. cbn [fst snd] in *.
    rewrite bool_decide_true, (blocked_free s t (wi_sound _ Hi) Hv Hst) by done.
    set (w1 := clear_marker t (set_channel t None w)).
    assert (Hq1 : queues w1 = queues w) by (unfold w1, clear_marker; by destruct (_ =? _)).
    assert (Hc1 : wait_channel w1 = wait_channel (set_channel t None w)) by (unfold w1, clear_marker; by destruct (_ =? _)).
    assert (Hi1 : winv (set_queue q (mkQueue l (u32 (Z.of_nat (length l)))) w1, s)).
    { assert (Hu := unlink_winv q [] t l _ s Hi). cbn [app] in Hu. rewrite queue_set, Z.eqb_refl in Hu. cbn [waiters count] in Hu.
      specialize (Hu eq_refl). rewrite <- Z.add_opp_r, u32_add in Hu. cbn [length] in Hu.
      replace (Z.of_nat (Datatypes.S (length l)) + - (1)) with (Z.of_nat (length l)) in Hu by lia.
      eapply winv_same; [| |exact Hu]; [|by cbn [wait_channel set_queue]]. intros q'.
      rewrite !queue_set. destruct (Z.eqb_spec q' q); [done|]. cbn [queues set_channel]. rewrite Hq1, queue_set. by destruct (Z.eqb_spec q' q). }
    destruct (wake_winv _ s t Hi1 Hv Hst) as (s1 & -> & Hi2 & Hr & Hst1 & Hp1).
    { cbn [wait_channel set_queue]. by rewrite Hc1, channel_set, Z.eqb_refl. }
    rewrite bind_Ok. destruct (IH (u32 (n + 1)) w1 s1 Hi2) as (w' & s' & -> & Hwk & Hoq). exists w', s'. split.
    { f_equal. f_equal. destruct l; [by cbn [length]|]. rewrite u32_add. f_equal. cbn [length]. lia. }
    destruct Hwk as [K1 K2 K3 K4 K5]. cbn [fst snd] in *. split; [|intros q' Hne; by rewrite Hoq, Hq1].
    constructor; cbn [fst snd].
    + done.
    + rewrite K2, Hr. cbn [app]. by rewrite Permutation_middle.
    + intros u. rewrite K3, Hst1. repeat case_bool_decide; rewrite ?elem_of_cons in *; destruct (Z.eqb_spec u t); try done; tauto.
    + intros u. rewrite K4. cbn [wait_channel set_queue]. rewrite Hc1, channel_set.
      repeat case_bool_decide; rewrite ?elem_of_cons in *; destruct (Z.eqb_spec u t); try done; tauto.
    + intros u. by rewrite K5, Hp1.
Qed.

Lemma wake_all_ok q x :
  winv x ->
  exists x' n, wait_wake_all q x = Ok (x', n) /\ woken (waiters (queues x.1 q)) x x' /\
    (forall q', waiters (queues x'.1 q') = if q' =? q then [] else waiters (queues x.1 q')).
Proof.
  destruct x as [w s]. intros Hi. unfold wait_wake_all. cbn [fst snd]. set (l := waiters (queues w q)).
  assert (Hi' : winv (set_queue q (mkQueue l (u32 (Z.of_nat (length l)))) w, s)).
  { eapply (winv_same w); [|done|exact Hi]. intros q'. rewrite queue_set. destruct (Z.eqb_spec q' q) as [->|]; [|done].
    assert (Hc := wi_count _ Hi q). cbn [fst] in Hc. unfold l. rewrite <- Hc. by destruct (queues w q). }
  destruct (wake_loop_ok q l 0 w s Hi') as (w' & s' & -> & [K1 K2 K3 K4 K5] & Hoq). rewrite bind_Ok. eexists (_, _), _. split; [done|].
  cbn [fst snd] in *. split; [by constructor|]. intros q'. rewrite queue_set. destruct (Z.eqb_spec q' q); [done|by rewrite Hoq].
Qed.

Lemma remove_waiter_split t l :
  match remove_waiter t l with
  | Some l' => exists l1 l2, l = l1 ++ t :: l2 /\ l' = l1 ++ l2 /\ t ∉ l1
  | None => t ∉ l
  end.
Proof.
  induction l as [|a l IH]; cbn [remove_waiter]; [apply not_elem_of_nil|]. destruct (Z.eqb_spec a t) as [->|Hne].
  - exists [], l. repeat split. apply not_elem_of_nil.
  - destruct (remove_waiter t l) as [l'|].
    + destruct IH as (l1 & l2 & -> & -> & Hn). exists (a :: l1), l2. repeat split. apply not_elem_of_cons. split; [congruence|done].
    + apply not_elem_of_cons. split; [congruence|done].
Qed.

Lemma dequeue_winv q t w (s : S) :
  winv (w, s) -> winv ((wait_dequeue q t w).1, s) /\
  (wait_channel w t = Some q -> wait_channel (wait_dequeue q t w).1 t = None).
Proof.
  intros Hi. unfold wait_dequeue. assert (Hr := remove_waiter_split t (waiters (queues w q))).
  destruct (remove_waiter _ _) as [l'|]; cbn [fst].
  - destruct Hr as (l1 & l2 & E & -> & _). split; [by apply unlink_winv|]. intros _. cbn [wait_channel set_queue]. by rewrite channel_set, Z.eqb_refl.
  - split; [done|]. intros Hc. by apply (wi_channel _ Hi) in Hc.
Qed.

Lemma wakeup_ok t x :
  winv x -> valid t -> exists x' b, wakeup t x = Ok (x', b) /\ winv x' /\ b = bool_decide (task_state x.2 t = Blocked) /\
    (b = true -> ready x'.2 ≡ₚ t :: ready x.2 /\ wait_channel x'.1 t = None).
Proof.
  destruct x as [w s]. intros Hi Hv. unfold wakeup. cbn [fst snd]. case_bool_decide as Hb; cbn [negb].
  - set (w1 := match wait_channel w t with Some q => _ | None => _ end).
    assert (H1 : winv (w1, s) /\ wait_channel w1 t = None).
    { unfold w1. destruct (wait_channel w t) as [q|] eqn:E; [|done]. destruct (dequeue_winv q t w s Hi). auto. }
    destruct H1 as [Hi1 Hc1]. destruct (wake_winv w1 s t Hi1 Hv Hb Hc1) as (s' & -> & Hi2 & Hr & _). rewrite bind_Ok.
    exists (w1, s'), true. split; [done|]. split; [done|]. split; [done|]. auto.
  - exists (w, s), false. split; [done|]. split; [done|]. split; [done|]. done.
Qed.

(** ** Sequences of operations *)

Definition enqueue_all (q : Z) (ts : list Z) (x : Waits * S) : Waits * S := foldl (fun x t => wait_enqueue q t x) x ts.

(** Wakes [n] times and collects the woken tasks. *)
Fixpoint drain (n : nat) (q : Z) (x : Waits * S) : res (Waits * S * list Z) :=
  match n with
  | O => Ok (x, [])
  | Datatypes.S n =>
      '(x, r) ← wait_wake_one q x;
      '(x, l) ← drain n q x;
      Ok (x, match r with Some t => t :: l | None => l end)
  end.

Lemma enqueue_all_ok q ts x :
  winv x -> NoDup ts -> Forall (fun t => may_wait t x) ts ->
  let x' := enqueue_all q ts x in
  let l := waiters (queues x.1 q) in
  let l' := waiters (queues x'.1 q) in
  winv x' /\ l' ≡ₚ ts ++ l /\ (forall p, at_priority x.2 p l' = at_priority x.2 p (l ++ ts)) /\
  ready x'.2 = ready x.2 /\ (forall u, task_priority x'.2 u = task_priority x.2 u).
Proof.
  revert x. induction ts as [|t ts IH]; intros x Hi Hn Hm; cbv zeta.
  - rewrite app_nil_r. done.
  - change (enqueue_all q (t :: ts) x) with (enqueue_all q ts (wait_enqueue q t x)). apply Forall_cons in Hm as [Ht Hm]. apply NoDup_cons in Hn as [Hnt Hn].
    destruct (enqueue_winv q t x Hi Ht) as (Hi1 & Hq1 & Hr1 & Hp1 & Hc1). specialize (Hq1 q). rewrite Z.eqb_refl in Hq1.
    destruct (IH (wait_enqueue q t x) Hi1 Hn) as (Hi2 & Hperm & Hat & Hr2 & Hp2).
    { eapply Forall_impl; [apply Forall_and; split; [exact Hm|apply Forall_forall; intros u Hu; exact Hu]|].
      intros u [(Hv & Hc & Hr) Hu]. split; [done|]. rewrite Hr1, Hc1; [done|]. by intros ->. }
    split; [done|]. split; [|split; [|split; [by rewrite Hr2|intros u; by rewrite Hp2]]].
    + rewrite Hperm, Hq1, insert_perm by apply Hi. by rewrite <- Permutation_middle.
    + intros p. assert (E : forall l, at_priority (wait_enqueue q t x).2 p l = at_priority x.2 p l).
      { intros l. unfold at_priority. induction l as [|u l IHl]; cbn; [done|]. by rewrite Hp1, IHl. }
      rewrite <- E, Hat, E, Hq1, !at_priority_app, insert_stable by apply Hi. by rewrite <- app_assoc, <- (at_priority_app x.2 p [t]).
Qed.

Lemma drain_ok q x :
  winv x -> exists x', drain (length (waiters (queues x.1 q))) q x = Ok (x', waiters (queues x.1 q)) /\ winv x' /\
    waiters (queues x'.1 q) = [] /\ ready x'.2 ≡ₚ waiters (queues x.1 q) ++ ready x.2.
Proof.
  remember (waiters (queues x.1 q)) as l eqn:El. revert x El. induction l as [|t l IH]; intros x El Hi; cbn [length drain].
  - exists x. by rewrite <- El.
  - assert (W := wake_one_ok q x Hi). rewrite <- El in W. destruct W as (x1 & -> & [K1 K2 _ _ _] & Hq). rewrite bind_Ok.
    specialize (Hq q). rewrite Z.eqb_refl in Hq. destruct (IH x1 (eq_sym Hq) K1) as (x2 & -> & Hi2 & Hq2 & Hr2). rewrite bind_Ok.
    exists x2. split; [done|]. split; [done|]. split; [done|]. rewrite Hr2, K2. cbn [app]. by rewrite Permutation_middle.
Qed.

(** The operations on wait queues as steps of the kernel. *)
Inductive wstep : Waits * S -> Waits * S -> Prop :=
| ws_enqueue q t x : may_wait t x -> wstep x (wait_enqueue q t x)
| ws_dequeue q t w s : wstep (w, s) ((wait_dequeue q t w).1, s)
| ws_wake_one q x x' r : wait_wake_one q x = Ok (x', r) -> wstep x x'
| ws_wake_all q x x' n : wait_wake_all q x = Ok (x', n) -> wstep x x'
| ws_wakeup t x x' b : valid t -> wakeup t x = Ok (x', b) -> wstep x x'.

Lemma step_winv x x' : wstep x x' -> winv x -> winv x'.
Proof.
  intros St Hi. destruct St as [q t x Hm|q t w s|q x x' r E|q x x' n E|t x x' b Hv E].
  - by apply enqueue_winv.
  - by apply dequeue_winv.
  - assert (W := wake_one_ok q x Hi). destruct (waiters _); [|destruct W as (y & W & [? _ _ _ _] & _)]; rewrite W in E; injection E; intros; by subst.
  - destruct (wake_all_ok q x Hi) as (y & m & W & [? _ _ _ _] & _). rewrite W in E. injection E; intros; by subst.
  - destruct (wakeup_ok t x Hi Hv) as (y & m & W & ? & _). rewrite W in E. injection E; intros; by subst.
Qed.
End queue.

(** ** Claims *)

(** (C21) A wait queue is a stable priority queue: tasks that start to wait on an empty
    queue, in any order, are woken most urgent first, and in the order of their
    arrival among equals; each becomes ready exactly once and no other does. *)
Theorem wake_order {S} `{!TaskOps S, !TaskLaws S} q ts (x : Waits * S) :
  winv x -> waiters (queues x.1 q) = [] -> NoDup ts -> Forall (fun t => may_wait t x) ts ->
  exists x' l, drain (length ts) q (enqueue_all q ts x) = Ok (x', l) /\ winv x' /\ waiters (queues x'.1 q) = [] /\
    l ≡ₚ ts /\ in_order x.2 l /\ (forall p, at_priority x.2 p l = at_priority x.2 p ts) /\ ready x'.2 ≡ₚ ts ++ ready x.2.
Proof.
  intros Hi He Hn Hm. destruct (enqueue_all_ok q ts x Hi Hn Hm) as (Hi1 & Hperm & Hat & Hr & Hp). rewrite He, app_nil_r in Hperm.
  destruct (drain_ok q (enqueue_all q ts x) Hi1) as (x' & Hd & Hi' & Hq' & Hr'). rewrite (Permutation_length Hperm) in Hd.
  eexists x', _. split; [exact Hd|]. split; [done|]. split; [done|]. split; [done|]. split; [|split].
  - eapply in_order_ext; [|apply (wi_order _ Hi1 q)]. intros u. symmetry. apply Hp.
  - intros p. by rewrite Hat, He.
  - by rewrite Hr', Hperm, Hr.
Qed.

(** (C24) Whatever the kernel does with its wait queues, every waiting task is blocked,
    is in exactly the queue its [wait_channel] names, and waits in priority
    order; in every such state waking the first waiter, or all of them, succeeds
    and makes exactly those tasks ready. *)
Theorem waits_invariant {S} `{!TaskOps S, !TaskLaws S} (x0 x : Waits * S) :
  winv x0 -> rtc wstep x0 x ->
  winv x /\ forall q,
    (exists x1, wait_wake_one q x = Ok (x1, head (waiters (queues x.1 q))) /\
       ready x1.2 ≡ₚ option_list (head (waiters (queues x.1 q))) ++ ready x.2) /\
    (exists x1 n, wait_wake_all q x = Ok (x1, n) /\ ready x1.2 ≡ₚ waiters (queues x.1 q) ++ ready x.2).
Proof.
  intros Hi R. assert (Hx : winv x) by (induction R; eauto using step_winv). split; [done|]. intros q. split.
  - assert (W := wake_one_ok q x Hx). destruct (waiters _) as [|t l]; [by exists x|]. destruct W as (x1 & -> & [_ K _ _ _] & _).
    exists x1. done.
  - destruct (wake_all_ok q x Hx) as (x1 & n & -> & [_ K _ _ _] & _). by exists x1, n.
Qed.

(** A scheduler with ordinary tasks that all sleep or run, and no task waiting. *)
Definition asleep (n : Z) : Sched.Sched :=
  Sched.mkSched (fun t => set_state Running (new_task (if t =? 1 then n else 128))) (fun _ => Heap.NOT_IN_HEAP) Some
    (replicate 4 None) (replicate 4 SchedSpec.empty_cpu) 0 true 0.
Definition no_waits : Waits := mkWaits (fun _ => mkQueue [] 0) (fun _ => None) (fun _ => 0) 0 0.

Lemma asleep_sound n : 0 <= n < 256 -> sched_sound 0 (asleep n).
Proof.
  intros Hn. constructor.
  - exists SchedSpec.empty_cpu. split; [done|]. split; [done|]. split; [apply SchedSpec.empty_cpu_wf|]. split; [constructor|].
    split; [by intros t ?%not_elem_of_nil|done].
  - intros t _. cbn. destruct (t =? 1); lia.
  - done.
Qed.

#[local] Instance cpu0_ops : TaskOps Sched.Sched := sched_ops 0.
#[local] Instance cpu0_laws : TaskLaws Sched.Sched := sched_laws 0 ltac:(by vm_compute).

Lemma asleep_winv n : 0 <= n < 256 -> winv (no_waits, asleep n).
Proof.
  intros Hn. constructor; cbn [fst snd no_waits queues waiters wait_channel count].
  - by apply asleep_sound.
  - intros q. constructor.
  - intros q. constructor.
  - by intros q t ?%not_elem_of_nil.
  - done.
  - done.
Qed.

Lemma asleep_may n t : 0 <= t < 256 -> may_wait t (no_waits, asleep n).
Proof. intros Ht. split; [exact Ht|]. split; [done|]. apply not_elem_of_nil. Qed.

Lemma wake_order_witness :
  winv (no_waits, asleep 5) /\
  exists x' l, drain 3 7 (enqueue_all 7 [2; 1; 3] (no_waits, asleep 5)) = Ok (x', l) /\ l ≡ₚ [2; 1; 3] /\
    in_order (asleep 5) l /\ ready x'.2 ≡ₚ [2; 1; 3].
Proof.
  assert (Hi : winv (no_waits, asleep 5)) by (apply asleep_winv; lia). split; [exact Hi|].
  destruct (wake_order 7 [2; 1; 3] (no_waits, asleep 5) Hi eq_refl) as (x' & l & E & _ & _ & Hp & Ho & _ & Hr).
  - apply NoDup_ListNoDup. repeat constructor; cbn; lia.
  - apply Forall_forall. intros t Ht. rewrite !elem_of_cons, elem_of_nil in Ht. apply asleep_may. lia.
  - exists x', l. split; [exact E|]. split; [exact Hp|]. split; [exact Ho|]. rewrite Hr. done.
Defined.

Lemma waits_invariant_witness :
  exists x, rtc wstep (no_waits, asleep 5) x /\ waiters (queues x.1 7) = [1; 2] /\ winv x /\
    exists x1, wait_wake_one 7 x = Ok (x1, Some 1) /\ ready x1.2 ≡ₚ [1].
Proof.
  assert (Hi : winv (no_waits, asleep 5)) by (apply asleep_winv; lia).
  set (y := wait_enqueue 7 2 (no_waits, asleep 5)).
  assert (Hm : may_wait 1 y). { split; [split; by vm_compute|]. split; [by vm_compute|]. apply not_elem_of_nil. }
  assert (R : rtc wstep (no_waits, asleep 5) (wait_enqueue 7 1 y)).
  { eapply rtc_l; [apply (ws_enqueue 7 2); apply asleep_may; lia|]. by apply rtc_once, ws_enqueue. }
  destruct (waits_invariant (no_waits, asleep 5) (wait_enqueue 7 1 y) Hi R) as (Hx & H).
  exists (wait_enqueue 7 1 y). split; [exact R|]. split; [by vm_compute|]. split; [exact Hx|].
  destruct (H 7) as [(x1 & E & Hr) _]. exists x1. split; [exact E|]. rewrite Hr. done.
Defined.
End WaitSpec.
