(* ===== verification/Poll.v ===== *)
(** * Timers and event registration

    Models [src/kernel/ipc/poll.cpp] and [poll.hpp] up to [poll] itself, which
    needs channels and is in [PollSet].  Time ([time_now_ms]) and the current task
    are arguments.  The lock is taken once in each operation; what the source
    does after releasing it is part of the operation. *)

From S2P Require Import Prelude Task Cap Wait.

Module Poll.
Import Task Wait.
#[local] Existing Instance Cap.Kind_eq_dec.

Definition VOK : Z := 0.
Definition VERR_UNKNOWN : Z := -1.
Definition VERR_OUT_OF_MEMORY : Z := -3.
Definition VERR_NOT_FOUND : Z := -4.

(** ** Event masks *)

Definition NONE : Z := 0.
Definition CHANNEL_READ : Z := Z.shiftl 1 0.
Definition CHANNEL_WRITE : Z := Z.shiftl 1 1.
Definition TIMER : Z := Z.shiftl 1 2.
Definition CONSOLE_INPUT : Z := Z.shiftl 1 3.
Definition NETWORK_RX : Z := Z.shiftl 1 4.
Definition has_event (events check : Z) : bool := negb (Z.land events check =? 0).

(** ** State *)

Definition MAX_TIMERS : Z := 32.
Definition MAX_WAIT_ENTRIES : Z := 32.
Definition NO_CHANNEL : Z := 0xFFFFFFFF.

Record Timer := mkTimer { tm_id : Z; expire_time : Z; tm_active : bool; waiter : option Z }.
Record WaitEntry := mkEntry { we_task : option Z; handle : Z; channel_id : Z; events : Z; we_active : bool }.
Record Poll := mkPoll { timers : list Timer; next_timer_id : Z; wait_queue : list WaitEntry }.

Definition set_timers l p := mkPoll l (next_timer_id p) (wait_queue p).
Definition set_entries l p := mkPoll (timers p) (next_timer_id p) l.

Definition init (p : Poll) : Poll :=
  mkPoll ((fun t => mkTimer 0 (expire_time t) false None) <$> timers p) (next_timer_id p)
    ((fun e => mkEntry None (handle e) NO_CHANNEL (events e) false) <$> wait_queue p).

(** The index of the first element that satisfies a test. *)
Fixpoint find_from {A} (f : A -> bool) (i : Z) (l : list A) : option Z :=
  match l with
  | [] => None
  | a :: l => if f a then Some i else find_from f (i + 1) l
  end.

Definition find_timer (id : Z) (p : Poll) : option Z :=
  find_from (fun t => (tm_id t =? id) && tm_active t) 0 (timers p).
Definition alloc_timer (p : Poll) : option Z := find_from (fun t => negb (tm_active t)) 0 (timers p).

Definition free_timer (t : Timer) : Timer := mkTimer 0 (expire_time t) false None.
Definition free_entry (e : WaitEntry) : WaitEntry := mkEntry None (handle e) (channel_id e) (events e) false.

(** ** Timers *)

Definition timer_create (now timeout_ms : Z) (p : Poll) : res (Poll * Z) :=
  match alloc_timer p with
  | None => Ok (p, VERR_OUT_OF_MEMORY)
  | Some i =>
      let id := next_timer_id p in
      l ← wr (timers p) i (mkTimer id (u64 (now + timeout_ms)) true None);
      Ok (mkPoll l (u32 (next_timer_id p + 1)) (wait_queue p), id)
  end.

Definition timer_expired (now id : Z) (p : Poll) : res bool :=
  match find_timer id p with
  | None => Ok true
  | Some i => t ← rd (timers p) i; Ok (expire_time t <=? now)
  end.

Section tasks.
Context {S : Type} {TO : TaskOps S}.

(** Makes a task ready if it is blocked. *)
Definition wake_if_blocked (t : Z) (s : S) : res S :=
  if bool_decide (task_state s t = Blocked) then sched_enqueue t (set_task_state t Ready s) else Ok s.

Definition timer_cancel (id : Z) (x : Poll * S) : res (Poll * S * Z) :=
  let '(p, s) := x in
  match find_timer id p with
  | None => Ok (p, s, VERR_NOT_FOUND)
  | Some i =>
      t ← rd (timers p) i;
      l ← wr (timers p) i (free_timer t);
      s ← match waiter t with Some w => wake_if_blocked w s | None => Ok s end;
      Ok (set_timers l p, s, VOK)
  end.

(** [sleep_ms] up to the first round of its loop; [inr] is the timer waited for. *)
Definition sleep_begin (now ms : Z) (current : option Z) (x : Poll * S) : res (Poll * S * (Z + Z)) :=
  let '(p, s) := x in
  if ms =? 0 then Ok (p, s, inl VOK)
  else
    '(p, r) ← timer_create now ms p;
    if r <? 0 then Ok (p, s, inl r)
    else match current with
         | None => '(p, s, _) ← timer_cancel (u32 r) (p, s); Ok (p, s, inl VERR_UNKNOWN)
         | Some _ => Ok (p, s, inr (u32 r))
         end.

(** One round of the loop of [sleep_ms]: [Some r] returns [r], [None] blocks the
    current task, which yields and runs the next round when it is woken. *)
Definition sleep_round (now id current : Z) (x : Poll * S) : res (Poll * S * option Z) :=
  let '(p, s) := x in
  match find_timer id p with
  | None => '(p, s, _) ← timer_cancel id (p, s); Ok (p, s, Some VOK)
  | Some i =>
      t ← rd (timers p) i;
      if expire_time t <=? now then '(p, s, _) ← timer_cancel id (p, s); Ok (p, s, Some VOK)
      else
        l ← wr (timers p) i (mkTimer (tm_id t) (expire_time t) (tm_active t) (Some current));
        Ok (set_timers l p, set_task_state current Blocked s, None)
  end.

Definition expired (now : Z) (t : Timer) : bool :=
  tm_active t && (match waiter t with Some _ => true | None => false end) && (expire_time t <=? now).

Definition check_timers (now : Z) (x : Poll * S) : res (Poll * S) :=
  let '(p, s) := x in
  let waiters_to_wake := omap waiter (List.filter (expired now) (timers p)) in
  let p := set_timers ((fun t => if expired now t then free_timer t else t) <$> timers p) p in
  s ← foldM (fun s t => wake_if_blocked t s) waiters_to_wake s;
  Ok (p, s).

Definition register_timer_wait_and_block (id : Z) (current : option Z) (x : Poll * S) : res (Poll * S) :=
  let '(p, s) := x in
  match current with
  | None => Ok (p, s)
  | Some c =>
      match find_timer id p with
      | None => Ok (p, s)
      | Some i =>
          t ← rd (timers p) i;
          l ← wr (timers p) i (mkTimer (tm_id t) (expire_time t) (tm_active t) (Some c));
          Ok (set_timers l p, set_task_state c Blocked s)
      end
  end.

(** ** Event registration *)

(** The channel behind a capability handle; [id_of] is [kobj::Channel::id] of an
    object. *)
Definition resolve (id_of : Z -> Z) (ct : option Cap.Table) (h events : Z) : res Z :=
  if has_event events CHANNEL_READ || has_event events CHANNEL_WRITE then
    match ct with
    | None => Ok NO_CHANNEL
    | Some ct =>
        r ← Cap.get ct h;
        match r with
        | None => Ok NO_CHANNEL
        | Some i =>
            e ← rd (Cap.entries ct) i;
            if bool_decide (Cap.kind e = Cap.Channel) && negb (Cap.object e =? 0) then Ok (id_of (Cap.object e)) else Ok NO_CHANNEL
        end
    end
  else Ok NO_CHANNEL.

Definition register_wait (id_of : Z -> Z) (ct : option Cap.Table) (h ev : Z) (current : option Z) (p : Poll) : res Poll :=
  match current with
  | None => Ok p
  | Some c =>
      cid ← resolve id_of ct h ev;
      match find_from (fun e => negb (we_active e)) 0 (wait_queue p) with
      | None => Ok p
      | Some i => l ← wr (wait_queue p) i (mkEntry (Some c) h cid ev true); Ok (set_entries l p)
      end
  end.

(** An entry that an event on [h] matches. *)
Definition matches (h ev : Z) (e : WaitEntry) : bool :=
  we_active e && ((handle e =? h) || (channel_id e =? h)) && has_event (events e) ev.

Definition notify_handle (h ev : Z) (x : Poll * S) : res (Poll * S) :=
  let '(p, s) := x in
  let hit := omap we_task (List.filter (matches h ev) (wait_queue p)) in
  let waiters_to_wake := List.filter (fun t => bool_decide (task_state s t = Blocked)) hit in
  let p := set_entries ((fun e => if matches h ev e then free_entry e else e) <$> wait_queue p) p in
  s ← foldM (fun s t => wake_if_blocked t s) waiters_to_wake s;
  Ok (p, s).

Definition entry_of (t : Z) (e : WaitEntry) : bool := we_active e && bool_decide (we_task e = Some t).

Definition unregister_wait (current : option Z) (p : Poll) : Poll :=
  match current with
  | None => p
  | Some c => set_entries ((fun e => if entry_of c e then free_entry e else e) <$> wait_queue p) p
  end.

Definition clear_task_waiters (t : Z) (p : Poll) : Poll :=
  mkPoll ((fun x => if tm_active x && bool_decide (waiter x = Some t) then free_timer x else x) <$> timers p)
    (next_timer_id p) ((fun e => if entry_of t e then free_entry e else e) <$> wait_queue p).

End tasks.

Definition blank_poll : Poll :=
  mkPoll (replicate (Z.to_nat MAX_TIMERS) (mkTimer 0 0 false None)) 1
    (replicate (Z.to_nat MAX_WAIT_ENTRIES) (mkEntry None 0 NO_CHANNEL 0 false)).

(** ** Searching a table *)

Lemma find_from_spec {A} (f : A -> bool) i l :
  match find_from f i l with
  | Some j => i <= j /\ exists a, l !! Z.to_nat (j - i) = Some a /\ f a = true
  | None => True
  end.
Proof.
  revert i. induction l as [|a l IH]; intros i; cbn [find_from]; [done|]. destruct (f a) eqn:E.
  - rewrite Z.sub_diag. split; [lia|]. by exists a.
  - specialize (IH (i + 1)). destruct (find_from f (i + 1) l) as [j|]; [|done]. destruct IH as (Hle & b & Hb & Hf). split; [lia|].
    exists b. split; [|done]. replace (Z.to_nat (j - i)) with (Datatypes.S (Z.to_nat (j - (i + 1)))) by lia. done.
Qed.

Lemma find_from_insert {A} (f : A -> bool) i l j a a' :
  l !! j = Some a -> f a' = f a -> find_from f i (<[j := a']> l) = find_from f i l.
Proof.
  revert i j. induction l as [|b l IH]; intros i j Hj E; [done|]. destruct j as [|j]; cbn in *.
  - injection Hj as ->. by rewrite E.
  - by rewrite IH.
Qed.

End Poll.
