(* ===== verification/Channel.v ===== *)
(** * IPC channels

    Models [src/kernel/ipc/channel.cpp] and [channel.hpp], and the wrapper
    [kobj::Channel] of [src/kernel/kobj/channel.cpp].  A pointer to a channel is
    its index in [channels]; a null pointer is [None].  The current task, its
    capability table and its bounding set are arguments; operations that change
    the table return it.  The wait queues of channel [i] have the addresses
    [2 * i] and [2 * i + 1].  The blocking operations are one round of their loop:
    the caller yields and runs the next round when it is woken. *)

From S2P Require Import Prelude Task Cap Wait Poll.

Module Channel.
Import Task Wait Poll.

Definition VERR_INVALID_ARG : Z := -2.
Definition VERR_NOT_SUPPORTED : Z := -7.
Definition VERR_BUSY : Z := -8.
Definition VERR_INVALID_HANDLE : Z := -100.
Definition VERR_WOULD_BLOCK : Z := -300.
Definition VERR_CHANNEL_CLOSED : Z := -301.
Definition VERR_MSG_TOO_LARGE : Z := -302.

Definition MAX_MSG_SIZE : Z := 8192.
Definition MAX_CHANNELS : Z := 64.
Definition DEFAULT_PENDING : Z := 16.
Definition MAX_PENDING : Z := 16.
Definition MAX_HANDLES_PER_MSG : Z := 4.

Record TransferredHandle := mkTh { th_object : Z; th_kind : Cap.Kind; th_rights : Z }.

Record Message := mkMsg {
  data : list Z; size : Z; sender_id : Z; handle_count : Z; handles : list TransferredHandle
}.

Inductive ChannelState := FREE | OPEN | CLOSED.
#[export] Instance ChannelState_eq_dec : EqDecision ChannelState.
Proof. solve_decision. Defined.

Record Channel := mkChannel {
  id : Z; state : ChannelState; buffer : list Message; read_idx : Z; write_idx : Z;
  count : Z; capacity : Z; send_refs : Z; recv_refs : Z; owner_id : Z
}.

Definition send_waiters (i : Z) : Z := 2 * i.
Definition recv_waiters (i : Z) : Z := 2 * i + 1.

Definition set_open (n : Z) (st : ChannelState) (ch : Channel) : Channel :=
  mkChannel n st (buffer ch) (read_idx ch) (write_idx ch) (count ch) (capacity ch) (send_refs ch) (recv_refs ch) (owner_id ch).
Definition set_refs (sr rr : Z) (ch : Channel) : Channel :=
  mkChannel (id ch) (state ch) (buffer ch) (read_idx ch) (write_idx ch) (count ch) (capacity ch) sr rr (owner_id ch).
Definition set_cap (n : Z) (ch : Channel) : Channel :=
  mkChannel (id ch) (state ch) (buffer ch) (read_idx ch) (write_idx ch) (count ch) n (send_refs ch) (recv_refs ch) (owner_id ch).
Definition set_ring (b : list Message) (r w n : Z) (ch : Channel) : Channel :=
  mkChannel (id ch) (state ch) b r w n (capacity ch) (send_refs ch) (recv_refs ch) (owner_id ch).

(** [n] bytes copied to the start of a buffer. *)
Definition memcpy (dst src : list Z) (n : Z) : res (list Z) :=
  if (Z.of_nat (length src) <? n) || (Z.of_nat (length dst) <? n) then Ub
  else Ok (take (Z.to_nat n) src ++ drop (Z.to_nat n) dst).

(** Copies if the pointer is not null and the size is not 0. *)
Definition copy_in (d : list Z) (src : option (list Z)) (n : Z) : res (list Z) :=
  match src with Some src => if 0 <? n then memcpy d src n else Ok d | None => Ok d end.
Definition copy_out (dst : option (list Z)) (d : list Z) (n : Z) : res (option (list Z)) :=
  match dst with Some dst => if 0 <? n then b ← memcpy dst d n; Ok (Some b) else Ok (Some dst) | None => Ok None end.

Section tasks.
Context {S : Type} {TO : TaskOps S}.

(** The subsystem, with what it shares with the rest of the kernel. *)
Record Ipc := mkIpc { channels : list Channel; next_channel_id : Z; waits : Waits; poll : Poll; tasks : S }.

Definition set_channels l k := mkIpc l (next_channel_id k) (waits k) (poll k) (tasks k).
Definition set_waits (x : Waits * S) k := mkIpc (channels k) (next_channel_id k) x.1 (poll k) x.2.
Definition set_poll (x : Poll * S) k := mkIpc (channels k) (next_channel_id k) (waits k) x.1 x.2.

Definition chan (i : Z) (k : Ipc) : res Channel := rd (channels k) i.
Definition put_chan (i : Z) (ch : Channel) (k : Ipc) : res Ipc := l ← wr (channels k) i ch; Ok (set_channels l k).
Definition upd_chan (i : Z) (f : Channel -> Channel) (k : Ipc) : res Ipc := ch ← chan i k; put_chan i (f ch) k.

Definition wake_one (q : Z) (k : Ipc) : res Ipc :=
  '(w, s, _) ← wait_wake_one q (waits k, tasks k); Ok (set_waits (w, s) k).
Definition wake_all (q : Z) (k : Ipc) : res Ipc :=
  '(w, s, _) ← wait_wake_all q (waits k, tasks k); Ok (set_waits (w, s) k).
Definition notify (h ev : Z) (k : Ipc) : res Ipc := x ← notify_handle h ev (poll k, tasks k); Ok (set_poll x k).
Definition init_queues (i : Z) (w : Waits) : Waits := wait_init (recv_waiters i) (wait_init (send_waiters i) w).

(** ** The table *)

Definition init (k : Ipc) : Ipc :=
  let w := foldl (fun w i => init_queues i w) (waits k) (seqZ 0 (Z.of_nat (length (channels k)))) in
  mkIpc ((fun ch => mkChannel 0 FREE (buffer ch) 0 0 0 DEFAULT_PENDING 0 0 0) <$> channels k)
    (next_channel_id k) w (poll k) (tasks k).

Definition is_open (n : Z) (ch : Channel) : bool := (id ch =? n) && bool_decide (state ch = OPEN).
Definition find_channel_by_id_locked (n : Z) (k : Ipc) : option Z := find_from (is_open n) 0 (channels k).
Definition get (n : Z) (k : Ipc) : option Z := find_from (is_open n) 0 (channels k).
Definition find_free_slot (k : Ipc) : option Z := find_from (fun ch => bool_decide (state ch = FREE)) 0 (channels k).

Definition init_channel (i cap : Z) (current : option Z) (k : Ipc) : res Ipc :=
  ch ← chan i k;
  l ← wr (channels k) i (mkChannel (next_channel_id k) OPEN (buffer ch) 0 0 0
        (if (0 <? cap) && (cap <=? MAX_PENDING) then cap else DEFAULT_PENDING) 0 0
        (match current with Some t => t | None => 0 end));
  Ok (mkIpc l (u32 (next_channel_id k + 1)) (init_queues i (waits k)) (poll k) (tasks k)).

(** [create] with both endpoint handles; [addr] gives the address of a channel.
    The result is the error code, or the two handles. *)
Definition create_pair (addr : Z -> Z) (cap : Z) (current : option Z) (ct : option Cap.Table) (k : Ipc)
  : res (Ipc * option Cap.Table * (Z + Z * Z)) :=
  match ct with
  | None => Ok (k, ct, inl VERR_NOT_SUPPORTED)
  | Some t =>
      match find_free_slot k with
      | None => Ok (k, ct, inl VERR_OUT_OF_MEMORY)
      | Some i =>
          k ← init_channel i cap current k;
          '(t, send_h) ← Cap.insert t (addr i) Cap.Channel (Z.lor (Z.lor Cap.CAP_WRITE Cap.CAP_TRANSFER) Cap.CAP_DERIVE);
          if send_h =? Cap.HANDLE_INVALID then
            k ← upd_chan i (set_open 0 FREE) k; Ok (k, Some t, inl VERR_OUT_OF_MEMORY)
          else
            k ← upd_chan i (fun ch => set_refs 1 (recv_refs ch) ch) k;
            '(t, recv_h) ← Cap.insert t (addr i) Cap.Channel (Z.lor (Z.lor Cap.CAP_READ Cap.CAP_TRANSFER) Cap.CAP_DERIVE);
            if recv_h =? Cap.HANDLE_INVALID then
              t ← Cap.remove t send_h;
              k ← upd_chan i (set_open 0 FREE) k; Ok (k, Some t, inl VERR_OUT_OF_MEMORY)
            else
              k ← upd_chan i (fun ch => set_refs (send_refs ch) 1 ch) k; Ok (k, Some t, inr (send_h, recv_h))
      end
  end.

Definition create (cap : Z) (current : option Z) (k : Ipc) : res (Ipc * Z) :=
  match find_free_slot k with
  | None => Ok (k, VERR_OUT_OF_MEMORY)
  | Some i =>
      k ← init_channel i cap current k;
      k ← upd_chan i (set_refs 1 1) k;
      ch ← chan i k;
      Ok (k, id ch)
  end.

Definition get_capacity (c : option Z) (k : Ipc) : res Z :=
  match c with
  | None => Ok 0
  | Some i => ch ← chan i k; Ok (if bool_decide (state ch = OPEN) then capacity ch else 0)
  end.

Definition set_capacity (c : option Z) (n : Z) (k : Ipc) : res (Ipc * Z) :=
  match c with
  | None => Ok (k, VERR_INVALID_HANDLE)
  | Some i =>
      ch ← chan i k;
      if negb (bool_decide (state ch = OPEN)) then Ok (k, VERR_INVALID_HANDLE)
      else if (n =? 0) || (MAX_PENDING <? n) then Ok (k, VERR_INVALID_ARG)
      else if n <? count ch then Ok (k, VERR_BUSY)
      else k ← put_chan i (set_cap n ch) k; Ok (k, VOK)
  end.

(** ** Sending *)

(** The transfer of handles into a message: those that are valid and may be
    transferred leave the sender's table. *)
Fixpoint take_handles (hs : list Z) (n : Z) (ths : list TransferredHandle) (t : Cap.Table)
  : res (Z * list TransferredHandle * Cap.Table) :=
  match hs with
  | [] => Ok (n, ths, t)
  | h :: hs =>
      r ← Cap.get t h;
      match r with
      | None => take_handles hs n ths t
      | Some j =>
          e ← rd (Cap.entries t) j;
          if negb (Cap.has_rights (Cap.rights e) Cap.CAP_TRANSFER) then take_handles hs n ths t
          else
            ths ← wr ths n (mkTh (Cap.object e) (Cap.kind e) (Cap.rights e));
            t ← Cap.remove t h;
            take_handles hs (u32 (n + 1)) ths t
      end
  end.

(** The handles of the caller's array. *)
Definition handle_args (hs : option (list Z)) (n : Z) (ct : option Cap.Table) : res (option (list Z * Cap.Table)) :=
  match hs, ct with
  | Some hs, Some t =>
      if 0 <? n then (if Z.of_nat (length hs) <? n then Ub else Ok (Some (take (Z.to_nat n) hs, t))) else Ok None
  | _, _ => Ok None
  end.

Definition sender (current : option Z) : Z := match current with Some t => t | None => 0 end.

Definition advance (i : Z) : Z := u32 (i + 1) mod MAX_PENDING.

Definition try_send_locked (c : option Z) (d : option (list Z)) (n : Z) (hs : option (list Z)) (hn : Z)
    (current : option Z) (ct : option Cap.Table) (k : Ipc) : res (Ipc * option Cap.Table * Z) :=
  match c with
  | None => Ok (k, ct, VERR_INVALID_HANDLE)
  | Some i =>
      ch ← chan i k;
      if negb (bool_decide (state ch = OPEN)) then Ok (k, ct, VERR_INVALID_HANDLE)
      else if recv_refs ch =? 0 then Ok (k, ct, VERR_CHANNEL_CLOSED)
      else if MAX_MSG_SIZE <? n then Ok (k, ct, VERR_MSG_TOO_LARGE)
      else if MAX_HANDLES_PER_MSG <? hn then Ok (k, ct, VERR_INVALID_ARG)
      else if capacity ch <=? count ch then Ok (k, ct, VERR_WOULD_BLOCK)
      else
        msg ← rd (buffer ch) (write_idx ch);
        d ← copy_in (data msg) d n;
        a ← handle_args hs hn ct;
        '(m, ths, ct) ← match a with
          | Some (hs, t) => '(m, ths, t) ← take_handles hs 0 (handles msg) t; Ok (m, ths, Some t)
          | None => Ok (0, handles msg, ct)
          end;
        b ← wr (buffer ch) (write_idx ch) (mkMsg d n (sender current) m ths);
        k ← put_chan i (set_ring b (read_idx ch) (advance (write_idx ch)) (u32 (count ch + 1)) ch) k;
        k ← wake_one (recv_waiters i) k;
        k ← notify (id ch) CHANNEL_READ k;
        Ok (k, ct, VOK)
  end.

(** ** Receiving *)

(** Inserts the handles of a message in the receiver's table; [out] is the
    caller's array. *)
Fixpoint give_handles (ths : list TransferredHandle) (bound n : Z) (out : option (list Z)) (t : Cap.Table)
  : res (Z * option (list Z) * Cap.Table) :=
  match ths with
  | [] => Ok (n, out, t)
  | th :: ths =>
      '(t, h) ← Cap.insert_bounded t (th_object th) (th_kind th) (th_rights th) bound;
      if h =? Cap.HANDLE_INVALID then give_handles ths bound n out t
      else
        out ← match out with
              | Some o => if n <? MAX_HANDLES_PER_MSG then o ← wr o n h; Ok (Some o) else Ok (Some o)
              | None => Ok None
              end;
        give_handles ths bound (u32 (n + 1)) out t
  end.

(** The result carries the caller's buffer and array and the number of handles. *)
Definition try_recv_locked (c : option Z) (dst : option (list Z)) (n : Z) (out : option (list Z))
    (bound : Z) (ct : option Cap.Table) (k : Ipc)
  : res (Ipc * option Cap.Table * option (list Z) * option (list Z) * Z * Z) :=
  match c with
  | None => Ok (k, ct, dst, out, 0, VERR_INVALID_HANDLE)
  | Some i =>
      ch ← chan i k;
      if negb (bool_decide (state ch = OPEN)) then Ok (k, ct, dst, out, 0, VERR_INVALID_HANDLE)
      else if count ch =? 0 then Ok (k, ct, dst, out, 0, VERR_WOULD_BLOCK)
      else
        msg ← rd (buffer ch) (read_idx ch);
        let copy_size := if n <? size msg then n else size msg in
        dst ← copy_out dst (data msg) copy_size;
        '(m, out, ct) ← match ct with
          | Some t =>
              if 0 <? handle_count msg then
                if Z.of_nat (length (handles msg)) <? handle_count msg then Ub
                else '(m, out, t) ← give_handles (take (Z.to_nat (handle_count msg)) (handles msg)) bound 0 out t;
                     Ok (m, out, Some t)
              else Ok (0, out, ct)
          | None => Ok (0, out, ct)
          end;
        k ← put_chan i (set_ring (buffer ch) (advance (read_idx ch)) (write_idx ch) (u32 (count ch - 1)) ch) k;
        k ← wake_one (send_waiters i) k;
        k ← notify (id ch) CHANNEL_WRITE k;
        Ok (k, ct, dst, out, m, size msg)
  end.

(** The operations on channel identifiers; those without handles pass null. *)
Definition try_send (n : Z) (d : option (list Z)) (sz : Z) (hs : option (list Z)) (hn : Z)
    (current : option Z) (ct : option Cap.Table) (k : Ipc) : res (Ipc * option Cap.Table * Z) :=
  match find_channel_by_id_locked n k with
  | None => Ok (k, ct, VERR_INVALID_HANDLE)
  | Some i => try_send_locked (Some i) d sz hs hn current ct k
  end.
Definition try_recv (n : Z) (dst : option (list Z)) (sz : Z) (out : option (list Z))
    (bound : Z) (ct : option Cap.Table) (k : Ipc)
  : res (Ipc * option Cap.Table * option (list Z) * option (list Z) * Z * Z) :=
  match find_channel_by_id_locked n k with
  | None => Ok (k, ct, dst, out, 0, VERR_INVALID_HANDLE)
  | Some i => try_recv_locked (Some i) dst sz out bound ct k
  end.

(** ** Blocking operations *)

Definition copy_message_to_buffer (i : Z) (d : option (list Z)) (n : Z) (current : option Z) (k : Ipc) : res Ipc :=
  ch ← chan i k;
  msg ← rd (buffer ch) (write_idx ch);
  d ← copy_in (data msg) d n;
  b ← wr (buffer ch) (write_idx ch) (mkMsg d n (sender current) 0 (handles msg));
  put_chan i (set_ring b (read_idx ch) (advance (write_idx ch)) (u32 (count ch + 1)) ch) k.

(** [None]: the task waits. *)
Definition send (n : Z) (d : option (list Z)) (sz : Z) (current : option Z) (k : Ipc) : res (Ipc * option Z) :=
  if MAX_MSG_SIZE <? sz then Ok (k, Some VERR_MSG_TOO_LARGE)
  else
    match find_channel_by_id_locked n k with
    | None => Ok (k, Some VERR_INVALID_HANDLE)
    | Some i =>
        ch ← chan i k;
        if negb (bool_decide (state ch = OPEN)) then Ok (k, Some VERR_CHANNEL_CLOSED)
        else if count ch <? capacity ch then
          k ← copy_message_to_buffer i d sz current k;
          k ← wake_one (recv_waiters i) k;
          k ← notify n CHANNEL_READ k;
          Ok (k, Some VOK)
        else
          match current with
          | None => Ok (k, Some VERR_WOULD_BLOCK)
          | Some t => Ok (set_waits (wait_enqueue (send_waiters i) t (waits k, tasks k)) k, None)
          end
    end.

Definition copy_message_from_buffer (i : Z) (dst : option (list Z)) (n : Z) (k : Ipc)
  : res (Ipc * option (list Z) * Z) :=
  ch ← chan i k;
  msg ← rd (buffer ch) (read_idx ch);
  let copy_size := if n <? size msg then n else size msg in
  dst ← copy_out dst (data msg) copy_size;
  k ← put_chan i (set_ring (buffer ch) (advance (read_idx ch)) (write_idx ch) (u32 (count ch - 1)) ch) k;
  Ok (k, dst, size msg).

Definition recv (n : Z) (dst : option (list Z)) (sz : Z) (current : option Z) (k : Ipc)
  : res (Ipc * option (list Z) * option Z) :=
  match find_channel_by_id_locked n k with
  | None => Ok (k, dst, Some VERR_INVALID_HANDLE)
  | Some i =>
      ch ← chan i k;
      if negb (bool_decide (state ch = OPEN)) then Ok (k, dst, Some VERR_CHANNEL_CLOSED)
      else if 0 <? count ch then
        '(k, dst, actual_size) ← copy_message_from_buffer i dst sz k;
        k ← wake_one (send_waiters i) k;
        k ← notify n CHANNEL_WRITE k;
        Ok (k, dst, Some actual_size)
      else
        match current with
        | None => Ok (k, dst, Some VERR_WOULD_BLOCK)
        | Some t => Ok (set_waits (wait_enqueue (recv_waiters i) t (waits k, tasks k)) k, dst, None)
        end
  end.

(** ** Closing *)

Definition no_handles (m : Message) : Message := mkMsg (data m) (size m) (sender_id m) 0 (handles m).

(** The loop over the pending messages; the objects of their handles are not
    released. *)
Fixpoint drop_handles (n : nat) (idx : Z) (b : list Message) : res (list Message) :=
  match n with
  | O => Ok b
  | Datatypes.S n =>
      msg ← rd b idx;
      b ← wr b idx (no_handles msg);
      drop_handles n (advance idx) b
  end.
Definition cleanup_pending_handles (i : Z) (k : Ipc) : res Ipc :=
  ch ← chan i k;
  b ← drop_handles (Z.to_nat (count ch)) (read_idx ch) (buffer ch);
  put_chan i (set_ring b (read_idx ch) (write_idx ch) (count ch) ch) k.

(** The end of a channel, the same in the three functions that close one. *)
Definition destroy (i : Z) (k : Ipc) : res Ipc :=
  k ← upd_chan i (fun ch => set_open (id ch) CLOSED ch) k;
  k ← wake_all (send_waiters i) k;
  k ← wake_all (recv_waiters i) k;
  k ← cleanup_pending_handles i k;
  upd_chan i (set_open 0 FREE) k.

Definition drop_ref (is_send : bool) (ch : Channel) : Channel :=
  if is_send then (if 0 <? send_refs ch then set_refs (send_refs ch - 1) (recv_refs ch) ch else ch)
  else (if 0 <? recv_refs ch then set_refs (send_refs ch) (recv_refs ch - 1) ch else ch).

Definition close_endpoint (c : option Z) (is_send : bool) (k : Ipc) : res (Ipc * Z) :=
  match c with
  | None => Ok (k, VERR_INVALID_HANDLE)
  | Some i =>
      k ← upd_chan i (drop_ref is_send) k;
      ch ← chan i k;
      if (send_refs ch =? 0) && (recv_refs ch =? 0) then k ← destroy i k; Ok (k, VOK) else Ok (k, VOK)
  end.

Definition close (n : Z) (k : Ipc) : res (Ipc * Z) :=
  match find_channel_by_id_locked n k with
  | None => Ok (k, VERR_INVALID_HANDLE)
  | Some i => k ← destroy i k; Ok (k, VOK)
  end.

Definition close_endpoint_by_id (n : Z) (is_send : bool) (k : Ipc) : res (Ipc * Z) :=
  match find_channel_by_id_locked n k with
  | None => Ok (k, VERR_INVALID_HANDLE)
  | Some i => close_endpoint (Some i) is_send k
  end.

Definition add_endpoint_ref (n : Z) (is_send : bool) (k : Ipc) : res (Ipc * Z) :=
  match find_channel_by_id_locked n k with
  | None => Ok (k, VERR_INVALID_HANDLE)
  | Some i =>
      k ← upd_chan i (fun ch => if is_send then set_refs (u32 (send_refs ch + 1)) (recv_refs ch) ch
                                else set_refs (send_refs ch) (u32 (recv_refs ch + 1)) ch) k;
      Ok (k, VOK)
  end.

(** ** Readiness *)

Definition has_message_ptr (c : option Z) (k : Ipc) : res bool :=
  match c with
  | None => Ok false
  | Some i => ch ← chan i k; Ok (bool_decide (state ch = OPEN) && (0 <? count ch))
  end.
Definition has_message (n : Z) (k : Ipc) : res bool :=
  match find_channel_by_id_locked n k with
  | None => Ok false
  | Some i => ch ← chan i k; Ok (0 <? count ch)
  end.
Definition has_space_ptr (c : option Z) (k : Ipc) : res bool :=
  match c with
  | None => Ok false
  | Some i => ch ← chan i k; Ok (bool_decide (state ch = OPEN) && (count ch <? capacity ch))
  end.
Definition has_space (n : Z) (k : Ipc) : res bool :=
  match find_channel_by_id_locked n k with
  | None => Ok false
  | Some i => ch ← chan i k; Ok (count ch <? capacity ch)
  end.

(** ** The reference-counted wrapper *)

Definition ENDPOINT_SEND : Z := Z.shiftl 1 0.
Definition ENDPOINT_RECV : Z := Z.shiftl 1 1.
Definition ENDPOINT_BOTH : Z := Z.lor ENDPOINT_SEND ENDPOINT_RECV.

Record KChannel := mkK { channel_id_ : Z; endpoints_ : Z }.

Definition kobj_create (current : option Z) (k : Ipc) : res (Ipc * option KChannel) :=
  '(k, r) ← create DEFAULT_PENDING current k;
  Ok (k, if r <? 0 then None else Some (mkK (u32 r) ENDPOINT_BOTH)).

Definition kobj_adopt (n endpoints : Z) (k : Ipc) : res (option KChannel) :=
  ok ← has_space n k;
  Ok (if (ok : bool) then Some (mkK n endpoints) else None).

Definition kobj_wrap (n : Z) (is_send : bool) (k : Ipc) : res (Ipc * option KChannel) :=
  '(k, r) ← add_endpoint_ref n is_send k;
  Ok (k, if r =? VOK then Some (mkK n (if is_send then ENDPOINT_SEND else ENDPOINT_RECV)) else None).

Definition kobj_destroy (c : KChannel) (k : Ipc) : res Ipc :=
  if negb (channel_id_ c =? 0) then
    k ← (if negb (Z.land (endpoints_ c) ENDPOINT_SEND =? 0)
         then '(k, _) ← close_endpoint_by_id (channel_id_ c) true k; Ok k else Ok k);
    (if negb (Z.land (endpoints_ c) ENDPOINT_RECV =? 0)
     then '(k, _) ← close_endpoint_by_id (channel_id_ c) false k; Ok k else Ok k)
  else Ok k.

End tasks.
Arguments Ipc S : clear implicits.
Arguments mkIpc {S}.

End Channel.
