(* ===== verification/ChannelSpec.v ===== *)
(** * Channels are bounded queues that move capabilities

    The ring buffer of a channel is a queue of messages.  Sending and receiving
    are proved against the laws of the scheduler ([TaskLaws]) and the handle map
    of a capability table: messages arrive in order and unchanged, handles leave
    the sender's table and arrive in the receiver's with no more rights as far as
    it has room, and the first waiting task is woken. *)

From S2P Require Import Prelude Task Sched Cap CapTable CapSpec Wait WaitSpec Poll Channel.

Module ChannelSpec.
Import Task Wait WaitSpec Poll Channel.

(** ** The ring buffer *)

Record msg_ok (m : Message) : Prop := {
  mo_data : length (data m) = Z.to_nat MAX_MSG_SIZE;
  mo_size : 0 <= size m <= MAX_MSG_SIZE;
  mo_handles : length (handles m) = Z.to_nat MAX_HANDLES_PER_MSG;
  mo_count : 0 <= handle_count m <= MAX_HANDLES_PER_MSG
}.

Record chan_ok (ch : Channel) : Prop := {
  co_buffer : length (buffer ch) = Z.to_nat MAX_PENDING;
  co_msgs : Forall msg_ok (buffer ch);
  co_read : 0 <= read_idx ch < MAX_PENDING;
  co_write : write_idx ch = (read_idx ch + count ch) mod MAX_PENDING;
  co_count : 0 <= count ch <= capacity ch;
  co_capacity : 0 < capacity ch <= MAX_PENDING
}.

Definition zero_msg : Message := mkMsg [] 0 0 0 [].

(** The [j]-th pending message. *)
Definition slot (ch : Channel) (j : Z) : Message :=
  default zero_msg (buffer ch !! Z.to_nat ((read_idx ch + j) mod MAX_PENDING)).
Definition pending (ch : Channel) : list Message := slot ch <$> seqZ 0 (count ch).

(** What the receiver sees of a message. *)
Definition content (m : Message) : list Z := take (Z.to_nat (size m)) (data m).
Definition carried (m : Message) : list TransferredHandle := take (Z.to_nat (handle_count m)) (handles m).

Ltac ring_consts := unfold MAX_PENDING, MAX_MSG_SIZE, MAX_HANDLES_PER_MSG in *.

Lemma pending_length ch : chan_ok ch -> Z.of_nat (length (pending ch)) = count ch.
Proof. intros Hc. unfold pending. rewrite length_fmap, length_seqZ. assert (H := co_count _ Hc). lia. Qed.

Lemma slot_in ch j : chan_ok ch -> buffer ch !! Z.to_nat ((read_idx ch + j) mod MAX_PENDING) = Some (slot ch j) /\ msg_ok (slot ch j).
Proof.
  intros Hc. unfold slot.
  destruct (lookup_lt_is_Some_2 (buffer ch) (Z.to_nat ((read_idx ch + j) mod MAX_PENDING))) as [m Hm].
  { rewrite (co_buffer _ Hc). assert (H := Z.mod_pos_bound (read_idx ch + j) MAX_PENDING). ring_consts. lia. }
  rewrite Hm. cbn [default]. split; [done|]. assert (F := co_msgs _ Hc). rewrite Forall_forall in F. apply F. by eapply list_elem_of_lookup_2.
Qed.

(** The message about to be read, and the slot about to be written. *)
Lemma read_slot ch : chan_ok ch -> buffer ch !! Z.to_nat (read_idx ch) = Some (slot ch 0).
Proof. intros Hc. destruct (slot_in ch 0 Hc) as [H _]. rewrite Z.add_0_r, Z.mod_small in H by apply Hc. done. Qed.

Lemma write_slot ch : chan_ok ch -> buffer ch !! Z.to_nat (write_idx ch) = Some (slot ch (count ch)) /\ 0 <= write_idx ch < MAX_PENDING.
Proof.
  intros Hc. rewrite (co_write _ Hc). destruct (slot_in ch (count ch) Hc) as [H _]. split; [done|].
  apply Z.mod_pos_bound. by ring_consts.
Qed.

Lemma advance_mod i : 0 <= i < MAX_PENDING -> advance i = (i + 1) mod MAX_PENDING.
Proof. intros Hi. unfold advance. ring_consts. by rewrite u32_small by lia. Qed.

Definition pushed (m : Message) (ch : Channel) : Channel :=
  set_ring (<[Z.to_nat (write_idx ch) := m]> (buffer ch)) (read_idx ch) (advance (write_idx ch)) (u32 (count ch + 1)) ch.
Definition popped (ch : Channel) : Channel :=
  set_ring (buffer ch) (advance (read_idx ch)) (write_idx ch) (u32 (count ch - 1)) ch.

Lemma mod_distinct r i j : 0 <= i < 16 -> 0 <= j < 16 -> i <> j -> (r + i) mod 16 <> (r + j) mod 16.
Proof. intros Hi Hj Hne. rewrite (Z.add_comm r i), (Z.add_comm r j). Z.div_mod_to_equations. lia. Qed.

Lemma push_msg_ok ch m :
  chan_ok ch -> msg_ok m -> count ch < capacity ch ->
  chan_ok (pushed m ch) /\ pending (pushed m ch) = pending ch ++ [m].
Proof.
  intros Hc Hm Hlt. assert (Hn := co_count _ Hc). assert (Hcap := co_capacity _ Hc). assert (Hr := co_read _ Hc).
  destruct (write_slot ch Hc) as [Hs Hw]. assert (Hlen := lookup_lt_Some _ _ _ Hs).
  assert (Ec : count (pushed m ch) = count ch + 1) by (cbn; ring_consts; apply u32_small; lia).
  assert (Hb : buffer (pushed m ch) = <[Z.to_nat (write_idx ch) := m]> (buffer ch)) by done.
  split.
  - constructor.
    + rewrite Hb, length_insert. apply Hc.
    + rewrite Hb. by apply Forall_insert; [apply Hc|].
    + done.
    + cbn [write_idx pushed set_ring read_idx]. rewrite Ec, advance_mod, (co_write _ Hc) by done. ring_consts.
      rewrite Zplus_mod_idemp_l. f_equal. lia.
    + cbn [capacity pushed set_ring]. rewrite Ec. lia.
    + done.
  - unfold pending. rewrite Ec, (seqZ_app 0 (count ch) 1) by lia. rewrite fmap_app. f_equal.
    + apply list_fmap_ext. intros i j Hj%lookup_seqZ. unfold slot. rewrite Hb. cbn [read_idx pushed set_ring].
      rewrite list_lookup_insert_ne; [done|]. rewrite (co_write _ Hc). ring_consts.
      intros E%Z2Nat.inj; [|apply Z.mod_pos_bound; lia..]. apply (mod_distinct (read_idx ch) (count ch) j); lia.
    + transitivity [slot (pushed m ch) (0 + (0 + count ch))]; [reflexivity|]. rewrite !Z.add_0_l. f_equal. unfold slot. rewrite Hb.
      cbn [read_idx pushed set_ring]. rewrite <- (co_write _ Hc). by rewrite list_lookup_insert_eq by done.
Qed.

Lemma pop_msg_ok ch :
  chan_ok ch -> 0 < count ch -> chan_ok (popped ch) /\ pending ch = slot ch 0 :: pending (popped ch).
Proof.
  intros Hc Hlt. assert (Hn := co_count _ Hc). assert (Hcap := co_capacity _ Hc). assert (Hr := co_read _ Hc).
  assert (Ec : count (popped ch) = count ch - 1) by (cbn; ring_consts; apply u32_small; lia).
  assert (Er : read_idx (popped ch) = (read_idx ch + 1) mod MAX_PENDING) by (cbn; by apply advance_mod).
  split.
  - constructor.
    + apply Hc.
    + apply Hc.
    + rewrite Er. apply Z.mod_pos_bound. by ring_consts.
    + cbn [write_idx popped set_ring]. rewrite Er, Ec, (co_write _ Hc). ring_consts. rewrite Zplus_mod_idemp_l. f_equal. lia.
    + cbn [capacity popped set_ring]. rewrite Ec. lia.
    + done.
  - unfold pending. rewrite Ec. replace (seqZ 0 (count ch)) with (0 :: (Z.add 1 <$> seqZ 0 (count ch - 1))).
    + rewrite fmap_cons. f_equal. rewrite <- list_fmap_compose. apply list_fmap_ext. intros i j _. unfold compose, slot.
      rewrite Er. cbn [buffer popped set_ring]. do 3 f_equal. ring_consts. rewrite Zplus_mod_idemp_l. f_equal. lia.
    + rewrite fmap_add_seqZ. replace (1 + 0) with (Z.succ 0) by lia. replace (count ch - 1) with (Z.pred (count ch)) by lia. symmetry. apply seqZ_cons. lia.
Qed.

(** ** The invariant of the subsystem *)

Section tasks.
Context {S : Type} {TO : TaskOps S} {TL : TaskLaws S}.
Implicit Type k : Ipc S.

(** A task registered for events is in no wait queue. *)
Definition poll_ok (p : Poll) (w : Waits) : Prop :=
  forall e t, e ∈ wait_queue p -> we_active e = true -> we_task e = Some t -> valid t /\ wait_channel w t = None.

Record kinv (k : Ipc S) : Prop := {
  ki_chans : Forall chan_ok (channels k);
  ki_waits : winv (waits k, tasks k);
  ki_poll : poll_ok (poll k) (waits k)
}.

Lemma chan_lookup i k ch : chan i k = Ok ch -> 0 <= i < Z.of_nat (length (channels k)) /\ channels k !! Z.to_nat i = Some ch.
Proof. intros [Hi H]%rd_inv. split; [|done]. apply lookup_lt_Some in H. lia. Qed.

Lemma chan_inv i k ch : kinv k -> chan i k = Ok ch -> chan_ok ch.
Proof.
  intros Hk [_ H]%chan_lookup. assert (F := ki_chans _ Hk). rewrite Forall_forall in F. apply F. by eapply list_elem_of_lookup_2.
Qed.

Lemma put_ok i k ch ch' :
  kinv k -> chan i k = Ok ch -> chan_ok ch' ->
  put_chan i ch' k = Ok (set_channels (<[Z.to_nat i := ch']> (channels k)) k) /\
  kinv (set_channels (<[Z.to_nat i := ch']> (channels k)) k).
Proof.
  intros [Hc Hw Hp] [Hi H]%chan_lookup Hc'. unfold put_chan. rewrite wr_Z by done. split; [done|]. constructor; [|done|done].
  by apply Forall_insert.
Qed.

(** Waking changes the tasks and the queues only. *)
Definition same_ipc k k' : Prop := channels k' = channels k /\ next_channel_id k' = next_channel_id k.

Lemma wake_ok q k :
  kinv k -> exists k', wake_one q k = Ok k' /\ kinv k' /\ same_ipc k k' /\ poll k' = poll k /\
    ready (tasks k') ≡ₚ option_list (head (waiters (queues (waits k) q))) ++ ready (tasks k) /\
    (forall q', waiters (queues (waits k') q') = if q' =? q then tail (waiters (queues (waits k) q)) else waiters (queues (waits k) q')) /\
    (forall u, wait_channel (waits k) u = None -> task_state (tasks k') u = task_state (tasks k) u).
Proof.
  intros [Hc Hw Hp]. unfold wake_one. assert (W := wake_one_ok q (waits k, tasks k) Hw). cbn [fst snd] in W.
  destruct (waiters (queues (waits k) q)) as [|t rest] eqn:El.
  - rewrite W, bind_Ok. exists (set_waits (waits k, tasks k) k). split; [done|]. split; [by constructor|]. split; [done|]. split; [done|].
    split; [done|]. split; [|done]. intros q'. cbn. destruct (Z.eqb_spec q' q) as [->|]; [by rewrite El|done].
  - destruct W as ([w' s'] & -> & [K1 K2 K3 K4 _] & Hq). rewrite bind_Ok. exists (set_waits (w', s') k). cbn [fst snd] in *.
    destruct (wi_blocked _ Hw q t) as (_ & _ & Hq0); [cbn [fst]; rewrite El; by left|]. cbn [fst] in Hq0.
    split; [done|]. split; [|do 4 (split; [done|]); intros u Hu; cbn [tasks set_waits snd]; rewrite K3;
      case_bool_decide as Hut; [apply list_elem_of_singleton in Hut; congruence|done]]. constructor; [done|done|]. intros e t' He Ha Ht. destruct (Hp e t' He Ha Ht) as [Hv Hn].
    split; [done|]. cbn [waits set_waits fst]. rewrite K4. by case_bool_decide.
Qed.

Lemma fold_wake w l (s : S) :
  winv (w, s) -> (forall t, t ∈ l -> valid t /\ wait_channel w t = None) ->
  exists s' l', foldM (fun s t => wake_if_blocked t s) l s = Ok s' /\ winv (w, s') /\ ready s' ≡ₚ l' ++ ready s /\
    (forall t, t ∈ l -> task_state s t = Blocked -> t ∈ ready s').
Proof.
  revert s. induction l as [|t l IH]; intros s Hw Hl; cbn [foldM].
  - exists s, []. do 3 (split; [done|]). by intros t ?%not_elem_of_nil.
  - destruct (Hl t) as [Hv Hn]; [by left|].
    assert (E : exists s1 l1, wake_if_blocked t s = Ok s1 /\ winv (w, s1) /\ ready s1 ≡ₚ l1 ++ ready s /\
      (task_state s t = Blocked -> t ∈ ready s1) /\ (forall u, u <> t -> task_state s1 u = task_state s u)).
    { unfold wake_if_blocked. case_bool_decide as Hb; [|by exists s, []].
      destruct (wake_winv w s t Hw Hv Hb Hn) as (s1 & -> & Hw1 & Hr & Hst & _). exists s1, [t]. do 3 (split; [done|]).
      split; [intros _; rewrite Hr; by left|]. intros u Hu. rewrite Hst. by destruct (Z.eqb_spec u t). }
    destruct E as (s1 & l1 & -> & Hw1 & Hr & Ht & Hst). rewrite bind_Ok.
    destruct (IH s1 Hw1) as (s' & l' & -> & Hw' & Hr' & Hb'); [intros u Hu; apply Hl; by right|].
    exists s', (l' ++ l1). split; [done|]. split; [done|]. split; [by rewrite Hr', Hr, app_assoc|].
    intros u Hu Hb. destruct (decide (u = t)) as [->|Hne].
    + rewrite Hr', elem_of_app. right. by apply Ht.
    + apply Hb'; [apply elem_of_cons in Hu; naive_solver|]. by rewrite Hst.
Qed.

Lemma notify_ok h ev k :
  kinv k -> exists k' l, notify h ev k = Ok k' /\ kinv k' /\ same_ipc k k' /\ waits k' = waits k /\
    ready (tasks k') ≡ₚ l ++ ready (tasks k) /\
    (forall e t, e ∈ wait_queue (poll k) -> matches h ev e = true -> we_task e = Some t -> task_state (tasks k) t = Blocked -> t ∈ ready (tasks k')).
Proof.
  intros [Hc Hw Hp]. unfold notify, notify_handle. set (hit := omap we_task _).
  destruct (fold_wake (waits k) (List.filter (fun t => bool_decide (task_state (tasks k) t = Blocked)) hit) (tasks k) Hw) as (s' & l & -> & Hw' & Hr & Hb).
  { intros t Ht%list_elem_of_In. apply filter_In in Ht as [Ht _]. apply list_elem_of_In in Ht. unfold hit in Ht.
    apply list_elem_of_omap in Ht as (e & He & Et). apply list_elem_of_In, filter_In in He as [He Hm]. apply list_elem_of_In in He.
    apply (Hp e t He); [|done]. unfold matches in Hm. by destruct (we_active e). }
  rewrite !bind_Ok. eexists _, l. split; [reflexivity|]. split; [|do 3 (split; [done|])].
  2:{ intros e t He Hm Et Hbl. apply Hb; [|done]. apply list_elem_of_In, filter_In. rewrite bool_decide_true by done. split; [|done].
      apply list_elem_of_In. unfold hit. apply list_elem_of_omap. exists e. split; [|done]. apply list_elem_of_In, filter_In.
      by rewrite <- list_elem_of_In. }
  constructor; [done|done|].
  intros e t He Ha Ht. cbn in He. apply list_elem_of_fmap in He as (e0 & -> & He). destruct (matches h ev e0); [done|]. by apply (Hp e0 t).
Qed.

(** ** Sending *)

Lemma copy_in_ok d src n :
  length d = Z.to_nat MAX_MSG_SIZE -> 0 <= n <= MAX_MSG_SIZE -> n <= Z.of_nat (length src) ->
  exists d', copy_in d (Some src) n = Ok d' /\ length d' = Z.to_nat MAX_MSG_SIZE /\ take (Z.to_nat n) d' = take (Z.to_nat n) src.
Proof.
  intros Hd Hn Hs. unfold copy_in, memcpy. destruct (Z.ltb_spec 0 n).
  - destruct (Z.ltb_spec (Z.of_nat (length src)) n); [lia|]. destruct (Z.ltb_spec (Z.of_nat (length d)) n); [lia|]. cbn [orb].
    eexists. split; [done|]. split.
    + rewrite length_app, length_take, length_drop. lia.
    + rewrite take_app_le by (rewrite length_take; lia). by rewrite take_take, Nat.min_id.
  - replace n with 0 by lia. by exists d.
Qed.

(** What the handle arguments amount to. *)
Definition handle_part (msg : Message) (hs : option (list Z)) (hn : Z) (ct : option Cap.Table)
  : res (Z * list TransferredHandle * option Cap.Table) :=
  a ← handle_args hs hn ct;
  match a with
  | Some (hs, t) => '(m, ths, t) ← take_handles hs 0 (handles msg) t; Ok (m, ths, Some t)
  | None => Ok (0, handles msg, ct)
  end.

(** The next message is appended to channel [i], and the first waiting receiver
    becomes ready. *)
Definition sent (i : Z) (ch : Channel) (msg : Message) k k' : Prop :=
  kinv k' /\ channels k' = <[Z.to_nat i := pushed msg ch]> (channels k) /\ next_channel_id k' = next_channel_id k /\
  (forall t, head (waiters (queues (waits k) (recv_waiters i))) = Some t -> t ∈ ready (tasks k')) /\
  (forall e t, e ∈ wait_queue (poll k) -> matches (id ch) CHANNEL_READ e = true -> we_task e = Some t ->
     task_state (tasks k) t = Blocked -> t ∈ ready (tasks k')).

Lemma send_ok i ch src n hs hn current ct m ths ct' k :
  kinv k -> chan i k = Ok ch -> state ch = OPEN -> recv_refs ch <> 0 -> 0 <= n <= MAX_MSG_SIZE -> hn <= MAX_HANDLES_PER_MSG ->
  count ch < capacity ch -> n <= Z.of_nat (length src) ->
  handle_part (slot ch (count ch)) hs hn ct = Ok (m, ths, ct') ->
  length ths = Z.to_nat MAX_HANDLES_PER_MSG -> 0 <= m <= MAX_HANDLES_PER_MSG ->
  exists k' msg, try_send_locked (Some i) (Some src) n hs hn current ct k = Ok (k', ct', VOK) /\ sent i ch msg k k' /\
    msg_ok msg /\ content msg = take (Z.to_nat n) src /\ sender_id msg = sender current /\ carried msg = take (Z.to_nat m) ths.
Proof.
  intros Hk Hch Ho Hr Hn Hhn Hc Hs Hp Hths Hm. assert (Cok := chan_inv _ _ _ Hk Hch). unfold try_send_locked. rewrite Hch, bind_Ok.
  rewrite bool_decide_true by done. cbn [negb]. destruct (Z.eqb_spec (recv_refs ch) 0); [done|].
  destruct (Z.ltb_spec MAX_MSG_SIZE n); [lia|]. destruct (Z.ltb_spec MAX_HANDLES_PER_MSG hn); [lia|].
  destruct (Z.leb_spec (capacity ch) (count ch)); [lia|].
  destruct (write_slot ch Cok) as [Hsl Hw]. rewrite (rd_Z (buffer ch) (write_idx ch) _ ltac:(lia) Hsl), bind_Ok.
  destruct (slot_in ch (count ch) Cok) as [_ Mok].
  destruct (copy_in_ok (data (slot ch (count ch))) src n (mo_data _ Mok) Hn Hs) as (d' & -> & Hd' & Hdt). rewrite bind_Ok.
  unfold handle_part in Hp. apply bind_inv in Hp as (a & -> & Hp). rewrite bind_Ok, Hp, bind_Ok.
  assert (Hlt := lookup_lt_Some _ _ _ Hsl). rewrite wr_Z by lia. rewrite bind_Ok.
  set (msg := mkMsg d' n (sender current) m ths).
  assert (Hmok : msg_ok msg) by (constructor; done).
  destruct (push_msg_ok ch msg Cok Hmok Hc) as [Pok _].
  change (set_ring (<[Z.to_nat (write_idx ch) := msg]> (buffer ch)) (read_idx ch) (advance (write_idx ch)) (u32 (count ch + 1)) ch) with (pushed msg ch).
  destruct (put_ok i k ch (pushed msg ch) Hk Hch Pok) as [-> Hk1]. rewrite bind_Ok. set (k1 := set_channels _ k) in *.
  destruct (wake_ok (recv_waiters i) k1 Hk1) as (k2 & -> & Hk2 & [Ec2 En2] & Ep2 & Hr2 & _ & Hst2). rewrite bind_Ok.
  destruct (notify_ok (id ch) CHANNEL_READ k2 Hk2) as (k3 & l & -> & Hk3 & [Ec3 En3] & _ & Hr3 & Hb3). rewrite bind_Ok.
  exists k3, msg. split; [done|]. split; [|split; [done|split; [exact Hdt|done]]].
  split; [done|]. split; [by rewrite Ec3, Ec2|]. split; [by rewrite En3, En2|]. split.
  - intros t Ht. rewrite Hr3, elem_of_app. right. rewrite Hr2, elem_of_app. left. change (waits k1) with (waits k). rewrite Ht. by apply list_elem_of_singleton.
  - intros e t He Hm' Et Hbl. apply (Hb3 e); [by rewrite Ep2|done|done|]. rewrite Hst2; [done|].
    destruct (ki_poll _ Hk e t He) as [_ Hn']; [|done|done]. unfold matches in Hm'. by destruct (we_active e).
Qed.

(** ** Receiving *)

Lemma copy_out_ok dst d n :
  0 <= n -> n <= Z.of_nat (length dst) -> n <= Z.of_nat (length d) ->
  copy_out (Some dst) d n = Ok (Some (take (Z.to_nat n) d ++ drop (Z.to_nat n) dst)).
Proof.
  intros Hn H1 H2. unfold copy_out, memcpy. destruct (Z.ltb_spec 0 n).
  - destruct (Z.ltb_spec (Z.of_nat (length d)) n); [lia|]. destruct (Z.ltb_spec (Z.of_nat (length dst)) n); [lia|]. done.
  - replace n with 0 by lia. done.
Qed.

Definition receive_part (msg : Message) (bound : Z) (out : option (list Z)) (ct : option Cap.Table)
  : res (Z * option (list Z) * option Cap.Table) :=
  match ct with
  | Some t =>
      if 0 <? handle_count msg then
        if Z.of_nat (length (handles msg)) <? handle_count msg then Ub
        else '(m, out, t) ← give_handles (carried msg) bound 0 out t; Ok (m, out, Some t)
      else Ok (0, out, ct)
  | None => Ok (0, out, ct)
  end.

(** What is left in the buffer: the message up to the size of the buffer. *)
Definition received (msg : Message) (dst : list Z) : list Z :=
  take (length dst) (content msg) ++ drop (length (content msg)) dst.

(** The first message is gone from channel [i], and the first waiting sender
    is ready. *)
Definition taken_from (i : Z) (ch : Channel) k k' : Prop :=
  kinv k' /\ channels k' = <[Z.to_nat i := popped ch]> (channels k) /\ next_channel_id k' = next_channel_id k /\
  (forall t, head (waiters (queues (waits k) (send_waiters i))) = Some t -> t ∈ ready (tasks k')).

Lemma content_length m : msg_ok m -> Z.of_nat (length (content m)) = size m.
Proof. intros [Hd Hs _ _]. unfold content. rewrite length_take, Hd. ring_consts. lia. Qed.

Lemma recv_ok i ch dst out bound ct m out' ct' k :
  kinv k -> chan i k = Ok ch -> state ch = OPEN -> 0 < count ch ->
  receive_part (slot ch 0) bound out ct = Ok (m, out', ct') ->
  exists k', try_recv_locked (Some i) (Some dst) (Z.of_nat (length dst)) out bound ct k =
      Ok (k', ct', Some (received (slot ch 0) dst), out', m, size (slot ch 0)) /\ taken_from i ch k k'.
Proof.
  intros Hk Hch Ho Hc Hp. assert (Cok := chan_inv _ _ _ Hk Hch). unfold try_recv_locked. rewrite Hch, bind_Ok.
  rewrite bool_decide_true by done. cbn [negb]. destruct (Z.eqb_spec (count ch) 0); [lia|].
  assert (Hsl := read_slot ch Cok). destruct (slot_in ch 0 Cok) as [_ Mok]. assert (Hr := co_read _ Cok).
  rewrite (rd_Z (buffer ch) (read_idx ch) _ ltac:(lia) Hsl), bind_Ok. set (msg := slot ch 0) in *. assert (Hs := mo_size _ Mok). assert (Hd := mo_data _ Mok).
  set (c := if _ <? size msg then _ else _). assert (Ec : c = Z.min (Z.of_nat (length dst)) (size msg)) by (subst c; destruct (Z.ltb_spec (Z.of_nat (length dst)) (size msg)); lia).
  rewrite copy_out_ok, bind_Ok by lia.
  assert (Er : take (Z.to_nat c) (data msg) ++ drop (Z.to_nat c) dst = received msg dst).
  { unfold received, content. rewrite Ec, take_take, length_take, Hd. ring_consts.
    destruct (Z.le_ge_cases (Z.of_nat (length dst)) (size msg)).
    - rewrite Z.min_l by lia. rewrite !drop_ge by lia. do 2 f_equal. lia.
    - rewrite Z.min_r by lia. f_equal; [f_equal; lia|f_equal; lia]. }
  rewrite Er. unfold receive_part in Hp. unfold carried in Hp. rewrite Hp, bind_Ok. destruct (pop_msg_ok ch Cok Hc) as [Pok _].
  change (set_ring (buffer ch) (advance (read_idx ch)) (write_idx ch) (u32 (count ch - 1)) ch) with (popped ch).
  destruct (put_ok i k ch (popped ch) Hk Hch Pok) as [-> Hk1]. rewrite bind_Ok. set (k1 := set_channels _ k) in *.
  destruct (wake_ok (send_waiters i) k1 Hk1) as (k2 & -> & Hk2 & [Ec2 En2] & _ & Hr2 & _). rewrite bind_Ok.
  destruct (notify_ok (id ch) CHANNEL_WRITE k2 Hk2) as (k3 & l & -> & Hk3 & [Ec3 En3] & _ & Hr3 & _). rewrite bind_Ok.
  exists k3. split; [done|]. split; [done|]. split; [by rewrite Ec3, Ec2|]. split; [by rewrite En3, En2|]. intros t Ht.
  rewrite Hr3, elem_of_app. right. rewrite Hr2, elem_of_app. left. change (waits k1) with (waits k). rewrite Ht. apply list_elem_of_singleton. done.
Qed.

(** ** Channels by identifier *)

Lemma find_chan n k i :
  find_channel_by_id_locked n k = Some i -> exists ch, chan i k = Ok ch /\ channels k !! Z.to_nat i = Some ch /\ id ch = n /\ state ch = OPEN.
Proof.
  intros H. assert (F := find_from_spec (is_open n) 0 (channels k)). unfold find_channel_by_id_locked in H. rewrite H in F.
  destruct F as (Hi & ch & Hl & Ho). rewrite Z.sub_0_r in Hl. exists ch. unfold is_open in Ho. apply andb_prop in Ho as [H1%Z.eqb_eq H2%bool_decide_eq_true].
  split; [by apply rd_Z|]. done.
Qed.

(** An open channel as its users see it: whether the receivers are gone, the
    capacity, and the messages. *)
Record Queue := mkQ { closed : bool; room : Z; msgs : list (list Z) }.
Definition as_queue (ch : Channel) : Queue := mkQ (recv_refs ch =? 0) (capacity ch) (content <$> pending ch).
Definition queue_of (n : Z) k : option Queue :=
  match find_channel_by_id_locked n k with
  | Some i => as_queue <$> channels k !! Z.to_nat i
  | None => None
  end.

(** Replacing a channel by one with the same identifier and state. *)
Lemma queue_of_insert n n' i ch ch' k k' :
  find_channel_by_id_locked n k = Some i -> channels k !! Z.to_nat i = Some ch -> id ch' = id ch -> state ch' = state ch ->
  channels k' = <[Z.to_nat i := ch']> (channels k) ->
  queue_of n' k' = if n' =? n then Some (as_queue ch') else queue_of n' k.
Proof.
  intros Hf Hl Ei Es Ek. unfold queue_of. unfold find_channel_by_id_locked in *.
  assert (E : forall n, find_from (is_open n) 0 (channels k') = find_from (is_open n) 0 (channels k)).
  { intros m. rewrite Ek. eapply find_from_insert; [done|]. unfold is_open. by rewrite Ei, Es. }
  rewrite E. destruct (Z.eqb_spec n' n) as [->|Hne].
  - rewrite Hf, Ek, list_lookup_insert_eq; [done|]. by eapply lookup_lt_Some.
  - destruct (find_from (is_open n') 0 (channels k)) as [i'|] eqn:Hf'; [|done]. rewrite Ek.
    destruct (decide (Z.to_nat i = Z.to_nat i')) as [Heq|]; [|by rewrite list_lookup_insert_ne].
    destruct (find_chan n k i Hf) as (c1 & _ & H1 & <- & _). destruct (find_chan n' k i' Hf') as (c2 & _ & H2 & <- & _).
    rewrite Heq in H1. congruence.
Qed.

(** ** Sequences of operations *)

Inductive op := OSend (current : option Z) (n : Z) (src : list Z) | ORecv (n : Z) (dst : list Z).

(** Runs one operation through the kernel: the result code and the buffer. *)
Definition run_op (o : op) k : res (Ipc S * (Z * list Z)) :=
  match o with
  | OSend current n src =>
      '(k, _, r) ← try_send n (Some src) (Z.of_nat (length src)) None 0 current None k; Ok (k, (r, []))
  | ORecv n dst =>
      '(k, _, d, _, _, r) ← try_recv n (Some dst) (Z.of_nat (length dst)) None 0 None k; Ok (k, (r, default [] d))
  end.
Fixpoint run (l : list op) k : res (Ipc S * list (Z * list Z)) :=
  match l with
  | [] => Ok (k, [])
  | o :: l => '(k, r) ← run_op o k; '(k, rs) ← run l k; Ok (k, r :: rs)
  end.

(** The same on queues of byte strings. *)
Definition upd_queue (f : Z -> option Queue) (n : Z) (l : list (list Z)) (q : Queue) : Z -> option Queue :=
  fun n' => if n' =? n then Some (mkQ (closed q) (room q) l) else f n'.
Definition spec_op (o : op) (f : Z -> option Queue) : (Z -> option Queue) * (Z * list Z) :=
  match o with
  | OSend _ n src =>
      match f n with
      | None => (f, (VERR_INVALID_HANDLE, []))
      | Some q =>
          if closed q then (f, (VERR_CHANNEL_CLOSED, []))
          else if MAX_MSG_SIZE <? Z.of_nat (length src) then (f, (VERR_MSG_TOO_LARGE, []))
          else if room q <=? Z.of_nat (length (msgs q)) then (f, (VERR_WOULD_BLOCK, []))
          else (upd_queue f n (msgs q ++ [src]) q, (VOK, []))
      end
  | ORecv n dst =>
      match f n with
      | None => (f, (VERR_INVALID_HANDLE, dst))
      | Some q =>
          match msgs q with
          | [] => (f, (VERR_WOULD_BLOCK, dst))
          | m :: l => (upd_queue f n l q, (Z.of_nat (length m), take (length dst) m ++ drop (length m) dst))
          end
      end
  end.
Fixpoint spec (l : list op) (f : Z -> option Queue) : (Z -> option Queue) * list (Z * list Z) :=
  match l with
  | [] => (f, [])
  | o :: l => let '(f, r) := spec_op o f in let '(f, rs) := spec l f in (f, r :: rs)
  end.

Lemma pending_msgs ch : chan_ok ch -> Z.of_nat (length (msgs (as_queue ch))) = count ch.
Proof. intros Hc. cbn [msgs as_queue]. rewrite length_fmap. by apply pending_length. Qed.

(** The guards of sending, in their order. *)
Lemma send_guards i ch src n hs hn current ct k :
  chan i k = Ok ch -> state ch = OPEN ->
  try_send_locked (Some i) (Some src) n hs hn current ct k =
    if recv_refs ch =? 0 then Ok (k, ct, VERR_CHANNEL_CLOSED)
    else if MAX_MSG_SIZE <? n then Ok (k, ct, VERR_MSG_TOO_LARGE)
    else if MAX_HANDLES_PER_MSG <? hn then Ok (k, ct, VERR_INVALID_ARG)
    else if capacity ch <=? count ch then Ok (k, ct, VERR_WOULD_BLOCK)
    else try_send_locked (Some i) (Some src) n hs hn current ct k.
Proof.
  intros Hch Ho. unfold try_send_locked. rewrite Hch, bind_Ok. rewrite bool_decide_true by done. cbn [negb].
  destruct (recv_refs ch =? 0); [done|]. destruct (MAX_MSG_SIZE <? n); [done|]. destruct (MAX_HANDLES_PER_MSG <? hn); [done|].
  by destruct (capacity ch <=? count ch).
Qed.

Lemma send_op_ok current n src f k :
  kinv k -> (forall n, queue_of n k = f n) ->
  exists k', run_op (OSend current n src) k = Ok (k', (spec_op (OSend current n src) f).2) /\ kinv k' /\
    (forall n', queue_of n' k' = (spec_op (OSend current n src) f).1 n').
Proof.
  intros Hk Hf. cbn [run_op spec_op]. unfold try_send. assert (Hq := Hf n). unfold queue_of in Hq.
  destruct (find_channel_by_id_locked n k) as [i|] eqn:Ei; [|rewrite <- Hq; by exists k].
  destruct (find_chan n k i Ei) as (ch & Hch & Hl & Hid & Hst). rewrite Hl in Hq. cbn [fmap option_fmap option_map] in Hq. rewrite <- Hq.
  assert (Cok := chan_inv _ _ _ Hk Hch). rewrite (pending_msgs ch Cok). cbn [closed room as_queue]. rewrite (send_guards i ch) by done.
  destruct (Z.eqb_spec (recv_refs ch) 0); [rewrite bind_Ok; by exists k|].
  destruct (Z.ltb_spec MAX_MSG_SIZE (Z.of_nat (length src))); [rewrite bind_Ok; by exists k|]. change (MAX_HANDLES_PER_MSG <? 0) with false.
  destruct (Z.leb_spec (capacity ch) (count ch)); [rewrite bind_Ok; by exists k|].
  destruct (slot_in ch (count ch) Cok) as [_ Mok].
  destruct (send_ok i ch src (Z.of_nat (length src)) None 0 current None 0 (handles (slot ch (count ch))) None k Hk Hch Hst)
    as (k' & msg & -> & (Hk' & Ek & _) & Hmok & Hcnt & _); [done|lia|done|done|lia|done|apply Mok|ring_consts; lia|].
  rewrite bind_Ok. exists k'. split; [done|]. split; [done|]. intros n'.
  rewrite (queue_of_insert n n' i ch (pushed msg ch) k k' Ei Hl eq_refl eq_refl Ek). cbn [fst]. unfold upd_queue. destruct (n' =? n); [|apply Hf].
  unfold as_queue. destruct (push_msg_ok ch msg Cok Hmok) as [_ ->]; [done|]. cbn [msgs closed room]. rewrite fmap_app. cbn [fmap list_fmap].
  rewrite Hcnt, Nat2Z.id, firstn_all. done.
Qed.

Lemma recv_op_ok n dst f k :
  kinv k -> (forall n, queue_of n k = f n) ->
  exists k', run_op (ORecv n dst) k = Ok (k', (spec_op (ORecv n dst) f).2) /\ kinv k' /\
    (forall n', queue_of n' k' = (spec_op (ORecv n dst) f).1 n').
Proof.
  intros Hk Hf. cbn [run_op spec_op]. unfold try_recv. assert (Hq := Hf n). unfold queue_of in Hq.
  destruct (find_channel_by_id_locked n k) as [i|] eqn:Ei; [|rewrite <- Hq; by exists k].
  destruct (find_chan n k i Ei) as (ch & Hch & Hl & Hid & Hst). rewrite Hl in Hq. cbn [fmap option_fmap option_map] in Hq. rewrite <- Hq.
  assert (Cok := chan_inv _ _ _ Hk Hch). assert (Hn := co_count _ Cok). cbn [msgs as_queue].
  destruct (Z.eqb_spec (count ch) 0) as [E0|Hne].
  - assert (E : pending ch = []) by (apply nil_length_inv; assert (H := pending_length ch Cok); lia). rewrite E. cbn [fmap list_fmap].
    unfold try_recv_locked. rewrite Hch, bind_Ok. rewrite bool_decide_true by done. cbn [negb]. rewrite E0, Z.eqb_refl, bind_Ok. by exists k.
  - destruct (pop_msg_ok ch Cok ltac:(lia)) as [_ Ep]. rewrite Ep. cbn [fmap list_fmap].
    destruct (recv_ok i ch dst None 0 None 0 None None k Hk Hch Hst) as (k' & -> & (Hk' & Ek & _)); [lia|done|]. rewrite bind_Ok.
    destruct (slot_in ch 0 Cok) as [_ Mok]. exists k'. split; [by rewrite content_length|]. split; [done|]. intros n'.
    rewrite (queue_of_insert n n' i ch (popped ch) k k' Ei Hl eq_refl eq_refl Ek). cbn [fst]. unfold upd_queue. by destruct (n' =? n).
Qed.

Lemma trace_ok l f k :
  kinv k -> (forall n, queue_of n k = f n) ->
  exists k', run l k = Ok (k', (spec l f).2) /\ kinv k' /\ (forall n, queue_of n k' = (spec l f).1 n).
Proof.
  revert f k. induction l as [|o l IH]; intros f k Hk Hf; cbn [run spec]; [by exists k|].
  assert (H : exists k', run_op o k = Ok (k', (spec_op o f).2) /\ kinv k' /\ (forall n', queue_of n' k' = (spec_op o f).1 n')).
  { destruct o; [by apply send_op_ok|by apply recv_op_ok]. }
  destruct H as (k1 & -> & Hk1 & Hf1). rewrite bind_Ok. destruct (spec_op o f) as [f1 r]. cbn [fst snd] in *.
  destruct (IH f1 k1 Hk1 Hf1) as (k2 & -> & Hk2 & Hf2). rewrite bind_Ok. destruct (spec l f1) as [f2 rs]. by exists k2.
Qed.

(** ** Handles in messages *)

Definition to_cap (th : TransferredHandle) : CapTable.Capability := CapTable.mkCap (th_object th) (th_kind th) (th_rights th).
Definition of_cap (c : CapTable.Capability) : TransferredHandle := mkTh (CapTable.c_object c) (CapTable.c_kind c) (CapTable.c_rights c).

(** What sending the handles [hs] moves out of a handle map: the capabilities
    that are there and may be transferred. *)
Fixpoint moved (hs : list Z) (m : gmap Z CapTable.Capability) : list CapTable.Capability * gmap Z CapTable.Capability :=
  match hs with
  | [] => ([], m)
  | h :: hs =>
      match m !! h with
      | Some c =>
          if Cap.has_rights (CapTable.c_rights c) Cap.CAP_TRANSFER
          then let '(l, m) := moved hs (delete h m) in (c :: l, m)
          else moved hs m
      | None => moved hs m
      end
  end.

Lemma moved_length hs m : (length (moved hs m).1 <= length hs)%nat.
Proof.
  revert m. induction hs as [|h hs IH]; intros m; cbn [moved length]; [done|]. destruct (m !! h) as [c|]; [|specialize (IH m); lia].
  destruct (Cap.has_rights _ _); [|specialize (IH m); lia]. specialize (IH (delete h m)). destruct (moved hs (delete h m)). cbn in *. lia.
Qed.

Lemma take_handles_ok hs n ths t :
  Cap.wf t -> Forall (in_width 32) hs -> 0 <= n -> n + Z.of_nat (length hs) <= Z.of_nat (length ths) <= 4 ->
  exists ths' t', take_handles hs n ths t = Ok (n + Z.of_nat (length (moved hs (CapTable.abs t)).1), ths', t') /\ Cap.wf t' /\
    CapTable.abs t' = (moved hs (CapTable.abs t)).2 /\ length ths' = length ths /\
    take (Z.to_nat n + length (moved hs (CapTable.abs t)).1) ths' = take (Z.to_nat n) ths ++ (of_cap <$> (moved hs (CapTable.abs t)).1).
Proof.
  revert n ths t. induction hs as [|h hs IH]; intros n ths t Hwf Hhs Hn Hlen; cbn [take_handles moved].
  - exists ths, t. cbn [fst snd length fmap list_fmap]. rewrite Z.add_0_r, Nat.add_0_r, app_nil_r. done.
  - apply Forall_cons in Hhs as [Hh Hhs]. cbn [length] in Hlen. assert (Hwf' := Hwf). destruct Hwf' as [fl Hwf'].
    destruct (CapTable.get_abs _ _ _ Hwf' Hh) as [(j & e & [He Hk] & Hhe & -> & Habs)|[-> Habs]]; rewrite bind_Ok, Habs.
    2:{ apply IH; [done|done|done|lia]. }
    rewrite (rd_nat _ _ _ He), bind_Ok. cbn [CapTable.c_rights CapTable.view].
    destruct (Cap.has_rights (Cap.rights e) Cap.CAP_TRANSFER); cbn [negb]; [|apply IH; [done|done|done|lia]].
    rewrite wr_Z by lia. rewrite bind_Ok. destruct (CapSpec.remove_abs t h _ Hwf Hh Habs) as (t1 & -> & Hwf1 & Habs1 & _). rewrite bind_Ok.
    rewrite u32_small by lia. destruct (IH (n + 1) (<[Z.to_nat n := mkTh (Cap.object e) (Cap.kind e) (Cap.rights e)]> ths) t1 Hwf1 Hhs)
      as (ths' & t' & -> & Hwf2 & Habs2 & Hl2 & Ht2); [lia|rewrite length_insert; lia|].
    rewrite Habs1 in *. destruct (moved hs (delete h (CapTable.abs t))) as [l m']. cbn [fst snd length fmap list_fmap] in *.
    exists ths', t'. split; [do 3 f_equal; lia|]. split; [done|]. split; [done|]. split; [by rewrite Hl2, length_insert|].
    replace (Z.to_nat n + Datatypes.S (length l))%nat with (Z.to_nat (n + 1) + length l)%nat by lia. rewrite Ht2.
    replace (Z.to_nat (n + 1)) with (Datatypes.S (Z.to_nat n)) by lia. erewrite take_S_r by (apply list_lookup_insert_eq; lia).
    rewrite take_insert_ge by lia. by rewrite <- app_assoc.
Qed.

Definition bounded (bound : Z) (c : CapTable.Capability) : CapTable.Capability :=
  CapTable.mkCap (CapTable.c_object c) (CapTable.c_kind c) (Z.land (CapTable.c_rights c) bound).

(** Inserting capabilities at the handles [hs]. *)
Fixpoint added (hs : list Z) (cs : list CapTable.Capability) (m : gmap Z CapTable.Capability) : gmap Z CapTable.Capability :=
  match hs, cs with
  | h :: hs, c :: cs => added hs cs (<[h := c]> m)
  | _, _ => m
  end.

(** Each handle is new when it is handed out. *)
Fixpoint fresh (hs : list Z) (cs : list CapTable.Capability) (m : gmap Z CapTable.Capability) : Prop :=
  match hs, cs with
  | h :: hs, c :: cs => m !! h = None /\ fresh hs cs (<[h := c]> m)
  | [], [] => True
  | _, _ => False
  end.

Lemma insert_counts t obj kd r t' h :
  Cap.wf t -> Cap.count t < Cap.capacity t -> Cap.insert t obj kd r = Ok (t', h) ->
  Cap.count t' = Cap.count t + 1 /\ Cap.capacity t' = Cap.capacity t.
Proof.
  intros [fl Hwf] Hlt. destruct fl as [|i fl].
  - assert (Hf := proj1 (CapSpec.full_count _ _ Hwf) eq_refl). lia.
  - destruct (CapTable.insert_fill t i fl obj kd r Hwf) as (ne & _ & _ & _ & ->). intros [= <- _]. done.
Qed.

(** The number of free slots of a table. *)
Definition vacant (t : Cap.Table) : nat := Z.to_nat (Cap.capacity t - Cap.count t).

Lemma give_full ths bound n out t :
  Cap.wf t -> vacant t = 0%nat -> Forall (fun th => th_kind th <> Cap.Invalid /\ in_width 32 (th_rights th)) ths -> give_handles ths bound n out t = Ok (n, out, t).
Proof.
  intros Hwf Hroom. unfold vacant in Hroom. induction 1 as [|th ths [Hk Hr] _ IH]; [done|]. cbn [give_handles]. unfold Cap.insert_bounded.
  destruct (CapSpec.insert_abs t (th_object th) (th_kind th) (Z.land (th_rights th) bound) Hwf Hk) as (t1 & h & E & _ & Hc); [by apply land_width_l|].
  destruct (Z.ltb_spec (Cap.count t) (Cap.capacity t)); [lia|]. destruct Hc as [-> ->]. rewrite E, bind_Ok. exact IH.
Qed.

(** The first capabilities get handles, as many as there is room for; the others
    are dropped. *)
Lemma give_handles_ok ths bound n out t :
  Cap.wf t -> Forall (fun th => th_kind th <> Cap.Invalid /\ in_width 32 (th_rights th)) ths ->
  0 <= n -> n + Z.of_nat (length ths) <= 4 -> length out = 4%nat ->
  let got := take (vacant t) ths in
  exists hs out' t', give_handles ths bound n (Some out) t = Ok (n + Z.of_nat (length got), Some out', t') /\ Cap.wf t' /\
    length hs = length got /\ fresh hs (bounded bound <$> (to_cap <$> got)) (CapTable.abs t) /\
    CapTable.abs t' = added hs (bounded bound <$> (to_cap <$> got)) (CapTable.abs t) /\ length out' = 4%nat /\
    take (Z.to_nat n + length got) out' = take (Z.to_nat n) out ++ hs.
Proof.
  revert n out t. induction ths as [|th ths IH]; intros n out t Hwf Hths Hn Hlen Hout.
  - cbv zeta. rewrite firstn_nil. exists [], out, t. cbn. rewrite Z.add_0_r, Nat.add_0_r, app_nil_r. done.
  - destruct (vacant t) as [|r] eqn:Er; cbv zeta.
    { exists [], out, t. rewrite (give_full _ _ _ _ _ Hwf Er Hths). cbn. rewrite Z.add_0_r, Nat.add_0_r, app_nil_r. done. }
    unfold vacant in Er. cbn [take give_handles]. apply Forall_cons in Hths as [[Hk Hr] Hths]. cbn [length] in *. unfold Cap.insert_bounded.
    destruct (CapSpec.insert_abs t (th_object th) (th_kind th) (Z.land (th_rights th) bound) Hwf Hk) as (t1 & h & E & Hwf1 & Hc).
    { by apply land_width_l. }
    rewrite E, bind_Ok. destruct (Z.ltb_spec (Cap.count t) (Cap.capacity t)); [|lia]. destruct Hc as (Hh & Hf & Habs).
    destruct (Z.eqb_spec h Cap.HANDLE_INVALID); [done|]. destruct (Z.ltb_spec n MAX_HANDLES_PER_MSG); [|ring_consts; lia].
    rewrite wr_Z by lia. rewrite !bind_Ok. rewrite u32_small by lia.
    destruct (insert_counts _ _ _ _ _ _ Hwf ltac:(lia) E) as [Ec Ecap].
    destruct (IH (n + 1) (<[Z.to_nat n := h]> out) t1 Hwf1 Hths) as (hs & out' & t' & -> & Hwf2 & Hl & Hfr & Ha & Hlo & Ht);
      [lia|lia|by rewrite length_insert|]. rewrite Habs in *. replace (vacant t1) with r in * by (unfold vacant; lia). set (got := take r ths) in *.
    exists (h :: hs), out', t'. split; [do 3 f_equal; cbn [length]; lia|]. split; [done|]. split; [cbn; lia|]. split; [done|]. split; [done|]. split; [done|]. cbn [length].
    replace (Z.to_nat n + Datatypes.S (length got))%nat with (Z.to_nat (n + 1) + length got)%nat by lia. rewrite Ht.
    replace (Z.to_nat (n + 1)) with (Datatypes.S (Z.to_nat n)) by lia. erewrite take_S_r by (apply list_lookup_insert_eq; lia).
    rewrite take_insert_ge by lia. by rewrite <- app_assoc.
Qed.

(** The capabilities of a table can be inserted in another. *)
Lemma abs_ok t h c : Cap.wf t -> CapTable.abs t !! h = Some c -> CapTable.c_kind c <> Cap.Invalid /\ in_width 32 (CapTable.c_rights c).
Proof.
  intros [fl Hwf] H. apply (CapTable.abs_lookup _ _ _ _ Hwf) in H as (i & e & [He Hk] & _ & ->). split; [done|].
  apply (CapTable.slot_ok _ _ Hwf _ _ He).
Qed.

Lemma moved_ok (P : CapTable.Capability -> Prop) hs m : (forall h c, m !! h = Some c -> P c) -> Forall P (moved hs m).1.
Proof.
  revert m. induction hs as [|h hs IH]; intros m Hm; cbn [moved]; [constructor|]. destruct (m !! h) as [c|] eqn:E; [|by apply IH].
  destruct (Cap.has_rights _ _); [|by apply IH]. specialize (IH (delete h m)). destruct (moved hs (delete h m)) as [l m']. cbn [fst] in *.
  constructor; [by eapply Hm|]. apply IH. intros h' c' [_ H]%lookup_delete_Some. by eapply Hm.
Qed.

Lemma handle_part_ok msg hs t :
  msg_ok msg -> Cap.wf t -> Forall (in_width 32) hs -> (length hs <= 4)%nat ->
  exists ths t', handle_part msg (Some hs) (Z.of_nat (length hs)) (Some t) =
      Ok (Z.of_nat (length (moved hs (CapTable.abs t)).1), ths, Some t') /\ Cap.wf t' /\
    CapTable.abs t' = (moved hs (CapTable.abs t)).2 /\ length ths = 4%nat /\
    take (length (moved hs (CapTable.abs t)).1) ths = of_cap <$> (moved hs (CapTable.abs t)).1.
Proof.
  intros [_ _ Hh _] Hwf Hhs Hlen. change (Z.to_nat MAX_HANDLES_PER_MSG) with 4%nat in Hh. unfold handle_part, handle_args. destruct (Z.ltb_spec 0 (Z.of_nat (length hs))).
  - destruct (Z.ltb_spec (Z.of_nat (length hs)) (Z.of_nat (length hs))); [lia|]. rewrite bind_Ok, Nat2Z.id, firstn_all.
    destruct (take_handles_ok hs 0 (handles msg) t Hwf Hhs) as (ths & t' & -> & Hwf' & Ha & Hl & Ht); [lia|lia|]. rewrite bind_Ok.
    exists ths, t'. rewrite Z.add_0_l. split; [done|]. split; [done|]. split; [done|]. split; [lia|]. exact Ht.
  - destruct hs; [|cbn in *; lia]. rewrite bind_Ok. by exists (handles msg), t.
Qed.

Lemma receive_part_ok msg bound out t cs :
  msg_ok msg -> carried msg = of_cap <$> cs -> Forall (fun c => CapTable.c_kind c <> Cap.Invalid /\ in_width 32 (CapTable.c_rights c)) cs ->
  Cap.wf t -> length out = 4%nat ->
  let got := take (vacant t) cs in
  exists hs out' t', receive_part msg bound (Some out) (Some t) = Ok (Z.of_nat (length got), Some out', Some t') /\ Cap.wf t' /\
    length hs = length got /\ fresh hs (bounded bound <$> got) (CapTable.abs t) /\
    CapTable.abs t' = added hs (bounded bound <$> got) (CapTable.abs t) /\ take (length got) out' = hs.
Proof.
  intros [_ _ Hh Hc] Ec Hcs Hwf Hout. change (Z.to_nat MAX_HANDLES_PER_MSG) with 4%nat in Hh. ring_consts.
  assert (Hlen : handle_count msg = Z.of_nat (length cs)).
  { apply (f_equal length) in Ec. rewrite length_fmap in Ec. unfold carried in Ec. rewrite length_take in Ec. lia. }
  unfold receive_part. destruct (Z.ltb_spec 0 (handle_count msg)).
  - destruct (Z.ltb_spec (Z.of_nat (length (handles msg))) (handle_count msg)); [lia|]. rewrite Ec.
    assert (Emap : forall l : list CapTable.Capability, to_cap <$> (of_cap <$> l) = l) by (clear; induction l as [|[] l IH]; [done|]; cbn; by rewrite IH).
    destruct (give_handles_ok (of_cap <$> cs) bound 0 out t Hwf) as (hs & out' & t' & -> & Hwf' & Hl & Hf & Ha & _ & Ht);
      [|lia|rewrite length_fmap; lia|done|].
    { apply Forall_fmap. exact Hcs. }
    rewrite <- fmap_take, Emap in *. rewrite length_fmap in *. rewrite bind_Ok. exists hs, out', t'. split; [done|]. do 4 (split; [done|]). exact Ht.
  - destruct cs; [|cbn in *; lia]. cbv zeta. rewrite firstn_nil. by exists [], out, t.
Qed.

(** The blocking receive, when there is a message. *)
Lemma recv_as_try n i ch dst sz current k :
  find_channel_by_id_locked n k = Some i -> chan i k = Ok ch -> id ch = n -> state ch = OPEN -> 0 < count ch ->
  recv n dst sz current k =
    ('(k, _, d, _, _, r) ← try_recv_locked (Some i) dst sz None 0 None k; Ok (k, d, Some r)).
Proof.
  intros Hf Hch Hid Ho Hc. unfold recv, try_recv_locked. rewrite Hf, Hch, !bind_Ok. rewrite bool_decide_true by done. cbn [negb].
  destruct (Z.ltb_spec 0 (count ch)); [|lia]. destruct (Z.eqb_spec (count ch) 0); [lia|]. unfold copy_message_from_buffer. rewrite Hch, bind_Ok, Hid.
  destruct (rd (buffer ch) (read_idx ch)) as [msg| |]; [|done|done]. cbn [mbind res_bind].
  destruct (copy_out dst (data msg) _) as [d| |]; [|done|done]. cbn [mbind res_bind].
  destruct (put_chan i _ k) as [k1| |]; [|done|done]. cbn [mbind res_bind].
  destruct (wake_one (send_waiters i) k1) as [k2| |]; [|done|done]. cbn [mbind res_bind].
  by destruct (notify n CHANNEL_WRITE k2).
Qed.

(** Blocking a task that is registered for no event. *)
Lemma block_kinv q t k :
  kinv k -> may_wait t (waits k, tasks k) ->
  (forall e, e ∈ wait_queue (poll k) -> we_active e = true -> we_task e <> Some t) ->
  kinv (set_waits (wait_enqueue q t (waits k, tasks k)) k).
Proof.
  intros [Hc Hw Hp] Hm He. destruct (enqueue_winv q t _ Hw Hm) as (Hi & _ & _ & _ & Hch). constructor.
  - done.
  - cbn [waits tasks set_waits]. by destruct (wait_enqueue q t (waits k, tasks k)).
  - intros e u Hin Ha Hu. destruct (Hp e u Hin Ha Hu) as [Hv Hn]. split; [done|]. cbn [waits set_waits]. rewrite Hch; [done|].
    intros ->. by apply (He e).
Qed.
End tasks.

(** ** Claims *)

(** (C16) Channels behave as bounded queues of byte strings.  Any sequence of
    non-blocking sends and receives on any of the open channels, by any tasks,
    gives the results that it gives on one queue per channel identifier, errors
    included: messages come out in the order they went in, whole or cut to the
    receiver's buffer, and no channel affects another. *)
Theorem channel_refines {S} `{!TaskOps S, !TaskLaws S} (l : list op) (k : Ipc S) :
  kinv k -> exists k', run l k = Ok (k', (spec l (fun n => queue_of n k)).2) /\ kinv k' /\
    forall n, queue_of n k' = (spec l (fun n => queue_of n k)).1 n.
Proof. intros Hk. by apply trace_ok. Qed.

(** (C17) Handles move.  Sending up to four handles [hs] with a message through an
    open channel with room takes exactly the capabilities that are valid and
    transferable out of the sender's table and queues the message behind those
    that wait.  The non-blocking receive that finds this message at the head of
    the queue gets its bytes and a new handle for each of these capabilities that
    fits into the receiver's table, in their order, with the same object and kind
    and with the rights of the sender cut down to the receiver's bounding set;
    capabilities for which the table has no room are in neither table. *)
Theorem transfer_moves {S} `{!TaskOps S, !TaskLaws S} i ch src hs current st (k : Ipc S) :
  kinv k -> chan i k = Ok ch -> state ch = OPEN -> recv_refs ch <> 0 -> count ch < capacity ch ->
  Z.of_nat (length src) <= MAX_MSG_SIZE -> (length hs <= 4)%nat -> Forall (in_width 32) hs -> Cap.wf st ->
  let '(cs, m) := moved hs (CapTable.abs st) in
  exists k1 st' ch' msg,
    try_send_locked (Some i) (Some src) (Z.of_nat (length src)) (Some hs) (Z.of_nat (length hs)) current (Some st) k = Ok (k1, Some st', VOK) /\
    CapTable.abs st' = m /\ kinv k1 /\ chan i k1 = Ok ch' /\ state ch' = OPEN /\ pending ch' = pending ch ++ [msg] /\
    forall kr chr rt bound out dst, kinv kr -> chan i kr = Ok chr -> state chr = OPEN -> head (pending chr) = Some msg -> Cap.wf rt -> length out = 4%nat ->
      let got := take (vacant rt) cs in
      exists k2 rt' out' new,
        try_recv_locked (Some i) (Some dst) (Z.of_nat (length dst)) (Some out) bound (Some rt) kr =
          Ok (k2, Some rt', Some (take (length dst) src ++ drop (length src) dst), Some out', Z.of_nat (length new), Z.of_nat (length src)) /\
        take (length new) out' = new /\ fresh new (bounded bound <$> got) (CapTable.abs rt) /\
        CapTable.abs rt' = added new (bounded bound <$> got) (CapTable.abs rt) /\ kinv k2.
Proof.
  intros Hk Hch Ho Hr H0 Hsrc Hhs Hw Wst. assert (Cok := chan_inv _ _ _ Hk Hch). assert (Hcap := co_capacity _ Cok).
  destruct (slot_in ch (count ch) Cok) as [_ Mok]. assert (Hml := moved_length hs (CapTable.abs st)).
  destruct (handle_part_ok (slot ch (count ch)) hs st Mok Wst Hw Hhs) as (ths & st' & Ep & _ & Ha & Hl & Ht).
  assert (Hcs := moved_ok _ hs (CapTable.abs st) (fun h c => abs_ok st h c Wst)).
  destruct (moved hs (CapTable.abs st)) as [cs m]. cbn [fst snd] in *.
  destruct (send_ok i ch src (Z.of_nat (length src)) (Some hs) (Z.of_nat (length hs)) current (Some st) (Z.of_nat (length cs)) ths (Some st') k Hk Hch Ho Hr)
    as (k1 & msg & E1 & (Hk1 & Ek1 & _) & Hmok & Hcnt & _ & Hcar); [lia|ring_consts; lia|lia|lia|exact Ep|exact Hl|ring_consts; lia|].
  rewrite Nat2Z.id in Hcnt, Hcar. rewrite firstn_all in Hcnt. rewrite Ht in Hcar.
  destruct (chan_lookup _ _ _ Hch) as [Hi Hlk]. assert (Hlt := lookup_lt_Some _ _ _ Hlk).
  assert (Hch1 : chan i k1 = Ok (pushed msg ch)). { unfold chan. apply rd_Z; [lia|]. rewrite Ek1. by apply list_lookup_insert_eq. }
  destruct (push_msg_ok ch msg Cok Hmok ltac:(lia)) as [Pok Epend].
  exists k1, st', (pushed msg ch), msg. split; [exact E1|]. split; [exact Ha|]. split; [done|]. split; [done|]. split; [done|]. split; [done|].
  intros kr chr rt bound out dst Hkr Hchr Hor Hhd Wrt Hout. assert (Ckr := chan_inv _ _ _ Hkr Hchr).
  assert (Hpos : 0 < count chr). { destruct (Z.lt_ge_cases 0 (count chr)); [done|]. unfold pending in Hhd. by rewrite seqZ_nil in Hhd by lia. }
  assert (Es : slot chr 0 = msg) by (destruct (pop_msg_ok _ Ckr Hpos) as [_ E]; rewrite E in Hhd; by injection Hhd).
  destruct (receive_part_ok msg bound out rt cs Hmok Hcar Hcs Wrt Hout) as (new & out' & rt' & Er & _ & Hln & Hf & Har & Hto).
  rewrite <- Es in Er. cbv zeta. set (got := take (vacant rt) cs) in *.
  destruct (recv_ok i chr dst (Some out) bound (Some rt) (Z.of_nat (length got)) (Some out') (Some rt') kr Hkr Hchr Hor Hpos Er) as (k2 & E2 & (Hk2 & _)).
  rewrite Es in E2. exists k2, rt', out', new. split.
  { rewrite E2, Hln. unfold received. rewrite Hcnt. by rewrite <- (content_length msg Hmok), Hcnt. }
  rewrite Hln. done.
Qed.

(** The receiver that a send wakes when [t] waits behind the queue [ws]: [t] if it
    is more urgent than the first of them, or if there is none. *)
Definition first_served {S} `{!TaskOps S} (s : S) (t : Z) (ws : list Z) : Z :=
  match ws with [] => t | v :: _ => if task_priority s t <? task_priority s v then t else v end.

Lemma head_insert {S} `{!TaskOps S} (s : S) t ws : head (insert_waiter s t ws) = Some (first_served s t ws).
Proof. destruct ws as [|v ws]; [done|]. cbn. destruct (_ <? _); [done|]. destruct ws as [|u ws]; [done|]. cbn. by destruct (_ <=? _). Qed.

(** (C18) A receiver that blocks is served.  A task finds a channel empty and waits,
    maybe with other receivers; then any task sends a message.  The first of the
    waiting receivers, in the order of priority and then of arrival, is made ready,
    and when it runs its next round it gets this message.  If no other receiver
    waits with the same or a better priority, this is the task that blocked. *)
Theorem blocked_receiver_served {S} `{!TaskOps S, !TaskLaws S} n i ch t current src dst (k : Ipc S) :
  kinv k -> find_channel_by_id_locked n k = Some i -> chan i k = Ok ch -> count ch = 0 -> recv_refs ch <> 0 ->
  may_wait t (waits k, tasks k) -> (forall e, e ∈ wait_queue (poll k) -> we_active e = true -> we_task e <> Some t) ->
  Z.of_nat (length src) <= MAX_MSG_SIZE ->
  let u := first_served (tasks k) t (waiters (queues (waits k) (recv_waiters i))) in
  exists k1 k2, recv n (Some dst) (Z.of_nat (length dst)) (Some t) k = Ok (k1, Some dst, None) /\ task_state (tasks k1) t = Blocked /\ task_state (tasks k1) u = Blocked /\
    try_send n (Some src) (Z.of_nat (length src)) None 0 current None k1 = Ok (k2, None, VOK) /\ u ∈ ready (tasks k2) /\
    forall dst', exists k3, recv n (Some dst') (Z.of_nat (length dst')) (Some u) k2 =
      Ok (k3, Some (take (length dst') src ++ drop (length src) dst'), Some (Z.of_nat (length src))) /\ kinv k3.
Proof.
  intros Hk Hf Hch H0 Hr Hm He Hsrc u. assert (Cok := chan_inv _ _ _ Hk Hch). assert (Hcap := co_capacity _ Cok).
  destruct (find_chan n k i Hf) as (ch' & Hch' & Hlk & Hid & Ho). assert (ch' = ch) as -> by congruence.
  set (k1 := set_waits (wait_enqueue (recv_waiters i) t (waits k, tasks k)) k).
  assert (Hk1 : kinv k1) by (by apply block_kinv).
  destruct (enqueue_winv (recv_waiters i) t _ (ki_waits _ Hk) Hm) as (Hi1 & Hq1 & _). specialize (Hq1 (recv_waiters i)).
  rewrite Z.eqb_refl in Hq1. cbn [fst snd] in Hq1. assert (Hh := head_insert (tasks k) t (waiters (queues (waits k) (recv_waiters i)))). fold u in Hh.
  destruct (slot_in ch (count ch) Cok) as [_ Mok].
  destruct (send_ok i ch src (Z.of_nat (length src)) None 0 current None 0 (handles (slot ch (count ch))) None k1 Hk1 Hch Ho Hr)
    as (k2 & msg & E2 & (Hk2 & Ek2 & _ & Hw2 & _) & Hmok & Hcnt & _); [lia|done|lia|lia|done|apply Mok|ring_consts; lia|].
  rewrite Nat2Z.id, firstn_all in Hcnt. destruct (push_msg_ok ch msg Cok Hmok ltac:(lia)) as [Pok Epend]. assert (Hlt := lookup_lt_Some _ _ _ Hlk).
  assert (Ec2 : count (pushed msg ch) = 1) by (cbn; rewrite H0; done). destruct (chan_lookup _ _ _ Hch) as [Hi _].
  assert (Hch2 : chan i k2 = Ok (pushed msg ch)). { unfold chan. apply rd_Z; [lia|]. rewrite Ek2. by apply list_lookup_insert_eq. }
  assert (Hf2 : find_channel_by_id_locked n k2 = Some i).
  { unfold find_channel_by_id_locked in *. rewrite Ek2. rewrite <- Hf. by eapply find_from_insert. }
  assert (Es : slot (pushed msg ch) 0 = msg).
  { destruct (pop_msg_ok _ Pok ltac:(lia)) as [_ E]. rewrite Epend in E.
    replace (pending ch) with (@nil Message) in E; [by injection E|]. unfold pending. by rewrite H0. }
  assert (Hwait : forall v, v ∈ insert_waiter (tasks k) t (waiters (queues (waits k) (recv_waiters i))) -> task_state (tasks k1) v = Blocked).
  { intros v Hv. apply (wi_blocked _ Hi1 (recv_waiters i) v). cbn [fst]. by rewrite Hq1. }
  exists k1, k2. split.
  { unfold recv. rewrite Hf, Hch, bind_Ok. rewrite bool_decide_true by done. cbn [negb]. rewrite H0. done. }
  split. { apply Hwait. rewrite insert_perm by apply (ki_waits _ Hk). by left. }
  split. { apply Hwait. destruct (insert_waiter _ _ _); [done|]. injection Hh as ->. by left. }
  split. { unfold try_send. by rewrite (Hf : find_channel_by_id_locked n k1 = Some i). }
  split. { apply Hw2. change (waits k1) with (wait_enqueue (recv_waiters i) t (waits k, tasks k)).1. by rewrite Hq1. }
  intros dst'. destruct (recv_ok i (pushed msg ch) dst' None 0 None 0 None None k2 Hk2 Hch2 Ho ltac:(lia) eq_refl) as (k3 & E3 & (Hk3 & _)). exists k3.
  split; [|done]. rewrite (recv_as_try n i (pushed msg ch)) by (done || lia). rewrite E3, bind_Ok, Es. unfold received.
  by rewrite <- (content_length msg Hmok), Hcnt.
Qed.

(** ** A subsystem with one open channel *)

Definition blank_msg : Message :=
  mkMsg (replicate (Z.to_nat MAX_MSG_SIZE) 0) 0 0 0 (replicate (Z.to_nat MAX_HANDLES_PER_MSG) (mkTh 0 Cap.Invalid 0)).
Definition demo_chan : Channel := mkChannel 1 OPEN (replicate (Z.to_nat MAX_PENDING) blank_msg) 0 0 0 2 1 1 1.
Definition demo : Ipc Sched.Sched := mkIpc [demo_chan] 2 no_waits blank_poll (asleep 128).

#[local] Instance cpu0 : TaskOps Sched.Sched := Wait.sched_ops 0.
#[local] Instance cpu0_ok : TaskLaws Sched.Sched := sched_laws 0 ltac:(by vm_compute).

Lemma demo_kinv : kinv demo.
Proof.
  constructor.
  - apply Forall_singleton. constructor.
    + apply length_replicate.
    + apply Forall_replicate. constructor; cbn [data blank_msg handles size handle_count]; rewrite ?length_replicate; by ring_consts.
    + by ring_consts.
    + done.
    + done.
    + done.
  - apply asleep_winv. lia.
  - intros e t He Ha. cbn in He. apply elem_of_replicate in He as [-> _]. done.
Qed.

Lemma demo_may t : 0 <= t < 256 -> may_wait t (waits demo, tasks demo).
Proof. apply asleep_may. Qed.

Lemma channel_refines_witness :
  kinv demo /\ exists k', run [OSend (Some 2) 1 [7; 8]; ORecv 1 [0; 0; 0]; ORecv 1 [5]; ORecv 9 []] demo =
    Ok (k', [(VOK, []); (2, [7; 8; 0]); (VERR_WOULD_BLOCK, [5]); (VERR_INVALID_HANDLE, [])]).
Proof.
  assert (Hk := demo_kinv). split; [exact Hk|].
  destruct (channel_refines [OSend (Some 2) 1 [7; 8]; ORecv 1 [0; 0; 0]; ORecv 1 [5]; ORecv 9 []] demo Hk) as (k' & E & _). exists k'. exact E.
Defined.

(** A table whose one slot is taken. *)
Definition full_table : Cap.Table := Cap.mkTable [Cap.mkEntry 0x2000 Cap.CAP_RW Cap.NO_PARENT Cap.Channel 0] 1 1 Cap.FREE_END.
Lemma full_wf : Cap.wf full_table.
Proof.
  exists []. split; [done|done| | |apply NoDup_nil_2| |done].
  - unfold full_table. simpl. repeat apply Forall_cons_2; apply Forall_nil_2 || by split.
  - done.
  - intros i e. destruct i as [|i]; [simpl; intros [= <-]; set_solver|done].
Qed.

(** One handle is sent; the receiver whose table has room gets it, the one whose
    table is full gets none. *)
Lemma transfer_moves_witness :
  exists k1 st' k2 rt' out' h k3 out3,
    try_send_locked (Some 0) (Some [7]) 1 (Some [0]) 1 (Some 2) (Some CapSpec.demo_table) demo = Ok (k1, Some st', VOK) /\
    CapTable.abs st' = delete 0 (CapTable.abs CapSpec.demo_table) /\
    try_recv_locked (Some 0) (Some [0]) 1 (Some [0; 0; 0; 0]) Cap.CAP_READ (Some CapSpec.demo_table) k1 = Ok (k2, Some rt', Some [7], Some out', 1, 1) /\
    CapTable.abs rt' = <[h := CapTable.mkCap 0x1000 Cap.File Cap.CAP_READ]> (CapTable.abs CapSpec.demo_table) /\
    exists rt3, try_recv_locked (Some 0) (Some [0]) 1 (Some [0; 0; 0; 0]) Cap.CAP_READ (Some full_table) k1 = Ok (k3, Some rt3, Some [7], Some out3, 0, 1) /\
      CapTable.abs rt3 = CapTable.abs full_table.
Proof.
  assert (Hk := demo_kinv). assert (Hw := CapSpec.demo_wf).
  assert (H := transfer_moves 0 demo_chan [7] [0] (Some 2) CapSpec.demo_table demo Hk eq_refl eq_refl).
  destruct H as (k1 & st' & ch' & msg & E1 & A1 & Hk1 & Hc1 & O1 & P1 & Hrecv);
    [done|by vm_compute|by vm_compute|cbn; lia|repeat constructor; by vm_compute|done|].
  assert (Hh : head (pending ch') = Some msg) by (by rewrite P1).
  destruct (Hrecv k1 ch' CapSpec.demo_table Cap.CAP_READ [0; 0; 0; 0] [0] Hk1 Hc1 O1 Hh Hw eq_refl) as (k2 & rt' & out' & new & E2 & _ & F2 & A2 & _).
  destruct (Hrecv k1 ch' full_table Cap.CAP_READ [0; 0; 0; 0] [0] Hk1 Hc1 O1 Hh full_wf eq_refl) as (k3 & rt3 & out3 & new3 & E3 & _ & F3 & A3 & _).
  destruct new as [|h [|? ?]]; [destruct F2| |destruct F2 as [_ []]]. destruct new3 as [|? ?]; [|destruct F3].
  exists k1, st', k2, rt', out', h, k3, out3. split; [exact E1|]. split; [exact A1|]. split; [exact E2|]. split; [exact A2|]. exists rt3. split; [exact E3|exact A3].
Defined.

Lemma no_events e : e ∈ wait_queue (poll demo) -> we_active e = true -> False.
Proof. intros He Ha. cbn in He. apply elem_of_replicate in He as [-> _]. done. Qed.

(** Task 4 waits on the channel. *)
Definition crowded : Ipc Sched.Sched := set_waits (wait_enqueue (recv_waiters 0) 4 (waits demo, tasks demo)) demo.
Lemma crowded_kinv : kinv crowded.
Proof. apply block_kinv; [exact demo_kinv|apply demo_may; lia|]. intros e He Ha. destruct (no_events e He Ha). Qed.
Lemma crowded_may : may_wait 3 (waits crowded, tasks crowded).
Proof. split; [by vm_compute|]. split; [by vm_compute|]. apply (bool_decide_unpack _). by vm_compute. Qed.

(** Task 3 alone is served; after task 4, which has the same priority, task 4 is. *)
Lemma blocked_receiver_served_witness :
  (exists k1 k2 k3, recv 1 (Some [0; 0]) 2 (Some 3) demo = Ok (k1, Some [0; 0], None) /\
    try_send 1 (Some [4]) 1 None 0 (Some 2) None k1 = Ok (k2, None, VOK) /\ 3 ∈ ready (tasks k2) /\
    recv 1 (Some [0; 0]) 2 (Some 3) k2 = Ok (k3, Some [4; 0], Some 1)) /\
  exists k1 k2 k3, recv 1 (Some [0; 0]) 2 (Some 3) crowded = Ok (k1, Some [0; 0], None) /\
    try_send 1 (Some [4]) 1 None 0 (Some 2) None k1 = Ok (k2, None, VOK) /\ 4 ∈ ready (tasks k2) /\
    recv 1 (Some [9]) 1 (Some 4) k2 = Ok (k3, Some [4], Some 1).
Proof.
  split.
  - destruct (blocked_receiver_served 1 0 demo_chan 3 (Some 2) [4] [0; 0] demo demo_kinv eq_refl eq_refl eq_refl) as (k1 & k2 & E1 & _ & _ & E2 & Hr & Hget).
    + done.
    + apply demo_may. lia.
    + intros e He Ha. destruct (no_events e He Ha).
    + by vm_compute.
    + destruct (Hget [0; 0]) as (k3 & E3 & _). exists k1, k2, k3. split; [exact E1|]. split; [exact E2|]. split; [exact Hr|exact E3].
  - destruct (blocked_receiver_served 1 0 demo_chan 3 (Some 2) [4] [0; 0] crowded crowded_kinv eq_refl eq_refl eq_refl) as (k1 & k2 & E1 & _ & _ & E2 & Hr & Hget).
    + done.
    + exact crowded_may.
    + intros e He Ha. destruct (no_events e He Ha).
    + by vm_compute.
    + destruct (Hget [9]) as (k3 & E3 & _). exists k1, k2, k3. split; [exact E1|]. split; [exact E2|]. split; [exact Hr|exact E3].
Defined.

End ChannelSpec.
