(* ===== verification/PollSet.v ===== *)
(** * Polling channels, timers and the console

    Models [poll::poll] of [src/kernel/ipc/poll.cpp] and
    [src/kernel/ipc/pollset.cpp], [pollset.hpp].  Whether the console has input
    ([console_ready]), the time, the current task and its capability table are
    arguments; [id_of] is [kobj::Channel::id] of an object.  A wait that blocks is
    split at the call of [task::yield]. *)

From S2P Require Import Prelude Task Cap Wait Poll Channel.

Module PollSet.
Import Task Wait Poll Channel.
#[local] Existing Instance Cap.Kind_eq_dec.

Definition VERR_PERMISSION : Z := -6.
Definition MAX_POLL_EVENTS : Z := 16.
Definition MAX_POLL_SETS : Z := 16.
Definition MAX_ENTRIES_PER_SET : Z := 16.
Definition HANDLE_CONSOLE_INPUT : Z := 0xFFFF0001.
Definition HANDLE_NETWORK_RX : Z := 0xFFFF0002.
Definition EDGE_TRIGGERED : Z := Z.shiftl 1 0.
Definition ONESHOT : Z := Z.shiftl 1 1.
Definition PSEUDO_POLL_INTERVAL_MS : Z := 10.
Definition has_flag (flags check : Z) : bool := negb (Z.land flags check =? 0).

Record PollEvent := mkEv { ev_handle : Z; ev_events : Z; triggered : Z }.

Record PollEntry := mkPE { pe_handle : Z; mask : Z; flags : Z; last_state : Z; pe_active : bool }.
Record PollSet := mkPS { ps_id : Z; ps_active : bool; owner_task_id : Z; entries : list PollEntry; entry_count : Z }.
Record PollSets := mkSets { poll_sets : list PollSet; next_poll_set_id : Z }.

Definition set_pe_active b e := mkPE (pe_handle e) (mask e) (flags e) (last_state e) b.
Definition set_last x e := mkPE (pe_handle e) (mask e) (flags e) x (pe_active e).
Definition set_entries_ps l n s := mkPS (ps_id s) (ps_active s) (owner_task_id s) l n.

(** ** The table *)

Definition init (x : PollSets) : PollSets :=
  mkSets ((fun s => mkPS 0 false (owner_task_id s) (set_pe_active false <$> entries s) 0) <$> poll_sets x) (next_poll_set_id x).
Definition get (n : Z) (x : PollSets) : option Z := find_from (fun s => ps_active s && (ps_id s =? n)) 0 (poll_sets x).
Definition alloc_poll_set (x : PollSets) : option Z := find_from (fun s => negb (ps_active s)) 0 (poll_sets x).

Definition create (current : option Z) (x : PollSets) : res (PollSets * Z) :=
  match alloc_poll_set x with
  | None => Ok (x, VERR_OUT_OF_MEMORY)
  | Some i =>
      s ← rd (poll_sets x) i;
      l ← wr (poll_sets x) i (mkPS (next_poll_set_id x) true (sender current) (set_pe_active false <$> entries s) 0);
      Ok (mkSets l (u32 (next_poll_set_id x + 1)), next_poll_set_id x)
  end.

Definition is_owner (n : Z) (current : option Z) (x : PollSets) : res bool :=
  match get n x with
  | None => Ok false
  | Some i => s ← rd (poll_sets x) i; Ok (bool_decide (current = Some (owner_task_id s)))
  end.

(** Another task than the owner. *)
Definition foreign (current : option Z) (s : PollSet) : bool :=
  match current with Some t => negb (owner_task_id s =? t) | None => false end.

Definition put_set (i : Z) (s : PollSet) (x : PollSets) : res PollSets :=
  l ← wr (poll_sets x) i s; Ok (mkSets l (next_poll_set_id x)).

Definition entry_for (h : Z) (e : PollEntry) : bool := pe_active e && (pe_handle e =? h).

Definition add (n h m fl : Z) (current : option Z) (x : PollSets) : res (PollSets * Z) :=
  match get n x with
  | None => Ok (x, VERR_NOT_FOUND)
  | Some i =>
      s ← rd (poll_sets x) i;
      if foreign current s then Ok (x, VERR_PERMISSION)
      else
        match find_from (entry_for h) 0 (entries s) with
        | Some j =>
            e ← rd (entries s) j;
            l ← wr (entries s) j (mkPE (pe_handle e) m fl (last_state e) (pe_active e));
            x ← put_set i (set_entries_ps l (entry_count s) s) x; Ok (x, VOK)
        | None =>
            match find_from (fun e => negb (pe_active e)) 0 (entries s) with
            | Some j =>
                l ← wr (entries s) j (mkPE h m fl NONE true);
                x ← put_set i (set_entries_ps l (u32 (entry_count s + 1)) s) x; Ok (x, VOK)
            | None => Ok (x, VERR_OUT_OF_MEMORY)
            end
        end
  end.

Definition remove (n h : Z) (x : PollSets) : res (PollSets * Z) :=
  match get n x with
  | None => Ok (x, VERR_NOT_FOUND)
  | Some i =>
      s ← rd (poll_sets x) i;
      match find_from (entry_for h) 0 (entries s) with
      | Some j =>
          e ← rd (entries s) j;
          l ← wr (entries s) j (set_pe_active false e);
          x ← put_set i (set_entries_ps l (u32 (entry_count s - 1)) s) x; Ok (x, VOK)
      | None => Ok (x, VERR_NOT_FOUND)
      end
  end.

Definition destroy (n : Z) (x : PollSets) : res (PollSets * Z) :=
  match get n x with
  | None => Ok (x, VERR_NOT_FOUND)
  | Some i =>
      s ← rd (poll_sets x) i;
      x ← put_set i (mkPS 0 false (owner_task_id s) (set_pe_active false <$> entries s) 0) x; Ok (x, VOK)
  end.

Section tasks.
Context {S : Type} {TO : TaskOps S}.
Context (id_of : Z -> Z) (console_ready : bool).

(** ** [poll::poll] *)

(** One event of the list: its triggered mask and how many conditions hold. *)
Definition poll_event (now : Z) (k : Ipc S) (ev : PollEvent) : res (PollEvent * Z) :=
  r ← (if has_event (ev_events ev) CHANNEL_READ then has_message (ev_handle ev) k else Ok false);
  w ← (if has_event (ev_events ev) CHANNEL_WRITE then has_space (ev_handle ev) k else Ok false);
  t ← (if has_event (ev_events ev) TIMER then timer_expired now (ev_handle ev) (poll k) else Ok false);
  let c := (ev_handle ev =? HANDLE_CONSOLE_INPUT) && has_event (ev_events ev) CONSOLE_INPUT && console_ready in
  let bit (b : bool) (m : Z) := if b then m else NONE in
  Ok (mkEv (ev_handle ev) (ev_events ev)
        (Z.lor (Z.lor (Z.lor (Z.lor NONE (bit r CHANNEL_READ)) (bit w CHANNEL_WRITE)) (bit t TIMER)) (bit c CONSOLE_INPUT)),
      Z.b2z r + Z.b2z w + Z.b2z t + Z.b2z c).

Fixpoint poll_events (now : Z) (k : Ipc S) (evs : list PollEvent) : res (list PollEvent * Z) :=
  match evs with
  | [] => Ok ([], 0)
  | ev :: evs => '(ev, n) ← poll_event now k ev; '(evs, m) ← poll_events now k evs; Ok (ev :: evs, u32 (n + m))
  end.

(** One round of [poll]; [None]: yield and try again. *)
Definition poll_round (now timeout_ms deadline : Z) (k : Ipc S) (evs : list PollEvent) : res (list PollEvent * option Z) :=
  if bool_decide (evs = []) || (MAX_POLL_EVENTS <? Z.of_nat (length evs)) then Ok (evs, Some VERR_INVALID_ARG)
  else
    '(evs, n) ← poll_events now k evs;
    if 0 <? n then Ok (evs, Some n)
    else if timeout_ms =? 0 then Ok (evs, Some 0)
    else if (0 <? timeout_ms) && (deadline <=? now) then Ok (evs, Some 0)
    else Ok (evs, None).

(** ** Poll sets *)

(** The channel a handle of the set denotes; 0 if there is none. *)
Definition channel_of (ct : option Cap.Table) (h : Z) : res Z :=
  match ct with
  | None => Ok h
  | Some ct =>
      r ← Cap.get ct h;
      match r with
      | None => Ok 0
      | Some i =>
          e ← rd (Cap.entries ct) i;
          if bool_decide (Cap.kind e = Cap.Channel) && negb (Cap.object e =? 0) then Ok (id_of (Cap.object e)) else Ok 0
      end
  end.

Definition check_readiness (now h m : Z) (ct : option Cap.Table) (k : Ipc S) : res Z :=
  if h =? HANDLE_CONSOLE_INPUT then
    Ok (if has_event m CONSOLE_INPUT && console_ready then Z.lor NONE CONSOLE_INPUT else NONE)
  else if h =? HANDLE_NETWORK_RX then Ok NONE
  else
    c ← (if has_event m CHANNEL_READ || has_event m CHANNEL_WRITE then channel_of ct h else Ok 0);
    r ← (if has_event m CHANNEL_READ && negb (c =? 0) then has_message c k else Ok false);
    w ← (if has_event m CHANNEL_WRITE && negb (c =? 0) then has_space c k else Ok false);
    t ← (if has_event m TIMER then timer_expired now h (poll k) else Ok false);
    let bit (b : bool) (m : Z) := if b then m else NONE in
    Ok (Z.lor (Z.lor (Z.lor NONE (bit r CHANNEL_READ)) (bit w CHANNEL_WRITE)) (bit t TIMER)).

Definition check_entry_readiness (now : Z) (ct : option Cap.Table) (k : Ipc S) (e : PollEntry) : res (PollEntry * Z) :=
  current_state ← check_readiness now (pe_handle e) (mask e) ct k;
  if negb (has_flag (flags e) EDGE_TRIGGERED) then Ok (e, current_state)
  else Ok (set_last current_state e, Z.land current_state (u32 (Z.lnot (last_state e)))).

Definition pseudo (h : Z) : bool := (h =? HANDLE_CONSOLE_INPUT) || (h =? HANDLE_NETWORK_RX).

(** [scan_ready]: the entries after the scan, the new number of entries, the
    events found (at most [max]), and whether there is a pseudo-handle. *)
Fixpoint scan_ready (now : Z) (ct : option Cap.Table) (k : Ipc S) (max : nat) (es : list PollEntry) (cnt : Z)
  : res (list PollEntry * Z * list PollEvent * bool) :=
  match es with
  | [] => Ok ([], cnt, [], false)
  | e :: es' =>
      match max with
      | O => Ok (es, cnt, [], false)
      | Datatypes.S max' =>
          if negb (pe_active e) then
            '(r, cnt, evs, p) ← scan_ready now ct k max es' cnt; Ok (e :: r, cnt, evs, p)
          else
            '(e', tr) ← check_entry_readiness now ct k e;
            if negb (tr =? NONE) then
              let one := has_flag (flags e') ONESHOT in
              '(r, cnt, evs, p) ← scan_ready now ct k max' es' (if one then u32 (cnt - 1) else cnt);
              Ok ((if one then set_pe_active false e' else e') :: r, cnt, mkEv (pe_handle e) (mask e) tr :: evs, pseudo (pe_handle e) || p)
            else
              '(r, cnt, evs, p) ← scan_ready now ct k max es' cnt;
              Ok (e' :: r, cnt, evs, pseudo (pe_handle e) || p)
      end
  end.

(** Scans set [i] and stores the entries back. *)
Definition scan (now : Z) (ct : option Cap.Table) (i max : Z) (x : PollSets) (k : Ipc S) : res (PollSets * list PollEvent * bool) :=
  s ← rd (poll_sets x) i;
  '(es, cnt, evs, p) ← scan_ready now ct k (Z.to_nat max) (entries s) (entry_count s);
  x ← put_set i (set_entries_ps es cnt s) x;
  Ok (x, evs, p).

(** Registers the current task for the entries that are no pseudo-handles. *)
Definition register_all (ct : option Cap.Table) (current : option Z) (es : list PollEntry) (p : Poll) : res Poll :=
  foldM (fun p e => if pe_active e && negb (pseudo (pe_handle e)) then register_wait id_of ct (pe_handle e) (mask e) current p else Ok p) es p.

(** How a wait proceeds: it returns events, or it yields; then the task resumes
    with the timer to cancel, if any. *)
Inductive outcome := Return (code : Z) (evs : list PollEvent) | Yield (timer : option Z).

(** The infinite wait, up to [yield]. *)
Definition wait_forever (now max i : Z) (ct : option Cap.Table) (current : option Z) (x : PollSets) (k : Ipc S)
  : res (PollSets * Ipc S * outcome) :=
  '(x, evs, has_pseudo) ← scan now ct i max x k;
  if (0 <? Z.of_nat (length evs)) then Ok (x, k, Return (Z.of_nat (length evs)) evs)
  else
    s ← rd (poll_sets x) i;
    p ← register_all ct current (entries s) (poll k);
    let has_channel := existsb (fun e => pe_active e && negb (pseudo (pe_handle e))) (entries s) in
    if (has_pseudo : bool) then
      '(p, r) ← timer_create now PSEUDO_POLL_INTERVAL_MS p;
      if 0 <=? r then
        y ← register_timer_wait_and_block (u32 r) current (p, tasks k);
        Ok (x, set_poll y k, Yield (if u32 r =? 0 then None else Some (u32 r)))
      else
        Ok (x, set_poll (p, match current with Some t => set_task_state t Blocked (tasks k) | None => tasks k end) k, Yield None)
    else if has_channel then
      Ok (x, set_poll (p, match current with Some t => set_task_state t Blocked (tasks k) | None => tasks k end) k, Yield None)
    else Ok (x, set_poll (p, tasks k) k, Yield None).

(** [wait] up to its first [yield]. *)
Definition wait (now n : Z) (max : option Z) (timeout_ms : Z) (ct : option Cap.Table) (current : option Z) (x : PollSets) (k : Ipc S)
  : res (PollSets * Ipc S * outcome) :=
  match get n x with
  | None => Ok (x, k, Return VERR_NOT_FOUND [])
  | Some i =>
      match max with
      | None => Ok (x, k, Return VERR_INVALID_ARG [])
      | Some max =>
          if max =? 0 then Ok (x, k, Return VERR_INVALID_ARG [])
          else
            s ← rd (poll_sets x) i;
            if foreign current s then Ok (x, k, Return VERR_PERMISSION [])
            else if timeout_ms =? 0 then
              '(x, evs, _) ← scan now ct i max x k; Ok (x, k, Return (Z.of_nat (length evs)) evs)
            else if 0 <? timeout_ms then
              '(p, r) ← timer_create now timeout_ms (poll k);
              if r <? 0 then
                '(x, evs, _) ← scan now ct i max x k; Ok (x, set_poll (p, tasks k) k, Return (Z.of_nat (length evs)) evs)
              else
                p ← register_all ct current (entries s) p;
                y ← register_timer_wait_and_block (u32 r) current (p, tasks k);
                Ok (x, set_poll y k, Yield (Some (u32 r)))
            else wait_forever now max i ct current x k
      end
  end.

(** After [yield]: the clean-up, and the rest of the timed wait. *)
Definition resume (timer : option Z) (current : option Z) (k : Ipc S) : res (Ipc S) :=
  '(p, s) ← match timer with
            | Some id => '(p, s, _) ← timer_cancel id (poll k, tasks k); Ok (p, s)
            | None => Ok (poll k, tasks k)
            end;
  Ok (set_poll (unregister_wait current p, s) k).

Definition resume_timed (now i max timer : Z) (ct : option Cap.Table) (current : option Z) (x : PollSets) (k : Ipc S)
  : res (PollSets * Ipc S * list PollEvent) :=
  k ← resume (Some timer) current k;
  '(x, evs, _) ← scan now ct i max x k;
  Ok (x, k, evs).

End tasks.
End PollSet.
