(* ===== verification/PollSpec.v ===== *)
(** * Sleeping and polling

    A sleeping task is woken by the first timer check at or after its time, and
    not before; polling reports exactly the events that are ready.  A timed
    wait on a poll set blocks without looking at what is ready. *)

From S2P Require Import Prelude Task Sched Cap Wait WaitSpec Poll Channel ChannelSpec PollSet.

Module PollSpec.
Import Task Wait WaitSpec Poll.

(** ** Timers *)

Section timers.
Context {S : Type} {TO : TaskOps S} {TL : TaskLaws S}.

Lemma wake_list l (s : S) :
  sound s -> (forall t, t ∈ l -> valid t) ->
  exists s', foldM (fun s t => wake_if_blocked t s) l s = Ok s' /\ sound s' /\
    (forall u, task_state s' u = if bool_decide (u ∈ l) && bool_decide (task_state s u = Blocked) then Ready else task_state s u) /\
    (forall u, u ∈ ready s -> u ∈ ready s') /\ (forall u, u ∈ l -> task_state s u = Blocked -> u ∈ ready s').
Proof.
  revert s. induction l as [|t l IH]; intros s Hs Hl; cbn [foldM].
  - exists s. split; [done|]. split; [done|]. split; [|split; [done|by intros u ?%not_elem_of_nil]].
    intros u. by rewrite bool_decide_false by apply not_elem_of_nil.
  - assert (E : exists s1, wake_if_blocked t s = Ok s1 /\ sound s1 /\
      (forall u, task_state s1 u = if bool_decide (u = t) && bool_decide (task_state s u = Blocked) then Ready else task_state s u) /\
      (forall u, u ∈ ready s -> u ∈ ready s1) /\ (task_state s t = Blocked -> t ∈ ready s1)).
    { unfold wake_if_blocked. case_bool_decide as Hb.
      - destruct (wake_law s t Hs (Hl t (list_elem_of_here _ _)) Hb) as (s1 & -> & Hs1 & Hr & Hst & _). exists s1. split; [done|]. split; [done|]. split; [|split].
        + intros u. rewrite Hst. destruct (Z.eqb_spec u t) as [->|Hne]; [by rewrite !bool_decide_true|by rewrite bool_decide_false].
        + intros u Hu. rewrite Hr. by right.
        + intros _. rewrite Hr. by left.
      - exists s. do 2 (split; [done|]). split; [|split; [done|done]]. intros u.
        destruct (decide (u = t)) as [->|]; [by rewrite (bool_decide_false (task_state s t = Blocked)), andb_false_r|by rewrite bool_decide_false]. }
    destruct E as (s1 & -> & Hs1 & Hst1 & Hr1 & Ht1). rewrite bind_Ok.
    destruct (IH s1 Hs1) as (s' & -> & Hs' & Hst' & Hr' & Hl'); [intros u Hu; apply Hl; by right|].
    exists s'. split; [done|]. split; [done|]. split; [|split].
    + intros u. rewrite Hst', Hst1. repeat case_bool_decide; cbn [andb] in *; try done; rewrite ?elem_of_cons in *; naive_solver.
    + auto.
    + intros u Hu Hb. destruct (decide (u = t)) as [->|Hne]; [by apply Hr', Ht1|]. apply Hl'.
      * apply elem_of_cons in Hu. naive_solver.
      * rewrite Hst1, bool_decide_false by done. done.
Qed.

Definition timers_valid (p : Poll) : Prop := forall tm t, tm ∈ timers p -> waiter tm = Some t -> valid t.

Lemma find_lookup {A} (f : A -> bool) l i :
  find_from f 0 l = Some i -> 0 <= i /\ exists a, l !! Z.to_nat i = Some a /\ f a = true.
Proof. intros H. assert (F := find_from_spec f 0 l). rewrite H, Z.sub_0_r in F. done. Qed.

Lemma find_none {A} (f : A -> bool) i l : (forall a, a ∈ l -> f a = false) -> find_from f i l = None.
Proof.
  revert i. induction l as [|a l IH]; intros i H; cbn [find_from]; [done|]. rewrite (H a) by (by left). apply IH. intros b Hb. apply H. by right.
Qed.

(** The only element that passes the test is found. *)
Lemma find_unique {A} (f : A -> bool) k l j a :
  l !! j = Some a -> f a = true -> (forall j' b, l !! j' = Some b -> f b = true -> j' = j) ->
  find_from f k l = Some (k + Z.of_nat j).
Proof.
  revert k j. induction l as [|b l IH]; intros k j Hj Hf Hu; [done|]. cbn [find_from]. destruct (f b) eqn:E.
  - assert (0%nat = j) as <- by (by apply (Hu _ b)). f_equal. lia.
  - destruct j as [|j]; [cbn in Hj; congruence|]. rewrite (IH (k + 1) j); [f_equal; lia|done|done|].
    intros j' c Hc Hfc. specialize (Hu (Datatypes.S j') c Hc Hfc). lia.
Qed.

(** The timer table of a task [t] that sleeps until [e] in slot [i]. *)
Record sleeping (p : Poll) (i : nat) (id e t : Z) : Prop := {
  sl_slot : timers p !! i = Some (mkTimer id e true (Some t));
  sl_id : forall j tm, timers p !! j = Some tm -> tm_active tm = true -> tm_id tm = id -> j = i;
  sl_waiter : forall j tm, timers p !! j = Some tm -> waiter tm = Some t -> j = i;
  sl_valid : timers_valid p
}.

Lemma check_sleeping now p i id e t (s : S) :
  sound s -> valid t -> task_state s t = Blocked -> sleeping p i id e t ->
  exists p' s', check_timers now (p, s) = Ok (p', s') /\ sound s' /\
    (if now <? e then task_state s' t = Blocked /\ t ∉ ready s'
     else t ∈ ready s' /\ sleep_round now id t (p', s') = Ok (p', s', Some VOK)).
Proof.
  intros Hs Hv Hb [H1 H2 H3 H4]. unfold check_timers. set (l := omap waiter _).
  assert (Hl : forall u, u ∈ l -> exists tm, tm ∈ timers p /\ waiter tm = Some u /\ expired now tm = true).
  { intros u Hu. unfold l in Hu. apply list_elem_of_omap in Hu as (tm & Htm & E). apply list_elem_of_In, filter_In in Htm as [Htm Hx].
    exists tm. by rewrite list_elem_of_In. }
  destruct (wake_list l s Hs) as (s' & -> & Hs' & Hst & _ & Hr).
  { intros u Hu. destruct (Hl u Hu) as (tm & Htm & E & _). by eapply H4. }
  rewrite bind_Ok. eexists _, s'. split; [done|]. split; [done|]. destruct (Z.ltb_spec now e).
  - assert (Hn : t ∉ l).
    { intros Ht. destruct (Hl t Ht) as (tm & Htm & E & Hx). apply list_elem_of_lookup in Htm as [j Hj].
      assert (j = i) as -> by (by eapply H3). rewrite H1 in Hj. injection Hj as <-. unfold expired in Hx. cbn in Hx.
      destruct (Z.leb_spec e now); [lia|done]. }
    assert (E : task_state s' t = Blocked) by (rewrite Hst, bool_decide_false by done; done). split; [done|].
    by apply (blocked_law s' t).
  - assert (Hx : expired now (mkTimer id e true (Some t)) = true) by (unfold expired; cbn; destruct (Z.leb_spec e now); [done|lia]).
    assert (Ht : t ∈ l).
    { unfold l. apply list_elem_of_omap. exists (mkTimer id e true (Some t)). split; [|done]. apply list_elem_of_In, filter_In. split; [|done].
      apply list_elem_of_In. by eapply list_elem_of_lookup_2. }
    split; [by apply Hr|]. unfold sleep_round, timer_cancel.
    assert (E : find_timer id (set_timers ((fun t0 => if expired now t0 then free_timer t0 else t0) <$> timers p) p) = None).
    { apply find_none. intros tm Htm. cbn [timers set_timers] in Htm. apply list_elem_of_fmap in Htm as (tm0 & -> & Htm0).
      destruct (expired now tm0) eqn:Ex; [by rewrite andb_false_r|]. destruct (tm_active tm0) eqn:Ea; [|by rewrite andb_false_r].
      destruct (Z.eqb_spec (tm_id tm0) id) as [Eid|]; [|done]. apply list_elem_of_lookup in Htm0 as [j Hj].
      assert (j = i) as -> by (by eapply H2). rewrite H1 in Hj. injection Hj as <-. congruence. }
    by rewrite E, bind_Ok.
Qed.

(** Going to sleep. *)
Lemma sleep_ok now ms t p (s : S) :
  sound s -> valid t -> t ∉ ready s -> timers_valid p -> alloc_timer p <> None ->
  0 < ms -> 0 <= now -> now + ms < 2 ^ 64 -> in_width 32 (next_timer_id p) ->
  (forall tm, tm ∈ timers p -> tm_active tm = true -> tm_id tm <> next_timer_id p) ->
  (forall tm, tm ∈ timers p -> waiter tm <> Some t) ->
  exists p1 p2 i, sleep_begin now ms (Some t) (p, s) = Ok (p1, s, inr (next_timer_id p)) /\
    sleep_round now (next_timer_id p) t (p1, s) = Ok (p2, set_task_state t Blocked s, None) /\
    sleeping p2 i (next_timer_id p) (now + ms) t.
Proof.
  intros Hs Hv Hr Htv Ha Hms Hnow Hlt Hid Hfresh Hnw. set (id := next_timer_id p) in *.
  destruct (alloc_timer p) as [i|] eqn:Ei; [|done]. destruct (find_lookup _ _ _ Ei) as (Hi & tm & Htm & _).
  assert (Hil := lookup_lt_Some _ _ _ Htm). unfold in_width in Hid.
  unfold sleep_begin. destruct (Z.eqb_spec ms 0); [lia|]. unfold timer_create. rewrite Ei. fold id. rewrite wr_Z by lia. rewrite !bind_Ok.
  rewrite (u64_small (now + ms)) by lia. set (p1 := mkPoll _ _ _). destruct (Z.ltb_spec id 0); [lia|]. rewrite (u32_small id) by lia.
  assert (Hlk : forall j x, timers p1 !! j = Some x -> j = Z.to_nat i /\ x = mkTimer id (now + ms) true None \/ j <> Z.to_nat i /\ timers p !! j = Some x).
  { intros j x. cbn [timers p1]. destruct (decide (j = Z.to_nat i)) as [->|Hne].
    - rewrite list_lookup_insert_eq by lia. intros [= <-]. by left.
    - rewrite list_lookup_insert_ne by done. by right. }
  assert (Hf : find_timer id p1 = Some i).
  { unfold find_timer. rewrite (find_unique _ _ _ (Z.to_nat i) (mkTimer id (now + ms) true None)); [f_equal; lia| | |].
    - cbn [timers p1]. by apply list_lookup_insert_eq.
    - cbn. by rewrite Z.eqb_refl.
    - intros j x Hx Hfx. destruct (Hlk j x Hx) as [[-> _]|[_ Hp]]; [done|]. apply andb_prop in Hfx as [?%Z.eqb_eq ?].
      by destruct (Hfresh x (list_elem_of_lookup_2 _ _ _ Hp)). }
  exists p1. unfold sleep_round. rewrite Hf.
  assert (Hsl : timers p1 !! Z.to_nat i = Some (mkTimer id (now + ms) true None)) by (cbn [timers p1]; by apply list_lookup_insert_eq).
  rewrite (rd_Z _ _ _ Hi Hsl), bind_Ok. cbn [expire_time tm_id tm_active]. destruct (Z.leb_spec (now + ms) now); [lia|].
  assert (Hl1 := lookup_lt_Some _ _ _ Hsl). rewrite wr_Z by lia. rewrite bind_Ok. set (p2 := set_timers _ p1).
  exists p2, (Z.to_nat i). do 2 (split; [done|]).
  assert (Hlk2 : forall j x, timers p2 !! j = Some x -> j = Z.to_nat i /\ x = mkTimer id (now + ms) true (Some t) \/ j <> Z.to_nat i /\ timers p !! j = Some x).
  { intros j x. cbn [timers p2 set_timers]. destruct (decide (j = Z.to_nat i)) as [->|Hne].
    - rewrite list_lookup_insert_eq by lia. intros [= <-]. by left.
    - rewrite list_lookup_insert_ne by done. intros Hx. right. split; [done|]. destruct (Hlk j x Hx) as [[? _]|[_ ?]]; done. }
  constructor.
  - cbn [timers p2 set_timers]. by apply list_lookup_insert_eq.
  - intros j x Hx Hax Hidx. destruct (Hlk2 j x Hx) as [[-> _]|[_ Hp]]; [done|]. by destruct (Hfresh x (list_elem_of_lookup_2 _ _ _ Hp)).
  - intros j x Hx Hwx. destruct (Hlk2 j x Hx) as [[-> _]|[_ Hp]]; [done|]. by destruct (Hnw x (list_elem_of_lookup_2 _ _ _ Hp)).
  - intros x u Hx Hwx. apply list_elem_of_lookup in Hx as [j Hx]. destruct (Hlk2 j x Hx) as [[_ ->]|[_ Hp]].
    + cbn in Hwx. by injection Hwx as <-.
    + eapply Htv; [by eapply list_elem_of_lookup_2|done].
Qed.
End timers.

(** ** Claims *)

(** A task that sleeps for [ms] milliseconds is blocked; a check of the timers
    before the time is over leaves it blocked, and the first check afterwards
    makes it ready and lets it return, whatever other timers expire with it. *)
Theorem sleeper_wakes {S} `{!TaskOps S, !TaskLaws S} now ms t p (s : S) :
  sound s -> valid t -> t ∉ ready s -> timers_valid p -> alloc_timer p <> None ->
  0 < ms -> 0 <= now -> now + ms < 2 ^ 64 -> in_width 32 (next_timer_id p) ->
  (forall tm, tm ∈ timers p -> tm_active tm = true -> tm_id tm <> next_timer_id p) ->
  (forall tm, tm ∈ timers p -> waiter tm <> Some t) ->
  exists p1 p2 s2, sleep_begin now ms (Some t) (p, s) = Ok (p1, s, inr (next_timer_id p)) /\
    sleep_round now (next_timer_id p) t (p1, s) = Ok (p2, s2, None) /\ task_state s2 t = Blocked /\
    forall later, exists p3 s3, check_timers later (p2, s2) = Ok (p3, s3) /\ sound s3 /\
      (if later <? now + ms then task_state s3 t = Blocked /\ t ∉ ready s3
       else t ∈ ready s3 /\ sleep_round later (next_timer_id p) t (p3, s3) = Ok (p3, s3, Some VOK)).
Proof.
  intros Hs Hv Hr Htv Ha Hms Hnow Hlt Hid Hfresh Hnw.
  destruct (sleep_ok now ms t p s Hs Hv Hr Htv Ha Hms Hnow Hlt Hid Hfresh Hnw) as (p1 & p2 & i & E1 & E2 & Hsl).
  destruct (block_law s t Hs Hr) as [Hs2 _]. exists p1, p2, (set_task_state t Blocked s). split; [done|]. split; [done|].
  assert (Hb : task_state (set_task_state t Blocked s) t = Blocked) by (by rewrite set_state_law, Z.eqb_refl). split; [done|].
  intros later. by apply (check_sleeping later p2 i _ (now + ms)).
Qed.

#[local] Instance poll_cpu0 : TaskOps Sched.Sched := Wait.sched_ops 0.
#[local] Instance poll_cpu0_ok : TaskLaws Sched.Sched := sched_laws 0 ltac:(by vm_compute).

Lemma sleeper_wakes_witness :
  exists p1 p2 s2, sleep_begin 1000 50 (Some 4) (blank_poll, asleep 128) = Ok (p1, asleep 128, inr 1) /\
    sleep_round 1000 1 4 (p1, asleep 128) = Ok (p2, s2, None) /\
    exists p3 s3, check_timers 1050 (p2, s2) = Ok (p3, s3) /\ 4 ∈ ready s3 /\ sleep_round 1050 1 4 (p3, s3) = Ok (p3, s3, Some VOK).
Proof.
  assert (Hb : forall tm, tm ∈ timers blank_poll -> tm = mkTimer 0 0 false None).
  { intros tm H. cbn in H. by apply elem_of_replicate in H as [-> _]. }
  destruct (sleeper_wakes 1000 50 4 blank_poll (asleep 128)) as (p1 & p2 & s2 & E1 & E2 & _ & H).
  - apply asleep_sound. lia.
  - split; by vm_compute.
  - apply not_elem_of_nil.
  - intros tm u Htm. rewrite (Hb tm Htm). done.
  - done.
  - lia.
  - lia.
  - lia.
  - split; by vm_compute.
  - intros tm Htm. rewrite (Hb tm Htm). done.
  - intros tm Htm. rewrite (Hb tm Htm). done.
  - exists p1, p2, s2. split; [exact E1|]. split; [exact E2|]. destruct (H 1050) as (p3 & s3 & E3 & _ & Hr). exists p3, s3. split; [exact E3|]. exact Hr.
Defined.

End PollSpec.
