(* ===== verification/PollSetSpec.v ===== *)
(** * Polling reports what is ready, and a message wakes a waiting task

    The events a scan of a poll set reports, in terms of the queues behind the
    channels, the timers and the handle map of the task; and the wake-up of a
    task that waits on a poll set when a message is sent to one of its
    channels. *)

From S2P Require Import Prelude Task Sched Cap CapTable CapSpec Wait WaitSpec Poll Channel ChannelSpec PollSet.

Module PollSetSpec.
Import Task Wait WaitSpec Poll Channel ChannelSpec PollSet.
#[local] Existing Instance Cap.Kind_eq_dec.

Lemma get_nonneg n x i : get n x = Some i -> 0 <= i.
Proof.
  unfold get. intros Hg. assert (F := find_from_spec (fun s => ps_active s && (ps_id s =? n)) 0 (poll_sets x)). rewrite Hg in F. apply F.
Qed.

(** ** What is ready *)

Section tasks.
Context {S : Type} {TO : TaskOps S} {TL : TaskLaws S}.
Context (id_of : Z -> Z) (console_ready : bool).
Implicit Type k : Ipc S.

Definition can_read (n : Z) k : bool :=
  match queue_of n k with Some q => negb (bool_decide (msgs q = [])) | None => false end.
Definition can_write (n : Z) k : bool :=
  match queue_of n k with Some q => Z.of_nat (length (msgs q)) <? room q | None => false end.
(** A timer that is not running counts as expired. *)
Definition timer_done (now h : Z) (p : Poll) : bool :=
  match List.find (fun t => (tm_id t =? h) && tm_active t) (timers p) with
  | Some t => expire_time t <=? now
  | None => true
  end.
(** The channel a handle denotes; without a table, handles are channel identifiers. *)
Definition denotes (ct : option Cap.Table) (h : Z) : Z :=
  match ct with
  | None => h
  | Some t =>
      match CapTable.abs t !! h with
      | Some c => if bool_decide (CapTable.c_kind c = Cap.Channel) && negb (CapTable.c_object c =? 0) then id_of (CapTable.c_object c) else 0
      | None => 0
      end
  end.

(** The events of mask [m] that hold on handle [h]. *)
Definition ready_mask (now : Z) (ct : option Cap.Table) k (h m : Z) : Z :=
  let n := denotes ct h in
  let bit (b : bool) (e : Z) := if has_event m e && b then e else 0 in
  if h =? HANDLE_CONSOLE_INPUT then bit console_ready CONSOLE_INPUT
  else if h =? HANDLE_NETWORK_RX then 0
  else Z.lor (Z.lor (bit (negb (n =? 0) && can_read n k) CHANNEL_READ) (bit (negb (n =? 0) && can_write n k) CHANNEL_WRITE))
         (bit (timer_done now h (poll k)) TIMER).

Definition ct_ok (ct : option Cap.Table) : Prop := match ct with Some t => Cap.wf t | None => True end.

Lemma has_message_ok n k : kinv k -> has_message n k = Ok (can_read n k).
Proof.
  intros Hk. unfold has_message, can_read, queue_of. destruct (find_channel_by_id_locked n k) as [i|] eqn:Hf; [|done].
  destruct (find_chan n k i Hf) as (ch & Hch & Hl & _). rewrite Hch, bind_Ok, Hl. cbn [fmap option_fmap option_map].
  assert (H := pending_msgs ch (chan_inv _ _ _ Hk Hch)). f_equal. destruct (msgs (as_queue ch)); cbn [length] in H.
  - rewrite <- H. by rewrite bool_decide_true.
  - rewrite bool_decide_false by done. destruct (Z.ltb_spec 0 (count ch)); [done|lia].
Qed.

Lemma has_space_ok n k : kinv k -> has_space n k = Ok (can_write n k).
Proof.
  intros Hk. unfold has_space, can_write, queue_of. destruct (find_channel_by_id_locked n k) as [i|] eqn:Hf; [|done].
  destruct (find_chan n k i Hf) as (ch & Hch & Hl & _). rewrite Hch, bind_Ok, Hl. cbn [fmap option_fmap option_map].
  by rewrite (pending_msgs ch (chan_inv _ _ _ Hk Hch)).
Qed.

Lemma find_from_find {A} (f : A -> bool) i l :
  match find_from f i l with
  | Some j => i <= j /\ exists a, l !! Z.to_nat (j - i) = Some a /\ List.find f l = Some a
  | None => List.find f l = None
  end.
Proof.
  revert i. induction l as [|a l IH]; intros i; cbn [find_from List.find]; [done|]. destruct (f a) eqn:E.
  - rewrite Z.sub_diag. split; [lia|]. by exists a.
  - specialize (IH (i + 1)). destruct (find_from f (i + 1) l) as [j|]; [|done]. destruct IH as [Hle IH]. split; [lia|].
    by replace (Z.to_nat (j - i)) with (Datatypes.S (Z.to_nat (j - (i + 1)))) by lia.
Qed.

Lemma timer_expired_ok now h (p : Poll) : timer_expired now h p = Ok (timer_done now h p).
Proof.
  unfold timer_expired, timer_done, find_timer. set (f := fun t => _). assert (F := find_from_find f 0 (timers p)).
  destruct (find_from f 0 (timers p)) as [i|]; [|by rewrite F]. destruct F as (Hi & a & Ha & ->). rewrite Z.sub_0_r in Ha.
  by rewrite (rd_Z _ _ _ Hi Ha).
Qed.

Lemma channel_of_ok ct h : ct_ok ct -> in_width 32 h -> channel_of id_of ct h = Ok (denotes ct h).
Proof.
  intros Hct Hh. destruct ct as [t|]; [|done]. destruct Hct as [fl Hwf]. cbn [channel_of denotes].
  destruct (CapTable.get_abs _ _ _ Hwf Hh) as [(i & e & [He _] & _ & -> & ->)|[-> ->]]; rewrite bind_Ok; [|done].
  rewrite (rd_nat _ _ _ He), bind_Ok. cbn [CapTable.view CapTable.c_kind CapTable.c_object]. by destruct (_ && _).
Qed.

Lemma check_readiness_ok now h m ct k :
  kinv k -> ct_ok ct -> in_width 32 h -> check_readiness id_of console_ready now h m ct k = Ok (ready_mask now ct k h m).
Proof.
  intros Hk Hct Hh. unfold check_readiness, ready_mask. destruct (h =? HANDLE_CONSOLE_INPUT); [by destruct (has_event _ _ && _)|].
  destruct (h =? HANDLE_NETWORK_RX); [done|]. rewrite (channel_of_ok ct h Hct Hh). set (n := denotes ct h).
  assert (E : (if has_event m CHANNEL_READ || has_event m CHANNEL_WRITE then Ok n else Ok 0) =
     Ok (if has_event m CHANNEL_READ || has_event m CHANNEL_WRITE then n else 0)) by (by destruct (_ || _)).
  rewrite E, bind_Ok. clear E. rewrite timer_expired_ok, has_message_ok, has_space_ok by done.
  destruct (has_event m CHANNEL_READ), (has_event m CHANNEL_WRITE), (has_event m TIMER); cbn [orb andb];
    destruct (n =? 0); cbn [negb andb]; rewrite ?bind_Ok; try destruct (can_read n k); try destruct (can_write n k); try destruct (timer_done now h (poll k)); done.
Qed.

(** ** Scanning a set *)

(** The event reported for an entry, and the entry afterwards. *)
Definition triggered_by (now : Z) (ct : option Cap.Table) k (e : PollEntry) : Z :=
  let m := ready_mask now ct k (pe_handle e) (mask e) in
  if has_flag (flags e) EDGE_TRIGGERED then Z.land m (u32 (Z.lnot (last_state e))) else m.
Definition report (now : Z) (ct : option Cap.Table) k (e : PollEntry) : option PollEvent :=
  let tr := triggered_by now ct k e in
  if pe_active e && negb (tr =? 0) then Some (mkEv (pe_handle e) (mask e) tr) else None.
Definition scanned (now : Z) (ct : option Cap.Table) k (e : PollEntry) : PollEntry :=
  if pe_active e then
    mkPE (pe_handle e) (mask e) (flags e)
      (if has_flag (flags e) EDGE_TRIGGERED then ready_mask now ct k (pe_handle e) (mask e) else last_state e)
      (negb (has_flag (flags e) ONESHOT && negb (triggered_by now ct k e =? 0)))
  else e.

Definition actives (es : list PollEntry) : Z := Z.of_nat (length (List.filter pe_active es)).
Definition entries_ok (es : list PollEntry) : Prop := Forall (fun e => in_width 32 (pe_handle e)) es.
Record set_ok (s : PollSet) : Prop := {
  so_entries : entries_ok (entries s);
  so_length : Z.of_nat (length (entries s)) = MAX_ENTRIES_PER_SET;
  so_count : entry_count s = actives (entries s)
}.

Lemma check_entry_ok now ct k e :
  kinv k -> ct_ok ct -> in_width 32 (pe_handle e) -> pe_active e = true ->
  exists e', check_entry_readiness id_of console_ready now ct k e = Ok (e', triggered_by now ct k e) /\
    scanned now ct k e = (if negb (triggered_by now ct k e =? NONE) && has_flag (flags e') ONESHOT then set_pe_active false e' else e') /\
    flags e' = flags e /\ pe_active e' = true.
Proof.
  intros Hk Hct Hh Ha. unfold check_entry_readiness, scanned. rewrite check_readiness_ok by done. rewrite bind_Ok, Ha.
  unfold triggered_by. destruct (has_flag (flags e) EDGE_TRIGGERED); cbn [negb]; eexists; (split; [reflexivity|]); cbn [flags set_last].
  all: split; [|done]; destruct e as [h m fl ls a]; cbn [pe_handle mask flags last_state pe_active] in *; subst a.
  all: destruct (_ =? NONE) eqn:E; unfold NONE in E; rewrite E; cbn [negb andb]; rewrite ?andb_false_r, ?andb_true_r; [done|].
  all: by destruct (has_flag fl ONESHOT).
Qed.

Lemma actives_cons e es : actives (e :: es) = Z.b2z (pe_active e) + actives es.
Proof. unfold actives. cbn [List.filter]. destruct (pe_active e); cbn [length Z.b2z]; lia. Qed.

Lemma scan_ready_ok now ct k max es cnt :
  kinv k -> ct_ok ct -> entries_ok es -> actives es <= cnt < 2 ^ 32 ->
  exists j cnt' p, (j <= length es)%nat /\
    scan_ready id_of console_ready now ct k max es cnt =
      Ok ((scanned now ct k <$> take j es) ++ drop j es, cnt', omap (report now ct k) (take j es), p) /\
    (length (omap (report now ct k) (take j es)) <= max)%nat /\
    (j = length es \/ length (omap (report now ct k) (take j es)) = max) /\
    cnt' - actives ((scanned now ct k <$> take j es) ++ drop j es) = cnt - actives es /\
    (j = length es -> p = existsb (fun e => pe_active e && pseudo (pe_handle e)) es).
Proof.
  intros Hk Hct. revert max cnt. induction es as [|e es IH]; intros max cnt Hes Hc.
  - exists 0%nat, cnt, false. split; [done|]. destruct max; (split; [done|]); cbn; (split; [lia|]); auto with lia.
  - inversion Hes as [|? ? He Hes']; subst. rewrite actives_cons in Hc. destruct max as [|max].
    { exists 0%nat, cnt, false. split; [lia|]. split; [done|]. cbn. split; [lia|]. split; [by right|]. split; [lia|done]. }
    destruct (pe_active e) eqn:Ea; cbn [Z.b2z] in Hc.
    + destruct (check_entry_ok now ct k e Hk Hct He Ea) as (e' & Ee & Es & Ef & Ea'). cbn [scan_ready]. rewrite Ea, Ee, bind_Ok. cbn [negb].
      unfold NONE in *. destruct (triggered_by now ct k e =? 0) eqn:Et; cbn [negb andb] in *.
      * destruct (IH (Datatypes.S max) cnt Hes') as (j & cnt' & p & Hj & -> & H1 & H2 & H3 & H4); [lia|]. rewrite bind_Ok.
        exists (Datatypes.S j), cnt', (pseudo (pe_handle e) || p). split; [cbn; lia|]. cbn [take drop fmap list_fmap app].
        assert (Er : report now ct k e = None) by (unfold report; by rewrite Ea, Et). cbn [omap list_omap]. rewrite Er, Es, !actives_cons, Ea', Ea.
        split; [done|]. split; [done|]. split; [cbn [length]; lia|]. split; [lia|]. cbn [length existsb]. intros [= ->]. by rewrite H4, Ea.
      * assert (Er : report now ct k e = Some (mkEv (pe_handle e) (mask e) (triggered_by now ct k e))) by (unfold report; by rewrite Ea, Et).
        set (cnt1 := if has_flag (flags e') ONESHOT then u32 (cnt - 1) else cnt).
        assert (Hp : 0 <= actives es) by (unfold actives; lia).
        assert (E1 : cnt1 = if has_flag (flags e') ONESHOT then cnt - 1 else cnt).
        { unfold cnt1. destruct (has_flag (flags e') ONESHOT); [apply u32_small; lia|done]. }
        destruct (IH max cnt1 Hes') as (j & cnt' & p & Hj & -> & H1 & H2 & H3 & H4); [rewrite E1; destruct (has_flag _ _); lia|]. rewrite bind_Ok.
        exists (Datatypes.S j), cnt', (pseudo (pe_handle e) || p). split; [cbn; lia|]. cbn [take drop fmap list_fmap app].
        cbn [omap list_omap]. rewrite Er, Es, !actives_cons, Ea. split; [done|]. cbn [length]. split; [lia|]. split; [lia|]. split.
        -- rewrite E1 in H3. destruct (has_flag (flags e') ONESHOT); cbn [pe_active set_pe_active Z.b2z]; rewrite ?Ea'; cbn [Z.b2z]; lia.
        -- cbn [length existsb]. intros [= ->]. by rewrite H4, Ea.
    + cbn [scan_ready]. rewrite Ea. cbn [negb].
      destruct (IH (Datatypes.S max) cnt Hes') as (j & cnt' & p & Hj & -> & H1 & H2 & H3 & H4); [lia|]. rewrite bind_Ok.
      exists (Datatypes.S j), cnt', p. split; [cbn; lia|]. cbn [take drop fmap list_fmap app].
      assert (Er : report now ct k e = None) by (unfold report; by rewrite Ea). assert (Es : scanned now ct k e = e) by (unfold scanned; by rewrite Ea).
      cbn [omap list_omap]. rewrite Er, Es, !actives_cons, Ea. split; [done|]. split; [done|]. split; [cbn [length]; lia|]. split; [lia|].
      cbn [length existsb]. intros [= ->]. by rewrite H4, Ea.
Qed.
Lemma scan_ok now ct k x i s max :
  kinv k -> ct_ok ct -> 0 <= i -> poll_sets x !! Z.to_nat i = Some s -> set_ok s ->
  exists j cnt p, (j <= length (entries s))%nat /\
    let es := (scanned now ct k <$> take j (entries s)) ++ drop j (entries s) in
    let evs := omap (report now ct k) (take j (entries s)) in
    scan id_of console_ready now ct i max x k = Ok (mkSets (<[Z.to_nat i := set_entries_ps es cnt s]> (poll_sets x)) (next_poll_set_id x), evs, p) /\
    set_ok (set_entries_ps es cnt s) /\ (length evs <= Z.to_nat max)%nat /\
    (j = length (entries s) \/ length evs = Z.to_nat max) /\
    (j = length (entries s) -> p = existsb (fun e => pe_active e && pseudo (pe_handle e)) (entries s)).
Proof.
  intros Hk Hct Hi Hs [S1 S2 S3]. unfold MAX_ENTRIES_PER_SET in S2.
  assert (Ha : actives (entries s) <= 16).
  { unfold actives. assert (H := List.filter_length_le pe_active (entries s)). lia. }
  destruct (scan_ready_ok now ct k (Z.to_nat max) (entries s) (entry_count s) Hk Hct S1) as (j & cnt & p & Hj & E & H1 & H2 & H3 & H4); [lia|].
  exists j, cnt, p. split; [done|]. cbn zeta. unfold scan. rewrite (rd_Z _ _ _ Hi Hs), bind_Ok, E, bind_Ok. unfold put_set.
  assert (Hl := lookup_lt_Some _ _ _ Hs). rewrite wr_Z by lia. rewrite !bind_Ok. split; [done|]. split; [|done].
  constructor; cbn [entries entry_count set_entries_ps].
  - unfold entries_ok in *. apply Forall_app. split; [|by apply Forall_drop]. apply Forall_fmap. eapply Forall_impl; [by apply Forall_take|].
    intros e He. unfold compose, scanned. by destruct (pe_active e).
  - rewrite length_app, length_fmap, length_take, length_drop. unfold MAX_ENTRIES_PER_SET. lia.
  - lia.
Qed.

(** ** Waiting for channels *)

Definition free_slots (p : Poll) : nat := length (List.filter (fun e => negb (we_active e)) (wait_queue p)).

(** What stays when a task registers. *)
Record registered (c : Z) (w : Waits) (p p' : Poll) : Prop := {
  rg_timers : timers p' = timers p;
  rg_ok : poll_ok p w -> poll_ok p' w;
  rg_keep : forall e, e ∈ wait_queue p -> we_active e = true -> e ∈ wait_queue p'
}.

Definition waits_for (c : Z) (ct : option Cap.Table) (p : Poll) (e : PollEntry) : Prop :=
  exists we, we ∈ wait_queue p /\ we_active we = true /\ we_task we = Some c /\ handle we = pe_handle e /\ events we = mask e /\
    ((has_event (mask e) CHANNEL_READ || has_event (mask e) CHANNEL_WRITE = true) -> denotes ct (pe_handle e) <> 0 ->
       handle we = denotes ct (pe_handle e) \/ channel_id we = denotes ct (pe_handle e)).

Lemma resolve_ok ct h ev :
  ct_ok ct -> in_width 32 h ->
  exists cid, resolve id_of ct h ev = Ok cid /\
    ((has_event ev CHANNEL_READ || has_event ev CHANNEL_WRITE = true) -> denotes ct h <> 0 -> h = denotes ct h \/ cid = denotes ct h).
Proof.
  intros Hct Hh. unfold resolve. destruct (_ || _); [|by eexists]. destruct ct as [t|]; [|eexists; split; [done|by left]].
  destruct Hct as [fl Hwf]. cbn [denotes].
  destruct (CapTable.get_abs _ _ _ Hwf Hh) as [(i & e & [He _] & _ & -> & ->)|[-> ->]]; rewrite bind_Ok; [|by eexists].
  rewrite (rd_nat _ _ _ He), bind_Ok. cbn [CapTable.view CapTable.c_kind CapTable.c_object]. destruct (_ && _); eexists; (split; [done|]); naive_solver.
Qed.

Lemma filter_insert {A} (f : A -> bool) (l : list A) i a b :
  l !! i = Some a -> f a = true -> f b = false -> length (List.filter f l) = Datatypes.S (length (List.filter f (<[i := b]> l))).
Proof.
  revert i. induction l as [|x l IH]; intros i Hi Ha Hb; [done|]. destruct i as [|i]; cbn in Hi |- *.
  - injection Hi as ->. rewrite Ha, Hb. done.
  - destruct (f x); cbn [length]; by rewrite (IH i).
Qed.

Lemma register_ok c ct w (p : Poll) e :
  ct_ok ct -> in_width 32 (pe_handle e) -> valid c -> wait_channel w c = None -> (0 < free_slots p)%nat ->
  exists p', register_wait id_of ct (pe_handle e) (mask e) (Some c) p = Ok p' /\ registered c w p p' /\ waits_for c ct p' e /\
    free_slots p = Datatypes.S (free_slots p').
Proof.
  intros Hct Hh Hv Hw Hf. destruct (resolve_ok ct (pe_handle e) (mask e) Hct Hh) as (cid & E & Hcid). cbn [register_wait]. rewrite E, bind_Ok.
  set (f := fun e => negb (we_active e)). assert (F := find_from_find f 0 (wait_queue p)). destruct (find_from f 0 (wait_queue p)) as [i|].
  2:{ exfalso. unfold free_slots in Hf. fold f in Hf. destruct (List.filter f (wait_queue p)) as [|a l] eqn:El; [cbn in Hf; lia|].
      assert (Ha : In a (List.filter f (wait_queue p))) by (rewrite El; by left). apply filter_In in Ha as [Ha1 Ha2].
      assert (X := List.find_none f _ F a Ha1). congruence. }
  destruct F as (Hi & a & Ha & Hfa). rewrite Z.sub_0_r in Ha. apply List.find_some in Hfa as [_ Hfa].
  assert (Hl := lookup_lt_Some _ _ _ Ha). rewrite wr_Z by lia. rewrite bind_Ok. set (we := mkEntry (Some c) (pe_handle e) cid (mask e) true).
  assert (Hwe : we ∈ <[Z.to_nat i := we]> (wait_queue p)) by (eapply list_elem_of_lookup_2, list_lookup_insert_eq; lia).
  eexists. split; [done|]. split; [|split].
  - constructor; [done| |].
    + intros Hp e' t He' Ha' Ht. cbn in He'. apply list_elem_of_lookup in He' as [j Hj]. destruct (decide (Z.to_nat i = j)) as [<-|Hne].
      * rewrite list_lookup_insert_eq in Hj by lia. injection Hj as <-. cbn in Ht. by injection Ht as <-.
      * rewrite list_lookup_insert_ne in Hj by done. apply (Hp e' t); [by eapply list_elem_of_lookup_2|done|done].
    + intros e' He' Ha'. cbn. apply list_elem_of_lookup in He' as [j Hj]. apply (list_elem_of_lookup_2 _ j). rewrite list_lookup_insert_ne; [done|].
      intros <-. rewrite Ha in Hj. injection Hj as <-. unfold f in Hfa. by rewrite Ha' in Hfa.
  - exists we. cbn [wait_queue set_entries]. do 5 (split; [done|]). exact Hcid.
  - unfold free_slots. cbn [wait_queue set_entries]. by apply (filter_insert _ _ _ a).
Qed.

Lemma register_all_ok c ct w es (p : Poll) :
  ct_ok ct -> entries_ok es -> valid c -> wait_channel w c = None -> (length es <= free_slots p)%nat ->
  exists p', register_all id_of ct (Some c) es p = Ok p' /\ registered c w p p' /\
    forall e, e ∈ es -> pe_active e = true -> pseudo (pe_handle e) = false -> waits_for c ct p' e.
Proof.
  intros Hct Hes Hv Hw. revert p. induction es as [|e es IH]; intros p Hf; unfold register_all; cbn [foldM].
  { exists p. split; [done|]. split; [done|]. by intros e ?%not_elem_of_nil. }
  inversion Hes as [|? ? He Hes']; subst. cbn [length] in Hf.
  assert (E : exists p1, (if pe_active e && negb (pseudo (pe_handle e)) then register_wait id_of ct (pe_handle e) (mask e) (Some c) p else Ok p) = Ok p1 /\
    registered c w p p1 /\ (length es <= free_slots p1)%nat /\ (pe_active e = true -> pseudo (pe_handle e) = false -> waits_for c ct p1 e)).
  { destruct (pe_active e && negb (pseudo (pe_handle e))) eqn:Eb.
    - destruct (register_ok c ct w p e Hct He Hv Hw ltac:(lia)) as (p1 & -> & H1 & H2 & H3). exists p1. split; [done|]. split; [done|]. split; [lia|done].
    - exists p. split; [done|]. split; [done|]. split; [lia|]. intros Ha Hp. by rewrite Ha, Hp in Eb. }
  destruct E as (p1 & -> & [A1 A2 A3] & Hf1 & Hw1). rewrite bind_Ok. destruct (IH Hes' p1 Hf1) as (p' & Ep & [B1 B2 B3] & Hall).
  unfold register_all in Ep. rewrite Ep. exists p'. split; [done|]. split.
  { constructor; [by rewrite B1|auto|]. intros e' ? ?. auto. }
  intros e' He' Ha Hp. apply elem_of_cons in He' as [->|He']; [|by apply Hall].
  destruct (Hw1 Ha Hp) as (we & Hwe & Hact & Hrest). exists we. split; [by apply B3|done].
Qed.
Lemma block_winv w (s : S) t : winv (w, s) -> t ∉ ready s -> winv (w, set_task_state t Blocked s).
Proof.
  intros [Hs Ho Hn Hb Hc Hct] Hr. cbn [fst snd] in *. destruct (block_law s t Hs Hr) as [Hs' _]. constructor; cbn [fst snd]; try done.
  - intros q. eapply in_order_ext; [|apply Ho]. intros u. apply set_state_priority.
  - intros q u Hu. destruct (Hb q u Hu) as (Hv & Hst & Hch). split; [done|]. split; [|done]. rewrite set_state_law. by destruct (u =? t).
Qed.

(** A scan with room for every entry looks at all of them. *)
Lemma omap_length {A B} (f : A -> option B) l : (length (omap f l) <= length l)%nat.
Proof. induction l as [|a l IH]; [done|]. cbn [omap list_omap]. destruct (f a); cbn [length]; lia. Qed.

Lemma scan_all now ct k x i s max :
  kinv k -> ct_ok ct -> 0 <= i -> poll_sets x !! Z.to_nat i = Some s -> set_ok s -> MAX_ENTRIES_PER_SET <= max ->
  exists s', scan id_of console_ready now ct i max x k =
      Ok (mkSets (<[Z.to_nat i := s']> (poll_sets x)) (next_poll_set_id x), omap (report now ct k) (entries s),
          existsb (fun e => pe_active e && pseudo (pe_handle e)) (entries s)) /\
    set_ok s' /\ entries s' = scanned now ct k <$> entries s /\ owner_task_id s' = owner_task_id s /\ ps_id s' = ps_id s /\ ps_active s' = ps_active s.
Proof.
  intros Hk Hct Hi Hs Hok Hm. destruct (scan_ok now ct k x i s max Hk Hct Hi Hs Hok) as (j & cnt & p & Hj & E & Hs' & _ & H2 & H3).
  assert (j = length (entries s)) as ->.
  { destruct H2 as [?|H2]; [done|]. assert (X := omap_length (report now ct k) (take j (entries s))). rewrite length_take in X.
    assert (Y := so_length _ Hok). lia. }
  rewrite firstn_all, drop_all, app_nil_r in *. rewrite H3 in E by done. eexists. split; [exact E|]. done.
Qed.

(** An entry that reports nothing and is level-triggered stays as it is. *)
Lemma scanned_quiet now ct k e :
  report now ct k e = None -> has_flag (flags e) EDGE_TRIGGERED = false -> pe_active e = true -> scanned now ct k e = e.
Proof.
  unfold report, scanned. intros Hr Hf Ha. rewrite Ha, Hf in *. cbn [andb] in Hr. destruct (triggered_by now ct k e =? 0); [|done].
  rewrite andb_false_r. destruct e. cbn in *. by rewrite Ha.
Qed.

Lemma ready_read now ct k h m :
  has_event m CHANNEL_READ = true -> pseudo h = false -> denotes ct h <> 0 -> can_read (denotes ct h) k = true ->
  has_event (ready_mask now ct k h m) CHANNEL_READ = true.
Proof.
  intros Hm Hp Hn Hc. unfold ready_mask. unfold pseudo in Hp. apply orb_false_elim in Hp as [-> ->]. rewrite Hm, Hc.
  destruct (Z.eqb_spec (denotes ct h) 0); [done|]. cbn [negb andb]. by repeat case_match.
Qed.

(** The task is unregistered when it resumes. *)
Lemma resume_ok c k :
  kinv k -> exists k', resume None (Some c) k = Ok k' /\ kinv k' /\ channels k' = channels k /\ tasks k' = tasks k.
Proof.
  intros [Hc Hw Hp]. eexists. split; [done|]. split; [|done]. constructor; [done|done|].
  intros e t He Ha Ht. cbn in He. apply list_elem_of_fmap in He as (e0 & -> & He). destruct (entry_of c e0); [done|]. by apply (Hp e0 t).
Qed.
(** An infinite wait on a set that is not ready blocks and registers the task. *)
Lemma wait_blocks now n i max t ct s x e0 k :
  kinv k -> ct_ok ct -> get n x = Some i -> poll_sets x !! Z.to_nat i = Some s -> set_ok s -> owner_task_id s = t ->
  MAX_ENTRIES_PER_SET <= max -> Forall (fun e => report now ct k e = None) (entries s) ->
  Forall (fun e => pe_active e && pseudo (pe_handle e) = false) (entries s) ->
  may_wait t (waits k, tasks k) -> (16 <= free_slots (poll k))%nat ->
  e0 ∈ entries s -> pe_active e0 = true -> has_flag (flags e0) EDGE_TRIGGERED = false ->
  exists s1 p, wait id_of console_ready now n (Some max) (-1) ct (Some t) x k =
      Ok (mkSets (<[Z.to_nat i := s1]> (poll_sets x)) (next_poll_set_id x), set_poll (p, set_task_state t Blocked (tasks k)) k, Yield None) /\
    kinv (set_poll (p, set_task_state t Blocked (tasks k)) k) /\ waits_for t ct p e0 /\
    set_ok s1 /\ e0 ∈ entries s1 /\ owner_task_id s1 = t /\ ps_id s1 = ps_id s /\ ps_active s1 = ps_active s.
Proof.
  intros Hk Hct Hg Hs Hok Hown Hmax Hrep Hps (Hv & Hw & Hr) Hfree He0 Ha0 Hf0. unfold MAX_ENTRIES_PER_SET in Hmax.
  assert (Hi := get_nonneg n x i Hg).
  assert (Hp0 : pe_active e0 && pseudo (pe_handle e0) = false) by (by apply (Forall_forall (fun e => pe_active e && pseudo (pe_handle e) = false) (entries s))).
  rewrite Ha0 in Hp0. cbn [andb] in Hp0.
  unfold wait. rewrite Hg. destruct (Z.eqb_spec max 0); [lia|]. rewrite (rd_Z _ _ _ Hi Hs), bind_Ok. cbn [foreign]. rewrite Hown, Z.eqb_refl. cbn [negb Z.eqb Z.ltb Z.compare].
  unfold wait_forever. destruct (scan_all now ct k x i s max Hk Hct Hi Hs Hok Hmax) as (s1 & -> & Hok1 & Es1 & Eo & Ei & Ea). rewrite bind_Ok.
  replace (omap (report now ct k) (entries s)) with (@nil PollEvent).
  2:{ clear -Hrep. induction Hrep as [|e es He _ IH]; [done|]. cbn [omap list_omap]. by rewrite He. }
  cbn [length Z.of_nat Z.ltb Z.compare]. assert (Hl := lookup_lt_Some _ _ _ Hs). cbn [poll_sets].
  rewrite (rd_Z _ _ s1 Hi) by (by apply list_lookup_insert_eq). rewrite bind_Ok.
  assert (He1 : e0 ∈ entries s1).
  { rewrite Es1. apply list_elem_of_fmap. exists e0. split; [|done]. rewrite scanned_quiet; [done| |done|done]. by apply (Forall_forall (fun e => report now ct k e = None) (entries s)). }
  destruct (register_all_ok t ct (waits k) (entries s1) (poll k) Hct (so_entries _ Hok1) Hv Hw) as (p & -> & [_ Hpo _] & Hall).
  { rewrite Es1, length_fmap. assert (X := so_length _ Hok). unfold MAX_ENTRIES_PER_SET in X. lia. }
  rewrite bind_Ok. replace (existsb (fun e => pe_active e && pseudo (pe_handle e)) (entries s)) with false.
  2:{ clear -Hps. induction Hps as [|e es He _ IH]; [done|]. cbn [existsb]. by rewrite He. }
  replace (existsb (fun e => pe_active e && negb (pseudo (pe_handle e))) (entries s1)) with true.
  2:{ symmetry. apply existsb_exists. exists e0. split; [by apply list_elem_of_In|]. by rewrite Ha0, Hp0. }
  exists s1, p. split; [done|]. split; [|split; [by apply Hall|split; [done|split; [done|split; [congruence|done]]]]].
  destruct Hk as [K1 K2 K3]. constructor; [done|by apply block_winv|]. by apply Hpo.
Qed.

(** A set whose level-triggered entry is readable is reported. *)
Lemma wait_reports now n i max t ct s x e0 k :
  kinv k -> ct_ok ct -> get n x = Some i -> poll_sets x !! Z.to_nat i = Some s -> set_ok s -> owner_task_id s = t ->
  MAX_ENTRIES_PER_SET <= max -> e0 ∈ entries s -> pe_active e0 = true -> pseudo (pe_handle e0) = false ->
  has_flag (flags e0) EDGE_TRIGGERED = false -> has_event (mask e0) CHANNEL_READ = true ->
  denotes ct (pe_handle e0) <> 0 -> can_read (denotes ct (pe_handle e0)) k = true ->
  exists x' evs ev, wait id_of console_ready now n (Some max) (-1) ct (Some t) x k = Ok (x', k, Return (Z.of_nat (length evs)) evs) /\
    ev ∈ evs /\ ev_handle ev = pe_handle e0 /\ has_event (triggered ev) CHANNEL_READ = true.
Proof.
  intros Hk Hct Hg Hs Hok Hown Hmax He0 Ha0 Hp0 Hf0 Hm0 Hd Hc. unfold MAX_ENTRIES_PER_SET in Hmax.
  assert (Hi := get_nonneg n x i Hg).
  unfold wait. rewrite Hg. destruct (Z.eqb_spec max 0); [lia|]. rewrite (rd_Z _ _ _ Hi Hs), bind_Ok. cbn [foreign]. rewrite Hown, Z.eqb_refl. cbn [negb Z.eqb Z.ltb Z.compare].
  unfold wait_forever. destruct (scan_all now ct k x i s max Hk Hct Hi Hs Hok Hmax) as (s1 & -> & _). rewrite bind_Ok.
  assert (Hr := ready_read now ct k (pe_handle e0) (mask e0) Hm0 Hp0 Hd Hc).
  set (evs := omap (report now ct k) (entries s)). set (ev := mkEv (pe_handle e0) (mask e0) (ready_mask now ct k (pe_handle e0) (mask e0))).
  assert (Hev : ev ∈ evs).
  { unfold evs. apply list_elem_of_omap. exists e0. split; [done|]. unfold report, triggered_by. rewrite Ha0, Hf0. cbn [andb].
    destruct (Z.eqb_spec (ready_mask now ct k (pe_handle e0) (mask e0)) 0) as [E|]; [|done]. by rewrite E in Hr. }
  destruct (Z.ltb_spec 0 (Z.of_nat (length evs))).
  - eexists _, evs, ev. split; [done|]. split; [done|]. split; [done|]. exact Hr.
  - destruct evs; [by apply not_elem_of_nil in Hev|cbn [length] in *; lia].
Qed.

End tasks.
(** ** Claims *)

(** A non-blocking wait reports exactly what is ready.  The events are those of
    the entries of the set, in order, up to the caller's limit: a channel is
    readable when its queue has a message and writable when it has room, a timer
    fires when it is not running any more, and an edge-triggered entry reports
    only what was not ready at the last scan.  The set stays well-formed, with
    the one-shot entries that fired removed and counted. *)
Theorem poll_exact {S} `{!TaskOps S, !TaskLaws S} id_of console_ready now n i max ct current s x (k : Ipc S) :
  kinv k -> ct_ok ct -> get n x = Some i -> poll_sets x !! Z.to_nat i = Some s -> set_ok s -> foreign current s = false -> 0 < max ->
  exists j s' evs, wait id_of console_ready now n (Some max) 0 ct current x k =
      Ok (mkSets (<[Z.to_nat i := s']> (poll_sets x)) (next_poll_set_id x), k, Return (Z.of_nat (length evs)) evs) /\
    evs = omap (report id_of console_ready now ct k) (take j (entries s)) /\
    entries s' = (scanned id_of console_ready now ct k <$> take j (entries s)) ++ drop j (entries s) /\
    Z.of_nat (length evs) <= max /\ ((length (entries s) <= j)%nat \/ Z.of_nat (length evs) = max) /\ set_ok s'.
Proof.
  intros Hk Hct Hg Hs Hok Hf Hm.
  assert (Hi := get_nonneg n x i Hg).
  destruct (scan_ok id_of console_ready now ct k x i s max Hk Hct Hi Hs Hok) as (j & cnt & p & _ & E & Hs' & Hle & Hor & _).
  exists j. eexists _, _. unfold wait. rewrite Hg. destruct (Z.eqb_spec max 0); [lia|]. rewrite (rd_Z _ _ _ Hi Hs), bind_Ok, Hf, E, bind_Ok.
  split; [done|]. split; [done|]. split; [done|]. split; [lia|]. split; [|done]. destruct Hor; [left|right]; lia.
Qed.

(** (C19) An infinite wait on a poll set ends with a message.  The owner of the set
    waits without a time limit and with a buffer for all entries; the set has no
    entry for the console or the network, nothing of it is ready, and 16 of the 32
    registrations are free, so that none of the set is dropped.  The task then
    registers for its entries and blocks.  When, after that, a message is sent to
    an open channel with room that a level-triggered entry asks to read, the task
    becomes ready, and when it resumes, the wait returns with this entry among the
    events.  Waits with a time limit, a full table of registrations and a message
    sent between the scan and the registration are not covered; in these cases the
    code may leave the task blocked. *)
Theorem poller_served {S} `{!TaskOps S, !TaskLaws S} id_of console_ready now now' n i max t ct s x e0 c ci ch src current (k : Ipc S) :
  kinv k -> ct_ok ct -> get n x = Some i -> poll_sets x !! Z.to_nat i = Some s -> set_ok s -> owner_task_id s = t ->
  MAX_ENTRIES_PER_SET <= max -> Forall (fun e => report id_of console_ready now ct k e = None) (entries s) ->
  Forall (fun e => pe_active e && pseudo (pe_handle e) = false) (entries s) ->
  may_wait t (waits k, tasks k) -> (16 <= free_slots (poll k))%nat ->
  e0 ∈ entries s -> pe_active e0 = true -> has_flag (flags e0) EDGE_TRIGGERED = false -> has_event (mask e0) CHANNEL_READ = true ->
  denotes id_of ct (pe_handle e0) = c -> c <> 0 -> find_channel_by_id_locked c k = Some ci -> chan ci k = Ok ch ->
  recv_refs ch <> 0 -> count ch < capacity ch -> Z.of_nat (length src) <= MAX_MSG_SIZE ->
  exists x1 k1 k2 k3 x3 evs ev,
    wait id_of console_ready now n (Some max) (-1) ct (Some t) x k = Ok (x1, k1, Yield None) /\ task_state (tasks k1) t = Blocked /\
    try_send c (Some src) (Z.of_nat (length src)) None 0 current None k1 = Ok (k2, None, VOK) /\ t ∈ ready (tasks k2) /\
    resume None (Some t) k2 = Ok k3 /\
    wait id_of console_ready now' n (Some max) (-1) ct (Some t) x1 k3 = Ok (x3, k3, Return (Z.of_nat (length evs)) evs) /\
    ev ∈ evs /\ ev_handle ev = pe_handle e0 /\ has_event (triggered ev) CHANNEL_READ = true.
Proof.
  intros Hk Hct Hg Hs Hok Hown Hmax Hrep Hps Hmay Hfree He0 Ha0 Hf0 Hm0 Hd Hc0 Hfc Hch Hrr Hcnt Hsrc.
  destruct (wait_blocks id_of console_ready now n i max t ct s x e0 k Hk Hct Hg Hs Hok Hown Hmax Hrep Hps Hmay Hfree He0 Ha0 Hf0)
    as (s1 & p & E1 & Hk1 & (we & Hwe & Hact & Htask & Hh & Hev & Hmatch) & Hok1 & He1 & Hown1 & Eid & Eact).
  set (k1 := set_poll _ k) in *. assert (Cok := chan_inv _ _ _ Hk Hch). destruct (slot_in ch (count ch) Cok) as [_ Mok].
  destruct (find_chan c k ci Hfc) as (ch' & Hch' & Hlk & Hid & Ho). assert (ch' = ch) as -> by congruence.
  destruct (send_ok ci ch src (Z.of_nat (length src)) None 0 current None 0 (handles (slot ch (count ch))) None k1 Hk1 Hch Ho Hrr)
    as (k2 & msg & E2 & (Hk2 & Ek2 & _ & _ & Hw2) & Hmok & _ & _); [lia|done|lia|lia|done|apply Mok|ring_consts; lia|].
  assert (Hb : task_state (tasks k1) t = Blocked) by (cbn; by rewrite set_state_law, Z.eqb_refl).
  assert (Hp0 : pseudo (pe_handle e0) = false).
  { assert (X := proj1 (Forall_forall _ _) Hps e0 He0). cbn beta in X. by rewrite Ha0 in X. }
  assert (Hr2 : t ∈ ready (tasks k2)).
  { apply (Hw2 we t); [done| |done|done]. unfold matches. rewrite Hact, Hev, Hm0, Hid. rewrite Hm0, Hd in Hmatch.
    destruct (Hmatch eq_refl Hc0) as [-> | ->]; rewrite Z.eqb_refl, ?orb_true_r; done. }
  destruct (resume_ok t k2 Hk2) as (k3 & E3 & Hk3 & Ec3 & _). destruct (push_msg_ok ch msg Cok Hmok Hcnt) as [_ Epend].
  assert (Hq : queue_of c k3 = Some (as_queue (pushed msg ch))).
  { rewrite (queue_of_insert c c ci ch (pushed msg ch) k k3 Hfc Hlk eq_refl eq_refl); [by rewrite Z.eqb_refl|]. by rewrite Ec3, Ek2. }
  set (x1 := mkSets _ _) in *. assert (Hl := lookup_lt_Some _ _ _ Hs).
  assert (Hg1 : get n x1 = Some i).
  { rewrite <- Hg. unfold get, x1. cbn [poll_sets]. eapply find_from_insert; [exact Hs|]. by rewrite Eid, Eact. }
  destruct (wait_reports id_of console_ready now' n i max t ct s1 x1 e0 k3 Hk3 Hct Hg1) as (x3 & evs & ev & E4 & H4); try done.
  - cbn [poll_sets x1]. by apply list_lookup_insert_eq.
  - by rewrite Hd.
  - rewrite Hd. unfold can_read. rewrite Hq. cbn [msgs as_queue]. rewrite Epend, fmap_app, bool_decide_false; [done|]. by destruct (content <$> pending ch).
  - exists x1, k1, k2, k3, x3, evs, ev. split; [exact E1|]. split; [done|]. split; [|done].
    unfold try_send. by rewrite (Hfc : find_channel_by_id_locked c k1 = Some ci).
Qed.
(** ** A set with one entry *)

#[local] Instance set_cpu0 : TaskOps Sched.Sched := Wait.sched_ops 0.
#[local] Instance set_cpu0_ok : TaskLaws Sched.Sched := sched_laws 0 ltac:(by vm_compute).

Definition demo_entry (m : Z) : PollEntry := mkPE 1 m 0 0 true.
Definition demo_set (m : Z) : PollSet := mkPS 1 true 3 (demo_entry m :: replicate 15 (mkPE 0 0 0 0 false)) 1.
Definition demo_sets (m : Z) : PollSets := mkSets [demo_set m] 2.

Lemma demo_set_ok m : set_ok (demo_set m).
Proof. constructor; [|done|done]. repeat constructor; by vm_compute. Qed.

Lemma poll_exact_witness :
  kinv demo /\ set_ok (demo_set 3) /\
  exists j s' evs, wait Datatypes.id false 0 1 (Some 16) 0 None (Some 3) (demo_sets 3) demo = Ok (mkSets [s'] 2, demo, Return (Z.of_nat (length evs)) evs) /\
    evs = omap (report Datatypes.id false 0 None demo) (take j (entries (demo_set 3))).
Proof.
  assert (Hk := demo_kinv). assert (Hs := demo_set_ok 3). split; [exact Hk|]. split; [exact Hs|].
  destruct (poll_exact Datatypes.id false 0 1 0 16 None (Some 3) (demo_set 3) (demo_sets 3) demo Hk I eq_refl eq_refl Hs eq_refl ltac:(lia))
    as (j & s' & evs & E & Ev & _).
  exists j, s', evs. split; [exact E|exact Ev].
Defined.

Lemma poller_served_witness :
  kinv demo /\ exists x1 k1 k2 k3 x3 evs ev,
    wait Datatypes.id false 5 1 (Some 16) (-1) None (Some 3) (demo_sets 1) demo = Ok (x1, k1, Yield None) /\
    try_send 1 (Some [9]) 1 None 0 (Some 2) None k1 = Ok (k2, None, VOK) /\ 3 ∈ ready (tasks k2) /\
    resume None (Some 3) k2 = Ok k3 /\
    wait Datatypes.id false 6 1 (Some 16) (-1) None (Some 3) x1 k3 = Ok (x3, k3, Return (Z.of_nat (length evs)) evs) /\
    ev ∈ evs /\ ev_handle ev = 1.
Proof.
  assert (Hk := demo_kinv). assert (Hs := demo_set_ok 1). split; [exact Hk|].
  destruct (poller_served Datatypes.id false 5 6 1 0 16 3 None (demo_set 1) (demo_sets 1) (demo_entry 1) 1 0 demo_chan [9] (Some 2) demo Hk I eq_refl eq_refl Hs eq_refl)
    as (x1 & k1 & k2 & k3 & x3 & evs & ev & E1 & _ & E2 & Hr & E3 & E4 & Hev & Hh & _).
  - by vm_compute.
  - repeat constructor; by vm_compute.
  - repeat constructor; by vm_compute.
  - apply demo_may. lia.
  - vm_compute. lia.
  - by left.
  - done.
  - done.
  - done.
  - done.
  - done.
  - done.
  - done.
  - done.
  - done.
  - by vm_compute.
  - exists x1, k1, k2, k3, x3, evs, ev. split; [exact E1|]. split; [exact E2|]. split; [exact Hr|]. split; [exact E3|]. split; [exact E4|]. split; [exact Hev|exact Hh].
Defined.

(** A channel that holds a message is reported at once by a non-blocking and by an
    infinite wait; a wait with a finite timeout puts the task to sleep. *)
Example timed_wait_sleeps :
  match try_send 1 (Some [9]) 1 None 0 (Some 2) None demo with
  | Ok (k, _, _) =>
      let outcome_of ms := match wait Datatypes.id false 5 1 (Some 16) ms None (Some 3) (demo_sets 1) k with Ok (_, _, o) => Some o | _ => None end in
      outcome_of 0 = Some (Return 1 [mkEv 1 1 1]) /\ outcome_of (-1) = Some (Return 1 [mkEv 1 1 1]) /\ outcome_of 1000 = Some (Yield (Some 1))
  | _ => False
  end.
Proof. vm_compute. done. Qed.

End PollSetSpec.
