(* ===== verification/Bitmap.v ===== *)
(** * Bitmaps of 64-bit words with a rotating search

    The address space identifiers and the swap slots are kept in arrays of
    64-bit words and found by a search that starts at a hint and wraps around.
    The definitions are the code both share; [PmmSpec] supplies the view of the
    words as one sequence of bits. *)

From S2P Require Import Prelude Buddy Pmm PmmSpec.

Module Bitmap.
Import PmmSpec.

(** [bm[i / 64] & (1ULL << (i % 64))], and setting and clearing that bit. *)
Definition bm_test (i : Z) (bm : list Z) : res bool :=
  w ← rd bm (i / 64); Ok (negb (Z.land w (Z.shiftl 1 (i mod 64)) =? 0)).
Definition bm_set (i : Z) (bm : list Z) : res (list Z) :=
  w ← rd bm (i / 64); wr bm (i / 64) (Z.lor w (Z.shiftl 1 (i mod 64))).
Definition bm_clear (i : Z) (bm : list Z) : res (list Z) :=
  w ← rd bm (i / 64); wr bm (i / 64) (Z.land w (u64 (Z.lnot (Z.shiftl 1 (i mod 64))))).

(** The first index [(hint + i) % n] that is not skipped and whose bit is clear. *)
Fixpoint scan (n hint : Z) (skip : Z -> bool) (is_ : list Z) (bm : list Z) : res (option Z) :=
  match is_ with
  | [] => Ok None
  | i :: is_ =>
      let k := (hint + i) mod n in
      if skip k then scan n hint skip is_ bm
      else used ← bm_test k bm; if (used : bool) then scan n hint skip is_ bm else Ok (Some k)
  end.

Lemma bm_test_ok i bm : 0 <= i < 64 * Z.of_nat (length bm) -> bm_test i bm = Ok (bit_at bm i).
Proof.
  intros Hi. destruct (word_lookup _ _ Hi) as [w Hw]. unfold bm_test, bit_at. rewrite (rd_Z _ _ w), Hw by (done || div_lia). rewrite bind_Ok. cbn [default].
  rewrite Z.shiftl_1_l, land_bit, negb_involutive by div_lia. done.
Qed.

Lemma bm_set_ok i bm : words_ok bm -> 0 <= i < 64 * Z.of_nat (length bm) -> exists bm', bm_set i bm = Ok bm' /\ bit_update bm bm' i true.
Proof.
  intros Hok Hi. destruct (word_lookup _ _ Hi) as [w Hw]. unfold bm_set. rewrite (rd_Z _ _ w) by (done || div_lia). rewrite bind_Ok, wr_Z by div_lia. eexists. split; [done|].
  pose proof (words_ok_lookup _ _ _ Hok Hw) as Hww. rewrite Z.shiftl_1_l. apply (word_update _ _ (fun w => Z.lor w (2 ^ (i mod 64)))); [done|lia|done| |].
  - apply (lor_width 64); [lia|done|]. split; [lia|]. apply Z.pow_lt_mono_r; div_lia.
  - intros n Hn. rewrite lor_bit, Z.eqb_sym by div_lia. by destruct (n =? i mod 64).
Qed.

Lemma bm_clear_ok i bm : words_ok bm -> 0 <= i < 64 * Z.of_nat (length bm) -> exists bm', bm_clear i bm = Ok bm' /\ bit_update bm bm' i false.
Proof.
  intros Hok Hi. destruct (word_lookup _ _ Hi) as [w Hw]. unfold bm_clear. rewrite (rd_Z _ _ w) by (done || div_lia). rewrite bind_Ok, wr_Z by div_lia. eexists. split; [done|].
  pose proof (words_ok_lookup _ _ _ Hok Hw) as Hww. apply (word_update _ _ (fun w => Z.land w (u64 (Z.lnot (Z.shiftl 1 (i mod 64)))))); [done|lia|done| |].
  - by apply (land_width_l 64).
  - intros n Hn. rewrite (land_clear 64) by (done || div_lia). rewrite Z.eqb_sym. by destruct (n =? i mod 64).
Qed.

(** A free index is found when there is one. *)
Lemma bm_scan_ok n hint skip bm is_ :
  0 < n <= 64 * Z.of_nat (length bm) ->
  exists r, scan n hint skip is_ bm = Ok r /\
    match r with
    | Some k => 0 <= k < n /\ skip k = false /\ bit_at bm k = false
    | None => forall i, i ∈ is_ -> let k := (hint + i) mod n in skip k = false -> bit_at bm k = true
    end.
Proof.
  intros Hn. induction is_ as [|i is_ (r & E & Hr)]; cbn [scan]; [exists None; split; [done|]; by intros i ?%not_elem_of_nil|].
  assert (Hk := Z.mod_pos_bound (hint + i) n ltac:(lia)). set (k := (hint + i) mod n) in *. destruct (skip k) eqn:Es.
  - exists r. split; [done|]. destruct r as [?|]; [done|]. intros j [-> |Hj]%elem_of_cons; [cbn zeta; fold k; congruence|by apply Hr].
  - rewrite bm_test_ok, bind_Ok by lia. destruct (bit_at bm k) eqn:Eb; [|by exists (Some k)].
    exists r. split; [done|]. destruct r as [?|]; [done|]. intros j [-> |Hj]%elem_of_cons; [by cbn zeta; fold k|by apply Hr].
Qed.

Lemma bm_scan_all n hint skip bm :
  0 < n <= 64 * Z.of_nat (length bm) ->
  exists r, scan n hint skip (seqZ 0 n) bm = Ok r /\
    match r with
    | Some k => 0 <= k < n /\ skip k = false /\ bit_at bm k = false
    | None => forall k, 0 <= k < n -> skip k = false -> bit_at bm k = true
    end.
Proof.
  intros Hn. destruct (bm_scan_ok n hint skip bm (seqZ 0 n) Hn) as (r & E & Hr). exists r. split; [done|]. destruct r as [k|]; [done|]. intros k Hk Hs.
  assert (E' : (hint + (k - hint) mod n) mod n = k).
  { rewrite Z.add_mod_idemp_r by lia. replace (hint + (k - hint)) with k by lia. by apply Z.mod_small. }
  specialize (Hr ((k - hint) mod n)). cbn zeta in Hr. rewrite E' in Hr. apply Hr; [|done]. apply elem_of_seqZ. assert (H := Z.mod_pos_bound (k - hint) n ltac:(lia)). lia.
Qed.

(** The number of indices below [n] whose bit is set. *)
Definition set_bits (bm : list Z) (n : Z) : list Z := List.filter (bit_at bm) (seqZ 0 n).

Lemma elem_set_bits bm n i : i ∈ set_bits bm n <-> 0 <= i < n /\ bit_at bm i = true.
Proof. unfold set_bits. rewrite list_elem_of_In, filter_In, <- list_elem_of_In, elem_of_seqZ. lia || naive_solver lia. Qed.
Lemma set_bits_nodup bm n : NoDup (set_bits bm n).
Proof. unfold set_bits. apply NoDup_ListNoDup, List.NoDup_filter, NoDup_ListNoDup, NoDup_seqZ. Qed.

Lemma set_bits_add bm bm' n i : bit_update bm bm' i true -> 0 <= i < n -> bit_at bm i = false -> set_bits bm' n ≡ₚ i :: set_bits bm n.
Proof.
  intros (_ & _ & Hb) Hi Hf. apply NoDup_Permutation; [apply set_bits_nodup|apply NoDup_cons; split; [rewrite elem_set_bits; intros [_ ?]; congruence|apply set_bits_nodup]|].
  intros j. rewrite elem_of_cons, !elem_set_bits. split.
  - intros [Hj E]. rewrite Hb in E by lia. destruct (Z.eqb_spec j i); [by left|by right].
  - intros [-> |[Hj E]]; (split; [lia|]); rewrite Hb by lia; [by rewrite Z.eqb_refl|]. by destruct (j =? i).
Qed.

Lemma set_bits_del bm bm' n i : bit_update bm bm' i false -> 0 <= i < n -> bit_at bm i = true -> set_bits bm n ≡ₚ i :: set_bits bm' n.
Proof.
  intros (_ & _ & Hb) Hi Hf. apply NoDup_Permutation; [apply set_bits_nodup|apply NoDup_cons; split; [rewrite elem_set_bits; intros [_ E]; rewrite Hb, Z.eqb_refl in E by lia; done|apply set_bits_nodup]|].
  intros j. rewrite elem_of_cons, !elem_set_bits. split.
  - intros [Hj E]. destruct (Z.eqb_spec j i); [by left|]. right. split; [done|]. rewrite Hb by lia. by destruct (Z.eqb_spec j i).
  - intros [-> |[Hj E]]; (split; [done|]); [done|]. rewrite Hb in E by lia. by destruct (j =? i).
Qed.

End Bitmap.
