(* ===== verification/Frames.v ===== *)
(** * Physical page frames as the rest of the kernel sees them

    The address spaces, the fault handlers and the copy-on-write code take frames
    from [pmm::alloc_page] and give them back.  [FrameAllocator] lists the calls
    they make, [FrameLaws] what they rely on; the physical memory manager of
    [Pmm] obeys the laws.  [Phys] adds the contents of the frames: memory is
    identity mapped ([pmm::phys_to_virt]), a frame holds 512 words of 64 bits. *)

From S2P Require Import Prelude Buddy BuddySpec Pmm PmmSpec.

Module Frames.
Import Buddy(PAGE_SIZE).

Class FrameAllocator (F : Type) := {
  alloc_page : F -> res (F * Z);
  alloc_pages : Z -> F -> res (F * Z);
  free_page : Z -> F -> res F;
  free_pages : Z -> Z -> F -> res F
}.

(** Frames are named by number.  An allocation takes a free frame below [2^48],
    the reach of a page table entry, or reports 0 and changes nothing; a
    contiguous one may take more than it was asked for. *)
Class FrameLaws (F : Type) {ops : FrameAllocator F} := {
  fr_inv : F -> Prop;
  fr_free : F -> list Z;
  fr_owns : F -> Z -> Prop;
  fr_nodup f : fr_inv f -> NoDup (fr_free f);
  fr_range f p : fr_inv f -> p ∈ fr_free f -> fr_owns f p;
  fr_bounds f p : fr_inv f -> fr_owns f p -> 0 < p < 2 ^ 36;
  fr_alloc f :
    fr_inv f -> exists f' a, alloc_page f = Ok (f', a) /\ fr_inv f' /\ (forall p, fr_owns f' p <-> fr_owns f p) /\
      if a =? 0 then f' = f else a mod PAGE_SIZE = 0 /\ fr_free f ≡ₚ a / PAGE_SIZE :: fr_free f';
  fr_alloc_run f n :
    fr_inv f -> 1 <= n <= 512 -> exists f' a, alloc_pages n f = Ok (f', a) /\ fr_inv f' /\ (forall p, fr_owns f' p <-> fr_owns f p) /\
      if a =? 0 then f' = f else a mod PAGE_SIZE = 0 /\ exists m, n <= m < 2 * n /\ fr_free f ≡ₚ seqZ (a / PAGE_SIZE) m ++ fr_free f';
  fr_release f p :
    fr_inv f -> fr_owns f p -> p ∉ fr_free f -> exists f', free_page (p * PAGE_SIZE) f = Ok f' /\ fr_inv f' /\
      (forall q, fr_owns f' q <-> fr_owns f q) /\ fr_free f' ≡ₚ p :: fr_free f
}.

(** ** The physical memory manager *)

Section Pmm.
Context {B : Type} {blocks : Pmm.BlockAllocator B} {laws : PmmSpec.BlockLaws B} (cpu : Z) (cpu_ok : 0 <= cpu).
Import Pmm PmmSpec.
Implicit Type s : pmm B.

#[export] Instance pmm_frames : FrameAllocator (pmm B) := {
  alloc_page := Pmm.alloc_page cpu;
  alloc_pages := Pmm.alloc_pages cpu;
  free_page := Pmm.free_page cpu;
  free_pages := Pmm.free_pages cpu
}.

(** The frames the manager hands out: RAM without its first page, on either side
    of the boundary between the bitmap and the block allocator. *)
Definition pmm_owns s (p : Z) : Prop :=
  mem_start s < p * PAGE_SIZE /\ (p + 1) * PAGE_SIZE <= mem_end s /\ one_side s (p * PAGE_SIZE) 1.
Definition pmm_inv s : Prop :=
  pinv s /\ mem_end s <= 2 ^ 48 /\ (buddy_available s = true -> buddy_region_start s mod PAGE_SIZE = 0).

Lemma pmm_owns_free s p : pmm_inv s -> p ∈ free_frames s -> pmm_owns s p.
Proof.
  intros (Hp & _ & Hr) Hin. pose proof (pi_geo _ Hp) as (Hal & H0 & Ht & He & _). unfold free_frames in Hin. unfold pmm_owns, one_side.
  apply elem_of_app in Hin as [Hin|Hin].
  - replace p with (mem_start s / PAGE_SIZE + (p - mem_start s / PAGE_SIZE)) in Hin by lia. apply elem_bitmap_pages in Hin as [Hi Hf].
    assert (Hne : p - mem_start s / PAGE_SIZE <> 0) by (intros E; rewrite E, (pi_first _ Hp) in Hf; done). split; [unfold PAGE_SIZE in *; div_lia|]. split; [unfold PAGE_SIZE in *; div_lia|].
    destruct (buddy_available s) eqn:Ha; [|done]. left. specialize (Hr eq_refl). destruct (pi_buddy _ Hp Ha) as (_ & _ & _ & _ & _ & Hu).
    destruct (Z.leb_spec (buddy_region_start s) (p * PAGE_SIZE)); [|unfold PAGE_SIZE in *; div_lia]. rewrite Hu in Hf; [done|lia|]. unfold PAGE_SIZE in *. div_lia.
  - destruct (buddy_available s) eqn:Ha; [|by apply not_elem_of_nil in Hin]. destruct (pi_buddy _ Hp Ha) as (Hb & ? & ? & ? & ? & _).
    destruct (ba_range _ _ Hb Hin). split_and!; [lia|lia|]. right. lia.
Qed.

Lemma same_bounds_owns s s' p : same_bounds s s' -> pmm_owns s' p <-> pmm_owns s p.
Proof. intros ((E1 & E2 & _ & _ & E5 & E6 & _) & El & Eh). unfold pmm_owns, one_side. by rewrite E1, E2, E5, E6, El, Eh. Qed.

Lemma same_bounds_inv s s' : same_bounds s s' -> pmm_inv s -> pinv s' -> pmm_inv s'.
Proof. intros ((E1 & E2 & _ & _ & E5 & E6 & _) & _) (_ & H1 & H2) Hp. split; [done|]. by rewrite E2, E5, E6. Qed.

Lemma pmm_run_law s n :
  pmm_inv s -> 1 <= n <= 512 -> exists s' a, Pmm.alloc_pages cpu n s = Ok (s', a) /\ pmm_inv s' /\ (forall p, pmm_owns s' p <-> pmm_owns s p) /\
    if a =? 0 then s' = s else a mod PAGE_SIZE = 0 /\ exists m, n <= m < 2 * n /\ free_frames s ≡ₚ seqZ (a / PAGE_SIZE) m ++ free_frames s'.
Proof.
  intros Hi Hn. assert (Hp := proj1 Hi). destruct (alloc_cases s cpu n Hp cpu_ok Hn) as (s' & a & o & E & _ & _ & Ho & H). exists s', a. split; [done|].
  destruct (a =? 0); [destruct H as [-> _]; done|]. destruct H as [H|H].
  - destruct (block_taken_frames _ _ _ _ Hp H) as (Ha & _ & _ & Hf). destruct H as (_ & b & -> & Hp' & El & Eh & _).
    assert (Hb : same_bounds s (set_buddy s b)) by done. split; [by eapply same_bounds_inv|]. split; [intros p; by apply same_bounds_owns|]. split; [done|]. by exists (2 ^ o).
  - destruct (taken_frames _ _ _ _ Hp H) as (Ha & _ & _ & Hf). destruct H as (Hp' & Hg & Eb & _).
    assert (Hb : same_bounds s s') by (unfold same_bounds; by rewrite Eb). split; [by eapply same_bounds_inv|]. split; [intros p; by apply same_bounds_owns|]. split; [done|]. exists n. split; [lia|done].
Qed.

Lemma free_page_one s a : 0 <= a < 2 ^ 64 -> Pmm.free_page cpu a s = Pmm.free_pages cpu a 1 s.
Proof.
  intros Ha. unfold Pmm.free_page, Pmm.free_pages. change (seqZ 0 1) with [0]. cbn [foldM]. replace (u64 (a + u64 (0 * PAGE_SIZE))) with a.
  - destruct (in_buddy_region s a); [destruct (ba_free_page cpu a (buddy s)) | destruct (free_page_unlocked a s)]; done.
  - change (u64 (0 * PAGE_SIZE)) with 0. rewrite Z.add_0_r, u64_small; [done|]. change (2 ^ 64) with 18446744073709551616 in Ha. lia.
Qed.

#[export, refine] Instance pmm_laws : FrameLaws (pmm B) := {|
  fr_inv := pmm_inv;
  fr_free := free_frames;
  fr_owns := pmm_owns
|}.
Proof.
  - intros f Hi. by apply free_frames_nodup, Hi.
  - intros f p. apply pmm_owns_free.
  - intros f p (Hp & H48 & _) (H1 & H2 & _). pose proof (pi_geo _ Hp) as (_ & H0 & _). change (2 ^ 48) with (2 ^ 36 * 4096) in H48. unfold PAGE_SIZE in *. nia.
  - intros f Hi. destruct (pmm_run_law f 1 Hi ltac:(lia)) as (s' & a & E & Hi' & Ho & H). exists s', a. split; [exact E|]. split; [done|]. split; [done|].
    destruct (a =? 0); [done|]. destruct H as (Ha & m & Hm & Hf). split; [done|]. assert (m = 1) as -> by lia. exact Hf.
  - intros f n Hi Hn. by apply pmm_run_law.
  - intros f p Hi (H1 & H2 & H3) Hnf. assert (Hp := proj1 Hi). pose proof (pi_geo _ Hp) as (_ & H0 & _).
    assert (Hdiv : p * PAGE_SIZE / PAGE_SIZE = p) by (unfold PAGE_SIZE; by rewrite Z.div_mul).
    destruct (pmm_free_pages_ok f cpu (p * PAGE_SIZE) 1) as (s' & E & Hp' & Hb & Hf); try done; [unfold PAGE_SIZE; apply Z.mod_mul; lia|unfold PAGE_SIZE in *; lia| |].
    { intros q Hq. rewrite Hdiv in Hq. apply elem_of_seqZ in Hq. by assert (q = p) as -> by lia. }
    exists s'. assert (E1 : Pmm.free_page cpu (p * PAGE_SIZE) f = Ok s').
    { rewrite free_page_one; [done|]. destruct Hi as (_ & H48 & _). change (2 ^ 64) with (65536 * 2 ^ 48). unfold PAGE_SIZE in *. lia. }
    split; [exact E1|]. split; [by eapply same_bounds_inv|]. split; [intros q; by apply same_bounds_owns|]. by rewrite Hdiv in Hf.
Defined.

End Pmm.

(** ** A free list *)

(** The smallest allocator with these laws, for concrete inputs: the frames 1 to
    15, one at a time. *)
Definition FreeList : Type := list Z.

#[export] Instance list_frames : FrameAllocator FreeList := {
  alloc_page f := match f with [] => Ok ([], 0) | p :: f => Ok (f, p * PAGE_SIZE) end;
  alloc_pages n f := match n, f with 1, p :: f => Ok (f, p * PAGE_SIZE) | _, _ => Ok (f, 0) end;
  free_page a f := Ok (a / PAGE_SIZE :: f);
  free_pages a n f := Ok ((fun i => a / PAGE_SIZE + i) <$> seqZ 0 n ++ f)
}.

#[export, refine] Instance list_laws : FrameLaws FreeList := {|
  fr_inv f := NoDup f /\ Forall (fun p => 0 < p < 16) f;
  fr_free f := f;
  fr_owns _ p := 0 < p < 16
|}.
Proof.
  - by intros f [? _].
  - intros f p [_ H] Hp. rewrite Forall_forall in H. by apply H.
  - intros f p _ Hp. lia.
  - intros [|p f] [Hn Hf]; eexists _, _; (split; [reflexivity|]); [done|]. apply NoDup_cons in Hn as [? ?]. apply Forall_cons in Hf as [Hp ?].
    split; [done|]. split; [done|]. unfold PAGE_SIZE. destruct (Z.eqb_spec (p * 4096) 0); [lia|]. split; [apply Z.mod_mul; lia|]. by rewrite Z.div_mul by lia.
  - intros f n [Hn Hf] Hr. destruct (decide (n = 1)) as [->|Hne].
    + destruct f as [|p f]; [by exists [], 0|]. apply NoDup_cons in Hn as [? ?]. apply Forall_cons in Hf as [Hp ?].
      exists f, (p * PAGE_SIZE). split; [reflexivity|]. split; [done|]. split; [done|]. unfold PAGE_SIZE. destruct (Z.eqb_spec (p * 4096) 0); [lia|].
      split; [apply Z.mod_mul; lia|]. exists 1. split; [lia|]. by rewrite Z.div_mul by lia.
    + exists f, 0. split; [|done]. cbn. by destruct n as [|[?|?|]|].
  - intros f p [Hn Hf] Ho Hp. eexists. split; [reflexivity|]. unfold PAGE_SIZE. rewrite Z.div_mul by lia. split; [|done]. split; [by apply NoDup_cons|by apply Forall_cons].
Defined.

(** ** Memory *)

Definition WORDS : nat := 512.

Record Phys (F : Type) := mkPhys { ram : gmap Z (list Z); pm : F }.
Arguments mkPhys {F}.
Arguments ram {F}.
Arguments pm {F}.

Section Phys.
Context {F : Type} {frames : FrameAllocator F}.
Implicit Type s : Phys F.

Definition set_ram m s : Phys F := mkPhys m (pm s).
Definition set_pm f s : Phys F := mkPhys (ram s) f.

(** Word [i] of the frame at address [t]; a frame that is not memory has none. *)
Definition ldw (t i : Z) s : res Z := match ram s !! t with Some p => rd p i | None => Ub end.
Definition stw (t i w : Z) s : res (Phys F) :=
  match ram s !! t with Some p => p ← wr p i w; Ok (set_ram (<[t := p]> (ram s)) s) | None => Ub end.
(** [memset(page, 0, 4096)] and [memcpy(dst, src, 4096)]. *)
Definition zero_page (t : Z) s : res (Phys F) :=
  match ram s !! t with Some _ => Ok (set_ram (<[t := replicate WORDS 0]> (ram s)) s) | None => Ub end.
Definition copy_page (dst src : Z) s : res (Phys F) :=
  match ram s !! dst, ram s !! src with Some _, Some p => Ok (set_ram (<[dst := p]> (ram s)) s) | _, _ => Ub end.

Definition new_page s : res (Phys F * Z) := '(f, a) ← alloc_page (pm s); Ok (set_pm f s, a).
Definition new_pages (n : Z) s : res (Phys F * Z) := '(f, a) ← alloc_pages n (pm s); Ok (set_pm f s, a).
Definition drop_page (a : Z) s : res (Phys F) := f ← free_page a (pm s); Ok (set_pm f s).
Definition drop_pages (a n : Z) s : res (Phys F) := f ← free_pages a n (pm s); Ok (set_pm f s).
End Phys.

End Frames.
