(* ===== verification/Cow.v ===== *)
(** * Reference counts of shared frames

    Models [CowManager] of [src/kernel/mm/cow.cpp] and [cow.hpp].  Each managed
    frame has a 32-bit word: the low half counts the references, bit 16 is the
    copy-on-write flag.  The compare-and-swap loops of the source end in their
    first round when nothing runs in between. *)

From S2P Require Import Prelude Buddy Frames.

Module Cow.
Import Frames.

Definition COW : Z := Z.shiftl 1 0.
Definition SHARED : Z := Z.shiftl 1 1.

Record CowManager := mkCow { page_info_ : list Z; mem_start_ : Z; mem_end_ : Z; total_pages_ : Z; initialized_ : bool }.

Definition fresh : CowManager := mkCow [] 0 0 0 false.
Definition set_info p c := mkCow p (mem_start_ c) (mem_end_ c) (total_pages_ c) (initialized_ c).

Definition is_initialized (c : CowManager) : bool := initialized_ c.
Definition total_pages (c : CowManager) : Z := total_pages_ c.
Definition phys_to_index (c : CowManager) (phys : Z) : Z := Z.shiftr (u64 (phys - mem_start_ c)) 12.
Definition is_valid_page (c : CowManager) (phys : Z) : bool := (mem_start_ c <=? phys) && (phys <? mem_end_ c).
Definition align (phys : Z) : Z := Z.land phys (u64 (Z.lnot 0xFFF)).

Section Init.
Context {F : Type} {frames : FrameAllocator F}.

(** [page_info_array] is the array the caller provides, if any; otherwise the
    array takes frames from the allocator. *)
Definition init (mem_start mem_end : Z) (page_info_array : option (list Z)) (c : CowManager) (f : F) : res (CowManager * F * bool) :=
  if initialized_ c then Ok (c, f, false)
  else
    let ms := Buddy.page_align_up mem_start in
    let me := Buddy.page_align_down mem_end in
    if me <=? ms then Ok (mkCow (page_info_ c) ms me (total_pages_ c) false, f, false)
    else
      let total := Z.shiftr (u64 (me - ms)) Buddy.PAGE_SHIFT in
      let info_size := u64 (total * 4) in
      let info_pages := u64 (u64 (info_size + Buddy.PAGE_SIZE) - 1) / Buddy.PAGE_SIZE in
      match page_info_array with
      | Some info =>
          if Z.of_nat (length info) <? total then Ub
          else Ok (mkCow (replicate (Z.to_nat total) 0 ++ drop (Z.to_nat total) info) ms me total true, f, true)
      | None =>
          '(f, info_phys) ← alloc_pages info_pages f;
          if info_phys =? 0 then Ok (mkCow (page_info_ c) ms me total false, f, false)
          else Ok (mkCow (replicate (Z.to_nat total) 0) ms me total true, f, true)
      end.
End Init.

(** An operation on the word of a frame, skipped when the frame is not managed. *)
Definition on_page (phys : Z) (c : CowManager) (skip : bool) (f : Z -> option Z * bool) : res (CowManager * bool) :=
  if negb (initialized_ c) then Ok (c, skip)
  else
    let phys := align phys in
    if negb (is_valid_page c phys) then Ok (c, skip)
    else
      let idx := phys_to_index c phys in
      old_val ← rd (page_info_ c) idx;
      match f old_val with
      | (Some new_val, r) => info ← wr (page_info_ c) idx new_val; Ok (set_info info c, r)
      | (None, r) => Ok (c, r)
      end.

Definition refcount (w : Z) : Z := u16 (Z.land w 0xFFFF).
Definition with_count (w n : Z) : Z := Z.lor (Z.land w 0xFFFF0000) (Z.land n 0xFFFF).

Definition inc_word (w : Z) : option Z * bool :=
  if 0xFFFF <=? refcount w then (None, false) else (Some (with_count w (refcount w + 1)), false).
Definition inc_ref (phys : Z) (c : CowManager) : res CowManager := '(c, _) ← on_page phys c false inc_word; Ok c.

Definition dec_word (w : Z) : option Z * bool :=
  if refcount w =? 0 then (None, false)
  else let new_val := with_count w (refcount w - 1) in (Some new_val, Z.land new_val 0xFFFF =? 0).
Definition dec_ref (phys : Z) (c : CowManager) : res (CowManager * bool) := on_page phys c false dec_word.

Definition read_page (phys : Z) (c : CowManager) : res (option Z) :=
  if negb (initialized_ c) then Ok None
  else
    let phys := align phys in
    if negb (is_valid_page c phys) then Ok None
    else w ← rd (page_info_ c) (phys_to_index c phys); Ok (Some w).

Definition get_ref (phys : Z) (c : CowManager) : res Z :=
  w ← read_page phys c; Ok (match w with Some w => u16 (Z.land w 0xFFFF) | None => 0 end).

Definition mark_cow (phys : Z) (c : CowManager) : res CowManager :=
  '(c, _) ← on_page phys c false (fun w => (Some (Z.lor w (Z.shiftl COW 16)), false)); Ok c.
Definition clear_cow (phys : Z) (c : CowManager) : res CowManager :=
  '(c, _) ← on_page phys c false (fun w => (Some (Z.land w (u32 (Z.lnot (Z.shiftl COW 16)))), false)); Ok c.
Definition is_cow (phys : Z) (c : CowManager) : res bool :=
  w ← read_page phys c; Ok (match w with Some w => negb (Z.land (Z.land (Z.shiftr w 16) 0xFFFF) COW =? 0) | None => false end).

(** ** The words of the managed frames *)

Record cinv (c : CowManager) : Prop := {
  ci_init : initialized_ c = true;
  ci_range : 0 < mem_start_ c /\ mem_start_ c mod 4096 = 0 /\ mem_end_ c = mem_start_ c + total_pages_ c * 4096 /\ mem_end_ c < 2 ^ 63 /\ 0 < total_pages_ c;
  ci_length : Z.of_nat (length (page_info_ c)) = total_pages_ c;
  ci_words : Forall (in_width 32) (page_info_ c)
}.

Definition managed (c : CowManager) (p : Z) : Prop := mem_start_ c <= p * 4096 < mem_end_ c.
Definition slot (c : CowManager) (p : Z) : nat := Z.to_nat (p - mem_start_ c / 4096).
Definition word_of (c : CowManager) (p : Z) : Z := default 0 (page_info_ c !! slot c p).
(** The references and the flag of frame [p]. *)
Definition refs (c : CowManager) (p : Z) : Z := word_of c p mod 2 ^ 16.
Definition flagged (c : CowManager) (p : Z) : bool := Z.testbit (word_of c p) 16.

Lemma align_page p off : 0 <= p < 2 ^ 51 -> 0 <= off < 4096 -> align (p * 4096 + off) = p * 4096.
Proof.
  intros Hp Ho. unfold align. change 0xFFF with (2 ^ 12 - 1). rewrite land_align_down; [|lia|].
  - change (2 ^ 12) with 4096. div_lia.
  - change (2 ^ 51) with 2251799813685248 in Hp. change (2 ^ 64) with 18446744073709551616. lia.
Qed.

Lemma managed_bounds c p : cinv c -> managed c p -> 0 <= p < 2 ^ 51 /\ 0 <= p - mem_start_ c / 4096 < total_pages_ c.
Proof.
  intros H Hm. destruct (ci_range _ H) as (H1 & H2 & H3 & H4 & H5). unfold managed in Hm. change (2 ^ 63) with (2 ^ 51 * 4096) in H4. split; [lia|div_lia].
Qed.

Lemma index_ok c p : cinv c -> managed c p -> phys_to_index c (p * 4096) = Z.of_nat (slot c p) /\ (slot c p < length (page_info_ c))%nat /\ is_valid_page c (p * 4096) = true.
Proof.
  intros H Hm. destruct (managed_bounds c p H Hm) as (Hb & Hi). destruct (ci_range _ H) as (H1 & H2 & H3 & H4 & H5). unfold managed in Hm. split; [|split].
  - unfold phys_to_index, slot. change (2 ^ 51) with 2251799813685248 in Hb. rewrite Z.shiftr_div_pow2 by lia. change (2 ^ 12) with 4096. rewrite u64_small by lia. rewrite Z2Nat.id by lia. div_lia.
  - unfold slot. assert (Hl := ci_length _ H). lia.
  - unfold is_valid_page. lia.
Qed.

Lemma on_page_ok c p off skip f :
  cinv c -> managed c p -> 0 <= off < 4096 ->
  (forall w v r, in_width 32 w -> f w = (Some v, r) -> in_width 32 v) ->
  exists c', on_page (p * 4096 + off) c skip f = Ok (c', (f (word_of c p)).2) /\ cinv c' /\ mem_start_ c' = mem_start_ c /\ mem_end_ c' = mem_end_ c /\
    (forall q, managed c q -> word_of c' q = if bool_decide (q = p) then default (word_of c p) (f (word_of c p)).1 else word_of c q).
Proof.
  intros H Hm Ho Hf. destruct (managed_bounds c p H Hm) as (Hb & Hi). destruct (index_ok c p H Hm) as (Ei & Hlt & Hv). unfold on_page. rewrite (ci_init _ H). cbn [negb].
  rewrite align_page, Hv, Ei by done. cbn [negb]. apply lookup_lt_is_Some_2 in Hlt as [w Hw]. rewrite (rd_nat _ _ _ Hw), bind_Ok.
  assert (Ew : word_of c p = w) by (unfold word_of; by rewrite Hw). assert (Hww : in_width 32 w) by (by eapply Forall_lookup_1; [apply H|]). rewrite Ew. destruct (f w) as [[v|] r] eqn:Efw; cbn [fst snd default from_option id].
  - rewrite wr_nat, bind_Ok by (by eapply lookup_lt_Some). eexists. split; [done|]. split; [|split; [done|split; [done|]]].
    + destruct H as [H1 H2 H3 H4]. constructor; cbn [set_info page_info_ mem_start_ mem_end_ total_pages_ initialized_]; try done; [by rewrite length_insert|].
      apply Forall_insert; [done|by eapply Hf].
    + intros q Hq. unfold word_of at 1. cbn [set_info page_info_]. unfold slot at 1. cbn [set_info mem_start_]. fold (slot c q). case_bool_decide as E.
      * subst q. rewrite list_lookup_insert_eq by (by eapply lookup_lt_Some). done.
      * rewrite list_lookup_insert_ne; [done|]. intros E'. apply E. destruct (managed_bounds c q H Hq) as (_ & Hq'). unfold slot in E'. lia.
  - exists c. split; [done|]. split; [done|]. split; [done|]. split; [done|]. intros q Hq. case_bool_decide; [by subst|done].
Qed.

Lemma refcount_mod w : in_width 32 w -> refcount w = w mod 2 ^ 16.
Proof. intros Hw. unfold refcount, wrap. change 0xFFFF with (2 ^ 16 - 1). rewrite land_mask_mod by lia. rewrite Z.mod_mod by lia. done. Qed.

Lemma with_count_ok w n : in_width 32 w -> 0 <= n < 2 ^ 16 -> in_width 32 (with_count w n) /\ with_count w n mod 2 ^ 16 = n /\ Z.testbit (with_count w n) 16 = Z.testbit w 16.
Proof.
  intros Hw Hn. unfold with_count. change 0xFFFF with (2 ^ 16 - 1). rewrite land_mask_mod, Z.mod_small by lia. split; [|split].
  - apply lor_width; [lia|by apply land_width_l|]. split; [lia|]. apply Z.lt_trans with (2 ^ 16); lia.
  - rewrite <- Z.land_ones, Z.land_lor_distr_l, <- Z.land_assoc by lia. change (Z.land 4294901760 (Z.ones 16)) with 0. rewrite Z.land_0_r, Z.lor_0_l, Z.land_ones by lia. by apply Z.mod_small.
  - rewrite Z.lor_spec, Z.land_spec. change (Z.testbit 4294901760 16) with true. rewrite andb_true_r, (in_width_high 16 n) by (done || lia). apply orb_false_r.
Qed.

Lemma word_width c p : cinv c -> managed c p -> in_width 32 (word_of c p).
Proof.
  intros H Hm. unfold word_of. destruct (index_ok c p H Hm) as (_ & Hlt & _). apply lookup_lt_is_Some_2 in Hlt as [w Ew]. rewrite Ew. by eapply Forall_lookup_1; [apply H|].
Qed.

(** What an operation on frame [p] does to the counts and flags: [n] and [b] are
    the new ones of [p]. *)
Definition updated (c c' : CowManager) (p n : Z) (b : bool) : Prop :=
  cinv c' /\ mem_start_ c' = mem_start_ c /\ mem_end_ c' = mem_end_ c /\
  forall q, managed c q -> refs c' q = (if bool_decide (q = p) then n else refs c q) /\ flagged c' q = (if bool_decide (q = p) then b else flagged c q).

Lemma on_page_updated c p off f n b :
  cinv c -> managed c p -> 0 <= off < 4096 ->
  (forall w v r, in_width 32 w -> f w = (Some v, r) -> in_width 32 v) ->
  (let w := default (word_of c p) (f (word_of c p)).1 in w mod 2 ^ 16 = n /\ Z.testbit w 16 = b) ->
  exists c', on_page (p * 4096 + off) c false f = Ok (c', (f (word_of c p)).2) /\ updated c c' p n b.
Proof.
  intros H Hm Ho Hf Hw. destruct (on_page_ok c p off false f H Hm Ho Hf) as (c' & E & Hc & E1 & E2 & Hq). exists c'. split; [done|]. split; [done|]. split; [done|]. split; [done|].
  intros q Hmq. unfold refs, flagged. rewrite (Hq q Hmq). by case_bool_decide.
Qed.

Lemma inc_width w v r : in_width 32 w -> inc_word w = (Some v, r) -> in_width 32 v.
Proof.
  intros Hw. unfold inc_word. rewrite refcount_mod by done. destruct (Z.leb_spec 65535 (w mod 2 ^ 16)); [done|]. intros [= <- _]. apply with_count_ok; [done|].
  assert (Hr := Z.mod_pos_bound w (2 ^ 16) ltac:(lia)). change (2 ^ 16) with 65536 in *. lia.
Qed.
Lemma dec_width w v r : in_width 32 w -> dec_word w = (Some v, r) -> in_width 32 v.
Proof.
  intros Hw. unfold dec_word. rewrite refcount_mod by done. destruct (Z.eqb_spec (w mod 2 ^ 16) 0); [done|]. intros [= <- _]. apply with_count_ok; [done|].
  assert (Hr := Z.mod_pos_bound w (2 ^ 16) ltac:(lia)). change (2 ^ 16) with 65536 in *. lia.
Qed.

Lemma inc_ref_ok c p off :
  cinv c -> managed c p -> 0 <= off < 4096 -> exists c', inc_ref (p * 4096 + off) c = Ok c' /\ updated c c' p (Z.min (refs c p + 1) 65535) (flagged c p).
Proof.
  intros H Hm Ho. unfold inc_ref. assert (Hw := word_width c p H Hm). assert (Hr := Z.mod_pos_bound (word_of c p) (2 ^ 16) ltac:(lia)).
  destruct (on_page_updated c p off inc_word (Z.min (refs c p + 1) 65535) (flagged c p) H Hm Ho inc_width) as (c' & -> & Hc); [|rewrite bind_Ok; eauto].
  cbv zeta. unfold inc_word, refs, flagged. rewrite refcount_mod by done. change (2 ^ 16) with 65536 in *. destruct (Z.leb_spec 65535 (word_of c p mod 65536)); cbn [fst default from_option id].
  - split; [lia|done].
  - destruct (with_count_ok (word_of c p) (word_of c p mod 65536 + 1) Hw) as (_ & E & ->); [lia|]. change (2 ^ 16) with 65536 in E. rewrite E. split; [lia|done].
Qed.

(** Releasing a reference lowers the count of the frame by one, leaves every
    other frame and all flags alone, and reports that the frame is to be freed
    exactly when the count goes from one to zero; a count of zero stays. *)
Lemma dec_ref_ok c p off :
  cinv c -> managed c p -> 0 <= off < 4096 ->
  exists c', dec_ref (p * 4096 + off) c = Ok (c', refs c p =? 1) /\ updated c c' p (Z.max (refs c p - 1) 0) (flagged c p).
Proof.
  intros H Hm Ho. unfold dec_ref. assert (Hw := word_width c p H Hm). assert (Hr := Z.mod_pos_bound (word_of c p) (2 ^ 16) ltac:(lia)).
  assert (Hdec : let w := default (word_of c p) (dec_word (word_of c p)).1 in w mod 2 ^ 16 = Z.max (refs c p - 1) 0 /\ Z.testbit w 16 = flagged c p /\ (dec_word (word_of c p)).2 = (refs c p =? 1)).
  { cbv zeta. unfold dec_word, refs, flagged. rewrite refcount_mod by done. destruct (Z.eqb_spec (word_of c p mod 2 ^ 16) 0) as [E0|Hn]; cbn [fst snd default from_option id].
    - split; [lia|]. split; [done|]. by rewrite E0.
    - destruct (with_count_ok (word_of c p) (word_of c p mod 2 ^ 16 - 1) Hw) as (Hw' & E & ->); [lia|]. rewrite E. split; [lia|]. split; [done|].
      change 0xFFFF with (2 ^ 16 - 1). rewrite land_mask_mod, E by lia. destruct (Z.eqb_spec (word_of c p mod 2 ^ 16 - 1) 0), (Z.eqb_spec (word_of c p mod 2 ^ 16) 1); done || lia. }
  destruct Hdec as (D1 & D2 & D3). destruct (on_page_updated c p off dec_word _ _ H Hm Ho dec_width (conj D1 D2)) as (c' & -> & Hc). rewrite D3. eauto.
Qed.

Lemma get_ref_ok c p off : cinv c -> managed c p -> 0 <= off < 4096 -> get_ref (p * 4096 + off) c = Ok (refs c p).
Proof.
  intros H Hm Ho. destruct (managed_bounds c p H Hm) as (Hb & Hi). destruct (index_ok c p H Hm) as (Ei & Hlt & Hv). unfold get_ref, read_page. rewrite (ci_init _ H). cbn [negb].
  rewrite align_page, Hv, Ei by done. cbn [negb]. assert (Hw := word_width c p H Hm). unfold refs. unfold word_of in *. apply lookup_lt_is_Some_2 in Hlt as [w Ew]. rewrite Ew in *.
  rewrite (rd_nat _ _ _ Ew), !bind_Ok. cbn [default]. f_equal. by apply refcount_mod.
Qed.

Lemma flag_word w v r : in_width 32 w -> (Some (Z.lor w (Z.shiftl COW 16)), false) = (Some v, r) -> in_width 32 v.
Proof. intros Hw [= <- _]. apply lor_width; [lia|done|]. split; [done|]. reflexivity. Qed.
Lemma unflag_word w v r : in_width 32 w -> (Some (Z.land w (u32 (Z.lnot (Z.shiftl COW 16)))), false) = (Some v, r) -> in_width 32 v.
Proof. intros Hw [= <- _]. by apply land_width_l. Qed.

Lemma low_half w x : Z.land x (Z.ones 16) = 0 -> Z.lor w x mod 2 ^ 16 = w mod 2 ^ 16.
Proof. intros Hx. rewrite <- !Z.land_ones, Z.land_lor_distr_l, Hx by lia. apply Z.lor_0_r. Qed.

Lemma mark_cow_ok c p off : cinv c -> managed c p -> 0 <= off < 4096 -> exists c', mark_cow (p * 4096 + off) c = Ok c' /\ updated c c' p (refs c p) true.
Proof.
  intros H Hm Ho. unfold mark_cow. destruct (on_page_updated c p off (fun w => (Some (Z.lor w (Z.shiftl COW 16)), false)) (refs c p) true H Hm Ho flag_word) as (c' & -> & Hc); [|rewrite bind_Ok; eauto].
  cbv zeta. cbn [fst default from_option id]. split; [by apply low_half|]. change (Z.shiftl COW 16) with (2 ^ 16). by rewrite lor_bit by lia.
Qed.

Lemma clear_cow_ok c p off : cinv c -> managed c p -> 0 <= off < 4096 -> exists c', clear_cow (p * 4096 + off) c = Ok c' /\ updated c c' p (refs c p) false.
Proof.
  intros H Hm Ho. unfold clear_cow.
  destruct (on_page_updated c p off (fun w => (Some (Z.land w (u32 (Z.lnot (Z.shiftl COW 16)))), false)) (refs c p) false H Hm Ho unflag_word) as (c' & -> & Hc); [|rewrite bind_Ok; eauto].
  cbv zeta. cbn [fst default from_option id]. split.
  - unfold refs. rewrite <- !Z.land_ones, <- Z.land_assoc by lia. f_equal. 
  - change (Z.shiftl COW 16) with (Z.shiftl 1 16). rewrite land_clear; [done|lia|by apply word_width|lia|lia].
Qed.

End Cow.
