(* ===== verification/Swap.v ===== *)
(** * Swap slots

    Models [src/kernel/mm/swap.cpp] and [swap.hpp]: the bitmap of swap slots on
    the user disk, the encoding of slots in page table entries, and writing pages
    out and reading them back.  The disk is reached through [SectorDevice], the
    calls of the block driver this code makes; a page is eight sectors. *)

From S2P Require Import Prelude Buddy Pmm PmmSpec Bitmap Frames.

Module Swap.
Import Bitmap Frames.

Definition SWAP_SECTOR_START : Z := 8192.
Definition SECTORS_PER_PAGE : Z := Buddy.PAGE_SIZE / 512.
Definition ACTUAL_SWAP_SLOTS : Z := 1024.
Definition BITMAP_SIZE : Z := (ACTUAL_SWAP_SLOTS + 63) / 64.

Definition PRESENT_BIT : Z := Z.shiftl 1 0.
Definition SWAP_FLAG : Z := Z.shiftl 1 1.
Definition SLOT_SHIFT : Z := 12.
Definition SLOT_MASK : Z := 0xFFFFFFFFFFFFF000.

Definition is_swap_entry (pte : Z) : bool := (Z.land pte PRESENT_BIT =? 0) && negb (Z.land pte SWAP_FLAG =? 0).
Definition make_swap_entry (slot_index : Z) : Z := Z.lor SWAP_FLAG (u64 (Z.shiftl slot_index SLOT_SHIFT)).
Definition get_swap_slot (swap_entry : Z) : Z := Z.shiftr (Z.land swap_entry SLOT_MASK) SLOT_SHIFT.

(** [write_sectors] and [read_sectors] return a status, negative on failure; a
    read leaves the second component in the buffer. *)
Class SectorDevice (D : Type) := {
  capacity : D -> Z;
  write_sectors : Z -> Z -> list Z -> D -> D * Z;
  read_sectors : Z -> Z -> D -> Z * list Z
}.

Record Swap (D : Type) := mkSwap {
  swap_initialized : bool; swap_device : option D; slot_bitmap : list Z; used_slots : Z;
  stat_swap_outs : Z; stat_swap_ins : Z; stat_io_errors : Z; next_free_hint : Z
}.
Arguments mkSwap {D}.
Arguments swap_initialized {D}.
Arguments swap_device {D}.
Arguments slot_bitmap {D}.
Arguments used_slots {D}.
Arguments stat_swap_outs {D}.
Arguments stat_swap_ins {D}.
Arguments stat_io_errors {D}.
Arguments next_free_hint {D}.

Section Swap.
Context {D : Type} {dev : SectorDevice D} {F : Type}.
Implicit Type w : Swap D.

Definition set_slots bm n h w : Swap D :=
  mkSwap (swap_initialized w) (swap_device w) bm n (stat_swap_outs w) (stat_swap_ins w) (stat_io_errors w) h.
Definition set_device d w : Swap D :=
  mkSwap (swap_initialized w) d (slot_bitmap w) (used_slots w) (stat_swap_outs w) (stat_swap_ins w) (stat_io_errors w) (next_free_hint w).
Definition count_out w : Swap D :=
  mkSwap (swap_initialized w) (swap_device w) (slot_bitmap w) (used_slots w) (u64 (stat_swap_outs w + 1)) (stat_swap_ins w) (stat_io_errors w) (next_free_hint w).
Definition count_in w : Swap D :=
  mkSwap (swap_initialized w) (swap_device w) (slot_bitmap w) (used_slots w) (stat_swap_outs w) (u64 (stat_swap_ins w + 1)) (stat_io_errors w) (next_free_hint w).
Definition count_error w : Swap D :=
  mkSwap (swap_initialized w) (swap_device w) (slot_bitmap w) (used_slots w) (stat_swap_outs w) (stat_swap_ins w) (u64 (stat_io_errors w + 1)) (next_free_hint w).

(** [user_disk] is [virtio::user_blk_device()]. *)
Definition init (user_disk : option D) w : Swap D * bool :=
  if swap_initialized w then (w, true)
  else
    match user_disk with
    | None => (set_device None w, false)
    | Some d =>
        let w := set_device (Some d) w in
        if capacity d <? SWAP_SECTOR_START + ACTUAL_SWAP_SLOTS * SECTORS_PER_PAGE then (w, false)
        else (mkSwap true (Some d) (replicate (Z.to_nat BITMAP_SIZE) 0) 0 (stat_swap_outs w) (stat_swap_ins w) (stat_io_errors w) 0, true)
    end.

Definition is_available w : bool := swap_initialized w && bool_decide (is_Some (swap_device w)).
Definition free_slots w : Z := u64 (ACTUAL_SWAP_SLOTS - used_slots w).
Definition total_slots : Z := ACTUAL_SWAP_SLOTS.

Definition alloc_slot w : res (Swap D * Z) :=
  if ACTUAL_SWAP_SLOTS <=? used_slots w then Ok (w, -1)
  else
    r ← scan ACTUAL_SWAP_SLOTS (next_free_hint w) (fun _ => false) (seqZ 0 ACTUAL_SWAP_SLOTS) (slot_bitmap w);
    match r with
    | Some slot =>
        bm ← bm_set slot (slot_bitmap w);
        Ok (set_slots bm (u64 (used_slots w + 1)) ((slot + 1) mod ACTUAL_SWAP_SLOTS) w, slot)
    | None => Ok (w, -1)
    end.

Definition free_slot_internal (slot : Z) w : res (Swap D) :=
  if ACTUAL_SWAP_SLOTS <=? slot then Ok w
  else
    used ← bm_test slot (slot_bitmap w);
    if (used : bool) then
      bm ← bm_clear slot (slot_bitmap w);
      let hint := if slot <? next_free_hint w then slot else next_free_hint w in
      Ok (set_slots bm (u64 (used_slots w - 1)) hint w)
    else Ok w.

Definition sector_of (slot : Z) : Z := u64 (SWAP_SECTOR_START + u64 (slot * SECTORS_PER_PAGE)).

Definition swap_out (phys_addr : Z) w (s : Phys F) : res (Swap D * Z) :=
  match swap_device w with
  | Some d =>
      if negb (swap_initialized w) then Ok (w, 0)
      else
        '(w, slot) ← alloc_slot w;
        if slot <? 0 then Ok (w, 0)
        else
          match ram s !! phys_addr with
          | None => Ub
          | Some page =>
              let '(d, result) := write_sectors (sector_of slot) SECTORS_PER_PAGE page d in
              let w := set_device (Some d) w in
              if result <? 0 then w ← free_slot_internal slot w; Ok (count_error w, 0)
              else Ok (count_out w, make_swap_entry slot)
          end
  | None => Ok (w, 0)
  end.

Definition swap_in (swap_entry dest_phys : Z) w (s : Phys F) : res (Swap D * Phys F * bool) :=
  match swap_device w with
  | Some d =>
      if negb (swap_initialized w) then Ok (w, s, false)
      else if negb (is_swap_entry swap_entry) then Ok (w, s, false)
      else
        let slot := get_swap_slot swap_entry in
        if ACTUAL_SWAP_SLOTS <=? slot then Ok (w, s, false)
        else
          used ← bm_test slot (slot_bitmap w);
          if negb (used : bool) then Ok (w, s, false)
          else
            match ram s !! dest_phys with
            | None => Ub
            | Some _ =>
                let '(result, page) := read_sectors (sector_of slot) SECTORS_PER_PAGE d in
                let s := set_ram (<[dest_phys := page]> (ram s)) s in
                if result <? 0 then Ok (count_error w, s, false)
                else w ← free_slot_internal slot w; Ok (count_in w, s, true)
            end
  | None => Ok (w, s, false)
  end.

Definition free_slot (swap_entry : Z) w : res (Swap D) :=
  if negb (is_available w) then Ok w
  else if negb (is_swap_entry swap_entry) then Ok w
  else
    let slot := get_swap_slot swap_entry in
    if ACTUAL_SWAP_SLOTS <=? slot then Ok w else free_slot_internal slot w.

Definition get_stats w : Z * Z * Z * Z * Z := (ACTUAL_SWAP_SLOTS, used_slots w, stat_swap_outs w, stat_swap_ins w, stat_io_errors w).

End Swap.

(** ** The slots hold the pages written out *)

(** What the swap code relies on: a write that reports success is what later
    reads of that page return, and it does not change other pages. *)
Class DeviceLaws (D : Type) {dev : SectorDevice D} := {
  dl_same d d' k p r : write_sectors k SECTORS_PER_PAGE p d = (d', r) -> 0 <= r -> (read_sectors k SECTORS_PER_PAGE d').2 = p;
  dl_other d d' k k' p r : write_sectors k SECTORS_PER_PAGE p d = (d', r) -> k + SECTORS_PER_PAGE <= k' \/ k' + SECTORS_PER_PAGE <= k ->
    (read_sectors k' SECTORS_PER_PAGE d').2 = (read_sectors k' SECTORS_PER_PAGE d).2
}.

Section Spec.
Context {D : Type} {dev : SectorDevice D} {laws : DeviceLaws D} {F : Type}.
Implicit Type w : Swap D.
Implicit Type s : Phys F.
Import PmmSpec.

(** [M] maps the slots in use to the pages they hold. *)
Record holds w (M : gmap Z (list Z)) : Prop := {
  sw_ready : swap_initialized w = true /\ exists d, swap_device w = Some d /\ forall k p, M !! k = Some p -> (read_sectors (sector_of k) SECTORS_PER_PAGE d).2 = p;
  sw_words : words_ok (slot_bitmap w) /\ length (slot_bitmap w) = Z.to_nat BITMAP_SIZE;
  sw_bits : forall k, 0 <= k < ACTUAL_SWAP_SLOTS -> bit_at (slot_bitmap w) k = bool_decide (is_Some (M !! k));
  sw_dom : forall k p, M !! k = Some p -> 0 <= k < ACTUAL_SWAP_SLOTS;
  sw_count : used_slots w = Z.of_nat (length (set_bits (slot_bitmap w) ACTUAL_SWAP_SLOTS))
}.

Lemma sector_small k : 0 <= k < ACTUAL_SWAP_SLOTS -> sector_of k = 8192 + k * 8.
Proof. unfold sector_of, ACTUAL_SWAP_SLOTS, SWAP_SECTOR_START. change SECTORS_PER_PAGE with 8. intros Hk. rewrite (u64_small (k * 8)), u64_small; lia. Qed.

Lemma sectors_apart k k' : 0 <= k < ACTUAL_SWAP_SLOTS -> 0 <= k' < ACTUAL_SWAP_SLOTS -> k <> k' ->
  sector_of k + SECTORS_PER_PAGE <= sector_of k' \/ sector_of k' + SECTORS_PER_PAGE <= sector_of k.
Proof. intros Hk Hk' Hn. rewrite !sector_small by done. change SECTORS_PER_PAGE with 8. lia. Qed.

Lemma slot_roundtrip k : 0 <= k < ACTUAL_SWAP_SLOTS -> is_swap_entry (make_swap_entry k) = true /\ get_swap_slot (make_swap_entry k) = k /\ make_swap_entry k <> 0.
Proof.
  unfold ACTUAL_SWAP_SLOTS. intros Hk. unfold make_swap_entry. change (Z.shiftl k SLOT_SHIFT) with (Z.shiftl k 12). rewrite Z.shiftl_mul_pow2, u64_small by lia.
  change SWAP_FLAG with 2. rewrite lor_low_high by lia. split; [|split].
  - unfold is_swap_entry. change PRESENT_BIT with (2 ^ 0). change SWAP_FLAG with (2 ^ 1). rewrite !land_bit by lia. rewrite <- (lor_low_high 12), !Z.lor_spec, !Z.mul_pow2_bits_low by lia. done.
  - unfold get_swap_slot. change SLOT_MASK with (u64 (Z.lnot (2 ^ 12 - 1))). rewrite land_align_down by lia. change SLOT_SHIFT with 12. rewrite Z.shiftr_div_pow2, Z.div_mul by lia. div_lia.
  - lia.
Qed.

Lemma set_bits_length bm n : 0 <= n -> Z.of_nat (length (set_bits bm n)) <= n.
Proof. intros Hn. assert (H := List.filter_length_le (bit_at bm) (seqZ 0 n)). rewrite length_seqZ in H. unfold set_bits. lia. Qed.

Lemma slot_range w M k : holds w M -> 0 <= k < ACTUAL_SWAP_SLOTS -> 0 <= k < 64 * Z.of_nat (length (slot_bitmap w)).
Proof. intros H Hk. destruct (sw_words _ _ H) as [_ ->]. unfold ACTUAL_SWAP_SLOTS in Hk. change (Z.of_nat (Z.to_nat BITMAP_SIZE)) with 16. lia. Qed.

Lemma alloc_slot_ok w M :
  holds w M ->
  (exists slot bm, alloc_slot w = Ok (set_slots bm (u64 (used_slots w + 1)) ((slot + 1) mod ACTUAL_SWAP_SLOTS) w, slot) /\ 0 <= slot < ACTUAL_SWAP_SLOTS /\ M !! slot = None /\
     bit_update (slot_bitmap w) bm slot true /\ used_slots w < ACTUAL_SWAP_SLOTS) \/
  alloc_slot w = Ok (w, -1).
Proof.
  intros H. unfold alloc_slot. destruct (Z.leb_spec ACTUAL_SWAP_SLOTS (used_slots w)); [by right|].
  assert (Hn : 0 < ACTUAL_SWAP_SLOTS <= 64 * Z.of_nat (length (slot_bitmap w))) by (destruct (sw_words _ _ H) as [_ ->]; done).
  destruct (bm_scan_all ACTUAL_SWAP_SLOTS (next_free_hint w) (fun _ => false) (slot_bitmap w) Hn) as ([slot|] & -> & Hs); rewrite bind_Ok; [|by right].
  destruct Hs as (Hr & _ & Hb). destruct (bm_set_ok slot (slot_bitmap w)) as (bm & -> & Hu); [apply H|by eapply slot_range|]. rewrite bind_Ok. left. exists slot, bm.
  split; [done|]. split; [done|]. split; [|done]. rewrite (sw_bits _ _ H) in Hb by done. apply bool_decide_eq_false in Hb. by apply eq_None_not_Some.
Qed.

Lemma free_slot_ok w M k p :
  holds w M -> M !! k = Some p -> exists bm hint, free_slot_internal k w = Ok (set_slots bm (u64 (used_slots w - 1)) hint w) /\ bit_update (slot_bitmap w) bm k false /\ 0 < used_slots w.
Proof.
  intros H Hk. assert (Hr := sw_dom _ _ H _ _ Hk). unfold free_slot_internal. destruct (Z.leb_spec ACTUAL_SWAP_SLOTS k); [lia|].
  assert (Hb : bit_at (slot_bitmap w) k = true) by (rewrite (sw_bits _ _ H), Hk by done; by apply bool_decide_true).
  rewrite bm_test_ok, Hb, bind_Ok by (by eapply slot_range). destruct (bm_clear_ok k (slot_bitmap w)) as (bm & -> & Hu); [apply H|by eapply slot_range|]. rewrite bind_Ok.
  eexists _, _. split; [done|]. split; [done|]. rewrite (sw_count _ _ H). assert (Hin : k ∈ set_bits (slot_bitmap w) ACTUAL_SWAP_SLOTS) by (by apply elem_set_bits).
  destruct (set_bits (slot_bitmap w) ACTUAL_SWAP_SLOTS); [by apply not_elem_of_nil in Hin|cbn; lia].
Qed.

Lemma holds_delete w M k p bm hint :
  holds w M -> M !! k = Some p -> bit_update (slot_bitmap w) bm k false -> holds (set_slots bm (u64 (used_slots w - 1)) hint w) (delete k M).
Proof.
  intros H Hk Hu. assert (Hr := sw_dom _ _ H _ _ Hk). assert (Hb : bit_at (slot_bitmap w) k = true) by (rewrite (sw_bits _ _ H), Hk by done; by apply bool_decide_true).
  destruct (sw_ready _ _ H) as (Hi & d & Hd & Hread). assert (Hp := Permutation_length (set_bits_del _ _ ACTUAL_SWAP_SLOTS k Hu Hr Hb)). cbn [length] in Hp. assert (Hle := set_bits_length (slot_bitmap w) ACTUAL_SWAP_SLOTS ltac:(done)).
  constructor; cbn [set_slots swap_initialized swap_device slot_bitmap used_slots].
  - split; [done|]. exists d. split; [done|]. intros k' p' [_ Hk']%lookup_delete_Some. by apply Hread.
  - destruct Hu as (-> & ? & _). split; [done|]. apply H.
  - intros k' Hk'. destruct Hu as (_ & _ & ->); [|lia]. destruct (Z.eqb_spec k' k) as [->|Hne].
    + rewrite lookup_delete_eq. by rewrite bool_decide_false by (by intros [? ?]).
    + rewrite lookup_delete_ne by done. by apply (sw_bits _ _ H).
  - intros k' p' [_ Hk']%lookup_delete_Some. by eapply sw_dom.
  - assert (Hc := sw_count _ _ H). change ACTUAL_SWAP_SLOTS with 1024 in *. rewrite u64_small; lia.
Qed.

Lemma holds_insert w M k p bm d d' r hint :
  holds w M -> M !! k = None -> 0 <= k < ACTUAL_SWAP_SLOTS -> used_slots w < ACTUAL_SWAP_SLOTS -> swap_device w = Some d -> bit_update (slot_bitmap w) bm k true ->
  write_sectors (sector_of k) SECTORS_PER_PAGE p d = (d', r) -> 0 <= r ->
  holds (set_device (Some d') (set_slots bm (u64 (used_slots w + 1)) hint w)) (<[k := p]> M).
Proof.
  intros H Hk Hr Hlt Hd Hu Hw Hok. destruct (sw_ready _ _ H) as (Hi & d0 & Hd0 & Hread). rewrite Hd in Hd0. injection Hd0 as <-.
  assert (Hb : bit_at (slot_bitmap w) k = false) by (rewrite (sw_bits _ _ H), Hk by done; apply bool_decide_false; by intros [? ?]).
  assert (Hp := Permutation_length (set_bits_add _ _ ACTUAL_SWAP_SLOTS k Hu Hr Hb)). cbn [length] in Hp. constructor; cbn [set_device set_slots swap_initialized swap_device slot_bitmap used_slots].
  - split; [done|]. exists d'. split; [done|]. intros k' p' [[<- <-]|[Hne Hk']]%lookup_insert_Some; [by eapply dl_same|]. rewrite (dl_other _ _ _ _ _ _ Hw); [by apply Hread|].
    apply sectors_apart; [done| |done]. by eapply sw_dom.
  - destruct Hu as (-> & ? & _). split; [done|]. apply H.
  - intros k' Hk'. destruct Hu as (_ & _ & ->); [|lia]. destruct (Z.eqb_spec k' k) as [->|Hne].
    + rewrite lookup_insert_eq. by rewrite bool_decide_true.
    + rewrite lookup_insert_ne by done. by apply (sw_bits _ _ H).
  - intros k' p' [[<- _]|[_ Hk']]%lookup_insert_Some; [done|by eapply sw_dom].
  - assert (Hc := sw_count _ _ H). change ACTUAL_SWAP_SLOTS with 1024 in *. rewrite u64_small; lia.
Qed.


End Spec.

(** A disk that keeps pages by their first sector, and never fails. *)
Abbreviation Pages := (gmap Z (list Z)).
#[export] Instance pages_device : SectorDevice Pages := {
  capacity _ := 16384;
  write_sectors k _ p d := (<[k := p]> d, 0);
  read_sectors k _ d := (0, default [] (d !! k))
}.
#[export] Instance pages_laws : DeviceLaws Pages.
Proof.
  constructor.
  - intros d d' k p r [= <- <-] _. cbn [read_sectors pages_device snd]. by rewrite lookup_insert_eq.
  - intros d d' k k' p r [= <- <-] H. cbn [read_sectors pages_device snd]. rewrite lookup_insert_ne; [done|]. change SECTORS_PER_PAGE with 8 in H. lia.
Qed.

Definition demo : Swap Pages := (init (Some ∅) (mkSwap false None [] 0 0 0 0 0)).1.
Lemma demo_empty : holds demo ∅.
Proof.
  constructor.
  - split; [done|]. exists ∅. split; [done|]. intros k p Hk. by rewrite lookup_empty in Hk.
  - split; [|done]. apply Forall_forall. intros x Hx. apply list_elem_of_In in Hx. cbn in Hx. repeat (destruct Hx as [<-|Hx]; [done|]). done.
  - intros k Hk. rewrite lookup_empty, bool_decide_false by (by intros [? ?]). unfold PmmSpec.bit_at. change (slot_bitmap demo) with (replicate 16 0).
    destruct (replicate 16 0 !! Z.to_nat (k / 64)) as [x|] eqn:E; cbn [default from_option id]; [apply lookup_replicate_1 in E as [-> _]|]; apply Z.bits_0.
  - intros k p Hk. by rewrite lookup_empty in Hk.
  - vm_compute. reflexivity.
Qed.

Definition demo_ram : Phys unit := mkPhys {[ 4096 := [1; 2; 3]; 8192 := [9] ]} tt.

End Swap.
