(* ===== verification/AddressSpace.v ===== *)
(** * Address spaces: page tables and address space identifiers

    Models [src/kernel/viper/address_space.cpp] and [address_space.hpp] for one
    address space: the ASID allocator and the operations that walk and build the
    four levels of page tables.  A page table is a frame of [Phys]; the pointer
    the source keeps to a table is the address of its frame, 0 the null pointer.
    Cache and TLB maintenance and the serial output are dropped. *)

From S2P Require Import Prelude Buddy Bitmap Frames.

Module AddressSpace.
Import Bitmap Frames.

(** [namespace prot] and [namespace pte]. *)
Definition READ : Z := 1.
Definition WRITE : Z := 2.
Definition EXEC : Z := 4.
Definition UNCACHED : Z := 8.

Definition VALID : Z := Z.shiftl 1 0.
Definition TABLE : Z := Z.shiftl 1 1.
Definition PAGE : Z := Z.shiftl 1 1.
Definition AF : Z := Z.shiftl 1 10.
Definition SH_INNER : Z := Z.shiftl 3 8.
Definition AP_EL0 : Z := Z.shiftl 1 6.
Definition AP_RO : Z := Z.shiftl 2 6.
Definition UXN : Z := Z.shiftl 1 54.
Definition PXN : Z := Z.shiftl 1 53.
Definition ATTR_NORMAL : Z := Z.shiftl 1 2.
Definition ATTR_NC : Z := Z.shiftl 2 2.
Definition ADDR_MASK : Z := 0xFFFFFFFFF000.

(** ** Address space identifiers *)

Definition MAX_ASID : Z := 256.
Definition ASID_INVALID : Z := 0.

Record Asids := mkAsids { asid_bitmap : list Z; asid_next : Z }.

Definition asid_init (a : Asids) : Asids := mkAsids [1; 0; 0; 0] 1.

Definition asid_alloc (a : Asids) : res (Asids * Z) :=
  r ← scan MAX_ASID (asid_next a) (fun k => k =? 0) (seqZ 0 MAX_ASID) (asid_bitmap a);
  match r with
  | None => Ok (a, ASID_INVALID)
  | Some asid => bm ← bm_set asid (asid_bitmap a); Ok (mkAsids bm ((asid + 1) mod MAX_ASID), asid)
  end.

Definition asid_free (asid : Z) (a : Asids) : res Asids :=
  if (asid =? 0) || (MAX_ASID <=? asid) then Ok a
  else bm ← bm_clear asid (asid_bitmap a); Ok (mkAsids bm (asid_next a)).

(** ** Page tables *)

Record AddressSpace := mkAS { root_ : Z; asid_ : Z }.
Definition is_valid (a : AddressSpace) : bool := negb (asid_ a =? ASID_INVALID) && negb (root_ a =? 0).

Definition idx0 (va : Z) : Z := Z.land (Z.shiftr va 39) 0x1FF.
Definition idx1 (va : Z) : Z := Z.land (Z.shiftr va 30) 0x1FF.
Definition idx2 (va : Z) : Z := Z.land (Z.shiftr va 21) 0x1FF.
Definition idx3 (va : Z) : Z := Z.land (Z.shiftr va 12) 0x1FF.

Definition valid (e : Z) : bool := negb (Z.land e VALID =? 0).
Definition is_table (e : Z) : bool := negb (Z.land e TABLE =? 0).
Definition addr_of (e : Z) : Z := Z.land e ADDR_MASK.

Section Tables.
Context {F : Type} {frames : FrameAllocator F}.
Implicit Type s : Phys F.

Definition get_or_alloc_table (parent index : Z) s : res (Phys F * Z) :=
  e ← ldw parent index s;
  if negb (valid e) then
    '(s, page) ← new_page s;
    if page =? 0 then Ok (s, 0)
    else
      s ← zero_page page s;
      s ← stw parent index (Z.lor (Z.lor page VALID) TABLE) s;
      e ← ldw parent index s;
      Ok (s, addr_of e)
  else Ok (s, addr_of e).

(** The walk of [map] and [write_pte], which builds missing tables: the address
    of the last table, or 0. *)
Definition walk_alloc (root va : Z) s : res (Phys F * Z) :=
  '(s, l1) ← get_or_alloc_table root (idx0 va) s;
  if l1 =? 0 then Ok (s, 0)
  else
    '(s, l2) ← get_or_alloc_table l1 (idx1 va) s;
    if l2 =? 0 then Ok (s, 0)
    else get_or_alloc_table l2 (idx2 va) s.

(** The walk of [unmap], [translate] and [read_pte], which stops at an invalid
    entry. *)
Definition walk (root va : Z) s : res (option Z) :=
  e0 ← ldw root (idx0 va) s;
  if negb (valid e0) then Ok None
  else
    e1 ← ldw (addr_of e0) (idx1 va) s;
    if negb (valid e1) then Ok None
    else
      e2 ← ldw (addr_of e1) (idx2 va) s;
      if negb (valid e2) then Ok None else Ok (Some (addr_of e2)).

Definition page_entry (pa prot_flags : Z) : Z :=
  let attr := if negb (Z.land prot_flags UNCACHED =? 0) then ATTR_NC else ATTR_NORMAL in
  let entry := Z.lor (Z.lor (Z.lor (Z.lor (Z.lor (Z.lor pa VALID) PAGE) AF) SH_INNER) AP_EL0) attr in
  let entry := if Z.land prot_flags WRITE =? 0 then Z.lor entry AP_RO else entry in
  if Z.land prot_flags EXEC =? 0 then Z.lor entry (Z.lor UXN PXN) else entry.

Definition write_pte_at (root va entry : Z) s : res (Phys F * bool) :=
  '(s, l3) ← walk_alloc root va s;
  if l3 =? 0 then Ok (s, false)
  else s ← stw l3 (idx3 va) entry s; Ok (s, true).

Fixpoint map_loop (is_ : list Z) (root virt phys prot_flags : Z) s : res (Phys F * bool) :=
  match is_ with
  | [] => Ok (s, true)
  | i :: is_ =>
      let va := u64 (virt + u64 (i * 4096)) in
      let pa := u64 (phys + u64 (i * 4096)) in
      '(s, ok) ← write_pte_at root va (page_entry pa prot_flags) s;
      if (ok : bool) then map_loop is_ root virt phys prot_flags s else Ok (s, false)
  end.

Definition page_count (size : Z) : Z := u64 (size + 4095) / 4096.

Definition map (a : AddressSpace) (virt phys size prot_flags : Z) s : res (Phys F * bool) :=
  if root_ a =? 0 then Ok (s, false)
  else map_loop (seqZ 0 (page_count size)) (root_ a) virt phys prot_flags s.

Definition unmap_page (root va : Z) s : res (Phys F) :=
  l3 ← walk root va s;
  match l3 with None => Ok s | Some l3 => stw l3 (idx3 va) 0 s end.

Definition unmap (a : AddressSpace) (virt size : Z) s : res (Phys F) :=
  if root_ a =? 0 then Ok s
  else foldM (fun s i => unmap_page (root_ a) (u64 (virt + u64 (i * 4096))) s) (seqZ 0 (page_count size)) s.

Definition alloc_map (a : AddressSpace) (virt size prot_flags : Z) s : res (Phys F * Z) :=
  let pages := page_count size in
  '(s, phys) ← new_pages pages s;
  if phys =? 0 then Ok (s, 0)
  else
    s ← foldM (fun s i => zero_page (phys + i * 4096) s) (seqZ 0 pages) s;
    '(s, ok) ← map a virt phys size prot_flags s;
    if (ok : bool) then Ok (s, virt)
    else s ← drop_pages phys pages s; Ok (s, 0).

Definition translate (a : AddressSpace) (virt : Z) s : res Z :=
  if root_ a =? 0 then Ok 0
  else
    l3 ← walk (root_ a) virt s;
    match l3 with
    | None => Ok 0
    | Some l3 =>
        e ← ldw l3 (idx3 virt) s;
        if negb (valid e) then Ok 0 else Ok (Z.lor (addr_of e) (Z.land virt 0xFFF))
    end.

Definition read_pte (a : AddressSpace) (virt : Z) s : res Z :=
  if root_ a =? 0 then Ok 0
  else
    l3 ← walk (root_ a) virt s;
    match l3 with None => Ok 0 | Some l3 => ldw l3 (idx3 virt) s end.

Definition write_pte (a : AddressSpace) (virt entry : Z) s : res (Phys F * bool) :=
  if root_ a =? 0 then Ok (s, false) else write_pte_at (root_ a) virt entry s.

End Tables.

End AddressSpace.
