(* ===== verification/AddressSpaceSpec.v ===== *)
(** * Page tables implement a map from pages to entries

    The tables reached from the root along user paths form a tree: no table is
    reached twice and none is a free frame.  Then every operation of an address
    space is an operation on one map from page numbers to entries, and leaves
    every frame alone that is neither free nor one of its tables. *)

From S2P Require Import Prelude Buddy Frames AddressSpace.

Module AddressSpaceSpec.
Import Buddy(PAGE_SIZE).
Import Frames AddressSpace.

(** ** Indices *)

Definition vpn (va : Z) : Z := va / 2 ^ 12 mod 2 ^ 36.
Definition vpath (va : Z) : list Z := [idx0 va; idx1 va; idx2 va].

Lemma idx_spec n va : 0 <= n -> Z.land (Z.shiftr va n) 0x1FF = va / 2 ^ n mod 512.
Proof. intros Hn. rewrite Z.shiftr_div_pow2 by done. change 0x1FF with (Z.ones 9). by rewrite Z.land_ones. Qed.

Lemma idx_range n va : 0 <= n -> 0 <= Z.land (Z.shiftr va n) 0x1FF < 512.
Proof. intros Hn. rewrite idx_spec by done. apply Z.mod_pos_bound. lia. Qed.

Lemma vpn_idx va : vpn va = ((idx0 va * 512 + idx1 va) * 512 + idx2 va) * 512 + idx3 va.
Proof.
  unfold vpn, idx0, idx1, idx2, idx3. rewrite !idx_spec by lia.
  change (2 ^ 39) with (2 ^ 12 * 512 * 512 * 512). change (2 ^ 30) with (2 ^ 12 * 512 * 512). change (2 ^ 21) with (2 ^ 12 * 512).
  rewrite <- !Z.div_div by lia. generalize (va / 2 ^ 12). clear va. intros v. change (2 ^ 36) with (512 * (512 * (512 * 512))).
  rewrite !Z.rem_mul_r, !Z.div_div by lia. change (512 * 512 * 512) with (512 * (512 * 512)). lia.
Qed.

Lemma vpn_eq va va' : vpn va = vpn va' <-> vpath va = vpath va' /\ idx3 va = idx3 va'.
Proof.
  rewrite !vpn_idx. assert (R := fun n => idx_range n). unfold vpath.
  assert (H0 := idx_range 39 va). assert (H0' := idx_range 39 va'). assert (H1 := idx_range 30 va). assert (H1' := idx_range 30 va').
  assert (H2 := idx_range 21 va). assert (H2' := idx_range 21 va'). assert (H3 := idx_range 12 va). assert (H3' := idx_range 12 va').
  fold (idx0 va) in H0. fold (idx0 va') in H0'. fold (idx1 va) in H1. fold (idx1 va') in H1'. fold (idx2 va) in H2. fold (idx2 va') in H2'.
  fold (idx3 va) in H3. fold (idx3 va') in H3'. split.
  - intros E. assert (idx0 va = idx0 va' /\ idx1 va = idx1 va' /\ idx2 va = idx2 va' /\ idx3 va = idx3 va') as (-> & -> & -> & ->) by lia. done.
  - intros [[= -> -> ->] ->]. done.
Qed.

(** ** Paths *)

(** The two entries of the first L1 table that are copied from the kernel. *)
Definition hole (path : list Z) : Prop := exists j rest, path = 0 :: j :: rest /\ 0 <= j < 2.
Definition user (path : list Z) : Prop := Forall (fun i => 0 <= i < 512) path /\ (length path <= 3)%nat /\ ~ hole path.

Lemma user_prefix p q : user (p ++ q) -> user p.
Proof.
  intros (H1 & H2 & H3). apply Forall_app in H1 as [H1 _]. rewrite length_app in H2. split; [done|]. split; [lia|].
  intros (j & rest & -> & Hj). apply H3. exists j, (rest ++ q). done.
Qed.

Definition user_va (va : Z) : Prop := 2 ^ 19 <= vpn va.

Lemma user_vpath va : user_va va <-> user (vpath va).
Proof.
  unfold user_va, user, vpath. rewrite vpn_idx. assert (H0 := idx_range 39 va). assert (H1 := idx_range 30 va). assert (H2 := idx_range 21 va). assert (H3 := idx_range 12 va).
  fold (idx0 va) in H0. fold (idx1 va) in H1. fold (idx2 va) in H2. fold (idx3 va) in H3. split.
  - intros Hu. split; [rewrite !Forall_cons; split_and!; try lia; by apply Forall_nil|]. split; [cbn; lia|]. intros (j & rest & [= E0 E1 _] & Hj). lia.
  - intros (_ & _ & Hh). destruct (Z.le_gt_cases (2 ^ 19) (((idx0 va * 512 + idx1 va) * 512 + idx2 va) * 512 + idx3 va)); [done|]. exfalso. apply Hh.
    exists (idx1 va), [idx2 va]. assert (idx0 va = 0) as -> by lia. split; [done|]. lia.
Qed.

Definition step (m : gmap Z (list Z)) (b i : Z) : option Z :=
  match m !! b with
  | Some p => match p !! Z.to_nat i with Some e => if valid e then Some (addr_of e) else None | None => None end
  | None => None
  end.
Fixpoint reach (m : gmap Z (list Z)) (b : Z) (path : list Z) : option Z :=
  match path with [] => Some b | i :: path => match step m b i with Some c => reach m c path | None => None end end.

Lemma reach_app m b p q : reach m b (p ++ q) = match reach m b p with Some c => reach m c q | None => None end.
Proof. revert b. induction p as [|i p IH]; intros b; [done|]. cbn [app reach]. destruct (step m b i); [apply IH|done]. Qed.

Lemma reach_snoc m b p i : reach m b (p ++ [i]) = match reach m b p with Some c => step m c i | None => None end.
Proof. rewrite reach_app. destruct (reach m b p) as [c|]; [|done]. cbn. by destruct (step m c i). Qed.

Section Spec.
Context {F : Type} {frames : FrameAllocator F} {laws : FrameLaws F}.
Implicit Type s : Phys F.

Record ptinv s (root : Z) : Prop := {
  pt_frames : fr_inv (pm s);
  pt_mem : forall p, fr_owns (pm s) p -> exists w, ram s !! (p * PAGE_SIZE) = Some w /\ length w = WORDS;
  pt_tables : forall path b, user path -> reach (ram s) root path = Some b ->
    b mod PAGE_SIZE = 0 /\ fr_owns (pm s) (b / PAGE_SIZE) /\ b / PAGE_SIZE ∉ fr_free (pm s);
  pt_inj : forall p q b, user p -> user q -> reach (ram s) root p = Some b -> reach (ram s) root q = Some b -> p = q
}.

(** The entry of a page, 0 where there is no table. *)
Definition pte (m : gmap Z (list Z)) (root va : Z) : Z :=
  match reach m root (vpath va) with
  | Some l3 => match m !! l3 with Some p => default 0 (p !! Z.to_nat (idx3 va)) | None => 0 end
  | None => 0
  end.

Lemma table_page s root path b : ptinv s root -> user path -> reach (ram s) root path = Some b -> exists w, ram s !! b = Some w /\ length w = WORDS.
Proof.
  intros H Hu Hr. destruct (pt_tables _ _ H _ _ Hu Hr) as (Ha & Ho & _). destruct (pt_mem _ _ H _ Ho) as (w & Hw & Hl). exists w.
  replace (b / PAGE_SIZE * PAGE_SIZE) with b in Hw by (unfold PAGE_SIZE in *; div_lia). done.
Qed.

Lemma ldw_table s root path b i : ptinv s root -> user path -> reach (ram s) root path = Some b -> 0 <= i < 512 ->
  exists w e, ram s !! b = Some w /\ length w = WORDS /\ w !! Z.to_nat i = Some e /\ ldw b i s = Ok e.
Proof.
  intros H Hu Hr Hi. destruct (table_page _ _ _ _ H Hu Hr) as (w & Hw & Hl). assert (Hlt : (Z.to_nat i < length w)%nat) by (rewrite Hl; unfold WORDS; lia).
  apply lookup_lt_is_Some_2 in Hlt as [e He]. exists w, e. split_and!; try done. unfold ldw. rewrite Hw. by apply rd_Z; [lia|].
Qed.

(** ** Changes of memory *)

(** Writing word [i] of the table at [path] moves only the paths through it. *)
Lemma reach_store m root path b w i e :
  (forall p q c, user p -> user q -> reach m root p = Some c -> reach m root q = Some c -> p = q) ->
  user path -> reach m root path = Some b -> m !! b = Some w -> 0 <= i ->
  forall q, user q -> ~ (exists r, q = path ++ i :: r) -> reach (<[b := <[Z.to_nat i := e]> w]> m) root q = reach m root q.
Proof.
  intros Hinj Hu Hr Hw Hi q. induction q as [|j q IH] using rev_ind; [done|]. intros Hq Hn. rewrite !reach_snoc.
  assert (Huq : user q) by (by eapply user_prefix). rewrite IH; [|done|intros (r & ->); apply Hn; exists (r ++ [j]); by rewrite <- app_assoc].
  destruct (reach m root q) as [c|] eqn:Ec; [|done]. unfold step. destruct (decide (b = c)) as [<-|Hne]; [|by rewrite lookup_insert_ne].
  rewrite lookup_insert_eq, Hw. assert (q = path) as -> by (by eapply Hinj). rewrite list_lookup_insert_ne; [done|]. intros E. apply Hn. exists [].
  destruct Hq as (Hf & _). apply Forall_app in Hf as [_ [Hj _]%Forall_cons]. f_equal. f_equal. lia.
Qed.

(** Writing a frame that is not a table moves no path. *)
Lemma reach_other m root n w :
  (forall q, user q -> reach m root q <> Some n) -> forall q, user q -> reach (<[n := w]> m) root q = reach m root q.
Proof.
  intros Hn q. induction q as [|j q IH] using rev_ind; [done|]. intros Hq. rewrite !reach_snoc. assert (Huq : user q) by (by eapply user_prefix). rewrite IH by done.
  destruct (reach m root q) as [c|] eqn:Ec; [|done]. unfold step. rewrite lookup_insert_ne; [done|]. intros ->. by apply (Hn q Huq).
Qed.
(** ** Entries *)

Lemma frame_addr k : 0 <= k < 2 ^ 36 -> Z.land (k * 4096) ADDR_MASK = k * 4096.
Proof.
  intros Hk. change ADDR_MASK with (Z.shiftl (Z.ones 36) 12). change 4096 with (2 ^ 12). rewrite <- Z.shiftl_mul_pow2, <- Z.shiftl_land, Z.land_ones by lia.
  by rewrite Z.mod_small.
Qed.

Lemma entry_addr k x : 0 <= k < 2 ^ 36 -> Z.land x ADDR_MASK = 0 -> addr_of (Z.lor (k * 4096) x) = k * 4096.
Proof. intros Hk Hx. unfold addr_of. by rewrite Z.land_lor_distr_l, frame_addr, Hx, Z.lor_0_r. Qed.

Lemma entry_valid a x : Z.testbit x 0 = true -> valid (Z.lor a x) = true.
Proof. intros Hx. unfold valid. change VALID with (2 ^ 0). by rewrite land_bit, Z.lor_spec, Hx, orb_true_r by lia. Qed.

Lemma table_entry k : 0 <= k < 2 ^ 36 -> let e := Z.lor (Z.lor (k * 4096) VALID) TABLE in valid e = true /\ addr_of e = k * 4096.
Proof. intros Hk. rewrite <- Z.lor_assoc. split; [by apply entry_valid|by apply entry_addr]. Qed.

(** ** Building tables *)

Record grown s s' (root : Z) : Prop := {
  gr_owns : forall p, fr_owns (pm s') p <-> fr_owns (pm s) p;
  gr_free : exists ns, fr_free (pm s) ≡ₚ ns ++ fr_free (pm s') /\
    forall n, n ∈ ns -> exists p, user p /\ reach (ram s') root p = Some (n * PAGE_SIZE);
  gr_old : forall p b, user p -> reach (ram s) root p = Some b -> reach (ram s') root p = Some b;
  gr_new : forall p b, user p -> reach (ram s') root p = Some b -> reach (ram s) root p = Some b \/ b / PAGE_SIZE ∈ fr_free (pm s);
  gr_keep : forall q, (forall p, user p -> reach (ram s) root p <> Some q) -> q / PAGE_SIZE ∉ fr_free (pm s) -> ram s' !! q = ram s !! q
}.

Lemma gr_shrinks s s' root p : grown s s' root -> p ∈ fr_free (pm s') -> p ∈ fr_free (pm s).
Proof. intros H Hp. destruct (gr_free _ _ _ H) as (ns & -> & _). apply elem_of_app. by right. Qed.

Lemma grown_refl s root : grown s s root.
Proof. constructor; try done; [exists []; split; [done|by intros n ?%not_elem_of_nil]|by left]. Qed.

Lemma grown_trans s1 s2 s3 root : grown s1 s2 root -> grown s2 s3 root -> grown s1 s3 root.
Proof.
  intros A B. constructor.
  - intros p. by rewrite (gr_owns _ _ _ B), (gr_owns _ _ _ A).
  - destruct (gr_free _ _ _ A) as (ns & En & Hn), (gr_free _ _ _ B) as (ns' & En' & Hn'). exists (ns ++ ns'). split; [by rewrite En, En', app_assoc|].
    intros n [Hin|Hin]%elem_of_app; [|by apply Hn']. destruct (Hn n Hin) as (p & Hp & Hr). exists p. split; [done|]. by apply (gr_old _ _ _ B).
  - intros p b Hu Hr. by apply (gr_old _ _ _ B), (gr_old _ _ _ A).
  - intros p b Hu Hr. destruct (gr_new _ _ _ B p b Hu Hr) as [Hr'|Hf]; [by apply (gr_new _ _ _ A)|right; by eapply gr_shrinks].
  - intros q Hq Hf. rewrite (gr_keep _ _ _ B), (gr_keep _ _ _ A); try done.
    + intros p Hu Hr. destruct (gr_new _ _ _ A p q Hu Hr) as [Hr'|Hf']; [by apply (Hq p)|done].
    + intros Hin. by apply Hf, (gr_shrinks _ _ _ _ A).
Qed.

(** A fresh table at the end of [path ++ [i]], whose entry was invalid. *)
Lemma new_table s root path i b f n w e :
  ptinv s root -> user (path ++ [i]) -> reach (ram s) root path = Some b -> ram s !! b = Some w -> w !! Z.to_nat i = Some e -> valid e = false ->
  fr_inv f -> (forall p, fr_owns f p <-> fr_owns (pm s) p) -> fr_free (pm s) ≡ₚ n :: fr_free f ->
  let s' := mkPhys (<[b := <[Z.to_nat i := Z.lor (Z.lor (n * PAGE_SIZE) VALID) TABLE]> w]> (<[n * PAGE_SIZE := replicate WORDS 0]> (ram s))) f in
  ptinv s' root /\ grown s s' root /\ reach (ram s') root (path ++ [i]) = Some (n * PAGE_SIZE) /\
  (forall va, user (vpath va) -> pte (ram s') root va = pte (ram s) root va).
Proof.
  intros H Hu Hr Hw He Hv Hf Ho Hp s'. assert (Hup := user_prefix _ _ Hu). destruct (pt_tables _ _ H _ _ Hup Hr) as (Hba & Hbo & Hbf).
  assert (Hn : n ∈ fr_free (pm s)) by (rewrite Hp; by left). assert (Hno := fr_range _ _ (pt_frames _ _ H) Hn). assert (Hnb := fr_bounds _ _ (pt_frames _ _ H) Hno).
  assert (Hi : 0 <= i < 512) by (destruct Hu as (Hi & _); by apply Forall_app in Hi as [_ [? _]%Forall_cons]).
  assert (Hdiv : n * PAGE_SIZE / PAGE_SIZE = n) by (unfold PAGE_SIZE; by rewrite Z.div_mul).
  assert (Hnt : forall q, user q -> reach (ram s) root q <> Some (n * PAGE_SIZE)).
  { intros q Hq Hc. destruct (pt_tables _ _ H _ _ Hq Hc) as (_ & _ & Hnf). by rewrite Hdiv in Hnf. }
  assert (Hbn : b <> n * PAGE_SIZE) by (intros ->; by apply (Hnt path)). assert (Hnd := fr_nodup _ (pt_frames _ _ H)). rewrite Hp in Hnd. apply NoDup_cons in Hnd as [Hnf _].
  set (m1 := <[n * PAGE_SIZE := replicate WORDS 0]> (ram s)). destruct (table_entry n) as [Ev Ea]; [lia|].
  assert (R1 : forall q, user q -> reach m1 root q = reach (ram s) root q) by (by apply reach_other).
  assert (Hw1 : m1 !! b = Some w) by (unfold m1; by rewrite lookup_insert_ne).
  assert (R2 : forall q, user q -> ~ (exists r, q = path ++ i :: r) -> reach (ram s') root q = reach (ram s) root q).
  { intros q Hq Hnq. cbn [ram s']. rewrite <- (R1 q Hq). apply (reach_store m1 root path b w i); try done; [|by rewrite R1|lia].
    intros p q' c Hup' Hq'. rewrite !R1 by done. by apply (pt_inj _ _ H). }
  assert (Hlen : (Z.to_nat i < length w)%nat) by (by eapply lookup_lt_Some).
  assert (R3 : reach (ram s') root (path ++ [i]) = Some (n * PAGE_SIZE)).
  { rewrite reach_snoc, R2; [|done|intros (r & E); apply (f_equal length) in E; rewrite length_app in E; cbn in E; lia]. rewrite Hr. unfold step. cbn [ram s'].
    rewrite lookup_insert_eq, list_lookup_insert_eq by done. change PAGE_SIZE with 4096 in *. by rewrite Ev, Ea. }
  assert (R4 : forall j r, user (path ++ i :: j :: r) -> reach (ram s') root (path ++ i :: j :: r) = None).
  { intros j r Hq. replace (path ++ i :: j :: r) with ((path ++ [i]) ++ j :: r) by (by rewrite <- app_assoc). rewrite reach_app, R3. cbn [reach]. unfold step. cbn [ram s'].
    rewrite lookup_insert_ne by done. unfold m1. rewrite lookup_insert_eq. destruct (replicate WORDS 0 !! Z.to_nat j) as [x|] eqn:Ex; [|done].
    apply lookup_replicate_1 in Ex as [-> _]. done. }
  assert (R5 : forall r, user (path ++ i :: r) -> reach (ram s) root (path ++ i :: r) = None).
  { intros r Hq. rewrite reach_app, Hr. cbn [reach]. unfold step. by rewrite Hw, He, Hv. }
  assert (R6 : forall q, user q -> q = path ++ [i] \/ reach (ram s') root q = reach (ram s) root q).
  { intros q Hq. destruct (decide (take (length path + 1) q = path ++ [i])) as [E|E].
    - rewrite <- (take_drop (length path + 1) q), E in Hq |- *. destruct (drop (length path + 1) q) as [|j r]; [left; by rewrite app_nil_r|right].
      rewrite <- !app_assoc in *. cbn [app] in *. by rewrite R4, R5.
    - right. apply R2; [done|]. intros (r & ->). apply E. rewrite firstn_app. replace (length path + 1 - length path)%nat with 1%nat by lia.
      rewrite take_ge by lia. done. }
  split; [|split; [|split; [done|]]].
  - constructor; cbn [pm s'].
    + done.
    + intros p Hpo. apply Ho in Hpo. destruct (pt_mem _ _ H p Hpo) as (w' & Hw' & Hl'). cbn [ram s']. destruct (decide (p * PAGE_SIZE = b)) as [E|E].
      * rewrite E, lookup_insert_eq. eexists. split; [done|]. rewrite length_insert. rewrite E in Hw'. congruence.
      * rewrite lookup_insert_ne by done. unfold m1. destruct (decide (p = n)) as [->|Hpn]; [rewrite lookup_insert_eq; eexists; split; [done|]; by rewrite length_replicate|].
        rewrite lookup_insert_ne; [eauto|]. unfold PAGE_SIZE. lia.
    + intros q c Hq Hc. destruct (R6 q Hq) as [->|E].
      * rewrite R3 in Hc. injection Hc as <-. rewrite Hdiv. split; [unfold PAGE_SIZE; apply Z.mod_mul; lia|]. by rewrite Ho.
      * rewrite E in Hc. destruct (pt_tables _ _ H _ _ Hq Hc) as (? & ? & Hcf). rewrite Ho. split; [done|]. split; [done|]. intros Hin. apply Hcf. rewrite Hp. by right.
    + intros p q c Hp' Hq Hpc Hqc. destruct (R6 p Hp') as [->|Ep], (R6 q Hq) as [->|Eq]; [done| | |].
      * rewrite R3 in Hpc. rewrite Eq in Hqc. injection Hpc as <-. by destruct (Hnt q Hq).
      * rewrite R3 in Hqc. rewrite Ep in Hpc. injection Hqc as <-. by destruct (Hnt p Hp').
      * rewrite Ep in Hpc. rewrite Eq in Hqc. by apply (pt_inj _ _ H p q c).
  - constructor; cbn [pm s'].
    + done.
    + exists [n]. split; [done|]. intros n' ->%list_elem_of_singleton. exists (path ++ [i]). done.
    + intros p c Hp' Hc. destruct (R6 p Hp') as [->|E]; [by rewrite R5 in Hc|by rewrite E].
    + intros p c Hp' Hc. destruct (R6 p Hp') as [->|E]; [|left; by rewrite <- E]. right. rewrite R3 in Hc. injection Hc as <-. by rewrite Hdiv.
    + intros q Hq Hqf. cbn [ram s']. rewrite lookup_insert_ne; [|intros <-; by apply (Hq path)]. unfold m1. rewrite lookup_insert_ne; [done|]. intros <-. by rewrite Hdiv in Hqf.
  - intros va Hva. unfold pte. destruct (R6 _ Hva) as [E|E].
    + rewrite E, R3, R5 by (by rewrite E in Hva). cbn [ram s']. rewrite lookup_insert_ne by done. unfold m1. rewrite lookup_insert_eq.
      destruct (replicate WORDS 0 !! Z.to_nat (idx3 va)) as [x|] eqn:Ex; [|done]. by apply lookup_replicate_1 in Ex as [-> _].
    + rewrite E. destruct (reach (ram s) root (vpath va)) as [c|] eqn:Ec; [|done]. cbn [ram s'].
      rewrite !lookup_insert_ne; [done|intros <-; by apply (Hnt (vpath va))|]. intros <-. assert (Ep : path = vpath va) by (by apply (pt_inj _ _ H _ _ b)).
      destruct Hu as (_ & Hu & _). rewrite length_app, Ep in Hu. cbn in Hu. lia.
Qed.
(** The allocator has no frame to give. *)
Definition exhausted s : Prop := alloc_page (pm s) = Ok (pm s, 0).

Lemma get_or_alloc_ok s root path b i :
  ptinv s root -> user (path ++ [i]) -> reach (ram s) root path = Some b ->
  exists s' t, get_or_alloc_table b i s = Ok (s', t) /\ ptinv s' root /\ grown s s' root /\
    (forall va, user (vpath va) -> pte (ram s') root va = pte (ram s) root va) /\
    (t = 0 /\ exhausted s' \/ t <> 0 /\ reach (ram s') root (path ++ [i]) = Some t).
Proof.
  intros H Hu Hr. assert (Hup := user_prefix _ _ Hu).
  assert (Hi : 0 <= i < 512) by (destruct Hu as (Hi & _); by apply Forall_app in Hi as [_ [? _]%Forall_cons]).
  destruct (ldw_table s root path b i H Hup Hr Hi) as (w & e & Hw & Hl & He & Eld). unfold get_or_alloc_table. rewrite Eld, bind_Ok.
  destruct (valid e) eqn:Ev; cbn [negb].
  - exists s, (addr_of e). split; [done|]. split; [done|]. split; [apply grown_refl|]. split; [done|]. right.
    assert (Hr' : reach (ram s) root (path ++ [i]) = Some (addr_of e)) by (rewrite reach_snoc, Hr; unfold step; by rewrite Hw, He, Ev). split; [|done].
    intros E0. rewrite E0 in Hr'. destruct (pt_tables _ _ H _ _ Hu Hr') as (_ & Ho & _). apply (fr_bounds _ _ (pt_frames _ _ H)) in Ho. change (0 / PAGE_SIZE) with 0 in Ho. lia.
  - unfold new_page. destruct (fr_alloc _ (pt_frames _ _ H)) as (f & a & Eal & Hf & Ho & Ha). rewrite Eal, !bind_Ok. destruct (Z.eqb_spec a 0) as [->|Hnz].
    + subst f. exists s, 0. replace (set_pm (pm s) s) with s by (by destruct s). split; [done|]. split; [done|]. split; [apply grown_refl|]. split; [done|]. left. by split; [|exact Eal].
    + destruct Ha as [Ham Hp]. set (n := a / PAGE_SIZE) in *. assert (En : a = n * PAGE_SIZE) by (unfold n, PAGE_SIZE in *; div_lia). clearbody n. subst a.
      assert (Hn : n ∈ fr_free (pm s)) by (rewrite Hp; by left). assert (Hno := fr_range _ _ (pt_frames _ _ H) Hn).
      destruct (pt_mem _ _ H n Hno) as (wn & Hwn & _). unfold zero_page. cbn [ram set_pm]. rewrite Hwn, bind_Ok.
      assert (Hbn : n * PAGE_SIZE <> b). { intros <-. destruct (pt_tables _ _ H _ _ Hup Hr) as (_ & _ & Hnf). unfold PAGE_SIZE in Hnf. by rewrite Z.div_mul in Hnf by done. }
      destruct (new_table s root path i b f n w e H Hu Hr Hw He Ev Hf Ho Hp) as (H1 & H2 & H3 & H4).
      assert (Est : stw b i (Z.lor (Z.lor (n * PAGE_SIZE) VALID) TABLE) (set_ram (<[n * PAGE_SIZE := replicate WORDS 0]> (ram s)) (set_pm f s)) =
        Ok (mkPhys (<[b := <[Z.to_nat i := Z.lor (Z.lor (n * PAGE_SIZE) VALID) TABLE]> w]> (<[n * PAGE_SIZE := replicate WORDS 0]> (ram s))) f)).
      { unfold stw. cbn [ram set_ram set_pm]. rewrite lookup_insert_ne, Hw by done. rewrite wr_Z by (rewrite Hl; unfold WORDS; lia). done. }
      rewrite Est, bind_Ok. set (s' := mkPhys _ f) in *. assert (Hr2 := gr_old _ _ _ H2 _ _ Hup Hr).
      destruct (ldw_table s' root path b i H1 Hup Hr2 Hi) as (w' & e' & Hw' & _ & He' & Eld'). rewrite Eld', bind_Ok.
      rewrite reach_snoc, Hr2 in H3. unfold step in H3. rewrite Hw', He' in H3. destruct (valid e') eqn:Ev'; [|done]. injection H3 as H3.
      exists s', (addr_of e'). split; [done|]. split; [done|]. split; [done|]. split; [done|]. right. rewrite H3. split; [done|].
      rewrite reach_snoc, Hr2. unfold step. by rewrite Hw', He', Ev', H3.
Qed.

(** What an operation that creates tables on the way leaves unchanged. *)
Definition same_ptes s s' (root : Z) : Prop := forall va, user (vpath va) -> pte (ram s') root va = pte (ram s) root va.

Lemma walk_alloc_ok s root va :
  ptinv s root -> user (vpath va) ->
  exists s' l3, walk_alloc root va s = Ok (s', l3) /\ ptinv s' root /\ grown s s' root /\ same_ptes s s' root /\
    (l3 = 0 /\ exhausted s' \/ l3 <> 0 /\ reach (ram s') root (vpath va) = Some l3).
Proof.
  intros H Hu. assert (U1 : user ([] ++ [idx0 va])) by (by apply (user_prefix _ [idx1 va; idx2 va])). assert (U2 : user ([idx0 va] ++ [idx1 va])) by (by apply (user_prefix _ [idx2 va])).
  unfold walk_alloc. destruct (get_or_alloc_ok s root [] root (idx0 va) H U1 eq_refl) as (s1 & l1 & -> & H1 & G1 & P1 & R1). rewrite bind_Ok.
  destruct R1 as [[-> X1]|[Hn1 R1]]; [exists s1, 0; split; [done|]; split_and!; try done; by left|]. destruct (Z.eqb_spec l1 0); [done|].
  destruct (get_or_alloc_ok s1 root [idx0 va] l1 (idx1 va) H1 U2 R1) as (s2 & l2 & -> & H2 & G2 & P2 & R2). rewrite bind_Ok.
  assert (G12 := grown_trans _ _ _ _ G1 G2). assert (P12 : same_ptes s s2 root) by (intros v Hv; by rewrite P2, P1).
  destruct R2 as [[-> X2]|[Hn2 R2]]; [exists s2, 0; split; [done|]; split_and!; try done; by left|]. destruct (Z.eqb_spec l2 0); [done|].
  destruct (get_or_alloc_ok s2 root [idx0 va; idx1 va] l2 (idx2 va) H2 Hu R2) as (s3 & l3 & -> & H3 & G3 & P3 & R3).
  exists s3, l3. split; [done|]. split; [done|]. split; [by eapply grown_trans|]. split; [intros v Hv; by rewrite P3, P12|done].
Qed.

(** Writing an entry of a last-level table. *)
Lemma set_pte_ok s root va l3 e :
  ptinv s root -> user (vpath va) -> reach (ram s) root (vpath va) = Some l3 ->
  exists s', stw l3 (idx3 va) e s = Ok s' /\ ptinv s' root /\ grown s s' root /\
    (forall va', user (vpath va') -> pte (ram s') root va' = if bool_decide (vpn va' = vpn va) then e else pte (ram s) root va').
Proof.
  intros H Hu Hr. assert (Hi := idx_range 12 va ltac:(lia)). fold (idx3 va) in Hi. destruct (ldw_table s root _ l3 (idx3 va) H Hu Hr Hi) as (w & e0 & Hw & Hl & He & _).
  unfold stw. rewrite Hw, wr_Z, bind_Ok by (rewrite Hl; unfold WORDS; lia). eexists. split; [done|]. set (s' := set_ram _ s).
  assert (R : forall q, user q -> reach (ram s') root q = reach (ram s) root q).
  { intros q Hq. apply (reach_store (ram s) root (vpath va) l3 w (idx3 va)); try done; [apply (pt_inj _ _ H)|lia|]. intros (r & ->). destruct Hq as (_ & Hq & _). rewrite length_app in Hq. cbn in Hq. lia. }
  split; [|split].
  - constructor; cbn [pm s' set_ram].
    + apply H.
    + intros p Hp. destruct (pt_mem _ _ H p Hp) as (w' & Hw' & Hl'). cbn [ram s' set_ram]. destruct (decide (l3 = p * PAGE_SIZE)) as [->|Hne]; [|rewrite lookup_insert_ne by done; eauto].
      rewrite lookup_insert_eq. eexists. split; [done|]. by rewrite length_insert.
    + intros q b Hq. rewrite R by done. by apply (pt_tables _ _ H).
    + intros p q b Hp Hq. rewrite !R by done. by apply (pt_inj _ _ H).
  - constructor; cbn [pm s' set_ram].
    + done.
    + exists []. split; [done|by intros n ?%not_elem_of_nil].
    + intros p b Hp. by rewrite R.
    + intros p b Hp. rewrite R by done. by left.
    + intros q Hq _. cbn [ram s' set_ram]. rewrite lookup_insert_ne; [done|]. intros <-. by apply (Hq (vpath va)).
  - intros va' Hu'. unfold pte. rewrite R by done. case_bool_decide as E.
    + apply vpn_eq in E as [-> ->]. rewrite Hr. cbn [ram s' set_ram]. rewrite lookup_insert_eq, list_lookup_insert_eq; [done|]. rewrite Hl. unfold WORDS. lia.
    + destruct (reach (ram s) root (vpath va')) as [c|] eqn:Ec; [|done]. cbn [ram s' set_ram]. destruct (decide (l3 = c)) as [<-|Hne]; [|by rewrite lookup_insert_ne].
      rewrite lookup_insert_eq, Hw, list_lookup_insert_ne; [done|]. intros E3. apply E, vpn_eq. split; [by apply (pt_inj _ _ H _ _ l3)|].
      assert (Hi' := idx_range 12 va' ltac:(lia)). fold (idx3 va') in Hi'. lia.
Qed.

Lemma write_pte_ok s root va e :
  ptinv s root -> user (vpath va) ->
  exists s' ok, write_pte_at root va e s = Ok (s', ok) /\ ptinv s' root /\ grown s s' root /\ (ok = false -> exhausted s') /\
    (forall va', user (vpath va') -> pte (ram s') root va' = if ok && bool_decide (vpn va' = vpn va) then e else pte (ram s) root va').
Proof.
  intros H Hu. unfold write_pte_at. destruct (walk_alloc_ok s root va H Hu) as (s1 & l3 & -> & H1 & G1 & P1 & R). rewrite bind_Ok. destruct R as [[-> X]|[Hn R]].
  - exists s1, false. split; [done|]. split; [done|]. split; [done|]. split; [done|]. intros va' Hu'. cbn [andb]. by apply P1.
  - destruct (Z.eqb_spec l3 0); [done|]. destruct (set_pte_ok s1 root va l3 e H1 Hu R) as (s2 & -> & H2 & G2 & P2). rewrite bind_Ok.
    exists s2, true. split; [done|]. split; [done|]. split; [by eapply grown_trans|]. split; [done|]. intros va' Hu'. cbn [andb]. rewrite P2 by done. by rewrite P1.
Qed.

Lemma walk_ok s root va : ptinv s root -> user (vpath va) -> walk root va s = Ok (reach (ram s) root (vpath va)).
Proof.
  intros H Hu. assert (U1 : user [idx0 va]) by (by apply (user_prefix _ [idx1 va; idx2 va])). assert (U2 : user [idx0 va; idx1 va]) by (by apply (user_prefix _ [idx2 va])).
  assert (U0 : user []) by (by apply (user_prefix [] [idx0 va])). unfold walk, vpath. cbn [reach].
  destruct (ldw_table s root [] root (idx0 va) H U0 eq_refl) as (w0 & e0 & Hw0 & _ & He0 & ->); [by apply idx_range|]. rewrite bind_Ok.
  assert (S0 : step (ram s) root (idx0 va) = if valid e0 then Some (addr_of e0) else None) by (unfold step; by rewrite Hw0, He0). rewrite S0.
  destruct (valid e0) eqn:V0; cbn [negb]; [|done]. assert (R1 : reach (ram s) root [idx0 va] = Some (addr_of e0)) by (cbn [reach]; by rewrite S0).
  destruct (ldw_table s root _ _ (idx1 va) H U1 R1) as (w1 & e1 & Hw1 & _ & He1 & ->); [by apply idx_range|]. rewrite bind_Ok.
  assert (S1 : step (ram s) (addr_of e0) (idx1 va) = if valid e1 then Some (addr_of e1) else None) by (unfold step; by rewrite Hw1, He1). rewrite S1.
  destruct (valid e1) eqn:V1; cbn [negb]; [|done]. assert (R2 : reach (ram s) root [idx0 va; idx1 va] = Some (addr_of e1)) by (cbn [reach]; by rewrite S0, S1).
  destruct (ldw_table s root _ _ (idx2 va) H U2 R2) as (w2 & e2 & Hw2 & _ & He2 & ->); [by apply idx_range|]. rewrite bind_Ok.
  unfold step. rewrite Hw2, He2. by destruct (valid e2).
Qed.

Lemma read_pte_ok s a va : ptinv s (root_ a) -> root_ a <> 0 -> user (vpath va) -> read_pte a va s = Ok (pte (ram s) (root_ a) va).
Proof.
  intros H Hr Hu. unfold read_pte. destruct (Z.eqb_spec (root_ a) 0); [done|]. rewrite walk_ok, bind_Ok by done. unfold pte.
  destruct (reach (ram s) (root_ a) (vpath va)) as [l3|] eqn:R; [|done].
  destruct (ldw_table s _ _ _ (idx3 va) H Hu R) as (w & e & -> & _ & -> & ->); [by apply idx_range|]. done.
Qed.

Lemma translate_ok s a va : ptinv s (root_ a) -> root_ a <> 0 -> user (vpath va) ->
  translate a va s = Ok (let e := pte (ram s) (root_ a) va in if valid e then Z.lor (addr_of e) (Z.land va 0xFFF) else 0).
Proof.
  intros H Hr Hu. assert (E := read_pte_ok s a va H Hr Hu). unfold translate. unfold read_pte in E. destruct (Z.eqb_spec (root_ a) 0); [done|].
  rewrite walk_ok, bind_Ok in E |- * by done. destruct (reach (ram s) (root_ a) (vpath va)) as [l3|]; [|by injection E as <-].
  rewrite E, bind_Ok. cbn zeta. by destruct (valid _).
Qed.

Lemma unmap_page_ok s root va : ptinv s root -> user (vpath va) ->
  exists s', unmap_page root va s = Ok s' /\ ptinv s' root /\ grown s s' root /\
    (forall va', user (vpath va') -> pte (ram s') root va' = if bool_decide (vpn va' = vpn va) then 0 else pte (ram s) root va').
Proof.
  intros H Hu. unfold unmap_page. rewrite walk_ok, bind_Ok by done. destruct (reach (ram s) root (vpath va)) as [l3|] eqn:R.
  - by apply set_pte_ok.
  - exists s. split; [done|]. split; [done|]. split; [apply grown_refl|]. intros va' Hu'. case_bool_decide as E; [|done]. apply vpn_eq in E as [E _]. unfold pte. by rewrite E, R.
Qed.
(** ** The specification: one map from page numbers to entries *)

Definition page_va (virt i : Z) : Z := u64 (virt + u64 (i * 4096)).
Definition page_pa (phys i : Z) : Z := u64 (phys + u64 (i * 4096)).

Definition entry (T : gmap Z Z) (va : Z) : Z := default 0 (T !! vpn va).
Definition spec_map (is_ : list Z) (virt phys prot : Z) (T : gmap Z Z) : gmap Z Z :=
  foldl (fun T i => <[vpn (page_va virt i) := page_entry (page_pa phys i) prot]> T) T is_.
Definition spec_unmap (is_ : list Z) (virt : Z) (T : gmap Z Z) : gmap Z Z :=
  foldl (fun T i => delete (vpn (page_va virt i)) T) T is_.

(** The tables at [root] hold the entries [T]. *)
Record holds s (root : Z) (T : gmap Z Z) : Prop := {
  ho_inv : ptinv s root;
  ho_pte : forall va, user (vpath va) -> pte (ram s) root va = entry T va
}.

Lemma entry_insert T k e va : entry (<[k := e]> T) va = if bool_decide (vpn va = k) then e else entry T va.
Proof. unfold entry. case_bool_decide as E; [by rewrite E, lookup_insert_eq|by rewrite lookup_insert_ne by congruence]. Qed.
Lemma entry_delete T k va : entry (delete k T) va = if bool_decide (vpn va = k) then 0 else entry T va.
Proof. unfold entry. case_bool_decide as E; [by rewrite E, lookup_delete_eq|by rewrite lookup_delete_ne by congruence]. Qed.

Lemma write_holds s root T va e :
  holds s root T -> user (vpath va) ->
  exists s' ok, write_pte_at root va e s = Ok (s', ok) /\ holds s' root (if ok then <[vpn va := e]> T else T) /\ grown s s' root /\ (ok = false -> exhausted s').
Proof.
  intros [H HT] Hu. destruct (write_pte_ok s root va e H Hu) as (s' & ok & E & H' & G & X & P). exists s', ok. split; [done|]. split; [|done]. split; [done|].
  intros va' Hu'. rewrite P by done. destruct ok; cbn [andb]; [rewrite entry_insert|]; by rewrite HT.
Qed.

Lemma map_loop_ok root virt phys prot is_ : forall s T,
  holds s root T -> Forall (fun i => user_va (page_va virt i)) is_ ->
  exists s' ok k, map_loop is_ root virt phys prot s = Ok (s', ok) /\ holds s' root (spec_map (take k is_) virt phys prot T) /\ grown s s' root /\
    if (ok : bool) then k = length is_ else (k < length is_)%nat /\ exhausted s'.
Proof.
  induction is_ as [|i is_ IH]; intros s T H Hu; cbn [map_loop].
  - exists s, true, 0%nat. split; [done|]. split; [done|]. split; [apply grown_refl|done].
  - apply Forall_cons in Hu as [Hi Hu]. apply user_vpath in Hi. destruct (write_holds s root T _ (page_entry (page_pa phys i) prot) H Hi) as (s1 & ok & E & H1 & G1 & X1).
    unfold page_va, page_pa in E. rewrite E, bind_Ok. destruct ok.
    + destruct (IH s1 _ H1 Hu) as (s2 & ok & k & -> & H2 & G2 & X2). exists s2, ok, (S k). split; [done|]. split; [done|]. split; [by eapply grown_trans|].
      cbn [length]. destruct ok; [lia|]. destruct X2. split; [lia|done].
    + exists s1, false, 0%nat. split; [done|]. split; [done|]. split; [done|]. split; [cbn; lia|by apply X1].
Qed.

Lemma unmap_loop_ok root virt is_ : forall s T,
  holds s root T -> Forall (fun i => user_va (page_va virt i)) is_ ->
  exists s', foldM (fun s i => unmap_page root (u64 (virt + u64 (i * 4096))) s) is_ s = Ok s' /\ holds s' root (spec_unmap is_ virt T) /\ grown s s' root.
Proof.
  induction is_ as [|i is_ IH]; intros s T H Hu; cbn [foldM].
  - exists s. split; [done|]. split; [done|]. apply grown_refl.
  - apply Forall_cons in Hu as [Hi Hu]. apply user_vpath in Hi. destruct H as [H HT]. destruct (unmap_page_ok s root _ H Hi) as (s1 & E & H1 & G1 & P1).
    unfold page_va in E. rewrite E, bind_Ok. destruct (IH s1 (delete (vpn (page_va virt i)) T)) as (s2 & -> & H2 & G2); [|done|].
    + split; [done|]. intros va Hva. rewrite P1, entry_delete by done. by rewrite HT.
    + exists s2. split; [done|]. split; [done|]. by eapply grown_trans.
Qed.

(** ** The interface *)

Inductive Op := OMap (virt phys size prot : Z) | OUnmap (virt size : Z) | OWrite (va e : Z) | ORead (va : Z) | OTranslate (va : Z).
Inductive Out := OFlag (b : bool) | OWord (w : Z) | ODone.

Definition exec (a : AddressSpace) (o : Op) s : res (Phys F * Out) :=
  match o with
  | OMap v p n f => '(s, ok) ← map a v p n f s; Ok (s, OFlag ok)
  | OUnmap v n => s ← unmap a v n s; Ok (s, ODone)
  | OWrite v e => '(s, ok) ← write_pte a v e s; Ok (s, OFlag ok)
  | ORead v => w ← read_pte a v s; Ok (s, OWord w)
  | OTranslate v => w ← translate a v s; Ok (s, OWord w)
  end.
Fixpoint exec_all (a : AddressSpace) (os : list Op) s : res (Phys F * list Out) :=
  match os with
  | [] => Ok (s, [])
  | o :: os => '(s, x) ← exec a o s; '(s, xs) ← exec_all a os s; Ok (s, x :: xs)
  end.

(** The result and the effect of a call on the map; a call fails, with a prefix
    of its pages mapped, when the allocator has no frame for a table. *)
Inductive spec s' : Op -> gmap Z Z -> Out -> gmap Z Z -> Prop :=
| sp_map v p n f T : spec s' (OMap v p n f) T (OFlag true) (spec_map (seqZ 0 (page_count n)) v p f T)
| sp_map_fail v p n f T (k : nat) : Z.of_nat k < page_count n -> exhausted s' -> spec s' (OMap v p n f) T (OFlag false) (spec_map (take k (seqZ 0 (page_count n))) v p f T)
| sp_unmap v n T : spec s' (OUnmap v n) T ODone (spec_unmap (seqZ 0 (page_count n)) v T)
| sp_write v e T : spec s' (OWrite v e) T (OFlag true) (<[vpn v := e]> T)
| sp_write_fail v e T : exhausted s' -> spec s' (OWrite v e) T (OFlag false) T
| sp_read v T : spec s' (ORead v) T (OWord (entry T v)) T
| sp_translate v T : spec s' (OTranslate v) T (OWord (if valid (entry T v) then Z.lor (addr_of (entry T v)) (Z.land v 0xFFF) else 0)) T.

Inductive run (a : AddressSpace) : list Op -> Phys F -> gmap Z Z -> list Out -> Phys F -> gmap Z Z -> Prop :=
| run_nil s T : run a [] s T [] s T
| run_cons o os s s1 s2 T T1 T2 x xs : exec a o s = Ok (s1, x) -> spec s1 o T x T1 -> run a os s1 T1 xs s2 T2 -> run a (o :: os) s T (x :: xs) s2 T2.

(** The pages of an operation lie outside the first two gigabytes, which belong
    to the kernel. *)
Definition op_ok (o : Op) : Prop :=
  match o with
  | OMap v _ n _ | OUnmap v n => Forall (fun i => user_va (page_va v i)) (seqZ 0 (page_count n))
  | OWrite v _ | ORead v | OTranslate v => user_va v
  end.

Lemma page_count_nonneg n : 0 <= page_count n.
Proof. unfold page_count. assert (H := u64_range (n + 4095)). div_lia. Qed.

Lemma exec_holds a o s T : root_ a <> 0 -> holds s (root_ a) T -> op_ok o ->
  exists s' x T', exec a o s = Ok (s', x) /\ spec s' o T x T' /\ holds s' (root_ a) T' /\ grown s s' (root_ a).
Proof.
  intros Hr H Ho. assert (Hz : (root_ a =? 0) = false) by (by apply Z.eqb_neq). destruct o as [v p n f|v n|v e|v|v]; cbn [exec op_ok] in *.
  - unfold map. rewrite Hz. destruct (map_loop_ok (root_ a) v p f _ s T H Ho) as (s' & ok & k & -> & H' & G & Hk). rewrite bind_Ok. exists s', (OFlag ok). destruct ok.
    + eexists. split; [done|]. split; [constructor|]. split; [|done]. by rewrite Hk, firstn_all in H'.
    + destruct Hk as [Hk X]. eexists. split; [done|]. split; [|split; [exact H'|done]]. constructor; [|done]. rewrite length_seqZ in Hk. assert (Hc := page_count_nonneg n). lia.
  - unfold unmap. rewrite Hz. destruct (unmap_loop_ok (root_ a) v _ s T H Ho) as (s' & -> & H' & G). rewrite bind_Ok. eexists _, _, _. split; [done|]. split; [constructor|done].
  - unfold write_pte. rewrite Hz. apply user_vpath in Ho. destruct (write_holds s (root_ a) T v e H Ho) as (s' & ok & -> & H' & G & X). rewrite bind_Ok.
    exists s', (OFlag ok). destruct ok; eexists; (split; [done|]); (split; [constructor; by apply X || done|done]).
  - apply user_vpath in Ho. rewrite (read_pte_ok s a v (ho_inv _ _ _ H) Hr Ho), bind_Ok, (ho_pte _ _ _ H) by done. eexists _, _, _. split; [done|]. split; [constructor|]. split; [done|apply grown_refl].
  - apply user_vpath in Ho. rewrite (translate_ok s a v (ho_inv _ _ _ H) Hr Ho), bind_Ok, (ho_pte _ _ _ H) by done. cbn zeta. eexists _, _, _. split; [done|]. split; [constructor|]. split; [done|apply grown_refl].
Qed.

(** (C7) Any sequence of calls that map, unmap, read, write and translate user
    pages behaves like the same calls on one map from page numbers to entries:
    calls fail only when the allocator has no frame for a page table, and then
    have mapped a prefix of their pages.  The only frames that change are the
    tables of the address space and frames taken from the allocator, which all
    become tables of it; no table is shared or lost. *)
Theorem as_refines a os s T :
  root_ a <> 0 -> holds s (root_ a) T -> Forall op_ok os ->
  exists s' outs T', exec_all a os s = Ok (s', outs) /\ run a os s T outs s' T' /\ holds s' (root_ a) T' /\ grown s s' (root_ a).
Proof.
  intros Hr H Ho. revert s T H. induction Ho as [|o os Ho Hos IH]; intros s T H; cbn [exec_all].
  - exists s, [], T. split; [done|]. split; [constructor|]. split; [done|apply grown_refl].
  - destruct (exec_holds a o s T Hr H Ho) as (s1 & x & T1 & E & S1 & H1 & G1). destruct (IH s1 T1 H1) as (s2 & xs & T2 & E2 & R2 & H2 & G2).
    exists s2, (x :: xs), T2. rewrite E, bind_Ok, E2, bind_Ok. split; [done|]. split; [by econstructor|]. split; [done|by eapply grown_trans].
Qed.
(** ** A new address space, and the round trip through the hardware format *)

Lemma entry_flags pa prot : exists x, page_entry pa prot = Z.lor pa x /\ Z.testbit x 0 = true /\ Z.land x ADDR_MASK = 0 /\
  Z.testbit x 7 = (Z.land prot WRITE =? 0) /\ Z.testbit x 54 = (Z.land prot EXEC =? 0).
Proof.
  unfold page_entry. destruct (Z.land prot UNCACHED =? 0), (Z.land prot WRITE =? 0), (Z.land prot EXEC =? 0); cbn [negb]; rewrite <- !Z.lor_assoc; eexists; (split; [reflexivity|]); done.
Qed.

Lemma zero_table_holds s root n :
  fr_inv (pm s) -> (forall p, fr_owns (pm s) p -> exists w, ram s !! (p * PAGE_SIZE) = Some w /\ length w = WORDS) ->
  root = n * PAGE_SIZE -> fr_owns (pm s) n -> n ∉ fr_free (pm s) -> ram s !! root = Some (replicate WORDS 0) -> holds s root ∅.
Proof.
  intros Hf Hm -> Ho Hn Hz. assert (Hs : forall i q, reach (ram s) (n * PAGE_SIZE) (i :: q) = None).
  { intros i q. cbn [reach]. unfold step. rewrite Hz. destruct (replicate WORDS 0 !! Z.to_nat i) as [x|] eqn:E; [|done]. by apply lookup_replicate_1 in E as [-> _]. }
  assert (Hdiv : n * PAGE_SIZE / PAGE_SIZE = n) by (unfold PAGE_SIZE; by rewrite Z.div_mul).
  split; [constructor; try done|].
  - intros [|i q] b _ E; [|by rewrite Hs in E]. cbn in E. injection E as <-. rewrite Hdiv. split; [unfold PAGE_SIZE; apply Z.mod_mul; lia|done].
  - intros [|i p] [|j q] b _ _ E1 E2; [done|by rewrite Hs in E2|by rewrite Hs in E1|by rewrite Hs in E1].
  - intros va _. unfold pte, vpath. by rewrite Hs.
Qed.

Lemma spec_map_other is_ virt phys prot T va : Forall (fun i => vpn va <> vpn (page_va virt i)) is_ -> entry (spec_map is_ virt phys prot T) va = entry T va.
Proof.
  intros H. revert T. induction H as [|i is_ Hi H IH]; intros T; [done|]. unfold spec_map in *. cbn [foldl]. rewrite IH, entry_insert. by rewrite bool_decide_false.
Qed.

Lemma spec_map_at is_ virt phys prot T va i :
  i ∈ is_ -> NoDup is_ -> vpn va = vpn (page_va virt i) -> (forall j, j ∈ is_ -> vpn (page_va virt j) = vpn (page_va virt i) -> j = i) ->
  entry (spec_map is_ virt phys prot T) va = page_entry (page_pa phys i) prot.
Proof.
  intros Hi Hn Hv Hinj. apply list_elem_of_split in Hi as (pre & post & ->). unfold spec_map. rewrite foldl_app. cbn [foldl].
  change (foldl _ (<[_ := _]> ?T') post) with (spec_map post virt phys prot (<[vpn (page_va virt i) := page_entry (page_pa phys i) prot]> T')).
  rewrite spec_map_other, entry_insert; [by rewrite bool_decide_true|]. apply Forall_forall. intros j Hj E. apply NoDup_app in Hn as (_ & _ & [Hn _]%NoDup_cons).
  rewrite Hv in E. by rewrite (Hinj j) in Hj by (try done; apply elem_of_app; right; by right).
Qed.

Lemma page_va_small virt i : 0 <= i -> 0 <= virt -> virt + i * 4096 < 2 ^ 48 -> page_va virt i = virt + i * 4096.
Proof. intros Hi Hv Hb. unfold page_va. change (2 ^ 48) with 281474976710656 in Hb. rewrite (u64_small (i * 4096)), u64_small; lia. Qed.

(** (C28) Mapping a range of user pages to frames and translating an address of
    the range gives the address at the same offset in the frame of its page, and
    addresses of other pages translate as before.  The entry is writable exactly
    when write permission was asked for, and executable by the user exactly when
    execute permission was. *)
Theorem map_translate a s s' T virt phys n prot i off :
  root_ a <> 0 -> holds s (root_ a) T -> virt mod 4096 = 0 -> phys mod 4096 = 0 -> 2 ^ 31 <= virt -> 0 <= phys -> 0 < n < 2 ^ 36 ->
  virt + n * 4096 <= 2 ^ 48 -> phys + n * 4096 <= 2 ^ 48 -> 0 <= i < n -> 0 <= off < 4096 ->
  map a virt phys (n * 4096) prot s = Ok (s', true) ->
  translate a (virt + i * 4096 + off) s' = Ok (phys + i * 4096 + off) /\
  (forall va, user_va va -> (forall j, 0 <= j < n -> vpn va <> vpn (virt + j * 4096)) -> translate a va s' = translate a va s) /\
  exists e, read_pte a (virt + i * 4096) s' = Ok e /\ Z.testbit e 7 = (Z.land prot WRITE =? 0) /\ Z.testbit e 54 = (Z.land prot EXEC =? 0).
Proof.
  intros Hr H Hva Hpa Hlo Hp0 Hn Hvh Hph Hi Hoff E. change (2 ^ 36) with 68719476736 in Hn. assert (Hpc : page_count (n * 4096) = n) by (unfold page_count; rewrite u64_small; [div_lia|lia]).
  assert (Hvpn : forall j o, 0 <= j < n -> 0 <= o < 4096 -> vpn (virt + j * 4096 + o) = virt / 4096 + j).
  { intros j o Hj Ho. unfold vpn. change (2 ^ 12) with 4096. change (2 ^ 48) with (2 ^ 36 * 4096) in Hvh. rewrite Z.mod_small; div_lia. }
  assert (Huser : forall j o, 0 <= j < n -> 0 <= o < 4096 -> user_va (virt + j * 4096 + o)).
  { intros j o Hj Ho. unfold user_va. rewrite Hvpn by done. change (2 ^ 31) with (2 ^ 19 * 4096) in Hlo. div_lia. }
  assert (Hpv : forall j, 0 <= j < n -> page_va virt j = virt + j * 4096 + 0) by (intros j Hj; rewrite page_va_small; lia).
  assert (Hall : Forall (fun i => user_va (page_va virt i)) (seqZ 0 (page_count (n * 4096)))).
  { rewrite Hpc. apply Forall_forall. intros j Hj%elem_of_seqZ. rewrite Hpv by lia. apply Huser; lia. }
  unfold map in E. destruct (Z.eqb_spec (root_ a) 0); [done|]. destruct (map_loop_ok (root_ a) virt phys prot _ s T H Hall) as (s1 & ok & k & E1 & H1 & _ & Hk).
  rewrite E1 in E. injection E as -> ->. rewrite Hk, firstn_all, Hpc in H1. set (T' := spec_map _ _ _ _ _) in H1.
  assert (Hent : forall j o, 0 <= j < n -> 0 <= o < 4096 -> entry T' (virt + j * 4096 + o) = page_entry (phys + j * 4096) prot).
  { intros j o Hj Ho. unfold T'. rewrite (spec_map_at _ _ _ _ _ _ j); [| | | |].
    - f_equal. unfold page_pa. change (2 ^ 48) with 281474976710656 in Hph. rewrite (u64_small (j * 4096)), u64_small; lia.
    - apply elem_of_seqZ. lia.
    - apply NoDup_seqZ.
    - rewrite Hpv, !Hvpn; lia.
    - intros j' Hj'%elem_of_seqZ. rewrite !Hpv, !Hvpn; lia. }
  split; [|split].
  - rewrite translate_ok; [|apply H1|done|by apply user_vpath, Huser]. rewrite (ho_pte _ _ _ H1) by (by apply user_vpath, Huser). cbn zeta. rewrite Hent by done.
    destruct (entry_flags (phys + i * 4096) prot) as (x & -> & Hx0 & Hxm & _). rewrite entry_valid by done. f_equal.
    replace (phys + i * 4096) with ((phys / 4096 + i) * 4096) by div_lia. rewrite entry_addr; [|change (2 ^ 48) with (2 ^ 36 * 4096) in Hph; div_lia|done].
    change 4095 with (2 ^ 12 - 1). rewrite land_mask_mod by lia. change (2 ^ 12) with 4096. replace ((virt + i * 4096 + off) mod 4096) with off by div_lia.
    rewrite Z.lor_comm. change 4096 with (2 ^ 12). rewrite lor_low_high; [lia|lia|]. change (2 ^ 12) with 4096. lia.
  - intros va Hu Hne. rewrite !translate_ok; [|apply H|done|by apply user_vpath|apply H1|done|by apply user_vpath]. rewrite (ho_pte _ _ _ H1), (ho_pte _ _ _ H) by (by apply user_vpath).
    unfold T'. rewrite spec_map_other; [done|]. apply Forall_forall. intros j Hj%elem_of_seqZ. rewrite Hpv, Z.add_0_r by lia. apply Hne. lia.
  - replace (virt + i * 4096) with (virt + i * 4096 + 0) by lia. rewrite read_pte_ok; [|apply H1|done|apply user_vpath, Huser; lia]. rewrite (ho_pte _ _ _ H1) by (apply user_vpath, Huser; lia).
    rewrite Hent by lia. destruct (entry_flags (phys + i * 4096) prot) as (x & -> & _ & _ & Hx7 & Hx54). eexists. split; [done|]. rewrite !Z.lor_spec, Hx7, Hx54.
    split; [replace (Z.testbit (phys + i * 4096) 7) with false; [done|]|replace (Z.testbit (phys + i * 4096) 54) with false; [done|]].
    + symmetry. replace (phys + i * 4096) with ((phys / 4096 + i) * 2 ^ 12) by (change (2 ^ 12) with 4096; div_lia). by apply Z.mul_pow2_bits_low.
    + symmetry. apply (in_width_high 48); [|lia]. split; [lia|]. lia.
Qed.

End Spec.

(** ** A concrete machine *)

(** Fifteen frames of zeros; frame 1 is the root of an address space. *)
Definition demo : Phys FreeList :=
  mkPhys (list_to_map ((fun p => (p * PAGE_SIZE, replicate WORDS 0)) <$> seqZ 1 15)) (seqZ 2 14).
Definition demo_as : AddressSpace := mkAS PAGE_SIZE 1.

Lemma demo_pages p : 0 < p < 16 -> ram demo !! (p * PAGE_SIZE) = Some (replicate WORDS 0).
Proof.
  intros Hp. unfold demo. cbn [ram]. apply elem_of_list_to_map_1.
  - rewrite <- list_fmap_compose. apply NoDup_fmap_2; [|apply NoDup_seqZ]. intros x y. cbn. unfold PAGE_SIZE. lia.
  - apply list_elem_of_fmap. exists p. split; [done|]. apply elem_of_seqZ. lia.
Qed.

Lemma demo_holds : holds demo (root_ demo_as) ∅.
Proof.
  apply (zero_table_holds demo _ 1); try done.
  - split; [apply NoDup_seqZ|]. apply Forall_forall. intros p Hp%elem_of_seqZ. lia.
  - intros p Hp. eexists. split; [by apply demo_pages|]. by rewrite length_replicate.
  - cbn [pm demo fr_free list_laws]. rewrite elem_of_seqZ. lia.
Qed.

Definition demo_ops : list Op := [OMap 0x100000000 0xA000 8192 3; ORead 0x100001000; OUnmap 0x100000000 4096; OTranslate 0x100001234; OWrite 0x7FFFFFFE0000 0].
Lemma as_refines_witness :
  exists s' outs T', exec_all demo_as demo_ops demo = Ok (s', outs) /\ run demo_as demo_ops demo ∅ outs s' T' /\ holds s' (root_ demo_as) T' /\ grown demo s' (root_ demo_as).
Proof.
  apply (as_refines demo_as demo_ops demo ∅); [done|apply demo_holds|].
  unfold demo_ops. rewrite !Forall_cons. cbn [op_ok]. change (seqZ 0 (page_count 8192)) with [0; 1]. change (seqZ 0 (page_count 4096)) with [0].
  rewrite !Forall_cons. split_and!; try (apply Z.leb_le; reflexivity); by apply Forall_nil.
Defined.

Definition demo_mapped : Phys FreeList := match map demo_as 0x100000000 0xA000 (2 * 4096) WRITE demo with Ok (s, _) => s | _ => demo end.
Lemma map_translate_witness :
  translate demo_as (0x100000000 + 1 * 4096 + 0x234) demo_mapped = Ok (0xA000 + 1 * 4096 + 0x234) /\
  (forall va, user_va va -> (forall j, 0 <= j < 2 -> vpn va <> vpn (0x100000000 + j * 4096)) -> translate demo_as va demo_mapped = translate demo_as va demo) /\
  exists e, read_pte demo_as (0x100000000 + 1 * 4096) demo_mapped = Ok e /\ Z.testbit e 7 = (Z.land WRITE WRITE =? 0) /\ Z.testbit e 54 = (Z.land WRITE EXEC =? 0).
Proof.
  apply (map_translate demo_as demo demo_mapped ∅ 0x100000000 0xA000 2 WRITE 1 0x234); try done; try lia. apply demo_holds.
Defined.

End AddressSpaceSpec.
