(* ===== verification/World.v ===== *)
(** * Life and death of address spaces

    Models the rest of [src/kernel/viper/address_space.cpp]: creating an address
    space, tearing it down, cloning it for copy on write, and the checks of the
    tables of the first process.  [World] holds the state these operations share:
    frames and their contents, reference counts, swap slots, address space
    identifiers. *)

From S2P Require Import Prelude Buddy Bitmap Frames Cow Swap AddressSpace.

Module World.
Import Frames AddressSpace.

(** [vinit_l0_phys] and the other variables of the corruption check. *)
Record Debug := mkDebug { vinit_l0_phys : Z; vinit_l1_phys : Z; vinit_l2_phys : Z; vinit_l2_entry0 : Z; corruption_detected : bool }.

Record World (F D : Type) := mkWorld {
  phys : Phys F; cow : Cow.CowManager; swp : Swap.Swap D; asids : Asids; dbg : Debug; kernel_ttbr0 : Z
}.
Arguments mkWorld {F D}.
Arguments phys {F D}.
Arguments cow {F D}.
Arguments swp {F D}.
Arguments asids {F D}.
Arguments dbg {F D}.
Arguments kernel_ttbr0 {F D}.

(** A loop that a [return false] in its body ends. *)
Fixpoint each {A B} (f : B -> A -> res (B * bool)) (l : list A) (b : B) : res (B * bool) :=
  match l with
  | [] => Ok (b, true)
  | a :: l => '(b, ok) ← f b a; if (ok : bool) then each f l b else Ok (b, false)
  end.

Section World.
Context {F : Type} {frames : FrameAllocator F} {D : Type}.
Implicit Type w : World F D.

Definition set_phys s w : World F D := mkWorld s (cow w) (swp w) (asids w) (dbg w) (kernel_ttbr0 w).
Definition set_cow c w : World F D := mkWorld (phys w) c (swp w) (asids w) (dbg w) (kernel_ttbr0 w).
Definition set_swp x w : World F D := mkWorld (phys w) (cow w) x (asids w) (dbg w) (kernel_ttbr0 w).
Definition set_asids a w : World F D := mkWorld (phys w) (cow w) (swp w) a (dbg w) (kernel_ttbr0 w).
Definition set_dbg d w : World F D := mkWorld (phys w) (cow w) (swp w) (asids w) d (kernel_ttbr0 w).

(** Running an operation on one part. *)
Definition on_phys {A} (f : Phys F -> res (Phys F * A)) w : res (World F D * A) := '(s, a) ← f (phys w); Ok (set_phys s w, a).
Definition on_phys_ (f : Phys F -> res (Phys F)) w : res (World F D) := s ← f (phys w); Ok (set_phys s w).
Definition on_cow_ (f : Cow.CowManager -> res Cow.CowManager) w : res (World F D) := c ← f (cow w); Ok (set_cow c w).

(** ** The corruption check *)

Definition debug_set_vinit_tables (l0 l1 l2 : Z) w : res (World F D) :=
  e ← ldw l2 0 (phys w); Ok (set_dbg (mkDebug l0 l1 l2 e (corruption_detected (dbg w))) w).

(** Any mismatch is reported and the check spins forever. *)
Definition debug_verify_vinit_tables w : res bool :=
  let d := dbg w in
  if vinit_l0_phys d =? 0 then Ok true
  else if corruption_detected d then Diverge
  else
    l0_entry ← ldw (vinit_l0_phys d) 0 (phys w);
    if negb (valid l0_entry) then Diverge
    else if negb (addr_of l0_entry =? vinit_l1_phys d) then Diverge
    else
      l1_entry ← ldw (vinit_l1_phys d) 2 (phys w);
      if negb (valid l1_entry) then Diverge
      else if negb (addr_of l1_entry =? vinit_l2_phys d) then Diverge
      else
        l2_entry ← ldw (vinit_l2_phys d) 0 (phys w);
        if negb (l2_entry =? vinit_l2_entry0 d) then Diverge else Ok true.

(** ** Creation *)

(** The L1 table of the new space, with the kernel's first two entries. *)
Definition copy_kernel_entries (l1_page : Z) w : res (World F D) :=
  k0 ← ldw (kernel_ttbr0 w) 0 (phys w);
  if valid k0 then
    e0 ← ldw (addr_of k0) 0 (phys w);
    w ← on_phys_ (stw l1_page 0 e0) w;
    e1 ← ldw (addr_of k0) 1 (phys w);
    on_phys_ (stw l1_page 1 e1) w
  else Ok w.

Definition init (a : AddressSpace) w : res (AddressSpace * World F D * bool) :=
  _ ← debug_verify_vinit_tables w;
  '(ids, asid) ← asid_alloc (asids w);
  let w := set_asids ids w in
  if asid =? ASID_INVALID then Ok (mkAS (root_ a) asid, w, false)
  else
    _ ← debug_verify_vinit_tables w;
    '(w, l0_page) ← on_phys new_page w;
    if l0_page =? 0 then
      ids ← asid_free asid (asids w); Ok (mkAS (root_ a) ASID_INVALID, set_asids ids w, false)
    else
      _ ← debug_verify_vinit_tables w;
      w ← on_phys_ (zero_page l0_page) w;
      _ ← debug_verify_vinit_tables w;
      if kernel_ttbr0 w =? 0 then Ok (mkAS l0_page asid, w, true)
      else
        '(w, l1_page) ← on_phys new_page w;
        if l1_page =? 0 then
          w ← on_phys_ (drop_page l0_page) w;
          ids ← asid_free asid (asids w); Ok (mkAS l0_page ASID_INVALID, set_asids ids w, false)
        else
          _ ← debug_verify_vinit_tables w;
          w ← on_phys_ (zero_page l1_page) w;
          _ ← debug_verify_vinit_tables w;
          w ← copy_kernel_entries l1_page w;
          _ ← debug_verify_vinit_tables w;
          w ← on_phys_ (stw l0_page 0 (Z.lor (Z.lor l1_page VALID) TABLE)) w;
          _ ← debug_verify_vinit_tables w;
          Ok (mkAS l0_page asid, w, true).

(** ** Destruction *)

Definition release_leaf (l3_entry : Z) w : res (World F D) :=
  if valid l3_entry then
    let page_addr := addr_of l3_entry in
    refcount ← Cow.get_ref page_addr (cow w);
    if 1 <? refcount then
      '(c, _) ← Cow.dec_ref page_addr (cow w); Ok (set_cow c w)
    else if refcount =? 1 then
      '(c, _) ← Cow.dec_ref page_addr (cow w); on_phys_ (drop_page page_addr) (set_cow c w)
    else on_phys_ (drop_page page_addr) w
  else if Swap.is_swap_entry l3_entry then
    x ← Swap.free_slot l3_entry (swp w); Ok (set_swp x w)
  else Ok w.

Definition INDICES : list Z := seqZ 0 512.

Definition release_l3 (l3 : Z) w : res (World F D) :=
  w ← foldM (fun w l => e ← ldw l3 l (phys w); release_leaf e w) INDICES w;
  on_phys_ (drop_page l3) w.

Definition release_l2 (l2 : Z) w : res (World F D) :=
  w ← foldM (fun w k => e ← ldw l2 k (phys w); if valid e && is_table e then release_l3 (addr_of e) w else Ok w) INDICES w;
  on_phys_ (drop_page l2) w.

(** [i] is the index of the table in the root: the first two entries of table 0
    belong to the kernel. *)
Definition release_l1 (i l1 : Z) w : res (World F D) :=
  w ← foldM (fun w j =>
        e ← ldw l1 j (phys w);
        if negb (valid e) then Ok w
        else if (i =? 0) && ((j =? 0) || (j =? 1)) then Ok w
        else if is_table e then release_l2 (addr_of e) w else Ok w) INDICES w;
  on_phys_ (drop_page l1) w.

Definition destroy (a : AddressSpace) w : res (AddressSpace * World F D) :=
  if root_ a =? 0 then Ok (a, w)
  else
    w ← foldM (fun w i => e ← ldw (root_ a) i (phys w); if valid e && is_table e then release_l1 i (addr_of e) w else Ok w) INDICES w;
    w ← on_phys_ (drop_page (root_ a)) w;
    if negb (asid_ a =? ASID_INVALID) then
      ids ← asid_free (asid_ a) (asids w); Ok (mkAS 0 ASID_INVALID, set_asids ids w)
    else Ok (mkAS 0 (asid_ a), w).

(** ** Copy on write *)

Definition share_leaf (child_l3 parent_l3 i3 : Z) w : res (World F D) :=
  entry ← ldw parent_l3 i3 (phys w);
  if negb (valid entry) then Ok w
  else
    let phys_page := addr_of entry in
    let cow_entry := Z.lor entry AP_RO in
    w ← on_phys_ (stw child_l3 i3 cow_entry) w;
    w ← on_phys_ (stw parent_l3 i3 cow_entry) w;
    w ← on_cow_ (Cow.inc_ref phys_page) w;
    on_cow_ (Cow.mark_cow phys_page) w.

(** The three nested loops differ in what they do with a pair of tables. *)
Definition clone_level (body : Z -> Z -> World F D -> res (World F D * bool)) (child parent i : Z) w : res (World F D * bool) :=
  e ← ldw parent i (phys w);
  if negb (valid e) then Ok (w, true)
  else if negb (is_table e) then Ok (w, true)
  else
    '(w, child_t) ← on_phys (get_or_alloc_table child i) w;
    if child_t =? 0 then Ok (w, false)
    else
      e ← ldw parent i (phys w);
      body child_t (addr_of e) w.

Definition clone_l3 (child_l3 parent_l3 : Z) w : res (World F D * bool) :=
  w ← foldM (fun w i3 => share_leaf child_l3 parent_l3 i3 w) INDICES w; Ok (w, true).
Definition clone_l2 (child_l2 parent_l2 : Z) w : res (World F D * bool) :=
  each (fun w i2 => clone_level clone_l3 child_l2 parent_l2 i2 w) INDICES w.
Definition clone_l1 (child_l1 parent_l1 : Z) w : res (World F D * bool) :=
  each (fun w i1 => clone_level clone_l2 child_l1 parent_l1 i1 w) INDICES w.

Definition clone_cow_from (a : AddressSpace) (parent : option AddressSpace) w : res (World F D * bool) :=
  match parent with
  | None => Ok (w, false)
  | Some p =>
      if negb (is_valid p) || negb (is_valid a) then Ok (w, false)
      else each (fun w i0 => clone_level clone_l1 (root_ a) (root_ p) i0 w) (seqZ 1 511) w
  end.

(** The loops of [make_cow_readonly]. *)
Definition below (body : Z -> World F D -> res (World F D)) (table i : Z) w : res (World F D) :=
  e ← ldw table i (phys w); if valid e && is_table e then body (addr_of e) w else Ok w.
Definition readonly_l3 (l3 : Z) w : res (World F D) :=
  foldM (fun w i3 => e ← ldw l3 i3 (phys w); if valid e then on_phys_ (stw l3 i3 (Z.lor e AP_RO)) w else Ok w) INDICES w.
Definition readonly_l2 (l2 : Z) w : res (World F D) := foldM (fun w i2 => below readonly_l3 l2 i2 w) INDICES w.
Definition readonly_l1 (l1 : Z) w : res (World F D) := foldM (fun w i1 => below readonly_l2 l1 i1 w) INDICES w.
Definition make_cow_readonly (a : AddressSpace) w : res (World F D) :=
  if negb (is_valid a) then Ok w else foldM (fun w i0 => below readonly_l1 (root_ a) i0 w) (seqZ 1 511) w.

End World.
End World.
