(* ===== verification/Vma.v ===== *)
(** * Virtual memory areas

    Models [VmaList] of [src/kernel/mm/vma.cpp] and [vma.hpp].  The areas of an
    address space live in a pool of 256 nodes that are linked twice: in a list
    sorted by address and in a red-black tree.  A pointer to a node is its index
    in the pool; [None] is the null pointer, and reading through it is undefined
    behaviour.  Every function reads and writes the links in the order of the
    source.  The loops that follow links take fuel, [FUEL], which bounds the
    number of nodes. *)

From S2P Require Import Prelude.

Module Vma.

Inductive VmaType := ANONYMOUS | FILE | STACK | GUARD.
#[export] Instance VmaType_eq_dec : EqDecision VmaType.
Proof. solve_decision. Defined.

Definition PROT_NONE : Z := 0.
Definition PROT_READ : Z := 1.
Definition PROT_WRITE : Z := 2.
Definition PROT_EXEC : Z := 4.
Definition FLAGS_NONE : Z := 0.

Inductive RBColor := RED | BLACK.
#[export] Instance RBColor_eq_dec : EqDecision RBColor.
Proof. solve_decision. Defined.

Definition ptr : Type := option nat.

Record Vma := mkVma {
  start : Z; end_ : Z; prot : Z; type : VmaType; flags : Z; color : RBColor;
  file_inode : Z; file_offset : Z;
  left : ptr; right : ptr; parent : ptr; next : ptr
}.

Definition contains (v : Vma) (addr : Z) : bool := (start v <=? addr) && (addr <? end_ v).
Definition size (v : Vma) : Z := u64 (end_ v - start v).

Definition set_start x v := mkVma x (end_ v) (prot v) (type v) (flags v) (color v) (file_inode v) (file_offset v) (left v) (right v) (parent v) (next v).
Definition set_prot x v := mkVma (start v) (end_ v) x (type v) (flags v) (color v) (file_inode v) (file_offset v) (left v) (right v) (parent v) (next v).
Definition set_flags x v := mkVma (start v) (end_ v) (prot v) (type v) x (color v) (file_inode v) (file_offset v) (left v) (right v) (parent v) (next v).
Definition set_file n o v := mkVma (start v) (end_ v) (prot v) (type v) (flags v) (color v) n o (left v) (right v) (parent v) (next v).
Definition set_color x v := mkVma (start v) (end_ v) (prot v) (type v) (flags v) x (file_inode v) (file_offset v) (left v) (right v) (parent v) (next v).
Definition set_left x v := mkVma (start v) (end_ v) (prot v) (type v) (flags v) (color v) (file_inode v) (file_offset v) x (right v) (parent v) (next v).
Definition set_right x v := mkVma (start v) (end_ v) (prot v) (type v) (flags v) (color v) (file_inode v) (file_offset v) (left v) x (parent v) (next v).
Definition set_parent x v := mkVma (start v) (end_ v) (prot v) (type v) (flags v) (color v) (file_inode v) (file_offset v) (left v) (right v) x (next v).
Definition set_next x v := mkVma (start v) (end_ v) (prot v) (type v) (flags v) (color v) (file_inode v) (file_offset v) (left v) (right v) (parent v) x.
(** [vma->flags |= x]. *)
Definition mark_area (x : Z) v := set_flags (Z.lor (flags v) x) v.

Definition MAX_VMAS : nat := 256.
Definition MAX_STACK_SIZE : Z := 8 * 1024 * 1024.

Record VmaList := mkList {
  pool_ : list Vma; used_ : list bool; head_ : ptr; root_ : ptr; count_ : Z
}.

Definition set_pool p l := mkList p (used_ l) (head_ l) (root_ l) (count_ l).
Definition set_head h l := mkList (pool_ l) (used_ l) h (root_ l) (count_ l).
Definition set_root r l := mkList (pool_ l) (used_ l) (head_ l) r (count_ l).

(** Reading the node behind a pointer, a field of it, and writing to it. *)
Definition node (l : VmaList) (p : ptr) : res Vma :=
  match p with
  | Some i => match pool_ l !! i with Some v => Ok v | None => Ub end
  | None => Ub
  end.
Definition ld {A} (l : VmaList) (f : Vma -> A) (p : ptr) : res A := v ← node l p; Ok (f v).
Definition st (p : ptr) (f : Vma -> Vma) (l : VmaList) : res VmaList :=
  match p with
  | Some i => match pool_ l !! i with Some _ => Ok (set_pool (alter f i (pool_ l)) l) | None => Ub end
  | None => Ub
  end.
(** Writing through a pointer that may be null: [if (p) p->... = ...]. *)
Definition st_opt (p : ptr) (f : Vma -> Vma) (l : VmaList) : res VmaList :=
  match p with Some _ => st p f l | None => Ok l end.

Definition FUEL : nat := S (S MAX_VMAS).

Definition init (l : VmaList) : VmaList :=
  mkList ((fun v => set_color BLACK (set_parent None (set_right None (set_left None (set_next None v))))) <$> pool_ l)
    (replicate (length (used_ l)) false) None None 0.

(** ** Red-black tree *)

Definition rb_rotate_left (x : ptr) (l : VmaList) : res VmaList :=
  y ← ld l right x;
  yl ← ld l left y;
  l ← st x (set_right yl) l;
  yl ← ld l left y;
  l ← st_opt yl (set_parent x) l;
  xp ← ld l parent x;
  l ← st y (set_parent xp) l;
  xp ← ld l parent x;
  l ← match xp with
      | None => Ok (set_root y l)
      | Some _ =>
          xpl ← ld l left xp;
          if bool_decide (x = xpl) then st xp (set_left y) l else st xp (set_right y) l
      end;
  l ← st y (set_left x) l;
  st x (set_parent y) l.

Definition rb_rotate_right (x : ptr) (l : VmaList) : res VmaList :=
  y ← ld l left x;
  yr ← ld l right y;
  l ← st x (set_left yr) l;
  yr ← ld l right y;
  l ← st_opt yr (set_parent x) l;
  xp ← ld l parent x;
  l ← st y (set_parent xp) l;
  xp ← ld l parent x;
  l ← match xp with
      | None => Ok (set_root y l)
      | Some _ =>
          xpr ← ld l right xp;
          if bool_decide (x = xpr) then st xp (set_right y) l else st xp (set_left y) l
      end;
  l ← st y (set_right x) l;
  st x (set_parent y) l.

(** [p && p->color == RED]. *)
Definition is_red (l : VmaList) (p : ptr) : res bool :=
  match p with None => Ok false | Some _ => c ← ld l color p; Ok (bool_decide (c = RED)) end.
(** [!p || p->color == BLACK]. *)
Definition is_black (l : VmaList) (p : ptr) : res bool :=
  match p with None => Ok true | Some _ => c ← ld l color p; Ok (bool_decide (c = BLACK)) end.

(** One round of the loop of [rb_insert_fixup] when the parent [zp] of [z] is red
    and is the left, or the right, child of the grandparent [zpp]: the next [z]. *)
Definition insert_fix_left (z zp zpp : ptr) (l : VmaList) : res (ptr * VmaList) :=
  y ← ld l right zpp;
  yred ← is_red l y;
  if (yred : bool) then
    l ← st zp (set_color BLACK) l;
    l ← st y (set_color BLACK) l;
    l ← st zpp (set_color RED) l;
    Ok (zpp, l)
  else
    zpr ← ld l right zp;
    '(z, l) ← (if bool_decide (z = zpr) then l ← rb_rotate_left zp l; Ok (zp, l) else Ok (z, l));
    zp ← ld l parent z;
    l ← st zp (set_color BLACK) l;
    zpp ← ld l parent zp;
    l ← match zpp with
        | Some _ => l ← st zpp (set_color RED) l; rb_rotate_right zpp l
        | None => Ok l
        end;
    Ok (z, l).

Definition insert_fix_right (z zp zpp : ptr) (l : VmaList) : res (ptr * VmaList) :=
  y ← ld l left zpp;
  yred ← is_red l y;
  if (yred : bool) then
    l ← st zp (set_color BLACK) l;
    l ← st y (set_color BLACK) l;
    l ← st zpp (set_color RED) l;
    Ok (zpp, l)
  else
    zpl ← ld l left zp;
    '(z, l) ← (if bool_decide (z = zpl) then l ← rb_rotate_right zp l; Ok (zp, l) else Ok (z, l));
    zp ← ld l parent z;
    l ← st zp (set_color BLACK) l;
    zpp ← ld l parent zp;
    l ← match zpp with
        | Some _ => l ← st zpp (set_color RED) l; rb_rotate_left zpp l
        | None => Ok l
        end;
    Ok (z, l).

Fixpoint rb_insert_loop (fuel : nat) (z : ptr) (l : VmaList) : res VmaList :=
  match fuel with
  | O => Diverge
  | S fuel =>
      zp ← ld l parent z;
      red ← is_red l zp;
      if (red : bool) then
        zpp ← ld l parent zp;
        match zpp with
        | None => rb_insert_loop fuel z l
        | Some _ =>
            zppl ← ld l left zpp;
            '(z, l) ← (if bool_decide (zp = zppl) then insert_fix_left z zp zpp l else insert_fix_right z zp zpp l);
            rb_insert_loop fuel z l
        end
      else Ok l
  end.

Definition rb_insert_fixup (z : ptr) (l : VmaList) : res VmaList :=
  l ← rb_insert_loop FUEL z l; st (root_ l) (set_color BLACK) l.

(** The walk to the place of the new node: its parent. *)
Fixpoint rb_insert_walk (fuel : nat) (key : Z) (y x : ptr) (l : VmaList) : res ptr :=
  match x with
  | None => Ok y
  | Some _ =>
      match fuel with
      | O => Diverge
      | S fuel =>
          xs ← ld l start x;
          xn ← (if key <? xs then ld l left x else ld l right x);
          rb_insert_walk fuel key x xn l
      end
  end.

Definition rb_insert (z : ptr) (l : VmaList) : res VmaList :=
  l ← st z (set_left None) l;
  l ← st z (set_right None) l;
  l ← st z (set_color RED) l;
  key ← ld l start z;
  y ← rb_insert_walk FUEL key None (root_ l) l;
  l ← st z (set_parent y) l;
  l ← match y with
      | None => Ok (set_root z l)
      | Some _ =>
          ys ← ld l start y;
          if key <? ys then st y (set_left z) l else st y (set_right z) l
      end;
  rb_insert_fixup z l.

Fixpoint rb_minimum (fuel : nat) (x : ptr) (l : VmaList) : res ptr :=
  match fuel with
  | O => Diverge
  | S fuel =>
      match x with
      | None => Ok None
      | Some _ => xl ← ld l left x; match xl with Some _ => rb_minimum fuel xl l | None => Ok x end
      end
  end.

Definition rb_transplant (u v : ptr) (l : VmaList) : res VmaList :=
  up ← ld l parent u;
  l ← match up with
      | None => Ok (set_root v l)
      | Some _ =>
          upl ← ld l left up;
          if bool_decide (u = upl) then st up (set_left v) l else st up (set_right v) l
      end;
  match v with Some _ => up ← ld l parent u; st v (set_parent up) l | None => Ok l end.

(** [p ? p->field : nullptr]. *)
Definition ld_opt (l : VmaList) (f : Vma -> ptr) (p : ptr) : res ptr :=
  match p with Some _ => ld l f p | None => Ok None end.

(** How a round of the loop of [rb_remove_fixup] ends: with the next [x] and its
    parent, or with [break]. *)
Inductive Round := Again (x parent_ : ptr) | Break (x : ptr).

(** The rounds where [x] is the left, and the right, child; [w] is the sibling,
    [near] and [far] are its children towards and away from [x]. *)
Definition remove_fix_left (x parent_ : ptr) (l : VmaList) : res (Round * VmaList) :=
  w ← ld_opt l right parent_;
  wr ← is_red l w;
  '(w, l) ← (if (wr : bool) then
               l ← st w (set_color BLACK) l;
               l ← st parent_ (set_color RED) l;
               l ← rb_rotate_left parent_ l;
               w ← ld l right parent_; Ok (w, l)
             else Ok (w, l));
  match w with
  | None => Ok (Break x, l)
  | Some _ =>
      near ← ld l left w;
      near_black ← is_black l near;
      far ← ld l right w;
      far_black ← is_black l far;
      if (near_black : bool) && (far_black : bool) then
        l ← st w (set_color RED) l;
        pp ← ld_opt l parent parent_;
        Ok (Again parent_ pp, l)
      else
        '(w, l) ← (if far_black then
                     l ← st_opt near (set_color BLACK) l;
                     l ← st w (set_color RED) l;
                     l ← rb_rotate_right w l;
                     w ← ld l right parent_; Ok (w, l)
                   else Ok (w, l));
        l ← match w with
            | Some _ =>
                pc ← ld l color parent_;
                l ← st w (set_color pc) l;
                l ← st parent_ (set_color BLACK) l;
                far ← ld l right w;
                l ← st_opt far (set_color BLACK) l;
                rb_rotate_left parent_ l
            | None => Ok l
            end;
        Ok (Break (root_ l), l)
  end.

Definition remove_fix_right (x parent_ : ptr) (l : VmaList) : res (Round * VmaList) :=
  w ← ld_opt l left parent_;
  wr ← is_red l w;
  '(w, l) ← (if (wr : bool) then
               l ← st w (set_color BLACK) l;
               l ← st parent_ (set_color RED) l;
               l ← rb_rotate_right parent_ l;
               w ← ld l left parent_; Ok (w, l)
             else Ok (w, l));
  match w with
  | None => Ok (Break x, l)
  | Some _ =>
      near ← ld l right w;
      near_black ← is_black l near;
      far ← ld l left w;
      far_black ← is_black l far;
      if (near_black : bool) && (far_black : bool) then
        l ← st w (set_color RED) l;
        pp ← ld_opt l parent parent_;
        Ok (Again parent_ pp, l)
      else
        '(w, l) ← (if far_black then
                     l ← st_opt near (set_color BLACK) l;
                     l ← st w (set_color RED) l;
                     l ← rb_rotate_left w l;
                     w ← ld l left parent_; Ok (w, l)
                   else Ok (w, l));
        l ← match w with
            | Some _ =>
                pc ← ld l color parent_;
                l ← st w (set_color pc) l;
                l ← st parent_ (set_color BLACK) l;
                far ← ld l left w;
                l ← st_opt far (set_color BLACK) l;
                rb_rotate_right parent_ l
            | None => Ok l
            end;
        Ok (Break (root_ l), l)
  end.

Fixpoint rb_remove_loop (fuel : nat) (x parent_ : ptr) (l : VmaList) : res (ptr * VmaList) :=
  match fuel with
  | O => Diverge
  | S fuel =>
      xb ← is_black l x;
      if negb (bool_decide (x = root_ l)) && (xb : bool) then
        pl ← ld_opt l left parent_;
        '(r, l) ← (if bool_decide (x = pl) then remove_fix_left x parent_ l else remove_fix_right x parent_ l);
        match r with
        | Again x parent_ => rb_remove_loop fuel x parent_ l
        | Break x => Ok (x, l)
        end
      else Ok (x, l)
  end.

Definition rb_remove_fixup (x parent_ : ptr) (l : VmaList) : res VmaList :=
  '(x, l) ← rb_remove_loop FUEL x parent_ l; st_opt x (set_color BLACK) l.

(** A node with two children is replaced by its successor. *)
Definition successor_step (z zr : ptr) (l : VmaList) : res (ptr * ptr * RBColor * VmaList) :=
  y ← rb_minimum FUEL zr l;
  yc ← ld l color y;
  x ← ld l right y;
  yp ← ld l parent y;
  '(x_parent, l) ←
    (if bool_decide (yp = z) then Ok (y, l)
     else
       yr ← ld l right y;
       l ← rb_transplant y yr l;
       zr ← ld l right z;
       l ← st y (set_right zr) l;
       yr ← ld l right y;
       l ← st_opt yr (set_parent y) l;
       Ok (yp, l));
  l ← rb_transplant z y l;
  zl ← ld l left z;
  l ← st y (set_left zl) l;
  yl ← ld l left y;
  l ← st_opt yl (set_parent y) l;
  zc ← ld l color z;
  l ← st y (set_color zc) l;
  Ok (x, x_parent, yc, l).

Definition rb_remove (z : ptr) (l : VmaList) : res VmaList :=
  match z with
  | None => Ok l
  | Some _ =>
      zc ← ld l color z;
      zl ← ld l left z;
      zr ← ld l right z;
      '(x, x_parent, y_original_color, l) ←
        match zl, zr with
        | None, _ =>
            zp ← ld l parent z;
            l ← rb_transplant z zr l; Ok (zr, zp, zc, l)
        | _, None =>
            zp ← ld l parent z;
            l ← rb_transplant z zl l; Ok (zl, zp, zc, l)
        | _, _ =>
            successor_step z zr l
        end;
      if bool_decide (y_original_color = BLACK) then rb_remove_fixup x x_parent l else Ok l
  end.

Fixpoint rb_find_loop (fuel : nat) (addr : Z) (p : ptr) (l : VmaList) : res ptr :=
  match p with
  | None => Ok None
  | Some _ =>
      match fuel with
      | O => Diverge
      | S fuel =>
          v ← node l p;
          if addr <? start v then rb_find_loop fuel addr (left v) l
          else if end_ v <=? addr then rb_find_loop fuel addr (right v) l
          else Ok p
      end
  end.
Definition rb_find (addr : Z) (l : VmaList) : res ptr := rb_find_loop FUEL addr (root_ l) l.

(** ** The pool *)

Fixpoint first_unused (i : nat) (u : list bool) : option nat :=
  match u with
  | [] => None
  | b :: u => if b then first_unused (S i) u else Some i
  end.

Definition alloc_vma (l : VmaList) : VmaList * ptr :=
  match first_unused 0 (used_ l) with
  | Some i => (mkList (pool_ l) (<[i := true]> (used_ l)) (head_ l) (root_ l) (u64 (count_ l + 1)), Some i)
  | None => (l, None)
  end.

Definition free_vma (p : ptr) (l : VmaList) : VmaList :=
  match p with
  | None => l
  | Some i =>
      if bool_decide (i < length (pool_ l))%nat then
        mkList (pool_ l) (<[i := false]> (used_ l)) (head_ l) (root_ l) (u64 (count_ l - 1))
      else l
  end.

(** ** The sorted list *)

Fixpoint insert_walk (fuel : nat) (key : Z) (prev : ptr) (l : VmaList) : res ptr :=
  match fuel with
  | O => Diverge
  | S fuel =>
      n ← ld l next prev;
      match n with
      | None => Ok prev
      | Some _ => s ← ld l start n; if s <? key then insert_walk fuel key n l else Ok prev
      end
  end.

Definition insert_sorted (vma : ptr) (l : VmaList) : res VmaList :=
  key ← ld l start vma;
  at_head ← match head_ l with None => Ok true | Some _ => hs ← ld l start (head_ l); Ok (key <? hs) end;
  if (at_head : bool) then
    l ← st vma (set_next (head_ l)) l; Ok (set_head vma l)
  else
    prev ← insert_walk FUEL key (head_ l) l;
    pn ← ld l next prev;
    l ← st vma (set_next pn) l;
    st prev (set_next vma) l.

Fixpoint find_overlap_unlocked (fuel : nat) (vma : ptr) (s e : Z) (l : VmaList) : res ptr :=
  match vma with
  | None => Ok None
  | Some _ =>
      match fuel with
      | O => Diverge
      | S fuel =>
          v ← node l vma;
          if (s <? end_ v) && (start v <? e) then Ok vma
          else if e <=? start v then Ok None
          else find_overlap_unlocked fuel (next v) s e l
      end
  end.

(** ** Operations *)

Definition PAGE_SIZE : Z := 4096.
Definition PAGE_MASK : Z := PAGE_SIZE - 1.

Definition find (addr : Z) (l : VmaList) : res ptr := rb_find addr l.
Definition find_locked (addr : Z) (l : VmaList) : res ptr := rb_find addr l.

Definition fresh_vma (s e p : Z) (t : VmaType) : Vma :=
  mkVma s e p t FLAGS_NONE RED 0 0 None None None None.

Definition add (s e p : Z) (t : VmaType) (l : VmaList) : res (VmaList * ptr) :=
  if negb (Z.land s PAGE_MASK =? 0) || negb (Z.land e PAGE_MASK =? 0) then Ok (l, None)
  else if e <=? s then Ok (l, None)
  else
    o ← find_overlap_unlocked FUEL (head_ l) s e l;
    match o with
    | Some _ => Ok (l, None)
    | None =>
        let '(l, vma) := alloc_vma l in
        match vma with
        | None => Ok (l, None)
        | Some _ =>
            l ← st vma (fun _ => fresh_vma s e p t) l;
            l ← insert_sorted vma l;
            l ← rb_insert vma l;
            Ok (l, vma)
        end
    end.

Definition add_file (s e p inode offset : Z) (l : VmaList) : res (VmaList * ptr) :=
  '(l, vma) ← add s e p FILE l;
  match vma with
  | Some _ => l ← st vma (set_file inode offset) l; Ok (l, vma)
  | None => Ok (l, None)
  end.

Fixpoint unlink_walk (fuel : nat) (target prev : ptr) (l : VmaList) : res ptr :=
  match fuel with
  | O => Diverge
  | S fuel =>
      n ← ld l next prev;
      if bool_decide (n <> None) && negb (bool_decide (n = target)) then unlink_walk fuel target n l else Ok prev
  end.

Definition remove (target : ptr) (l : VmaList) : res (VmaList * bool) :=
  if bool_decide (head_ l = None) || bool_decide (target = None) then Ok (l, false)
  else
    l ← rb_remove target l;
    if bool_decide (head_ l = target) then
      n ← ld l next target;
      Ok (free_vma target (set_head n l), true)
    else
      prev ← unlink_walk FUEL target (head_ l) l;
      pn ← ld l next prev;
      if bool_decide (pn = target) then
        n ← ld l next target;
        l ← st prev (set_next n) l;
        Ok (free_vma target l, true)
      else Ok (l, false).

Fixpoint remove_range_loop (fuel : nat) (s e : Z) (prev vma : ptr) (l : VmaList) : res VmaList :=
  match vma with
  | None => Ok l
  | Some _ =>
      match fuel with
      | O => Diverge
      | S fuel =>
          v ← node l vma;
          if negb ((end_ v <=? s) || (e <=? start v)) then
            n ← ld l next vma;
            l ← rb_remove vma l;
            l ← match prev with Some _ => st prev (set_next n) l | None => Ok (set_head n l) end;
            remove_range_loop fuel s e prev n (free_vma vma l)
          else remove_range_loop fuel s e vma (next v) l
      end
  end.

Definition remove_range (s e : Z) (l : VmaList) : res VmaList := remove_range_loop FUEL s e None (head_ l) l.

Definition clear (l : VmaList) : VmaList :=
  mkList ((fun v => set_parent None (set_right None (set_left None v))) <$> pool_ l)
    (replicate (length (used_ l)) false) None None 0.

End Vma.
