(* ===== verification/VmaTree.v ===== *)
(** * The red-black tree of areas, as linked nodes

    An inductive tree over pool indices, contexts (a path from a node to the
    root, with the subtrees beside it), and the predicate [zip] that the links in
    the pool form the tree obtained by plugging a subtree into a context.  The
    primitive steps of the code (rotations, recolouring, attaching a leaf,
    transplanting) are proved once for an arbitrary context; insertion and
    removal then move in the context. *)

From S2P Require Import Prelude Vma.

Module VmaTree.
Import Vma.

Inductive tree := Leaf | Node (c : RBColor) (l : tree) (i : nat) (r : tree).
#[export] Instance tree_eq_dec : EqDecision tree.
Proof. solve_decision. Defined.
(** A step of a path: the hole is the left or the right child of node [i]. *)
Inductive frame := FL (c : RBColor) (i : nat) (r : tree) | FR (c : RBColor) (l : tree) (i : nat).
Abbreviation ctx := (list frame).

Fixpoint inorder (t : tree) : list nat :=
  match t with Leaf => [] | Node _ l i r => inorder l ++ i :: inorder r end.
Definition plug1 (f : frame) (t : tree) : tree :=
  match f with FL c i r => Node c t i r | FR c l i => Node c l i t end.
Fixpoint plug (k : ctx) (t : tree) : tree :=
  match k with [] => t | f :: k => plug k (plug1 f t) end.

Definition rootp (t : tree) : ptr := match t with Leaf => None | Node _ _ i _ => Some i end.
Definition fnode (f : frame) : nat := match f with FL _ i _ | FR _ _ i => i end.
Definition cpar (k : ctx) : ptr := match k with [] => None | f :: _ => Some (fnode f) end.
Fixpoint croot (k : ctx) (p : ptr) : ptr := match k with [] => p | f :: k => croot k (Some (fnode f)) end.

(** The links that the nodes of a tree and of a context must have. *)
Record Link := mkLink { lc : RBColor; ll : ptr; lr : ptr; lp : ptr }.
Definition link (v : Vma) : Link := mkLink (color v) (left v) (right v) (parent v).

Fixpoint links (par : ptr) (t : tree) : list (nat * Link) :=
  match t with
  | Leaf => []
  | Node c l i r => (i, mkLink c (rootp l) (rootp r) par) :: links (Some i) l ++ links (Some i) r
  end.
Fixpoint clinks (k : ctx) (p : ptr) : list (nat * Link) :=
  match k with
  | [] => []
  | FL c i r :: k => (i, mkLink c p (rootp r) (cpar k)) :: links (Some i) r ++ clinks k (Some i)
  | FR c l i :: k => (i, mkLink c (rootp l) p (cpar k)) :: links (Some i) l ++ clinks k (Some i)
  end.

Definition has (m : list Vma) (x : nat * Link) : Prop := link <$> m !! x.1 = Some x.2.

Fixpoint nodes (t : tree) : list nat := match t with Leaf => [] | Node _ l i r => i :: nodes l ++ nodes r end.
Fixpoint cnodes (k : ctx) : list nat :=
  match k with
  | [] => []
  | FL _ i r :: k => i :: nodes r ++ cnodes k
  | FR _ l i :: k => i :: nodes l ++ cnodes k
  end.

Record zip (l : VmaList) (k : ctx) (t : tree) : Prop := {
  z_root : root_ l = croot k (rootp t);
  z_ctx : Forall (has (pool_ l)) (clinks k (rootp t));
  z_tree : Forall (has (pool_ l)) (links (cpar k) t);
  z_nodup : NoDup (cnodes k ++ nodes t)
}.

(** What the tree operations leave alone: everything but the links. *)
Definition data (v : Vma) := (start v, end_ v, prot v, type v, flags v, file_inode v, file_offset v, next v).
Record same (l l' : VmaList) : Prop := {
  sm_data : forall i, data <$> pool_ l' !! i = data <$> pool_ l !! i;
  sm_used : used_ l' = used_ l;
  sm_head : head_ l' = head_ l;
  sm_count : count_ l' = count_ l
}.

Lemma same_refl l : same l l.
Proof. done. Qed.
Lemma same_trans l1 l2 l3 : same l1 l2 -> same l2 l3 -> same l1 l3.
Proof. intros [A1 A2 A3 A4] [B1 B2 B3 B4]. constructor; [intros i; by rewrite B1|congruence..]. Qed.

Lemma same_length l l' : same l l' -> length (pool_ l') = length (pool_ l).
Proof.
  intros [H _ _ _]. apply Nat.le_antisymm; apply Nat.nlt_ge; intros Hlt.
  - apply lookup_lt_is_Some_2 in Hlt as [v Hv]. specialize (H (length (pool_ l))). rewrite Hv in H. by rewrite lookup_ge_None_2 in H.
  - apply lookup_lt_is_Some_2 in Hlt as [v Hv]. specialize (H (length (pool_ l'))). rewrite Hv in H. by rewrite lookup_ge_None_2 in H.
Qed.

(** ** Moving the focus *)

Lemma links_nodes par t : (links par t).*1 = nodes t.
Proof. revert par. induction t as [|c l IHl i r IHr]; intros par; [done|]. cbn. by rewrite fmap_app, IHl, IHr. Qed.

Lemma clinks_nodes k p : (clinks k p).*1 = cnodes k.
Proof. revert p. induction k as [|[c i r|c l i] k IH]; intros p; [done|..]; cbn; by rewrite fmap_app, links_nodes, IH. Qed.

Lemma zip_up l f k t : zip l (f :: k) t <-> zip l k (plug1 f t).
Proof.
  destruct f as [c i r|c a i]; split; intros [H1 H2 H3 H4]; cbn [plug1 links clinks cnodes nodes rootp croot cpar fnode] in *.
  all: repeat match goal with H : Forall _ (_ :: _) |- _ => apply Forall_cons in H as [? ?] | H : Forall _ (_ ++ _) |- _ => apply Forall_app in H as [? ?] end.
  all: constructor; cbn [plug1 links clinks cnodes nodes rootp croot cpar fnode]; try done.
  all: try (apply Forall_cons; split; [done|]; apply Forall_app; done).
  all: eapply NoDup_Permutation_proper; [|exact H4]; solve_Permutation.
Qed.

Lemma zip_plug l k1 k2 t : zip l (k1 ++ k2) t <-> zip l k2 (plug k1 t).
Proof. revert t. induction k1 as [|f k1 IH]; intros t; [done|]. cbn [app plug]. by rewrite zip_up, IH. Qed.

Lemma inorder_plug k t1 t2 : inorder t1 = inorder t2 -> inorder (plug k t1) = inorder (plug k t2).
Proof. revert t1 t2. induction k as [|[c i r|c a i] k IH]; intros t1 t2 E; cbn [plug]; [done|..]; apply IH; cbn; by rewrite E. Qed.

Lemma plug_app k1 k2 t : plug (k1 ++ k2) t = plug k2 (plug k1 t).
Proof. revert t. induction k1 as [|f k1 IH]; intros t; [done|]. cbn. apply IH. Qed.

(** ** Memory *)

Definition agree (m m' : list Vma) (js : list nat) : Prop := forall j, j ∈ js -> link <$> m' !! j = link <$> m !! j.

Lemma has_frame m m' L : Forall (has m) L -> agree m m' L.*1 -> Forall (has m') L.
Proof.
  intros H A. rewrite Forall_forall in *. intros [j x] Hx. unfold has in *. cbn [fst snd] in *.
  rewrite A; [by apply (H (j, x))|]. apply list_elem_of_fmap. by exists (j, x).
Qed.

Lemma tree_frame m m' par t : Forall (has m) (links par t) -> agree m m' (nodes t) -> Forall (has m') (links par t).
Proof. intros H A. eapply has_frame; [done|]. by rewrite links_nodes. Qed.
Lemma ctx_frame m m' k p : Forall (has m) (clinks k p) -> agree m m' (cnodes k) -> Forall (has m') (clinks k p).
Proof. intros H A. eapply has_frame; [done|]. by rewrite clinks_nodes. Qed.

(** Symbolic execution of reads and writes: the pool is a nest of [alter]s over
    a pool whose nodes are known. *)
Lemma lookup_alter_same (f : Vma -> Vma) i (m : list Vma) v : m !! i = Some v -> alter f i m !! i = Some (f v).
Proof. intros H. by rewrite list_lookup_alter_eq, H. Qed.
Lemma lookup_alter_other (f : Vma -> Vma) i j (m : list Vma) v : i <> j -> m !! j = Some v -> alter f i m !! j = Some v.
Proof. intros Hn H. by rewrite list_lookup_alter_ne. Qed.

Lemma ld_eq {A} l (f : Vma -> A) i v : pool_ l !! i = Some v -> ld l f (Some i) = Ok (f v).
Proof. intros H. unfold ld, node. by rewrite H. Qed.
Lemma st_eq l f i v : pool_ l !! i = Some v -> st (Some i) f l = Ok (set_pool (alter f i (pool_ l)) l).
Proof. intros H. unfold st. by rewrite H. Qed.

Ltac lookup_node :=
  cbn [pool_ set_pool set_root];
  first [eassumption
        | eapply lookup_alter_same; lookup_node
        | eapply lookup_alter_other; [first [assumption | symmetry; assumption | congruence]|]; lookup_node].
Ltac step :=
  match goal with
  | |- context [ld _ _ (Some _)] => erewrite ld_eq by lookup_node
  | |- context [st (Some _) _ _] => erewrite st_eq by lookup_node
  end;
  cbn [pool_ used_ head_ root_ count_ set_pool set_root mbind res_bind st_opt left right parent color
       set_left set_right set_parent set_color].
Ltac steps := repeat first [rewrite bind_Ok | step].

Lemma has_cons m par c a i b :
  Forall (has m) (links par (Node c a i b)) <->
  (exists v, m !! i = Some v /\ link v = mkLink c (rootp a) (rootp b) par) /\
  Forall (has m) (links (Some i) a) /\ Forall (has m) (links (Some i) b).
Proof.
  cbn [links]. rewrite Forall_cons, Forall_app. unfold has at 1. cbn [fst snd]. destruct (m !! i) as [v|]; cbn [fmap option_fmap option_map].
  - split; [intros [E H]; apply Some_inj in E; split; [by exists v|done]|]. intros [(v' & E & Hl) H]. injection E as <-. by rewrite Hl.
  - split; [by intros [? _]|]. by intros [(v & ? & _) _].
Qed.

Lemma link_fields v c p q r : link v = mkLink c p q r -> color v = c /\ left v = p /\ right v = q /\ parent v = r.
Proof. intros [= <- <- <- <-]. done. Qed.

(** A tree whose root gets another parent. *)
Lemma reparent m m' p p' t :
  Forall (has m) (links p t) ->
  (forall j, j ∈ nodes t -> Some j <> rootp t -> link <$> m' !! j = link <$> m !! j) ->
  (forall j v, rootp t = Some j -> m !! j = Some v -> exists v', m' !! j = Some v' /\ link v' = mkLink (color v) (left v) (right v) p') ->
  NoDup (nodes t) -> Forall (has m') (links p' t).
Proof.
  intros H Ha Hr Hn. destruct t as [|c a i b]; [done|]. apply has_cons in H as ((v & Hv & Hl) & H1 & H2). apply has_cons.
  destruct (Hr i v eq_refl Hv) as (v' & Hv' & Hl'). apply link_fields in Hl as (<- & El & Er & Ep).
  cbn [nodes] in Hn. apply NoDup_cons in Hn as [Hi Hn]. cbn [nodes rootp] in Ha. split.
  - exists v'. split; [done|]. by rewrite Hl', El, Er.
  - split; eapply tree_frame; try done; intros j Hj; apply Ha; [set_solver|set_solver|set_solver|set_solver].
Qed.

Lemma rootp_in t j : rootp t = Some j -> j ∈ nodes t.
Proof. destruct t; [done|]. intros [= ->]. by left. Qed.

Lemma same_alters l m' r' :
  (forall i, data <$> m' !! i = data <$> pool_ l !! i) -> same l (mkList m' (used_ l) (head_ l) r' (count_ l)).
Proof. done. Qed.

(** Writing links changes no data. *)
Lemma data_alter (f : Vma -> Vma) i (m : list Vma) j : (forall v, data (f v) = data v) -> data <$> alter f i m !! j = data <$> m !! j.
Proof.
  intros H. destruct (decide (i = j)) as [->|Hne]; [|by rewrite list_lookup_alter_ne]. rewrite list_lookup_alter_eq.
  destruct (m !! j) as [v|]; [|done]. cbn. by rewrite H.
Qed.

(** A duplicate-free list as facts about its parts: each part is disjoint from
    what follows it. *)
Ltac split_nodup H :=
  cbn [nodes cnodes app] in H;
  repeat first [rewrite <- app_assoc in H | rewrite <- app_comm_cons in H];
  repeat first [rewrite NoDup_app in H | rewrite NoDup_cons in H].
Ltac in_parts := repeat first [apply elem_of_cons; first [left; reflexivity | right] | apply elem_of_app; first [left; assumption | right]]; assumption.
(** Contradicts [Hn] by an index that occurs in two parts. *)
Ltac twice :=
  repeat match goal with H : _ /\ _ |- _ => destruct H end;
  match goal with
  | H : ?x ∉ _ |- _ => apply H; in_parts
  | H : forall x, x ∈ ?L -> x ∉ _, Hj : ?j ∈ ?L |- _ => apply (H j Hj); in_parts
  end.
Ltac apart Hn a b := assert (a <> b) by (intros ->; exfalso; clear -Hn; twice).

Lemma open_node m par c a i b :
  Forall (has m) (links par (Node c a i b)) ->
  (exists s e p t f n o x, m !! i = Some (mkVma s e p t f c n o (rootp a) (rootp b) par x)) /\
  Forall (has m) (links (Some i) a) /\ Forall (has m) (links (Some i) b).
Proof.
  intros ((v & Hv & Hl) & H)%has_cons. split; [|done]. destruct v. unfold link in Hl. cbn in Hl. injection Hl as -> -> -> ->. eauto 10.
Qed.

Ltac open H :=
  let Hi := fresh "Hi" in let Ha := fresh "Ha" in let Hb := fresh "Hb" in
  apply open_node in H as ((? & ? & ? & ? & ? & ? & ? & ? & Hi) & Ha & Hb).

Lemma open_frame m f k p :
  Forall (has m) (clinks (f :: k) p) ->
  (exists s e pr t fl n o x, m !! fnode f = Some (mkVma s e pr t fl
     (match f with FL c _ _ | FR c _ _ => c end) n o
     (match f with FL _ _ _ => p | FR _ a _ => rootp a end) (match f with FL _ _ b => rootp b | FR _ _ _ => p end) (cpar k) x)) /\
  Forall (has m) (links (Some (fnode f)) (match f with FL _ _ b => b | FR _ a _ => a end)) /\ Forall (has m) (clinks k (Some (fnode f))).
Proof.
  intros H. destruct f as [c i b|c a i]; cbn [clinks fnode] in *; apply Forall_cons in H as [H1 [H2 H3]%Forall_app]; (split; [|done]).
  all: unfold has in H1; cbn [fst snd] in H1; destruct (m !! i) as [v|]; [|done]; cbn in H1; apply Some_inj in H1; destruct v; unfold link in H1; cbn in H1.
  all: injection H1 as -> -> -> ->; eauto 10.
Qed.

(** Closing a node again after its links were written. *)
Lemma close_node m par c a i b v :
  m !! i = Some v -> link v = mkLink c (rootp a) (rootp b) par ->
  Forall (has m) (links (Some i) a) -> Forall (has m) (links (Some i) b) -> Forall (has m) (links par (Node c a i b)).
Proof. intros H Hl Ha Hb. apply has_cons. split; [|done]. by eexists. Qed.

Lemma close_frame m f k p v :
  m !! fnode f = Some v ->
  link v = mkLink (match f with FL c _ _ | FR c _ _ => c end)
     (match f with FL _ _ _ => p | FR _ a _ => rootp a end) (match f with FL _ _ b => rootp b | FR _ _ _ => p end) (cpar k) ->
  Forall (has m) (links (Some (fnode f)) (match f with FL _ _ b => b | FR _ a _ => a end)) -> Forall (has m) (clinks k (Some (fnode f))) ->
  Forall (has m) (clinks (f :: k) p).
Proof.
  intros H1 Hl H2 H3. destruct f as [c i b|c a i]; cbn [clinks fnode] in *; (apply Forall_cons; split; [|by apply Forall_app]).
  all: unfold has; cbn [fst snd]; rewrite H1; cbn; by rewrite Hl.
Qed.

Ltac open_ctx H :=
  let Hi := fresh "Hi" in let Hs := fresh "Hs" in let Hk := fresh "Hk" in
  apply open_frame in H as ((? & ? & ? & ? & ? & ? & ? & ? & Hi) & Hs & Hk).

(** Untouched subtrees. *)
Ltac untouched Hn :=
  first [eapply tree_frame; [eassumption|] | eapply ctx_frame; [eassumption|]];
  let j := fresh "j" in let Hj := fresh "Hj" in intros j Hj; cbn [pool_ set_pool set_root];
  rewrite !list_lookup_alter_ne by (intros ->; clear -Hn Hj; twice); done.
Ltac same_data := constructor; cbn [pool_ used_ head_ count_ set_pool set_root]; [intros ?; by rewrite ?data_alter by done|done..].

Ltac close_tree Hn :=
  repeat first [done | untouched Hn | eapply close_node; [lookup_node|reflexivity| |]].
Ltac close_zip Hn Hn0 :=
  eexists; split; [reflexivity|]; split; [|same_data];
  constructor; cbn [pool_ set_pool set_root root_ croot rootp cpar fnode]; [done| | |];
  [first [done | eapply close_frame; [lookup_node|reflexivity|untouched Hn|untouched Hn]]
  |close_tree Hn
  |eapply NoDup_Permutation_proper; [|exact Hn0]; cbn [nodes cnodes app]; solve_Permutation].

(** The cases of the context of a rotation. *)
Ltac open_top k Hc :=
  destruct k as [|[? ?i0 ?|? ? ?i0] k]; [|open_ctx Hc..]; cbn [cpar fnode cnodes] in *.
Ltac other_child Hn := rewrite bool_decide_false by (intros E; symmetry in E; apply rootp_in in E; clear -Hn E; twice).

Lemma rotate_left_ok l k cx a x cy b y c :
  zip l k (Node cx a x (Node cy b y c)) ->
  exists l', rb_rotate_left (Some x) l = Ok l' /\ zip l' k (Node cy (Node cx a x b) y c) /\ same l l'.
Proof.
  intros [Hr Hc Ht Hn]. open Ht. open Hb. assert (Hn0 := Hn). unfold rb_rotate_left.
  destruct b as [|cb b1 ib b2]; [|open Ha0]; open_top k Hc; cbn [rootp] in *; split_nodup Hn; apart Hn x y;
    try (apart Hn i0 x; apart Hn i0 y); try (apart Hn ib x; apart Hn ib y); try apart Hn i0 ib; steps.
  - close_zip Hn Hn0.
  - rewrite bool_decide_true by done. steps. close_zip Hn Hn0.
  - other_child Hn. steps. close_zip Hn Hn0.
  - close_zip Hn Hn0.
  - rewrite bool_decide_true by done. steps. close_zip Hn Hn0.
  - other_child Hn. steps. close_zip Hn Hn0.
Qed.

Lemma rotate_right_ok l k cx a x cy b y c :
  zip l k (Node cx (Node cy a y b) x c) ->
  exists l', rb_rotate_right (Some x) l = Ok l' /\ zip l' k (Node cy a y (Node cx b x c)) /\ same l l'.
Proof.
  intros [Hr Hc Ht Hn]. open Ht. open Ha. assert (Hn0 := Hn). unfold rb_rotate_right.
  destruct b as [|cb b1 ib b2]; [|open Hb0]; open_top k Hc; cbn [rootp] in *; split_nodup Hn; apart Hn x y;
    try (apart Hn i0 x; apart Hn i0 y); try (apart Hn ib x; apart Hn ib y); try apart Hn i0 ib; steps.
  - close_zip Hn Hn0.
  - other_child Hn. steps. close_zip Hn Hn0.
  - rewrite bool_decide_true by done. steps. close_zip Hn Hn0.
  - close_zip Hn Hn0.
  - other_child Hn. steps. close_zip Hn Hn0.
  - rewrite bool_decide_true by done. steps. close_zip Hn Hn0.
Qed.

Lemma set_color_ok l k c a x b c' :
  zip l k (Node c a x b) ->
  exists l', st (Some x) (set_color c') l = Ok l' /\ zip l' k (Node c' a x b) /\ same l l'.
Proof.
  intros [Hr Hc Ht Hn]. open Ht. assert (Hn0 := Hn). split_nodup Hn. steps.
  eexists. split; [reflexivity|]. split; [|same_data]. constructor; cbn [pool_ set_pool root_ rootp]; [done|untouched Hn|close_tree Hn|done].
Qed.
(** ** Reading *)

Lemma into_left l k c a i b : zip l k (Node c a i b) <-> zip l (FL c i b :: k) a.
Proof. symmetry. apply (zip_up l (FL c i b)). Qed.
Lemma into_right l k c a i b : zip l k (Node c a i b) <-> zip l (FR c a i :: k) b.
Proof. symmetry. apply (zip_up l (FR c a i)). Qed.

Lemma go_left l k c a i b : zip l k (Node c a i b) -> zip l (FL c i b :: k) a.
Proof. apply into_left. Qed.
Lemma go_right l k c a i b : zip l k (Node c a i b) -> zip l (FR c a i :: k) b.
Proof. apply into_right. Qed.
Lemma go_up l f k t : zip l (f :: k) t -> zip l k (plug1 f t).
Proof. apply zip_up. Qed.

Lemma zip_node l k c a i b :
  zip l k (Node c a i b) -> exists v, pool_ l !! i = Some v /\ color v = c /\ left v = rootp a /\ right v = rootp b /\ parent v = cpar k.
Proof. intros [_ _ Ht _]. apply has_cons in Ht as ((v & Hv & Hl) & _). exists v. split; [done|]. by apply link_fields. Qed.

Lemma ld_color l k c a i b : zip l k (Node c a i b) -> ld l color (Some i) = Ok c.
Proof. intros (v & Hv & <- & _)%zip_node. by apply ld_eq. Qed.
Lemma ld_left l k c a i b : zip l k (Node c a i b) -> ld l left (Some i) = Ok (rootp a).
Proof. intros (v & Hv & _ & <- & _)%zip_node. by apply ld_eq. Qed.
Lemma ld_right l k c a i b : zip l k (Node c a i b) -> ld l right (Some i) = Ok (rootp b).
Proof. intros (v & Hv & _ & _ & <- & _)%zip_node. by apply ld_eq. Qed.
Lemma ld_parent l k c a i b : zip l k (Node c a i b) -> ld l parent (Some i) = Ok (cpar k).
Proof. intros (v & Hv & _ & _ & _ & <-)%zip_node. by apply ld_eq. Qed.

Definition is_red_tree (t : tree) : bool := match t with Node RED _ _ _ => true | _ => false end.
Lemma is_red_ok l k t : zip l k t -> is_red l (rootp t) = Ok (is_red_tree t).
Proof. destruct t as [|c a i b]; [done|]. intros Z. cbn [rootp is_red]. erewrite ld_color by exact Z. by destruct c. Qed.
Lemma is_black_ok l k t : zip l k t -> is_black l (rootp t) = Ok (negb (is_red_tree t)).
Proof. destruct t as [|c a i b]; [done|]. intros Z. cbn [rootp is_black]. erewrite ld_color by exact Z. by destruct c. Qed.

(** Distinct children of a node. *)
Lemma child_neq l k c a i b x : zip l k (Node c a i b) -> rootp b = Some x -> rootp a <> Some x.
Proof.
  intros [_ _ _ Hn] Hb%rootp_in Ha%rootp_in. split_nodup Hn. twice.
Qed.

(** ** Red-black trees *)

Inductive rb : RBColor -> nat -> tree -> Prop :=
| rb_leaf : rb BLACK 0 Leaf
| rb_red n a i b : rb BLACK n a -> rb BLACK n b -> rb RED n (Node RED a i b)
| rb_black n ca cb a i b : rb ca n a -> rb cb n b -> rb BLACK (S n) (Node BLACK a i b).

(** The contexts in which a tree of this colour and black height fits. *)
Inductive rbctx : RBColor -> nat -> ctx -> Prop :=
| rbctx_nil n : rbctx BLACK n []
| rbctx_lb n c cb i b k : rb cb n b -> rbctx BLACK (S n) k -> rbctx c n (FL BLACK i b :: k)
| rbctx_rb n c ca a i k : rb ca n a -> rbctx BLACK (S n) k -> rbctx c n (FR BLACK a i :: k)
| rbctx_lr n i b k : rb BLACK n b -> rbctx RED n k -> rbctx BLACK n (FL RED i b :: k)
| rbctx_rr n a i k : rb BLACK n a -> rbctx RED n k -> rbctx BLACK n (FR RED a i :: k).

Create HintDb rb.
#[export] Hint Constructors rb rbctx : rb.

Lemma plug_rb c n t k : rb c n t -> rbctx c n k -> exists n', rb BLACK n' (plug k t).
Proof.
  revert c n t. induction k as [|f k IH]; intros c n t Ht Hk; inversion Hk; subst; cbn [plug plug1]; [eauto|..]; eapply IH; eauto with rb.
Qed.

Definition blacken (t : tree) : tree := match t with Node _ a i b => Node BLACK a i b | Leaf => Leaf end.

(** Only black contexts accept a red tree. *)
Lemma rbctx_red n k : rbctx RED n k ->
  exists f k', k = f :: k' /\ rbctx BLACK (S n) k' /\
    ((exists i b cb, f = FL BLACK i b /\ rb cb n b) \/ (exists a i ca, f = FR BLACK a i /\ rb ca n a)).
Proof. inversion 1; subst; eexists _, _; (split; [done|]); eauto 10. Qed.

Lemma rb_root_red n c t : rb c n t -> is_red_tree t = bool_decide (c = RED).
Proof. by destruct 1. Qed.

Fixpoint cleft (k : ctx) : list nat :=
  match k with [] => [] | FL _ _ _ :: k => cleft k | FR _ a i :: k => cleft k ++ inorder a ++ [i] end.
Fixpoint cright (k : ctx) : list nat :=
  match k with [] => [] | FL _ i b :: k => i :: inorder b ++ cright k | FR _ _ _ :: k => cright k end.
Lemma inorder_plug_eq k t : inorder (plug k t) = cleft k ++ inorder t ++ cright k.
Proof.
  revert t. induction k as [|[c i b|c a i] k IH]; intros t; cbn [plug plug1 cleft cright]; [by rewrite app_nil_r|..]; rewrite IH; cbn [inorder].
  - by rewrite <- app_assoc.
  - by rewrite <- !app_assoc.
Qed.
End VmaTree.
