(* ===== verification/VmaRb.v ===== *)
(** * Insertion into and removal from the red-black tree

    The loops that restore the colours after an insertion and a removal return,
    keep the in-order sequence and end in a red-black tree. *)

From S2P Require Import Prelude Vma VmaTree.

Module VmaRb.
Import Vma VmaTree.

(** ** Insertion *)

(** Rewrites reads with what the links say. *)
Ltac rd_with Z :=
  first [rewrite (ld_color _ _ _ _ _ _ Z) | rewrite (ld_left _ _ _ _ _ _ Z) | rewrite (ld_right _ _ _ _ _ _ Z) | rewrite (ld_parent _ _ _ _ _ _ Z)];
  rewrite bind_Ok; cbn [rootp cpar fnode].
Ltac paint Z c :=
  let l := fresh "l" in let Z' := fresh "Z" in let S' := fresh "Hs" in
  destruct (set_color_ok _ _ _ _ _ _ c Z) as (l & -> & Z' & S'); rewrite bind_Ok; clear Z; rename Z' into Z.

(** Equality of in-order sequences, up to associativity. *)
Ltac inorder_eq := cbn [inorder]; repeat (rewrite <- app_assoc; cbn [app]); reflexivity.

(** Replaces the computation that runs next by its result. *)
Ltac run_with E :=
  match type of E with ?A = _ => match goal with |- context [mbind ?F ?B] => unify A B; change B with A end end; rewrite E, bind_Ok; clear E.

(** The end state of the insertion loop. *)
Definition fixed (l l' : VmaList) (xs : list nat) : Prop :=
  exists T n, zip l' [] T /\ same l l' /\ inorder T = xs /\ rb BLACK n (blacken T).

Lemma fixed_same l l1 l' xs : same l l1 -> fixed l1 l' xs -> fixed l l' xs.
Proof. intros S1 (T & n & H1 & H2 & H3). exists T, n. split; [done|]. split; [by eapply same_trans|done]. Qed.

Lemma zip_root l k t : zip l k t <-> zip l [] (plug k t).
Proof. rewrite <- zip_plug. by rewrite app_nil_r. Qed.

Lemma blacken_rb n t : rb BLACK n t -> rb BLACK n (blacken t).
Proof. inversion 1; subst; cbn; eauto with rb. Qed.

Lemma fixed_intro l k c n t xs :
  zip l k t -> rb c n t -> rbctx c n k -> inorder (plug k t) = xs -> fixed l l xs.
Proof.
  intros Z Ht Hk E. destruct (plug_rb c n t k Ht Hk) as [n' Hn']. exists (plug k t), n'. split; [by apply (proj1 (zip_root l k t))|]. split; [done|].
  split; [done|]. by apply blacken_rb.
Qed.

(** The loop invariant: node [z] is red, its children and its context are fine
    except that its parent may be red. *)
Definition pending (l l' : VmaList) (z : nat) (xs : list nat) (m : nat) : Prop :=
  exists k n a b, zip l' k (Node RED a z b) /\ same l l' /\ rb BLACK n a /\ rb BLACK n b /\ rbctx BLACK n k /\
    (length k <= m)%nat /\ inorder (plug k (Node RED a z b)) = xs.

(** The parent is red: the frame of the parent. *)
Definition red_frame (n : nat) (f : frame) : Prop :=
  (exists i r, f = FL RED i r /\ rb BLACK n r) \/ (exists q i, f = FR RED q i /\ rb BLACK n q).

Lemma red_parent n f a z b :
  red_frame n f -> rb BLACK n a -> rb BLACK n b ->
  exists p q, plug1 f (Node RED a z b) = Node RED p (fnode f) q /\ rb BLACK (S n) (Node BLACK p (fnode f) q).
Proof.
  intros [(i & r & -> & Hr)|(q & i & -> & Hr)] Ha Hb; cbn [plug1 fnode]; eexists _, _; (split; [done|]); eauto with rb.
Qed.

Lemma black_uncle cu n u : rb cu n u -> is_red_tree u = false -> rb BLACK n u.
Proof. intros H E. destruct cu; [|done]. by inversion H; subst. Qed.

Lemma insert_fix_left_ok f n a z b g cu u k l :
  zip l (f :: FL BLACK g u :: k) (Node RED a z b) -> red_frame n f -> rb BLACK n a -> rb BLACK n b -> rb cu n u -> rbctx BLACK (S n) k ->
  exists z' l', insert_fix_left (Some z) (Some (fnode f)) (Some g) l = Ok (Some z', l') /\
    pending l l' z' (inorder (plug (f :: FL BLACK g u :: k) (Node RED a z b))) (S (length k)).
Proof.
  intros Z Hf Ha Hb Hu Hk. assert (Z1 := go_up _ _ _ _ Z). assert (Z2 := go_up _ _ _ _ Z1). cbn [plug1] in Z2.
  unfold insert_fix_left. rd_with Z2. assert (Zu := go_right _ _ _ _ _ _ Z2). rewrite (is_red_ok _ _ _ Zu), bind_Ok.
  destruct (is_red_tree u) eqn:Eu.
  - (* the uncle is red *)
    destruct u as [|[|] ul ui ur]; try done. inversion Hu; subst. cbn [rootp].
    destruct (red_parent n f a z b Hf Ha Hb) as (p & q & Ep & Hp). rewrite Ep in *. clear Z Z1 Zu.
    apply go_left in Z2. paint Z2 BLACK. apply go_up in Z2. cbn [plug1] in Z2.
    apply go_right in Z2. paint Z2 BLACK. apply go_up in Z2. cbn [plug1] in Z2. paint Z2 RED.
    eexists g, _. split; [done|]. exists k, (S n), (Node BLACK p (fnode f) q), (Node BLACK ul ui ur).
    split; [done|]. split; [by repeat (eapply same_trans; [eassumption|])|]. split; [done|]. split; [eauto with rb|]. split; [done|]. split; [lia|].
    cbn [plug plug1]. rewrite Ep. by apply inorder_plug.
  - (* the uncle is black *)
    assert (Hu' := black_uncle _ _ _ Hu Eu).
    assert (T : exists z' l1 a' b' p pr, (zpr ← ld l right (Some (fnode f));
         (if bool_decide (Some z = zpr) then l ← rb_rotate_left (Some (fnode f)) l; Ok (Some (fnode f) : ptr, l) else Ok (Some z : ptr, l))) = Ok (Some z', l1) /\
        zip l1 (FL RED p pr :: FL BLACK g u :: k) (Node RED a' z' b') /\ same l l1 /\ rb BLACK n a' /\ rb BLACK n b' /\ rb BLACK n pr /\
        inorder (plug1 f (Node RED a z b)) = inorder (Node RED (Node RED a' z' b') p pr)).
    { destruct Hf as [(i & r & -> & Hr)|(q & i & -> & Hr)]; cbn [fnode plug1] in *; rd_with Z1.
      - rewrite bool_decide_false. 2:{ intros E. symmetry in E. by apply (child_neq _ _ _ _ _ _ z Z1 E). }
        by exists z, l, a, b, i, r.
      - rewrite bool_decide_true by done. destruct (rotate_left_ok _ _ _ _ _ _ _ _ _ Z1) as (l1 & -> & Zl & Hs). rewrite bind_Ok.
        exists i, l1, q, a, z, b. split; [done|]. split; [by apply go_left in Zl|]. do 4 (split; [done|]). inorder_eq. }
    destruct T as (z' & l1 & a' & b' & p & pr & (zpr & -> & E)%bind_inv & Zz & Hs & Ha' & Hb' & Hpr & Ein). rewrite bind_Ok.
    run_with E.
    rd_with Zz. apply go_up in Zz. cbn [plug1] in Zz. paint Zz BLACK. rd_with Zz. apply go_up in Zz. cbn [plug1] in Zz. paint Zz RED.
    destruct (rotate_right_ok _ _ _ _ _ _ _ _ _ Zz) as (l3 & -> & Zl & Hs2). rewrite bind_Ok. eexists z', l3. split; [done|].
    exists (FL BLACK p (Node RED pr g u) :: k), n, a', b'. split; [by apply go_left in Zl|].
    split; [by repeat (eapply same_trans; [eassumption|])|]. do 2 (split; [done|]). split; [eauto with rb|]. split; [cbn; lia|].
    cbn [plug plug1]. apply inorder_plug. cbn [inorder] in *. rewrite Ein. by rewrite <- !app_assoc.
Qed.

Lemma insert_fix_right_ok f n a z b g cu u k l :
  zip l (f :: FR BLACK u g :: k) (Node RED a z b) -> red_frame n f -> rb BLACK n a -> rb BLACK n b -> rb cu n u -> rbctx BLACK (S n) k ->
  exists z' l', insert_fix_right (Some z) (Some (fnode f)) (Some g) l = Ok (Some z', l') /\
    pending l l' z' (inorder (plug (f :: FR BLACK u g :: k) (Node RED a z b))) (S (length k)).
Proof.
  intros Z Hf Ha Hb Hu Hk. assert (Z1 := go_up _ _ _ _ Z). assert (Z2 := go_up _ _ _ _ Z1). cbn [plug1] in Z2.
  unfold insert_fix_right. rd_with Z2. assert (Zu := go_left _ _ _ _ _ _ Z2). rewrite (is_red_ok _ _ _ Zu), bind_Ok.
  destruct (is_red_tree u) eqn:Eu.
  - (* the uncle is red *)
    destruct u as [|[|] ul ui ur]; try done. inversion Hu; subst. cbn [rootp].
    destruct (red_parent n f a z b Hf Ha Hb) as (p & q & Ep & Hp). rewrite Ep in *. clear Z Z1 Zu.
    apply go_right in Z2. paint Z2 BLACK. apply go_up in Z2. cbn [plug1] in Z2.
    apply go_left in Z2. paint Z2 BLACK. apply go_up in Z2. cbn [plug1] in Z2. paint Z2 RED.
    eexists g, _. split; [done|]. exists k, (S n), (Node BLACK ul ui ur), (Node BLACK p (fnode f) q).
    split; [done|]. split; [by repeat (eapply same_trans; [eassumption|])|]. split; [eauto with rb|]. split; [done|]. split; [done|]. split; [lia|].
    cbn [plug plug1]. rewrite Ep. by apply inorder_plug.
  - (* the uncle is black *)
    assert (Hu' := black_uncle _ _ _ Hu Eu).
    assert (T : exists z' l1 a' b' p pl, (zpl ← ld l left (Some (fnode f));
         (if bool_decide (Some z = zpl) then l ← rb_rotate_right (Some (fnode f)) l; Ok (Some (fnode f) : ptr, l) else Ok (Some z : ptr, l))) = Ok (Some z', l1) /\
        zip l1 (FR RED pl p :: FR BLACK u g :: k) (Node RED a' z' b') /\ same l l1 /\ rb BLACK n a' /\ rb BLACK n b' /\ rb BLACK n pl /\
        inorder (plug1 f (Node RED a z b)) = inorder (Node RED pl p (Node RED a' z' b'))).
    { destruct Hf as [(i & r & -> & Hr)|(q & i & -> & Hr)]; cbn [fnode plug1] in *; rd_with Z1.
      - rewrite bool_decide_true by done. destruct (rotate_right_ok _ _ _ _ _ _ _ _ _ Z1) as (l1 & -> & Zl & Hs). rewrite bind_Ok.
        exists i, l1, b, r, z, a. split; [done|]. split; [by apply go_right in Zl|]. do 4 (split; [done|]). inorder_eq.
      - rewrite bool_decide_false. 2:{ intros E. symmetry in E. by apply (child_neq _ _ _ _ _ _ z Z1 eq_refl). }
        by exists z, l, a, b, i, q. }
    destruct T as (z' & l1 & a' & b' & p & pl & (zpl & -> & E)%bind_inv & Zz & Hs & Ha' & Hb' & Hpr & Ein). rewrite bind_Ok.
    run_with E.
    rd_with Zz. apply go_up in Zz. cbn [plug1] in Zz. paint Zz BLACK. rd_with Zz. apply go_up in Zz. cbn [plug1] in Zz. paint Zz RED.
    destruct (rotate_left_ok _ _ _ _ _ _ _ _ _ Zz) as (l3 & -> & Zl & Hs2). rewrite bind_Ok. eexists z', l3. split; [done|].
    exists (FR BLACK (Node RED u g pl) p :: k), n, a', b'. split; [by apply go_right in Zl|].
    split; [by repeat (eapply same_trans; [eassumption|])|]. do 2 (split; [done|]). split; [eauto with rb|]. split; [cbn; lia|].
    cbn [plug plug1]. apply inorder_plug. cbn [inorder] in *. rewrite Ein. by rewrite <- !app_assoc.
Qed.

Lemma insert_loop_ok fuel : forall k n a z b l,
  zip l k (Node RED a z b) -> rb BLACK n a -> rb BLACK n b -> rbctx BLACK n k -> (length k < fuel)%nat ->
  exists l', rb_insert_loop fuel (Some z) l = Ok l' /\ fixed l l' (inorder (plug k (Node RED a z b))).
Proof.
  induction fuel as [|fuel IH]; intros k n a z b l Z Ha Hb Hk Hf; [lia|]. cbn [rb_insert_loop]. rd_with Z.
  destruct k as [|f1 k1].
  { cbn [cpar is_red]. rewrite bind_Ok. exists l. split; [done|]. exists (Node RED a z b), (S n). do 3 (split; [done|]). cbn. eauto with rb. }
  assert (Z1 := go_up l f1 k1 _ Z). destruct (decide (match f1 with FL c _ _ | FR c _ _ => c end = BLACK)) as [Eb|Er].
  { (* the parent is black *)
    cbn [cpar]. assert (E : is_red l (Some (fnode f1)) = Ok false).
    { destruct f1 as [c i r|c q i]; subst; cbn [fnode plug1] in *; by rewrite (is_red_ok l k1 _ Z1 : is_red l (Some i) = _). }
    rewrite E, bind_Ok. exists l. split; [done|]. eapply (fixed_intro l (f1 :: k1) RED n); [done|eauto with rb| |done].
    inversion Hk; subst; try done; eauto with rb. }
  assert (Hred : rbctx RED n k1 /\ red_frame n f1) by (inversion Hk; subst; try done; unfold red_frame; eauto 10).
  clear Er Hk. destruct Hred as [Hk1 Hf1]. destruct (rbctx_red n k1 Hk1) as (f2 & k2 & -> & Hk2 & Hf2).
  destruct (red_parent n f1 a z b Hf1 Ha Hb) as (p & q & Ep & _). rewrite Ep in Z1. cbn [cpar length] in *.
  rewrite (is_red_ok _ _ _ Z1 : is_red l (Some (fnode f1)) = _), bind_Ok. cbn [is_red_tree]. rd_with Z1.
  assert (G : forall z' l', pending l l' z' (inorder (plug (f1 :: f2 :: k2) (Node RED a z b))) (S (length k2)) ->
    exists l'', rb_insert_loop fuel (Some z') l' = Ok l'' /\ fixed l l'' (inorder (plug (f1 :: f2 :: k2) (Node RED a z b)))).
  { intros z' l' (k' & n' & a' & b' & Z' & Hs & Ha' & Hb' & Hk' & Hlen & Ein).
    destruct (IH k' n' a' z' b' l' Z' Ha' Hb' Hk') as (l'' & -> & Hl); [lia|]. exists l''. split; [done|]. rewrite Ein in Hl. by eapply fixed_same. }
  destruct Hf2 as [(g & u & cu & -> & Hu)|(u & g & cu & -> & Hu)]; apply go_up in Z1; cbn [fnode plug1] in *; rd_with Z1.
  - rewrite bool_decide_true by done. destruct (insert_fix_left_ok f1 n a z b g cu u k2 l Z Hf1 Ha Hb Hu Hk2) as (z' & l' & -> & Hp).
    rewrite bind_Ok. by apply G.
  - rewrite bool_decide_false. 2:{ intros E. symmetry in E. by apply (child_neq _ _ _ _ _ _ (fnode f1) Z1 eq_refl). }
    destruct (insert_fix_right_ok f1 n a z b g cu u k2 l Z Hf1 Ha Hb Hu Hk2) as (z' & l' & -> & Hp). rewrite bind_Ok. by apply G.
Qed.

(** The fix-up paints the root black. *)
Lemma insert_fixup_ok k n a z b l :
  zip l k (Node RED a z b) -> rb BLACK n a -> rb BLACK n b -> rbctx BLACK n k -> (length k < FUEL)%nat ->
  exists l' T n', rb_insert_fixup (Some z) l = Ok l' /\ zip l' [] T /\ same l l' /\ rb BLACK n' T /\ inorder T = inorder (plug k (Node RED a z b)).
Proof.
  intros Z Ha Hb Hk Hf. unfold rb_insert_fixup. destruct (insert_loop_ok FUEL k n a z b l Z Ha Hb Hk Hf) as (l1 & -> & T & n' & Z1 & Hs & Ein & Hrb).
  rewrite bind_Ok. rewrite (z_root _ _ _ Z1). destruct T as [|c p i q].
  - rewrite inorder_plug_eq in Ein. cbn [inorder] in Ein. by destruct (cleft k), (inorder a).
  - cbn [croot rootp]. destruct (set_color_ok _ _ _ _ _ _ BLACK Z1) as (l2 & -> & Z2 & Hs2).
    exists l2, (Node BLACK p i q), n'. split; [done|]. split; [done|]. split; [by eapply same_trans|]. done.
Qed.
(** ** Removal *)

(** The tree at the hole lacks one black node; painting a red root black repairs
    it. *)
Definition lacking (n : nat) (t : tree) : Prop :=
  match t with Node RED a i b => rb BLACK (S n) (Node BLACK a i b) | _ => rb BLACK n t end.

Definition round_ok (l l' : VmaList) (r : Round) (xs : list nat) (m : nat) : Prop :=
  same l l' /\
  match r with
  | Again x par => exists k n t, x = rootp t /\ par = cpar k /\ zip l' k t /\ lacking n t /\ rbctx BLACK (S n) k /\
      (is_red_tree t = true \/ (length k <= m)%nat) /\ inorder (plug k t) = xs
  | Break x => x = root_ l' /\ exists T n, zip l' [] T /\ rb BLACK n T /\ inorder T = xs
  end.

Lemma rbctx_any n k : rbctx RED n k -> rbctx BLACK n k.
Proof. inversion 1; subst; eauto with rb. Qed.

(** The frame of the missing black node: the sibling is not a leaf. *)
Lemma sibling_left n c p w k :
  rbctx BLACK (S n) (FL c p w :: k) ->
  exists cw, rb cw (S n) w /\ (c = BLACK /\ rbctx BLACK (S (S n)) k \/ c = RED /\ cw = BLACK /\ rbctx RED (S n) k).
Proof. inversion 1; subst; eauto 10. Qed.
Lemma sibling_right n c p w k :
  rbctx BLACK (S n) (FR c w p :: k) ->
  exists cw, rb cw (S n) w /\ (c = BLACK /\ rbctx BLACK (S (S n)) k \/ c = RED /\ cw = BLACK /\ rbctx RED (S n) k).
Proof. inversion 1; subst; eauto 10. Qed.

Lemma break_intro l l' k c n t xs :
  same l l' -> zip l' k t -> rb c n t -> rbctx c n k -> inorder (plug k t) = xs -> round_ok l l' (Break (root_ l')) xs 0.
Proof.
  intros Hs Z Ht Hk E. split; [done|]. split; [done|]. destruct (plug_rb c n t k Ht Hk) as [n' Hn']. exists (plug k t), n'.
  split; [by apply (proj1 (zip_root l' k t))|]. done.
Qed.

(** A black sibling with a red child on the far side: the final rotation. *)
Lemma far_left_ok l k c n t p cl wl w fa f fb :
  zip l (FL c p (Node BLACK wl w (Node RED fa f fb)) :: k) t -> rb BLACK n t -> rb cl n wl -> rb BLACK n fa -> rb BLACK n fb ->
  (c = BLACK /\ rbctx BLACK (S (S n)) k \/ c = RED /\ rbctx RED (S n) k) ->
  exists l', (pc ← ld l color (Some p);
      l ← st (Some w) (set_color pc) l;
      l ← st (Some p) (set_color BLACK) l;
      far ← ld l right (Some w);
      l ← st_opt far (set_color BLACK) l;
      rb_rotate_left (Some p) l) = Ok l' /\
    round_ok l l' (Break (root_ l')) (inorder (plug k (Node c t p (Node BLACK wl w (Node RED fa f fb))))) 0.
Proof.
  intros Z Ht Hwl Hfa Hfb Hc. apply go_up in Z. cbn [plug1] in Z. rd_with Z. apply go_right in Z. paint Z c. apply go_up in Z. cbn [plug1] in Z.
  paint Z BLACK. apply go_right in Z. rd_with Z. cbn [st_opt]. apply go_right in Z. paint Z BLACK. do 2 (apply go_up in Z; cbn [plug1] in Z).
  destruct (rotate_left_ok _ _ _ _ _ _ _ _ _ Z) as (l' & -> & Zl & Hs'). exists l'. split; [done|].
  assert (E : inorder (plug k (Node c (Node BLACK t p wl) w (Node BLACK fa f fb))) = inorder (plug k (Node c t p (Node BLACK wl w (Node RED fa f fb))))).
  { apply inorder_plug. inorder_eq. }
  assert (Hs3 : same l l') by (by repeat (eapply same_trans; [eassumption|])).
  destruct Hc as [[-> Hk]|[-> Hk]]; (eapply break_intro; [done|exact Zl| |exact Hk|done]); eauto with rb.
Qed.

(** A red sibling is rotated away: the new sibling is black. *)
Lemma red_left_ok l k c n t p w :
  zip l (FL c p w :: k) t -> rb BLACK n t -> rbctx BLACK (S n) (FL c p w :: k) ->
  exists l1 k1 c1 w1, (wr ← is_red l (rootp w);
      (if (wr : bool) then
         l ← st (rootp w) (set_color BLACK) l; l ← st (Some p) (set_color RED) l; l ← rb_rotate_left (Some p) l;
         w ← ld l right (Some p); Ok (w, l)
       else Ok (rootp w, l))) = Ok (rootp w1, l1) /\
    zip l1 (FL c1 p w1 :: k1) t /\ same l l1 /\ rbctx BLACK (S n) (FL c1 p w1 :: k1) /\ rb BLACK (S n) w1 /\
    (c1 = RED \/ (length k1 <= length k)%nat) /\ inorder (plug (FL c1 p w1 :: k1) t) = inorder (plug (FL c p w :: k) t).
Proof.
  intros Z Ht Hk. destruct (sibling_left _ _ _ _ _ Hk) as (cw & Hw & Hc). assert (Z1 := go_up _ _ _ _ Z). cbn [plug1] in Z1.
  assert (Zw := go_right _ _ _ _ _ _ Z1). rewrite (is_red_ok _ _ _ Zw), bind_Ok. destruct (is_red_tree w) eqn:Ew.
  - destruct w as [|[|] wa wi wb]; try done. inversion Hw as [|? ? ? ? Hwa Hwb|]; subst. destruct Hc as [[-> Hk2]|(_ & ? & _)]; [|done].
    cbn [rootp]. paint Zw BLACK. apply go_up in Zw. cbn [plug1] in Zw. paint Zw RED.
    destruct (rotate_left_ok _ _ _ _ _ _ _ _ _ Zw) as (l3 & -> & Zl & Hs1). rewrite bind_Ok. apply go_left in Zl. rd_with Zl.
    exists l3, (FL BLACK wi wb :: k), RED, wa. split; [done|]. split; [by apply go_left in Zl|].
    split; [by repeat (eapply same_trans; [eassumption|])|]. split; [eauto with rb|]. split; [done|]. split; [by left|].
    cbn [plug plug1]. apply inorder_plug. inorder_eq.
  - exists l, k, c, w. do 3 (split; [done|]). split; [done|]. split; [by eapply black_uncle|]. split; [by right|done].
Qed.
Lemma remove_fix_left_ok l k c n t p w :
  zip l (FL c p w :: k) t -> rb BLACK n t -> rbctx BLACK (S n) (FL c p w :: k) ->
  exists r l', remove_fix_left (rootp t) (Some p) l = Ok (r, l') /\ round_ok l l' r (inorder (plug (FL c p w :: k) t)) (length k).
Proof.
  intros Z Ht Hk. destruct (red_left_ok l k c n t p w Z Ht Hk) as (l1 & k1 & c1 & w1 & (wr & E1 & E2)%bind_inv & Z1 & Hs & Hk1 & Hw1 & Hlen & <-).
  unfold remove_fix_left. cbn [ld_opt]. assert (Z0 := go_up _ _ _ _ Z). cbn [plug1] in Z0. rd_with Z0. rewrite E1, bind_Ok. run_with E2. clear Z0 Z E1.
  destruct (sibling_left _ _ _ _ _ Hk1) as (cw & Hcw & Hc). inversion Hw1 as [| |? cl cr wl wi wr' Hwl Hwr]; subst. cbn [rootp].
  assert (Hc' : c1 = BLACK /\ rbctx BLACK (S (S n)) k1 \/ c1 = RED /\ rbctx RED (S n) k1) by naive_solver. clear Hc Hcw.
  apply go_up in Z1. cbn [plug1] in Z1. assert (Zw := go_right _ _ _ _ _ _ Z1). rd_with Zw.
  rewrite (is_black_ok _ _ _ (go_left _ _ _ _ _ _ Zw)), bind_Ok. rd_with Zw. rewrite (is_black_ok _ _ _ (go_right _ _ _ _ _ _ Zw)), bind_Ok.
  destruct (is_red_tree wr') eqn:Er; rewrite ?andb_false_r; cbn [negb andb].
  - (* the far child is red *)
    destruct wr' as [|[|] fa f fb]; try done. inversion Hwr; subst. apply go_left in Z1. rewrite bind_Ok.
    destruct (far_left_ok _ _ _ _ _ _ _ _ _ _ _ _ Z1 Ht Hwl) as (l' & E & Hok); [done|done|done|]. run_with E.
    eexists _, l'. split; [done|]. destruct Hok as [Hs' Hok]. split; [by eapply same_trans|done].
  - destruct (is_red_tree wl) eqn:El; cbn [negb andb].
    + (* the near child is red *)
      destruct wl as [|[|] la li lb]; try done. inversion Hwl; subst. cbn [st_opt rootp]. apply go_left in Zw. paint Zw BLACK.
      apply go_up in Zw. cbn [plug1] in Zw. paint Zw RED. destruct (rotate_right_ok _ _ _ _ _ _ _ _ _ Zw) as (l3 & -> & Zl & Hs3). rewrite bind_Ok.
      apply go_up in Zl. cbn [plug1] in Zl. rd_with Zl. rewrite bind_Ok. apply go_left in Zl.
      destruct (far_left_ok _ _ _ _ _ _ BLACK _ _ _ _ _ Zl Ht) as (l' & E & Hs4 & Hok); [done|done|by eapply black_uncle|done|]. run_with E.
      eexists _, l'. split; [done|]. split; [by repeat (eapply same_trans; [eassumption|])|]. destruct Hok as [? (T & m & HT1 & HT2 & HT3)].
      split; [done|]. exists T, m. split; [done|]. split; [done|]. rewrite HT3. cbn [plug plug1]. apply inorder_plug. inorder_eq.
    + (* both children of the sibling are black *)
      paint Zw RED. apply go_up in Zw. cbn [plug1] in Zw. cbn [ld_opt]. rd_with Zw. eexists _, _. split; [done|].
      split; [by repeat (eapply same_trans; [eassumption|])|]. assert (Hwl' := black_uncle _ _ _ Hwl El). assert (Hwr' := black_uncle _ _ _ Hwr Er).
      destruct Hc' as [[-> Hk2]|[-> Hk2]].
      * exists k1, (S n), (Node BLACK t p (Node RED wl wi wr')). do 3 (split; [done|]). split; [cbn; eauto with rb|]. split; [done|].
        split; [right; by destruct Hlen|]. cbn [plug plug1]. by apply inorder_plug.
      * exists k1, n, (Node RED t p (Node RED wl wi wr')). do 3 (split; [done|]). split; [cbn; eauto with rb|]. split; [by apply rbctx_any|].
        split; [by left|]. cbn [plug plug1]. by apply inorder_plug.
Qed.
(** The mirror images. *)
Lemma far_right_ok l k c n t p cl wl w fa f fb :
  zip l (FR c (Node BLACK (Node RED fa f fb) w wl) p :: k) t -> rb BLACK n t -> rb cl n wl -> rb BLACK n fa -> rb BLACK n fb ->
  (c = BLACK /\ rbctx BLACK (S (S n)) k \/ c = RED /\ rbctx RED (S n) k) ->
  exists l', (pc ← ld l color (Some p);
      l ← st (Some w) (set_color pc) l;
      l ← st (Some p) (set_color BLACK) l;
      far ← ld l left (Some w);
      l ← st_opt far (set_color BLACK) l;
      rb_rotate_right (Some p) l) = Ok l' /\
    round_ok l l' (Break (root_ l')) (inorder (plug k (Node c (Node BLACK (Node RED fa f fb) w wl) p t))) 0.
Proof.
  intros Z Ht Hwl Hfa Hfb Hc. apply go_up in Z. cbn [plug1] in Z. rd_with Z. apply go_left in Z. paint Z c. apply go_up in Z. cbn [plug1] in Z.
  paint Z BLACK. apply go_left in Z. rd_with Z. cbn [st_opt]. apply go_left in Z. paint Z BLACK. do 2 (apply go_up in Z; cbn [plug1] in Z).
  destruct (rotate_right_ok _ _ _ _ _ _ _ _ _ Z) as (l' & -> & Zl & Hs'). exists l'. split; [done|].
  assert (E : inorder (plug k (Node c (Node BLACK fa f fb) w (Node BLACK wl p t))) = inorder (plug k (Node c (Node BLACK (Node RED fa f fb) w wl) p t))).
  { apply inorder_plug. inorder_eq. }
  assert (Hs3 : same l l') by (by repeat (eapply same_trans; [eassumption|])).
  destruct Hc as [[-> Hk]|[-> Hk]]; (eapply break_intro; [done|exact Zl| |exact Hk|done]); eauto with rb.
Qed.

Lemma red_right_ok l k c n t p w :
  zip l (FR c w p :: k) t -> rb BLACK n t -> rbctx BLACK (S n) (FR c w p :: k) ->
  exists l1 k1 c1 w1, (wr ← is_red l (rootp w);
      (if (wr : bool) then
         l ← st (rootp w) (set_color BLACK) l; l ← st (Some p) (set_color RED) l; l ← rb_rotate_right (Some p) l;
         w ← ld l left (Some p); Ok (w, l)
       else Ok (rootp w, l))) = Ok (rootp w1, l1) /\
    zip l1 (FR c1 w1 p :: k1) t /\ same l l1 /\ rbctx BLACK (S n) (FR c1 w1 p :: k1) /\ rb BLACK (S n) w1 /\
    (c1 = RED \/ (length k1 <= length k)%nat) /\ inorder (plug (FR c1 w1 p :: k1) t) = inorder (plug (FR c w p :: k) t).
Proof.
  intros Z Ht Hk. destruct (sibling_right _ _ _ _ _ Hk) as (cw & Hw & Hc). assert (Z1 := go_up _ _ _ _ Z). cbn [plug1] in Z1.
  assert (Zw := go_left _ _ _ _ _ _ Z1). rewrite (is_red_ok _ _ _ Zw), bind_Ok. destruct (is_red_tree w) eqn:Ew.
  - destruct w as [|[|] wa wi wb]; try done. inversion Hw as [|? ? ? ? Hwa Hwb|]; subst. destruct Hc as [[-> Hk2]|(_ & ? & _)]; [|done].
    cbn [rootp]. paint Zw BLACK. apply go_up in Zw. cbn [plug1] in Zw. paint Zw RED.
    destruct (rotate_right_ok _ _ _ _ _ _ _ _ _ Zw) as (l3 & -> & Zl & Hs1). rewrite bind_Ok. apply go_right in Zl. rd_with Zl.
    exists l3, (FR BLACK wa wi :: k), RED, wb. split; [done|]. split; [by apply go_right in Zl|].
    split; [by repeat (eapply same_trans; [eassumption|])|]. split; [eauto with rb|]. split; [done|]. split; [by left|].
    cbn [plug plug1]. apply inorder_plug. inorder_eq.
  - exists l, k, c, w. do 3 (split; [done|]). split; [done|]. split; [by eapply black_uncle|]. split; [by right|done].
Qed.

Lemma remove_fix_right_ok l k c n t p w :
  zip l (FR c w p :: k) t -> rb BLACK n t -> rbctx BLACK (S n) (FR c w p :: k) ->
  exists r l', remove_fix_right (rootp t) (Some p) l = Ok (r, l') /\ round_ok l l' r (inorder (plug (FR c w p :: k) t)) (length k).
Proof.
  intros Z Ht Hk. destruct (red_right_ok l k c n t p w Z Ht Hk) as (l1 & k1 & c1 & w1 & (wr & E1 & E2)%bind_inv & Z1 & Hs & Hk1 & Hw1 & Hlen & <-).
  unfold remove_fix_right. cbn [ld_opt]. assert (Z0 := go_up _ _ _ _ Z). cbn [plug1] in Z0. rd_with Z0. rewrite E1, bind_Ok. run_with E2. clear Z0 Z E1.
  destruct (sibling_right _ _ _ _ _ Hk1) as (cw & Hcw & Hc). inversion Hw1 as [| |? cr cl wr' wi wl Hwr Hwl]; subst. cbn [rootp].
  assert (Hc' : c1 = BLACK /\ rbctx BLACK (S (S n)) k1 \/ c1 = RED /\ rbctx RED (S n) k1) by naive_solver. clear Hc Hcw.
  apply go_up in Z1. cbn [plug1] in Z1. assert (Zw := go_left _ _ _ _ _ _ Z1). rewrite (ld_right _ _ _ _ _ _ Zw), bind_Ok.
  rewrite (is_black_ok _ _ _ (go_right _ _ _ _ _ _ Zw)), bind_Ok. rd_with Zw. rewrite (is_black_ok _ _ _ (go_left _ _ _ _ _ _ Zw)), bind_Ok.
  destruct (is_red_tree wr') eqn:Er; rewrite ?andb_false_r; cbn [negb andb].
  - (* the far child is red *)
    destruct wr' as [|[|] fa f fb]; try done. inversion Hwr; subst. apply go_right in Z1. rewrite bind_Ok.
    destruct (far_right_ok _ _ _ _ _ _ _ _ _ _ _ _ Z1 Ht Hwl) as (l' & E & Hok); [done|done|done|]. run_with E.
    eexists _, l'. split; [done|]. destruct Hok as [Hs' Hok]. split; [by eapply same_trans|done].
  - destruct (is_red_tree wl) eqn:El; cbn [negb andb].
    + (* the near child is red *)
      destruct wl as [|[|] la li lb]; try done. inversion Hwl; subst. cbn [st_opt rootp]. apply go_right in Zw. paint Zw BLACK.
      apply go_up in Zw. cbn [plug1] in Zw. paint Zw RED. destruct (rotate_left_ok _ _ _ _ _ _ _ _ _ Zw) as (l3 & -> & Zl & Hs3). rewrite bind_Ok.
      apply go_up in Zl. cbn [plug1] in Zl. rd_with Zl. rewrite bind_Ok. apply go_right in Zl.
      destruct (far_right_ok _ _ _ _ _ _ BLACK _ _ _ _ _ Zl Ht) as (l' & E & Hs4 & Hok); [done|by eapply black_uncle|done|done|]. run_with E.
      eexists _, l'. split; [done|]. split; [by repeat (eapply same_trans; [eassumption|])|]. destruct Hok as [? (T & m & HT1 & HT2 & HT3)].
      split; [done|]. exists T, m. split; [done|]. split; [done|]. rewrite HT3. cbn [plug plug1]. apply inorder_plug. inorder_eq.
    + (* both children of the sibling are black *)
      paint Zw RED. apply go_up in Zw. cbn [plug1] in Zw. cbn [ld_opt]. rd_with Zw. eexists _, _. split; [done|].
      split; [by repeat (eapply same_trans; [eassumption|])|]. assert (Hwl' := black_uncle _ _ _ Hwl El). assert (Hwr' := black_uncle _ _ _ Hwr Er).
      destruct Hc' as [[-> Hk2]|[-> Hk2]].
      * exists k1, (S n), (Node BLACK (Node RED wr' wi wl) p t). do 3 (split; [done|]). split; [cbn; eauto with rb|]. split; [done|].
        split; [right; by destruct Hlen|]. cbn [plug plug1]. by apply inorder_plug.
      * exists k1, n, (Node RED (Node RED wr' wi wl) p t). do 3 (split; [done|]). split; [cbn; eauto with rb|]. split; [by apply rbctx_any|].
        split; [by left|]. cbn [plug plug1]. by apply inorder_plug.
Qed.

(** The loop, and painting the last node black. *)
Lemma root_focus l k t : zip l k t -> rootp t = root_ l -> k = [].
Proof.
  intros [Hr _ _ Hn] E. destruct k as [|f k]; [done|]. exfalso. rewrite Hr in E. cbn [croot] in E.
  assert (H : forall k i, exists j, croot k (Some i) = Some j /\ (j = i \/ j ∈ cnodes k)).
  { clear. induction k as [|f k IH]; intros i; [exists i; by auto|]. cbn [croot]. destruct (IH (fnode f)) as (j & Hj & Hor). exists j. split; [done|].
    right. destruct f; cbn [cnodes fnode] in *; destruct Hor as [->|?]; set_solver. }
  destruct (H k (fnode f)) as (j & Hj & Hor). rewrite Hj in E. apply rootp_in in E. apply NoDup_app in Hn as (_ & Hd & _). apply (Hd j); [|done].
  destruct f; cbn [cnodes fnode] in *; destruct Hor as [->|?]; set_solver.
Qed.
Definition removed (l l' : VmaList) (xs : list nat) : Prop :=
  exists T n, zip l' [] T /\ same l l' /\ rb BLACK n T /\ inorder T = xs.

Lemma removed_intro l l' k c n t xs :
  zip l' k t -> same l l' -> rb c n t -> rbctx c n k -> inorder (plug k t) = xs -> removed l l' xs.
Proof.
  intros Z Hs Ht Hk E. destruct (plug_rb c n t k Ht Hk) as [n' Hn']. exists (plug k t), n'. split; [by apply (proj1 (zip_root l' k t))|]. done.
Qed.

(** Painting the node where the loop stops. *)
Lemma paint_stop l k n t :
  zip l k t -> lacking n t -> (k = [] \/ is_red_tree t = true /\ rbctx BLACK (S n) k) ->
  exists l', st_opt (rootp t) (set_color BLACK) l = Ok l' /\ removed l l' (inorder (plug k t)).
Proof.
  intros Z Ht Hk. destruct t as [|c a i b].
  - destruct Hk as [->|[? _]]; [|done]. exists l. split; [done|]. eapply (removed_intro l l [] BLACK); [done|done|exact Ht|constructor|done].
  - cbn [rootp st_opt]. destruct (set_color_ok _ _ _ _ _ _ BLACK Z) as (l' & -> & Z' & Hs). exists l'. split; [done|].
    assert (E : inorder (plug k (Node BLACK a i b)) = inorder (plug k (Node c a i b))) by (by apply inorder_plug).
    destruct c; cbn [lacking is_red_tree] in *.
    + eapply (removed_intro l l' k BLACK (S n)); [done|done|done| |done]. destruct Hk as [->|[_ Hk]]; [constructor|done].
    + destruct Hk as [->|[? _]]; [|done]. eapply (removed_intro l l' [] BLACK n); [done|done|done|constructor|done].
Qed.

Lemma removed_same l l1 l' xs : same l l1 -> removed l1 l' xs -> removed l l' xs.
Proof. intros Hs (T & n & Z & Hs' & H). exists T, n. split; [done|]. split; [by eapply same_trans|done]. Qed.

Lemma remove_loop_ok fuel : forall k n t l,
  zip l k t -> lacking n t -> rbctx BLACK (S n) k -> ((length k < fuel)%nat \/ is_red_tree t = true /\ (0 < fuel)%nat) ->
  exists l', ('(x, l) ← rb_remove_loop fuel (rootp t) (cpar k) l; st_opt x (set_color BLACK) l) = Ok l' /\ removed l l' (inorder (plug k t)).
Proof.
  induction fuel as [|fuel IH]; intros k n t l Z Ht Hk Hf; [lia|]. cbn [rb_remove_loop]. rewrite (is_black_ok _ _ _ Z), bind_Ok.
  case_bool_decide as Hr; cbn [negb andb].
  { rewrite bind_Ok. apply paint_stop with n; [done|done|]. left. by eapply root_focus. }
  destruct (is_red_tree t) eqn:Er; cbn [negb].
  { rewrite bind_Ok. apply paint_stop with n; [done|done|]. by right. }
  assert (Ht' : rb BLACK n t) by (by destruct t as [|[|] ? ? ?]). destruct Hf as [Hf|[? _]]; [|done].
  destruct k as [|f k]. { exfalso. apply Hr. symmetry. exact (z_root _ _ _ Z). }
  cbn [length] in Hf. assert (Z1 := go_up _ _ _ _ Z).
  assert (G : forall r l', round_ok l l' r (inorder (plug (f :: k) t)) (length k) ->
    exists l'', ('(x, l) ← match r with Again x p => rb_remove_loop fuel x p l' | Break x => Ok (x, l') end; st_opt x (set_color BLACK) l) = Ok l'' /\
      removed l l'' (inorder (plug (f :: k) t))).
  { intros r l' [Hs Hok]. destruct r as [x p|x].
    - destruct Hok as (k' & n' & t' & -> & -> & Z' & Ht2 & Hk' & Hlen & <-). destruct (IH k' n' t' l' Z' Ht2 Hk') as (l'' & E & Hl); [|by exists l''; split; [|eapply removed_same]].
      destruct Hlen as [?|?]; [right|left]; [split; [done|]|]; lia.
    - destruct Hok as (-> & T & n' & Z' & HT & <-). rewrite bind_Ok. rewrite (z_root _ _ _ Z'). cbn [croot].
      destruct (paint_stop l' [] n' T Z') as (l'' & E & Hl); [|by left|by exists l''; split; [|eapply removed_same]].
      by inversion HT; subst. }
  destruct f as [c p w|c w p]; cbn [cpar fnode ld_opt plug1] in *; rd_with Z1.
  - rewrite bool_decide_true by done. destruct (remove_fix_left_ok l k c n t p w Z Ht' Hk) as (r & l' & -> & Hok). rewrite bind_Ok. by apply G.
  - rewrite bool_decide_false.
    2:{ intros E. destruct (sibling_right _ _ _ _ _ Hk) as (cw & Hw & _). destruct w as [|cw' wa wi wb]; [inversion Hw|].
        apply (child_neq _ _ _ _ _ _ wi Z1); done. }
    destruct (remove_fix_right_ok l k c n t p w Z Ht' Hk) as (r & l' & -> & Hok). rewrite bind_Ok. by apply G.
Qed.

End VmaRb.
