(* ===== verification/VmaOps.v ===== *)
(** * The operations of the tree of areas

    Insertion, removal and search on a whole tree: [rb_insert] puts the node at
    its place in the in-order sequence, [rb_remove] takes exactly the node out,
    [rb_find] finds the node that contains an address. *)

From Stdlib Require Import Sorted.
From S2P Require Import Prelude Vma VmaTree VmaRb.

Module VmaOps.
Import Vma VmaTree VmaRb.

(** ** Sizes *)

Lemma zip_range l k t j : zip l k t -> j ∈ cnodes k ++ nodes t -> (j < length (pool_ l))%nat.
Proof.
  intros [_ Hc Ht _] Hj.
  assert (H : exists v, pool_ l !! j = Some v).
  { apply elem_of_app in Hj as [Hj|Hj].
    - rewrite <- (clinks_nodes k (rootp t)) in Hj. apply list_elem_of_fmap in Hj as ([i x] & -> & Hx). rewrite Forall_forall in Hc.
      specialize (Hc _ Hx). unfold has in Hc. cbn in *. destruct (pool_ l !! i); [eauto|done].
    - rewrite <- (links_nodes (cpar k) t) in Hj. apply list_elem_of_fmap in Hj as ([i x] & -> & Hx). rewrite Forall_forall in Ht.
      specialize (Ht _ Hx). unfold has in Ht. cbn in *. destruct (pool_ l !! i); [eauto|done]. }
  destruct H as [v Hv]. by eapply lookup_lt_Some.
Qed.

Lemma zip_size l k t : zip l k t -> (length (cnodes k) + length (nodes t) <= length (pool_ l))%nat.
Proof.
  intros Z. rewrite <- length_app, <- (length_seq (length (pool_ l)) 0). apply submseteq_length, NoDup_submseteq; [apply Z|].
  intros j Hj. apply elem_of_seq. assert (H := zip_range _ _ _ _ Z Hj). lia.
Qed.

Lemma cnodes_length k : (length k <= length (cnodes k))%nat.
Proof. induction k as [|[c i r|c a i] k IH]; cbn; rewrite ?length_app; lia. Qed.

Fixpoint depth (t : tree) : nat := match t with Leaf => 0 | Node _ a _ b => S (Nat.max (depth a) (depth b)) end.
Lemma depth_nodes t : (depth t <= length (nodes t))%nat.
Proof. induction t as [|c a IHa i b IHb]; cbn; rewrite ?length_app; lia. Qed.

Lemma inorder_nodes t : inorder t ≡ₚ nodes t.
Proof. induction t as [|c a IHa i b IHb]; cbn; [done|]. rewrite IHa, IHb. solve_Permutation. Qed.

(** ** Transplanting *)

(** Closes the goals of a transplant: the context points to the subtree. *)
Ltac close_transplant Hn Hnb :=
  eexists; split; [reflexivity|]; split; [|split; [same_data|cbn [pool_ set_pool set_root]; rewrite ?list_lookup_alter_ne by (first [assumption | apply not_eq_sym; assumption]); done]];
  constructor; cbn [pool_ set_pool set_root root_ croot rootp cpar fnode]; [done| |close_tree Hn|exact Hnb];
  first [done | eapply close_frame; [lookup_node|reflexivity|untouched Hn|untouched Hn]].

Lemma transplant_right_ok l k c z b :
  zip l k (Node c Leaf z b) ->
  exists l', rb_transplant (Some z) (rootp b) l = Ok l' /\ zip l' k b /\ same l l' /\ pool_ l' !! z = pool_ l !! z.
Proof.
  intros [Hr Hc Ht Hn]. open Ht. unfold rb_transplant.
  assert (Hnb : NoDup (cnodes k ++ nodes b)) by (eapply sublist_NoDup; [exact Hn|]; cbn; apply sublist_app; [done|by apply sublist_cons]).
  destruct b as [|cb b1 ib b2]; [|open Hb]; open_top k Hc; cbn [rootp] in *; split_nodup Hn;
    try apart Hn i0 z; try apart Hn ib z; try apart Hn i0 ib; steps.
  - close_transplant Hn Hnb.
  - rewrite bool_decide_true by done. steps. close_transplant Hn Hnb.
  - other_child Hn. steps. close_transplant Hn Hnb.
  - close_transplant Hn Hnb.
  - rewrite bool_decide_true by done. steps. close_transplant Hn Hnb.
  - other_child Hn. steps. close_transplant Hn Hnb.
Qed.

Lemma transplant_left_ok l k c z a :
  zip l k (Node c a z Leaf) ->
  exists l', rb_transplant (Some z) (rootp a) l = Ok l' /\ zip l' k a /\ same l l' /\ pool_ l' !! z = pool_ l !! z.
Proof.
  intros [Hr Hc Ht Hn]. open Ht. unfold rb_transplant.
  assert (Hnb : NoDup (cnodes k ++ nodes a)) by (cbn [nodes] in Hn; rewrite app_nil_r in Hn; eapply sublist_NoDup; [exact Hn|]; apply sublist_app; [done|by apply sublist_cons]).
  destruct a as [|ca a1 ia a2]; [|open Ha]; open_top k Hc; cbn [rootp] in *; split_nodup Hn;
    try apart Hn i0 z; try apart Hn ia z; try apart Hn i0 ia; steps.
  - close_transplant Hn Hnb.
  - rewrite bool_decide_true by done. steps. close_transplant Hn Hnb.
  - other_child Hn. steps. close_transplant Hn Hnb.
  - close_transplant Hn Hnb.
  - rewrite bool_decide_true by done. steps. close_transplant Hn Hnb.
  - other_child Hn. steps. close_transplant Hn Hnb.
Qed.

(** Node [y], whose right subtree [b] is ready, is about to take the place of
    [z]. *)
Record prepared (l : VmaList) (k : ctx) (c : RBColor) (a : tree) (z y : nat) (b : tree) : Prop := {
  pr_root : root_ l = croot k (Some z);
  pr_ctx : Forall (has (pool_ l)) (clinks k (Some z));
  pr_z : exists vz, pool_ l !! z = Some vz /\ color vz = c /\ left vz = rootp a /\ parent vz = cpar k;
  pr_a : Forall (has (pool_ l)) (links (Some z) a);
  pr_y : exists vy, pool_ l !! y = Some vy /\ right vy = rootp b;
  pr_b : Forall (has (pool_ l)) (links (Some y) b);
  pr_nodup : NoDup (cnodes k ++ z :: y :: nodes a ++ nodes b)
}.

Lemma subtree_replace_ok l k c a z y b :
  prepared l k c a z y b ->
  exists l', (l ← rb_transplant (Some z) (Some y) l;
      zl ← ld l left (Some z);
      l ← st (Some y) (set_left zl) l;
      yl ← ld l left (Some y);
      l ← st_opt yl (set_parent (Some y)) l;
      zc ← ld l color (Some z);
      st (Some y) (set_color zc) l) = Ok l' /\ zip l' k (Node c a y b) /\ same l l'.
Proof.
  intros [Hr Hc (vz & Hz & <- & Zl & Zp) Ha (vy & Hy & Yr) Hb Hn]. destruct vz as [? ? ? ? ? cz ? ? ? ? ? ?], vy. cbn in Zl, Zp, Yr. subst. cbn [color].
  assert (Hn0 : NoDup (cnodes k ++ nodes (Node cz a y b))).
  { eapply sublist_NoDup; [exact Hn|]. cbn. apply sublist_app; [done|by apply sublist_cons]. }
  unfold rb_transplant. destruct a as [|ca a1 ia a2]; [|open Ha]; open_top k Hc; cbn [rootp] in *; split_nodup Hn; apart Hn z y;
    try (apart Hn i0 z; apart Hn i0 y); try (apart Hn ia z; apart Hn ia y); try apart Hn i0 ia; steps.
  - close_zip Hn Hn0.
  - rewrite bool_decide_true by done. steps. close_zip Hn Hn0.
  - other_child Hn. steps. close_zip Hn Hn0.
  - close_zip Hn Hn0.
  - rewrite bool_decide_true by done. steps. close_zip Hn Hn0.
  - other_child Hn. steps. close_zip Hn Hn0.
Qed.
(** Hanging the right subtree of [z] under [y], which is outside the tree. *)
Lemma adopt_ok l k c a z b y vy :
  zip l k (Node c a z b) -> b <> Leaf -> y ∉ cnodes k ++ nodes (Node c a z b) -> pool_ l !! y = Some vy ->
  exists l', (zr ← ld l right (Some z);
      l ← st (Some y) (set_right zr) l;
      yr ← ld l right (Some y);
      st_opt yr (set_parent (Some y)) l) = Ok l' /\ prepared l' k c a z y b /\ same l l'.
Proof.
  intros [Hr Hc Ht Hn] Hb0 Hy0 Hy. open Ht. destruct b as [|cb b1 ib b2]; [done|]. open Hb. destruct vy.
  assert (Hn0 : NoDup (cnodes k ++ z :: y :: nodes a ++ nodes (Node cb b1 ib b2))).
  { eapply NoDup_Permutation_proper; [|apply NoDup_cons; split; [exact Hy0|exact Hn]]. cbn [nodes]. solve_Permutation. }
  assert (Hn1 := Hn0). split_nodup Hn0. apart Hn0 z y. apart Hn0 ib y. apart Hn0 ib z. cbn [rootp] in *. steps.
  eexists. split; [reflexivity|]. split; [|same_data]. constructor; cbn [pool_ set_pool root_].
  - done.
  - untouched Hn0.
  - eexists. split; [lookup_node|done].
  - untouched Hn0.
  - eexists. split; [lookup_node|done].
  - close_tree Hn0.
  - done.
Qed.

(** The right child of [z] itself moves up. *)
Lemma prepared_child l k c a z cy y b : zip l k (Node c a z (Node cy Leaf y b)) -> prepared l k c a z y b.
Proof.
  intros [Hr Hc Ht Hn]. open Ht. open Hb. constructor; [done|done| |done| |done|].
  - eexists. split; [done|]. done.
  - eexists. split; [done|]. done.
  - eapply NoDup_Permutation_proper; [|exact Hn]. cbn [nodes app]. solve_Permutation.
Qed.

(** ** Removing a node *)

(** The leftmost node of a tree. *)
Lemma minimum_ok t : forall fuel l k,
  zip l k t -> t <> Leaf -> (depth t < fuel)%nat ->
  exists ks cy y yr, t = plug ks (Node cy Leaf y yr) /\ cleft ks = [] /\ rb_minimum fuel (rootp t) l = Ok (Some y).
Proof.
  induction t as [|c a IHa i b IHb]; intros fuel l k Z Hne Hf; [done|]. destruct fuel as [|fuel]; [lia|]. cbn [rb_minimum rootp]. cbn [depth] in Hf.
  rewrite (ld_left _ _ _ _ _ _ Z), bind_Ok. destruct a as [|ca a1 ia a2].
  - exists [], c, i, b. done.
  - cbn [rootp]. destruct (IHa fuel l (FL c i b :: k)) as (ks & cy & y & yr & E & El & Em); [by apply go_left|done|lia|]. cbn [rootp] in Em. rewrite Em.
    exists (ks ++ [FL c i b]), cy, y, yr. split; [by rewrite plug_app, <- E|]. split; [|done].
    clear -El. induction ks as [|[? ? ?|? ? ?] ks IH]; cbn [cleft app] in *; [done|by apply IH|]. by destruct (cleft ks), (inorder l).
Qed.

Lemma unplug_rb k t n : rb BLACK n (plug k t) -> exists c m, rb c m t /\ rbctx c m k.
Proof.
  revert t. induction k as [|f k IH]; intros t H; cbn [plug] in H; [eauto with rb|].
  destruct (IH _ H) as (c & m & Ht & Hk). destruct f as [cf i b|cf a i]; cbn [plug1] in Ht; inversion Ht; subst; eauto with rb.
Qed.

Lemma rbctx_rename ks : forall c n c' a z y k, rbctx c n (ks ++ FR c' a z :: k) -> rbctx c n (ks ++ FR c' a y :: k).
Proof.
  induction ks as [|f ks IH]; intros c n c' a z y k H; cbn [app] in *; inversion H; subst; eauto with rb.
Qed.

(** What is left to do when a node of colour [c] has been taken out above [t]. *)
Lemma fixup_ok l l1 k c m t :
  zip l1 k t -> same l l1 ->
  (c = BLACK -> exists ct, rb ct m t /\ rbctx BLACK (S m) k) -> (c = RED -> rb BLACK m t /\ rbctx RED m k) -> (length k < FUEL)%nat ->
  exists l', (if bool_decide (c = BLACK) then rb_remove_fixup (rootp t) (cpar k) l1 else Ok l1) = Ok l' /\ removed l l' (inorder (plug k t)).
Proof.
  intros Z Hs Hb Hr Hf. destruct c.
  - rewrite bool_decide_false by done. destruct (Hr eq_refl) as [Ht Hk]. exists l1. split; [done|].
    eapply (removed_intro l l1 k BLACK m); [done|done|done|by apply rbctx_any|done].
  - rewrite bool_decide_true by done. destruct (Hb eq_refl) as (ct & Ht & Hk).
    destruct (remove_loop_ok FUEL k m t l1 Z) as (l' & E & Hl); [|done|by left|].
    + inversion Ht; subst; cbn; eauto with rb.
    + exists l'. split; [exact E|]. by eapply removed_same.
Qed.

(** A node without a left child, or without a right child. *)
Lemma splice_rb n k c z a b t : rb BLACK n (plug k (Node c a z b)) -> (a = Leaf /\ t = b \/ b = Leaf /\ t = a) ->
  exists m, (c = BLACK -> exists ct, rb ct m t /\ rbctx BLACK (S m) k) /\ (c = RED -> rb BLACK m t /\ rbctx RED m k).
Proof.
  intros H Ht. destruct (unplug_rb k _ n H) as (c' & m & Hn & Hk). destruct Ht as [[-> ->]|[-> ->]]; inversion Hn; subst; eexists; split; intros ?; try done; eauto.
Qed.
Lemma nodes_plug k t : nodes (plug k t) ≡ₚ cnodes k ++ nodes t.
Proof.
  revert t. induction k as [|[c i b|c a i] k IH]; intros t; cbn [plug cnodes plug1]; [done|..]; rewrite IH; cbn [nodes]; solve_Permutation.
Qed.

Lemma plug_not_leaf f k t : plug (f :: k) t <> Leaf.
Proof. intros E. assert (H := nodes_plug (f :: k) t). rewrite E in H. destruct f; cbn in H; by apply Permutation_nil_cons in H. Qed.

Lemma not_in_plug k c a z ks cy y yr :
  NoDup (cnodes k ++ nodes (Node c a z (plug ks (Node cy Leaf y yr)))) -> y ∉ cnodes k ++ nodes (Node c a z (plug ks yr)).
Proof.
  intros H. cut (NoDup (y :: cnodes k ++ nodes (Node c a z (plug ks yr)))); [by intros [? _]%NoDup_cons|].
  eapply NoDup_Permutation_proper; [|exact H]. cbn [nodes]. rewrite !nodes_plug. cbn [nodes]. solve_Permutation.
Qed.

Lemma successor_ok l k c a z b :
  zip l k (Node c a z b) -> b <> Leaf -> (depth b < FUEL)%nat ->
  exists ks cy y yr l', b = plug ks (Node cy Leaf y yr) /\ cleft ks = [] /\
    successor_step (Some z) (rootp b) l = Ok (rootp yr, cpar (ks ++ FR c a y :: k), cy, l') /\
    zip l' (ks ++ FR c a y :: k) yr /\ same l l'.
Proof.
  intros Z Hb Hd. destruct (minimum_ok b FUEL l _ (go_right _ _ _ _ _ _ Z) Hb Hd) as (ks & cy & y & yr & -> & El & Em).
  assert (Zy : zip l (ks ++ FR c a z :: k) (Node cy Leaf y yr)) by (by apply (proj2 (zip_plug l ks (FR c a z :: k) _)), go_right).
  unfold successor_step. rewrite Em, bind_Ok. rewrite (ld_color _ _ _ _ _ _ Zy), bind_Ok, (ld_right _ _ _ _ _ _ Zy), !bind_Ok, (ld_parent _ _ _ _ _ _ Zy), bind_Ok.
  assert (T : exists l1, (if bool_decide (cpar (ks ++ FR c a z :: k) = Some z) then Ok (Some y : ptr, l)
     else l1 ← rb_transplant (Some y) (rootp yr) l; zr ← ld l1 right (Some z); l1 ← st (Some y) (set_right zr) l1;
       yr ← ld l1 right (Some y); l1 ← st_opt yr (set_parent (Some y)) l1; Ok (cpar (ks ++ FR c a z :: k), l1)) = Ok (cpar (ks ++ FR c a y :: k), l1) /\
     prepared l1 k c a z y (plug ks yr) /\ same l l1).
  { destruct ks as [|f ks].
    - cbn [app cpar fnode plug] in *. rewrite bool_decide_true by done. exists l. split; [done|]. split; [by eapply prepared_child|done].
    - cbn [app cpar] in *. rewrite bool_decide_false.
      2:{ intros [= E]. assert (Hn := z_nodup _ _ _ Zy). rewrite NoDup_app in Hn. destruct Hn as (Hn & _). revert Hn. clear -E. rewrite <- E.
          assert (H : forall ks k', fnode f ∈ cnodes (ks ++ FR c a (fnode f) :: k')).
          { clear. induction ks as [|[? ? ?|? ? ?] ks IH]; intros k'; cbn [cnodes app]; [by left|..]; apply elem_of_cons; right; apply elem_of_app; right; apply IH. }
          destruct f as [? ? ?|? ? ?]; cbn [cnodes fnode] in *; intros [Hn _]%NoDup_cons; apply Hn; apply elem_of_app; right; apply H. }
      destruct (transplant_right_ok _ _ _ _ _ Zy) as (l1 & -> & Z1 & Hs1 & Ey). rewrite bind_Ok.
      apply (proj1 (zip_plug l1 (f :: ks) (FR c a z :: k) yr)) in Z1. apply go_up in Z1. cbn [plug1] in Z1.
      assert (Hy : exists vy, pool_ l1 !! y = Some vy) by (rewrite Ey; destruct (zip_node _ _ _ _ _ _ Zy) as (v & Hv & _); eauto). destruct Hy as [vy Hy].
      destruct (adopt_ok l1 k c a z (plug (f :: ks) yr) y vy Z1) as (l2 & E2 & Hp & Hs2); [apply plug_not_leaf|by eapply not_in_plug, Z|done|].
      apply bind_inv in E2 as (zr & -> & E2). rewrite bind_Ok. apply bind_inv in E2 as (l3 & -> & E2). rewrite bind_Ok.
      apply bind_inv in E2 as (yr' & -> & E2). rewrite bind_Ok, E2, bind_Ok. exists l2. split; [done|]. split; [done|]. by eapply same_trans. }
  destruct T as (l1 & E1 & Hp & Hs1). run_with E1. destruct (subtree_replace_ok _ _ _ _ _ _ _ Hp) as (l' & E' & Z' & Hs').
  exists ks, cy, y, yr, l'. split; [done|]. split; [done|]. split; [|split; [by apply (proj2 (zip_plug l' ks (FR c a y :: k) yr)), go_right|by eapply same_trans]].
  do 5 (let e := fresh "e" in apply bind_inv in E' as (? & e & E'); rewrite e, bind_Ok). 
  apply bind_inv in E' as (zc & E6 & E'). rewrite E6, bind_Ok, E', bind_Ok. done.
Qed.

Lemma rb_remove_ok l k c a z b n :
  zip l k (Node c a z b) -> rb BLACK n (plug k (Node c a z b)) -> (length (pool_ l) <= MAX_VMAS)%nat ->
  exists l', rb_remove (Some z) l = Ok l' /\ removed l l' (cleft k ++ inorder a ++ inorder b ++ cright k).
Proof.
  intros Z Hrb Hlen. assert (Hsz := zip_size _ _ _ Z). cbn [nodes length] in Hsz. rewrite length_app in Hsz. assert (Hk := cnodes_length k).
  assert (Hd := depth_nodes b). unfold rb_remove. rewrite (ld_color _ _ _ _ _ _ Z), bind_Ok, (ld_left _ _ _ _ _ _ Z), bind_Ok, (ld_right _ _ _ _ _ _ Z), bind_Ok.
  destruct (decide (a = Leaf)) as [->|Ha]; [|destruct (decide (b = Leaf)) as [->|Hb]].
  - cbn [rootp]. rewrite (ld_parent _ _ _ _ _ _ Z), bind_Ok. destruct (transplant_right_ok _ _ _ _ _ Z) as (l1 & -> & Z1 & Hs & _). rewrite !bind_Ok.
    destruct (splice_rb n k c z Leaf b b Hrb) as (m & Hb1 & Hr1); [by left|].
    destruct (fixup_ok l l1 k c m b Z1 Hs Hb1 Hr1) as (l' & -> & Hl); [unfold FUEL; lia|]. exists l'. split; [done|]. by rewrite inorder_plug_eq in Hl.
  - assert (E : rootp a <> None) by (by destruct a). cbn [rootp]. rewrite (ld_parent _ _ _ _ _ _ Z).
    destruct (transplant_left_ok _ _ _ _ _ Z) as (l1 & Et & Z1 & Hs & _). destruct (rootp a) as [ia|] eqn:Ea; [|done]. rewrite bind_Ok, Et, !bind_Ok.
    destruct (splice_rb n k c z a Leaf a Hrb) as (m & Hb1 & Hr1); [by right|].
    destruct (fixup_ok l l1 k c m a Z1 Hs Hb1 Hr1) as (l' & E' & Hl); [unfold FUEL; lia|]. rewrite Ea in E'. rewrite E'. exists l'. split; [done|]. by rewrite inorder_plug_eq in Hl.
  - destruct (successor_ok l k c a z b Z Hb) as (ks & cy & y & yr & l1 & Eb & El & Es & Z1 & Hs); [unfold FUEL; lia|].
    replace (match rootp a with None => _ | Some _ => _ end) with (successor_step (Some z) (rootp b) l) by (by destruct a, b). rewrite Es, bind_Ok.
    assert (Hy : rb BLACK n (plug (ks ++ FR c a z :: k) (Node cy Leaf y yr))) by (rewrite plug_app; cbn [plug plug1]; by rewrite <- Eb).
    destruct (splice_rb n _ cy y Leaf yr yr Hy) as (m & Hb1 & Hr1); [by left|].
    assert (Hsz1 := zip_size _ _ _ Z1). assert (Hk1 := cnodes_length (ks ++ FR c a y :: k)).
    assert (Hp : length (pool_ l1) = length (pool_ l)) by (by apply same_length).
    destruct (fixup_ok l l1 _ cy m yr Z1 Hs) as (l' & -> & Hl); [| |unfold FUEL; lia|].
    + intros Ec. destruct (Hb1 Ec) as (ct & H1 & H2). exists ct. split; [done|]. by eapply rbctx_rename.
    + intros Ec. destruct (Hr1 Ec) as (H1 & H2). split; [done|]. by eapply rbctx_rename.
    + exists l'. split; [done|]. rewrite plug_app, inorder_plug_eq in Hl. cbn [plug plug1 cleft cright inorder] in Hl.
      rewrite Eb, inorder_plug_eq, El. rewrite inorder_plug_eq, El in Hl. cbn [app inorder] in *. by rewrite <- !app_assoc in *.
Qed.
(** ** Inserting a node *)

Definition start_of (l : VmaList) (i : nat) : Z := default 0 (start <$> pool_ l !! i).
Definition by_start (l : VmaList) (xs : list nat) : Prop := StronglySorted (fun i j => start_of l i < start_of l j) xs.

Lemma ssorted_app {A} (R : A -> A -> Prop) xs ys :
  StronglySorted R (xs ++ ys) -> StronglySorted R xs /\ StronglySorted R ys /\ (forall x y, x ∈ xs -> y ∈ ys -> R x y).
Proof.
  induction xs as [|x xs IH]; cbn; intros H; [split; [constructor|]; split; [done|]; by intros ? ? ?%not_elem_of_nil|].
  apply StronglySorted_inv in H as [H Hf]. destruct (IH H) as (H1 & H2 & H3). rewrite Forall_app in Hf. destruct Hf as [Hf1 Hf2].
  split; [by constructor|]. split; [done|]. intros a b Ha Hb. apply elem_of_cons in Ha as [->|Ha]; [|by apply H3]. by rewrite Forall_forall in Hf2; apply Hf2.
Qed.

Lemma same_start l l' i : same l l' -> start_of l' i = start_of l i.
Proof.
  intros [H _ _ _]. specialize (H i). unfold start_of. destruct (pool_ l' !! i), (pool_ l !! i); try done. cbn in *. unfold data in H. congruence.
Qed.

Lemma sorted_ext l l' xs : (forall i, start_of l' i = start_of l i) -> by_start l xs -> by_start l' xs.
Proof.
  intros E. unfold by_start. induction 1 as [|x xs Hs IH Hf]; constructor; [done|]. eapply Forall_impl; [exact Hf|]. cbn. intros y. by rewrite !E.
Qed.

(** Which child the new node becomes. *)
Definition side_ok (l : VmaList) (key : Z) (f : frame) : Prop :=
  match f with FL _ i _ => key < start_of l i | FR _ _ i => start_of l i <= key end.

Lemma insert_walk_ok key l t : forall fuel k,
  zip l k t -> (depth t < fuel)%nat -> by_start l (inorder t) ->
  exists k' pre post, rb_insert_walk fuel key (cpar k) (rootp t) l = Ok (cpar k') /\ plug k' Leaf = plug k t /\
    (k' = k \/ exists f k'', k' = f :: k'' /\ side_ok l key f) /\
    inorder t = pre ++ post /\ cleft k' = cleft k ++ pre /\ cright k' = post ++ cright k /\
    Forall (fun i => start_of l i <= key) pre /\ Forall (fun i => key < start_of l i) post.
Proof.
  induction t as [|c a IHa i b IHb]; intros fuel k Z Hf Hs.
  - exists k, [], []. destruct fuel; [lia|]. rewrite !app_nil_r. do 2 (split; [done|]). split; [by left|]. do 3 (split; [done|]). by split; apply Forall_nil.
  - destruct fuel as [|fuel]; [lia|]. cbn [rb_insert_walk rootp depth inorder] in *. destruct (zip_node _ _ _ _ _ _ Z) as (v & Hv & _).
    rewrite (ld_eq _ start _ _ Hv), bind_Ok. assert (Ei : start_of l i = start v) by (unfold start_of; by rewrite Hv).
    destruct (ssorted_app _ _ _ Hs) as (Sa & Sb & Sab). apply StronglySorted_inv in Sb as [Sb Fb]. destruct (Z.ltb_spec key (start v)).
    + rewrite (ld_left _ _ _ _ _ _ Z), bind_Ok. destruct (IHa fuel _ (go_left _ _ _ _ _ _ Z)) as (k' & pre & post & E & Ep & Hk & Ei' & El & Er & Hpre & Hpost); [lia|done|].
      cbn [cpar fnode] in E. rewrite E. exists k', pre, (post ++ i :: inorder b). split; [done|]. split; [by rewrite Ep|]. split.
      * right. destruct Hk as [-> |?]; [|done]. eexists _, _. split; [done|]. cbn. lia.
      * split; [by rewrite Ei', <- app_assoc|]. split; [done|]. split; [rewrite Er; cbn [cright]; by rewrite <- app_assoc|]. split; [done|].
        apply Forall_app. split; [done|]. apply Forall_cons. split; [lia|]. eapply Forall_impl; [exact Fb|]. cbn. intros; lia.
    + rewrite (ld_right _ _ _ _ _ _ Z), bind_Ok. destruct (IHb fuel _ (go_right _ _ _ _ _ _ Z)) as (k' & pre & post & E & Ep & Hk & Ei' & El & Er & Hpre & Hpost); [lia|done|].
      cbn [cpar fnode] in E. rewrite E. exists k', (inorder a ++ i :: pre), post. split; [done|]. split; [by rewrite Ep|]. split.
      * right. destruct Hk as [-> |?]; [|done]. eexists _, _. split; [done|]. cbn. lia.
      * split; [by rewrite Ei', <- app_assoc|]. split; [rewrite El; cbn [cleft]; by rewrite <- !app_assoc|]. split; [done|]. split; [|done].
        apply Forall_app. split; [|by apply Forall_cons; split; [lia|]]. apply Forall_forall. intros j Hj. specialize (Sab j i Hj ltac:(by left)). cbn in Sab. lia.
Qed.

(** Writing to a node outside the tree. *)
Lemma outside_ok l k t z f v :
  zip l k t -> z ∉ cnodes k ++ nodes t -> pool_ l !! z = Some v -> data (f v) = data v ->
  exists l', st (Some z) f l = Ok l' /\ zip l' k t /\ same l l' /\ pool_ l' !! z = Some (f v).
Proof.
  intros [Hr Hc Ht Hn] Hz Hv Hd. rewrite (st_eq _ _ _ _ Hv). eexists. split; [done|]. split; [|split].
  - constructor; cbn [pool_ set_pool root_]; [done| | |done]; first [eapply ctx_frame; [eassumption|] | eapply tree_frame; [eassumption|]];
      intros j Hj; rewrite list_lookup_alter_ne; [done| |done|]; set_solver.
  - constructor; cbn [pool_ used_ head_ count_ set_pool]; [|done..]. intros i. destruct (decide (z = i)) as [<-|]; [|by rewrite list_lookup_alter_ne].
    rewrite list_lookup_alter_eq, Hv. cbn. by rewrite Hd.
  - cbn [pool_ set_pool]. by apply lookup_alter_same.
Qed.
(** Hanging a node without children into a hole. *)
Definition attach (k : ctx) (z : ptr) (l : VmaList) : res VmaList :=
  match k with
  | [] => Ok (set_root z l)
  | FL _ i _ :: _ => st (Some i) (set_left z) l
  | FR _ _ i :: _ => st (Some i) (set_right z) l
  end.

Lemma attach_ok l k z vz :
  zip l k Leaf -> z ∉ cnodes k -> pool_ l !! z = Some vz -> link vz = mkLink RED None None (cpar k) ->
  exists l', attach k (Some z) l = Ok l' /\ zip l' k (Node RED Leaf z Leaf) /\ same l l'.
Proof.
  intros [Hr Hc Ht Hn] Hz Hv Hl. assert (Hn0 : NoDup (cnodes k ++ nodes (Node RED Leaf z Leaf))).
  { eapply NoDup_Permutation_proper; [|apply NoDup_cons; split; [exact Hz|]]; [|cbn [nodes] in Hn; rewrite app_nil_r in Hn; exact Hn]. cbn [nodes app]. solve_Permutation. }
  assert (Hn1 := Hn0). unfold attach. open_top k Hc; cbn [rootp] in *; split_nodup Hn1; try apart Hn1 i0 z; steps.
  all: eexists; split; [reflexivity|]; split; [|same_data]; constructor; cbn [pool_ set_pool set_root root_ croot rootp cpar fnode]; [done| |close_tree Hn1|exact Hn0].
  all: try (eapply close_node; [lookup_node|exact Hl|done|done]).
  all: first [done | eapply close_frame; [lookup_node|reflexivity|untouched Hn1|untouched Hn1]].
Qed.

Lemma rb_insert_ok l T n z vz :
  zip l [] T -> rb BLACK n T -> z ∉ nodes T -> pool_ l !! z = Some vz -> by_start l (inorder T) -> (length (pool_ l) <= MAX_VMAS)%nat ->
  exists l' T' n' pre post, rb_insert (Some z) l = Ok l' /\ zip l' [] T' /\ same l l' /\ rb BLACK n' T' /\
    inorder T = pre ++ post /\ inorder T' = pre ++ z :: post /\
    Forall (fun i => start_of l i <= start vz) pre /\ Forall (fun i => start vz < start_of l i) post.
Proof.
  intros Z Hrb Hz Hv Hs Hlen. unfold rb_insert.
  destruct (outside_ok l [] T z (set_left None) vz Z Hz Hv eq_refl) as (l1 & -> & Z1 & S1 & V1). rewrite bind_Ok.
  destruct (outside_ok l1 [] T z (set_right None) _ Z1 Hz V1 eq_refl) as (l2 & -> & Z2 & S2 & V2). rewrite bind_Ok.
  destruct (outside_ok l2 [] T z (set_color RED) _ Z2 Hz V2 eq_refl) as (l3 & -> & Z3 & S3 & V3). rewrite bind_Ok.
  assert (S03 : same l l3) by (by repeat (eapply same_trans; [eassumption|])). rewrite (ld_eq _ start _ _ V3), bind_Ok. cbn [start set_color set_right set_left].
  assert (Est : forall i, start_of l3 i = start_of l i) by (intros i; by apply same_start).
  assert (Hs3 : by_start l3 (inorder T)) by (by apply (sorted_ext l)).
  assert (Hsz := zip_size _ _ _ Z3). assert (Hp3 := same_length _ _ S03). assert (Hd := depth_nodes T). cbn [cnodes length] in Hsz.
  destruct (insert_walk_ok (start vz) l3 T FUEL [] Z3) as (k & pre & post & Ew & Epl & Hside & Ei & El & Er & Hpre & Hpost); [unfold FUEL; lia|done|].
  rewrite (z_root _ _ _ Z3). cbn [croot cpar] in *. rewrite Ew, bind_Ok.
  assert (Zk : zip l3 k Leaf) by (apply (proj2 (zip_root l3 k Leaf)); by rewrite Epl).
  assert (Hnk : cnodes k ≡ₚ nodes T) by (assert (X := nodes_plug k Leaf); rewrite Epl in X; cbn [plug nodes] in X; by rewrite X, app_nil_r).
  assert (Hzk : z ∉ cnodes k) by (by rewrite Hnk).
  destruct (outside_ok l3 k Leaf z (set_parent (cpar k)) _ Zk ltac:(by cbn [nodes]; rewrite app_nil_r) V3 eq_refl) as (l4 & -> & Z4 & S4 & V4). rewrite bind_Ok.
  destruct (attach_ok l4 k z _ Z4 Hzk V4 eq_refl) as (l5 & E5 & Z5 & S5).
  assert (E : (match cpar k with
      | None => Ok (set_root (Some z) l4)
      | Some _ => ys ← ld l4 start (cpar k); if start vz <? ys then st (cpar k) (set_left (Some z)) l4 else st (cpar k) (set_right (Some z)) l4
      end) = Ok l5).
  { destruct Hside as [->|(f & k' & -> & Hf)]; [done|]. cbn [cpar]. assert (Z4' := go_up _ _ _ _ Z4).
    destruct f as [c i b|c a i]; cbn [fnode plug1 side_ok] in *; destruct (zip_node _ _ _ _ _ _ Z4') as (v & Hvi & _); rewrite (ld_eq _ start _ _ Hvi), bind_Ok.
    all: assert (Esi : start_of l4 i = start_of l3 i) by (by apply same_start); unfold start_of in Esi at 1; rewrite Hvi in Esi; cbn in Esi.
    all: destruct (Z.ltb_spec (start vz) (start v)); [done || lia|done || lia]. }
  run_with E. destruct (unplug_rb k Leaf n) as (c & m & Hm & Hk); [by rewrite Epl|]. inversion Hm; subst.
  assert (Hsz5 := zip_size _ _ _ Z5). assert (Hck := cnodes_length k). assert (Hp5 : length (pool_ l5) = length (pool_ l)) by (apply same_length; by repeat (eapply same_trans; [eassumption|])).
  destruct (insert_fixup_ok k 0 Leaf z Leaf l5 Z5 ltac:(constructor) ltac:(constructor) Hk) as (l6 & T' & n' & -> & Z6 & S6 & Hrb' & Ein); [cbn [nodes length] in Hsz5; unfold FUEL; lia|].
  exists l6, T', n', pre, post. split; [done|]. split; [done|]. split; [by repeat (eapply same_trans; [eassumption|])|]. split; [done|]. split; [done|].
  split; [rewrite Ein, inorder_plug_eq, El, Er; cbn [cleft cright inorder app]; by rewrite app_nil_r|].
  split; [eapply Forall_impl; [exact Hpre|]|eapply Forall_impl; [exact Hpost|]]; intros i; cbn; by rewrite Est.
Qed.

(** ** Searching *)

Definition end_of (l : VmaList) (i : nat) : Z := default 0 (end_ <$> pool_ l !! i).
Definition covers (l : VmaList) (addr : Z) (i : nat) : Prop := start_of l i <= addr < end_of l i.
(** Areas in order and disjoint. *)
Definition disjoint (l : VmaList) (xs : list nat) : Prop :=
  StronglySorted (fun i j => end_of l i <= start_of l j) xs /\ Forall (fun i => start_of l i < end_of l i) xs.

Lemma find_loop_ok addr l t : forall fuel k,
  zip l k t -> (depth t <= fuel)%nat -> disjoint l (inorder t) ->
  exists p, rb_find_loop fuel addr (rootp t) l = Ok p /\
    match p with Some i => i ∈ inorder t /\ covers l addr i | None => forall i, i ∈ inorder t -> ~ covers l addr i end.
Proof.
  induction t as [|c a IHa i b IHb]; intros fuel k Z Hf Hs.
  - exists None. split; [by destruct fuel|]. by intros i ?%not_elem_of_nil.
  - destruct fuel as [|fuel]; [cbn in Hf; lia|]. cbn [rb_find_loop rootp depth inorder] in *. destruct (zip_node _ _ _ _ _ _ Z) as (v & Hv & _ & Vl & Vr & _).
    unfold node. rewrite Hv, bind_Ok, Vl, Vr. assert (Ei : start_of l i = start v) by (unfold start_of; by rewrite Hv).
    assert (Ee : end_of l i = end_ v) by (unfold end_of; by rewrite Hv).
    destruct Hs as [Hs Hne]. apply Forall_app in Hne as [Na Nb]. apply Forall_cons in Nb as [Ni Nb]. destruct (ssorted_app _ _ _ Hs) as (Sa & Sb & Sab). apply StronglySorted_inv in Sb as [Sb Fb].
    assert (Ha : forall j, j ∈ inorder a -> end_of l j <= start_of l i) by (intros j Hj; by apply (Sab j i Hj), list_elem_of_here).
    assert (Hb : forall j, j ∈ inorder b -> end_of l i <= start_of l j) by (by rewrite Forall_forall in Fb).
    destruct (Z.ltb_spec addr (start v)); [|destruct (Z.leb_spec (end_ v) addr)].
    + destruct (IHa fuel _ (go_left _ _ _ _ _ _ Z)) as (p & -> & Hp); [lia|done|]. exists p. split; [done|]. destruct p as [j|].
      * destruct Hp. split; [|done]. apply elem_of_app. by left.
      * intros j Hj. apply elem_of_app in Hj as [Hj|[-> |Hj]%elem_of_cons]; [by apply Hp| |]; unfold covers; [lia|]. specialize (Hb j Hj). lia.
    + destruct (IHb fuel _ (go_right _ _ _ _ _ _ Z)) as (p & -> & Hp); [lia|done|]. exists p. split; [done|]. destruct p as [j|].
      * destruct Hp. split; [|done]. apply elem_of_app. right. by right.
      * intros j Hj. apply elem_of_app in Hj as [Hj|[-> |Hj]%elem_of_cons]; [| |by apply Hp]; unfold covers; [|lia]. specialize (Ha j Hj).
        rewrite Forall_forall in Na. specialize (Na j Hj). cbn in Na. lia.
    + exists (Some i). split; [done|]. split; [apply elem_of_app; right; by left|]. unfold covers. lia.
Qed.

End VmaOps.
