(* ===== verification/VmaSpec.v ===== *)
(** * A list of areas refines a sorted list of disjoint regions

    The invariant of [VmaList]: the linked list and the in-order sequence of the
    tree are the same list of pool nodes, which are exactly the used ones, with
    disjoint regions in ascending order; the tree is a red-black tree.  Every
    operation implements the operation on the list of regions. *)

From Stdlib Require Import Sorted.
From S2P Require Import Prelude Vma VmaTree VmaRb VmaOps.

Module VmaSpec.
Import Vma VmaTree VmaRb VmaOps.

(** ** The linked list *)

Fixpoint seg (m : list Vma) (h : ptr) (xs : list nat) (e : ptr) : Prop :=
  match xs with
  | [] => h = e
  | i :: xs => h = Some i /\ exists v, m !! i = Some v /\ seg m (next v) xs e
  end.

Definition hp (xs : list nat) (e : ptr) : ptr := match xs with [] => e | i :: _ => Some i end.

Lemma seg_hp m h xs e : seg m h xs e -> h = hp xs e.
Proof. destruct xs; [done|]. by intros [-> _]. Qed.

Lemma seg_app m h xs ys e : seg m h (xs ++ ys) e <-> seg m h xs (hp ys e) /\ seg m (hp ys e) ys e.
Proof.
  revert h. induction xs as [|i xs IH]; intros h; cbn [app seg].
  - split; [|by intros [-> ?]]. intros H. assert (E := seg_hp _ _ _ _ H). by subst.
  - split.
    + intros (-> & v & Hv & [H1 H2]%IH). eauto.
    + intros [(-> & v & Hv & H1) H2]. split; [done|]. exists v. split; [done|]. by apply IH.
Qed.

Lemma seg_frame m m' h xs e : (forall i, i ∈ xs -> next <$> m' !! i = next <$> m !! i) -> seg m h xs e -> seg m' h xs e.
Proof.
  revert h. induction xs as [|i xs IH]; intros h Ha; [done|]. intros (-> & v & Hv & H). split; [done|].
  assert (E := Ha i (list_elem_of_here _ _)). rewrite Hv in E. destruct (m' !! i) as [v'|]; [|done]. cbn in E. apply Some_inj in E.
  exists v'. split; [done|]. rewrite E. apply IH; [|done]. intros j Hj. apply Ha. by right.
Qed.

(** ** The invariant *)

Record Region := mkRegion { r_start : Z; r_end : Z; r_prot : Z; r_type : VmaType; r_flags : Z; r_inode : Z; r_offset : Z }.
Definition region (v : Vma) : Region := mkRegion (start v) (end_ v) (prot v) (type v) (flags v) (file_inode v) (file_offset v).
Definition no_region : Region := mkRegion 0 0 0 ANONYMOUS 0 0 0.
Definition region_at (l : VmaList) (i : nat) : Region := default no_region (region <$> pool_ l !! i).

Definition ordered (rs : list Region) : Prop :=
  StronglySorted (fun r r' => r_end r <= r_start r') rs /\ Forall (fun r => 0 <= r_start r < r_end r) rs.

Record vinv (l : VmaList) (xs : list nat) : Prop := {
  vi_pool : length (pool_ l) = MAX_VMAS;
  vi_used_length : length (used_ l) = MAX_VMAS;
  vi_tree : exists T n, zip l [] T /\ rb BLACK n T /\ inorder T = xs;
  vi_list : seg (pool_ l) (head_ l) xs None;
  vi_used : forall i, used_ l !! i = Some true <-> i ∈ xs;
  vi_count : count_ l = Z.of_nat (length xs);
  vi_ordered : ordered (region_at l <$> xs)
}.

Lemma region_start l i : r_start (region_at l i) = start_of l i.
Proof. unfold region_at, start_of. by destruct (pool_ l !! i). Qed.
Lemma region_end l i : r_end (region_at l i) = end_of l i.
Proof. unfold region_at, end_of. by destruct (pool_ l !! i). Qed.

Lemma ordered_disjoint l xs : ordered (region_at l <$> xs) -> disjoint l xs.
Proof.
  intros [H1 H2]. split.
  - clear H2. induction xs as [|i xs IH]; [constructor|]. rewrite fmap_cons in H1. apply StronglySorted_inv in H1 as [H1 H2]. constructor; [by apply IH|].
    rewrite Forall_fmap in H2. eapply Forall_impl; [exact H2|]. intros j. cbn. by rewrite region_start, region_end.
  - rewrite Forall_fmap in H2. eapply Forall_impl; [exact H2|]. intros j. cbn. rewrite region_start, region_end. lia.
Qed.

Lemma disjoint_by_start l xs : disjoint l xs -> by_start l xs.
Proof.
  intros [H1 H2]. induction H1 as [|i xs H1 IH Hf]; constructor; apply Forall_cons in H2 as [Hi H2]; [by apply IH|].
  rewrite Forall_forall in *. intros j Hj. specialize (Hf j Hj). cbn in *. lia.
Qed.

Lemma vinv_nodup l xs : vinv l xs -> NoDup xs /\ (forall i, i ∈ xs -> (i < MAX_VMAS)%nat /\ exists v, pool_ l !! i = Some v).
Proof.
  intros H. destruct (vi_tree _ _ H) as (T & n & Z & _ & <-). assert (Hn := z_nodup _ _ _ Z). cbn [cnodes app] in Hn. split; [by rewrite inorder_nodes|].
  intros i Hi. rewrite inorder_nodes in Hi. assert (Hr := zip_range _ _ _ _ Z Hi). split; [by rewrite <- (vi_pool _ _ H)|]. by apply lookup_lt_is_Some_2.
Qed.

(** ** What depends on the links only, and on the data only *)

Lemma zip_agree l l' k t :
  (forall i, i ∈ cnodes k ++ nodes t -> link <$> pool_ l' !! i = link <$> pool_ l !! i) -> root_ l' = root_ l -> zip l k t -> zip l' k t.
Proof.
  intros E Er [H1 H2 H3 H4]. constructor; [congruence| | |done]; [eapply ctx_frame|eapply tree_frame]; try done; intros j Hj; apply E, elem_of_app; auto.
Qed.
Lemma zip_link_ext l l' k t : (forall i, link <$> pool_ l' !! i = link <$> pool_ l !! i) -> root_ l' = root_ l -> zip l k t -> zip l' k t.
Proof. intros E. apply zip_agree. intros i _. apply E. Qed.

Lemma same_region l l' i : same l l' -> region_at l' i = region_at l i.
Proof.
  intros [H _ _ _]. specialize (H i). unfold region_at. destruct (pool_ l' !! i) as [v'|], (pool_ l !! i) as [v|]; try done. cbn in *. unfold data in H.
  unfold region. injection H as -> -> -> -> -> -> -> _. done.
Qed.

Lemma same_seg l l' h xs e : same l l' -> seg (pool_ l) h xs e -> seg (pool_ l') h xs e.
Proof.
  intros [H _ _ _]. apply seg_frame. intros i _. specialize (H i). destruct (pool_ l' !! i) as [v'|], (pool_ l !! i) as [v|]; try done. cbn in *.
  unfold data in H. congruence.
Qed.

Lemma regions_ext l l' (xs : list nat) : (forall i, i ∈ xs -> region_at l' i = region_at l i) -> region_at l' <$> xs = region_at l <$> xs.
Proof. intros H. apply list_fmap_ext. intros j i Hi. apply H. by eapply list_elem_of_lookup_2. Qed.

(** Writing a [next] field. *)
Lemma next_ok l i v p :
  pool_ l !! i = Some v ->
  exists l', st (Some i) (set_next p) l = Ok l' /\ (forall k t, zip l k t -> zip l' k t) /\
    (forall j, region_at l' j = region_at l j) /\ (forall j, j <> i -> pool_ l' !! j = pool_ l !! j) /\ pool_ l' !! i = Some (set_next p v) /\
    used_ l' = used_ l /\ head_ l' = head_ l /\ root_ l' = root_ l /\ count_ l' = count_ l /\ length (pool_ l') = length (pool_ l).
Proof.
  intros Hv. rewrite (st_eq _ _ _ _ Hv). eexists. split; [done|]. cbn [pool_ used_ head_ root_ count_ set_pool]. split; [|split; [|split; [|split; [|do 4 (split; [done|])]]]].
  - intros k t. apply zip_link_ext; [|done]. intros j. cbn [pool_ set_pool]. destruct (decide (i = j)) as [<-|]; [|by rewrite list_lookup_alter_ne].
    by rewrite list_lookup_alter_eq, Hv.
  - intros j. unfold region_at. cbn [pool_ set_pool]. destruct (decide (i = j)) as [<-|]; [|by rewrite list_lookup_alter_ne]. by rewrite list_lookup_alter_eq, Hv.
  - intros j Hj. by rewrite list_lookup_alter_ne.
  - by apply lookup_alter_same.
  - by rewrite length_alter.
Qed.
(** ** Searching the list *)

Lemma overlap_ok l s e xs : forall fuel h,
  seg (pool_ l) h xs None -> (length xs < fuel)%nat -> ordered (region_at l <$> xs) ->
  exists p, find_overlap_unlocked fuel h s e l = Ok p /\
    (p = None <-> Forall (fun r => ~ (s < r_end r /\ r_start r < e)) (region_at l <$> xs)).
Proof.
  induction xs as [|i xs IH]; intros fuel h Hs Hf Ho.
  - cbn in Hs. subst. exists None. destruct fuel; [lia|]. split; [done|]. split; [intros _; apply Forall_nil_2|done].
  - destruct Hs as (-> & v & Hv & Hs). destruct fuel as [|fuel]; [lia|]. cbn [find_overlap_unlocked length] in *. unfold node. rewrite Hv, bind_Ok.
    assert (Er : region_at l i = region v) by (unfold region_at; by rewrite Hv). destruct Ho as [Ho Hp]. rewrite fmap_cons in Ho, Hp |- *. rewrite Er in *.
    apply StronglySorted_inv in Ho as [Ho Hlt]. apply Forall_cons in Hp as [Hi Hp]. cbn [r_start r_end region] in *.
    destruct (Z.ltb_spec s (end_ v)), (Z.ltb_spec (start v) e); cbn [andb].
    + exists (Some i). split; [done|]. split; [done|]. intros [Hn _]%Forall_cons. cbn in Hn. lia.
    + destruct (Z.leb_spec e (start v)); [|lia]. exists None. split; [done|]. split; [intros _|done]. apply Forall_cons. split; [cbn; lia|].
      rewrite Forall_forall in Hlt, Hp |- *. intros r Hr. specialize (Hlt r Hr). specialize (Hp r Hr). cbn in *. lia.
    + destruct (Z.leb_spec e (start v)); [lia|]. destruct (IH fuel (next v) Hs ltac:(lia)) as (p & -> & Hiff); [done|]. exists p. split; [done|].
      rewrite Hiff, Forall_cons. cbn [r_start r_end region]. split; [intros ?; split; [lia|done]|by intros [_ ?]].
    + destruct (Z.leb_spec e (start v)); [|lia]. exists None. split; [done|]. split; [intros _|done]. apply Forall_cons. split; [cbn; lia|].
      rewrite Forall_forall in Hlt, Hp |- *. intros r Hr. specialize (Hlt r Hr). specialize (Hp r Hr). cbn in *. lia.
Qed.

Lemma find_ok l xs addr :
  vinv l xs -> exists p, rb_find addr l = Ok p /\
    match p with Some i => i ∈ xs /\ covers l addr i | None => forall i, i ∈ xs -> ~ covers l addr i end.
Proof.
  intros H. destruct (vi_tree _ _ H) as (T & n & Z & _ & E). unfold rb_find. rewrite (z_root _ _ _ Z). cbn [croot].
  destruct (find_loop_ok addr l T FUEL [] Z) as (p & Ep & Hp).
  - assert (Hd := depth_nodes T). assert (Hsz := zip_size _ _ _ Z). rewrite (vi_pool _ _ H) in Hsz. cbn [cnodes length] in Hsz. unfold FUEL. lia.
  - rewrite E. apply ordered_disjoint, H.
  - exists p. split; [done|]. by rewrite E in Hp.
Qed.

(** ** Adding *)

(** Where the list insertion stops: behind the last node that starts before
    [key]. *)
Lemma list_walk_ok l key xs : forall fuel p,
  seg (pool_ l) (Some p) (p :: xs) None -> (length xs < fuel)%nat -> by_start l (p :: xs) ->
  exists ys q zs, p :: xs = ys ++ q :: zs /\ insert_walk fuel key (Some p) l = Ok (Some q) /\
    Forall (fun i => i = p \/ start_of l i < key) (ys ++ [q]) /\ Forall (fun i => key <= start_of l i) zs.
Proof.
  induction xs as [|x xs IH]; intros fuel p Hs Hf Hb; (destruct fuel as [|fuel]; [cbn in Hf; lia|]); cbn [insert_walk length] in *.
  - destruct Hs as (_ & v & Hv & Hn). cbn in Hn. rewrite (ld_eq _ next _ _ Hv), bind_Ok, Hn. exists [], p, []. do 2 (split; [done|]). split; [|by apply Forall_nil].
    apply Forall_singleton. by left.
  - destruct Hs as (_ & v & Hv & Hs). assert (Hs0 := Hs). destruct Hs0 as (En & vx & Hvx & _). rewrite (ld_eq _ next _ _ Hv), bind_Ok, En.
    rewrite (ld_eq _ start _ _ Hvx), bind_Ok. assert (Ex : start_of l x = start vx) by (unfold start_of; by rewrite Hvx).
    apply StronglySorted_inv in Hb as [Hb Hpx]. destruct (Z.ltb_spec (start vx) key).
    + rewrite En in Hs. destruct (IH fuel x Hs ltac:(lia) Hb) as (ys & q & zs & E & -> & H1 & H2). exists (p :: ys), q, zs. split; [by rewrite E|].
      split; [done|]. split; [|done]. cbn [app]. apply Forall_cons. split; [by left|]. eapply Forall_impl; [exact H1|]. intros i [-> |?]; right; lia.
    + exists [], p, (x :: xs). do 2 (split; [done|]). split; [apply Forall_singleton; by left|]. apply StronglySorted_inv in Hb as [_ Hb].
      apply Forall_cons. split; [lia|]. eapply Forall_impl; [exact Hb|]. cbn. intros; lia.
Qed.

(** Inserting a node that is outside the list. *)
Lemma insert_sorted_ok l xs z vz :
  seg (pool_ l) (head_ l) xs None -> by_start l xs -> (length xs <= MAX_VMAS)%nat -> NoDup xs -> z ∉ xs -> pool_ l !! z = Some vz ->
  (forall i, i ∈ xs -> start_of l i <> start vz) ->
  exists l' pre post, insert_sorted (Some z) l = Ok l' /\ xs = pre ++ post /\ seg (pool_ l') (head_ l') (pre ++ z :: post) None /\
    Forall (fun i => start_of l i <= start vz) pre /\ Forall (fun i => start vz < start_of l i) post /\
    (forall k t, zip l k t -> zip l' k t) /\ (forall j, region_at l' j = region_at l j) /\
    (exists v', pool_ l' !! z = Some v' /\ start v' = start vz) /\ used_ l' = used_ l /\ count_ l' = count_ l /\ length (pool_ l') = length (pool_ l).
Proof.
  intros Hs Hb Hlen Hn Hz Hv Hne. unfold insert_sorted. rewrite (ld_eq _ start _ _ Hv), bind_Ok.
  assert (Hhead : exists b, match head_ l with None => Ok true | Some _ => hs ← ld l start (head_ l); Ok (start vz <? hs) end = Ok b /\
    (b = true -> Forall (fun i => start vz < start_of l i) xs) /\ (b = false -> exists p ys, xs = p :: ys /\ start_of l p < start vz)).
  { destruct xs as [|p ys]; [exists true; cbn in Hs; rewrite Hs; split; [done|]; split; [intros _; apply Forall_nil_2|done]|].
    destruct Hs as (-> & v & Hvp & _). rewrite (ld_eq _ start _ _ Hvp), bind_Ok. assert (E : start_of l p = start v) by (unfold start_of; by rewrite Hvp).
    eexists. split; [done|]. apply StronglySorted_inv in Hb as [_ Hb]. destruct (Z.ltb_spec (start vz) (start v)); (split; [intros E'|intros E'; try done]); try done.
    - apply Forall_cons. split; [lia|]. eapply Forall_impl; [exact Hb|]. cbn. intros; lia.
    - exists p, ys. split; [done|]. specialize (Hne p (list_elem_of_here _ _)). lia. }
  destruct Hhead as (b & -> & Ht & Hf). rewrite bind_Ok. destruct b.
  - destruct (next_ok l z vz (head_ l) Hv) as (l1 & -> & Hz1 & Hr1 & Ho1 & Hv1 & U1 & _ & _ & C1 & L1). rewrite bind_Ok.
    eexists _, [], xs. split; [done|]. split; [done|]. cbn [app pool_ head_ used_ count_ set_head]. split.
    { split; [done|]. eexists. split; [exact Hv1|]. cbn [next set_next]. eapply seg_frame; [|exact Hs]. intros i Hi. rewrite Ho1; [done|]. by intros ->. }
    split; [by apply Forall_nil|]. split; [by apply Ht|]. split; [intros k t Hzt; apply (zip_link_ext l1); [done|done|]; by apply Hz1|]. split; [done|]. split; [by eexists|done].
  - destruct (Hf eq_refl) as (p & ys & -> & Hp). assert (Hh := seg_hp _ _ _ _ Hs). cbn [hp] in Hh. rewrite Hh in Hs |- *. cbn [length] in Hlen.
    destruct (list_walk_ok l (start vz) ys FUEL p Hs ltac:(unfold FUEL; lia) Hb) as (pre & q & post & E & -> & H1 & H2). rewrite bind_Ok. rewrite E in *.
    apply seg_app in Hs as [Hs1 (_ & vq & Hvq & Hs2)]. rewrite (ld_eq _ next _ _ Hvq), bind_Ok.
    destruct (next_ok l z vz (next vq) Hv) as (l1 & -> & Hz1 & Hr1 & Ho1 & Hv1 & U1 & Hd1 & _ & C1 & L1). rewrite bind_Ok.
    assert (Hqz : q <> z) by set_solver. assert (Hvq1 : pool_ l1 !! q = Some vq) by (by rewrite Ho1).
    destruct (next_ok l1 q vq (Some z) Hvq1) as (l2 & -> & Hz2 & Hr2 & Ho2 & Hv2 & U2 & Hd2 & _ & C2 & L2).
    assert (Hagree : forall i, i ∈ pre ++ post -> pool_ l2 !! i = pool_ l !! i).
    { intros i Hi. rewrite Ho2, Ho1; [done| |]; [set_solver|]. intros ->. revert Hn. rewrite NoDup_app, NoDup_cons. set_solver. }
    exists l2, (pre ++ [q]), post. split; [done|]. split; [by rewrite <- app_assoc|]. split; [|split; [|split; [|split; [|split; [|split]]]]].
    + rewrite Hd2, Hd1, Hh, <- app_assoc. cbn [app]. apply seg_app. cbn [hp]. split.
      { eapply seg_frame; [|exact Hs1]. intros i Hi. rewrite Hagree; [done|set_solver]. }
      split; [done|]. eexists. split; [exact Hv2|]. cbn [next set_next seg]. split; [done|]. eexists. split; [by rewrite Ho2|]. cbn [next set_next].
      eapply seg_frame; [|exact Hs2]. intros i Hi. rewrite Hagree; [done|set_solver].
    + eapply Forall_impl; [exact H1|]. intros i [-> |?]; lia.
    + rewrite Forall_forall in *. intros i Hi. specialize (H2 i Hi). specialize (Hne i ltac:(set_solver)). lia.
    + intros k t Hzt. by apply Hz2, Hz1.
    + intros j. by rewrite Hr2.
    + eexists. split; [by rewrite Ho2|done].
    + by rewrite U2, C2, L2.
Qed.

(** A sorted list is split by a key in one way. *)
Lemma split_unique l key pre post pre' post' :
  pre ++ post = pre' ++ post' -> Forall (fun i => start_of l i <= key) pre -> Forall (fun i => key < start_of l i) post ->
  Forall (fun i => start_of l i <= key) pre' -> Forall (fun i => key < start_of l i) post' -> pre = pre' /\ post = post'.
Proof.
  revert pre'. induction pre as [|i pre IH]; intros pre' E H1 H2 H3 H4; destruct pre' as [|j pre']; cbn [app] in E.
  - done.
  - subst. apply Forall_cons in H2 as [H2 _]. apply Forall_cons in H3 as [H3 _]. lia.
  - subst. apply Forall_cons in H1 as [H1 _]. apply Forall_cons in H4 as [H4 _]. lia.
  - injection E as -> E. apply Forall_cons in H1 as [_ H1]. apply Forall_cons in H3 as [_ H3]. by destruct (IH pre' E H1 H2 H3 H4) as [-> ->].
Qed.

(** ** The specification: sorted lists of regions *)

Definition overlaps (r r' : Region) : bool := (r_start r <? r_end r') && (r_start r' <? r_end r).
Definition aligned (a : Z) : bool := a mod PAGE_SIZE =? 0.
(** When a region can be added. *)
Definition admissible (r : Region) (rs : list Region) : bool :=
  aligned (r_start r) && aligned (r_end r) && (r_start r <? r_end r) && forallb (fun x => negb (overlaps r x)) rs && (length rs <? MAX_VMAS)%nat.
Fixpoint insert_region (r : Region) (rs : list Region) : list Region :=
  match rs with
  | [] => [r]
  | x :: rs => if r_start r <? r_start x then r :: x :: rs else x :: insert_region r rs
  end.

Lemma insert_region_split r pre post :
  Forall (fun x => r_start x <= r_start r) pre -> Forall (fun x => r_start r < r_start x) post -> insert_region r (pre ++ post) = pre ++ r :: post.
Proof.
  intros H1 H2. induction H1 as [|x pre Hx H1 IH]; cbn [app insert_region].
  - destruct H2 as [|x post Hx H2]; [done|]. cbn [insert_region]. by destruct (Z.ltb_spec (r_start r) (r_start x)); [|lia].
  - destruct (Z.ltb_spec (r_start r) (r_start x)); [lia|]. by rewrite IH.
Qed.

Lemma sorted_app_intro {A} (R : A -> A -> Prop) xs ys :
  StronglySorted R xs -> StronglySorted R ys -> (forall x y, x ∈ xs -> y ∈ ys -> R x y) -> StronglySorted R (xs ++ ys).
Proof.
  intros H1 H2 Hc. induction H1 as [|x xs H1 IH Hf]; [done|]. cbn [app]. constructor.
  - apply IH. intros a b Ha Hb. apply Hc; [by right|done].
  - apply Forall_app. split; [done|]. apply Forall_forall. intros y Hy. apply Hc; [by left|done].
Qed.

Lemma ordered_insert r pre post :
  ordered (pre ++ post) -> 0 <= r_start r < r_end r -> Forall (fun x => ~ (r_start r < r_end x /\ r_start x < r_end r)) (pre ++ post) ->
  Forall (fun x => r_start x <= r_start r) pre -> Forall (fun x => r_start r < r_start x) post -> ordered (pre ++ r :: post).
Proof.
  intros [Hs Hp] Hr Hd H1 H2. destruct (ssorted_app _ _ _ Hs) as (S1 & S2 & S12).
  apply Forall_app in Hp as [Hp1 Hp2]. apply Forall_app in Hd as [Hd1 Hd2]. rewrite Forall_forall in *.
  assert (Hpre : forall x, x ∈ pre -> r_end x <= r_start r) by (intros x Hx; specialize (H1 x Hx); specialize (Hd1 x Hx); cbn in *; lia).
  assert (Hpost : forall x, x ∈ post -> r_end r <= r_start x) by (intros x Hx; specialize (H2 x Hx); specialize (Hd2 x Hx); specialize (Hp2 x Hx); cbn in *; lia).
  split.
  - apply sorted_app_intro; [done| |].
    + constructor; [done|]. by apply Forall_forall.
    + intros x y Hx [-> |Hy]%elem_of_cons; [by apply Hpre|by apply S12].
  - apply Forall_app. split; [by apply Forall_forall|]. apply Forall_cons. split; [done|]. by apply Forall_forall.
Qed.

(** ** Allocation of a node *)

Lemma first_unused_ok u : forall i,
  match first_unused i u with
  | Some j => (i <= j)%nat /\ u !! (j - i)%nat = Some false
  | None => forall k, (k < length u)%nat -> u !! k = Some true
  end.
Proof.
  induction u as [|b u IH]; intros i; cbn [first_unused]; [cbn; intros; lia|]. destruct b.
  - specialize (IH (S i)). destruct (first_unused (S i) u) as [j|].
    + destruct IH as [H1 H2]. split; [lia|]. by replace (j - i)%nat with (S (j - S i)) by lia.
    + intros [|k] Hk; [done|]. apply IH. cbn in Hk. lia.
  - by rewrite Nat.sub_diag.
Qed.

Lemma count_bound xs ys : NoDup (xs : list nat) -> (forall i, i ∈ xs -> i ∈ ys) -> (length xs <= length ys)%nat.
Proof. intros Hn H. apply submseteq_length, NoDup_submseteq; [done|]. intros i. apply H. Qed.

Lemma alloc_ok l xs : vinv l xs ->
  match first_unused 0 (used_ l) with
  | Some z => (z ∉ xs) /\ (z < MAX_VMAS)%nat /\ (length xs < MAX_VMAS)%nat
  | None => length xs = MAX_VMAS
  end.
Proof.
  intros H. destruct (vinv_nodup _ _ H) as [Hn Hr]. assert (Hu := vi_used _ _ H). assert (Hl := vi_used_length _ _ H).
  assert (Hle : forall ys, NoDup ys -> (forall i, i ∈ ys -> (i < MAX_VMAS)%nat) -> (length ys <= MAX_VMAS)%nat).
  { intros ys Hy Hi. rewrite <- (length_seq MAX_VMAS 0). apply count_bound; [done|]. intros i Hii. apply elem_of_seq. specialize (Hi i Hii). lia. }
  assert (Hf := first_unused_ok (used_ l) 0). destruct (first_unused 0 (used_ l)) as [z|].
  - destruct Hf as [_ Hz]. rewrite Nat.sub_0_r in Hz. assert (Hzx : z ∉ xs) by (intros Hin; apply Hu in Hin; congruence).
    assert (Hzr : (z < MAX_VMAS)%nat) by (rewrite <- Hl; by eapply lookup_lt_Some). split; [done|]. split; [done|]. apply (Hle (z :: xs)); [by apply NoDup_cons|].
    intros i [-> |Hi]%elem_of_cons; [done|by apply Hr].
  - apply Nat.le_antisymm; [apply Hle; [done|]; intros i Hi; by apply Hr|]. rewrite <- (length_seq MAX_VMAS 0) at 1. apply count_bound; [apply NoDup_seq|].
    intros i Hi%elem_of_seq. apply Hu, Hf. lia.
Qed.

Lemma region_ext l l' i : pool_ l' !! i = pool_ l !! i -> region_at l' i = region_at l i.
Proof. unfold region_at. by intros ->. Qed.

Lemma admissible_spec r rs :
  admissible r rs = true <->
  Z.land (r_start r) PAGE_MASK = 0 /\ Z.land (r_end r) PAGE_MASK = 0 /\ r_start r < r_end r /\
  Forall (fun x => ~ (r_start r < r_end x /\ r_start x < r_end r)) rs /\ (length rs < MAX_VMAS)%nat.
Proof.
  unfold admissible, aligned, overlaps. rewrite !andb_true_iff, !Z.eqb_eq, Z.ltb_lt, Nat.ltb_lt, forallb_forall.
  change PAGE_MASK with (Z.ones 12). rewrite !Z.land_ones by lia. change (2 ^ 12) with PAGE_SIZE. rewrite Forall_forall.
  assert (E : (forall x, In x rs -> negb ((r_start r <? r_end x) && (r_start x <? r_end r)) = true) <-> (forall x, x ∈ rs -> ~ (r_start r < r_end x /\ r_start x < r_end r))).
  { split; intros H x Hx.
    - apply list_elem_of_In in Hx. specialize (H x Hx). lia.
    - apply list_elem_of_In in Hx. specialize (H x Hx). lia. }
  rewrite E. tauto.
Qed.

(** A node that is outside the list, with the fields of the new area in it, is
    linked into both structures. *)
Lemma link_ok l xs z vz T n :
  length (pool_ l) = MAX_VMAS -> zip l [] T -> rb BLACK n T -> inorder T = xs -> seg (pool_ l) (head_ l) xs None -> ordered (region_at l <$> xs) ->
  z ∉ xs -> pool_ l !! z = Some vz -> 0 <= start vz < end_ vz ->
  Forall (fun x => ~ (start vz < r_end x /\ r_start x < end_ vz)) (region_at l <$> xs) ->
  exists l' pre post, (l1 ← insert_sorted (Some z) l; rb_insert (Some z) l1) = Ok l' /\ xs = pre ++ post /\
    length (pool_ l') = MAX_VMAS /\ used_ l' = used_ l /\ count_ l' = count_ l /\
    (exists T' n', zip l' [] T' /\ rb BLACK n' T' /\ inorder T' = pre ++ z :: post) /\ seg (pool_ l') (head_ l') (pre ++ z :: post) None /\
    (forall i, region_at l' i = region_at l i) /\
    ordered (region_at l <$> pre ++ z :: post).
Proof.
  intros Hlen Z Hrb Ei Hseg Hord Hz Hv Hr Hdis. assert (Hb := disjoint_by_start _ _ (ordered_disjoint _ _ Hord)).
  assert (Hnd := z_nodup _ _ _ Z). cbn [cnodes app] in Hnd. assert (Hxs : NoDup xs) by (by rewrite <- Ei, inorder_nodes).
  assert (Hsz : (length xs <= MAX_VMAS)%nat) by (rewrite <- Ei, inorder_nodes, <- Hlen; by apply zip_size in Z).
  assert (Hne : forall i, i ∈ xs -> start_of l i <> start vz).
  { intros i Hi E. destruct Hord as [_ Hp]. rewrite Forall_fmap, Forall_forall in Hdis, Hp. specialize (Hdis i Hi). specialize (Hp i Hi). cbn in Hdis, Hp.
    rewrite region_start, region_end in *. lia. }
  destruct (insert_sorted_ok l xs z vz Hseg Hb Hsz Hxs Hz Hv Hne) as (l1 & pre & post & E1 & Ex & Hs1 & Hpre & Hpost & Hz1 & Hr1 & (v1 & Hv1 & Ev1) & U1 & C1 & L1).
  rewrite E1, bind_Ok. assert (Est : forall i, start_of l1 i = start_of l i) by (intros i; by rewrite <- !region_start, Hr1).
  destruct (rb_insert_ok l1 T n z v1 (Hz1 _ _ Z) Hrb) as (l2 & T' & n' & pre' & post' & E2 & Z2 & S2 & Hrb2 & Ep & Ei2 & Hpre' & Hpost'); [by rewrite <- inorder_nodes, Ei|done|by apply (sorted_ext l); [|rewrite Ei]|lia|].
  assert (Hsplit : pre = pre' /\ post = post').
  { apply (split_unique l (start vz)); try done; [congruence|..]; [eapply Forall_impl; [exact Hpre'|]|eapply Forall_impl; [exact Hpost'|]]; intros i; cbn; by rewrite Est, Ev1. }
  destruct Hsplit as [<- <-]. exists l2, pre, post. split; [done|]. split; [done|]. split; [by rewrite (same_length _ _ S2), L1|].
  destruct S2 as [Sd Su Sh Sc]. assert (S2 : same l1 l2) by done. split; [by rewrite Su|]. split; [by rewrite Sc|]. split; [eauto|].
  split; [rewrite Sh; by eapply same_seg|]. split; [intros i; by rewrite (same_region _ _ i S2)|].
  assert (Erz : region_at l z = region vz) by (unfold region_at; by rewrite Hv). rewrite fmap_app, fmap_cons, Erz. rewrite Ex, fmap_app in Hord, Hdis.
  apply ordered_insert; try done; apply Forall_fmap; [eapply Forall_impl; [exact Hpre|]|eapply Forall_impl; [exact Hpost|]]; intros i; cbn; by rewrite region_start.
Qed.

(** The area in node [z] is new, and nothing else has changed. *)
Definition placed (l : VmaList) (xs : list nat) (l' : VmaList) (z : nat) (r : Region) : Prop :=
  exists pre post, xs = pre ++ post /\ vinv l' (pre ++ z :: post) /\ region_at l' z = r /\ (forall i, i ∈ xs -> region_at l' i = region_at l i).

Lemma placed_regions l xs l' z r :
  placed l xs l' z r -> exists xs', vinv l' xs' /\ z ∈ xs' /\ region_at l' <$> xs' = insert_region r (region_at l <$> xs).
Proof.
  intros (pre & post & -> & Hv & <- & He). exists (pre ++ z :: post). split; [done|]. split; [set_solver|]. rewrite fmap_app, fmap_cons.
  assert (E : region_at l <$> pre ++ post = (region_at l' <$> pre) ++ (region_at l' <$> post)).
  { rewrite <- fmap_app. symmetry. by apply regions_ext. }
  rewrite E. destruct (vi_ordered _ _ Hv) as [Ho Hp]. rewrite fmap_app, fmap_cons in Ho, Hp. destruct (ssorted_app _ _ _ Ho) as (_ & Hz & Hpz). apply StronglySorted_inv in Hz as [_ Hz].
  apply Forall_app in Hp as [Hp1 [Hp2 Hp3]%Forall_cons]. symmetry. apply insert_region_split; rewrite Forall_forall in *.
  - intros x Hx. specialize (Hpz x (region_at l' z) Hx ltac:(by left)). specialize (Hp1 x Hx). cbn in *. lia.
  - intros x Hx. specialize (Hz x Hx). cbn in *. lia.
Qed.

Lemma area_add_ok l xs s e p t :
  vinv l xs -> 0 <= s ->
  let r := mkRegion s e p t FLAGS_NONE 0 0 in
  exists l' v, add s e p t l = Ok (l', v) /\
    if admissible r (region_at l <$> xs)
    then exists z, v = Some z /\ placed l xs l' z r
    else v = None /\ l' = l.
Proof.
  intros H Hs r. assert (Hadm := admissible_spec r (region_at l <$> xs)). rewrite length_fmap in Hadm. cbn [r_start r_end r] in Hadm. unfold add.
  destruct (Z.eqb_spec (Z.land s PAGE_MASK) 0) as [A1|A1]; cbn [negb orb]; [|exists l, None; split; [done|]; by destruct (admissible _ _); [destruct A1; apply Hadm|]].
  destruct (Z.eqb_spec (Z.land e PAGE_MASK) 0) as [A2|A2]; cbn [negb]; [|exists l, None; split; [done|]; by destruct (admissible _ _); [destruct A2; apply Hadm|]].
  destruct (Z.leb_spec e s) as [A3|A3]; [exists l, None; split; [done|]; by destruct (admissible _ _); [assert (s < e) by (by apply Hadm); lia|]|].
  assert (Ha := alloc_ok _ _ H). assert (Hfuel : (length xs < FUEL)%nat) by (unfold FUEL; destruct (first_unused 0 (used_ l)); lia).
  destruct (overlap_ok l s e xs FUEL (head_ l) (vi_list _ _ H) Hfuel (vi_ordered _ _ H)) as (o & -> & Ho). rewrite bind_Ok.
  destruct o as [o|]; [exists l, None; split; [done|]; destruct (admissible _ _); [|done]; by assert (Some o = None) by (by apply Ho, Hadm)|].
  unfold alloc_vma. destruct (first_unused 0 (used_ l)) as [z|]; [|exists l, None; split; [done|]; by destruct (admissible _ _); [assert (length xs < MAX_VMAS)%nat by (by apply Hadm); lia|]].
  destruct Ha as (Hz & Hzr & Hlen). assert (Hd := proj1 Ho eq_refl). replace (admissible r (region_at l <$> xs)) with true by (symmetry; apply Hadm; done).
  assert (Hvz : exists v, pool_ l !! z = Some v) by (apply lookup_lt_is_Some_2; by rewrite (vi_pool _ _ H)). destruct Hvz as [v0 Hv0].
  set (l1 := mkList _ _ _ _ _). rewrite (st_eq l1 _ z v0 Hv0), bind_Ok. set (l2 := set_pool _ l1).
  assert (Ho2 : forall i, i ∈ xs -> pool_ l2 !! i = pool_ l !! i) by (intros i Hi; cbn; apply list_lookup_alter_ne; by intros ->).
  assert (Hv2 : pool_ l2 !! z = Some (fresh_vma s e p t)) by (by apply (lookup_alter_same (fun _ => fresh_vma s e p t) z (pool_ l) v0)).
  assert (Er2 : region_at l2 <$> xs = region_at l <$> xs) by (apply regions_ext; intros i Hi; by apply region_ext, Ho2).
  destruct (vi_tree _ _ H) as (T & n & Z & Hrb & Ei).
  destruct (link_ok l2 xs z (fresh_vma s e p t) T n) as (l3 & pre & post & E3 & Ex & L3 & U3 & C3 & HT & Hsg & Hr3 & Hord); try done.
  - cbn. by rewrite length_alter, (vi_pool _ _ H).
  - eapply (zip_agree l); [|done|done]. intros i Hi. cbn [cnodes app] in Hi. rewrite <- inorder_nodes, Ei in Hi. by rewrite Ho2.
  - eapply seg_frame; [|apply (vi_list _ _ H)]. intros i Hi. by rewrite Ho2.
  - rewrite Er2. apply H.
  - by rewrite Er2.
  - apply bind_inv in E3 as (l4 & -> & E3). rewrite bind_Ok, E3, bind_Ok. exists l3, (Some z). split; [done|]. exists z. split; [done|]. exists pre, post. split; [done|].
    assert (Er3 : region_at l3 <$> pre ++ z :: post = region_at l2 <$> pre ++ z :: post) by (apply regions_ext; intros; apply Hr3).
    split; [|split; [rewrite Hr3; unfold region_at; by rewrite Hv2|intros i Hi; rewrite Hr3; by apply region_ext, Ho2]].
    constructor; [done| |done|done| | |by rewrite Er3].
    + rewrite U3. cbn. by rewrite length_insert, (vi_used_length _ _ H).
    + intros i. rewrite U3. cbn [used_ l2 l1 set_pool]. destruct (decide (z = i)) as [<-|Hne].
      * rewrite list_lookup_insert_eq by (by rewrite (vi_used_length _ _ H)). set_solver.
      * rewrite list_lookup_insert_ne, (vi_used _ _ H), Ex by done. set_solver.
    + rewrite C3. cbn [count_ l2 l1 set_pool]. rewrite (vi_count _ _ H), u64_small, Ex, !length_app; cbn [length]; unfold MAX_VMAS in Hlen; lia.
Qed.

End VmaSpec.
