(* ===== verification/VmaRefine.v ===== *)
(** * Removal of areas, and the refinement of the whole interface

    Taking nodes out of the list and the tree, the operations of [VmaList] on the
    sorted list of disjoint regions, and the theorem that every sequence of calls
    behaves like the operations on that list. *)

From Stdlib Require Import Sorted.
From stdpp Require Import sorting.
From S2P Require Import Prelude Vma VmaTree VmaRb VmaOps VmaSpec.

Module VmaRefine.
Import Vma VmaTree VmaRb VmaOps VmaSpec.

(** ** Files *)

Lemma ordered_bounds l l' (xs : list nat) :
  (forall i, i ∈ xs -> r_start (region_at l' i) = r_start (region_at l i) /\ r_end (region_at l' i) = r_end (region_at l i)) ->
  ordered (region_at l <$> xs) -> ordered (region_at l' <$> xs).
Proof.
  intros E [H1 H2]. split.
  - induction xs as [|i xs IH]; [constructor|]. rewrite fmap_cons in *. apply StronglySorted_inv in H1 as [H1 H3]. apply Forall_cons in H2 as [_ H2]. constructor.
    + apply IH; [|done|done]. intros j Hj. apply E. by right.
    + rewrite Forall_fmap, Forall_forall in *. intros j Hj. specialize (H3 j Hj). cbn in *. destruct (E i ltac:(by left)), (E j ltac:(by right)). lia.
  - rewrite Forall_fmap, Forall_forall in *. intros j Hj. specialize (H2 j Hj). destruct (E j Hj). cbn in *. lia.
Qed.

(** Writing fields that neither the links nor the order depend on. *)
Lemma write_ok l xs i f v :
  vinv l xs -> pool_ l !! i = Some v -> link (f v) = link v -> next (f v) = next v -> start (f v) = start v -> end_ (f v) = end_ v ->
  exists l', st (Some i) f l = Ok l' /\ vinv l' xs /\ region_at l' i = region (f v) /\ (forall j, j <> i -> region_at l' j = region_at l j).
Proof.
  intros H Hv El En Es Ee. rewrite (st_eq _ _ _ _ Hv). eexists. split; [done|]. set (l' := set_pool _ l).
  assert (Hi : pool_ l' !! i = Some (f v)) by (by apply lookup_alter_same).
  assert (Hj : forall j, j <> i -> pool_ l' !! j = pool_ l !! j) by (intros j Hj; by apply list_lookup_alter_ne).
  assert (Ei : region_at l' i = region (f v)) by (unfold region_at; by rewrite Hi).
  split; [|split; [done|intros j Hne; by apply region_ext, Hj]]. constructor.
  - cbn. by rewrite length_alter, (vi_pool _ _ H).
  - apply (vi_used_length _ _ H).
  - destruct (vi_tree _ _ H) as (T & n & Z & Hrb & E). exists T, n. split; [|done]. eapply (zip_link_ext l); [|done|done].
    intros j. destruct (decide (j = i)) as [->|Hne]; [by rewrite Hi, Hv; cbn; rewrite El|by rewrite Hj].
  - eapply seg_frame; [|apply (vi_list _ _ H)]. intros j _. destruct (decide (j = i)) as [->|Hne]; [by rewrite Hi, Hv; cbn; rewrite En|by rewrite Hj].
  - apply (vi_used _ _ H).
  - apply (vi_count _ _ H).
  - eapply (ordered_bounds l); [|apply H]. intros j _. destruct (decide (j = i)) as [->|Hne]; [|by rewrite (region_ext l l' j) by (by apply Hj)].
    rewrite Ei. unfold region_at. rewrite Hv. cbn. by rewrite Es, Ee.
Qed.

Lemma placed_node l xs l' z r : placed l xs l' z r -> NoDup xs -> (z ∉ xs) /\ exists v, pool_ l' !! z = Some v /\ region v = r.
Proof.
  intros (pre & post & -> & Hv & Hr & _) Hn. destruct (vinv_nodup _ _ Hv) as [Hn' Hp]. destruct (Hp z) as [_ [v Ev]]; [set_solver|]. split.
  - apply NoDup_app in Hn' as (_ & Hd & [Hip _]%NoDup_cons). set_solver.
  - exists v. split; [done|]. unfold region_at in Hr. by rewrite Ev in Hr.
Qed.

Lemma add_file_ok l xs s e p n o :
  vinv l xs -> 0 <= s ->
  let r := mkRegion s e p FILE FLAGS_NONE n o in
  exists l' v, add_file s e p n o l = Ok (l', v) /\
    if admissible r (region_at l <$> xs) then exists z, v = Some z /\ placed l xs l' z r else v = None /\ l' = l.
Proof.
  intros H Hs r. unfold add_file. destruct (area_add_ok l xs s e p FILE H Hs) as (l1 & v & -> & Hadd). rewrite bind_Ok. unfold r.
  change (admissible (mkRegion s e p FILE FLAGS_NONE n o) (region_at l <$> xs)) with (admissible (mkRegion s e p FILE FLAGS_NONE 0 0) (region_at l <$> xs)).
  destruct (admissible _ _); [|destruct Hadd as [-> ->]; by exists l, None]. destruct Hadd as (z & -> & Hp).
  destruct (placed_node _ _ _ _ _ Hp) as (Hz & vz & Hvz & Er); [by eapply vinv_nodup|]. destruct Hp as (pre & post & Ex & Hv & _ & He).
  destruct (write_ok l1 _ z (set_file n o) vz Hv Hvz) as (l2 & -> & Hv2 & Er2 & Ho2); [done..|]. rewrite bind_Ok.
  exists l2, (Some z). split; [done|]. exists z. split; [done|]. exists pre, post. split; [done|]. split; [done|]. split.
  - rewrite Er2. unfold region in *. cbn in *. injection Er as -> -> -> -> -> _ _. done.
  - intros i Hi. rewrite Ho2, He; [done|done|]. by intros ->.
Qed.

(** ** Removing *)

Lemma focus i T : i ∈ inorder T -> exists k c a b, T = plug k (Node c a i b).
Proof.
  induction T as [|c a IHa j b IHb]; cbn [inorder]; [by intros ?%not_elem_of_nil|].
  intros [Hi|[-> |Hi]%elem_of_cons]%elem_of_app.
  - destruct (IHa Hi) as (k & c' & a' & b' & ->). exists (k ++ [FL c j b]), c', a', b'. by rewrite plug_app.
  - by exists [], c, a, b.
  - destruct (IHb Hi) as (k & c' & a' & b' & ->). exists (k ++ [FR c a j]), c', a', b'. by rewrite plug_app.
Qed.

Lemma split_at (i : nat) xs ys xs' ys' : xs ++ i :: ys = xs' ++ i :: ys' -> i ∉ xs -> i ∉ xs' -> xs = xs' /\ ys = ys'.
Proof.
  revert xs'. induction xs as [|x xs IH]; intros [|x' xs'] E H1 H2; cbn [app] in E; simplify_eq; set_solver.
Qed.

Lemma ordered_drop pre r post : ordered (pre ++ r :: post) -> ordered (pre ++ post).
Proof.
  intros [H1 H2]. destruct (ssorted_app _ _ _ H1) as (S1 & S2 & S3). apply StronglySorted_inv in S2 as [S2 _]. split.
  - apply sorted_app_intro; [done..|]. intros x y Hx Hy. apply S3; [done|by right].
  - apply Forall_app in H2 as [? [_ ?]%Forall_cons]. by apply Forall_app.
Qed.

Lemma last_cases {A} (xs : list A) : xs = [] \/ exists ys x, xs = ys ++ [x].
Proof. destruct xs using rev_ind; eauto. Qed.

(** The list without node [i], whose predecessor is the last of [pre]. *)
Lemma bypass_ok l pre i post v :
  seg (pool_ l) (head_ l) (pre ++ i :: post) None -> NoDup (pre ++ i :: post) -> pool_ l !! i = Some v ->
  next v = hp post None /\
  exists l', match last pre : ptr with Some _ => st (last pre) (set_next (next v)) l | None => Ok (set_head (next v) l) end = Ok l' /\
    seg (pool_ l') (head_ l') (pre ++ post) None /\ (forall k t, zip l k t -> zip l' k t) /\ (forall j, region_at l' j = region_at l j) /\
    used_ l' = used_ l /\ count_ l' = count_ l /\ length (pool_ l') = length (pool_ l).
Proof.
  intros Hs Hn Hv. apply seg_app in Hs as [Hs1 (_ & v' & Hv' & Hs2)]. rewrite Hv in Hv'. injection Hv' as <-. assert (En := seg_hp _ _ _ _ Hs2). split; [done|].
  destruct (last_cases pre) as [->|(pre' & q & ->)]; [|rewrite last_snoc].
  - cbn [last]. eexists. split; [done|]. split; [done|]. split; [|done]. intros k t. by apply zip_link_ext.
  - apply seg_app in Hs1 as [Hs1 (_ & vq & Hvq & Eq)]. destruct (next_ok l q vq (next v) Hvq) as (l' & -> & Hz & Hr & Ho & Hvq' & U & Hd & _ & C & L).
    exists l'. split; [done|]. split; [|done]. rewrite Hd, <- app_assoc. rewrite <- !app_assoc in Hn. apply NoDup_app in Hn as (_ & Hd1 & [Hq _]%NoDup_cons).
    apply seg_app. split; [eapply seg_frame; [|exact Hs1]; intros j Hj; rewrite Ho; [done|]; intros ->; apply (Hd1 q Hj); set_solver|].
    split; [done|]. eexists. split; [exact Hvq'|]. cbn [next set_next]. eapply seg_frame; [|exact Hs2]. intros j Hj. rewrite Ho; [done|]. intros ->. set_solver.
Qed.

Lemma same_next l l1 i v : same l l1 -> pool_ l !! i = Some v -> exists v1, pool_ l1 !! i = Some v1 /\ next v1 = next v.
Proof.
  intros [Sd _ _ _] Hv. specialize (Sd i). rewrite Hv in Sd. destruct (pool_ l1 !! i) as [v1|]; [|done]. exists v1. split; [done|]. cbn in Sd. unfold data in Sd. congruence.
Qed.

(** Taking a node out of both structures, given its predecessor in the list. *)
Lemma area_unlink_ok l pre i post :
  vinv l (pre ++ i :: post) ->
  exists v l1 l2, pool_ l !! i = Some v /\ next v = hp post None /\ rb_remove (Some i) l = Ok l1 /\ same l l1 /\
    match last pre : ptr with Some _ => st (last pre) (set_next (next v)) l1 | None => Ok (set_head (next v) l1) end = Ok l2 /\
    vinv (free_vma (Some i) l2) (pre ++ post) /\ (forall j, region_at (free_vma (Some i) l2) j = region_at l j).
Proof.
  intros H. destruct (vinv_nodup _ _ H) as [Hn Hr]. destruct (Hr i) as [Hi [v Hv]]; [set_solver|].
  assert (Hi2 : (i ∉ pre) /\ (i ∉ post)) by (apply NoDup_app in Hn as (_ & Hd & [Hip _]%NoDup_cons); set_solver).
  destruct (vi_tree _ _ H) as (T & n & Z & Hrb & Ei). destruct (focus i T) as (k & c & a & b & ->); [rewrite Ei; set_solver|].
  apply (proj2 (zip_root l k _)) in Z. assert (Hnd : NoDup (inorder (plug k (Node c a i b)))) by (by rewrite Ei).
  destruct (rb_remove_ok l k c a i b n Z Hrb) as (l1 & E1 & T' & n' & Z1 & S1 & Hrb1 & Ei1); [by rewrite (vi_pool _ _ H)|].
  assert (Ein : inorder T' = pre ++ post).
  { rewrite inorder_plug_eq in Ei, Hnd. cbn [inorder] in Ei, Hnd. rewrite <- app_assoc, app_assoc in Ei, Hnd. cbn [app] in Ei, Hnd.
    destruct (split_at _ _ _ _ _ Ei) as [<- <-]; [|by apply Hi2|by rewrite Ei1, <- !app_assoc]. apply NoDup_app in Hnd as (_ & Hd & _). intros Hx. apply (Hd i Hx). by left. }
  assert (Hv1 := same_next _ _ _ _ S1 Hv).
  destruct Hv1 as (v1 & Hv1 & En1). assert (Hs1 : seg (pool_ l1) (head_ l1) (pre ++ i :: post) None) by (rewrite (sm_head _ _ S1); eapply same_seg; [done|apply H]).
  destruct (bypass_ok l1 pre i post v1 Hs1 Hn Hv1) as (En & l2 & E2 & Hs2 & Hz2 & Hr2 & U2 & C2 & L2). rewrite En1 in E2, En.
  exists v, l1, l2. do 5 (split; [done|]). assert (L1 := same_length _ _ S1). rewrite (vi_pool _ _ H) in L1. unfold free_vma. rewrite bool_decide_true by lia.
  assert (Hr3 : forall j, region_at (mkList (pool_ l2) (<[i := false]> (used_ l2)) (head_ l2) (root_ l2) (u64 (count_ l2 - 1))) j = region_at l j).
  { intros j. rewrite <- (same_region _ _ j S1), <- Hr2. done. }
  split; [|done]. constructor; cbn [pool_ used_ head_ root_ count_].
  - lia.
  - rewrite length_insert, U2, (sm_used _ _ S1). apply H.
  - exists T', n'. split; [|done]. apply (zip_link_ext l2); [done..|]. by apply Hz2.
  - done.
  - intros j. rewrite U2, (sm_used _ _ S1). destruct (decide (i = j)) as [<-|Hne].
    + rewrite list_lookup_insert_eq by (by rewrite (vi_used_length _ _ H)). split; [done|]. intros ?%elem_of_app. set_solver.
    + rewrite list_lookup_insert_ne, (vi_used _ _ H) by done. rewrite !elem_of_app, elem_of_cons. split; [|tauto]. intros [?|[?|?]]; [tauto|by subst|tauto].
  - assert (Hc := vi_count _ _ H). assert (Hle := alloc_ok _ _ H). assert (Hlen : (length (pre ++ i :: post) <= 256)%nat) by (destruct (first_unused 0 (used_ l)); unfold MAX_VMAS in Hle; lia).
    rewrite C2, (sm_count _ _ S1), Hc. rewrite !length_app in *. cbn [length] in *. rewrite u64_small; lia.
  - erewrite regions_ext by (intros; apply Hr3). assert (Ho := vi_ordered _ _ H). rewrite fmap_app, fmap_cons in Ho. rewrite fmap_app. by eapply ordered_drop.
Qed.

Definition outside (s e : Z) (r : Region) : bool := (r_end r <=? s) || (e <=? r_start r).

Lemma remove_range_loop_ok s e suf : forall fuel pre l,
  vinv l (pre ++ suf) -> (length suf < fuel)%nat ->
  exists l', remove_range_loop fuel s e (last pre) (hp suf None) l = Ok l' /\
    vinv l' (pre ++ List.filter (fun i => outside s e (region_at l i)) suf) /\ (forall j, region_at l' j = region_at l j).
Proof.
  induction suf as [|i suf IH]; intros fuel pre l H Hf.
  - exists l. cbn [hp List.filter]. by destruct fuel.
  - destruct fuel as [|fuel]; [cbn in Hf; lia|]. destruct (area_unlink_ok _ _ _ _ H) as (v & l1 & l2 & Hv & En & E1 & S1 & E2 & Hl2 & Hr2).
    cbn [hp remove_range_loop]. unfold node. rewrite Hv, bind_Ok. assert (Er : region_at l i = region v) by (unfold region_at; by rewrite Hv).
    cbn [List.filter]. rewrite Er. unfold outside at 1. cbn [r_start r_end region].
    destruct ((end_ v <=? s) || (e <=? start v)); cbn [negb].
    + rewrite En. replace (Some i : ptr) with (last (pre ++ [i])) by apply last_snoc. destruct (IH fuel (pre ++ [i]) l) as (l' & -> & Hl' & Hr'); [by rewrite <- app_assoc|cbn in Hf; lia|].
      exists l'. split; [done|]. split; [|done]. by rewrite <- app_assoc in Hl'.
    + rewrite (ld_eq _ next _ _ Hv), bind_Ok, E1, bind_Ok, E2, bind_Ok, En. destruct (IH fuel pre _ Hl2) as (l' & -> & Hl' & Hr'); [cbn in Hf; lia|].
      exists l'. split; [done|]. split; [|intros j; by rewrite Hr', Hr2]. erewrite filter_ext; [exact Hl'|]. intros j. cbn. by rewrite Hr2.
Qed.

Lemma filter_regions (p : Region -> bool) (f : nat -> Region) xs : f <$> List.filter (fun i => p (f i)) xs = List.filter p (f <$> xs).
Proof. induction xs as [|x xs IH]; [done|]. rewrite fmap_cons. cbn [List.filter]. destruct (p (f x)); [rewrite fmap_cons|]; by rewrite IH. Qed.

Lemma vinv_length l xs : vinv l xs -> (length xs <= MAX_VMAS)%nat.
Proof. intros H. assert (Hle := alloc_ok _ _ H). destruct (first_unused 0 (used_ l)); lia. Qed.

Lemma remove_range_ok s e l xs :
  vinv l xs -> exists l' xs', remove_range s e l = Ok l' /\ vinv l' xs' /\ region_at l' <$> xs' = List.filter (outside s e) (region_at l <$> xs).
Proof.
  intros H. assert (Hle := vinv_length _ _ H). destruct (remove_range_loop_ok s e xs FUEL [] l H) as (l' & E & Hl & Hr); [unfold FUEL; lia|].
  unfold remove_range. rewrite (seg_hp _ _ _ _ (vi_list _ _ H)). cbn [last] in E. rewrite E. eexists _, _. split; [done|]. split; [exact Hl|].
  erewrite regions_ext by (intros; apply Hr). apply filter_regions.
Qed.

(** The walk to the predecessor of the node to remove. *)
Lemma unlink_walk_ok l i post pre : forall fuel p,
  seg (pool_ l) (Some p) ((p :: pre) ++ i :: post) None -> NoDup ((p :: pre) ++ i :: post) -> (length pre < fuel)%nat ->
  unlink_walk fuel (Some i) (Some p) l = Ok (last (p :: pre)).
Proof.
  induction pre as [|q pre IH]; intros fuel p Hs Hn Hf; (destruct fuel as [|fuel]; [cbn in Hf; lia|]); cbn [unlink_walk].
  - destruct Hs as (_ & v & Hv & (En & _)). rewrite (ld_eq _ next _ _ Hv), bind_Ok, En. rewrite (bool_decide_true (Some i = Some i)) by done. by rewrite andb_false_r.
  - destruct Hs as (_ & v & Hv & Hs). assert (En := seg_hp _ _ _ _ Hs). cbn [app hp] in En. rewrite (ld_eq _ next _ _ Hv), bind_Ok, En.
    rewrite bool_decide_true, bool_decide_false; [|intros [= ->]; cbn in Hn; apply NoDup_cons in Hn as [_ [Hn _]%NoDup_cons]; set_solver|done]. cbn [andb negb].
    rewrite (IH fuel q); [done| |by apply NoDup_cons in Hn as [_ Hn]|cbn in Hf; lia]. rewrite En in Hs. done.
Qed.

Lemma area_remove_ok l xs i :
  vinv l xs -> i ∈ xs ->
  exists l' pre post, xs = pre ++ i :: post /\ remove (Some i) l = Ok (l', true) /\ vinv l' (pre ++ post) /\ (forall j, region_at l' j = region_at l j).
Proof.
  intros H Hi. apply list_elem_of_split in Hi as (pre & post & ->). destruct (area_unlink_ok _ _ _ _ H) as (v & l1 & l2 & Hv & En & E1 & S1 & E2 & Hl2 & Hr2).
  assert (Hs := vi_list _ _ H). destruct (vinv_nodup _ _ H) as [Hn _]. assert (Hh := seg_hp _ _ _ _ Hs). assert (Hle := vinv_length _ _ H). exists (free_vma (Some i) l2), pre, post.
  split; [done|]. split; [|done]. unfold remove. rewrite (bool_decide_false (head_ l = None)) by (rewrite Hh; by destruct pre).
  rewrite (bool_decide_false (Some i = None)) by done. cbn [orb]. rewrite E1, bind_Ok, (sm_head _ _ S1), Hh.
  assert (Hv1 := same_next _ _ _ _ S1 Hv).
  destruct Hv1 as (v1 & Hv1 & En1). destruct pre as [|p pre]; cbn [app hp].
  - rewrite bool_decide_true by done. rewrite (ld_eq _ next _ _ Hv1), bind_Ok, En1. cbn [last] in E2. by injection E2 as <-.
  - rewrite bool_decide_false by (intros [= ->]; apply NoDup_cons in Hn as [Hn _]; set_solver). rewrite Hh in Hs.
    assert (Hs1 : seg (pool_ l1) (Some p) ((p :: pre) ++ i :: post) None) by (by eapply same_seg).
    rewrite (unlink_walk_ok l1 i post pre FUEL p Hs1 Hn), bind_Ok by (rewrite length_app in Hle; cbn in Hle; unfold FUEL; lia).
    apply seg_app in Hs1 as [Hs1 _]. destruct (last_cases (p :: pre)) as [?|(pre' & q & Eq)]; [done|]. rewrite Eq, last_snoc in *.
    apply seg_app in Hs1 as [_ (_ & vq & Hvq & Enq)]. cbn [hp seg] in Enq. rewrite (ld_eq _ next _ _ Hvq), bind_Ok, Enq, bool_decide_true by done.
    rewrite (ld_eq _ next _ _ Hv1), bind_Ok, En1, E2. done.
Qed.

(** ** The empty list *)

Lemma empty_ok l : length (pool_ l) = MAX_VMAS -> length (used_ l) = MAX_VMAS -> head_ l = None -> root_ l = None -> count_ l = 0 ->
  (forall i, used_ l !! i <> Some true) -> vinv l [].
Proof.
  intros H1 H2 H3 H4 H5 H6. constructor; try done.
  - exists Leaf, 0%nat. split; [|by split; [constructor|]]. constructor; cbn; [done|by apply Forall_nil|by apply Forall_nil|constructor].
  - intros i. split; [by intros ?%H6|by intros ?%not_elem_of_nil].
  - split; [constructor|by apply Forall_nil].
Qed.

Lemma unused_replicate n i : replicate n false !! i <> Some true.
Proof. intros [? _]%lookup_replicate_1. done. Qed.

Lemma area_init_ok l : length (pool_ l) = MAX_VMAS -> length (used_ l) = MAX_VMAS -> vinv (init l) [].
Proof. intros H1 H2. apply empty_ok; try done; cbn; [by rewrite length_fmap|by rewrite length_replicate|apply unused_replicate]. Qed.

Lemma clear_ok l xs : vinv l xs -> vinv (clear l) [].
Proof.
  intros H. apply empty_ok; try done; cbn; [rewrite length_fmap; apply H|rewrite length_replicate; apply H|apply unused_replicate].
Qed.

(** ** The interface *)

Inductive Op :=
  | OAdd (s e p : Z) (t : VmaType)
  | OAddFile (s e p inode offset : Z)
  | OFind (addr : Z)
  | ORemove (addr : Z)
  | ORemoveRange (s e : Z)
  | OClear.
(** What a caller sees: the area behind the returned pointer, or a flag. *)
Inductive Out := OArea (r : option Region) | OFlag (b : bool) | ONone.

Definition view (l : VmaList) (p : ptr) : Out := OArea (region_at l <$> p).

Definition exec (o : Op) (l : VmaList) : res (VmaList * Out) :=
  match o with
  | OAdd s e p t => '(l, v) ← add s e p t l; Ok (l, view l v)
  | OAddFile s e p n o => '(l, v) ← add_file s e p n o l; Ok (l, view l v)
  | OFind a => v ← find a l; Ok (l, view l v)
  | ORemove a => v ← find a l; '(l, b) ← remove v l; Ok (l, OFlag b)
  | ORemoveRange s e => l ← remove_range s e l; Ok (l, ONone)
  | OClear => Ok (clear l, ONone)
  end.

Definition within (a : Z) (r : Region) : bool := (r_start r <=? a) && (a <? r_end r).
Definition spec_add (r : Region) (rs : list Region) : list Region * Out :=
  if admissible r rs then (insert_region r rs, OArea (Some r)) else (rs, OArea None).
Definition spec (o : Op) (rs : list Region) : list Region * Out :=
  match o with
  | OAdd s e p t => spec_add (mkRegion s e p t FLAGS_NONE 0 0) rs
  | OAddFile s e p n o => spec_add (mkRegion s e p FILE FLAGS_NONE n o) rs
  | OFind a => (rs, OArea (List.find (within a) rs))
  | ORemove a => (List.filter (fun r => negb (within a r)) rs, OFlag (existsb (within a) rs))
  | ORemoveRange s e => (List.filter (outside s e) rs, ONone)
  | OClear => ([], ONone)
  end.

Fixpoint exec_all (os : list Op) (l : VmaList) : res (VmaList * list Out) :=
  match os with
  | [] => Ok (l, [])
  | o :: os => '(l, x) ← exec o l; '(l, xs) ← exec_all os l; Ok (l, x :: xs)
  end.
Fixpoint spec_all (os : list Op) (rs : list Region) : list Region * list Out :=
  match os with
  | [] => (rs, [])
  | o :: os => let '(rs, x) := spec o rs in let '(rs, xs) := spec_all os rs in (rs, x :: xs)
  end.

(** Addresses are unsigned. *)
Definition op_ok (o : Op) : Prop := match o with OAdd s _ _ _ | OAddFile s _ _ _ _ => 0 <= s | _ => True end.
(** The list of areas [l] holds the regions [rs]. *)
Definition holds (l : VmaList) (rs : list Region) : Prop := exists xs, vinv l xs /\ region_at l <$> xs = rs.

Lemma within_covers l a i : within a (region_at l i) = true <-> covers l a i.
Proof. unfold within, covers. rewrite region_start, region_end. lia. Qed.

(** At most one region contains an address. *)
Lemma within_unique a pre r post :
  ordered (pre ++ r :: post) -> within a r = true -> Forall (fun x => within a x = false) (pre ++ post).
Proof.
  intros [H1 H2] Hr. destruct (ssorted_app _ _ _ H1) as (_ & S2 & S3). apply StronglySorted_inv in S2 as [_ S2]. unfold within in *.
  apply Forall_app in H2 as [H2 [H3 H4]%Forall_cons]. rewrite Forall_app, !Forall_forall in *. split; intros x Hx.
  - specialize (S3 x r Hx ltac:(by left)). specialize (H2 x Hx). cbn in *. lia.
  - specialize (S2 x Hx). specialize (H4 x Hx). cbn in *. lia.
Qed.

Lemma filter_none (f : Region -> bool) rs : Forall (fun x => f x = false) rs -> List.filter (fun r => negb (f r)) rs = rs /\ List.find f rs = None /\ existsb f rs = false.
Proof. induction 1 as [|x rs Hx H (IH1 & IH2 & IH3)]; [done|]. cbn [List.filter List.find existsb]. rewrite Hx. cbn [negb orb]. by rewrite IH1, IH2, IH3. Qed.

Lemma filter_one (f : Region -> bool) pre r post :
  Forall (fun x => f x = false) (pre ++ post) -> f r = true ->
  List.filter (fun r => negb (f r)) (pre ++ r :: post) = pre ++ post /\ List.find f (pre ++ r :: post) = Some r /\ existsb f (pre ++ r :: post) = true.
Proof.
  intros H Hr. induction pre as [|x pre IH]; cbn [app List.filter List.find existsb] in *.
  - rewrite Hr. cbn [negb orb]. split; [|done]. by apply filter_none.
  - apply Forall_cons in H as [-> H]. cbn [negb orb]. destruct (IH H) as (-> & -> & ->). done.
Qed.

(** Where an address lies. *)
Lemma find_cases l xs a :
  vinv l xs ->
  (exists pre i post, xs = pre ++ i :: post /\ find a l = Ok (Some i) /\ within a (region_at l i) = true /\ Forall (fun x => within a x = false) (region_at l <$> pre ++ post)) \/
  (find a l = Ok None /\ Forall (fun x => within a x = false) (region_at l <$> xs)).
Proof.
  intros H. destruct (find_ok l xs a H) as (p & Ep & Hp). unfold find. rewrite Ep. destruct p as [i|].
  - left. destruct Hp as [Hi Hc]. apply list_elem_of_split in Hi as (pre & post & ->). exists pre, i, post. apply within_covers in Hc. do 3 (split; [done|]).
    rewrite fmap_app. assert (Ho := vi_ordered _ _ H). rewrite fmap_app, fmap_cons in Ho. by apply (within_unique a _ _ _ Ho).
  - right. split; [done|]. apply Forall_fmap, Forall_forall. intros i Hi. specialize (Hp i Hi). cbn. destruct (within a (region_at l i)) eqn:E; [|done]. by apply within_covers in E.
Qed.

Lemma placed_view l xs l' z r : placed l xs l' z r -> holds l' (insert_region r (region_at l <$> xs)) /\ view l' (Some z) = OArea (Some r).
Proof.
  intros Hp. assert (Hr := Hp). apply placed_regions in Hp as (xs' & Hv & _ & E). split; [by exists xs'|]. destruct Hr as (? & ? & _ & _ & <- & _). done.
Qed.

Lemma exec_ok o l rs : holds l rs -> op_ok o -> exists l' x, exec o l = Ok (l', x) /\ holds l' (spec o rs).1 /\ (spec o rs).2 = x.
Proof.
  intros (xs & H & <-) Ho. destruct o as [s e p t|s e p n o|a|a|s e|]; cbn [exec spec op_ok] in *.
  - destruct (area_add_ok l xs s e p t H Ho) as (l' & v & -> & Ha). rewrite bind_Ok. unfold spec_add. eexists _, _. split; [done|]. destruct (admissible _ _).
    + destruct Ha as (z & -> & Hp). by destruct (placed_view _ _ _ _ _ Hp) as [? ->].
    + destruct Ha as [-> ->]. split; [by exists xs|done].
  - destruct (add_file_ok l xs s e p n o H Ho) as (l' & v & -> & Ha). rewrite bind_Ok. unfold spec_add. eexists _, _. split; [done|]. destruct (admissible _ _).
    + destruct Ha as (z & -> & Hp). by destruct (placed_view _ _ _ _ _ Hp) as [? ->].
    + destruct Ha as [-> ->]. split; [by exists xs|done].
  - destruct (find_cases l xs a H) as [(pre & i & post & -> & -> & Hw & Hf)|(-> & Hf)]; rewrite bind_Ok; eexists _, _; (split; [done|]); (split; [by eexists|]); cbn [snd view].
    + rewrite fmap_app, fmap_cons. rewrite fmap_app in Hf. destruct (filter_one _ _ _ _ Hf Hw) as (_ & -> & _). done.
    + destruct (filter_none _ _ Hf) as (_ & -> & _). done.
  - destruct (find_cases l xs a H) as [(pre & i & post & -> & -> & Hw & Hf)|(-> & Hf)]; rewrite bind_Ok.
    + destruct (area_remove_ok l _ i H) as (l' & pre' & post' & Ex & -> & Hl & Hr); [set_solver|]. rewrite bind_Ok. eexists _, _. split; [done|].
      destruct (vinv_nodup _ _ H) as [Hn _]. assert (Hn' := Hn). rewrite Ex in Hn'. apply NoDup_app in Hn as (_ & Hd & _). apply NoDup_app in Hn' as (_ & Hd' & _).
      destruct (split_at _ _ _ _ _ Ex) as [<- <-]; [intros Hi; apply (Hd i Hi); by left|intros Hi; apply (Hd' i Hi); by left|].
      rewrite fmap_app, fmap_cons. rewrite fmap_app in Hf. destruct (filter_one _ _ _ _ Hf Hw) as (-> & _ & ->). split; [|done]. exists (pre ++ post). split; [done|].
      rewrite <- fmap_app. by apply regions_ext.
    + unfold remove. rewrite (bool_decide_true ((None : ptr) = None)), orb_true_r, bind_Ok by done. eexists _, _. split; [done|].
      destruct (filter_none _ _ Hf) as (-> & _ & ->). split; [by exists xs|done].
  - destruct (remove_range_ok s e l xs H) as (l' & xs' & -> & Hl & E). rewrite bind_Ok. eexists _, _. split; [done|]. split; [by exists xs'|done].
  - eexists _, _. split; [done|]. split; [|done]. exists []. split; [by eapply clear_ok|done].
Qed.

Definition blank : VmaList := mkList (replicate MAX_VMAS (fresh_vma 0 0 0 ANONYMOUS)) (replicate MAX_VMAS false) None None 0.

Lemma blank_ok : holds (init blank) [].
Proof. exists []. split; [by apply area_init_ok|done]. Qed.

(** (C6) Every sequence of calls on a list of areas behaves like the same
    sequence on a sorted list of disjoint regions: [add] succeeds exactly when
    the bounds are page aligned and in order, no region overlaps and fewer than
    256 regions exist, lookup returns the one region that contains the address,
    [remove] takes that region out, [remove_range] every region that touches the
    range, and no call reads a null pointer or loops.  The tree stays a red-black
    tree with the nodes of the linked list in the same order. *)
Theorem vma_refines os l rs :
  holds l rs -> Forall op_ok os ->
  exists l' outs, exec_all os l = Ok (l', outs) /\ spec_all os rs = ((spec_all os rs).1, outs) /\ holds l' (spec_all os rs).1.
Proof.
  intros H Ho. revert l rs H. induction Ho as [|o os Ho Hos IH]; intros l rs H; cbn [exec_all spec_all].
  - by exists l, [].
  - destruct (exec_ok o l rs H Ho) as (l1 & x & -> & H1 & Ex). rewrite bind_Ok. destruct (spec o rs) as [rs1 y]. cbn [fst snd] in *. subst y.
    destruct (IH l1 rs1 H1) as (l' & xs & -> & E & H'). rewrite bind_Ok. destruct (spec_all os rs1) as [rs' ys]. injection E as ->. by exists l', (x :: xs).
Qed.

Definition sample_ops : list Op :=
  [OAdd 8192 12288 3 ANONYMOUS; OAdd 4096 8192 1 ANONYMOUS; OAddFile 16384 24576 5 7 4096; OAdd 8192 20480 3 STACK; OFind 9000; ORemove 5000; ORemoveRange 20000 20001; OFind 17000].
Lemma vma_refines_witness :
  exists l' outs, exec_all sample_ops (init blank) = Ok (l', outs) /\ spec_all sample_ops [] = ((spec_all sample_ops []).1, outs) /\ holds l' (spec_all sample_ops []).1.
Proof. apply (vma_refines sample_ops (init blank) []); [apply blank_ok|]. repeat (apply Forall_cons; split; [cbn; first [done|lia]|]). by apply Forall_nil. Defined.

Example sample_runs : (spec_all sample_ops []).2 =
  [OArea (Some (mkRegion 8192 12288 3 ANONYMOUS 0 0 0)); OArea (Some (mkRegion 4096 8192 1 ANONYMOUS 0 0 0)); OArea (Some (mkRegion 16384 24576 5 FILE 0 7 4096));
   OArea None; OArea (Some (mkRegion 8192 12288 3 ANONYMOUS 0 0 0)); OFlag true; ONone; OArea None].
Proof. reflexivity. Qed.

(** ** Marking an area *)

Definition marked (x : Z) (r : Region) : Region :=
  mkRegion (r_start r) (r_end r) (r_prot r) (r_type r) (Z.lor (r_flags r) x) (r_inode r) (r_offset r).

Lemma mark_area_ok l pre i post x :
  vinv l (pre ++ i :: post) ->
  exists l', st (Some i) (mark_area x) l = Ok l' /\ vinv l' (pre ++ i :: post) /\
    region_at l' <$> (pre ++ i :: post) = (region_at l <$> pre) ++ marked x (region_at l i) :: (region_at l <$> post).
Proof.
  intros H. destruct (vinv_nodup _ _ H) as [Hnd Hall]. destruct (Hall i) as [_ [v Hv]]; [apply elem_of_app; right; by left|]. rewrite (st_eq _ _ _ _ Hv). eexists. split; [done|].
  set (l' := set_pool _ _). assert (Hi : region_at l' i = marked x (region_at l i)) by (unfold region_at, l'; cbn [pool_ set_pool]; by rewrite list_lookup_alter_eq, Hv).
  assert (Hj : forall j, j <> i -> region_at l' j = region_at l j) by (intros j Hj; unfold region_at, l'; cbn [pool_ set_pool]; by rewrite list_lookup_alter_ne).
  apply NoDup_app in Hnd as (_ & Hd & [Hd' _]%NoDup_cons).
  assert (E : region_at l' <$> (pre ++ i :: post) = (region_at l <$> pre) ++ marked x (region_at l i) :: (region_at l <$> post)).
  { rewrite fmap_app, fmap_cons, Hi. f_equal; [|f_equal]; apply regions_ext; intros j Hin; apply Hj; [|by intros ->]. intros ->. apply (Hd i Hin). by left. }
  assert (Hlink : forall j, link <$> pool_ l' !! j = link <$> pool_ l !! j).
  { intros j. cbn [pool_ set_pool l']. destruct (decide (i = j)) as [<-|Hne]; [by rewrite list_lookup_alter_eq, Hv|by rewrite list_lookup_alter_ne]. }
  split; [|done]. destruct H as [H1 H2 (T & n & Hz & Hrb & Hin) H4 H5 H6 [H7 H8]]. constructor; try done.
  - cbn [pool_ set_pool l']. by rewrite length_alter.
  - exists T, n. split; [|done]. by eapply zip_link_ext.
  - eapply seg_frame; [|exact H4]. intros j _. cbn [pool_ set_pool l']. destruct (decide (i = j)) as [<-|Hne]; [by rewrite list_lookup_alter_eq, Hv|by rewrite list_lookup_alter_ne].
  - rewrite E. rewrite fmap_app, fmap_cons in H7, H8. split.
    + destruct (ssorted_app _ _ _ H7) as (S1 & S2 & S3). apply StronglySorted_inv in S2 as [S2 S4]. apply StronglySorted_app_2; [| done |].
      * intros y z Hy [-> |Hz']%elem_of_cons; [exact (S3 y _ Hy (list_elem_of_here _ _))|]. apply S3; [done|by right].
      * constructor; [done|]. exact S4.
    + apply Forall_app in H8 as [H8 [H9 H10]%Forall_cons]. apply Forall_app. split; [done|]. by apply Forall_cons.
Qed.
(** ** The cost of a lookup *)

Lemma rb_depth c n t : rb c n t -> (depth t <= 2 * n + match c with RED => 1 | BLACK => 0 end)%nat.
Proof. induction 1; cbn [depth] in *; try lia. all: repeat match goal with c : RBColor |- _ => destruct c end; lia. Qed.

Lemma rb_weight c n t : rb c n t -> (2 ^ n <= S (length (nodes t)))%nat.
Proof. induction 1; cbn [nodes length Nat.pow]; rewrite ?length_app; lia. Qed.

Lemma find_fuel addr l : forall f f' p q, rb_find_loop f addr p l = Ok q -> (f <= f')%nat -> rb_find_loop f' addr p l = Ok q.
Proof.
  induction f as [|f IH]; intros f' p q E Hf; (destruct p as [i|]; [|by destruct f']); [done|]. destruct f' as [|f']; [lia|]. cbn [rb_find_loop] in *.
  destruct (node l (Some i)) as [v| |]; cbn in *; try done. destruct (addr <? start v); [apply IH; [done|lia]|]. destruct (end_ v <=? addr); [apply IH; [done|lia]|done].
Qed.

(** (C27) Finding the area of an address among [n] areas visits at most
    [2 * log2 (n + 1)] nodes, as the comment of the lookup promises: the loop of
    [rb_find] ends within that many rounds with the result that the linear
    search of the regions gives. *)
Theorem find_logarithmic l rs addr :
  holds l rs ->
  exists p, rb_find_loop (2 * Nat.log2 (S (length rs))) addr (root_ l) l = Ok p /\ rb_find addr l = Ok p /\ region_at l <$> p = List.find (within addr) rs.
Proof.
  intros H. destruct (exec_ok (OFind addr) l rs H I) as (l' & x & E & _ & Ex). destruct H as (xs & H & <-). rewrite length_fmap.
  destruct (vi_tree _ _ H) as (T & n & Z & Hrb & Ei).
  assert (Hd : (depth T <= 2 * Nat.log2 (S (length xs)))%nat).
  { assert (Hw := rb_weight _ _ _ Hrb). assert (Hd := rb_depth _ _ _ Hrb). apply Nat.log2_le_mono in Hw. rewrite Nat.log2_pow2 in Hw by lia. rewrite <- Ei, inorder_nodes. cbn in Hd. lia. }
  destruct (find_loop_ok addr l T _ [] Z Hd) as (p & Ep & _); [rewrite Ei; apply ordered_disjoint, H|]. rewrite (z_root _ _ _ Z). cbn [croot].
  exists p. split; [done|]. assert (Ef : rb_find addr l = Ok p).
  { unfold rb_find. rewrite (z_root _ _ _ Z). cbn [croot]. eapply find_fuel; [exact Ep|]. assert (Hle := vinv_length _ _ H). apply Nat.le_trans with (2 * Nat.log2 (S MAX_VMAS))%nat.
    - assert (Nat.log2 (S (length xs)) <= Nat.log2 (S MAX_VMAS))%nat by (apply Nat.log2_le_mono; lia). lia.
    - apply Nat.leb_le. reflexivity. }
  split; [done|]. cbn [exec] in E. unfold find in E. rewrite Ef, bind_Ok in E. injection E as _ <-. cbn [spec snd] in Ex. unfold view in Ex. by injection Ex as ->.
Qed.

Definition one_area : VmaList := match exec (OAdd 8192 12288 3 ANONYMOUS) (init blank) with Ok (l, _) => l | _ => blank end.
Lemma one_area_ok : holds one_area [mkRegion 8192 12288 3 ANONYMOUS 0 0 0].
Proof.
  destruct (exec_ok (OAdd 8192 12288 3 ANONYMOUS) (init blank) [] blank_ok) as (l & x & E & H & _); [cbn; lia|]. unfold one_area. by rewrite E.
Qed.
Lemma find_logarithmic_witness :
  exists p, rb_find_loop 2 9000 (root_ one_area) one_area = Ok p /\ rb_find 9000 one_area = Ok p /\
    region_at one_area <$> p = Some (mkRegion 8192 12288 3 ANONYMOUS 0 0 0).
Proof. apply (find_logarithmic one_area [mkRegion 8192 12288 3 ANONYMOUS 0 0 0] 9000). apply one_area_ok. Defined.

End VmaRefine.
