(* ===== verification/Fault.v ===== *)
(** * Page faults

    Models [handle_demand_fault] of [src/kernel/mm/vma.cpp] and
    [src/kernel/mm/fault.cpp]: decoding the syndrome of a fault, demand paging
    with stack growth and prefaulting, copy on write, swapping in, and what the
    handler decides.  Reading a page of a file from ViperFS is the parameter
    [read_file] (the inode and the offset give the result of [read_data] and the
    page it leaves, or nothing when there is no such inode).  Locks and console
    output are dropped. *)

From S2P Require Import Prelude Buddy Bitmap Frames Cow Swap AddressSpace World Vma.

Module Fault.
Import Buddy(PAGE_SIZE).
Import Frames AddressSpace World.
#[export] Existing Instance Vma.VmaType_eq_dec.

(** ** Syndromes *)

Inductive FaultType := ADDRESS_SIZE | TRANSLATION | ACCESS_FLAG | PERMISSION | EXTERNAL | PARITY | ALIGNMENT | TLB_CONFLICT | UNKNOWN.
#[export] Instance FaultType_eq_dec : EqDecision FaultType.
Proof. solve_decision. Defined.

Definition fault_status (esr : Z) : Z := u32 (Z.land esr 0x3F).
Definition is_write_esr (esr : Z) : bool := negb (Z.land esr (Z.shiftl 1 6) =? 0).
Definition far_not_valid (esr : Z) : bool := negb (Z.land esr (Z.shiftl 1 10) =? 0).
Definition exception_class (esr : Z) : Z := u32 (Z.land (Z.shiftr esr 26) 0x3F).
Definition fault_level (fsc : Z) : Z := if Z.land (Z.shiftr fsc 2) 0xF <=? 3 then Z.land fsc 0x3 else -1.

Definition classify_fault (fsc : Z) : FaultType :=
  match Z.land (Z.shiftr fsc 2) 0xF with
  | 0 => ADDRESS_SIZE
  | 1 => TRANSLATION
  | 2 => ACCESS_FLAG
  | 3 => PERMISSION
  | _ =>
      if (0x10 <=? fsc) && (fsc <=? 0x15) then EXTERNAL
      else if (0x18 <=? fsc) && (fsc <=? 0x1D) then PARITY
      else if fsc =? 0x21 then ALIGNMENT
      else if fsc =? 0x30 then TLB_CONFLICT
      else UNKNOWN
  end.

Record FaultInfo := mkInfo {
  fault_addr : Z; pc : Z; esr : Z; is_instruction_fault : bool; is_user : bool; ftype : FaultType; level : Z; is_write : bool
}.

Definition parse_fault (far esr elr : Z) (is_instruction user : bool) : FaultInfo :=
  let fsc := fault_status esr in
  mkInfo far elr esr is_instruction user (classify_fault fsc) (fault_level fsc) (negb is_instruction && is_write_esr esr).

(** ** Demand paging *)

Inductive FaultResult := HANDLED | UNHANDLED | STACK_GROW | ERROR.
#[export] Instance FaultResult_eq_dec : EqDecision FaultResult.
Proof. solve_decision. Defined.

Definition ALIGN_MASK : Z := u64 (Z.lnot (PAGE_SIZE - 1)).
Definition MAX_STACK_GROW : Z := 16 * PAGE_SIZE.
Definition MIN_STACK_ADDRESS : Z := 0x1000.
Definition PREFAULT_PAGES : Z := 4.

Section Demand.
Context {F : Type} {frames : FrameAllocator F}.
Context (map_callback : Z -> Z -> Z -> Phys F -> res (Phys F * bool)).
Context (read_file : Z -> Z -> option (Z * list Z)).
Implicit Type s : Phys F.

(** A zeroed frame mapped at [addr]; the frame goes back when mapping fails. *)
Inductive Fresh := Mapped | NoFrame | NotMapped.
Definition map_zeroed (addr prot : Z) s : res (Phys F * Fresh) :=
  '(s, phys) ← new_page s;
  if phys =? 0 then Ok (s, NoFrame)
  else
    s ← zero_page phys s;
    '(s, ok) ← map_callback addr phys prot s;
    if (ok : bool) then Ok (s, Mapped) else s ← drop_page phys s; Ok (s, NotMapped).

Fixpoint grow_pages (addrs : list Z) (prot : Z) s : res (Phys F * FaultResult) :=
  match addrs with
  | [] => Ok (s, STACK_GROW)
  | addr :: addrs =>
      '(s, r) ← map_zeroed addr prot s;
      match r with Mapped => grow_pages addrs prot s | _ => Ok (s, ERROR) end
  end.

(** The search for a stack that may grow to the fault: the first stack area
    with the address below it in reach. *)
Fixpoint find_stack (fuel : nat) (addr : Z) (v : Vma.ptr) (l : Vma.VmaList) : res (option Vma.Vma * Vma.ptr) :=
  match v with
  | None => Ok (None, None)
  | Some _ =>
      match fuel with
      | O => Diverge
      | S fuel =>
          a ← Vma.node l v;
          if bool_decide (Vma.type a = Vma.STACK) && (u64 (Vma.start a - MAX_STACK_GROW) <=? addr) && (addr <? Vma.start a)
          then Ok (Some a, v)
          else find_stack fuel addr (Vma.next a) l
      end
  end.

Definition stack_fault (l : Vma.VmaList) (addr : Z) s : res (Vma.VmaList * Phys F * FaultResult) :=
  '(a, v) ← find_stack Vma.FUEL addr (Vma.head_ l) l;
  match a with
  | None => Ok (l, s, UNHANDLED)
  | Some a =>
      let new_start := Z.land addr ALIGN_MASK in
      if new_start <? MIN_STACK_ADDRESS then Ok (l, s, UNHANDLED)
      else if Vma.MAX_STACK_SIZE <? u64 (Vma.end_ a - new_start) then Ok (l, s, UNHANDLED)
      else
        let old_start := Vma.start a in
        l ← Vma.st v (Vma.set_start new_start) l;
        '(s, r) ← grow_pages ((fun i => new_start + i * PAGE_SIZE) <$> seqZ 0 ((old_start - new_start + (PAGE_SIZE - 1)) / PAGE_SIZE)) (Vma.prot a) s;
        Ok (l, s, r)
  end.

(** The contents of the page: zeros, or what the file has at that offset. *)
Definition fill (a : Vma.Vma) (page_addr phys : Z) s : res (Phys F) :=
  match Vma.type a with
  | Vma.FILE =>
      s ← zero_page phys s;
      if Vma.file_inode a =? 0 then Ok s
      else
        match read_file (Vma.file_inode a) (u64 (Vma.file_offset a + u64 (page_addr - Vma.start a))) with
        | None => Ok s
        | Some (bytes_read, page) =>
            match ram s !! phys with
            | None => Ub
            | Some _ => if 0 <=? bytes_read then Ok (set_ram (<[phys := page]> (ram s)) s) else zero_page phys s
            end
        end
  | _ => zero_page phys s
  end.

Fixpoint prefault (is_ : list Z) (page_addr vma_end prot : Z) s : res (Phys F) :=
  match is_ with
  | [] => Ok s
  | i :: is_ =>
      let addr := u64 (page_addr + u64 (i * PAGE_SIZE)) in
      if vma_end <=? addr then Ok s
      else
        '(s, r) ← map_zeroed addr prot s;
        match r with Mapped => prefault is_ page_addr vma_end prot s | _ => Ok s end
  end.

Definition handle_demand_fault (l : Vma.VmaList) (addr : Z) (write : bool) s : res (Vma.VmaList * Phys F * FaultResult) :=
  let page_addr := Z.land addr ALIGN_MASK in
  v ← Vma.find_locked addr l;
  match v with
  | None => stack_fault l addr s
  | Some _ =>
      a ← Vma.node l v;
      if bool_decide (Vma.type a = Vma.GUARD) then Ok (l, s, UNHANDLED)
      else if write && (Z.land (Vma.prot a) Vma.PROT_WRITE =? 0) then Ok (l, s, UNHANDLED)
      else
        '(s, phys) ← new_page s;
        if phys =? 0 then Ok (l, s, ERROR)
        else
          s ← fill a page_addr phys s;
          '(s, ok) ← map_callback page_addr phys (Vma.prot a) s;
          if negb (ok : bool) then s ← drop_page phys s; Ok (l, s, ERROR)
          else if bool_decide (Vma.type a = Vma.ANONYMOUS) then
            v ← Vma.find_locked page_addr l;
            match v with
            | None => Ok (l, s, HANDLED)
            | Some _ =>
                a ← Vma.node l v;
                if bool_decide (Vma.type a = Vma.ANONYMOUS) then
                  s ← prefault (seqZ 1 PREFAULT_PAGES) page_addr (Vma.end_ a) (Vma.prot a) s; Ok (l, s, HANDLED)
                else Ok (l, s, HANDLED)
            end
          else Ok (l, s, HANDLED)
  end.

End Demand.

(** ** The handlers of [fault.cpp] *)

Definition COW : Z := Z.shiftl 1 0.

(** [vma_prot] flags as [viper::prot] flags. *)
Definition as_prot (prot : Z) : Z :=
  let p := 0 in
  let p := if negb (Z.land prot Vma.PROT_READ =? 0) then Z.lor p READ else p in
  let p := if negb (Z.land prot Vma.PROT_WRITE =? 0) then Z.lor p WRITE else p in
  if negb (Z.land prot Vma.PROT_EXEC =? 0) then Z.lor p EXEC else p.

(** What the handler uses of a process. *)
Record Proc := mkProc { vma_list : Vma.VmaList; aspace : option AddressSpace }.
Definition set_list l p := mkProc l (aspace p).

Section Handlers.
Context {F : Type} {frames : FrameAllocator F} {D : Type} {dev : Swap.SectorDevice D}.
Context (read_file : Z -> Z -> option (Z * list Z)).
Implicit Type w : World F D.

Definition demand_map_fn (a : option AddressSpace) (virt phys prot : Z) (s : Phys F) : res (Phys F * bool) :=
  match a with None => Ok (s, false) | Some a => map a virt phys 4096 (as_prot prot) s end.

Definition handle_cow_fault (p : Proc) (addr : Z) w : res (World F D * FaultResult) :=
  let page_addr := Z.land addr (u64 (Z.lnot 0xFFF)) in
  v ← Vma.find_locked addr (vma_list p);
  match v with
  | None => Ok (w, UNHANDLED)
  | Some _ =>
      a ← Vma.node (vma_list p) v;
      if Z.land (Vma.prot a) Vma.PROT_WRITE =? 0 then Ok (w, UNHANDLED)
      else if Z.land (Vma.flags a) COW =? 0 then Ok (w, UNHANDLED)
      else
        match aspace p with
        | None => Ok (w, ERROR)
        | Some as_ =>
            old_phys ← translate as_ page_addr (phys w);
            if old_phys =? 0 then Ok (w, UNHANDLED)
            else
              refcount ← Cow.get_ref old_phys (cow w);
              if refcount <=? 1 then
                w ← on_phys_ (unmap as_ page_addr 4096) w;
                '(w, ok) ← on_phys (map as_ page_addr old_phys 4096 (as_prot (Vma.prot a))) w;
                if negb (ok : bool) then Ok (w, ERROR)
                else w ← on_cow_ (Cow.clear_cow old_phys) w; Ok (w, HANDLED)
              else
                '(w, new_phys) ← on_phys new_page w;
                if new_phys =? 0 then Ok (w, ERROR)
                else
                  w ← on_phys_ (copy_page new_phys old_phys) w;
                  w ← on_phys_ (unmap as_ page_addr 4096) w;
                  '(w, ok) ← on_phys (map as_ page_addr new_phys 4096 (as_prot (Vma.prot a))) w;
                  if negb (ok : bool) then w ← on_phys_ (drop_page new_phys) w; Ok (w, ERROR)
                  else
                    '(c, last) ← Cow.dec_ref old_phys (cow w);
                    let w := set_cow c w in
                    w ← (if (last : bool) then on_phys_ (drop_page old_phys) w else Ok w);
                    w ← on_cow_ (Cow.inc_ref new_phys) w;
                    Ok (w, HANDLED)
        end
  end.

Definition try_swap_in (p : Proc) (info : FaultInfo) w : res (World F D * bool) :=
  if negb (Swap.is_available (swp w)) then Ok (w, false)
  else
    match aspace p with
    | None => Ok (w, false)
    | Some as_ =>
        let page_addr := Z.land (fault_addr info) (u64 (Z.lnot 0xFFF)) in
        pte_value ← read_pte as_ page_addr (phys w);
        if negb (Swap.is_swap_entry pte_value) then Ok (w, false)
        else
          '(w, new_phys) ← on_phys new_page w;
          if new_phys =? 0 then Ok (w, false)
          else
            '(x, s, ok) ← Swap.swap_in pte_value new_phys (swp w) (phys w);
            let w := set_swp x (set_phys s w) in
            if negb (ok : bool) then w ← on_phys_ (drop_page new_phys) w; Ok (w, false)
            else
              v ← Vma.find_locked (fault_addr info) (vma_list p);
              prot ← match v with
                     | None => Ok (Z.lor Vma.PROT_READ Vma.PROT_WRITE)
                     | Some _ => Vma.ld (vma_list p) Vma.prot v
                     end;
              '(w, ok) ← on_phys (map as_ page_addr new_phys 4096 (as_prot prot)) w;
              if negb (ok : bool) then w ← on_phys_ (drop_page new_phys) w; Ok (w, false)
              else Ok (w, true)
    end.

Definition try_demand_paging (p : Proc) (info : FaultInfo) w : res (Proc * World F D * bool) :=
  match aspace p with
  | None => Ok (p, w, false)
  | Some _ =>
      '(w, ok) ← try_swap_in p info w;
      if (ok : bool) then Ok (p, w, true)
      else
        '(l, s, r) ← handle_demand_fault (demand_map_fn (aspace p)) read_file (vma_list p) (fault_addr info) (is_write info) (phys w);
        Ok (set_list l p, set_phys s w, bool_decide (r = HANDLED) || bool_decide (r = STACK_GROW))
  end.

Definition try_cow_handling (p : Proc) (info : FaultInfo) w : res (World F D * bool) :=
  '(w, r) ← handle_cow_fault p (fault_addr info) w;
  Ok (w, bool_decide (r = HANDLED) || bool_decide (r = STACK_GROW)).

(** How the handler ends: the instruction is retried, the process gets a signal,
    or the kernel stops. *)
Inductive Verdict := Resume | Sigsegv | Panic.

Definition handle_page_fault (spsr far esr elr : Z) (is_instruction : bool) (current : option Proc) w : res (option Proc * World F D * Verdict) :=
  let user := Z.land spsr 0xF =? 0 in
  let info := parse_fault far esr elr is_instruction user in
  if negb user then Ok (current, w, Panic)
  else
    match current with
    | None => Ok (current, w, Sigsegv)
    | Some p =>
        '(p, w, ok) ← (if bool_decide (ftype info = TRANSLATION) then try_demand_paging p info w else Ok (p, w, false));
        if (ok : bool) then Ok (Some p, w, Resume)
        else
          '(w, ok) ← (if bool_decide (ftype info = PERMISSION) && is_write info then try_cow_handling p info w else Ok (w, false));
          Ok (Some p, w, if (ok : bool) then Resume else Sigsegv)
    end.

End Handlers.
End Fault.
