(* ===== verification/FaultSpec.v ===== *)
(** * Page faults give the process what its areas promise

    A fault in an area maps fresh frames with the protection of the area and the
    right contents at the page of the address and, in an anonymous area, at the
    pages prefaulted after it, also where these are mapped already; it leaves all
    other pages and frames alone and fails only when frames run out. *)

From Stdlib Require Import Sorted.
From S2P Require Import Prelude Buddy Bitmap Frames Cow Swap AddressSpace AddressSpaceSpec World Vma VmaTree VmaOps VmaSpec VmaRefine Fault.

Module FaultSpec.
Import Buddy(PAGE_SIZE).
Import Frames AddressSpace AddressSpaceSpec World Fault.

Section Demand.
Context {F : Type} {frames : FrameAllocator F} {laws : FrameLaws F}.
Implicit Type s : Phys F.

(** The frames [ns] were taken out of the allocator for data; other frames that
    left it are tables of the address space; nothing else has changed. *)
Record taken s s' (root : Z) (ns : list Z) : Prop := {
  tk_owns : forall p, fr_owns (pm s') p <-> fr_owns (pm s) p;
  tk_free : exists ts, fr_free (pm s) ≡ₚ ns ++ ts ++ fr_free (pm s') /\
    forall n, n ∈ ts -> exists p, user p /\ reach (ram s') root p = Some (n * PAGE_SIZE);
  tk_old : forall p b, user p -> reach (ram s) root p = Some b -> reach (ram s') root p = Some b;
  tk_new : forall p b, user p -> reach (ram s') root p = Some b -> reach (ram s) root p = Some b \/ b / PAGE_SIZE ∈ fr_free (pm s) /\ (b / PAGE_SIZE ∉ ns);
  tk_keep : forall q, (forall p, user p -> reach (ram s) root p <> Some q) -> q / PAGE_SIZE ∉ fr_free (pm s) -> ram s' !! q = ram s !! q
}.

Lemma tk_shrinks s s' root ns p : taken s s' root ns -> p ∈ fr_free (pm s') -> p ∈ fr_free (pm s).
Proof. intros H Hp. destruct (tk_free _ _ _ _ H) as (ts & -> & _). rewrite !elem_of_app. tauto. Qed.

Lemma grown_taken s s' root : grown s s' root -> taken s s' root [].
Proof.
  intros [G1 G2 G3 G4 G5]. constructor; try done. intros p b Hu Hr. destruct (G4 p b Hu Hr) as [?|?]; [by left|right]. split; [done|apply not_elem_of_nil].
Qed.

Lemma taken_trans s1 s2 s3 root ns ns' :
  fr_inv (pm s1) -> ptinv s2 root -> taken s1 s2 root ns -> taken s2 s3 root ns' -> taken s1 s3 root (ns ++ ns').
Proof.
  intros Hf H2 A B. assert (Hnd := fr_nodup _ Hf). constructor.
  - intros p. by rewrite (tk_owns _ _ _ _ B), (tk_owns _ _ _ _ A).
  - destruct (tk_free _ _ _ _ A) as (ts & En & Hn), (tk_free _ _ _ _ B) as (ts' & En' & Hn'). exists (ts ++ ts'). split; [rewrite En, En'; solve_Permutation|].
    intros n [Hin|Hin]%elem_of_app; [|by apply Hn']. destruct (Hn n Hin) as (p & Hp & Hr). exists p. split; [done|]. by apply (tk_old _ _ _ _ B).
  - intros p b Hu Hr. by apply (tk_old _ _ _ _ B), (tk_old _ _ _ _ A).
  - intros p b Hu Hr. destruct (tk_new _ _ _ _ B p b Hu Hr) as [Hr'|[Hf' Hn']].
    + destruct (tk_new _ _ _ _ A p b Hu Hr') as [?|[Hf1 Hn1]]; [by left|right]. split; [done|]. rewrite elem_of_app. intros [?|Hin]; [done|].
      destruct (pt_tables _ _ H2 p b Hu Hr') as (_ & _ & Hnf). apply Hnf. destruct (tk_free _ _ _ _ B) as (ts' & -> & _). rewrite !elem_of_app. by left.
    + right. split; [by eapply tk_shrinks|]. rewrite elem_of_app. intros [Hin|?]; [|done].
      destruct (tk_free _ _ _ _ A) as (ts & En & _). rewrite En in Hnd. apply NoDup_app in Hnd as (_ & Hd & _). apply (Hd _ Hin). rewrite elem_of_app. by right.
  - intros q Hq Hqf. rewrite (tk_keep _ _ _ _ B), (tk_keep _ _ _ _ A); try done.
    + intros p Hu Hr. destruct (tk_new _ _ _ _ A p q Hu Hr) as [Hr'|[Hf' _]]; [by apply (Hq p)|done].
    + intros Hin. by apply Hqf, (tk_shrinks _ _ _ _ _ A).
Qed.

(** A frame taken for data is neither free nor a table afterwards, and keeps its
    contents. *)
Lemma data_frame s s' root ns n :
  fr_inv (pm s) -> ptinv s root -> taken s s' root ns -> n ∈ ns -> (n ∉ fr_free (pm s')) /\ (forall p, user p -> reach (ram s') root p <> Some (n * PAGE_SIZE)).
Proof.
  intros Hf H T Hn. assert (Hdiv : n * PAGE_SIZE / PAGE_SIZE = n) by (unfold PAGE_SIZE; by rewrite Z.div_mul). assert (Hnd := fr_nodup _ Hf). destruct (tk_free _ _ _ _ T) as (ts & En & Hts). split.
  - rewrite En in Hnd. apply NoDup_app in Hnd as (_ & Hd & _). intros Hin. apply (Hd n Hn). rewrite elem_of_app. by right.
  - intros p Hu Hr. destruct (tk_new _ _ _ _ T p _ Hu Hr) as [Hr'|[_ Hnn]]; [|by rewrite Hdiv in Hnn].
    destruct (pt_tables _ _ H p _ Hu Hr') as (_ & _ & Hnf). rewrite Hdiv in Hnf. apply Hnf. rewrite En, elem_of_app. by left.
Qed.

Lemma data_kept s1 s2 s3 root ns ns' n :
  fr_inv (pm s1) -> ptinv s1 root -> taken s1 s2 root ns -> taken s2 s3 root ns' -> n ∈ ns -> ram s3 !! (n * PAGE_SIZE) = ram s2 !! (n * PAGE_SIZE).
Proof.
  intros Hf H A B Hn. destruct (data_frame _ _ _ _ n Hf H A Hn) as [Hnf Hnt]. apply (tk_keep _ _ _ _ B); [done|]. unfold PAGE_SIZE. by rewrite Z.div_mul.
Qed.

(** No frame could be had: the allocator had none, or it had one for the page
    but none for a page table on the way, and that one went back. *)
Definition out_of_frames s s' (root : Z) : Prop :=
  s' = s /\ exhausted s \/ exists s1 n, taken s s1 root [n] /\ exhausted s1 /\ drop_page (n * PAGE_SIZE) s1 = Ok s'.

(** ** Taking and returning a frame *)

Lemma taken_refl s root : taken s s root [].
Proof. apply grown_taken, grown_refl. Qed.

(** A new frame, filled with [ws], leaves the tables as they are. *)
Lemma new_frame_ok s root T :
  AddressSpaceSpec.holds s root T ->
  exists s1 a, new_page s = Ok (s1, a) /\
    (a = 0 /\ s1 = s /\ exhausted s \/
     exists n, a = n * PAGE_SIZE /\ a <> 0 /\ n ∈ fr_free (pm s) /\ ram s1 = ram s /\ (exists old, ram s1 !! a = Some old) /\
       forall ws, length ws = WORDS -> AddressSpaceSpec.holds (set_ram (<[a := ws]> (ram s1)) s1) root T /\ taken s (set_ram (<[a := ws]> (ram s1)) s1) root [n]).
Proof.
  intros [H HT]. assert (Hf := pt_frames _ _ H). unfold new_page. destruct (fr_alloc _ Hf) as (f & a & Ea & Hf' & Ho & Ha). rewrite Ea, bind_Ok. eexists _, a. split; [done|].
  destruct (Z.eqb_spec a 0) as [->|Hnz]; [left; split; [done|]; subst f; split; [by destruct s|exact Ea]|right]. destruct Ha as [Ham Hp].
  set (n := a / PAGE_SIZE) in *. assert (En : a = n * PAGE_SIZE) by (unfold n, PAGE_SIZE in *; div_lia). clearbody n. subst a. exists n. split; [done|]. split; [done|].
  assert (Hn : n ∈ fr_free (pm s)) by (rewrite Hp; by left). assert (Hno := fr_range _ _ Hf Hn). assert (Hdiv : n * PAGE_SIZE / PAGE_SIZE = n) by (unfold PAGE_SIZE; by rewrite Z.div_mul).
  destruct (pt_mem _ _ H n Hno) as (old & Hold & _). split; [done|]. split; [done|]. split; [by exists old|]. intros ws Hws. set (s2 := set_ram _ _).
  assert (Hnt : forall q, user q -> reach (ram s) root q <> Some (n * PAGE_SIZE)) by (intros q Hq Hc; destruct (pt_tables _ _ H _ _ Hq Hc) as (_ & _ & Hnf); by rewrite Hdiv in Hnf).
  assert (R : forall q, user q -> reach (ram s2) root q = reach (ram s) root q) by (by apply reach_other). assert (Hnd := fr_nodup _ Hf). rewrite Hp in Hnd. apply NoDup_cons in Hnd as [Hnf _].
  split; [split; [constructor|]|constructor]; cbn [pm s2 set_ram set_pm].
  - done.
  - intros p Hpo. apply Ho in Hpo. destruct (pt_mem _ _ H p Hpo) as (w' & Hw' & Hl'). cbn [ram s2 set_ram set_pm]. destruct (decide (n * PAGE_SIZE = p * PAGE_SIZE)) as [E|Hne]; [rewrite E, lookup_insert_eq; eauto|rewrite lookup_insert_ne by done; eauto].
  - intros q b Hq. rewrite R by done. intros Hr. destruct (pt_tables _ _ H _ _ Hq Hr) as (? & ? & Hbf). rewrite Ho. split; [done|]. split; [done|]. intros Hin. apply Hbf. rewrite Hp. by right.
  - intros p q b Hu Hq. rewrite !R by done. by apply (pt_inj _ _ H).
  - intros va Hu. rewrite <- HT by done. unfold pte. rewrite R by done. destruct (reach (ram s) root (vpath va)) as [c|] eqn:Ec; [|done]. cbn [ram s2 set_ram set_pm].
    rewrite lookup_insert_ne; [done|]. intros E. rewrite <- E in Ec. by apply (Hnt (vpath va)).
  - done.
  - exists []. split; [done|]. by intros ? ?%not_elem_of_nil.
  - intros p b Hu. by rewrite R.
  - intros p b Hu. rewrite R by done. by left.
  - intros q Hq Hqf. cbn [ram s2 set_ram set_pm]. rewrite lookup_insert_ne; [done|]. intros <-. by rewrite Hdiv in Hqf.
Qed.

(** Returning a data frame. *)
Lemma drop_frame_ok s s' root T n :
  AddressSpaceSpec.holds s root T -> AddressSpaceSpec.holds s' root T -> taken s s' root [n] ->
  exists s2, drop_page (n * PAGE_SIZE) s' = Ok s2 /\ AddressSpaceSpec.holds s2 root T /\ grown s s2 root.
Proof.
  intros [H HT] [H' HT'] Tk. assert (Hf := pt_frames _ _ H). assert (Hdiv : n * PAGE_SIZE / PAGE_SIZE = n) by (unfold PAGE_SIZE; by rewrite Z.div_mul).
  destruct (data_frame _ _ _ _ n Hf H Tk (list_elem_of_here _ _)) as [Hnf Hnt]. destruct (tk_free _ _ _ _ Tk) as (ts & En & Hts).
  assert (Hn : n ∈ fr_free (pm s)) by (rewrite En; by left). assert (Hno := fr_range _ _ Hf Hn). apply (tk_owns _ _ _ _ Tk) in Hno.
  destruct (fr_release _ n (pt_frames _ _ H') Hno Hnf) as (f & E & Hf2 & Ho & Hp). unfold drop_page. rewrite E, bind_Ok. eexists. split; [done|].
  split; [split; [constructor|]|constructor]; cbn [pm ram set_pm].
  - done.
  - intros p Hpo. apply Ho in Hpo. by apply (pt_mem _ _ H').
  - intros q b Hq Hr. destruct (pt_tables _ _ H' _ _ Hq Hr) as (Hb & Hbo & Hbf). rewrite Ho. split; [done|]. split; [done|]. rewrite Hp. intros [E'|?]%elem_of_cons; [|done].
    apply (Hnt q Hq). rewrite Hr. f_equal. rewrite <- E'. unfold PAGE_SIZE in *. div_lia.
  - apply (pt_inj _ _ H').
  - done.
  - intros p. rewrite Ho. apply (tk_owns _ _ _ _ Tk).
  - exists ts. split; [rewrite En, Hp; solve_Permutation|done].
  - intros p b Hu Hr. by apply (tk_old _ _ _ _ Tk).
  - intros p b Hu Hr. destruct (tk_new _ _ _ _ Tk p b Hu Hr) as [?|[? _]]; [by left|by right].
  - apply (tk_keep _ _ _ _ Tk).
Qed.
(** ** Mapping fresh frames *)

Context (a : AddressSpace) (root_ok : root_ a <> 0) (read_file : Z -> Z -> option (Z * list Z)).
Abbreviation root := (root_ a).
Abbreviation callback := (demand_map_fn (Some a)).

(** Addresses of user pages. *)
Definition user_page (va : Z) : Prop := 0 <= va < 2 ^ 64 /\ user_va va.

Lemma demand_map_ok s T va n prot :
  AddressSpaceSpec.holds s root T -> user_page va -> 0 <= n < 2 ^ 36 ->
  exists s' ok, callback va (n * PAGE_SIZE) prot s = Ok (s', ok) /\ grown s s' root /\ (ok = false -> exhausted s') /\
    AddressSpaceSpec.holds s' root (if (ok : bool) then <[vpn va := page_entry (n * PAGE_SIZE) (as_prot prot)]> T else T).
Proof.
  intros H [Hva Hu] Hn. cbn [demand_map_fn]. unfold map. destruct (Z.eqb_spec root 0); [done|]. change (seqZ 0 (page_count 4096)) with [0]. cbn [map_loop].
  change (u64 (0 * 4096)) with 0. rewrite !Z.add_0_r. change (2 ^ 64) with 18446744073709551616 in Hva. change (2 ^ 36) with 68719476736 in Hn. rewrite !u64_small by (unfold PAGE_SIZE; lia).
  apply user_vpath in Hu. destruct (write_holds s root T va (page_entry (n * PAGE_SIZE) (as_prot prot)) H Hu) as (s' & ok & -> & H' & G & X). rewrite bind_Ok.
  exists s', ok. split; [by destruct ok|]. done.
Qed.

Definition zeros : list Z := replicate WORDS 0.

Lemma zero_page_eq s t old : ram s !! t = Some old -> zero_page t s = Ok (set_ram (<[t := zeros]> (ram s)) s).
Proof. intros E. unfold zero_page. by rewrite E. Qed.

Lemma frame_small s n : fr_inv (pm s) -> n ∈ fr_free (pm s) -> 0 <= n < 2 ^ 36.
Proof. intros Hf Hn. assert (H := fr_bounds _ _ Hf (fr_range _ _ Hf Hn)). lia. Qed.

(** What mapping a filled frame [n] achieves. *)
Lemma map_new_frame s s2 T va n prot :
  AddressSpaceSpec.holds s root T -> AddressSpaceSpec.holds s2 root T -> taken s s2 root [n] -> user_page va ->
  exists s3 ok, callback va (n * PAGE_SIZE) prot s2 = Ok (s3, ok) /\
    if (ok : bool)
    then AddressSpaceSpec.holds s3 root (<[vpn va := page_entry (n * PAGE_SIZE) (as_prot prot)]> T) /\ taken s s3 root [n] /\ ram s3 !! (n * PAGE_SIZE) = ram s2 !! (n * PAGE_SIZE)
    else exists s4, drop_page (n * PAGE_SIZE) s3 = Ok s4 /\ AddressSpaceSpec.holds s4 root T /\ grown s s4 root /\ out_of_frames s s4 root.
Proof.
  intros H H2 Tk Hva. assert (Hf := pt_frames _ _ (ho_inv _ _ _ H)). assert (Hn : n ∈ fr_free (pm s)) by (destruct (tk_free _ _ _ _ Tk) as (ts & -> & _); by left).
  destruct (demand_map_ok s2 T va n prot H2 Hva (frame_small _ _ Hf Hn)) as (s3 & ok & E & G & X & H3). exists s3, ok. split; [done|].
  assert (Tk3 : taken s s3 root [n]) by (apply (taken_trans s s2 s3 root [n] []); [done|apply H2|done|by apply grown_taken]). destruct ok.
  - split; [done|]. split; [done|]. eapply (data_kept s s2 s3); [done|apply H|done|by apply grown_taken|by left].
  - destruct (drop_frame_ok s s3 root T n H H3 Tk3) as (s4 & E4 & H4 & G4). exists s4. split_and!; [done..|]. right. exists s3, n. by split_and!; [|apply X|].
Qed.

Lemma map_zeroed_ok s T va prot :
  AddressSpaceSpec.holds s root T -> user_page va ->
  exists s' r, map_zeroed callback va prot s = Ok (s', r) /\
    match r with
    | Mapped => exists n, AddressSpaceSpec.holds s' root (<[vpn va := page_entry (n * PAGE_SIZE) (as_prot prot)]> T) /\ taken s s' root [n] /\ ram s' !! (n * PAGE_SIZE) = Some zeros
    | _ => AddressSpaceSpec.holds s' root T /\ grown s s' root /\ out_of_frames s s' root
    end.
Proof.
  intros H Hva. unfold map_zeroed. destruct (new_frame_ok s root T H) as (s1 & p & -> & Hp). rewrite bind_Ok. destruct Hp as [(-> & -> & X)|(n & -> & Hnz & Hn & Em & (old & Hold) & Hfill)].
  - exists s, NoFrame. split; [done|]. split; [done|]. split; [apply grown_refl|by left].
  - destruct (Z.eqb_spec (n * PAGE_SIZE) 0); [done|]. rewrite (zero_page_eq _ _ _ Hold), bind_Ok. destruct (Hfill zeros) as [H2 Tk2]; [done|].
    destruct (map_new_frame s _ T va n prot H H2 Tk2 Hva) as (s3 & ok & -> & Hok). rewrite bind_Ok. destruct ok.
    + exists s3, Mapped. split; [done|]. exists n. destruct Hok as (? & ? & E). split; [done|]. split; [done|]. rewrite E. cbn [ram set_ram]. by rewrite lookup_insert_eq.
    + destruct Hok as (s4 & -> & H4 & G4 & X4). rewrite bind_Ok. by exists s4, NotMapped.
Qed.

(** The frames [ns] mapped one after the other from [va] on. *)
Fixpoint fresh_map (va prot : Z) (ns : list Z) (T : gmap Z Z) : gmap Z Z :=
  match ns with [] => T | n :: ns => fresh_map (va + PAGE_SIZE) prot ns (<[vpn va := page_entry (n * PAGE_SIZE) (as_prot prot)]> T) end.

(** Prefaulting went on until [done] unless frames ran out on the way. *)
Definition stopped s s' (root : Z) (done : Prop) (ns : list Z) : Prop :=
  done \/ exists s1, taken s s1 root ns /\ out_of_frames s1 s' root.

Lemma prefault_ok va vend prot k : forall i s T,
  AddressSpaceSpec.holds s root T -> 0 <= va -> 0 <= i -> va + (i + Z.of_nat k) * PAGE_SIZE < 2 ^ 64 -> (forall j, 0 <= j -> va + j * PAGE_SIZE < vend -> user_page (va + j * PAGE_SIZE)) ->
  exists s' ns, prefault callback (seqZ i (Z.of_nat k)) va vend prot s = Ok s' /\ (length ns <= k)%nat /\ (ns = [] \/ va + (i + Z.of_nat (length ns) - 1) * PAGE_SIZE < vend) /\ stopped s s' root (length ns = k \/ vend <= va + (i + Z.of_nat (length ns)) * PAGE_SIZE) ns /\
    AddressSpaceSpec.holds s' root (fresh_map (va + i * PAGE_SIZE) prot ns T) /\ taken s s' root ns /\ (forall n, n ∈ ns -> ram s' !! (n * PAGE_SIZE) = Some zeros).
Proof.
  induction k as [|k IH]; intros i s T H Hva Hi Hb Hu.
  - exists s, []. rewrite seqZ_nil by lia. split; [done|]. split; [done|]. split; [by left|]. split; [by left; left|]. split; [done|]. split; [apply taken_refl|by intros n ?%not_elem_of_nil].
  - rewrite Nat2Z.inj_succ, seqZ_cons, Z.pred_succ by lia. cbn [prefault]. change (2 ^ 64) with 18446744073709551616 in Hb. unfold PAGE_SIZE in Hb.
    replace (u64 (va + u64 (i * PAGE_SIZE))) with (va + i * PAGE_SIZE) by (unfold PAGE_SIZE; rewrite (u64_small (i * 4096)), u64_small; lia).
    destruct (Z.leb_spec vend (va + i * PAGE_SIZE)) as [Hle|Hlt].
    + exists s, []. split; [done|]. split; [cbn; lia|]. split; [by left|]. split; [left; right; cbn; lia|]. split; [done|]. split; [apply taken_refl|by intros n ?%not_elem_of_nil].
    + destruct (map_zeroed_ok s T (va + i * PAGE_SIZE) prot H (Hu i Hi Hlt)) as (s1 & r & -> & Hr). rewrite bind_Ok. assert (Hf := pt_frames _ _ (ho_inv _ _ _ H)). destruct r.
      2,3: exists s1, []; destruct Hr as (H1 & G1 & X1); split; [done|]; split; [cbn; lia|]; split; [by left|]; split; [right; exists s; split; [apply taken_refl|done]|]; split; [done|]; split; [by apply grown_taken|by intros n ?%not_elem_of_nil].
      destruct Hr as (n & H1 & Tk1 & Z1). destruct (IH (Z.succ i) s1 _ H1 Hva) as (s2 & ns & -> & Hl & Hend & Hst & H2 & Tk2 & Z2); [lia|unfold PAGE_SIZE; lia|done|].
      exists s2, (n :: ns). split; [done|]. split; [cbn; lia|]. split; [right|].
      { destruct Hend as [->|Hend]; [replace (i + Z.of_nat (length [n]) - 1) with i by (cbn; lia); done|]. cbn [length]. rewrite Nat2Z.inj_succ. unfold PAGE_SIZE in *. lia. }
      split.
      { destruct Hst as [Hst|(s3 & Tk3 & X3)]; [left; cbn [length]; rewrite Nat2Z.inj_succ; destruct Hst as [?|Hst]; [left; lia|right; unfold PAGE_SIZE in *; lia]|right].
        exists s3. split; [apply (taken_trans s s1 s3 root [n] ns); [done|apply H1|done|done]|done]. }
      split; [cbn [fresh_map]; replace (va + i * PAGE_SIZE + PAGE_SIZE) with (va + Z.succ i * PAGE_SIZE) by lia; done|].
      assert (Tk : taken s s2 root ([n] ++ ns)) by (eapply taken_trans; [done|apply H1|done|done]). split; [done|].
      intros m [-> |Hm]%elem_of_cons; [|by apply Z2]. rewrite <- Z1. eapply (data_kept s s1 s2); [done|apply H|done|done|by left].
Qed.
(** ** Demand faults *)

Definition page_of (addr : Z) : Z := addr / PAGE_SIZE * PAGE_SIZE.
(** Page aligned, above the kernel's two gigabytes and within 48 bits. *)
Definition user_area (r : VmaSpec.Region) : Prop :=
  VmaSpec.r_start r mod PAGE_SIZE = 0 /\ VmaSpec.r_end r mod PAGE_SIZE = 0 /\ 2 ^ 31 <= VmaSpec.r_start r /\ VmaSpec.r_end r <= 2 ^ 48.
(** What the first page of the fault holds. *)
Definition contents (r : VmaSpec.Region) (page : Z) : list Z :=
  match VmaSpec.r_type r with
  | Vma.FILE =>
      if VmaSpec.r_inode r =? 0 then zeros
      else match read_file (VmaSpec.r_inode r) (u64 (VmaSpec.r_offset r + u64 (page - VmaSpec.r_start r))) with
           | Some (bytes, p) => if 0 <=? bytes then p else zeros
           | None => zeros
           end
  | _ => zeros
  end.
Definition refused (r : VmaSpec.Region) (write : bool) : bool :=
  bool_decide (VmaSpec.r_type r = Vma.GUARD) || write && (Z.land (VmaSpec.r_prot r) Vma.PROT_WRITE =? 0).

Hypothesis file_pages : forall i o n p, read_file i o = Some (n, p) -> length p = WORDS.

Lemma align_page_of addr : 0 <= addr < 2 ^ 64 -> Z.land addr ALIGN_MASK = page_of addr.
Proof. intros H. unfold ALIGN_MASK, PAGE_SIZE. change 4096 with (2 ^ 12). by rewrite land_align_down. Qed.

Lemma area_node l rs addr r :
  VmaRefine.holds l rs -> List.find (VmaRefine.within addr) rs = Some r ->
  exists i v, Vma.find_locked addr l = Ok (Some i) /\ Vma.node l (Some i) = Ok v /\ VmaSpec.region v = r.
Proof.
  intros (xs & H & <-) Hr. destruct (VmaRefine.find_cases l xs addr H) as [(pre & i & post & -> & E & Hw & Hf)|(_ & Hf)].
  - rewrite fmap_app, fmap_cons in Hr. rewrite fmap_app in Hf. destruct (VmaRefine.filter_one _ _ _ _ Hf Hw) as (_ & E' & _). rewrite E' in Hr. injection Hr as <-.
    destruct (VmaSpec.vinv_nodup _ _ H) as [_ Hp]. destruct (Hp i) as [_ [v Hv]]; [apply elem_of_app; right; by left|]. exists i, v. split; [exact E|].
    unfold Vma.node, VmaSpec.region_at. by rewrite Hv.
  - destruct (VmaRefine.filter_none _ _ Hf) as (_ & E' & _). by rewrite E' in Hr.
Qed.

Lemma fill_ok s1 v page phys old :
  ram s1 !! phys = Some old -> exists ws, fill read_file v page phys s1 = Ok (set_ram (<[phys := ws]> (ram s1)) s1) /\ ws = contents (VmaSpec.region v) page /\ length ws = WORDS.
Proof.
  intros Hold. unfold fill, contents. cbn [VmaSpec.r_type VmaSpec.r_inode VmaSpec.r_offset VmaSpec.r_start VmaSpec.region].
  assert (Hz : zero_page phys s1 = Ok (set_ram (<[phys := zeros]> (ram s1)) s1)) by (by eapply zero_page_eq).
  destruct (Vma.type v); [by exists zeros| |by exists zeros|by exists zeros]. rewrite Hz, bind_Ok. destruct (Vma.file_inode v =? 0); [by exists zeros|].
  destruct (read_file _ _) as [[n p]|] eqn:Er; [|by exists zeros]. cbn [ram set_ram]. rewrite lookup_insert_eq. destruct (0 <=? n).
  - exists p. split; [by rewrite insert_insert_eq|]. split; [done|]. by eapply file_pages.
  - exists zeros. split; [|done]. unfold zero_page. cbn [ram set_ram]. rewrite lookup_insert_eq. by rewrite insert_insert_eq.
Qed.

Lemma user_area_page r va : user_area r -> VmaSpec.r_start r <= va < VmaSpec.r_end r -> user_page va.
Proof.
  intros (Ha & Hb & Hlo & Hhi) Hva. split; [change (2 ^ 64) with (2 ^ 48 * 65536); lia|]. unfold user_va, vpn. change (2 ^ 48) with (2 ^ 36 * 4096) in Hhi. change (2 ^ 31) with (2 ^ 19 * 4096) in Hlo. change (2 ^ 12) with 4096.
  rewrite Z.mod_small; div_lia.
Qed.

Lemma page_of_area r addr : user_area r -> VmaSpec.r_start r <= addr < VmaSpec.r_end r -> VmaSpec.r_start r <= page_of addr < VmaSpec.r_end r /\ page_of addr + PAGE_SIZE <= VmaSpec.r_end r.
Proof. intros (Ha & Hb & _) Hva. unfold page_of, PAGE_SIZE in *. div_lia. Qed.

Lemma find_page l rs addr r :
  VmaRefine.holds l rs -> List.find (VmaRefine.within addr) rs = Some r -> VmaSpec.r_start r <= page_of addr < VmaSpec.r_end r -> List.find (VmaRefine.within (page_of addr)) rs = Some r.
Proof.
  intros (xs & Hvi & <-) Hr Hpg. assert (Ho := VmaSpec.vi_ordered _ _ Hvi). apply find_some in Hr as [Hin _]. apply list_elem_of_In, list_elem_of_split in Hin as (pre & post & Eq).
  rewrite Eq in Ho |- *. assert (Hw : VmaRefine.within (page_of addr) r = true) by (unfold VmaRefine.within; lia). by apply VmaRefine.filter_one; [apply (VmaRefine.within_unique _ _ r)|].
Qed.

(** (C8) A fault at an address of an area is refused, with nothing changed, when
    the area is a guard or the access is a write the area does not allow.
    Otherwise the page of the address is mapped to a frame taken from the
    allocator, with the protection of the area, holding zeros or, in a file area,
    what the file has there.  In an anonymous area the following pages of the
    area, up to four and short of its end, are then mapped to zeroed frames as
    well, whether or not they were mapped before: what they were mapped to is
    lost from the address space.  Pages beyond these stay as they are, no other
    frame changes, and the only further frames taken are page tables.  The fault
    fails only when the allocator had no frame, or had one for the page and none
    left for a page table; then no page changes and every frame but new page
    tables is back in the allocator.  Fewer following pages are mapped only when
    frames run out in the same way. *)
Theorem demand_fault_sound l rs s T addr write r :
  VmaRefine.holds l rs -> AddressSpaceSpec.holds s root T -> 0 <= addr < 2 ^ 64 -> List.find (VmaRefine.within addr) rs = Some r -> user_area r ->
  exists s' res, handle_demand_fault callback read_file l addr write s = Ok (l, s', res) /\
    if refused r write then res = UNHANDLED /\ s' = s
    else match res with
         | HANDLED => exists n ns,
             AddressSpaceSpec.holds s' root (fresh_map (page_of addr) (VmaSpec.r_prot r) (n :: ns) T) /\ taken s s' root (n :: ns) /\
             ram s' !! (n * PAGE_SIZE) = Some (contents r (page_of addr)) /\ (forall m, m ∈ ns -> ram s' !! (m * PAGE_SIZE) = Some zeros) /\
             (length ns <= 4)%nat /\ (VmaSpec.r_type r <> Vma.ANONYMOUS -> ns = []) /\ page_of addr + Z.of_nat (length ns) * PAGE_SIZE < VmaSpec.r_end r /\
             (VmaSpec.r_type r = Vma.ANONYMOUS ->
                stopped s s' root (length ns = 4%nat \/ VmaSpec.r_end r <= page_of addr + (1 + Z.of_nat (length ns)) * PAGE_SIZE) (n :: ns))
         | ERROR => AddressSpaceSpec.holds s' root T /\ grown s s' root /\ out_of_frames s s' root
         | _ => False
         end.
Proof.
  intros Hl H Haddr Hr Hua. destruct (area_node l rs addr r Hl Hr) as (i & v & Ef & En & Ev). unfold handle_demand_fault. rewrite Ef, bind_Ok, En, bind_Ok, align_page_of by done.
  assert (Hin : VmaSpec.r_start r <= addr < VmaSpec.r_end r) by (apply find_some in Hr as [_ Hw]; unfold VmaRefine.within in Hw; lia).
  destruct (page_of_area r addr Hua Hin) as [Hpg Hpe]. assert (Hva := user_area_page r _ Hua Hpg). unfold refused.
  assert (Et : VmaSpec.r_type r = Vma.type v) by (by rewrite <- Ev). assert (Epr : VmaSpec.r_prot r = Vma.prot v) by (by rewrite <- Ev). assert (Een : VmaSpec.r_end r = Vma.end_ v) by (by rewrite <- Ev).
  rewrite Et, Epr. destruct (bool_decide (Vma.type v = Vma.GUARD)); cbn [orb]; [by exists s, UNHANDLED|]. destruct (write && (Z.land (Vma.prot v) Vma.PROT_WRITE =? 0)); [by exists s, UNHANDLED|].
  destruct (new_frame_ok s root T H) as (s1 & p & -> & Hp). rewrite bind_Ok. destruct Hp as [(-> & -> & X)|(n & -> & Hnz & Hn & Em & (old & Hold) & Hfill)].
  { exists s, ERROR. split; [done|]. split; [done|]. split; [apply grown_refl|by left]. }
  destruct (Z.eqb_spec (n * PAGE_SIZE) 0); [done|]. destruct (fill_ok s1 v (page_of addr) _ old Hold) as (ws & -> & Ews & Hws). rewrite bind_Ok. rewrite Ev in Ews.
  destruct (Hfill ws Hws) as [H2 Tk2]. destruct (map_new_frame s _ T (page_of addr) n (Vma.prot v) H H2 Tk2 Hva) as (s3 & ok & -> & Hok). rewrite bind_Ok. destruct ok; cbn [negb].
  2:{ destruct Hok as (s4 & -> & H4 & G4 & X4). rewrite bind_Ok. by exists s4, ERROR. }
  destruct Hok as (H3 & Tk3 & E3). cbn [ram set_ram] in E3. rewrite lookup_insert_eq, Ews in E3. case_bool_decide as Ea.
  - destruct (area_node l rs _ r Hl (find_page l rs addr r Hl Hr Hpg)) as (j & v' & -> & Ej & Ev'). rewrite bind_Ok, Ej, bind_Ok. assert (Evv : VmaSpec.region v' = VmaSpec.region v) by congruence.
    injection Evv as _ E1 E2 E4 _ _ _. rewrite E1, E2, E4, bool_decide_true by done. destruct Hua as (Ha & Hb & Hlo & Hhi).
    destruct (prefault_ok (page_of addr) (Vma.end_ v) (Vma.prot v) 4 1 s3 _ H3) as (s4 & ns & E4' & Hlen & Hend & Hst & H4 & Tk4 & Z4).
    + lia.
    + lia.
    + change (2 ^ 64) with (2 ^ 48 * 65536). unfold PAGE_SIZE in *. lia.
    + intros k Hk Hlt. apply (user_area_page r); [done|]. unfold PAGE_SIZE in *. lia.
    + change (Z.of_nat 4) with PREFAULT_PAGES in E4'. rewrite E4', bind_Ok. exists s4, HANDLED. split; [done|]. exists n, ns. assert (Hf := pt_frames _ _ (ho_inv _ _ _ H)).
      split; [cbn [fresh_map]; by rewrite Z.mul_1_l in H4|]. split; [apply (taken_trans s s3 s4 root [n] ns); [done|apply H3|done|done]|].
      split; [rewrite <- E3; eapply (data_kept s s3 s4); [done|apply H|done|done|by left]|]. split; [done|]. split; [done|]. split; [done|].
      split; [destruct Hend as [->|Hend]; [cbn; lia|]; unfold PAGE_SIZE in *; lia|]. intros _.
      destruct Hst as [Hst|(s5 & Tk5 & X5)]; [left; by rewrite Een|right]. exists s5. split; [apply (taken_trans s s3 s5 root [n] ns); [done|apply H3|done|done]|done].
  - exists s3, HANDLED. split; [done|]. exists n, []. cbn [fresh_map length]. split; [done|]. split; [done|]. split; [done|]. split; [by intros ? ?%not_elem_of_nil|].
    split; [lia|]. split; [done|]. split; [lia|]. done.
Qed.
(** ** Stack growth *)

Lemma grow_pages_ok va prot k : forall i s T,
  AddressSpaceSpec.holds s root T -> 0 <= i -> (forall j, i <= j < i + Z.of_nat k -> user_page (va + j * PAGE_SIZE)) ->
  exists s' r ns, grow_pages callback ((fun i => va + i * PAGE_SIZE) <$> seqZ i (Z.of_nat k)) prot s = Ok (s', r) /\
    (r = STACK_GROW /\ length ns = k \/ r = ERROR /\ (length ns < k)%nat) /\
    AddressSpaceSpec.holds s' root (fresh_map (va + i * PAGE_SIZE) prot ns T) /\ taken s s' root ns /\ (forall n, n ∈ ns -> ram s' !! (n * PAGE_SIZE) = Some zeros).
Proof.
  induction k as [|k IH]; intros i s T H Hi Hu.
  - exists s, STACK_GROW, []. rewrite seqZ_nil by lia. split; [done|]. split; [by left|]. split; [done|]. split; [apply taken_refl|by intros n ?%not_elem_of_nil].
  - rewrite Nat2Z.inj_succ, seqZ_cons, Z.pred_succ, fmap_cons by lia. cbn [grow_pages].
    destruct (map_zeroed_ok s T (va + i * PAGE_SIZE) prot H) as (s1 & r & -> & Hr); [apply Hu; lia|]. rewrite bind_Ok. assert (Hf := pt_frames _ _ (ho_inv _ _ _ H)). destruct r.
    2,3: exists s1, ERROR, []; destruct Hr as (H1 & G1 & _); split; [done|]; split; [right; cbn; split; [done|lia]|]; split; [done|]; split; [by apply grown_taken|by intros n ?%not_elem_of_nil].
    destruct Hr as (n & H1 & Tk1 & Z1). destruct (IH (Z.succ i) s1 _ H1) as (s2 & r & ns & -> & Hr & H2 & Tk2 & Z2); [lia|intros j Hj; apply Hu; lia|].
    exists s2, r, (n :: ns). split; [done|]. split; [destruct Hr as [[-> <-]|[-> ?]]; [by left|right; cbn; split; [done|lia]]|].
    split; [cbn [fresh_map]; replace (va + i * PAGE_SIZE + PAGE_SIZE) with (va + Z.succ i * PAGE_SIZE) by lia; done|].
    assert (Tk : taken s s2 root ([n] ++ ns)) by (eapply taken_trans; [done|apply H1|done|done]). split; [done|].
    intros m [-> |Hm]%elem_of_cons; [|by apply Z2]. rewrite <- Z1. eapply (data_kept s s1 s2); [done|apply H|done|done|by left].
Qed.

(** The stack areas a fault can grow. *)
Definition grows (addr : Z) (r : VmaSpec.Region) : bool :=
  bool_decide (VmaSpec.r_type r = Vma.STACK) && (u64 (VmaSpec.r_start r - MAX_STACK_GROW) <=? addr) && (addr <? VmaSpec.r_start r).

Lemma find_stack_ok l addr xs : forall fuel h,
  VmaSpec.seg (Vma.pool_ l) h xs None -> (length xs < fuel)%nat ->
  match List.find (grows addr) (VmaSpec.region_at l <$> xs) with
  | None => find_stack fuel addr h l = Ok (None, None)
  | Some r => exists i v, i ∈ xs /\ Vma.pool_ l !! i = Some v /\ VmaSpec.region v = r /\ find_stack fuel addr h l = Ok (Some v, Some i)
  end.
Proof.
  induction xs as [|i xs IH]; intros fuel h Hs Hf; (destruct fuel as [|fuel]; [cbn in Hf; lia|]).
  - cbn in Hs. by subst.
  - destruct Hs as (-> & v & Hv & Hs). rewrite fmap_cons. cbn [List.find find_stack]. unfold Vma.node. rewrite Hv, bind_Ok.
    assert (Er : VmaSpec.region_at l i = VmaSpec.region v) by (unfold VmaSpec.region_at; by rewrite Hv). rewrite Er. unfold grows at 1. cbn [VmaSpec.r_type VmaSpec.r_start VmaSpec.region].
    destruct (bool_decide (Vma.type v = Vma.STACK) && (u64 (Vma.start v - MAX_STACK_GROW) <=? addr) && (addr <? Vma.start v)).
    + exists i, v. split; [by left|]. done.
    + specialize (IH fuel (Vma.next v) Hs ltac:(cbn in Hf; lia)). destruct (List.find _ _); [|done]. destruct IH as (j & v' & Hj & ?). exists j, v'. split; [by right|done].
Qed.

Definition moved (va : Z) (r : VmaSpec.Region) : VmaSpec.Region :=
  VmaSpec.mkRegion va (VmaSpec.r_end r) (VmaSpec.r_prot r) (VmaSpec.r_type r) (VmaSpec.r_flags r) (VmaSpec.r_inode r) (VmaSpec.r_offset r).

(** What a fault outside all areas, below a stack, does: the area is extended
    down to the page of the fault before any page is mapped, whatever lies in
    between. *)
Lemma stack_fault_ok l xs s T addr write r :
  VmaSpec.vinv l xs -> AddressSpaceSpec.holds s root T -> 0 <= addr < 2 ^ 64 ->
  List.find (VmaRefine.within addr) (VmaSpec.region_at l <$> xs) = None -> List.find (grows addr) (VmaSpec.region_at l <$> xs) = Some r ->
  user_area r -> 2 ^ 31 <= addr -> VmaSpec.r_end r - page_of addr <= Vma.MAX_STACK_SIZE ->
  exists l' s' res ns i v, handle_demand_fault callback read_file l addr write s = Ok (l', s', res) /\
    i ∈ xs /\ Vma.pool_ l !! i = Some v /\ VmaSpec.region v = r /\ Vma.st (Some i) (Vma.set_start (page_of addr)) l = Ok l' /\
    (res = STACK_GROW /\ page_of addr + Z.of_nat (length ns) * PAGE_SIZE = VmaSpec.r_start r \/ res = ERROR /\ page_of addr + Z.of_nat (length ns) * PAGE_SIZE < VmaSpec.r_start r) /\
    AddressSpaceSpec.holds s' root (fresh_map (page_of addr) (VmaSpec.r_prot r) ns T) /\ taken s s' root ns /\ (forall n, n ∈ ns -> ram s' !! (n * PAGE_SIZE) = Some zeros).
Proof.
  intros Hv H Haddr Hnone Hgr Hua Hlo Hmax. unfold handle_demand_fault.
  destruct (VmaRefine.find_cases l xs addr Hv) as [(pre & i & post & Ex & _ & Hw & Hf)|(E & _)].
  { subst xs. rewrite fmap_app, fmap_cons in Hnone. rewrite fmap_app in Hf. destruct (VmaRefine.filter_one _ _ _ _ Hf Hw) as (_ & E & _). by rewrite E in Hnone. }
  change (Vma.find_locked addr l) with (Vma.find addr l). rewrite E, bind_Ok. unfold stack_fault. assert (Hlen := VmaRefine.vinv_length _ _ Hv).
  assert (Hs := find_stack_ok l addr xs Vma.FUEL (Vma.head_ l) (VmaSpec.vi_list _ _ Hv) ltac:(unfold Vma.FUEL; lia)). rewrite Hgr in Hs. destruct Hs as (i & v & Hi & Hvi & Er & ->). rewrite bind_Ok, align_page_of by done.
  assert (Est : VmaSpec.r_start r = Vma.start v) by (by rewrite <- Er). assert (Een : VmaSpec.r_end r = Vma.end_ v) by (by rewrite <- Er). assert (Epr : VmaSpec.r_prot r = Vma.prot v) by (by rewrite <- Er).
  apply find_some in Hgr as [_ Hgr]. unfold grows in Hgr. destruct Hua as (Ha & Hb & Hlo' & Hhi). assert (Hlt : addr < VmaSpec.r_start r) by lia.
  assert (Hpo : page_of addr <= addr < page_of addr + PAGE_SIZE /\ page_of addr mod PAGE_SIZE = 0) by (unfold page_of, PAGE_SIZE; div_lia). assert (Hord : VmaSpec.r_start r < VmaSpec.r_end r).
  { destruct (VmaSpec.vi_ordered _ _ Hv) as [_ Hp]. rewrite Forall_fmap, Forall_forall in Hp. specialize (Hp i Hi). cbn in Hp. unfold VmaSpec.region_at in Hp. rewrite Hvi in Hp. cbn in Hp. rewrite Est, Een. lia. }
  change (2 ^ 31) with (2 ^ 19 * 4096) in *. assert (Hpl : 2 ^ 19 * 4096 <= page_of addr) by (unfold page_of, PAGE_SIZE; div_lia).
  destruct (Z.ltb_spec (page_of addr) MIN_STACK_ADDRESS) as [Hm|_]; [unfold MIN_STACK_ADDRESS in Hm; lia|]. rewrite (u64_small (Vma.end_ v - page_of addr)).
  2:{ change (2 ^ 48) with 281474976710656 in Hhi. lia. }
  destruct (Z.ltb_spec Vma.MAX_STACK_SIZE (Vma.end_ v - page_of addr)); [lia|].
  rewrite (VmaTree.st_eq _ _ _ _ Hvi), bind_Ok. set (k := (Vma.start v - page_of addr + (PAGE_SIZE - 1)) / PAGE_SIZE).
  assert (Hk : 0 <= k /\ page_of addr + k * PAGE_SIZE = Vma.start v) by (unfold k, PAGE_SIZE in *; div_lia).
  destruct (grow_pages_ok (page_of addr) (Vma.prot v) (Z.to_nat k) 0 s T H) as (s' & res & ns & Eg & Hres & H' & Tk & Hz); [lia| |].
  { intros j Hj. split; [change (2 ^ 64) with (2 ^ 48 * 65536); unfold PAGE_SIZE in *; lia|]. unfold user_va, vpn. change (2 ^ 48) with (2 ^ 36 * 4096) in Hhi. change (2 ^ 12) with 4096. unfold PAGE_SIZE in *.
    rewrite Z.mod_small; div_lia. }
  rewrite Z2Nat.id in Eg by lia. rewrite Eg, bind_Ok. eexists _, s', res, ns, i, v. split; [done|]. split; [done|]. split; [done|]. split; [done|]. split; [by eapply VmaTree.st_eq|].
  split; [destruct Hres as [[-> Hl]|[-> Hl]]; [left|right]; (split; [done|]); rewrite Est; unfold PAGE_SIZE in *; lia|]. rewrite Z.mul_0_l, Z.add_0_r in H'. by rewrite Epr.
Qed.
Lemma vpn_small va : 0 <= va < 2 ^ 48 -> vpn va = va / 4096.
Proof. intros H. unfold vpn. change (2 ^ 12) with 4096. apply Z.mod_small. change (2 ^ 48) with (2 ^ 36 * 4096) in H. div_lia. Qed.

Lemma fresh_map_other prot ns : forall va0 T va,
  0 <= va0 -> va0 mod PAGE_SIZE = 0 -> va0 + Z.of_nat (length ns) * PAGE_SIZE <= 2 ^ 48 -> 0 <= va < va0 -> entry (fresh_map va0 prot ns T) va = entry T va.
Proof.
  induction ns as [|n ns IH]; intros va0 T va H0 Hm Hb Hva; [done|]. cbn [fresh_map length] in *. unfold PAGE_SIZE in *. rewrite IH by (try lia; div_lia).
  rewrite entry_insert, bool_decide_false; [done|]. rewrite !vpn_small by lia. div_lia.
Qed.

Lemma fresh_map_at prot ns : forall va0 T va,
  0 <= va0 -> va0 mod PAGE_SIZE = 0 -> va0 + Z.of_nat (length ns) * PAGE_SIZE <= 2 ^ 48 -> va0 <= va < va0 + Z.of_nat (length ns) * PAGE_SIZE ->
  exists n, n ∈ ns /\ entry (fresh_map va0 prot ns T) va = page_entry (n * PAGE_SIZE) (as_prot prot).
Proof.
  induction ns as [|n ns IH]; intros va0 T va H0 Hm Hb Hva; cbn [length] in *; [lia|]. cbn [fresh_map]. destruct (Z.lt_ge_cases va (va0 + PAGE_SIZE)) as [Hlt|Hge].
  - exists n. split; [by left|]. unfold PAGE_SIZE in *. rewrite fresh_map_other by (unfold PAGE_SIZE; try lia; div_lia). rewrite entry_insert, bool_decide_true; [done|]. rewrite !vpn_small by lia. div_lia.
  - destruct (IH (va0 + PAGE_SIZE) (<[vpn va0 := page_entry (n * PAGE_SIZE) (as_prot prot)]> T) va) as (m & Hm' & E); [unfold PAGE_SIZE in *; try lia; div_lia..|]. exists m. split; [by right|done].
Qed.

Lemma seg_unique m xs : forall ys h, VmaSpec.seg m h xs None -> VmaSpec.seg m h ys None -> xs = ys.
Proof.
  induction xs as [|i xs IH]; intros [|j ys] h; cbn [VmaSpec.seg]; [done| | |].
  - by intros -> [? _].
  - by intros [-> _] ?.
  - intros (-> & v & Hv & Hs) ([= ->] & v' & Hv' & Hs'). rewrite Hv in Hv'. injection Hv' as <-. by rewrite (IH ys _ Hs Hs').
Qed.

Lemma ordered_pair l xs i j :
  VmaSpec.ordered (VmaSpec.region_at l <$> xs) -> i ∈ xs -> j ∈ xs -> i <> j ->
  VmaSpec.r_end (VmaSpec.region_at l i) <= VmaSpec.r_start (VmaSpec.region_at l j) \/ VmaSpec.r_end (VmaSpec.region_at l j) <= VmaSpec.r_start (VmaSpec.region_at l i).
Proof.
  intros [Hs _] Hi Hj Hne. apply list_elem_of_split in Hi as (pre & post & ->). rewrite fmap_app, fmap_cons in Hs. destruct (VmaOps.ssorted_app _ _ _ Hs) as (_ & Hp & Hc).
  apply elem_of_app in Hj as [Hj|[?|Hj]%elem_of_cons]; [| done |].
  - right. apply Hc; [|by left]. by apply list_elem_of_fmap_2.
  - left. apply StronglySorted_inv in Hp as [_ Hp]. rewrite Forall_fmap, Forall_forall in Hp. by apply Hp.
Qed.

(** A guard area below a stack does not stop the stack from growing over it:
    a fault below the guard, within 64 KB of the stack, extends the stack area
    across the guard, so the areas overlap and the invariant of the list is
    lost; unless memory runs out, every page of the guard is then mapped with the
    protection of the stack.  The process is not stopped by the overflow that the
    guard is there to detect. *)
Theorem stack_overruns_guard l rs s T addr write r g :
  VmaRefine.holds l rs -> AddressSpaceSpec.holds s root T -> 0 <= addr < 2 ^ 64 ->
  List.find (VmaRefine.within addr) rs = None -> List.find (grows addr) rs = Some r ->
  user_area r -> 2 ^ 31 <= addr -> VmaSpec.r_end r - page_of addr <= Vma.MAX_STACK_SIZE ->
  g ∈ rs -> addr < VmaSpec.r_start g -> VmaSpec.r_end g <= VmaSpec.r_start r ->
  exists l' s' res, handle_demand_fault callback read_file l addr write s = Ok (l', s', res) /\ (forall rs', ~ VmaRefine.holds l' rs') /\
    (res = STACK_GROW \/ res = ERROR) /\
    (res = STACK_GROW -> forall va, VmaSpec.r_start g <= va < VmaSpec.r_end g ->
       exists n e, read_pte a va s' = Ok e /\ e = page_entry (n * PAGE_SIZE) (as_prot (VmaSpec.r_prot r)) /\ ram s' !! (n * PAGE_SIZE) = Some zeros).
Proof.
  intros (xs & Hv & <-) H Haddr Hnone Hgr Hua Hlo Hmax Hg Hga Hgr'.
  destruct (stack_fault_ok l xs s T addr write r Hv H Haddr Hnone Hgr Hua Hlo Hmax) as (l' & s' & res & ns & i & v & E & Hi & Hvi & Er & El & Hres & H' & Tk & Hz).
  exists l', s', res. split; [done|]. assert (Hpo : page_of addr <= addr) by (unfold page_of, PAGE_SIZE; div_lia).
  assert (Hg' := Hg). apply list_elem_of_fmap in Hg' as (j & Eg & Hj). assert (Hpos := proj2 (VmaSpec.vi_ordered _ _ Hv)). rewrite Forall_forall in Hpos.
  assert (Hgp := Hpos g Hg). assert (Erp : VmaSpec.region_at l i = r) by (unfold VmaSpec.region_at; by rewrite Hvi). assert (Hrp := Hpos r). rewrite <- Erp in Hrp at 1. specialize (Hrp (list_elem_of_fmap_2 _ _ _ Hi)). cbn in Hgp, Hrp.
  assert (Hij : i <> j) by (intros ->; rewrite Erp in Eg; subst g; lia). rewrite (VmaTree.st_eq _ _ _ _ Hvi) in El. injection El as El. split; [|split].
  - intros rs' (xs' & Hv' & _). assert (xs' = xs) as ->.
    { symmetry. eapply seg_unique; [|apply (VmaSpec.vi_list _ _ Hv')]. subst l'. cbn [Vma.pool_ Vma.head_ Vma.set_pool]. eapply VmaSpec.seg_frame; [|apply (VmaSpec.vi_list _ _ Hv)].
      intros k _. destruct (decide (i = k)) as [<-|Hne]; [by rewrite list_lookup_alter_eq, Hvi|by rewrite list_lookup_alter_ne]. }
    assert (Ei : VmaSpec.region_at l' i = moved (page_of addr) r) by (subst l' r; unfold VmaSpec.region_at; cbn [Vma.pool_ Vma.set_pool]; by rewrite list_lookup_alter_eq, Hvi).
    assert (Ej : VmaSpec.region_at l' j = g) by (subst l' g; unfold VmaSpec.region_at; cbn [Vma.pool_ Vma.set_pool]; by rewrite list_lookup_alter_ne).
    destruct (ordered_pair l' xs i j (VmaSpec.vi_ordered _ _ Hv') Hi Hj Hij) as [Ho|Ho]; rewrite Ei, Ej in Ho; cbn in Ho; lia.
  - destruct Hres as [[-> _]|[-> _]]; [by left|by right].
  - intros -> va Hva. destruct Hres as [[_ Hend]|[? _]]; [|done]. destruct Hua as (Ha & Hb & Hlo' & Hhi). change (2 ^ 31) with (2 ^ 19 * 4096) in *.
    assert (Hpm : page_of addr mod PAGE_SIZE = 0 /\ 2 ^ 19 * 4096 <= page_of addr) by (unfold page_of, PAGE_SIZE; div_lia).
    assert (Huv : user_va va) by (unfold user_va; rewrite vpn_small by lia; div_lia). apply user_vpath in Huv.
    destruct (fresh_map_at (VmaSpec.r_prot r) ns (page_of addr) T va) as (n & Hn & En); [lia|apply Hpm|lia|lia|].
    exists n, (entry (fresh_map (page_of addr) (VmaSpec.r_prot r) ns T) va). rewrite (read_pte_ok s' a va (ho_inv _ _ _ H') root_ok Huv), (ho_pte _ _ _ H') by done. split; [done|]. split; [done|]. by apply Hz.
Qed.

End Demand.

(** ** A process with a heap, a guard and a stack *)

Definition demo_heap : VmaSpec.Region := VmaSpec.mkRegion 0x100000000 0x100003000 3 Vma.ANONYMOUS 0 0 0.
Definition high_guard : VmaSpec.Region := VmaSpec.mkRegion 0x7FFFFFFE4000 0x7FFFFFFE5000 0 Vma.GUARD 0 0 0.
Definition demo_stack : VmaSpec.Region := VmaSpec.mkRegion 0x7FFFFFFE6000 0x7FFFFFFF0000 3 Vma.STACK 0 0 0.

Definition add_area (r : VmaSpec.Region) (l : Vma.VmaList) : Vma.VmaList :=
  match VmaRefine.exec (VmaRefine.OAdd (VmaSpec.r_start r) (VmaSpec.r_end r) (VmaSpec.r_prot r) (VmaSpec.r_type r)) l with Ok (l, _) => l | _ => l end.
Definition demo_areas : Vma.VmaList := add_area demo_stack (add_area high_guard (add_area demo_heap (Vma.init VmaRefine.blank))).

Lemma add_area_ok r l rs :
  VmaRefine.holds l rs -> VmaRefine.op_ok (VmaRefine.OAdd (VmaSpec.r_start r) (VmaSpec.r_end r) (VmaSpec.r_prot r) (VmaSpec.r_type r)) ->
  VmaRefine.holds (add_area r l) (VmaRefine.spec (VmaRefine.OAdd (VmaSpec.r_start r) (VmaSpec.r_end r) (VmaSpec.r_prot r) (VmaSpec.r_type r)) rs).1.
Proof. intros H Ho. destruct (VmaRefine.exec_ok _ l rs H Ho) as (l' & x & E & H' & _). unfold add_area. by rewrite E. Qed.

Lemma demo_areas_ok : VmaRefine.holds demo_areas [demo_heap; high_guard; demo_stack].
Proof.
  assert (H1 := add_area_ok demo_heap _ [] VmaRefine.blank_ok ltac:(cbn; lia)). assert (H2 := add_area_ok high_guard _ [demo_heap] H1 ltac:(cbn; lia)).
  exact (add_area_ok demo_stack _ [demo_heap; high_guard] H2 ltac:(cbn; lia)).
Qed.

(** What a fault of the demo process answers. *)
Definition access_at (addr : Z) (s : Phys FreeList) : Phys FreeList * option FaultResult :=
  match handle_demand_fault (demand_map_fn (Some demo_as)) (fun _ _ => None) demo_areas addr true s with
  | Ok (_, s, r) => (s, Some r)
  | _ => (s, None)
  end.

Lemma touch_result addr s l s' r x :
  handle_demand_fault (demand_map_fn (Some demo_as)) (fun _ _ => None) demo_areas addr true s = Ok (l, s', r) -> (access_at addr s).2 = Some x -> r = x.
Proof. unfold access_at. intros ->. by intros [= ->]. Qed.

Lemma touch_first : (access_at 0x100000010 demo).2 = Some HANDLED.
Proof. vm_compute. reflexivity. Qed.

(** A write to the first of the three pages of the heap is handled. *)
Lemma demand_fault_sound_witness :
  exists s' n ns, handle_demand_fault (demand_map_fn (Some demo_as)) (fun _ _ => None) demo_areas 0x100000010 true demo = Ok (demo_areas, s', HANDLED) /\
    AddressSpaceSpec.holds s' (root_ demo_as) (fresh_map 0x100000000 3 (n :: ns) ∅) /\ taken demo s' (root_ demo_as) (n :: ns) /\
    ram s' !! (n * PAGE_SIZE) = Some zeros /\ (forall m, m ∈ ns -> ram s' !! (m * PAGE_SIZE) = Some zeros) /\
    (length ns <= 2)%nat.
Proof.
  destruct (demand_fault_sound demo_as ltac:(done) (fun _ _ => None) ltac:(done) demo_areas _ demo ∅ 0x100000010 true demo_heap demo_areas_ok demo_holds ltac:(lia) ltac:(reflexivity) ltac:(split_and!; done))
    as (s' & res & E & Hr).
  assert (res = HANDLED) as -> by exact (touch_result _ _ _ _ _ _ E touch_first).
  destruct Hr as (n & ns & H1 & H2 & H3 & H4 & _ & _ & H5 & _). exists s', n, ns. split_and!; [exact E|exact H1|exact H2|exact H3|exact H4|].
  change (page_of 0x100000010) with 0x100000000 in H5. change (VmaSpec.r_end demo_heap) with 0x100003000 in H5. unfold PAGE_SIZE in H5. lia.
Defined.

(** ** Prefaulting over a page that is in use *)

(** The process writes 42 to the last page of its heap, then touches the first. *)
Definition used_page : Z := 0x100002000.
Definition heap1 : Phys FreeList := (access_at used_page demo).1.
Definition used_frame : Z := match translate demo_as used_page heap1 with Ok p => p | _ => 0 end.
Definition heap2 : Phys FreeList := match stw used_frame 0 42 heap1 with Ok s => s | _ => heap1 end.
Definition heap3 : Phys FreeList := (access_at 0x100000000 heap2).1.
Definition new_frame : Z := match translate demo_as used_page heap3 with Ok p => p | _ => 0 end.


Lemma stack_overruns_guard_witness :
  exists l' s' res, handle_demand_fault (demand_map_fn (Some demo_as)) (fun _ _ => None) demo_areas 0x7FFFFFFE3010 true demo = Ok (l', s', res) /\ (forall rs', ~ VmaRefine.holds l' rs') /\
    (res = STACK_GROW \/ res = ERROR) /\
    (res = STACK_GROW -> forall va, 0x7FFFFFFE4000 <= va < 0x7FFFFFFE5000 ->
       exists n e, read_pte demo_as va s' = Ok e /\ e = page_entry (n * PAGE_SIZE) (as_prot 3) /\ ram s' !! (n * PAGE_SIZE) = Some zeros).
Proof.
  exact (stack_overruns_guard demo_as ltac:(done) (fun _ _ => None) demo_areas _ demo ∅ 0x7FFFFFFE3010 true demo_stack high_guard demo_areas_ok demo_holds
    ltac:(lia) ltac:(reflexivity) ltac:(reflexivity) ltac:(split_and!; done) ltac:(lia) ltac:(apply Z.leb_le; reflexivity) ltac:(right; by left) ltac:(cbn; lia) ltac:(cbn; lia)).
Defined.
End FaultSpec.
