(* ===== verification/CowSpec.v ===== *)
(** * Writing to a shared page

    A write fault in a copy-on-write area gives the writer a private copy of a
    frame that is counted as shared, and the frame itself when it is not. *)

From S2P Require Import Prelude Buddy Bitmap Frames Cow Swap AddressSpace AddressSpaceSpec World Vma VmaTree VmaOps VmaSpec VmaRefine Fault FaultSpec.

Module CowSpec.
Import Buddy(PAGE_SIZE).
Import Frames AddressSpace AddressSpaceSpec World Fault FaultSpec.

Section Remap.
Context {F : Type} {frames : FrameAllocator F} {laws : FrameLaws F}.
Implicit Type s : Phys F.

(** ** Changing an entry of an existing table *)

Lemma step_present s root path i b t :
  ptinv s root -> user (path ++ [i]) -> reach (ram s) root path = Some b -> reach (ram s) root (path ++ [i]) = Some t -> get_or_alloc_table b i s = Ok (s, t).
Proof.
  intros H Hu Hb Ht. assert (Hi : 0 <= i < 512) by (destruct Hu as (Hi & _); by apply Forall_app in Hi as [_ [? _]%Forall_cons]).
  destruct (ldw_table s root path b i H (user_prefix _ _ Hu) Hb Hi) as (w & e & Hw & Hl & He & Eld). unfold get_or_alloc_table. rewrite Eld, bind_Ok.
  rewrite reach_snoc, Hb in Ht. unfold step in Ht. rewrite Hw, He in Ht. destruct (valid e); [|done]. cbn [negb]. by injection Ht as <-.
Qed.

Lemma table_nonzero s root path t : ptinv s root -> user path -> reach (ram s) root path = Some t -> t <> 0.
Proof.
  intros H Hu Hr ->. destruct (pt_tables _ _ H _ _ Hu Hr) as (_ & Ho & _). apply (fr_bounds _ _ (pt_frames _ _ H)) in Ho. change (0 / PAGE_SIZE) with 0 in Ho. lia.
Qed.

Lemma walk_present s root va l3 :
  ptinv s root -> user (vpath va) -> reach (ram s) root (vpath va) = Some l3 -> walk_alloc root va s = Ok (s, l3).
Proof.
  intros H Hu Hr. assert (U1 : user ([] ++ [idx0 va])) by (by apply (user_prefix _ [idx1 va; idx2 va])). assert (U2 : user ([idx0 va] ++ [idx1 va])) by (by apply (user_prefix _ [idx2 va])).
  assert (R := Hr). unfold vpath in R. change [idx0 va; idx1 va; idx2 va] with (([idx0 va] ++ [idx1 va]) ++ [idx2 va]) in R. rewrite reach_app in R.
  destruct (reach (ram s) root ([idx0 va] ++ [idx1 va])) as [l2|] eqn:R2; [|done]. assert (R1 := R2). rewrite reach_app in R1. destruct (reach (ram s) root [idx0 va]) as [l1|] eqn:E1; [|done].
  unfold walk_alloc. rewrite (step_present s root [] _ root l1 H U1 eq_refl E1), bind_Ok. destruct (Z.eqb_spec l1 0); [by destruct (table_nonzero s root _ l1 H U1 E1)|].
  rewrite (step_present s root [idx0 va] _ l1 l2 H U2 E1 R2), bind_Ok. destruct (Z.eqb_spec l2 0); [by destruct (table_nonzero s root _ l2 H U2 R2)|].
  by apply (step_present s root [idx0 va; idx1 va] _ l2 l3).
Qed.

Lemma stw_pm s t i e s' : stw t i e s = Ok s' -> pm s' = pm s.
Proof. unfold stw. destruct (ram s !! t); [|done]. destruct (wr l i e); [|done..]. by intros [= <-]. Qed.

Context (a : AddressSpace) (root_ok : root_ a <> 0).
Abbreviation root := (root_ a).

(** Mapping a page whose tables exist takes no frame and cannot fail. *)
Lemma remap_ok s T va l3 n prot :
  AddressSpaceSpec.holds s root T -> user_page va -> 0 <= n < 2 ^ 36 -> reach (ram s) root (vpath va) = Some l3 ->
  exists s', map a va (n * PAGE_SIZE) 4096 prot s = Ok (s', true) /\ pm s' = pm s /\ grown s s' root /\ AddressSpaceSpec.holds s' root (<[vpn va := page_entry (n * PAGE_SIZE) prot]> T).
Proof.
  intros [H HT] [Hva Hu] Hn Hr. unfold map. destruct (Z.eqb_spec root 0); [done|]. change (seqZ 0 (page_count 4096)) with [0]. cbn [map_loop].
  change (u64 (0 * 4096)) with 0. rewrite !Z.add_0_r. change (2 ^ 64) with 18446744073709551616 in Hva. change (2 ^ 36) with 68719476736 in Hn. rewrite !u64_small by (unfold PAGE_SIZE; lia).
  apply user_vpath in Hu. unfold write_pte_at. rewrite (walk_present s root va l3 H Hu Hr), bind_Ok. destruct (Z.eqb_spec l3 0); [by destruct (table_nonzero s root _ l3 H Hu Hr)|].
  destruct (set_pte_ok s root va l3 (page_entry (n * PAGE_SIZE) prot) H Hu Hr) as (s' & E & H' & G & P). rewrite E, !bind_Ok. exists s'. split; [done|]. split; [by eapply stw_pm|].
  split; [done|]. split; [done|]. intros va' Hva'. rewrite P, entry_insert, HT by done. done.
Qed.

Lemma unmap_one s T va :
  AddressSpaceSpec.holds s root T -> user_page va ->
  exists s', unmap a va 4096 s = Ok s' /\ pm s' = pm s /\ grown s s' root /\ AddressSpaceSpec.holds s' root (delete (vpn va) T).
Proof.
  intros [H HT] [Hva Hu]. unfold unmap. destruct (Z.eqb_spec root 0); [done|]. change (seqZ 0 (page_count 4096)) with [0]. cbn [foldM].
  change (u64 (0 * 4096)) with 0. rewrite !Z.add_0_r. change (2 ^ 64) with 18446744073709551616 in Hva. rewrite u64_small by lia. apply user_vpath in Hu.
  destruct (unmap_page_ok s root va H Hu) as (s' & E & H' & G & P). rewrite E, bind_Ok. exists s'. split; [done|]. split.
  - unfold unmap_page in E. rewrite walk_ok, bind_Ok in E by done. destruct (reach (ram s) root (vpath va)); [by eapply stw_pm|by injection E as <-].
  - split; [done|]. split; [done|]. intros va' Hva'. rewrite P, entry_delete, HT by done. done.
Qed.

End Remap.

Section CowFault.
Context {F : Type} {frames : FrameAllocator F} {laws : FrameLaws F} {D : Type} {dev : Swap.SectorDevice D}.
Context (a : AddressSpace) (root_ok : root_ a <> 0).
Implicit Type w : World F D.
Abbreviation root := (root_ a).

(** Frame [m] holds data of a page: it is no page table and not free. *)
Definition data_of (s : Phys F) (m : Z) : Prop :=
  fr_owns (pm s) m /\ (m ∉ fr_free (pm s)) /\ forall q, user q -> reach (ram s) root q <> Some (m * PAGE_SIZE).

(** The page at [va] is mapped to frame [m]. *)
Definition maps (T : gmap Z Z) (va m : Z) : Prop := valid (entry T va) = true /\ addr_of (entry T va) = m * PAGE_SIZE.

Lemma page_offset addr : 0 <= addr -> Z.land (page_of addr) 0xFFF = 0.
Proof. intros H. change 0xFFF with (Z.ones 12). rewrite Z.land_ones by lia. unfold page_of, PAGE_SIZE. change (2 ^ 12) with 4096. apply Z.mod_mul. lia. Qed.

Lemma mapped_translate s T va m : AddressSpaceSpec.holds s root T -> user_va va -> maps T va m -> Z.land va 0xFFF = 0 -> translate a va s = Ok (m * PAGE_SIZE).
Proof. intros [H HT] Hu%user_vpath [Hv Ha] Ho. rewrite translate_ok, HT by done. cbv zeta. by rewrite Hv, Ha, Ho, Z.lor_0_r. Qed.

Lemma mapped_reach s T va m : AddressSpaceSpec.holds s root T -> user_va va -> maps T va m -> exists l3, reach (ram s) root (vpath va) = Some l3.
Proof. intros [H HT] Hu%user_vpath [Hv _]. rewrite <- HT in Hv by done. unfold pte in Hv. destruct (reach (ram s) root (vpath va)) as [l3|]; [by exists l3|done]. Qed.
(** What [handle_cow_fault] does with the frame of the page. *)
Definition keep_frame (va old prot : Z) w : res (World F D * FaultResult) :=
  w ← on_phys_ (unmap a va 4096) w;
  '(w, ok) ← on_phys (map a va old 4096 (as_prot prot)) w;
  if negb (ok : bool) then Ok (w, ERROR) else w ← on_cow_ (Cow.clear_cow old) w; Ok (w, HANDLED).

Definition copy_frame (va old prot : Z) w : res (World F D * FaultResult) :=
  '(w, new_phys) ← on_phys new_page w;
  if new_phys =? 0 then Ok (w, ERROR)
  else
    w ← on_phys_ (copy_page new_phys old) w;
    w ← on_phys_ (unmap a va 4096) w;
    '(w, ok) ← on_phys (map a va new_phys 4096 (as_prot prot)) w;
    if negb (ok : bool) then w ← on_phys_ (drop_page new_phys) w; Ok (w, ERROR)
    else
      '(c, last) ← Cow.dec_ref old (cow w);
      w ← (if (last : bool) then on_phys_ (drop_page old) (set_cow c w) else Ok (set_cow c w));
      w ← on_cow_ (Cow.inc_ref new_phys) w;
      Ok (w, HANDLED).

Lemma cow_dispatch p rs w T addr r m :
  VmaRefine.holds (vma_list p) rs -> aspace p = Some a -> AddressSpaceSpec.holds (phys w) root T -> 0 <= addr < 2 ^ 64 ->
  List.find (VmaRefine.within addr) rs = Some r -> user_area r -> Z.land (VmaSpec.r_prot r) Vma.PROT_WRITE <> 0 -> Z.land (VmaSpec.r_flags r) COW <> 0 ->
  maps T (page_of addr) m -> 0 < m -> Cow.cinv (cow w) -> Cow.managed (cow w) m ->
  handle_cow_fault p addr w =
    if Cow.refs (cow w) m <=? 1 then keep_frame (page_of addr) (m * PAGE_SIZE) (VmaSpec.r_prot r) w else copy_frame (page_of addr) (m * PAGE_SIZE) (VmaSpec.r_prot r) w.
Proof.
  intros Hl Ha H Haddr Hr Hua Hw Hc Hm Hm0 Hci Hmm. destruct (area_node _ _ _ _ Hl Hr) as (i & v & Ef & En & Ev). unfold handle_cow_fault.
  change (u64 (Z.lnot 0xFFF)) with ALIGN_MASK. rewrite align_page_of, Ef, bind_Ok, En, bind_Ok by done.
  assert (Hin : VmaSpec.r_start r <= addr < VmaSpec.r_end r) by (apply find_some in Hr as [_ Hw']; unfold VmaRefine.within in Hw'; lia).
  destruct (page_of_area r addr Hua Hin) as [Hpg _]. destruct (user_area_page r _ Hua Hpg) as [_ Hu].
  assert (Epr : VmaSpec.r_prot r = Vma.prot v) by (by rewrite <- Ev). assert (Efl : VmaSpec.r_flags r = Vma.flags v) by (by rewrite <- Ev). rewrite Epr, Efl in *.
  destruct (Z.eqb_spec (Z.land (Vma.prot v) Vma.PROT_WRITE) 0); [done|]. destruct (Z.eqb_spec (Z.land (Vma.flags v) COW) 0); [done|]. rewrite Ha.
  rewrite (mapped_translate (phys w) T _ m H Hu Hm (page_offset addr ltac:(lia))), bind_Ok. destruct (Z.eqb_spec (m * PAGE_SIZE) 0); [unfold PAGE_SIZE in *; lia|].
  replace (m * PAGE_SIZE) with (m * 4096 + 0) at 1 by (unfold PAGE_SIZE; lia). rewrite (Cow.get_ref_ok _ _ _ Hci Hmm), bind_Ok by lia. done.
Qed.

Lemma keep_frame_ok w T va m prot :
  AddressSpaceSpec.holds (phys w) root T -> user_page va -> maps T va m -> 0 < m < 2 ^ 36 -> Cow.cinv (cow w) -> Cow.managed (cow w) m ->
  exists w', keep_frame va (m * PAGE_SIZE) prot w = Ok (w', HANDLED) /\
    AddressSpaceSpec.holds (phys w') root (<[vpn va := page_entry (m * PAGE_SIZE) (as_prot prot)]> T) /\ pm (phys w') = pm (phys w) /\ grown (phys w) (phys w') root /\
    Cow.updated (cow w) (cow w') m (Cow.refs (cow w) m) false.
Proof.
  intros H Hva Hm Hm0 Hci Hmm. destruct (mapped_reach _ _ _ _ H (proj2 Hva) Hm) as (l3 & Hr). unfold keep_frame, on_phys_, on_phys, on_cow_.
  destruct (unmap_one a root_ok (phys w) T va H Hva) as (s1 & -> & Ep1 & G1 & H1). rewrite !bind_Ok. cbn [phys set_phys].
  assert (Hr1 := gr_old _ _ _ G1 _ _ (proj1 (user_vpath va) (proj2 Hva)) Hr).
  destruct (remap_ok a root_ok s1 _ va l3 m (as_prot prot) H1 Hva ltac:(lia) Hr1) as (s2 & -> & Ep2 & G2 & H2). rewrite !bind_Ok. cbn [negb cow set_phys].
  destruct (Cow.clear_cow_ok (cow w) m 0 Hci Hmm ltac:(lia)) as (c & Ec & Hc). change 4096 with PAGE_SIZE in Ec. rewrite Z.add_0_r in Ec. rewrite Ec, !bind_Ok.
  eexists. split; [done|]. cbn [phys set_cow set_phys cow]. rewrite insert_delete_eq in H2. split; [done|]. split; [by rewrite Ep2|]. split; [by eapply grown_trans|done].
Qed.
Lemma copy_frame_ok w T va m prot :
  AddressSpaceSpec.holds (phys w) root T -> user_page va -> maps T va m -> data_of (phys w) m -> Cow.cinv (cow w) ->
  (forall q, fr_owns (pm (phys w)) q -> Cow.managed (cow w) q) -> 2 <= Cow.refs (cow w) m ->
  exists w' res, copy_frame va (m * PAGE_SIZE) prot w = Ok (w', res) /\
    match res with
    | HANDLED => exists n,
        AddressSpaceSpec.holds (phys w') root (<[vpn va := page_entry (n * PAGE_SIZE) (as_prot prot)]> T) /\ taken (phys w) (phys w') root [n] /\
        ram (phys w') !! (n * PAGE_SIZE) = ram (phys w) !! (m * PAGE_SIZE) /\ ram (phys w') !! (m * PAGE_SIZE) = ram (phys w) !! (m * PAGE_SIZE) /\
        exists c, Cow.updated (cow w) c m (Cow.refs (cow w) m - 1) (Cow.flagged (cow w) m) /\ Cow.updated c (cow w') n (Z.min (Cow.refs c n + 1) 65535) (Cow.flagged c n)
    | ERROR => w' = w /\ exhausted (phys w)
    | _ => False
    end.
Proof.
  intros H Hva Hm (Hmo & Hmf & Hmt) Hci Hman Hrefs. destruct (mapped_reach _ _ _ _ H (proj2 Hva) Hm) as (l3 & Hr). unfold copy_frame, on_phys_, on_phys, on_cow_.
  destruct (new_frame_ok (phys w) root T H) as (s1 & p & Enew & Hp). rewrite Enew, !bind_Ok. destruct Hp as [(-> & -> & X)|(n & -> & Hnz & Hn & Em & (old & Hold) & Hfill)].
  { exists w, ERROR. split; [by destruct w|done]. }
  destruct (Z.eqb_spec (n * PAGE_SIZE) 0); [done|]. cbn [phys set_phys]. destruct (pt_mem _ _ (ho_inv _ _ _ H) m Hmo) as (ws & Hws & Hlen).
  unfold copy_page. rewrite Hold, Em, Hws, !bind_Ok. destruct (Hfill ws Hlen) as [H2 Tk2]. rewrite Em in H2, Tk2. cbn [phys set_phys]. set (s2 := set_ram _ _) in *.
  assert (Hf := pt_frames _ _ (ho_inv _ _ _ H)). assert (Hun := proj1 (user_vpath va) (proj2 Hva)). assert (Hr2 := tk_old _ _ _ _ Tk2 _ _ Hun Hr).
  destruct (unmap_one a root_ok s2 T va H2 Hva) as (s3 & -> & _ & G3 & H3). rewrite !bind_Ok. cbn [phys set_phys].
  destruct (remap_ok a root_ok s3 _ va l3 n (as_prot prot) H3 Hva (frame_small _ _ Hf Hn) (gr_old _ _ _ G3 _ _ Hun Hr2)) as (s4 & -> & _ & G4 & H4). rewrite !bind_Ok. cbn [negb cow set_phys].
  rewrite insert_delete_eq in H4. assert (G := grown_trans _ _ _ _ G3 G4). assert (Tk4 : taken (phys w) s4 root [n]) by (apply (taken_trans _ s2 _ _ [n] []); [done|apply H2|done|by apply grown_taken]).
  destruct (Cow.dec_ref_ok (cow w) m 0 Hci (Hman m Hmo) ltac:(lia)) as (c & Ec & Hc). rewrite Z.max_l in Hc by lia. change 4096 with PAGE_SIZE in Ec. rewrite Z.add_0_r in Ec. rewrite Ec, !bind_Ok.
  destruct (Z.eqb_spec (Cow.refs (cow w) m) 1); [lia|]. rewrite bind_Ok. cbn [cow set_cow set_phys].
  assert (Hcn : Cow.managed c n) by (destruct Hc as (_ & E1 & E2 & _); unfold Cow.managed; rewrite E1, E2; by apply Hman, (fr_range _ _ Hf)).
  destruct (Cow.inc_ref_ok c n 0 (proj1 Hc) Hcn ltac:(lia)) as (c' & Ec' & Hc'). change 4096 with PAGE_SIZE in Ec'. rewrite Z.add_0_r in Ec'. rewrite Ec', !bind_Ok.
  eexists _, HANDLED. split; [done|]. exists n. cbn [phys set_phys set_cow cow]. split; [done|]. split; [done|]. split; [|split; [|by exists c]].
  - erewrite (data_kept (phys w) s2 s4); [|done|apply H|done|by apply grown_taken|by left]. cbn [ram s2 set_ram]. by rewrite lookup_insert_eq.
  - rewrite <- Hws. apply (tk_keep _ _ _ _ Tk4); [done|]. unfold PAGE_SIZE. by rewrite Z.div_mul.
Qed.

(** (C9) A write fault on a mapped page of a writable copy-on-write area.  When
    the frame has more than one reference the writer gets a new frame with the
    same contents, mapped with the protection of the area; the old frame keeps
    its contents and loses one reference, and the new one gains one; without a
    free frame nothing changes.  When the frame has at most one reference it is
    mapped itself with the protection of the area, no frame moves and the
    copy-on-write mark is cleared.  No other page changes in either case. *)
Theorem cow_fault_copies p rs w T addr r m :
  VmaRefine.holds (vma_list p) rs -> aspace p = Some a -> AddressSpaceSpec.holds (phys w) root T -> 0 <= addr < 2 ^ 64 ->
  List.find (VmaRefine.within addr) rs = Some r -> user_area r -> Z.land (VmaSpec.r_prot r) Vma.PROT_WRITE <> 0 -> Z.land (VmaSpec.r_flags r) COW <> 0 ->
  maps T (page_of addr) m -> data_of (phys w) m -> Cow.cinv (cow w) -> (forall q, fr_owns (pm (phys w)) q -> Cow.managed (cow w) q) ->
  exists w' res, handle_cow_fault p addr w = Ok (w', res) /\
    if Cow.refs (cow w) m <=? 1
    then res = HANDLED /\ AddressSpaceSpec.holds (phys w') root (<[vpn (page_of addr) := page_entry (m * PAGE_SIZE) (as_prot (VmaSpec.r_prot r))]> T) /\
         pm (phys w') = pm (phys w) /\ grown (phys w) (phys w') root /\ Cow.updated (cow w) (cow w') m (Cow.refs (cow w) m) false
    else match res with
         | HANDLED => exists n,
             AddressSpaceSpec.holds (phys w') root (<[vpn (page_of addr) := page_entry (n * PAGE_SIZE) (as_prot (VmaSpec.r_prot r))]> T) /\ taken (phys w) (phys w') root [n] /\
             ram (phys w') !! (n * PAGE_SIZE) = ram (phys w) !! (m * PAGE_SIZE) /\ ram (phys w') !! (m * PAGE_SIZE) = ram (phys w) !! (m * PAGE_SIZE) /\
             exists c, Cow.updated (cow w) c m (Cow.refs (cow w) m - 1) (Cow.flagged (cow w) m) /\ Cow.updated c (cow w') n (Z.min (Cow.refs c n + 1) 65535) (Cow.flagged c n)
         | ERROR => w' = w /\ exhausted (phys w)
         | _ => False
         end.
Proof.
  intros Hl Ha H Haddr Hr Hua Hw Hc Hm Hd Hci Hman. assert (Hb := fr_bounds _ _ (pt_frames _ _ (ho_inv _ _ _ H)) (proj1 Hd)). assert (Hmm := Hman m (proj1 Hd)).
  rewrite (cow_dispatch p rs w T addr r m Hl Ha H Haddr Hr Hua Hw Hc Hm ltac:(lia) Hci Hmm).
  assert (Hin : VmaSpec.r_start r <= addr < VmaSpec.r_end r) by (apply find_some in Hr as [_ Hw']; unfold VmaRefine.within in Hw'; lia).
  destruct (page_of_area r addr Hua Hin) as [Hpg _]. assert (Hva := user_area_page r _ Hua Hpg). destruct (Z.leb_spec (Cow.refs (cow w) m) 1) as [Hle|Hgt].
  - destruct (keep_frame_ok w T _ m (VmaSpec.r_prot r) H Hva Hm Hb Hci Hmm) as (w' & -> & H'). by exists w', HANDLED.
  - apply copy_frame_ok; try done. lia.
Qed.

End CowFault.

(** ** Concrete processes *)

Definition cow_start : Phys FreeList := mkPhys (<[15 * PAGE_SIZE := replicate WORDS 7]> (ram demo)) (seqZ 2 13).
Definition cow_phys : Phys FreeList := match map demo_as 0x100000000 (15 * PAGE_SIZE) 4096 READ cow_start with Ok (s, _) => s | _ => cow_start end.
Definition counted (n : Z) : Cow.CowManager := Cow.mkCow (replicate 14 0 ++ [n + 65536]) 4096 65536 15 true.
Definition demo_world (s : Phys FreeList) (c : Cow.CowManager) : World FreeList (Swap.Pages) :=
  mkWorld s c Swap.demo (asid_init (mkAsids [] 0)) (mkDebug 0 0 0 0 false) 0.
Definition cow_areas : Vma.VmaList :=
  match Vma.st (Some 0%nat) (Vma.mark_area COW) (add_area demo_heap (Vma.init VmaRefine.blank)) with Ok l => l | _ => VmaRefine.blank end.

Lemma cow_areas_ok : VmaRefine.holds cow_areas [VmaRefine.marked COW demo_heap].
Proof.
  destruct (add_area_ok demo_heap _ [] VmaRefine.blank_ok ltac:(cbn; lia)) as (xs & Hv & E). cbn [VmaRefine.spec fst] in E.
  assert (Hx : xs = [0%nat]) by (eapply seg_unique; [apply (VmaSpec.vi_list _ _ Hv)|]; split; [vm_compute; reflexivity|eexists; split; vm_compute; reflexivity]).
  subst xs. destruct (VmaRefine.mark_area_ok _ [] 0%nat [] COW Hv) as (l' & El & Hl & Er). unfold cow_areas. rewrite El. exists [0%nat]. split; [done|]. cbn [app fmap list_fmap] in *. rewrite Er.
  reflexivity.
Qed.

Lemma cow_start_holds : AddressSpaceSpec.holds cow_start (root_ demo_as) ∅.
Proof.
  apply (zero_table_holds cow_start _ 1); try done.
  - split; [apply NoDup_seqZ|]. apply Forall_forall. intros p Hp%elem_of_seqZ. lia.
  - intros p Hp. cbn [ram cow_start]. destruct (decide (p = 15)) as [->|Hne]; [rewrite lookup_insert_eq|rewrite lookup_insert_ne by (unfold PAGE_SIZE; lia); rewrite demo_pages by done]; eexists; by split.
  - cbn [pm cow_start fr_free list_laws]. rewrite elem_of_seqZ. lia.
Qed.

Definition cow_entries : gmap Z Z := <[vpn 0x100000000 := page_entry (15 * PAGE_SIZE) READ]> ∅.
Lemma cow_phys_ok : AddressSpaceSpec.holds cow_phys (root_ demo_as) cow_entries /\ grown cow_start cow_phys (root_ demo_as).
Proof.
  destruct (demand_map_ok demo_as ltac:(done) cow_start ∅ 0x100000000 15 Vma.PROT_READ cow_start_holds ltac:(split; [lia|apply Z.leb_le; reflexivity]) ltac:(lia)) as (s' & ok & E & G & _ & H).
  change (demand_map_fn (Some demo_as) 0x100000000 (15 * PAGE_SIZE) Vma.PROT_READ cow_start) with (map demo_as 0x100000000 (15 * PAGE_SIZE) 4096 READ cow_start) in E.
  assert (Hok : ok = true) by (assert (X : match map demo_as 0x100000000 (15 * PAGE_SIZE) 4096 READ cow_start with Ok (_, b) => b | _ => false end = true) by (vm_compute; reflexivity); by rewrite E in X).
  subst ok. unfold cow_phys. rewrite E. done.
Qed.

Lemma cow_data : data_of demo_as cow_phys 15.
Proof.
  destruct cow_phys_ok as [H G]. split; [cbn; lia|]. split.
  - intros Hin%(gr_shrinks _ _ _ _ G). cbn [pm cow_start fr_free list_laws] in Hin. apply elem_of_seqZ in Hin. lia.
  - intros q Hq Hr. destruct (gr_new _ _ _ G q _ Hq Hr) as [Hr'|Hin]; [|cbn [pm cow_start fr_free list_laws] in Hin; apply elem_of_seqZ in Hin; unfold PAGE_SIZE in Hin; rewrite Z.div_mul in Hin; lia].
    destruct q as [|i q]; [done|]. cbn [reach] in Hr'. assert (E : step (ram cow_start) (root_ demo_as) i = None); [|by rewrite E in Hr'].
    unfold step. cbn [ram cow_start]. rewrite lookup_insert_ne by done. change (root_ demo_as) with (1 * PAGE_SIZE). rewrite demo_pages by lia. destruct (replicate WORDS 0 !! Z.to_nat i) as [e|] eqn:E; [|done].
    by apply lookup_replicate_1 in E as [-> _].
Qed.

Lemma counted_ok n : 0 <= n < 65536 -> Cow.cinv (counted n).
Proof.
  intros Hn. constructor; try done. apply Forall_app. split; [by apply Forall_replicate|]. apply Forall_singleton. split; lia.
Qed.

Lemma cow_fault_copies_witness :
  exists w' res, handle_cow_fault (mkProc cow_areas (Some demo_as)) 0x100000010 (demo_world cow_phys (counted 2)) = Ok (w', res) /\
    match res with
    | HANDLED => exists n,
        AddressSpaceSpec.holds (phys w') (root_ demo_as) (<[vpn 0x100000000 := page_entry (n * PAGE_SIZE) (as_prot 3)]> cow_entries) /\ taken cow_phys (phys w') (root_ demo_as) [n] /\
        ram (phys w') !! (n * PAGE_SIZE) = ram cow_phys !! (15 * PAGE_SIZE) /\ ram (phys w') !! (15 * PAGE_SIZE) = ram cow_phys !! (15 * PAGE_SIZE) /\
        exists c, Cow.updated (counted 2) c 15 1 true /\ Cow.updated c (cow w') n (Z.min (Cow.refs c n + 1) 65535) (Cow.flagged c n)
    | ERROR => w' = demo_world cow_phys (counted 2) /\ exhausted cow_phys
    | _ => False
    end.
Proof.
  exact (cow_fault_copies demo_as ltac:(done) (mkProc cow_areas (Some demo_as)) _ (demo_world cow_phys (counted 2)) cow_entries 0x100000010 (VmaRefine.marked COW demo_heap) 15 cow_areas_ok eq_refl
    (proj1 cow_phys_ok) ltac:(lia) ltac:(reflexivity) ltac:(split_and!; done) ltac:(done) ltac:(done) ltac:(split; vm_compute; reflexivity) cow_data (counted_ok 2 ltac:(lia)) ltac:(intros q Hq; cbn in *; unfold Cow.managed; cbn; lia)).
Defined.

(** ** Writing after a clone *)

(** The parent touches a stack page, is cloned, and writes to the page again:
    the verdict on the write, where parent and child find the page, and the
    parent's entry for it. *)
Definition write_after_clone (addr : Z) : res (FaultResult * Z * Z * Z) :=
  '(l, s, _) ← handle_demand_fault (demand_map_fn (Some demo_as)) (fun _ _ => None) (add_area demo_stack (Vma.init VmaRefine.blank)) addr true demo;
  '(child, w, _) ← World.init (mkAS 0 0) (demo_world s (Cow.mkCow (replicate 15 0) 4096 65536 15 true));
  l ← Vma.st (Vma.head_ l) (Vma.mark_area COW) l;
  '(w, _) ← clone_cow_from child (Some demo_as) w;
  '(w, r) ← handle_cow_fault (mkProc l (Some demo_as)) addr w;
  p ← translate demo_as addr (phys w);
  c ← translate child addr (phys w);
  e ← read_pte demo_as addr (phys w);
  Ok (r, p, c, e).

(** Copy on write does not separate a process from its clone: a demand
    fault maps a frame without counting it, the clone counts the one reference
    it adds, so the first write after the clone finds a count of one and makes
    the shared frame writable.  On the machine of the examples the write fault
    is handled, parent and child still have the page in the same frame, and the
    parent's entry allows writing (bit 7 is clear). *)
Theorem write_after_clone_shared :
  exists frame e, write_after_clone 0x7FFFFFFE8010 = Ok (HANDLED, frame, frame, e) /\ frame <> 0 /\ valid e = true /\ Z.testbit e 7 = false.
Proof. exists (2 * PAGE_SIZE + 0x10), (page_entry (2 * PAGE_SIZE) (as_prot 3)). split; [vm_compute; reflexivity|]. by vm_compute. Qed.
End CowSpec.
