(* ===== verification/FdTable.v ===== *)
(** * File descriptor tables

    Models [FDTable] of [src/kernel/fs/vfs/vfs.hpp] and [close_all_fds] of
    [vfs.cpp]: which of the descriptors of a process are in use.  The file behind
    a descriptor is [A]. *)

From S2P Require Import Prelude.

Module FdTable.

Definition MAX_FDS : Z := 32.

Record FileDesc (A : Type) := mkFd { in_use : bool; file : A }.
Arguments mkFd {A}.
Arguments in_use {A}.
Arguments file {A}.

Section FdTable.
Context {A : Type}.

(** [fds]. *)
Definition FDTable : Type := list (FileDesc A).

Definition set_in_use (b : bool) (d : FileDesc A) : FileDesc A := mkFd b (file d).
Definition upd (fd : Z) (b : bool) (t : FDTable) : res FDTable := d ← rd t fd; wr t fd (set_in_use b d).

Definition init (t : FDTable) : res FDTable := foldM (fun t i => upd i false t) (seqZ 0 MAX_FDS) t.

Fixpoint alloc_loop (is_ : list Z) (t : FDTable) : res (FDTable * Z) :=
  match is_ with
  | [] => Ok (t, -1)
  | i :: is_ =>
      d ← rd t i;
      if negb (in_use d) then t ← upd i true t; Ok (t, i) else alloc_loop is_ t
  end.
Definition alloc (t : FDTable) : res (FDTable * Z) := alloc_loop (seqZ 3 (MAX_FDS - 3)) t.

Definition free (fd : Z) (t : FDTable) : res FDTable := if (0 <=? fd) && (fd <? MAX_FDS) then upd fd false t else Ok t.
Definition get (fd : Z) (t : FDTable) : res (option (FileDesc A)) :=
  if (0 <=? fd) && (fd <? MAX_FDS) then d ← rd t fd; Ok (if in_use d then Some d else None) else Ok None.

Definition close_all_fds (t : FDTable) : res FDTable :=
  foldM (fun t i => d ← rd t i; if in_use d then free i t else Ok t) (seqZ 0 MAX_FDS) t.

End FdTable.
Arguments FDTable : clear implicits.
End FdTable.
