(* ===== verification/Process.v ===== *)
(** * Processes

    Models [src/kernel/viper/viper.hpp] and [viper.cpp]: the table of processes,
    the list of all of them, the tree of parents and children, creation, exit,
    waiting, reaping, fork, the program break, process groups, sessions and
    limits.  A pointer into the table is an index.  [current] is computed from
    the running task and CPU; the operations that call it take its result.
    [child_waiters] names the wait queue of a slot.  Console output is dropped,
    and so are [task_list] and [args], which this code does not use. *)

From S2P Require Import Prelude Buddy Bitmap Frames Cow Swap AddressSpace World Vma Fault Cap Task Sched Wait Poll Channel PollSet FdTable.

Module Process.
Import Frames AddressSpace World Wait.
Import Channel(VERR_INVALID_ARG, VERR_NOT_SUPPORTED) Poll(VERR_NOT_FOUND, VERR_OUT_OF_MEMORY) PollSet(VERR_PERMISSION).

Inductive ViperState := Invalid | Creating | Running | Exiting | Zombie.
#[export] Instance ViperState_eq_dec : EqDecision ViperState.
Proof. solve_decision. Defined.
#[export] Existing Instance Vma.VmaType_eq_dec.

Abbreviation ptr := (option Z).

(** The fields of [Viper], in groups. *)
Record Links := mkLinks { parent : ptr; first_child : ptr; next_sibling : ptr; next_all : ptr; prev_all : ptr }.
Record Job := mkJob { pgid : Z; sid : Z; is_session_leader : bool }.
Record Memory := mkMemory { heap_start : Z; heap_break : Z; heap_max : Z; mmap_next : Z; vma_list : Vma.VmaList; memory_used : Z }.
Record Limits := mkLimits { memory_limit : Z; handle_limit : Z; task_limit : Z; cap_bounding_set : Z }.
Record Viper := mkViper {
  id : Z; name : list Z; ttbr0 : Z; asid : Z; cap_table : ptr; fd_table : ptr; task_count : Z;
  state : ViperState; exit_code : Z; links : Links; job : Job; mem : Memory; limits : Limits
}.

Definition set_id x v := mkViper x (name v) (ttbr0 v) (asid v) (cap_table v) (fd_table v) (task_count v) (state v) (exit_code v) (links v) (job v) (mem v) (limits v).
Definition set_name x v := mkViper (id v) x (ttbr0 v) (asid v) (cap_table v) (fd_table v) (task_count v) (state v) (exit_code v) (links v) (job v) (mem v) (limits v).
Definition set_space r a v := mkViper (id v) (name v) r a (cap_table v) (fd_table v) (task_count v) (state v) (exit_code v) (links v) (job v) (mem v) (limits v).
Definition set_cap_table x v := mkViper (id v) (name v) (ttbr0 v) (asid v) x (fd_table v) (task_count v) (state v) (exit_code v) (links v) (job v) (mem v) (limits v).
Definition set_fd_table x v := mkViper (id v) (name v) (ttbr0 v) (asid v) (cap_table v) x (task_count v) (state v) (exit_code v) (links v) (job v) (mem v) (limits v).
Definition set_task_count x v := mkViper (id v) (name v) (ttbr0 v) (asid v) (cap_table v) (fd_table v) x (state v) (exit_code v) (links v) (job v) (mem v) (limits v).
Definition set_state x v := mkViper (id v) (name v) (ttbr0 v) (asid v) (cap_table v) (fd_table v) (task_count v) x (exit_code v) (links v) (job v) (mem v) (limits v).
Definition set_exit_code x v := mkViper (id v) (name v) (ttbr0 v) (asid v) (cap_table v) (fd_table v) (task_count v) (state v) x (links v) (job v) (mem v) (limits v).
Definition set_links x v := mkViper (id v) (name v) (ttbr0 v) (asid v) (cap_table v) (fd_table v) (task_count v) (state v) (exit_code v) x (job v) (mem v) (limits v).
Definition set_job x v := mkViper (id v) (name v) (ttbr0 v) (asid v) (cap_table v) (fd_table v) (task_count v) (state v) (exit_code v) (links v) x (mem v) (limits v).
Definition set_mem x v := mkViper (id v) (name v) (ttbr0 v) (asid v) (cap_table v) (fd_table v) (task_count v) (state v) (exit_code v) (links v) (job v) x (limits v).
Definition set_limits x v := mkViper (id v) (name v) (ttbr0 v) (asid v) (cap_table v) (fd_table v) (task_count v) (state v) (exit_code v) (links v) (job v) (mem v) x.

Definition set_parent x v := let l := links v in set_links (mkLinks x (first_child l) (next_sibling l) (next_all l) (prev_all l)) v.
Definition set_first_child x v := let l := links v in set_links (mkLinks (parent l) x (next_sibling l) (next_all l) (prev_all l)) v.
Definition set_next_sibling x v := let l := links v in set_links (mkLinks (parent l) (first_child l) x (next_all l) (prev_all l)) v.
Definition set_next_all x v := let l := links v in set_links (mkLinks (parent l) (first_child l) (next_sibling l) x (prev_all l)) v.
Definition set_prev_all x v := let l := links v in set_links (mkLinks (parent l) (first_child l) (next_sibling l) (next_all l) x) v.
Definition set_areas l m := mkMemory (heap_start m) (heap_break m) (heap_max m) (mmap_next m) l (memory_used m).
Definition set_used x m := mkMemory (heap_start m) (heap_break m) (heap_max m) (mmap_next m) (vma_list m) x.
Definition set_break x m := mkMemory (heap_start m) x (heap_max m) (mmap_next m) (vma_list m) (memory_used m).

Definition USER_HEAP_BASE : Z := 0x100000000.
Definition USER_MMAP_BASE : Z := 0x200000000.
Definition USER_STACK_TOP : Z := 0x7FFFFFFF0000.
Definition USER_STACK_SIZE : Z := 1 * 1024 * 1024.
Definition DEFAULT_MEMORY_LIMIT : Z := 64 * 1024 * 1024.
Definition DEFAULT_HANDLE_LIMIT : Z := 1024.
Definition DEFAULT_TASK_LIMIT : Z := 16.
Definition MAX_VIPERS : Z := 64.
Definition HEAP_MAX : Z := USER_HEAP_BASE + 64 * 1024 * 1024.

(** [static_cast<i64>]. *)
Definition i64 (z : Z) : Z := if u64 z <? 2 ^ 63 then u64 z else u64 z - 2 ^ 64.

(** Enough for any list in the table. *)
Definition FUEL : nat := 66.

Section Processes.
Context {F : Type} {frames : FrameAllocator F} {D : Type} {S : Type} {TO : TaskOps S} {A : Type}.
Context (child_waiters : Z -> Z).

Record Procs := mkProcs {
  vipers : list Viper; next_viper_id : Z; all_vipers_head : ptr; current_viper : ptr;
  address_spaces : list AddressSpace; cap_tables : list Cap.Table; fd_tables : list (FdTable.FDTable A);
  world : World F D; waits : Waits; tasks : S
}.
Implicit Type k : Procs.

Definition set_vipers x k := mkProcs x (next_viper_id k) (all_vipers_head k) (current_viper k) (address_spaces k) (cap_tables k) (fd_tables k) (world k) (waits k) (tasks k).
Definition set_next_id x k := mkProcs (vipers k) x (all_vipers_head k) (current_viper k) (address_spaces k) (cap_tables k) (fd_tables k) (world k) (waits k) (tasks k).
Definition set_all x k := mkProcs (vipers k) (next_viper_id k) x (current_viper k) (address_spaces k) (cap_tables k) (fd_tables k) (world k) (waits k) (tasks k).
Definition set_spaces x w k := mkProcs (vipers k) (next_viper_id k) (all_vipers_head k) (current_viper k) x (cap_tables k) (fd_tables k) w (waits k) (tasks k).
Definition set_cap_tables x k := mkProcs (vipers k) (next_viper_id k) (all_vipers_head k) (current_viper k) (address_spaces k) x (fd_tables k) (world k) (waits k) (tasks k).
Definition set_fd_tables x k := mkProcs (vipers k) (next_viper_id k) (all_vipers_head k) (current_viper k) (address_spaces k) (cap_tables k) x (world k) (waits k) (tasks k).
Definition set_world w k := mkProcs (vipers k) (next_viper_id k) (all_vipers_head k) (current_viper k) (address_spaces k) (cap_tables k) (fd_tables k) w (waits k) (tasks k).
Definition set_waits (x : Waits * S) k := mkProcs (vipers k) (next_viper_id k) (all_vipers_head k) (current_viper k) (address_spaces k) (cap_tables k) (fd_tables k) (world k) x.1 x.2.

(** Reading a field of a process and writing to a process. *)
Definition viper (i : Z) k : res Viper := rd (vipers k) i.
Definition get {B} (f : Viper -> B) (i : Z) k : res B := v ← viper i k; Ok (f v).
Definition link (f : Links -> ptr) (i : Z) k : res ptr := v ← viper i k; Ok (f (links v)).
Definition put (i : Z) (f : Viper -> Viper) k : res Procs := v ← viper i k; l ← wr (vipers k) i (f v); Ok (set_vipers l k).

(** ** Creation *)

Definition init_slot (v : Viper) : Viper :=
  mkViper 0 (<[0%nat := 0]> (name v)) 0 0 None None 0 Invalid 0 (mkLinks None None None None None) (mkJob 0 0 false)
    (mkMemory USER_HEAP_BASE USER_HEAP_BASE HEAP_MAX USER_MMAP_BASE (vma_list (mem v)) 0)
    (mkLimits DEFAULT_MEMORY_LIMIT DEFAULT_HANDLE_LIMIT DEFAULT_TASK_LIMIT Cap.CAP_ALL).

Definition init k : Procs :=
  let w := set_asids (asid_init (asids (world k))) (world k) in
  mkProcs (init_slot <$> vipers k) 1 None None (address_spaces k) (cap_tables k) (fd_tables k) w
    (foldl (fun x i => wait_init (child_waiters i) x) (waits k) (seqZ 0 MAX_VIPERS)) (tasks k).

Fixpoint find_invalid (is_ : list Z) k : res ptr :=
  match is_ with
  | [] => Ok None
  | i :: is_ => st ← get state i k; if bool_decide (st = Invalid) then Ok (Some i) else find_invalid is_ k
  end.
Definition alloc_viper k : res (Procs * ptr) :=
  i ← find_invalid (seqZ 0 MAX_VIPERS) k;
  match i with
  | None => Ok (k, None)
  | Some i => k ← put i (set_state Creating) k; Ok (k, Some i)
  end.

Definition RW : Z := Z.lor Vma.PROT_READ Vma.PROT_WRITE.
Definition STACK_BOTTOM : Z := USER_STACK_TOP - USER_STACK_SIZE.
Definition init_memory_regions (m : Memory) : res Memory :=
  let l := Vma.init (vma_list m) in
  '(l, _) ← Vma.add USER_HEAP_BASE HEAP_MAX RW Vma.ANONYMOUS l;
  '(l, _) ← Vma.add STACK_BOTTOM USER_STACK_TOP RW Vma.STACK l;
  '(l, _) ← Vma.add (STACK_BOTTOM - 4096) STACK_BOTTOM 0 Vma.GUARD l;
  Ok (mkMemory USER_HEAP_BASE USER_HEAP_BASE HEAP_MAX USER_MMAP_BASE l (memory_used m)).

Definition init_from_parent (i : Z) (parent : ptr) k : res Procs :=
  k ← put i (fun v => set_task_count 0 (set_mem (set_used 0 (mem v)) v)) k;
  let k := set_waits (wait_init (child_waiters i) (waits k), tasks k) k in
  k ← put i (set_exit_code 0) k;
  k ← match parent with
      | Some p =>
          pv ← viper p k;
          k ← put i (fun v => set_limits (limits pv) (set_job (mkJob (pgid (job pv)) (sid (job pv)) false) v)) k;
          first ← link first_child p k;
          k ← put i (set_next_sibling first) k;
          put p (set_first_child (Some i)) k
      | None =>
          put i (fun v => set_limits (mkLimits DEFAULT_MEMORY_LIMIT DEFAULT_HANDLE_LIMIT DEFAULT_TASK_LIMIT Cap.CAP_ALL)
                   (set_job (mkJob (id v) (id v) true) v)) k
      end;
  put i (fun v => set_first_child None (set_parent parent v)) k.

Definition add_to_global_list (i : Z) k : res Procs :=
  k ← put i (fun v => set_prev_all None (set_next_all (all_vipers_head k) v)) k;
  k ← match all_vipers_head k with Some h => put h (set_prev_all (Some i)) k | None => Ok k end;
  Ok (set_all (Some i) k).

(** At most 31 characters up to the end of [s], then a 0 in the last place. *)
Fixpoint copy_name (n : nat) (s old : list Z) : list Z :=
  match n, s, old with
  | Datatypes.S n, c :: s, o :: old => if c =? 0 then o :: old else c :: copy_name n s old
  | _, _, _ => old
  end.
Definition set_string (s : list Z) (v : Viper) : Viper := set_name (<[31%nat := 0]> (copy_name 31 s (name v))) v.

Definition DEVICE_ROOT_RIGHTS : Z :=
  Z.lor (Z.lor (Z.lor (Z.lor Cap.CAP_DEVICE_ACCESS Cap.CAP_IRQ_ACCESS) Cap.CAP_DMA_ACCESS) Cap.CAP_TRANSFER) Cap.CAP_DERIVE.

(** The part of [create] after the address space [a] of slot [i] exists.
    [heap_ok] tells whether the kernel heap has room for the capability table;
    [token] is the address of [device_root_token]. *)
Definition populate (heap_ok : bool) (token i : Z) (a : AddressSpace) (parent : ptr) k : res (Procs * ptr) :=
  k ← put i (set_space (root_ a) (asid_ a)) k;
  k ← init_from_parent i parent k;
  v ← viper i k;
  m ← init_memory_regions (mem v);
  k ← put i (set_mem m) k;
  ct ← rd (cap_tables k) i;
  '(ct, ok) ← Cap.init heap_ok 256 ct;
  tables ← wr (cap_tables k) i ct;
  let k := set_cap_tables tables k in
  if negb (ok : bool) then
    '(a, w) ← World.destroy a (world k);
    spaces ← wr (address_spaces k) i a;
    k ← put i (fun v => set_id 0 (set_state Invalid v)) (set_spaces spaces w k); Ok (k, None)
  else
    k ← put i (set_cap_table (Some i)) k;
    ct ← rd (cap_tables k) i;
    ct ← match parent with
         | None => '(ct, _) ← Cap.insert ct token Cap.Device DEVICE_ROOT_RIGHTS; Ok ct
         | Some _ => Ok ct
         end;
    tables ← wr (cap_tables k) i ct;
    let k := set_cap_tables tables k in
    fdt ← rd (fd_tables k) i;
    fdt ← FdTable.init fdt;
    tables ← wr (fd_tables k) i fdt;
    k ← put i (set_fd_table (Some i)) (set_fd_tables tables k);
    k ← add_to_global_list i k;
    k ← put i (set_state Running) k;
    Ok (k, Some i).

Definition create (heap_ok : bool) (token : Z) (parent : ptr) (s : list Z) k : res (Procs * ptr) :=
  '(k, r) ← alloc_viper k;
  match r with
  | None => Ok (k, None)
  | Some i =>
      k ← put i (set_id (next_viper_id k)) k;
      let k := set_next_id (u64 (next_viper_id k + 1)) k in
      k ← put i (set_string s) k;
      a ← rd (address_spaces k) i;
      '(a, w, ok) ← World.init a (world k);
      spaces ← wr (address_spaces k) i a;
      let k := set_spaces spaces w k in
      if negb (ok : bool) then
        k ← put i (fun v => set_id 0 (set_state Invalid v)) k; Ok (k, None)
      else populate heap_ok token i a parent k
  end.

(** ** Destruction *)

(** The walk along [*pp] in the sibling list: [prev] is the process whose
    [next_sibling] is [*pp], or none for the head of the list of [p]. *)
Fixpoint unlink_child (fuel : nat) (p : Z) (prev : ptr) (v : Z) k : res Procs :=
  cur ← match prev with None => link first_child p k | Some q => link next_sibling q k end;
  match cur with
  | None => Ok k
  | Some c =>
      if c =? v then
        n ← link next_sibling v k;
        match prev with None => put p (set_first_child n) k | Some q => put q (set_next_sibling n) k end
      else match fuel with O => Diverge | Datatypes.S fuel => unlink_child fuel p (Some c) v k end
  end.
Definition remove_from_parent (i : Z) k : res Procs :=
  p ← link parent i k;
  match p with None => Ok k | Some p => unlink_child FUEL p None i k end.

Definition unlink_all (i : Z) k : res Procs :=
  v ← viper i k;
  let l := links v in
  k ← match prev_all l with
      | Some q => put q (set_next_all (next_all l)) k
      | None => Ok (set_all (next_all l) k)
      end;
  n ← link next_all i k;
  match n with Some n => p ← link prev_all i k; put n (set_prev_all p) k | None => Ok k end.

Definition destroy (v : ptr) k : res Procs :=
  match v with
  | None => Ok k
  | Some i =>
      st ← get state i k;
      if bool_decide (st = Invalid) then Ok k
      else
        fdt ← rd (fd_tables k) i;
        fdt ← FdTable.close_all_fds fdt;
        tables ← wr (fd_tables k) i fdt;
        k ← put i (set_fd_table None) (set_fd_tables tables k);
        a ← rd (address_spaces k) i;
        '(a, w) ← World.destroy a (world k);
        spaces ← wr (address_spaces k) i a;
        let k := set_spaces spaces w k in
        ct ← rd (cap_tables k) i;
        tables ← wr (cap_tables k) i (Cap.destroy ct);
        k ← unlink_all i (set_cap_tables tables k);
        k ← put i (set_state Invalid) k;
        k ← remove_from_parent i k;
        put i (fun v => set_id 0 (set_name (<[0%nat := 0]> (name v)) v)) k
  end.

(** ** Lookup *)

(** The process of the running task, else that of the CPU, else the global. *)
Definition current (task_viper cpu_viper : ptr) k : ptr :=
  match task_viper, cpu_viper with
  | Some v, _ => Some v
  | None, Some v => Some v
  | None, None => current_viper k
  end.
Definition set_current (v : ptr) k : Procs :=
  mkProcs (vipers k) (next_viper_id k) (all_vipers_head k) v (address_spaces k) (cap_tables k) (fd_tables k) (world k) (waits k) (tasks k).

Fixpoint find_loop (fuel : nat) (n : Z) (v : ptr) k : res ptr :=
  match v with
  | None => Ok None
  | Some i =>
      match fuel with
      | O => Diverge
      | Datatypes.S fuel =>
          x ← viper i k;
          if (id x =? n) && negb (bool_decide (state x = Invalid)) then Ok (Some i) else find_loop fuel n (next_all (links x)) k
      end
  end.
Definition find (n : Z) k : res ptr := find_loop FUEL n (all_vipers_head k) k.

Definition current_cap_table (cur : ptr) k : res ptr :=
  match cur with Some i => get cap_table i k | None => Ok None end.
Definition get_address_space (v : ptr) : ptr :=
  match v with Some i => if (i <? 0) || (MAX_VIPERS <=? i) then None else Some i | None => None end.

(** ** Exit and wait *)

Fixpoint reparent (fuel : nat) (init child : ptr) k : res Procs :=
  match child with
  | None => Ok k
  | Some c =>
      match fuel with
      | O => Diverge
      | Datatypes.S fuel =>
          next ← link next_sibling c k;
          k ← put c (set_parent init) k;
          k ← match init with
              | Some n =>
                  f ← link first_child n k;
                  k ← put c (set_next_sibling f) k;
                  put n (set_first_child (Some c)) k
              | None => Ok k
              end;
          reparent fuel init next k
      end
  end.

Definition exit (code : Z) (cur : ptr) k : res Procs :=
  match cur with
  | None => Ok k
  | Some i =>
      k ← put i (fun v => set_state Zombie (set_exit_code code v)) k;
      init ← find 1 k;
      child ← link first_child i k;
      k ← reparent FUEL init child k;
      k ← put i (set_first_child None) k;
      p ← link parent i k;
      match p with
      | Some p => '(w, s, _) ← wait_wake_one (child_waiters p) (waits k, tasks k); Ok (set_waits (w, s) k)
      | None => Ok k
      end
  end.

Definition reap (child : ptr) k : res Procs :=
  match child with
  | None => Ok k
  | Some c =>
      st ← get state c k;
      if negb (bool_decide (st = Zombie)) then Ok k
      else k ← remove_from_parent c k; destroy (Some c) k
  end.

(** The first zombie among the children that is asked for. *)
Fixpoint find_zombie (fuel : nat) (child_id : Z) (child : ptr) k : res ptr :=
  match child with
  | None => Ok None
  | Some c =>
      match fuel with
      | O => Diverge
      | Datatypes.S fuel =>
          x ← viper c k;
          if bool_decide (state x = Zombie) && ((child_id =? -1) || (u64 child_id =? id x)) then Ok (Some c)
          else find_zombie fuel child_id (next_sibling (links x)) k
      end
  end.

(** One round of the loop of [wait]: it returns with the status it stores, or
    blocks, to run another round when the task is woken. *)
Inductive Round := Return (r : Z) (status : option Z) | Block.
Definition wait (child_id : Z) (nohang : bool) (task cur : ptr) k : res (Procs * Round) :=
  match cur with
  | None => Ok (k, Return VERR_NOT_SUPPORTED None)
  | Some i =>
      first ← link first_child i k;
      z ← find_zombie FUEL child_id first k;
      match z with
      | Some c =>
          x ← viper c k;
          k ← reap (Some c) k;
          Ok (k, Return (i64 (id x)) (Some (exit_code x)))
      | None =>
          match first with
          | None => Ok (k, Return VERR_NOT_FOUND None)
          | Some _ =>
              if nohang then Ok (k, Return 0 None)
              else
                match task with
                | None => Ok (k, Return VERR_NOT_SUPPORTED None)
                | Some t => Ok (set_waits (wait_enqueue (child_waiters i) t (waits k, tasks k)) k, Block)
                end
          end
      end
  end.

(** ** Fork *)

Definition cow_area (t : Vma.VmaType) : bool := bool_decide (t = Vma.ANONYMOUS) || bool_decide (t = Vma.STACK).

(** The loop over the areas of the parent [p]: whether all were copied. *)
Fixpoint clone_areas (fuel : nat) (p c : Z) (v : Vma.ptr) k : res (Procs * bool) :=
  match v with
  | None => Ok (k, true)
  | Some _ =>
      match fuel with
      | O => Diverge
      | Datatypes.S fuel =>
          pm ← get mem p k;
          a ← Vma.node (vma_list pm) v;
          cm ← get mem c k;
          '(l, child_vma) ← Vma.add (Vma.start a) (Vma.end_ a) (Vma.prot a) (Vma.type a) (vma_list cm);
          k ← put c (fun x => set_mem (set_areas l (mem x)) x) k;
          match child_vma with
          | None => Ok (k, false)
          | Some _ =>
              k ← (if cow_area (Vma.type a) then
                     pl ← Vma.st v (Vma.mark_area Fault.COW) (vma_list pm);
                     k ← put p (fun x => set_mem (set_areas pl (mem x)) x) k;
                     l ← Vma.st child_vma (Vma.mark_area Fault.COW) l;
                     put c (fun x => set_mem (set_areas l (mem x)) x) k
                   else Ok k);
              clone_areas fuel p c (Vma.next a) k
          end
      end
  end.

Definition fork (heap_ok : bool) (token : Z) (cur : ptr) k : res (Procs * ptr) :=
  match cur with
  | None => Ok (k, None)
  | Some p =>
      pv ← viper p k;
      '(k, child) ← create heap_ok token (Some p) (name pv) k;
      match child with
      | None => Ok (k, None)
      | Some c =>
          match get_address_space (Some p), get_address_space (Some c) with
          | Some pi, Some ci =>
              pm ← get mem p k;
              '(k, ok) ← clone_areas Vma.FUEL p c (Vma.head_ (vma_list pm)) k;
              if negb (ok : bool) then k ← destroy (Some c) k; Ok (k, None)
              else
                pa ← rd (address_spaces k) pi;
                ca ← rd (address_spaces k) ci;
                '(w, ok) ← clone_cow_from ca (Some pa) (world k);
                let k := set_world w k in
                if negb (ok : bool) then k ← destroy (Some c) k; Ok (k, None)
                else
                  pv ← viper p k;
                  let pm := mem pv in
                  k ← put c (fun x => set_limits (limits pv)
                        (set_mem (mkMemory (heap_start pm) (heap_break pm) (heap_max pm) (mmap_next pm) (vma_list (mem x)) (memory_used (mem x))) x)) k;
                  Ok (k, Some c)
          | _, _ => k ← destroy (Some c) k; Ok (k, None)
          end
      end
  end.

(** ** The program break *)

Inductive Sbrk := Break (b : Z) | Failed (e : Z).

(** The loop that maps new pages: whether all were mapped. *)
Fixpoint grow_heap (addrs : list Z) (a : AddressSpace) (s : Phys F) : res (Phys F * bool) :=
  match addrs with
  | [] => Ok (s, true)
  | addr :: addrs =>
      '(s, phys) ← new_page s;
      if phys =? 0 then Ok (s, false)
      else
        s ← zero_page phys s;
        '(s, ok) ← map a addr phys Buddy.PAGE_SIZE (Z.lor READ WRITE) s;
        if (ok : bool) then grow_heap addrs a s else s ← drop_page phys s; Ok (s, false)
  end.
Definition shrink_page (a : AddressSpace) (s : Phys F) (addr : Z) : res (Phys F) :=
  phys ← translate a addr s;
  if phys =? 0 then Ok s else s ← unmap a addr Buddy.PAGE_SIZE s; drop_page phys s.

(** The addresses [from], [from + PAGE_SIZE] and so on below [to]. *)
Definition pages (from to : Z) : list Z := (fun i => from + i * Buddy.PAGE_SIZE) <$> seqZ 0 ((to - from + (Buddy.PAGE_SIZE - 1)) / Buddy.PAGE_SIZE).

(** [increment] is not the least 64-bit number, whose negation overflows. *)
Definition do_sbrk (v : ptr) (increment : Z) k : res (Procs * Sbrk) :=
  match v with
  | None => Ok (k, Failed (-1))
  | Some i =>
      m ← get mem i k;
      let old_break := heap_break m in
      if increment =? 0 then Ok (k, Break old_break)
      else if increment =? - 2 ^ 63 then Ub
      else if (increment <? 0) && (u64 (old_break - heap_start m) <? - increment) then Ok (k, Failed VERR_INVALID_ARG)
      else
        let new_break := u64 (old_break + increment) in
        if heap_max m <? new_break then Ok (k, Failed VERR_OUT_OF_MEMORY)
        else
          match get_address_space (Some i) with
          | None => Ok (k, Failed VERR_NOT_SUPPORTED)
          | Some j =>
              a ← rd (address_spaces k) j;
              let old_page := Buddy.page_align_up old_break in
              let new_page := Buddy.page_align_up new_break in
              if 0 <? increment then
                '(s, ok) ← grow_heap (pages old_page new_page) a (phys (world k));
                let k := set_world (set_phys s (world k)) k in
                if negb (ok : bool) then Ok (k, Failed VERR_OUT_OF_MEMORY)
                else
                  k ← put i (fun x => set_mem (set_break new_break (set_used (u64 (memory_used m + increment)) (mem x))) x) k;
                  Ok (k, Break old_break)
              else
                s ← foldM (shrink_page a) (pages new_page old_page) (phys (world k));
                k ← put i (fun x => set_mem (set_break new_break (set_used (u64 (memory_used m + increment)) (mem x))) x) (set_world (set_phys s (world k)) k);
                Ok (k, Break old_break)
          end
  end.

(** ** Groups, sessions and limits *)

(** The process a call names: the caller for 0. *)
Definition target (pid : Z) (cur : ptr) k : res ptr := if pid =? 0 then Ok cur else find pid k.

Definition getpgid (pid : Z) (cur : ptr) k : res Z :=
  v ← target pid cur k;
  match v with None => Ok VERR_NOT_FOUND | Some i => get (fun x => i64 (pgid (job x))) i k end.
Definition getsid (pid : Z) (cur : ptr) k : res Z :=
  v ← target pid cur k;
  match v with None => Ok VERR_NOT_FOUND | Some i => get (fun x => i64 (sid (job x))) i k end.

Definition setpgid (pid group : Z) (cur : ptr) k : res (Procs * Z) :=
  match cur with
  | None => Ok (k, VERR_PERMISSION)
  | Some caller =>
      v ← target pid cur k;
      match v with
      | None => Ok (k, VERR_NOT_FOUND)
      | Some i =>
          x ← viper i k;
          if negb (i =? caller) && negb (bool_decide (parent (links x) = Some caller)) then Ok (k, VERR_PERMISSION)
          else if is_session_leader (job x) then Ok (k, VERR_PERMISSION)
          else
            let group := if group =? 0 then id x else group in
            pgl ← find group k;
            foreign ← match pgl with Some g => s ← get (fun y => sid (job y)) g k; Ok (negb (s =? sid (job x))) | None => Ok false end;
            if (foreign : bool) then Ok (k, VERR_PERMISSION)
            else k ← put i (set_job (mkJob group (sid (job x)) (is_session_leader (job x)))) k; Ok (k, 0)
      end
  end.

Definition setsid (cur : ptr) k : res (Procs * Z) :=
  match cur with
  | None => Ok (k, VERR_NOT_SUPPORTED)
  | Some i =>
      x ← viper i k;
      if pgid (job x) =? id x then Ok (k, VERR_PERMISSION)
      else k ← put i (set_job (mkJob (id x) (id x) true)) k; Ok (k, i64 (id x))
  end.

Definition get_cap_bounding_set (v : ptr) k : res Z :=
  match v with None => Ok 0 | Some i => get (fun x => cap_bounding_set (limits x)) i k end.
Definition drop_cap_bounding_set (v : ptr) (rights_to_drop : Z) k : res (Procs * Z) :=
  match v with
  | None => Ok (k, VERR_INVALID_ARG)
  | Some i =>
      k ← put i (fun x => let l := limits x in
            set_limits (mkLimits (memory_limit l) (handle_limit l) (task_limit l) (Z.land (cap_bounding_set l) (u32 (Z.lnot rights_to_drop)))) x) k;
      Ok (k, 0)
  end.

Inductive ResourceLimit := LimitMemory | LimitHandles | LimitTasks | LimitCount.

Definition get_rlimit (r : ResourceLimit) (cur : ptr) k : res Z :=
  match cur with
  | None => Ok VERR_NOT_FOUND
  | Some i =>
      l ← get limits i k;
      Ok (match r with
          | LimitMemory => i64 (memory_limit l) | LimitHandles => handle_limit l | LimitTasks => task_limit l
          | LimitCount => VERR_INVALID_ARG
          end)
  end.

Definition set_rlimit (r : ResourceLimit) (new_limit : Z) (cur : ptr) k : res (Procs * Z) :=
  match cur with
  | None => Ok (k, VERR_NOT_FOUND)
  | Some i =>
      l ← get limits i k;
      let lower (old : Z) (l' : Limits) :=
        if old <? new_limit then Ok (k, VERR_PERMISSION) else k ← put i (set_limits l') k; Ok (k, 0) in
      match r with
      | LimitMemory => lower (memory_limit l) (mkLimits new_limit (handle_limit l) (task_limit l) (cap_bounding_set l))
      | LimitHandles => lower (handle_limit l) (mkLimits (memory_limit l) (u32 new_limit) (task_limit l) (cap_bounding_set l))
      | LimitTasks => lower (task_limit l) (mkLimits (memory_limit l) (handle_limit l) (u32 new_limit) (cap_bounding_set l))
      | LimitCount => Ok (k, VERR_INVALID_ARG)
      end
  end.

Definition handles (x : Viper) k : res Z :=
  match cap_table x with Some j => ct ← rd (cap_tables k) j; Ok (Cap.count ct) | None => Ok 0 end.

Definition get_rusage (r : ResourceLimit) (cur : ptr) k : res Z :=
  match cur with
  | None => Ok VERR_NOT_FOUND
  | Some i =>
      x ← viper i k;
      match r with
      | LimitMemory => Ok (i64 (memory_used (mem x)))
      | LimitHandles => n ← handles x k; Ok (i64 n)
      | LimitTasks => Ok (task_count x)
      | LimitCount => Ok VERR_INVALID_ARG
      end
  end.

Definition would_exceed_rlimit (v : ptr) (r : ResourceLimit) (amount : Z) k : res bool :=
  match v with
  | None => Ok true
  | Some i =>
      x ← viper i k;
      match r with
      | LimitMemory => Ok (memory_limit (limits x) <? u64 (memory_used (mem x) + amount))
      | LimitHandles => n ← handles x k; Ok (handle_limit (limits x) <? u64 (n + amount))
      | LimitTasks => Ok (task_limit (limits x) <? u64 (task_count x + amount))
      | LimitCount => Ok true
      end
  end.

End Processes.
Arguments Procs : clear implicits.
End Process.
