(* ===== verification/ProcessSpec.v ===== *)
(** * The forest of processes

    The invariant of the process table: the list of all processes holds the slots
    in use, and the lists of children are the children of each process.  What
    creation, exit and reaping do to it. *)

From stdpp Require Import functions.
From S2P Require Import Prelude Buddy Bitmap Frames Cow Swap AddressSpace World Vma VmaTree VmaOps VmaSpec VmaRefine Fault Cap CapTable CapRevoke CapSpec Task Sched Wait Poll Channel PollSet FdTable Process.

Module ProcessSpec.
Import Frames AddressSpace World Wait Process.

(** ** Singly and doubly linked lists *)

(** The list [xs] starts at [h] and ends in [e]; [prv] gives the predecessors. *)
Fixpoint seg (nxt : Z -> ptr) (h : ptr) (xs : list Z) (e : ptr) : Prop :=
  match xs with [] => h = e | x :: xs => h = Some x /\ seg nxt (nxt x) xs e end.
Fixpoint back (prv : Z -> ptr) (p : ptr) (xs : list Z) : Prop :=
  match xs with [] => True | x :: xs => prv x = p /\ back prv (Some x) xs end.
Definition hp (xs : list Z) (e : ptr) : ptr := match xs with [] => e | x :: _ => Some x end.
Definition lp (p : ptr) (xs : list Z) : ptr := match last xs with Some x => Some x | None => p end.

Lemma seg_ext nxt nxt' h xs e : (forall x, x ∈ xs -> nxt' x = nxt x) -> seg nxt h xs e -> seg nxt' h xs e.
Proof.
  revert h. induction xs as [|x xs IH]; intros h E; [done|]. intros [-> H]. split; [done|]. rewrite E by (by left). apply IH; [|done]. intros y Hy. apply E. by right.
Qed.
Lemma back_ext prv prv' p xs : (forall x, x ∈ xs -> prv' x = prv x) -> back prv p xs -> back prv' p xs.
Proof.
  revert p. induction xs as [|x xs IH]; intros p E; [done|]. intros [<- H]. split; [apply E; by left|]. apply IH; [|done]. intros y Hy. apply E. by right.
Qed.

Lemma pseg_hp nxt h xs e : seg nxt h xs e -> h = hp xs e.
Proof. destruct xs; [done|]. by intros [-> _]. Qed.
Lemma pseg_app nxt h xs ys e : seg nxt h (xs ++ ys) e <-> seg nxt h xs (hp ys e) /\ seg nxt (hp ys e) ys e.
Proof.
  revert h. induction xs as [|x xs IH]; intros h; cbn [app seg].
  - split; [|by intros [-> ?]]. intros H. assert (E := pseg_hp _ _ _ _ H). by subst.
  - rewrite IH. tauto.
Qed.
Lemma lp_snoc p xs x : lp p (xs ++ [x]) = Some x.
Proof. unfold lp. by rewrite last_snoc. Qed.
Lemma lp_cons p x xs : lp p (x :: xs) = lp (Some x) xs.
Proof. unfold lp. rewrite last_cons. by destruct (last xs). Qed.
Lemma back_app prv p xs ys : back prv p (xs ++ ys) <-> back prv p xs /\ back prv (lp p xs) ys.
Proof. revert p. induction xs as [|x xs IH]; intros p; [cbn; tauto|]. rewrite lp_cons. cbn [app back]. rewrite IH. tauto. Qed.

(** A list that ends elsewhere. *)
Lemma seg_redirect nxt nxt' h pre q e e' :
  seg nxt h (pre ++ [q]) e -> (forall x, x ∈ pre -> nxt' x = nxt x) -> nxt' q = e' -> seg nxt' h (pre ++ [q]) e'.
Proof. intros [H1 _]%pseg_app E Eq. apply pseg_app. split; [by eapply seg_ext|]. by split. Qed.

Lemma snoc_cases {A} (xs : list A) : xs = [] \/ exists ys x, xs = ys ++ [x].
Proof. destruct xs using rev_ind; eauto. Qed.

(** ** Access to the table *)

Section Spec.
Context {F : Type} {frames : FrameAllocator F} {D : Type} {S : Type} {TO : TaskOps S} {A : Type}.
Context (child_waiters : Z -> Z).
Abbreviation Procs := (Process.Procs F D S A).
Implicit Type k : Procs.

Definition no_viper : Viper :=
  mkViper 0 [] 0 0 None None 0 Invalid 0 (mkLinks None None None None None) (mkJob 0 0 false) (mkMemory 0 0 0 0 VmaRefine.blank 0) (mkLimits 0 0 0 0).
Definition vi k (i : Z) : Viper := default no_viper (vipers k !! Z.to_nat i).
Definition slot (i : Z) : Prop := 0 <= i < MAX_VIPERS.
Definition upd (i : Z) (f : Viper -> Viper) k : Procs := set_vipers (alter f (Z.to_nat i) (vipers k)) k.
Definition sized k : Prop := Z.of_nat (length (vipers k)) = MAX_VIPERS.

Lemma sized_upd i f k : sized (upd i f k) <-> sized k.
Proof. unfold sized, upd. cbn [vipers set_vipers]. by rewrite length_alter. Qed.
Lemma vi_lookup k i : sized k -> slot i -> vipers k !! Z.to_nat i = Some (vi k i).
Proof.
  intros Hs Hi. unfold vi. unfold sized, slot in *. destruct (vipers k !! Z.to_nat i) eqn:E; [done|]. apply lookup_ge_None_1 in E. lia.
Qed.
Lemma viper_eq k i : sized k -> slot i -> viper i k = Ok (vi k i).
Proof. intros Hs Hi. unfold viper. apply rd_Z; [apply Hi|]. by apply vi_lookup. Qed.
Lemma get_eq {B} (f : Viper -> B) k i : sized k -> slot i -> get f i k = Ok (f (vi k i)).
Proof. intros Hs Hi. unfold get. by rewrite viper_eq, bind_Ok. Qed.
Lemma link_eq f k i : sized k -> slot i -> link f i k = Ok (f (links (vi k i))).
Proof. intros Hs Hi. unfold link. by rewrite viper_eq, bind_Ok. Qed.
Lemma put_eq k i f : sized k -> slot i -> put i f k = Ok (upd i f k).
Proof.
  intros Hs Hi. unfold put. rewrite viper_eq, bind_Ok by done. assert (E := vi_lookup k i Hs Hi). rewrite wr_Z by (apply lookup_lt_Some in E; unfold slot in Hi; lia). rewrite bind_Ok. unfold upd.
  do 2 f_equal. apply list_eq. intros j. destruct (decide (Z.to_nat i = j)) as [<-|Hne].
  - rewrite list_lookup_insert_eq by (by eapply lookup_lt_Some). by rewrite list_lookup_alter_eq, E.
  - by rewrite list_lookup_insert_ne, list_lookup_alter_ne.
Qed.
Lemma vi_upd i j f k : sized k -> slot i -> slot j -> vi (upd i f k) j = if bool_decide (j = i) then f (vi k j) else vi k j.
Proof.
  intros Hs Hi Hj. unfold vi, upd. cbn [vipers set_vipers]. case_bool_decide as E.
  - subst j. by rewrite list_lookup_alter_eq, (vi_lookup k i).
  - rewrite list_lookup_alter_ne; [done|]. unfold slot in *. lia.
Qed.

(** Everything but the processes. *)
Definition rest k : Procs := set_vipers [] k.

Lemma slot_put_ok k i f :
  sized k -> slot i -> exists k', put i f k = Ok k' /\ sized k' /\ rest k' = rest k /\ forall j, slot j -> vi k' j = if bool_decide (j = i) then f (vi k j) else vi k j.
Proof.
  intros Hs Hi. exists (upd i f k). split; [by apply put_eq|]. split; [by apply sized_upd|]. split; [done|]. intros j Hj. by apply vi_upd.
Qed.

Lemma rest_inv k k' : rest k' = rest k ->
  next_viper_id k' = next_viper_id k /\ all_vipers_head k' = all_vipers_head k /\ current_viper k' = current_viper k /\ address_spaces k' = address_spaces k /\
  cap_tables k' = cap_tables k /\ fd_tables k' = fd_tables k /\ world k' = world k /\ waits k' = waits k /\ tasks k' = tasks k.
Proof. destruct k, k'. unfold rest. cbn. by intros [= -> -> -> -> -> -> -> -> ->]. Qed.

(** ** The invariant *)

Record forest k (all : list Z) (kids : Z -> list Z) : Prop := {
  fo_sized : sized k;
  fo_all : seg (fun i => next_all (links (vi k i))) (all_vipers_head k) all None;
  fo_back : back (fun i => prev_all (links (vi k i))) None all;
  fo_nodup : NoDup all;
  fo_slots : forall i, i ∈ all -> slot i;
  fo_live : forall i, slot i -> (i ∈ all <-> state (vi k i) <> Invalid);
  fo_kids : forall p, p ∈ all -> seg (fun i => next_sibling (links (vi k i))) (first_child (links (vi k p))) (kids p) None;
  fo_kids_nodup : forall p, p ∈ all -> NoDup (kids p);
  fo_kids_in : forall p c, p ∈ all -> (c ∈ kids p <-> c ∈ all /\ parent (links (vi k c)) = Some p);
  fo_parent : forall c p, c ∈ all -> parent (links (vi k c)) = Some p -> p ∈ all /\ id (vi k p) < id (vi k c);
  fo_ids : forall i, i ∈ all -> 1 <= id (vi k i) < next_viper_id k;
  fo_unique : forall i j, i ∈ all -> j ∈ all -> id (vi k i) = id (vi k j) -> i = j;
  fo_states : forall i, i ∈ all -> state (vi k i) = Running \/ state (vi k i) = Zombie /\ kids i = []
}.

(** The arrays beside the table have their sizes. *)
Record stores k : Prop := {
  sr_spaces : Z.of_nat (length (address_spaces k)) = MAX_VIPERS;
  sr_caps : Z.of_nat (length (cap_tables k)) = MAX_VIPERS;
  sr_fds : Z.of_nat (length (fd_tables k)) = MAX_VIPERS;
  sr_fd : Forall (fun t => Z.of_nat (length t) = FdTable.MAX_FDS) (fd_tables k);
  sr_areas : forall i, slot i -> length (Vma.pool_ (vma_list (mem (vi k i)))) = Vma.MAX_VMAS /\ length (Vma.used_ (vma_list (mem (vi k i)))) = Vma.MAX_VMAS
}.

(** What the invariant depends on. *)
Definition core (v : Viper) : Z * ViperState * Links := (id v, state v, links v).

Lemma forest_ext k k' all kids :
  sized k' -> all_vipers_head k' = all_vipers_head k -> next_viper_id k <= next_viper_id k' ->
  (forall i, slot i -> (i ∈ all -> core (vi k' i) = core (vi k i)) /\ (i ∉ all -> state (vi k' i) = Invalid)) -> forest k all kids -> forest k' all kids.
Proof.
  intros Hs Eh En E H. assert (Hc : forall i, i ∈ all -> id (vi k' i) = id (vi k i) /\ state (vi k' i) = state (vi k i) /\ links (vi k' i) = links (vi k i)).
  { intros i Hi. destruct (E i (fo_slots _ _ _ H i Hi)) as [Ec _]. specialize (Ec Hi). unfold core in Ec. by injection Ec as -> -> ->. }
  destruct H as [H1 H2 H3 H4 H5 H6 H7 H8 H9 H10 H11 H12 H13]. constructor; try done.
  - rewrite Eh. eapply seg_ext; [|exact H2]. intros i Hi. by destruct (Hc i Hi) as (_ & _ & ->).
  - eapply back_ext; [|exact H3]. intros i Hi. by destruct (Hc i Hi) as (_ & _ & ->).
  - intros i Hi. destruct (decide (i ∈ all)) as [Hin|Hin].
    + destruct (Hc i Hin) as (_ & -> & _). by apply H6.
    + destruct (E i Hi) as [_ Ei]. rewrite Ei by done. done.
  - intros p Hp. destruct (Hc p Hp) as (_ & _ & ->). eapply seg_ext; [|by apply H7]. intros i Hi. apply H9 in Hi as [Hi _]; [|done]. by destruct (Hc i Hi) as (_ & _ & ->).
  - intros p c Hp. rewrite H9 by done. split; intros [Hin Hpa]; (split; [done|]); destruct (Hc c Hin) as (_ & _ & El); congruence.
  - intros c p Hin Hpa. destruct (Hc c Hin) as (-> & _ & El). rewrite El in Hpa. destruct (H10 c p Hin Hpa) as [Hp Hlt]. split; [done|]. by destruct (Hc p Hp) as (-> & _).
  - intros i Hi. destruct (Hc i Hi) as (-> & _). specialize (H11 i Hi). lia.
  - intros i j Hi Hj. destruct (Hc i Hi) as (-> & _), (Hc j Hj) as (-> & _). by apply H12.
  - intros i Hi. destruct (Hc i Hi) as (_ & -> & _). by apply H13.
Qed.

(** No list in the table is longer than the fuel. *)
Lemma slots_short (xs : list Z) : NoDup xs -> (forall i, i ∈ xs -> slot i) -> (length xs <= 64)%nat.
Proof.
  intros Hn Hs. apply (NoDup_submseteq xs (seqZ 0 MAX_VIPERS)) in Hn; [|intros i Hi; specialize (Hs i Hi); unfold slot in Hs; apply elem_of_seqZ; lia].
  apply submseteq_length in Hn. by rewrite length_seqZ in Hn.
Qed.
(** ** Creation *)

Lemma find_invalid_ok k all kids is_ :
  forest k all kids -> (forall i, i ∈ is_ -> slot i) ->
  exists r, find_invalid is_ k = Ok r /\ match r with Some i => slot i /\ (i ∉ all) | None => forall i, i ∈ is_ -> i ∈ all end.
Proof.
  intros H. induction is_ as [|i is_ IH]; intros Hs; cbn [find_invalid].
  - exists None. split; [done|]. by intros i ?%not_elem_of_nil.
  - assert (Hi : slot i) by (apply Hs; by left). rewrite get_eq, bind_Ok by (done || apply H). case_bool_decide as E.
    + exists (Some i). split; [done|]. split; [done|]. intros Hin. by apply (fo_live _ _ _ H) in Hin.
    + destruct IH as (r & -> & Hr); [intros j Hj; apply Hs; by right|]. exists r. split; [done|]. destruct r as [j|]; [done|].
      intros j [-> |Hj]%elem_of_cons; [by apply (fo_live _ _ _ H)|by apply Hr].
Qed.

Lemma alloc_viper_ok k all kids :
  forest k all kids ->
  exists k' r, alloc_viper k = Ok (k', r) /\
    match r with
    | None => k' = k /\ forall i, slot i -> i ∈ all
    | Some i => slot i /\ (i ∉ all) /\ sized k' /\ rest k' = rest k /\ forall j, slot j -> vi k' j = if bool_decide (j = i) then set_state Creating (vi k j) else vi k j
    end.
Proof.
  intros H. unfold alloc_viper. destruct (find_invalid_ok k all kids (seqZ 0 MAX_VIPERS) H) as (r & -> & Hr); [intros i Hi%elem_of_seqZ; unfold slot; lia|]. rewrite bind_Ok. destruct r as [i|].
  - destruct Hr as [Hi Hin]. destruct (slot_put_ok k i (set_state Creating) (fo_sized _ _ _ H) Hi) as (k' & -> & ?). rewrite bind_Ok. by exists k', (Some i).
  - exists k, None. split; [done|]. split; [done|]. intros i Hi. apply Hr, elem_of_seqZ. unfold slot in Hi. lia.
Qed.

(** The first links of a new process. *)
Definition child_links (parent first : ptr) (l : Links) : Links :=
  mkLinks parent None (match parent with Some _ => first | None => next_sibling l end) (next_all l) (prev_all l).

Lemma init_from_parent_ok k i par :
  sized k -> slot i -> (forall p, par = Some p -> slot p /\ p <> i) ->
  exists k' w, init_from_parent child_waiters i par k = Ok k' /\ sized k' /\ rest k' = rest (set_waits w k) /\
    (forall j, slot j -> j <> i -> vi k' j = if bool_decide (par = Some j) then set_first_child (Some i) (vi k j) else vi k j) /\
    id (vi k' i) = id (vi k i) /\ state (vi k' i) = state (vi k i) /\ vma_list (mem (vi k' i)) = vma_list (mem (vi k i)) /\ exit_code (vi k' i) = 0 /\
    links (vi k' i) = child_links par (match par with Some p => first_child (links (vi k p)) | None => None end) (links (vi k i)).
Proof.
  intros Hs Hi Hp. unfold init_from_parent. destruct (slot_put_ok k i (fun v => set_task_count 0 (set_mem (set_used 0 (mem v)) v)) Hs Hi) as (k1 & -> & S1 & R1 & V1). rewrite bind_Ok.
  set (x := (wait_init (child_waiters i) (waits k1), tasks k1)). set (k2 := set_waits x k1). assert (S2 : sized k2) by done. assert (V2 : forall j, slot j -> vi k2 j = vi k1 j) by done.
  destruct (slot_put_ok k2 i (set_exit_code 0) S2 Hi) as (k3 & -> & S3 & R3 & V3). rewrite bind_Ok. destruct par as [p|].
  - destruct (Hp p eq_refl) as [Hsp Hne]. rewrite (viper_eq k3 p S3 Hsp), bind_Ok. set (lim := fun v => set_limits _ _).
    destruct (slot_put_ok k3 i lim S3 Hi) as (k4 & -> & S4 & R4 & V4). rewrite bind_Ok, (link_eq _ k4 p S4 Hsp), bind_Ok.
    destruct (slot_put_ok k4 i (set_next_sibling (first_child (links (vi k4 p)))) S4 Hi) as (k5 & -> & S5 & R5 & V5). rewrite bind_Ok.
    destruct (slot_put_ok k5 p (set_first_child (Some i)) S5 Hsp) as (k6 & -> & S6 & R6 & V6). rewrite bind_Ok.
    destruct (slot_put_ok k6 i (fun v => set_first_child None (set_parent (Some p) v)) S6 Hi) as (k7 & -> & S7 & R7 & V7).
    exists k7, x. split; [done|]. split; [done|]. split; [rewrite R7, R6, R5, R4, R3; unfold k2; destruct k, k1; unfold rest in *; cbn in *; by injection R1 as -> -> -> -> -> -> -> -> ->|]. split.
    + intros j Hj Hji. rewrite V7, V6, V5, !(bool_decide_false (j = i)), (V4 j), (V3 j), (V2 j), (V1 j), !(bool_decide_false (j = i)) by done. destruct (decide (j = p)) as [-> |Hjp].
      * rewrite !bool_decide_true by done. done.
      * rewrite !bool_decide_false by congruence. done.
    + assert (Ep : vi k4 p = vi k p) by (by rewrite V4, V3, V2, V1, !bool_decide_false by done).
      rewrite V7, bool_decide_true, V6, (bool_decide_false (i = p)), V5, bool_decide_true, Ep, (V4 i), bool_decide_true, (V3 i), bool_decide_true, (V2 i), (V1 i), bool_decide_true by done. done.
  - set (lim := fun v => set_limits _ _). destruct (slot_put_ok k3 i lim S3 Hi) as (k4 & -> & S4 & R4 & V4). rewrite bind_Ok.
    destruct (slot_put_ok k4 i (fun v => set_first_child None (set_parent None v)) S4 Hi) as (k5 & -> & S5 & R5 & V5).
    exists k5, x. split; [done|]. split; [done|]. split; [rewrite R5, R4, R3; unfold k2; destruct k, k1; unfold rest in *; cbn in *; by injection R1 as -> -> -> -> -> -> -> -> ->|]. split.
    + intros j Hj Hji. by rewrite V5, bool_decide_false, V4, bool_decide_false, V3, bool_decide_false, V2, V1, bool_decide_false by done.
    + rewrite V5, bool_decide_true, V4, bool_decide_true, V3, bool_decide_true, V2, V1, bool_decide_true by done. done.
Qed.

Lemma add_to_global_list_ok k i :
  sized k -> slot i -> (forall h, all_vipers_head k = Some h -> slot h /\ h <> i) ->
  exists k', add_to_global_list i k = Ok k' /\ sized k' /\ rest k' = rest (set_all (Some i) k) /\
    (forall j, slot j -> j <> i -> vi k' j = if bool_decide (all_vipers_head k = Some j) then set_prev_all (Some i) (vi k j) else vi k j) /\
    vi k' i = set_prev_all None (set_next_all (all_vipers_head k) (vi k i)).
Proof.
  intros Hs Hi Hh. unfold add_to_global_list. destruct (slot_put_ok k i (fun v => set_prev_all None (set_next_all (all_vipers_head k) v)) Hs Hi) as (k1 & -> & S1 & R1 & V1). rewrite bind_Ok.
  destruct (rest_inv _ _ R1) as (_ & -> & _). destruct (all_vipers_head k) as [h|] eqn:Eh.
  - destruct (Hh h eq_refl) as [Hsh Hne]. destruct (slot_put_ok k1 h (set_prev_all (Some i)) S1 Hsh) as (k2 & -> & S2 & R2 & V2). rewrite bind_Ok. eexists. split; [done|]. split; [done|].
    split; [destruct k, k1, k2; unfold rest in *; cbn in *; by injection R2 as -> -> -> -> -> -> -> -> ->; injection R1 as -> -> -> -> -> -> -> -> ->|]. split.
    + intros j Hj Hji. change (vi (set_all (Some i) k2) j) with (vi k2 j). rewrite V2, V1, (bool_decide_false (j = i)) by done. destruct (decide (j = h)) as [->|?]; [by rewrite !bool_decide_true|by rewrite !bool_decide_false by congruence].
    + change (vi (set_all (Some i) k2) i) with (vi k2 i). by rewrite V2, bool_decide_false, V1, bool_decide_true by done.
  - rewrite bind_Ok. eexists. split; [done|]. split; [done|]. split; [destruct k, k1; unfold rest in *; cbn in *; by injection R1 as -> -> -> -> -> -> -> -> ->|]. split.
    + intros j Hj Hji. change (vi (set_all (Some i) k1) j) with (vi k1 j). rewrite V1, !bool_decide_false by done. done.
    + change (vi (set_all (Some i) k1) i) with (vi k1 i). by rewrite V1, bool_decide_true by done.
Qed.
(** ** What creation uses *)

Lemma fd_upd_ok (t : FdTable.FDTable A) i b :
  Z.of_nat (length t) = FdTable.MAX_FDS -> 0 <= i < FdTable.MAX_FDS -> exists t', FdTable.upd i b t = Ok t' /\ Z.of_nat (length t') = FdTable.MAX_FDS.
Proof.
  intros Hl Hi. unfold FdTable.upd. destruct (t !! Z.to_nat i) as [d|] eqn:E; [|apply lookup_ge_None_1 in E; lia]. rewrite (rd_Z _ _ d), bind_Ok, wr_Z by (done || lia). eexists. split; [done|].
  by rewrite length_insert.
Qed.

Lemma fd_fold_ok (f : FdTable.FDTable A -> Z -> res (FdTable.FDTable A)) t :
  (forall t i, Z.of_nat (length t) = FdTable.MAX_FDS -> 0 <= i < FdTable.MAX_FDS -> exists t', f t i = Ok t' /\ Z.of_nat (length t') = FdTable.MAX_FDS) ->
  Z.of_nat (length t) = FdTable.MAX_FDS -> exists t', foldM f (seqZ 0 FdTable.MAX_FDS) t = Ok t' /\ Z.of_nat (length t') = FdTable.MAX_FDS.
Proof.
  intros Hf. assert (Hs : forall i, i ∈ seqZ 0 FdTable.MAX_FDS -> 0 <= i < FdTable.MAX_FDS) by (intros i Hi%elem_of_seqZ; lia). revert t Hs. generalize (seqZ 0 FdTable.MAX_FDS).
  induction l as [|i l IH]; intros t Hs Hl; cbn [foldM]; [eauto|]. destruct (Hf t i Hl) as (t' & -> & Hl'); [apply Hs; by left|]. rewrite bind_Ok. apply IH; [|done]. intros j Hj. apply Hs. by right.
Qed.

Lemma fd_init_ok (t : FdTable.FDTable A) : Z.of_nat (length t) = FdTable.MAX_FDS -> exists t', FdTable.init t = Ok t' /\ Z.of_nat (length t') = FdTable.MAX_FDS.
Proof. apply fd_fold_ok. intros t' i. apply fd_upd_ok. Qed.
Lemma fd_close_ok (t : FdTable.FDTable A) : Z.of_nat (length t) = FdTable.MAX_FDS -> exists t', FdTable.close_all_fds t = Ok t' /\ Z.of_nat (length t') = FdTable.MAX_FDS.
Proof.
  apply fd_fold_ok. intros t' i Hl Hi. destruct (t' !! Z.to_nat i) as [d|] eqn:E; [|apply lookup_ge_None_1 in E; lia]. rewrite (rd_Z _ _ d), bind_Ok by (done || lia).
  destruct (FdTable.in_use d); [|eauto]. unfold FdTable.free. destruct (Z.leb_spec 0 i), (Z.ltb_spec i FdTable.MAX_FDS); cbn [andb]; try lia. by apply fd_upd_ok.
Qed.

Definition pooled (m : Memory) : Prop := length (Vma.pool_ (vma_list m)) = Vma.MAX_VMAS /\ length (Vma.used_ (vma_list m)) = Vma.MAX_VMAS.

(** The areas of a new process. *)
Definition first_areas : list VmaSpec.Region :=
  [VmaSpec.mkRegion USER_HEAP_BASE HEAP_MAX RW Vma.ANONYMOUS 0 0 0;
   VmaSpec.mkRegion (STACK_BOTTOM - 4096) STACK_BOTTOM 0 Vma.GUARD 0 0 0;
   VmaSpec.mkRegion STACK_BOTTOM USER_STACK_TOP RW Vma.STACK 0 0 0].

Lemma init_memory_regions_ok m : pooled m -> exists m', init_memory_regions m = Ok m' /\ pooled m' /\ VmaRefine.holds (vma_list m') first_areas.
Proof.
  intros [Hp Hu]. unfold init_memory_regions. assert (H0 : VmaRefine.holds (Vma.init (vma_list m)) []) by (exists []; split; [by apply VmaRefine.area_init_ok|done]).
  assert (Hadd : forall l rs s e p t, VmaRefine.holds l rs -> 0 <= s -> exists l' v, Vma.add s e p t l = Ok (l', v) /\ VmaRefine.holds l' (VmaRefine.spec (VmaRefine.OAdd s e p t) rs).1).
  { intros l rs s e p t H Hs. destruct (VmaRefine.exec_ok (VmaRefine.OAdd s e p t) l rs H Hs) as (l' & x & E & H' & _). cbn [VmaRefine.exec] in E. apply bind_inv in E as ([l1 v] & -> & [= <- _]). by exists l1, v. }
  destruct (Hadd _ _ USER_HEAP_BASE HEAP_MAX RW Vma.ANONYMOUS H0) as (l1 & v1 & -> & H1); [done|]. rewrite bind_Ok.
  destruct (Hadd _ _ STACK_BOTTOM USER_STACK_TOP RW Vma.STACK H1) as (l2 & v2 & -> & H2); [done|]. rewrite bind_Ok.
  destruct (Hadd _ _ (STACK_BOTTOM - 4096) STACK_BOTTOM 0 Vma.GUARD H2) as (l3 & v3 & -> & H3); [done|]. rewrite bind_Ok. eexists. split; [done|]. cbn [vma_list]. split; [|exact H3].
  destruct H3 as (xs & Hv & _). split; apply Hv.
Qed.

Lemma cap_init_ok ct token : exists t t' h, Cap.init true 256 ct = Ok (t, true) /\ Cap.insert t token Cap.Device DEVICE_ROOT_RIGHTS = Ok (t', h).
Proof.
  destruct (CapSpec.init_ok 256 ct ltac:(lia)) as (t & E & Hw & _). change (seq 0 (Z.to_nat 256)) with (0%nat :: seq 1 255) in Hw.
  destruct (CapTable.insert_fill t 0 (seq 1 255) token Cap.Device DEVICE_ROOT_RIGHTS Hw) as (e & _ & _ & _ & Ei). exists t. eexists _, _. split; [exact E|exact Ei].
Qed.

Lemma slot_store_ok {B} (l : list B) i : Z.of_nat (length l) = MAX_VIPERS -> slot i -> exists x, l !! Z.to_nat i = Some x /\ rd l i = Ok x /\ forall y, wr l i y = Ok (<[Z.to_nat i := y]> l).
Proof.
  intros Hl Hi. unfold slot in Hi. destruct (l !! Z.to_nat i) as [x|] eqn:E; [|apply lookup_ge_None_1 in E; lia]. exists x. split; [done|]. split; [apply rd_Z; [lia|done]|]. intros y. apply wr_Z. lia.
Qed.
Definition born (i : Z) (par : ptr) (kids : Z -> list Z) : Z -> list Z :=
  match par with Some p => <[p := i :: kids p]> (<[i := []]> kids) | None => <[i := []]> kids end.

(** Linking a new process [i] into both structures. *)
Lemma forest_born k k' all kids i par :
  forest k all kids -> sized k' -> slot i -> i ∉ all -> (forall p, par = Some p -> p ∈ all /\ state (vi k p) = Running) ->
  all_vipers_head k' = Some i -> next_viper_id k < next_viper_id k' -> 1 <= next_viper_id k ->
  id (vi k' i) = next_viper_id k -> state (vi k' i) = Running ->
  (exists n, links (vi k' i) = mkLinks par None n (all_vipers_head k) None /\ (forall p, par = Some p -> n = first_child (links (vi k p)))) ->
  (forall j, slot j -> j <> i -> id (vi k' j) = id (vi k j) /\ state (vi k' j) = state (vi k j) /\
     links (vi k' j) = mkLinks (parent (links (vi k j))) (if bool_decide (par = Some j) then Some i else first_child (links (vi k j))) (next_sibling (links (vi k j)))
       (next_all (links (vi k j))) (if bool_decide (all_vipers_head k = Some j) then Some i else prev_all (links (vi k j)))) ->
  forest k' (i :: all) (born i par kids).
Proof.
  intros H Hs Hi Hni Hpar Eh En En1 Eid Est (n & El & Hn) Ho.
  assert (Hall : forall j, j ∈ all -> id (vi k' j) = id (vi k j) /\ state (vi k' j) = state (vi k j) /\
     links (vi k' j) = mkLinks (parent (links (vi k j))) (if bool_decide (par = Some j) then Some i else first_child (links (vi k j))) (next_sibling (links (vi k j)))
       (next_all (links (vi k j))) (if bool_decide (all_vipers_head k = Some j) then Some i else prev_all (links (vi k j)))).
  { intros j Hj. apply Ho; [by apply (fo_slots _ _ _ H)|]. by intros ->. }
  assert (Hbi : born i par kids i = []).
  { unfold born. destruct par as [p|]; [|by rewrite fn_lookup_insert]. rewrite fn_lookup_insert_ne, fn_lookup_insert; [done|]. destruct (Hpar p eq_refl) as [Hp _]. by intros ->. }
  assert (Hbj : forall j, j ∈ all -> born i par kids j = if bool_decide (par = Some j) then i :: kids j else kids j).
  { intros j Hj. assert (i <> j) by (by intros ->). unfold born. destruct par as [p|]; [|by rewrite fn_lookup_insert_ne, bool_decide_false]. destruct (decide (p = j)) as [->|Hne].
    - by rewrite fn_lookup_insert, bool_decide_true.
    - by rewrite !fn_lookup_insert_ne, bool_decide_false by congruence. }
  constructor; try done.
  - split; [done|]. rewrite El. cbn [next_all]. eapply seg_ext; [|apply H]. intros j Hj. by destruct (Hall j Hj) as (_ & _ & ->).
  - split; [by rewrite El|]. assert (Hb := fo_back _ _ _ H). assert (Ha := fo_all _ _ _ H). assert (Hnd := fo_nodup _ _ _ H). destruct all as [|h all]; [done|]. destruct Ha as [Eh' _]. destruct Hb as [_ Hb].
    split; [destruct (Hall h (list_elem_of_here _ _)) as (_ & _ & ->); cbn [prev_all]; by rewrite bool_decide_true|]. eapply back_ext; [|exact Hb]. intros j Hj.
    destruct (Hall j ltac:(by right)) as (_ & _ & ->). cbn [prev_all]. rewrite bool_decide_false; [done|]. rewrite Eh'. intros [= ->]. by apply NoDup_cons in Hnd as [? _].
  - apply NoDup_cons. split; [done|apply H].
  - intros j [-> |Hj]%elem_of_cons; [done|by apply (fo_slots _ _ _ H)].
  - intros j Hj. rewrite elem_of_cons. destruct (decide (j = i)) as [->|Hne]; [rewrite Est; split; [done|by left]|]. destruct (Ho j Hj Hne) as (_ & -> & _). rewrite <- (fo_live _ _ _ H) by done.
    split; [by intros [?|?]|by right].
  - intros p [-> |Hp]%elem_of_cons; [by rewrite Hbi, El|]. rewrite Hbj by done. destruct (Hall p Hp) as (_ & _ & ->). cbn [first_child].
    assert (Hk : seg (fun j => next_sibling (links (vi k' j))) (first_child (links (vi k p))) (kids p) None).
    { eapply seg_ext; [|by apply (fo_kids _ _ _ H)]. intros j Hj. apply (fo_kids_in _ _ _ H) in Hj as [Hj _]; [|done]. by destruct (Hall j Hj) as (_ & _ & ->). }
    case_bool_decide as Ep; [|done]. split; [done|]. rewrite El. cbn [next_sibling]. by rewrite (Hn p Ep).
  - intros p [-> |Hp]%elem_of_cons; [rewrite Hbi; apply NoDup_nil_2|]. rewrite Hbj by done. assert (Hd := fo_kids_nodup _ _ _ H p Hp). case_bool_decide; [|done]. apply NoDup_cons. split; [|done].
    intros Hin. by apply (fo_kids_in _ _ _ H) in Hin as [? _].
  - intros p c [-> |Hp]%elem_of_cons.
    + rewrite Hbi. split; [by intros ?%not_elem_of_nil|]. intros [[-> |Hc]%elem_of_cons Hpa].
      * rewrite El in Hpa. cbn in Hpa. by destruct (Hpar i Hpa) as [? _].
      * destruct (Hall c Hc) as (_ & _ & Ec). rewrite Ec in Hpa. cbn in Hpa. by destruct (fo_parent _ _ _ H c i Hc Hpa) as [? _].
    + rewrite Hbj, elem_of_cons by done. assert (Hk := fo_kids_in _ _ _ H p c Hp). assert (Hci : c ∈ all -> c <> i) by (by intros ? ->).
      case_bool_decide as Ep; rewrite ?elem_of_cons, Hk; split.
      * intros [-> |[Hc Hpa]]; [split; [by left|by rewrite El]|]. split; [by right|]. by destruct (Hall c Hc) as (_ & _ & ->).
      * intros [[-> |Hc] Hpa]; [by left|]. right. destruct (Hall c Hc) as (_ & _ & Ec). by rewrite Ec in Hpa.
      * intros [Hc Hpa]. split; [by right|]. by destruct (Hall c Hc) as (_ & _ & ->).
      * intros [[-> |Hc] Hpa]; [by rewrite El in Hpa|]. destruct (Hall c Hc) as (_ & _ & Ec). by rewrite Ec in Hpa.
  - intros c p [-> |Hc]%elem_of_cons Hpa.
    + rewrite El in Hpa. cbn in Hpa. destruct (Hpar p Hpa) as [Hp _]. split; [by right|]. destruct (Hall p Hp) as (-> & _). rewrite Eid. apply (fo_ids _ _ _ H p Hp).
    + destruct (Hall c Hc) as (-> & _ & Ec). rewrite Ec in Hpa. cbn in Hpa. destruct (fo_parent _ _ _ H c p Hc Hpa) as [Hp Hlt]. split; [by right|]. by destruct (Hall p Hp) as (-> & _).
  - intros j [-> |Hj]%elem_of_cons; [lia|]. destruct (Hall j Hj) as (-> & _). assert (Hb := fo_ids _ _ _ H j Hj). lia.
  - intros a b [-> |Ha]%elem_of_cons [-> |Hb]%elem_of_cons E; [done|..].
    + destruct (Hall b Hb) as (Eb & _). assert (Hbb := fo_ids _ _ _ H b Hb). lia.
    + destruct (Hall a Ha) as (Ea & _). assert (Hbb := fo_ids _ _ _ H a Ha). lia.
    + destruct (Hall a Ha) as (Ea & _), (Hall b Hb) as (Eb & _). apply (fo_unique _ _ _ H); [done|done|congruence].
  - intros j [-> |Hj]%elem_of_cons; [by left|]. destruct (Hall j Hj) as (_ & -> & _). destruct (fo_states _ _ _ H j Hj) as [?|[Ez Ek]]; [by left|]. right. split; [done|]. rewrite Hbj by done.
    rewrite bool_decide_false; [done|]. intros Ep. destruct (Hpar j Ep) as [_ Er]. by rewrite Ez in Er.
Qed.
(** What the other processes see of a step. *)
Definition same (v v' : Viper) : Prop := id v' = id v /\ state v' = state v /\ exit_code v' = exit_code v /\ parent (links v') = parent (links v).

Lemma forest_next k k' all kids i :
  forest k all kids -> sized k' -> i ∉ all -> all_vipers_head k' = all_vipers_head k -> next_viper_id k <= next_viper_id k' ->
  (forall j, slot j -> j <> i -> vi k' j = vi k j) -> state (vi k' i) = Invalid -> forest k' all kids.
Proof.
  intros H Hs Hi Eh En Ho Ei. eapply forest_ext; try done. intros j Hj. split; intros Hin.
  - rewrite Ho; [done|done|]. by intros ->.
  - destruct (decide (j = i)) as [->|Hne]; [done|]. rewrite Ho by done. destruct (decide (state (vi k j) = Invalid)) as [?|E]; [done|]. by destruct (Hin (proj2 (fo_live _ _ _ H j Hj) E)).
Qed.
(** ** Steps that leave the other processes alone *)

Record frame (i : Z) k k' : Prop := {
  fr_sized : sized k';
  fr_head : all_vipers_head k' = all_vipers_head k;
  fr_next : next_viper_id k' = next_viper_id k;
  fr_stores : stores k';
  fr_others : forall j, slot j -> j <> i -> vi k' j = vi k j
}.

Lemma frame_refl i k : sized k -> stores k -> frame i k k.
Proof. by constructor. Qed.
Lemma frame_trans i k1 k2 k3 : frame i k1 k2 -> frame i k2 k3 -> frame i k1 k3.
Proof. intros [A1 A2 A3 A4 A5] [B1 B2 B3 B4 B5]. constructor; try done; try congruence. intros j Hj Hne. by rewrite B5, A5. Qed.

Lemma stores_rest k k' :
  stores k -> rest k' = rest k -> (forall j, slot j -> pooled (mem (vi k j)) -> pooled (mem (vi k' j))) -> stores k'.
Proof.
  intros [T1 T2 T3 T4 T5] R Hm. destruct (rest_inv _ _ R) as (_ & _ & _ & Es & Ec & Ef & _). constructor; rewrite ?Es, ?Ec, ?Ef; try done. intros j Hj. by apply Hm, T5.
Qed.

Lemma frame_put k i f :
  sized k -> stores k -> slot i -> (pooled (mem (vi k i)) -> pooled (mem (f (vi k i)))) ->
  exists k', put i f k = Ok k' /\ frame i k k' /\ vi k' i = f (vi k i) /\ world k' = world k.
Proof.
  intros Hs St Hi Hm. destruct (slot_put_ok k i f Hs Hi) as (k' & E & S' & R & V). destruct (rest_inv _ _ R) as (En & Eh & _ & _ & _ & _ & Ew & _). exists k'. split; [done|].
  split; [constructor; try done|split; [by rewrite V, bool_decide_true|done]].
  - apply (stores_rest k); [done|done|]. intros j Hj. rewrite V by done. case_bool_decide; [by subst|done].
  - intros j Hj Hne. by rewrite V, bool_decide_false.
Qed.

Lemma frame_caps k i :
  sized k -> stores k -> slot i -> exists ct, rd (cap_tables k) i = Ok ct /\ forall x, wr (cap_tables k) i x = Ok (<[Z.to_nat i := x]> (cap_tables k)) /\
    frame i k (set_cap_tables (<[Z.to_nat i := x]> (cap_tables k)) k) /\ rd (<[Z.to_nat i := x]> (cap_tables k)) i = Ok x.
Proof.
  intros Hs St Hi. destruct (slot_store_ok (cap_tables k) i (sr_caps _ St) Hi) as (ct & Hct & E & W). exists ct. split; [done|]. intros x. split; [done|]. split.
  - destruct St as [T1 T2 T3 T4 T5]. constructor; try done. constructor; try done. cbn [cap_tables set_cap_tables]. by rewrite length_insert.
  - apply rd_Z; [apply Hi|]. apply list_lookup_insert_eq. by eapply lookup_lt_Some.
Qed.

Lemma frame_fds k i :
  sized k -> stores k -> slot i -> exists t, rd (fd_tables k) i = Ok t /\ Z.of_nat (length t) = FdTable.MAX_FDS /\
    forall x, Z.of_nat (length x) = FdTable.MAX_FDS -> wr (fd_tables k) i x = Ok (<[Z.to_nat i := x]> (fd_tables k)) /\ frame i k (set_fd_tables (<[Z.to_nat i := x]> (fd_tables k)) k).
Proof.
  intros Hs St Hi. destruct (slot_store_ok (fd_tables k) i (sr_fds _ St) Hi) as (t & Ht & E & W). exists t. split; [done|]. destruct St as [T1 T2 T3 T4 T5].
  assert (Hl : Z.of_nat (length t) = FdTable.MAX_FDS) by (rewrite Forall_forall in T4; apply (T4 t); by eapply list_elem_of_lookup_2). split; [done|]. intros x Hx. split; [done|].
  constructor; try done. constructor; try done; cbn [fd_tables set_fd_tables]; [by rewrite length_insert|]. by apply Forall_insert.
Qed.

Lemma frame_spaces k i :
  sized k -> stores k -> slot i -> exists a, rd (address_spaces k) i = Ok a /\
    forall x w, wr (address_spaces k) i x = Ok (<[Z.to_nat i := x]> (address_spaces k)) /\ frame i k (set_spaces (<[Z.to_nat i := x]> (address_spaces k)) w k).
Proof.
  intros Hs St Hi. destruct (slot_store_ok (address_spaces k) i (sr_spaces _ St) Hi) as (a & Ha & E & W). exists a. split; [done|]. intros x w. split; [done|]. destruct St as [T1 T2 T3 T4 T5].
  constructor; try done. constructor; try done. cbn [address_spaces set_spaces]. by rewrite length_insert.
Qed.
Lemma populate_ok k i a par token :
  sized k -> stores k -> slot i -> (forall p, par = Some p -> slot p /\ p <> i) -> (forall h, all_vipers_head k = Some h -> slot h /\ h <> i) ->
  exists k', populate child_waiters true token i a par k = Ok (k', Some i) /\ sized k' /\ stores k' /\
    all_vipers_head k' = Some i /\ next_viper_id k' = next_viper_id k /\ id (vi k' i) = id (vi k i) /\ state (vi k' i) = Running /\ VmaRefine.holds (vma_list (mem (vi k' i))) first_areas /\
    (exists n, links (vi k' i) = mkLinks par None n (all_vipers_head k) None /\ (forall p, par = Some p -> n = first_child (links (vi k p)))) /\
    (forall j, slot j -> j <> i -> vi k' j =
       set_links (mkLinks (parent (links (vi k j))) (if bool_decide (par = Some j) then Some i else first_child (links (vi k j))) (next_sibling (links (vi k j)))
         (next_all (links (vi k j))) (if bool_decide (all_vipers_head k = Some j) then Some i else prev_all (links (vi k j)))) (vi k j)).
Proof.
  intros Hs St Hi Hpar Hh. unfold populate. destruct (frame_put k i (set_space (root_ a) (asid_ a)) Hs St Hi) as (k1 & -> & F1 & V1 & _); [done|]. rewrite bind_Ok.
  destruct (init_from_parent_ok k1 i par (fr_sized _ _ _ F1) Hi Hpar) as (k2 & w & -> & S2 & R2 & V2 & Eid & Est & Evm & _ & El). rewrite bind_Ok, (viper_eq k2 i S2 Hi), bind_Ok.
  assert (P2 : forall j, slot j -> pooled (mem (vi k1 j)) -> pooled (mem (vi k2 j))).
  { intros j Hj. unfold pooled. destruct (decide (j = i)) as [->|Hne]; [by rewrite Evm|]. rewrite V2 by done. by case_bool_decide. }
  assert (T2 : stores k2) by (apply (stores_rest (set_waits w k1)); [by destruct (fr_stores _ _ _ F1)|done|exact P2]). destruct (rest_inv _ _ R2) as (En2 & Eh2 & _). cbn [set_waits next_viper_id all_vipers_head] in En2, Eh2.
  destruct (init_memory_regions_ok (mem (vi k2 i))) as (m & -> & Hm & Hareas); [by apply T2|]. rewrite bind_Ok.
  destruct (frame_put k2 i (set_mem m) S2 T2 Hi) as (k3 & -> & F3 & V3 & _); [done|]. rewrite bind_Ok.
  destruct (frame_caps k3 i (fr_sized _ _ _ F3) (fr_stores _ _ _ F3) Hi) as (ct & -> & Hct). rewrite bind_Ok. destruct (cap_init_ok ct token) as (t & t' & h & -> & Eins). rewrite bind_Ok.
  destruct (Hct t) as (-> & F4 & _). rewrite bind_Ok. cbn [negb]. set (k4 := set_cap_tables _ k3) in *.
  destruct (frame_put k4 i (set_cap_table (Some i)) (fr_sized _ _ _ F4) (fr_stores _ _ _ F4) Hi) as (k5 & E5 & F5 & V5 & _); [done|]. rewrite E5, bind_Ok.
  assert (Ec5 : cap_tables k5 = cap_tables k4) by (unfold put in E5; apply bind_inv in E5 as (? & _ & E5); apply bind_inv in E5 as (? & _ & E5); by injection E5 as <-).
  assert (Hins : exists c, (ct0 ← rd (cap_tables k5) i; match par with None => '(ct0, _) ← Cap.insert ct0 token Cap.Device DEVICE_ROOT_RIGHTS; Ok ct0 | Some _ => Ok ct0 end) = Ok c).
  { rewrite Ec5. destruct (Hct t) as (_ & _ & Er). cbn [k4 set_cap_tables cap_tables]. rewrite Er, bind_Ok. destruct par; [eauto|rewrite Eins, bind_Ok; eauto]. }
  destruct Hins as (c & Ec). apply bind_inv in Ec as (c0 & -> & Ec). rewrite bind_Ok, Ec, bind_Ok. destruct (frame_caps k5 i (fr_sized _ _ _ F5) (fr_stores _ _ _ F5) Hi) as (_ & _ & Hct5).
  destruct (Hct5 c) as (-> & F6 & _). rewrite bind_Ok. set (k6 := set_cap_tables _ k5) in *. destruct (frame_fds k6 i (fr_sized _ _ _ F6) (fr_stores _ _ _ F6) Hi) as (ft & -> & Lft & Hft). rewrite bind_Ok.
  destruct (fd_init_ok ft Lft) as (ft' & -> & Lft'). rewrite bind_Ok. destruct (Hft ft' Lft') as (-> & F7). rewrite bind_Ok. set (k7 := set_fd_tables _ k6) in *.
  destruct (frame_put k7 i (set_fd_table (Some i)) (fr_sized _ _ _ F7) (fr_stores _ _ _ F7) Hi) as (k8 & -> & F8 & V8 & _); [done|]. rewrite bind_Ok.
  assert (F28 : frame i k2 k8) by (apply (frame_trans _ _ _ _ F3), (frame_trans _ _ _ _ F4), (frame_trans _ _ _ _ F5), (frame_trans _ _ _ _ F6), (frame_trans _ _ _ _ F7); exact F8). assert (Eh8 : all_vipers_head k8 = all_vipers_head k) by (by rewrite (fr_head _ _ _ F28), Eh2, (fr_head _ _ _ F1)).
  destruct (add_to_global_list_ok k8 i (fr_sized _ _ _ F8) Hi ltac:(by rewrite Eh8)) as (k9 & -> & S9 & R9 & V9 & V9i). rewrite bind_Ok. rewrite Eh8 in V9, V9i.
  assert (T9 : stores k9).
  { apply (stores_rest (set_all (Some i) k8)); [by destruct (fr_stores _ _ _ F8)|done|]. intros j Hj. unfold pooled. change (vi (set_all (Some i) k8) j) with (vi k8 j).
    destruct (decide (j = i)) as [->|Hne]; [by rewrite V9i|]. rewrite V9 by done. by case_bool_decide. }
  destruct (frame_put k9 i (set_state Running) S9 T9 Hi) as (k10 & -> & F10 & V10 & _); [done|]. rewrite bind_Ok. exists k10. split; [done|]. split; [apply F10|]. split; [apply F10|].
  destruct (rest_inv _ _ R9) as (En9 & Eh9 & _). cbn [set_all next_viper_id all_vipers_head] in En9, Eh9. split; [by rewrite (fr_head _ _ _ F10), Eh9|].
  split; [by rewrite (fr_next _ _ _ F10), En9, (fr_next _ _ _ F28), En2, (fr_next _ _ _ F1)|].
  assert (Vi : vi k10 i = set_state Running (set_prev_all None (set_next_all (all_vipers_head k) (set_fd_table (Some i) (set_cap_table (Some i) (set_mem m (vi k2 i))))))).
  { rewrite V10, V9i, V8. change (vi k7 i) with (vi k5 i). rewrite V5. change (vi k4 i) with (vi k3 i). by rewrite V3. }
  split; [rewrite Vi; cbn [id]; change (id (vi k2 i) = id (vi k i)); by rewrite Eid, V1|]. split; [by rewrite Vi|]. split; [by rewrite Vi|]. split.
  - rewrite Vi. cbn [links set_state set_prev_all set_next_all set_links set_fd_table set_cap_table set_mem]. rewrite El. unfold child_links. cbn [parent first_child next_sibling]. eexists. split; [done|].
    intros p ->. destruct (Hpar p eq_refl) as [Hsp Hne]. by rewrite (fr_others _ _ _ F1).
  - intros j Hj Hne. rewrite (fr_others _ _ _ F10), V9, (fr_others _ _ _ F28), V2, (fr_others _ _ _ F1) by done. destruct (vi k j) as [? ? ? ? ? ? ? ? ? [] ? ? ?]. by repeat case_bool_decide.
Qed.
(** The creation of an address space can fail only for want of an identifier or of
    frames for its tables. *)
Definition out_of_space k : Prop :=
  (exists ids, asid_alloc (asids (world k)) = Ok (ids, ASID_INVALID)) \/
  (exists f, alloc_page (pm (phys (world k))) = Ok (f, 0)) \/
  exists f p f', alloc_page (pm (phys (world k))) = Ok (f, p) /\ alloc_page f = Ok (f', 0).

Lemma space_init_fails a k a' w' : World.init a (world k) = Ok (a', w', false) -> out_of_space k.
Proof.
  unfold World.init, out_of_space. intros (_ & _ & E)%bind_inv. apply bind_inv in E as ([ids x] & Ea & E). destruct (Z.eqb_spec x ASID_INVALID) as [->|_]; [left; by exists ids|]. right.
  apply bind_inv in E as (_ & _ & E). apply bind_inv in E as ([w1 l0] & E1 & E). unfold on_phys, new_page in E1. apply bind_inv in E1 as ([s1 p1] & E1 & [= <- ->]). apply bind_inv in E1 as ([f1 q1] & E1 & [= <- ->]).
  change (phys (set_asids ids (world k))) with (phys (world k)) in E1. destruct (Z.eqb_spec l0 0) as [->|_]; [left; by exists f1|]. right.
  apply bind_inv in E as (_ & _ & E). apply bind_inv in E as (w2 & E2 & E). apply bind_inv in E as (_ & _ & E). destruct (kernel_ttbr0 w2 =? 0); [done|].
  apply bind_inv in E as ([w3 l1] & E3 & E). unfold on_phys, new_page in E3. apply bind_inv in E3 as ([s3 p3] & E3 & [= <- ->]). apply bind_inv in E3 as ([f3 q3] & E3 & [= <- ->]).
  destruct (Z.eqb_spec l1 0) as [->|_].
  - exists f1, l0, f3. split; [done|]. unfold on_phys_, zero_page in E2. apply bind_inv in E2 as (s2 & E2 & [= <-]). destruct (_ !! l0); [|done]. by injection E2 as <-.
  - do 7 (apply bind_inv in E as (? & _ & E)). done.
Qed.

(** The creation of a process without parent whose capability table cannot be
    allocated. *)
Lemma populate_fails k i a token :
  sized k -> stores k -> slot i -> (exists r, World.destroy a (world k) = Ok r) ->
  exists k', populate child_waiters false token i a None k = Ok (k', None) /\ frame i k k' /\ state (vi k' i) = Invalid.
Proof.
  intros Hs St Hi ([a' w'] & Ed). unfold populate. destruct (frame_put k i (set_space (root_ a) (asid_ a)) Hs St Hi) as (k1 & -> & F1 & V1 & W1); [done|]. rewrite bind_Ok.
  destruct (init_from_parent_ok k1 i None (fr_sized _ _ _ F1) Hi) as (k2 & w & -> & S2 & R2 & V2 & _ & _ & Evm & _ & _); [done|]. rewrite bind_Ok, (viper_eq k2 i S2 Hi), bind_Ok.
  assert (T2 : stores k2).
  { apply (stores_rest (set_waits w k1)); [by destruct (fr_stores _ _ _ F1)|done|]. intros j Hj. unfold pooled. destruct (decide (j = i)) as [->|Hne]; [by rewrite Evm|]. by rewrite V2. }
  destruct (rest_inv _ _ R2) as (En2 & Eh2 & _ & _ & _ & _ & W2 & _). assert (F2 : frame i k1 k2) by (constructor; try done; intros j Hj Hne; by rewrite V2).
  destruct (init_memory_regions_ok (mem (vi k2 i))) as (m & -> & Hm & Hareas); [by apply T2|]. rewrite bind_Ok.
  destruct (frame_put k2 i (set_mem m) S2 T2 Hi) as (k3 & -> & F3 & V3 & W3); [done|]. rewrite bind_Ok.
  destruct (frame_caps k3 i (fr_sized _ _ _ F3) (fr_stores _ _ _ F3) Hi) as (ct & -> & Hct). rewrite bind_Ok. unfold Cap.init. cbn [negb]. rewrite bind_Ok.
  destruct (Hct (Cap.mkTable [] (Cap.capacity ct) (Cap.count ct) (Cap.free_head ct))) as (-> & F4 & _). rewrite bind_Ok. set (k4 := set_cap_tables _ k3) in *.
  replace (world k4) with (world k) by (change (world k4) with (world k3); rewrite W3, W2; exact (eq_sym W1)). rewrite Ed, bind_Ok.
  destruct (frame_spaces k4 i (fr_sized _ _ _ F4) (fr_stores _ _ _ F4) Hi) as (_ & _ & Ha). destruct (Ha a' w') as (-> & F5). rewrite bind_Ok. set (k5 := set_spaces _ w' k4) in *.
  destruct (frame_put k5 i (fun v => set_id 0 (set_state Invalid v)) (fr_sized _ _ _ F5) (fr_stores _ _ _ F5) Hi) as (k6 & -> & F6 & V6 & _); [done|]. rewrite bind_Ok. exists k6. split; [done|]. split; [|by rewrite V6].
  by apply (frame_trans _ _ _ _ F1), (frame_trans _ _ _ _ F2), (frame_trans _ _ _ _ F3), (frame_trans _ _ _ _ F4), (frame_trans _ _ _ _ F5).
Qed.

Lemma head_live k all kids h : forest k all kids -> all_vipers_head k = Some h -> h ∈ all.
Proof. intros H Eh. assert (Ha := pseg_hp _ _ _ _ (fo_all _ _ _ H)). rewrite Eh in Ha. destruct all; [done|]. injection Ha as ->. by left. Qed.

(** What a step leaves of the processes [all]. *)
Definition kept (all : list Z) k k' : Prop := forall j, j ∈ all -> same (vi k j) (vi k' j).

Lemma create_ok k all kids heap_ok token par s :
  forest k all kids -> stores k -> (forall p, par = Some p -> p ∈ all /\ state (vi k p) = Running) -> 1 <= next_viper_id k < 2 ^ 63 ->
  (forall a, exists r, World.init a (world k) = Ok r) ->
  (heap_ok = false -> par = None /\ forall a a' w', World.init a (world k) = Ok (a', w', true) -> exists r, World.destroy a' w' = Ok r) ->
  exists k' r, create child_waiters heap_ok token par s k = Ok (k', r) /\ stores k' /\ kept all k k' /\
    match r with
    | None => forest k' all kids /\ (k' = k /\ (forall i, slot i -> i ∈ all) \/ next_viper_id k' = next_viper_id k + 1 /\ (heap_ok = false \/ out_of_space k))
    | Some i => heap_ok = true /\ forest k' (i :: all) (born i par kids) /\ (i ∉ all) /\ next_viper_id k' = next_viper_id k + 1 /\
        id (vi k' i) = next_viper_id k /\ state (vi k' i) = Running /\ parent (links (vi k' i)) = par /\ VmaRefine.holds (vma_list (mem (vi k' i))) first_areas
    end.
Proof.
  intros H St Hpar Hn Hw Hheap. unfold create. destruct (alloc_viper_ok k all kids H) as (k1 & r & -> & Hr). rewrite bind_Ok.
  destruct r as [i|]; [|exists k, None; destruct Hr as [-> Hfull]; split; [done|]; split; [done|]; split; [done|]; split; [done|by left]]. destruct Hr as (Hi & Hni & S1 & R1 & V1).
  assert (T1 : stores k1) by (apply (stores_rest k); [done|done|]; intros j Hj; rewrite V1 by done; by case_bool_decide). destruct (rest_inv _ _ R1) as (En1 & Eh1 & _ & _ & _ & _ & Ew1 & _).
  destruct (frame_put k1 i (set_id (next_viper_id k1)) S1 T1 Hi) as (k2 & -> & F2 & V2 & Ew2); [done|]. rewrite bind_Ok.
  assert (T3 : stores (set_next_id (u64 (next_viper_id k2 + 1)) k2)) by (by destruct (fr_stores _ _ _ F2)). set (k3 := set_next_id _ k2) in *.
  assert (E3 : next_viper_id k3 = next_viper_id k + 1) by (cbn [k3 set_next_id next_viper_id]; rewrite (fr_next _ _ _ F2), En1; apply u64_small; change (2 ^ 63) with 9223372036854775808 in Hn; lia).
  destruct (frame_put k3 i (set_string s) (fr_sized _ _ _ F2) T3 Hi) as (k4 & -> & F4 & V4 & Ew4); [done|]. rewrite bind_Ok. change (world k3) with (world k2) in Ew4.
  destruct (frame_spaces k4 i (fr_sized _ _ _ F4) (fr_stores _ _ _ F4) Hi) as (a & -> & Ha). rewrite bind_Ok, Ew4, Ew2, Ew1. destruct (Hw a) as ([[a' w'] ok] & Ei). rewrite Ei, bind_Ok.
  destruct (Ha a' w') as (-> & F5). rewrite bind_Ok. set (k5 := set_spaces _ w' k4) in *. assert (F35 := frame_trans _ _ _ _ F4 F5).
  assert (Vi : id (vi k4 i) = next_viper_id k) by (rewrite V4; change (vi k3 i) with (vi k2 i); rewrite V2; exact En1).
  assert (Vo : forall j, slot j -> j <> i -> vi k5 j = vi k j) by (intros j Hj Hne; rewrite (fr_others _ _ _ F35) by done; change (vi k3 j) with (vi k2 j); by rewrite (fr_others _ _ _ F2), V1, bool_decide_false by done).
  assert (Eh5 : all_vipers_head k5 = all_vipers_head k) by (rewrite (fr_head _ _ _ F35); cbn [k3 set_next_id all_vipers_head]; by rewrite (fr_head _ _ _ F2), Eh1).
  assert (En5 : next_viper_id k5 = next_viper_id k + 1) by (by rewrite (fr_next _ _ _ F35)). assert (Hne : forall j, j ∈ all -> slot j /\ j <> i) by (intros j Hj; split; [by apply (fo_slots _ _ _ H)|by intros ->]).
  destruct ok; cbn [negb]; [destruct heap_ok|].
  - destruct (populate_ok k5 i a' par token (fr_sized _ _ _ F5) (fr_stores _ _ _ F5) Hi) as (k6 & -> & S6 & T6 & Eh6 & En6 & Eid & Est & Har & (n & El & Hln) & Ho).
    { intros p Ep. destruct (Hpar p Ep) as [Hp _]. by apply Hne. }
    { intros h Eh. rewrite Eh5 in Eh. by apply Hne, (head_live _ _ _ _ H). }
    assert (Vi5 : id (vi k5 i) = next_viper_id k).
    { done. }
    exists k6, (Some i). split; [done|]. split; [done|]. split; [intros j Hj; destruct (Hne j Hj); rewrite Ho, Vo by done; done|]. split; [done|]. split.
    + eapply (forest_born k); try done; [rewrite En6; lia|lia|by rewrite Eid|exists n; split; [by rewrite El, Eh5|]; intros p Ep; rewrite (Hln p Ep); destruct (Hpar p Ep) as [Hp _]; by rewrite Vo by (by apply Hne)|].
      intros j Hj Hji. rewrite Ho, Vo, Eh5 by done. done.
    + split; [done|]. split; [by rewrite En6|]. split; [by rewrite Eid|]. split; [done|]. split; [by rewrite El|done].
  - destruct (Hheap eq_refl) as [-> Hd]. destruct (populate_fails k5 i a' token (fr_sized _ _ _ F5) (fr_stores _ _ _ F5) Hi (Hd _ _ _ Ei)) as (k6 & -> & F6 & V6).
    exists k6, None. split; [done|]. split; [apply F6|]. split; [intros j Hj; destruct (Hne j Hj); rewrite (fr_others _ _ _ F6), Vo by done; done|].
    split; [|right; split; [by rewrite (fr_next _ _ _ F6)|by left]]. apply (forest_next k k6 all kids i H (fr_sized _ _ _ F6) Hni); [by rewrite (fr_head _ _ _ F6)|rewrite (fr_next _ _ _ F6); lia| |done].
    intros j Hj Hji. by rewrite (fr_others _ _ _ F6), Vo by done.
  - destruct (frame_put k5 i (fun v => set_id 0 (set_state Invalid v)) (fr_sized _ _ _ F5) (fr_stores _ _ _ F5) Hi) as (k6 & -> & F6 & V6 & _); [done|]. rewrite bind_Ok.
    exists k6, None. split; [done|]. split; [apply F6|]. split; [intros j Hj; destruct (Hne j Hj); rewrite (fr_others _ _ _ F6), Vo by done; done|].
    split; [|right; split; [by rewrite (fr_next _ _ _ F6)|right; by eapply space_init_fails]]. apply (forest_next k k6 all kids i H (fr_sized _ _ _ F6) Hni); [by rewrite (fr_head _ _ _ F6)|rewrite (fr_next _ _ _ F6); lia| |by rewrite V6].
    intros j Hj Hji. by rewrite (fr_others _ _ _ F6), Vo by done.
Qed.
(** ** Lookup and exit *)

Lemma proc_find_loop_ok k n xs : forall fuel h,
  sized k -> (forall i, i ∈ xs -> slot i /\ state (vi k i) <> Invalid) -> (length xs < fuel)%nat -> seg (fun i => next_all (links (vi k i))) h xs None ->
  exists r, find_loop fuel n h k = Ok r /\ match r with Some i => i ∈ xs /\ id (vi k i) = n | None => forall i, i ∈ xs -> id (vi k i) <> n end.
Proof.
  induction xs as [|x xs IH]; intros fuel h Hs Hx Hf Hseg; (destruct fuel as [|fuel]; [cbn in Hf; lia|]).
  - cbn in Hseg. subst h. exists None. split; [done|]. by intros i ?%not_elem_of_nil.
  - destruct Hseg as [-> Hseg]. destruct (Hx x (list_elem_of_here _ _)) as [Hsx Hst]. cbn [find_loop]. rewrite (viper_eq k x Hs Hsx), bind_Ok, (bool_decide_false (state (vi k x) = Invalid)), andb_true_r by done.
    destruct (Z.eqb_spec (id (vi k x)) n) as [E|E]; [exists (Some x); split; [done|]; split; [by left|done]|].
    destruct (IH fuel (next_all (links (vi k x))) Hs) as (r & -> & Hr); [intros i Hi; apply Hx; by right|cbn in Hf; lia|done|]. exists r. split; [done|]. destruct r as [i|].
    + destruct Hr. split; [by right|done].
    + intros i [-> |Hi]%elem_of_cons; [done|by apply Hr].
Qed.

Lemma proc_find_ok k all kids n :
  forest k all kids -> exists r, find n k = Ok r /\ match r with Some i => i ∈ all /\ id (vi k i) = n | None => forall i, i ∈ all -> id (vi k i) <> n end.
Proof.
  intros H. apply proc_find_loop_ok; [apply H|intros i Hi|assert (Hl := slots_short all (fo_nodup _ _ _ H) (fo_slots _ _ _ H)); unfold FUEL; lia|apply H].
  assert (Hs := fo_slots _ _ _ H i Hi). split; [done|]. by apply (fo_live _ _ _ H).
Qed.

(** The list the children of an exiting process end up in. *)
Definition adopted (init : ptr) (cs olds : list Z) (l : Links) (j : Z) : Links -> Prop := fun l' =>
  parent l' = (if bool_decide (j ∈ cs) then init else parent l) /\
  first_child l' = (if bool_decide (init = Some j) then hp (rev cs ++ olds) None else first_child l) /\
  (j ∉ cs -> next_sibling l' = next_sibling l) /\ next_all l' = next_all l /\ prev_all l' = prev_all l.

Lemma elem_cons_ne (j c : Z) cs : j <> c -> j ∈ c :: cs <-> j ∈ cs.
Proof. intros Hne. rewrite elem_of_cons. split; [by intros [?|?]|by right]. Qed.

Lemma reparent_ok init cs : forall fuel k child olds,
  sized k -> (length cs < fuel)%nat -> (forall c, c ∈ cs -> slot c) -> NoDup cs -> seg (fun i => next_sibling (links (vi k i))) child cs None ->
  (forall n, init = Some n -> slot n /\ (n ∉ cs) /\ seg (fun i => next_sibling (links (vi k i))) (first_child (links (vi k n))) olds None /\ forall x, x ∈ olds -> slot x /\ (x ∉ cs)) ->
  exists k', reparent fuel init child k = Ok k' /\ sized k' /\ rest k' = rest k /\
    (forall j, slot j -> exists l, vi k' j = set_links l (vi k j) /\ adopted init cs olds (links (vi k j)) j l) /\
    (forall n, init = Some n -> seg (fun i => next_sibling (links (vi k' i))) (hp (rev cs ++ olds) None) (rev cs ++ olds) None).
Proof.
  induction cs as [|c cs IH]; intros fuel k child olds Hs Hf Hsl Hnd Hseg Hinit; (destruct fuel as [|fuel]; [cbn in Hf; lia|]).
  - cbn in Hseg. subst child. exists k. split; [done|]. split; [done|]. split; [done|]. split.
    + intros j Hj. exists (links (vi k j)). split; [by destruct (vi k j)|]. unfold adopted. cbn [rev app]. rewrite bool_decide_false by apply not_elem_of_nil. split; [done|]. split; [|done].
      case_bool_decide as E; [|done]. destruct (Hinit j E) as (_ & _ & Hol & _). by apply pseg_hp in Hol.
    + intros n E. destruct (Hinit n E) as (_ & _ & Hol & _). cbn [rev app]. by rewrite <- (pseg_hp _ _ _ _ Hol).
  - destruct Hseg as [-> Hseg]. assert (Hc : slot c) by (apply Hsl; by left). apply NoDup_cons in Hnd as [Hnc Hnd]. cbn [reparent]. rewrite (link_eq _ k c Hs Hc), bind_Ok.
    destruct (slot_put_ok k c (set_parent init) Hs Hc) as (k1 & -> & S1 & R1 & V1). rewrite bind_Ok. destruct init as [n|].
    + destruct (Hinit n eq_refl) as (Hn & Hncs & Hol & Holds). assert (Hcn : n <> c) by (intros ->; apply Hncs; by left). rewrite (link_eq _ k1 n S1 Hn), bind_Ok.
      destruct (slot_put_ok k1 c (set_next_sibling (first_child (links (vi k1 n)))) S1 Hc) as (k2 & -> & S2 & R2 & V2). rewrite bind_Ok.
      destruct (slot_put_ok k2 n (set_first_child (Some c)) S2 Hn) as (k3 & -> & S3 & R3 & V3). rewrite bind_Ok.
      assert (En1 : vi k1 n = vi k n) by (by rewrite V1, bool_decide_false). rewrite En1 in V2.
      assert (V : forall j, slot j -> vi k3 j = if bool_decide (j = n) then set_first_child (Some c) (vi k j)
        else if bool_decide (j = c) then set_next_sibling (first_child (links (vi k n))) (set_parent (Some n) (vi k j)) else vi k j).
      { intros j Hj. rewrite V3, V2, V1 by done. destruct (decide (j = n)) as [->|]; [by rewrite (bool_decide_true (n = n)), !bool_decide_false|rewrite (bool_decide_false (j = n)) by done]. by case_bool_decide. }
      assert (Vx : forall x, slot x -> x <> c -> next_sibling (links (vi k3 x)) = next_sibling (links (vi k x))) by (intros x Hx Hne; rewrite V, (bool_decide_false (x = c)) by done; by case_bool_decide).
      destruct (IH fuel k3 (next_sibling (links (vi k c))) (c :: olds)) as (k4 & E4 & S4 & R4 & V4 & Seg4); [done|cbn in Hf; lia|intros x Hx; apply Hsl; by right|done| | |].
      * eapply seg_ext; [|exact Hseg]. intros x Hx. apply Vx; [apply Hsl; by right|by intros ->].
      * intros ? [= <-]. split; [done|]. split; [intros Hin; apply Hncs; by right|]. rewrite (V n Hn), (bool_decide_true (n = n)) by done. split.
        -- split; [done|]. rewrite (V c Hc), (bool_decide_false (c = n)), (bool_decide_true (c = c)) by done. cbn [next_sibling links set_next_sibling set_links set_parent]. eapply seg_ext; [|exact Hol].
           intros x Hx. destruct (Holds x Hx) as [Hsx Hxc]. apply Vx; [done|]. intros ->. apply Hxc. by left.
        -- intros x [-> |Hx]%elem_of_cons; [done|]. destruct (Holds x Hx) as [Hsx Hxc]. split; [done|]. intros Hin. apply Hxc. by right.
      * exists k4. split; [done|]. split; [done|]. split; [by rewrite R4, R3, R2|]. assert (Er : rev (c :: cs) ++ olds = rev cs ++ c :: olds) by (cbn [rev]; by rewrite <- app_assoc). rewrite Er. split; [|done].
        intros j Hj. destruct (V4 j Hj) as (l & Ev & A1 & A2 & A3 & A4 & A5). rewrite V in Ev, A1, A2, A3, A4, A5 by done. exists l. unfold adopted. rewrite Er. split.
        { rewrite Ev. destruct (vi k j). by repeat case_bool_decide. }
        rewrite A1, A2, A4, A5. destruct (decide (j = n)) as [->|Hjn].
        -- rewrite (bool_decide_true (n = n)) in * by done. assert (Hn' : n ∉ cs) by (intros ?; apply Hncs; by right). rewrite (bool_decide_false (n ∈ cs)), (bool_decide_false (n ∈ c :: cs)), bool_decide_true by done. split; [done|]. split; [done|].
           split; [|done]. intros _. by apply A3.
        -- rewrite (bool_decide_false (j = n)) in * by done. rewrite (bool_decide_false (Some n = Some j)) in * by congruence. destruct (decide (j = c)) as [->|Hjc].
           ++ rewrite (bool_decide_true (c = c)) in * by done. rewrite (bool_decide_false (c ∈ cs)), bool_decide_true by (done || by left). split; [done|]. split; [done|]. split; [|done]. intros Hc'. destruct Hc'. by left.
           ++ rewrite (bool_decide_false (j = c)) in * by done. assert (Ein : bool_decide (j ∈ c :: cs) = bool_decide (j ∈ cs)) by (by apply bool_decide_ext, elem_cons_ne). rewrite Ein. split; [done|]. split; [done|].
              split; [|done]. intros Hjcs. apply A3. by rewrite elem_cons_ne in Hjcs.
    + rewrite bind_Ok. destruct (IH fuel k1 (next_sibling (links (vi k c))) olds) as (k4 & E4 & S4 & R4 & V4 & Seg4); [done|cbn in Hf; lia|intros x Hx; apply Hsl; by right|done| |done|].
      * eapply seg_ext; [|exact Hseg]. intros x Hx. rewrite V1, bool_decide_false; [done|by intros ->|apply Hsl; by right].
      * exists k4. split; [done|]. split; [done|]. split; [by rewrite R4|]. split; [|done]. intros j Hj. destruct (V4 j Hj) as (l & Ev & A1 & A2 & A3 & A4 & A5). rewrite V1 in Ev, A1, A2, A3, A4, A5 by done. exists l. unfold adopted. split.
        { rewrite Ev. destruct (vi k j). by case_bool_decide. }
        rewrite A1, A2, A4, A5. destruct (decide (j = c)) as [->|Hjc].
        -- rewrite (bool_decide_true (c = c)) in * by done. rewrite (bool_decide_false (c ∈ cs)), bool_decide_true by (done || by left). split; [done|]. split; [done|]. split; [|done]. intros Hc'. destruct Hc'. by left.
        -- rewrite (bool_decide_false (j = c)) in * by done. assert (Ein : bool_decide (j ∈ c :: cs) = bool_decide (j ∈ cs)) by (by apply bool_decide_ext, elem_cons_ne). rewrite Ein. split; [done|]. split; [done|].
           split; [|done]. intros Hjcs. apply A3. by rewrite elem_cons_ne in Hjcs.
Qed.
Lemma elem_rev (x : Z) xs : x ∈ rev xs <-> x ∈ xs.
Proof. by rewrite <- (Permutation_rev xs). Qed.
Lemma nodup_rev (xs : list Z) : NoDup xs -> NoDup (rev xs).
Proof. intros H. by rewrite <- (Permutation_rev xs). Qed.

Definition orphaned (i : Z) (init : ptr) (kids : Z -> list Z) : Z -> list Z :=
  match init with Some n => <[n := rev (kids i) ++ kids n]> (<[i := []]> kids) | None => <[i := []]> kids end.

Lemma orphaned_at i init kids j :
  (forall n, init = Some n -> n <> i) ->
  orphaned i init kids j = if bool_decide (j = i) then [] else if bool_decide (init = Some j) then rev (kids i) ++ kids j else kids j.
Proof.
  intros Hn. unfold orphaned. destruct init as [n|].
  - specialize (Hn n eq_refl). destruct (decide (n = j)) as [->|Hne].
    + by rewrite fn_lookup_insert, (bool_decide_false (j = i)), bool_decide_true.
    + rewrite fn_lookup_insert_ne, (bool_decide_false (Some n = Some j)) by congruence. destruct (decide (i = j)) as [->|]; [by rewrite fn_lookup_insert, bool_decide_true|by rewrite fn_lookup_insert_ne, bool_decide_false].
  - rewrite (bool_decide_false (None = Some j)) by done. destruct (decide (i = j)) as [->|]; [by rewrite fn_lookup_insert, bool_decide_true|by rewrite fn_lookup_insert_ne, bool_decide_false].
Qed.

Lemma kids_disjoint k all kids i j c : forest k all kids -> i ∈ all -> j ∈ all -> c ∈ kids i -> c ∈ kids j -> i = j.
Proof. intros H Hi Hj [_ Ei]%(fo_kids_in _ _ _ H) [_ Ej]%(fo_kids_in _ _ _ H); congruence. Qed.

(** The forest after [i] has become a zombie and [init] has taken its children. *)
Lemma forest_orphaned k k' all kids i init :
  forest k all kids -> sized k' -> i ∈ all -> (forall n, init = Some n -> n ∈ all /\ id (vi k n) = 1 /\ n <> i /\ state (vi k n) = Running) ->
  all_vipers_head k' = all_vipers_head k -> next_viper_id k' = next_viper_id k ->
  (forall j, slot j -> id (vi k' j) = id (vi k j) /\ state (vi k' j) = (if bool_decide (j = i) then Zombie else state (vi k j)) /\
     next_all (links (vi k' j)) = next_all (links (vi k j)) /\ prev_all (links (vi k' j)) = prev_all (links (vi k j)) /\
     parent (links (vi k' j)) = (if bool_decide (j ∈ kids i) then init else parent (links (vi k j))) /\
     first_child (links (vi k' j)) = (if bool_decide (j = i) then None else if bool_decide (init = Some j) then hp (rev (kids i) ++ kids j) None else first_child (links (vi k j))) /\
     (j ∉ kids i -> next_sibling (links (vi k' j)) = next_sibling (links (vi k j)))) ->
  (forall n, init = Some n -> seg (fun j => next_sibling (links (vi k' j))) (hp (rev (kids i) ++ kids n) None) (rev (kids i) ++ kids n) None) ->
  forest k' all (orphaned i init kids).
Proof.
  intros H Hs Hi Hinit Eh En V Hseg. assert (Va := fun j (Hj : j ∈ all) => V j (fo_slots _ _ _ H j Hj)). assert (Hni : forall n, init = Some n -> n <> i) by (intros n E; apply (Hinit n E)).
  assert (Hk := fo_kids_in _ _ _ H). constructor; try done; try apply H.
  - rewrite Eh. eapply seg_ext; [|apply H]. intros j Hj. by destruct (Va j Hj) as (_ & _ & -> & _).
  - eapply back_ext; [|apply H]. intros j Hj. by destruct (Va j Hj) as (_ & _ & _ & -> & _).
  - intros j Hj. destruct (V j Hj) as (_ & -> & _). rewrite (fo_live _ _ _ H) by done. case_bool_decide as E; [|done]. subst j. split; [done|]. intros _. by apply (fo_live _ _ _ H).
  - intros p Hp. rewrite orphaned_at by done. destruct (Va p Hp) as (_ & _ & _ & _ & _ & -> & _). case_bool_decide as Epi; [done|]. case_bool_decide as En'; [by apply Hseg|].
    eapply seg_ext; [|by apply (fo_kids _ _ _ H)]. intros c Hc. destruct (Va c) as (_ & _ & _ & _ & _ & _ & Hn); [by apply (Hk p)|]. apply Hn. intros Hci. by apply Epi, (kids_disjoint k all kids p i c).
  - intros p Hp. rewrite orphaned_at by done. case_bool_decide as Epi; [apply NoDup_nil_2|]. case_bool_decide as En'; [|by apply (fo_kids_nodup _ _ _ H)]. apply NoDup_app.
    split; [by apply nodup_rev, (fo_kids_nodup _ _ _ H)|]. split; [|by apply (fo_kids_nodup _ _ _ H)]. intros c Hc Hc'. rewrite elem_rev in Hc. by apply Epi, (kids_disjoint k all kids p i c).
  - intros p c Hp. rewrite orphaned_at by done. split.
    + case_bool_decide as Epi; [by intros ?%not_elem_of_nil|]. case_bool_decide as En'.
      * intros [Hc|Hc]%elem_of_app.
        -- rewrite elem_rev in Hc. assert (Hca : c ∈ all) by (by apply (Hk i)). split; [done|]. destruct (Va c Hca) as (_ & _ & _ & _ & -> & _). by rewrite bool_decide_true.
        -- destruct (proj1 (Hk p c Hp) Hc) as [Hca Hpc]. split; [done|]. destruct (Va c Hca) as (_ & _ & _ & _ & -> & _). rewrite bool_decide_false; [done|]. intros Hci. by apply Epi, (kids_disjoint k all kids p i c).
      * intros Hc. assert (Hca := Hc). apply Hk in Hca as [Hca Hpc]; [|done]. split; [done|]. destruct (Va c Hca) as (_ & _ & _ & _ & -> & _). rewrite bool_decide_false; [done|]. intros Hci. by apply Epi, (kids_disjoint k all kids p i c).
    + intros [Hca Hpc]. destruct (Va c Hca) as (_ & _ & _ & _ & E & _). rewrite E in Hpc. case_bool_decide as Hci.
      * rewrite (bool_decide_false (p = i)), bool_decide_true by (done || by apply Hni). apply elem_of_app. left. by apply elem_rev.
      * case_bool_decide as Epi; [subst p; destruct Hci; by apply Hk|]. case_bool_decide; [apply elem_of_app; right|]; by apply Hk.
  - intros c p Hca Hpc. destruct (Va c Hca) as (-> & _ & _ & _ & E & _). rewrite E in Hpc. case_bool_decide as Hci.
    + destruct (Hinit p Hpc) as (Hp & E1 & _). split; [done|]. destruct (Va p Hp) as (-> & _). rewrite E1. apply Hk in Hci as [_ Hpi]; [|done]. destruct (fo_parent _ _ _ H c i Hca Hpi) as [_ Hlt]. assert (Hb := fo_ids _ _ _ H i Hi). lia.
    + destruct (fo_parent _ _ _ H c p Hca Hpc) as [Hp Hlt]. split; [done|]. by destruct (Va p Hp) as (-> & _).
  - intros j Hj. destruct (Va j Hj) as (-> & _). rewrite En. by apply (fo_ids _ _ _ H).
  - intros a b Ha Hb. destruct (Va a Ha) as (-> & _), (Va b Hb) as (-> & _). by apply (fo_unique _ _ _ H).
  - intros j Hj. destruct (Va j Hj) as (_ & -> & _). rewrite orphaned_at by done. case_bool_decide as Eji; [right; by split|]. destruct (fo_states _ _ _ H j Hj) as [?|[Ez Ek]]; [by left|].
    right. split; [done|]. rewrite bool_decide_false; [done|]. intros E. destruct (Hinit j E) as (_ & _ & _ & Er). by rewrite Ez in Er.
Qed.
Lemma exit_ok k all kids i code :
  forest k all kids -> stores k -> i ∈ all -> id (vi k i) <> 1 -> (forall n, n ∈ all -> id (vi k n) = 1 -> state (vi k n) = Running) ->
  (forall p, parent (links (vi k i)) = Some p -> exists r, wait_wake_one (child_waiters p) (waits k, tasks k) = Ok r) ->
  exists k' init, exit child_waiters code (Some i) k = Ok k' /\ stores k' /\ forest k' all (orphaned i init kids) /\ next_viper_id k' = next_viper_id k /\
    match init with Some n => n ∈ all /\ id (vi k n) = 1 | None => forall j, j ∈ all -> id (vi k j) <> 1 end /\
    forall j, j ∈ all -> id (vi k' j) = id (vi k j) /\ state (vi k' j) = (if bool_decide (j = i) then Zombie else state (vi k j)) /\
      exit_code (vi k' j) = (if bool_decide (j = i) then code else exit_code (vi k j)) /\ parent (links (vi k' j)) = (if bool_decide (j ∈ kids i) then init else parent (links (vi k j))).
Proof.
  intros H St Hi Hid H1 Hwake. assert (Hs := fo_sized _ _ _ H). assert (Hsi := fo_slots _ _ _ H i Hi). unfold exit.
  destruct (slot_put_ok k i (fun v => set_state Zombie (set_exit_code code v)) Hs Hsi) as (k1 & -> & S1 & R1 & V1). rewrite bind_Ok. destruct (rest_inv _ _ R1) as (En1 & Eh1 & _ & _ & _ & _ & _ & Ew1 & Et1).
  assert (Hfind : exists r, find 1 k1 = Ok r /\ match r with Some n => n ∈ all /\ id (vi k n) = 1 | None => forall j, j ∈ all -> id (vi k j) <> 1 end).
  { assert (Hv : forall j, j ∈ all -> id (vi k1 j) = id (vi k j)) by (intros j Hj; rewrite V1 by (by apply (fo_slots _ _ _ H)); by case_bool_decide).
    destruct (proc_find_loop_ok k1 1 all FUEL (all_vipers_head k1) S1) as (r & E & Hr).
    - intros j Hj. assert (Hsj := fo_slots _ _ _ H j Hj). split; [done|]. rewrite V1 by done. case_bool_decide; [done|]. by apply (fo_live _ _ _ H).
    - assert (Hl := slots_short all (fo_nodup _ _ _ H) (fo_slots _ _ _ H)). unfold FUEL. lia.
    - rewrite Eh1. eapply seg_ext; [|apply H]. intros j Hj. rewrite V1 by (by apply (fo_slots _ _ _ H)). by case_bool_decide.
    - exists r. split; [done|]. destruct r as [n|]; [destruct Hr as [Hn E1]; by rewrite Hv in E1|]. intros j Hj. rewrite <- Hv by done. by apply Hr. }
  destruct Hfind as (init & -> & Hfi). rewrite bind_Ok, (link_eq _ k1 i S1 Hsi), bind_Ok. assert (Ei : vi k1 i = set_state Zombie (set_exit_code code (vi k i))) by (by rewrite V1, bool_decide_true).
  assert (Hni : forall n, init = Some n -> n ∈ all /\ id (vi k n) = 1 /\ n <> i /\ state (vi k n) = Running).
  { intros n ->. destruct Hfi as [Hn E1]. split; [done|]. split; [done|]. split; [by intros ->|by apply H1]. }
  assert (Hks : forall c p, p ∈ all -> c ∈ kids p -> slot c /\ id (vi k p) < id (vi k c)).
  { intros c p Hp [Hc Hpc]%(fo_kids_in _ _ _ H); [|done]. split; [by apply (fo_slots _ _ _ H)|]. by apply (fo_parent _ _ _ H). }
  assert (Hlk : forall j, slot j -> links (vi k1 j) = links (vi k j)) by (intros j Hj; rewrite V1 by done; by case_bool_decide).
  destruct (reparent_ok init (kids i) FUEL k1 (first_child (links (vi k1 i))) (match init with Some n => kids n | None => [] end) S1) as (k2 & -> & S2 & R2 & V2 & Seg2).
  { assert (Hl := slots_short (kids i) (fo_kids_nodup _ _ _ H i Hi) (fun c Hc => proj1 (Hks c i Hi Hc))). unfold FUEL. lia. }
  { intros c Hc. by apply (Hks c i). }
  { by apply (fo_kids_nodup _ _ _ H). }
  { rewrite Hlk by done. eapply seg_ext; [|by apply (fo_kids _ _ _ H)]. intros c Hc. rewrite Hlk; [done|]. by apply (Hks c i). }
  { intros n ->. destruct (Hni n eq_refl) as (Hn & E1 & Hne & _). split; [by apply (fo_slots _ _ _ H)|]. split; [intros Hc; destruct (Hks n i Hi Hc) as [_ Hlt]; assert (Hb := fo_ids _ _ _ H i Hi); lia|].
    split; [rewrite Hlk by (by apply (fo_slots _ _ _ H)); eapply seg_ext; [|by apply (fo_kids _ _ _ H)]; intros c Hc; rewrite Hlk; [done|by apply (Hks c n)]|].
    intros x Hx. split; [by apply (Hks x n)|]. intros Hxi. by apply Hne, (kids_disjoint k all kids n i x). }
  rewrite bind_Ok. destruct (slot_put_ok k2 i (set_first_child None) S2 Hsi) as (k3 & -> & S3 & R3 & V3). rewrite bind_Ok, (link_eq _ k3 i S3 Hsi), bind_Ok.
  assert (Hii : i ∉ kids i) by (intros Hin; destruct (Hks i i Hi Hin) as [_ ?]; lia).
  assert (V : forall j, slot j -> exists l, vi k3 j = set_links l (if bool_decide (j = i) then set_state Zombie (set_exit_code code (vi k j)) else vi k j) /\
    next_all l = next_all (links (vi k j)) /\ prev_all l = prev_all (links (vi k j)) /\ parent l = (if bool_decide (j ∈ kids i) then init else parent (links (vi k j))) /\
    first_child l = (if bool_decide (j = i) then None else if bool_decide (init = Some j) then hp (rev (kids i) ++ kids j) None else first_child (links (vi k j))) /\
    (j ∉ kids i -> next_sibling l = next_sibling (links (vi k j)))).
  { intros j Hj. destruct (V2 j Hj) as (l & E2 & A1 & A2 & A3 & A4 & A5). rewrite Hlk in A1, A2, A3, A4, A5 by done. rewrite V3, E2, V1 by done. destruct (bool_decide_reflect (j = i)) as [Eji|Eji].
    - exists (mkLinks (parent l) None (next_sibling l) (next_all l) (prev_all l)). split; [done|]. split; [done|]. split; [done|]. split; [done|]. by split.
    - exists l. split; [done|]. split; [done|]. split; [done|]. split; [done|]. split; [|done]. rewrite A2. case_bool_decide as En; [by subst init|done]. }
  assert (Rk : rest k3 = rest k) by (by rewrite R3, R2). destruct (rest_inv _ _ Rk) as (En3 & Eh3 & _ & _ & _ & _ & _ & Ew3 & Et3).
  assert (T3 : stores k3) by (apply (stores_rest k); [done|done|]; intros j Hj; destruct (V j Hj) as (l & -> & _); by destruct (bool_decide (_ = i))).
  assert (Fo : forest k3 all (orphaned i init kids)).
  { apply (forest_orphaned k); try done.
    - intros j Hj. destruct (V j Hj) as (l & -> & A1 & A2 & A3 & A4 & A5). cbn [links set_links id state]. rewrite A1, A2, A3, A4. do 2 (split; [by destruct (bool_decide (_ = i))|]). done.
    - intros n E. assert (Sn := Seg2 n E). rewrite E in Sn. eapply seg_ext; [|exact Sn]. intros x Hx. destruct (Hni n E) as (Hn & _). assert (Hsx : slot x) by (apply elem_of_app in Hx as [Hx|Hx]; [rewrite elem_rev in Hx; by apply (Hks x i)|by apply (Hks x n)]).
      rewrite V3 by done. by destruct (bool_decide (_ = i)). }
  assert (Hout : forall j, j ∈ all -> id (vi k3 j) = id (vi k j) /\ state (vi k3 j) = (if bool_decide (j = i) then Zombie else state (vi k j)) /\
      exit_code (vi k3 j) = (if bool_decide (j = i) then code else exit_code (vi k j)) /\ parent (links (vi k3 j)) = (if bool_decide (j ∈ kids i) then init else parent (links (vi k j)))).
  { intros j Hj. destruct (V j (fo_slots _ _ _ H j Hj)) as (l & -> & _ & _ & A3 & _). cbn [links set_links]. rewrite A3. by destruct (bool_decide (j = i)). }
  destruct (Hout i Hi) as (_ & _ & _ & Epi). rewrite (bool_decide_false (i ∈ kids i)) in Epi by done. rewrite Epi. destruct (parent (links (vi k i))) as [p|].
  - rewrite Ew3, Et3. destruct (Hwake p eq_refl) as ([[w s] t] & ->). rewrite bind_Ok. exists (set_waits (w, s) k3), init. split; [done|]. split; [by destruct T3|]. split; [by destruct Fo|]. done.
  - exists k3, init. done.
Qed.
(** ** Taking a process out *)

Lemma seg_remove nxt nxt' h pre x post :
  seg nxt h (pre ++ x :: post) None -> NoDup (pre ++ x :: post) ->
  (forall j, j ∈ pre ++ post -> nxt' j = if bool_decide (lp None pre = Some j) then hp post None else nxt j) ->
  seg nxt' (match lp None pre with None => hp post None | Some _ => h end) (pre ++ post) None.
Proof.
  intros H Hn E. apply pseg_app in H as [H1 [_ H2]]. apply NoDup_app in Hn as (Hn & Hd & Hp). assert (Hx := pseg_hp _ _ _ _ H2).
  assert (Hpost : seg nxt' (hp post None) post None).
  { rewrite <- Hx. eapply seg_ext; [|exact H2]. intros j Hj. rewrite E by (apply elem_of_app; by right). rewrite bool_decide_false; [done|]. intros El. assert (Hin : j ∈ pre).
    { destruct (snoc_cases pre) as [->|(pre' & q & ->)]; [done|]. rewrite lp_snoc in El. injection El as ->. apply elem_of_app. right. by left. }
    apply (Hd j Hin). by right. }
  destruct (snoc_cases pre) as [->|(pre' & q & ->)]; [done|]. rewrite lp_snoc in *. apply pseg_app. split; [|done]. eapply seg_redirect; [exact H1| |].
  - intros j Hj. rewrite E by (apply elem_of_app; left; apply elem_of_app; by left). rewrite bool_decide_false; [done|]. intros [= ->]. apply NoDup_app in Hn as (_ & Hn & _). apply (Hn j Hj). by left.
  - rewrite E by (apply elem_of_app; left; apply elem_of_app; right; by left). by rewrite bool_decide_true.
Qed.

Lemma back_remove prv prv' pre x post :
  back prv None (pre ++ x :: post) -> NoDup (pre ++ x :: post) ->
  (forall j, j ∈ pre ++ post -> prv' j = if bool_decide (hp post None = Some j) then lp None pre else prv j) -> back prv' None (pre ++ post).
Proof.
  intros H Hn E. apply back_app in H as [H1 [_ H2]]. apply NoDup_app in Hn as (_ & Hd & [_ Hp]%NoDup_cons). apply back_app. split.
  - eapply back_ext; [|exact H1]. intros j Hj. rewrite E by (apply elem_of_app; by left). rewrite bool_decide_false; [done|]. intros Ej. apply (Hd j Hj). destruct post as [|y post]; [done|]. injection Ej as ->. right. by left.
  - destruct post as [|y post]; [done|]. destruct H2 as [_ H2]. apply NoDup_cons in Hp as [Hy _]. split; [rewrite E by (apply elem_of_app; right; by left); by rewrite bool_decide_true|].
    eapply back_ext; [|exact H2]. intros j Hj. rewrite E by (apply elem_of_app; right; by right). rewrite bool_decide_false; [done|]. by intros [= ->].
Qed.

(** The sibling walk finds the pointer to change, or the end of the list. *)
Lemma unlink_child_ok k p v pre post : forall fuel prev,
  sized k -> slot p -> (forall q, prev = Some q -> slot q) -> (forall c, c ∈ pre ++ v :: post -> slot c) -> v ∉ pre -> (length pre <= fuel)%nat ->
  seg (fun j => next_sibling (links (vi k j))) (match prev with None => first_child (links (vi k p)) | Some q => next_sibling (links (vi k q)) end) (pre ++ v :: post) None ->
  unlink_child fuel p prev v k = match lp prev pre with None => put p (set_first_child (hp post None)) k | Some q => put q (set_next_sibling (hp post None)) k end.
Proof.
  induction pre as [|c pre IH]; intros fuel prev Hs Hp Hq Hsl Hv Hf Hseg; destruct Hseg as [Eh Hseg].
  - assert (Hsv : slot v) by (apply Hsl; by left). assert (Ec : match prev with None => link first_child p k | Some q => link next_sibling q k end = Ok (Some v)).
    { destruct prev as [q|]; [rewrite link_eq by (try done; by apply Hq)|rewrite link_eq by done]; by rewrite Eh. }
    destruct fuel, prev; cbn [unlink_child]; by rewrite Ec, bind_Ok, Z.eqb_refl, (link_eq _ k v Hs Hsv), bind_Ok, (pseg_hp _ _ _ _ Hseg).
  - destruct fuel as [|fuel]; [cbn in Hf; lia|]. assert (Hsc : slot c) by (apply Hsl; by left). cbn [unlink_child].
    assert (Ec : match prev with None => link first_child p k | Some q => link next_sibling q k end = Ok (Some c)).
    { destruct prev as [q|]; [rewrite link_eq by (try done; by apply Hq)|rewrite link_eq by done]; by rewrite Eh. }
    transitivity (unlink_child fuel p (Some c) v k); [destruct prev; rewrite Ec, bind_Ok; (destruct (Z.eqb_spec c v) as [->|Hne]; [destruct Hv; by left|done])|]. rewrite lp_cons. apply IH; try done.
    + by intros q [= <-].
    + intros x Hx. apply Hsl. by right.
    + intros Hin. apply Hv. by right.
    + cbn in Hf. lia.
Qed.

Lemma unlink_absent k p v xs : forall fuel prev,
  sized k -> slot p -> (forall q, prev = Some q -> slot q) -> (forall c, c ∈ xs -> slot c) -> v ∉ xs -> (length xs <= fuel)%nat ->
  seg (fun j => next_sibling (links (vi k j))) (match prev with None => first_child (links (vi k p)) | Some q => next_sibling (links (vi k q)) end) xs None ->
  unlink_child fuel p prev v k = Ok k.
Proof.
  induction xs as [|c xs IH]; intros fuel prev Hs Hp Hq Hsl Hv Hf Hseg.
  - assert (Ec : match prev with None => link first_child p k | Some q => link next_sibling q k end = Ok None).
    { destruct prev as [q|]; [rewrite link_eq by (try done; by apply Hq)|rewrite link_eq by done]; by rewrite Hseg. }
    destruct fuel, prev; cbn [unlink_child]; by rewrite Ec, bind_Ok.
  - destruct Hseg as [Eh Hseg]. destruct fuel as [|fuel]; [cbn in Hf; lia|]. cbn [unlink_child].
    assert (Ec : match prev with None => link first_child p k | Some q => link next_sibling q k end = Ok (Some c)).
    { destruct prev as [q|]; [rewrite link_eq by (try done; by apply Hq)|rewrite link_eq by done]; by rewrite Eh. }
    transitivity (unlink_child fuel p (Some c) v k); [destruct prev; rewrite Ec, bind_Ok; (destruct (Z.eqb_spec c v) as [->|Hne]; [destruct Hv; by left|done])|]. apply IH; try done.
    + intros q [= <-]. apply Hsl. by left.
    + intros x Hx. apply Hsl. by right.
    + intros Hin. apply Hv. by right.
    + cbn in Hf. lia.
Qed.

Lemma unlink_all_ok k i pre post :
  sized k -> (forall j, j ∈ pre ++ i :: post -> slot j) -> NoDup (pre ++ i :: post) ->
  seg (fun j => next_all (links (vi k j))) (all_vipers_head k) (pre ++ i :: post) None -> back (fun j => prev_all (links (vi k j))) None (pre ++ i :: post) ->
  exists k', unlink_all i k = Ok k' /\ sized k' /\
    rest k' = rest (set_all (match lp None pre with None => hp post None | Some _ => all_vipers_head k end) k) /\
    (forall j, slot j -> exists l, vi k' j = set_links l (vi k j) /\ parent l = parent (links (vi k j)) /\ first_child l = first_child (links (vi k j)) /\ next_sibling l = next_sibling (links (vi k j)) /\
       next_all l = (if bool_decide (lp None pre = Some j) then hp post None else next_all (links (vi k j))) /\
       prev_all l = (if bool_decide (hp post None = Some j) then lp None pre else prev_all (links (vi k j)))).
Proof.
  intros Hs Hsl Hn Hseg Hb. apply pseg_app in Hseg as [_ [_ Hpost]]. apply back_app in Hb as [_ [Ep _]]. apply pseg_hp in Hpost. assert (Hsi : slot i) by (apply Hsl, elem_of_app; right; by left).
  unfold unlink_all. rewrite (viper_eq k i Hs Hsi), bind_Ok, Ep, Hpost. apply NoDup_app in Hn as (_ & Hd & [Hip _]%NoDup_cons).
  assert (Hlp : forall q, lp None pre = Some q -> q ∈ pre /\ slot q /\ q <> i).
  { intros q E. assert (Hq : q ∈ pre) by (destruct (snoc_cases pre) as [->|(pre' & y & ->)]; [done|]; rewrite lp_snoc in E; injection E as ->; apply elem_of_app; right; by left).
    split; [done|]. split; [apply Hsl, elem_of_app; by left|]. intros ->. apply (Hd i Hq). by left. }
  assert (Hhp : forall q, hp post None = Some q -> q ∈ post /\ slot q /\ q <> i).
  { intros q E. destruct post as [|y post]; [done|]. injection E as ->. assert (Hq : q ∈ q :: post) by (by left). split; [done|]. split; [apply Hsl, elem_of_app; right; by right|]. by intros ->. }
  assert (H1 : exists k1, match lp None pre with Some q => put q (set_next_all (hp post None)) k | None => Ok (set_all (hp post None) k) end = Ok k1 /\ sized k1 /\
    rest k1 = rest (set_all (match lp None pre with None => hp post None | Some _ => all_vipers_head k end) k) /\
    forall j, slot j -> vi k1 j = if bool_decide (lp None pre = Some j) then set_next_all (hp post None) (vi k j) else vi k j).
  { destruct (lp None pre) as [q|] eqn:El.
    - destruct (Hlp q eq_refl) as (_ & Hq & _). destruct (slot_put_ok k q (set_next_all (hp post None)) Hs Hq) as (k1 & -> & S1 & R1 & V1). exists k1. split; [done|]. split; [done|]. split; [rewrite R1; by destruct k|].
      intros j Hj. rewrite V1 by done. destruct (decide (j = q)) as [->|]; [by rewrite !bool_decide_true|by rewrite !bool_decide_false by congruence].
    - eexists. split; [done|]. split; [done|]. split; [done|]. intros j Hj. by rewrite bool_decide_false. }
  destruct H1 as (k1 & E1 & S1 & R1 & V1). rewrite E1, bind_Ok, (link_eq next_all k1 i S1 Hsi), bind_Ok.
  assert (Ei : vi k1 i = vi k i) by (rewrite V1 by done; rewrite bool_decide_false; [done|]; intros E; by apply (Hlp i E)). rewrite Ei, Hpost. destruct (hp post None) as [n|] eqn:Eh.
  - rewrite (link_eq _ k1 i S1 Hsi), bind_Ok, Ei, Ep. destruct (Hhp n eq_refl) as (_ & Hsn & _). destruct (slot_put_ok k1 n (set_prev_all (lp None pre)) S1 Hsn) as (k2 & -> & S2 & R2 & V2).
    exists k2. split; [done|]. split; [done|]. split; [by rewrite R2|]. intros j Hj. rewrite V2, V1 by done. destruct (decide (j = n)) as [->|Hjn].
    + rewrite (bool_decide_true (n = n)), (bool_decide_true (Some n = Some n)) by done. destruct (bool_decide (lp None pre = Some n)); eexists; (split; [reflexivity|]; done).
    + rewrite (bool_decide_false (j = n)), (bool_decide_false (Some n = Some j)) by congruence. destruct (bool_decide (lp None pre = Some j)); [eexists; split; [reflexivity|done]|exists (links (vi k j)); split; [by destruct (vi k j)|done]].
  - exists k1. split; [done|]. split; [done|]. split; [done|]. intros j Hj. rewrite V1, (bool_decide_false (None = Some j)) by done. destruct (bool_decide (lp None pre = Some j)); [eexists; split; [reflexivity|done]|exists (links (vi k j)); split; [by destruct (vi k j)|done]].
Qed.
Lemma links_kept i k k' (f : Links -> ptr) : frame i k k' -> links (vi k' i) = links (vi k i) -> forall j, slot j -> f (links (vi k' j)) = f (links (vi k j)).
Proof. intros Fr E j Hj. destruct (decide (j = i)) as [->|Hne]; [by rewrite E|]. by rewrite (fr_others _ _ _ Fr). Qed.

(** The address space of process [i] can be torn down. *)
Definition destroyable (i : Z) k : Prop := exists a r, rd (address_spaces k) i = Ok a /\ World.destroy a (world k) = Ok r.

Lemma put_spaces i f k k' : put i f k = Ok k' -> address_spaces k' = address_spaces k.
Proof. unfold put. intros (? & _ & E)%bind_inv. apply bind_inv in E as (? & _ & E). by injection E as <-. Qed.

(** Giving up the tables and the address space. *)
Lemma proc_release_ok k i (f : Procs -> res Procs) :
  sized k -> stores k -> slot i -> destroyable i k ->
  exists k', (fdt ← rd (fd_tables k) i; fdt ← FdTable.close_all_fds fdt; tables ← wr (fd_tables k) i fdt; k ← put i (set_fd_table None) (set_fd_tables tables k);
    a ← rd (address_spaces k) i; '(a, w) ← World.destroy a (world k); spaces ← wr (address_spaces k) i a; let k := set_spaces spaces w k in
    ct ← rd (cap_tables k) i; tables ← wr (cap_tables k) i (Cap.destroy ct); f (set_cap_tables tables k)) = f k' /\
    frame i k k' /\ links (vi k' i) = links (vi k i).
Proof.
  intros Hs St Hi Hw. destruct (frame_fds k i Hs St Hi) as (t & -> & Lt & Ht). rewrite bind_Ok. destruct (fd_close_ok t Lt) as (t' & -> & Lt'). rewrite bind_Ok. destruct (Ht t' Lt') as (-> & F1). rewrite bind_Ok.
  set (k1 := set_fd_tables _ k) in *. destruct (frame_put k1 i (set_fd_table None) (fr_sized _ _ _ F1) (fr_stores _ _ _ F1) Hi) as (k2 & E2 & F2 & V2 & Ew2); [done|]. rewrite E2, bind_Ok. apply put_spaces in E2. change (address_spaces k1) with (address_spaces k) in E2.
  destruct Hw as (a & [a' w'] & Ea & Ed). destruct (frame_spaces k2 i (fr_sized _ _ _ F2) (fr_stores _ _ _ F2) Hi) as (_ & _ & Ha).
  rewrite E2, Ea, bind_Ok, Ew2. change (world k1) with (world k). rewrite Ed, bind_Ok, <- E2.
  destruct (Ha a' w') as (-> & F3). rewrite bind_Ok. set (k3 := set_spaces _ w' k2) in *. cbv zeta. destruct (frame_caps k3 i (fr_sized _ _ _ F3) (fr_stores _ _ _ F3) Hi) as (ct & -> & Hct). rewrite bind_Ok.
  destruct (Hct (Cap.destroy ct)) as (-> & F4 & _). rewrite bind_Ok. eexists. split; [done|]. split; [by apply (frame_trans _ _ _ _ F1), (frame_trans _ _ _ _ F2), (frame_trans _ _ _ _ F3)|].
  change (vi (set_cap_tables _ k3) i) with (vi k2 i). by rewrite V2.
Qed.

(** Destroying process [i], which is in no list of children any more. *)
Lemma destroy_ok k i pre post xs :
  sized k -> stores k -> (forall j, j ∈ pre ++ i :: post -> slot j) -> NoDup (pre ++ i :: post) -> state (vi k i) <> Invalid ->
  seg (fun j => next_all (links (vi k j))) (all_vipers_head k) (pre ++ i :: post) None -> back (fun j => prev_all (links (vi k j))) None (pre ++ i :: post) ->
  (forall p, parent (links (vi k i)) = Some p -> slot p /\ p <> i /\ seg (fun j => next_sibling (links (vi k j))) (first_child (links (vi k p))) xs None) ->
  (forall c, c ∈ xs -> slot c) -> i ∉ xs -> (length xs <= FUEL)%nat -> destroyable i k ->
  exists k', destroy (Some i) k = Ok k' /\ sized k' /\ stores k' /\ next_viper_id k' = next_viper_id k /\
    all_vipers_head k' = match lp None pre with None => hp post None | Some _ => all_vipers_head k end /\ state (vi k' i) = Invalid /\
    (forall j, slot j -> j <> i -> exists l, vi k' j = set_links l (vi k j) /\ parent l = parent (links (vi k j)) /\ first_child l = first_child (links (vi k j)) /\ next_sibling l = next_sibling (links (vi k j)) /\
       next_all l = (if bool_decide (lp None pre = Some j) then hp post None else next_all (links (vi k j))) /\
       prev_all l = (if bool_decide (hp post None = Some j) then lp None pre else prev_all (links (vi k j)))).
Proof.
  intros Hs St Hsl Hn Hst Hseg Hb Hpar Hxs Hix Hlen Hw. assert (Hi : slot i) by (apply Hsl, elem_of_app; right; by left). unfold destroy. rewrite (get_eq state k i Hs Hi), bind_Ok, bool_decide_false by done.
  destruct (proc_release_ok k i (fun k => k ← unlink_all i k; k ← put i (set_state Invalid) k; k ← remove_from_parent i k; put i (fun v => set_id 0 (set_name (<[0%nat := 0]> (name v)) v)) k) Hs St Hi Hw) as (k1 & E1 & F1 & L1). match type of E1 with _ = ?r => match goal with |- exists k', ?m = Ok k' /\ _ => assert (m = r) as -> by exact E1 end end. cbv beta. clear E1.
  assert (Lk := links_kept i k k1). destruct (unlink_all_ok k1 i pre post (fr_sized _ _ _ F1) Hsl Hn) as (k2 & -> & S2 & R2 & V2).
  { rewrite (fr_head _ _ _ F1). eapply seg_ext; [|exact Hseg]. intros j Hj. by apply Lk, Hsl. }
  { eapply back_ext; [|exact Hb]. intros j Hj. by apply Lk, Hsl. }
  rewrite bind_Ok. assert (T2 : stores k2).
  { apply (stores_rest (set_all (match lp None pre with None => hp post None | Some _ => all_vipers_head k1 end) k1)); [by destruct (fr_stores _ _ _ F1)|done|]. intros j Hj. by destruct (V2 j Hj) as (l & -> & _). }
  destruct (rest_inv _ _ R2) as (En2 & Eh2 & _). cbn [set_all next_viper_id all_vipers_head] in En2, Eh2. rewrite (fr_head _ _ _ F1) in Eh2.
  destruct (frame_put k2 i (set_state Invalid) S2 T2 Hi) as (k3 & -> & F3 & V3 & _); [done|]. rewrite bind_Ok.
  assert (L3 : forall j, slot j -> parent (links (vi k3 j)) = parent (links (vi k j)) /\ first_child (links (vi k3 j)) = first_child (links (vi k j)) /\ next_sibling (links (vi k3 j)) = next_sibling (links (vi k j))).
  { intros j Hj. rewrite !(links_kept i k2 k3) by (try done; by rewrite V3). destruct (V2 j Hj) as (l & -> & A1 & A2 & A3 & _). cbn [links set_links]. by rewrite A1, A2, A3, (Lk parent F1 L1), (Lk first_child F1 L1), (Lk next_sibling F1 L1) by done. }
  assert (Er : remove_from_parent i k3 = Ok k3).
  { unfold remove_from_parent. rewrite (link_eq parent k3 i (fr_sized _ _ _ F3) Hi), bind_Ok. destruct (L3 i Hi) as (-> & _). destruct (parent (links (vi k i))) as [p|]; [|done]. destruct (Hpar p eq_refl) as (Hp & Hne & Hsp).
    apply (unlink_absent k3 p i xs FUEL None (fr_sized _ _ _ F3) Hp); try done. destruct (L3 p Hp) as (_ & -> & _). eapply seg_ext; [|exact Hsp]. intros c Hc. by apply L3, Hxs. }
  rewrite Er, bind_Ok. destruct (frame_put k3 i (fun v => set_id 0 (set_name (<[0%nat := 0]> (name v)) v)) (fr_sized _ _ _ F3) (fr_stores _ _ _ F3) Hi) as (k4 & -> & F4 & V4 & _); [done|].
  exists k4. split; [done|]. split; [apply F4|]. split; [apply F4|]. split; [by rewrite (fr_next _ _ _ F4), (fr_next _ _ _ F3), En2, (fr_next _ _ _ F1)|]. split; [by rewrite (fr_head _ _ _ F4), (fr_head _ _ _ F3)|].
  split; [by rewrite V4, V3|]. intros j Hj Hne. rewrite (fr_others _ _ _ F4), (fr_others _ _ _ F3) by done. destruct (V2 j Hj) as (l & -> & Hl). rewrite (fr_others _ _ _ F1) in Hl |- * by done. by exists l.
Qed.
(** The forest without the childless process [c]. *)
Lemma forest_removed k k' pre post kids c p kpre kpost :
  forest k (pre ++ c :: post) kids -> sized k' -> parent (links (vi k c)) = Some p -> kids p = kpre ++ c :: kpost -> kids c = [] ->
  next_viper_id k' = next_viper_id k -> all_vipers_head k' = match lp None pre with None => hp post None | Some _ => all_vipers_head k end -> state (vi k' c) = Invalid ->
  (forall j, slot j -> j <> c -> id (vi k' j) = id (vi k j) /\ state (vi k' j) = state (vi k j) /\ parent (links (vi k' j)) = parent (links (vi k j)) /\
     first_child (links (vi k' j)) = (if bool_decide (j = p /\ kpre = []) then hp kpost None else first_child (links (vi k j))) /\
     next_sibling (links (vi k' j)) = (if bool_decide (lp None kpre = Some j) then hp kpost None else next_sibling (links (vi k j))) /\
     next_all (links (vi k' j)) = (if bool_decide (lp None pre = Some j) then hp post None else next_all (links (vi k j))) /\
     prev_all (links (vi k' j)) = (if bool_decide (hp post None = Some j) then lp None pre else prev_all (links (vi k j)))) ->
  forest k' (pre ++ post) (<[p := kpre ++ kpost]> kids).
Proof.
  intros H Hs Hpc Hkp Hkc En Eh Est V. set (all := pre ++ c :: post) in *. assert (Hn := fo_nodup _ _ _ H). assert (Hc : c ∈ all) by (apply elem_of_app; right; by left).
  assert (Hin : forall j, j ∈ pre ++ post <-> j ∈ all /\ j <> c).
  { intros j. unfold all. rewrite !elem_of_app, elem_of_cons. apply NoDup_app in Hn as (_ & Hd & [Hcp _]%NoDup_cons). split; [|tauto]. intros Hj. split; [tauto|]. intros ->. destruct Hj as [Hj|Hj]; [|done]. apply (Hd c Hj). by left. }
  assert (Vj : forall j, j ∈ pre ++ post -> id (vi k' j) = id (vi k j) /\ state (vi k' j) = state (vi k j) /\ parent (links (vi k' j)) = parent (links (vi k j))) by (intros j [Hj Hne]%Hin; destruct (V j (fo_slots _ _ _ H j Hj) Hne) as (? & ? & ? & _); done).
  assert (Hcs : forall q x, q ∈ all -> x ∈ kids q -> x ∈ all /\ parent (links (vi k x)) = Some q) by (intros q x Hq; apply (fo_kids_in _ _ _ H); done).
  assert (Hp : p ∈ all) by (by apply (fo_parent _ _ _ H c p)). assert (Hnk := fo_kids_nodup _ _ _ H p Hp). rewrite Hkp in Hnk.
  assert (Hlp : forall j, lp None kpre = Some j -> j ∈ kpre) by (intros j E; destruct (snoc_cases kpre) as [->|(ys & y & ->)]; [done|]; rewrite lp_snoc in E; injection E as ->; apply elem_of_app; right; by left).
  assert (Hk' : forall x, x ∈ kpre ++ kpost <-> x ∈ kids p /\ x <> c).
  { intros x. rewrite Hkp, !elem_of_app, elem_of_cons. apply NoDup_app in Hnk as (_ & Hd & [Hcp _]%NoDup_cons). split; [|tauto]. intros Hx. split; [tauto|]. intros ->. destruct Hx as [Hx|Hx]; [|done]. apply (Hd c Hx). by left. }
  constructor; try done.
  - rewrite Eh. eapply seg_remove; [apply H|exact Hn|]. intros j [Hj Hne]%Hin. by apply (V j (fo_slots _ _ _ H j Hj) Hne).
  - eapply back_remove; [apply H|exact Hn|]. intros j [Hj Hne]%Hin. by apply (V j (fo_slots _ _ _ H j Hj) Hne).
  - apply NoDup_app in Hn as (H1 & H2 & [_ H3]%NoDup_cons). apply NoDup_app. split; [done|]. split; [|done]. intros x Hx Hx'. apply (H2 x Hx). by right.
  - intros j [Hj _]%Hin. by apply (fo_slots _ _ _ H).
  - intros j Hj. rewrite Hin. destruct (decide (j = c)) as [->|Hne]; [rewrite Est; tauto|]. destruct (V j Hj Hne) as (_ & -> & _). rewrite <- (fo_live _ _ _ H) by done. tauto.
  - intros q Hq. destruct (proj1 (Hin q) Hq) as [Hqa Hqc]. destruct (V q (fo_slots _ _ _ H q Hqa) Hqc) as (_ & _ & _ & Ef & _). assert (Hseg := fo_kids _ _ _ H q Hqa). destruct (decide (p = q)) as [->|Hne].
    + rewrite fn_lookup_insert, Ef. rewrite Hkp in Hseg. assert (Hr := seg_remove _ (fun j => next_sibling (links (vi k' j))) _ _ _ _ Hseg Hnk).
      replace (if bool_decide (q = q /\ kpre = []) then hp kpost None else first_child (links (vi k q))) with (match lp None kpre with None => hp kpost None | Some _ => first_child (links (vi k q)) end).
      * apply Hr. intros j [Hj Hjc]%Hk'. destruct (Hcs q j Hqa Hj) as [Hja _]. by apply (V j (fo_slots _ _ _ H j Hja) Hjc).
      * destruct (snoc_cases kpre) as [->|(ys & y & ->)]; [by rewrite bool_decide_true|]. rewrite lp_snoc, bool_decide_false; [done|]. intros [_ E]. by apply app_eq_nil in E as [_ ?].
    + rewrite fn_lookup_insert_ne, Ef, bool_decide_false by (done || by intros [-> _]). eapply seg_ext; [|exact Hseg]. intros x Hx. destruct (Hcs q x Hqa Hx) as [Hxa Hxq].
      destruct (V x (fo_slots _ _ _ H x Hxa)) as (_ & _ & _ & _ & -> & _); [by intros ->; congruence|]. rewrite bool_decide_false; [done|]. intros E. assert (Hxp : x ∈ kids p) by (rewrite Hkp; apply elem_of_app; left; by apply Hlp).
      by apply Hne, (kids_disjoint k all kids p q x).
  - intros q [Hqa Hqc]%Hin. destruct (decide (p = q)) as [->|Hne]; [rewrite fn_lookup_insert|rewrite fn_lookup_insert_ne by done; by apply (fo_kids_nodup _ _ _ H)].
    apply NoDup_app in Hnk as (H1 & H2 & [_ H3]%NoDup_cons). apply NoDup_app. split; [done|]. split; [|done]. intros x Hx Hx'. apply (H2 x Hx). by right.
  - intros q x [Hqa Hqc]%Hin. assert (Hm : x ∈ <[p := kpre ++ kpost]> kids q <-> x ∈ kids q /\ x <> c).
    { destruct (decide (p = q)) as [->|Hne]; [by rewrite fn_lookup_insert|]. rewrite fn_lookup_insert_ne by done. split; [|tauto]. intros Hx. split; [done|]. intros ->. destruct (Hcs q c Hqa Hx) as [_ E]. congruence. }
    rewrite Hm, (fo_kids_in _ _ _ H q x Hqa), Hin. split.
    + intros [[Hx E] Hxc]. split; [done|]. destruct (Vj x) as (_ & _ & ->); [by apply Hin|done].
    + intros [[Hx Hxc] E]. destruct (Vj x) as (_ & _ & E'); [by apply Hin|]. rewrite E' in E. done.
  - intros x q Hx Hq. destruct (Vj x Hx) as (-> & _ & E). rewrite E in Hq. destruct (proj1 (Hin x) Hx) as [Hxa Hxc]. destruct (fo_parent _ _ _ H x q Hxa Hq) as [Hqa Hlt].
    assert (Hqc : q <> c) by (intros ->; assert (Hxk : x ∈ kids c) by (by apply (fo_kids_in _ _ _ H)); rewrite Hkc in Hxk; by apply not_elem_of_nil in Hxk). assert (Hq' : q ∈ pre ++ post) by (by apply Hin). split; [done|]. by destruct (Vj q Hq') as (-> & _).
  - intros j Hj. destruct (Vj j Hj) as (-> & _). rewrite En. apply Hin in Hj as [Hj _]. by apply (fo_ids _ _ _ H).
  - intros a b Ha Hb. destruct (Vj a Ha) as (-> & _), (Vj b Hb) as (-> & _). apply Hin in Ha as [Ha _]. apply Hin in Hb as [Hb _]. by apply (fo_unique _ _ _ H).
  - intros j Hj. destruct (Vj j Hj) as (_ & -> & _). apply Hin in Hj as [Hj _]. destruct (fo_states _ _ _ H j Hj) as [?|[Ez Ek]]; [by left|right]. split; [done|]. destruct (decide (p = j)) as [<-|Hne]; [|by rewrite fn_lookup_insert_ne].
    rewrite Ek in Hkp. by destruct kpre.
Qed.
Lemma reap_ok k all kids c p :
  forest k all kids -> stores k -> c ∈ all -> state (vi k c) = Zombie -> parent (links (vi k c)) = Some p -> destroyable c k ->
  exists k' all' kids', reap (Some c) k = Ok k' /\ stores k' /\ forest k' all' kids' /\ next_viper_id k' = next_viper_id k /\ (forall j, j ∈ all' <-> j ∈ all /\ j <> c) /\ kept all' k k'.
Proof.
  intros H St Hc Hz Hpc Hw. assert (Hs := fo_sized _ _ _ H). assert (Hsc := fo_slots _ _ _ H c Hc). destruct (fo_parent _ _ _ H c p Hc Hpc) as [Hp Hlt]. assert (Hsp := fo_slots _ _ _ H p Hp). assert (Hpne : p <> c) by (intros ->; lia).
  assert (Hck : c ∈ kids p) by (by apply (fo_kids_in _ _ _ H)). assert (Hkc : kids c = []) by (destruct (fo_states _ _ _ H c Hc) as [E|[_ ?]]; [by rewrite Hz in E|done]).
  assert (Hkseg := fo_kids _ _ _ H p Hp). assert (Hknd := fo_kids_nodup _ _ _ H p Hp). assert (Hksl : forall x, x ∈ kids p -> slot x) by (intros x [Hx _]%(fo_kids_in _ _ _ H); [by apply (fo_slots _ _ _ H)|done]).
  assert (Hklen := slots_short (kids p) Hknd Hksl). apply list_elem_of_split in Hck as (kpre & kpost & Ek). rewrite Ek in Hkseg, Hknd, Hksl, Hklen. rewrite length_app in Hklen. cbn [length] in Hklen.
  assert (Hnc : (c ∉ kpre) /\ (c ∉ kpost)) by (apply NoDup_app in Hknd as (_ & Hd & [? _]%NoDup_cons); split; [intros Hin; apply (Hd c Hin); by left|done]).
  unfold reap. rewrite (get_eq state k c Hs Hsc), bind_Ok, bool_decide_true by done. cbn [negb]. unfold remove_from_parent at 1. rewrite (link_eq parent k c Hs Hsc), bind_Ok, Hpc.
  rewrite (unlink_child_ok k p c kpre kpost FUEL None Hs Hsp) by (try done; try apply Hnc; unfold FUEL; lia).
  assert (Hlp : forall q, lp None kpre = Some q -> q ∈ kpre) by (intros j E; destruct (snoc_cases kpre) as [->|(ys & y & ->)]; [done|]; rewrite lp_snoc in E; injection E as ->; apply elem_of_app; right; by left).
  assert (H1 : exists k1, match lp None kpre with None => put p (set_first_child (hp kpost None)) k | Some q => put q (set_next_sibling (hp kpost None)) k end = Ok k1 /\ sized k1 /\ rest k1 = rest k /\
    forall j, slot j -> exists l, vi k1 j = set_links l (vi k j) /\ parent l = parent (links (vi k j)) /\ next_all l = next_all (links (vi k j)) /\ prev_all l = prev_all (links (vi k j)) /\
      first_child l = (if bool_decide (j = p /\ kpre = []) then hp kpost None else first_child (links (vi k j))) /\
      next_sibling l = (if bool_decide (lp None kpre = Some j) then hp kpost None else next_sibling (links (vi k j)))).
  { destruct (snoc_cases kpre) as [->|(ys & y & ->)].
    - destruct (slot_put_ok k p (set_first_child (hp kpost None)) Hs Hsp) as (k1 & E & S1 & R1 & V1). exists k1. split; [exact E|]. split; [done|]. split; [done|]. intros j Hj. rewrite V1 by done. destruct (decide (j = p)) as [->|Hne].
      + rewrite (bool_decide_true (p = p)), (bool_decide_true (p = p /\ _)) by done. eexists. split; [reflexivity|]. done.
      + rewrite (bool_decide_false (j = p)), (bool_decide_false (j = p /\ _)) by (done || by intros [? _]). exists (links (vi k j)). split; [by destruct (vi k j)|]. done.
    - rewrite lp_snoc. assert (Hsy : slot y) by (apply Hksl; rewrite !elem_of_app; left; right; by left). destruct (slot_put_ok k y (set_next_sibling (hp kpost None)) Hs Hsy) as (k1 & E & S1 & R1 & V1). exists k1. split; [exact E|]. split; [done|]. split; [done|].
      intros j Hj. rewrite V1, (bool_decide_false (j = p /\ _)) by (done || by intros [_ ?%app_eq_nil]; naive_solver). destruct (decide (j = y)) as [->|Hne].
      + rewrite (bool_decide_true (y = y)), (bool_decide_true (Some y = Some y)) by done. eexists. split; [reflexivity|]. done.
      + rewrite (bool_decide_false (j = y)), (bool_decide_false (Some y = Some j)) by congruence. exists (links (vi k j)). split; [by destruct (vi k j)|]. done. }
  destruct H1 as (k1 & E1 & S1 & R1 & V1). rewrite E1, bind_Ok. destruct (rest_inv _ _ R1) as (En1 & Eh1 & _ & Ea1 & _ & _ & Ew1 & _).
  assert (Hall := fo_all _ _ _ H). assert (Hback := fo_back _ _ _ H). assert (Hnd := fo_nodup _ _ _ H). assert (Hsl := fo_slots _ _ _ H). assert (Hc' := Hc). apply list_elem_of_split in Hc' as (pre & post & Ea). rewrite Ea in Hall, Hback, Hnd, Hsl.
  assert (Vc : exists l, vi k1 c = set_links l (vi k c) /\ parent l = Some p) by (destruct (V1 c Hsc) as (l & E & El & _); exists l; split; [done|by rewrite El]). destruct Vc as (lc & Ec & Elc).
  assert (Hxs : forall x, x ∈ kpre ++ kpost -> slot x) by (intros x Hx; apply Hksl; rewrite elem_of_app in Hx |- *; rewrite elem_of_cons; tauto).
  destruct (destroy_ok k1 c pre post (kpre ++ kpost) S1) as (k2 & E2 & S2 & T2 & En2 & Eh2 & Est2 & V2); [| done | done | | | | | done | | | |].
  - apply (stores_rest k); [done|done|]. intros j Hj. by destruct (V1 j Hj) as (l & -> & _).
  - rewrite Ec. cbn [state set_links]. by rewrite Hz.
  - rewrite Eh1. eapply seg_ext; [|exact Hall]. intros j Hj. destruct (V1 j (Hsl j Hj)) as (l & -> & _ & El & _). done.
  - eapply back_ext; [|exact Hback]. intros j Hj. destruct (V1 j (Hsl j Hj)) as (l & -> & _ & _ & El & _). done.
  - intros q Eq. rewrite Ec in Eq. cbn [links set_links] in Eq. rewrite Elc in Eq. injection Eq as <-. split; [done|]. split; [done|]. assert (Hr := seg_remove _ (fun j => next_sibling (links (vi k1 j))) _ _ _ _ Hkseg Hknd).
    destruct (V1 p Hsp) as (l & E & _ & _ & _ & Ef & _). rewrite E. cbn [links set_links]. rewrite Ef.
    replace (if bool_decide (p = p /\ kpre = []) then hp kpost None else first_child (links (vi k p))) with (match lp None kpre with None => hp kpost None | Some _ => first_child (links (vi k p)) end).
    + apply Hr. intros j Hj. destruct (V1 j (Hxs j Hj)) as (l' & -> & _ & _ & _ & _ & En). done.
    + destruct (snoc_cases kpre) as [->|(ys & y & ->)]; [by rewrite bool_decide_true|]. rewrite lp_snoc, bool_decide_false; [done|]. intros [_ E']. by apply app_eq_nil in E' as [_ ?].
  - rewrite elem_of_app. tauto.
  - rewrite length_app. unfold FUEL. lia.
  - unfold destroyable. by rewrite Ew1, Ea1.
  - assert (V : forall j, slot j -> j <> c -> exists l, vi k2 j = set_links l (vi k j) /\ parent l = parent (links (vi k j)) /\
      first_child l = (if bool_decide (j = p /\ kpre = []) then hp kpost None else first_child (links (vi k j))) /\
      next_sibling l = (if bool_decide (lp None kpre = Some j) then hp kpost None else next_sibling (links (vi k j))) /\
      next_all l = (if bool_decide (lp None pre = Some j) then hp post None else next_all (links (vi k j))) /\ prev_all l = (if bool_decide (hp post None = Some j) then lp None pre else prev_all (links (vi k j)))).
    { intros j Hj Hne. destruct (V2 j Hj Hne) as (l & -> & A1 & A2 & A3 & A4 & A5). destruct (V1 j Hj) as (l1 & E & B1 & B2 & B3 & B4 & B5). rewrite E in A1, A2, A3, A4, A5 |- *. cbn [links set_links] in A1, A2, A3, A4, A5.
      exists l. split; [done|]. rewrite A1, A2, A3, A4, A5, B1, B2, B3, B4, B5. done. }
    exists k2, (pre ++ post), (<[p := kpre ++ kpost]> kids). split; [exact E2|]. split; [done|]. split; [|split; [by rewrite En2|]].
    + rewrite Ea in H. apply (forest_removed k k2 pre post kids c p kpre kpost H S2 Hpc Ek Hkc); [by rewrite En2|by rewrite Eh2, Eh1|done|].
      intros j Hj Hne. destruct (V j Hj Hne) as (l & -> & A1 & A2 & A3 & A4 & A5). done.
    + assert (Hin : forall j, j ∈ pre ++ post <-> j ∈ all /\ j <> c).
      { intros j. rewrite Ea, !elem_of_app, elem_of_cons. apply NoDup_app in Hnd as (_ & Hd & [Hcp _]%NoDup_cons). split; [|tauto]. intros Hj. split; [tauto|]. intros ->. destruct Hj as [Hj|Hj]; [|done]. apply (Hd c Hj). by left. }
      split; [done|]. intros j [Hj Hne]%Hin. destruct (V j (fo_slots _ _ _ H j Hj) Hne) as (l & -> & A1 & _). done.
Qed.
End Spec.
End ProcessSpec.
