(* ===== verification/ProcessRefine.v ===== *)
(** * The process table refines a map of processes

    The table, the list of all processes and the lists of children represent a
    finite map from process identifiers to the parent and the status of each
    process.  Creation, exit and waiting implement the operations on that map. *)

From stdpp Require Import functions.
From S2P Require Import Prelude Buddy Bitmap Frames Cow Swap AddressSpace AddressSpaceSpec World Vma VmaTree VmaOps VmaSpec VmaRefine Fault FaultSpec CowSpec Cap CapTable CapRevoke CapSpec Task Heap Sched Wait Poll Channel PollSet FdTable Process ProcessSpec.

Module ProcessRefine.
Import Frames AddressSpace World Wait Process ProcessSpec.

Section Spec.
Context {F : Type} {frames : FrameAllocator F} {D : Type} {S : Type} {TO : TaskOps S} {A : Type}.
Context (child_waiters : Z -> Z).
Abbreviation Procs := (Process.Procs F D S A).
Implicit Type k : Procs.

Definition asked (child c : Z) : bool := (child =? -1) || (child =? c).

Lemma find_zombie_ok k child xs : forall fuel h,
  sized k -> -1 <= child < 2 ^ 63 -> (forall c, c ∈ xs -> slot c) -> (length xs < fuel)%nat -> seg (fun j => next_sibling (links (vi k j))) h xs None ->
  exists r, find_zombie fuel child h k = Ok r /\
    match r with
    | Some c => c ∈ xs /\ state (vi k c) = Zombie /\ asked child (id (vi k c)) = true
    | None => forall c, c ∈ xs -> state (vi k c) = Zombie -> asked child (id (vi k c)) = false
    end.
Proof.
  induction xs as [|c xs IH]; intros fuel h Hs Hch Hsl Hf Hseg; (destruct fuel as [|fuel]; [cbn in Hf; lia|]).
  - cbn in Hseg. subst h. exists None. split; [done|]. by intros c ?%not_elem_of_nil.
  - destruct Hseg as [-> Hseg]. cbn [find_zombie]. rewrite (viper_eq k c Hs) by (apply Hsl; by left). rewrite bind_Ok.
    replace ((child =? -1) || (u64 child =? id (vi k c))) with (asked child (id (vi k c))).
    2:{ unfold asked. change (2 ^ 63) with 9223372036854775808 in Hch. destruct (Z.eqb_spec child (-1)); [done|]. by rewrite u64_small by lia. }
    destruct (bool_decide_reflect (state (vi k c) = Zombie)) as [Ez|Ez]; cbn [andb].
    + destruct (asked child (id (vi k c))) eqn:Ea; [exists (Some c); split; [done|]; split; [by left|done]|].
      destruct (IH fuel (next_sibling (links (vi k c))) Hs Hch) as (r & -> & Hr); [intros x Hx; apply Hsl; by right|cbn in Hf; lia|done|]. exists r. split; [done|]. destruct r as [x|].
      * destruct Hr. split; [by right|done].
      * intros x [-> |Hx]%elem_of_cons; [done|by apply Hr].
    + destruct (IH fuel (next_sibling (links (vi k c))) Hs Hch) as (r & -> & Hr); [intros x Hx; apply Hsl; by right|cbn in Hf; lia|done|]. exists r. split; [done|]. destruct r as [x|].
      * destruct Hr. split; [by right|done].
      * intros x [-> |Hx]%elem_of_cons; [done|by apply Hr].
Qed.

(** ** The map of processes *)

Record PInfo := mkP { ppid : option Z; status : option Z }.
Definition info k (i : Z) : PInfo :=
  mkP ((fun p => id (vi k p)) <$> parent (links (vi k i))) (match state (vi k i) with Zombie => Some (exit_code (vi k i)) | _ => None end).

(** The table represents the map [M], with [n] as the next identifier. *)
Definition represents k (all : list Z) (M : gmap Z PInfo) : Prop := forall x q, M !! x = Some q <-> exists i, i ∈ all /\ id (vi k i) = x /\ info k i = q.
Definition holds k (n : Z) (M : gmap Z PInfo) : Prop :=
  exists all kids, forest k all kids /\ stores k /\ next_viper_id k = n /\ 1 <= n <= 2 ^ 63 /\ represents k all M.

Lemma represents_at k all kids M i : forest k all kids -> represents k all M -> i ∈ all -> M !! id (vi k i) = Some (info k i).
Proof. intros _ R Hi. apply R. by exists i. Qed.

Lemma info_kept k k' all kids j : forest k all kids -> kept all k k' -> j ∈ all -> info k' j = info k j.
Proof.
  intros H K Hj. destruct (K j Hj) as (_ & E1 & E2 & E3). unfold info. rewrite E1, E2, E3. f_equal. destruct (parent (links (vi k j))) as [p|] eqn:Ep; [|done].
  destruct (fo_parent _ _ _ H j p Hj Ep) as [Hp _]. destruct (K p Hp) as (E & _). cbn. by rewrite E.
Qed.

Lemma represents_kept k k' all kids M : forest k all kids -> kept all k k' -> represents k all M -> represents k' all M.
Proof.
  intros H K R x q. rewrite (R x q). split; intros (i & Hi & E1 & E2); exists i; (split; [done|]); destruct (K i Hi) as (E & _); rewrite (info_kept _ _ _ _ _ H K Hi) in *; by rewrite E in *.
Qed.

(** ** Operations *)

(** [heap_ok] tells whether the kernel heap has room for a capability table. *)
Inductive Op := OCreate (heap_ok : bool) (par : ptr) (name : list Z) | OExit (i code : Z) | OWait (i child : Z) (nohang : bool) (task : ptr).
Inductive Out := OPid (p : option Z) | ODone | ORound (r : Round).

Definition exec (token : Z) (o : Op) k : res (Procs * Out) :=
  match o with
  | OCreate heap_ok par s =>
      '(k, r) ← create child_waiters heap_ok token par s k;
      match r with Some i => x ← get id i k; Ok (k, OPid (Some x)) | None => Ok (k, OPid None) end
  | OExit i code => k ← exit child_waiters code (Some i) k; Ok (k, ODone)
  | OWait i child nohang task => '(k, r) ← wait child_waiters child nohang task (Some i) k; Ok (k, ORound r)
  end.

(** The processes that call are running, process 1 does not exit, and the code
    for address spaces returns on the spaces at hand: a new one for creation, that
    of an exited child for waiting.  When the kernel heap is full, the new process
    has no parent. *)
Definition running k (i : Z) : Prop := slot i /\ state (vi k i) = Running.
Definition op_ok (o : Op) k (n : Z) : Prop :=
  match o with
  | OCreate heap_ok par _ => n < 2 ^ 63 /\ (forall p, par = Some p -> running k p) /\ (forall a, exists r, World.init a (world k) = Ok r) /\
      (heap_ok = false -> par = None /\ forall a a' w', World.init a (world k) = Ok (a', w', true) -> exists r, World.destroy a' w' = Ok r)
  | OExit i _ => running k i /\ id (vi k i) <> 1 /\ (forall j, slot j -> state (vi k j) = Zombie -> id (vi k j) <> 1) /\
      forall p, parent (links (vi k i)) = Some p -> exists r, wait_wake_one (child_waiters p) (waits k, tasks k) = Ok r
  | OWait i child _ _ => running k i /\ -1 <= child < 2 ^ 63 /\ forall c, slot c -> state (vi k c) = Zombie -> parent (links (vi k c)) = Some i -> destroyable c k
  end.

(** What happens to process [x] when process [p] exits. *)
Definition after_exit (p code : Z) (init : option Z) (x : Z) (q : PInfo) : option PInfo :=
  Some (mkP (if bool_decide (ppid q = Some p) then init else ppid q) (if bool_decide (x = p) then Some code else status q)).
Definition spec_exit (p code : Z) (M : gmap Z PInfo) : gmap Z PInfo := map_imap (after_exit p code ((fun _ => 1) <$> M !! 1)) M.

Definition child_of (p : Z) (M : gmap Z PInfo) (c : Z) (q : PInfo) : Prop := M !! c = Some q /\ ppid q = Some p.
Definition no_zombie (p child : Z) (M : gmap Z PInfo) : Prop := forall c q, child_of p M c q -> asked child c = true -> status q = None.

(** The operations on the map; [pid] gives the identifiers of the callers, and
    [tight] holds when no address space can be had. *)
Inductive spec (pid : Z -> Z) (tight : Prop) : Op -> Z -> gmap Z PInfo -> Out -> Z -> gmap Z PInfo -> Prop :=
| sp_create par s n M : (size M < 64)%nat -> spec pid tight (OCreate true par s) n M (OPid (Some n)) (n + 1) (<[n := mkP (pid <$> par) None]> M)
| sp_create_full heap_ok par s n M : size M = 64%nat -> spec pid tight (OCreate heap_ok par s) n M (OPid None) n M
| sp_create_space heap_ok par s n M : heap_ok = false \/ tight -> spec pid tight (OCreate heap_ok par s) n M (OPid None) (n + 1) M
| sp_exit i code n M : spec pid tight (OExit i code) n M ODone n (spec_exit (pid i) code M)
| sp_reap i child nohang task n M c code :
    child_of (pid i) M c (mkP (Some (pid i)) (Some code)) -> asked child c = true ->
    spec pid tight (OWait i child nohang task) n M (ORound (Return c (Some code))) n (delete c M)
| sp_childless i child nohang task n M :
    (forall c q, ~ child_of (pid i) M c q) -> spec pid tight (OWait i child nohang task) n M (ORound (Return Poll.VERR_NOT_FOUND None)) n M
| sp_nohang i child task n M c q :
    child_of (pid i) M c q -> no_zombie (pid i) child M -> spec pid tight (OWait i child true task) n M (ORound (Return 0 None)) n M
| sp_block i child task n M c q :
    child_of (pid i) M c q -> no_zombie (pid i) child M -> spec pid tight (OWait i child false (Some task)) n M (ORound Block) n M
| sp_no_task i child n M c q :
    child_of (pid i) M c q -> no_zombie (pid i) child M -> spec pid tight (OWait i child false None) n M (ORound (Return Channel.VERR_NOT_SUPPORTED None)) n M.
(** ** The steps *)

Lemma running_live k all kids i : forest k all kids -> running k i -> i ∈ all.
Proof. intros H (Hi & Er). apply (fo_live _ _ _ H); [done|]. by rewrite Er. Qed.

Lemma represents_size k all kids M : forest k all kids -> represents k all M -> size M = length all.
Proof.
  intros H R. rewrite <- size_dom. assert (Ed : dom M = list_to_set ((fun i => id (vi k i)) <$> all)).
  { apply set_eq. intros x. rewrite elem_of_dom, elem_of_list_to_set, list_elem_of_fmap. split.
    - intros [q Hq]. apply R in Hq as (i & Hi & <- & _). by exists i.
    - intros (i & -> & Hi). exists (info k i). by apply R; exists i. }
  rewrite Ed, size_list_to_set; [by rewrite length_fmap|]. assert (Hu := fo_unique _ _ _ H). assert (Hn := fo_nodup _ _ _ H). clear H R Ed. induction all as [|i all IH]; [constructor|].
  apply NoDup_cons in Hn as [Hi Hn]. rewrite fmap_cons. apply NoDup_cons. split.
  - intros (j & E & Hj)%list_elem_of_fmap. apply Hi. rewrite (Hu i j); [done|by left|by right|done].
  - apply IH; [|done]. intros a b Ha Hb. apply Hu; by right.
Qed.

Lemma create_step token heap_ok par s k n M :
  holds k n M -> op_ok (OCreate heap_ok par s) k n ->
  exists k' x n' M', exec token (OCreate heap_ok par s) k = Ok (k', x) /\ spec (fun i => id (vi k i)) (out_of_space k) (OCreate heap_ok par s) n M x n' M' /\ holds k' n' M'.
Proof.
  intros (all & kids & H & St & En & Hn & R) (Hlt & Hpar & Hw & Hheap). assert (Hp : forall p, par = Some p -> p ∈ all /\ state (vi k p) = Running).
  { intros p Ep. assert (Hr := Hpar p Ep). split; [by eapply running_live|apply Hr]. }
  destruct (create_ok child_waiters k all kids heap_ok token par s H St Hp ltac:(rewrite En; lia) Hw Hheap) as (k' & r & E & St' & K & Hr). cbn [exec]. rewrite E, bind_Ok. destruct r as [i|].
  - destruct Hr as (-> & H' & Hni & En' & Ei & Es & Epa & _). rewrite (get_eq id k' i (fo_sized _ _ _ H')) by (apply (fo_slots _ _ _ H'); by left). rewrite bind_Ok. rewrite Ei, En in *.
    eexists k', _, _, _. split; [done|]. split.
    { constructor. rewrite (represents_size k all kids M H R). assert (Hle := slots_short (i :: all) (fo_nodup _ _ _ H') (fo_slots _ _ _ H')). cbn [length] in Hle. lia. }
    exists (i :: all), (born i par kids). split; [done|]. split; [done|]. split; [done|]. split; [lia|].
    assert (Ii : info k' i = mkP ((fun j => id (vi k j)) <$> par) None).
    { unfold info. rewrite Es, Epa. f_equal. destruct par as [p|]; [|done]. destruct (Hp p eq_refl) as [Hpa _]. destruct (K p Hpa) as (E' & _). cbn. by rewrite E'. }
    assert (Hfresh : forall j, j ∈ all -> id (vi k j) <> n) by (intros j Hj; assert (Hb := fo_ids _ _ _ H j Hj); lia). intros x q. destruct (decide (n = x)) as [<-|Hne].
    + rewrite lookup_insert_eq. split.
      * intros [= <-]. exists i. split; [by left|done].
      * intros (j & [-> |Hj]%elem_of_cons & E1 & E2); [by rewrite <- E2, Ii|]. destruct (K j Hj) as (E' & _). rewrite E' in E1. by destruct (Hfresh j Hj).
    + rewrite lookup_insert_ne, (represents_kept k k' all kids M H K R x q) by done. split.
      * intros (j & Hj & ?). exists j. split; [by right|done].
      * intros (j & [-> |Hj]%elem_of_cons & E1 & E2); [by rewrite Ei in E1|]. by exists j.
  - destruct Hr as [H' Hcase]. assert (R' := represents_kept k k' all kids M H K R). destruct Hcase as [[-> Hfull]|[En' Hwhy]].
    + exists k, (OPid None), n, M. split; [done|]. split; [|by exists all, kids]. constructor. rewrite (represents_size k all kids M H R).
      assert (Hle := slots_short all (fo_nodup _ _ _ H) (fo_slots _ _ _ H)). assert (Hsub : seqZ 0 MAX_VIPERS ⊆+ all) by (apply NoDup_submseteq; [apply NoDup_seqZ|]; intros j Hj%elem_of_seqZ; apply Hfull; unfold slot; lia).
      apply submseteq_length in Hsub. rewrite length_seqZ in Hsub. change (Z.to_nat MAX_VIPERS) with 64%nat in Hsub. lia.
    + exists k', (OPid None), (n + 1), M. split; [done|]. split; [by constructor|]. exists all, kids. split; [done|]. split; [done|]. split; [lia|]. split; [lia|done].
Qed.

Lemma exit_step token i code k n M :
  holds k n M -> op_ok (OExit i code) k n ->
  exists k' x n' M', exec token (OExit i code) k = Ok (k', x) /\ spec (fun i => id (vi k i)) (out_of_space k) (OExit i code) n M x n' M' /\ holds k' n' M'.
Proof.
  intros (all & kids & H & St & En & Hn & R) (Hr & Hid & H1 & Hwake). assert (Hi := running_live _ _ _ _ H Hr).
  assert (Hinit : forall j, j ∈ all -> id (vi k j) = 1 -> state (vi k j) = Running).
  { intros j Hj E. destruct (fo_states _ _ _ H j Hj) as [?|[Ez _]]; [done|]. by destruct (H1 j (fo_slots _ _ _ H j Hj) Ez). }
  destruct (exit_ok child_waiters k all kids i code H St Hi Hid Hinit Hwake) as (k' & init & E & St' & H' & En' & Hfi & V). cbn [exec]. rewrite E, bind_Ok. eexists k', _, _, _. split; [done|]. split; [constructor|].
  exists all, (orphaned i init kids). split; [done|]. split; [done|]. split; [by rewrite En'|]. split; [done|]. set (pid := id (vi k i)).
  assert (Ei : (fun j => id (vi k j)) <$> init = (fun _ => 1) <$> M !! 1).
  { destruct init as [m|].
    - destruct Hfi as [Hm E1]. assert (Hq := represents_at k all kids M m H R Hm). rewrite E1 in Hq. rewrite Hq. cbn. by rewrite E1.
    - destruct (M !! 1) as [q|] eqn:Eq; [|done]. apply R in Eq as (j & Hj & E1 & _). by destruct (Hfi j Hj). }
  assert (Hinf : forall j, j ∈ all -> after_exit pid code ((fun _ => 1) <$> M !! 1) (id (vi k j)) (info k j) = Some (info k' j)).
  { intros j Hj. destruct (V j Hj) as (_ & Es & Ec & Ep). unfold after_exit, info. rewrite Es, Ec, Ep. cbn [ppid status]. f_equal. f_equal.
    - destruct (bool_decide_reflect (j ∈ kids i)) as [Hk|Hk].
      + apply (fo_kids_in _ _ _ H) in Hk as [_ ->]; [|done]. cbn. rewrite bool_decide_true by done. rewrite <- Ei. destruct init as [m|]; [|done]. destruct Hfi as [Hm _]. cbn. by destruct (V m Hm) as (-> & _).
      + rewrite bool_decide_false.
        * destruct (parent (links (vi k j))) as [p|] eqn:Epj; [|done]. destruct (fo_parent _ _ _ H j p Hj Epj) as [Hp _]. cbn. by destruct (V p Hp) as (-> & _).
        * destruct (parent (links (vi k j))) as [p|] eqn:Epj; [|done]. cbn. intros [= Epid]. destruct (fo_parent _ _ _ H j p Hj Epj) as [Hp _]. apply Hk, (fo_kids_in _ _ _ H); [done|]. split; [done|].
          by rewrite (fo_unique _ _ _ H i p Hi Hp (eq_sym Epid)) at 1.
    - destruct (bool_decide_reflect (j = i)) as [->|Hne]; [by rewrite bool_decide_true|]. rewrite bool_decide_false; [done|]. intros E1. by apply Hne, (fo_unique _ _ _ H). }
  intros x q. unfold spec_exit. rewrite map_lookup_imap. split.
  - intros (q0 & Hq0 & Hq)%bind_Some. apply R in Hq0 as (j & Hj & <- & <-). exists j. split; [done|]. split; [by destruct (V j Hj) as (-> & _)|]. rewrite Hinf in Hq by done. by injection Hq.
  - intros (j & Hj & <- & <-). destruct (V j Hj) as (-> & _). rewrite (represents_at k all kids M j H R Hj). cbn. by apply Hinf.
Qed.
Lemma i64_small z : 0 <= z < 2 ^ 63 -> i64 z = z.
Proof. intros Hz. unfold i64. change (2 ^ 63) with 9223372036854775808 in *. rewrite u64_small by lia. by destruct (Z.ltb_spec z 9223372036854775808); [|lia]. Qed.

Lemma kids_map k all kids M i : forest k all kids -> represents k all M -> i ∈ all ->
  forall c q, child_of (id (vi k i)) M c q <-> exists j, j ∈ kids i /\ id (vi k j) = c /\ info k j = q.
Proof.
  intros H R Hi c q. unfold child_of. rewrite (R c q). split.
  - intros [(j & Hj & Ec & Eq) Ep]. exists j. split; [|done]. apply (fo_kids_in _ _ _ H); [done|]. split; [done|]. rewrite <- Eq in Ep. unfold info in Ep. cbn [ppid] in Ep.
    destruct (parent (links (vi k j))) as [p|] eqn:Epj; [|done]. injection Ep as Ep. destruct (fo_parent _ _ _ H j p Hj Epj) as [Hp _]. by rewrite (fo_unique _ _ _ H p i Hp Hi Ep).
  - intros (j & Hj & Ec & Eq). apply (fo_kids_in _ _ _ H) in Hj as [Hj Ep]; [|done]. split; [by exists j|]. rewrite <- Eq. unfold info. cbn [ppid]. by rewrite Ep.
Qed.

Lemma wait_step token i child nohang task k n M :
  holds k n M -> op_ok (OWait i child nohang task) k n ->
  exists k' x n' M', exec token (OWait i child nohang task) k = Ok (k', x) /\ spec (fun i => id (vi k i)) (out_of_space k) (OWait i child nohang task) n M x n' M' /\ holds k' n' M'.
Proof.
  intros (all & kids & H & St & En & Hn & R) (Hr & Hch & Hw). assert (Hi := running_live _ _ _ _ H Hr). assert (Hs := fo_sized _ _ _ H). assert (Hsi := fo_slots _ _ _ H i Hi).
  cbn [exec]. unfold wait. rewrite (link_eq first_child k i Hs Hsi), bind_Ok. assert (Hkseg := fo_kids _ _ _ H i Hi). assert (Hkm := kids_map k all kids M i H R Hi).
  assert (Hksl : forall x, x ∈ kids i -> slot x) by (intros x [Hx _]%(fo_kids_in _ _ _ H); [by apply (fo_slots _ _ _ H)|done]). assert (Hlen := slots_short (kids i) (fo_kids_nodup _ _ _ H i Hi) Hksl).
  destruct (find_zombie_ok k child (kids i) FUEL (first_child (links (vi k i))) Hs Hch Hksl ltac:(unfold FUEL; lia) Hkseg) as (z & -> & Hz). rewrite bind_Ok. destruct z as [c|].
  - destruct Hz as (Hc & Ez & Ha). rewrite (viper_eq k c Hs (Hksl c Hc)), bind_Ok. destruct (proj1 (fo_kids_in _ _ _ H i c Hi) Hc) as [Hca Hpc].
    destruct (reap_ok child_waiters k all kids c i H St Hca Ez Hpc (Hw c (Hksl c Hc) Ez Hpc)) as (k' & all' & kids' & -> & St' & H' & En' & Hin & K). rewrite !bind_Ok. assert (Hb := fo_ids _ _ _ H c Hca).
    rewrite (i64_small (id (vi k c))) by lia. eexists k', _, _, _. split; [done|]. assert (Ic : info k c = mkP (Some (id (vi k i))) (Some (exit_code (vi k c)))) by (unfold info; by rewrite Ez, Hpc).
    split; [apply sp_reap; [apply Hkm; exists c; by rewrite Ic|done]|]. exists all', kids'. split; [done|]. split; [done|]. split; [by rewrite En'|]. split; [done|].
    assert (Hinf : forall j, j ∈ all' -> info k' j = info k j /\ id (vi k' j) = id (vi k j)).
    { intros j Hj. destruct (K j Hj) as (E0 & E1 & E2 & E3). split; [|done]. unfold info. rewrite E1, E2, E3. f_equal. destruct (parent (links (vi k j))) as [p|] eqn:Ep; [|done]. rewrite <- E3 in Ep.
      destruct (fo_parent _ _ _ H' j p Hj) as [Hp _]; [by rewrite E3, <- E3|]. destruct (K p Hp) as (E & _). cbn. by rewrite E. }
    intros x q. destruct (decide (id (vi k c) = x)) as [<-|Hne].
    + rewrite lookup_delete_eq. split; [done|]. intros (j & Hj & E & _). destruct (Hinf j Hj) as [_ Ej]. rewrite Ej in E. destruct (proj1 (Hin j) Hj) as [Hja Hjc]. by destruct (Hjc (fo_unique _ _ _ H j c Hja Hca E)).
    + rewrite lookup_delete_ne, (R x q) by done. split; intros (j & Hj & E1 & E2); exists j.
      * assert (Hj' : j ∈ all') by (apply Hin; split; [done|]; by intros ->). destruct (Hinf j Hj') as [-> ->]. done.
      * destruct (Hinf j Hj) as [Ei Ej]. rewrite Ei in E2. rewrite Ej in E1. split; [by apply Hin|done].
  - apply pseg_hp in Hkseg. rewrite Hkseg. destruct (kids i) as [|c cs] eqn:Ek; cbn [hp].
    + eexists k, _, n, M. split; [done|]. split; [|by exists all, kids]. apply sp_childless. intros c q (j & Hj & _)%Hkm. by apply not_elem_of_nil in Hj.
    + assert (Hc : child_of (id (vi k i)) M (id (vi k c)) (info k c)) by (apply Hkm; exists c; split; [by left|done]).
      assert (Hnz : no_zombie (id (vi k i)) child M).
      { intros x q (j & Hj & <- & <-)%Hkm Ha. unfold info. cbn [status]. destruct (state (vi k j)) eqn:Es; try done. by rewrite Hz in Ha. }
      destruct nohang; [eexists k, _, n, M; split; [done|]; split; [by eapply sp_nohang|by exists all, kids]|].
      destruct task as [t|]; [|eexists k, _, n, M; split; [done|]; split; [by eapply sp_no_task|by exists all, kids]].
      eexists _, _, n, M. split; [done|]. split; [by eapply sp_block|]. exists all, kids. split; [by destruct H|]. split; [by destruct St|done].
Qed.

(** (C10) The process table behaves like a map from identifiers to the parent and
    the status of each process.  Creating a process adds it under the next
    identifier; it fails only when 64 processes exist, when there is no identifier
    or no frame for the address space, or when the kernel heap has no room for the
    capability table.  Exit turns the caller into a zombie with its code and hands
    its children to process 1, or to nobody when there is none; wait removes a
    zombie child that was asked for and reports its identifier and exit code,
    fails exactly when there are no children, and otherwise returns 0 or blocks.
    Every call returns, and the lists of all processes and of children stay
    consistent.  Callers are running processes; process 1 does not exit; making
    the address space of the new process and tearing down that of the reaped
    child return; a creation for which the heap is full is that of a process
    without parent, since with a parent it damages the list of children
    ([failed_create_traps_wait]). *)
Theorem process_refines token o k n M :
  holds k n M -> op_ok o k n ->
  exists k' x n' M', exec token o k = Ok (k', x) /\ spec (fun i => id (vi k i)) (out_of_space k) o n M x n' M' /\ holds k' n' M'.
Proof. destruct o; [apply create_step|apply exit_step|apply wait_step]. Qed.

End Spec.

(** ** A concrete kernel *)

(** Tasks that are always blocked and a scheduler that accepts all of them. *)
Definition idle_ops : TaskOps unit := {|
  task_state _ _ := Task.Blocked; task_priority _ _ := 0; task_heap_index _ _ := Heap.NOT_IN_HEAP; task_by_id _ _ := None; set_task_state _ _ s := s; sched_enqueue _ s := Ok s
|}.

Definition demo_viper : Viper :=
  mkViper 0 (replicate 32 0) 0 0 None None 0 Invalid 0 (mkLinks None None None None None) (mkJob 0 0 false) (mkMemory 0 0 0 0 VmaRefine.blank 0) (mkLimits 0 0 0 0).
Definition demo_procs : Process.Procs FreeList Swap.Pages unit unit :=
  mkProcs (replicate 64 demo_viper) 1 None None (replicate 64 (mkAS 0 0)) (replicate 64 Cap.empty_table) (replicate 64 (replicate 32 (FdTable.mkFd false tt)))
    (CowSpec.demo_world AddressSpaceSpec.demo (Cow.mkCow (replicate 15 0) 4096 65536 15 true)) (mkWaits (fun _ => mkQueue [] 0) (fun _ => None) (fun _ => 0) 0 0) tt.

Lemma demo_vi i : slot i -> vi demo_procs i = demo_viper.
Proof. intros Hi. unfold vi. cbn [vipers demo_procs]. by rewrite lookup_replicate_2 by (unfold slot, MAX_VIPERS in Hi; lia). Qed.

Lemma demo_procs_holds : holds demo_procs 1 ∅.
Proof.
  exists [], (fun _ => []). split; [|split; [|split; [done|split; [lia|]]]].
  - constructor; try done; try (by intros i ?%not_elem_of_nil); [apply NoDup_nil_2| |by intros p c ?%not_elem_of_nil|by intros c p ?%not_elem_of_nil|by intros i j ?%not_elem_of_nil].
    intros i Hi. rewrite demo_vi by done. split; [by intros ?%not_elem_of_nil|done].
  - constructor; try done; [by apply Forall_replicate|]. intros i Hi. by rewrite demo_vi.
  - intros x q. rewrite lookup_empty. split; [done|]. by intros (i & ?%not_elem_of_nil & _).
Qed.

(** Running one call, and its answer. *)
Abbreviation demo_exec := (exec (TO := idle_ops) (A := unit) (D := Swap.Pages) (fun i => i) 7).
Definition after (o : Op) (k : Process.Procs FreeList Swap.Pages unit unit) := match demo_exec o k with Ok (k, _) => k | _ => k end.
Definition answer (o : Op) (k : Process.Procs FreeList Swap.Pages unit unit) := match demo_exec o k with Ok (_, x) => Some x | _ => None end.

Lemma after_answer o k k' x y : demo_exec o k = Ok (k', x) -> answer o k = Some y -> k' = after o k /\ x = y.
Proof. unfold after, answer. intros ->. by intros [= ->]. Qed.

(** Whether the code for address spaces returns. *)
Definition inits (a : AddressSpace) (k : Process.Procs FreeList Swap.Pages unit unit) : bool := match World.init a (world k) with Ok _ => true | _ => false end.
Definition destroys (i : Z) (k : Process.Procs FreeList Swap.Pages unit unit) : bool :=
  match rd (address_spaces k) i with Ok a => match World.destroy a (world k) with Ok _ => true | _ => false end | _ => false end.

Lemma inits_ok a k : inits a k = true -> exists r, World.init a (world k) = Ok r.
Proof. unfold inits. destruct (World.init a (world k)); [eauto|done..]. Qed.
Lemma destroys_ok i k : destroys i k = true -> destroyable i k.
Proof. unfold destroys, destroyable. destruct (rd _ _) as [a| |]; [|done..]. destruct (World.destroy a (world k)) as [r| |] eqn:Ed; [|done..]. intros _. by exists a, r. Qed.

(** Process 1 creates process 2, which exits with code 5 and is waited for. *)
Definition start_init : Op := OCreate true None [118; 105; 112].
Definition start_child : Op := OCreate true (Some 0) [115; 104].
Definition child_exits : Op := OExit 1 5.
Definition init_waits : Op := OWait 0 (-1) false None.
Definition procs1 := after start_init demo_procs.
Definition procs2 := after start_child procs1.
Definition procs3 := after child_exits procs2.
Definition procs4 := after init_waits procs3.

Lemma answer1 : answer start_init demo_procs = Some (OPid (Some 1)).
Proof. vm_compute. reflexivity. Qed.
Lemma answer2 : answer start_child procs1 = Some (OPid (Some 2)).
Proof. vm_compute. reflexivity. Qed.
Lemma answer3 : answer child_exits procs2 = Some ODone.
Proof. vm_compute. reflexivity. Qed.
Lemma answer4 : answer init_waits procs3 = Some (ORound (Return 2 (Some 5))).
Proof. vm_compute. reflexivity. Qed.

(** What is seen of slot [i]. *)
Definition seen (k : Process.Procs FreeList Swap.Pages unit unit) (i : Z) (st : ViperState) (n : Z) (par : ptr) : Prop :=
  state (vi k i) = st /\ id (vi k i) = n /\ parent (links (vi k i)) = par.
Definition no_zombies (l : list Viper) : bool := forallb (fun v => negb (bool_decide (state v = Zombie))) l.

Lemma seen_procs1 : seen procs1 0 Running 1 None.
Proof. split; [|split]; vm_compute; reflexivity. Qed.
Lemma seen_procs2 : seen procs2 1 Running 2 (Some 0) /\ no_zombies (vipers procs2) = true.
Proof. split; [split; [|split]|]; vm_compute; reflexivity. Qed.
Lemma seen_procs3 : seen procs3 0 Running 1 None /\ destroys 1 procs3 = true /\ no_zombies (delete 1%nat (vipers procs3)) = true.
Proof. split; [split; [|split]|split]; vm_compute; reflexivity. Qed.

Lemma no_zombie_at (k : Process.Procs FreeList Swap.Pages unit unit) j (l : list Viper) i : no_zombies l = true -> l !! i = Some (vi k j) -> state (vi k j) <> Zombie.
Proof.
  unfold no_zombies. intros H Hi E. rewrite forallb_forall in H. specialize (H (vi k j) ltac:(by eapply list_elem_of_In, list_elem_of_lookup_2)). by rewrite bool_decide_true in H.
Qed.

Lemma spec_create_inv pid tight h par s n M y n' M' :
  spec pid tight (OCreate h par s) n M (OPid (Some y)) n' M' -> n' = n + 1 /\ M' = <[n := mkP (pid <$> par) None]> M.
Proof. by inversion 1. Qed.
Lemma spec_exit_inv pid tight i code n M x n' M' : spec pid tight (OExit i code) n M x n' M' -> n' = n /\ M' = spec_exit (pid i) code M.
Proof. by inversion 1. Qed.
Lemma spec_reap_inv pid tight i child nohang task n M c code n' M' :
  spec pid tight (OWait i child nohang task) n M (ORound (Return c (Some code))) n' M' -> n' = n /\ M' = delete c M.
Proof. by inversion 1. Qed.

(** A creation for which the kernel heap is full. *)
Definition start_full : Op := OCreate false None [118; 105; 112].
Lemma answer_full : answer start_full demo_procs = Some (OPid None).
Proof. vm_compute. reflexivity. Qed.
Definition undoes (a : AddressSpace) : bool :=
  match World.init a (world demo_procs) with Ok (a', w', true) => match World.destroy a' w' with Ok _ => true | _ => false end | _ => true end.
Lemma undoes_all a : undoes a = true.
Proof. vm_compute. reflexivity. Qed.
Lemma step_full : op_ok (TO := idle_ops) (fun i => i) start_full demo_procs 1.
Proof.
  split; [lia|]. split; [done|]. split; [intros a; apply inits_ok; vm_compute; reflexivity|]. intros _. split; [done|]. intros a a' w' E. assert (U := undoes_all a). unfold undoes in U. rewrite E in U.
  destruct (World.destroy a' w') as [r| |]; [by exists r|discriminate..].
Qed.
Lemma spec_full_inv pid tight h par s n (M : gmap Z PInfo) n' M' : (size M < 64)%nat -> spec pid tight (OCreate h par s) n M (OPid None) n' M' -> n' = n + 1 /\ M' = M.
Proof. intros Hs. inversion 1; subst; [lia|done]. Qed.

Lemma step1 : op_ok (TO := idle_ops) (fun i => i) start_init demo_procs 1.
Proof. split; [lia|]. split; [done|]. split; [|done]. intros a. apply inits_ok. vm_compute. reflexivity. Qed.
Lemma step2 : op_ok (TO := idle_ops) (fun i => i) start_child procs1 2.
Proof.
  split; [lia|]. split; [|split; [|done]].
  - intros p [= <-]. split; [split; [done|reflexivity]|apply seen_procs1].
  - intros a. apply inits_ok. vm_compute. reflexivity.
Qed.
Lemma procs2_wakes : exists r, wait_wake_one (TO := idle_ops) 0 (waits procs2, tasks procs2) = Ok r.
Proof.
  assert (E : match wait_wake_one (TO := idle_ops) 0 (waits procs2, tasks procs2) with Ok _ => true | _ => false end = true) by (vm_compute; reflexivity).
  destruct (wait_wake_one 0 (waits procs2, tasks procs2)) as [r| |]; [by exists r|discriminate..].
Qed.
Lemma step3 : sized procs2 -> op_ok (TO := idle_ops) (fun i => i) child_exits procs2 3.
Proof.
  intros Hs. destruct seen_procs2 as [(X1 & X2 & X3) Hz]. split; [split; [split; [done|reflexivity]|exact X1]|]. split; [rewrite X2; discriminate|]. split.
  - intros j Hj Ez. destruct (no_zombie_at procs2 j _ _ Hz (vi_lookup procs2 j Hs Hj) Ez).
  - intros p Ep. rewrite X3 in Ep. injection Ep as <-. exact procs2_wakes.
Qed.
Lemma step4 : sized procs3 -> op_ok (TO := idle_ops) (fun i => i) init_waits procs3 3.
Proof.
  intros Hs. destruct seen_procs3 as [(X1 & X2 & X3) [Hd Hz]]. split; [split; [split; [done|reflexivity]|exact X1]|]. split; [lia|].
  intros c Hc Ez _. assert (El := vi_lookup procs3 c Hs Hc). destruct (decide (c = 1)) as [->|Hne]; [by apply destroys_ok|]. destruct (decide (c = 0)) as [->|Hne0]; [rewrite X1 in Ez; discriminate|].
  exfalso. eapply (no_zombie_at procs3 c _ (Z.to_nat c - 1) Hz); [|exact Ez]. unfold slot in Hc. rewrite list_lookup_delete_ge by lia. by replace (Datatypes.S (Z.to_nat c - 1)) with (Z.to_nat c) by lia.
Qed.

Lemma holds_sized (k : Process.Procs FreeList Swap.Pages unit unit) n M : holds k n M -> sized k.
Proof. intros (all & kids & H & _). apply H. Qed.
Lemma reaped_map : delete 2 (spec_exit 2 5 (<[2 := mkP (Some 1) None]> (<[1 := mkP None None]> ∅))) = <[1 := mkP None None]> ∅.
Proof. vm_compute. reflexivity. Qed.

(** Process 1 is created, creates process 2, which exits with code 5, and waits;
    on a full kernel heap nothing is created. *)
Lemma process_refines_witness :
  demo_exec start_init demo_procs = Ok (procs1, OPid (Some 1)) /\ demo_exec start_child procs1 = Ok (procs2, OPid (Some 2)) /\
  demo_exec child_exits procs2 = Ok (procs3, ODone) /\ demo_exec init_waits procs3 = Ok (procs4, ORound (Return 2 (Some 5))) /\
  holds procs2 3 (<[2 := mkP (Some 1) None]> (<[1 := mkP None None]> ∅)) /\ holds procs4 3 (<[1 := mkP None None]> ∅) /\
  exists k, demo_exec start_full demo_procs = Ok (k, OPid None) /\ holds k 2 ∅.
Proof.
  destruct (process_refines (TO := idle_ops) (fun i => i) 7 start_full demo_procs 1 ∅ demo_procs_holds step_full) as (k0 & x0 & n0 & M0 & E0 & S0 & H0).
  destruct (after_answer _ _ _ _ _ E0 answer_full) as [_ ->]. destruct (spec_full_inv _ _ _ _ _ _ _ _ _ ltac:(rewrite map_size_empty; lia) S0) as [-> ->].
  destruct (process_refines (TO := idle_ops) (fun i => i) 7 start_init demo_procs 1 ∅ demo_procs_holds step1) as (k1 & x1 & n1 & M1 & E1 & S1 & H1).
  destruct (after_answer _ _ _ _ _ E1 answer1) as [-> ->]. destruct (spec_create_inv _ _ _ _ _ _ _ _ _ _ S1) as [-> ->].
  destruct (process_refines (TO := idle_ops) (fun i => i) 7 start_child procs1 2 _ H1 step2) as (k2 & x2 & n2 & M2 & E2 & S2 & H2).
  destruct (after_answer _ _ _ _ _ E2 answer2) as [-> ->]. destruct (spec_create_inv _ _ _ _ _ _ _ _ _ _ S2) as [-> ->].
  destruct seen_procs1 as (_ & I1 & _). cbn [fmap option_fmap option_map] in H2. rewrite I1 in H2. change (after start_child procs1) with procs2 in *. change (2 + 1) with 3 in H2.
  destruct (process_refines (TO := idle_ops) (fun i => i) 7 child_exits procs2 3 _ H2 (step3 (holds_sized _ _ _ H2))) as (k3 & x3 & n3 & M3 & E3 & S3 & H3).
  destruct (after_answer _ _ _ _ _ E3 answer3) as [-> ->]. destruct (spec_exit_inv _ _ _ _ _ _ _ _ _ S3) as [-> ->].
  destruct seen_procs2 as [(_ & I2 & _) _]. rewrite I2 in H3. change (after child_exits procs2) with procs3 in *.
  destruct (process_refines (TO := idle_ops) (fun i => i) 7 init_waits procs3 3 _ H3 (step4 (holds_sized _ _ _ H3))) as (k4 & x4 & n4 & M4 & E4 & S4 & H4).
  destruct (after_answer _ _ _ _ _ E4 answer4) as [-> ->]. destruct (spec_reap_inv _ _ _ _ _ _ _ _ _ _ _ _ S4) as [-> ->].
  split; [exact E1|]. split; [exact E2|]. split; [exact E3|]. split; [exact E4|]. split; [exact H2|]. split; [rewrite reaped_map in H4; exact H4|]. exists k0. split; [exact E0|exact H0].
Defined.

(** ** Failures of the code *)

Abbreviation demo_create := (create (fun i : Z => i)).

(** A parent, a child whose capability table cannot be allocated, and a child
    that can be created. *)
Definition failed_child : res (Process.Procs FreeList Swap.Pages unit unit) :=
  '(k, p) ← demo_create true 7 None [112] demo_procs;
  '(k, _) ← demo_create false 7 p [97] k;
  '(k, _) ← demo_create true 7 p [98] k;
  Ok k.

(** (C37) A creation that fails for want of memory leaves the dead slot in the list
    of children of the parent.  The next child gets the same slot and is linked
    in front of itself: the list of children is a cycle, and a parent that waits
    for a child that has not exited searches it forever. *)
Theorem failed_create_traps_wait :
  exists k, failed_child = Ok k /\ first_child (links (vi k 0)) = Some 1 /\ next_sibling (links (vi k 1)) = Some 1 /\ forall child fuel, find_zombie fuel child (Some 1) k = Diverge.
Proof.
  assert (E : match failed_child with Ok k => (first_child (links (vi k 0)), next_sibling (links (vi k 1)), state (vi k 1), length (vipers k)) | _ => (None, None, Invalid, 0%nat) end = (Some 1, Some 1, Running, 64%nat)) by (vm_compute; reflexivity).
  destruct failed_child as [k| |]; [|done..]. injection E as E1 E2 E3 E4. exists k. do 3 (split; [done|]). intros child fuel. induction fuel as [|fuel IH]; [done|]. cbn [find_zombie].
  rewrite (viper_eq k 1) by (try (unfold sized; by rewrite E4); unfold slot, MAX_VIPERS; lia). rewrite bind_Ok, E3, E2. cbn [bool_decide andb]. exact IH.
Qed.

Definition fork_result : res (ptr * nat) :=
  '(k, p) ← demo_create true 7 None [112] demo_procs;
  '(k, c) ← fork (fun i : Z => i) true 7 p k;
  Ok (c, length (List.filter (fun v => bool_decide (state v <> Invalid)) (vipers k))).

(** Fork fails for a process as [create] makes it: the child starts with the
    heap, stack and guard areas of every new process, so the copies of the
    parent's areas overlap them and are refused.  The child is destroyed and the
    caller gets a null pointer. *)
Theorem fork_fails : fork_result = Ok (None, 1%nat).
Proof. vm_compute. reflexivity. Qed.
End ProcessRefine.
