(* ===== verification/Memory.v ===== *)
(** * Bytes of memory and the C runtime

    Models [memcpy], [memset], [memmove] and [memcmp] of [src/kernel/crt.cpp] on
    a memory that gives every address a byte, and little-endian words in it.  The
    kernel heap and the slab allocator keep their data structures in the memory
    they manage, so they are stated on it. *)

From S2P Require Import Prelude.

Module Memory.

(** ** Bytes and words *)

(** An address that was never written holds 0. *)
Abbreviation Mem := (gmap Z Z).
Definition byte (m : Mem) (x : Z) : Z := default 0 (m !! x).

(** The [n]-byte little-endian word at [a]. *)
Fixpoint ld (n : nat) (a : Z) (m : Mem) : Z :=
  match n with O => 0 | S n => byte m a + 256 * ld n (a + 1) m end.
Fixpoint st (n : nat) (a v : Z) (m : Mem) : Mem :=
  match n with O => m | S n => st n (a + 1) (v / 256) (<[a := v mod 256]> m) end.

Lemma byte_insert_eq m a v : byte (<[a := v]> m) a = v.
Proof. unfold byte. by rewrite lookup_insert_eq. Qed.
Lemma byte_insert_ne m a v x : x <> a -> byte (<[a := v]> m) x = byte m x.
Proof. intros. unfold byte. by rewrite lookup_insert_ne. Qed.

Lemma byte_st_out n a v m x : x < a \/ a + Z.of_nat n <= x -> byte (st n a v m) x = byte m x.
Proof.
  revert a v m. induction n as [|n IH]; intros a v m Hx; [done|]. cbn [st].
  rewrite IH by lia. apply byte_insert_ne. lia.
Qed.

Lemma ld_ext n a m m' : (forall x, a <= x < a + Z.of_nat n -> byte m' x = byte m x) -> ld n a m' = ld n a m.
Proof.
  revert a. induction n as [|n IH]; intros a H; [done|]. cbn [ld]. rewrite (H a) by lia. rewrite IH; [done|]. intros x Hx. apply H. lia.
Qed.

Lemma ld_st n a v m : ld n a (st n a v m) = v mod 256 ^ Z.of_nat n.
Proof.
  revert a v m. induction n as [|n IH]; intros a v m.
  { cbn. by rewrite Z.mod_1_r. }
  cbn [ld st]. rewrite IH, byte_st_out, byte_insert_eq by lia.
  replace (256 ^ Z.of_nat (S n)) with (256 * 256 ^ Z.of_nat n) by (rewrite Nat2Z.inj_succ, Z.pow_succ_r by lia; done).
  rewrite Z.rem_mul_r; [done|lia|]. apply Z.pow_pos_nonneg; lia.
Qed.

Lemma ld_st_out n a n' a' v m : a + Z.of_nat n <= a' \/ a' + Z.of_nat n' <= a -> ld n a (st n' a' v m) = ld n a m.
Proof. intros H. apply ld_ext. intros x Hx. apply byte_st_out. lia. Qed.

(** ** The C runtime *)

(** [while (n--) *d++ = *s++;] *)
Fixpoint copy_up (n : nat) (d s : Z) (m : Mem) : Mem :=
  match n with O => m | S n => copy_up n (d + 1) (s + 1) (<[d := byte m s]> m) end.
(** [while (n--) *--d = *--s;] *)
Fixpoint copy_down (n : nat) (d s : Z) (m : Mem) : Mem :=
  match n with O => m | S n => copy_down n (d - 1) (s - 1) (<[d - 1 := byte m (s - 1)]> m) end.

Definition memcpy (dest src n : Z) (m : Mem) : Mem := copy_up (Z.to_nat n) dest src m.

Fixpoint fill (n : nat) (d c : Z) (m : Mem) : Mem :=
  match n with O => m | S n => fill n (d + 1) c (<[d := u8 c]> m) end.
Definition memset (dest c n : Z) (m : Mem) : Mem := fill (Z.to_nat n) dest c m.

Definition memmove (dest src n : Z) (m : Mem) : Mem :=
  if dest <? src then copy_up (Z.to_nat n) dest src m
  else copy_down (Z.to_nat n) (dest + n) (src + n) m.

Fixpoint compare (n : nat) (p1 p2 : Z) (m : Mem) : Z :=
  match n with
  | O => 0
  | S n => if byte m p1 =? byte m p2 then compare n (p1 + 1) (p2 + 1) m else byte m p1 - byte m p2
  end.
Definition memcmp (s1 s2 n : Z) (m : Mem) : Z := compare (Z.to_nat n) s1 s2 m.

(** Copying upwards reads each byte before it is overwritten unless the
    destination starts inside the source; copying downwards, unless the source
    starts inside the destination. *)
Lemma copy_up_spec n d s m x :
  d <= s \/ s + Z.of_nat n <= d ->
  byte (copy_up n d s m) x = if (d <=? x) && (x <? d + Z.of_nat n) then byte m (s + (x - d)) else byte m x.
Proof.
  revert d s m. induction n as [|n IH]; intros d s m H; cbn [copy_up].
  { destruct (Z.leb_spec d x), (Z.ltb_spec x (d + Z.of_nat 0)); try done; lia. }
  rewrite IH by lia. destruct (Z.leb_spec (d + 1) x), (Z.ltb_spec x (d + 1 + Z.of_nat n)); cbn [andb].
  - destruct (Z.leb_spec d x), (Z.ltb_spec x (d + Z.of_nat (S n))); try lia; cbn [andb].
    replace (s + 1 + (x - (d + 1))) with (s + (x - d)) by lia. apply byte_insert_ne. lia.
  - destruct (Z.ltb_spec x (d + Z.of_nat (S n))); [lia|]. rewrite andb_false_r. apply byte_insert_ne. lia.
  - destruct (decide (x = d)) as [->|Hne].
    + destruct (Z.leb_spec d d), (Z.ltb_spec d (d + Z.of_nat (S n))); try lia; cbn [andb]. rewrite byte_insert_eq. f_equal. lia.
    + destruct (Z.leb_spec d x); [lia|]; cbn [andb]. by apply byte_insert_ne.
  - lia.
Qed.

Lemma copy_down_spec n d s m x :
  s <= d \/ d <= s - Z.of_nat n ->
  byte (copy_down n d s m) x = if (d - Z.of_nat n <=? x) && (x <? d) then byte m (s - (d - x)) else byte m x.
Proof.
  revert d s m. induction n as [|n IH]; intros d s m H; cbn [copy_down].
  { destruct (Z.leb_spec (d - Z.of_nat 0) x), (Z.ltb_spec x d); try done; lia. }
  rewrite IH by lia. destruct (Z.leb_spec (d - 1 - Z.of_nat n) x), (Z.ltb_spec x (d - 1)); cbn [andb].
  - destruct (Z.leb_spec (d - Z.of_nat (S n)) x), (Z.ltb_spec x d); try lia; cbn [andb].
    replace (s - 1 - (d - 1 - x)) with (s - (d - x)) by lia. apply byte_insert_ne. lia.
  - destruct (decide (x = d - 1)) as [->|Hne].
    + destruct (Z.leb_spec (d - Z.of_nat (S n)) (d - 1)), (Z.ltb_spec (d - 1) d); try lia; cbn [andb]. rewrite byte_insert_eq. f_equal. lia.
    + destruct (Z.ltb_spec x d); [lia|]. rewrite andb_false_r. by apply byte_insert_ne.
  - destruct (Z.leb_spec (d - Z.of_nat (S n)) x); [lia|]; cbn [andb]. apply byte_insert_ne. lia.
  - lia.
Qed.

(** [memmove] copies the old contents of the source whatever the overlap, and
    changes nothing else. *)
Theorem memmove_exact dest src n m x :
  0 <= n -> byte (memmove dest src n m) x = if (dest <=? x) && (x <? dest + n) then byte m (src + (x - dest)) else byte m x.
Proof.
  intros Hn. unfold memmove. destruct (Z.ltb_spec dest src).
  - rewrite copy_up_spec, Z2Nat.id by lia. done.
  - rewrite copy_down_spec, Z2Nat.id by lia. replace (dest + n - n) with dest by lia.
    by replace (src + n - (dest + n - x)) with (src + (x - dest)) by lia.
Qed.

Lemma memcpy_spec dest src n m x :
  0 <= n -> dest <= src \/ src + n <= dest ->
  byte (memcpy dest src n m) x = if (dest <=? x) && (x <? dest + n) then byte m (src + (x - dest)) else byte m x.
Proof. intros Hn H. unfold memcpy. rewrite copy_up_spec, Z2Nat.id by lia. done. Qed.

Lemma memset_spec dest c n m x :
  0 <= n -> byte (memset dest c n m) x = if (dest <=? x) && (x <? dest + n) then u8 c else byte m x.
Proof.
  intros Hn. unfold memset. rewrite <- (Z2Nat.id n) at 2 by done. clear Hn. generalize (Z.to_nat n) as k. intros k. revert dest m.
  induction k as [|k IH]; intros d m; cbn [fill].
  { destruct (Z.leb_spec d x), (Z.ltb_spec x (d + Z.of_nat 0)); try done; lia. }
  rewrite IH. destruct (decide (x = d)) as [->|Hne].
  - destruct (Z.leb_spec (d + 1) d), (Z.leb_spec d d), (Z.ltb_spec d (d + Z.of_nat (S k))); try lia; cbn [andb]. by rewrite byte_insert_eq.
  - rewrite byte_insert_ne by done. destruct (Z.leb_spec (d + 1) x), (Z.leb_spec d x), (Z.ltb_spec x (d + 1 + Z.of_nat k)), (Z.ltb_spec x (d + Z.of_nat (S k))); done || lia.
Qed.

(** [memcmp] is 0 exactly on equal contents; otherwise its sign is the order of
    the first bytes that differ. *)
Lemma memcmp_spec s1 s2 n m :
  0 <= n ->
  if memcmp s1 s2 n m =? 0 then forall i, 0 <= i < n -> byte m (s1 + i) = byte m (s2 + i)
  else exists i, 0 <= i < n /\ (forall j, 0 <= j < i -> byte m (s1 + j) = byte m (s2 + j)) /\
    memcmp s1 s2 n m = byte m (s1 + i) - byte m (s2 + i).
Proof.
  intros Hn. unfold memcmp. assert (E : n = Z.of_nat (Z.to_nat n)) by lia. revert E. generalize (Z.to_nat n) as k. intros k ->. clear Hn. revert s1 s2.
  induction k as [|k IH]; intros s1 s2; [cbn; intros; lia|]. cbn [compare]. destruct (Z.eqb_spec (byte m s1) (byte m s2)) as [E|E].
  - specialize (IH (s1 + 1) (s2 + 1)). destruct (compare k (s1 + 1) (s2 + 1) m =? 0).
    + intros i Hi. destruct (decide (i = 0)) as [->|]; [by rewrite !Z.add_0_r|]. specialize (IH (i - 1) ltac:(lia)).
      by replace (s1 + 1 + (i - 1)) with (s1 + i) in IH by lia; replace (s2 + 1 + (i - 1)) with (s2 + i) in IH by lia.
    + destruct IH as (i & Hi & Hj & Hc). exists (i + 1). split; [lia|]. split.
      * intros j Hj'. destruct (decide (j = 0)) as [->|]; [by rewrite !Z.add_0_r|]. specialize (Hj (j - 1) ltac:(lia)).
        by replace (s1 + 1 + (j - 1)) with (s1 + j) in Hj by lia; replace (s2 + 1 + (j - 1)) with (s2 + j) in Hj by lia.
      * rewrite Hc. f_equal; f_equal; lia.
  - destruct (Z.eqb_spec (byte m s1 - byte m s2) 0); [lia|]. exists 0. rewrite !Z.add_0_r. split; [lia|]. split; [intros; lia|done].
Qed.

#[global] Arguments ld : simpl never.
#[global] Arguments st : simpl never.

End Memory.
