(* ===== verification/KHeap.v ===== *)
(** * The kernel heap

    Models [src/kernel/mm/kheap.cpp].  A block is named by the address of its
    header; header, size and the link of a free block live in the memory the heap
    manages ([Memory]), a null pointer is 0.  The pages come from the class
    [FrameAllocator].  The debugging watch on one address and the messages on the
    console are left out, they change nothing else. *)

From S2P Require Import Prelude Buddy Frames Memory.

Module KHeap.
Import Buddy(PAGE_SIZE).
Import Frames Memory.

Definition BLOCK_MAGIC_ALLOC : Z := 0xCAFEBABE.
Definition BLOCK_MAGIC_FREE : Z := 0xDEADBEEF.
Definition BLOCK_MAGIC_POISON : Z := 0xFEEDFACE.

Definition MIN_BLOCK_SIZE : Z := 24.
Definition HEADER_SIZE : Z := 16.
Definition ALIGNMENT : Z := 16.
Definition MAX_HEAP_SIZE : Z := 64 * 1024 * 1024.
Definition MAX_HEAP_REGIONS : nat := 16.
Definition NUM_SIZE_CLASSES : Z := 9.
(** The limits of all classes but the last. *)
Definition SIZE_CLASS_LIMITS : list Z := [32; 64; 128; 256; 512; 1024; 2048; 4096].
Definition PERCPU_SIZE_CLASSES : Z := 6.
Definition PERCPU_CACHE_SIZE : Z := 8.
Definition MAX_CPUS : Z := 4.
Definition MAX_COALESCE_BLOCKS : Z := 256.

Record HeapRegion := mkRegion { start : Z; end_ : Z }.
Record PerCpuArena := mkArena { arena_lists : list Z; counts : list Z; initialized : bool }.

(** [heap_regions] holds the first [heap_region_count] regions. *)
Record KHeap (F : Type) := mkHeap {
  mem : Mem;
  heap_regions : list HeapRegion;
  heap_start : Z;
  heap_end : Z;
  heap_size : Z;
  free_lists : list Z;
  free_list_counts : list Z;
  free_block_count : Z;
  free_list : Z;
  percpu_arenas : list PerCpuArena;
  percpu_enabled : bool;
  total_allocated : Z;
  total_free : Z;
  frames : F
}.
Arguments mkHeap {F}.
Arguments mem {F}.
Arguments heap_regions {F}.
Arguments heap_start {F}.
Arguments heap_end {F}.
Arguments heap_size {F}.
Arguments free_lists {F}.
Arguments free_list_counts {F}.
Arguments free_block_count {F}.
Arguments free_list {F}.
Arguments percpu_arenas {F}.
Arguments percpu_enabled {F}.
Arguments total_allocated {F}.
Arguments total_free {F}.
Arguments frames {F}.

Fixpoint class_from (i : Z) (limits : list Z) (size : Z) : Z :=
  match limits with
  | [] => i
  | l :: limits => if size <=? l then i else class_from (i + 1) limits size
  end.
Definition get_size_class (size : Z) : Z := class_from 0 SIZE_CLASS_LIMITS size.

Definition align_up (value : Z) : Z := Z.land (u64 (u64 (value + ALIGNMENT) - 1)) (u64 (Z.lnot (ALIGNMENT - 1))).
Definition ptr_to_header (ptr : Z) : Z := ptr - HEADER_SIZE.
Definition data (b : Z) : Z := b + HEADER_SIZE.

(** A [FreeBlock **]: the head of a list, or the [next] field of a block. *)
Inductive link := Head (c : Z) | Next (b : Z).

Section KHeap.
Context {F : Type} {alloc : FrameAllocator F}.
Implicit Type k : KHeap F.

Definition set_mem m k : KHeap F :=
  mkHeap m (heap_regions k) (heap_start k) (heap_end k) (heap_size k) (free_lists k) (free_list_counts k) (free_block_count k) (free_list k)
    (percpu_arenas k) (percpu_enabled k) (total_allocated k) (total_free k) (frames k).
Definition set_space rs e n k : KHeap F :=
  mkHeap (mem k) rs (heap_start k) e n (free_lists k) (free_list_counts k) (free_block_count k) (free_list k)
    (percpu_arenas k) (percpu_enabled k) (total_allocated k) (total_free k) (frames k).
Definition set_lists fl cn n k : KHeap F :=
  mkHeap (mem k) (heap_regions k) (heap_start k) (heap_end k) (heap_size k) fl cn n (free_list k)
    (percpu_arenas k) (percpu_enabled k) (total_allocated k) (total_free k) (frames k).
Definition set_legacy l k : KHeap F :=
  mkHeap (mem k) (heap_regions k) (heap_start k) (heap_end k) (heap_size k) (free_lists k) (free_list_counts k) (free_block_count k) l
    (percpu_arenas k) (percpu_enabled k) (total_allocated k) (total_free k) (frames k).
Definition set_arenas a k : KHeap F :=
  mkHeap (mem k) (heap_regions k) (heap_start k) (heap_end k) (heap_size k) (free_lists k) (free_list_counts k) (free_block_count k) (free_list k)
    a (percpu_enabled k) (total_allocated k) (total_free k) (frames k).
Definition set_totals a f k : KHeap F :=
  mkHeap (mem k) (heap_regions k) (heap_start k) (heap_end k) (heap_size k) (free_lists k) (free_list_counts k) (free_block_count k) (free_list k)
    (percpu_arenas k) (percpu_enabled k) a f (frames k).
Definition set_frames f k : KHeap F :=
  mkHeap (mem k) (heap_regions k) (heap_start k) (heap_end k) (heap_size k) (free_lists k) (free_list_counts k) (free_block_count k) (free_list k)
    (percpu_arenas k) (percpu_enabled k) (total_allocated k) (total_free k) f.

(** A list threaded through the heap has at most one element per 16 bytes. *)
Definition fuel k : nat := S (Z.to_nat (heap_size k / 16)).

(** ** Block headers *)

Definition magic (b : Z) k : Z := ld 4 b (mem k).
Definition size_and_flags (b : Z) k : Z := ld 8 (b + 8) (mem k).
Definition next (b : Z) k : Z := ld 8 (b + 16) (mem k).
Definition store (n : nat) (a v : Z) k : KHeap F := set_mem (st n a v (mem k)) k.

Definition is_free (b : Z) k : bool := Z.land (size_and_flags b k) 1 =? 0.
Definition is_valid (b : Z) k : bool := (magic b k =? BLOCK_MAGIC_ALLOC) || (magic b k =? BLOCK_MAGIC_FREE).
Definition is_poisoned (b : Z) k : bool := magic b k =? BLOCK_MAGIC_POISON.
Definition size (b : Z) k : Z := Z.land (size_and_flags b k) (u64 (Z.lnot 1)).
Definition set_free (b : Z) k : KHeap F := store 4 b BLOCK_MAGIC_FREE (store 8 (b + 8) (Z.land (size_and_flags b k) (u64 (Z.lnot 1))) k).
Definition set_used (b : Z) k : KHeap F := store 4 b BLOCK_MAGIC_ALLOC (store 8 (b + 8) (Z.lor (size_and_flags b k) 1) k).
Definition poison (b : Z) k : KHeap F := store 4 b BLOCK_MAGIC_POISON k.
Definition set_size (b s : Z) k : KHeap F := store 8 (b + 8) (Z.lor (Z.land (size_and_flags b k) 1) (Z.land s (u64 (Z.lnot 1)))) k.
(** The three assignments that make a new free block. *)
Definition make_block (b s : Z) k : KHeap F := store 8 (b + 8) s (store 4 (b + 4) 0 (store 4 b BLOCK_MAGIC_FREE k)).

(** ** Regions *)

Definition is_in_heap (addr : Z) k : bool := existsb (fun r => (start r <=? addr) && (addr <? end_ r)) (heap_regions k).

Definition add_heap_region (s e : Z) k : KHeap F * bool :=
  if (MAX_HEAP_REGIONS <=? length (heap_regions k))%nat then (k, false)
  else (set_space (heap_regions k ++ [mkRegion s e]) (heap_end k) (heap_size k) k, true).

(** ** Free lists *)

Definition get_link (l : link) k : res Z := match l with Head c => rd (free_lists k) c | Next b => Ok (next b k) end.
Definition set_link (l : link) (v : Z) k : res (KHeap F) :=
  match l with
  | Head c => fl ← wr (free_lists k) c v; Ok (set_lists fl (free_list_counts k) (free_block_count k) k)
  | Next b => Ok (store 8 (b + 16) v k)
  end.

(** [free_list_counts[c] += d; free_block_count += d]. *)
Definition count (c d : Z) k : res (KHeap F) :=
  n ← rd (free_list_counts k) c;
  cn ← wr (free_list_counts k) c (u64 (n + d));
  Ok (set_lists (free_lists k) cn (u64 (free_block_count k + d)) k).

Definition update_legacy_free_list_head k : KHeap F :=
  set_legacy (default 0 (List.find (fun p => negb (p =? 0)) (free_lists k))) k.

(** Places a block at the head of the list of a class. *)
Definition push (class_idx b : Z) k : res (KHeap F) :=
  h ← rd (free_lists k) class_idx;
  let k := store 8 (b + 16) h k in
  k ← set_link (Head class_idx) b k;
  count class_idx 1 k.

Fixpoint add_walk (n : nat) (block : Z) (pp : link) k : res (KHeap F * link) :=
  match n with
  | O => Diverge
  | S n =>
      p ← get_link pp k;
      if (p =? 0) || (block <=? p) then Ok (k, pp)
      else if negb (is_in_heap p k) then k ← set_link pp 0 k; Ok (k, pp)
      else add_walk n block (Next p) k
  end.

Definition add_to_free_list (block : Z) k : res (KHeap F) :=
  let k := set_free block k in
  if negb (is_in_heap block k) then Ok k
  else
    let class_idx := get_size_class (size block k) in
    '(k, pp) ← add_walk (fuel k) block (Head class_idx) k;
    p ← get_link pp k;
    let k := store 8 (block + 16) p k in
    k ← set_link pp block k;
    k ← count class_idx 1 k;
    Ok (update_legacy_free_list_head k).

Fixpoint remove_walk (n : nat) (block c : Z) (pp : link) k : res (KHeap F) :=
  match n with
  | O => Diverge
  | S n =>
      p ← get_link pp k;
      if p =? 0 then Ok k
      else if p =? block then k ← set_link pp (next block k) k; count c (-1) k
      else remove_walk n block c (Next p) k
  end.

Definition remove_from_free_list (block : Z) k : res (KHeap F) :=
  let class_idx := get_size_class (size block k) in remove_walk (fuel k) block class_idx (Head class_idx) k.

(** ** Growth *)

(** The common end of the two branches of [expand_heap]. *)
Definition add_pages (new_pages expansion_size : Z) k : res (KHeap F) :=
  let k := make_block new_pages expansion_size k in
  k ← push (get_size_class expansion_size) new_pages k;
  Ok (update_legacy_free_list_head (set_totals (total_allocated k) (u64 (total_free k + expansion_size)) k)).

(** The end of the last region, whichever that is, becomes the end of the heap. *)
Definition extend_last (e : Z) (rs : list HeapRegion) : list HeapRegion :=
  match rs with [] => [] | _ => alter (fun r => mkRegion (start r) e) (pred (length rs)) rs end.

Definition expand_heap (needed : Z) k : res (KHeap F * bool) :=
  if MAX_HEAP_SIZE <? u64 (heap_size k + needed) then Ok (k, false)
  else
    let pages_needed := u64 (u64 (needed + PAGE_SIZE) - 1) / PAGE_SIZE in
    '(f, new_pages) ← alloc_pages pages_needed (frames k);
    let k := set_frames f k in
    if new_pages =? 0 then Ok (k, false)
    else
      let expansion_size := u64 (pages_needed * PAGE_SIZE) in
      if new_pages =? heap_end k then
        let e := u64 (heap_end k + expansion_size) in
        let k := set_space (extend_last e (heap_regions k)) e (u64 (heap_size k + expansion_size)) k in
        k ← add_pages new_pages expansion_size k; Ok (k, true)
      else
        let '(k, ok) := add_heap_region new_pages (u64 (new_pages + expansion_size)) k in
        if negb ok then f ← free_pages new_pages pages_needed (frames k); Ok (set_frames f k, false)
        else
          let k := set_space (heap_regions k) (heap_end k) (u64 (heap_size k + expansion_size)) k in
          k ← add_pages new_pages expansion_size k; Ok (k, true).

(** ** Coalescing *)

(** One pass over a class: the first two neighbours in the list that are
    neighbours in memory become one block. *)
Fixpoint merge_pass (n : nat) (current : Z) k : res (KHeap F * bool) :=
  match n with
  | O => Diverge
  | S n =>
      if (current =? 0) || (next current k =? 0) then Ok (k, false)
      else if current + size current k =? next current k then
        let absorbed := next current k in
        let combined_size := u64 (size current k + size absorbed k) in
        k ← remove_from_free_list current k;
        k ← remove_from_free_list absorbed k;
        let k := set_free current (set_size current combined_size k) in
        k ← add_to_free_list current k;
        Ok (k, true)
      else merge_pass n (next current k) k
  end.

Fixpoint merge_class (n : nat) (c : Z) k : res (KHeap F) :=
  match n with
  | O => Diverge
  | S n =>
      h ← rd (free_lists k) c;
      '(k, merged) ← merge_pass (fuel k) h k;
      if merged : bool then merge_class n c k else Ok k
  end.

Fixpoint collect_list (n : nat) (b : Z) (blocks : list Z) k : res (list Z) :=
  match n with
  | O => Diverge
  | S n =>
      if (b =? 0) || (MAX_COALESCE_BLOCKS <=? Z.of_nat (length blocks)) then Ok blocks
      else collect_list n (next b k) (blocks ++ [b]) k
  end.
Definition collect k : res (list Z) :=
  foldM (fun blocks b => collect_list (S (Z.to_nat MAX_COALESCE_BLOCKS)) b blocks k) (free_lists k) [].

(** The sorted part of the array, last element first; a key moves down past the
    larger ones. *)
Fixpoint insert_key (key : Z) (sorted : list Z) : list Z :=
  match sorted with
  | [] => [key]
  | b :: rest => if key <? b then b :: insert_key key rest else key :: sorted
  end.
Definition sort_blocks (blocks : list Z) : list Z := reverse (foldl (fun sorted key => insert_key key sorted) [] blocks).

(** [kept] is the merged part of the array, last element first. *)
Fixpoint merge_blocks (blocks kept : list Z) k : KHeap F * list Z :=
  match blocks with
  | [] => (k, reverse kept)
  | b :: blocks =>
      match kept with
      | [] => merge_blocks blocks [b] k
      | prev :: _ =>
          if prev + size prev k =? b then merge_blocks blocks kept (set_size prev (u64 (size prev k + size b k)) k)
          else merge_blocks blocks (b :: kept) k
      end
  end.

Definition clear_lists k : KHeap F :=
  set_totals (total_allocated k) 0 (set_lists (replicate (Z.to_nat NUM_SIZE_CLASSES) 0) (replicate (Z.to_nat NUM_SIZE_CLASSES) 0) 0 k).

Definition rebuild_one k (b : Z) : res (KHeap F) :=
  let k := set_free b k in
  k ← push (get_size_class (size b k)) b k;
  Ok (set_totals (total_allocated k) (u64 (total_free k + size b k)) k).

Definition coalesce k : res (KHeap F) :=
  let total_blocks := foldl (fun n c => u64 (n + c)) 0 (free_list_counts k) in
  if total_blocks <=? 1 then Ok k
  else if MAX_COALESCE_BLOCKS <? total_blocks then
    k ← foldM (fun k c => merge_class (fuel k) c k) (seqZ 0 NUM_SIZE_CLASSES) k;
    Ok (update_legacy_free_list_head k)
  else
    blocks ← collect k;
    let '(k, blocks) := merge_blocks (sort_blocks blocks) [] (clear_lists k) in
    k ← foldM rebuild_one blocks k;
    Ok (update_legacy_free_list_head k).

(** ** Initialisation *)

Definition initial (f : F) : KHeap F :=
  mkHeap ∅ [] 0 0 0 (replicate 9 0) (replicate 9 0) 0 0 (replicate 4 (mkArena (replicate 6 0) (replicate 6 0) false)) false 0 0 f.

Definition init k : res (KHeap F) :=
  let initial_pages := 16 in
  '(f, first_page) ← alloc_pages initial_pages (frames k);
  let k := set_frames f k in
  if first_page =? 0 then Ok k
  else
    let e := u64 (first_page + initial_pages * PAGE_SIZE) in
    let n := initial_pages * PAGE_SIZE in
    let rs := if (MAX_HEAP_REGIONS <=? length (heap_regions k))%nat then heap_regions k else heap_regions k ++ [mkRegion first_page e] in
    let m := st 8 (first_page + 16) 0 (mem (make_block first_page n k)) in
    Ok (mkHeap m rs first_page e n (<[8%nat := first_page]> (replicate 9 0)) (<[8%nat := 1]> (replicate 9 0)) 1 first_page
          (replicate 4 (mkArena (replicate 6 0) (replicate 6 0) true)) true 0 n (frames k)).

(** ** Allocation *)

(** The per-CPU part of [kmalloc]; nothing looks at the size of the block. *)
Definition from_arena (cpu size_class : Z) k : res (KHeap F * option Z) :=
  if percpu_enabled k && (size_class <? PERCPU_SIZE_CLASSES) && (cpu <? MAX_CPUS) then
    arena ← rd (percpu_arenas k) cpu;
    block ← rd (arena_lists arena) size_class;
    if block =? 0 then Ok (k, None)
    else
      ls ← wr (arena_lists arena) size_class (next block k);
      n ← rd (counts arena) size_class;
      cn ← wr (counts arena) size_class (u32 (n - 1));
      arenas ← wr (percpu_arenas k) cpu (mkArena ls cn (initialized arena));
      let k := set_used block (set_arenas arenas k) in
      Ok (set_totals (u64 (total_allocated k + size block k)) (total_free k) k, Some (data block))
  else Ok (k, None).

(** The first search drops entries that do not look like free blocks. *)
Fixpoint search_list (n : nat) (required c : Z) (pp : link) k : res (KHeap F * option link) :=
  match n with
  | O => Diverge
  | S n =>
      p ← get_link pp k;
      if p =? 0 then Ok (k, None)
      else if negb (is_in_heap p k) || negb (magic p k =? BLOCK_MAGIC_FREE) then
        k ← set_link pp (next p k) k; k ← count c (-1) k; search_list n required c pp k
      else if required <=? size p k then Ok (k, Some pp)
      else search_list n required c (Next p) k
  end.
Fixpoint search_classes (required : Z) (cs : list Z) k : res (KHeap F * option (Z * link)) :=
  match cs with
  | [] => Ok (k, None)
  | c :: cs =>
      '(k, r) ← search_list (fuel k) required c (Head c) k;
      match r with Some pp => Ok (k, Some (c, pp)) | None => search_classes required cs k end
  end.

Fixpoint search_again_list (n : nat) (required : Z) (pp : link) k : res (option link) :=
  match n with
  | O => Diverge
  | S n =>
      p ← get_link pp k;
      if p =? 0 then Ok None
      else if required <=? size p k then Ok (Some pp)
      else search_again_list n required (Next p) k
  end.
Fixpoint search_again (required : Z) (cs : list Z) k : res (option (Z * link)) :=
  match cs with
  | [] => Ok None
  | c :: cs =>
      r ← search_again_list (fuel k) required (Head c) k;
      match r with Some pp => Ok (Some (c, pp)) | None => search_again required cs k end
  end.

(** Takes the block found out of its list and gives back what is not needed. *)
Definition take_block (required best_class : Z) (best_prev : link) k : res (KHeap F * Z) :=
  best ← get_link best_prev k;
  let block_size := size best k in
  let remaining := u64 (block_size - required) in
  k ← set_link best_prev (next best k) k;
  k ← count best_class (-1) k;
  let k := update_legacy_free_list_head (set_totals (total_allocated k) (u64 (total_free k - block_size)) k) in
  if MIN_BLOCK_SIZE <=? remaining then
    let k := set_used best (set_size best required k) in
    let remainder := best + required in
    k ← add_to_free_list remainder (make_block remainder remaining k);
    Ok (set_totals (u64 (total_allocated k + required)) (u64 (total_free k + remaining)) k, data best)
  else
    let k := set_used best k in
    Ok (set_totals (u64 (total_allocated k + block_size)) (total_free k) k, data best).

Definition from_heap (required size_class : Z) k : res (KHeap F * Z) :=
  let cs := seqZ size_class (NUM_SIZE_CLASSES - size_class) in
  '(k, r) ← search_classes required cs k;
  match r with
  | Some (c, pp) => take_block required c pp k
  | None =>
      '(k, ok) ← expand_heap required k;
      if negb ok then Ok (k, 0)
      else
        r ← search_again required cs k;
        match r with Some (c, pp) => take_block required c pp k | None => Ok (k, 0) end
  end.

Definition block_size_for (size : Z) : Z :=
  let required := align_up (u64 (size + HEADER_SIZE)) in
  if required <? MIN_BLOCK_SIZE then MIN_BLOCK_SIZE else required.

Definition kmalloc (cpu size : Z) k : res (KHeap F * Z) :=
  if size =? 0 then Ok (k, 0)
  else
    let required := block_size_for size in
    let size_class := get_size_class required in
    '(k, r) ← from_arena cpu size_class k;
    match r with Some p => Ok (k, p) | None => from_heap required size_class k end.

Definition kzalloc (cpu size : Z) k : res (KHeap F * Z) :=
  '(k, ptr) ← kmalloc cpu size k;
  if negb (ptr =? 0) then Ok (set_mem (memset ptr 0 size (mem k)) k, ptr) else Ok (k, ptr).

(** ** Release *)

Definition to_arena (cpu header : Z) k : res (option (KHeap F)) :=
  if percpu_enabled k && is_valid header k && negb (is_free header k) then
    let block_size := size header k in
    let size_class := get_size_class block_size in
    if (size_class <? PERCPU_SIZE_CLASSES) && (cpu <? MAX_CPUS) then
      arena ← rd (percpu_arenas k) cpu;
      let block_end := u64 (header + block_size) in
      let next_is_free := is_in_heap block_end k && (magic block_end k =? BLOCK_MAGIC_FREE) in
      if next_is_free then Ok None
      else
        n ← rd (counts arena) size_class;
        if n <? PERCPU_CACHE_SIZE then
          let k := set_free header k in
          h ← rd (arena_lists arena) size_class;
          let k := store 8 (header + 16) h k in
          ls ← wr (arena_lists arena) size_class header;
          cn ← wr (counts arena) size_class (u32 (n + 1));
          arenas ← wr (percpu_arenas k) cpu (mkArena ls cn (initialized arena));
          Ok (Some (set_totals (u64 (total_allocated k - block_size)) (total_free k) (set_arenas arenas k)))
        else Ok None
    else Ok None
  else Ok None.

Definition to_heap (ptr : Z) k : res (KHeap F) :=
  let header := ptr_to_header ptr in
  if negb (is_in_heap ptr k) then Ok k
  else if negb (header mod ALIGNMENT =? 0) then Ok k
  else if negb (is_valid header k) then Ok k
  else if is_free header k then Ok (poison header k)
  else
    let block_size := size header k in
    if (block_size <? MIN_BLOCK_SIZE) || (heap_size k <? block_size) then Ok k
    else
      let k := set_totals (u64 (total_allocated k - block_size)) (u64 (total_free k + block_size)) k in
      k ← add_to_free_list header k;
      coalesce k.

Definition kfree (cpu ptr : Z) k : res (KHeap F) :=
  if ptr =? 0 then Ok k
  else
    r ← to_arena cpu (ptr_to_header ptr) k;
    match r with Some k => Ok k | None => to_heap ptr k end.

Definition krealloc (cpu ptr new_size : Z) k : res (KHeap F * Z) :=
  if ptr =? 0 then kmalloc cpu new_size k
  else if new_size =? 0 then k ← kfree cpu ptr k; Ok (k, 0)
  else
    let header := ptr_to_header ptr in
    if negb (magic header k =? BLOCK_MAGIC_ALLOC) then Ok (k, 0)
    else
      let old_size := u64 (size header k - HEADER_SIZE) in
      if new_size <=? old_size then Ok (k, ptr)
      else
        '(k, new_ptr) ← kmalloc cpu new_size k;
        if new_ptr =? 0 then Ok (k, 0)
        else
          let k := set_mem (memcpy new_ptr ptr old_size (mem k)) k in
          k ← kfree cpu ptr k;
          Ok (k, new_ptr).

(** ** Statistics *)

Definition get_used k : Z := total_allocated k.
Definition get_available k : Z := total_free k.
(** Size, used, free, number of free blocks. *)
Definition get_stats k : Z * Z * Z * Z := (heap_size k, total_allocated k, total_free k, free_block_count k).

End KHeap.

End KHeap.
