(* ===== verification/KHeapInv.v ===== *)
(** * The structure of the kernel heap

    The blocks of the heap as a map from addresses to size and use, the lists
    threaded through the free ones, and the invariant that ties both to the bytes
    in memory.  The elementary steps of [KHeap] (linking, unlinking, resizing,
    splitting and merging blocks) keep it. *)

From S2P Require Import Prelude Buddy Frames Memory KHeap.

Module KHeapInv.
Import Buddy(PAGE_SIZE).
Import Frames Memory KHeap.

(** ** Lists in memory *)

(** The [next] fields from [h] on lead through [l] to [e]. *)
Fixpoint kseg (m : Mem) (h : Z) (l : list Z) (e : Z) : Prop :=
  match l with [] => h = e | a :: l => h = a /\ kseg m (ld 8 (a + 16) m) l e end.

Lemma kseg_app m h l1 l2 e : kseg m h (l1 ++ l2) e <-> exists x, kseg m h l1 x /\ kseg m x l2 e.
Proof.
  revert h. induction l1 as [|a l1 IH]; intros h; cbn [app kseg].
  - split; [by exists h|]. by intros (x & -> & ?).
  - rewrite IH. naive_solver.
Qed.

Lemma kseg_last m h l z e : kseg m h (l ++ [z]) e <-> kseg m h l z /\ ld 8 (z + 16) m = e.
Proof. rewrite kseg_app. cbn [kseg]. naive_solver. Qed.

Lemma kseg_ext m m' h l e : (forall a, a ∈ l -> ld 8 (a + 16) m' = ld 8 (a + 16) m) -> kseg m h l e -> kseg m' h l e.
Proof.
  revert h. induction l as [|a l IH]; intros h H; [done|]. cbn [kseg]. intros [-> Hs]. split; [done|].
  rewrite H by apply list_elem_of_here. apply IH; [|done]. intros b Hb. apply H. by apply list_elem_of_further.
Qed.

(** The first element, or 0. *)
Definition hd0 (l : list Z) : Z := match l with [] => 0 | a :: _ => a end.
Lemma kseg_head m h l : kseg m h l 0 -> h = hd0 l.
Proof. destruct l; cbn; naive_solver. Qed.

(** ** Blocks *)

(** Where a free block is linked: in the heap's lists or in those of a CPU. *)
Inductive place := Global | Arena (cpu : Z).
(** [Held]: in no list, in the hands of the operation that runs. *)
Inductive kind := Used | Held | In (p : place).
#[export] Instance place_eq_dec : EqDecision place.
Proof. solve_decision. Defined.
#[export] Instance kind_eq_dec : EqDecision kind.
Proof. solve_decision. Defined.

Abbreviation Blocks := (gmap Z (Z * kind)).

Definition hdr (m : Mem) (a s : Z) (kd : kind) : Prop :=
  match kd with
  | Used => ld 8 (a + 8) m = s + 1 /\ ld 4 a m = BLOCK_MAGIC_ALLOC
  | Held => ld 8 (a + 8) m = s \/ ld 8 (a + 8) m = s + 1
  | In _ => ld 8 (a + 8) m = s /\ ld 4 a m = BLOCK_MAGIC_FREE
  end.

Lemma hdr_ext m m' a s kd : ld 4 a m' = ld 4 a m -> ld 8 (a + 8) m' = ld 8 (a + 8) m -> hdr m a s kd -> hdr m' a s kd.
Proof. intros E4 E8. unfold hdr. rewrite E4, E8. done. Qed.

Definition inside (rs : list HeapRegion) (x : Z) : Prop := existsb (fun r => (start r <=? x) && (x <? end_ r)) rs = true.

Lemma inside_elem rs x : inside rs x <-> exists r, r ∈ rs /\ start r <= x < end_ r.
Proof.
  unfold inside. rewrite existsb_exists. split; intros (r & Hr & H); exists r.
  - rewrite andb_true_iff, Z.leb_le, Z.ltb_lt in H. split; [by apply list_elem_of_In|lia].
  - rewrite andb_true_iff, Z.leb_le, Z.ltb_lt. split; [by apply list_elem_of_In|lia].
Qed.

Record binv (rs : list HeapRegion) (m : Mem) (B : Blocks) : Prop := {
  bi_geo a s kd : B !! a = Some (s, kd) ->
    a mod 16 = 0 /\ s mod 16 = 0 /\ 32 <= s /\ 0 < a /\ a + s <= 2 ^ 48 /\ forall x, a <= x < a + s -> inside rs x;
  bi_hdr a s kd : B !! a = Some (s, kd) -> hdr m a s kd;
  bi_dis a s kd b t kd' : B !! a = Some (s, kd) -> B !! b = Some (t, kd') -> a < b -> a + s <= b
}.

(** Two blocks lie apart. *)
Lemma bi_apart rs m B a s kd b t kd' :
  binv rs m B -> B !! a = Some (s, kd) -> B !! b = Some (t, kd') -> a <> b -> a + s <= b \/ b + t <= a.
Proof. intros H Ha Hb Hne. destruct (Z.lt_ge_cases a b); [left; by eapply bi_dis|right; eapply bi_dis; [done..|lia]]. Qed.

(** ** Sums over blocks *)

Definition msum (f : Z -> kind -> Z) (B : Blocks) : Z := map_fold (fun _ '(s, kd) acc => f s kd + acc) 0 B.

Lemma msum_insert f B a s kd : B !! a = None -> msum f (<[a := (s, kd)]> B) = f s kd + msum f B.
Proof.
  intros H. unfold msum. rewrite map_fold_insert_L; [done| |done]. intros j1 j2 [? ?] [? ?] y _ _ _. lia.
Qed.
Lemma msum_delete f B a s kd : B !! a = Some (s, kd) -> msum f B = f s kd + msum f (delete a B).
Proof. intros H. rewrite <- (insert_delete_id B a (s, kd)) at 1 by done. apply msum_insert, lookup_delete_eq. Qed.
Lemma msum_update f B a s kd s' kd' :
  B !! a = Some (s, kd) -> msum f (<[a := (s', kd')]> B) = msum f B - f s kd + f s' kd'.
Proof.
  intros H. rewrite <- insert_delete_eq, msum_insert by apply lookup_delete_eq. rewrite (msum_delete f B a s kd H). lia.
Qed.
Lemma msum_nonneg f B : (forall a s kd, B !! a = Some (s, kd) -> 0 <= f s kd) -> 0 <= msum f B.
Proof.
  revert B. apply (map_ind (fun B => (forall a s kd, B !! a = Some (s, kd) -> 0 <= f s kd) -> 0 <= msum f B)).
  - intros _. unfold msum. by rewrite map_fold_empty.
  - intros a [s kd] B Hn IH H. rewrite msum_insert by done. specialize (H a s kd (lookup_insert_eq _ _ _)) as H0.
    assert (0 <= msum f B); [|lia]. apply IH. intros b t kd' Hb. apply (H b). rewrite lookup_insert_ne; [done|]. intros ->. congruence.
Qed.

(** All bytes; the bytes in use; the bytes and the number of the blocks in the
    heap's own lists. *)
Definition f_all (s : Z) (kd : kind) : Z := s.
Definition f_used (s : Z) (kd : kind) : Z := match kd with Used => s | _ => 0 end.
Definition f_free (s : Z) (kd : kind) : Z := match kd with In Global => s | _ => 0 end.
Definition f_count (s : Z) (kd : kind) : Z := match kd with In Global => 1 | _ => 0 end.

Lemma msum_le f g B : (forall a s kd, B !! a = Some (s, kd) -> f s kd <= g s kd) -> msum f B <= msum g B.
Proof.
  revert B. apply (map_ind (fun B => (forall a s kd, B !! a = Some (s, kd) -> f s kd <= g s kd) -> msum f B <= msum g B)).
  - intros _. unfold msum. by rewrite !map_fold_empty.
  - intros a [s kd] B Hn IH H. rewrite !msum_insert by done. specialize (H a s kd (lookup_insert_eq _ _ _)) as H0.
    assert (msum f B <= msum g B); [|lia]. apply IH. intros b t kd' Hb. apply (H b). rewrite lookup_insert_ne; [done|]. intros ->. congruence.
Qed.

(** A list of distinct blocks is no longer than the sum allows. *)
Lemma msum_length f n B l :
  NoDup l -> 0 <= n -> (forall a s kd, B !! a = Some (s, kd) -> 0 <= f s kd) ->
  (forall a, a ∈ l -> exists s kd, B !! a = Some (s, kd) /\ n <= f s kd) -> n * Z.of_nat (length l) <= msum f B.
Proof.
  intros Hnd Hn. revert B. induction l as [|a l IH]; intros B Hp H; [rewrite Z.mul_0_r; by apply msum_nonneg|].
  apply NoDup_cons in Hnd as [Ha Hnd]. destruct (H a (list_elem_of_here _ _)) as (s & kd & Hb & Hs).
  rewrite (msum_delete f B a s kd Hb). cbn [length]. specialize (IH Hnd (delete a B)).
  assert (n * Z.of_nat (length l) <= msum f (delete a B)); [|lia]. apply IH.
  - intros b t kd' Hl. apply lookup_delete_Some in Hl as [_ Hl]. by eapply Hp.
  - intros b Hbl. destruct (H b (list_elem_of_further _ _ _ Hbl)) as (t & kd' & ? & ?). exists t, kd'. split; [|done].
    rewrite lookup_delete_ne; [done|]. by intros ->.
Qed.

(** ** Size classes *)

Lemma class_from_range i ls s : i <= class_from i ls s <= i + Z.of_nat (length ls).
Proof. revert i. induction ls as [|l ls IH]; intros i; cbn [class_from length]; [lia|]. destruct (s <=? l); [lia|]. specialize (IH (i + 1)). lia. Qed.
Lemma get_size_class_range s : 0 <= get_size_class s < 9.
Proof. unfold get_size_class. pose proof (class_from_range 0 SIZE_CLASS_LIMITS s). cbn in *. lia. Qed.
Lemma class_from_mono i ls s t : s <= t -> class_from i ls s <= class_from i ls t.
Proof.
  revert i. induction ls as [|l ls IH]; intros i H; cbn [class_from]; [lia|].
  destruct (Z.leb_spec s l), (Z.leb_spec t l); [lia| |lia|by apply IH]. pose proof (class_from_range (i + 1) ls t). lia.
Qed.
Lemma get_size_class_mono s t : s <= t -> get_size_class s <= get_size_class t.
Proof. apply class_from_mono. Qed.

(** ** The size word *)

Lemma even_land s : 0 <= s < 2 ^ 64 -> s mod 2 = 0 -> Z.land s (u64 (Z.lnot 1)) = s.
Proof. intros H E. change 1 with (2 ^ 1 - 1). rewrite land_align_down by lia. change (2 ^ 1) with 2. div_lia. Qed.
Lemma odd_land s : 0 <= s < 2 ^ 64 - 1 -> s mod 2 = 0 -> Z.land (s + 1) (u64 (Z.lnot 1)) = s.
Proof. intros H E. change 1 with (2 ^ 1 - 1) at 2. rewrite land_align_down by lia. change (2 ^ 1) with 2. div_lia. Qed.
Lemma even_flag s : s mod 2 = 0 -> Z.land s 1 = 0.
Proof. intros E. change 1 with (2 ^ 1 - 1). by rewrite land_mask_mod. Qed.
Lemma odd_flag s : s mod 2 = 0 -> Z.land (s + 1) 1 = 1.
Proof. intros E. change 1 with (2 ^ 1 - 1) at 2. rewrite land_mask_mod by lia. change (2 ^ 1) with 2. div_lia. Qed.
Lemma even_lor s : s mod 2 = 0 -> Z.lor s 1 = s + 1.
Proof.
  intros E. rewrite Z.lor_comm. replace s with (s / 2 * 2 ^ 1) by (change (2 ^ 1) with 2; div_lia). rewrite lor_low_high by (cbn; lia). lia.
Qed.
Lemma odd_lor s : s mod 2 = 0 -> Z.lor (s + 1) 1 = s + 1.
Proof. intros E. rewrite <- (even_lor s E), <- Z.lor_assoc. done. Qed.
(** ** The invariant *)

(** Cases of a lookup in an updated map of blocks. *)
Ltac blk H := first [apply lookup_insert_Some in H as [[? H]|[? H]]; [simplify_eq|blk H] | apply lookup_delete_Some in H as [? H]; blk H | idtac].

Section Inv.
Context {F : Type} {alloc : FrameAllocator F} {laws : FrameLaws F}.
Implicit Types (k : KHeap F) (B : Blocks) (ch : place -> Z -> list Z).

Definition head_at (p : place) (c : Z) k : option Z :=
  match p with
  | Global => free_lists k !! Z.to_nat c
  | Arena i => percpu_arenas k !! Z.to_nat i ≫= fun a => arena_lists a !! Z.to_nat c
  end.
Definition count_at (p : place) (c : Z) k : option Z :=
  match p with
  | Global => free_list_counts k !! Z.to_nat c
  | Arena i => percpu_arenas k !! Z.to_nat i ≫= fun a => counts a !! Z.to_nat c
  end.
Definition valid (p : place) (c : Z) : Prop :=
  match p with Global => 0 <= c < NUM_SIZE_CLASSES | Arena i => 0 <= i < MAX_CPUS /\ 0 <= c < PERCPU_SIZE_CLASSES end.

(** The pages of the regions belong to the heap, not to the frame allocator. *)
Record rinv k : Prop := {
  ri_first : exists r rs, heap_regions k = r :: rs /\ end_ r = heap_end k;
  ri_geo r : r ∈ heap_regions k -> 0 < start r /\ start r mod PAGE_SIZE = 0 /\ end_ r mod PAGE_SIZE = 0 /\ start r < end_ r <= 2 ^ 48;
  ri_frames : fr_inv (frames k);
  ri_taken x : inside (heap_regions k) x -> fr_owns (frames k) (x / PAGE_SIZE) /\ (x / PAGE_SIZE) ∉ fr_free (frames k)
}.

(** [ch p c]: the blocks linked at place [p] in class [c]. *)
Record kinv k B ch : Prop := {
  ki_blocks : binv (heap_regions k) (mem k) B;
  ki_memb p c a : valid p c -> a ∈ ch p c <-> exists s, B !! a = Some (s, In p) /\ get_size_class s = c;
  ki_place a s p : B !! a = Some (s, In p) -> valid p (get_size_class s);
  ki_chain p c : valid p c -> NoDup (ch p c) /\ exists h, head_at p c k = Some h /\ kseg (mem k) h (ch p c) 0;
  ki_count p c : valid p c -> count_at p c k = Some (Z.of_nat (length (ch p c)));
  ki_size : heap_size k = msum f_all B /\ heap_size k <= MAX_HEAP_SIZE /\ heap_size k mod PAGE_SIZE = 0;
  ki_number : free_block_count k = msum f_count B;
  ki_regions : rinv k;
  ki_len : length (free_lists k) = 9%nat /\ length (free_list_counts k) = 9%nat
}.

Lemma ki_geo k B ch a s kd :
  kinv k B ch -> B !! a = Some (s, kd) ->
  a mod 16 = 0 /\ s mod 16 = 0 /\ 32 <= s /\ 0 < a /\ a + s <= 281474976710656 /\ is_in_heap a k = true.
Proof.
  intros K Ha. destruct (bi_geo _ _ _ (ki_blocks _ _ _ K) _ _ _ Ha) as (? & ? & ? & ? & ? & Hi). change (2 ^ 48) with 281474976710656 in *.
  split_and!; try done. apply Hi. lia.
Qed.

Lemma ki_sizes k B ch a s kd : kinv k B ch -> B !! a = Some (s, kd) -> s <= heap_size k.
Proof.
  intros K Ha. destruct (ki_size _ _ _ K) as (-> & _). rewrite (msum_delete _ _ _ _ _ Ha). unfold f_all at 1.
  assert (0 <= msum f_all (delete a B)); [|lia]. apply msum_nonneg. intros b t kd' Hb. apply lookup_delete_Some in Hb as [_ Hb].
  unfold f_all. destruct (ki_geo _ _ _ _ _ _ K Hb). lia.
Qed.

(** The lists are shorter than the fuel. *)
Lemma chain_fuel k B ch p c : kinv k B ch -> valid p c -> (length (ch p c) < fuel k)%nat.
Proof.
  intros K Hv. destruct (ki_size _ _ _ K) as (Hs & Hm & _). destruct (ki_chain _ _ _ K p c Hv) as (Hnd & _).
  pose proof (msum_length f_all 32 B (ch p c) Hnd ltac:(lia)) as H. unfold fuel. rewrite Hs.
  assert (32 * Z.of_nat (length (ch p c)) <= msum f_all B).
  - apply H; unfold f_all.
    + intros a s kd Ha. destruct (ki_geo _ _ _ _ _ _ K Ha). lia.
    + intros a Ha. apply (ki_memb _ _ _ K) in Ha as (s & Ha & _); [|done]. exists s, (In p). split; [done|]. destruct (ki_geo _ _ _ _ _ _ K Ha). lia.
  - enough (Z.of_nat (length (ch p c)) <= msum f_all B / 16) by lia. apply Z.div_le_lower_bound; lia.
Qed.

Lemma chain_block k B ch p c a : kinv k B ch -> valid p c -> a ∈ ch p c -> exists s, B !! a = Some (s, In p) /\ get_size_class s = c.
Proof. intros K Hv. by apply (ki_memb _ _ _ K). Qed.

Lemma count_bytes k B ch : kinv k B ch -> 0 <= msum f_count B /\ 32 * msum f_count B <= heap_size k.
Proof.
  intros K. destruct (ki_size _ _ _ K) as (Hs & _). split; [apply msum_nonneg; intros a s [| |[|]] _; cbn; lia|].
  rewrite Hs. enough (msum (fun s kd => 32 * f_count s kd) B <= msum f_all B /\ msum (fun s kd => 32 * f_count s kd) B = 32 * msum f_count B) by lia. split.
  - apply msum_le. intros a s kd Ha. destruct (ki_geo _ _ _ _ _ _ K Ha). unfold f_count, f_all. destruct kd as [| |[|]]; lia.
  - clear. revert B. apply (map_ind (fun B => msum (fun s kd => 32 * f_count s kd) B = 32 * msum f_count B)).
    + unfold msum. by rewrite !map_fold_empty.
    + intros a [s kd] B Hn IH. rewrite !msum_insert by done. lia.
Qed.

Lemma count_range k B ch : kinv k B ch -> 0 <= msum f_count B <= 2097152 /\ heap_size k <= 67108864.
Proof.
  intros K. destruct (ki_size _ _ _ K) as (_ & Hm & _). change MAX_HEAP_SIZE with 67108864 in Hm. pose proof (count_bytes _ _ _ K). lia.
Qed.

Lemma count_fuel k B ch : kinv k B ch -> msum f_count B < Z.of_nat (fuel k).
Proof.
  intros K. destruct (count_bytes _ _ _ K) as [H0 H]. unfold fuel. enough (msum f_count B <= heap_size k / 16) by lia. apply Z.div_le_lower_bound; lia.
Qed.

(** What is in the blocks that are in use and stay so is kept. *)
Definition same_data B (m m' : Mem) : Prop :=
  forall a s, B !! a = Some (s, Used) -> forall x, a + 16 <= x < a + s -> byte m' x = byte m x.
Lemma same_data_trans B m1 m2 m3 : same_data B m1 m2 -> same_data B m2 m3 -> same_data B m1 m3.
Proof. intros H1 H2 a s Ha x Hx. rewrite (H2 a s Ha x Hx). by apply (H1 a s). Qed.
Lemma same_data_sub B B' m m' : (forall a s, B' !! a = Some (s, Used) -> B !! a = Some (s, Used)) -> same_data B m m' -> same_data B' m m'.
Proof. intros Hs H a s Ha. by apply H, Hs. Qed.

(** Everything but memory, lists and totals. *)
Definition same_rest k k' : Prop :=
  heap_regions k' = heap_regions k /\ heap_start k' = heap_start k /\ heap_end k' = heap_end k /\ heap_size k' = heap_size k /\
  percpu_enabled k' = percpu_enabled k /\ frames k' = frames k.
Lemma same_rest_trans k1 k2 k3 : same_rest k1 k2 -> same_rest k2 k3 -> same_rest k1 k3.
Proof. unfold same_rest. intros (-> & -> & -> & -> & -> & ->). naive_solver. Qed.
Lemma same_rest_fuel k k' : same_rest k k' -> fuel k' = fuel k.
Proof. intros (_ & _ & _ & H & _). unfold fuel. by rewrite H. Qed.
Lemma same_rest_rinv k k' : same_rest k k' -> rinv k -> rinv k'.
Proof. intros (E1 & E2 & E3 & E4 & E5 & E6) [H1 H2 H3 H4]. constructor; rewrite ?E1, ?E2, ?E3, ?E6; done. Qed.
Definition same_totals k k' : Prop := total_allocated k' = total_allocated k /\ total_free k' = total_free k.

(** A change of memory and of the blocks that are in no list. *)
Lemma reshape k B ch m' B' :
  kinv k B ch -> binv (heap_regions k) m' B' ->
  (forall a s p, B' !! a = Some (s, In p) <-> B !! a = Some (s, In p)) ->
  (forall a s p, B !! a = Some (s, In p) -> ld 8 (a + 16) m' = ld 8 (a + 16) (mem k)) ->
  msum f_all B' = msum f_all B -> msum f_count B' = msum f_count B ->
  kinv (set_mem m' k) B' ch.
Proof.
  intros K Hb Hin Hn Hs Hc. constructor; try done.
  - intros p c a Hv. rewrite (ki_memb _ _ _ K) by done. split; intros (s & ? & ?); exists s; split; try done; by apply Hin.
  - intros a s p Ha. apply (ki_place _ _ _ K a). by apply Hin.
  - intros p c Hv. destruct (ki_chain _ _ _ K p c Hv) as (Hnd & h & Hh & Hg). split; [done|]. exists h. split; [by destruct p|].
    eapply kseg_ext; [|done]. intros a Ha. destruct (chain_block _ _ _ _ _ _ K Hv Ha) as (s & ? & _). by eapply Hn.
  - intros p c Hv. pose proof (ki_count _ _ _ K p c Hv). by destruct p.
  - rewrite Hs. apply (ki_size _ _ _ K).
  - rewrite Hc. apply (ki_number _ _ _ K).
  - eapply same_rest_rinv; [|apply K]. done.
  - apply K.
Qed.
(** ** Writes to the [next] field *)

Lemma next_write rs m B z t kz v a s kd :
  binv rs m B -> B !! z = Some (t, kz) -> B !! a = Some (s, kd) ->
  ld 4 a (st 8 (z + 16) v m) = ld 4 a m /\ ld 8 (a + 8) (st 8 (z + 16) v m) = ld 8 (a + 8) m /\
  (a <> z -> ld 8 (a + 16) (st 8 (z + 16) v m) = ld 8 (a + 16) m).
Proof.
  intros Hb Hz Ha. destruct (bi_geo _ _ _ Hb _ _ _ Hz) as (_ & _ & Ht & _). destruct (bi_geo _ _ _ Hb _ _ _ Ha) as (_ & _ & Hs & _).
  destruct (decide (a = z)) as [->|Hne].
  - split_and!; [apply ld_st_out; lia|apply ld_st_out; lia|congruence].
  - destruct (bi_apart _ _ _ _ _ _ _ _ _ Hb Ha Hz Hne); split_and!; intros; apply ld_st_out; lia.
Qed.

Lemma hdr_next_write rs m B z t kz v a s kd s' kd' :
  binv rs m B -> B !! z = Some (t, kz) -> B !! a = Some (s, kd) -> hdr m a s' kd' -> hdr (st 8 (z + 16) v m) a s' kd'.
Proof. intros Hb Hz Ha. destruct (next_write _ _ _ _ _ _ v _ _ _ Hb Hz Ha) as (E1 & E2 & _). by apply hdr_ext. Qed.

Lemma binv_next_write rs m B z t kz v : binv rs m B -> B !! z = Some (t, kz) -> binv rs (st 8 (z + 16) v m) B.
Proof.
  intros Hb Hz. constructor; [apply Hb| |apply Hb]. intros a s kd Ha. eapply hdr_next_write; [done..|]. by apply (bi_hdr _ _ _ Hb).
Qed.

Lemma data_next_write rs m B z t kz v : binv rs m B -> B !! z = Some (t, kz) -> kz <> Used -> same_data B m (st 8 (z + 16) v m).
Proof.
  intros Hb Hz Hk a s Ha x Hx. destruct (decide (a = z)) as [->|Hne]; [congruence|]. apply byte_st_out.
  destruct (bi_geo _ _ _ Hb _ _ _ Hz) as (_ & _ & Ht & _). destruct (bi_apart _ _ _ _ _ _ _ _ _ Hb Ha Hz Hne); lia.
Qed.

Lemma binv_retag rs m B b s kd kd' : binv rs m B -> B !! b = Some (s, kd) -> hdr m b s kd' -> binv rs m (<[b := (s, kd')]> B).
Proof.
  intros Hb E Hh. assert (Hl : forall (a t : Z) (ka : kind), (<[b := (s, kd')]> B : Blocks) !! a = Some (t, ka) -> exists kz, B !! a = Some (t, kz)).
  { intros a t ka H. destruct (decide (a = b)) as [->|Hne].
    - rewrite lookup_insert_eq in H. simplify_eq. by exists kd.
    - rewrite lookup_insert_ne in H by done. by exists ka. }
  constructor.
  - intros a t ka H. destruct (Hl _ _ _ H) as [kz ?]. by eapply (bi_geo _ _ _ Hb).
  - intros a t ka H. destruct (decide (a = b)) as [->|Hne].
    + rewrite lookup_insert_eq in H. by simplify_eq.
    + rewrite lookup_insert_ne in H by done. by apply (bi_hdr _ _ _ Hb).
  - intros a t ka c u kz Ha Hc. destruct (Hl _ _ _ Ha), (Hl _ _ _ Hc). by eapply (bi_dis _ _ _ Hb).
Qed.

(** ** Linking and unlinking *)

Definition upd ch (p : place) (c : Z) (l : list Z) : place -> Z -> list Z :=
  fun p' c' => if decide ((p', c') = (p, c)) then l else ch p' c'.

Lemma upd_eq ch p c l : upd ch p c l p c = l.
Proof. unfold upd. by rewrite decide_True. Qed.
Lemma upd_ne ch p c l p' c' : (p', c') <> (p, c) -> upd ch p c l p' c' = ch p' c'.
Proof. intros. unfold upd. by rewrite decide_False. Qed.

(** The lists of [k'] are those of [k] but for the list [l'] at [(p, c)]. *)
Record relinked k k' ch (p : place) (c : Z) (l' : list Z) : Prop := {
  rl_rest : same_rest k k';
  rl_other p' c' : valid p' c' -> (p', c') <> (p, c) ->
    head_at p' c' k' = head_at p' c' k /\ count_at p' c' k' = count_at p' c' k /\
    forall a, a ∈ ch p' c' -> ld 8 (a + 16) (mem k') = ld 8 (a + 16) (mem k);
  rl_head : exists h, head_at p c k' = Some h /\ kseg (mem k') h l' 0;
  rl_count : count_at p c k' = Some (Z.of_nat (length l'));
  rl_len : length (free_lists k') = length (free_lists k) /\ length (free_list_counts k') = length (free_list_counts k)
}.

Lemma relink k B ch k' b s kd kd' p c l' :
  kinv k B ch -> B !! b = Some (s, kd) -> valid p c -> get_size_class s = c ->
  kd = Held \/ kd = In p -> kd' = Held \/ kd' = In p ->
  relinked k k' ch p c l' ->
  binv (heap_regions k) (mem k') (<[b := (s, kd')]> B) ->
  NoDup l' -> (forall a, a ∈ l' <-> (a = b /\ kd' = In p) \/ (a <> b /\ a ∈ ch p c)) ->
  free_block_count k' = msum f_count (<[b := (s, kd')]> B) ->
  kinv k' (<[b := (s, kd')]> B) (upd ch p c l').
Proof.
  intros K Hb Hv Hc Hkd Hkd' [Hr Ho Hh Hn [Hl1 Hl2]] Hbi Hnd Hm Hf. pose proof Hr as (E1 & E2 & E3 & E4 & E5 & E6).
  assert (Hl : forall p' (a t : Z), (<[b := (s, kd')]> B : Blocks) !! a = Some (t, In p') <-> (a = b /\ s = t /\ kd' = In p') \/ (a <> b /\ B !! a = Some (t, In p'))).
  { intros p' a t. destruct (decide (a = b)) as [->|Hne]; [rewrite lookup_insert_eq|rewrite lookup_insert_ne by done]; naive_solver. }
  constructor.
  - by rewrite E1.
  - intros p' c' a Hv'. destruct (decide ((p', c') = (p, c))) as [[= -> ->]|Hne].
    + rewrite upd_eq, Hm. rewrite (ki_memb _ _ _ K) by done. setoid_rewrite Hl. naive_solver.
    + rewrite upd_ne, (ki_memb _ _ _ K) by done. setoid_rewrite Hl. split.
      * intros (t & Ha & Hct). exists t. split; [|done]. right. split; [|done]. intros ->. naive_solver.
      * intros (t & [(-> & -> & ->)|[_ Ha]] & Hct); [|by exists t]. exfalso. destruct Hkd' as [[=]|[= ->]]. congruence.
  - intros a t p' Ha. apply Hl in Ha as [(-> & -> & ->)|[_ Ha]]; [|by eapply (ki_place _ _ _ K)]. destruct Hkd' as [[=]|[= ->]]. by subst c.
  - intros p' c' Hv'. destruct (decide ((p', c') = (p, c))) as [[= -> ->]|Hne]; [by rewrite upd_eq|]. rewrite upd_ne by done.
    destruct (Ho p' c' Hv' Hne) as (-> & _ & Hx). destruct (ki_chain _ _ _ K p' c' Hv') as (Hnd' & h & Hh' & Hs). split; [done|]. exists h.
    split; [done|]. by eapply kseg_ext.
  - intros p' c' Hv'. destruct (decide ((p', c') = (p, c))) as [[= -> ->]|Hne]; [by rewrite upd_eq|]. rewrite upd_ne by done.
    destruct (Ho p' c' Hv' Hne) as (_ & -> & _). by apply (ki_count _ _ _ K).
  - rewrite E4, (msum_update _ _ _ _ _ _ _ Hb). destruct (ki_size _ _ _ K) as (? & ? & ?). unfold f_all in *. split_and!; [lia|done..].
  - done.
  - by eapply same_rest_rinv, K.
  - rewrite Hl1, Hl2. apply K.
Qed.

Definition link_of (c : Z) (l1 : list Z) : link := match last l1 with None => Head c | Some z => Next z end.

Lemma last_split (l : list Z) : l = [] \/ exists l0 z, l = l0 ++ [z] /\ last l = Some z.
Proof.
  destruct (last l) as [z|] eqn:E; [right|left; by apply last_None]. apply last_Some in E as [l0 ->]. by exists l0, z.
Qed.

Lemma link_snoc c l z : link_of c (l ++ [z]) = Next z.
Proof. unfold link_of. by rewrite last_snoc. Qed.

Lemma get_link_ok k B ch c l1 l2 :
  kinv k B ch -> valid Global c -> ch Global c = l1 ++ l2 -> get_link (link_of c l1) k = Ok (hd0 l2).
Proof.
  intros K Hv Hl. destruct (ki_chain _ _ _ K Global c Hv) as (_ & h & Hh & Hs). rewrite Hl in Hs. apply kseg_app in Hs as (x & Hs1 & Hs2).
  apply kseg_head in Hs2 as ->. destruct (last_split l1) as [->|(l0 & z & -> & _)].
  - cbn in Hs1 |- *. rewrite <- Hs1. apply rd_Z; [apply Hv|done].
  - rewrite link_snoc. apply kseg_last in Hs1 as [_ Hs1]. cbn [get_link]. unfold next. by rewrite Hs1.
Qed.

(** [link_block]: what [push] and [add_to_free_list] do once the link is found. *)
Definition link_block (pp : link) (c b : Z) k : res (KHeap F) :=
  p ← get_link pp k; k ← set_link pp b (store 8 (b + 16) p k); count c 1 k.
Definition unlink_block (pp : link) (c b : Z) k : res (KHeap F) :=
  k ← set_link pp (next b k) k; count c (-1) k.

Lemma word_st a v m : 0 <= v <= 281474976710656 -> ld 8 a (st 8 a v m) = v.
Proof. intros H. rewrite ld_st. apply Z.mod_small. change (256 ^ Z.of_nat 8) with 18446744073709551616. lia. Qed.

(** Writing a link after [l1]: the headers, the other links and the contents of
    the blocks in use stay; what starts at [v] follows [l1]. *)
Lemma set_link_ok k B ch c l1 l2 v :
  kinv k B ch -> valid Global c -> ch Global c = l1 ++ l2 -> 0 <= v <= 281474976710656 ->
  exists k', set_link (link_of c l1) v k = Ok k' /\ same_rest k k' /\ same_totals k k' /\ percpu_arenas k' = percpu_arenas k /\
    free_list_counts k' = free_list_counts k /\ free_block_count k' = free_block_count k /\ length (free_lists k') = length (free_lists k) /\
    (forall a s kd, B !! a = Some (s, kd) ->
       ld 4 a (mem k') = ld 4 a (mem k) /\ ld 8 (a + 8) (mem k') = ld 8 (a + 8) (mem k) /\
       (Some a <> last l1 -> ld 8 (a + 16) (mem k') = ld 8 (a + 16) (mem k))) /\
    same_data B (mem k) (mem k') /\
    (forall c', valid Global c' -> c' <> c -> head_at Global c' k' = head_at Global c' k) /\
    (forall l', kseg (mem k') v l' 0 -> exists h, head_at Global c k' = Some h /\ kseg (mem k') h (l1 ++ l') 0).
Proof.
  intros K Hv Hl Hr. destruct (ki_chain _ _ _ K Global c Hv) as (Hnd & h & Hh & Hs). rewrite Hl in Hs, Hnd. cbn in Hh.
  pose proof (lookup_lt_Some _ _ _ Hh) as Hlt. destruct (last_split l1) as [->|(l0 & z & -> & Hz)].
  - unfold link_of. cbn [last set_link]. rewrite wr_Z by (split; [apply Hv|lia]). eexists. split; [reflexivity|]. split_and!; try done.
    + cbn. apply length_insert.
    + intros c' Hv' Hne. cbn in Hv, Hv' |- *. rewrite list_lookup_insert_ne; [done|lia].
    + intros l' Hl'. exists v. split; [|done]. cbn. by apply list_lookup_insert_eq.
  - rewrite link_snoc, Hz. cbn [set_link]. eexists. split; [reflexivity|]. assert (Hzin : z ∈ ch Global c) by (rewrite Hl; set_solver).
    destruct (chain_block _ _ _ _ _ _ K Hv Hzin) as (t & Hzt & _). assert (Hx : forall a s kd, B !! a = Some (s, kd) -> _) by
      (intros a s kd Ha; exact (next_write _ _ _ _ _ _ v _ _ _ (ki_blocks _ _ _ K) Hzt Ha)).
    split_and!; try done.
    + intros a s kd Ha. destruct (Hx a s kd Ha) as (? & ? & Hn). split_and!; [done..|]. intros Hne. apply Hn. congruence.
    + eapply data_next_write; [apply K|done..].
    + intros l' Hl'. exists h. split; [done|]. apply kseg_app. exists v. split; [|done]. apply kseg_app in Hs as (x & Hs & _).
      apply kseg_last in Hs as [Hs _]. apply kseg_last. split; [|by apply word_st]. eapply kseg_ext; [|done]. intros a Ha.
      assert (Hain : a ∈ ch Global c) by (rewrite Hl; set_solver). destruct (chain_block _ _ _ _ _ _ K Hv Hain) as (t' & Hat & _).
      apply (Hx a t' _ Hat). intros ->. apply NoDup_app in Hnd as (Hnd & _). apply NoDup_app in Hnd as (_ & Hd & _). eapply Hd; [done|set_solver].
Qed.

Lemma count_ok k c n0 n :
  free_list_counts k !! Z.to_nat c = Some n0 -> 0 <= c -> 0 <= n0 + n < 2 ^ 63 -> 0 <= free_block_count k + n < 2 ^ 63 ->
  count c n k = Ok (set_lists (free_lists k) (<[Z.to_nat c := n0 + n]> (free_list_counts k)) (free_block_count k + n) k).
Proof.
  intros Hc H0 H1 H2. unfold count. rewrite (rd_Z _ _ _ H0 Hc). cbn [mbind res_bind]. change (2 ^ 63) with 9223372036854775808 in *.
  rewrite !u64_small, wr_Z; [done| |lia..]. apply lookup_lt_Some in Hc. lia.
Qed.

Lemma class_valid s : valid Global (get_size_class s).
Proof. apply get_size_class_range. Qed.

(** The link of a block that is in no list. *)
Lemma held_next k B ch b s v : kinv k B ch -> B !! b = Some (s, Held) -> kinv (store 8 (b + 16) v k) B ch.
Proof.
  intros K Hb. apply (reshape k B ch); [done| |done| |done..].
  - eapply binv_next_write; [apply K|done].
  - intros a t p Ha. refine (proj2 (proj2 (next_write _ _ _ _ _ _ v _ _ _ (ki_blocks _ _ _ K) Hb Ha)) _). intros ->. congruence.
Qed.

Lemma hd0_range k B ch p c l1 l2 : kinv k B ch -> valid p c -> ch p c = l1 ++ l2 -> 0 <= hd0 l2 <= 281474976710656.
Proof.
  intros K Hv Hl. destruct l2 as [|a l2]; [cbn; lia|]. assert (Ha : a ∈ ch p c) by (rewrite Hl; set_solver).
  destruct (chain_block _ _ _ _ _ _ K Hv Ha) as (s & Hs & _). destruct (ki_geo _ _ _ _ _ _ K Hs). cbn. lia.
Qed.

Lemma length_range k B ch p c : kinv k B ch -> valid p c -> Z.of_nat (length (ch p c)) <= 4194304.
Proof.
  intros K Hv. pose proof (chain_fuel _ _ _ _ _ K Hv) as H. unfold fuel in H. destruct (ki_size _ _ _ K) as (_ & Hm & _).
  change MAX_HEAP_SIZE with 67108864 in Hm. assert (heap_size k / 16 <= 4194304) by (apply Z.div_le_upper_bound; lia). lia.
Qed.

(** The common part of [klink_ok] and [kunlink_ok]: the list at [(Global, c)]
    becomes [l1 ++ l'] and the block [b] changes between held and listed. *)
Lemma splice k B ch c l1 l2 l' b s kd kd' v n :
  kinv k B ch -> valid Global c -> ch Global c = l1 ++ l2 -> B !! b = Some (s, kd) -> get_size_class s = c ->
  kd = Held \/ kd = In Global -> kd' = Held \/ kd' = In Global -> hdr (mem k) b s kd' ->
  v = hd0 l' -> 0 <= v <= 281474976710656 -> kseg (mem k) v l' 0 -> NoDup (l1 ++ l') ->
  (forall a, a ∈ l' -> B !! a <> None) ->
  (forall a, a ∈ l1 ++ l' <-> (a = b /\ kd' = In Global) \/ (a <> b /\ a ∈ ch Global c)) ->
  Z.of_nat (length (l1 ++ l')) = Z.of_nat (length (ch Global c)) + n -> n = f_count s kd' - f_count s kd ->
  exists k', (k ← set_link (link_of c l1) v k; count c n k) = Ok k' /\
    kinv k' (<[b := (s, kd')]> B) (upd ch Global c (l1 ++ l')) /\
    (forall ka, hdr (mem k) b s ka -> hdr (mem k') b s ka) /\ same_data B (mem k) (mem k') /\ same_rest k k' /\ same_totals k k' /\ percpu_arenas k' = percpu_arenas k.
Proof.
  intros K Hv Hl Hb Hc Hkd Hkd' Hh Hvv Hr Hs Hnd Hdom Hm Hlen Hn.
  destruct (set_link_ok k B ch c l1 l2 v K Hv Hl Hr) as (k2 & E2 & R2 & T2 & A2 & C2 & N2 & L2 & Hx & D2 & Ho & Hhd).
  pose proof (ki_count _ _ _ K Global c Hv) as Hcn. cbn in Hcn. pose proof (count_range _ _ _ K) as [Hcr _]. pose proof (length_range _ _ _ _ _ K Hv) as Hlr.
  assert (Hfc : -1 <= n <= 1) by (destruct Hkd as [->| ->], Hkd' as [->| ->]; cbn in Hn; lia).
  pose proof (ki_number _ _ _ K) as Hfn. assert (Hupd : msum f_count (<[b := (s, kd')]> B) = msum f_count B + n) by (rewrite (msum_update _ _ _ _ _ _ _ Hb); lia).
  assert (0 <= msum f_count (<[b := (s, kd')]> B)) by (apply msum_nonneg; intros ? ? [| |[|]] _; cbn; lia).
  rewrite E2. cbn [mbind res_bind]. rewrite (count_ok k2 c (Z.of_nat (length (ch Global c))) n); [|by rewrite C2|apply Hv|change (2 ^ 63) with 9223372036854775808; lia..].
  eexists. split; [reflexivity|]. assert (Hh' : forall ka, hdr (mem k) b s ka -> hdr (mem k2) b s ka).
  { intros ka. destruct (Hx _ _ _ Hb) as (E4 & E8 & _). by apply hdr_ext. }
  split; [|split_and!; done]. eapply relink; [exact K|done..| | | |done|].
  - constructor; [done| | | |].
    + intros p' c' Hv' Hne. split; [|split].
      * destruct p'; [|cbn; by rewrite A2]. apply Ho; [done|]. congruence.
      * destruct p'; cbn; [|by rewrite A2]. rewrite C2, list_lookup_insert_ne; [done|]. cbn in Hv, Hv'. assert (c' <> c) by congruence. lia.
      * intros a Ha. destruct (chain_block _ _ _ _ _ _ K Hv' Ha) as (t & Hat & Hct). apply (Hx _ _ _ Hat).
        intros Hla. symmetry in Hla. apply last_Some in Hla as [l0 ->]. assert (Hain : a ∈ ch Global c) by (rewrite Hl; set_solver).
        destruct (chain_block _ _ _ _ _ _ K Hv Hain) as (t' & ? & ?). simplify_eq. congruence.
    + apply Hhd. eapply kseg_ext; [|exact Hs]. intros a Ha. destruct (B !! a) as [[t ka]|] eqn:Ea; [|by apply Hdom in Ha].
      apply (Hx _ _ _ Ea). intros Hla. symmetry in Hla. apply last_Some in Hla as [l0 ->]. apply NoDup_app in Hnd as (_ & Hd & _). eapply Hd; [|done]. set_solver.
    + cbn. rewrite C2, list_lookup_insert_eq by (by eapply lookup_lt_Some). f_equal. lia.
    + cbn. by rewrite L2, C2, length_insert.
  - eapply binv_retag; [|done|by apply Hh']. constructor; [apply K| |apply K]. intros a t ka Ha. destruct (Hx _ _ _ Ha) as (E4 & E8 & _).
    eapply hdr_ext; [exact E4|exact E8|]. by apply (bi_hdr _ _ _ (ki_blocks _ _ _ K)).
  - done.
  - cbn. lia.
Qed.
(** What every step on the lists keeps. *)
Definition kept B k k' : Prop :=
  same_data B (mem k) (mem k') /\ same_rest k k' /\ same_totals k k' /\ percpu_arenas k' = percpu_arenas k.
Lemma kept_refl B k : kept B k k.
Proof. done. Qed.
Lemma kept_trans B k1 k2 k3 : kept B k1 k2 -> kept B k2 k3 -> kept B k1 k3.
Proof.
  intros (D1 & R1 & [T1 T1'] & A1) (D2 & R2 & [T2 T2'] & A2). split_and!; [by eapply same_data_trans|by eapply same_rest_trans|split; congruence|congruence].
Qed.
Lemma kept_sub B B' k k' : (forall a s, B' !! a = Some (s, Used) -> B !! a = Some (s, Used)) -> kept B k k' -> kept B' k k'.
Proof. intros H (D & ?). split; [|done]. by eapply same_data_sub. Qed.

Lemma klink_ok k B ch b s c l1 l2 :
  kinv k B ch -> B !! b = Some (s, Held) -> hdr (mem k) b s (In Global) -> get_size_class s = c -> ch Global c = l1 ++ l2 ->
  exists k', link_block (link_of c l1) c b k = Ok k' /\ kinv k' (<[b := (s, In Global)]> B) (upd ch Global c (l1 ++ b :: l2)) /\ kept B k k'.
Proof.
  intros K Hb Hh Hc Hl. assert (Hv : valid Global c) by (subst c; apply class_valid).
  pose proof (held_next k B ch b s (hd0 l2) K Hb) as K1. pose proof (hd0_range _ _ _ _ _ _ _ K Hv Hl) as Hr.
  destruct (ki_geo _ _ _ _ _ _ K Hb) as (_ & _ & Hs32 & Hb0 & Hb1 & _). destruct (ki_chain _ _ _ K1 Global c Hv) as (Hnd & h & Hhd & Hs).
  rewrite Hl in Hs, Hnd. apply kseg_app in Hs as (x & _ & Hs2). pose proof (kseg_head _ _ _ Hs2) as ->. assert (Hnb : b ∉ l1 ++ l2).
  { rewrite <- Hl. intros Hin. apply (chain_block _ _ _ _ _ _ K Hv) in Hin as (t & ? & _). congruence. }
  destruct (splice (store 8 (b + 16) (hd0 l2) k) B ch c l1 l2 (b :: l2) b s Held (In Global) b 1) as (k' & E & K' & _ & D & R & T & A); try done.
  - by left.
  - by right.
  - eapply hdr_next_write; [apply K|done..].
  - lia.
  - cbn [kseg]. split; [done|]. cbn. by rewrite word_st by lia.
  - apply NoDup_app in Hnd as (? & Hd & ?). apply NoDup_app. split; [done|]. rewrite NoDup_cons. set_solver.
  - intros a [->|Ha]%elem_of_cons; [congruence|]. assert (Hin : a ∈ ch Global c) by (rewrite Hl; set_solver).
    destruct (chain_block _ _ _ _ _ _ K Hv Hin) as (? & -> & _). done.
  - intros a. rewrite Hl, !elem_of_app, elem_of_cons. destruct (decide (a = b)) as [->|]; [|naive_solver]. naive_solver.
  - rewrite Hl, !length_app. cbn [length]. lia.
  - exists k'. split; [|split; [done|split_and!; try done]].
    + unfold link_block. by rewrite (get_link_ok _ _ _ _ _ _ K Hv Hl).
    + eapply same_data_trans; [|exact D]. eapply data_next_write; [apply K|done..].
Qed.

Lemma kunlink_ok k B ch b s c l1 l2 :
  kinv k B ch -> valid Global c -> ch Global c = l1 ++ b :: l2 -> B !! b = Some (s, In Global) ->
  exists k', unlink_block (link_of c l1) c b k = Ok k' /\ kinv k' (<[b := (s, Held)]> B) (upd ch Global c (l1 ++ l2)) /\
    hdr (mem k') b s (In Global) /\ kept B k k'.
Proof.
  intros K Hv Hl Hb. destruct (ki_chain _ _ _ K Global c Hv) as (Hnd & h & Hhd & Hs). rewrite Hl in Hs, Hnd.
  assert (Hc : get_size_class s = c).
  { assert (Hin : b ∈ ch Global c) by (rewrite Hl; set_solver). destruct (chain_block _ _ _ _ _ _ K Hv Hin) as (t & ? & ?). congruence. }
  apply kseg_app in Hs as (x & _ & [-> Hs2]). pose proof (kseg_head _ _ _ Hs2) as Hx.
  assert (Hl' : ch Global c = (l1 ++ [b]) ++ l2) by (rewrite Hl; by rewrite <- app_assoc).
  pose proof (hd0_range _ _ _ _ _ _ _ K Hv Hl') as Hr. apply NoDup_app in Hnd as (Hn1 & Hd & Hn2). apply NoDup_cons in Hn2 as [Hb2 Hn2].
  pose proof (bi_hdr _ _ _ (ki_blocks _ _ _ K) _ _ _ Hb) as Hh.
  destruct (splice k B ch c l1 (b :: l2) l2 b s (In Global) Held (hd0 l2) (-1)) as (k' & E & K' & Hh' & D & R & T & A); try done.
  - by right.
  - by left.
  - left. apply Hh.
  - by rewrite <- Hx.
  - apply NoDup_app. split_and!; [done| |done]. set_solver.
  - intros a Ha. assert (Hin : a ∈ ch Global c) by (rewrite Hl; set_solver). destruct (chain_block _ _ _ _ _ _ K Hv Hin) as (? & -> & _). done.
  - intros a. rewrite Hl, !elem_of_app, elem_of_cons. destruct (decide (a = b)) as [->|]; [|naive_solver]. split; [|naive_solver].
    intros [Ha|Ha]; [exfalso; eapply Hd; [done|set_solver]|done].
  - rewrite Hl, !length_app. cbn [length]. lia.
  - exists k'. split; [unfold unlink_block, next; by rewrite Hx|]. split; [done|]. split; [by apply Hh'|done].
Qed.
(** ** Writes inside a block *)

Lemma outside rs m B b s kd m' :
  binv rs m B -> B !! b = Some (s, kd) -> (forall x, ~ (b <= x < b + s) -> byte m' x = byte m x) ->
  forall a t ka, B !! a = Some (t, ka) -> a <> b ->
    (forall t' kz, hdr m a t' kz -> hdr m' a t' kz) /\ ld 8 (a + 16) m' = ld 8 (a + 16) m /\ forall x, a <= x < a + t -> byte m' x = byte m x.
Proof.
  intros Hb Hbs Hx a t ka Ha Hne. destruct (bi_geo _ _ _ Hb _ _ _ Ha) as (_ & _ & Ht & _).
  assert (Hy : forall x, a <= x < a + t -> byte m' x = byte m x).
  { intros x Hxr. apply Hx. destruct (bi_apart _ _ _ _ _ _ _ _ _ Hb Ha Hbs Hne); lia. }
  split_and!; [|apply ld_ext; intros; apply Hy; lia|done]. intros t' kz. apply hdr_ext; apply ld_ext; intros; apply Hy; lia.
Qed.

Lemma data_outside rs m B b s kd m' :
  binv rs m B -> B !! b = Some (s, kd) -> kd <> Used -> (forall x, ~ (b <= x < b + s) -> byte m' x = byte m x) -> same_data B m m'.
Proof.
  intros Hb Hbs Hk Hx a t Ha x Hxr. assert (a <> b) by (intros ->; congruence).
  destruct (outside _ _ _ _ _ _ _ Hb Hbs Hx _ _ _ Ha) as (_ & _ & Hy); [done|]. apply Hy. lia.
Qed.

(** The words of a header of any kind. *)
Lemma hdr_word k B ch a s kd :
  kinv k B ch -> B !! a = Some (s, kd) ->
  size a k = s /\ s mod 2 = 0 /\ 0 <= s <= 67108864 /\ (size_and_flags a k = s \/ size_and_flags a k = s + 1).
Proof.
  intros K Ha. destruct (ki_geo _ _ _ _ _ _ K Ha) as (_ & Hm & Hs & _). pose proof (ki_sizes _ _ _ _ _ _ K Ha). pose proof (count_range _ _ _ K) as [_ ?].
  assert (He : s mod 2 = 0) by div_lia. pose proof (bi_hdr _ _ _ (ki_blocks _ _ _ K) _ _ _ Ha) as Hh.
  assert (Hw : size_and_flags a k = s \/ size_and_flags a k = s + 1) by (unfold size_and_flags; destruct kd; cbn in Hh; naive_solver).
  split_and!; [|done|lia|lia|done]. unfold size. destruct Hw as [-> | ->]; [apply even_land|apply odd_land]; try done; change (2 ^ 64) with 18446744073709551616; lia.
Qed.

(** A block between [Held] and [Used], and a write into a held block. *)
Lemma retag k B ch b s kd kd' m' :
  kinv k B ch -> B !! b = Some (s, kd) -> kd = Held \/ kd = Used -> kd' = Held \/ kd' = Used ->
  (forall x, ~ (b <= x < b + s) -> byte m' x = byte (mem k) x) -> hdr m' b s kd' ->
  kinv (set_mem m' k) (<[b := (s, kd')]> B) ch.
Proof.
  intros K Hb Hk Hk' Hx Hh. pose proof (ki_blocks _ _ _ K) as Bi. pose proof (outside _ _ _ _ _ _ _ Bi Hb Hx) as Ho. apply (reshape k B); [done| | | | |].
  - constructor.
    + intros a t ka Ha. blk Ha; by eapply (bi_geo _ _ _ Bi).
    + intros a t ka Ha. blk Ha; [done|]. eapply (proj1 (Ho a t ka Ha ltac:(done))), (bi_hdr _ _ _ Bi _ _ _ Ha).
    + intros a t ka c u kc Ha Hc. blk Ha; blk Hc; by eapply (bi_dis _ _ _ Bi).
  - intros a t p. split; intros Ha.
    + blk Ha; [|done]. by destruct Hk'.
    + rewrite lookup_insert_ne; [done|]. intros ->. destruct Hk as [-> | ->]; congruence.
  - intros a t p Ha. apply (Ho a t _ Ha). intros ->. destruct Hk as [-> | ->]; congruence.
  - rewrite (msum_update _ _ _ _ _ _ _ Hb). unfold f_all. lia.
  - rewrite (msum_update _ _ _ _ _ _ _ Hb). destruct Hk as [-> | ->], Hk' as [-> | ->]; cbn; lia.
Qed.

Lemma word4_st a v m : 0 <= v < 4294967296 -> ld 4 a (st 4 a v m) = v.
Proof. intros H. rewrite ld_st. apply Z.mod_small. change (256 ^ Z.of_nat 4) with 4294967296. lia. Qed.

(** [set_free] and [set_used] write the header of the kind. *)
Lemma set_header_ok k B ch b s kd :
  kinv k B ch -> B !! b = Some (s, kd) ->
  hdr (mem (set_free b k)) b s (In Global) /\ hdr (mem (set_used b k)) b s Used /\
  (forall x, ~ (b <= x < b + 16) -> byte (mem (set_free b k)) x = byte (mem k) x) /\
  (forall x, ~ (b <= x < b + 16) -> byte (mem (set_used b k)) x = byte (mem k) x).
Proof.
  intros K Hb. destruct (hdr_word _ _ _ _ _ _ K Hb) as (Hs & He & Hr & Hw). unfold size in Hs.
  assert (Hu : Z.lor (size_and_flags b k) 1 = s + 1) by (destruct Hw as [-> | ->]; [by apply even_lor|by apply odd_lor]).
  unfold set_free, set_used. rewrite Hs, Hu. cbn [mem store set_mem hdr]. split_and!.
  - rewrite ld_st_out, word_st by lia. done.
  - by rewrite word4_st.
  - rewrite ld_st_out, word_st by lia. done.
  - by rewrite word4_st.
  - intros x Hx. rewrite !byte_st_out by lia. done.
  - intros x Hx. rewrite !byte_st_out by lia. done.
Qed.

Lemma set_free_ok k B ch b s :
  kinv k B ch -> B !! b = Some (s, Held) ->
  kinv (set_free b k) B ch /\ hdr (mem (set_free b k)) b s (In Global) /\ kept B k (set_free b k).
Proof.
  intros K Hb. destruct (set_header_ok _ _ _ _ _ _ K Hb) as (Hh & _ & Hx & _). destruct (ki_geo _ _ _ _ _ _ K Hb) as (_ & _ & Hs & _).
  split_and!; try done.
  - rewrite <- (insert_id B b (s, Held)) by done. apply (retag k B ch b s Held); try done; [by left..| |left; apply Hh]. intros x Hxr. apply Hx. lia.
  - split; [|done]. eapply data_outside; [apply K|done|done|]. intros x Hxr. apply Hx. lia.
Qed.

Lemma set_used_ok k B ch b s :
  kinv k B ch -> B !! b = Some (s, Held) -> kinv (set_used b k) (<[b := (s, Used)]> B) ch /\ kept B k (set_used b k).
Proof.
  intros K Hb. destruct (set_header_ok _ _ _ _ _ _ K Hb) as (_ & Hh & _ & Hx). destruct (ki_geo _ _ _ _ _ _ K Hb) as (_ & _ & Hs & _).
  split_and!; try done.
  - apply (retag k B ch b s Held); try done; [by left|by right|]. intros x Hxr. apply Hx. lia.
  - split; [|done]. eapply data_outside; [apply K|done|done|]. intros x Hxr. apply Hx. lia.
Qed.

(** Freeing starts by taking the block from its user; the header still says
    that it is in use. *)
Lemma hold_used k B ch b s : kinv k B ch -> B !! b = Some (s, Used) -> kinv k (<[b := (s, Held)]> B) ch.
Proof.
  intros K Hb. replace k with (set_mem (mem k) k) by (by destruct k). apply (retag k B ch b s Used); try done; [by right|by left|].
  right. apply (bi_hdr _ _ _ (ki_blocks _ _ _ K) _ _ _ Hb).
Qed.

End Inv.

End KHeapInv.
