(* ===== verification/KHeapOps.v ===== *)
(** * Free lists and coalescing of the kernel heap

    The list operations of [KHeap] on the invariant of [KHeapInv]: walking a list
    to a place, adding and removing a block, splitting and merging blocks, and
    the two ways of coalescing. *)

From S2P Require Import Prelude Buddy Frames Memory KHeap KHeapInv.

Module KHeapOps.
Import Buddy(PAGE_SIZE).
Import Frames Memory KHeap KHeapInv.

Section Ops.
Context {F : Type} {alloc : FrameAllocator F} {laws : FrameLaws F}.
Implicit Types (k : KHeap F) (B : Blocks) (ch : place -> Z -> list Z).

Lemma kinv_legacy k B ch : kinv k B ch -> kinv (update_legacy_free_list_head k) B ch.
Proof. intros [H1 H2 H3 H4 H5 H6 H7 H8 H9]. constructor; try done. by apply (same_rest_rinv k). Qed.
Lemma kinv_totals k B ch a f : kinv k B ch -> kinv (set_totals a f k) B ch.
Proof. intros [H1 H2 H3 H4 H5 H6 H7 H8 H9]. constructor; try done. by apply (same_rest_rinv k). Qed.

(** ** Walks *)

Lemma step_list k B ch c l1 a l2 :
  kinv k B ch -> valid Global c -> ch Global c = l1 ++ a :: l2 ->
  get_link (link_of c l1) k = Ok a /\ 0 < a /\ is_in_heap a k = true /\ Next a = link_of c (l1 ++ [a]) /\ ch Global c = (l1 ++ [a]) ++ l2 /\
  exists s, B !! a = Some (s, In Global) /\ size a k = s /\ get_size_class s = c /\ magic a k = BLOCK_MAGIC_FREE.
Proof.
  intros K Hv Hl. assert (Hin : a ∈ ch Global c) by (rewrite Hl; set_solver). destruct (chain_block _ _ _ _ _ _ K Hv Hin) as (s & Hs & Hc).
  destruct (ki_geo _ _ _ _ _ _ K Hs) as (_ & _ & _ & ? & _ & ?). split_and!; try done.
  - by rewrite (get_link_ok _ _ _ _ _ _ K Hv Hl).
  - by rewrite link_snoc.
  - by rewrite Hl, <- app_assoc.
  - exists s. split_and!; try done; [by apply (hdr_word _ _ _ _ _ _ K Hs)|]. apply (bi_hdr _ _ _ (ki_blocks _ _ _ K) _ _ _ Hs).
Qed.

Lemma step_end k B ch c l1 : kinv k B ch -> valid Global c -> ch Global c = l1 -> get_link (link_of c l1) k = Ok 0.
Proof. intros K Hv Hl. apply (get_link_ok k B ch c l1 []); try done. by rewrite app_nil_r. Qed.

Lemma add_walk_ok k B ch c b n l1 l2 :
  kinv k B ch -> valid Global c -> ch Global c = l1 ++ l2 -> (length l2 < n)%nat ->
  exists l1' l2', add_walk n b (link_of c l1) k = Ok (k, link_of c l1') /\ ch Global c = l1' ++ l2'.
Proof.
  intros K Hv. revert l1 n. induction l2 as [|a l2 IH]; intros l1 [|n] Hl Hn; cbn [length] in Hn; try lia; cbn [add_walk].
  - rewrite (step_end _ _ _ _ _ K Hv) by (by rewrite app_nil_r in Hl). by exists l1, [].
  - destruct (step_list _ _ _ _ _ _ _ K Hv Hl) as (-> & H0 & Hh & Hnx & Hl' & _). cbn [mbind res_bind].
    destruct (Z.eqb_spec a 0); [lia|]. destruct (Z.leb_spec b a); [by exists l1, (a :: l2)|]. cbn [orb]. rewrite Hh. cbn [negb]. rewrite Hnx. apply IH; [done|lia].
Qed.

(** ** Adding and removing *)

Lemma add_to_free_list_ok k B ch b s :
  kinv k B ch -> B !! b = Some (s, Held) ->
  exists k' ch', add_to_free_list b k = Ok k' /\ kinv k' (<[b := (s, In Global)]> B) ch' /\ kept B k k'.
Proof.
  intros K Hb. destruct (set_free_ok _ _ _ _ _ K Hb) as (K1 & Hh & P1). destruct (ki_geo _ _ _ _ _ _ K1 Hb) as (_ & _ & _ & _ & _ & Hi).
  destruct (hdr_word _ _ _ _ _ _ K1 Hb) as (Hs & _). unfold add_to_free_list. rewrite Hi. cbn [negb]. rewrite Hs.
  pose proof (class_valid s) as Hv. destruct (add_walk_ok _ _ _ (get_size_class s) b (fuel (set_free b k)) [] (ch Global (get_size_class s)) K1 Hv eq_refl) as (l1 & l2 & E & Hl).
  { by apply (chain_fuel _ _ _ _ _ K1). }
  change (Head _) with (link_of (get_size_class s) []). rewrite E. cbn [mbind res_bind].
  destruct (klink_ok _ _ _ _ _ _ _ _ K1 Hb Hh eq_refl Hl) as (k2 & E2 & K2 & P2). unfold link_block in E2.
  destruct (get_link (link_of (get_size_class s) l1) (set_free b k)) as [p| |]; cbn [mbind res_bind] in E2 |- *; try done.
  destruct (set_link _ _ _) as [k3| |]; cbn [mbind res_bind] in E2 |- *; try done. rewrite E2. cbn [mbind res_bind].
  eexists _, _. split; [reflexivity|]. split; [by apply kinv_legacy|]. eapply kept_trans; [exact P1|]. exact P2.
Qed.

Lemma push_ok k B ch b s :
  kinv k B ch -> B !! b = Some (s, Held) -> hdr (mem k) b s (In Global) ->
  exists k' ch', push (get_size_class s) b k = Ok k' /\ kinv k' (<[b := (s, In Global)]> B) ch' /\ kept B k k'.
Proof.
  intros K Hb Hh. destruct (klink_ok _ _ _ _ _ _ [] _ K Hb Hh eq_refl eq_refl) as (k' & E & K' & P). by (eexists k', _; split_and!).
Qed.

Lemma remove_walk_ok k B ch c b s n l1 l2 :
  kinv k B ch -> valid Global c -> B !! b = Some (s, In Global) -> b ∈ l2 -> ch Global c = l1 ++ l2 -> (length l2 < n)%nat ->
  exists k' ch', remove_walk n b c (link_of c l1) k = Ok k' /\ kinv k' (<[b := (s, Held)]> B) ch' /\ hdr (mem k') b s (In Global) /\ kept B k k'.
Proof.
  intros K Hv Hb. revert l1 n. induction l2 as [|a l2 IH]; intros l1 [|n] Hin Hl Hn; cbn [length] in Hn; try lia; cbn [remove_walk]; [by apply not_elem_of_nil in Hin|].
  destruct (step_list _ _ _ _ _ _ _ K Hv Hl) as (-> & H0 & Hh & Hnx & Hl' & _). cbn [mbind res_bind].
  destruct (Z.eqb_spec a 0); [lia|]. destruct (Z.eqb_spec a b) as [->|Hne].
  - destruct (kunlink_ok _ _ _ _ _ _ _ _ K Hv Hl Hb) as (k' & E & K' & Hhd & P). by (eexists k', _; split_and!).
  - rewrite Hnx. apply IH; [set_solver|done|lia].
Qed.

Lemma remove_from_free_list_ok k B ch b s :
  kinv k B ch -> B !! b = Some (s, In Global) ->
  exists k' ch', remove_from_free_list b k = Ok k' /\ kinv k' (<[b := (s, Held)]> B) ch' /\ hdr (mem k') b s (In Global) /\ kept B k k'.
Proof.
  intros K Hb. unfold remove_from_free_list. destruct (hdr_word _ _ _ _ _ _ K Hb) as (-> & _). pose proof (class_valid s) as Hv.
  apply (remove_walk_ok k B ch (get_size_class s) b s (fuel k) [] (ch Global (get_size_class s))); try done.
  - apply (ki_memb _ _ _ K); [done|]. by exists s.
  - by apply (chain_fuel _ _ _ _ _ K).
Qed.

(** ** Resizing *)

Lemma set_size_word k B ch b s kd s' :
  kinv k B ch -> B !! b = Some (s, kd) -> s' mod 16 = 0 -> 0 <= s' <= 67108864 ->
  hdr (mem (set_size b s' k)) b s' Held /\ (forall x, ~ (b <= x < b + 16) -> byte (mem (set_size b s' k)) x = byte (mem k) x).
Proof.
  intros K Hb Hm Hr. destruct (hdr_word _ _ _ _ _ _ K Hb) as (_ & He & _ & Hw). assert (He' : s' mod 2 = 0) by div_lia.
  unfold set_size. rewrite (even_land s') by (try done; change (2 ^ 64) with 18446744073709551616; lia). cbn [mem store set_mem hdr]. split.
  - destruct Hw as [-> | ->]; [left; rewrite even_flag by done|right; rewrite odd_flag, Z.lor_comm, even_lor by done]; rewrite ?Z.lor_0_l; by rewrite word_st by lia.
  - intros x Hx. apply byte_st_out. lia.
Qed.

(** Two held blocks next to each other become one. *)
Lemma absorb_ok k B ch p sp b sb :
  kinv k B ch -> B !! p = Some (sp, Held) -> B !! b = Some (sb, Held) -> p + sp = b ->
  kinv (set_size p (sp + sb) k) (<[p := (sp + sb, Held)]> (delete b B)) ch /\ kept B k (set_size p (sp + sb) k).
Proof.
  intros K Hp Hb Hpb. pose proof (ki_blocks _ _ _ K) as Bi. destruct (ki_geo _ _ _ _ _ _ K Hp) as (Hp1 & Hp2 & Hp3 & Hp4 & Hp5 & _).
  destruct (ki_geo _ _ _ _ _ _ K Hb) as (Hb1 & Hb2 & Hb3 & Hb4 & Hb5 & _). assert (Hne : b <> p) by lia.
  assert (Hdel : delete b B !! p = Some (sp, Held)) by (by rewrite lookup_delete_ne). assert (Hsum : sp + sb <= 67108864).
  { pose proof (count_range _ _ _ K) as [_ Hc]. destruct (ki_size _ _ _ K) as (Hs & _). rewrite (msum_delete _ _ _ _ _ Hb), (msum_delete _ _ _ _ _ Hdel) in Hs. unfold f_all at 1 2 in Hs.
    assert (0 <= msum f_all (delete p (delete b B))); [|lia]. apply msum_nonneg. intros a t ka Ha. blk Ha. unfold f_all. destruct (ki_geo _ _ _ _ _ _ K Ha). lia. }
  destruct (set_size_word k B ch p sp Held (sp + sb) K Hp ltac:(div_lia) ltac:(lia)) as (Hh & Hx).
  assert (Hx' : forall x, ~ (p <= x < p + sp) -> byte (mem (set_size p (sp + sb) k)) x = byte (mem k) x) by (intros x Hxr; apply Hx; lia).
  assert (Hin : forall x, p <= x < p + (sp + sb) -> inside (heap_regions k) x).
  { intros x Hxr. destruct (Z.lt_ge_cases x b); [eapply (bi_geo _ _ _ Bi _ _ _ Hp); lia|eapply (bi_geo _ _ _ Bi _ _ _ Hb); lia]. }
  pose proof (outside _ _ _ _ _ _ _ Bi Hp Hx') as Ho. split; [|split; [|done]]; [|eapply data_outside; [exact Bi|exact Hp|done|exact Hx']].
  apply (reshape k B); [done| | | | |].
  - constructor.
    + intros a t ka Ha. blk Ha; [|by eapply (bi_geo _ _ _ Bi)]. split_and!; [done|div_lia|lia|done|change (2 ^ 48) with 281474976710656; lia|exact Hin].
    + intros a t ka Ha. blk Ha; [done|]. eapply (proj1 (Ho a t ka Ha ltac:(done))), (bi_hdr _ _ _ Bi _ _ _ Ha).
    + intros a t ka c u kc Ha Hc Hac. blk Ha; blk Hc; try lia.
      * destruct (bi_apart _ _ _ _ _ _ _ _ _ Bi Hb Hc) as [?|?]; [done|lia|]. pose proof (bi_dis _ _ _ Bi _ _ _ _ _ _ Hp Hc). destruct (ki_geo _ _ _ _ _ _ K Hc). lia.
      * by eapply (bi_dis _ _ _ Bi a _ _ c).
      * by eapply (bi_dis _ _ _ Bi a _ _ c).
  - intros a t q. split; intros Ha; [blk Ha; done|]. rewrite lookup_insert_ne, lookup_delete_ne; [done|intros ->; congruence..].
  - intros a t q Ha. apply (Ho a t _ Ha). intros ->. congruence.
  - rewrite (msum_update _ _ _ _ _ _ _ Hdel), (msum_delete _ _ _ _ _ Hb). unfold f_all. lia.
  - rewrite (msum_update _ _ _ _ _ _ _ Hdel), (msum_delete _ _ _ _ _ Hb). cbn. lia.
Qed.
Lemma set_used_word k b s :
  hdr (mem k) b s Held -> s mod 2 = 0 -> 0 <= s <= 67108864 ->
  hdr (mem (set_used b k)) b s Used /\ (forall x, ~ (b <= x < b + 16) -> byte (mem (set_used b k)) x = byte (mem k) x).
Proof.
  intros Hh He Hr. assert (Hu : Z.lor (size_and_flags b k) 1 = s + 1).
  { unfold size_and_flags. destruct Hh as [-> | ->]; [by apply even_lor|by apply odd_lor]. }
  unfold set_used. rewrite Hu. cbn [mem store set_mem hdr]. split_and!.
  - rewrite ld_st_out, word_st by lia. done.
  - by rewrite word4_st.
  - intros x Hx. rewrite !byte_st_out by lia. done.
Qed.

Lemma make_block_word k b s :
  0 <= s <= 67108864 ->
  hdr (mem (make_block b s k)) b s (In Global) /\ (forall x, ~ (b <= x < b + 16) -> byte (mem (make_block b s k)) x = byte (mem k) x).
Proof.
  intros Hr. unfold make_block. cbn [mem store set_mem hdr]. split_and!.
  - by rewrite word_st by lia.
  - rewrite !ld_st_out by lia. by rewrite word4_st.
  - intros x Hx. rewrite !byte_st_out by lia. done.
Qed.

(** The front of a held block is put to use, the rest becomes a held block. *)
Lemma ksplit_ok k B ch b s r :
  kinv k B ch -> B !! b = Some (s, Held) -> r mod 16 = 0 -> 32 <= r -> 32 <= s - r ->
  let k' := make_block (b + r) (s - r) (set_used b (set_size b r k)) in
  kinv k' (<[b + r := (s - r, Held)]> (<[b := (r, Used)]> B)) ch /\ kept B k k' /\ B !! (b + r) = None.
Proof.
  intros K Hb Hm Hr1 Hr2 k'. pose proof (ki_blocks _ _ _ K) as Bi. destruct (ki_geo _ _ _ _ _ _ K Hb) as (Hb1 & Hb2 & Hb3 & Hb4 & Hb5 & _).
  destruct (hdr_word _ _ _ _ _ _ K Hb) as (_ & _ & Hs & _).
  destruct (set_size_word k B ch b s Held r K Hb Hm ltac:(lia)) as (Hh1 & Hx1).
  destruct (set_used_word (set_size b r k) b r Hh1 ltac:(div_lia) ltac:(lia)) as (Hh2 & Hx2).
  destruct (make_block_word (set_used b (set_size b r k)) (b + r) (s - r) ltac:(lia)) as (Hh3 & Hx3). fold k' in Hh3, Hx3.
  assert (Hh4 : hdr (mem k') b r Used) by (eapply hdr_ext; [| |exact Hh2]; apply ld_ext; intros; apply Hx3; lia).
  assert (Hx : forall x, ~ (b <= x < b + s) -> byte (mem k') x = byte (mem k) x) by (intros x ?; rewrite Hx3, Hx2, Hx1; [done|lia..]).
  assert (Hnone : B !! (b + r) = None).
  { destruct (B !! (b + r)) as [[t ka]|] eqn:E; [|done]. pose proof (bi_dis _ _ _ Bi _ _ _ _ _ _ Hb E). lia. }
  pose proof (outside _ _ _ _ _ _ _ Bi Hb Hx) as Ho. split; [|split; [split; [|done]|done]]; [|eapply data_outside; [exact Bi|exact Hb|done|exact Hx]].
  assert (Hne : b + r <> b) by lia. assert (Hlk : forall a t ka, a <> b -> B !! a = Some (t, ka) -> a + t <= b \/ b + s <= a).
  { intros a t ka Hab Ha. by eapply bi_apart. }
  change k' with (set_mem (mem k') k). apply (reshape k B); [done| | | | |].
  - constructor.
    + intros a t ka Ha. pose proof (bi_geo _ _ _ Bi _ _ _ Hb) as (_ & _ & _ & _ & Hmax & Hin). blk Ha; [| |by eapply (bi_geo _ _ _ Bi)].
      * split_and!; [div_lia|div_lia|lia|lia|lia|]. intros x Hxr. apply Hin. lia.
      * split_and!; [done|done|lia|lia|lia|]. intros x Hxr. apply Hin. lia.
    + intros a t ka Ha. blk Ha; [left; apply Hh3|exact Hh4|]. eapply (proj1 (Ho a t ka Ha ltac:(done))), (bi_hdr _ _ _ Bi _ _ _ Ha).
    + intros a t ka c u kc Ha Hc Hac. blk Ha; blk Hc; try lia; try (by eapply (bi_dis _ _ _ Bi a _ _ c));
        repeat match goal with H : B !! ?x = Some _, Hn : _ <> ?x |- _ => pose proof (Hlk _ _ _ (not_eq_sym Hn) H); destruct (ki_geo _ _ _ _ _ _ K H) as (_ & _ & ? & _); clear H end; lia.
  - intros a t q. split; intros Ha; [blk Ha; done|]. rewrite !lookup_insert_ne; [done|intros E; subst a; congruence..].
  - intros a t q Ha. apply (Ho a t _ Ha). intros ->. congruence.
  - rewrite msum_insert by (by rewrite lookup_insert_ne). rewrite (msum_update _ _ _ _ _ _ _ Hb). unfold f_all. lia.
  - rewrite msum_insert by (by rewrite lookup_insert_ne). rewrite (msum_update _ _ _ _ _ _ _ Hb). cbn. lia.
Qed.
End Ops.

End KHeapOps.
