(* ===== verification/KHeapMerge.v ===== *)
(** * Coalescing of the kernel heap

    Both ways in which [coalesce] joins free blocks keep the invariant, the
    blocks in use and in the arenas, and the number of free bytes; the usual way,
    which sorts at most 256 blocks, leaves no two free blocks side by side. *)

From S2P Require Import Prelude Buddy Frames Memory KHeap KHeapInv KHeapOps.
From stdpp Require Import sorting.
#[local] Open Scope Z_scope.

Module KHeapMerge.
Import Buddy(PAGE_SIZE).
Import Frames Memory KHeap KHeapInv KHeapOps.

(** ** Sorting *)

Lemma insert_key_perm key l : insert_key key l ≡ₚ key :: l.
Proof. induction l as [|b l IH]; [done|]. cbn [insert_key]. destruct (key <? b); [|done]. rewrite IH. apply Permutation_swap. Qed.

Lemma insert_key_sorted key l : key ∉ l -> StronglySorted Z.gt l -> StronglySorted Z.gt (insert_key key l).
Proof.
  induction l as [|b l IH]; intros Hk Hs; cbn [insert_key]; [by repeat constructor|]. apply StronglySorted_inv in Hs as [Hs Hb].
  destruct (Z.ltb_spec key b).
  - constructor; [apply IH; [set_solver|done]|]. apply Forall_forall. intros x. rewrite insert_key_perm, elem_of_cons.
    rewrite Forall_forall in Hb. intros [->|Hx]; [lia|by apply Hb].
  - assert (b < key) by (assert (key <> b) by set_solver; lia). constructor; [by constructor|]. constructor; [lia|].
    rewrite Forall_forall in *. intros x Hx. specialize (Hb x Hx). lia.
Qed.

Lemma sort_fold_perm l acc : foldl (fun s key => insert_key key s) acc l ≡ₚ l ++ acc.
Proof.
  revert acc. induction l as [|a l IH]; intros acc; [done|]. cbn [foldl]. rewrite IH, insert_key_perm. cbn. by rewrite Permutation_middle.
Qed.

Lemma sort_fold_sorted l acc :
  NoDup (l ++ acc) -> StronglySorted Z.gt acc -> StronglySorted Z.gt (foldl (fun s key => insert_key key s) acc l).
Proof.
  revert acc. induction l as [|a l IH]; intros acc Hnd Hs; [done|]. cbn [foldl]. cbn in Hnd. apply NoDup_cons in Hnd as [Ha Hnd]. apply IH.
  - rewrite insert_key_perm, <- Permutation_middle. by apply NoDup_cons.
  - apply insert_key_sorted; [set_solver|done].
Qed.

Lemma sorted_reverse l : StronglySorted Z.gt l -> StronglySorted Z.lt (reverse l).
Proof.
  induction l as [|a l IH]; intros Hs; [constructor|]. apply StronglySorted_inv in Hs as [Hs Ha]. rewrite reverse_cons.
  apply StronglySorted_app_2; [|by apply IH|by repeat constructor]. intros x y Hx Hy. apply list_elem_of_singleton in Hy as ->.
  rewrite Forall_forall in Ha. rewrite elem_of_reverse in Hx. specialize (Ha x Hx). lia.
Qed.

Lemma sort_blocks_ok l : NoDup l -> StronglySorted Z.lt (sort_blocks l) /\ sort_blocks l ≡ₚ l.
Proof.
  intros Hnd. unfold sort_blocks. split.
  - apply sorted_reverse, sort_fold_sorted; [by rewrite app_nil_r|constructor].
  - rewrite reverse_Permutation, sort_fold_perm. by rewrite app_nil_r.
Qed.

(** ** Effect on the blocks *)

Definition idle (kd : kind) : Prop := kd = Held \/ kd = In Global.
Definition f_idle (s : Z) (kd : kind) : Z := match kd with Held | In Global => s | _ => 0 end.
Definition settled (B : Blocks) : Prop := forall a s, B !! a <> Some (s, Held).

(** The blocks in use and in the arenas stay, the rest has as many bytes. *)
Definition eff (B B' : Blocks) : Prop :=
  (forall a s kd, ~ idle kd -> B' !! a = Some (s, kd) <-> B !! a = Some (s, kd)) /\
  msum f_idle B' = msum f_idle B /\ msum f_used B' = msum f_used B.
Lemma eff_refl B : eff B B.
Proof. done. Qed.
Lemma eff_trans B1 B2 B3 : eff B1 B2 -> eff B2 B3 -> eff B1 B3.
Proof. intros (H1 & E1 & U1) (H2 & E2 & U2). split_and!; [|congruence..]. intros a s kd Hk. by rewrite H2, H1. Qed.

Lemma eff_retag B b s kd kd' : B !! b = Some (s, kd) -> idle kd -> idle kd' -> eff B (<[b := (s, kd')]> B).
Proof.
  intros Hb Hk Hk'. split_and!.
  - intros a t ka Hka. rewrite lookup_insert_Some. split; [|intros Ha; right; split; [|done]; intros ->; congruence].
    intros [[-> [= -> ->]]|[_ ?]]; done.
  - rewrite (msum_update _ _ _ _ _ _ _ Hb). destruct Hk as [-> | ->], Hk' as [-> | ->]; cbn; lia.
  - rewrite (msum_update _ _ _ _ _ _ _ Hb). destruct Hk as [-> | ->], Hk' as [-> | ->]; cbn; lia.
Qed.

Lemma eff_absorb B p sp b sb :
  B !! p = Some (sp, Held) -> B !! b = Some (sb, Held) -> p <> b -> eff B (<[p := (sp + sb, Held)]> (delete b B)).
Proof.
  intros Hp Hb Hne. assert (Hd : delete b B !! p = Some (sp, Held)) by (by rewrite lookup_delete_ne). split_and!.
  - intros a t ka Hka. rewrite lookup_insert_Some, lookup_delete_Some. split.
    + intros [[_ [= _ <-]]|(_ & _ & ?)]; [exfalso; apply Hka; by left|done].
    + intros Ha. right. split_and!; [| |done]; intros ->; apply Hka; left; congruence.
  - rewrite (msum_update _ _ _ _ _ _ _ Hd), (msum_delete f_idle B b sb Held Hb). cbn. lia.
  - rewrite (msum_update _ _ _ _ _ _ _ Hd), (msum_delete f_used B b sb Held Hb). cbn. lia.
Qed.

Lemma eff_used B B' : eff B B' -> forall a s, B' !! a = Some (s, Used) <-> B !! a = Some (s, Used).
Proof. intros [H _] a s. apply H. by intros [?|?]. Qed.

Section Merge.
Context {F : Type} {alloc : FrameAllocator F} {laws : FrameLaws F}.
Implicit Types (k : KHeap F) (B : Blocks) (ch : place -> Z -> list Z).

(** ** The pass over the sorted blocks *)

Definition held_in B (l : list Z) : Prop := forall a, a ∈ l <-> exists s, B !! a = Some (s, Held).
(** No block of [l] ends where a block of [l'] starts. *)
Definition apart B (l l' : list Z) : Prop := forall x y s, x ∈ l -> y ∈ l' -> B !! x = Some (s, Held) -> x + s <> y.

Lemma merge_blocks_ok blocks kept_ k B ch :
  kinv k B ch -> held_in B (kept_ ++ blocks) -> StronglySorted Z.gt kept_ -> StronglySorted Z.lt blocks ->
  (forall x y, x ∈ kept_ -> y ∈ blocks -> x < y) -> apart B (tail kept_) (kept_ ++ blocks) ->
  exists k' B' l, merge_blocks blocks kept_ k = (k', l) /\ kinv k' B' ch /\ held_in B' l /\ NoDup l /\ apart B' l l /\ eff B B' /\ kept B k k'.
Proof.
  revert kept_ k B. induction blocks as [|b blocks IH]; intros kp k B K Hh Hs1 Hs2 Hlt Hap; cbn [merge_blocks].
  - rewrite app_nil_r in *. exists k, B, (reverse kp). split_and!; try done.
    + intros a. by rewrite elem_of_reverse.
    + rewrite reverse_Permutation. clear -Hs1. induction Hs1 as [|a l Hs IH Ha]; constructor; [|done]. intros Hin. rewrite Forall_forall in Ha. specialize (Ha a Hin). lia.
    + intros x y s Hx Hy Hbx. rewrite elem_of_reverse in Hx, Hy. destruct kp as [|p kp]; [by apply not_elem_of_nil in Hx|]. cbn [tail] in Hap.
      apply elem_of_cons in Hx as [->|Hx]; [|by eapply Hap]. destruct (ki_geo _ _ _ _ _ _ K Hbx). apply StronglySorted_inv in Hs1 as [_ Hp].
      rewrite Forall_forall in Hp. apply elem_of_cons in Hy as [->|Hy]; [lia|]. specialize (Hp y Hy). lia.
  - apply StronglySorted_inv in Hs2 as [Hs2 Hb2]. rewrite Forall_forall in Hb2. destruct kp as [|p kp].
    { apply (IH [b]); [done..|by repeat constructor|done| |intros x y s Hx; by apply not_elem_of_nil in Hx]. intros x y Hx Hy. apply list_elem_of_singleton in Hx as ->. by apply Hb2. }
    cbn [tail] in Hap. destruct (proj1 (Hh p) ltac:(set_solver)) as (sp & Hp). destruct (proj1 (Hh b) ltac:(set_solver)) as (sb & Hb).
    destruct (hdr_word _ _ _ _ _ _ K Hp) as (-> & _ & Hrp & _). destruct (hdr_word _ _ _ _ _ _ K Hb) as (-> & _ & Hrb & _).
    assert (Hpb : p < b) by (apply Hlt; set_solver). apply StronglySorted_inv in Hs1 as [Hs1 Hp1]. pose proof Hp1 as Hp1'. rewrite Forall_forall in Hp1'.
    destruct (Z.eqb_spec (p + sp) b) as [E|E].
    + rewrite u64_small by lia. destruct (absorb_ok _ _ _ _ _ _ _ K Hp Hb E) as (K1 & P1). pose proof (eff_absorb B p sp b sb Hp Hb ltac:(lia)) as F1.
      destruct (IH (p :: kp) _ _ K1) as (k' & B' & l & E' & K' & H1 & H2 & H3 & F' & P'); try done.
      * intros a. specialize (Hh a). rewrite !elem_of_app, !elem_of_cons in *. setoid_rewrite lookup_insert_Some. setoid_rewrite lookup_delete_Some.
        split; [intros Ha|naive_solver lia]. destruct (decide (a = p)) as [->|Hne]; [exists (sp + sb); by left|].
        destruct (proj1 Hh ltac:(naive_solver)) as (s & Hs). exists s. right. split; [done|]. split; [|done]. intros <-.
        destruct Ha as [[?|Ha]|Ha]; [lia| |]; [specialize (Hp1' b Ha); lia|specialize (Hb2 b Ha); lia].
      * by constructor.
      * intros x y Hx Hy. apply Hlt; [done|set_solver].
      * cbn [tail]. intros x y s Hx Hy Hbx. specialize (Hp1' x Hx). rewrite lookup_insert_ne, lookup_delete_ne in Hbx by lia. eapply Hap; [done| |done]. set_solver.
      * exists k', B', l. split_and!; try done; [by eapply eff_trans|]. eapply kept_trans; [exact P1|]. eapply kept_sub; [|exact P']. intros a s. by apply (eff_used _ _ F1).
    + destruct (IH (b :: p :: kp) k B K) as (k' & B' & l & H); try done; [| | | |by exists k', B', l].
      * intros a. rewrite <- (Hh a). rewrite !elem_of_app, !elem_of_cons. naive_solver.
      * constructor; [by constructor|]. constructor; [lia|]. rewrite Forall_forall. intros x Hx. specialize (Hp1' x Hx). lia.
      * intros x y Hx Hy. apply elem_of_cons in Hx as [->|Hx]; [by apply Hb2|]. apply Hlt; [done|set_solver].
      * cbn [tail]. intros x y s Hx Hy Hbx. apply elem_of_cons in Hx as [->|Hx]; [|eapply Hap; [done| |done]; set_solver].
        assert (s = sp) as -> by congruence. pose proof (bi_dis _ _ _ (ki_blocks _ _ _ K) _ _ _ _ _ _ Hp Hb Hpb).
        destruct (ki_geo _ _ _ _ _ _ K Hp) as (_ & _ & ? & _). rewrite elem_of_app, !elem_of_cons in Hy. destruct Hy as [[->|[->|Hy]]|Hy]; [done|lia| |].
        -- specialize (Hp1' y Hy). lia.
        -- specialize (Hb2 y Hy). lia.
Qed.

(** ** Taking the lists apart and building them again *)

Definition hold_kind (kd : kind) : kind := match kd with In Global => Held | _ => kd end.
Definition hold B : Blocks := (fun '(s, kd) => (s, hold_kind kd)) <$> B.

Lemma hold_lookup B a s kd : hold B !! a = Some (s, kd) <-> exists kd0, B !! a = Some (s, kd0) /\ kd = hold_kind kd0.
Proof.
  unfold hold. rewrite lookup_fmap. destruct (B !! a) as [[t ka]|]; cbn; [|naive_solver]. split; [intros [= -> <-]; by exists ka|naive_solver].
Qed.

Lemma msum_hold f B : msum f (hold B) = msum (fun s kd => f s (hold_kind kd)) B.
Proof.
  unfold hold. revert B. apply (map_ind (fun B => msum f ((fun '(s, kd) => (s, hold_kind kd)) <$> B) = msum (fun s kd => f s (hold_kind kd)) B)).
  - rewrite fmap_empty. unfold msum. by rewrite !map_fold_empty.
  - intros a [s kd] B Hn IH. rewrite fmap_insert, !msum_insert, IH; [done|done|]. by rewrite lookup_fmap, Hn.
Qed.

Lemma msum_ext f g B : (forall a s kd, B !! a = Some (s, kd) -> f s kd = g s kd) -> msum f B = msum g B.
Proof. intros H. apply Z.le_antisymm; apply msum_le; intros a s kd Ha; rewrite (H a s kd Ha); lia. Qed.

Lemma msum_zero B : msum (fun _ _ => 0) B = 0.
Proof.
  revert B. apply (map_ind (fun B => msum (fun _ _ => 0) B = 0)); [unfold msum; by rewrite map_fold_empty|].
  intros a [s kd] B Hn IH. by rewrite msum_insert.
Qed.

Lemma eff_hold B : eff B (hold B).
Proof.
  split_and!.
  - intros a s kd Hk. rewrite hold_lookup. split; [|intros Ha; exists kd; split; [done|]].
    + intros ([| |[|]] & Ha & ->); try done; exfalso; apply Hk; by left.
    + destruct kd as [| |[|]]; try done. exfalso. apply Hk. by right.
  - rewrite msum_hold. apply msum_ext. by intros a s [| |[|]] _.
  - rewrite msum_hold. apply msum_ext. by intros a s [| |[|]] _.
Qed.

Lemma clear_lists_ok k B ch :
  kinv k B ch -> kinv (clear_lists k) (hold B) (fun p c => match p with Global => [] | _ => ch p c end).
Proof.
  intros K. assert (Hin : forall a s p, hold B !! a = Some (s, In p) <-> B !! a = Some (s, In p) /\ p <> Global).
  { intros a s p. rewrite hold_lookup. split; [intros ([| |[|]] & ? & ?); naive_solver|]. intros [Ha Hp]. exists (In p). split; [done|]. by destruct p. }
  constructor.
  - pose proof (ki_blocks _ _ _ K) as Bi. constructor.
    + intros a s kd Ha. apply hold_lookup in Ha as (kd0 & Ha & _). by apply (bi_geo _ _ _ Bi a s kd0).
    + intros a s kd Ha. apply hold_lookup in Ha as (kd0 & Ha & ->). pose proof (bi_hdr _ _ _ Bi _ _ _ Ha) as Hh.
      destruct kd0 as [| |[|]]; try done. left. apply Hh.
    + intros a s kd b t kd' Ha Hb. apply hold_lookup in Ha as (kd0 & Ha & _). apply hold_lookup in Hb as (kd1 & Hb & _). by eapply (bi_dis _ _ _ Bi).
  - intros [|i] c a Hv; [|rewrite (ki_memb _ _ _ K) by done]; setoid_rewrite Hin; [|naive_solver]. split; [by intros ?%not_elem_of_nil|naive_solver].
  - intros a s p Ha. apply Hin in Ha as [Ha _]. by apply (ki_place _ _ _ K a).
  - intros [|i] c Hv; [|by apply (ki_chain _ _ _ K (Arena i))]. split; [constructor|]. exists 0. split; [|done]. apply lookup_replicate. split; [done|].
    cbn in Hv. unfold NUM_SIZE_CLASSES in *. lia.
  - intros [|i] c Hv; [|by apply (ki_count _ _ _ K (Arena i))]. apply lookup_replicate. split; [done|]. cbn in Hv. unfold NUM_SIZE_CLASSES in *. lia.
  - rewrite msum_hold. apply (ki_size _ _ _ K).
  - cbn. rewrite msum_hold, (msum_ext _ (fun _ _ => 0)); [by rewrite msum_zero|by intros a s [| |[|]] _].
  - by apply (same_rest_rinv k), K.
  - done.
Qed.

Lemma collect_list_ok m l n b acc k :
  mem k = m -> kseg m b l 0 -> (forall a, a ∈ l -> 0 < a) -> (length acc + length l <= 256)%nat -> (length l < n)%nat -> collect_list n b acc k = Ok (acc ++ l).
Proof.
  intros Hm. revert b acc n. induction l as [|a l IH]; intros b acc [|n] Hs Hp Hl Hn; cbn [length] in *; try lia; cbn [collect_list].
  - cbn in Hs. subst b. by rewrite app_nil_r.
  - destruct Hs as [-> Hs]. destruct (Z.eqb_spec a 0) as [->|]; [specialize (Hp 0 (list_elem_of_here _ _)); lia|]. unfold MAX_COALESCE_BLOCKS.
    destruct (Z.leb_spec 256 (Z.of_nat (length acc))); [lia|]. cbn [orb]. unfold next. rewrite Hm, IH; [by rewrite <- app_assoc|done| |rewrite length_app; cbn; lia|lia].
    intros x Hx. apply Hp. by apply list_elem_of_further.
Qed.

(** The class lists, in the order of the array. *)
Definition class_lists ch : list (list Z) := ch Global <$> seqZ 0 9.

Lemma class_lookup ch (i : nat) : class_lists ch !! i = if decide (i < 9)%nat then Some (ch Global (Z.of_nat i)) else None.
Proof.
  unfold class_lists. rewrite list_lookup_fmap. destruct (decide (i < 9)%nat); [rewrite lookup_seqZ_lt by lia; done|by rewrite lookup_seqZ_ge by lia].
Qed.

Lemma class_heads k B ch : kinv k B ch -> Forall2 (fun h l => kseg (mem k) h l 0) (free_lists k) (class_lists ch).
Proof.
  intros K. apply Forall2_same_length_lookup_2; [unfold class_lists; rewrite length_fmap, length_seqZ; apply (ki_len _ _ _ K)|]. intros i h l Hh Hl. rewrite class_lookup in Hl.
  destruct (decide (i < 9)%nat); [|done]. simplify_eq. destruct (ki_chain _ _ _ K Global (Z.of_nat i)) as (_ & h' & Hh' & Hs); [cbn; unfold NUM_SIZE_CLASSES; lia|].
  cbn in Hh'. rewrite Nat2Z.id in Hh'. by simplify_eq.
Qed.

Lemma class_counts k B ch : kinv k B ch -> free_list_counts k = (fun l => Z.of_nat (length l)) <$> class_lists ch.
Proof.
  intros K. apply list_eq. intros i. rewrite list_lookup_fmap, class_lookup. destruct (decide (i < 9)%nat); cbn.
  - pose proof (ki_count _ _ _ K Global (Z.of_nat i)) as Hc. cbn in Hc. rewrite Nat2Z.id in Hc. apply Hc. unfold NUM_SIZE_CLASSES. lia.
  - apply lookup_ge_None. rewrite (proj2 (ki_len _ _ _ K)). lia.
Qed.

Lemma collect_fold k n hs ls acc :
  (256 < n)%nat -> Forall2 (fun h l => kseg (mem k) h l 0) hs ls -> (forall l a, l ∈ ls -> a ∈ l -> 0 < a) ->
  (length acc + length (concat ls) <= 256)%nat ->
  foldM (fun blocks b => collect_list n b blocks k) hs acc = Ok (acc ++ concat ls).
Proof.
  intros Hn Hf. revert acc. induction Hf as [|h l hs ls Hh _ IH]; intros acc Hp Hl; [by rewrite app_nil_r|]. cbn [foldM concat] in *. rewrite length_app in Hl.
  rewrite (collect_list_ok (mem k) l); [|done|done|intros a; apply Hp, list_elem_of_here|lia|lia].
  cbn [mbind res_bind]. rewrite IH; [by rewrite <- app_assoc|intros l' a Hl'; by apply Hp, list_elem_of_further|rewrite length_app; lia].
Qed.

Lemma total_sum cs n : Forall (fun c => 0 <= c <= 4194304) cs -> 0 <= n -> n + 4194304 * Z.of_nat (length cs) <= 2 ^ 60 ->
  foldl (fun n c => u64 (n + c)) n cs = n + foldr Z.add 0 cs.
Proof.
  change (2 ^ 60) with 1152921504606846976. revert n. induction cs as [|c cs IH]; intros n Hf Hn Hb; cbn [foldl foldr length] in *; [lia|].
  apply Forall_cons in Hf as [Hc Hf]. rewrite u64_small by lia. rewrite IH; [lia|done|lia|lia].
Qed.

Lemma length_concat_sum (ls : list (list Z)) : foldr Z.add 0 ((fun l => Z.of_nat (length l)) <$> ls) = Z.of_nat (length (concat ls)).
Proof. induction ls as [|l ls IH]; [done|]. cbn. rewrite length_app, IH. lia. Qed.

Lemma concat_elem (ls : list (list Z)) a : a ∈ concat ls <-> exists l, l ∈ ls /\ a ∈ l.
Proof. induction ls as [|l ls IH]; cbn; [split; [by intros ?%not_elem_of_nil|intros (l & ?%not_elem_of_nil & _); done]|]. rewrite elem_of_app, IH. set_solver. Qed.

Lemma class_lists_elem k B ch a : kinv k B ch -> a ∈ concat (class_lists ch) <-> exists s, B !! a = Some (s, In Global).
Proof.
  intros K. rewrite concat_elem. split.
  - intros (l & Hl & Ha). unfold class_lists in Hl. apply list_elem_of_fmap in Hl as (c & -> & Hc). apply elem_of_seqZ in Hc.
    apply (ki_memb _ _ _ K) in Ha as (s & ? & _); [by exists s|]. cbn. unfold NUM_SIZE_CLASSES. lia.
  - intros (s & Hs). exists (ch Global (get_size_class s)). split.
    + apply list_elem_of_fmap. exists (get_size_class s). split; [done|]. apply elem_of_seqZ. pose proof (get_size_class_range s). lia.
    + apply (ki_memb _ _ _ K); [apply class_valid|]. by exists s.
Qed.

Lemma class_lists_nodup k B ch : kinv k B ch -> NoDup (concat (class_lists ch)).
Proof.
  intros K. unfold class_lists. assert (H : forall c, c ∈ seqZ 0 9 -> valid Global c) by (intros c Hc; apply elem_of_seqZ in Hc; cbn; unfold NUM_SIZE_CLASSES; lia).
  pose proof (NoDup_seqZ 0 9) as Hnd. revert Hnd H. generalize (seqZ 0 9) as cs. induction cs as [|c cs IH]; intros Hnd H; cbn; [constructor|].
  apply NoDup_cons in Hnd as [Hc Hnd]. apply NoDup_app. split_and!; [apply (ki_chain _ _ _ K), H; set_solver| |apply IH; [done|]; intros; apply H; set_solver].
  intros a Ha Hin. apply concat_elem in Hin as (l & Hl & Hal). apply list_elem_of_fmap in Hl as (c' & -> & Hc').
  apply (ki_memb _ _ _ K) in Ha as (s & Hs & Ec); [|apply H; set_solver]. apply (ki_memb _ _ _ K) in Hal as (t & Ht & Ec'); [|apply H; set_solver]. simplify_eq. done.
Qed.

(** What coalescing keeps; it recomputes the number of free bytes. *)
Definition holds B k k' : Prop :=
  same_data B (mem k) (mem k') /\ same_rest k k' /\ total_allocated k' = total_allocated k /\ percpu_arenas k' = percpu_arenas k.
Lemma kept_holds B k k' : kept B k k' -> holds B k k'.
Proof. by intros (? & ? & [? _] & ?). Qed.
Lemma holds_trans B k1 k2 k3 : holds B k1 k2 -> holds B k2 k3 -> holds B k1 k3.
Proof.
  intros (D1 & R1 & T1 & A1) (D2 & R2 & T2 & A2). split_and!; [by eapply same_data_trans|by eapply same_rest_trans|congruence|congruence].
Qed.
Lemma holds_sub B B' k k' : eff B B' -> holds B' k k' -> holds B k k'.
Proof. intros H (D & ?). split; [|done]. eapply same_data_sub; [|exact D]. intros a s. by apply (eff_used _ _ H). Qed.
Lemma kept_eff B B' k k' : eff B B' -> kept B' k k' -> kept B k k'.
Proof. intros H. apply kept_sub. intros a s. by apply (eff_used _ _ H). Qed.

Lemma free_range k B ch : kinv k B ch -> 0 <= msum f_free B /\ msum f_free B + msum f_used B <= 67108864 /\ 0 <= msum f_used B.
Proof.
  intros K. pose proof (count_range _ _ _ K) as [_ Hr]. destruct (ki_size _ _ _ K) as (Hs & _). rewrite Hs in Hr.
  assert (Hg : forall a s kd, B !! a = Some (s, kd) -> 0 <= s) by (intros a s kd Ha; destruct (ki_geo _ _ _ _ _ _ K Ha); lia).
  assert (H1 : msum (fun s kd => f_free s kd + f_used s kd) B <= msum f_all B).
  { apply msum_le. intros a s kd Ha. specialize (Hg a s kd Ha). unfold f_free, f_used, f_all. destruct kd as [| |[|]]; lia. }
  assert (H2 : msum (fun s kd => f_free s kd + f_used s kd) B = msum f_free B + msum f_used B).
  { clear. revert B. apply (map_ind (fun B => msum (fun s kd => f_free s kd + f_used s kd) B = msum f_free B + msum f_used B)).
    - unfold msum. by rewrite !map_fold_empty.
    - intros a [s kd] B Hn IH. rewrite !msum_insert by done. lia. }
  split_and!; [apply msum_nonneg|lia|apply msum_nonneg]; intros a s kd Ha; specialize (Hg a s kd Ha); unfold f_free, f_used; destruct kd as [| |[|]]; lia.
Qed.

Lemma rebuild_ok l k B ch :
  kinv k B ch -> held_in B l -> NoDup l -> total_free k = msum f_free B ->
  exists k' B' ch', foldM rebuild_one l k = Ok k' /\ kinv k' B' ch' /\ settled B' /\ total_free k' = msum f_free B' /\
    (forall a s, B' !! a = Some (s, In Global) <-> B !! a = Some (s, Held) \/ B !! a = Some (s, In Global)) /\ eff B B' /\ holds B k k'.
Proof.
  revert k B ch. induction l as [|b l IH]; intros k B ch K Hh Hnd Ht; cbn [foldM].
  - exists k, B, ch. assert (Hs : settled B) by (intros a s Ha; by apply (not_elem_of_nil a), Hh; exists s). split_and!; try done. intros a s. specialize (Hs a s). naive_solver.
  - apply NoDup_cons in Hnd as [Hb Hnd]. destruct (proj1 (Hh b) (list_elem_of_here _ _)) as (s & Hs).
    destruct (set_free_ok _ _ _ _ _ K Hs) as (K1 & Hhd & P1). destruct (hdr_word _ _ _ _ _ _ K1 Hs) as (Es & _).
    destruct (push_ok _ _ _ _ _ K1 Hs Hhd) as (k2 & ch2 & E2 & K2 & P2).
    assert (Hs2 : (<[b := (s, In Global)]> B : Blocks) !! b = Some (s, In Global)) by apply lookup_insert_eq.
    destruct (hdr_word _ _ _ _ _ _ K2 Hs2) as (Es2 & _). pose proof (free_range _ _ _ K2) as Hr.
    assert (E1 : rebuild_one k b = Ok (set_totals (total_allocated k2) (u64 (total_free k2 + s)) k2)).
    { unfold rebuild_one. cbv zeta. rewrite Es, E2. cbn [mbind res_bind]. by rewrite Es2. }
    rewrite E1. cbn [mbind res_bind].
    assert (Ef : msum f_free (<[b := (s, In Global)]> B) = msum f_free B + s) by (rewrite (msum_update _ _ _ _ _ _ _ Hs); cbn; lia).
    pose proof (kept_trans _ _ _ _ P1 P2) as P12. pose proof P12 as (_ & _ & [_ Htf] & _).
    pose proof (eff_retag B b s Held (In Global) Hs (or_introl eq_refl) (or_intror eq_refl)) as F1.
    destruct (IH (set_totals (total_allocated k2) (u64 (total_free k2 + s)) k2) (<[b := (s, In Global)]> B) ch2) as (k' & B' & ch' & E & K' & St & Ht' & Hl & F' & P').
    + by apply kinv_totals.
    + intros a. specialize (Hh a). rewrite elem_of_cons in Hh. setoid_rewrite lookup_insert_Some. split.
      * intros Ha. destruct (proj1 Hh ltac:(by right)) as (t & Ht'). exists t. right. split; [|done]. by intros ->.
      * intros (t & [[_ ?]|[Hne Ha]]); [done|]. destruct (proj2 Hh ltac:(by exists t)); [congruence|done].
    + done.
    + cbn. rewrite Htf, Ht, u64_small by lia. lia.
    + exists k', B', ch'. split_and!; try done.
      * intros a t. rewrite Hl, !lookup_insert_Some. destruct (decide (a = b)) as [->|]; naive_solver.
      * by eapply eff_trans.
      * eapply holds_trans; [by apply kept_holds, P12|]. by eapply holds_sub.
Qed.

(** ** The pass over one class *)

Lemma merge_pass_ok k B ch c n l1 l2 :
  kinv k B ch -> settled B -> valid Global c -> ch Global c = l1 ++ l2 -> (length l2 < n)%nat ->
  exists k' B' ch' mg, merge_pass n (hd0 l2) k = Ok (k', mg) /\ kinv k' B' ch' /\ settled B' /\ eff B B' /\ kept B k k' /\
    msum f_count B' = msum f_count B - (if mg : bool then 1 else 0).
Proof.
  intros K St Hv. revert l1 n. induction l2 as [|a l2 IH]; intros l1 [|n] Hl Hn; cbn [length] in Hn; try lia; cbn [merge_pass hd0].
  { exists k, B, ch, false. rewrite Z.eqb_refl. split_and!; try done. lia. }
  destruct (step_list _ _ _ _ _ _ _ K Hv Hl) as (_ & H0 & _ & _ & Hl' & sa & Hsa & -> & _). destruct (Z.eqb_spec a 0); [lia|]. cbn [orb].
  assert (Hnx : next a k = hd0 l2).
  { pose proof (get_link_ok _ _ _ _ _ _ K Hv Hl') as E. rewrite link_snoc in E. by injection E. }
  rewrite Hnx. destruct l2 as [|b l2]; [exists k, B, ch, false; split_and!; try done; lia|]. cbn [hd0].
  destruct (step_list _ _ _ _ _ _ _ K Hv Hl') as (_ & Hb0 & _ & _ & _ & sb & Hsb & -> & _). destruct (Z.eqb_spec b 0); [lia|].
  destruct (Z.eqb_spec (a + sa) b) as [E|E]; [|by apply (IH (l1 ++ [a])); [|lia]].
  assert (Hab : a <> b) by (destruct (ki_geo _ _ _ _ _ _ K Hsa); lia).
  destruct (hdr_word _ _ _ _ _ _ K Hsa) as (_ & _ & Hra & _). destruct (hdr_word _ _ _ _ _ _ K Hsb) as (_ & _ & Hrb & _). rewrite u64_small by lia.
  destruct (remove_from_free_list_ok _ _ _ _ _ K Hsa) as (k1 & ch1 & -> & K1 & _ & P1). cbn [mbind res_bind].
  assert (Hsb1 : (<[a := (sa, Held)]> B : Blocks) !! b = Some (sb, In Global)) by (by rewrite lookup_insert_ne).
  destruct (remove_from_free_list_ok _ _ _ _ _ K1 Hsb1) as (k2 & ch2 & -> & K2 & _ & P2). cbn [mbind res_bind].
  set (B2 := <[b := (sb, Held)]> (<[a := (sa, Held)]> B) : Blocks) in *.
  assert (Ha2 : B2 !! a = Some (sa, Held)) by (unfold B2; rewrite lookup_insert_ne by done; apply lookup_insert_eq).
  assert (Hb2 : B2 !! b = Some (sb, Held)) by apply lookup_insert_eq.
  destruct (absorb_ok _ _ _ _ _ _ _ K2 Ha2 Hb2 E) as (K3 & P3). set (B3 := <[a := (sa + sb, Held)]> (delete b B2) : Blocks) in *.
  assert (Ha3 : B3 !! a = Some (sa + sb, Held)) by apply lookup_insert_eq.
  destruct (set_free_ok _ _ _ _ _ K3 Ha3) as (K4 & _ & P4). destruct (add_to_free_list_ok _ _ _ _ _ K4 Ha3) as (k5 & ch5 & -> & K5 & P5). cbn [mbind res_bind].
  assert (F2 : eff B B2).
  { eapply eff_trans; [apply (eff_retag B a sa (In Global) Held Hsa); [by right|by left]|]. apply (eff_retag _ b sb (In Global) Held Hsb1); [by right|by left]. }
  assert (F3 : eff B B3) by (eapply eff_trans; [exact F2|by apply eff_absorb]).
  exists k5, (<[a := (sa + sb, In Global)]> B3), ch5, true. split_and!; try done.
  - intros x t Hx. unfold B3, B2 in Hx. blk Hx; try done; by apply (St x t).
  - eapply eff_trans; [exact F3|]. apply (eff_retag B3 a _ Held (In Global) Ha3); [by left|by right].
  - eapply kept_trans; [exact P1|]. eapply kept_trans; [eapply kept_eff; [|exact P2]; apply (eff_retag B a sa (In Global) Held Hsa); [by right|by left]|].
    eapply kept_trans; [by eapply kept_eff, P3|]. eapply kept_trans; [by eapply kept_eff, P4|]. by eapply kept_eff, P5.
  - rewrite (msum_update _ _ _ _ _ _ _ Ha3). unfold B3. rewrite (msum_update _ _ a sa Held) by (by rewrite lookup_delete_ne).
    pose proof (msum_delete f_count B2 b sb Held Hb2) as Hd. unfold B2 in Hd at 1.
    rewrite (msum_update _ _ _ _ _ _ _ Hsb1), (msum_update _ _ _ _ _ _ _ Hsa) in Hd. cbn in Hd |- *. lia.
Qed.

Lemma merge_class_ok k B ch c n :
  kinv k B ch -> settled B -> valid Global c -> msum f_count B < Z.of_nat n ->
  exists k' B' ch', merge_class n c k = Ok k' /\ kinv k' B' ch' /\ settled B' /\ eff B B' /\ kept B k k' /\ msum f_count B' <= msum f_count B.
Proof.
  revert k B ch. induction n as [|n IH]; intros k B ch K St Hv Hn; [pose proof (count_range _ _ _ K); lia|]. cbn [merge_class].
  pose proof (get_link_ok k B ch c [] (ch Global c) K Hv eq_refl) as Eg. cbn in Eg. rewrite Eg. cbn [mbind res_bind].
  destruct (merge_pass_ok k B ch c (fuel k) [] (ch Global c) K St Hv eq_refl) as (k1 & B1 & ch1 & mg & -> & K1 & St1 & F1 & P1 & Hc); [by apply (chain_fuel k B)|].
  cbn [mbind res_bind]. destruct mg; [|exists k1, B1, ch1; split_and!; try done; lia].
  destruct (IH k1 B1 ch1 K1 St1 Hv) as (k' & B' & ch' & E & K' & St' & F' & P' & Hc'); [lia|]. exists k', B', ch'. split_and!; try done; [by eapply eff_trans| |lia].
  eapply kept_trans; [exact P1|]. by eapply kept_eff.
Qed.

Lemma merge_classes_ok cs k B ch :
  kinv k B ch -> settled B -> (forall c, c ∈ cs -> valid Global c) ->
  exists k' B' ch', foldM (fun k c => merge_class (fuel k) c k) cs k = Ok k' /\ kinv k' B' ch' /\ settled B' /\ eff B B' /\ kept B k k'.
Proof.
  revert k B ch. induction cs as [|c cs IH]; intros k B ch K St Hv; [by exists k, B, ch|]. cbn [foldM].
  destruct (merge_class_ok k B ch c (fuel k) K St) as (k1 & B1 & ch1 & -> & K1 & St1 & F1 & P1 & _); [apply Hv, list_elem_of_here| |].
  { pose proof (count_fuel _ _ _ K). lia. }
  cbn [mbind res_bind]. destruct (IH k1 B1 ch1 K1 St1) as (k' & B' & ch' & E & K' & St' & F' & P'); [intros c' Hc'; by apply Hv, list_elem_of_further|].
  exists k', B', ch'. split_and!; try done; [by eapply eff_trans|]. eapply kept_trans; [exact P1|]. by eapply kept_eff.
Qed.

(** ** Both ways *)

Lemma idle_free B : settled B -> msum f_idle B = msum f_free B.
Proof. intros St. apply msum_ext. intros a s [| |[|]] Ha; try done. by apply St in Ha. Qed.

Definition no_neighbours B : Prop := forall a s b t, B !! a = Some (s, In Global) -> B !! b = Some (t, In Global) -> a + s <> b.

Lemma kcoalesce_ok k B ch :
  kinv k B ch -> settled B -> total_free k = msum f_free B ->
  exists k' B' ch', coalesce k = Ok k' /\ kinv k' B' ch' /\ settled B' /\ total_free k' = msum f_free B' /\ eff B B' /\ holds B k k' /\
    (free_block_count k <= MAX_COALESCE_BLOCKS -> no_neighbours B').
Proof.
  intros K St Ht. pose proof (class_lists_nodup _ _ _ K) as Hnd.
  assert (Htot : foldl (fun n c => u64 (n + c)) 0 (free_list_counts k) = Z.of_nat (length (concat (class_lists ch)))).
  { rewrite total_sum; [by rewrite (class_counts _ _ _ K), length_concat_sum| |lia|rewrite (proj2 (ki_len _ _ _ K)); done].
    rewrite (class_counts _ _ _ K). apply Forall_fmap, Forall_forall. intros l Hl. unfold class_lists in Hl. apply list_elem_of_fmap in Hl as (c & -> & Hc).
    apply elem_of_seqZ in Hc. pose proof (length_range _ _ _ Global c K). cbn in *. unfold NUM_SIZE_CLASSES in *. lia. }
  unfold coalesce. rewrite Htot. destruct (Z.leb_spec (Z.of_nat (length (concat (class_lists ch)))) 1) as [H1|H1].
  { exists k, B, ch. split_and!; try done. intros _ a s b t Ha Hb E. assert (a <> b) by (destruct (ki_geo _ _ _ _ _ _ K Ha); lia).
    assert (Ha' : a ∈ concat (class_lists ch)) by (apply (class_lists_elem _ _ _ _ K); by exists s).
    assert (Hb' : b ∈ concat (class_lists ch)) by (apply (class_lists_elem _ _ _ _ K); by exists t).
    destruct (concat (class_lists ch)) as [|x [|y l]]; [by apply not_elem_of_nil in Ha'|set_solver|cbn in H1; lia]. }
  unfold MAX_COALESCE_BLOCKS. destruct (Z.ltb_spec 256 (Z.of_nat (length (concat (class_lists ch))))) as [H2|H2].
  - destruct (merge_classes_ok (seqZ 0 NUM_SIZE_CLASSES) k B ch K St) as (k' & B' & ch' & -> & K' & St' & F' & P').
    { intros c Hc. apply elem_of_seqZ in Hc. cbn. unfold NUM_SIZE_CLASSES in *. lia. }
    cbn [mbind res_bind]. eexists _, B', ch'. split; [reflexivity|]. split; [by apply kinv_legacy|]. split; [done|]. split_and!; try done.
    + cbn. destruct P' as (_ & _ & [_ ->] & _). destruct F' as (_ & F' & _). rewrite !idle_free in F' by done. congruence.
    + by apply kept_holds.
    + intros Hf. rewrite (ki_number _ _ _ K) in Hf. pose proof (msum_length f_count 1 B _ Hnd ltac:(lia)) as Hle.
      assert (1 * Z.of_nat (length (concat (class_lists ch))) <= msum f_count B); [|lia]. apply Hle; [intros ? ? [| |[|]] _; cbn; lia|].
      intros a Ha. apply (class_lists_elem _ _ _ _ K) in Ha as (s & Ha). exists s, (In Global). done.
  - unfold collect. rewrite (collect_fold _ _ _ (class_lists ch) []); [|unfold MAX_COALESCE_BLOCKS; lia|by eapply class_heads| |cbn [length]; lia].
    2:{ intros l a Hl Ha. assert (Hin : a ∈ concat (class_lists ch)) by (apply concat_elem; by exists l).
        apply (class_lists_elem _ _ _ _ K) in Hin as (s & Hs). destruct (ki_geo _ _ _ _ _ _ K Hs). lia. }
    cbn [mbind res_bind app]. pose proof (clear_lists_ok _ _ _ K) as K1. destruct (sort_blocks_ok _ Hnd) as [Hsort Hperm].
    destruct (merge_blocks_ok (sort_blocks (concat (class_lists ch))) [] _ _ _ K1) as (k2 & B2 & l & -> & K2 & Hh & Hnl & Hap & F2 & P2).
    { cbn [app]. intros a. rewrite Hperm, (class_lists_elem _ _ _ _ K). setoid_rewrite hold_lookup. split; [intros (s & Ha); exists s, (In Global); done|].
      intros (s & kd & Ha & Hk). exists s. destruct kd as [| |[|]]; try done. by apply St in Ha. }
    { constructor. } { done. } { by intros x y ?%not_elem_of_nil. } { by intros x y s ?%not_elem_of_nil. }
    pose proof (eff_trans _ _ _ (eff_hold B) F2) as F12. assert (Hno : forall a s, B2 !! a <> Some (s, In Global)).
    { intros a s Ha. assert (Hv : valid Global (get_size_class s)) by apply class_valid. assert (Hin : a ∈ @nil Z) by (apply (ki_memb _ _ _ K2 Global _ a Hv); by exists s). by apply not_elem_of_nil in Hin. }
    destruct (rebuild_ok l k2 B2 _ K2 Hh Hnl) as (k3 & B3 & ch3 & -> & K3 & St3 & Ht3 & Hl3 & F3 & P3).
    { pose proof P2 as (_ & _ & [_ ->] & _). cbn. rewrite (msum_ext _ (fun _ _ => 0) B2); [by rewrite msum_zero|]. intros a s [| |[|]] Ha; try done. by apply Hno in Ha. }
    cbn [mbind res_bind]. eexists _, B3, ch3. split; [reflexivity|]. split; [by apply kinv_legacy|]. split; [done|]. split_and!; try done.
    + by eapply eff_trans.
    + assert (P0 : holds B k (clear_lists k)) by done. apply (holds_trans B k k2).
      * apply (holds_trans _ _ _ _ P0). eapply holds_sub; [apply eff_hold|]. by apply kept_holds.
      * eapply holds_sub; [exact F12|]. exact P3.
    + intros _ a s b t Ha Hb. apply Hl3 in Ha as [Ha|Ha]; [|by apply Hno in Ha]. apply Hl3 in Hb as [Hb|Hb]; [|by apply Hno in Hb].
      eapply Hap; [apply Hh; by exists s|apply Hh; by exists t|done].
Qed.
End Merge.

End KHeapMerge.
