(* ===== verification/KHeapAlloc.v ===== *)
(** * Searching, taking and growing in the kernel heap

    The parts of [kmalloc] and [kfree] on the invariant of [KHeapInv]: the first
    fit, the split of the block found, new pages, and the per-CPU arenas. *)

From S2P Require Import Prelude Buddy Frames Memory KHeap KHeapInv KHeapOps KHeapMerge.

Module KHeapAlloc.
Import Buddy(PAGE_SIZE).
Import Frames Memory KHeap KHeapInv KHeapOps KHeapMerge.

Section Alloc.
Context {F : Type} {alloc : FrameAllocator F} {laws : FrameLaws F}.
Implicit Types (k : KHeap F) (B : Blocks) (ch : place -> Z -> list Z).

(** ** First fit *)

(** What a search of the list of a class returns: the link to the first block
    that is large enough, if there is one. *)
Definition found B ch (r c : Z) (o : option link) : Prop :=
  match o with
  | None => True
  | Some pp => exists l1 b l2 s, pp = link_of c l1 /\ ch Global c = l1 ++ b :: l2 /\ B !! b = Some (s, In Global) /\ r <= s
  end.

Lemma search_list_ok k B ch r c n l1 l2 :
  kinv k B ch -> valid Global c -> ch Global c = l1 ++ l2 -> (length l2 < n)%nat ->
  exists o, search_list n r c (link_of c l1) k = Ok (k, o) /\ search_again_list n r (link_of c l1) k = Ok o /\ found B ch r c o /\
    (o = None -> forall a s, a ∈ l2 -> B !! a = Some (s, In Global) -> s < r).
Proof.
  intros K Hv. revert l1 n. induction l2 as [|a l2 IH]; intros l1 [|n] Hl Hn; cbn [length] in Hn; try lia; cbn [search_list search_again_list].
  - rewrite (step_end _ _ _ _ _ K Hv) by (by rewrite app_nil_r in Hl). exists None. split_and!; try done. by intros _ a s ?%not_elem_of_nil.
  - destruct (step_list _ _ _ _ _ _ _ K Hv Hl) as (-> & H0 & Hh & Hnx & Hl' & s & Hs & Es & Hc & Hm). cbn [mbind res_bind].
    destruct (Z.eqb_spec a 0); [lia|]. rewrite Hh, Hm, Es. cbn [negb orb]. destruct (Z.leb_spec r s).
    + exists (Some (link_of c l1)). split_and!; try done. by exists l1, a, l2, s.
    + rewrite Hnx. destruct (IH (l1 ++ [a]) n Hl') as (o & E1 & E2 & Hf & Hnone); [lia|]. exists o. split_and!; try done.
      intros Ho x t Hx Ht. apply elem_of_cons in Hx as [->|Hx]; [simplify_eq; lia|by eapply Hnone].
Qed.

Definition found_in B ch (r : Z) (o : option (Z * link)) : Prop :=
  match o with None => True | Some (c, pp) => valid Global c /\ found B ch r c (Some pp) end.

Lemma search_classes_ok k B ch r cs :
  kinv k B ch -> (forall c, c ∈ cs -> valid Global c) ->
  exists o, search_classes r cs k = Ok (k, o) /\ search_again r cs k = Ok o /\ found_in B ch r o /\
    (o = None -> forall a s, get_size_class s ∈ cs -> B !! a = Some (s, In Global) -> s < r).
Proof.
  intros K. induction cs as [|c cs IH]; intros Hv; cbn [search_classes search_again].
  { exists None. split_and!; try done. by intros _ a s ?%not_elem_of_nil. }
  assert (Hvc : valid Global c) by apply Hv, list_elem_of_here.
  destruct (search_list_ok k B ch r c (fuel k) [] (ch Global c) K Hvc eq_refl) as (o & E1 & E2 & Hf & Hn); [by apply (chain_fuel k B)|].
  change (link_of c []) with (Head c) in *. rewrite E1, E2. cbn [mbind res_bind]. destruct o as [pp|].
  - exists (Some (c, pp)). split_and!; done.
  - destruct IH as (o & -> & -> & Hf' & Hn'); [intros c' ?; by apply Hv, list_elem_of_further|]. exists o. split_and!; try done.
    intros Ho a s Hc Ha. apply elem_of_cons in Hc as [Hc|Hc]; [|by eapply Hn']. apply (Hn eq_refl a); [|done]. apply (ki_memb _ _ _ K); [done|]. by exists s.
Qed.

(** ** Accounting *)

Definition acct k B : Prop := total_allocated k = msum f_used B /\ total_free k = msum f_free B.

(** [used_plus B B' b t]: the blocks in use after [b] of [t] bytes was handed out. *)
Definition used_plus B B' (b t : Z) : Prop :=
  forall a s, B' !! a = Some (s, Used) <-> (a = b /\ s = t) \/ (a <> b /\ B !! a = Some (s, Used)).

(** ** Taking a block *)

Lemma ktake_block_ok k B ch r c b s l1 l2 :
  kinv k B ch -> settled B -> acct k B -> valid Global c -> ch Global c = l1 ++ b :: l2 -> B !! b = Some (s, In Global) ->
  r mod 16 = 0 -> 32 <= r <= s ->
  exists k' B' ch' t, take_block r c (link_of c l1) k = Ok (k', b + 16) /\ kinv k' B' ch' /\ settled B' /\ acct k' B' /\ r <= t /\
    used_plus B B' b t /\ same_data B (mem k) (mem k') /\ same_rest k k'.
Proof.
  intros K St [Ta Tf] Hv Hl Hb Hr Hrs. destruct (step_list _ _ _ _ _ _ _ K Hv Hl) as (Eg & _ & _ & _ & _ & s' & Hs' & Es & _). simplify_eq.
  destruct (ki_geo _ _ _ _ _ _ K Hb) as (_ & Hs16 & _). destruct (hdr_word _ _ _ _ _ _ K Hb) as (_ & _ & Hsr & _).
  unfold take_block. rewrite Eg. cbn [mbind res_bind]. destruct (kunlink_ok _ _ _ _ _ _ _ _ K Hv Hl Hb) as (k1 & E1 & K1 & Hh1 & P1). unfold unlink_block in E1.
  destruct (set_link (link_of c l1) (next b k) k) as [k0| |]; cbn [mbind res_bind] in E1 |- *; try done. rewrite E1. cbn [mbind res_bind]. clear E1 k0.
  set (B1 := <[b := (size b k, Held)]> B : Blocks) in *. assert (Hb1 : B1 !! b = Some (size b k, Held)) by apply lookup_insert_eq.
  set (k2 := update_legacy_free_list_head _). assert (K2 : kinv k2 B1 (upd ch Global c (l1 ++ l2))) by (by apply kinv_legacy, kinv_totals).
  pose proof P1 as (D1 & R1 & [T1 T1'] & _). pose proof (free_range _ _ _ K) as Hfr. pose proof (free_range _ _ _ K1) as Hfr1.
  assert (Ef1 : msum f_free B1 = msum f_free B - size b k) by (unfold B1; rewrite (msum_update _ _ _ _ _ _ _ Hb); cbn; lia).
  assert (Eu1 : msum f_used B1 = msum f_used B) by (unfold B1; rewrite (msum_update _ _ _ _ _ _ _ Hb); cbn; lia).
  assert (Hu1 : forall a t, B1 !! a = Some (t, Used) <-> B !! a = Some (t, Used)).
  { intros a t. unfold B1. rewrite lookup_insert_Some. split; [naive_solver|]. intros Ha. right. split; [|done]. intros ->. congruence. }
  assert (Hc1 : forall a t, B1 !! a = Some (t, Held) -> a = b) by (intros a t Ha; unfold B1 in Ha; blk Ha; [done|]; by apply St in Ha).
  rewrite (u64_small (size b k - r)) by lia. unfold MIN_BLOCK_SIZE. destruct (Z.leb_spec 24 (size b k - r)) as [Hrem|Hrem].
  - assert (Hrem' : 32 <= size b k - r) by div_lia. destruct (ksplit_ok k2 B1 _ b (size b k) r K2 Hb1 Hr ltac:(lia) Hrem') as (K3 & P3 & Hn).
    set (k3 := make_block _ _ _) in *. set (B3 := <[b + r := (size b k - r, Held)]> (<[b := (r, Used)]> B1) : Blocks) in *.
    assert (Hb3 : B3 !! (b + r) = Some (size b k - r, Held)) by apply lookup_insert_eq.
    destruct (add_to_free_list_ok _ _ _ _ _ K3 Hb3) as (k4 & ch4 & -> & K4 & P4). cbn [mbind res_bind]. set (B4 := <[b + r := (size b k - r, In Global)]> B3 : Blocks) in *.
    pose proof P3 as (D3 & R3 & [T3 T3'] & _). pose proof P4 as (D4 & R4 & [T4 T4'] & _).
    assert (Hne : b + r <> b) by lia. assert (Hlk : forall a t kd, B4 !! a = Some (t, kd) <-> (a = b + r /\ t = size b k - r /\ kd = In Global) \/ (a = b /\ t = r /\ kd = Used) \/ (a <> b + r /\ a <> b /\ B !! a = Some (t, kd))).
    { intros a t kd. unfold B4, B3, B1. rewrite !lookup_insert_Some. naive_solver. }
    assert (Ef4 : msum f_free B4 = msum f_free B - r).
    { unfold B4. rewrite (msum_update _ _ _ _ _ _ _ Hb3). unfold B3. rewrite msum_insert by (by rewrite lookup_insert_ne). rewrite (msum_update _ _ _ _ _ _ _ Hb1). cbn. lia. }
    assert (Eu4 : msum f_used B4 = msum f_used B + r).
    { unfold B4. rewrite (msum_update _ _ _ _ _ _ _ Hb3). unfold B3. rewrite msum_insert by (by rewrite lookup_insert_ne). rewrite (msum_update _ _ _ _ _ _ _ Hb1). cbn. lia. }
    pose proof (free_range _ _ _ K4) as Hfr4. eexists _, B4, ch4, r. split; [reflexivity|]. split; [by apply kinv_totals|]. split_and!; [|split|lia| | |].
    + intros a t Ha. apply Hlk in Ha as [(_ & _ & ?)|[(_ & _ & ?)|(_ & _ & Ha)]]; [done..|]. by apply St in Ha.
    + cbn. rewrite T4, T3. cbn. rewrite T1, Ta, u64_small by lia. lia.
    + cbn. rewrite T4', T3'. cbn. rewrite T1', Tf, (u64_small (msum f_free B - _)), u64_small by lia. lia.
    + intros a t. rewrite Hlk. split; [naive_solver|]. intros [[-> ->]|[Hab Ha]]; [naive_solver|]. right. right. split_and!; try done. intros ->. unfold B1 in Hn. rewrite lookup_insert_ne in Hn by done. congruence.
    + eapply same_data_trans; [exact D1|]. apply (same_data_trans _ _ (mem k3)).
      * eapply same_data_sub; [|exact D3]. intros a t. apply Hu1.
      * eapply same_data_sub; [|exact D4]. intros a t Ha. unfold B3. rewrite lookup_insert_ne; [|intros E; subst a; rewrite <- Hu1 in Ha; congruence].
        rewrite lookup_insert_ne; [by apply Hu1|intros ->; congruence].
    + eapply same_rest_trans; [exact R1|]. apply (same_rest_trans _ k3); [exact R3|exact R4].
  - destruct (set_used_ok _ _ _ _ _ K2 Hb1) as (K3 & P3). set (B3 := <[b := (size b k, Used)]> B1 : Blocks) in *. pose proof P3 as (D3 & R3 & [T3 T3'] & _).
    assert (Eu3 : msum f_used B3 = msum f_used B + size b k) by (unfold B3; rewrite (msum_update _ _ _ _ _ _ _ Hb1); cbn; lia).
    assert (Ef3 : msum f_free B3 = msum f_free B1) by (unfold B3; rewrite (msum_update _ _ _ _ _ _ _ Hb1); cbn; lia).
    pose proof (free_range _ _ _ K3) as Hfr3. eexists _, B3, _, (size b k). split; [reflexivity|]. split; [by apply kinv_totals|]. split_and!; [|split|lia| | |].
    + intros a t Ha. unfold B3 in Ha. apply lookup_insert_Some in Ha as [[_ ?]|[Hab Ha]]; [done|]. by apply Hc1 in Ha.
    + change (u64 (total_allocated k1 + size b k) = msum f_used B3). rewrite T1, Ta, u64_small by lia. lia.
    + change (u64 (total_free k1 - size b k) = msum f_free B3). rewrite T1', Tf, u64_small by lia. lia.
    + intros a t. unfold B3. rewrite lookup_insert_Some, Hu1. naive_solver.
    + eapply same_data_trans; [exact D1|]. eapply same_data_sub; [|exact D3]. intros a t. apply Hu1.
    + eapply same_rest_trans; [exact R1|]. exact R3.
Qed.

(** ** Arenas *)

Definition used_minus B B' (b : Z) : Prop := forall a s, B' !! a = Some (s, Used) <-> a <> b /\ B !! a = Some (s, Used).

(** A new list [l'] of class [c] in the arena of CPU [i]. *)
Lemma arena_relinked k ch i c A h l' n n0 m' :
  valid (Arena i) c -> percpu_arenas k !! Z.to_nat i = Some A -> counts A !! Z.to_nat c = Some n0 -> (Z.to_nat c < length (arena_lists A))%nat ->
  kseg m' h l' 0 -> n = Z.of_nat (length l') ->
  (forall p' c', valid p' c' -> (p', c') <> (Arena i, c) -> forall a, a ∈ ch p' c' -> ld 8 (a + 16) m' = ld 8 (a + 16) (mem k)) ->
  relinked k (set_mem m' (set_arenas (<[Z.to_nat i := mkArena (<[Z.to_nat c := h]> (arena_lists A)) (<[Z.to_nat c := n]> (counts A)) (initialized A)]> (percpu_arenas k)) k))
    ch (Arena i) c l'.
Proof.
  intros [Hi Hc] HA Hn0 Hlen Hs -> Ho. pose proof (lookup_lt_Some _ _ _ HA) as Hil. pose proof (lookup_lt_Some _ _ _ Hn0) as Hcl. constructor; [done| | | |done].
  - intros p' c' Hv' Hne. split; [|split; [|by apply Ho]]; destruct p' as [|i']; try done; cbn; (destruct (decide (i' = i)) as [->|Hii];
      [rewrite list_lookup_insert_eq, HA by done; cbn; rewrite list_lookup_insert_ne; [done|]; cbn in Hv'; assert (c' <> c) by congruence; lia
      |rewrite list_lookup_insert_ne; [done|]; cbn in Hv'; lia]).
  - exists h. split; [|done]. cbn. rewrite list_lookup_insert_eq by done. cbn. by rewrite list_lookup_insert_eq.
  - cbn. rewrite list_lookup_insert_eq by done. cbn. by rewrite list_lookup_insert_eq.
Qed.

Lemma arena_get k B ch i c :
  kinv k B ch -> valid (Arena i) c ->
  exists A, percpu_arenas k !! Z.to_nat i = Some A /\ arena_lists A !! Z.to_nat c = Some (hd0 (ch (Arena i) c)) /\
    counts A !! Z.to_nat c = Some (Z.of_nat (length (ch (Arena i) c))) /\ NoDup (ch (Arena i) c) /\ kseg (mem k) (hd0 (ch (Arena i) c)) (ch (Arena i) c) 0.
Proof.
  intros K Hv. destruct (ki_chain _ _ _ K _ _ Hv) as (Hnd & h & Hh & Hs). pose proof (ki_count _ _ _ K _ _ Hv) as Hc. cbn in Hh, Hc.
  destruct (percpu_arenas k !! Z.to_nat i) as [A|]; [|done]. cbn in Hh, Hc. pose proof (kseg_head _ _ _ Hs) as ->. by exists A.
Qed.

Lemma from_arena_ok k B ch cpu c :
  kinv k B ch -> settled B -> acct k B -> 0 <= cpu -> valid Global c ->
  exists k' o, from_arena cpu c k = Ok (k', o) /\
    match o with
    | None => k' = k
    | Some p => exists b s B' ch', p = b + 16 /\ b <> 0 /\ percpu_enabled k = true /\ valid (Arena cpu) c /\ head_at (Arena cpu) c k = Some b /\
        B !! b = Some (s, In (Arena cpu)) /\
        kinv k' B' ch' /\ settled B' /\ acct k' B' /\ used_plus B B' b s /\ same_data B (mem k) (mem k') /\ same_rest k k'
    end.
Proof.
  intros K St [Ta Tf] Hcpu Hv. unfold from_arena. destruct (percpu_enabled k) eqn:Hen; [|by exists k, None].
  destruct (Z.ltb_spec c PERCPU_SIZE_CLASSES) as [Hc|]; [|by exists k, None]. destruct (Z.ltb_spec cpu MAX_CPUS) as [Hm|]; [|by exists k, None]. cbn [andb].
  assert (Hva : valid (Arena cpu) c) by (split; [lia|split; [apply Hv|done]]). assert (Hc0 : 0 <= c) by apply Hv. destruct (arena_get _ _ _ _ _ K Hva) as (A & HA & Hh & Hn & Hnd & Hs).
  pose proof (lookup_lt_Some _ _ _ HA) as LA. pose proof (lookup_lt_Some _ _ _ Hh) as LH. pose proof (lookup_lt_Some _ _ _ Hn) as LN.
  rewrite (rd_Z _ _ _ Hcpu HA). cbn [mbind res_bind]. rewrite (rd_Z _ _ _ (proj1 Hv) Hh). cbn [mbind res_bind].
  pose proof (length_range _ _ _ _ _ K Hva) as Hlr. remember (ch (Arena cpu) c) as l eqn:El. destruct l as [|b l]; cbn [hd0]; [by exists k, None|].
  assert (Hbin : b ∈ ch (Arena cpu) c) by (rewrite <- El; apply list_elem_of_here). destruct (chain_block _ _ _ _ _ _ K Hva Hbin) as (s & Hb & Hcs).
  destruct (ki_geo _ _ _ _ _ _ K Hb) as (_ & _ & _ & Hb0 & _). destruct (Z.eqb_spec b 0); [lia|].
  rewrite wr_Z by lia. cbn [mbind res_bind]. rewrite (rd_Z _ _ _ (proj1 Hv) Hn). cbn [mbind res_bind]. rewrite wr_Z by lia. cbn [mbind res_bind]. rewrite wr_Z by lia. cbn [mbind res_bind].
  destruct Hs as [_ Hs]. apply NoDup_cons in Hnd as [Hbl Hnd]. cbn [length] in Hlr |- *. rewrite (u32_small (Z.of_nat (S (length l)) - 1)) by lia.
  set (k1 := set_arenas _ k). assert (K1 : kinv k1 (<[b := (s, Held)]> B) (upd ch (Arena cpu) c l)).
  { eapply (relink k B ch k1 b s (In (Arena cpu)) Held (Arena cpu) c l); try done; [by right|by left| | | |].
    - replace k1 with (set_mem (mem k) k1) by done. apply arena_relinked with (n0 := Z.of_nat (length (b :: l))); try done; cbn [length]; lia.
    - eapply binv_retag; [apply K|done|]. left. apply (bi_hdr _ _ _ (ki_blocks _ _ _ K) _ _ _ Hb).
    - intros a. rewrite <- El, elem_of_cons. naive_solver.
    - rewrite (msum_update _ _ _ _ _ _ _ Hb). cbn. rewrite (ki_number _ _ _ K). lia. }
  set (B1 := <[b := (s, Held)]> B : Blocks) in *. assert (Hb1 : B1 !! b = Some (s, Held)) by apply lookup_insert_eq.
  destruct (set_used_ok _ _ _ _ _ K1 Hb1) as (K2 & P2). set (B2 := <[b := (s, Used)]> B1 : Blocks) in *. pose proof P2 as (D2 & R2 & [T2 T2'] & _).
  assert (Hb2 : B2 !! b = Some (s, Used)) by apply lookup_insert_eq. destruct (hdr_word _ _ _ _ _ _ K2 Hb2) as (-> & _). pose proof (free_range _ _ _ K2) as Hfr.
  assert (Eu : msum f_used B2 = msum f_used B + s) by (unfold B2; rewrite (msum_update _ _ _ _ _ _ _ Hb1); unfold B1; rewrite (msum_update _ _ _ _ _ _ _ Hb); cbn; lia).
  assert (Ef : msum f_free B2 = msum f_free B) by (unfold B2; rewrite (msum_update _ _ _ _ _ _ _ Hb1); unfold B1; rewrite (msum_update _ _ _ _ _ _ _ Hb); cbn; lia).
  eexists _, _. split; [reflexivity|]. cbn beta iota. eexists b, s, B2, _. split_and!; [done|done|done|done|cbn; by rewrite HA|done|by apply kinv_totals| |split| | |].
  - intros a t Ha. unfold B2, B1 in Ha. blk Ha; try done; by apply St in Ha.
  - change (u64 (total_allocated k + s) = msum f_used B2). rewrite Ta, u64_small by lia. lia.
  - change (total_free k = msum f_free B2). congruence.
  - intros a t. unfold B2, B1. rewrite !lookup_insert_Some. naive_solver.
  - eapply same_data_sub; [|exact D2]. intros a t Ha. unfold B1. rewrite lookup_insert_ne; [done|]. intros ->. congruence.
  - exact R2.
Qed.

Lemma to_arena_ok k B ch cpu b s :
  kinv k B ch -> settled B -> acct k B -> 0 <= cpu -> B !! b = Some (s, Used) ->
  exists o, to_arena cpu b k = Ok o /\
    match o with
    | None => True
    | Some k' => exists B' ch', kinv k' B' ch' /\ settled B' /\ acct k' B' /\ used_minus B B' b /\ same_data B' (mem k) (mem k') /\ same_rest k k'
    end.
Proof.
  intros K St [Ta Tf] Hcpu Hb. unfold to_arena. destruct (percpu_enabled k && is_valid b k && negb (is_free b k)); [|by exists None].
  destruct (hdr_word _ _ _ _ _ _ K Hb) as (-> & _ & Hsr & _). pose proof (class_valid s) as Hv. destruct (Z.ltb_spec (get_size_class s) PERCPU_SIZE_CLASSES) as [Hc|]; [|by exists None].
  destruct (Z.ltb_spec cpu MAX_CPUS) as [Hm|]; [|by exists None]. cbn [andb]. set (c := get_size_class s) in *.
  assert (Hva : valid (Arena cpu) c) by (split; [lia|split; [apply Hv|done]]). assert (Hc0 : 0 <= c) by apply Hv. destruct (arena_get _ _ _ _ _ K Hva) as (A & HA & Hh & Hn & Hnd & Hs).
  pose proof (lookup_lt_Some _ _ _ HA) as LA. pose proof (lookup_lt_Some _ _ _ Hh) as LH. pose proof (lookup_lt_Some _ _ _ Hn) as LN. set (l := ch (Arena cpu) c) in *.
  rewrite (rd_Z _ _ _ Hcpu HA). cbn [mbind res_bind]. destruct (is_in_heap _ _ && _); [by exists None|]. rewrite (rd_Z _ _ _ (proj1 Hv) Hn). cbn [mbind res_bind].
  destruct (Z.ltb_spec (Z.of_nat (length l)) PERCPU_CACHE_SIZE) as [Hlc|]; [|by exists None]. unfold PERCPU_CACHE_SIZE in Hlc.
  rewrite (rd_Z _ _ _ (proj1 Hv) Hh). cbn [mbind res_bind]. rewrite wr_Z by lia. cbn [mbind res_bind]. rewrite wr_Z by lia. cbn [mbind res_bind]. cbn [percpu_arenas store set_mem set_free].
  rewrite wr_Z by lia. cbn [mbind res_bind]. rewrite (u32_small (Z.of_nat (length l) + 1)) by lia. eexists. split; [reflexivity|]. cbn beta iota.
  pose proof (hold_used _ _ _ _ _ K Hb) as K1. set (B1 := <[b := (s, Held)]> B : Blocks) in *. assert (Hb1 : B1 !! b = Some (s, Held)) by apply lookup_insert_eq.
  destruct (set_free_ok _ _ _ _ _ K1 Hb1) as (K2 & Hh2 & P2). pose proof (held_next _ _ _ _ _ (hd0 l) K2 Hb1) as K3. set (k3 := store 8 (b + 16) (hd0 l) (set_free b k)) in *.
  pose proof (hd0_range _ _ _ _ _ [] l K Hva eq_refl) as Hhr. assert (Hh3 : hdr (mem k3) b s (In (Arena cpu))) by (eapply hdr_next_write; [apply K2|done..]).
  destruct (ki_chain _ _ _ K3 _ _ Hva) as (_ & h & Hhd & Hs3). fold l in Hs3. pose proof (kseg_head _ _ _ Hs3) as ->.
  assert (Hbl : b ∉ l) by (intros Hin; destruct (chain_block _ _ _ _ _ _ K Hva Hin) as (? & ? & _); congruence).
  set (k4 := set_arenas _ _). assert (K4 : kinv k4 (<[b := (s, In (Arena cpu))]> B1) (upd ch (Arena cpu) c (b :: l))).
  { eapply (relink k3 B1 ch k4 b s Held (In (Arena cpu)) (Arena cpu) c (b :: l)); try done; [by left|by right| | | | |].
    - replace k4 with (set_mem (mem k3) k4) by done. apply (arena_relinked k3) with (n0 := Z.of_nat (length l)); try done; [|cbn [length]; lia].
      cbn [kseg]. split; [done|]. cbn. by rewrite word_st by lia.
    - eapply binv_retag; [apply K3|done|done].
    - by apply NoDup_cons.
    - intros a. fold l. rewrite elem_of_cons. clear -Hbl. destruct (decide (a = b)) as [->|Hne]; [|intuition congruence]. split; [by left|by left].
    - rewrite (msum_update _ _ _ _ _ _ _ Hb1). cbn. rewrite (ki_number _ _ _ K1). lia. }
  set (B4 := <[b := (s, In (Arena cpu))]> B1 : Blocks) in *. pose proof (free_range _ _ _ K) as Hfr. pose proof (free_range _ _ _ K4) as Hfr4.
  assert (Eu : msum f_used B4 = msum f_used B - s) by (unfold B4; rewrite (msum_update _ _ _ _ _ _ _ Hb1); unfold B1; rewrite (msum_update _ _ _ _ _ _ _ Hb); cbn; lia).
  assert (Ef : msum f_free B4 = msum f_free B) by (unfold B4; rewrite (msum_update _ _ _ _ _ _ _ Hb1); unfold B1; rewrite (msum_update _ _ _ _ _ _ _ Hb); cbn; lia).
  exists B4, (upd ch (Arena cpu) c (b :: l)). assert (Hum : used_minus B B4 b) by (intros a t; unfold B4, B1; rewrite !lookup_insert_Some; clear; naive_solver).
  assert (Hsub : forall a t, B4 !! a = Some (t, Used) -> B1 !! a = Some (t, Used)) by (intros a t [Hne Ha]%Hum; unfold B1; by rewrite lookup_insert_ne).
  split_and!; [by apply kinv_totals| |split|done| |].
  - intros a t Ha. unfold B4, B1 in Ha. blk Ha; try done; by apply St in Ha.
  - change (u64 (total_allocated k - s) = msum f_used B4). rewrite Ta, u64_small by lia. lia.
  - change (total_free k = msum f_free B4). congruence.
  - eapply same_data_sub; [exact Hsub|]. eapply same_data_trans; [apply P2|]. eapply data_next_write; [apply K2|done..].
  - done.
Qed.

(** ** Growth *)

(** Pages fresh from the allocator are apart from every block. *)
Lemma fresh_run k B ch n f' np :
  kinv k B ch -> 1 <= n <= 512 -> alloc_pages n (frames k) = Ok (f', np) -> np <> 0 ->
  fr_inv f' /\ 0 < np /\ np mod PAGE_SIZE = 0 /\ np + n * PAGE_SIZE <= 2 ^ 48 /\
  (forall x, inside (heap_regions k) x -> fr_owns f' (x / PAGE_SIZE) /\ (x / PAGE_SIZE) ∉ fr_free f') /\
  (forall x, np <= x < np + n * PAGE_SIZE -> fr_owns f' (x / PAGE_SIZE) /\ ((x / PAGE_SIZE) ∉ fr_free f') /\ ~ inside (heap_regions k) x).
Proof.
  intros K Hn E Hnp. pose proof (ri_frames _ (ki_regions _ _ _ K)) as Hi. destruct (fr_alloc_run _ n Hi Hn) as (f & a & E' & Hi' & Ho & H).
  rewrite E in E'. injection E' as <- <-. destruct (Z.eqb_spec np 0); [done|]. destruct H as (Ha & m & Hm & Hp). pose proof (fr_nodup _ Hi) as Hnd. rewrite Hp in Hnd. apply NoDup_app in Hnd as (_ & Hd & _).
  assert (Hrun : forall x, np <= x < np + n * PAGE_SIZE -> (x / PAGE_SIZE) ∈ seqZ (np / PAGE_SIZE) m).
  { intros x Hx. apply elem_of_seqZ. unfold PAGE_SIZE in *. clear -Hx Ha Hm. div_lia. }
  assert (Hfree : forall x, np <= x < np + n * PAGE_SIZE -> (x / PAGE_SIZE) ∈ fr_free (frames k)) by (intros x Hx; rewrite Hp; apply elem_of_app; left; by apply Hrun).
  assert (Hb : forall x, np <= x < np + n * PAGE_SIZE -> 0 < x / PAGE_SIZE < 2 ^ 36) by (intros x Hx; apply (fr_bounds (frames k)); [done|]; apply fr_range; [done|]; by apply Hfree).
  split; [done|]. split_and!.
  - specialize (Hb np). unfold PAGE_SIZE in *. clear -Hb Hn. div_lia.
  - done.
  - specialize (Hb (np + n * PAGE_SIZE - 1)). change (2 ^ 48) with (2 ^ 36 * 4096). unfold PAGE_SIZE in *. clear -Hb Hn Ha. div_lia.
  - intros x Hx. destruct (ri_taken _ (ki_regions _ _ _ K) x Hx) as [H1 H2]. split; [by apply Ho|]. intros Hin. apply H2. rewrite Hp. apply elem_of_app. by right.
  - intros x Hx. split_and!; [apply Ho, fr_range; [done|by apply Hfree]|by apply Hd, Hrun|]. intros Hin. destruct (ri_taken _ (ki_regions _ _ _ K) x Hin) as [_ H2]. by apply H2, Hfree.
Qed.

(** The state after new pages were added, with one held block on them. *)
Lemma grow_ok k B ch n f' np rs' e' :
  kinv k B ch -> 1 <= n <= 512 -> alloc_pages n (frames k) = Ok (f', np) -> np <> 0 -> heap_size k + n * PAGE_SIZE <= MAX_HEAP_SIZE ->
  (forall x, inside rs' x <-> inside (heap_regions k) x \/ np <= x < np + n * PAGE_SIZE) ->
  (exists r rs, rs' = r :: rs /\ end_ r = e') ->
  (forall r, r ∈ rs' -> 0 < start r /\ start r mod PAGE_SIZE = 0 /\ end_ r mod PAGE_SIZE = 0 /\ start r < end_ r <= 2 ^ 48) ->
  let k' := make_block np (n * PAGE_SIZE) (set_space rs' e' (heap_size k + n * PAGE_SIZE) (set_frames f' k)) in
  kinv k' (<[np := (n * PAGE_SIZE, Held)]> B) ch /\ hdr (mem k') np (n * PAGE_SIZE) (In Global) /\ B !! np = None /\ same_data B (mem k) (mem k').
Proof.
  intros K Hn E Hnp Hmax Hin Hfst Hgeo k'. destruct (fresh_run _ _ _ _ _ _ K Hn E Hnp) as (Hi & Hnp0 & Ha & Hend & Hold & Hnew).
  pose proof (ki_blocks _ _ _ K) as Bi. change MAX_HEAP_SIZE with 67108864 in Hmax. pose proof (proj1 (ki_size _ _ _ K)) as Hs0.
  assert (Hall : 0 <= heap_size k) by (rewrite Hs0; apply msum_nonneg; intros a s kd Hb; unfold f_all; destruct (ki_geo _ _ _ _ _ _ K Hb); lia).
  destruct (make_block_word (set_space rs' e' (heap_size k + n * PAGE_SIZE) (set_frames f' k)) np (n * PAGE_SIZE)) as (Hh & Hx); [unfold PAGE_SIZE in *; lia|]. fold k' in Hh, Hx.
  assert (Hsep : forall a s kd, B !! a = Some (s, kd) -> a + s <= np \/ np + n * PAGE_SIZE <= a).
  { intros a s kd Hb. destruct (bi_geo _ _ _ Bi _ _ _ Hb) as (_ & _ & Hs & _ & _ & Hi'). destruct (Z.le_gt_cases (a + s) np); [by left|].
    destruct (Z.le_gt_cases (np + n * PAGE_SIZE) a); [by right|]. exfalso. assert (Hc : np <= Z.max a np < np + n * PAGE_SIZE) by (unfold PAGE_SIZE in *; lia).
    destruct (Hnew _ Hc) as (_ & _ & Hno). apply Hno, Hi'. lia. }
  assert (Hpg : 4096 <= n * PAGE_SIZE) by (unfold PAGE_SIZE; lia).
  assert (Hnone : B !! np = None) by (destruct (B !! np) as [[s kd]|] eqn:Eb; [|done]; destruct (ki_geo _ _ _ _ _ _ K Eb); destruct (Hsep _ _ _ Eb); lia).
  assert (Hby : forall a s kd, B !! a = Some (s, kd) -> forall x, a <= x < a + s -> byte (mem k') x = byte (mem k) x).
  { intros a s kd Hb x Hxr. apply Hx. destruct (Hsep _ _ _ Hb); lia. }
  assert (Hfld : forall a s kd, B !! a = Some (s, kd) -> (forall t kz, hdr (mem k) a t kz -> hdr (mem k') a t kz) /\ ld 8 (a + 16) (mem k') = ld 8 (a + 16) (mem k)).
  { intros a s kd Hb. destruct (ki_geo _ _ _ _ _ _ K Hb) as (_ & _ & Hs & _). split; [intros t kz; apply hdr_ext|]; apply ld_ext; intros; eapply Hby; [done|lia|done|lia|done|lia]. }
  split; [|split_and!; [apply Hh..|done|intros a s Hb x Hxr; eapply Hby; [done|lia]]]. constructor.
  - constructor.
    + intros a s kd Hb. blk Hb.
      * split_and!; [unfold PAGE_SIZE in *; clear -Ha; div_lia|unfold PAGE_SIZE; clear; div_lia|lia|done|done|]. intros x Hxr. apply Hin. by right.
      * destruct (bi_geo _ _ _ Bi _ _ _ Hb) as (? & ? & ? & ? & ? & Hi'). split_and!; try done. intros x Hxr. apply Hin. left. by apply Hi'.
    + intros a s kd Hb. blk Hb; [left; apply Hh|]. apply (Hfld _ _ _ Hb), (bi_hdr _ _ _ Bi _ _ _ Hb).
    + intros a s kd b t kd' Hb Hb' Hlt. blk Hb; blk Hb'; try lia; [| |by eapply (bi_dis _ _ _ Bi a)].
      * destruct (Hsep _ _ _ Hb'); [destruct (ki_geo _ _ _ _ _ _ K Hb'); lia|done].
      * destruct (Hsep _ _ _ Hb); [done|lia].
  - intros p c a Hv. rewrite (ki_memb _ _ _ K) by done. setoid_rewrite lookup_insert_Some. split; intros (s & Hs & Hc); exists s; (split; [|done]).
    + right. split; [|done]. intros ->. congruence.
    + by destruct Hs as [[_ ?]|[_ ?]].
  - intros a s p Hb. blk Hb; try done; by apply (ki_place _ _ _ K a).
  - intros p c Hv. destruct (ki_chain _ _ _ K p c Hv) as (Hnd & h & Hhd & Hs). split; [done|]. exists h. split; [by destruct p|].
    eapply kseg_ext; [|exact Hs]. intros a Hc. destruct (chain_block _ _ _ _ _ _ K Hv Hc) as (s & Hb & _). by apply (Hfld _ _ _ Hb).
  - intros p c Hv. pose proof (ki_count _ _ _ K p c Hv). by destruct p.
  - destruct (ki_size _ _ _ K) as (E1 & E2 & E3). cbn. rewrite msum_insert by done. unfold f_all at 1. change MAX_HEAP_SIZE with 67108864. split_and!; [lia|lia|].
    unfold PAGE_SIZE in *. clear -E3. div_lia.
  - cbn. rewrite msum_insert by done. apply (ki_number _ _ _ K).
  - constructor; [done|done|done|]. intros x Hxr. apply Hin in Hxr as [Hxr|Hxr]; [by apply Hold|]. destruct (Hnew x Hxr) as (? & ? & _). done.
  - apply (ki_len _ _ _ K).
Qed.

(** Growing is safe: there is room in the table of regions, and the pages right
    after the first region are not given out once there is another region. *)
Definition can_extend k : Prop :=
  (length (heap_regions k) < MAX_HEAP_REGIONS)%nat /\ (length (heap_regions k) = 1%nat \/ (heap_end k / PAGE_SIZE) ∉ fr_free (frames k)).

Definition pages_for (r : Z) : Z := (r + 4095) / PAGE_SIZE.
(** No memory: the limit of the heap, or no run of pages. *)
Definition exhausted k (r : Z) : Prop :=
  MAX_HEAP_SIZE < heap_size k + r \/ exists f, alloc_pages (pages_for r) (frames k) = Ok (f, 0).

Lemma expand_heap_ok k B ch r :
  kinv k B ch -> settled B -> acct k B -> can_extend k -> 32 <= r <= 2097152 ->
  exists k' ok, expand_heap r k = Ok (k', ok) /\
    if ok : bool
    then exists B' ch' b s, kinv k' B' ch' /\ settled B' /\ acct k' B' /\ B' !! b = Some (s, In Global) /\ r <= s /\
      (forall a t, B' !! a = Some (t, Used) <-> B !! a = Some (t, Used)) /\ same_data B (mem k) (mem k') /\ percpu_enabled k' = percpu_enabled k
    else k' = k /\ exhausted k r.
Proof.
  intros K St [Ta Tf] [Hreg Hext] Hr. unfold expand_heap. pose proof (count_range _ _ _ K) as [_ Hhs]. pose proof (proj1 (ki_size _ _ _ K)) as Hs0.
  assert (Hall : 0 <= heap_size k) by (rewrite Hs0; apply msum_nonneg; intros a s kd Hb; unfold f_all; destruct (ki_geo _ _ _ _ _ _ K Hb); lia).
  rewrite (u64_small (heap_size k + r)) by lia. destruct (Z.ltb_spec MAX_HEAP_SIZE (heap_size k + r)) as [Hmax|Hmax]; [exists k, false; split; [done|]; split; [done|by left]|].
  rewrite (u64_small (r + PAGE_SIZE)) by (unfold PAGE_SIZE; lia). rewrite (u64_small (r + PAGE_SIZE - 1)) by (unfold PAGE_SIZE; lia).
  replace ((r + PAGE_SIZE - 1) / PAGE_SIZE) with (pages_for r) by (unfold pages_for, PAGE_SIZE; f_equal; lia). set (n := pages_for r).
  assert (Hn : 1 <= n <= 512 /\ r <= n * PAGE_SIZE /\ (n - 1) * PAGE_SIZE < r) by (unfold n, pages_for, PAGE_SIZE; clear -Hr; div_lia). destruct Hn as (Hn & Hnr & Hnr').
  pose proof (ri_frames _ (ki_regions _ _ _ K)) as Hi. destruct (fr_alloc_run _ n Hi Hn) as (f' & np & E & _ & _ & H). rewrite E. cbn [mbind res_bind]. destruct (Z.eqb_spec np 0) as [->|Hnp].
  { subst f'. exists k, false. split; [by destruct k|]. split; [done|]. right. by exists (frames k). }
  rewrite (u64_small (n * PAGE_SIZE)) by (unfold PAGE_SIZE; lia). destruct (fresh_run _ _ _ _ _ _ K Hn E Hnp) as (_ & Hnp0 & Ha & Hend & Hold & Hnew).
  assert (Hmax' : heap_size k + n * PAGE_SIZE <= MAX_HEAP_SIZE).
  { destruct (ki_size _ _ _ K) as (_ & _ & Hm). change MAX_HEAP_SIZE with 67108864 in *. unfold PAGE_SIZE in *. clear -Hm Hmax Hnr'. div_lia. }
  change (2 ^ 48) with 281474976710656 in Hend. destruct (ri_first _ (ki_regions _ _ _ K)) as (r0 & rs0 & Hrs & He). pose proof (ri_geo _ (ki_regions _ _ _ K)) as Hg.
  assert (Hfin : forall rs' e', (forall x, inside rs' x <-> inside (heap_regions k) x \/ np <= x < np + n * PAGE_SIZE) ->
    (exists r rs, rs' = r :: rs /\ end_ r = e') -> (forall r, r ∈ rs' -> 0 < start r /\ start r mod PAGE_SIZE = 0 /\ end_ r mod PAGE_SIZE = 0 /\ start r < end_ r <= 2 ^ 48) ->
    exists k', add_pages np (n * PAGE_SIZE) (set_space rs' e' (heap_size k + n * PAGE_SIZE) (set_frames f' k)) = Ok k' /\
      exists B' ch' b s, kinv k' B' ch' /\ settled B' /\ acct k' B' /\ B' !! b = Some (s, In Global) /\ r <= s /\
      (forall a t, B' !! a = Some (t, Used) <-> B !! a = Some (t, Used)) /\ same_data B (mem k) (mem k') /\ percpu_enabled k' = percpu_enabled k).
  { intros rs' e' H1 H2 H3. destruct (grow_ok k B ch n f' np rs' e' K Hn E Hnp Hmax' H1 H2 H3) as (K1 & Hh & Hnone & D1). set (k1 := make_block _ _ _) in *.
    set (B1 := <[np := (n * PAGE_SIZE, Held)]> B : Blocks) in *. assert (Hb1 : B1 !! np = Some (n * PAGE_SIZE, Held)) by apply lookup_insert_eq.
    destruct (push_ok _ _ _ _ _ K1 Hb1 Hh) as (k2 & ch2 & E2 & K2 & P2). unfold add_pages. fold k1. rewrite E2. cbn [mbind res_bind]. eexists. split; [reflexivity|].
    set (B2 := <[np := (n * PAGE_SIZE, In Global)]> B1 : Blocks) in *. pose proof P2 as (D2 & R2 & [T2 T2'] & _). pose proof (free_range _ _ _ K2) as Hfr.
    assert (Ef : msum f_free B2 = msum f_free B + n * PAGE_SIZE) by (unfold B2; rewrite (msum_update _ _ _ _ _ _ _ Hb1); unfold B1; rewrite msum_insert by done; cbn; lia).
    assert (Eu : msum f_used B2 = msum f_used B) by (unfold B2; rewrite (msum_update _ _ _ _ _ _ _ Hb1); unfold B1; rewrite msum_insert by done; cbn; lia).
    pose proof (free_range _ _ _ K) as Hfr0.
    exists B2, ch2, np, (n * PAGE_SIZE). split_and!; [by apply kinv_legacy, kinv_totals| |split|apply lookup_insert_eq|done| | |].
    - intros a t Hb. unfold B2, B1 in Hb. blk Hb; try done; by apply St in Hb.
    - cbn. rewrite T2. change (total_allocated k = msum f_used B2). congruence.
    - cbn. rewrite T2'. change (u64 (total_free k + n * PAGE_SIZE) = msum f_free B2). rewrite Tf, u64_small by lia. lia.
    - intros a t. unfold B2, B1. rewrite !lookup_insert_Some. split; [clear; naive_solver|]. intros Hb. right. assert (np <> a) by (intros ->; congruence). by split; [|right].
    - eapply same_data_trans; [exact D1|]. eapply same_data_sub; [|exact D2]. intros a t Hb. unfold B1. rewrite lookup_insert_ne; [done|]. intros ->. congruence.
    - destruct R2 as (_ & _ & _ & _ & Hen & _). cbn. rewrite Hen. done. }
  cbn [heap_end set_frames heap_regions heap_size frames]. destruct (Z.eqb_spec np (heap_end k)) as [Ee|Ee].
  - assert (Hone : length (heap_regions k) = 1%nat).
    { destruct Hext as [?|Hext]; [done|]. exfalso. apply Hext. rewrite <- Ee. destruct H as (_ & m & Hm & Hp). rewrite Hp. apply elem_of_app. left. apply elem_of_seqZ. lia. }
    rewrite Hrs in Hone. destruct rs0; [|done]. clear Hone. rewrite (u64_small (heap_end k + n * PAGE_SIZE)), (u64_small (heap_size k + n * PAGE_SIZE)) by (unfold PAGE_SIZE in *; lia).
    destruct (Hfin (extend_last (heap_end k + n * PAGE_SIZE) (heap_regions k)) (heap_end k + n * PAGE_SIZE)) as (k' & -> & H'); [| | |by exists k', true].
    + intros x. rewrite Hrs. cbn. rewrite !inside_elem. setoid_rewrite list_elem_of_singleton. destruct (Hg r0) as (? & ? & ? & ?); [rewrite Hrs; set_solver|]. split.
      * intros (q & -> & Hq). cbn in Hq. destruct (Z.lt_ge_cases x (heap_end k)); [left; exists r0; split; [done|lia]|right; lia].
      * intros [(q & -> & Hq)|Hq]; eexists; (split; [reflexivity|]); cbn; unfold PAGE_SIZE in *; lia.
    + rewrite Hrs. cbn. by eexists _, [].
    + intros q Hq. rewrite Hrs in Hq. cbn in Hq. apply list_elem_of_singleton in Hq as ->. cbn. destruct (Hg r0) as (? & ? & ? & ?); [rewrite Hrs; set_solver|].
      change (2 ^ 48) with 281474976710656. split_and!; [done|done| |unfold PAGE_SIZE in *; lia|lia]. rewrite <- Ee. unfold PAGE_SIZE in *. clear -Ha. div_lia.
  - unfold add_heap_region. cbn [heap_regions set_frames heap_size heap_end]. rewrite (proj2 (Nat.leb_gt _ _) Hreg). cbn [negb heap_regions heap_end heap_size set_space set_frames frames].
    rewrite (u64_small (np + n * PAGE_SIZE)), (u64_small (heap_size k + n * PAGE_SIZE)) by (unfold PAGE_SIZE in *; lia).
    destruct (Hfin (heap_regions k ++ [mkRegion np (np + n * PAGE_SIZE)]) (heap_end k)) as (k' & E' & H').
    + intros x. rewrite !inside_elem. split.
      * intros (q & Hq & Hx). apply elem_of_app in Hq as [Hq|Hq]; [left; by exists q|]. apply list_elem_of_singleton in Hq as ->. by right.
      * intros [(q & Hq & Hx)|Hx]; [exists q; split; [set_solver|done]|exists (mkRegion np (np + n * PAGE_SIZE)); split; [set_solver|done]].
    + rewrite Hrs. by eexists r0, _.
    + intros q Hq. apply elem_of_app in Hq as [Hq|Hq]; [by apply Hg|]. apply list_elem_of_singleton in Hq as ->. cbn. change (2 ^ 48) with 281474976710656.
      split_and!; [done|done| |unfold PAGE_SIZE; lia|done]. unfold PAGE_SIZE in *. clear -Ha. div_lia.
    + exists k', true. split; [|done]. match goal with |- context [add_pages _ _ ?x] => change x with (set_space (heap_regions k ++ [mkRegion np (np + n * PAGE_SIZE)]) (heap_end k) (heap_size k + n * PAGE_SIZE) (set_frames f' k)) end.
      by rewrite E'.
Qed.
End Alloc.

End KHeapAlloc.
