(* ===== verification/KHeapSpec.v ===== *)
(** * What the kernel heap promises

    The heap as a map from live pointers to the bytes behind them: [kmalloc],
    [kzalloc], [kfree] and [krealloc] implement the operations on this map, live
    allocations never overlap, and their contents change only through their
    owners, under the conditions its theorem states.  Two concrete runs show where
    the code leaves this contract: an arena
    hands out a block that is too small, and growing next to the first region
    damages the bounds of the last one. *)

From S2P Require Import Prelude Buddy Frames Memory KHeap KHeapInv KHeapOps KHeapMerge KHeapAlloc.

Module KHeapSpec.
Import Buddy(PAGE_SIZE).
Import Frames Memory KHeap KHeapInv KHeapOps KHeapMerge KHeapAlloc.

Lemma block_size_spec size : 0 < size <= 2097136 ->
  block_size_for size mod 16 = 0 /\ 32 <= block_size_for size <= 2097152 /\ size + 16 <= block_size_for size.
Proof.
  intros Hs. unfold block_size_for, align_up, HEADER_SIZE, ALIGNMENT, MIN_BLOCK_SIZE. rewrite (u64_small (size + 16)), (u64_small (size + 16 + 16)), (u64_small (size + 16 + 16 - 1)) by lia.
  change (16 - 1) with (2 ^ 4 - 1). rewrite land_align_down by (try change (2 ^ 64) with 18446744073709551616; lia). change (2 ^ 4) with 16.
  destruct (Z.ltb_spec ((size + 16 + 16 - 1) / 16 * 16) 24); div_lia.
Qed.

Section Spec.
Context {F : Type} {alloc : FrameAllocator F} {laws : FrameLaws F}.
Implicit Types (k : KHeap F) (B : Blocks) (ch : place -> Z -> list Z) (L : gmap Z Z).

(** ** The abstraction *)

(** [L] maps every live pointer to the number of bytes it may be used for. *)
Definition live_of B L : Prop := forall p n, L !! p = Some n <-> B !! (p - 16) = Some (n + 16, Used).
Definition Rep k L : Prop := exists B ch, kinv k B ch /\ settled B /\ acct k B /\ live_of B L.

(** The bytes of the allocations of [L]. *)
Definition same_contents L k k' : Prop := forall p n, L !! p = Some n -> forall x, p <= x < p + n -> byte (mem k') x = byte (mem k) x.

Lemma contents_of B L k k' : live_of B L -> same_data B (mem k) (mem k') -> same_contents L k k'.
Proof. intros Hl H p n Hp x Hx. apply Hl in Hp. apply (H _ _ Hp). lia. Qed.

Lemma rep_apart k L p n q m : Rep k L -> L !! p = Some n -> L !! q = Some m -> p <> q -> p + n + 16 <= q \/ q + m + 16 <= p.
Proof.
  intros (B & ch & K & _ & _ & Hl) Hp%Hl Hq%Hl Hne. destruct (bi_apart _ _ _ _ _ _ _ _ _ (ki_blocks _ _ _ K) Hp Hq); lia.
Qed.

Lemma rep_pointer k L p n : Rep k L -> L !! p = Some n -> p mod 16 = 0 /\ 16 < p /\ 16 <= n /\ n mod 16 = 0 /\ p + n <= 281474976710656 /\ n <= 67108848.
Proof.
  intros (B & ch & K & _ & _ & Hl) Hp%Hl. destruct (ki_geo _ _ _ _ _ _ K Hp) as (H1 & H2 & H3 & H4 & H5 & _).
  destruct (hdr_word _ _ _ _ _ _ K Hp) as (_ & _ & H6 & _). split_and!; [clear -H1; div_lia|lia|lia|clear -H2; div_lia|lia|lia].
Qed.

Lemma live_plus B B' L b t :
  live_of B L -> used_plus B B' b t -> live_of B' (<[b + 16 := t - 16]> L).
Proof.
  intros Hl Hu p n. rewrite lookup_insert_Some, (Hu (p - 16)), (Hl p n). split.
  - intros [[<- <-]|[Hne ?]]; [left; lia|right; split; [lia|done]].
  - intros [[? ?]|[? ?]]; [left; lia|right; split; [lia|done]].
Qed.
Lemma live_minus B B' L p : live_of B L -> used_minus B B' (p - 16) -> live_of B' (delete p L).
Proof.
  intros Hl Hu q n. rewrite lookup_delete_Some, (Hu (q - 16)), (Hl q n). split; intros [? ?]; (split; [lia|done]).
Qed.
Lemma live_same B B' L : live_of B L -> (forall a s, B' !! a = Some (s, Used) <-> B !! a = Some (s, Used)) -> live_of B' L.
Proof. intros Hl H p n. by rewrite H, (Hl p n). Qed.

(** ** Allocation *)

Lemma from_heap_ok k B ch r :
  kinv k B ch -> settled B -> acct k B -> can_extend k -> r mod 16 = 0 -> 32 <= r <= 2097152 ->
  exists k' p, from_heap r (get_size_class r) k = Ok (k', p) /\
    if p =? 0 then k' = k /\ exhausted k r
    else exists b t B' ch', p = b + 16 /\ r <= t /\ (forall s, B !! b <> Some (s, Used)) /\
      kinv k' B' ch' /\ settled B' /\ acct k' B' /\ used_plus B B' b t /\ same_data B (mem k) (mem k').
Proof.
  intros K St Ha He Hr Hrr. unfold from_heap. set (cs := seqZ _ _).
  assert (Hcs : forall c, c ∈ cs -> valid Global c).
  { intros c Hc. apply elem_of_seqZ in Hc. cbn. pose proof (get_size_class_range r). unfold NUM_SIZE_CLASSES in *. lia. }
  assert (Htake : forall k1 B1 ch1 o c pp, kinv k1 B1 ch1 -> settled B1 -> acct k1 B1 -> o = Some (c, pp) -> found_in B1 ch1 r o ->
    exists k' p, take_block r c pp k1 = Ok (k', p) /\ p <> 0 /\ exists b t B' ch', p = b + 16 /\ r <= t /\ (forall s, B1 !! b <> Some (s, Used)) /\
      kinv k' B' ch' /\ settled B' /\ acct k' B' /\ used_plus B1 B' b t /\ same_data B1 (mem k1) (mem k')).
  { intros k1 B1 ch1 o c pp K1 St1 Ha1 -> [Hv (l1 & b & l2 & s & -> & Hl & Hb & Hs)].
    destruct (ktake_block_ok k1 B1 ch1 r c b s l1 l2 K1 St1 Ha1 Hv Hl Hb Hr) as (k' & B' & ch' & t & E & K' & St' & Ha' & Ht & Hu & D & R); [lia|].
    destruct (ki_geo _ _ _ _ _ _ K1 Hb). exists k', (b + 16). split; [done|]. split; [lia|]. exists b, t, B', ch'. split_and!; try done. intros u Hbu. congruence. }
  destruct (search_classes_ok k B ch r cs K Hcs) as (o & -> & _ & Hf & _). cbn [mbind res_bind]. destruct o as [[c pp]|].
  { destruct (Htake k B ch _ c pp K St Ha eq_refl Hf) as (k' & p & -> & Hp & H). exists k', p. split; [done|]. by destruct (Z.eqb_spec p 0). }
  destruct (expand_heap_ok k B ch r K St Ha He Hrr) as (k1 & ok & -> & H). cbn [mbind res_bind]. destruct ok; cbn [negb]; [|exists k1, 0; split; [done|exact H]].
  destruct H as (B1 & ch1 & b & s & K1 & St1 & Ha1 & Hb & Hrs & Hu1 & D1 & _).
  destruct (search_classes_ok k1 B1 ch1 r cs K1 Hcs) as (o & _ & -> & Hf1 & Hn1). cbn [mbind res_bind]. destruct o as [[c pp]|].
  - destruct (Htake k1 B1 ch1 _ c pp K1 St1 Ha1 eq_refl Hf1) as (k' & p & -> & Hp & (b' & t & B' & ch' & E1 & E2 & E3 & E4 & E5 & E6 & E7 & E8)). exists k', p. split; [done|].
    destruct (Z.eqb_spec p 0); [done|]. exists b', t, B', ch'. split_and!; try done.
    + intros u Hu. by apply Hu1, E3 in Hu.
    + intros a u. by rewrite (E7 a u), Hu1.
    + eapply same_data_trans; [exact D1|]. eapply same_data_sub; [|exact E8]. intros a u. by apply Hu1.
  - exfalso. assert (s < r); [|lia]. apply (Hn1 eq_refl b); [|done]. apply elem_of_seqZ. pose proof (get_size_class_mono r s Hrs). pose proof (get_size_class_range s). unfold NUM_SIZE_CLASSES. lia.
Qed.

(** The block an arena would hand out is large enough. *)
Definition arena_fits (cpu sz : Z) k : Prop :=
  forall b, head_at (Arena cpu) (get_size_class (block_size_for sz)) k = Some b -> b <> 0 -> block_size_for sz <= size b k.

(** The pointer [p] to [n] bytes is the first block of the arena for the class
    of [sz], and too small. *)
Definition short (cpu sz p n : Z) k : Prop :=
  head_at (Arena cpu) (get_size_class (block_size_for sz)) k = Some (p - 16) /\ p - 16 <> 0 /\ size (p - 16) k = n + 16 /\ n + 16 < block_size_for sz.

Lemma kmalloc_any cpu sz k L :
  Rep k L -> 0 <= cpu -> 0 < sz <= 2097136 -> can_extend k ->
  exists k' p, kmalloc cpu sz k = Ok (k', p) /\ same_contents L k k' /\
    if p =? 0 then k' = k /\ exhausted k (block_size_for sz)
    else exists n, (sz <= n \/ short cpu sz p n k) /\ L !! p = None /\ Rep k' (<[p := n]> L).
Proof.
  intros (B & ch & K & St & Ha & Hl) Hcpu Hsz He. destruct (block_size_spec sz Hsz) as (Hm & Hr & Hb). unfold kmalloc. destruct (Z.eqb_spec sz 0) as [|_]; [lia|]. cbv zeta.
  assert (Hend : forall k' b t B' ch', block_size_for sz <= t \/ short cpu sz (b + 16) (t - 16) k -> (forall s, B !! b <> Some (s, Used)) -> kinv k' B' ch' -> settled B' -> acct k' B' -> used_plus B B' b t ->
    exists n, (sz <= n \/ short cpu sz (b + 16) n k) /\ L !! (b + 16) = None /\ Rep k' (<[b + 16 := n]> L)).
  { intros k' b t B' ch' Ht Hnu K' St' Ha' Hu. exists (t - 16). split_and!; [destruct Ht; [left; lia|by right]| |exists B', ch'; split_and!; try done; by eapply live_plus].
    destruct (L !! (b + 16)) as [n|] eqn:E; [|done]. apply Hl in E. replace (b + 16 - 16) with b in E by lia. by apply Hnu in E. }
  destruct (from_arena_ok k B ch cpu (get_size_class (block_size_for sz)) K St Ha Hcpu (class_valid _)) as (k1 & o & -> & H). cbn [mbind res_bind]. destruct o as [p|].
  - destruct H as (b & s & B' & ch' & -> & Hb0 & _ & _ & Hh & Hbs & K' & St' & Ha' & Hu & D & _). destruct (hdr_word _ _ _ _ _ _ K Hbs) as (Es & _).
    exists k1, (b + 16). split; [done|]. split; [by eapply contents_of|]. destruct (ki_geo _ _ _ _ _ _ K Hbs). destruct (Z.eqb_spec (b + 16) 0); [lia|].
    apply (Hend k1 b s B' ch'); try done; [|intros u; congruence]. unfold short. replace (b + 16 - 16) with b by lia. rewrite Es.
    destruct (Z.le_gt_cases (block_size_for sz) s); [by left|right; split_and!; [done|done|lia|lia]].
  - subst k1. destruct (from_heap_ok k B ch _ K St Ha He Hm Hr) as (k' & p & -> & H). exists k', p. split; [done|]. destruct (p =? 0) eqn:Ep; [destruct H as [-> H]; done|].
    destruct H as (b & t & B' & ch' & -> & Ht & Hnu & K' & St' & Ha' & Hu & D). split; [by eapply contents_of|]. apply (Hend k' b t B' ch'); try done. by left.
Qed.

Lemma kmalloc_ok cpu sz k L :
  Rep k L -> 0 <= cpu -> 0 < sz <= 2097136 -> can_extend k -> arena_fits cpu sz k ->
  exists k' p, kmalloc cpu sz k = Ok (k', p) /\ same_contents L k k' /\
    if p =? 0 then k' = k /\ exhausted k (block_size_for sz)
    else exists n, sz <= n /\ L !! p = None /\ Rep k' (<[p := n]> L).
Proof.
  intros HR Hcpu Hsz He Hf. destruct (kmalloc_any cpu sz k L HR Hcpu Hsz He) as (k' & p & E & D & H). exists k', p. split; [done|]. split; [done|]. destruct (p =? 0); [done|].
  destruct H as (n & Hn & H). exists n. split; [|done]. destruct Hn as [Hn|(Hh & H0 & Hs & Hlt)]; [done|]. specialize (Hf _ Hh H0). lia.
Qed.

(** ** Release *)

Lemma live_header k L p n :
  Rep k L -> L !! p = Some n ->
  magic (p - 16) k = BLOCK_MAGIC_ALLOC /\ size (p - 16) k = n + 16 /\ is_free (p - 16) k = false /\ is_in_heap p k = true /\ n + 16 <= heap_size k.
Proof.
  intros (B & ch & K & _ & _ & Hl) Hp%Hl. destruct (bi_hdr _ _ _ (ki_blocks _ _ _ K) _ _ _ Hp) as [H8 H4]. destruct (hdr_word _ _ _ _ _ _ K Hp) as (Hs & He & _).
  destruct (bi_geo _ _ _ (ki_blocks _ _ _ K) _ _ _ Hp) as (_ & _ & Hn & _ & _ & Hin). split_and!; try done.
  - unfold is_free, size_and_flags. rewrite H8, odd_flag by done. done.
  - apply Hin. lia.
  - by eapply ki_sizes.
Qed.

Lemma kfree_ok cpu p n k L :
  Rep k L -> 0 <= cpu -> L !! p = Some n ->
  exists k', kfree cpu p k = Ok k' /\ Rep k' (delete p L) /\ same_contents (delete p L) k k' /\ can_extend k' = can_extend k.
Proof.
  intros HR Hcpu Hp. destruct (live_header _ _ _ _ HR Hp) as (Hmg & Hsz & Hfr & Hih & Hhs). destruct (rep_pointer _ _ _ _ HR Hp) as (Hp16 & Hp0 & Hn & Hn16 & _ & Hmax).
  pose proof HR as (B & ch & K & St & Ha & Hl). pose proof (proj1 (Hl p n) Hp) as Hb. unfold kfree. destruct (Z.eqb_spec p 0); [lia|]. unfold ptr_to_header, HEADER_SIZE.
  destruct (to_arena_ok k B ch cpu (p - 16) (n + 16) K St Ha Hcpu Hb) as (o & -> & H). cbn [mbind res_bind]. destruct o as [k'|].
  { destruct H as (B' & ch' & K' & St' & Ha' & Hu & D & R). exists k'. assert (Hl' : live_of B' (delete p L)) by (by eapply live_minus). split; [done|].
    split; [by exists B', ch'|]. split; [by eapply contents_of|]. destruct R as (R1 & _ & R3 & _ & _ & R6). unfold can_extend. by rewrite R1, R3, R6. }
  unfold to_heap. rewrite Hih. cbn [negb]. unfold ptr_to_header, HEADER_SIZE, ALIGNMENT. replace ((p - 16) mod 16) with 0 by (clear -Hp16; div_lia). cbn [Z.eqb negb].
  unfold is_valid. rewrite Hmg, Hfr, Hsz. change (BLOCK_MAGIC_ALLOC =? BLOCK_MAGIC_ALLOC) with true. cbn [orb negb]. unfold MIN_BLOCK_SIZE.
  destruct (Z.ltb_spec (n + 16) 24); [lia|]. destruct (Z.ltb_spec (heap_size k) (n + 16)); [lia|]. cbn [orb].
  pose proof (hold_used _ _ _ _ _ K Hb) as K1. set (B1 := <[p - 16 := (n + 16, Held)]> B : Blocks) in *. assert (Hb1 : B1 !! (p - 16) = Some (n + 16, Held)) by apply lookup_insert_eq.
  set (k1 := set_totals _ _ k). assert (K1' : kinv k1 B1 ch) by (by apply kinv_totals). destruct (add_to_free_list_ok _ _ _ _ _ K1' Hb1) as (k2 & ch2 & -> & K2 & P2). cbn [mbind res_bind].
  set (B2 := <[p - 16 := (n + 16, In Global)]> B1 : Blocks) in *. destruct Ha as [Ta Tf]. pose proof (free_range _ _ _ K) as Hr. pose proof (free_range _ _ _ K2) as Hr2. pose proof P2 as (D2 & R2 & [T2 T2'] & _).
  assert (Eu : msum f_used B2 = msum f_used B - (n + 16)) by (unfold B2; rewrite (msum_update _ _ _ _ _ _ _ Hb1); unfold B1; rewrite (msum_update _ _ _ _ _ _ _ Hb); cbn; lia).
  assert (Ef : msum f_free B2 = msum f_free B + (n + 16)) by (unfold B2; rewrite (msum_update _ _ _ _ _ _ _ Hb1); unfold B1; rewrite (msum_update _ _ _ _ _ _ _ Hb); cbn; lia).
  assert (St2 : settled B2) by (intros a t Hx; unfold B2, B1 in Hx; blk Hx; try done; by apply St in Hx).
  assert (Ht2 : total_free k2 = msum f_free B2) by (rewrite T2'; cbn; rewrite Tf, u64_small by lia; lia).
  assert (Hta2 : total_allocated k2 = msum f_used B2) by (rewrite T2; cbn; rewrite Ta, u64_small by lia; lia).
  destruct (kcoalesce_ok k2 B2 ch2 K2 St2 Ht2) as (k3 & B3 & ch3 & E3 & K3 & St3 & Ht3 & F3 & (D3 & R3 & T3 & _) & _). exists k3. split; [done|].
  assert (Hu : used_minus B B3 (p - 16)).
  { intros a t. rewrite (eff_used _ _ F3). unfold B2, B1. rewrite !lookup_insert_Some. clear. naive_solver. }
  assert (Hl3 : live_of B3 (delete p L)) by (by eapply live_minus). pose proof (same_rest_trans _ _ _ R2 R3) as R. split; [|split].
  - exists B3, ch3. split_and!; try done. split; [|done]. rewrite T3, Hta2. symmetry. apply F3.
  - eapply contents_of; [exact Hl3|]. assert (Hs1 : forall a t, B3 !! a = Some (t, Used) -> B1 !! a = Some (t, Used)) by (intros a t [Hne Hx]%Hu; unfold B1; by rewrite lookup_insert_ne by congruence).
    eapply same_data_trans; [eapply same_data_sub; [exact Hs1|exact D2]|]. eapply same_data_sub; [|exact D3]. intros a t. apply (eff_used _ _ F3).
  - destruct R as (R1 & _ & R4 & _ & _ & R6). unfold can_extend. by rewrite R1, R4, R6.
Qed.

(** ** Writing to an allocation *)

Lemma rep_write k L p n m' :
  Rep k L -> L !! p = Some n -> (forall x, ~ (p <= x < p + n) -> byte m' x = byte (mem k) x) ->
  Rep (set_mem m' k) L /\ same_contents (delete p L) k (set_mem m' k).
Proof.
  intros HR Hp Hx. split.
  - destruct HR as (B & ch & K & St & Ha & Hl). pose proof (proj1 (Hl p n) Hp) as Hb. exists B, ch. split_and!; try done.
    rewrite <- (insert_id B (p - 16) (n + 16, Used)) by done. apply (retag k B ch (p - 16) (n + 16) Used); try done; [by right..|intros x Hxr; apply Hx; lia|].
    eapply hdr_ext; [| |apply (bi_hdr _ _ _ (ki_blocks _ _ _ K) _ _ _ Hb)]; apply ld_ext; intros; apply Hx; lia.
  - intros q m Hq x Hxr. apply lookup_delete_Some in Hq as [Hne Hq]. apply Hx. destruct (rep_apart _ _ _ _ _ _ HR Hp Hq); lia.
Qed.

Lemma contents_trans L k1 k2 k3 : same_contents L k1 k2 -> same_contents L k2 k3 -> same_contents L k1 k3.
Proof. intros H1 H2 p n Hp x Hx. rewrite (H2 p n Hp x Hx). by apply (H1 p n). Qed.
Lemma contents_sub L L' k k' : L' ⊆ L -> same_contents L k k' -> same_contents L' k k'.
Proof. intros Hs H p n Hp. apply H. by eapply lookup_weaken. Qed.

Lemma kzalloc_ok cpu sz k L :
  Rep k L -> 0 <= cpu -> 0 < sz <= 2097136 -> can_extend k -> arena_fits cpu sz k ->
  exists k' p, kzalloc cpu sz k = Ok (k', p) /\ same_contents L k k' /\
    if p =? 0 then k' = k /\ exhausted k (block_size_for sz)
    else exists n, sz <= n /\ L !! p = None /\ Rep k' (<[p := n]> L) /\ forall x, p <= x < p + sz -> byte (mem k') x = 0.
Proof.
  intros HR Hcpu Hsz He Hf. destruct (kmalloc_ok cpu sz k L HR Hcpu Hsz He Hf) as (k1 & p & E & D & H). unfold kzalloc. rewrite E. cbn [mbind res_bind].
  destruct (p =? 0) eqn:Ep; cbn [negb]; [exists k1, p; rewrite Ep; split; [done|]; by split|]. destruct H as (n & Hn & Hp & HR1). eexists _, p. split; [reflexivity|]. rewrite Ep.
  assert (Hp1 : <[p := n]> L !! p = Some n) by apply lookup_insert_eq. assert (Hset : forall x, byte (memset p 0 sz (mem k1)) x = if (p <=? x) && (x <? p + sz) then 0 else byte (mem k1) x) by (intros x; by rewrite memset_spec by lia).
  destruct (rep_write k1 _ p n (memset p 0 sz (mem k1)) HR1 Hp1) as [HR2 D2].
  { intros x Hx. rewrite Hset. destruct (Z.leb_spec p x), (Z.ltb_spec x (p + sz)); try done; lia. }
  rewrite delete_insert_id in D2 by done. split; [by eapply contents_trans|]. exists n. split_and!; try done.
  intros x Hx. cbn [mem set_mem]. rewrite Hset. destruct (Z.leb_spec p x), (Z.ltb_spec x (p + sz)); done || lia.
Qed.

Lemma krealloc_ok cpu p n sz k L :
  Rep k L -> 0 <= cpu -> L !! p = Some n -> 0 < sz <= 2097136 -> can_extend k -> arena_fits cpu sz k ->
  exists k' q, krealloc cpu p sz k = Ok (k', q) /\ same_contents (delete p L) k k' /\
    if q =? 0 then k' = k /\ exhausted k (block_size_for sz)
    else exists m, sz <= m /\ delete p L !! q = None /\ Rep k' (<[q := m]> (delete p L)) /\ forall i, 0 <= i < Z.min n sz -> byte (mem k') (q + i) = byte (mem k) (p + i).
Proof.
  intros HR Hcpu Hp Hsz He Hf. destruct (live_header _ _ _ _ HR Hp) as (Hmg & Hs & _ & _ & _). destruct (rep_pointer _ _ _ _ HR Hp) as (_ & Hp0 & Hn & _ & _ & Hmax). unfold krealloc.
  destruct (Z.eqb_spec p 0); [lia|]. destruct (Z.eqb_spec sz 0); [lia|]. unfold ptr_to_header, HEADER_SIZE. rewrite Hmg, Hs. change (BLOCK_MAGIC_ALLOC =? BLOCK_MAGIC_ALLOC) with true. cbn [negb].
  replace (n + 16 - 16) with n by lia. rewrite u64_small by lia. destruct (Z.leb_spec sz n) as [Hle|Hgt].
  { exists k, p. split_and!; try done. destruct (Z.eqb_spec p 0); [done|]. exists n. split_and!; [done|apply lookup_delete_eq| |done]. by rewrite insert_delete_eq, insert_id. }
  destruct (kmalloc_ok cpu sz k L HR Hcpu Hsz He Hf) as (k1 & q & -> & D1 & H). cbn [mbind res_bind]. destruct (q =? 0) eqn:Eq.
  { exists k1, 0. split_and!; try done. destruct H as [-> _]. done. }
  destruct H as (m & Hm & Hq & HR1). set (L1 := <[q := m]> L) in *. assert (Hq1 : L1 !! q = Some m) by apply lookup_insert_eq. assert (Hpq : p <> q) by (intros ->; congruence).
  assert (Hp1 : L1 !! p = Some n) by (unfold L1; by rewrite lookup_insert_ne). assert (Hap : p + n + 16 <= q \/ q + m + 16 <= p) by (by eapply rep_apart).
  set (m2 := memcpy q p n (mem k1)). assert (Hcp : forall x, byte m2 x = if (q <=? x) && (x <? q + n) then byte (mem k1) (p + (x - q)) else byte (mem k1) x) by (intros x; apply memcpy_spec; lia).
  destruct (rep_write k1 L1 q m m2 HR1 Hq1) as [HR2 D2].
  { intros x Hx. rewrite Hcp. destruct (Z.leb_spec q x), (Z.ltb_spec x (q + n)); try done; lia. }
  destruct (kfree_ok cpu p n _ L1 HR2 Hcpu Hp1) as (k3 & -> & HR3 & D3 & _). cbn [mbind res_bind]. exists k3, q. split; [done|]. rewrite Eq.
  assert (HL : delete p L1 = <[q := m]> (delete p L)) by (unfold L1; by rewrite delete_insert_ne). split.
  - intros r u Hr x Hx. apply lookup_delete_Some in Hr as [Hne Hr]. assert (Hrq : r <> q) by (intros ->; congruence).
    rewrite (D3 r u) by (rewrite ?HL, ?lookup_insert_ne, ?lookup_delete_ne; done). rewrite (D2 r u) by (unfold L1; rewrite ?delete_insert_eq, ?lookup_delete_ne; done). by apply (D1 r u).
  - exists m. split_and!; [done|by rewrite lookup_delete_ne|by rewrite <- HL|]. intros i Hi. rewrite (D3 q m) by (try lia; by rewrite lookup_delete_ne). cbn [mem set_mem]. rewrite Hcp.
    destruct (Z.leb_spec q (q + i)), (Z.ltb_spec (q + i) (q + n)); try lia. cbn [andb]. replace (p + (q + i - q)) with (p + i) by lia. apply (D1 p n); [done|lia].
Qed.

(** ** Initialisation *)

Lemma kheap_init_ok f f' np :
  fr_inv f -> alloc_pages 16 f = Ok (f', np) -> np <> 0 -> exists k, init (initial f) = Ok k /\ Rep k ∅ /\ can_extend k /\ percpu_enabled k = true.
Proof.
  intros Hi E Hnp. destruct (fr_alloc_run f 16 Hi ltac:(lia)) as (f1 & a & E' & Hi' & Ho & H). rewrite E in E'. injection E' as <- <-. destruct (Z.eqb_spec np 0) as [|_]; [done|].
  destruct H as (Ha & m & Hm & Hp). pose proof (fr_nodup _ Hi) as Hnd. rewrite Hp in Hnd. apply NoDup_app in Hnd as (_ & Hd & _).
  assert (Hrun : forall x, np <= x < np + 65536 -> x / PAGE_SIZE ∈ seqZ (np / PAGE_SIZE) m).
  { intros x Hx. apply elem_of_seqZ. unfold PAGE_SIZE in *. clear -Hx Ha Hm. div_lia. }
  assert (Hfree : forall x, np <= x < np + 65536 -> (x / PAGE_SIZE) ∈ fr_free f) by (intros x Hx; rewrite Hp; apply elem_of_app; left; by apply Hrun).
  assert (Hb : forall x, np <= x < np + 65536 -> 0 < x / PAGE_SIZE < 2 ^ 36) by (intros x Hx; apply (fr_bounds f); [done|]; apply fr_range; [done|]; by apply Hfree).
  assert (Hr : 0 < np <= 281474976645120).
  { pose proof (Hb np ltac:(lia)). pose proof (Hb (np + 65535) ltac:(lia)). change (2 ^ 36) with 68719476736 in *. unfold PAGE_SIZE in *. clear -H H0. div_lia. }
  unfold init. cbn [frames initial]. rewrite E. cbn [mbind res_bind]. destruct (Z.eqb_spec np 0) as [|_]; [done|]. cbn [heap_regions set_frames initial length Nat.leb MAX_HEAP_REGIONS app].
  change (16 * PAGE_SIZE) with 65536. rewrite (u64_small (np + 65536)) by lia. eexists. split; [reflexivity|]. set (k := mkHeap _ _ _ _ _ _ _ _ _ _ _ _ _ _).
  destruct (make_block_word (set_frames f' (initial f)) np 65536 ltac:(lia)) as (Hh & _). assert (Hin : forall x, inside (heap_regions k) x <-> np <= x < np + 65536).
  { intros x. rewrite inside_elem. cbn [heap_regions k]. setoid_rewrite list_elem_of_singleton. split; [by intros (r & -> & ?)|]. intros Hx. by eexists. }
  set (B := {[np := (65536, In Global)]} : Blocks). assert (HB : forall a s kd, B !! a = Some (s, kd) <-> a = np /\ s = 65536 /\ kd = In Global).
  { intros a s kd. unfold B. rewrite lookup_singleton_Some. naive_solver. }
  assert (Hmem : hdr (mem k) np 65536 (In Global) /\ ld 8 (np + 16) (mem k) = 0).
  { split; [|by apply word_st]. eapply hdr_ext; [| |exact Hh]; apply ld_st_out; lia. }
  assert (Hsum : forall g, msum g B = g 65536 (In Global)).
  { intros g. unfold B. rewrite <- insert_empty, msum_insert by apply lookup_empty. unfold msum. rewrite map_fold_empty. lia. }
  assert (Hz : forall c x, valid Global c -> c <> 8 -> (<[8%nat := x]> (replicate 9 0) : list Z) !! Z.to_nat c = Some 0).
  { intros c x Hv Hc. cbn in Hv. unfold NUM_SIZE_CLASSES in Hv. rewrite list_lookup_insert_ne by lia. apply lookup_replicate. split; [done|lia]. }
  assert (Hza : forall i c, valid (Arena i) c -> head_at (Arena i) c k = Some 0 /\ count_at (Arena i) c k = Some 0).
  { intros i c Hv. cbn in Hv. unfold MAX_CPUS, PERCPU_SIZE_CLASSES in Hv. assert (Hi0 : i = 0 \/ i = 1 \/ i = 2 \/ i = 3) by lia.
    assert (Hc0 : c = 0 \/ c = 1 \/ c = 2 \/ c = 3 \/ c = 4 \/ c = 5) by lia. destruct_or! Hi0; destruct_or! Hc0; subst i c; done. }
  split; [|split; [|done]]; [|split; [cbn; unfold MAX_HEAP_REGIONS; lia|by left]].
  exists B, (fun p c => match p with Global => if c =? 8 then [np] else [] | _ => [] end). split_and!.
  - constructor.
    + constructor.
      * intros a s kd (-> & -> & ->)%HB. change (2 ^ 48) with 281474976710656. split_and!; [unfold PAGE_SIZE in *; clear -Ha; div_lia|done|lia|lia|lia|]. intros x Hx. by apply Hin.
      * intros a s kd (-> & -> & ->)%HB. apply Hmem.
      * intros a s kd b t kd' (-> & -> & ->)%HB (-> & _)%HB. lia.
    + intros [|i] c a Hv; setoid_rewrite HB.
      * destruct (Z.eqb_spec c 8) as [->|Hc]; [rewrite list_elem_of_singleton; split; [intros ->; by exists 65536|naive_solver]|].
        split; [by intros ?%not_elem_of_nil|]. intros (s & (_ & -> & _) & Hcl). exfalso. apply Hc. by rewrite <- Hcl.
      * split; [by intros ?%not_elem_of_nil|naive_solver].
    + intros a s p (-> & -> & [= ->])%HB. apply class_valid.
    + intros [|i] c Hv.
      * destruct (Z.eqb_spec c 8) as [->|Hc]; [split; [apply NoDup_singleton|]; exists np; split; [done|]; split; [done|]; apply Hmem|].
        split; [constructor|]. exists 0. split; [|done]. by apply Hz.
      * split; [constructor|]. exists 0. split; [|done]. by apply Hza.
    + intros [|i] c Hv.
      * destruct (Z.eqb_spec c 8) as [->|Hc]; [done|]. by apply Hz.
      * by apply Hza.
    + rewrite Hsum. done.
    + rewrite Hsum. done.
    + constructor.
      * by eexists _, [].
      * intros r Hr'. cbn in Hr'. apply list_elem_of_singleton in Hr' as ->. cbn. change (2 ^ 48) with 281474976710656. split_and!; [lia|done| |lia|lia]. unfold PAGE_SIZE in *. clear -Ha. div_lia.
      * done.
      * intros x Hx%Hin. split; [apply Ho, fr_range; [done|by apply Hfree]|by apply Hd, Hrun].
    + done.
  - intros a s (_ & _ & ?)%HB. done.
  - split; rewrite Hsum; done.
  - intros p n. rewrite lookup_empty, HB. naive_solver.
Qed.

(** ** The contract *)

Inductive op := OMalloc (sz : Z) | OZalloc (sz : Z) | OFree (p : Z) | ORealloc (p sz : Z).

Definition run_op (cpu : Z) (o : op) k : res (KHeap F * Z) :=
  match o with
  | OMalloc sz => kmalloc cpu sz k
  | OZalloc sz => kzalloc cpu sz k
  | OFree p => k ← kfree cpu p k; Ok (k, 0)
  | ORealloc p sz => krealloc cpu p sz k
  end.

(** The number of bytes asked for. *)
Definition asked (o : op) : option Z := match o with OMalloc sz | OZalloc sz | ORealloc _ sz => Some sz | OFree _ => None end.
(** The pointer given back. *)
Definition given (o : op) : option Z := match o with OFree p | ORealloc p _ => Some p | _ => None end.

(** The number of bytes the call itself writes at most to a new block. *)
Definition written (o : op) : option Z := match o with OZalloc sz | ORealloc _ sz => Some sz | _ => None end.

(** The allocations that are left alone, and the map after the call returned
    [r]: a null pointer leaves everything as it was.  [kmalloc] gives the bytes
    asked for unless it takes the first block of the arena and that is short. *)
Definition others (o : op) L : gmap Z Z := match given o with Some p => delete p L | None => L end.
Definition enough (cpu : Z) (o : op) (r n : Z) k : Prop :=
  match o with
  | OMalloc sz => sz <= n \/ short cpu sz r n k
  | OZalloc sz | ORealloc _ sz => sz <= n
  | OFree _ => False
  end.
Definition result (cpu : Z) (o : op) (r : Z) k L L' : Prop :=
  match asked o with
  | None => r = 0 /\ L' = others o L
  | Some sz =>
      if r =? 0 then L' = L
      else exists n, enough cpu o r n k /\ r mod 16 = 0 /\ others o L !! r = None /\ L' = <[r := n]> (others o L) /\
        forall q m, others o L !! q = Some m -> r + n <= q \/ q + m <= r
  end.

(** What the caller may rely on of the bytes returned. *)
Definition filled (o : op) (r : Z) L k k' : Prop :=
  match o with
  | OZalloc sz => r <> 0 -> forall i, 0 <= i < sz -> byte (mem k') (r + i) = 0
  | ORealloc p sz => r <> 0 -> forall i n, L !! p = Some n -> 0 <= i < Z.min n sz -> byte (mem k') (r + i) = byte (mem k) (p + i)
  | _ => True
  end.

(** (C11) A call of a client that asks for 1 byte to 2 MB and gives back only live
    pointers returns, and does to the map of live allocations what its contract
    says: a new allocation is aligned and lies apart from all others; zeroed and
    moved contents are right; no other allocation changes; a null pointer is
    returned only when the heap cannot grow.  The allocation has the bytes asked
    for, except that [kmalloc] may take the first block from the arena of the CPU
    though it is too small, and then has the bytes of that block
    ([arena_overlap]).  [kzalloc] and [krealloc], which write to the new block,
    are assumed not to meet such a block ([arena_fits]).  The heap is assumed to
    be able to grow without damage ([can_extend]): the table of regions is not
    full, and the heap has one region or the page after the first region is not
    free ([extension_loses_region]). *)
Theorem kheap_refines cpu o k L :
  Rep k L -> 0 <= cpu -> (forall p, given o = Some p -> L !! p <> None) ->
  (forall sz, asked o = Some sz -> 0 < sz <= 2097136 /\ can_extend k) ->
  (forall sz, written o = Some sz -> arena_fits cpu sz k) ->
  exists k' r L', run_op cpu o k = Ok (k', r) /\ result cpu o r k L L' /\ Rep k' L' /\ same_contents (others o L) k k' /\ filled o r L k k' /\
    (forall sz, asked o = Some sz -> r = 0 -> exhausted k (block_size_for sz)).
Proof.
  intros HR Hcpu Hg Ha Hw. assert (Hnew : forall k' L0 r n, L0 !! r = None -> Rep k' (<[r := n]> L0) ->
    r mod 16 = 0 /\ forall q m, L0 !! q = Some m -> r + n <= q \/ q + m <= r).
  { intros k' L0 r n Hn HR'. assert (Hr : <[r := n]> L0 !! r = Some n) by apply lookup_insert_eq. split; [by apply (rep_pointer _ _ _ _ HR' Hr)|].
    intros q m Hq. assert (Hne : r <> q) by (intros ->; congruence). destruct (rep_apart _ _ _ _ q m HR' Hr); [by rewrite lookup_insert_ne|done|lia|lia]. }
  destruct o as [sz|sz|p|p sz]; cbn [run_op given asked others result filled] in *; unfold others, result; cbn [given asked].
  - destruct (Ha sz eq_refl) as (Hsz & He). destruct (kmalloc_any cpu sz k L HR Hcpu Hsz He) as (k' & r & E & D & H). destruct (r =? 0) eqn:Er.
    + destruct H as [-> Hx]. exists k, r, L. rewrite Er. split_and!; try done. by intros ? [= <-] _.
    + destruct H as (n & Hn & Hr & HR'). destruct (Hnew k' L r n Hr HR'). exists k', r, (<[r := n]> L). rewrite Er. split_and!; try done; [by exists n|]. apply Z.eqb_neq in Er. done.
  - destruct (Ha sz eq_refl) as (Hsz & He). assert (Hf := Hw sz eq_refl). destruct (kzalloc_ok cpu sz k L HR Hcpu Hsz He Hf) as (k' & r & E & D & H). destruct (r =? 0) eqn:Er.
    + apply Z.eqb_eq in Er as Er'. destruct H as [-> Hx]. exists k, r, L. rewrite Er. split_and!; try done. by intros ? [= <-] _.
    + apply Z.eqb_neq in Er as Er'. destruct H as (n & Hn & Hr & HR' & Hz). destruct (Hnew k' L r n Hr HR'). exists k', r, (<[r := n]> L). rewrite Er. split_and!; try done; [by exists n|].
      intros _ i Hi. apply Hz. lia.
  - destruct (L !! p) as [n|] eqn:Hp; [|by destruct (Hg p eq_refl)]. destruct (kfree_ok cpu p n k L HR Hcpu Hp) as (k' & -> & HR' & D & _). by exists k', 0, (delete p L).
  - destruct (Ha sz eq_refl) as (Hsz & He). assert (Hf := Hw sz eq_refl). destruct (L !! p) as [n|] eqn:Hp; [|by destruct (Hg p eq_refl)]. destruct (krealloc_ok cpu p n sz k L HR Hcpu Hp Hsz He Hf) as (k' & r & E & D & H).
    destruct (r =? 0) eqn:Er.
    + apply Z.eqb_eq in Er as Er'. destruct H as [-> Hx]. exists k, r, L. rewrite Er. split_and!; try done. by intros ? [= <-] _.
    + apply Z.eqb_neq in Er as Er'. destruct H as (m & Hm & Hrn & HR' & Hc).
      destruct (Hnew k' (delete p L) r m Hrn HR'). exists k', r, (<[r := m]> (delete p L)). rewrite Er. split_and!; try done; [by exists m|].
      intros _ i n0 [= <-] Hi. by apply Hc.
Qed.

(** No two free blocks of the heap's lists lie side by side. *)
Definition coalesced k : Prop := exists B ch, kinv k B ch /\ settled B /\ no_neighbours B.

(** [coalesce] changes no allocation and no sum; with at most 256 free blocks
    it leaves no two free blocks that could be one. *)
Theorem coalesce_sound k L :
  Rep k L -> exists k', coalesce k = Ok k' /\ Rep k' L /\ same_contents L k k' /\ get_available k' = get_available k /\ get_used k' = get_used k /\
    (free_block_count k <= MAX_COALESCE_BLOCKS -> coalesced k').
Proof.
  intros (B & ch & K & St & [Ta Tf] & Hl). destruct (kcoalesce_ok k B ch K St Tf) as (k' & B' & ch' & E & K' & St' & Ht & Fe & (D & _ & Hta & _) & Hn).
  exists k'. pose proof (eff_used _ _ Fe) as Hu. destruct Fe as (_ & Fi & Fu). rewrite !idle_free in Fi by done. split_and!; try done.
  - exists B', ch'. split_and!; try done; [split; congruence|]. by eapply live_same.
  - by eapply contents_of.
  - unfold get_available. congruence.
  - intros Hc. exists B', ch'. split_and!; try done. by apply Hn.
Qed.
End Spec.

(** ** Concrete runs *)

(** A first-fit allocator of page runs, [(first page, pages)]. *)
Definition Runs : Type := list (Z * Z).

Fixpoint take_run (n : Z) (f : Runs) : option (Runs * Z) :=
  match f with
  | [] => None
  | (s, l) :: f => if n <=? l then Some ((s + n, l - n) :: f, s) else '(f, a) ← take_run n f; Some ((s, l) :: f, a)
  end.
Definition run_pages (f : Runs) : list Z := concat ((fun '(s, l) => seqZ s l) <$> f).

#[export] Instance runs_frames : FrameAllocator Runs := {
  alloc_page f := match take_run 1 f with Some (f, a) => Ok (f, a * PAGE_SIZE) | None => Ok (f, 0) end;
  alloc_pages n f := match take_run n f with Some (f, a) => Ok (f, a * PAGE_SIZE) | None => Ok (f, 0) end;
  free_page a f := Ok ((a / PAGE_SIZE, 1) :: f);
  free_pages a n f := Ok ((a / PAGE_SIZE, n) :: f)
}.

Lemma take_run_pages n f f' a : 1 <= n -> take_run n f = Some (f', a) -> run_pages f ≡ₚ seqZ a n ++ run_pages f'.
Proof.
  intros Hn. revert f' a. induction f as [|[s l] f IH]; intros f' a; [done|]. cbn [take_run]. destruct (Z.leb_spec n l).
  - intros [= <- <-]. unfold run_pages. cbn. replace (seqZ s l) with (seqZ s (n + (l - n))) by (f_equal; lia). rewrite seqZ_app by lia. by rewrite <- app_assoc.
  - destruct (take_run n f) as [[f1 a1]|]; [|done]. cbn. intros [= <- <-]. specialize (IH f1 a1 eq_refl). unfold run_pages in *. cbn. rewrite IH.
    rewrite !app_assoc. f_equiv. apply Permutation_app_comm.
Qed.

#[export, refine] Instance runs_laws : FrameLaws Runs := {|
  fr_inv f := NoDup (run_pages f) /\ Forall (fun p => 0 < p < 2 ^ 36) (run_pages f);
  fr_free := run_pages;
  fr_owns _ p := 0 < p < 2 ^ 36
|}.
Proof.
  - by intros f [? _].
  - intros f p [_ H] Hp. rewrite Forall_forall in H. by apply H.
  - done.
  - intros f [Hn Hf]. cbn. destruct (take_run 1 f) as [[f' a]|] eqn:E; [|by exists f, 0]. pose proof (take_run_pages 1 _ _ _ ltac:(lia) E) as Hp.
    exists f', (a * PAGE_SIZE). rewrite Hp in Hn, Hf. apply NoDup_app in Hn as (_ & _ & Hn). apply Forall_app in Hf as [Ha Hf]. change (seqZ a 1) with [a] in *.
    apply Forall_cons in Ha as [Ha _]. split; [done|]. split; [done|]. split; [done|]. unfold PAGE_SIZE. destruct (Z.eqb_spec (a * 4096) 0); [lia|]. split; [apply Z.mod_mul; lia|]. by rewrite Z.div_mul by lia.
  - intros f n [Hn Hf] Hr. cbn. destruct (take_run n f) as [[f' a]|] eqn:E; [|by exists f, 0]. pose proof (take_run_pages n _ _ _ ltac:(lia) E) as Hp.
    exists f', (a * PAGE_SIZE). rewrite Hp in Hn, Hf. apply NoDup_app in Hn as (_ & _ & Hn). apply Forall_app in Hf as [Ha Hf].
    assert (Ha0 : 0 < a < 2 ^ 36) by (rewrite Forall_forall in Ha; apply Ha, elem_of_seqZ; lia).
    split; [done|]. split; [done|]. split; [done|]. unfold PAGE_SIZE. destruct (Z.eqb_spec (a * 4096) 0); [lia|]. split; [apply Z.mod_mul; lia|]. exists n. split; [lia|]. by rewrite Z.div_mul by lia.
  - intros f p [Hn Hf] Ho Hp. eexists. split; [reflexivity|]. unfold PAGE_SIZE. rewrite Z.div_mul by lia. unfold run_pages in *. cbn. split; [|done]. split; [by apply NoDup_cons|by apply Forall_cons].
Defined.

Definition pool : Runs := [(1, 255)].
Definition fresh_heap : KHeap Runs := match init (initial pool) with Ok k => k | _ => initial pool end.

Lemma pool_inv : fr_inv pool.
Proof.
  change (NoDup (seqZ 1 255 ++ []) /\ Forall (fun p => 0 < p < 2 ^ 36) (seqZ 1 255 ++ [])). rewrite app_nil_r. split; [apply NoDup_seqZ|].
  apply Forall_forall. intros p Hp. apply elem_of_seqZ in Hp. change (2 ^ 36) with 68719476736. lia.
Qed.

Lemma fresh_rep : Rep fresh_heap ∅ /\ can_extend fresh_heap.
Proof.
  destruct (kheap_init_ok pool [(17, 239)] 4096 pool_inv) as (k & E & HR & He & _); [reflexivity|done|]. unfold fresh_heap. by rewrite E.
Qed.

(** The demo heap after a call, and its answer. *)
Definition heap_after (o : op) (k : KHeap Runs) : KHeap Runs := match run_op 0 o k with Ok (k, _) => k | _ => k end.
Definition heap_answer (o : op) (k : KHeap Runs) : option Z := match run_op 0 o k with Ok (_, r) => Some r | _ => None end.
Lemma heap_step o k k' r r' : run_op 0 o k = Ok (k', r) -> heap_answer o k = Some r' -> k' = heap_after o k /\ r = r'.
Proof. unfold heap_answer, heap_after. intros ->. by intros [= ->]. Qed.

(** 100 bytes, 200 zeroed bytes, the first block moved to 300 bytes, the second
    one freed. *)
Definition heap1 : KHeap Runs := heap_after (OMalloc 100) fresh_heap.
Definition ptr1 : Z := default 0 (heap_answer (OMalloc 100) fresh_heap).
Definition heap2 : KHeap Runs := heap_after (OZalloc 200) heap1.
Definition ptr2 : Z := default 0 (heap_answer (OZalloc 200) heap1).
Definition heap3 : KHeap Runs := heap_after (ORealloc ptr1 300) heap2.
Definition ptr3 : Z := default 0 (heap_answer (ORealloc ptr1 300) heap2).
Definition heap4 : KHeap Runs := heap_after (OFree ptr2) heap3.

Lemma ptr1_ok : heap_answer (OMalloc 100) fresh_heap = Some ptr1 /\ (ptr1 =? 0) = false.
Proof. split; vm_compute; reflexivity. Qed.
Lemma ptr2_ok : heap_answer (OZalloc 200) heap1 = Some ptr2 /\ (ptr2 =? 0) = false /\ (ptr2 =? ptr1) = false.
Proof. split_and!; vm_compute; reflexivity. Qed.
Lemma ptr3_ok : heap_answer (ORealloc ptr1 300) heap2 = Some ptr3 /\ (ptr3 =? 0) = false /\ (ptr3 =? ptr2) = false.
Proof. split_and!; vm_compute; reflexivity. Qed.
Lemma free_ok : heap_answer (OFree ptr2) heap3 = Some 0.
Proof. vm_compute. reflexivity. Qed.

(** One region, and no block in the arena for the class. *)
Definition calm (sz : Z) (k : KHeap Runs) : Prop :=
  length (heap_regions k) = 1%nat /\ head_at (Arena 0) (get_size_class (block_size_for sz)) k = Some 0.
Lemma calm_ok sz k : calm sz k -> can_extend k /\ arena_fits 0 sz k.
Proof.
  intros [Hl Hh]. split; [split; [rewrite Hl; unfold MAX_HEAP_REGIONS; lia|by left]|]. intros b Hb H0. rewrite Hh in Hb. by injection Hb as <-.
Qed.
Lemma calm_runs : calm 100 fresh_heap /\ calm 200 heap1 /\ calm 300 heap2.
Proof. split_and!; (split; vm_compute; reflexivity). Qed.

Lemma given_live o (L : gmap Z Z) q : given o = Some q -> is_Some (L !! q) -> forall p, given o = Some p -> L !! p <> None.
Proof. intros -> [n Hn] p [= <-]. by rewrite Hn. Qed.

Lemma kheap_refines_witness :
  exists n1 n2 n3, 200 <= n2 /\ 300 <= n3 /\ ptr1 <> 0 /\ ptr2 <> 0 /\ ptr3 <> 0 /\
    run_op 0 (OMalloc 100) fresh_heap = Ok (heap1, ptr1) /\ Rep heap1 (<[ptr1 := n1]> ∅) /\
    run_op 0 (OZalloc 200) heap1 = Ok (heap2, ptr2) /\ (forall i, 0 <= i < 200 -> byte (mem heap2) (ptr2 + i) = 0) /\
    run_op 0 (ORealloc ptr1 300) heap2 = Ok (heap3, ptr3) /\ (forall i, 0 <= i < Z.min n1 300 -> byte (mem heap3) (ptr3 + i) = byte (mem heap2) (ptr1 + i)) /\
    run_op 0 (OFree ptr2) heap3 = Ok (heap4, 0) /\ Rep heap4 (<[ptr3 := n3]> ∅).
Proof.
  destruct ptr1_ok as [A1 Z1], ptr2_ok as (A2 & Z2 & N2), ptr3_ok as (A3 & Z3 & N3), calm_runs as (C1 & C2 & C3). apply Z.eqb_neq in N2, N3.
  destruct (kheap_refines 0 (OMalloc 100) fresh_heap ∅) as (k1 & r1 & L1 & E1 & R1 & H1 & _).
  { apply fresh_rep. } { lia. } { intros p Hp. discriminate Hp. } { intros sz [= <-]. split; [lia|apply (calm_ok _ _ C1)]. } { intros sz Hs. discriminate Hs. }
  destruct (heap_step _ _ _ _ _ E1 A1) as [-> ->]. unfold result in R1. cbn [asked others given] in R1. rewrite Z1 in R1. destruct R1 as (n1 & _ & _ & _ & -> & _). change (heap_after (OMalloc 100) fresh_heap) with heap1 in *.
  destruct (kheap_refines 0 (OZalloc 200) heap1 _ H1) as (k2 & r2 & L2 & E2 & R2 & H2 & _ & F2 & _).
  { lia. } { intros p Hp. discriminate Hp. } { intros sz [= <-]. split; [lia|apply (calm_ok _ _ C2)]. } { intros sz [= <-]. apply (calm_ok _ _ C2). }
  destruct (heap_step _ _ _ _ _ E2 A2) as [-> ->]. unfold result in R2. cbn [asked others given] in R2. rewrite Z2 in R2. destruct R2 as (n2 & G2 & _ & _ & -> & _). change (heap_after (OZalloc 200) heap1) with heap2 in *.
  assert (M1 : <[ptr2 := n2]> (<[ptr1 := n1]> ∅) !! ptr1 = Some n1) by (rewrite lookup_insert_ne by exact N2; apply lookup_insert_eq).
  destruct (kheap_refines 0 (ORealloc ptr1 300) heap2 _ H2) as (k3 & r3 & L3 & E3 & R3 & H3 & _ & F3 & _).
  { lia. } { exact (given_live (ORealloc ptr1 300) _ ptr1 eq_refl (mk_is_Some _ _ M1)). } { intros sz [= <-]. split; [lia|apply (calm_ok _ _ C3)]. } { intros sz [= <-]. apply (calm_ok _ _ C3). }
  destruct (heap_step _ _ _ _ _ E3 A3) as [-> ->]. unfold result, others in R3. cbn [asked given] in R3. rewrite Z3 in R3. destruct R3 as (n3 & G3 & _ & _ & -> & _). change (heap_after (ORealloc ptr1 300) heap2) with heap3 in *.
  rewrite delete_insert_ne, delete_insert_id in H3 by (exact (not_eq_sym N2) || apply lookup_empty).
  assert (M2 : <[ptr3 := n3]> (<[ptr2 := n2]> ∅) !! ptr2 = Some n2) by (rewrite lookup_insert_ne by exact N3; apply lookup_insert_eq).
  destruct (kheap_refines 0 (OFree ptr2) heap3 _ H3) as (k4 & r4 & L4 & E4 & R4 & H4 & _).
  { lia. } { exact (given_live (OFree ptr2) _ ptr2 eq_refl (mk_is_Some _ _ M2)). } { intros sz Hs. discriminate Hs. } { intros sz Hs. discriminate Hs. }
  destruct (heap_step _ _ _ _ _ E4 free_ok) as [-> ->]. unfold result, others in R4. cbn [asked given] in R4. destruct R4 as [_ ->]. rewrite delete_insert_ne, delete_insert_id in H4 by (exact (not_eq_sym N3) || apply lookup_empty).
  apply Z.eqb_neq in Z1, Z2, Z3. exists n1, n2, n3. split; [exact G2|]. split; [exact G3|]. split; [exact Z1|]. split; [exact Z2|]. split; [exact Z3|]. split; [exact E1|]. split; [exact H1|]. split; [exact E2|].
  split; [exact (F2 Z2)|]. split; [exact E3|]. split; [intros i Hi; exact (F3 Z3 i n1 M1 Hi)|]. split; [exact E4|exact H4].
Defined.

Lemma coalesce_sound_witness :
  exists k', coalesce fresh_heap = Ok k' /\ Rep k' ∅ /\ same_contents ∅ fresh_heap k' /\ get_available k' = get_available fresh_heap /\ get_used k' = get_used fresh_heap /\
    (free_block_count fresh_heap <= MAX_COALESCE_BLOCKS -> coalesced k').
Proof. apply (coalesce_sound fresh_heap ∅). apply fresh_rep. Defined.

(** Two allocations of 20 bytes, the first is freed, then 48 bytes are asked for
    and filled by their owner. *)
Definition overlap_run : res (Z * Z * Z * bool) :=
  '(k, p) ← kmalloc 0 20 fresh_heap;
  '(k, q) ← kmalloc 0 20 k;
  k ← kfree 0 p k;
  '(k, r) ← kmalloc 0 48 k;
  Ok (p, q, r, is_valid (q - 16) (set_mem (memset r 0 48 (mem k)) k)).

(** The arena of a CPU hands out a block of the right class without looking
    at its size: the third allocation has 48 bytes but only 32 before the header
    of the second one, and filling it destroys that header. *)
Theorem arena_overlap : exists p q r, overlap_run = Ok (p, q, r, false) /\ r < q /\ q - 16 < r + 48.
Proof. eexists _, _, _. split; [vm_compute; reflexivity|]. split; reflexivity. Qed.

(** The first region is followed by pages of another owner; a large allocation
    makes a second region; the other owner gives its pages back and the heap
    grows into them. *)
Definition region_run : res (Z * bool * bool) :=
  '(f, a) ← alloc_pages 16 (frames fresh_heap);
  '(k, p) ← kmalloc 0 80000 (set_frames f fresh_heap);
  f ← free_pages a 16 (frames k);
  let before := is_in_heap p k in
  '(k, q) ← kmalloc 0 50000 (set_frames f k);
  '(k, q) ← kmalloc 0 50000 k;
  Ok (p, before, is_in_heap p k).

(** When the heap grows right after its first region while it has a second
    one, it overwrites the end of the second: a live allocation then lies outside
    all regions, and [kfree] refuses it. *)
Theorem extension_loses_region : exists p, p <> 0 /\ region_run = Ok (p, true, false).
Proof. eexists. split; [|vm_compute; reflexivity]. discriminate. Qed.
End KHeapSpec.
