(* ===== verification/Timer.v ===== *)
(** * The timer wheel

    Models [src/kernel/lib/timerwheel.hpp] and [timerwheel.cpp].  An entry of
    the timer pool is named by its index; the doubly linked list of a slot is
    the list of its entries, head first.  Calling a callback is recorded as an
    event with the time of the wheel; callbacks that call back into the wheel
    are not modelled, nor is the test that a callback lies in the kernel's text
    section, which is a parameter of [tick]. *)

From S2P Require Import Prelude.

Module Timer.

Definition MAX_TIMERS : Z := 64.
Definition WHEEL0_BITS : Z := 8.
Definition WHEEL0_SIZE : Z := Z.shiftl 1 WHEEL0_BITS.
Definition WHEEL0_MASK : Z := WHEEL0_SIZE - 1.
Definition WHEEL1_BITS : Z := 6.
Definition WHEEL1_SIZE : Z := Z.shiftl 1 WHEEL1_BITS.
Definition WHEEL1_MASK : Z := WHEEL1_SIZE - 1.
Definition MAX_TIMEOUT_MS : Z := WHEEL0_SIZE * WHEEL1_SIZE.

(** [callback] is an address, 0 when null. *)
Record TimerEntry := mkEntry {
  expire_time : Z; callback : Z; context : Z; id : Z; active : bool
}.

Record TimerWheel := mkWheel {
  timers_ : list TimerEntry;
  id_map_ : list (option Z);
  next_id_ : Z;
  active_count_ : Z;
  wheel0_ : list (list Z);
  wheel1_ : list (list Z);
  overflow_ : list Z;
  current_time_ : Z;
  wheel0_index_ : Z;
  wheel1_index_ : Z
}.

(** A call of a callback with its context, at a time of the wheel. *)
Record event := mkEvent { ev_time : Z; ev_callback : Z; ev_context : Z }.

(** ** Updates *)

Definition set_timers l w := mkWheel l (id_map_ w) (next_id_ w) (active_count_ w) (wheel0_ w)
  (wheel1_ w) (overflow_ w) (current_time_ w) (wheel0_index_ w) (wheel1_index_ w).
Definition set_ids m n w := mkWheel (timers_ w) m n (active_count_ w) (wheel0_ w)
  (wheel1_ w) (overflow_ w) (current_time_ w) (wheel0_index_ w) (wheel1_index_ w).
Definition set_count n w := mkWheel (timers_ w) (id_map_ w) (next_id_ w) n (wheel0_ w)
  (wheel1_ w) (overflow_ w) (current_time_ w) (wheel0_index_ w) (wheel1_index_ w).
Definition set_wheel0 l w := mkWheel (timers_ w) (id_map_ w) (next_id_ w) (active_count_ w) l
  (wheel1_ w) (overflow_ w) (current_time_ w) (wheel0_index_ w) (wheel1_index_ w).
Definition set_wheel1 l w := mkWheel (timers_ w) (id_map_ w) (next_id_ w) (active_count_ w)
  (wheel0_ w) l (overflow_ w) (current_time_ w) (wheel0_index_ w) (wheel1_index_ w).
Definition set_overflow l w := mkWheel (timers_ w) (id_map_ w) (next_id_ w) (active_count_ w)
  (wheel0_ w) (wheel1_ w) l (current_time_ w) (wheel0_index_ w) (wheel1_index_ w).
Definition set_clock t i0 i1 w := mkWheel (timers_ w) (id_map_ w) (next_id_ w) (active_count_ w)
  (wheel0_ w) (wheel1_ w) (overflow_ w) t i0 i1.

(** ** Operations *)

Definition init (current_time_ms : Z) (w : TimerWheel) : TimerWheel :=
  mkWheel ((fun e => mkEntry (expire_time e) (callback e) (context e) 0 false) <$> timers_ w)
    (replicate (Z.to_nat (MAX_TIMERS + 1)) None) 1 0
    (replicate (Z.to_nat WHEEL0_SIZE) []) (replicate (Z.to_nat WHEEL1_SIZE) []) []
    current_time_ms (Z.land current_time_ms WHEEL0_MASK)
    (Z.land (Z.shiftr current_time_ms WHEEL0_BITS) WHEEL1_MASK).

(** The first inactive entry from index [i]. *)
Fixpoint alloc_from (i : Z) (l : list TimerEntry) : option Z :=
  match l with
  | [] => None
  | e :: l => if negb (active e) then Some i else alloc_from (i + 1) l
  end.
Definition alloc_timer (w : TimerWheel) : option Z := alloc_from 0 (timers_ w).

Definition find_timer (tid : Z) (w : TimerWheel) : res (option Z) :=
  if (0 <? tid) && (tid <=? MAX_TIMERS) then rd (id_map_ w) tid else Ok None.

Definition unlink (i : Z) (l : list Z) : list Z := List.filter (fun j => negb (j =? i)) l.

Definition remove_from_slot (i : Z) (w : TimerWheel) : TimerWheel :=
  set_overflow (unlink i (overflow_ w))
    (set_wheel1 (unlink i <$> wheel1_ w) (set_wheel0 (unlink i <$> wheel0_ w) w)).

Definition add_to_wheel (i : Z) (w : TimerWheel) : res TimerWheel :=
  e ← rd (timers_ w) i;
  let delta := u64 (expire_time e - current_time_ w) in
  if delta <? WHEEL0_SIZE then
    let idx := Z.land (wheel0_index_ w + delta) WHEEL0_MASK in
    slot ← rd (wheel0_ w) idx;
    l ← wr (wheel0_ w) idx (i :: slot);
    Ok (set_wheel0 l w)
  else if delta <? MAX_TIMEOUT_MS then
    let ticks_from_now := Z.shiftr delta WHEEL0_BITS in
    let idx := Z.land (wheel1_index_ w + ticks_from_now) WHEEL1_MASK in
    slot ← rd (wheel1_ w) idx;
    l ← wr (wheel1_ w) idx (i :: slot);
    Ok (set_wheel1 l w)
  else Ok (set_overflow (i :: overflow_ w) w).

Definition schedule (expire_time_ms cb ctx : Z) (w : TimerWheel)
  : res (TimerWheel * Z * list event) :=
  if expire_time_ms <=? current_time_ w
  then Ok (w, 0, if cb =? 0 then [] else [mkEvent (current_time_ w) cb ctx])
  else
    match alloc_timer w with
    | None => Ok (w, 0, [])
    | Some i =>
        let tid := next_id_ w in
        let next_id := u32 (tid + 1) in
        let next_id := if MAX_TIMERS <? next_id then 1 else next_id in
        l ← wr (timers_ w) i (mkEntry expire_time_ms cb ctx tid true);
        m ← wr (id_map_ w) tid (Some i);
        w ← add_to_wheel i (set_ids m next_id (set_timers l w));
        Ok (set_count (u32 (active_count_ w + 1)) w, tid, [])
    end.

(** Marks an entry inactive and forgets its identifier. *)
Definition retire (i : Z) (e : TimerEntry) (w : TimerWheel) : res TimerWheel :=
  m ← (if id e <=? MAX_TIMERS then wr (id_map_ w) (id e) None else Ok (id_map_ w));
  l ← wr (timers_ w) i (mkEntry (expire_time e) (callback e) (context e) 0 false);
  Ok (set_count (u32 (active_count_ w - 1)) (set_timers l (set_ids m (next_id_ w) w))).

Definition cancel (timer_id : Z) (w : TimerWheel) : res (TimerWheel * bool) :=
  if timer_id =? 0 then Ok (w, false)
  else
    r ← find_timer timer_id w;
    match r with
    | None => Ok (w, false)
    | Some i =>
        e ← rd (timers_ w) i;
        w ← retire i e (remove_from_slot i w);
        Ok (w, true)
    end.

(** Re-adds a detached list of entries. *)
Definition add_all (l : list Z) (w : TimerWheel) : res TimerWheel := foldM (fun w i => add_to_wheel i w) l w.

Definition cascade (level : Z) (w : TimerWheel) : res TimerWheel :=
  if level =? 1 then
    head ← rd (wheel1_ w) (wheel1_index_ w);
    l ← wr (wheel1_ w) (wheel1_index_ w) [];
    add_all head (set_wheel1 l w)
  else if level =? 2 then add_all (overflow_ w) (set_overflow [] w)
  else Ok w.

(** One entry of the slot that is due; [valid] is the test that a callback lies
    in the kernel's text section. *)
Definition fire_one (valid : Z -> bool) (acc : TimerWheel * list event) (i : Z)
  : res (TimerWheel * list event) :=
  let '(w, evs) := acc in
  e ← rd (timers_ w) i;
  if (expire_time e <=? current_time_ w) && active e then
    w ← retire i e w;
    let evs := if negb (callback e =? 0) && valid (callback e)
               then evs ++ [mkEvent (current_time_ w) (callback e) (context e)] else evs in
    Ok (w, evs)
  else if active e then w ← add_to_wheel i w; Ok (w, evs)
  else Ok (w, evs).

(** One millisecond. *)
Definition tick_one (valid : Z -> bool) (acc : TimerWheel * list event) : res (TimerWheel * list event) :=
  let '(w, evs) := acc in
  let i0 := Z.land (wheel0_index_ w + 1) WHEEL0_MASK in
  let w := set_clock (u64 (current_time_ w + 1)) i0 (wheel1_index_ w) w in
  w ← (if i0 =? 0 then
         let i1 := Z.land (wheel1_index_ w + 1) WHEEL1_MASK in
         w ← cascade 1 (set_clock (current_time_ w) i0 i1 w);
         if i1 =? 0 then cascade 2 w else Ok w
       else Ok w);
  head ← rd (wheel0_ w) i0;
  l ← wr (wheel0_ w) i0 [];
  foldM (fire_one valid) head (set_wheel0 l w, evs).

(** The loop runs once per millisecond up to the given time. *)
Fixpoint tick_loop (valid : Z -> bool) (n : nat) (acc : TimerWheel * list event)
  : res (TimerWheel * list event) :=
  match n with
  | O => Ok acc
  | S n => acc ← tick_one valid acc; tick_loop valid n acc
  end.

Definition tick (valid : Z -> bool) (current_time_ms : Z) (w : TimerWheel)
  : res (TimerWheel * list event) :=
  tick_loop valid (Z.to_nat (current_time_ms - current_time_ w)) (w, []).

(** ** The global interface *)

(** [now] is the reading of the system timer. *)
Definition g_schedule (g_initialized : bool) (now timeout_ms cb ctx : Z) (w : TimerWheel)
  : res (TimerWheel * Z * list event) :=
  if negb g_initialized then Ok (w, 0, []) else schedule (u64 (now + timeout_ms)) cb ctx w.
Definition g_cancel (g_initialized : bool) (timer_id : Z) (w : TimerWheel) : res (TimerWheel * bool) :=
  if negb g_initialized then Ok (w, false) else cancel timer_id w.
Definition g_tick (g_initialized : bool) (valid : Z -> bool) (now : Z) (w : TimerWheel)
  : res (TimerWheel * list event) :=
  if negb g_initialized then Ok (w, []) else tick valid now w.

(** The wheel before [init]. *)
Definition blank : TimerWheel :=
  mkWheel (replicate (Z.to_nat MAX_TIMERS) (mkEntry 0 0 0 0 false)) [] 0 0 [] [] [] 0 0 0.

End Timer.
