(* ===== verification/TimerSpec.v ===== *)
(** * The timer wheel fires every timer at its time

    The invariant of the wheel of [src/kernel/lib/timerwheel.cpp] and its
    consequences: an entry waits in a slot whose turn comes no later than its
    expiry, so that advancing the clock calls exactly the callbacks that are
    due, in the order of their times. *)

From Stdlib Require Import Sorting.Sorted.
From S2P Require Import Prelude Timer.

Module TimerSpec.
Import Timer.

(** ** Armed entries *)

(** Entry [i] of the pool is armed with the data [e]. *)
Definition armed (ts : list TimerEntry) (i : Z) (e : TimerEntry) : Prop :=
  0 <= i /\ ts !! Z.to_nat i = Some e /\ active e = true.

Definition is_armed (ts : list TimerEntry) (i : Z) : bool :=
  match ts !! Z.to_nat i with Some e => active e | None => false end.

(** The indices of the armed entries. *)
Definition actives (ts : list TimerEntry) : list Z :=
  List.filter (is_armed ts) (seqZ 0 (Z.of_nat (length ts))).

Lemma armed_fun ts i e e' : armed ts i e -> armed ts i e' -> e = e'.
Proof. unfold armed. naive_solver congruence. Qed.

Lemma armed_range ts i e : armed ts i e -> 0 <= i < Z.of_nat (length ts).
Proof. intros (Hi & He & _). apply lookup_lt_Some in He. lia. Qed.

Lemma elem_of_actives ts i : i ∈ actives ts <-> exists e, armed ts i e.
Proof.
  unfold actives. rewrite list_elem_of_In, filter_In, <- list_elem_of_In, elem_of_seqZ.
  unfold is_armed, armed. split.
  - intros (Hi & Ha). destruct (ts !! Z.to_nat i) as [e|] eqn:E; [|done]. exists e. split; [lia|done].
  - intros (e & Hi & He & Ha). rewrite He. apply lookup_lt_Some in He. split; [lia|done].
Qed.

Lemma NoDup_actives ts : NoDup (actives ts).
Proof.
  unfold actives. assert (H := NoDup_seqZ 0 (Z.of_nat (length ts))).
  induction H as [|x l Hx Hl IH]; simpl; [constructor|]. destruct (is_armed ts x); [|done].
  constructor; [|done]. by rewrite list_elem_of_In, filter_In, <- list_elem_of_In, (and_comm (_ ∈ _)); intros [].
Qed.

(** The entries of an updated pool. *)
Lemma armed_insert ts i e j x :
  0 <= i < Z.of_nat (length ts) ->
  armed (<[Z.to_nat i := e]> ts) j x <->
  (j = i /\ x = e /\ active e = true) \/ (j <> i /\ armed ts j x).
Proof.
  intros Hi. unfold armed. destruct (decide (j = i)) as [->|Hj].
  - rewrite list_lookup_insert_eq by lia. split; [|naive_solver lia].
    intros (_ & [= ->] & ?). left. done.
  - split.
    + intros (? & Hl & ?). right. rewrite list_lookup_insert_ne in Hl by lia. done.
    + intros [[]|(_ & ? & ? & ?)]; [done|]. rewrite list_lookup_insert_ne by lia. done.
Qed.

Lemma actives_arm ts i e :
  0 <= i < Z.of_nat (length ts) -> (forall e', ~ armed ts i e') -> active e = true ->
  actives (<[Z.to_nat i := e]> ts) ≡ₚ i :: actives ts.
Proof.
  intros Hi Hn He. apply NoDup_Permutation.
  - apply NoDup_actives.
  - constructor; [|apply NoDup_actives]. rewrite elem_of_actives. naive_solver.
  - intros j. rewrite elem_of_cons, !elem_of_actives. setoid_rewrite armed_insert; [|done].
    destruct (decide (j = i)); naive_solver.
Qed.

Lemma actives_disarm ts i e e' :
  armed ts i e -> active e' = false -> i :: actives (<[Z.to_nat i := e']> ts) ≡ₚ actives ts.
Proof.
  intros Ha He'. assert (Hi := armed_range _ _ _ Ha). apply NoDup_Permutation.
  - constructor; [|apply NoDup_actives]. rewrite elem_of_actives. setoid_rewrite armed_insert; [|done].
    naive_solver congruence.
  - apply NoDup_actives.
  - intros j. rewrite elem_of_cons, !elem_of_actives. setoid_rewrite armed_insert; [|done].
    destruct (decide (j = i)); naive_solver congruence.
Qed.

(** ** Slots *)

(** Every entry that waits somewhere. *)
Definition all (w : TimerWheel) : list Z := concat (wheel0_ w) ++ concat (wheel1_ w) ++ overflow_ w.

Lemma slot_insert {A} (l : list (list A)) j x y :
  l !! j = Some y -> concat (<[j := x]> l) ++ y ≡ₚ concat l ++ x.
Proof.
  revert j. induction l as [|z l IH]; intros [|j] H; simpl in *; simplify_eq.
  - rewrite (Permutation_app_comm _ y), <- app_assoc. f_equiv. apply Permutation_app_comm.
  - by rewrite <- !app_assoc, IH by done.
Qed.

Lemma concat_push {A} (l : list (list A)) j i y :
  l !! j = Some y -> concat (<[j := i :: y]> l) ≡ₚ i :: concat l.
Proof.
  intros H. apply (Permutation_app_inv_r y). rewrite slot_insert by done.
  by rewrite <- Permutation_middle.
Qed.

Lemma concat_detach {A} (l : list (list A)) j y :
  l !! j = Some y -> concat l ≡ₚ y ++ concat (<[j := []]> l).
Proof. intros H. rewrite (Permutation_app_comm y), slot_insert by done. by rewrite app_nil_r. Qed.

Lemma elem_of_concat {A} (l : list (list A)) x : x ∈ concat l <-> exists j s, l !! j = Some s /\ x ∈ s.
Proof.
  rewrite list_elem_of_In, in_concat. setoid_rewrite <- list_elem_of_In.
  split.
  - intros (s & (j & Hj)%list_elem_of_lookup & Hx). eauto.
  - intros (j & s & Hj & Hx). exists s. split; [|done]. by apply list_elem_of_lookup_2 in Hj.
Qed.

Lemma elem_of_push {A} (l : list (list A)) j i y k s x :
  l !! j = Some y -> <[j := i :: y]> l !! k = Some s -> x ∈ s ->
  (x = i /\ k = j) \/ (exists s', l !! k = Some s' /\ x ∈ s').
Proof.
  intros Hj Hk Hx. destruct (decide (k = j)) as [->|Hne].
  - rewrite list_lookup_insert_eq in Hk by (by eapply lookup_lt_Some). simplify_eq.
    apply elem_of_cons in Hx as [->|Hx]; [by left|right; eauto].
  - rewrite list_lookup_insert_ne in Hk by done. right. eauto.
Qed.

Lemma elem_of_detach {A} (l : list (list A)) j k s x :
  <[j := []]> l !! k = Some s -> x ∈ s -> k <> j /\ l !! k = Some s.
Proof.
  intros Hk Hx. destruct (decide (k = j)) as [->|Hne].
  - destruct (decide (j < length l)%nat).
    + rewrite list_lookup_insert_eq in Hk by done. simplify_eq. by apply not_elem_of_nil in Hx.
    + rewrite list_insert_ge in Hk by lia. apply lookup_lt_Some in Hk. lia.
  - by rewrite list_lookup_insert_ne in Hk by done.
Qed.

(** ** The invariant

    [lo] bounds the expiry of the armed entries from below, [lb] the block of
    256 ms in which a level-1 slot is cascaded, [ob] the block of 16384 ms of
    the overflow entries; [d] holds the entries that are detached from their
    slot.  Between two operations [d] is empty and the bounds are those of the
    current time. *)
Record inv (lo lb ob : Z) (d : list Z) (w : TimerWheel) : Prop := {
  i_timers : length (timers_ w) = 64%nat;
  i_map : length (id_map_ w) = 65%nat;
  i_len0 : length (wheel0_ w) = 256%nat;
  i_len1 : length (wheel1_ w) = 64%nat;
  i_time : 0 <= current_time_ w < 2 ^ 64;
  i_idx0 : wheel0_index_ w = current_time_ w mod 256;
  i_idx1 : wheel1_index_ w = current_time_ w / 256 mod 64;
  i_next : 1 <= next_id_ w <= 64;
  i_ids : forall k i, id_map_ w !! k = Some (Some i) ->
    exists e, armed (timers_ w) i e /\ id e = Z.of_nat k;
  i_armed : forall i e, armed (timers_ w) i e -> lo <= expire_time e < 2 ^ 64 /\ 1 <= id e <= 64;
  i_all : d ++ all w ≡ₚ actives (timers_ w);
  i_count : active_count_ w = Z.of_nat (length (actives (timers_ w)));
  i_w0 : forall j l i e, wheel0_ w !! j = Some l -> i ∈ l -> armed (timers_ w) i e ->
    expire_time e < current_time_ w + 256 /\ expire_time e mod 256 = Z.of_nat j;
  i_w1 : forall j l i e, wheel1_ w !! j = Some l -> i ∈ l -> armed (timers_ w) i e ->
    exists b, b mod 64 = Z.of_nat j /\ lb <= b < current_time_ w / 256 + 64 /\
      (expire_time e / 256 = b \/ expire_time e / 256 = b + 1);
  i_ov : forall i e, i ∈ overflow_ w -> armed (timers_ w) i e -> ob < expire_time e / 16384
}.

(** A wheel between two operations. *)
Definition wf (w : TimerWheel) : Prop :=
  inv (current_time_ w + 1) (current_time_ w / 256 + 1) (current_time_ w / 16384) [] w.

(** What placing entries does not touch. *)
Definition same_clock (w w' : TimerWheel) : Prop :=
  timers_ w' = timers_ w /\ current_time_ w' = current_time_ w /\
  wheel0_index_ w' = wheel0_index_ w /\ wheel1_index_ w' = wheel1_index_ w.

#[export] Instance same_clock_trans : Transitive same_clock.
Proof. unfold same_clock. intros a b c. naive_solver congruence. Qed.

Lemma mask0 x : Z.land x WHEEL0_MASK = x mod 256.
Proof. apply (land_mask_mod 8). lia. Qed.
Lemma mask1 x : Z.land x WHEEL1_MASK = x mod 64.
Proof. apply (land_mask_mod 6). lia. Qed.
Lemma shift0 x : Z.shiftr x WHEEL0_BITS = x / 256.
Proof. apply (Z.shiftr_div_pow2 x 8). lia. Qed.

Lemma lookup_slot {A} (l : list A) n x :
  length l = n -> 0 <= x < Z.of_nat n -> exists s, l !! Z.to_nat x = Some s.
Proof. intros Hl Hx. apply lookup_lt_is_Some. lia. Qed.
(** ** Placing an entry *)

(** A slot list that gained the entry at its head. *)
Lemma all_push0 w j i y :
  wheel0_ w !! j = Some y -> all (set_wheel0 (<[j := i :: y]> (wheel0_ w)) w) ≡ₚ i :: all w.
Proof. intros H. unfold all. cbn. by rewrite concat_push. Qed.
Lemma all_push1 w j i y :
  wheel1_ w !! j = Some y -> all (set_wheel1 (<[j := i :: y]> (wheel1_ w)) w) ≡ₚ i :: all w.
Proof. intros H. unfold all. cbn. rewrite concat_push by done. cbn. by rewrite <- Permutation_middle. Qed.
Lemma all_push2 w i : all (set_overflow (i :: overflow_ w) w) ≡ₚ i :: all w.
Proof. unfold all. cbn. by rewrite <- !Permutation_middle. Qed.

Lemma inv_elem lo lb ob d w i : inv lo lb ob d w -> i ∈ d ++ all w -> exists e, armed (timers_ w) i e.
Proof. intros H Hi. apply elem_of_actives. by rewrite <- (i_all _ _ _ _ _ H). Qed.

Lemma inv_NoDup lo lb ob d w : inv lo lb ob d w -> NoDup (d ++ all w).
Proof. intros H. rewrite (i_all _ _ _ _ _ H). apply NoDup_actives. Qed.

Lemma place_ok lo lb ob d i w :
  inv lo lb ob (i :: d) w -> current_time_ w <= lo -> lb <= current_time_ w / 256 + 1 ->
  ob <= current_time_ w / 16384 ->
  exists w', add_to_wheel i w = Ok w' /\ inv lo lb ob d w' /\ same_clock w w'.
Proof.
  intros H Hlo Hlb Hob. destruct (inv_elem _ _ _ _ _ i H) as [e He]; [apply list_elem_of_here|].
  destruct (i_armed _ _ _ _ _ H i e He) as [Hx _]. assert (Ht := i_time _ _ _ _ _ H).
  assert (Hsame : forall x, armed (timers_ w) i x -> x = e) by (intros; by eapply armed_fun).
  unfold add_to_wheel. rewrite (rd_Z _ i e) by apply He. rewrite bind_Ok. cbv zeta.
  rewrite u64_small, shift0, mask0, mask1 by lia.
  rewrite (i_idx0 _ _ _ _ _ H), (i_idx1 _ _ _ _ _ H).
  change WHEEL0_SIZE with 256. change MAX_TIMEOUT_MS with 16384.
  set (c := current_time_ w) in *. set (x := expire_time e) in *.
  destruct (Z.ltb_spec (x - c) 256).
  - set (j := (c mod 256 + (x - c)) mod 256).
    destruct (lookup_slot (wheel0_ w) 256 j) as [y Hy]; [apply H|subst j; div_lia|].
    rewrite (rd_Z _ j y) by (done || (subst j; div_lia)). rewrite bind_Ok.
    rewrite wr_Z by (rewrite (i_len0 _ _ _ _ _ H); subst j; div_lia). rewrite bind_Ok.
    eexists. split; [done|]. split; [|done]. destruct H. constructor; cbn; auto.
    + by rewrite length_insert.
    + rewrite <- i_all0. etrans; [apply Permutation_app_head, (all_push0 w), Hy|]. by rewrite <- Permutation_middle.
    + intros k s i' e' Hk Hi' He'. destruct (elem_of_push _ _ _ _ _ _ _ Hy Hk Hi') as [[-> ->]|(? & ? & ?)].
      * rewrite (Hsame e') by done. fold x c. subst j. split; [lia|]. rewrite Z2Nat.id by div_lia. div_lia.
      * eauto.
  - destruct (Z.ltb_spec (x - c) 16384).
    + set (j := (c / 256 mod 64 + (x - c) / 256) mod 64).
      destruct (lookup_slot (wheel1_ w) 64 j) as [y Hy]; [apply H|subst j; div_lia|].
      rewrite (rd_Z _ j y) by (done || (subst j; div_lia)). rewrite bind_Ok.
      rewrite wr_Z by (rewrite (i_len1 _ _ _ _ _ H); subst j; div_lia). rewrite bind_Ok.
      eexists. split; [done|]. split; [|done]. destruct H. constructor; cbn; auto.
      * by rewrite length_insert.
      * rewrite <- i_all0. etrans; [apply Permutation_app_head, (all_push1 w), Hy|]. by rewrite <- Permutation_middle.
      * intros k s i' e' Hk Hi' He'. destruct (elem_of_push _ _ _ _ _ _ _ Hy Hk Hi') as [[-> ->]|(? & ? & ?)].
        -- rewrite (Hsame e') by done. fold x c. exists (c / 256 + (x - c) / 256). subst j.
           rewrite Z2Nat.id by div_lia. split; [div_lia|]. split; div_lia.
        -- eauto.
    + eexists. split; [done|]. split; [|done]. destruct H. constructor; cbn; auto.
      * rewrite <- i_all0. etrans; [apply Permutation_app_head, (all_push2 w)|]. by rewrite <- Permutation_middle.
      * intros i' e' [->|Hi']%elem_of_cons He'; [|eauto]. rewrite (Hsame e') by done. fold x. div_lia.
Qed.

Lemma add_all_ok lo lb ob d l w :
  inv lo lb ob (l ++ d) w -> current_time_ w <= lo -> lb <= current_time_ w / 256 + 1 ->
  ob <= current_time_ w / 16384 ->
  exists w', add_all l w = Ok w' /\ inv lo lb ob d w' /\ same_clock w w'.
Proof.
  revert w. induction l as [|i l IH]; intros w H Hlo Hlb Hob; [by exists w|].
  unfold add_all. simpl foldM. destruct (place_ok lo lb ob (l ++ d) i w) as (w1 & -> & H1 & Hc); [done..|].
  rewrite bind_Ok. destruct (IH w1) as (w2 & E2 & H2 & Hc2); [done|destruct Hc as (_ & -> & _); done..|].
  exists w2. split; [done|]. split; [done|]. by etrans.
Qed.

(** ** Detaching a slot *)

Lemma detach0_ok lo lb ob d w y :
  inv lo lb ob d w -> wheel0_ w !! Z.to_nat (wheel0_index_ w) = Some y ->
  inv lo lb ob (y ++ d) (set_wheel0 (<[Z.to_nat (wheel0_index_ w) := []]> (wheel0_ w)) w).
Proof.
  intros H Hy. destruct H. constructor; cbn; auto.
  - by rewrite length_insert.
  - rewrite <- i_all0. unfold all. cbn. rewrite (concat_detach (wheel0_ w)) by done.
    by rewrite (Permutation_app_comm y d), <- !app_assoc.
  - intros k s i e Hk Hi. destruct (elem_of_detach _ _ _ _ _ Hk Hi). eauto.
Qed.

Lemma detach1_ok lo ob d w y :
  inv lo (current_time_ w / 256) ob d w -> wheel1_ w !! Z.to_nat (wheel1_index_ w) = Some y ->
  inv lo (current_time_ w / 256 + 1) ob (y ++ d) (set_wheel1 (<[Z.to_nat (wheel1_index_ w) := []]> (wheel1_ w)) w).
Proof.
  intros H Hy. destruct H. constructor; cbn; auto.
  - by rewrite length_insert.
  - rewrite <- i_all0. unfold all. cbn. rewrite (concat_detach (wheel1_ w)) by done.
    rewrite (Permutation_app_comm y d), <- !app_assoc. f_equiv. rewrite !app_assoc. f_equiv. f_equiv.
    apply Permutation_app_comm.
  - intros k s i e Hk Hi He. destruct (elem_of_detach _ _ _ _ _ Hk Hi) as [Hne Hk'].
    destruct (i_w3 k s i e Hk' Hi He) as (b & Hb & Hr & Hd). exists b. split; [done|]. split; [|done].
    enough (b <> current_time_ w / 256) by lia. intros ->. rewrite i_idx3 in Hne. lia.
Qed.

Lemma detach2_ok lo lb ob ob' d w :
  inv lo lb ob d w -> inv lo lb ob' (overflow_ w ++ d) (set_overflow [] w).
Proof.
  intros H. destruct H. constructor; cbn; auto.
  - rewrite <- i_all0. unfold all. cbn. rewrite app_nil_r, <- app_assoc, (Permutation_app_comm (overflow_ w)).
    by rewrite <- !app_assoc.
  - intros ? ? []%not_elem_of_nil.
Qed.
(** ** Retiring an entry *)

Definition retired (e : TimerEntry) : TimerEntry :=
  mkEntry (expire_time e) (callback e) (context e) 0 false.

Lemma actives_bound ts : (length (actives ts) <= length ts)%nat.
Proof. unfold actives. etrans; [apply filter_length_le|]. by rewrite length_seqZ, Nat2Z.id. Qed.

Lemma retire_ok lo lb ob d i e w :
  inv lo lb ob (i :: d) w -> armed (timers_ w) i e ->
  exists w', retire i e w = Ok w' /\ inv lo lb ob d w' /\ all w' = all w /\
    timers_ w' = <[Z.to_nat i := retired e]> (timers_ w) /\
    current_time_ w' = current_time_ w.
Proof.
  intros H He. assert (Hi := armed_range _ _ _ He). destruct (i_armed _ _ _ _ _ H i e He) as [Hx Hid].
  assert (Hn := inv_NoDup _ _ _ _ _ H). unfold retire.
  destruct (Z.leb_spec (id e) MAX_TIMERS) as [_|Hbad]; [|unfold MAX_TIMERS in Hbad; lia].
  rewrite (wr_Z (id_map_ w)) by (rewrite (i_map _ _ _ _ _ H); lia). rewrite bind_Ok, wr_Z, bind_Ok by done.
  eexists. split; [done|]. fold (retired e). split; [|done].
  assert (Hsub : forall j x, armed (<[Z.to_nat i := retired e]> (timers_ w)) j x -> j <> i /\ armed (timers_ w) j x).
  { intros j x Hj. rewrite armed_insert in Hj by done. naive_solver. }
  assert (Hact := actives_disarm _ _ _ (retired e) He eq_refl).
  destruct H. constructor; cbn; auto.
  - by rewrite length_insert.
  - by rewrite length_insert.
  - intros k j Hk. destruct (decide (k = Z.to_nat (id e))) as [->|Hne].
    { rewrite list_lookup_insert_eq in Hk by lia. done. }
    rewrite list_lookup_insert_ne in Hk by done. destruct (i_ids0 k j Hk) as (x & Hx' & Hidx).
    exists x. split; [|done]. rewrite armed_insert by done. right. split; [|done]. intros ->.
    rewrite (armed_fun _ _ _ _ He Hx') in Hne. lia.
  - intros j x Hj. apply (i_armed0 j), Hsub, Hj.
  - apply (Permutation_cons_inv (a := i)). by rewrite Hact, <- i_all0.
  - rewrite i_count0, <- Hact. assert (Hb := actives_bound (<[Z.to_nat i := retired e]> (timers_ w))).
    rewrite length_insert in Hb. rewrite length_cons. unwrap. lia.
  - intros k s j x Hk Hj Hx'. eapply i_w2; [done..|]. by apply Hsub.
  - intros k s j x Hk Hj Hx'. eapply i_w3; [done..|]. by apply Hsub.
  - intros j x Hj Hx'. eapply i_ov0; [done|]. by apply Hsub.
Qed.

(** ** Unlinking an entry *)

Lemma elem_of_unlink i j l : j ∈ unlink i l <-> j ∈ l /\ j <> i.
Proof. unfold unlink. rewrite !list_elem_of_In, filter_In, negb_true_iff, Z.eqb_neq. done. Qed.

Lemma unlink_app i l k : unlink i (l ++ k) = unlink i l ++ unlink i k.
Proof. apply List.filter_app. Qed.

Lemma unlink_concat i l : unlink i (concat l) = concat (unlink i <$> l).
Proof. induction l as [|x l IH]; [done|]. by rewrite concat_cons, fmap_cons, concat_cons, unlink_app, IH. Qed.

Lemma all_remove i w : all (remove_from_slot i w) = unlink i (all w).
Proof. unfold all. cbn. by rewrite !unlink_app, !unlink_concat. Qed.

Lemma unlink_cons i x l : unlink i (x :: l) = if x =? i then unlink i l else x :: unlink i l.
Proof. unfold unlink. simpl. by destruct (x =? i). Qed.

Lemma unlink_notin i l : i ∉ l -> unlink i l = l.
Proof.
  induction l as [|x l IH]; [done|]. intros [Hx Hl]%not_elem_of_cons.
  rewrite unlink_cons, IH by done. by destruct (Z.eqb_spec x i).
Qed.

Lemma unlink_perm i l : NoDup l -> i ∈ l -> i :: unlink i l ≡ₚ l.
Proof.
  induction 1 as [|x l Hx Hn IH]; [by intros []%not_elem_of_nil|]. rewrite unlink_cons. intros [->|Hi]%elem_of_cons.
  - by rewrite Z.eqb_refl, unlink_notin.
  - destruct (Z.eqb_spec x i) as [->|_]; [done|]. rewrite <- (IH Hi) at 2. constructor.
Qed.

Lemma slot_unlink i (l : list (list Z)) k s j :
  (unlink i <$> l) !! k = Some s -> j ∈ s -> exists s', l !! k = Some s' /\ j ∈ s'.
Proof.
  rewrite list_lookup_fmap. destruct (l !! k) as [s'|]; [|done]. intros [= <-] [Hj _]%elem_of_unlink. eauto.
Qed.

Lemma unlink_ok lo lb ob d i w :
  inv lo lb ob d w -> i ∈ all w -> inv lo lb ob (i :: d) (remove_from_slot i w).
Proof.
  intros H Hi. assert (Hn := inv_NoDup _ _ _ _ _ H). apply NoDup_app in Hn as (_ & _ & Hn).
  assert (Hp := unlink_perm i (all w) Hn Hi). rewrite <- all_remove in Hp.
  destruct H. constructor; cbn; auto.
  - by rewrite length_fmap.
  - by rewrite length_fmap.
  - by rewrite <- i_all0, <- Hp, Permutation_middle.
  - intros k s j e Hk Hj. destruct (slot_unlink _ _ _ _ _ Hk Hj) as (? & ? & ?). eauto.
  - intros k s j e Hk Hj. destruct (slot_unlink _ _ _ _ _ Hk Hj) as (? & ? & ?). eauto.
  - intros j e [Hj _]%elem_of_unlink. eauto.
Qed.
(** ** Advancing the clock *)

(** An entry after the wheel reached time [T]. *)
Definition retire_upto (T : Z) (e : TimerEntry) : TimerEntry :=
  if active e && (expire_time e <=? T) then retired e else e.

(** The call an entry causes by time [T], at its own expiry. *)
Definition fires (valid : Z -> bool) (T : Z) (e : TimerEntry) : option event :=
  if active e && (expire_time e <=? T) && negb (callback e =? 0) && valid (callback e)
  then Some (mkEvent (expire_time e) (callback e) (context e)) else None.

(** The calls that are due by time [T]. *)
Definition due (valid : Z -> bool) (T : Z) (ts : list TimerEntry) : list event := omap (fires valid T) ts.

Lemma omap_insert {A B} (f : A -> option B) l j x y :
  l !! j = Some x -> f y = None -> omap f l ≡ₚ option_list (f x) ++ omap f (<[j := y]> l).
Proof.
  intros Hj Hy. revert j Hj. induction l as [|z l IH]; intros [|j] Hj; simpl in *; simplify_eq.
  - rewrite Hy. by destruct (f x).
  - destruct (f z); rewrite (IH j Hj); [by rewrite Permutation_middle|done].
Qed.

Lemma omap_none {A B} (f : A -> option B) l :
  (forall k x, l !! k = Some x -> f x = None) -> omap f l = [].
Proof.
  induction l as [|x l IH]; intros H; [done|]. simpl. rewrite (H O x eq_refl). apply IH.
  intros k. apply (H (S k)).
Qed.

Lemma retired_inactive T e : retire_upto T (retired e) = retired e.
Proof. done. Qed.

(** The loop over the slot that is due. *)
Lemma fire_all_ok valid c lb ob l w evs :
  inv c lb ob l w -> current_time_ w = c -> lb = c / 256 + 1 -> ob = c / 16384 ->
  (forall i e, i ∈ l -> armed (timers_ w) i e -> expire_time e = c) ->
  (forall i e, i ∈ all w -> armed (timers_ w) i e -> c < expire_time e) ->
  exists w' new, foldM (fire_one valid) l (w, evs) = Ok (w', evs ++ new) /\ wf w' /\
    current_time_ w' = c /\ timers_ w' = retire_upto c <$> timers_ w /\ new ≡ₚ due valid c (timers_ w).
Proof.
  revert w evs. induction l as [|i l IH]; intros w evs H Hc Hlb Hob Hl Hall.
  - assert (Hlate : forall i e, armed (timers_ w) i e -> c < expire_time e).
    { intros i e He. apply (Hall i); [|done]. change (i ∈ [] ++ all w). rewrite (i_all _ _ _ _ _ H). apply elem_of_actives. eauto. }
    assert (Hk : forall k e, timers_ w !! k = Some e -> active e && (expire_time e <=? c) = false).
    { intros k e He. destruct (active e) eqn:Ea; [|done]. apply Z.leb_gt, (Hlate (Z.of_nat k)).
      unfold armed. rewrite Nat2Z.id. split; [lia|done]. }
    exists w, []. rewrite app_nil_r. split; [done|]. split.
    { unfold wf. rewrite Hc, <- Hlb, <- Hob. destruct H. constructor; auto.
      intros i e He. split; [|by apply (i_armed0 i e)]. specialize (Hlate i e He). apply i_armed0 in He. lia. }
    split; [done|]. split.
    + symmetry. rewrite <- (list_fmap_id (timers_ w)) at 2. apply list_fmap_ext. intros k e He.
      unfold retire_upto. by rewrite (Hk k e).
    + unfold due. rewrite omap_none; [done|]. intros k e He. unfold fires. by rewrite (Hk k e).
  - destruct (inv_elem _ _ _ _ _ i H) as [e He]; [apply list_elem_of_here|].
    assert (Hx := Hl i e (list_elem_of_here _ _) He). assert (Hi := armed_range _ _ _ He).
    destruct (retire_ok _ _ _ _ _ _ _ H He) as (w1 & E1 & H1 & Ha1 & Ht1 & Hc1).
    assert (Hone : fire_one valid (w, evs) i = Ok (w1, evs ++ option_list (fires valid c e))).
    { unfold fire_one. rewrite (rd_Z _ i e) by apply He. rewrite bind_Ok. unfold fires.
      destruct He as (_ & _ & ->). rewrite Hc, Hx, Z.leb_refl. cbn [andb]. rewrite E1, bind_Ok, Hc1, Hc.
      destruct (_ && _); [done|]. by rewrite app_nil_r. }
    cbn [foldM]. rewrite Hone, bind_Ok.
    assert (Hsub : forall j x, armed (timers_ w1) j x -> armed (timers_ w) j x).
    { intros j x. rewrite Ht1, armed_insert by done. naive_solver. }
    destruct (IH w1 (evs ++ option_list (fires valid c e))) as (w' & new & E & Hwf & Hc' & Ht & Hnew); [done|congruence|done..| | |].
    { intros j x Hj Hjx. apply (Hl j); [by apply list_elem_of_further|auto]. }
    { rewrite Ha1. intros j x Hj Hjx. apply (Hall j); auto. }
    exists w', (option_list (fires valid c e) ++ new). rewrite E, app_assoc.
    split; [done|]. split; [done|]. split; [done|]. split.
    + rewrite Ht, Ht1, list_fmap_insert. apply list_insert_id. rewrite list_lookup_fmap.
      destruct He as (_ & -> & He). cbn. f_equal. unfold retire_upto. by rewrite He, Hx, Z.leb_refl.
    + unfold due. rewrite (omap_insert _ (timers_ w) (Z.to_nat i) e (retired e)) by (done || apply He).
      f_equiv. by rewrite <- Ht1.
Qed.

(** The clock moved by one millisecond, before cascading. *)
Lemma inv_clock w :
  wf w -> current_time_ w + 1 < 2 ^ 64 ->
  let c := current_time_ w + 1 in
  inv c (current_time_ w / 256 + 1) (current_time_ w / 16384) []
    (set_clock c (c mod 256) (c / 256 mod 64) w).
Proof.
  intros H Hc c. destruct H. constructor; cbn; auto.
  - lia.
  - intros k s i e Hk Hi He. destruct (i_w2 k s i e Hk Hi He). split; [lia|done].
  - intros k s i e Hk Hi He. destruct (i_w3 k s i e Hk Hi He) as (b & ? & ? & ?).
    exists b. split; [done|]. split; [|done]. subst c. div_lia.
Qed.

Lemma cascade1_ok lo ob w :
  inv lo (current_time_ w / 256) ob [] w -> current_time_ w <= lo -> ob <= current_time_ w / 16384 ->
  exists w', cascade 1 w = Ok w' /\ inv lo (current_time_ w / 256 + 1) ob [] w' /\ same_clock w w'.
Proof.
  intros H Hlo Hob. assert (Hi := i_idx1 _ _ _ _ _ H).
  destruct (lookup_slot (wheel1_ w) 64 (wheel1_index_ w)) as [y Hy]; [apply H|div_lia|].
  unfold cascade. cbn [Z.eqb Pos.eqb]. rewrite (rd_Z _ _ y), bind_Ok by (done || div_lia).
  rewrite wr_Z, bind_Ok by (rewrite (i_len1 _ _ _ _ _ H); div_lia).
  destruct (add_all_ok lo (current_time_ w / 256 + 1) ob [] y
    (set_wheel1 (<[Z.to_nat (wheel1_index_ w) := []]> (wheel1_ w)) w)) as (w' & -> & Hw & Hs); [|done..|].
  { by apply detach1_ok. }
  exists w'. done.
Qed.

Lemma cascade2_ok lo lb ob w :
  inv lo lb ob [] w -> current_time_ w <= lo -> lb <= current_time_ w / 256 + 1 ->
  exists w', cascade 2 w = Ok w' /\ inv lo lb (current_time_ w / 16384) [] w' /\ same_clock w w'.
Proof.
  intros H Hlo Hlb. unfold cascade. cbn [Z.eqb Pos.eqb].
  destruct (add_all_ok lo lb (current_time_ w / 16384) [] (overflow_ w) (set_overflow [] w))
    as (w' & -> & Hw & Hs); [|done..|].
  { by eapply detach2_ok. }
  exists w'. done.
Qed.
(** Moving the clock and cascading leaves the entries that are due now in the
    current slot. *)
Definition advance (w : TimerWheel) : res TimerWheel :=
  let i0 := Z.land (wheel0_index_ w + 1) WHEEL0_MASK in
  let w := set_clock (u64 (current_time_ w + 1)) i0 (wheel1_index_ w) w in
  if i0 =? 0 then
    let i1 := Z.land (wheel1_index_ w + 1) WHEEL1_MASK in
    w ← cascade 1 (set_clock (current_time_ w) i0 i1 w);
    if i1 =? 0 then cascade 2 w else Ok w
  else Ok w.

Lemma advance_ok w :
  wf w -> current_time_ w + 1 < 2 ^ 64 ->
  let c := current_time_ w + 1 in
  exists w', advance w = Ok w' /\ inv c (c / 256 + 1) (c / 16384) [] w' /\
    timers_ w' = timers_ w /\ current_time_ w' = c /\ wheel0_index_ w' = c mod 256.
Proof.
  intros H Hlt c. assert (Ht := i_time _ _ _ _ _ H). assert (Hi := inv_clock w H Hlt). cbv zeta in Hi.
  fold c in Hi. unfold advance. cbv zeta. cbn [wheel1_index_ current_time_ set_clock].
  rewrite u64_small, mask0, mask1 by lia. fold c. rewrite (i_idx0 _ _ _ _ _ H), (i_idx1 _ _ _ _ _ H).
  replace ((current_time_ w mod 256 + 1) mod 256) with (c mod 256) by (subst c; div_lia).
  destruct (Z.eqb_spec (c mod 256) 0) as [E0|E0].
  - replace ((current_time_ w / 256 mod 64 + 1) mod 64) with (c / 256 mod 64) by (subst c; div_lia).
    replace (current_time_ w / 256 + 1) with (c / 256) in Hi by (subst c; div_lia).
    destruct (cascade1_ok c (current_time_ w / 16384) (set_clock c (c mod 256) (c / 256 mod 64) w))
      as (w1 & E1 & H1 & Ht1 & Hc1 & Hx1 & _); [exact Hi|cbn; lia|cbn; subst c; div_lia|].
    cbn in Ht1, Hc1, Hx1. change (set_clock c (c mod 256) (c / 256 mod 64)
      (set_clock c (c mod 256) (current_time_ w / 256 mod 64) w)) with (set_clock c (c mod 256) (c / 256 mod 64) w).
    rewrite E1, bind_Ok. cbn in H1. destruct (Z.eqb_spec (c / 256 mod 64) 0) as [E2|E2].
    + destruct (cascade2_ok c (c / 256 + 1) _ w1 H1) as (w2 & -> & H2 & Ht2 & Hc2 & Hx2 & _); [lia|rewrite Hc1; lia|].
      exists w2. rewrite Hc1 in H2. split; [done|]. split; [done|]. by rewrite Ht2, Hc2, Hx2.
    + exists w1. replace (current_time_ w / 16384) with (c / 16384) in H1 by (subst c; div_lia). done.
  - eexists. split; [done|]. cbn. split; [|done].
    replace (current_time_ w / 256 mod 64) with (c / 256 mod 64) by (subst c; div_lia).
    replace (c / 256 + 1) with (current_time_ w / 256 + 1) by (subst c; div_lia).
    replace (c / 16384) with (current_time_ w / 16384) by (subst c; div_lia). exact Hi.
Qed.

(** Outside the current slot every entry expires later. *)
Lemma others_later c w :
  inv c (c / 256 + 1) (c / 16384) [] w -> current_time_ w = c -> wheel0_index_ w = c mod 256 ->
  forall i e, i ∈ all (set_wheel0 (<[Z.to_nat (wheel0_index_ w) := []]> (wheel0_ w)) w) ->
    armed (timers_ w) i e -> c < expire_time e.
Proof.
  intros H Hc Hx i e Hi He. destruct (i_armed _ _ _ _ _ H i e He) as [Hlo _]. unfold all in Hi. cbn in Hi.
  rewrite !elem_of_app, !elem_of_concat in Hi.
  destruct Hi as [(j & s & Hj & Hs)|[(j & s & Hj & Hs)|Ho]].
  - destruct (elem_of_detach _ _ _ _ _ Hj Hs) as [Hne Hj']. destruct (i_w0 _ _ _ _ _ H j s i e Hj' Hs He) as [_ Hm].
    enough (expire_time e <> c) by lia. intros Hec. rewrite Hec in Hm. lia.
  - destruct (i_w1 _ _ _ _ _ H j s i e Hj Hs He) as (b & _ & Hb & Hd). div_lia.
  - assert (Ho' := i_ov _ _ _ _ _ H i e Ho He). div_lia.
Qed.

Lemma tick_one_ok valid w evs :
  wf w -> current_time_ w + 1 < 2 ^ 64 ->
  exists w' new, tick_one valid (w, evs) = Ok (w', evs ++ new) /\ wf w' /\
    current_time_ w' = current_time_ w + 1 /\
    timers_ w' = retire_upto (current_time_ w + 1) <$> timers_ w /\
    new ≡ₚ due valid (current_time_ w + 1) (timers_ w).
Proof.
  intros H Hlt. destruct (advance_ok w H Hlt) as (w1 & E1 & H1 & Ht1 & Hc1 & Hx1). cbv zeta in *.
  set (c := current_time_ w + 1) in *. assert (Hlen := i_len0 _ _ _ _ _ H1). assert (Htm := i_time _ _ _ _ _ H).
  destruct (lookup_slot (wheel0_ w1) 256 (c mod 256)) as [y Hy]; [done|div_lia|].
  assert (Hd := detach0_ok _ _ _ _ _ y H1). rewrite Hx1 in Hd. specialize (Hd Hy). rewrite app_nil_r in Hd.
  assert (Hi0 : Z.land (wheel0_index_ w + 1) WHEEL0_MASK = c mod 256).
  { rewrite mask0, (i_idx0 _ _ _ _ _ H). subst c. div_lia. }
  assert (E : tick_one valid (w, evs) =
    (head ← rd (wheel0_ w1) (c mod 256); l ← wr (wheel0_ w1) (c mod 256) [];
     foldM (fire_one valid) head (set_wheel0 l w1, evs))).
  { transitivity (w ← advance w; head ← rd (wheel0_ w) (c mod 256); l ← wr (wheel0_ w) (c mod 256) [];
     foldM (fire_one valid) head (set_wheel0 l w, evs)); [|by rewrite E1, bind_Ok].
    unfold tick_one, advance. rewrite Hi0. done. }
  rewrite E, (rd_Z _ _ y), bind_Ok, wr_Z, bind_Ok by (done || rewrite ?Hlen; div_lia).
  destruct (fire_all_ok valid c _ _ y _ evs Hd) as (w' & new & -> & Hwf & Hc' & Ht & Hnew); [done..| | |].
  - intros i e Hi He. destruct (i_w0 _ _ _ _ _ H1 _ y i e Hy Hi He) as [Hb Hm]. destruct (i_armed _ _ _ _ _ H1 i e He). div_lia.
  - intros i e Hi He. eapply (others_later c w1); [done..| |done]. by rewrite Hx1.
  - exists w', new. cbn in Ht, Hnew. rewrite Ht1 in *. done.
Qed.

(** Going to [c] and then to [T] is going to [T]. *)
Lemma retire_upto_twice c T e : c <= T -> retire_upto T (retire_upto c e) = retire_upto T e.
Proof.
  intros HT. unfold retire_upto. destruct (active e) eqn:Ea; cbn; [|by rewrite Ea].
  destruct (Z.leb_spec (expire_time e) c); cbn; [|by rewrite Ea].
  by destruct (Z.leb_spec (expire_time e) T); [|lia].
Qed.

Lemma due_split valid c T ts :
  c <= T -> due valid T ts ≡ₚ due valid c ts ++ due valid T (retire_upto c <$> ts).
Proof.
  intros HT. unfold due. induction ts as [|e ts IH]; [done|].
  assert (Hcase : (fires valid c e = fires valid T e /\ fires valid T (retire_upto c e) = None) \/
                  (fires valid c e = None /\ fires valid T (retire_upto c e) = fires valid T e)).
  { unfold fires, retire_upto. destruct (active e) eqn:Ea; cbn; [|right; by rewrite Ea].
    destruct (Z.leb_spec (expire_time e) c); cbn; [left|right; by rewrite Ea].
    by destruct (Z.leb_spec (expire_time e) T); [|lia]. }
  simpl. destruct Hcase as [[-> ->]|[-> ->]]; destruct (fires valid T e); simpl; rewrite IH; try done.
  by rewrite Permutation_middle.
Qed.

(** ** Claims *)

Definition in_time_order : list event -> Prop := StronglySorted (fun a b => ev_time a <= ev_time b).

Lemma due_times valid T ts ev : ev ∈ due valid T ts -> exists i e, armed ts i e /\ expire_time e = ev_time ev /\ ev_time ev <= T.
Proof.
  unfold due. rewrite list_elem_of_omap. intros (e & (k & Hk)%list_elem_of_lookup & Hf). unfold fires in Hf.
  destruct (active e) eqn:Ea; [|done]. cbn in Hf. destruct (Z.leb_spec (expire_time e) T); [|done].
  destruct (_ && _); [|done]. simplify_eq. exists (Z.of_nat k), e. unfold armed. rewrite Nat2Z.id. split; [split; [lia|done]|].
  by cbn.
Qed.

Lemma in_time_order_app l1 l2 :
  in_time_order l1 -> in_time_order l2 -> (forall a b, a ∈ l1 -> b ∈ l2 -> ev_time a <= ev_time b) ->
  in_time_order (l1 ++ l2).
Proof.
  unfold in_time_order. induction 1 as [|a l1 Hs IH Ha]; intros H2 Hx; [done|]. simpl. constructor.
  - apply IH; [done|]. intros x y Hx' Hy. apply Hx; [by apply list_elem_of_further|done].
  - apply List.Forall_app. split; [done|]. apply Forall_forall. intros b Hb. apply Hx; [apply list_elem_of_here|done].
Qed.

Lemma in_time_order_const c l : (forall a, a ∈ l -> ev_time a = c) -> in_time_order l.
Proof.
  unfold in_time_order. induction l as [|a l IH]; intros H; constructor.
  - apply IH. intros. apply H. by apply list_elem_of_further.
  - apply Forall_forall. intros b Hb. rewrite (H a), (H b); [lia|by apply list_elem_of_further|apply list_elem_of_here].
Qed.

Lemma tick_loop_ok valid n w evs :
  wf w -> current_time_ w + Z.of_nat n < 2 ^ 64 ->
  exists w' new, tick_loop valid n (w, evs) = Ok (w', evs ++ new) /\ wf w' /\
    let T := current_time_ w + Z.of_nat n in
    current_time_ w' = T /\ timers_ w' = retire_upto T <$> timers_ w /\
    new ≡ₚ due valid T (timers_ w) /\ in_time_order new.
Proof.
  revert w evs. induction n as [|n IH]; intros w evs H Hlt.
  - exists w, []. rewrite app_nil_r, Z.add_0_r. split; [done|]. split; [done|]. cbv zeta. split; [done|].
    assert (Hk : forall k e, timers_ w !! k = Some e -> active e && (expire_time e <=? current_time_ w) = false).
    { intros k e He. destruct (active e) eqn:Ea; [|done]. apply Z.leb_gt.
      destruct (i_armed _ _ _ _ _ H (Z.of_nat k) e); [|lia]. unfold armed. rewrite Nat2Z.id. split; [lia|done]. }
    split; [|split; [|constructor]].
    + symmetry. rewrite <- (list_fmap_id (timers_ w)) at 2. apply list_fmap_ext. intros k e He.
      unfold retire_upto. by rewrite (Hk k e).
    + unfold due. rewrite omap_none; [done|]. intros k e He. unfold fires. by rewrite (Hk k e).
  - destruct (tick_one_ok valid w evs H) as (w1 & n1 & E1 & H1 & Hc1 & Ht1 & Hn1); [lia|].
    cbn [tick_loop]. rewrite E1, bind_Ok. destruct (IH w1 (evs ++ n1) H1) as (w2 & n2 & E2 & H2 & Hc2 & Ht2 & Hn2 & Hs2); [lia|].
    cbv zeta in *. exists w2, (n1 ++ n2). rewrite E2, app_assoc. split; [done|]. split; [done|].
    replace (current_time_ w1 + Z.of_nat n) with (current_time_ w + Z.of_nat (S n)) in * by lia.
    split; [done|]. split; [|split].
    + rewrite Ht2, Ht1, <- list_fmap_compose. apply list_fmap_ext. intros k e _. apply retire_upto_twice. lia.
    + rewrite Hn1, Hn2, Ht1. symmetry. apply due_split. lia.
    + apply in_time_order_app; [|done|].
      * apply (in_time_order_const (current_time_ w + 1)). intros a Ha. rewrite Hn1 in Ha.
        destruct (due_times _ _ _ _ Ha) as (i & e & He & Hx & Hle). destruct (i_armed _ _ _ _ _ H i e He). lia.
      * intros a b Ha Hb. rewrite Hn1 in Ha. rewrite Hn2 in Hb. destruct (due_times _ _ _ _ Ha) as (_ & _ & _ & _ & Hle).
        destruct (due_times _ _ _ _ Hb) as (i & e & He & Hx & _). destruct (i_armed _ _ _ _ _ H1 i e He). lia.
Qed.
(** ** Scheduling and cancelling *)

Lemma alloc_from_some k l i :
  alloc_from k l = Some i -> exists j e, i = k + Z.of_nat j /\ l !! j = Some e /\ active e = false.
Proof.
  revert k. induction l as [|x l IH]; intros k; cbn [alloc_from]; [done|]. destruct (active x) eqn:Ea; cbn [negb].
  - intros (j & e & -> & He & Hin)%IH. exists (S j), e. split; [lia|done].
  - intros [= <-]. exists O, x. split; [lia|done].
Qed.

Lemma alloc_from_none k l e : alloc_from k l = None -> e ∈ l -> active e = true.
Proof.
  revert k. induction l as [|x l IH]; intros k; cbn [alloc_from]; [by intros _ []%not_elem_of_nil|].
  destruct (active x) eqn:Ea; cbn [negb]; [|done]. intros H [->|He]%elem_of_cons; [done|by eapply IH].
Qed.

(** Placing an entry does not look at the count. *)
Lemma add_set_count i n w :
  add_to_wheel i (set_count n w) = (w' ← add_to_wheel i w; Ok (set_count n w')).
Proof.
  unfold add_to_wheel. cbn [timers_ current_time_ wheel0_ wheel1_ wheel0_index_ wheel1_index_ overflow_ set_count].
  destruct (rd (timers_ w) i) as [e| |]; [|done..]. cbn [mbind res_bind].
  destruct (_ <? WHEEL0_SIZE); [|destruct (_ <? MAX_TIMEOUT_MS); [|done]].
  - destruct (rd (wheel0_ w) _); [|done..]. cbn [mbind res_bind]. by destruct (wr _ _ _).
  - destruct (rd (wheel1_ w) _); [|done..]. cbn [mbind res_bind]. by destruct (wr _ _ _).
Qed.

Lemma add_count i w w' : add_to_wheel i w = Ok w' ->
  active_count_ w' = active_count_ w /\ id_map_ w' = id_map_ w /\ next_id_ w' = next_id_ w.
Proof.
  unfold add_to_wheel. intros (e & _ & H)%bind_inv. cbv zeta in H.
  destruct (_ <? WHEEL0_SIZE); [|destruct (_ <? MAX_TIMEOUT_MS)].
  - apply bind_inv in H as (? & _ & H). by apply bind_inv in H as (? & _ & [= <-]).
  - apply bind_inv in H as (? & _ & H). by apply bind_inv in H as (? & _ & [= <-]).
  - by injection H as <-.
Qed.

(** The pool and the identifiers after the fields of a fresh entry are set. *)
Definition armed_with (i tid next : Z) (e : TimerEntry) (w : TimerWheel) : TimerWheel :=
  set_ids (<[Z.to_nat tid := Some i]> (id_map_ w)) next (set_timers (<[Z.to_nat i := e]> (timers_ w)) w).

Lemma arm_inv w i tid next e :
  wf w -> 0 <= i < 64 -> (forall x, ~ armed (timers_ w) i x) -> 1 <= tid <= 64 -> 1 <= next <= 64 ->
  current_time_ w < expire_time e < 2 ^ 64 -> id e = tid -> active e = true ->
  inv (current_time_ w + 1) (current_time_ w / 256 + 1) (current_time_ w / 16384) [i]
    (set_count (active_count_ w + 1) (armed_with i tid next e w)).
Proof.
  intros H Hi Hn Htid Hnext He Hid Ha. assert (Hlen := i_timers _ _ _ _ _ H).
  assert (Hin : forall j x, armed (<[Z.to_nat i := e]> (timers_ w)) j x <-> (j = i /\ x = e /\ active e = true) \/ (j <> i /\ armed (timers_ w) j x)).
  { intros j x. apply armed_insert. lia. }
  assert (Hall := i_all _ _ _ _ _ H). cbn in Hall.
  assert (Hni : forall j x, j ∈ all w -> armed (<[Z.to_nat i := e]> (timers_ w)) j x -> armed (timers_ w) j x).
  { intros j x Hj. rewrite Hin. intros [(-> & _)|[_ ?]]; [|done]. rewrite Hall, elem_of_actives in Hj. naive_solver. }
  assert (Hact : actives (<[Z.to_nat i := e]> (timers_ w)) ≡ₚ i :: actives (timers_ w)).
  { apply actives_arm; [lia|done|done]. }
  destruct H. constructor; cbn; auto.
  - by rewrite length_insert.
  - by rewrite length_insert.
  - intros k j Hk. destruct (decide (k = Z.to_nat tid)) as [->|Hne].
    + rewrite list_lookup_insert_eq in Hk by lia. simplify_eq. exists e. rewrite Hin. split; [left; done|]. lia.
    + rewrite list_lookup_insert_ne in Hk by done. destruct (i_ids0 k j Hk) as (x & Hx & Hxk). exists x.
      rewrite Hin. split; [right|done]. split; [|done]. intros ->. by apply (Hn x).
  - intros j x [(-> & -> & _)|[_ Hx]]%Hin; [split; [lia|lia]|exact (i_armed0 j x Hx)].
  - by rewrite Hact, <- Hall.
  - rewrite Hact, length_cons, i_count0. lia.
  - intros k s j x Hk Hj Hx. eapply i_w2; [done..|]. apply Hni; [|done].
    unfold all. rewrite !elem_of_app, elem_of_concat. naive_solver.
  - intros k s j x Hk Hj Hx. eapply i_w3; [done..|]. apply Hni; [|done].
    unfold all. rewrite !elem_of_app, !elem_of_concat. naive_solver.
  - intros j x Hj Hx. eapply i_ov0; [done|]. apply Hni; [|done]. unfold all. rewrite !elem_of_app. auto.
Qed.

(** What a successful [schedule] does, in one place. *)
Lemma schedule_ok ex cb ctx w i :
  wf w -> current_time_ w < ex < 2 ^ 64 -> alloc_timer w = Some i ->
  0 <= i < 64 /\ (forall x, ~ armed (timers_ w) i x) /\
  exists w1, add_to_wheel i (armed_with i (next_id_ w) (if next_id_ w =? 64 then 1 else next_id_ w + 1)
                              (mkEntry ex cb ctx (next_id_ w) true) w) = Ok w1 /\
    let w' := set_count (active_count_ w + 1) w1 in
    schedule ex cb ctx w = Ok (w', next_id_ w, []) /\ wf w' /\
    current_time_ w' = current_time_ w /\ same_clock (armed_with i (next_id_ w) (if next_id_ w =? 64 then 1 else next_id_ w + 1)
                              (mkEntry ex cb ctx (next_id_ w) true) w) w' /\
    id_map_ w' !! Z.to_nat (next_id_ w) = Some (Some i).
Proof.
  intros H Hex Hal. assert (Hn := i_next _ _ _ _ _ H). assert (Hlen := i_timers _ _ _ _ _ H). assert (Hml := i_map _ _ _ _ _ H).
  destruct (alloc_from_some _ _ _ Hal) as (j & x & Hij & Hj & Hx). rewrite Z.add_0_l in Hij.
  assert (Hi : 0 <= i < 64) by (apply lookup_lt_Some in Hj; lia).
  assert (Hna : forall y, ~ armed (timers_ w) i y).
  { intros y (_ & Hy & Ha). rewrite Hij, Nat2Z.id in Hy. congruence. }
  split; [done|]. split; [done|].
  set (nx := if next_id_ w =? 64 then 1 else next_id_ w + 1).
  assert (Hnx : 1 <= nx <= 64) by (subst nx; destruct (Z.eqb_spec (next_id_ w) 64); lia).
  set (e := mkEntry ex cb ctx (next_id_ w) true).
  assert (Hinv := arm_inv w i (next_id_ w) nx e H Hi Hna Hn Hnx Hex eq_refl eq_refl).
  destruct (place_ok _ _ _ _ _ _ Hinv) as (w2 & E2 & H2 & Hs); [cbn; lia..|].
  rewrite add_set_count in E2. apply bind_inv in E2 as (w1 & E1 & [= <-]). exists w1. split; [done|]. cbv zeta.
  destruct (add_count _ _ _ E1) as (Hc1 & Hm1 & Hn1). cbn in Hc1, Hm1.
  split.
  { unfold schedule. destruct (Z.leb_spec ex (current_time_ w)); [lia|]. rewrite Hal. cbv zeta.
    rewrite u32_small by lia. replace (if MAX_TIMERS <? next_id_ w + 1 then 1 else next_id_ w + 1) with nx
      by (subst nx; unfold MAX_TIMERS; destruct (Z.eqb_spec (next_id_ w) 64), (Z.ltb_spec 64 (next_id_ w + 1)); lia).
    rewrite (wr_Z (timers_ w)), bind_Ok by lia. rewrite (wr_Z (id_map_ w)), bind_Ok by lia.
    fold e. fold (armed_with i (next_id_ w) nx e w). rewrite E1, bind_Ok, Hc1.
    assert (Hcnt := i_count _ _ _ _ _ H). assert (Hb := actives_bound (timers_ w)). unwrap. done. }
  destruct Hs as (Hs1 & Hs2 & Hs3 & Hs4). cbn in Hs1, Hs2, Hs3, Hs4.
  split; [unfold wf; cbn; by rewrite Hs2|]. split; [done|]. split; [done|].
  cbn. rewrite Hm1. apply list_lookup_insert_eq. lia.
Qed.

(** What [cancel] does. *)
Lemma cancel_ok k w i :
  wf w -> 1 <= k <= 64 -> id_map_ w !! Z.to_nat k = Some (Some i) ->
  exists e w', armed (timers_ w) i e /\ id e = k /\ cancel k w = Ok (w', true) /\ wf w' /\
    current_time_ w' = current_time_ w /\ timers_ w' = <[Z.to_nat i := retired e]> (timers_ w) /\
    id_map_ w' = <[Z.to_nat k := None]> (id_map_ w) /\
    wheel0_ w' = unlink i <$> wheel0_ w /\ wheel1_ w' = unlink i <$> wheel1_ w /\ overflow_ w' = unlink i (overflow_ w).
Proof.
  intros H Hk Hm. destruct (i_ids _ _ _ _ _ H _ _ Hm) as (e & He & Hid). rewrite Z2Nat.id in Hid by lia.
  assert (Hi : i ∈ all w). { change (i ∈ [] ++ all w). rewrite (i_all _ _ _ _ _ H). apply elem_of_actives. eauto. }
  assert (Hu := unlink_ok _ _ _ _ _ _ H Hi).
  destruct (retire_ok _ _ _ _ i e _ Hu He) as (w' & E & H' & _ & Ht & Hc). exists e, w'.
  split; [done|]. split; [done|].
  assert (E' := E). unfold retire in E'. rewrite Hid in E'.
  destruct (Z.leb_spec k MAX_TIMERS) as [_|Hbad]; [|unfold MAX_TIMERS in Hbad; lia].
  apply bind_inv in E' as (m & (_ & ->)%wr_inv & E'). apply bind_inv in E' as (l & (_ & ->)%wr_inv & [= E']).
  split.
  { unfold cancel. destruct (Z.eqb_spec k 0); [lia|]. unfold find_timer.
    destruct (Z.ltb_spec 0 k); [|lia]. destruct (Z.leb_spec k MAX_TIMERS) as [_|Hbad]; [|unfold MAX_TIMERS in Hbad; lia].
    cbn [andb]. rewrite (rd_Z _ _ (Some i)), bind_Ok by (done || lia). rewrite (rd_Z _ i e), bind_Ok by apply He.
    by rewrite E, bind_Ok. }
  split; [unfold wf; by rewrite Hc|]. subst w'. done.
Qed.

Lemma cancel_unknown k w :
  wf w -> 0 <= k -> (forall i, id_map_ w !! Z.to_nat k <> Some (Some i)) -> cancel k w = Ok (w, false).
Proof.
  intros H Hk Hn. unfold cancel. destruct (Z.eqb_spec k 0); [done|]. unfold find_timer.
  destruct (Z.ltb_spec 0 k); [|lia]. destruct (Z.leb_spec k MAX_TIMERS) as [Hle|]; [|done]. unfold MAX_TIMERS in Hle.
  cbn [andb]. destruct (lookup_slot (id_map_ w) 65 k) as [o Ho]; [apply H|lia|].
  rewrite (rd_Z _ _ o), bind_Ok by done. destruct o; [|done]. by destruct (Hn z).
Qed.


(** ** Initialisation *)

Lemma wheel_init_ok t w : length (timers_ w) = 64%nat -> 0 <= t < 2 ^ 64 -> wf (init t w).
Proof.
  intros Hlen Ht. assert (Hna : forall i e, ~ armed (timers_ (init t w)) i e).
  { intros i e (_ & He & Ha). cbn in He. rewrite list_lookup_fmap in He.
    destruct (timers_ w !! Z.to_nat i); [|done]. cbn in He. by simplify_eq. }
  assert (Hact : actives (timers_ (init t w)) = []).
  { apply elem_of_nil_inv. intros i (e & He)%elem_of_actives. by apply (Hna i e). }
  constructor.
  - cbn. by rewrite length_fmap.
  - done.
  - done.
  - done.
  - done.
  - apply mask0.
  - unfold init, wheel1_index_. by rewrite mask1, shift0.
  - cbn. lia.
  - intros k i Hk. cbn [id_map_ init] in Hk. by apply lookup_replicate in Hk as [? _].
  - intros i e He. by destruct (Hna i e).
  - by rewrite Hact.
  - by rewrite Hact.
  - intros j l i e _ _ He. by destruct (Hna i e).
  - intros j l i e _ _ He. by destruct (Hna i e).
  - intros i e _ He. by destruct (Hna i e).
Qed.

(** ** Sequences of requests *)

Inductive request :=
| Schedule (ex cb ctx : Z)
| Cancel (k : Z).

Definition serve (w : TimerWheel) (r : request) : res TimerWheel :=
  match r with
  | Schedule ex cb ctx => r ← schedule (u64 ex) cb ctx w; Ok r.1.1
  | Cancel k => r ← cancel (u32 k) w; Ok r.1
  end.
Definition serve_all (l : list request) (w : TimerWheel) : res TimerWheel := foldM serve l w.

Lemma schedule_wf ex cb ctx w r :
  wf w -> 0 <= ex < 2 ^ 64 -> schedule ex cb ctx w = Ok r -> wf r.1.1.
Proof.
  intros H Hex E. destruct (Z.leb_spec ex (current_time_ w)) as [Hle|Hlt].
  { unfold schedule in E. destruct (Z.leb_spec ex (current_time_ w)); [|lia]. by simplify_eq. }
  destruct (alloc_timer w) as [i|] eqn:Ea.
  - destruct (schedule_ok ex cb ctx w i H) as (_ & _ & w1 & _ & Es & Hwf & _); [lia|done|].
    rewrite Es in E. by simplify_eq.
  - unfold schedule in E. destruct (Z.leb_spec ex (current_time_ w)); [lia|]. rewrite Ea in E. by simplify_eq.
Qed.

Lemma cancel_wf k w r : wf w -> 0 <= k -> cancel k w = Ok r -> wf r.1.
Proof.
  intros H Hk E. destruct (decide (k = 0)) as [->|Hk0]; [cbn in E; by simplify_eq|].
  destruct (id_map_ w !! Z.to_nat k) as [[i|]|] eqn:Hi.
  - assert (k <= 64). { apply lookup_lt_Some in Hi. rewrite (i_map _ _ _ _ _ H) in Hi. lia. }
    destruct (cancel_ok k w i H) as (e & w' & _ & _ & Ec & Hwf & _); [lia|done|]. rewrite Ec in E. by simplify_eq.
  - rewrite cancel_unknown in E; [by simplify_eq|done..|]. by rewrite Hi.
  - rewrite cancel_unknown in E; [by simplify_eq|done..|]. by rewrite Hi.
Qed.

Lemma serve_all_wf l w w' : wf w -> serve_all l w = Ok w' -> wf w'.
Proof.
  intros H E. refine (foldM_keeps _ wf _ _ _ _ H E). clear. intros w [ex cb ctx|k] w' H; cbn [serve].
  - intros (r & E & [= <-])%bind_inv. eapply schedule_wf; [done| |done]. apply u64_range.
  - intros (r & E & [= <-])%bind_inv. eapply cancel_wf; [done| |done]. apply u32_range.
Qed.

(** The wheel after some requests from a fresh wheel at time 1000. *)
Definition after (l : list request) : TimerWheel :=
  match serve_all l (init 1000 blank) with Ok w => w | _ => init 1000 blank end.

Lemma after_wf l : wf (after l).
Proof.
  unfold after. assert (H0 : wf (init 1000 blank)) by (apply wheel_init_ok; [done|lia]).
  destruct (serve_all l (init 1000 blank)) eqn:E; [|done..]. by eapply serve_all_wf.
Qed.

(** (C33) Advancing the clock to a later time [T] calls exactly the callbacks of
    the armed timers that expire by [T] and lie in the kernel text, each once
    and at its own expiry, in the order of the times; these timers are retired,
    all others stay armed unchanged, and the wheel stays well formed.  So no
    timer is lost, doubled, early or late, however far it had to cascade. *)
Theorem tick_exact valid T w :
  wf w -> current_time_ w <= T < 2 ^ 64 ->
  exists w' evs, tick valid T w = Ok (w', evs) /\ wf w' /\ current_time_ w' = T /\
    timers_ w' = retire_upto T <$> timers_ w /\
    evs ≡ₚ due valid T (timers_ w) /\ in_time_order evs.
Proof.
  intros H HT. unfold tick.
  destruct (tick_loop_ok valid (Z.to_nat (T - current_time_ w)) w [] H) as (w' & evs & -> & Hr); [lia|].
  exists w', evs. cbv zeta in Hr. rewrite Z2Nat.id, Zplus_minus in Hr by lia. naive_solver.
Qed.

Lemma tick_exact_witness :
  let w := after [Schedule 1005 71 1; Schedule 1300 72 2; Schedule 21000 73 3] in
  (wf w /\ current_time_ w <= 20999 < 2 ^ 64) /\
  exists w' evs, tick (fun _ => true) 20999 w = Ok (w', evs) /\ wf w' /\ current_time_ w' = 20999 /\
    timers_ w' = retire_upto 20999 <$> timers_ w /\
    evs ≡ₚ [mkEvent 1005 71 1; mkEvent 1300 72 2] /\ in_time_order evs.
Proof.
  intros w. assert (H : wf w) by apply after_wf. assert (Ht : current_time_ w <= 20999 < 2 ^ 64) by (by vm_compute).
  split; [exact (conj H Ht)|]. exact (tick_exact (fun _ => true) 20999 w H Ht).
Defined.

(** Scheduling at a time that has passed calls the callback at once and arms
    nothing; with all 64 entries armed it fails and changes nothing; otherwise
    it arms one free entry with the given time, callback and context, returns
    an identifier between 1 and 64 under which the entry can be found, and
    keeps the wheel well formed. *)
Theorem schedule_sound ex cb ctx w :
  wf w -> 0 <= ex < 2 ^ 64 ->
  exists w' tid evs, schedule ex cb ctx w = Ok (w', tid, evs) /\ wf w' /\
    current_time_ w' = current_time_ w /\
    ((ex <= current_time_ w /\ w' = w /\ tid = 0 /\
        evs = (if cb =? 0 then [] else [mkEvent (current_time_ w) cb ctx])) \/
     (current_time_ w < ex /\ w' = w /\ tid = 0 /\ evs = [] /\ (forall e, e ∈ timers_ w -> active e = true)) \/
     (current_time_ w < ex /\ 1 <= tid <= 64 /\ evs = [] /\ exists i, (forall e, ~ armed (timers_ w) i e) /\
        timers_ w' = <[Z.to_nat i := mkEntry ex cb ctx tid true]> (timers_ w) /\
        id_map_ w' !! Z.to_nat tid = Some (Some i))).
Proof.
  intros H Hex. destruct (Z.leb_spec ex (current_time_ w)) as [Hle|Hlt].
  - eexists w, 0, _. unfold schedule. destruct (Z.leb_spec ex (current_time_ w)); [|lia].
    split; [done|]. split; [done|]. split; [done|]. left. done.
  - destruct (alloc_timer w) as [i|] eqn:Ea.
    + destruct (schedule_ok ex cb ctx w i H) as (Hi & Hna & w1 & _ & Es & Hwf & Hc & (Ht & _) & Hm); [lia|done|].
      eexists _, _, _. split; [exact Es|]. split; [done|]. split; [done|]. right. right. split; [lia|].
      split; [apply (i_next _ _ _ _ _ H)|]. split; [done|]. exists i. done.
    + exists w, 0, []. unfold schedule. destruct (Z.leb_spec ex (current_time_ w)); [lia|]. rewrite Ea.
      split; [done|]. split; [done|]. split; [done|]. right. left. split; [done|]. split; [done|].
      split; [done|]. split; [done|]. intros e. by apply alloc_from_none with (k := 0).
Qed.

Lemma schedule_sound_witness :
  let w := after [Schedule 1005 71 1] in
  (wf w /\ 0 <= 1300 < 2 ^ 64) /\
  exists w' tid evs, schedule 1300 72 2 w = Ok (w', tid, evs) /\ wf w'.
Proof.
  intros w. assert (H : wf w) by apply after_wf. assert (Ht : 0 <= 1300 < 2 ^ 64) by lia.
  split; [exact (conj H Ht)|].
  destruct (schedule_sound 1300 72 2 w H Ht) as (w' & tid & evs & E & Hwf & _). by exists w', tid, evs.
Defined.
Lemma unlink_slots i (l : list (list Z)) : i ∉ concat l -> unlink i <$> l = l.
Proof.
  induction l as [|s l IH]; [done|]. cbn [concat]. rewrite elem_of_app. intros Hi.
  rewrite fmap_cons, unlink_notin, IH; naive_solver.
Qed.

Lemma unlink_push i l j y :
  l !! j = Some y -> i ∉ concat l -> unlink i <$> <[j := i :: y]> l = l.
Proof.
  intros Hj Hi. rewrite list_fmap_insert, unlink_cons, Z.eqb_refl, unlink_slots by done.
  rewrite unlink_notin; [by apply list_insert_id|]. intros Hy. apply Hi, elem_of_concat. eauto.
Qed.

(** Unlinking a freshly placed entry gives the old lists back. *)
Lemma add_unlink i w w' :
  add_to_wheel i w = Ok w' -> i ∉ all w ->
  unlink i <$> wheel0_ w' = wheel0_ w /\ unlink i <$> wheel1_ w' = wheel1_ w /\
  unlink i (overflow_ w') = overflow_ w.
Proof.
  unfold all. rewrite !elem_of_app. intros H Hi.
  assert (H0 : unlink i <$> wheel0_ w = wheel0_ w) by (apply unlink_slots; naive_solver).
  assert (H1 : unlink i <$> wheel1_ w = wheel1_ w) by (apply unlink_slots; naive_solver).
  assert (H2 : unlink i (overflow_ w) = overflow_ w) by (apply unlink_notin; naive_solver).
  unfold add_to_wheel in H. apply bind_inv in H as (e & _ & H). cbv zeta in H.
  destruct (_ <? WHEEL0_SIZE); [|destruct (_ <? MAX_TIMEOUT_MS)].
  - apply bind_inv in H as (y & (_ & Hy)%rd_inv & H). apply bind_inv in H as (l & (_ & ->)%wr_inv & [= <-]). cbn.
    split; [apply unlink_push; naive_solver|done].
  - apply bind_inv in H as (y & (_ & Hy)%rd_inv & H). apply bind_inv in H as (l & (_ & ->)%wr_inv & [= <-]). cbn.
    split; [done|]. split; [apply unlink_push; naive_solver|done].
  - injection H as <-. cbn [wheel0_ wheel1_ overflow_ set_overflow]. split; [done|]. split; [done|]. by rewrite unlink_cons, Z.eqb_refl.
Qed.

(** Cancelling a timer by the identifier that scheduling it returned
    succeeds, and the wheel is back where it was: the same slots with the same
    lists in the same order, and the same armed timers. *)
Theorem schedule_cancel_roundtrip ex cb ctx w w1 tid evs :
  wf w -> 0 <= ex < 2 ^ 64 -> schedule ex cb ctx w = Ok (w1, tid, evs) -> tid <> 0 ->
  exists w2, cancel tid w1 = Ok (w2, true) /\ wf w2 /\ current_time_ w2 = current_time_ w /\
    wheel0_ w2 = wheel0_ w /\ wheel1_ w2 = wheel1_ w /\ overflow_ w2 = overflow_ w /\
    (forall i e, armed (timers_ w2) i e <-> armed (timers_ w) i e).
Proof.
  intros H Hex E Htid. assert (Hal : exists i, alloc_timer w = Some i /\ current_time_ w < ex).
  { unfold schedule in E. destruct (Z.leb_spec ex (current_time_ w)); [simplify_eq; done|].
    destruct (alloc_timer w) as [i|]; [eauto|simplify_eq; done]. }
  destruct Hal as (i & Hal & Hlt).
  destruct (schedule_ok ex cb ctx w i H) as (Hi & Hna & w0 & Ea & Es & Hwf & Hc & (Ht & _) & Hm); [lia|done|].
  cbv zeta in *. rewrite Es in E. simplify_eq. assert (Hn := i_next _ _ _ _ _ H).
  destruct (cancel_ok _ _ i Hwf Hn Hm) as (e & w2 & He & _ & Ec & Hwf2 & Hc2 & Ht2 & _ & U0 & U1 & U2).
  exists w2. split; [done|]. split; [done|]. split; [by rewrite Hc2|].
  assert (Hnot : i ∉ all w).
  { change (i ∉ [] ++ all w). rewrite (i_all _ _ _ _ _ H), elem_of_actives. intros [x Hx]. by apply (Hna x). }
  destruct (add_unlink _ _ _ Ea Hnot) as (A0 & A1 & A2). cbn in U0, U1, U2.
  rewrite U0, U1, U2. split; [done|]. split; [done|]. split; [done|].
  intros j x. rewrite Ht2, Ht. cbn [timers_ armed_with set_ids set_timers].
  assert (Hlen := i_timers _ _ _ _ _ H). rewrite list_insert_insert_eq, armed_insert by lia. cbn.
  split; [intros [(_ & _ & ?)|[_ ?]]; done|]. intros Hx. right. split; [|done]. intros ->. by apply (Hna x).
Qed.

Lemma schedule_cancel_roundtrip_witness :
  let w := after [Schedule 1005 71 1; Schedule 21000 73 3] in
  (wf w /\ 0 <= 1300 < 2 ^ 64 /\ exists w1 tid evs, schedule 1300 72 2 w = Ok (w1, tid, evs) /\ tid <> 0) /\
  exists w1 w2, schedule 1300 72 2 w = Ok (w1, 3, []) /\ cancel 3 w1 = Ok (w2, true) /\ wheel1_ w2 = wheel1_ w.
Proof.
  intros w. assert (H : wf w) by apply after_wf. assert (Ht : 0 <= 1300 < 2 ^ 64) by lia.
  assert (E : exists w1, schedule 1300 72 2 w = Ok (w1, 3, [])) by (eexists; by vm_compute).
  destruct E as [w1 E]. split; [split; [done|split; [done|exists w1, 3, []; split; [done|lia]]]|].
  destruct (schedule_cancel_roundtrip 1300 72 2 w w1 3 [] H Ht E ltac:(lia)) as (w2 & Ec & _ & _ & _ & W1 & _).
  exists w1, w2. done.
Defined.

(** Identifiers are reused without looking whether they are taken: when the
    counter comes round to the identifier of a timer that is still armed, the
    new timer gets the same identifier.  Cancelling it removes the new timer
    only; the old one stays armed, and no call of [cancel] can reach it by its
    identifier any more. *)
Theorem id_reuse_orphans ex cb ctx w i0 e0 :
  wf w -> armed (timers_ w) i0 e0 -> id e0 = next_id_ w -> current_time_ w < ex < 2 ^ 64 ->
  (exists e, e ∈ timers_ w /\ active e = false) ->
  exists w1 w2, schedule ex cb ctx w = Ok (w1, id e0, []) /\ cancel (id e0) w1 = Ok (w2, true) /\
    armed (timers_ w2) i0 e0 /\ cancel (id e0) w2 = Ok (w2, false).
Proof.
  intros H He0 Hid Hex (x & Hx & Hxa). assert (Hn := i_next _ _ _ _ _ H).
  destruct (alloc_timer w) as [i|] eqn:Hal.
  2:{ by rewrite (alloc_from_none _ _ _ Hal Hx) in Hxa. }
  destruct (schedule_ok ex cb ctx w i H Hex Hal) as (Hi & Hna & w0 & Ea & Es & Hwf & Hc & (Ht & _) & Hm).
  cbv zeta in *. destruct (cancel_ok _ _ i Hwf Hn Hm) as (e & w2 & He & _ & Ec & Hwf2 & Hc2 & Ht2 & Hm2 & _).
  exists (set_count (active_count_ w + 1) w0), w2. rewrite Hid. split; [done|]. split; [done|].
  assert (Hlen := i_timers _ _ _ _ _ H). split.
  - rewrite Ht2, Ht. cbn [timers_ armed_with set_ids set_timers].
    rewrite list_insert_insert_eq, armed_insert by lia. right. split; [|done]. intros ->. by apply (Hna e0).
  - apply cancel_unknown; [done|lia|]. intros j. rewrite Hm2, list_lookup_insert_eq; [done|].
    rewrite (i_map _ _ _ _ _ Hwf). lia.
Qed.

(** A long timer, then 63 timers that are scheduled and cancelled at once. *)
Definition churn : list request :=
  Schedule 21000 73 3 :: mjoin ((fun k => [Schedule 1005 71 1; Cancel k]) <$> seqZ 2 63).

Lemma id_reuse_orphans_witness :
  exists w e0, (wf w /\ armed (timers_ w) 0 e0 /\ id e0 = next_id_ w /\ current_time_ w < 1100 < 2 ^ 64 /\
    exists e, e ∈ timers_ w /\ active e = false) /\
  exists w1 w2, schedule 1100 74 4 w = Ok (w1, id e0, []) /\ cancel (id e0) w1 = Ok (w2, true) /\
    armed (timers_ w2) 0 e0 /\ cancel (id e0) w2 = Ok (w2, false).
Proof.
  exists (after churn), (mkEntry 21000 73 3 1 true).
  assert (H : wf (after churn)) by apply after_wf.
  assert (Ha : armed (timers_ (after churn)) 0 (mkEntry 21000 73 3 1 true)).
  { split; [lia|]. split; [by vm_compute|done]. }
  assert (Hn : id (mkEntry 21000 73 3 1 true) = next_id_ (after churn)) by (by vm_compute).
  assert (Ht : current_time_ (after churn) < 1100 < 2 ^ 64) by (split; vm_compute; reflexivity).
  assert (Hf : exists e, e ∈ timers_ (after churn) /\ active e = false).
  { exists (mkEntry 0 0 0 0 false). split; [|done]. apply (list_elem_of_lookup_2 _ 5). by vm_compute. }
  split; [exact (conj H (conj Ha (conj Hn (conj Ht Hf))))|].
  exact (id_reuse_orphans 1100 74 4 (after churn) 0 (mkEntry 21000 73 3 1 true) H Ha Hn Ht Hf).
Defined.


End TimerSpec.
