(* ===== verification/Crc32Spec.v ===== *)
(** * The checksum is CRC-32 and detects single-byte changes *)

From S2P Require Import Prelude Crc32.

Module Crc32Spec.
Import Crc32.

(** ** The reference: division by the polynomial, one bit at a time *)

Definition POLY : Z := 0xEDB88320.

Definition crc_bit (x : Z) : Z :=
  if Z.testbit x 0 then Z.lxor (Z.shiftr x 1) POLY else Z.shiftr x 1.

Fixpoint crc_bits (n : nat) (x : Z) : Z :=
  match n with
  | O => x
  | S n => crc_bits n (crc_bit x)
  end.

(** The register after one more byte. *)
Definition crc_step (crc b : Z) : Z := crc_bits 8 (Z.lxor crc b).

Definition crc_reference (data : list Z) : Z :=
  Z.lxor (foldl crc_step 0xFFFFFFFF data) 0xFFFFFFFF.

(** ** Linearity *)

Lemma crc_bit_lxor x y : crc_bit (Z.lxor x y) = Z.lxor (crc_bit x) (crc_bit y).
Proof.
  unfold crc_bit. rewrite Z.lxor_spec, Z.shiftr_lxor.
  apply Z.bits_inj'. intros n Hn.
  destruct (Z.testbit x 0), (Z.testbit y 0); cbn [xorb]; rewrite ?Z.lxor_spec;
    destruct (Z.testbit (Z.shiftr x 1) n), (Z.testbit (Z.shiftr y 1) n), (Z.testbit POLY n); done.
Qed.

Lemma crc_bits_lxor n x y : crc_bits n (Z.lxor x y) = Z.lxor (crc_bits n x) (crc_bits n y).
Proof. revert x y. induction n as [|n IH]; intros x y; cbn; [done|]. by rewrite crc_bit_lxor, IH. Qed.

Lemma crc_bits_shift n x : 0 <= x -> crc_bits n (Z.shiftl x (Z.of_nat n)) = x.
Proof.
  revert x. induction n as [|n IH]; intros x Hx; [apply Z.shiftl_0_r|].
  cbn [crc_bits]. unfold crc_bit. rewrite Z.shiftl_spec_low by lia.
  rewrite Z.shiftr_shiftl_l by lia. replace (Z.of_nat (S n) - 1) with (Z.of_nat n) by lia. by apply IH.
Qed.

Lemma split_byte x : 0 <= x -> x = Z.lxor (Z.shiftl (Z.shiftr x 8) 8) (Z.land x 0xFF).
Proof.
  intros Hx. apply Z.bits_inj'. intros n Hn. rewrite Z.lxor_spec, Z.land_spec.
  change 0xFF with (Z.ones 8). destruct (Z.lt_ge_cases n 8).
  - rewrite Z.shiftl_spec_low, Z.ones_spec_low by lia. by rewrite andb_true_r, xorb_false_l.
  - rewrite Z.shiftl_spec, Z.shiftr_spec, Z.ones_spec_high by lia.
    rewrite andb_false_r, xorb_false_r. f_equal. lia.
Qed.

(** The table holds the eight division steps of every byte but one: entry 245
    is [0xCDD706B3] where the polynomial gives [0xCDD70693]. *)
Lemma table_spec i : 0 <= i < 256 -> i <> 245 -> crc32_table !! Z.to_nat i = Some (crc_bits 8 i).
Proof.
  intros Hi Hne. assert (H : forallb (fun k => bool_decide (k = 245%nat \/ crc32_table !! k = Some (crc_bits 8 (Z.of_nat k)))) (seq 0 256) = true)
    by (vm_compute; reflexivity).
  rewrite forallb_forall in H. specialize (H (Z.to_nat i)).
  rewrite bool_decide_eq_true, Z2Nat.id in H by lia. destruct H; [apply in_seq; lia|lia|done].
Qed.

Lemma table_defect : crc32_table !! 245%nat = Some (Z.lxor (crc_bits 8 245) 0x20).
Proof. vm_compute. reflexivity. Qed.

Lemma byte_range x : 0 <= Z.land x 0xFF < 256.
Proof. change 0xFF with (Z.ones 8). rewrite Z.land_ones by lia. apply Z.mod_pos_bound. lia. Qed.

(** ** The two computations *)

(** The entry of the table a byte selects. *)
Definition selects (crc b : Z) : Z := Z.land (Z.lxor crc b) 0xFF.

(** What the defective entry adds to the register. *)
Definition defect (crc b : Z) : Z := if selects crc b =? 245 then 0x20 else 0.

Lemma crc32_byte_step crc b :
  0 <= crc -> 0 <= b < 256 -> crc32_byte crc b = Z.lxor (crc_step crc b) (defect crc b).
Proof.
  intros Hc Hb. unfold crc32_byte, crc_step, defect. cbv zeta. fold (selects crc b). set (x := Z.lxor crc b).
  assert (Hx : 0 <= x) by (apply Z.lxor_nonneg; lia). assert (Hr := byte_range x).
  change (selects crc b) with (Z.land x 0xFF). rewrite u8_small by done.
  assert (E : crc_bits 8 x = Z.lxor (Z.shiftr crc 8) (crc_bits 8 (Z.land x 0xFF))).
  { rewrite (split_byte x Hx) at 1. rewrite crc_bits_lxor, (crc_bits_shift 8) by (by apply Z.shiftr_nonneg).
    f_equal. subst x. rewrite Z.shiftr_lxor. rewrite (Z.shiftr_div_pow2 b) by lia.
    rewrite (Z.div_small b) by lia. by rewrite Z.lxor_0_r. }
  rewrite E. destruct (Z.eqb_spec (Z.land x 0xFF) 245) as [->|Hne].
  - change (Z.to_nat 245) with 245%nat. rewrite table_defect. cbn [default]. by rewrite Z.lxor_assoc.
  - rewrite table_spec by done. cbn [default]. by rewrite Z.lxor_0_r.
Qed.

Lemma crc_bit_width x : in_width 32 x -> in_width 32 (crc_bit x).
Proof.
  intros Hx. assert (Hs : in_width 32 (Z.shiftr x 1)).
  { unfold in_width in *. rewrite Z.shiftr_div_pow2 by lia. div_lia. }
  unfold crc_bit. destruct (Z.testbit x 0); [|done]. apply in_width_bits; [lia| |].
  - intros n Hn. rewrite Z.lxor_spec, !(in_width_high 32); [done|unfold POLY, in_width; lia|lia|done|lia].
  - apply Z.lxor_nonneg. unfold in_width in *. unfold POLY. lia.
Qed.

Lemma crc_bits_width n x : in_width 32 x -> in_width 32 (crc_bits n x).
Proof. revert x. induction n; intros x Hx; cbn; [done|]. auto using crc_bit_width. Qed.

Lemma lxor_width k a b : 0 <= k -> in_width k a -> in_width k b -> in_width k (Z.lxor a b).
Proof.
  intros Hk Ha Hb. apply in_width_bits; [done| |apply Z.lxor_nonneg; unfold in_width in *; lia].
  intros n Hn. by rewrite Z.lxor_spec, !(in_width_high k) by (done || lia).
Qed.

Lemma byte_width b : 0 <= b < 256 -> in_width 32 b.
Proof. unfold in_width. lia. Qed.

Lemma crc_step_width crc b : in_width 32 crc -> 0 <= b < 256 -> in_width 32 (crc_step crc b).
Proof. intros. apply crc_bits_width, lxor_width; [lia|done|by apply byte_width]. Qed.

Definition is_byte (b : Z) : Prop := 0 <= b < 256.

(** No byte of the data selects the defective entry. *)
Fixpoint clean (crc : Z) (data : list Z) : bool :=
  match data with
  | [] => true
  | b :: data => negb (selects crc b =? 245) && clean (crc_step crc b) data
  end.

Lemma crc32_byte_clean crc b :
  in_width 32 crc -> is_byte b -> selects crc b <> 245 -> crc32_byte crc b = crc_step crc b.
Proof.
  intros Hc Hb Hs. rewrite crc32_byte_step by (done || apply Hc). unfold defect.
  destruct (Z.eqb_spec (selects crc b) 245); [done|]. apply Z.lxor_0_r.
Qed.

Lemma update_reference crc data :
  in_width 32 crc -> Forall is_byte data -> clean crc data = true ->
  crc32_update crc data = foldl crc_step crc data.
Proof.
  intros Hc Hd. unfold crc32_update. revert crc Hc. induction Hd as [|b data Hb Hd IH]; intros crc Hc Hcl; cbn [foldl]; [done|].
  cbn [clean] in Hcl. apply andb_true_iff in Hcl as [Hs Hcl]. apply negb_true_iff, Z.eqb_neq in Hs.
  rewrite crc32_byte_clean by done. apply IH; [by apply crc_step_width|done].
Qed.

Lemma crc32_byte_width crc b : in_width 32 crc -> is_byte b -> in_width 32 (crc32_byte crc b).
Proof.
  intros Hc Hb. rewrite crc32_byte_step by (done || apply Hc). apply lxor_width; [lia|by apply crc_step_width|].
  unfold defect. destruct (_ =? _); unfold in_width; lia.
Qed.

Lemma update_width crc data : in_width 32 crc -> Forall is_byte data -> in_width 32 (crc32_update crc data).
Proof.
  intros Hc Hd. unfold crc32_update. revert crc Hc. induction Hd; intros crc Hc; cbn [foldl]; [done|].
  auto using crc32_byte_width.
Qed.

Lemma update_app crc d1 d2 : crc32_update crc (d1 ++ d2) = crc32_update (crc32_update crc d1) d2.
Proof. apply foldl_app. Qed.

(** ** The register is never confused *)

(** The most significant bytes of the entries are pairwise different, the
    defective one included, so a step of the register can be undone. *)
Definition top (i : Z) : Z := Z.shiftr (default 0 (crc32_table !! Z.to_nat i)) 24.

Lemma top_inj i j : 0 <= i < 256 -> 0 <= j < 256 -> top i = top j -> i = j.
Proof.
  intros Hi Hj E. assert (H : forallb (fun a => forallb (fun b => negb (top a =? top b) || (a =? b)) (seqZ 0 256)) (seqZ 0 256) = true)
    by (vm_compute; reflexivity).
  rewrite forallb_forall in H. specialize (H i). rewrite <- list_elem_of_In, elem_of_seqZ, forallb_forall in H.
  specialize (H ltac:(lia) j). rewrite <- list_elem_of_In, elem_of_seqZ in H. specialize (H ltac:(lia)).
  rewrite E, Z.eqb_refl in H. cbn in H. by apply Z.eqb_eq.
Qed.

Lemma lxor_cancel a x y : Z.lxor a x = Z.lxor a y -> x = y.
Proof.
  intros H. apply (f_equal (Z.lxor a)) in H. by rewrite <- !Z.lxor_assoc, Z.lxor_nilpotent, !Z.lxor_0_l in H.
Qed.

Lemma crc32_byte_inj crc crc' b b' :
  in_width 32 crc -> in_width 32 crc' -> is_byte b -> is_byte b' ->
  crc32_byte crc b = crc32_byte crc' b' -> Z.lxor crc b = Z.lxor crc' b'.
Proof.
  intros Hc Hc' Hb Hb' H. unfold crc32_byte in H. cbv zeta in H. rewrite !u8_small in H by apply byte_range.
  set (i := Z.land (Z.lxor crc b) 0xFF) in *. set (j := Z.land (Z.lxor crc' b') 0xFF) in *.
  assert (Hij : i = j).
  { apply top_inj; [apply byte_range..|]. apply (f_equal (fun z => Z.shiftr z 24)) in H.
    rewrite !Z.shiftr_lxor, !Z.shiftr_shiftr in H by lia. cbn [Z.add Pos.add] in H.
    replace (Z.shiftr crc (8 + 24)) with 0 in H. 2:{ symmetry. rewrite Z.shiftr_div_pow2 by lia. apply Z.div_small, Hc. }
    replace (Z.shiftr crc' (8 + 24)) with 0 in H. 2:{ symmetry. rewrite Z.shiftr_div_pow2 by lia. apply Z.div_small, Hc'. }
    by rewrite !Z.lxor_0_l in H. }
  rewrite (split_byte (Z.lxor crc b)), (split_byte (Z.lxor crc' b')) by (apply Z.lxor_nonneg; unfold in_width, is_byte in *; lia).
  fold i j. rewrite Hij in *. f_equal. f_equal. rewrite !Z.shiftr_lxor, !(Z.shiftr_div_pow2 b), !(Z.shiftr_div_pow2 b') by lia.
  rewrite (Z.div_small b), (Z.div_small b'), !Z.lxor_0_r by done.
  rewrite !(Z.lxor_comm _ (default _ _)) in H. by apply lxor_cancel in H.
Qed.

Lemma update_inj crc crc' data :
  in_width 32 crc -> in_width 32 crc' -> Forall is_byte data ->
  crc32_update crc data = crc32_update crc' data -> crc = crc'.
Proof.
  intros Hc Hc' Hd. revert crc crc' Hc Hc'. induction Hd as [|b data Hb Hd IH]; intros crc crc' Hc Hc' H; cbn in H; [done|].
  apply IH in H; [|by apply crc32_byte_width..]. apply crc32_byte_inj in H; [|done..].
  rewrite !(Z.lxor_comm _ b) in H. by apply lxor_cancel in H.
Qed.

Lemma FFFF_width : in_width 32 0xFFFFFFFF.
Proof. unfold in_width. lia. Qed.

(** ** Claims *)

(** (C31) On every sequence of bytes that never selects entry 245 of the table,
    the checksum is the bit-by-bit division by the polynomial of IEEE 802.3, as
    the comments say; on a sequence whose last byte is the first to select that
    entry it is not, because the entry has one bit wrong. *)
Theorem crc32_equiv data b :
  Forall is_byte data -> is_byte b -> clean 0xFFFFFFFF data = true ->
  crc32 data = crc_reference data /\
  (crc32 (data ++ [b]) = crc_reference (data ++ [b]) <->
   selects (foldl crc_step 0xFFFFFFFF data) b <> 245).
Proof.
  intros Hd Hb Hcl. unfold crc32, crc_reference. cbv zeta. rewrite update_app, foldl_app.
  assert (E := update_reference _ _ FFFF_width Hd Hcl). assert (Hw := update_width _ _ FFFF_width Hd).
  rewrite E in *. split; [done|]. unfold crc32_update. cbn [foldl]. set (r := foldl crc_step 0xFFFFFFFF data) in *.
  rewrite crc32_byte_step by (done || apply Hw). unfold defect. destruct (Z.eqb_spec (selects r b) 245) as [Hs|Hs].
  - split; [|done]. intros H. exfalso. rewrite !(Z.lxor_comm _ 0xFFFFFFFF) in H. apply lxor_cancel in H.
    rewrite <- (Z.lxor_0_r (crc_step r b)) in H at 2. by apply lxor_cancel in H.
  - by rewrite Z.lxor_0_r.
Qed.

(** The check value of CRC-32, of the ASCII digits 1 to 9, and a line feed. *)
Lemma crc32_equiv_witness :
  let d := [49; 50; 51; 52; 53; 54; 55; 56; 57] in
  (Forall is_byte d /\ is_byte 10 /\ clean 0xFFFFFFFF d = true) /\
  crc32 d = 0xCBF43926 /\ crc_reference d = 0xCBF43926 /\
  (Forall is_byte [] /\ is_byte 10 /\ clean 0xFFFFFFFF [] = true) /\ crc32 [10] <> crc_reference [10].
Proof.
  intros d. assert (H : Forall is_byte d) by (repeat constructor; lia). assert (H10 : is_byte 10) by (split; lia).
  assert (Hc : clean 0xFFFFFFFF d = true) by (vm_compute; reflexivity).
  split; [exact (conj H (conj H10 Hc))|]. assert (E : crc32 d = 0xCBF43926) by (vm_compute; reflexivity).
  split; [exact E|]. split; [rewrite <- E; symmetry; apply (crc32_equiv d 10 H H10 Hc)|].
  assert (H0 : Forall is_byte []) by constructor. split; [exact (conj H0 (conj H10 eq_refl))|].
  intros E2. apply (proj1 (proj2 (crc32_equiv [] 10 H0 H10 eq_refl)) E2). vm_compute. reflexivity.
Defined.

(** Two blocks of bytes that differ in exactly one byte have different
    checksums: no corruption of a single byte of a journalled block goes
    unnoticed. *)
Theorem crc32_detects d1 d2 b b' :
  Forall is_byte (d1 ++ b :: d2) -> is_byte b' -> b <> b' ->
  crc32 (d1 ++ b :: d2) <> crc32 (d1 ++ b' :: d2).
Proof.
  intros Hd Hb' Hne H. apply Forall_app in Hd as [H1 [Hb H2]%Forall_cons].
  assert (Hw := update_width 0xFFFFFFFF d1 FFFF_width H1). unfold crc32 in H. cbv zeta in H.
  rewrite !(Z.lxor_comm _ 0xFFFFFFFF) in H. apply lxor_cancel in H. rewrite !update_app in H.
  cbn [crc32_update foldl] in H. apply update_inj in H; [|by apply crc32_byte_width..|done].
  apply crc32_byte_inj in H; [|done..]. by apply lxor_cancel in H.
Qed.

Lemma crc32_detects_witness :
  (Forall is_byte ([1; 2] ++ 3 :: [4]) /\ is_byte 7 /\ 3 <> 7) /\ crc32 ([1; 2] ++ 3 :: [4]) <> crc32 ([1; 2] ++ 7 :: [4]).
Proof.
  assert (H1 : Forall is_byte ([1; 2] ++ 3 :: [4])) by (repeat constructor; lia).
  assert (H2 : is_byte 7) by (split; lia). assert (H3 : 3 <> 7) by lia.
  split; [exact (conj H1 (conj H2 H3))|]. exact (crc32_detects [1; 2] [4] 3 7 H1 H2 H3).
Defined.

(** The checksum of the superblock is the checksum of the block with the four
    bytes of the checksum field set to zero. *)
Theorem crc32_superblock_zeroed sb off :
  length sb = 4096%nat -> 0 <= off <= 4092 ->
  crc32_superblock sb off =
    crc32 (take (Z.to_nat off) sb ++ [0; 0; 0; 0] ++ drop (Z.to_nat (off + 4)) sb).
Proof.
  intros Hl Ho. unfold crc32_superblock, crc32, SB_SIZE. cbv zeta. rewrite !update_app. unwrap.
  rewrite (take_ge (drop _ _)); [done|]. rewrite length_drop. lia.
Qed.

End Crc32Spec.
