(* ===== verification/Bytes.v ===== *)
(** * Byte buffers

    The kernel reads and writes on-disk structures by casting a pointer to a
    block to a pointer to a packed structure.  A block is a list of bytes here,
    and a field is a little-endian word at a fixed offset. *)

From S2P Require Import Prelude.

Module Bytes.

(** ** Little-endian words *)

Fixpoint le_split (n : nat) (v : Z) : list Z :=
  match n with
  | O => []
  | S n => v mod 256 :: le_split n (v / 256)
  end.

Fixpoint le_combine (l : list Z) : Z :=
  match l with
  | [] => 0
  | b :: l => b + 256 * le_combine l
  end.

Lemma length_le_split n v : length (le_split n v) = n.
Proof. revert v. induction n; intros v; cbn; [done|]. by rewrite IHn. Qed.

Lemma le_combine_split n v : le_combine (le_split n v) = v mod 256 ^ Z.of_nat n.
Proof.
  revert v. induction n as [|n IH]; intros v; cbn [le_split le_combine].
  - by rewrite Z.mod_1_r.
  - rewrite IH. replace (256 ^ Z.of_nat (S n)) with (256 * 256 ^ Z.of_nat n).
    2:{ rewrite Nat2Z.inj_succ, Z.pow_succ_r by lia. done. }
    rewrite Z.rem_mul_r; [done|lia|]. apply Z.pow_pos_nonneg; lia.
Qed.

(** ** Fields *)

(** The [n]-byte word at offset [off]. *)
Definition ld (n off : nat) (d : list Z) : Z := le_combine (take n (drop off d)).

(** Stores the low [n] bytes of [v] at offset [off]. *)
Definition st (n off : nat) (v : Z) (d : list Z) : list Z := list_inserts off (le_split n v) d.

Lemma length_st n off v d : length (st n off v d) = length d.
Proof. apply length_inserts. Qed.

Lemma ld_lookup n off d d' :
  (forall k, (off <= k < off + n)%nat -> d !! k = d' !! k) -> ld n off d = ld n off d'.
Proof.
  intros H. unfold ld. f_equal. apply list_eq. intros k. destruct (decide (k < n)%nat).
  - rewrite !lookup_take_lt, !lookup_drop by done. apply H. lia.
  - by rewrite !lookup_take_ge by lia.
Qed.

Lemma st_outside n off v d k :
  (k < off \/ off + n <= k)%nat -> st n off v d !! k = d !! k.
Proof.
  intros H. unfold st. destruct (decide (k < off)%nat).
  - by apply list_lookup_inserts_lt.
  - apply list_lookup_inserts_ge. rewrite length_le_split. lia.
Qed.

Lemma ld_st_same n off v d :
  (off + n <= length d)%nat -> ld n off (st n off v d) = v mod 256 ^ Z.of_nat n.
Proof.
  intros H. unfold ld. rewrite <- le_combine_split. f_equal. apply list_eq. intros k.
  destruct (decide (k < n)%nat).
  - rewrite lookup_take_lt, lookup_drop by done. unfold st. rewrite list_lookup_inserts.
    + f_equal. lia.
    + rewrite length_le_split. lia.
    + lia.
  - rewrite lookup_take_ge by lia. symmetry. apply lookup_ge_None. rewrite length_le_split. lia.
Qed.

Lemma ld_st_other n off n' off' v d :
  (off + n <= off' \/ off' + n' <= off)%nat -> ld n off (st n' off' v d) = ld n off d.
Proof. intros H. apply ld_lookup. intros k Hk. apply st_outside. lia. Qed.

(** Bytes of a block. *)
Definition is_bytes (d : list Z) : Prop := Forall (fun b => 0 <= b < 256) d.

Lemma le_split_bytes n v : is_bytes (le_split n v).
Proof. revert v. induction n; intros v; constructor; [apply Z.mod_pos_bound; lia|apply IHn]. Qed.

Lemma inserts_Forall {A} (P : A -> Prop) off k l : Forall P k -> Forall P l -> Forall P (list_inserts off k l).
Proof.
  revert off l. induction k as [|x k IH]; intros off l Hk Hl; [done|]. inversion Hk; subst. cbn.
  apply Forall_insert; [|done]. by apply IH.
Qed.

Lemma st_bytes n off v d : is_bytes d -> is_bytes (st n off v d).
Proof. intros H. apply inserts_Forall; [apply le_split_bytes|done]. Qed.

Lemma le_combine_range l : is_bytes l -> 0 <= le_combine l < 256 ^ Z.of_nat (length l).
Proof.
  induction 1 as [|b l Hb Hl IH]; cbn [le_combine length]; [cbn; lia|].
  rewrite Nat2Z.inj_succ, Z.pow_succ_r by lia. lia.
Qed.

Lemma ld_range n off d : is_bytes d -> (off + n <= length d)%nat -> 0 <= ld n off d < 256 ^ Z.of_nat n.
Proof.
  intros H Hl. unfold ld. assert (E : length (take n (drop off d)) = n) by (rewrite length_take, length_drop; lia).
  assert (Hr := le_combine_range (take n (drop off d))). rewrite E in Hr. apply Hr. unfold is_bytes. by apply Forall_take, Forall_drop.
Qed.

End Bytes.
