(* ===== verification/Cache.v ===== *)
(** * The block cache

    Models [src/kernel/fs/cache.cpp] and [cache.hpp], with the list operations
    of [src/kernel/lib/lru_list.hpp].  A cache block is named by its index in
    [blocks_]; the LRU list and a hash chain are the lists of the blocks linked
    into them, head first.  The block device under the cache is reached through
    the class [BlockDevice].  Operations run to completion one after the other:
    the windows in which the source releases the cache lock around device
    transfers are not interleaved, so waiting for a block that another caller
    is loading is [Diverge]. *)

From S2P Require Import Prelude.

Module Cache.

Definition BLOCK_SIZE : Z := 4096.
Definition CACHE_BLOCKS : Z := 64.
Definition READ_AHEAD_BLOCKS : Z := 0.
Definition HASH_SIZE : Z := 32.

(** ** The device

    [dev_read] gives the contents of a block, or nothing when the transfer
    fails; [dev_write] reports whether the transfer succeeded. *)
Class BlockDevice (D : Type) := {
  dev_read : Z -> D -> option (list Z);
  dev_write : Z -> list Z -> D -> D * bool
}.

Record CacheBlock := mkBlock {
  block_num : Z; data : list Z; valid : bool; dirty : bool; pinned : bool; refcount : Z
}.

Record BlockCache := mkCache {
  blocks_ : list CacheBlock;
  lru_ : list Z;
  hash_ : list (list Z);
  hits_ : Z;
  misses_ : Z;
  readahead_count_ : Z;
  last_block_ : Z
}.

Definition set_blocks l c := mkCache l (lru_ c) (hash_ c) (hits_ c) (misses_ c) (readahead_count_ c) (last_block_ c).
Definition set_lru l c := mkCache (blocks_ c) l (hash_ c) (hits_ c) (misses_ c) (readahead_count_ c) (last_block_ c).
Definition set_hash l c := mkCache (blocks_ c) (lru_ c) l (hits_ c) (misses_ c) (readahead_count_ c) (last_block_ c).
Definition hit c := mkCache (blocks_ c) (lru_ c) (hash_ c) (u64 (hits_ c + 1)) (misses_ c) (readahead_count_ c) (last_block_ c).
Definition miss c := mkCache (blocks_ c) (lru_ c) (hash_ c) (hits_ c) (u64 (misses_ c + 1)) (readahead_count_ c) (last_block_ c).
Definition set_last n c := mkCache (blocks_ c) (lru_ c) (hash_ c) (hits_ c) (misses_ c) (readahead_count_ c) n.
Definition count_ahead c := mkCache (blocks_ c) (lru_ c) (hash_ c) (hits_ c) (misses_ c) (u64 (readahead_count_ c + 1)) (last_block_ c).

Definition set_dirty v b := mkBlock (block_num b) (data b) (valid b) v (pinned b) (refcount b).
Definition set_valid v b := mkBlock (block_num b) (data b) v (dirty b) (pinned b) (refcount b).
Definition set_pinned v b := mkBlock (block_num b) (data b) (valid b) (dirty b) v (refcount b).
Definition set_refcount n b := mkBlock (block_num b) (data b) (valid b) (dirty b) (pinned b) n.
Definition set_data x b := mkBlock (block_num b) x (valid b) (dirty b) (pinned b) (refcount b).
Definition set_num n b := mkBlock n (data b) (valid b) (dirty b) (pinned b) (refcount b).

(** Updates the block at index [i]. *)
Definition upd (i : Z) (f : CacheBlock -> CacheBlock) (c : BlockCache) : res BlockCache :=
  b ← rd (blocks_ c) i;
  l ← wr (blocks_ c) i (f b);
  Ok (set_blocks l c).

Definition init (c : BlockCache) : BlockCache :=
  mkCache ((fun b => mkBlock 0 (data b) false false false 0) <$> blocks_ c)
    (seqZ 0 CACHE_BLOCKS) (replicate (Z.to_nat HASH_SIZE) []) 0 0 (readahead_count_ c) (last_block_ c).

(** The cache object before [init]. *)
Definition blank : BlockCache :=
  mkCache (replicate (Z.to_nat CACHE_BLOCKS) (mkBlock 0 (replicate (Z.to_nat BLOCK_SIZE) 0) false false false 0))
    [] (replicate (Z.to_nat HASH_SIZE) []) 0 0 0 0.

(** ** Lookup *)

Definition hash_func (n : Z) : Z := n mod HASH_SIZE.

Fixpoint find_chain (p : CacheBlock -> bool) (chain : list Z) (c : BlockCache) : res (option Z) :=
  match chain with
  | [] => Ok None
  | i :: chain =>
      b ← rd (blocks_ c) i;
      if p b then Ok (Some i) else find_chain p chain c
  end.

Definition find (n : Z) (c : BlockCache) : res (option Z) :=
  chain ← rd (hash_ c) (hash_func n);
  find_chain (fun b => valid b && (block_num b =? n)) chain c.

Definition find_any (n : Z) (c : BlockCache) : res (option Z) :=
  chain ← rd (hash_ c) (hash_func n);
  find_chain (fun b => block_num b =? n) chain c.

(** ** Lists *)

(** Takes a block out of a list of blocks. *)
Definition unlink (i : Z) (l : list Z) : list Z := List.filter (fun j => negb (j =? i)) l.

Definition remove_from_lru (i : Z) (c : BlockCache) : BlockCache := set_lru (unlink i (lru_ c)) c.
Definition add_to_lru_head (i : Z) (c : BlockCache) : BlockCache := set_lru (i :: lru_ c) c.
Definition touch (i : Z) (c : BlockCache) : BlockCache :=
  match lru_ c with
  | j :: _ => if i =? j then c else add_to_lru_head i (remove_from_lru i c)
  | [] => add_to_lru_head i (remove_from_lru i c)
  end.

Definition insert_hash (i : Z) (c : BlockCache) : res BlockCache :=
  b ← rd (blocks_ c) i;
  let h := hash_func (block_num b) in
  chain ← rd (hash_ c) h;
  l ← wr (hash_ c) h (i :: chain);
  Ok (set_hash l c).

Definition remove_hash (i : Z) (c : BlockCache) : res BlockCache :=
  b ← rd (blocks_ c) i;
  let h := hash_func (block_num b) in
  chain ← rd (hash_ c) h;
  l ← wr (hash_ c) h (unlink i chain);
  Ok (set_hash l c).

(** The scan from the tail of the LRU list. *)
Fixpoint victim_scan (l : list Z) (c : BlockCache) : res (option Z) :=
  match l with
  | [] => Ok None
  | i :: l =>
      b ← rd (blocks_ c) i;
      if (refcount b =? 0) && negb (pinned b) then Ok (Some i) else victim_scan l c
  end.
Definition find_eviction_victim (c : BlockCache) : res (option Z) := victim_scan (rev (lru_ c)) c.

Section device.
Context {D : Type} `{!BlockDevice D}.

(** ** Write-back *)

Definition sync_block (i : Z) (s : BlockCache * D) : res (BlockCache * D) :=
  let '(c, d) := s in
  b ← rd (blocks_ c) i;
  if negb (valid b) || negb (dirty b) then Ok (c, d)
  else
    let '(d, ok) := dev_write (block_num b) (data b) d in
    if (ok : bool) then c ← upd i (set_dirty false) c; Ok (c, d) else Ok (c, d).

Definition evict (s : BlockCache * D) : res (BlockCache * D * option Z) :=
  let '(c, d) := s in
  v ← find_eviction_victim c;
  match v with
  | None => Ok (c, d, None)
  | Some i =>
      b ← rd (blocks_ c) i;
      '(c, d) ← (if valid b && dirty b then sync_block i (c, d) else Ok (c, d));
      b ← rd (blocks_ c) i;
      c ← (if valid b then remove_hash i c else Ok c);
      Ok (c, d, Some i)
  end.

(** Loads a block that nobody asked for yet; it goes behind the head of the LRU
    list. *)
Definition prefetch_block (n : Z) (s : BlockCache * D) : res (BlockCache * D * bool) :=
  o ← find n s.1;
  match o with
  | Some _ => Ok (s, true)
  | None =>
      '(c, d, v) ← evict s;
      match v with
      | None => Ok (c, d, false)
      | Some i =>
          match dev_read n d with
          | None => Ok (c, d, false)
          | Some x =>
              c ← upd i (fun b => mkBlock n x true false (pinned b) 0) c;
              c ← insert_hash i c;
              let c := remove_from_lru i c in
              let c := match lru_ c with
                       | h :: second :: l => set_lru (h :: i :: second :: l) c
                       | _ => add_to_lru_head i c
                       end in
              Ok (count_ahead c, d, true)
          end
      end
  end.

Definition read_ahead (n : Z) (s : BlockCache * D) : res (BlockCache * D) :=
  foldM (fun s i => r ← prefetch_block (u64 (n + i)) s; Ok r.1) (seqZ 1 READ_AHEAD_BLOCKS) s.

(** ** Loading *)

(** Takes block [i] over for block number [n]: out of its hash chain, marked as
    being loaded, into its new chain, to the head of the LRU list. *)
Definition reserve (n i : Z) (c : BlockCache) : res BlockCache :=
  b ← rd (blocks_ c) i;
  c ← (if valid b then remove_hash i c else Ok c);
  c ← upd i (fun b => mkBlock n (data b) false false (pinned b) 1) c;
  insert_hash i c.

(** Reads block [n] into the buffer of block [i]. *)
Definition fill (n i : Z) (s : BlockCache * D) : res (BlockCache * D * bool) :=
  let '(c, d) := s in
  match dev_read n d with
  | Some x => c ← upd i (set_data x) c; Ok (c, d, true)
  | None => Ok (c, d, false)
  end.

(** A failed load gives the block back. *)
Definition give_up_load (i : Z) (c : BlockCache) : res BlockCache :=
  c ← remove_hash i c;
  upd i (fun b => mkBlock 0 (data b) (valid b) (dirty b) (pinned b) 0) c.

(** The part of a miss from saving the victim's state to the read. *)
Definition load (n i : Z) (s : BlockCache * D) : res (BlockCache * D * bool) :=
  let '(c, d) := s in
  b ← rd (blocks_ c) i;
  let was_dirty := valid b && dirty b in
  let wb_block_num := block_num b in
  c ← reserve n i c;
  let c := touch i c in
  let d := if was_dirty then (dev_write wb_block_num (data b) d).1 else d in
  fill n i (c, d).

Fixpoint read_ahead_loop (l : list Z) (s : BlockCache * D) : res (BlockCache * D) :=
  match l with
  | [] => Ok s
  | ahead :: l =>
      let '(c, d) := s in
      o ← find_any ahead c;
      match o with
      | Some _ => read_ahead_loop l (c, d)
      | None =>
          v ← find_eviction_victim c;
          match v with
          | None => Ok (c, d)
          | Some i =>
              b ← rd (blocks_ c) i;
              c ← reserve ahead i c;
              let d := if valid b && dirty b then (dev_write (block_num b) (data b) d).1 else d in
              '(c, d, ok) ← fill ahead i (c, d);
              c ← (if (ok : bool) then upd i (set_valid true) c
                   else c ← remove_hash i c; upd i (set_num 0) c);
              c ← upd i (set_refcount 0) c;
              read_ahead_loop l (count_ahead c, d)
          end
      end
  end.
Definition read_ahead_unlocked (n : Z) (s : BlockCache * D) : res (BlockCache * D) :=
  read_ahead_loop ((fun i => u64 (n + i)) <$> seqZ 1 READ_AHEAD_BLOCKS) s.

Definition get (n : Z) (s : BlockCache * D) : res (BlockCache * D * option Z) :=
  let '(c, d) := s in
  o ← find_any n c;
  match o with
  | Some i =>
      b ← rd (blocks_ c) i;
      if negb (valid b) then Diverge
      else
        c ← upd i (fun b => set_refcount (u32 (refcount b + 1)) b) (hit c);
        Ok (set_last n (touch i c), d, Some i)
  | None =>
      let c := miss c in
      let prev_last_block := last_block_ c in
      v ← find_eviction_victim c;
      match v with
      | None => Ok (c, d, None)
      | Some i =>
          '(c, d, ok) ← load n i (c, d);
          if negb ok then c ← give_up_load i c; Ok (c, d, None)
          else
            c ← upd i (set_valid true) c;
            let c := set_last n c in
            let is_sequential := n =? u64 (prev_last_block + 1) in
            '(c, d) ← (if is_sequential then read_ahead_unlocked n (c, d) else Ok (c, d));
            Ok (c, d, Some i)
      end
  end.

Definition get_for_write (n : Z) (s : BlockCache * D) : res (BlockCache * D * option Z) :=
  let '(c, d) := s in
  o ← find_any n c;
  match o with
  | Some i =>
      b ← rd (blocks_ c) i;
      if negb (valid b) then Diverge
      else
        c ← upd i (fun b => set_refcount (u32 (refcount b + 1)) b) (hit c);
        c ← upd i (set_dirty true) (touch i c);
        Ok (c, d, Some i)
  | None =>
      let c := miss c in
      v ← find_eviction_victim c;
      match v with
      | None => Ok (c, d, None)
      | Some i =>
          '(c, d, ok) ← load n i (c, d);
          if negb ok then c ← give_up_load i c; Ok (c, d, None)
          else
            c ← upd i (fun b => set_dirty true (set_valid true b)) c;
            Ok (c, d, Some i)
      end
  end.

Definition release (i : Z) (c : BlockCache) : res BlockCache :=
  b ← rd (blocks_ c) i;
  if 0 <? refcount b then upd i (fun b => set_refcount (refcount b - 1) b) c else Ok c.

(** ** Synchronisation *)

(** The indices of the dirty blocks, in the order of the array. *)
Definition dirty_indices (c : BlockCache) : list Z :=
  List.filter (fun i => match blocks_ c !! Z.to_nat i with Some b => valid b && dirty b | None => false end)
    (seqZ 0 (Z.of_nat (length (blocks_ c)))).

Definition num_of (c : BlockCache) (i : Z) : Z :=
  match blocks_ c !! Z.to_nat i with Some b => block_num b | None => 0 end.

(** One round of the insertion sort: [r] is the sorted part, last element
    first; elements with a larger block number move up. *)
Fixpoint sort_insert (c : BlockCache) (key : Z) (r : list Z) : list Z :=
  match r with
  | [] => [key]
  | x :: r => if num_of c key <? num_of c x then x :: sort_insert c key r else key :: x :: r
  end.
Definition sort_by_num (c : BlockCache) (l : list Z) : list Z := rev (foldl (fun r k => sort_insert c k r) [] l).

Definition sync_one (s : BlockCache * D) (i : Z) : res (BlockCache * D) :=
  let '(c, d) := s in
  b ← rd (blocks_ c) i;
  if negb (valid b) || negb (dirty b) then Ok (c, d)
  else
    c ← upd i (fun b => set_refcount (u32 (refcount b + 1)) b) c;
    let d := (dev_write (block_num b) (data b) d).1 in
    c ← upd i (fun b => set_refcount (u32 (refcount b - 1)) (set_dirty false b)) c;
    Ok (c, d).

Definition sync (s : BlockCache * D) : res (BlockCache * D) :=
  foldM sync_one (sort_by_num s.1 (dirty_indices s.1)) s.

Definition invalidate (n : Z) (s : BlockCache * D) : res (BlockCache * D) :=
  let '(c, d) := s in
  o ← find n c;
  match o with
  | None => Ok (c, d)
  | Some i =>
      b ← rd (blocks_ c) i;
      '(c, d) ← (if dirty b then
          c ← upd i (fun b => set_refcount (u32 (refcount b + 1)) b) c;
          let d := (dev_write (block_num b) (data b) d).1 in
          c ← upd i (fun b => set_refcount (u32 (refcount b - 1)) (set_dirty false b)) c;
          Ok (c, d)
        else Ok (c, d));
      c ← remove_hash i c;
      c ← upd i (fun b => set_pinned false (set_valid false b)) c;
      Ok (c, d)
  end.

(** ** Pinning *)

Definition pin (n : Z) (s : BlockCache * D) : res (BlockCache * D * bool) :=
  let '(c, d) := s in
  o ← find n c;
  match o with
  | Some i => c ← upd i (set_pinned true) c; Ok (c, d, true)
  | None =>
      v ← find_eviction_victim c;
      match v with
      | None => Ok (c, d, false)
      | Some i =>
          b ← rd (blocks_ c) i;
          '(c, d) ← (if valid b && dirty b then
              c ← upd i (fun b => set_refcount (u32 (refcount b + 1)) b) c;
              let d := (dev_write (block_num b) (data b) d).1 in
              c ← upd i (fun b => set_refcount (u32 (refcount b - 1)) (set_dirty false b)) c;
              Ok (c, d)
            else Ok (c, d));
          c ← reserve n i c;
          '(c, d, ok) ← fill n i (touch i c, d);
          if negb ok then c ← give_up_load i c; Ok (c, d, false)
          else
            c ← upd i (fun b => set_refcount 0 (set_valid true b)) c;
            c ← upd i (set_pinned true) c;
            Ok (c, d, true)
      end
  end.

Definition unpin (n : Z) (c : BlockCache) : res BlockCache :=
  o ← find n c;
  match o with Some i => upd i (set_pinned false) c | None => Ok c end.

(** ** How the file system uses a block

    It gets a block, reads or changes the buffer through the pointer, and
    releases it. *)

(** Writing into the buffer of a block and marking it dirty. *)
Definition store (i : Z) (x : list Z) (c : BlockCache) : res BlockCache :=
  upd i (fun b => set_dirty true (set_data x b)) c.

Definition with_read (n : Z) (s : BlockCache * D) : res (BlockCache * D * option (list Z)) :=
  '(c, d, o) ← get n s;
  match o with
  | None => Ok (c, d, None)
  | Some i =>
      b ← rd (blocks_ c) i;
      c ← release i c;
      Ok (c, d, Some (data b))
  end.

(** [fetch] says whether the block is got for writing, [through] whether it is
    written to the device before it is released. *)
Definition with_write (fetch through : bool) (n : Z) (f : list Z -> list Z) (s : BlockCache * D)
  : res (BlockCache * D * bool) :=
  '(c, d, o) ← (if fetch then get_for_write n s else get n s);
  match o with
  | None => Ok (c, d, false)
  | Some i =>
      b ← rd (blocks_ c) i;
      c ← store i (f (data b)) c;
      '(c, d) ← (if through then sync_block i (c, d) else Ok (c, d));
      c ← release i c;
      Ok (c, d, true)
  end.

End device.

End Cache.
