(* ===== verification/CacheSpec.v ===== *)
(** * The block cache behaves as the disk

    The invariant of the cache of [src/kernel/fs/cache.cpp] and the contract it
    offers to the file system: a block that is got holds the latest contents of
    that block number, whatever was evicted to make room, and synchronising
    makes the device agree with what the cache shows. *)

From S2P Require Import Prelude Cache.

Module CacheSpec.
Import Cache.

(** ** What the cache relies on *)

(** [contents d n] is what block [n] of the device holds, [history d] the
    writes it performed, oldest first; a [reliable] device never reports an
    error. *)
Class DeviceLaws (D : Type) `{!BlockDevice D} := {
  contents : D -> Z -> list Z;
  history : D -> list (Z * list Z);
  reliable : D -> Prop;
  contents_length d n : length (contents d n) = Z.to_nat BLOCK_SIZE;
  read_law d n x : dev_read n d = Some x -> x = contents d n;
  write_law d n x d' ok : dev_write n x d = (d', ok) -> length x = Z.to_nat BLOCK_SIZE ->
    (forall m, m <> n -> contents d' m = contents d m) /\ (ok = true -> contents d' n = x);
  reliable_read d n : reliable d -> dev_read n d = Some (contents d n);
  reliable_write d n x : reliable d -> length x = Z.to_nat BLOCK_SIZE ->
    exists d', dev_write n x d = (d', true) /\ reliable d' /\ history d' = history d ++ [(n, x)]
}.

(** A disk in memory satisfies the laws. *)
Record RamDisk := mkRam { ram : gmap Z (list Z); ram_log : list (Z * list Z) }.
Definition ram_block (d : RamDisk) (n : Z) : list Z := resize (Z.to_nat BLOCK_SIZE) 0 (default [] (ram d !! n)).
#[export] Instance ram_device : BlockDevice RamDisk := {|
  dev_read n d := Some (ram_block d n);
  dev_write n x d := (mkRam (<[n := x]> (ram d)) (ram_log d ++ [(n, x)]), true)
|}.
#[export] Instance ram_laws : DeviceLaws RamDisk.
Proof.
  refine {| contents := ram_block; history := ram_log; reliable _ := True |}.
  - intros. apply length_resize.
  - intros d n x Hx. change (Some (ram_block d n) = Some x) in Hx. congruence.
  - intros d n x d' ok E Hx. injection E as <- <-. unfold ram_block. cbn [ram]. split.
    + intros m Hm. by rewrite lookup_insert_ne.
    + intros _. rewrite lookup_insert_eq. by apply resize_all_alt.
  - done.
  - intros d n x _ Hx. by eexists.
Defined.

Section laws.
Context {D : Type} {BD : BlockDevice D} {DL : DeviceLaws D}.

(** ** The invariant *)

Definition blk (c : BlockCache) (i : Z) : option CacheBlock :=
  if i <? 0 then None else blocks_ c !! Z.to_nat i.

Definition hashed (c : BlockCache) (i : Z) : Prop := i ∈ concat (hash_ c).

(** The structure of the cache: the lists hold each block at most once, and a
    block hangs in the chain of its number. *)
Record core (c : BlockCache) : Prop := {
  c_blocks : length (blocks_ c) = 64%nat;
  c_hash : length (hash_ c) = 32%nat;
  c_lru : lru_ c ≡ₚ seqZ 0 64;
  c_nodup : NoDup (concat (hash_ c));
  c_chain : forall h chain i, hash_ c !! h = Some chain -> i ∈ chain ->
    exists b, blk c i = Some b /\ block_num b mod 32 = Z.of_nat h;
  c_uniq : forall i j b b', hashed c i -> hashed c j -> blk c i = Some b -> blk c j = Some b' ->
    block_num b = block_num b' -> i = j;
  c_data : forall i b, blk c i = Some b -> length (data b) = Z.to_nat BLOCK_SIZE
}.

(** Between operations the blocks in the chains are the valid ones, and a clean
    block holds what the device holds. *)
Record cinv (s : BlockCache * D) : Prop := {
  v_core : core s.1;
  v_valid : forall i b, blk s.1 i = Some b -> (valid b = true <-> hashed s.1 i);
  v_clean : forall i b, blk s.1 i = Some b -> valid b = true -> dirty b = false ->
    data b = contents s.2 (block_num b);
  v_ref : forall i b, blk s.1 i = Some b -> in_width 32 (refcount b)
}.

(** What the cache shows for block [n]. *)
Definition view (s : BlockCache * D) (n : Z) : list Z :=
  match List.find (fun b => valid b && (block_num b =? n)) (blocks_ s.1) with
  | Some b => data b
  | None => contents s.2 n
  end.

Lemma blk_range c i b : blk c i = Some b -> 0 <= i < Z.of_nat (length (blocks_ c)).
Proof. unfold blk. destruct (Z.ltb_spec i 0); [done|]. intros E. apply lookup_lt_Some in E. lia. Qed.

Lemma blk_rd c i b : blk c i = Some b -> rd (blocks_ c) i = Ok b.
Proof. unfold blk, rd. destruct (i <? 0); [done|]. by intros ->. Qed.

Lemma blk_some c i : core c -> 0 <= i < 64 -> exists b, blk c i = Some b.
Proof.
  intros H Hi. unfold blk. destruct (Z.ltb_spec i 0); [lia|]. apply lookup_lt_is_Some. rewrite (c_blocks _ H). lia.
Qed.

Lemma blk_elem c i b : blk c i = Some b -> b ∈ blocks_ c.
Proof. unfold blk. destruct (i <? 0); [done|]. apply list_elem_of_lookup_2. Qed.

Lemma elem_blk c b : b ∈ blocks_ c -> exists i, blk c i = Some b.
Proof.
  intros (k & Hk)%list_elem_of_lookup. exists (Z.of_nat k). unfold blk.
  destruct (Z.ltb_spec (Z.of_nat k) 0); [lia|]. by rewrite Nat2Z.id.
Qed.

(** Updating a block. *)
Lemma upd_ok i f c b :
  blk c i = Some b ->
  exists l, upd i f c = Ok (set_blocks l c) /\ length l = length (blocks_ c) /\
    forall j, blk (set_blocks l c) j = if j =? i then Some (f b) else blk c j.
Proof.
  intros H. assert (Hr := blk_range _ _ _ H). unfold upd. rewrite (blk_rd _ _ _ H), bind_Ok, wr_Z, bind_Ok by done.
  eexists. split; [done|]. split; [apply length_insert|]. intros j. unfold blk. cbn.
  destruct (Z.eqb_spec j i) as [->|Hne].
  - destruct (Z.ltb_spec i 0); [lia|]. apply list_lookup_insert_eq. lia.
  - destruct (Z.ltb_spec j 0); [done|]. apply list_lookup_insert_ne. lia.
Qed.

(** ** Chains *)

Lemma hashed_chain c i : hashed c i <-> exists h chain, hash_ c !! h = Some chain /\ i ∈ chain.
Proof.
  unfold hashed. rewrite list_elem_of_In, in_concat. setoid_rewrite <- list_elem_of_In. split.
  - intros (s & (j & Hj)%list_elem_of_lookup & Hx). eauto.
  - intros (j & s & Hj & Hx). exists s. split; [|done]. by apply list_elem_of_lookup_2 in Hj.
Qed.

Lemma hashed_blk c i : core c -> hashed c i -> exists b, blk c i = Some b.
Proof. intros H (h & chain & Hc & Hi)%hashed_chain. destruct (c_chain _ H h chain i Hc Hi) as (b & Hb & _). eauto. Qed.

Lemma chain_of c i b :
  core c -> hashed c i -> blk c i = Some b ->
  exists chain, hash_ c !! Z.to_nat (block_num b mod 32) = Some chain /\ i ∈ chain.
Proof.
  intros H (h & chain & Hc & Hi)%hashed_chain Hb. destruct (c_chain _ H h chain i Hc Hi) as (b' & Hb' & Hn).
  simplify_eq. exists chain. by rewrite Hn, Nat2Z.id.
Qed.

Lemma hash_slot c n : core c -> exists chain, hash_ c !! Z.to_nat (n mod 32) = Some chain.
Proof. intros H. apply lookup_lt_is_Some. rewrite (c_hash _ H). assert (0 <= n mod 32 < 32) by (apply Z.mod_pos_bound; lia). lia. Qed.

Lemma find_chain_ok p chain c :
  (forall i, i ∈ chain -> exists b, blk c i = Some b) ->
  exists o, find_chain p chain c = Ok o /\
    match o with
    | Some i => i ∈ chain /\ exists b, blk c i = Some b /\ p b = true
    | None => forall i b, i ∈ chain -> blk c i = Some b -> p b = false
    end.
Proof.
  induction chain as [|i chain IH]; intros H; cbn [find_chain].
  - exists None. split; [done|]. intros i b []%not_elem_of_nil.
  - destruct (H i) as [b Hb]; [apply list_elem_of_here|]. rewrite (blk_rd _ _ _ Hb), bind_Ok.
    destruct (p b) eqn:E.
    + exists (Some i). split; [done|]. split; [apply list_elem_of_here|eauto].
    + destruct IH as (o & -> & Ho). { intros j Hj. apply H. by apply list_elem_of_further. }
      exists o. split; [done|]. destruct o as [j|].
      * destruct Ho as [? ?]. split; [by apply list_elem_of_further|done].
      * intros j b' [->|Hj]%elem_of_cons Hb'; [congruence|eauto].
Qed.

(** Looking a number up in the chains. *)
Lemma find_pred_ok p n c :
  core c -> (forall b, p b = true -> block_num b = n) ->
  exists o, (chain ← rd (hash_ c) (hash_func n); find_chain p chain c) = Ok o /\
    match o with
    | Some i => hashed c i /\ exists b, blk c i = Some b /\ p b = true
    | None => forall i b, hashed c i -> blk c i = Some b -> p b = false
    end.
Proof.
  intros H Hp. destruct (hash_slot c n H) as [chain Hc]. unfold hash_func, HASH_SIZE.
  rewrite (rd_Z _ _ chain), bind_Ok by (done || (apply Z.mod_pos_bound; lia)).
  destruct (find_chain_ok p chain c) as (o & -> & Ho).
  { intros i Hi. destruct (c_chain _ H _ _ i Hc Hi) as (b & Hb & _). eauto. }
  exists o. split; [done|]. destruct o as [i|].
  - destruct Ho as [Hi Hb]. split; [|done]. apply hashed_chain. eauto.
  - intros i b Hi Hb. destruct (p b) eqn:E; [|done]. rewrite <- E. apply (Ho i b); [|done].
    destruct (chain_of c i b H Hi Hb) as (chain' & Hc' & Hi'). rewrite (Hp b E) in Hc'. by simplify_eq.
Qed.

Lemma find_any_ok n c :
  core c -> exists o, find_any n c = Ok o /\
    match o with
    | Some i => hashed c i /\ exists b, blk c i = Some b /\ block_num b = n
    | None => forall i b, hashed c i -> blk c i = Some b -> block_num b <> n
    end.
Proof.
  intros H. destruct (find_pred_ok (fun b => block_num b =? n) n c H) as (o & Ho & Hs).
  { intros b. apply Z.eqb_eq. }
  exists o. split; [exact Ho|]. destruct o as [i|].
  - destruct Hs as [? (b & ? & ?%Z.eqb_eq)]. eauto.
  - intros i b Hi Hb. apply Z.eqb_neq. eauto.
Qed.
(** ** Changing the lists *)

Lemma elem_unlink i j l : j ∈ unlink i l <-> j ∈ l /\ j <> i.
Proof. unfold unlink. rewrite !list_elem_of_In, filter_In, negb_true_iff, Z.eqb_neq. done. Qed.

Lemma NoDup_unlink i l : NoDup l -> NoDup (unlink i l).
Proof.
  unfold unlink. induction 1 as [|x l Hx Hl IH]; cbn; [constructor|]. destruct (Z.eqb_spec x i); cbn; [done|].
  constructor; [|done]. change (x ∉ unlink i l). rewrite elem_unlink. tauto.
Qed.

Lemma lru_unlink_perm i l : NoDup l -> i ∈ l -> i :: unlink i l ≡ₚ l.
Proof.
  intros Hn Hi. apply NoDup_Permutation.
  - constructor; [|by apply NoDup_unlink]. rewrite elem_unlink. tauto.
  - done.
  - intros x. rewrite elem_of_cons, elem_unlink. destruct (decide (x = i)); naive_solver.
Qed.

(** A list of lists without repetitions, with one element replaced. *)
Lemma concat_replace {A} (l : list (list A)) h y x :
  l !! h = Some y -> concat (<[h := x]> l) ++ y ≡ₚ concat l ++ x.
Proof.
  revert h. induction l as [|z l IH]; intros [|h] H; simpl in *; simplify_eq.
  - rewrite (Permutation_app_comm _ y), <- app_assoc. f_equiv. apply Permutation_app_comm.
  - by rewrite <- !app_assoc, IH by done.
Qed.

Lemma hash_insert_lookup (l : list (list Z)) h x k chain :
  (h < length l)%nat -> <[h := x]> l !! k = Some chain -> (k = h /\ chain = x) \/ (k <> h /\ l !! k = Some chain).
Proof.
  intros Hh Hk. destruct (decide (k = h)) as [->|Hne].
  - rewrite list_lookup_insert_eq in Hk by done. simplify_eq. by left.
  - rewrite list_lookup_insert_ne in Hk by done. by right.
Qed.

Lemma remove_hash_ok i c b :
  core c -> hashed c i -> blk c i = Some b ->
  exists l, remove_hash i c = Ok (set_hash l c) /\ core (set_hash l c) /\
    forall j, hashed (set_hash l c) j <-> hashed c j /\ j <> i.
Proof.
  intros H Hi Hb. destruct (chain_of c i b H Hi Hb) as (chain & Hc & Hin).
  assert (Hm : 0 <= block_num b mod 32 < 32) by (apply Z.mod_pos_bound; lia).
  unfold remove_hash. rewrite (blk_rd _ _ _ Hb), bind_Ok. cbv zeta. unfold hash_func, HASH_SIZE.
  rewrite (rd_Z _ _ chain), bind_Ok by (done || lia). rewrite wr_Z, bind_Ok by (rewrite (c_hash _ H); lia).
  eexists. split; [done|]. set (h := Z.to_nat (block_num b mod 32)) in *.
  assert (Hlt : (h < length (hash_ c))%nat) by (rewrite (c_hash _ H); lia).
  assert (Hh : forall j, hashed (set_hash (<[h := unlink i chain]> (hash_ c)) c) j <-> hashed c j /\ j <> i).
  { intros j. rewrite !hashed_chain. cbn. split.
    - intros (k & ch & Hk & Hj). destruct (hash_insert_lookup _ _ _ _ _ Hlt Hk) as [[-> ->]|[Hne Hk']].
      + apply elem_unlink in Hj as [Hj Hne]. eauto.
      + split; [eauto|]. intros ->. destruct (c_chain _ H k ch i Hk' Hj) as (b' & Hb' & Hn). simplify_eq. lia.
    - intros [(k & ch & Hk & Hj) Hne]. destruct (decide (k = h)) as [->|Hkh].
      + exists h, (unlink i chain). rewrite list_lookup_insert_eq by done. rewrite elem_unlink. naive_solver.
      + exists k, ch. by rewrite list_lookup_insert_ne by done. }
  split; [|done]. assert (Hp := concat_replace (hash_ c) h chain (unlink i chain) Hc).
  destruct H. constructor; cbn; auto.
  - by rewrite length_insert.
  - assert (Hd : concat (hash_ c) ≡ₚ chain ++ concat (<[h := []]> (hash_ c))).
    { rewrite (Permutation_app_comm chain), concat_replace by done. by rewrite app_nil_r. }
    assert (Hnc : NoDup chain) by (rewrite Hd in c_nodup0; by apply NoDup_app in c_nodup0 as (? & _)).
    assert (Hp' : i :: concat (<[h := unlink i chain]> (hash_ c)) ≡ₚ concat (hash_ c)).
    { apply (Permutation_app_inv_r (unlink i chain)). rewrite <- Hp.
      etrans; [apply Permutation_middle|]. apply Permutation_app_head, (lru_unlink_perm i chain Hnc Hin). }
    rewrite <- Hp' in c_nodup0. by inversion c_nodup0.
  - intros k ch j Hk Hj. destruct (hash_insert_lookup _ _ _ _ _ Hlt Hk) as [[-> ->]|[Hne Hk']]; [|eauto].
    apply elem_unlink in Hj as [Hj _]. eauto.
  - intros j k b1 b2 Hj Hk. apply Hh in Hj as [Hj _]. apply Hh in Hk as [Hk _]. by apply c_uniq0.
Qed.

Lemma insert_hash_ok i c b :
  core c -> ~ hashed c i -> blk c i = Some b ->
  (forall j b', hashed c j -> blk c j = Some b' -> block_num b' <> block_num b) ->
  exists l, insert_hash i c = Ok (set_hash l c) /\ core (set_hash l c) /\
    forall j, hashed (set_hash l c) j <-> hashed c j \/ j = i.
Proof.
  intros H Hi Hb Hfresh. destruct (hash_slot c (block_num b) H) as [chain Hc].
  assert (Hm : 0 <= block_num b mod 32 < 32) by (apply Z.mod_pos_bound; lia).
  unfold insert_hash. rewrite (blk_rd _ _ _ Hb), bind_Ok. cbv zeta. unfold hash_func, HASH_SIZE.
  rewrite (rd_Z _ _ chain), bind_Ok by (done || lia). rewrite wr_Z, bind_Ok by (rewrite (c_hash _ H); lia).
  eexists. split; [done|]. set (h := Z.to_nat (block_num b mod 32)) in *.
  assert (Hlt : (h < length (hash_ c))%nat) by (rewrite (c_hash _ H); lia).
  assert (Hp : concat (<[h := i :: chain]> (hash_ c)) ≡ₚ i :: concat (hash_ c)).
  { apply (Permutation_app_inv_r chain). rewrite concat_replace by done. by rewrite <- Permutation_middle. }
  assert (Hh : forall j, hashed (set_hash (<[h := i :: chain]> (hash_ c)) c) j <-> hashed c j \/ j = i).
  { intros j. unfold hashed. cbn. rewrite Hp, elem_of_cons. tauto. }
  split; [|done]. destruct H. constructor; cbn; auto.
  - by rewrite length_insert.
  - rewrite Hp. by constructor.
  - intros k ch j Hk Hj. destruct (hash_insert_lookup _ _ _ _ _ Hlt Hk) as [[-> ->]|[Hne Hk']]; [|eauto].
    apply elem_of_cons in Hj as [->|Hj]; [|eauto]. exists b. split; [done|]. lia.
  - intros j k b1 b2 [Hj| ->]%Hh [Hk| ->]%Hh Hb1 Hb2 E; [by eapply c_uniq0| | |done].
    + destruct (Hfresh j b1 Hj Hb1). change (blk c i = Some b2) in Hb2. congruence.
    + destruct (Hfresh k b2 Hk Hb2). change (blk c i = Some b1) in Hb1. congruence.
Qed.

(** Updating a block keeps the structure when it is not in a chain, or keeps its
    number. *)
Lemma core_upd c l i b b' :
  core c -> blk c i = Some b -> length l = length (blocks_ c) ->
  (forall j, blk (set_blocks l c) j = if j =? i then Some b' else blk c j) ->
  (hashed c i -> block_num b' = block_num b) -> length (data b') = length (data b) ->
  core (set_blocks l c).
Proof.
  intros H Hb Hl Hblk Hn Hd. destruct H. constructor; cbn; auto.
  - congruence.
  - intros h chain j Hc Hj. destruct (c_chain0 h chain j Hc Hj) as (x & Hx & Hm). rewrite Hblk.
    destruct (Z.eqb_spec j i) as [->|]; [|eauto]. exists b'. split; [done|]. simplify_eq.
    rewrite Hn; [done|]. apply hashed_chain. eauto.
  - intros j k x y Hj Hk. rewrite !Hblk. change (hashed c j) in Hj. change (hashed c k) in Hk.
    destruct (Z.eqb_spec j i) as [->|], (Z.eqb_spec k i) as [->|]; intros ? ? E; simplify_eq; [done| | |by eapply c_uniq0].
    + rewrite Hn in E by done. by eapply c_uniq0.
    + rewrite Hn in E by done. by eapply c_uniq0.
  - intros j x. rewrite Hblk. destruct (Z.eqb_spec j i) as [->|]; [|apply c_data0]. intros [= <-]. rewrite Hd. eauto.
Qed.

Lemma touch_same i c :
  blocks_ (touch i c) = blocks_ c /\ hash_ (touch i c) = hash_ c /\ last_block_ (touch i c) = last_block_ c.
Proof. unfold touch. destruct (lru_ c); [done|]. by destruct (i =? z). Qed.

Lemma touch_core i c : core c -> 0 <= i < 64 -> core (touch i c).
Proof.
  intros H Hi. assert (Hl : lru_ (touch i c) ≡ₚ lru_ c).
  { assert (Hn : NoDup (lru_ c)) by (rewrite (c_lru _ H); apply NoDup_seqZ).
    assert (Hin : i ∈ lru_ c) by (rewrite (c_lru _ H), elem_of_seqZ; lia).
    unfold touch. destruct (lru_ c) as [|x l] eqn:E; [by apply not_elem_of_nil in Hin|].
    destruct (Z.eqb_spec i x); [by rewrite E|]. cbn [lru_ add_to_lru_head remove_from_lru set_lru].
    rewrite E. by apply lru_unlink_perm. }
  destruct (touch_same i c) as (Eb & Eh & _).
  assert (Hblk : forall j, blk (touch i c) j = blk c j) by (intros; unfold blk; by rewrite Eb).
  assert (Hh : forall j, hashed (touch i c) j <-> hashed c j) by (intros; unfold hashed; by rewrite Eh).
  destruct H. constructor.
  - by rewrite Eb.
  - by rewrite Eh.
  - by rewrite Hl.
  - by rewrite Eh.
  - setoid_rewrite Hblk. by rewrite Eh.
  - intros j k b b'. rewrite !Hh, !Hblk. apply c_uniq0.
  - intros j b. rewrite Hblk. apply c_data0.
Qed.
(** ** The view *)

Lemma cached_unique s i j b b' :
  cinv s -> blk s.1 i = Some b -> blk s.1 j = Some b' -> valid b = true -> valid b' = true ->
  block_num b = block_num b' -> i = j.
Proof.
  intros H Hi Hj Hv Hv'. apply (c_uniq _ (v_core _ H)); [|..|done|done].
  - by apply (v_valid _ H i b).
  - by apply (v_valid _ H j b').
Qed.

Lemma view_cases s m :
  (exists i b, blk s.1 i = Some b /\ valid b = true /\ block_num b = m /\ view s m = data b) \/
  ((forall i b, blk s.1 i = Some b -> valid b = true -> block_num b <> m) /\ view s m = contents s.2 m).
Proof.
  unfold view. destruct (List.find _ _) as [b|] eqn:E.
  - left. apply find_some in E as [Hb Hp]. apply list_elem_of_In, elem_blk in Hb as [i Hi].
    apply andb_true_iff in Hp as [? ?%Z.eqb_eq]. eauto 10.
  - right. split; [|done]. intros i b Hb Hv Hn. apply blk_elem, list_elem_of_In in Hb.
    apply (find_none _ _ E) in Hb. rewrite Hv in Hb. cbn in Hb. apply Z.eqb_neq in Hb. done.
Qed.

Lemma view_cached s i b :
  cinv s -> blk s.1 i = Some b -> valid b = true -> view s (block_num b) = data b.
Proof.
  intros H Hb Hv. destruct (view_cases s (block_num b)) as [(j & b' & Hj & Hv' & Hn & ->)|[Hno _]].
  - assert (j = i) as -> by (by eapply cached_unique). congruence.
  - by destruct (Hno i b Hb Hv).
Qed.

Lemma view_uncached s m :
  (forall i b, blk s.1 i = Some b -> valid b = true -> block_num b <> m) -> view s m = contents s.2 m.
Proof. intros H. destruct (view_cases s m) as [(j & b' & Hj & Hv & Hn & _)|[_ ?]]; [|done]. by destruct (H j b'). Qed.

Lemma view_length s m : cinv s -> length (view s m) = Z.to_nat BLOCK_SIZE.
Proof.
  intros H. destruct (view_cases s m) as [(j & b' & Hj & Hv & Hn & ->)|[_ ->]].
  - apply (c_data _ (v_core _ H) j b' Hj).
  - apply contents_length.
Qed.

(** ** Choosing a victim *)

Lemma victim_scan_ok l c :
  (forall i, i ∈ l -> exists b, blk c i = Some b) ->
  exists o, victim_scan l c = Ok o /\
    match o with
    | Some i => i ∈ l /\ exists b, blk c i = Some b /\ refcount b = 0 /\ pinned b = false
    | None => forall i b, i ∈ l -> blk c i = Some b -> refcount b <> 0 \/ pinned b = true
    end.
Proof.
  induction l as [|i l IH]; intros H; cbn [victim_scan].
  - exists None. split; [done|]. intros i b []%not_elem_of_nil.
  - destruct (H i) as [b Hb]; [apply list_elem_of_here|]. rewrite (blk_rd _ _ _ Hb), bind_Ok.
    destruct ((refcount b =? 0) && negb (pinned b)) eqn:E.
    + apply andb_true_iff in E as [?%Z.eqb_eq ?%negb_true_iff]. exists (Some i). split; [done|].
      split; [apply list_elem_of_here|eauto].
    + destruct IH as (o & -> & Ho). { intros j Hj. apply H. by apply list_elem_of_further. }
      exists o. split; [done|]. destruct o as [j|].
      * destruct Ho as [? ?]. split; [by apply list_elem_of_further|done].
      * intros j b' [->|Hj]%elem_of_cons Hb'; [|eauto]. simplify_eq.
        apply andb_false_iff in E as [?%Z.eqb_neq|?%negb_false_iff]; auto.
Qed.

Lemma victim_ok c :
  core c -> exists o, find_eviction_victim c = Ok o /\
    match o with
    | Some i => exists b, blk c i = Some b /\ refcount b = 0 /\ pinned b = false
    | None => forall i b, blk c i = Some b -> refcount b <> 0 \/ pinned b = true
    end.
Proof.
  intros H. assert (Hl : forall i, i ∈ rev (lru_ c) <-> 0 <= i < 64).
  { intros i. rewrite <- Permutation_rev, (c_lru _ H), elem_of_seqZ. lia. }
  destruct (victim_scan_ok (rev (lru_ c)) c) as (o & E & Ho).
  { intros i Hi. apply blk_some; [done|]. by apply Hl. }
  exists o. split; [exact E|]. destruct o as [i|].
  - by destruct Ho as [_ ?].
  - intros i b Hb. apply (Ho i b); [|done]. apply Hl. apply blk_range in Hb. rewrite (c_blocks _ H) in Hb. lia.
Qed.

(** ** Taking a block over *)

(** The device after the victim's data was written back. *)
Definition written_back (b : CacheBlock) (d : D) : D :=
  if valid b && dirty b then (dev_write (block_num b) (data b) d).1 else d.

Lemma written_back_ok b d :
  reliable d -> length (data b) = Z.to_nat BLOCK_SIZE ->
  reliable (written_back b d) /\
  (forall m, contents (written_back b d) m =
     if valid b && dirty b && (m =? block_num b) then data b else contents d m) /\
  history (written_back b d) = history d ++ (if valid b && dirty b then [(block_num b, data b)] else []).
Proof.
  intros Hr Hl. unfold written_back. destruct (valid b && dirty b); cbn [andb].
  - destruct (reliable_write d (block_num b) (data b) Hr Hl) as (d' & E & Hr' & Hh). rewrite E. cbn.
    destruct (write_law _ _ _ _ _ E Hl) as [Ho Hs]. split; [done|]. split; [|done]. intros m.
    destruct (Z.eqb_spec m (block_num b)) as [->|]; auto.
  - rewrite app_nil_r. done.
Qed.

Lemma reserve_ok n i c b :
  core c -> (forall j x, blk c j = Some x -> (valid x = true <-> hashed c j)) ->
  blk c i = Some b -> (forall j x, hashed c j -> blk c j = Some x -> block_num x <> n) ->
  exists c', reserve n i c = Ok c' /\ core c' /\ last_block_ c' = last_block_ c /\
    (forall j, hashed c' j <-> hashed c j \/ j = i) /\
    (forall j, blk c' j = if j =? i then Some (mkBlock n (data b) false false (pinned b) 1) else blk c j).
Proof.
  intros H HV Hb Hn. unfold reserve. rewrite (blk_rd _ _ _ Hb), bind_Ok.
  assert (Hrm : exists l, (if valid b then remove_hash i c else Ok c) = Ok (set_hash l c) /\ core (set_hash l c) /\
    forall j, hashed (set_hash l c) j <-> hashed c j /\ j <> i).
  { destruct (valid b) eqn:E.
    - apply (remove_hash_ok i c b); [done| |done]. by apply (HV i b).
    - exists (hash_ c). replace (set_hash (hash_ c) c) with c by (by destruct c). split; [done|]. split; [done|].
      intros j. split; [|naive_solver]. intros Hj. split; [done|]. intros ->. apply (HV i b Hb) in Hj. congruence. }
  destruct Hrm as (lh & -> & H1 & Hh1). rewrite bind_Ok.
  set (f := fun b => mkBlock n (data b) false false (pinned b) 1).
  destruct (upd_ok i f (set_hash lh c) b Hb) as (lb & -> & Hll & Hblk). rewrite bind_Ok.
  assert (H2 : core (set_blocks lb (set_hash lh c))).
  { apply (core_upd _ lb i b (f b)); [done..| |done]. rewrite Hh1. tauto. }
  destruct (insert_hash_ok i (set_blocks lb (set_hash lh c)) (f b)) as (lh2 & -> & H3 & Hh3); [done| | | |].
  - change (~ hashed (set_hash lh c) i). rewrite Hh1. tauto.
  - by rewrite Hblk, Z.eqb_refl.
  - intros j x Hj. change (hashed (set_hash lh c) j) in Hj. rewrite Hh1 in Hj. destruct Hj as [Hj Hne].
    rewrite Hblk. destruct (Z.eqb_spec j i); [done|]. change (blk (set_hash lh c) j) with (blk c j). cbn. eauto.
  - eexists. split; [done|]. split; [done|]. split; [done|]. split; [|exact Hblk].
    intros j. rewrite Hh3. change (hashed (set_blocks lb (set_hash lh c)) j) with (hashed (set_hash lh c) j).
    rewrite Hh1. destruct (decide (j = i)); naive_solver.
Qed.

(** A block that is being loaded: in its chain, not yet valid. *)
Record loading (s : BlockCache * D) (n i : Z) (b : CacheBlock) (s' : BlockCache * D) : Prop := {
  ld_core : core s'.1;
  ld_hashed : forall j, hashed s'.1 j <-> hashed s.1 j \/ j = i;
  ld_other : forall j, j <> i -> blk s'.1 j = blk s.1 j;
  ld_dev : s'.2 = written_back b s.2;
  ld_last : last_block_ s'.1 = last_block_ s.1
}.

Lemma load_ok n i c d b :
  cinv (c, d) -> reliable d -> blk c i = Some b ->
  (forall j x, hashed c j -> blk c j = Some x -> block_num x <> n) ->
  exists s', load n i (c, d) = Ok (s', true) /\ loading (c, d) n i b s' /\
    blk s'.1 i = Some (mkBlock n (contents s'.2 n) false false (pinned b) 1).
Proof.
  intros H Hr Hb Hn. destruct (reserve_ok n i c b (v_core _ H) (v_valid _ H) Hb Hn) as (c1 & E1 & H1 & Hl1 & Hh1 & Hblk1).
  unfold load. rewrite (blk_rd _ _ _ Hb), bind_Ok. cbv zeta. rewrite E1, bind_Ok.
  fold (written_back b d). assert (Hd := c_data _ (v_core _ H) i b Hb).
  destruct (written_back_ok b d Hr Hd) as (Hr' & _). unfold fill.
  rewrite (reliable_read _ n Hr'). assert (Hi : 0 <= i < 64).
  { assert (Hc : core c) by apply (v_core _ H). apply blk_range in Hb. rewrite (c_blocks _ Hc) in Hb. lia. }
  destruct (touch_same i c1) as (Tb & Th & Tl). assert (H2 := touch_core i c1 H1 Hi).
  assert (Hblk2 : forall j, blk (touch i c1) j = blk c1 j) by (intros; unfold blk; by rewrite Tb).
  set (b1 := mkBlock n (data b) false false (pinned b) 1).
  destruct (upd_ok i (set_data (contents (written_back b d) n)) (touch i c1) b1) as (l & -> & Hl & Hblk3).
  { by rewrite Hblk2, Hblk1, Z.eqb_refl. }
  rewrite bind_Ok. eexists (_, _). split; [done|]. split.
  - constructor; cbn [fst snd].
    + apply (core_upd _ l i b1 (set_data (contents (written_back b d) n) b1)); [done| |done|done|done|].
      * by rewrite Hblk2, Hblk1, Z.eqb_refl.
      * cbn. rewrite contents_length. by rewrite Hd.
    + intros j. rewrite <- Hh1. unfold hashed. cbn. by rewrite Th.
    + intros j Hne. rewrite Hblk3, Hblk2, Hblk1. by destruct (Z.eqb_spec j i).
    + done.
    + cbn. by rewrite Tl.
  - cbn [fst snd]. rewrite Hblk3, Z.eqb_refl. done.
Qed.
(** The end of a load: the block becomes valid with the number and contents
    asked for.  Nothing the cache shows has changed. *)
Lemma loaded_ok s n i b s' c x :
  cinv s -> reliable s.2 -> blk s.1 i = Some b ->
  (forall j y, hashed s.1 j -> blk s.1 j = Some y -> block_num y <> n) ->
  loading s n i b s' -> core c -> hash_ c = hash_ s'.1 ->
  (forall j, blk c j = if j =? i then Some x else blk s'.1 j) ->
  valid x = true -> block_num x = n -> data x = contents s'.2 n -> in_width 32 (refcount x) ->
  cinv (c, s'.2) /\ (forall m, view (c, s'.2) m = view s m).
Proof.
  intros H Hr Hb Hn L Hcore Hhash Hblk Hxv Hxn Hxd Hxr.
  assert (Hd := c_data _ (v_core _ H) i b Hb).
  destruct (written_back_ok b s.2 Hr Hd) as (_ & Hcon & _). rewrite <- (ld_dev _ _ _ _ _ L) in Hcon.
  assert (Hnv : forall j y, blk s.1 j = Some y -> valid y = true -> block_num y <> n).
  { intros j y Hj Hv. apply (Hn j y); [|done]. by apply (v_valid _ H j y). }
  assert (Hblk' : forall j y, blk c j = Some y -> (j = i /\ y = x) \/ (j <> i /\ blk s.1 j = Some y)).
  { intros j y. rewrite Hblk. destruct (Z.eqb_spec j i); [intros [= <-]; by left|].
    rewrite (ld_other _ _ _ _ _ L) by done. by right. }
  assert (Hci : cinv (c, s'.2)).
  { constructor; cbn [fst snd].
    - done.
    - intros j y Hj. assert (Hh : hashed c j <-> hashed s.1 j \/ j = i).
      { rewrite <- (ld_hashed _ _ _ _ _ L). unfold hashed. by rewrite Hhash. }
      rewrite Hh. destruct (Hblk' j y Hj) as [[-> ->]|[Hne Hy]]; [tauto|]. rewrite (v_valid _ H j y Hy). tauto.
    - intros j y Hj Hv Hdy. destruct (Hblk' j y Hj) as [[-> ->]|[Hne Hy]]; [congruence|].
      rewrite Hcon. destruct (valid b) eqn:Eb; cbn [andb]; [|by apply (v_clean _ H j y)].
      destruct (dirty b); cbn [andb]; [|by apply (v_clean _ H j y)].
      destruct (Z.eqb_spec (block_num y) (block_num b)) as [E|]; [|by apply (v_clean _ H j y)].
      destruct Hne. by eapply (cached_unique s).
    - intros j y Hj. destruct (Hblk' j y Hj) as [[-> ->]|[Hne Hy]]; [done|]. by apply (v_ref _ H j y). }
  split; [done|]. intros m. destruct (decide (m = n)) as [->|Hmn].
  - rewrite <- Hxn at 1. rewrite (view_cached (c, s'.2) i x Hci), Hxd, Hcon.
    2:{ cbn. by rewrite Hblk, Z.eqb_refl. }
    2:{ done. }
    rewrite view_uncached by done. destruct (valid b) eqn:Eb; [|done]. cbn [andb].
    destruct (Z.eqb_spec n (block_num b)) as [E|]; [|by rewrite andb_false_r]. by destruct (Hnv i b Hb Eb).
  - assert (Hold : (forall j y, j <> i -> blk s.1 j = Some y -> valid y = true -> block_num y <> m) ->
      view (c, s'.2) m = contents s'.2 m).
    { intros Hj. apply (view_uncached (c, s'.2)). intros j y Hjy Hv. destruct (Hblk' j y Hjy) as [[-> ->]|[Hne Hy]]; [congruence|eauto]. }
    destruct (view_cases s m) as [(j & y & Hj & Hv & Hy & ->)|[Hno ->]].
    + destruct (decide (j = i)) as [->|Hne].
      * simplify_eq. assert (Ev : view (c, s'.2) (block_num b) = contents s'.2 (block_num b)).
        { apply Hold. intros k y Hk Hky Hvy E. destruct Hk. by eapply (cached_unique s). }
        rewrite Ev, Hcon, Hv, Z.eqb_refl. cbn [andb]. destruct (dirty b) eqn:Ed; [done|].
        symmetry. by apply (v_clean _ H i b).
      * rewrite <- Hy. apply (view_cached (c, s'.2) j y Hci); [|done]. cbn. rewrite Hblk.
        destruct (Z.eqb_spec j i); [done|]. by rewrite (ld_other _ _ _ _ _ L).
    + rewrite Hold by eauto. rewrite Hcon. destruct (valid b) eqn:Eb; [|done]. cbn [andb].
      destruct (Z.eqb_spec m (block_num b)) as [E|]; [|by rewrite andb_false_r]. by destruct (Hno i b Hb Eb).
Qed.

(** Changing fields of a block that do not concern the view. *)
Lemma touched_ok s c i b x :
  cinv s -> blk s.1 i = Some b -> core c -> hash_ c = hash_ s.1 ->
  (forall j, blk c j = if j =? i then Some x else blk s.1 j) ->
  valid x = valid b -> block_num x = block_num b -> data x = data b -> in_width 32 (refcount x) ->
  (dirty x = false -> dirty b = false) ->
  cinv (c, s.2) /\ (forall m, view (c, s.2) m = view s m).
Proof.
  intros H Hb Hcore Hhash Hblk Hv Hn Hd Hr Hdirty.
  assert (Hblk' : forall j y, blk c j = Some y -> (j = i /\ y = x) \/ (j <> i /\ blk s.1 j = Some y)).
  { intros j y. rewrite Hblk. destruct (Z.eqb_spec j i); [intros [= <-]; by left|by right]. }
  assert (Hci : cinv (c, s.2)).
  { constructor; cbn [fst snd].
    - done.
    - intros j y Hj. unfold hashed. rewrite Hhash. destruct (Hblk' j y Hj) as [[-> ->]|[Hne Hy]].
      + rewrite Hv. by apply (v_valid _ H).
      + by apply (v_valid _ H).
    - intros j y Hj. destruct (Hblk' j y Hj) as [[-> ->]|[Hne Hy]].
      + rewrite Hv, Hn, Hd. intros. apply (v_clean _ H i b); auto.
      + by apply (v_clean _ H j y).
    - intros j y Hj. destruct (Hblk' j y Hj) as [[-> ->]|[Hne Hy]]; [done|]. by apply (v_ref _ H j y). }
  split; [done|]. intros m. destruct (view_cases s m) as [(j & y & Hj & Hvy & Hy & ->)|[Hno ->]].
  - assert (Hj' : exists y', blk c j = Some y' /\ valid y' = true /\ block_num y' = m /\ data y' = data y).
    { rewrite Hblk. destruct (Z.eqb_spec j i) as [->|]; [|eauto]. simplify_eq. exists x. by rewrite Hv, Hn, Hd. }
    destruct Hj' as (y' & Hj' & Hvy' & Hy' & Hd'). rewrite <- Hy', <- Hd'. by apply (view_cached (c, s.2) j y' Hci).
  - apply (view_uncached (c, s.2)). intros j y Hj Hvy. destruct (Hblk' j y Hj) as [[-> ->]|[Hne Hy]]; [|eauto].
    rewrite Hn. apply (Hno i b); congruence.
Qed.

(** What a call that returns a block promises. *)
Record got (s : BlockCache * D) (n i : Z) (s' : BlockCache * D) (b : CacheBlock) : Prop := {
  g_inv : cinv s';
  g_reliable : reliable s'.2;
  g_view : forall m, view s' m = view s m;
  g_block : blk s'.1 i = Some b;
  g_valid : valid b = true;
  g_num : block_num b = n;
  g_data : data b = view s n;
  g_other : forall j, j <> i -> blk s'.1 j = blk s.1 j;
  g_own : exists b0, blk s.1 i = Some b0 /\ refcount b = u32 (refcount b0 + 1) /\ pinned b = pinned b0 /\
    (refcount b0 <> 0 \/ pinned b0 = true -> valid b0 = true /\ block_num b0 = n);
  g_dev : s'.2 = s.2 \/ exists b0, blk s.1 i = Some b0 /\ s'.2 = written_back b0 s.2
}.

Lemma g_clean s n i s' b :
  got s n i s' b -> (forall j y, blk s.1 j = Some y -> valid y = true -> dirty y = false) -> s'.2 = s.2.
Proof.
  intros G Hcl. destruct (g_dev _ _ _ _ _ G) as [?|(b0 & Hb0 & ->)]; [done|]. unfold written_back.
  destruct (valid b0) eqn:Ev; [|done]. by rewrite (Hcl i b0 Hb0 Ev).
Qed.

Definition all_busy (c : BlockCache) : Prop :=
  forall i b, blk c i = Some b -> refcount b <> 0 \/ pinned b = true.

(** The statistics do not matter. *)
Lemma core_miss c : core c -> core (miss c).
Proof. intros []. by constructor. Qed.
Lemma core_hit c : core c -> core (hit c).
Proof. intros []. by constructor. Qed.
Lemma core_last n c : core c -> core (set_last n c).
Proof. intros []. by constructor. Qed.
Lemma cinv_miss c d : cinv (c, d) -> cinv (miss c, d).
Proof. intros []. constructor; [by apply core_miss|done..]. Qed.

Lemma get_ok n s :
  cinv s -> reliable s.2 ->
  exists s' o, get n s = Ok (s', o) /\
    match o with
    | Some i => exists b, got s n i s' b /\
        (dirty b = true -> exists b0, blk s.1 i = Some b0 /\ valid b0 = true /\ dirty b0 = true)
    | None => all_busy s.1 /\ s' = (miss s.1, s.2)
    end.
Proof.
  destruct s as [c d]. intros H Hr. assert (Hcore : core c) by apply (v_core _ H).
  destruct (find_any_ok n c Hcore) as (o & Eo & Ho). unfold get. rewrite Eo, bind_Ok.
  destruct o as [i|].
  - destruct Ho as [Hh (b & Hb & Hnb)]. assert (Hv : valid b = true) by (by apply (v_valid _ H i b)).
    rewrite (blk_rd _ _ _ Hb), bind_Ok, Hv. cbn [negb].
    set (f := fun b => set_refcount (u32 (refcount b + 1)) b).
    destruct (upd_ok i f (hit c) b Hb) as (l & -> & Hl & Hblk). rewrite bind_Ok.
    eexists (_, _), (Some i). split; [done|].
    assert (Hi : 0 <= i < 64) by (apply blk_range in Hb; rewrite (c_blocks _ Hcore) in Hb; lia).
    assert (H1 : core (set_blocks l (hit c))). { apply (core_upd (hit c) l i b (f b)); [by apply core_hit|done..]. }
    destruct (touch_same i (set_blocks l (hit c))) as (Tb & Th & _).
    assert (Hblk2 : forall j, blk (set_last n (touch i (set_blocks l (hit c)))) j = if j =? i then Some (f b) else blk c j).
    { intros j. transitivity (blk (set_blocks l (hit c)) j); [|exact (Hblk j)]. unfold blk. cbn [blocks_ set_last]. by rewrite Tb. }
    destruct (touched_ok (c, d) (set_last n (touch i (set_blocks l (hit c)))) i b (f b) H Hb) as [Hci Hview].
    { by apply core_last, touch_core. }
    { cbn. by rewrite Th. }
    { exact Hblk2. }
    1-3: done.
    { apply u32_range. }
    { done. }
    exists (f b). split; [|by exists b]. constructor; cbn [fst snd]; try done.
    + by rewrite Hblk2, Z.eqb_refl.
    + symmetry. rewrite <- Hnb. by apply (view_cached (c, d) i b).
    + intros j Hj. rewrite Hblk2. by destruct (Z.eqb_spec j i).
    + exists b. done.
    + by left.
  - cbv zeta. assert (Hcm := core_miss c Hcore).
    destruct (victim_ok (miss c) Hcm) as (v & -> & Hvic). rewrite bind_Ok.
    destruct v as [i|]; [|by eexists (_, _), None].
    destruct Hvic as (b & Hb & Hrc & Hp).
    destruct (load_ok n i (miss c) d b (cinv_miss _ _ H) Hr Hb Ho) as ([c1 d1] & -> & L & Hbi). rewrite bind_Ok. cbn [negb].
    cbn [fst snd] in *.
    destruct (upd_ok i (set_valid true) c1 _ Hbi) as (l & -> & Hl & Hblk). rewrite bind_Ok. cbv zeta.
    set (x := set_valid true (mkBlock n (contents d1 n) false false (pinned b) 1)) in *.
    assert (Era : (if n =? u64 (last_block_ (miss c) + 1) then read_ahead_unlocked n (set_last n (set_blocks l c1), d1)
      else Ok (set_last n (set_blocks l c1), d1)) = Ok (set_last n (set_blocks l c1), d1)) by (by destruct (_ =? _)).
    rewrite Era, bind_Ok. eexists (_, _), (Some i). split; [done|].
    destruct (loaded_ok (miss c, d) n i b (c1, d1) (set_last n (set_blocks l c1)) x) as [Hci Hview]; try done.
    { by apply cinv_miss. }
    { apply core_last, (core_upd c1 l i _ x (ld_core _ _ _ _ _ L) Hbi); done. }
    assert (Hblk2 : forall j, blk (set_last n (set_blocks l c1)) j = if j =? i then Some x else blk c1 j) by exact Hblk.
    assert (Hbi2 : blk (set_last n (set_blocks l c1)) i = Some x) by (by rewrite Hblk2, Z.eqb_refl).
    exists x. split; [|done]. destruct (written_back_ok b d Hr (c_data _ Hcore i b Hb)) as (Hr' & _).
    rewrite <- (ld_dev _ _ _ _ _ L : d1 = written_back b d) in Hr'. constructor; cbn [fst snd]; try done.
    + change (view (c, d) n) with (view (miss c, d) n). rewrite <- Hview.
      symmetry. by apply (view_cached (set_last n (set_blocks l c1), d1) i x).
    + intros j Hj. rewrite Hblk2. destruct (Z.eqb_spec j i); [done|]. exact (ld_other _ _ _ _ _ L j Hj).
    + exists b. split; [exact Hb|]. cbn. rewrite Hrc, Hp. do 2 (split; [done|]). by intros [].
    + right. exists b. split; [exact Hb|exact (ld_dev _ _ _ _ _ L)].
Qed.
Lemma get_for_write_ok n s :
  cinv s -> reliable s.2 ->
  exists s' o, get_for_write n s = Ok (s', o) /\
    match o with
    | Some i => exists b, got s n i s' b /\ dirty b = true
    | None => all_busy s.1 /\ s' = (miss s.1, s.2)
    end.
Proof.
  destruct s as [c d]. intros H Hr. assert (Hcore : core c) by apply (v_core _ H).
  destruct (find_any_ok n c Hcore) as (o & Eo & Ho). unfold get_for_write. rewrite Eo, bind_Ok.
  destruct o as [i|].
  - destruct Ho as [Hh (b & Hb & Hnb)]. assert (Hv : valid b = true) by (by apply (v_valid _ H i b)).
    rewrite (blk_rd _ _ _ Hb), bind_Ok, Hv. cbn [negb].
    set (f := fun b => set_refcount (u32 (refcount b + 1)) b).
    destruct (upd_ok i f (hit c) b Hb) as (l & -> & Hl & Hblk). rewrite bind_Ok.
    assert (Hi : 0 <= i < 64) by (apply blk_range in Hb; rewrite (c_blocks _ Hcore) in Hb; lia).
    assert (H1 : core (set_blocks l (hit c))). { apply (core_upd (hit c) l i b (f b)); [by apply core_hit|done..]. }
    destruct (touch_same i (set_blocks l (hit c))) as (Tb & Th & _).
    set (c2 := touch i (set_blocks l (hit c))) in *.
    assert (Hblk2 : forall j, blk c2 j = if j =? i then Some (f b) else blk c j).
    { intros j. transitivity (blk (set_blocks l (hit c)) j); [|exact (Hblk j)]. unfold blk. by rewrite Tb. }
    assert (Hbi : blk c2 i = Some (f b)) by (by rewrite Hblk2, Z.eqb_refl).
    destruct (upd_ok i (set_dirty true) c2 (f b) Hbi) as (l3 & -> & Hl3 & Hblk3). rewrite bind_Ok.
    eexists (_, _), (Some i). split; [done|].
    assert (Hblk4 : forall j, blk (set_blocks l3 c2) j = if j =? i then Some (set_dirty true (f b)) else blk c j).
    { intros j. rewrite Hblk3, Hblk2. by destruct (j =? i). }
    destruct (touched_ok (c, d) (set_blocks l3 c2) i b (set_dirty true (f b)) H Hb) as [Hci Hview].
    { apply (core_upd c2 l3 i (f b) (set_dirty true (f b))); [by apply touch_core|done..]. }
    { cbn. by rewrite Th. }
    { exact Hblk4. }
    1-3: done.
    { apply u32_range. }
    { done. }
    exists (set_dirty true (f b)). split; [|done]. constructor; cbn [fst snd]; try done.
    + by rewrite Hblk4, Z.eqb_refl.
    + symmetry. rewrite <- Hnb. by apply (view_cached (c, d) i b).
    + intros j Hj. rewrite Hblk4. by destruct (Z.eqb_spec j i).
    + exists b. done.
    + by left.
  - cbv zeta. assert (Hcm := core_miss c Hcore).
    destruct (victim_ok (miss c) Hcm) as (v & -> & Hvic). rewrite bind_Ok.
    destruct v as [i|]; [|by eexists (_, _), None].
    destruct Hvic as (b & Hb & Hrc & Hp).
    destruct (load_ok n i (miss c) d b (cinv_miss _ _ H) Hr Hb Ho) as ([c1 d1] & -> & L & Hbi). rewrite bind_Ok. cbn [negb].
    cbn [fst snd] in *. set (f := fun b => set_dirty true (set_valid true b)).
    destruct (upd_ok i f c1 _ Hbi) as (l & -> & Hl & Hblk). rewrite bind_Ok.
    set (x := f (mkBlock n (contents d1 n) false false (pinned b) 1)) in *.
    eexists (_, _), (Some i). split; [done|].
    destruct (loaded_ok (miss c, d) n i b (c1, d1) (set_blocks l c1) x) as [Hci Hview]; try done.
    { by apply cinv_miss. }
    { apply (core_upd c1 l i _ x (ld_core _ _ _ _ _ L) Hbi); done. }
    assert (Hbi2 : blk (set_blocks l c1) i = Some x) by (by rewrite Hblk, Z.eqb_refl).
    exists x. split; [|done]. destruct (written_back_ok b d Hr (c_data _ Hcore i b Hb)) as (Hr' & _).
    rewrite <- (ld_dev _ _ _ _ _ L : d1 = written_back b d) in Hr'. constructor; cbn [fst snd]; try done.
    + change (view (c, d) n) with (view (miss c, d) n). rewrite <- Hview.
      symmetry. by apply (view_cached (set_blocks l c1, d1) i x).
    + intros j Hj. rewrite Hblk. destruct (Z.eqb_spec j i); [done|]. exact (ld_other _ _ _ _ _ L j Hj).
    + exists b. split; [exact Hb|]. cbn. rewrite Hrc, Hp. do 2 (split; [done|]). by intros [].
    + right. exists b. split; [exact Hb|exact (ld_dev _ _ _ _ _ L)].
Qed.

(** ** Using a block that was got *)

Lemma release_ok i s b :
  cinv s -> blk s.1 i = Some b ->
  exists c' b', release i s.1 = Ok c' /\ cinv (c', s.2) /\ (forall m, view (c', s.2) m = view s m) /\
    (forall j, blk c' j = if j =? i then Some b' else blk s.1 j) /\
    refcount b' = Z.max 0 (refcount b - 1) /\ b' = set_refcount (refcount b') b.
Proof.
  intros H Hb. assert (Hr := v_ref _ H i b Hb). unfold release. rewrite (blk_rd _ _ _ Hb), bind_Ok.
  destruct (Z.ltb_spec 0 (refcount b)).
  - set (f := fun b => set_refcount (refcount b - 1) b). destruct (upd_ok i f s.1 b Hb) as (l & -> & Hl & Hblk).
    exists (set_blocks l s.1), (f b). split; [done|].
    destruct (touched_ok s (set_blocks l s.1) i b (f b) H Hb) as [Hci Hview]; try done.
    { apply (core_upd s.1 l i b (f b)); [apply (v_core _ H)|done..]. }
    { unfold in_width in *. cbn. lia. }
    split; [done|]. split; [done|]. split; [done|]. cbn. split; [lia|done].
  - exists s.1, b. split; [done|]. split; [by destruct s|]. split; [by destruct s|]. split; [|split; [unfold in_width in Hr; lia|by destruct b]].
    intros j. by destruct (Z.eqb_spec j i) as [->|].
Qed.

Lemma store_ok i x s b :
  cinv s -> blk s.1 i = Some b -> valid b = true -> length x = Z.to_nat BLOCK_SIZE ->
  exists c', store i x s.1 = Ok c' /\ cinv (c', s.2) /\
    (forall m, view (c', s.2) m = if m =? block_num b then x else view s m) /\
    (forall j, blk c' j = if j =? i then Some (set_dirty true (set_data x b)) else blk s.1 j).
Proof.
  intros H Hb Hv Hx. set (b' := set_dirty true (set_data x b)). unfold store.
  destruct (upd_ok i (fun b => set_dirty true (set_data x b)) s.1 b Hb) as (l & -> & Hl & Hblk).
  exists (set_blocks l s.1). split; [done|]. fold b' in Hblk.
  assert (Hblk' : forall j y, blk (set_blocks l s.1) j = Some y -> (j = i /\ y = b') \/ (j <> i /\ blk s.1 j = Some y)).
  { intros j y. rewrite Hblk. destruct (Z.eqb_spec j i); [intros [= <-]; by left|by right]. }
  assert (Hci : cinv (set_blocks l s.1, s.2)).
  { constructor; cbn [fst snd].
    - apply (core_upd s.1 l i b b'); [apply (v_core _ H)|done..|]. cbn. rewrite Hx. symmetry. apply (c_data _ (v_core _ H) i b Hb).
    - intros j y Hj. change (hashed (set_blocks l s.1) j) with (hashed s.1 j). destruct (Hblk' j y Hj) as [[-> ->]|[Hne Hy]].
      + by apply (v_valid _ H i b).
      + by apply (v_valid _ H j y).
    - intros j y Hj. destruct (Hblk' j y Hj) as [[-> ->]|[Hne Hy]]; [done|]. by apply (v_clean _ H j y).
    - intros j y Hj. destruct (Hblk' j y Hj) as [[-> ->]|[Hne Hy]]; [by apply (v_ref _ H i b)|]. by apply (v_ref _ H j y). }
  split; [done|]. split; [|done]. intros m. destruct (Z.eqb_spec m (block_num b)) as [->|Hm].
  - change x with (data b'). change (block_num b) with (block_num b'). apply (view_cached _ i b' Hci); [|done].
    cbn. by rewrite Hblk, Z.eqb_refl.
  - destruct (view_cases s m) as [(j & y & Hj & Hvy & Hy & ->)|[Hno ->]].
    + rewrite <- Hy. apply (view_cached (set_blocks l s.1, s.2) j y Hci); [|done]. cbn. rewrite Hblk.
      destruct (Z.eqb_spec j i) as [->|]; [congruence|done].
    + apply (view_uncached (set_blocks l s.1, s.2)). intros j y Hj Hvy.
      destruct (Hblk' j y Hj) as [[-> ->]|[Hne Hy]]; [done|eauto].
Qed.

Lemma sync_block_ok i s b :
  cinv s -> reliable s.2 -> blk s.1 i = Some b ->
  exists s', sync_block i s = Ok s' /\ cinv s' /\ reliable s'.2 /\ (forall m, view s' m = view s m) /\
    s'.2 = written_back b s.2 /\
    (forall j, blk s'.1 j = if j =? i then Some (if valid b then set_dirty false b else b) else blk s.1 j).
Proof.
  destruct s as [c d]. intros H Hr Hb. assert (Hd := c_data _ (v_core _ H) i b Hb). cbn [fst snd] in *.
  unfold sync_block. rewrite (blk_rd _ _ _ Hb), bind_Ok. unfold written_back.
  destruct (valid b) eqn:Ev, (dirty b) eqn:Ed; cbn [negb orb andb].
  - destruct (reliable_write d (block_num b) (data b) Hr Hd) as (d' & E & Hr' & Hh). rewrite E.
    destruct (write_law _ _ _ _ _ E Hd) as [Ho Hs]. specialize (Hs eq_refl).
    set (f := set_dirty false). destruct (upd_ok i f c b Hb) as (l & -> & Hl & Hblk). rewrite bind_Ok.
    eexists (_, _). split; [done|]. cbn [fst snd].
    assert (Hblk' : forall j y, blk (set_blocks l c) j = Some y -> (j = i /\ y = f b) \/ (j <> i /\ blk c j = Some y)).
    { intros j y. rewrite Hblk. destruct (Z.eqb_spec j i); [intros [= <-]; by left|by right]. }
    assert (Hci : cinv (set_blocks l c, d')).
    { constructor; cbn [fst snd].
      - apply (core_upd c l i b (f b)); [apply (v_core _ H)|done..].
      - intros j y Hj. change (hashed (set_blocks l c) j) with (hashed c j). destruct (Hblk' j y Hj) as [[-> ->]|[Hne Hy]].
        + by apply (v_valid _ H i b).
        + by apply (v_valid _ H j y).
      - intros j y Hj Hvy Hdy. destruct (Hblk' j y Hj) as [[-> ->]|[Hne Hy]]; [done|].
        rewrite Ho; [by apply (v_clean _ H j y)|]. intros E'. destruct Hne. by eapply (cached_unique (c, d)).
      - intros j y Hj. destruct (Hblk' j y Hj) as [[-> ->]|[Hne Hy]]; [by apply (v_ref _ H i b)|]. by apply (v_ref _ H j y). }
    split; [done|]. split; [done|]. split; [|done]. intros m.
    destruct (view_cases (c, d) m) as [(j & y & Hj & Hvy & Hy & ->)|[Hno ->]].
    + destruct (decide (j = i)) as [->|Hne].
      * cbn in Hj. simplify_eq. apply (view_cached (set_blocks l c, d') i (f b) Hci); [|done]. cbn. by rewrite Hblk, Z.eqb_refl.
      * rewrite <- Hy. apply (view_cached (set_blocks l c, d') j y Hci); [|done]. cbn. rewrite Hblk. by destruct (Z.eqb_spec j i).
    + rewrite (view_uncached (set_blocks l c, d')).
      * cbn. apply Ho. intros ->. by apply (Hno i b).
      * intros j y Hj Hvy. destruct (Hblk' j y Hj) as [[-> ->]|[Hne Hy]]; [by apply (Hno i b)|eauto].
  - exists (c, d). do 5 (split; [done|]). intros j. cbn [fst]. destruct (Z.eqb_spec j i) as [->|]; [|done]. rewrite Hb. f_equal. by destruct b; cbn in *; subst.
  - exists (c, d). do 5 (split; [done|]). intros j. cbn [fst]. by destruct (Z.eqb_spec j i) as [->|].
  - exists (c, d). do 5 (split; [done|]). intros j. cbn [fst]. by destruct (Z.eqb_spec j i) as [->|].
Qed.
(** ** Synchronising everything *)

Lemma sync_one_block i s b :
  blk s.1 i = Some b -> reliable s.2 -> in_width 32 (refcount b) -> length (data b) = Z.to_nat BLOCK_SIZE ->
  sync_one s i = sync_block i s.
Proof.
  destruct s as [c d]. cbn [fst snd]. intros Hb Hr Hrc Hl. unfold sync_one, sync_block.
  rewrite (blk_rd _ _ _ Hb), !bind_Ok. destruct (negb (valid b) || negb (dirty b)); [done|].
  destruct (reliable_write d (block_num b) (data b) Hr Hl) as (d' & -> & _ & _). cbn [fst].
  assert (Hi := blk_range _ _ _ Hb). unfold upd. rewrite (blk_rd _ _ _ Hb), !bind_Ok, wr_Z, !bind_Ok by done.
  cbn [blocks_ set_blocks]. unfold rd. destruct (Z.ltb_spec i 0); [lia|].
  rewrite list_lookup_insert_eq by lia. rewrite !bind_Ok, wr_Z, bind_Ok by (by rewrite length_insert).
  rewrite (wr_Z (blocks_ c)), bind_Ok by done. unfold set_blocks. cbn [blocks_ lru_ hash_ hits_ misses_ readahead_count_ last_block_].
  rewrite list_insert_insert_eq. do 3 f_equal. unfold set_refcount, set_dirty. cbn.
  replace (u32 (u32 (refcount b + 1) - 1)) with (refcount b); [done|].
  unfold wrap. rewrite Zminus_mod_idemp_l, Z.add_simpl_r. symmetry. by apply Z.mod_small.
Qed.

Lemma elem_dirty_indices c i :
  i ∈ dirty_indices c <-> exists b, blk c i = Some b /\ valid b = true /\ dirty b = true.
Proof.
  unfold dirty_indices. rewrite list_elem_of_In, filter_In, <- list_elem_of_In, elem_of_seqZ. unfold blk. split.
  - intros [Hi Hp]. destruct (Z.ltb_spec i 0); [lia|]. destruct (blocks_ c !! Z.to_nat i) as [b|]; [|done].
    apply andb_true_iff in Hp as [? ?]. eauto.
  - intros (b & Hb & Hv & Hd). destruct (Z.ltb_spec i 0); [done|]. rewrite Hb, Hv, Hd. apply lookup_lt_Some in Hb. split; [lia|done].
Qed.

Lemma sort_insert_perm c k r : sort_insert c k r ≡ₚ k :: r.
Proof.
  induction r as [|x r IH]; cbn [sort_insert]; [done|]. destruct (_ <? _); [|done]. rewrite IH. constructor.
Qed.

Lemma sort_by_num_perm c l : sort_by_num c l ≡ₚ l.
Proof.
  unfold sort_by_num. rewrite <- Permutation_rev. cut (forall r, foldl (fun r k => sort_insert c k r) r l ≡ₚ l ++ r).
  { intros H. rewrite H. by rewrite app_nil_r. }
  induction l as [|k l IH]; intros r; cbn [foldl]; [done|]. rewrite IH, sort_insert_perm. symmetry. apply Permutation_middle.
Qed.

Lemma sync_loop_ok l s :
  cinv s -> reliable s.2 -> (forall i, i ∈ l -> exists b, blk s.1 i = Some b) ->
  exists s', foldM sync_one l s = Ok s' /\ cinv s' /\ reliable s'.2 /\ (forall m, view s' m = view s m) /\
    (forall i b, blk s'.1 i = Some b -> exists b0, blk s.1 i = Some b0 /\
       valid b = valid b0 /\ block_num b = block_num b0 /\ data b = data b0 /\ refcount b = refcount b0 /\ pinned b = pinned b0 /\
       (i ∈ l -> valid b = true -> dirty b = false) /\ (dirty b = true -> dirty b0 = true)).
Proof.
  revert s. induction l as [|i l IH]; intros s H Hr Hl; cbn [foldM].
  - exists s. do 4 (split; [done|]). intros i b Hb. exists b. do 6 (split; [done|]). split; [by intros []%not_elem_of_nil|done].
  - destruct (Hl i) as [b Hb]; [apply list_elem_of_here|].
    rewrite (sync_one_block i s b) by (done || by apply (v_ref _ H i b) || by apply (c_data _ (v_core _ H) i b)).
    destruct (sync_block_ok i s b H Hr Hb) as (s1 & -> & H1 & Hr1 & Hv1 & _ & Hblk). rewrite bind_Ok.
    destruct (IH s1 H1 Hr1) as (s2 & E2 & H2 & Hr2 & Hv2 & Hb2).
    { intros j Hj. destruct (Hl j) as [y Hy]; [by apply list_elem_of_further|]. rewrite Hblk. destruct (j =? i); eauto. }
    exists s2. split; [done|]. split; [done|]. split; [done|]. split; [by intros m; rewrite Hv2|].
    intros j y Hy. destruct (Hb2 j y Hy) as (y1 & Hy1 & ? & ? & ? & ? & ? & Hcl & Hdd). rewrite Hblk in Hy1.
    destruct (Z.eqb_spec j i) as [->|Hne].
    + exists b. injection Hy1 as <-. destruct (valid b) eqn:Ev; cbn in *.
      * do 6 (split; [congruence|]). split; [|intros Hd; by apply Hdd in Hd].
        intros _ _. destruct (dirty y); [|done]. by specialize (Hdd eq_refl).
      * do 6 (split; [congruence|]). split; [congruence|done].
    + exists y1. do 6 (split; [done|]). split; [|done]. intros [->|Hj]%elem_of_cons; [done|auto].
Qed.

Lemma sync_ok s :
  cinv s -> reliable s.2 ->
  exists s', sync s = Ok s' /\ cinv s' /\ reliable s'.2 /\ (forall m, view s' m = view s m) /\
    (forall m, contents s'.2 m = view s m) /\
    (forall i b, blk s'.1 i = Some b -> (valid b = true -> dirty b = false) /\
       exists b0, blk s.1 i = Some b0 /\ refcount b = refcount b0 /\ pinned b = pinned b0).
Proof.
  intros H Hr. destruct (sync_loop_ok (sort_by_num s.1 (dirty_indices s.1)) s H Hr) as (s' & E & H' & Hr' & Hv & Hb).
  { intros i. rewrite sort_by_num_perm, elem_dirty_indices. naive_solver. }
  assert (Hclean : forall i b, blk s'.1 i = Some b -> valid b = true -> dirty b = false).
  { intros i b Hi Hvb. destruct (Hb i b Hi) as (b0 & Hi0 & Ev & _ & _ & _ & _ & Hin & Hd). destruct (dirty b) eqn:Ed; [|done].
    rewrite <- (Hin); [done| |done]. rewrite sort_by_num_perm, elem_dirty_indices. exists b0. rewrite <- Ev. auto. }
  exists s'. split; [done|]. split; [done|]. split; [done|]. split; [done|]. split.
  - intros m. rewrite <- Hv. destruct (view_cases s' m) as [(j & y & Hj & Hvy & Hy & ->)|[_ ->]]; [|done].
    rewrite <- Hy. symmetry. apply (v_clean _ H' j y); eauto.
  - intros i b Hi. split; [eauto|]. destruct (Hb i b Hi) as (b0 & ? & _ & _ & _ & ? & ? & _). eauto.
Qed.
(** ** The contract with the file system *)

(** Every change has reached the device. *)
Definition clean (c : BlockCache) : Prop := forall i b, blk c i = Some b -> valid b = true -> dirty b = false.

(** The same for the blocks with a number in [P]. *)
Definition clean_on (P : Z -> Prop) (c : BlockCache) : Prop :=
  forall i b, blk c i = Some b -> valid b = true -> P (block_num b) -> dirty b = false.

(** [l] lists the blocks callers hold, once per call of [get]; nothing is
    pinned. *)
Record holding (l : list Z) (s : BlockCache * D) : Prop := {
  k_inv : cinv s;
  k_reliable : reliable s.2;
  k_held : forall i b, blk s.1 i = Some b -> pinned b = false /\ refcount b = Z.of_nat (countb (Z.eqb i) l)
}.

Local Abbreviation calm := (holding []).

(** Slot [i] holds block [n]. *)
Definition slot_is (s : BlockCache * D) (i n : Z) : Prop :=
  exists b, blk s.1 i = Some b /\ valid b = true /\ block_num b = n.

Lemma countb_cons_eq (i j : Z) l : Z.of_nat (countb (Z.eqb i) (j :: l)) = (if i =? j then 1 else 0) + Z.of_nat (countb (Z.eqb i) l).
Proof. unfold countb. cbn. destruct (i =? j); cbn; lia. Qed.

Lemma countb_zero (i : Z) l : countb (Z.eqb i) l = 0%nat <-> i ∉ l.
Proof.
  induction l as [|j l IH]; [by split; [intros _ []%not_elem_of_nil|]|].
  rewrite not_elem_of_cons, <- IH. unfold countb. cbn. destruct (Z.eqb_spec i j); cbn; naive_solver lia.
Qed.

(** Some block is free while fewer blocks than there are are held. *)
Lemma free_slot l s : holding l s -> (length l < 64)%nat -> ~ all_busy s.1.
Proof.
  intros K Hl Hb. assert (Hc := v_core _ (k_inv _ _ K)).
  assert (Hsub : seqZ 0 64 ⊆+ l).
  { apply NoDup_submseteq; [apply NoDup_seqZ|]. intros i Hi. apply elem_of_seqZ in Hi.
    destruct (blk_some s.1 i Hc) as [b Hbi]; [lia|]. destruct (k_held _ _ K i b Hbi) as [Hp Hr].
    destruct (Hb i b Hbi) as [Hne|Hne]; [|congruence]. destruct (decide (i ∈ l)) as [|Hn]; [done|].
    apply countb_zero in Hn. rewrite Hn in Hr. done. }
  apply submseteq_length in Hsub. rewrite length_seqZ in Hsub. lia.
Qed.

Definition fetch_block (fetch : bool) (n : Z) (s : BlockCache * D) := if fetch then get_for_write n s else get n s.

(** Getting a block while others are held. *)
Lemma fetch_ok fetch n l s :
  holding l s -> (length l < 64)%nat ->
  exists s' i b, fetch_block fetch n s = Ok (s', Some i) /\ got s n i s' b /\ holding (i :: l) s' /\ slot_is s' i n /\
    (forall j m, j ∈ l -> slot_is s j m -> slot_is s' j m) /\
    (fetch = false -> clean s.1 -> clean s'.1).
Proof.
  intros K Hl. assert (Hfree := free_slot l s K Hl).
  assert (Hex : exists s' o, fetch_block fetch n s = Ok (s', o) /\
    match o with
    | Some i => exists b, got s n i s' b /\ (fetch = false -> dirty b = true -> exists b0, blk s.1 i = Some b0 /\ valid b0 = true /\ dirty b0 = true)
    | None => all_busy s.1
    end).
  { destruct fetch; cbn [fetch_block].
    - destruct (get_for_write_ok n s (k_inv _ _ K) (k_reliable _ _ K)) as (s' & o & E & Ho). exists s', o. split; [done|].
      destruct o; [|by destruct Ho]. destruct Ho as (b & G & _). by exists b.
    - destruct (get_ok n s (k_inv _ _ K) (k_reliable _ _ K)) as (s' & o & E & Ho). exists s', o. split; [done|].
      destruct o; [|by destruct Ho]. destruct Ho as (b & G & Hd). exists b. auto. }
  destruct Hex as (s' & o & E & Ho). destruct o as [i|]; [|done]. destruct Ho as (b & G & Hd).
  exists s', i, b. split; [done|]. split; [done|]. destruct (g_own _ _ _ _ _ G) as (b0 & Hb0 & Hrc & Hp & Hkeep).
  destruct (k_held _ _ K i b0 Hb0) as [Hp0 Hr0]. split; [|split; [|split]].
  - constructor; [apply (g_inv _ _ _ _ _ G)|apply (g_reliable _ _ _ _ _ G)|].
    intros j y Hj. rewrite countb_cons_eq. destruct (Z.eqb_spec j i) as [->|Hne].
    + rewrite (g_block _ _ _ _ _ G) in Hj. injection Hj as <-. split; [congruence|]. rewrite Hrc, Hr0.
      assert (countb (Z.eqb i) l <= length l)%nat by apply countb_length. unwrap. lia.
    + rewrite (g_other _ _ _ _ _ G) in Hj by done. by apply (k_held _ _ K j y).
  - exists b. split; [apply (g_block _ _ _ _ _ G)|]. split; [apply (g_valid _ _ _ _ _ G)|apply (g_num _ _ _ _ _ G)].
  - intros j m Hj (y & Hy & Hv & Hm). destruct (decide (j = i)) as [->|Hne].
    + simplify_eq. exists b. split; [apply (g_block _ _ _ _ _ G)|]. split; [apply (g_valid _ _ _ _ _ G)|].
      destruct Hkeep as [_ Hk]; [|rewrite Hk; apply (g_num _ _ _ _ _ G)].
      left. rewrite Hr0. intros Hz. assert (countb (Z.eqb i) l = 0%nat) as Hz' by lia. by apply countb_zero in Hz'.
    + exists y. by rewrite (g_other _ _ _ _ _ G).
  - intros Hf Hc j y Hj Hvy. destruct (decide (j = i)) as [->|Hne].
    + rewrite (g_block _ _ _ _ _ G) in Hj. injection Hj as <-. destruct (dirty b) eqn:Ed; [|done].
      destruct (Hd Hf eq_refl) as (b1 & Hb1 & Hv1 & Hd1). by rewrite (Hc i b1 Hb1 Hv1) in Hd1.
    + rewrite (g_other _ _ _ _ _ G) in Hj by done. by apply (Hc j y).
Qed.

Lemma clean_all c : clean c <-> clean_on (fun _ => True) c.
Proof. unfold clean, clean_on. naive_solver. Qed.

Lemma clean_clean_on P c : clean c -> clean_on P c.
Proof. intros H i b Hb Hv _. by apply (H i b). Qed.

(** What the cache shows of clean blocks is on the device. *)
Lemma clean_on_view P s n : cinv s -> clean_on P s.1 -> P n -> view s n = contents s.2 n.
Proof.
  intros H Hc Hn. destruct (view_cases s n) as [(i & b & Hb & Hv & <- & ->)|[_ ?]]; [|done].
  apply (v_clean _ H i b); [done|done|by apply (Hc i b)].
Qed.

Lemma release_held i l s :
  holding (i :: l) s -> (exists b, blk s.1 i = Some b) ->
  exists c', release i s.1 = Ok c' /\ holding l (c', s.2) /\ (forall m, view (c', s.2) m = view s m) /\
    (forall j m, slot_is s j m -> slot_is (c', s.2) j m) /\ (forall P, clean_on P s.1 -> clean_on P c').
Proof.
  intros K [x Hx]. destruct (release_ok i s x (k_inv _ _ K) Hx) as (c' & x' & E & Hc & Hv & Hblk & Hrx & Hx').
  exists c'. split; [done|]. split; [|split; [done|split]].
  - constructor; [done|apply (k_reliable _ _ K)|]. intros j y Hj. cbn in Hj. rewrite Hblk in Hj.
    destruct (Z.eqb_spec j i) as [->|Hne].
    + injection Hj as <-. destruct (k_held _ _ K i x Hx) as [Hp Hr]. rewrite countb_cons_eq, Z.eqb_refl in Hr.
      split; [by rewrite Hx'|]. lia.
    + destruct (k_held _ _ K j y Hj) as [Hp Hr]. rewrite countb_cons_eq in Hr. destruct (Z.eqb_spec j i); [done|]. split; [done|lia].
  - intros j m (y & Hy & Hvy & Hm). unfold slot_is. cbn [fst]. rewrite Hblk. destruct (Z.eqb_spec j i) as [->|]; [|eauto].
    exists x'. split; [done|]. rewrite Hx'. cbn. by simplify_eq.
  - intros P Hcl j y Hj. rewrite Hblk in Hj. destruct (Z.eqb_spec j i) as [->|Hne]; [|by apply (Hcl j y)].
    injection Hj as <-. rewrite Hx'. cbn. by apply (Hcl i x).
Qed.

(** The buffer of a held block is what the cache shows for its number. *)
Lemma slot_data s i n :
  cinv s -> slot_is s i n -> exists b, rd (blocks_ s.1) i = Ok b /\ data b = view s n /\ blk s.1 i = Some b.
Proof.
  intros H (b & Hb & Hv & <-). exists b. split; [by apply blk_rd|]. split; [|done]. symmetry. by apply (view_cached s i b).
Qed.

Lemma slot_exists s i n : slot_is s i n -> exists b, blk s.1 i = Some b.
Proof. intros (b & Hb & _). eauto. Qed.

(** Writing into a held block. *)
Lemma store_held i n x l s :
  holding l s -> slot_is s i n -> length x = Z.to_nat BLOCK_SIZE ->
  exists c' b, store i x s.1 = Ok c' /\ holding l (c', s.2) /\ blk s.1 i = Some b /\
    blk c' i = Some (set_dirty true (set_data x b)) /\
    (forall m, view (c', s.2) m = if m =? n then x else view s m) /\
    (forall j m, slot_is s j m -> slot_is (c', s.2) j m) /\
    (forall j, j <> i -> blk c' j = blk s.1 j).
Proof.
  intros K (b & Hb & Hv & <-) Hx. destruct (store_ok i x s b (k_inv _ _ K) Hb Hv Hx) as (c' & E & H & Hview & Hblk).
  exists c', b. split; [done|]. split; [|split; [done|split; [by rewrite Hblk, Z.eqb_refl|split; [done|split]]]].
  - constructor; [done|apply (k_reliable _ _ K)|]. intros j y Hj. cbn in Hj. rewrite Hblk in Hj.
    destruct (Z.eqb_spec j i) as [->|]; [|by apply (k_held _ _ K j y)]. injection Hj as <-. by apply (k_held _ _ K i b).
  - intros j m (y & Hy & Hvy & Hm). unfold slot_is. cbn [fst]. rewrite Hblk. destruct (Z.eqb_spec j i) as [->|]; [|eauto].
    eexists. split; [done|]. cbn. by simplify_eq.
  - intros j Hj. rewrite Hblk. by destruct (Z.eqb_spec j i).
Qed.

Lemma with_read_ok n l s :
  holding l s -> (length l < 64)%nat ->
  exists s', with_read n s = Ok (s', Some (view s n)) /\ holding l s' /\ (forall m, view s' m = view s m) /\
    (forall j m, j ∈ l -> slot_is s j m -> slot_is s' j m) /\ (clean s.1 -> s'.2 = s.2 /\ clean s'.1).
Proof.
  intros K Hl. destruct (fetch_ok false n l s K Hl) as ([c1 d1] & i & b & E & G & K1 & Hs & Hst & Hcl).
  unfold with_read. cbn [fetch_block] in E. rewrite E, bind_Ok.
  destruct (slot_data _ i n (k_inv _ _ K1) Hs) as (b1 & Hb1 & Hd1 & _). cbn [fst] in Hb1. rewrite Hb1, bind_Ok.
  destruct (release_held i l (c1, d1) K1 (slot_exists _ _ _ Hs)) as (c' & E' & K' & Hv' & Hst' & Hcl').
  cbn [fst snd] in *. rewrite E', bind_Ok, Hd1, (g_view _ _ _ _ _ G). exists (c', d1). split; [done|]. split; [done|].
  split; [intros m; rewrite Hv'; apply (g_view _ _ _ _ _ G)|]. split; [auto|].
  intros Hc. split; [by apply (g_clean _ _ _ _ _ G)|]. apply clean_all, Hcl', clean_all, Hcl; done.
Qed.

(** Getting a block writes at most one other block to the device, a dirty one,
    with what the cache shows for it. *)
Lemma got_writes P s n i s' b :
  got s n i s' b -> cinv s -> reliable s.2 -> clean_on P s.1 ->
  exists ev, Forall (fun w => ~ P w.1 /\ w.2 = view s w.1) ev /\ history s'.2 = history s.2 ++ ev.
Proof.
  intros G H Hr Hc. destruct (g_dev _ _ _ _ _ G) as [->|(b0 & Hb0 & ->)]; [exists []; by rewrite app_nil_r|].
  destruct (written_back_ok b0 s.2 Hr (c_data _ (v_core _ H) i b0 Hb0)) as (_ & _ & ->). eexists. split; [|done].
  destruct (valid b0) eqn:Ev; [|done]. destruct (dirty b0) eqn:Ed; [|done]. cbn [andb]. apply Forall_singleton. cbn [fst snd]. split.
  - intros HP. by rewrite (Hc i b0 Hb0 Ev HP) in Ed.
  - symmetry. by apply (view_cached s i b0).
Qed.

Lemma with_write_gen fetch through n f l s :
  holding l s -> (length l < 64)%nat ->
  (forall x, length x = Z.to_nat BLOCK_SIZE -> length (f x) = Z.to_nat BLOCK_SIZE) ->
  exists s', with_write fetch through n f s = Ok (s', true) /\ holding l s' /\
    (forall m, view s' m = if m =? n then f (view s n) else view s m) /\
    (forall j m, j ∈ l -> slot_is s j m -> slot_is s' j m) /\
    (through = false -> clean s.1 -> s'.2 = s.2) /\
    forall P, clean_on P s.1 -> through = true \/ ~ P n -> clean_on P s'.1 /\
      (through = true -> exists ev, Forall (fun w => ~ P w.1 /\ w.2 = view s w.1) ev /\
         history s'.2 = history s.2 ++ ev ++ [(n, f (view s n))]).
Proof.
  intros K Hl Hf. destruct (fetch_ok fetch n l s K Hl) as ([c1 d1] & i & b & E & G & K1 & Hs & Hst & _).
  unfold with_write. change (if fetch then get_for_write n s else get n s) with (fetch_block fetch n s). rewrite E, bind_Ok.
  assert (Hbi := g_block _ _ _ _ _ G). cbn [fst] in Hbi. rewrite (blk_rd _ _ _ Hbi), bind_Ok, (g_data _ _ _ _ _ G).
  assert (Hlen : length (f (view s n)) = Z.to_nat BLOCK_SIZE) by (apply Hf, view_length, (k_inv _ _ K)).
  destruct (store_held i n (f (view s n)) (i :: l) (c1, d1) K1 Hs Hlen) as (c2 & b' & E2 & K2 & Hb' & Hbi2 & Hv2 & Hst2 & Ho2).
  cbn [fst snd] in *. rewrite E2, bind_Ok. simplify_eq. set (b2 := set_dirty true (set_data (f (view s n)) b)) in *.
  assert (Hsync : exists s3 b3, (if through then sync_block i (c2, d1) else Ok (c2, d1)) = Ok s3 /\ holding (i :: l) s3 /\
    (forall m, view s3 m = view (c2, d1) m) /\ (forall j, blk s3.1 j = if j =? i then Some b3 else blk c2 j) /\
    valid b3 = valid b2 /\ block_num b3 = block_num b2 /\
    (through = false -> s3.2 = d1) /\
    (through = true -> dirty b3 = false /\ history s3.2 = history d1 ++ [(n, f (view s n))])).
  { destruct through.
    - destruct (sync_block_ok i (c2, d1) b2 (k_inv _ _ K2) (k_reliable _ _ K2) Hbi2) as (s3 & -> & H3 & Hr3 & Hv3 & Hd3 & Hblk3).
      assert (Hvb : valid b2 = true) by apply (g_valid _ _ _ _ _ G). rewrite Hvb in Hblk3. cbn [fst snd] in *.
      exists s3, (set_dirty false b2). split; [done|]. split.
      { constructor; [done|done|]. intros j y Hj. rewrite Hblk3 in Hj. destruct (Z.eqb_spec j i) as [->|]; [|by apply (k_held _ _ K2 j y)].
        injection Hj as <-. by apply (k_held _ _ K2 i b2). }
      do 5 (split; [done|]). intros _. split; [done|].
      destruct (written_back_ok b2 d1 (k_reliable _ _ K2) Hlen) as (_ & _ & Hh). rewrite Hd3, Hh, Hvb.
      change (dirty b2) with true. cbn [andb]. do 3 f_equal. apply (g_num _ _ _ _ _ G).
    - exists (c2, d1), b2. split; [done|]. split; [done|]. split; [done|]. split; [|done]. intros j. cbn.
      by destruct (Z.eqb_spec j i) as [->|]. }
  destruct Hsync as ([c3 d3] & b3 & -> & K3 & Hv3 & Hblk3 & Hvb3 & Hnb3 & Hnt & Hth). rewrite bind_Ok. cbn [fst snd] in *.
  assert (Hst3 : forall j m, slot_is (c2, d1) j m -> slot_is (c3, d3) j m).
  { intros j m (y & Hy & Hvy & Hm). unfold slot_is. cbn [fst] in *. rewrite Hblk3. destruct (Z.eqb_spec j i) as [->|]; [|eauto].
    exists b3. split; [done|]. simplify_eq. by rewrite Hvb3. }
  destruct (release_held i l (c3, d3) K3) as (c4 & E4 & K4 & Hv4 & Hst4 & Hcl4).
  { exists b3. cbn. by rewrite Hblk3, Z.eqb_refl. }
  cbn [fst snd] in *. rewrite E4, bind_Ok. exists (c4, d3). split; [done|]. split; [done|]. split.
  { intros m. rewrite Hv4, Hv3, Hv2. destruct (m =? n); [done|]. apply (g_view _ _ _ _ _ G). }
  split; [auto|]. split; [intros Ht Hc; cbn; rewrite (Hnt Ht); exact (g_clean _ _ _ _ _ G Hc)|].
  intros P Hc Hor. cbn. split.
  - apply Hcl4. intros j y Hj Hvy HP. cbn [fst] in Hj. rewrite Hblk3 in Hj. destruct (Z.eqb_spec j i) as [->|Hne].
    + injection Hj as <-. destruct Hor as [Ht|Hn]; [by destruct (Hth Ht)|]. destruct Hn. rewrite Hnb3 in HP.
      rewrite <- (g_num _ _ _ _ _ G). exact HP.
    + rewrite Ho2, (g_other _ _ _ _ _ G : forall j, j <> i -> blk c1 j = _) in Hj by done. by apply (Hc j y).
  - intros Ht. destruct (Hth Ht) as [_ Hh3].
    destruct (got_writes P s n i _ b G (k_inv _ _ K) (k_reliable _ _ K) Hc) as (ev & Hev & Hh1).
    exists ev. split; [done|]. cbn [snd] in Hh1. by rewrite Hh3, Hh1, <- app_assoc.
Qed.

Lemma with_write_ok fetch through n f l s :
  holding l s -> (length l < 64)%nat ->
  (forall x, length x = Z.to_nat BLOCK_SIZE -> length (f x) = Z.to_nat BLOCK_SIZE) ->
  exists s', with_write fetch through n f s = Ok (s', true) /\ holding l s' /\
    (forall m, view s' m = if m =? n then f (view s n) else view s m) /\
    (forall j m, j ∈ l -> slot_is s j m -> slot_is s' j m) /\
    (through = true -> clean s.1 -> clean s'.1 /\ history s'.2 = history s.2 ++ [(n, f (view s n))]).
Proof.
  intros K Hl Hf. destruct (with_write_gen fetch through n f l s K Hl Hf) as (s' & E & K' & Hv & Hst & _ & HP).
  exists s'. do 4 (split; [done|]). intros Ht Hc. destruct (HP (fun _ => True)) as [Hc' Hev]; [by apply clean_all|by left|].
  split; [by apply clean_all|]. destruct (Hev Ht) as ([|w ev] & Hw & Hh); [done|]. by apply Forall_cons in Hw as [[[] _] _].
Qed.

Lemma sync_calm l s :
  holding l s -> exists s', sync s = Ok s' /\ holding l s' /\ clean s'.1 /\ (forall m, view s' m = view s m) /\
    (forall m, contents s'.2 m = view s m).
Proof.
  intros K. destruct (sync_ok s (k_inv _ _ K) (k_reliable _ _ K)) as (s' & E & H & Hr & Hv & Hc & Hb). exists s'.
  split; [done|]. split.
  - constructor; [done|done|]. intros i b Hi. destruct (Hb i b Hi) as (_ & b0 & Hb0 & -> & ->). by apply (k_held _ _ K i b0).
  - split; [|done]. intros i b Hi. apply (Hb i b Hi).
Qed.

Lemma clean_view s : cinv s -> clean s.1 -> forall m, view s m = contents s.2 m.
Proof.
  intros H Hc m. destruct (view_cases s m) as [(j & y & Hj & Hvy & Hy & ->)|[_ ->]]; [|done].
  rewrite <- Hy. apply (v_clean _ H j y); eauto.
Qed.


(** ** Sequences of accesses *)

Inductive access :=
| ARead (n : Z)
| AWrite (n : Z) (x : list Z)
| ASync.

(** The accesses of the file system through the cache, with what the reads
    return. *)
Fixpoint run (l : list access) (s : BlockCache * D) : res (BlockCache * D * list (option (list Z))) :=
  match l with
  | [] => Ok (s, [])
  | ARead n :: l => '(s, o) ← with_read n s; '(s, outs) ← run l s; Ok (s, o :: outs)
  | AWrite n x :: l => '(s, _) ← with_write true false n (fun _ => x) s; run l s
  | ASync :: l => s ← sync s; run l s
  end.

(** The same accesses on a plain array of blocks. *)
Fixpoint run_spec (l : list access) (m : Z -> list Z) : (Z -> list Z) * list (option (list Z)) :=
  match l with
  | [] => (m, [])
  | ARead n :: l => let '(m', outs) := run_spec l m in (m', Some (m n) :: outs)
  | AWrite n x :: l => run_spec l (fun k => if k =? n then x else m k)
  | ASync :: l => run_spec l m
  end.

Definition well_sized (l : list access) : Prop :=
  Forall (fun a => match a with AWrite _ x => length x = Z.to_nat BLOCK_SIZE | _ => True end) l.

Lemma run_spec_ext l m m' :
  (forall k, m k = m' k) ->
  (forall k, (run_spec l m).1 k = (run_spec l m').1 k) /\ (run_spec l m).2 = (run_spec l m').2.
Proof.
  revert m m'. induction l as [|[n|n x|] l IH]; intros m m' Hm; cbn [run_spec]; [done|..].
  - destruct (IH m m' Hm) as [H1 H2]. destruct (run_spec l m), (run_spec l m'). cbn in *. rewrite Hm. by rewrite H2.
  - apply IH. intros k. by destruct (k =? n).
  - by apply IH.
Qed.

Lemma run_ok l s :
  calm s -> well_sized l ->
  exists s', run l s = Ok (s', (run_spec l (view s)).2) /\ calm s' /\
    (forall k, view s' k = (run_spec l (view s)).1 k).
Proof.
  revert s. induction l as [|a l IH]; intros s K Hw; [by exists s|]. inversion Hw as [|? ? Ha Hl]; subst.
  destruct a as [n|n x|]; cbn [run run_spec].
  - destruct (with_read_ok n [] s K) as (s1 & -> & K1 & Hv1 & _); [cbn; lia|]. rewrite bind_Ok.
    destruct (IH s1 K1 Hl) as (s2 & -> & K2 & Hv2). rewrite bind_Ok. exists s2.
    destruct (run_spec_ext l (view s1) (view s) Hv1) as [E1 E2]. rewrite E2.
    destruct (run_spec l (view s)) as [m outs]. split; [done|]. split; [done|]. intros k. rewrite Hv2. apply E1.
  - destruct (with_write_ok true false n (fun _ => x) [] s K) as (s1 & -> & K1 & Hv1 & _); [cbn; lia|done|]. rewrite bind_Ok.
    destruct (IH s1 K1 Hl) as (s2 & -> & K2 & Hv2). exists s2.
    destruct (run_spec_ext l (view s1) _ Hv1) as [E1 E2]. rewrite E2. split; [done|]. split; [done|].
    intros k. rewrite Hv2. apply E1.
  - destruct (sync_calm [] s K) as (s1 & -> & K1 & _ & Hv1 & _). rewrite bind_Ok.
    destruct (IH s1 K1 Hl) as (s2 & -> & K2 & Hv2). exists s2.
    destruct (run_spec_ext l (view s1) (view s) Hv1) as [E1 E2]. rewrite E2. split; [done|]. split; [done|].
    intros k. rewrite Hv2. apply E1.
Qed.

End laws.

(** No caller holds a block. *)
Abbreviation calm := (holding []).

(** A fresh cache over any reliable device. *)
Lemma init_calm {D} `{!BlockDevice D, !DeviceLaws D} c (d : D) :
  length (blocks_ c) = 64%nat -> Forall (fun b => length (data b) = Z.to_nat BLOCK_SIZE) (blocks_ c) ->
  reliable d -> calm (init c, d) /\ clean (init c) /\ (forall m, view (init c, d) m = contents d m).
Proof.
  intros Hl Hd Hr. assert (Hb : forall i b, blk (init c) i = Some b ->
    valid b = false /\ refcount b = 0 /\ pinned b = false /\ length (data b) = Z.to_nat BLOCK_SIZE).
  { intros i b. unfold blk. destruct (i <? 0); [done|]. cbn. rewrite list_lookup_fmap.
    destruct (blocks_ c !! Z.to_nat i) as [b0|] eqn:E; [|done]. intros [= <-]. cbn. do 3 (split; [done|]).
    rewrite Forall_forall in Hd. apply Hd. by apply list_elem_of_lookup_2 in E. }
  assert (Hh : concat (hash_ (init c)) = []) by reflexivity.
  assert (Hnh : forall i, ~ hashed (init c) i) by (intros i; unfold hashed; rewrite Hh; apply not_elem_of_nil).
  assert (Hc : cinv (init c, d)).
  { constructor; cbn [fst snd].
    - constructor.
      + cbn. by rewrite length_fmap.
      + done.
      + done.
      + rewrite Hh. constructor.
      + intros h chain i Hc Hi. destruct (Hnh i). apply hashed_chain. eauto.
      + intros i j b b' Hi. by destruct (Hnh i).
      + intros i b Hi. by destruct (Hb i b Hi) as (_ & _ & _ & ?).
    - intros i b Hi. destruct (Hb i b Hi) as (-> & _). split; [done|]. by intros ?%Hnh.
    - intros i b Hi. by destruct (Hb i b Hi) as (-> & _).
    - intros i b Hi. destruct (Hb i b Hi) as (_ & -> & _). unfold in_width. lia. }
  split; [|split].
  - constructor; [done|done|]. intros i b Hi. by destruct (Hb i b Hi) as (_ & ? & ? & _).
  - intros i b Hi. by destruct (Hb i b Hi) as (-> & _).
  - intros m. apply (view_uncached (init c, d)). intros i b Hi. by destruct (Hb i b Hi) as (-> & _).
Qed.

(** ** Claims *)

(** (C30) The block cache refines a plain array of blocks: every sequence of reads,
    writes and synchronisations through the cache, whatever is evicted and
    written back on the way, returns what the same sequence returns on the
    array the device held, and after a final synchronisation the device holds
    the resulting array. *)
Theorem cache_refines {D} `{!BlockDevice D, !DeviceLaws D} l (s : BlockCache * D) :
  calm s -> well_sized l ->
  exists s', run (l ++ [ASync]) s = Ok (s', (run_spec l (view s)).2) /\ calm s' /\
    forall n, contents s'.2 n = (run_spec l (view s)).1 n.
Proof.
  intros K Hw. destruct (run_ok l s K Hw) as (s1 & E1 & K1 & Hv1).
  assert (Happ : forall l' s r outs, run l s = Ok (r, outs) -> run (l ++ l') s = ('(s', o) ← run l' r; Ok (s', outs ++ o))).
  { clear. induction l as [|a l IH]; intros l' s r outs H; cbn [run app] in *.
    - injection H as -> <-. by destruct (run l' r) as [[]| |].
    - destruct a as [n|n x|].
      + apply bind_inv in H as ([s1 o] & -> & H). rewrite bind_Ok. apply bind_inv in H as ([s2 o2] & H & [= -> <-]).
        rewrite (IH _ _ _ _ H). by destruct (run l' r) as [[]| |].
      + apply bind_inv in H as ([s1 o] & -> & H). rewrite bind_Ok. by apply IH.
      + apply bind_inv in H as (s1 & -> & H). rewrite bind_Ok. by apply IH. }
  rewrite (Happ _ _ _ _ E1). cbn [run]. destruct (sync_calm [] s1 K1) as (s2 & -> & K2 & _ & _ & Hc). rewrite !bind_Ok.
  rewrite app_nil_r. exists s2. split; [done|]. split; [done|]. intros n. rewrite Hc. apply Hv1.
Qed.

Lemma blank_sized : Forall (fun b => length (data b) = Z.to_nat BLOCK_SIZE) (blocks_ blank).
Proof. apply Forall_replicate. cbn [data]. apply length_replicate. Qed.

Lemma cache_refines_witness :
  let s := (init blank, mkRam ∅ []) in
  let l := [AWrite 7 (replicate (Z.to_nat BLOCK_SIZE) 5); ARead 39; ARead 7] in
  (calm s /\ well_sized l) /\
  exists s', run (l ++ [ASync]) s = Ok (s', (run_spec l (view s)).2) /\ calm s' /\
    forall n, contents s'.2 n = (run_spec l (view s)).1 n.
Proof.
  intros s l. assert (K : calm s) by (apply init_calm; [done|apply blank_sized|done]).
  assert (Hw : well_sized l) by (repeat constructor; apply length_replicate).
  split; [exact (conj K Hw)|]. exact (cache_refines l s K Hw).
Defined.
(** [sync] does not look at the result of a write: on a device that rejects
    every write it reports nothing, and every dirty block comes out marked
    clean, so the changes are dropped at the next eviction. *)
Theorem sync_drops_failed_writes {D} `{!BlockDevice D} c (d : D) :
  (forall n x (d : D), dev_write n x d = (d, false)) ->
  exists c', sync (c, d) = Ok (c', d) /\
    forall i b, blk c i = Some b -> valid b = true -> dirty b = true ->
      exists b', blk c' i = Some b' /\ valid b' = true /\ dirty b' = false /\ data b' = data b.
Proof.
  intros Hw. unfold sync. cbn [fst].
  assert (Hl : forall i, i ∈ sort_by_num c (dirty_indices c) <-> exists b, blk c i = Some b /\ valid b = true /\ dirty b = true).
  { intros i. rewrite sort_by_num_perm. apply elem_dirty_indices. }
  destruct (foldM_inv sync_one (fun done_ s => s.2 = d /\ forall i b, blk c i = Some b ->
      exists b', blk s.1 i = Some b' /\ valid b' = valid b /\ data b' = data b /\ (i ∈ done_ -> valid b = true -> dirty b' = false))
    (sort_by_num c (dirty_indices c)) (c, d)) as ([c' d'] & E & Ed & Hs).
  - split; [done|]. intros i b Hb. exists b. do 3 (split; [done|]). by intros []%not_elem_of_nil.
  - intros done_ i rest [c1 d1] El [Hd0 Hs]. cbn [fst snd] in *. subst d1.
    assert (Hi : i ∈ sort_by_num c (dirty_indices c)) by (rewrite El, elem_of_app; right; apply list_elem_of_here).
    apply Hl in Hi as (b & Hb & Hv & _). destruct (Hs i b Hb) as (b1 & Hb1 & Hv1 & Hd1 & Hc1).
    unfold sync_one. rewrite (blk_rd _ _ _ Hb1), bind_Ok, Hv1, Hv. cbn [negb orb]. destruct (dirty b1) eqn:Edi; cbn [negb].
    + destruct (upd_ok i (fun b => set_refcount (u32 (refcount b + 1)) b) c1 b1 Hb1) as (l & -> & _ & Hblk). rewrite bind_Ok.
      rewrite Hw. cbn [fst]. set (b2 := set_refcount (u32 (refcount b1 + 1)) b1) in *.
      destruct (upd_ok i (fun b => set_refcount (u32 (refcount b - 1)) (set_dirty false b)) (set_blocks l c1) b2) as (l2 & -> & _ & Hblk2).
      { by rewrite Hblk, Z.eqb_refl. }
      rewrite bind_Ok. eexists (_, _). split; [done|]. split; [done|]. intros j x Hx. cbn [fst].
      rewrite Hblk2, Hblk. destruct (Z.eqb_spec j i) as [->|Hne].
      * simplify_eq. eexists. split; [done|]. cbn. by rewrite Hv1, Hd1.
      * destruct (Hs j x Hx) as (x' & ? & ? & ? & ?). exists x'. do 3 (split; [done|]). rewrite elem_of_app, list_elem_of_singleton. naive_solver.
    + eexists (_, _). split; [done|]. split; [done|]. intros j x Hx. cbn [fst]. destruct (Hs j x Hx) as (x' & Hx' & ? & ? & ?).
      exists x'. do 3 (split; [done|]). rewrite elem_of_app, list_elem_of_singleton. intros [?| ->]; [auto|]. congruence.
  - cbn [fst snd] in *. subst d'. exists c'. split; [done|]. intros i b Hb Hv Hd.
    destruct (Hs i b Hb) as (b' & Hb' & Hv' & Hd' & Hc). exists b'. rewrite Hv', Hv. do 2 (split; [done|]). split; [|done].
    apply Hc; [|done]. apply Hl. eauto.
Qed.

(** A device whose writes all fail. *)
Inductive BadDisk := bad.
#[local] Instance bad_device : BlockDevice BadDisk := {| dev_read _ _ := Some []; dev_write _ _ d := (d, false) |}.

Lemma sync_drops_failed_writes_witness :
  (forall n x (d : BadDisk), dev_write n x d = (d, false)) /\
  let c := mkCache [mkBlock 3 [1; 2] true true false 0] [0] [[]; []; []; [0]] 0 0 0 0 in
  exists c', sync (c, bad) = Ok (c', bad) /\ exists b', blk c' 0 = Some b' /\ valid b' = true /\ dirty b' = false /\ data b' = [1; 2].
Proof.
  assert (Hw : forall n x (d : BadDisk), dev_write n x d = (d, false)) by done. split; [exact Hw|]. intros c.
  destruct (sync_drops_failed_writes c bad Hw) as (c' & E & H). exists c'. split; [exact E|].
  exact (H 0 (mkBlock 3 [1; 2] true true false 0) eq_refl eq_refl eq_refl).
Defined.


End CacheSpec.
