(* ===== verification/Journal.v ===== *)
(** * The write-ahead journal of ViperFS

    Models [src/kernel/fs/viperfs/journal.cpp], [journal.hpp] and the journal
    structures of [format.hpp], on top of the block cache.  The header is a
    block of bytes, as it is on disk; structures inside a block are read and
    written by their fields.  The only [Transaction] object is [current_txn_]:
    a transaction pointer is a boolean, false when null.  Messages on the
    serial line and the lock are left out. *)

From S2P Require Import Prelude Bytes Crc32 Cache.

Module Journal.
Import Bytes Cache.

Definition JOURNAL_MAGIC : Z := 0x4A524E4C.
Definition MAX_JOURNAL_BLOCKS : Z := 32.
Definition JOURNAL_BLOCKS : Z := 16.
Definition TXN_INVALID : Z := 0.
Definition TXN_ACTIVE : Z := 1.
Definition TXN_COMMITTED : Z := 2.
Definition TXN_COMPLETE : Z := 3.

(** ** Structures on disk *)

(** Fields of [JournalHeader]. *)
Definition h_magic := ld 4 0.
Definition h_version := ld 4 4.
Definition h_sequence := ld 8 8.
Definition h_start_block := ld 8 16.
Definition h_num_blocks := ld 8 24.
Definition h_head := ld 8 32.
Definition h_tail := ld 8 40.

(** Fields of [JournalTransaction] and of its [JournalBlockRecord]s. *)
Definition t_magic := ld 4 0.
Definition t_state := ld 1 4.
Definition t_num_blocks := ld 1 5.
Definition t_sequence := ld 8 8.
Definition t_block_num (i : Z) := ld 8 (24 + 16 * Z.to_nat i).
Definition t_checksum (i : Z) := ld 4 (32 + 16 * Z.to_nat i).

(** Fields of [JournalCommit]. *)
Definition c_magic := ld 4 0.
Definition c_sequence := ld 8 8.

(** ** State *)

Record Transaction := mkTxn {
  sequence : Z; num_blocks : Z; blocks : list Z; tdata : list (list Z); active : bool
}.

Record Journal := mkJournal {
  header_ : list Z; journal_start_ : Z; num_blocks_ : Z; enabled_ : bool; current_txn_ : Transaction
}.

Definition set_header h j := mkJournal h (journal_start_ j) (num_blocks_ j) (enabled_ j) (current_txn_ j).
Definition set_txn t j := mkJournal (header_ j) (journal_start_ j) (num_blocks_ j) (enabled_ j) t.

(** Stores a field of the header. *)
Definition set_h_sequence v j := set_header (st 8 8 v (header_ j)) j.
Definition set_h_head v j := set_header (st 8 32 v (header_ j)) j.
Definition set_h_tail v j := set_header (st 8 40 v (header_ j)) j.

Definition checksum (d : list Z) : Z := Crc32.crc32 d.

Section device.
Context {D : Type} {BD : BlockDevice D}.
Abbreviation store_t := (BlockCache * D)%type.

(** ** The header *)

Definition read_header (j : Journal) (s : store_t) : res (Journal * store_t * bool) :=
  '(s, o) ← with_read (journal_start_ j) s;
  match o with
  | None => Ok (j, s, false)
  | Some x => Ok (set_header x j, s, true)
  end.

Definition write_header (j : Journal) (s : store_t) : res (store_t * bool) :=
  with_write false true (journal_start_ j) (fun _ => header_ j) s.

Definition init (journal_start num_blocks : Z) (j : Journal) (s : store_t) : res (Journal * store_t * bool) :=
  if num_blocks <? 4 then Ok (j, s, false)
  else
    let j := mkJournal (header_ j) journal_start num_blocks (enabled_ j) (current_txn_ j) in
    '(s, o) ← with_read journal_start s;
    match o with
    | None => Ok (j, s, false)
    | Some x =>
        '(j, s, ok) ← (if (h_magic x =? JOURNAL_MAGIC) && (h_version x =? 1)
          then Ok (set_header x j, s, true)
          else
            let h := st 4 0 JOURNAL_MAGIC (header_ j) in
            let h := st 4 4 1 h in
            let h := st 8 8 0 h in
            let h := st 8 16 (u64 (journal_start + 1)) h in
            let h := st 8 24 (num_blocks - 1) h in
            let h := st 8 32 0 h in
            let h := st 8 40 0 h in
            let j := set_header h j in
            '(s, ok) ← write_header j s;
            Ok (j, s, ok));
        if negb ok then Ok (j, s, false)
        else
          let t := current_txn_ j in
          let t := mkTxn (sequence t) (Journal.num_blocks t) (blocks t) (tdata t) false in
          Ok (mkJournal (header_ j) (journal_start_ j) (num_blocks_ j) true t, s, true)
    end.

(** ** Replay *)

Definition verify_commit_record (commit_block_num expected_seq : Z) (s : store_t) : res (store_t * bool) :=
  '(s, o) ← with_read commit_block_num s;
  match o with
  | None => Ok (s, false)
  | Some x => Ok (s, (c_magic x =? JOURNAL_MAGIC) && (c_sequence x =? expected_seq))
  end.

(** The buffer of the block in slot [t], which the transaction pointer points
    into. *)
Definition buffer (t : Z) (s : store_t) : res (list Z) := b ← rd (blocks_ s.1) t; Ok (data b).

(** The loop over the records; the counter is a byte. *)
Fixpoint verify_loop (fuel : nat) (i block_num t : Z) (s : store_t) : res (store_t * bool) :=
  match fuel with
  | O => Diverge
  | S fuel =>
      txn ← buffer t s;
      if i <? t_num_blocks txn then
        let data_block := u64 (block_num + 1 + i) in
        '(s, o) ← with_read data_block s;
        match o with
        | None => Ok (s, false)
        | Some x =>
            let computed := checksum x in
            txn ← buffer t s;
            let expected := t_checksum i txn in
            if negb (computed =? expected) then Ok (s, false)
            else verify_loop fuel (u8 (i + 1)) block_num t s
        end
      else Ok (s, true)
  end.
Definition verify_transaction_checksums (block_num t : Z) (s : store_t) : res (store_t * bool) :=
  verify_loop 256 0 block_num t s.

Fixpoint apply_loop (fuel : nat) (i block_num t : Z) (s : store_t) : res store_t :=
  match fuel with
  | O => Diverge
  | S fuel =>
      txn ← buffer t s;
      if i <? t_num_blocks txn then
        let data_block := u64 (block_num + 1 + i) in
        let dest_block := t_block_num i txn in
        '(c, d, o) ← get data_block s;
        match o with
        | None => apply_loop fuel (u8 (i + 1)) block_num t (c, d)
        | Some src =>
            '(c, d, o) ← get_for_write dest_block (c, d);
            match o with
            | None => c ← release src c; apply_loop fuel (u8 (i + 1)) block_num t (c, d)
            | Some dst =>
                x ← buffer src (c, d);
                c ← store dst x c;
                c ← release src c;
                c ← release dst c;
                apply_loop fuel (u8 (i + 1)) block_num t (c, d)
            end
        end
      else Ok s
  end.
Definition apply_transaction_blocks (block_num t : Z) (s : store_t) : res store_t :=
  apply_loop 256 0 block_num t s.

Definition validate_transaction_header (txn : list Z) : bool :=
  if negb (t_magic txn =? JOURNAL_MAGIC) then false
  else if t_state txn =? TXN_INVALID then false
  else if MAX_JOURNAL_BLOCKS <? t_num_blocks txn then false
  else true.

(** What happened to one transaction of the journal. *)
Inductive outcome := Replayed | Skipped | Passed.

(** The loop of [replay]; each round moves at least two blocks on. *)
Fixpoint replay_loop (fuel : nat) (pos replayed skipped : Z) (j : Journal) (s : store_t) : res (store_t * Z * Z) :=
  match fuel with
  | O => Diverge
  | S fuel =>
      if negb (pos =? h_tail (header_ j)) && (pos <? h_num_blocks (header_ j)) then
        let block_num := u64 (h_start_block (header_ j) + pos) in
        '(c, d, o) ← get block_num s;
        match o with
        | None => Ok (c, d, replayed, skipped)
        | Some t =>
            txn ← buffer t (c, d);
            if negb (validate_transaction_header txn) then
              c ← release t c; Ok (c, d, replayed, skipped)
            else
              '(s, r) ← (if t_state txn =? TXN_COMMITTED then
                  let commit_block_num := u64 (block_num + 1 + t_num_blocks txn) in
                  '(s, ok) ← verify_commit_record commit_block_num (u32 (t_sequence txn)) (c, d);
                  if negb ok then Ok (s, Skipped)
                  else
                    '(s, ok) ← verify_transaction_checksums block_num t s;
                    if negb ok then Ok (s, Skipped)
                    else
                      s ← apply_transaction_blocks block_num t s;
                      Ok (s, Replayed)
                else Ok ((c, d), Passed));
              txn ← buffer t s;
              let pos := u64 (pos + (t_num_blocks txn + 2)) in
              c ← release t s.1;
              match r with
              | Replayed => replay_loop fuel pos (u64 (replayed + 1)) skipped j (c, s.2)
              | Skipped => replay_loop fuel pos replayed (u64 (skipped + 1)) j (c, s.2)
              | Passed => replay_loop fuel pos replayed skipped j (c, s.2)
              end
        end
      else Ok (s, replayed, skipped)
  end.

Definition replay (j : Journal) (s : store_t) : res (Journal * store_t * bool) :=
  if negb (enabled_ j) then Ok (j, s, true)
  else
    '(s, replayed, skipped) ←
      replay_loop (S (Z.to_nat (h_num_blocks (header_ j)))) (h_head (header_ j)) 0 0 j s;
    if (0 <? replayed) || (0 <? skipped) then
      s ← sync s;
      let j := set_h_tail 0 (set_h_head 0 j) in
      '(s, _) ← write_header j s;
      Ok (j, s, true)
    else Ok (j, s, true).

(** ** Transactions *)

Definition begin (j : Journal) : Journal * bool :=
  if negb (enabled_ j) then (j, false)
  else if active (current_txn_ j) then (j, false)
  else
    let t := current_txn_ j in
    let t := mkTxn (h_sequence (header_ j)) 0 (blocks t) (tdata t) true in
    (set_txn t (set_h_sequence (u64 (h_sequence (header_ j) + 1)) j), true).

(** The index of a block that is already logged. *)
Fixpoint find_logged (n i : Z) (l : list Z) : option Z :=
  match l with
  | [] => None
  | b :: l => if b =? n then Some i else find_logged n (i + 1) l
  end.

Definition log_block (txn : bool) (block_num : Z) (src : list Z) (j : Journal) : res (Journal * bool) :=
  let t := current_txn_ j in
  if negb txn || negb (active t) then Ok (j, false)
  else if MAX_JOURNAL_BLOCKS <=? num_blocks t then Ok (j, false)
  else
    match find_logged block_num 0 (take (Z.to_nat (num_blocks t)) (blocks t)) with
    | Some i =>
        l ← wr (tdata t) i src;
        Ok (set_txn (mkTxn (sequence t) (num_blocks t) (blocks t) l (active t)) j, true)
    | None =>
        let idx := num_blocks t in
        bl ← wr (blocks t) idx block_num;
        l ← wr (tdata t) idx src;
        Ok (set_txn (mkTxn (sequence t) (u8 (num_blocks t + 1)) bl l (active t)) j, true)
    end.

(** The records of a descriptor, from index [i]. *)
Fixpoint put_records (i : nat) (bl : list (Z * list Z)) (x : list Z) : list Z :=
  match bl with
  | [] => x
  | (n, d) :: bl =>
      let x := st 8 (24 + 16 * i) n x in
      let x := st 4 (32 + 16 * i) (checksum d) x in
      put_records (S i) bl x
  end.

(** The logged blocks with their numbers. *)
Definition logged (t : Transaction) : list (Z * list Z) :=
  take (Z.to_nat (num_blocks t)) (zip (blocks t) (tdata t)).

Definition put_descriptor (now : Z) (t : Transaction) (x : list Z) : list Z :=
  let x := st 4 0 JOURNAL_MAGIC x in
  let x := st 1 4 TXN_ACTIVE x in
  let x := st 1 5 (num_blocks t) x in
  let x := st 8 8 (sequence t) x in
  let x := st 8 16 now x in
  put_records 0 (logged t) x.

(** Writes the data blocks behind the descriptor. *)
Fixpoint write_data (n : Z) (bl : list (Z * list Z)) (s : store_t) : res (store_t * bool) :=
  match bl with
  | [] => Ok (s, true)
  | (_, d) :: bl =>
      '(s, ok) ← with_write true true n (fun _ => d) s;
      if negb ok then Ok (s, false) else write_data (u64 (n + 1)) bl s
  end.

(** [now] is the reading of the system timer.  The last component is the journal
    position. *)
Definition write_transaction (now : Z) (txn : bool) (j : Journal) (s : store_t)
  : res (Journal * store_t * bool * Z) :=
  let t := current_txn_ j in
  if negb txn || (num_blocks t =? 0) then Ok (j, s, false, 0)
  else
    let space_needed := num_blocks t + 2 in
    let available := u64 (h_num_blocks (header_ j) - h_tail (header_ j)) in
    '(j, s) ← (if available <? space_needed then
        s ← (if negb (h_head (header_ j) =? h_tail (header_ j)) then sync s else Ok s);
        Ok (set_h_tail 0 (set_h_head 0 j), s)
      else Ok (j, s));
    let journal_pos := h_tail (header_ j) in
    let block_num := u64 (h_start_block (header_ j) + h_tail (header_ j)) in
    '(s, ok) ← with_write true true block_num (put_descriptor now t) s;
    if negb ok then Ok (j, s, false, journal_pos)
    else
      '(s, ok) ← write_data (u64 (block_num + 1)) (logged t) s;
      if negb ok then Ok (j, s, false, journal_pos)
      else
        Ok (set_h_tail (u64 (h_tail (header_ j) + (num_blocks t + 1))) j, s, true, journal_pos).

Definition put_commit (seq : Z) (x : list Z) : list Z :=
  let x := st 4 0 JOURNAL_MAGIC x in
  let x := st 8 8 seq x in
  st 4 16 0 x.

Definition write_commit (journal_pos : Z) (j : Journal) (s : store_t) : res (Journal * store_t * bool) :=
  let t := current_txn_ j in
  let commit_block := u64 (h_start_block (header_ j) + h_tail (header_ j)) in
  '(s, ok) ← with_write true true commit_block (put_commit (sequence t)) s;
  if negb ok then Ok (j, s, false)
  else
    let j := set_h_tail (u64 (h_tail (header_ j) + 1)) j in
    let desc_block_num := u64 (h_start_block (header_ j) + journal_pos) in
    '(s, _) ← with_write true true desc_block_num (fun x => st 1 4 TXN_COMMITTED x) s;
    Ok (j, s, true).

Definition abort_unlocked (txn : bool) (j : Journal) : Journal :=
  if txn then
    let t := current_txn_ j in
    set_txn (mkTxn (sequence t) 0 (blocks t) (tdata t) false) j
  else j.
Definition abort (txn : bool) (j : Journal) : Journal := abort_unlocked txn j.

Definition close_txn (j : Journal) : Journal :=
  let t := current_txn_ j in set_txn (mkTxn (sequence t) (num_blocks t) (blocks t) (tdata t) false) j.

Definition commit (now : Z) (txn : bool) (j : Journal) (s : store_t) : res (Journal * store_t * bool) :=
  let t := current_txn_ j in
  if negb txn || negb (active t) then Ok (j, s, false)
  else if num_blocks t =? 0 then Ok (close_txn j, s, true)
  else
    '(j, s, ok, journal_pos) ← write_transaction now txn j s;
    if negb ok then Ok (abort_unlocked txn j, s, false)
    else
      '(j, s, ok) ← write_commit journal_pos j s;
      if negb ok then Ok (abort_unlocked txn j, s, false)
      else
        '(s, _) ← write_header j s;
        Ok (close_txn j, s, true).

Definition complete (txn : bool) : bool := true.

Definition journal_sync (j : Journal) (s : store_t) : res store_t :=
  if enabled_ j then '(s, _) ← write_header j s; Ok s else Ok s.

(** The part of mounting a file system that concerns the journal. *)
Definition mount_journal (journal_start : Z) (j : Journal) (s : store_t) : res (Journal * store_t * bool) :=
  '(j, s, ok) ← init journal_start JOURNAL_BLOCKS j s;
  if negb ok then Ok (j, s, false) else replay j s.

End device.

(** The global journal before [init]. *)
Definition blank_journal : Journal :=
  mkJournal (replicate (Z.to_nat BLOCK_SIZE) 0) 0 0 false
    (mkTxn 0 0 (replicate 32 0) (replicate 32 (replicate (Z.to_nat BLOCK_SIZE) 0)) false).

End Journal.
