(* ===== verification/JournalSpec.v ===== *)
(** * Crash safety of the journal

    Replay is first related to a function of the disk contents: the journal is
    a chain of transactions, and replaying it applies the writes of those that
    are committed and pass their checks.  From this it follows what a crash at
    any point of a [commit] that does not reclaim the journal leaves behind. *)

From S2P Require Import Prelude Bytes Crc32 Crc32Spec Cache CacheSpec Journal.

Module JournalSpec.
Import Bytes Cache CacheSpec Journal.

Abbreviation disk := (Z -> list Z).

(** ** Writes *)

Definition put (m : disk) (w : Z * list Z) : disk := fun k => if k =? w.1 then w.2 else m k.
Definition puts (l : list (Z * list Z)) (m : disk) : disk := foldl put m l.

Lemma puts_app l k m : puts (l ++ k) m = puts k (puts l m).
Proof. apply foldl_app. Qed.

Lemma puts_cons w l m : puts (w :: l) m = puts l (put m w).
Proof. done. Qed.

Lemma puts_ext l m m' k : m k = m' k -> puts l m k = puts l m' k.
Proof.
  revert m m'. induction l as [|w l IH]; intros m m' H; [done|]. rewrite !puts_cons. apply IH. unfold put. by destruct (k =? w.1).
Qed.

Lemma puts_other l m k : k ∉ l.*1 -> puts l m k = m k.
Proof.
  revert m. induction l as [|w l IH]; intros m H; [done|]. rewrite fmap_cons in H. apply not_elem_of_cons in H as [Hk Hl].
  rewrite puts_cons, IH by done. unfold put. by destruct (Z.eqb_spec k w.1).
Qed.

(** A write that is not overwritten later is visible. *)
Lemma puts_last l1 n x l2 m : n ∉ l2.*1 -> puts (l1 ++ (n, x) :: l2) m n = x.
Proof. intros H. rewrite puts_app, puts_cons, puts_other by done. unfold put. cbn. by rewrite Z.eqb_refl. Qed.

(** ** What a transaction of the journal does *)

(** The writes recorded by the descriptor in block [bn]. *)
Definition records (m : disk) (bn : Z) : list (Z * list Z) :=
  (fun i => (t_block_num i (m bn), m (bn + 1 + i))) <$> seqZ 0 (t_num_blocks (m bn)).

Definition checks (m : disk) (bn : Z) : bool :=
  (c_magic (m (bn + 1 + t_num_blocks (m bn))) =? JOURNAL_MAGIC) &&
  (c_sequence (m (bn + 1 + t_num_blocks (m bn))) =? u32 (t_sequence (m bn))) &&
  forallb (fun i => checksum (m (bn + 1 + i)) =? t_checksum i (m bn)) (seqZ 0 (t_num_blocks (m bn))).

(** What replaying the transaction writes. *)
Definition effect (m : disk) (bn : Z) : list (Z * list Z) :=
  if (t_state (m bn) =? TXN_COMMITTED) && checks m bn then records m bn else [].

Section journal.
(** The journal occupies the blocks from [js] on: a header and [nb] blocks. *)
Context (js nb : Z).
Hypothesis Hjs : 0 <= js.
Hypothesis Hnb : 0 <= nb.
Hypothesis Hfit : js + nb + 1 < 2 ^ 64.

Definition area (n : Z) : Prop := js <= n <= js + nb.
Definition outside (l : list (Z * list Z)) : Prop := Forall (fun w => ~ area w.1) l.

(** [chain m tail pos effs]: from position [pos] to [tail] the journal is a
    sequence of transactions, which write [effs] in this order. *)
Inductive chain (m : disk) (tail : Z) : Z -> list (Z * list Z) -> Prop :=
| chain_end : chain m tail tail []
| chain_txn pos effs :
    validate_transaction_header (m (js + 1 + pos)) = true ->
    0 <= t_num_blocks (m (js + 1 + pos)) ->
    pos + t_num_blocks (m (js + 1 + pos)) + 2 <= tail ->
    outside (records m (js + 1 + pos)) ->
    chain m tail (pos + t_num_blocks (m (js + 1 + pos)) + 2) effs ->
    chain m tail pos (effect m (js + 1 + pos) ++ effs).

Lemma chain_le m tail pos effs : chain m tail pos effs -> pos <= tail.
Proof. induction 1; lia. Qed.

Lemma effect_outside m bn : outside (records m bn) -> outside (effect m bn).
Proof. unfold effect. destruct (_ && _); [done|]. intros. constructor. Qed.

Lemma chain_outside m tail pos effs : chain m tail pos effs -> outside effs.
Proof. induction 1; [constructor|]. apply Forall_app. split; [by apply effect_outside|done]. Qed.

Lemma outside_puts l m n : outside l -> area n -> puts l m n = m n.
Proof.
  intros Ho Hn. apply puts_other. intros (w & -> & Hw)%list_elem_of_fmap.
  unfold outside in Ho. rewrite Forall_forall in Ho. by apply (Ho w).
Qed.

(** The chain depends on the blocks of the journal below [tail] only. *)
Lemma records_agree m m' bn :
  (forall k, bn <= k <= bn + t_num_blocks (m bn) -> m k = m' k) -> 0 <= t_num_blocks (m bn) ->
  records m bn = records m' bn.
Proof.
  intros H Hn. unfold records. rewrite <- (H bn) by lia. apply list_fmap_ext. intros k i Hi.
  apply list_elem_of_lookup_2, elem_of_seqZ in Hi. by rewrite (H (bn + 1 + i)) by lia.
Qed.

Lemma effect_agree m m' bn :
  (forall k, bn <= k <= bn + t_num_blocks (m bn) + 1 -> m k = m' k) -> 0 <= t_num_blocks (m bn) ->
  effect m bn = effect m' bn.
Proof.
  intros H Hn. assert (Hf : forall l, (forall i, i ∈ l -> 0 <= i < t_num_blocks (m bn)) ->
    forallb (fun i => checksum (m (bn + 1 + i)) =? t_checksum i (m bn)) l =
    forallb (fun i => checksum (m' (bn + 1 + i)) =? t_checksum i (m bn)) l).
  { induction l as [|i l IH]; intros Hl; cbn [forallb]; [done|]. rewrite IH by (intros; apply Hl; by apply list_elem_of_further).
    rewrite (H (bn + 1 + i)); [done|]. assert (Hi := Hl i (list_elem_of_here _ _)). lia. }
  unfold effect, checks. rewrite <- (H bn) by lia. rewrite <- (H (bn + 1 + t_num_blocks (m bn))) by lia.
  rewrite (records_agree m m') by (intros; try apply H; lia). rewrite Hf; [done|].
  intros i Hi%elem_of_seqZ. lia.
Qed.

Lemma chain_agree m m' tail pos effs :
  0 <= pos -> (forall k, js + 1 <= k < js + 1 + tail -> m k = m' k) ->
  chain m tail pos effs -> chain m' tail pos effs.
Proof.
  intros Hp H C. induction C as [|pos effs Hv Hn Hle Ho C IH]; [constructor|].
  assert (E : m (js + 1 + pos) = m' (js + 1 + pos)) by (apply H; lia).
  assert (Ee : effect m (js + 1 + pos) = effect m' (js + 1 + pos)) by (apply effect_agree; [intros; apply H; lia|done]).
  assert (Er : records m (js + 1 + pos) = records m' (js + 1 + pos)) by (apply records_agree; [intros; apply H; lia|done]).
  rewrite Ee. rewrite E in Hv, Hn, Hle, IH. rewrite Er in Ho. constructor; [done..|]. apply IH. lia.
Qed.

(** Appending a transaction. *)
Lemma chain_snoc m tail tail' pos effs :
  chain m tail pos effs -> tail' = tail + t_num_blocks (m (js + 1 + tail)) + 2 ->
  validate_transaction_header (m (js + 1 + tail)) = true -> 0 <= t_num_blocks (m (js + 1 + tail)) ->
  outside (records m (js + 1 + tail)) ->
  chain m tail' pos (effs ++ effect m (js + 1 + tail)).
Proof.
  intros C -> Hv Hn Ho. induction C as [|pos effs Hv' Hn' Hle Ho' C IH].
  - cbn. rewrite <- (app_nil_r (effect _ _)). constructor; [done|done|lia|done|]. constructor.
  - rewrite <- app_assoc. constructor; [done|done|lia|done|done].
Qed.

(** ** The loops of replay on the cache *)

Section cache.
Context {D : Type} {BD : BlockDevice D} {DL : DeviceLaws D}.

Lemma buffer_ok l (s : BlockCache * D) t n : holding l s -> slot_is s t n -> buffer t s = Ok (view s n).
Proof.
  intros K Hs. destruct (slot_data s t n (k_inv _ _ K) Hs) as (b & Hb & Hd & _). unfold buffer. by rewrite Hb, bind_Ok, Hd.
Qed.

Lemma holding_perm l l' (s : BlockCache * D) : l ≡ₚ l' -> holding l s -> holding l' s.
Proof.
  intros Hp []. constructor; [done..|]. intros i b Hb. destruct (k_held0 i b Hb) as [? ->]. split; [done|].
  unfold countb. f_equal. clear -Hp. induction Hp; cbn; [done| | |congruence].
  - destruct (i =? x); cbn; congruence.
  - by destruct (i =? x), (i =? y).
Qed.

Lemma forallb_same {A} (f g : A -> bool) l : (forall x, f x = g x) -> forallb f l = forallb g l.
Proof. intros H. induction l as [|x l IH]; cbn; [done|]. by rewrite H, IH. Qed.

Lemma seqZ_step i n : 0 < n -> seqZ i n = i :: seqZ (i + 1) (n - 1).
Proof. intros H. rewrite seqZ_cons by done. by rewrite Z.add_1_r, Z.sub_1_r. Qed.

Lemma verify_loop_ok fuel i bn t l (s : BlockCache * D) :
  holding l s -> (length l < 64)%nat -> t ∈ l -> slot_is s t bn -> 0 <= bn ->
  let n := t_num_blocks (view s bn) in
  n <= 32 -> bn + 1 + n < 2 ^ 64 -> 0 <= i <= n -> (Z.to_nat (n - i) < fuel)%nat ->
  exists s', verify_loop fuel i bn t s = Ok (s',
      forallb (fun i => checksum (view s (bn + 1 + i)) =? t_checksum i (view s bn)) (seqZ i (n - i))) /\
    holding l s' /\ slot_is s' t bn /\ (forall k, view s' k = view s k).
Proof.
  intros K Hl Ht Hs Hbn. revert i s K Hs. induction fuel as [|fuel IH]; intros i s K Hs n Hn Hlt Hi Hf; [lia|].
  cbn [verify_loop]. rewrite (buffer_ok l s t bn K Hs), bind_Ok. fold n. destruct (Z.ltb_spec i n).
  - cbv zeta. rewrite u64_small by lia.
    destruct (with_read_ok (bn + 1 + i) l s K Hl) as (s1 & -> & K1 & Hv1 & Hs1 & _). rewrite bind_Ok.
    assert (Hs1' := Hs1 t bn Ht Hs). rewrite (buffer_ok l s1 t bn K1 Hs1'), bind_Ok, Hv1.
    rewrite (seqZ_step i) by lia. cbn [forallb]. destruct (checksum (view s (bn + 1 + i)) =? t_checksum i (view s bn)); cbn [negb andb].
    + rewrite u8_small by lia. destruct (IH (i + 1) s1 K1 Hs1') as (s2 & -> & K2 & Hs2 & Hv2); [rewrite ?Hv1; fold n; lia..|].
      exists s2. rewrite Hv1. fold n. replace (n - i - 1) with (n - (i + 1)) by lia. split; [|split; [done|split; [done|]]].
      * do 2 f_equal. apply forallb_same. intros k. by rewrite Hv1.
      * intros k. by rewrite Hv2.
    + exists s1. done.
  - exists s. replace (n - i) with 0 by lia. done.
Qed.

Lemma apply_loop_ok fuel i bn t l m (s : BlockCache * D) :
  holding l s -> (length l < 62)%nat -> t ∈ l -> slot_is s t bn -> js < bn ->
  let n := t_num_blocks (m bn) in
  n <= 32 -> bn + n <= js + nb -> 0 <= i <= n -> (Z.to_nat (n - i) < fuel)%nat ->
  (forall k, area k -> view s k = m k) ->
  outside ((fun i => (t_block_num i (m bn), m (bn + 1 + i))) <$> seqZ i (n - i)) ->
  exists s', apply_loop fuel i bn t s = Ok s' /\ holding l s' /\ slot_is s' t bn /\
    forall k, view s' k = puts ((fun i => (t_block_num i (m bn), m (bn + 1 + i))) <$> seqZ i (n - i)) (view s) k.
Proof.
  intros K Hl Ht Hs Hbn. revert i s K Hs. induction fuel as [|fuel IH]; intros i s K Hs n Hn Hlt Hi Hf Hag Ho; [lia|].
  assert (Hmb : view s bn = m bn) by (apply Hag; unfold area; lia).
  cbn [apply_loop]. rewrite (buffer_ok l s t bn K Hs), bind_Ok, Hmb. fold n. destruct (Z.ltb_spec i n) as [Hin|Hin].
  2:{ exists s. replace (n - i) with 0 by lia. done. }
  rewrite (seqZ_step i) in Ho |- * by lia. rewrite fmap_cons in Ho |- *. apply Forall_cons in Ho as [Hd Ho].
  cbn [fst] in Hd. cbv zeta. rewrite u64_small by (unfold area in *; lia).
  destruct (fetch_ok false (bn + 1 + i) l s K ltac:(lia)) as ([c1 d1] & src & b1 & E1 & G1 & K1 & Hs1 & Hst1 & _).
  cbn [fetch_block] in E1. rewrite E1, bind_Ok.
  destruct (fetch_ok true (t_block_num i (m bn)) (src :: l) (c1, d1) K1 ltac:(cbn; lia)) as ([c2 d2] & dst & b2 & E2 & G2 & K2 & Hs2 & Hst2 & _).
  cbn [fetch_block] in E2. rewrite E2, bind_Ok.
  assert (Hsrc : slot_is (c2, d2) src (bn + 1 + i)) by (apply Hst2; [apply list_elem_of_here|done]).
  rewrite (buffer_ok _ (c2, d2) src (bn + 1 + i) K2 Hsrc), bind_Ok.
  assert (Hv2 : forall k, view (c2, d2) k = view s k).
  { intros k. rewrite (g_view _ _ _ _ _ G2). apply (g_view _ _ _ _ _ G1). }
  destruct (store_held dst (t_block_num i (m bn)) (view (c2, d2) (bn + 1 + i)) (dst :: src :: l) (c2, d2) K2 Hs2)
    as (c3 & b3 & E3 & K3 & _ & _ & Hv3 & Hst3 & _); [apply view_length, (k_inv _ _ K2)|].
  cbn [fst snd] in *. rewrite E3, bind_Ok.
  assert (K3' : holding (src :: dst :: l) (c3, d2)) by (apply (holding_perm (dst :: src :: l)); [constructor|done]).
  destruct (release_held src (dst :: l) (c3, d2) K3' (slot_exists _ _ _ (Hst3 _ _ Hsrc))) as (c4 & E4 & K4 & Hv4 & Hst4 & _).
  cbn [fst snd] in *. rewrite E4, bind_Ok.
  destruct (release_held dst l (c4, d2) K4 (slot_exists _ _ _ (Hst4 _ _ (Hst3 _ _ Hs2)))) as (c5 & E5 & K5 & Hv5 & Hst5 & _).
  cbn [fst snd] in *. rewrite E5, bind_Ok, u8_small by lia.
  assert (Hs5 : slot_is (c5, d2) t bn).
  { apply Hst5, Hst4, Hst3, Hst2; [by apply list_elem_of_further|]. by apply Hst1. }
  assert (Hv : forall k, view (c5, d2) k = put (view s) (t_block_num i (m bn), m (bn + 1 + i)) k).
  { intros k. rewrite Hv5, Hv4, Hv3, !Hv2. unfold put. cbn [fst snd]. rewrite (Hag (bn + 1 + i)) by (unfold area; lia). done. }
  destruct (IH (i + 1) (c5, d2) K5 Hs5) as (s6 & -> & K6 & Hs6 & Hv6); [lia..| | |].
  { intros k Hk. rewrite Hv. unfold put. cbn [fst snd]. destruct (Z.eqb_spec k (t_block_num i (m bn))) as [->|]; [by destruct Hd|by apply Hag]. }
  { fold n. by replace (n - (i + 1)) with (n - i - 1) by lia. }
  exists s6. split; [done|]. split; [done|]. split; [done|]. intros k. rewrite Hv6, puts_cons. fold n.
  replace (n - (i + 1)) with (n - i - 1) by lia. by apply puts_ext.
Qed.
Lemma validate_bound x : validate_transaction_header x = true -> t_num_blocks x <= 32.
Proof.
  unfold validate_transaction_header. destruct (negb _); [done|]. destruct (_ =? _); [done|].
  destruct (Z.ltb_spec MAX_JOURNAL_BLOCKS (t_num_blocks x)); [done|]. unfold MAX_JOURNAL_BLOCKS in *. lia.
Qed.

(** The fields of the header that replay reads. *)
Definition header_for (h : list Z) (head tail : Z) : Prop :=
  h_start_block h = js + 1 /\ h_num_blocks h = nb /\ h_head h = head /\ h_tail h = tail.

(** What replay does to one committed transaction. *)
Lemma replay_one bn t (m : disk) (s : BlockCache * D) :
  holding [t] s -> slot_is s t bn -> js < bn -> (forall k, area k -> view s k = m k) ->
  validate_transaction_header (m bn) = true -> 0 <= t_num_blocks (m bn) ->
  bn + t_num_blocks (m bn) + 1 <= js + nb -> outside (records m bn) -> t_state (m bn) = TXN_COMMITTED ->
  exists s' r, ('(s, ok) ← verify_commit_record (bn + 1 + t_num_blocks (m bn)) (u32 (t_sequence (m bn))) s;
      if negb ok then Ok (s, Skipped)
      else
        '(s, ok) ← verify_transaction_checksums bn t s;
        if negb ok then Ok (s, Skipped)
        else s ← apply_transaction_blocks bn t s; Ok (s, Replayed)) = Ok (s', r) /\
    holding [t] s' /\ slot_is s' t bn /\ (forall k, view s' k = puts (effect m bn) (view s) k).
Proof.
  intros K Hs Hbn Hag Hv Hn Hle Ho Hst. assert (Hn32 := validate_bound _ Hv).
  assert (Hin : t ∈ [t]) by apply list_elem_of_here. set (n := t_num_blocks (m bn)) in *.
  unfold verify_commit_record. destruct (with_read_ok (bn + 1 + n) [t] s K) as (s1 & -> & K1 & Hv1 & Hs1 & _); [cbn; lia|].
  rewrite !bind_Ok. assert (Hs1' := Hs1 t bn Hin Hs). rewrite (Hag (bn + 1 + n)) by (unfold area; lia).
  unfold effect, checks. rewrite Hst. fold n. change (TXN_COMMITTED =? TXN_COMMITTED) with true. cbn [andb].
  destruct ((c_magic (m (bn + 1 + n)) =? JOURNAL_MAGIC) && (c_sequence (m (bn + 1 + n)) =? u32 (t_sequence (m bn)))); cbn [negb andb].
  2:{ by exists s1, Skipped. }
  assert (Hag1 : forall k, area k -> view s1 k = m k) by (intros k Hk; rewrite Hv1; by apply Hag).
  assert (Hmb : view s1 bn = m bn) by (apply Hag1; unfold area; lia).
  unfold verify_transaction_checksums.
  destruct (verify_loop_ok 256 0 bn t [t] s1 K1) as (s2 & -> & K2 & Hs2 & Hv2);
    [cbn; lia|done|done|lia|rewrite Hmb; fold n; lia..|].
  rewrite bind_Ok, Hmb. fold n. rewrite Z.sub_0_r.
  assert (Ef : forallb (fun i => checksum (view s1 (bn + 1 + i)) =? t_checksum i (m bn)) (seqZ 0 n) =
               forallb (fun i => checksum (m (bn + 1 + i)) =? t_checksum i (m bn)) (seqZ 0 n)).
  { assert (Hall : forall i, i ∈ seqZ 0 n -> view s1 (bn + 1 + i) = m (bn + 1 + i)).
    { intros i Hi%elem_of_seqZ. apply Hag1. unfold area. lia. }
    revert Hall. generalize (seqZ 0 n). intros q Hall. induction q as [|i q IH]; [done|]. cbn [forallb].
    rewrite IH by (intros; apply Hall; by apply list_elem_of_further). by rewrite Hall by apply list_elem_of_here. }
  rewrite Ef. destruct (forallb (fun i => checksum (m (bn + 1 + i)) =? t_checksum i (m bn)) (seqZ 0 n)); cbn [negb].
  2:{ exists s2, Skipped. do 3 (split; [done|]). intros k. cbn. by rewrite Hv2. }
  unfold apply_transaction_blocks.
  destruct (apply_loop_ok 256 0 bn t [t] m s2 K2) as (s3 & -> & K3 & Hs3 & Hv3);
    [cbn; lia|done|done|lia|fold n; lia..| | |].
  { intros k Hk. rewrite Hv2. by apply Hag1. }
  { fold n. by rewrite Z.sub_0_r. }
  rewrite bind_Ok. exists s3, Replayed. do 3 (split; [done|]). intros k. rewrite Hv3. fold n. rewrite Z.sub_0_r.
  apply puts_ext. by rewrite Hv2.
Qed.

Lemma replay_loop_ok fuel pos tail effs m j (s : BlockCache * D) r0 k0 head :
  chain m tail pos effs -> holding [] s -> 0 <= pos -> tail <= nb -> header_for (header_ j) head tail ->
  (forall k, area k -> view s k = m k) -> (Z.to_nat (tail - pos) < fuel)%nat ->
  exists s' r k, replay_loop fuel pos r0 k0 j s = Ok (s', r, k) /\ holding [] s' /\
    forall n, view s' n = puts effs (view s) n.
Proof.
  intros C. revert fuel s r0 k0. induction C as [|pos effs Hv Hn Hle Ho C IH]; intros fuel s r0 k0 K Hp Ht Hh Hag Hf;
    destruct Hh as (Hh1 & Hh2 & Hh3 & Hh4).
  - destruct fuel as [|fuel]; [lia|]. cbn [replay_loop]. rewrite Hh4, Z.eqb_refl. cbn. by eexists s, _, _.
  - destruct fuel as [|fuel]; [lia|]. cbn [replay_loop]. rewrite Hh4, Hh2, Hh1.
    destruct (Z.eqb_spec pos tail); [lia|]. destruct (Z.ltb_spec pos nb); [|lia]. cbn [negb andb]. cbv zeta.
    rewrite (u64_small (js + 1 + pos)) by lia. set (bn := js + 1 + pos) in *. assert (Hn32 := validate_bound _ Hv).
    destruct (fetch_ok false bn [] s K ltac:(cbn; lia)) as ([c1 d1] & t & b & E & G & K1 & Hs1 & _ & _).
    cbn [fetch_block] in E. rewrite E, bind_Ok.
    assert (Hag1 : forall k, area k -> view (c1, d1) k = m k) by (intros k Hk; rewrite (g_view _ _ _ _ _ G); by apply Hag).
    assert (Hmb : view (c1, d1) bn = m bn) by (apply Hag1; unfold area; lia).
    rewrite (buffer_ok _ _ _ _ K1 Hs1), bind_Ok, Hmb, Hv. cbn [negb]. rewrite (u64_small (bn + 1 + t_num_blocks (m bn))) by lia.
    assert (Hone : exists s2 r, (if t_state (m bn) =? TXN_COMMITTED then
          '(s, ok) ← verify_commit_record (bn + 1 + t_num_blocks (m bn)) (u32 (t_sequence (m bn))) (c1, d1);
          if negb ok then Ok (s, Skipped)
          else
            '(s, ok) ← verify_transaction_checksums bn t s;
            if negb ok then Ok (s, Skipped)
            else s ← apply_transaction_blocks bn t s; Ok (s, Replayed)
        else Ok ((c1, d1), Passed)) = Ok (s2, r) /\ holding [t] s2 /\ slot_is s2 t bn /\
        (forall k, view s2 k = puts (effect m bn) (view s) k)).
    { destruct (Z.eqb_spec (t_state (m bn)) TXN_COMMITTED) as [Hst|Hst].
      - destruct (replay_one bn t m (c1, d1) K1 Hs1 ltac:(lia) Hag1 Hv Hn ltac:(lia) Ho Hst) as (s2 & r & Es & K2 & Hs2 & Hv2).
        exists s2, r. do 3 (split; [done|]). intros k. rewrite Hv2. apply puts_ext, (g_view _ _ _ _ _ G).
      - exists (c1, d1), Passed. do 3 (split; [done|]). intros k. unfold effect.
        destruct (Z.eqb_spec (t_state (m bn)) TXN_COMMITTED); [done|]. apply (g_view _ _ _ _ _ G). }
    destruct Hone as (s2 & r & -> & K2 & Hs2 & Hv2). rewrite bind_Ok, (buffer_ok _ _ _ _ K2 Hs2), bind_Ok.
    assert (Hag2 : forall k, area k -> view s2 k = m k).
    { intros k Hk. rewrite Hv2, outside_puts; [by apply Hag|by apply effect_outside|done]. }
    rewrite (Hag2 bn) by (unfold area; lia). rewrite (u64_small (pos + (t_num_blocks (m bn) + 2))) by lia.
    replace (pos + (t_num_blocks (m bn) + 2)) with (pos + t_num_blocks (m bn) + 2) by lia.
    destruct (release_held t [] s2 K2 (slot_exists _ _ _ Hs2)) as (c3 & -> & K3 & Hv3 & _). rewrite bind_Ok.
    assert (Hrec : forall r1 k1, exists s' r k, replay_loop fuel (pos + t_num_blocks (m bn) + 2) r1 k1 j (c3, s2.2) = Ok (s', r, k) /\
      holding [] s' /\ forall n, view s' n = puts (effect m bn ++ effs) (view s) n).
    { intros r1 k1. destruct (IH fuel (c3, s2.2) r1 k1 K3) as (s4 & r4 & k4 & E4 & K4 & Hv4); [lia|done|done| |lia|].
      - intros k Hk. rewrite Hv3. by apply Hag2.
      - exists s4, r4, k4. split; [done|]. split; [done|]. intros n'. rewrite Hv4, puts_app. apply puts_ext. by rewrite Hv3. }
    destruct r; apply Hrec.
Qed.

Lemma replay_ok tail effs m j (s : BlockCache * D) head :
  chain m tail head effs -> holding [] s -> 0 <= head -> tail <= nb -> header_for (header_ j) head tail ->
  enabled_ j = true -> journal_start_ j = js -> length (header_ j) = Z.to_nat BLOCK_SIZE ->
  (forall k, area k -> view s k = m k) ->
  exists j' s', replay j s = Ok (j', s', true) /\ holding [] s' /\
    forall n, n <> js -> view s' n = puts effs (view s) n.
Proof.
  intros C K Hp Ht Hh He Hj Hl Hag. unfold replay. rewrite He. cbn [negb]. assert (Hh' := Hh). destruct Hh' as (_ & H2 & H3 & _).
  rewrite H2, H3. assert (Hle := chain_le _ _ _ _ C).
  destruct (replay_loop_ok (S (Z.to_nat nb)) head tail effs m j s 0 0 head C K Hp Ht Hh Hag ltac:(lia)) as (s1 & r & k & -> & K1 & Hv1).
  rewrite bind_Ok. destruct ((0 <? r) || (0 <? k)).
  2:{ exists j, s1. split; [done|]. split; [done|]. intros; apply Hv1. }
  destruct (sync_calm [] s1 K1) as (s2 & -> & K2 & _ & Hv2 & _). rewrite bind_Ok. unfold write_header.
  set (j' := set_h_tail 0 (set_h_head 0 j)).
  destruct (with_write_ok false true (journal_start_ j') (fun _ => header_ j') [] s2 K2) as (s3 & -> & K3 & Hv3 & _ & _); [cbn; lia| |].
  { intros _ _. cbn [j' header_ set_h_tail set_h_head set_header]. by rewrite !length_st. }
  rewrite bind_Ok. exists j', s3. split; [done|]. split; [done|]. intros n Hn. rewrite Hv3.
  change (journal_start_ j') with (journal_start_ j). rewrite Hj. destruct (Z.eqb_spec n js); [done|]. by rewrite Hv2, Hv1.
Qed.
(** ** The blocks a commit writes *)

Lemma length_put_records i bl x : length (put_records i bl x) = length x.
Proof. revert i x. induction bl as [|[n d] bl IH]; intros i x; cbn [put_records]; [done|]. by rewrite IH, !length_st. Qed.

Lemma length_put_descriptor now t x : length (put_descriptor now t x) = length x.
Proof. unfold put_descriptor. cbv zeta. by rewrite length_put_records, !length_st. Qed.

Lemma put_records_below i bl x n off :
  (off + n <= 24 + 16 * i)%nat -> ld n off (put_records i bl x) = ld n off x.
Proof.
  revert i x. induction bl as [|[b d] bl IH]; intros i x H; cbn [put_records]; [done|].
  rewrite IH by lia. rewrite !ld_st_other by lia. done.
Qed.

Lemma put_records_at i bl x k b d :
  bl !! k = Some (b, d) -> (24 + 16 * (i + length bl) <= length x)%nat ->
  ld 8 (24 + 16 * (i + k)) (put_records i bl x) = b mod 256 ^ 8 /\
  ld 4 (32 + 16 * (i + k)) (put_records i bl x) = checksum d mod 256 ^ 4.
Proof.
  revert i x k. induction bl as [|[b' d'] bl IH]; intros i x k H Hl; [done|]. cbn [put_records]. cbn [length] in Hl.
  destruct k as [|k].
  - cbn in H. simplify_eq. rewrite Nat.add_0_r. rewrite !put_records_below by lia. split.
    + rewrite ld_st_other by lia. rewrite ld_st_same by lia. done.
    + rewrite ld_st_same by (rewrite length_st; lia). done.
  - cbn in H. rewrite <- (Nat.add_succ_comm i k). apply IH; [done|]. rewrite !length_st. lia.
Qed.

(** The fields of a descriptor, before and after it is marked committed. *)
Lemma descriptor_fields now t x :
  length x = Z.to_nat BLOCK_SIZE -> 0 <= num_blocks t <= 32 -> in_width 64 (sequence t) ->
  let d := st 1 4 TXN_COMMITTED (put_descriptor now t x) in
  t_magic d = JOURNAL_MAGIC /\ t_state d = TXN_COMMITTED /\ t_num_blocks d = num_blocks t /\ t_sequence d = sequence t.
Proof.
  intros Hx Hn Hs d. change (Z.to_nat BLOCK_SIZE) with (Z.to_nat 4096) in Hx.
  assert (Hl : length (put_descriptor now t x) = Z.to_nat 4096) by (by rewrite length_put_descriptor).
  unfold d, t_magic, t_state, t_num_blocks, t_sequence.
  rewrite ld_st_same by (rewrite Hl; lia). rewrite !(ld_st_other _ _ 1 4) by lia. unfold put_descriptor. cbv zeta.
  rewrite !put_records_below by lia. unfold in_width in Hs. split; [|split; [done|split]].
  - rewrite !ld_st_other by lia. rewrite ld_st_same by lia. done.
  - rewrite !(ld_st_other 1 5) by lia. rewrite ld_st_same by (rewrite !length_st; lia). apply Z.mod_small. cbn. lia.
  - rewrite !(ld_st_other 8 8) by lia. rewrite ld_st_same by (rewrite !length_st; lia). apply Z.mod_small. cbn. lia.
Qed.

Lemma descriptor_record now t x i b d :
  length x = Z.to_nat BLOCK_SIZE -> 0 <= num_blocks t <= 32 -> 0 <= i ->
  logged t !! Z.to_nat i = Some (b, d) -> in_width 64 b -> in_width 32 (checksum d) ->
  t_block_num i (st 1 4 TXN_COMMITTED (put_descriptor now t x)) = b /\
  t_checksum i (st 1 4 TXN_COMMITTED (put_descriptor now t x)) = checksum d.
Proof.
  intros Hx Hn Hi Hl Hb Hd. change (Z.to_nat BLOCK_SIZE) with (Z.to_nat 4096) in Hx.
  assert (Hlen : (length (logged t) <= 32)%nat) by (unfold logged; rewrite length_take; lia).
  unfold t_block_num, t_checksum. rewrite !(ld_st_other _ _ 1 4) by lia. unfold put_descriptor. cbv zeta.
  destruct (put_records_at 0 (logged t) (st 8 16 now (st 8 8 (sequence t) (st 1 5 (num_blocks t) (st 1 4 TXN_ACTIVE (st 4 0 JOURNAL_MAGIC x)))))
    (Z.to_nat i) b d Hl) as [E1 E2]; [rewrite !length_st; lia|].
  rewrite !Nat.add_0_l in E1, E2. rewrite E1, E2. unfold in_width in *.
  split; apply Z.mod_small; [change (256 ^ 8) with (2 ^ 64)|change (256 ^ 4) with (2 ^ 32)]; lia.
Qed.

Lemma commit_fields seq x :
  length x = Z.to_nat BLOCK_SIZE -> in_width 64 seq ->
  c_magic (put_commit seq x) = JOURNAL_MAGIC /\ c_sequence (put_commit seq x) = seq.
Proof.
  intros Hx Hs. change (Z.to_nat BLOCK_SIZE) with (Z.to_nat 4096) in Hx. unfold c_magic, c_sequence, put_commit. cbv zeta.
  rewrite !(ld_st_other _ _ 4 16) by lia. split.
  - rewrite ld_st_other by lia. rewrite ld_st_same by lia. done.
  - rewrite ld_st_same by (rewrite length_st; lia). apply Z.mod_small. unfold in_width in Hs. cbn. lia.
Qed.

(** The transaction being committed. *)
Record txn_ok (t : Transaction) : Prop := {
  x_active : active t = true;
  x_num : 0 < num_blocks t <= 32;
  x_blocks : length (blocks t) = 32%nat;
  x_tdata : length (tdata t) = 32%nat;
  x_seq : 0 <= sequence t < 2 ^ 32;
  x_logged : forall b d, (b, d) ∈ logged t -> in_width 64 b /\ ~ area b /\ length d = Z.to_nat BLOCK_SIZE /\ is_bytes d
}.

Lemma logged_length t : txn_ok t -> Z.of_nat (length (logged t)) = num_blocks t.
Proof.
  intros H. unfold logged. rewrite length_take, length_zip_with, (x_blocks _ H), (x_tdata _ H). assert (Hn := x_num _ H). lia.
Qed.

(** A disk that holds the blocks of the transaction replays exactly the logged
    writes. *)
Lemma committed_effect now t x0 c0 m bn :
  txn_ok t -> length x0 = Z.to_nat BLOCK_SIZE -> length c0 = Z.to_nat BLOCK_SIZE ->
  m bn = st 1 4 TXN_COMMITTED (put_descriptor now t x0) ->
  (forall i b d, 0 <= i -> logged t !! Z.to_nat i = Some (b, d) -> m (bn + 1 + i) = d) ->
  m (bn + 1 + num_blocks t) = put_commit (sequence t) c0 ->
  validate_transaction_header (m bn) = true /\ t_num_blocks (m bn) = num_blocks t /\
  records m bn = logged t /\ effect m bn = logged t.
Proof.
  intros T Hx Hc Hm Hd Hcm. assert (Hn := x_num _ T). assert (Hs := x_seq _ T).
  destruct (descriptor_fields now t x0 Hx ltac:(lia)) as (F1 & F2 & F3 & F4); [unfold in_width; lia|]. cbv zeta in *.
  rewrite <- Hm in F1, F2, F3, F4. assert (Hll := logged_length t T).
  assert (Hlk : forall i, 0 <= i < num_blocks t -> exists b d, logged t !! Z.to_nat i = Some (b, d)).
  { intros i Hi. destruct (lookup_lt_is_Some_2 (logged t) (Z.to_nat i)) as [[b d] H]; [lia|]. eauto. }
  assert (Hrec : forall i b d, 0 <= i -> logged t !! Z.to_nat i = Some (b, d) ->
    t_block_num i (m bn) = b /\ t_checksum i (m bn) = checksum d).
  { intros i b d Hi Hl. destruct (x_logged _ T b d) as (Hb & _ & _ & Hby); [by apply list_elem_of_lookup_2 in Hl|].
    rewrite Hm. apply (descriptor_record now t x0 i b d); [done|lia|done..|].
    apply Crc32Spec.lxor_width; [lia| |apply Crc32Spec.FFFF_width]. apply Crc32Spec.update_width; [apply Crc32Spec.FFFF_width|done]. }
  assert (Hr : records m bn = logged t).
  { unfold records. rewrite F3. apply list_eq. intros k. rewrite list_lookup_fmap.
    destruct (decide (k < length (logged t))%nat) as [Hk|Hk].
    - rewrite lookup_seqZ_lt by lia. cbn [fmap option_fmap option_map]. destruct (Hlk (Z.of_nat k)) as (b & d & Hb); [lia|].
      rewrite Z.add_0_l. destruct (Hrec (Z.of_nat k) b d ltac:(lia) Hb) as [-> _]. rewrite (Hd (Z.of_nat k) b d ltac:(lia) Hb).
      by rewrite Nat2Z.id in Hb.
    - rewrite lookup_seqZ_ge by lia. cbn. symmetry. apply lookup_ge_None. lia. }
  split; [|split; [done|split; [done|]]].
  - unfold validate_transaction_header. rewrite F1, F2, F3. cbn. unfold MAX_JOURNAL_BLOCKS.
    destruct (Z.ltb_spec 32 (num_blocks t)); [lia|done].
  - unfold effect, checks. rewrite F2, F3, F4, Hcm, Hr.
    destruct (commit_fields (sequence t) c0 Hc) as [-> ->]; [unfold in_width; lia|].
    rewrite u32_small, !Z.eqb_refl by lia. cbn [andb]. rewrite (proj2 (forallb_forall _ _)); [done|].
    intros i Hi%list_elem_of_In%elem_of_seqZ. destruct (Hlk i) as (b & d & Hb); [lia|].
    destruct (Hrec i b d ltac:(lia) Hb) as [_ ->]. rewrite (Hd i b d ltac:(lia) Hb). apply Z.eqb_refl.
Qed.
(** ** What commit writes, in order *)

(** The data blocks, from block [n] on. *)
Fixpoint data_writes (n : Z) (bl : list (Z * list Z)) : list (Z * list Z) :=
  match bl with
  | [] => []
  | (_, d) :: bl => (n, d) :: data_writes (n + 1) bl
  end.

Lemma data_writes_keys n bl k : k ∈ (data_writes n bl).*1 -> n <= k < n + Z.of_nat (length bl).
Proof.
  revert n. induction bl as [|[b d] bl IH]; intros n; cbn; [by intros []%not_elem_of_nil|].
  intros [->|H%IH]%elem_of_cons; lia.
Qed.

Lemma data_writes_at n bl m i b d :
  0 <= i -> bl !! Z.to_nat i = Some (b, d) -> puts (data_writes n bl) m (n + i) = d.
Proof.
  revert n i m. induction bl as [|[b' d'] bl IH]; intros n i m Hi Hl; [done|]. cbn [data_writes]. rewrite puts_cons.
  destruct (decide (i = 0)) as [->|Hne].
  - change (Some (b', d') = Some (b, d)) in Hl. injection Hl as -> ->. rewrite Z.add_0_r, puts_other; [unfold put; cbn [fst snd]; by rewrite Z.eqb_refl|].
    intros H%data_writes_keys. lia.
  - replace (n + i) with (n + 1 + (i - 1)) by lia. apply IH; [lia|].
    replace (Z.to_nat i) with (S (Z.to_nat (i - 1))) in Hl by lia. done.
Qed.

Lemma clean_write n f (s : BlockCache * D) b :
  holding [] s -> clean s.1 -> (forall x, length x = Z.to_nat BLOCK_SIZE -> length (f x) = Z.to_nat BLOCK_SIZE) ->
  exists s', with_write b true n f s = Ok (s', true) /\ holding [] s' /\ clean s'.1 /\
    history s'.2 = history s.2 ++ [(n, f (contents s.2 n))] /\
    (forall k, contents s'.2 k = put (contents s.2) (n, f (contents s.2 n)) k).
Proof.
  intros K Hc Hf. destruct (with_write_ok b true n f [] s K ltac:(cbn; lia) Hf) as (s' & E & K' & Hv & _ & Hw).
  destruct (Hw eq_refl Hc) as [Hc' Hh]. exists s'. split; [done|]. split; [done|]. split; [done|].
  assert (V := clean_view s (k_inv _ _ K) Hc). rewrite V in Hh. split; [done|]. intros k.
  rewrite <- (clean_view s' (k_inv _ _ K') Hc'), Hv, !V. done.
Qed.

(** The writes among [l] to the journal. *)
Definition in_area (l : list (Z * list Z)) : list (Z * list Z) := filter (fun w => js <= w.1 <= js + nb) l.

Lemma puts_in_area l m k : area k -> puts l m k = puts (in_area l) m k.
Proof.
  intros Hk. revert m. induction l as [|w l IH]; intros m; [done|]. unfold in_area. rewrite filter_cons, puts_cons.
  destruct (decide (js <= w.1 <= js + nb)) as [|Hn]; [rewrite puts_cons; apply IH|].
  rewrite IH. apply puts_ext. unfold put. destruct (Z.eqb_spec k w.1); [subst; by destruct Hn|done].
Qed.

Lemma in_area_none l : Forall (fun w => ~ area w.1) l -> in_area l = [].
Proof. induction 1 as [|w l Hw _ IH]; [done|]. unfold in_area. rewrite filter_cons_False; done. Qed.

(** Nobody holds a block, the journal is written through, and [m] is what the
    cache shows outside the journal. *)
Definition quiet (m : disk) (s : BlockCache * D) : Prop :=
  holding [] s /\ clean_on area s.1 /\ forall k, ~ area k -> view s k = m k.

(** [traced m s s' jw]: from [s] to [s'] the journal writes [jw] go to the disk
    in this order, between them only blocks outside the journal, with the
    contents [m] the cache showed for them. *)
Definition traced (m : disk) (s s' : BlockCache * D) (jw : list (Z * list Z)) : Prop :=
  quiet m s' /\ (forall k, view s' k = puts jw (view s) k) /\
  exists ws, history s'.2 = history s.2 ++ ws /\ in_area ws = jw /\ Forall (fun w => area w.1 \/ w.2 = m w.1) ws /\
    last ws = last jw.

Lemma traced_refl m s : quiet m s -> traced m s s [].
Proof. intros Q. do 2 (split; [done|]). exists []. by rewrite app_nil_r. Qed.

Lemma traced_trans m s1 s2 s3 l1 l2 : traced m s1 s2 l1 -> traced m s2 s3 l2 -> traced m s1 s3 (l1 ++ l2).
Proof.
  intros (_ & Hv1 & ws1 & Hh1 & Hi1 & Hm1 & Hl1) (Q & Hv2 & ws2 & Hh2 & Hi2 & Hm2 & Hl2).
  split; [done|]. split; [intros k; rewrite Hv2, puts_app; apply puts_ext, Hv1|].
  exists (ws1 ++ ws2). split; [by rewrite Hh2, Hh1, <- app_assoc|]. split; [unfold in_area in *; by rewrite filter_app, Hi1, Hi2|].
  split; [by apply Forall_app|]. rewrite !last_app, Hl2. by destruct (last l2).
Qed.

Lemma area_write m n f (s : BlockCache * D) b :
  quiet m s -> area n -> (forall x, length x = Z.to_nat BLOCK_SIZE -> length (f x) = Z.to_nat BLOCK_SIZE) ->
  exists s', with_write b true n f s = Ok (s', true) /\ traced m s s' [(n, f (view s n))].
Proof.
  intros (K & Hc & Hm) Hn Hf. destruct (with_write_gen b true n f [] s K ltac:(cbn; lia) Hf) as (s' & E & K' & Hv & _ & _ & HP).
  destruct (HP area Hc (or_introl eq_refl)) as [Hc' Hev]. destruct (Hev eq_refl) as (ev & Hw & Hh).
  exists s'. split; [done|]. split; [split; [done|split; [done|]]|split; [done|]].
  { intros k Hk. rewrite Hv. destruct (Z.eqb_spec k n); [by subst|auto]. }
  exists (ev ++ [(n, f (view s n))]). split; [done|]. split; [|split; [|by rewrite last_snoc]].
  - unfold in_area. rewrite filter_app. fold (in_area ev). rewrite in_area_none.
    + by rewrite filter_cons_True.
    + eapply Forall_impl; [exact Hw|]. by intros w [? _].
  - apply Forall_app. split; [|apply Forall_singleton; by left]. eapply Forall_impl; [exact Hw|]. intros w [Ho ->]. right. by apply Hm.
Qed.

Lemma write_data_ok m n bl (s : BlockCache * D) :
  quiet m s -> Forall (fun w => length w.2 = Z.to_nat BLOCK_SIZE) bl ->
  js <= n -> n + Z.of_nat (length bl) <= js + nb + 1 ->
  exists s', write_data n bl s = Ok (s', true) /\ traced m s s' (data_writes n bl).
Proof.
  revert n s. induction bl as [|[b d] bl IH]; intros n s Q Hl Hn Hlt; cbn [write_data data_writes].
  - exists s. split; [done|]. by apply traced_refl.
  - apply Forall_cons in Hl as [Hd Hl]. cbn in Hd. cbn [length] in Hlt.
    destruct (area_write m n (fun _ => d) s true Q) as (s1 & -> & T1); [unfold area; lia|done|].
    rewrite bind_Ok. cbn [negb]. rewrite u64_small by lia.
    destruct (IH (n + 1) s1 (proj1 T1) Hl) as (s2 & -> & T2); [lia..|].
    exists s2. split; [done|]. exact (traced_trans _ _ _ _ _ _ T1 T2).
Qed.

(** The header block on disk, or in memory. *)
Record header_ok (h : list Z) (head tail : Z) : Prop := {
  ho_len : length h = Z.to_nat BLOCK_SIZE;
  ho_magic : h_magic h = JOURNAL_MAGIC;
  ho_version : h_version h = 1;
  ho_for : header_for h head tail
}.

Lemma header_tail h head tail v :
  header_ok h head tail -> in_width 64 v -> header_ok (st 8 40 v h) head v.
Proof.
  intros [Hl Hm Hv (H1 & H2 & H3 & H4)] Hw. change (Z.to_nat BLOCK_SIZE) with (Z.to_nat 4096) in Hl.
  unfold h_magic, h_version in *. constructor.
  - by rewrite length_st.
  - unfold h_magic. by rewrite ld_st_other by lia.
  - unfold h_version. by rewrite ld_st_other by lia.
  - unfold header_for, h_start_block, h_num_blocks, h_head, h_tail in *. rewrite !(ld_st_other _ _ 8 40) by lia.
    rewrite ld_st_same by lia. do 3 (split; [done|]). apply Z.mod_small. exact Hw.
Qed.

(** The writes of a commit at position [tail]. *)
Definition commit_writes (now tail : Z) (j : Journal) (m : disk) : list (Z * list Z) :=
  let t := current_txn_ j in
  let bn := js + 1 + tail in
  let desc := put_descriptor now t (m bn) in
  let cb := bn + 1 + num_blocks t in
  let body := (bn, desc) :: data_writes (bn + 1) (logged t) in
  body ++ [(cb, put_commit (sequence t) (m cb)); (bn, st 1 4 TXN_COMMITTED desc);
           (js, st 8 40 (tail + num_blocks t + 2) (st 8 40 (tail + num_blocks t + 1) (header_ j)))].

(** The journal and the disk before a commit with enough room: [effs] is what
    replaying the journal would write. *)
Record ready (j : Journal) (s : BlockCache * D) (head tail : Z) (effs : list (Z * list Z)) : Prop := {
  y_calm : holding [] s;
  y_clean : clean_on area s.1;
  y_enabled : enabled_ j = true;
  y_start : journal_start_ j = js;
  y_header : header_ok (header_ j) head tail;
  y_disk : header_ok (contents s.2 js) head tail;
  y_head : 0 <= head;
  y_chain : chain (contents s.2) tail head effs;
  y_txn : txn_ok (current_txn_ j);
  y_room : tail + num_blocks (current_txn_ j) + 2 <= nb
}.

Lemma commit_trace now j s head tail effs :
  ready j s head tail effs ->
  exists j' s', commit now true j s = Ok (j', s', true) /\
    traced (view s) s s' (commit_writes now tail j (contents s.2)).
Proof.
  intros R. destruct R as [K Hc He Hs Hh Hdk Hp C T Hroom]. set (t := current_txn_ j) in *. set (m := view s).
  assert (Hn := x_num _ T). assert (Hll := logged_length t T). assert (Htl := chain_le _ _ _ _ C).
  assert (Q : quiet m s) by done. assert (Vc : forall k, area k -> view s k = contents s.2 k).
  { intros k. apply clean_on_view; [apply (k_inv _ _ K)|done]. }
  destruct (ho_for _ _ _ Hh) as (H1 & H2 & H3 & H4).
  unfold commit. fold t. rewrite (x_active _ T). cbn [negb orb]. destruct (Z.eqb_spec (num_blocks t) 0); [lia|].
  unfold write_transaction. fold t. cbn [negb orb]. destruct (Z.eqb_spec (num_blocks t) 0); [lia|]. cbv zeta.
  rewrite H2, H4, u64_small by lia. destruct (Z.ltb_spec (nb - tail) (num_blocks t + 2)); [lia|]. rewrite bind_Ok, H4, H1.
  rewrite (u64_small (js + 1 + tail)) by lia. set (bn := js + 1 + tail).
  destruct (area_write m bn (put_descriptor now t) s true Q) as (s1 & -> & T1); [unfold area; lia|by intros x Hx; rewrite length_put_descriptor|].
  rewrite bind_Ok. cbn [negb]. rewrite (u64_small (bn + 1)) by (subst bn; lia).
  destruct (write_data_ok m (bn + 1) (logged t) s1 (proj1 T1)) as (s2 & -> & T2); [|subst bn; lia..|].
  { apply Forall_forall. intros [b d] Hw. cbn. by apply (x_logged _ T b d). }
  assert (T12 := traced_trans _ _ _ _ _ _ T1 T2). cbn [app] in T12.
  rewrite bind_Ok. cbn [negb]. rewrite bind_Ok. cbn [negb]. rewrite u64_small by lia.
  unfold write_commit. cbn [current_txn_ set_h_tail set_header header_]. fold t. cbv zeta.
  assert (Hh' := header_tail (header_ j) head tail (tail + (num_blocks t + 1)) Hh ltac:(unfold in_width; lia)).
  destruct (ho_for _ _ _ Hh') as (H1' & _ & _ & H4'). rewrite H1', H4'.
  set (cb := bn + 1 + num_blocks t). replace (js + 1 + (tail + (num_blocks t + 1))) with cb by (subst cb bn; lia).
  rewrite (u64_small cb), (u64_small (tail + (num_blocks t + 1) + 1)) by (subst cb bn; lia).
  destruct (area_write m cb (put_commit (sequence t)) s2 true (proj1 T12)) as (s3 & -> & T3).
  { unfold area. subst cb bn. lia. }
  { intros x Hx. unfold put_commit. cbv zeta. by rewrite !length_st. }
  assert (T13 := traced_trans _ _ _ _ _ _ T12 T3). rewrite bind_Ok. cbn [negb].
  assert (Hh'' := header_tail _ head _ (tail + num_blocks t + 2) Hh' ltac:(unfold in_width; lia)).
  replace (tail + (num_blocks t + 1) + 1) with (tail + num_blocks t + 2) by lia.
  cbn [current_txn_ set_h_tail set_header header_].
  destruct (ho_for _ _ _ Hh'') as (H1'' & _). rewrite H1'', (u64_small (js + 1 + tail)) by lia. fold bn.
  destruct (area_write m bn (st 1 4 TXN_COMMITTED) s3 true (proj1 T13)) as (s4 & E4 & T4).
  { unfold area. subst bn. lia. }
  { intros x Hx. by rewrite length_st. }
  assert (T14 := traced_trans _ _ _ _ _ _ T13 T4).
  change (fun x => st 1 4 TXN_COMMITTED x) with (st 1 4 TXN_COMMITTED). rewrite E4, !bind_Ok. cbn [negb].
  unfold write_header. cbn [journal_start_ header_ set_header set_h_tail]. rewrite Hs.
  set (hdr := st 8 40 (tail + num_blocks t + 2) (st 8 40 (tail + (num_blocks t + 1)) (header_ j))) in *.
  destruct (area_write m js (fun _ => hdr) s4 false (proj1 T14)) as (s5 & -> & T5).
  { unfold area. lia. }
  { intros _ _. apply (ho_len _ _ _ Hh''). }
  assert (T15 := traced_trans _ _ _ _ _ _ T14 T5). rewrite bind_Ok. eexists _, s5. split; [done|].
  assert (Ecb : view s2 cb = contents s.2 cb).
  { rewrite (proj1 (proj2 T12)), puts_cons, puts_other by (intros Hk%data_writes_keys; subst cb bn; lia).
    unfold put. cbn [fst snd]. destruct (Z.eqb_spec cb bn); [subst cb; lia|]. apply Vc. unfold area. subst cb bn. lia. }
  assert (Ebn : view s3 bn = put_descriptor now t (contents s.2 bn)).
  { rewrite (proj1 (proj2 T3)). unfold puts. cbn [foldl]. unfold put at 1. cbn [fst snd].
    destruct (Z.eqb_spec bn cb); [subst cb; lia|]. rewrite (proj1 (proj2 T12)), puts_cons, puts_other by (intros Hk%data_writes_keys; lia).
    unfold put. cbn [fst snd]. rewrite Z.eqb_refl. by rewrite Vc by (unfold area; subst bn; lia). }
  rewrite Ecb, Ebn in T15. rewrite (Vc bn) in T15 by (unfold area; subst bn; lia).
  unfold commit_writes. cbv zeta. fold t bn cb. subst hdr. rewrite <- Z.add_assoc in T15. revert T15.
  rewrite <- !app_assoc. cbn [app]. by rewrite !Z.add_assoc.
Qed.
(** ** Recovery *)

Lemma recover_ok j0 (d : D) head tail effs :
  nb = 15 -> reliable d -> header_ok (contents d js) head tail -> 0 <= head -> tail <= nb ->
  chain (contents d) tail head effs ->
  exists j s, mount_journal js j0 (Cache.init blank, d) = Ok (j, s, true) /\ holding [] s /\
    forall n, n <> js -> view s n = puts effs (contents d) n.
Proof.
  intros E15 Hr Hh Hp Ht C. destruct (init_calm blank d eq_refl blank_sized Hr) as (K & Hc & Hv).
  unfold mount_journal, Journal.init. change (JOURNAL_BLOCKS <? 4) with false. cbv zeta.
  destruct (with_read_ok js [] (Cache.init blank, d) K ltac:(cbn; lia)) as (s1 & -> & K1 & Hv1 & _). rewrite bind_Ok, Hv.
  rewrite (ho_magic _ _ _ Hh), (ho_version _ _ _ Hh), Z.eqb_refl. change (1 =? 1) with true. cbn [andb]. rewrite !bind_Ok. cbn [negb].
  set (j1 := mkJournal _ _ _ true _).
  destruct (replay_ok tail effs (contents d) j1 s1 head C K1 Hp Ht) as (j2 & s2 & E2 & K2 & Hv2); [|done|done| | |].
  { apply (ho_for _ _ _ Hh). }
  { apply (ho_len _ _ _ Hh). }
  { intros k _. by rewrite Hv1, Hv. }
  exists j2, s2. rewrite bind_Ok. split; [exact E2|]. split; [done|]. intros n Hn. rewrite Hv2 by done. apply puts_ext. by rewrite Hv1, Hv.
Qed.

(** The disk after some of the writes of a commit. *)
Lemma commit_prefix now tail j m ws' :
  ws' `prefix_of` commit_writes now tail j m ->
  ws' = commit_writes now tail j m \/
  (txn_ok (current_txn_ j) -> forall k, k ∈ ws'.*1 -> js + 1 + tail <= k <= js + 1 + tail + num_blocks (current_txn_ j) + 1).
Proof.
  intros [rest E]. unfold commit_writes in *. cbv zeta in *. set (t := current_txn_ j) in *. set (bn := js + 1 + tail) in *.
  destruct rest as [|w rest _] using rev_ind; [left; by rewrite app_nil_r in E|]. right. intros T k Hk.
  rewrite app_assoc in E. match type of E with ?b ++ [?x; ?y; ?z] = _ => change (b ++ [x; y; z]) with (b ++ ([x; y] ++ [z])) in E end.
  rewrite app_assoc in E. apply app_inj_tail in E as [E _].
  assert (Hin : k ∈ (ws' ++ rest).*1) by (rewrite fmap_app, elem_of_app; by left).
  rewrite <- E, !fmap_app, !elem_of_app in Hin. assert (Hll := logged_length t T). assert (Hn := x_num _ T).
  destruct Hin as [Hin|Hin].
  - rewrite fmap_cons in Hin. apply elem_of_cons in Hin as [->|Hin%data_writes_keys]; cbn [fst]; lia.
  - rewrite !fmap_cons, !elem_of_cons in Hin. cbn [fst] in Hin. destruct Hin as [->|[->|[]%not_elem_of_nil]]; lia.
Qed.

Lemma commit_keys now tail j m k :
  txn_ok (current_txn_ j) -> k ∈ (commit_writes now tail j m).*1 ->
  k = js \/ js + 1 + tail <= k <= js + 1 + tail + num_blocks (current_txn_ j) + 1.
Proof.
  intros T Hk. assert (Hn := x_num _ T). assert (Hll := logged_length _ T). unfold commit_writes in Hk. cbv zeta in Hk.
  rewrite fmap_app, elem_of_app in Hk. destruct Hk as [Hk|Hk].
  - rewrite fmap_cons in Hk. apply elem_of_cons in Hk as [->|Hk%data_writes_keys]; cbn [fst]; lia.
  - rewrite !fmap_cons, !elem_of_cons in Hk. cbn [fst] in Hk. destruct Hk as [->|[->|[->|[]%not_elem_of_nil]]]; lia.
Qed.

(** What the blocks of the journal hold once all writes of a commit are done. *)
Lemma commit_blocks now tail j m :
  txn_ok (current_txn_ j) -> 0 <= tail ->
  let t := current_txn_ j in
  let bn := js + 1 + tail in
  let m' := puts (commit_writes now tail j m) m in
  m' js = st 8 40 (tail + num_blocks t + 2) (st 8 40 (tail + num_blocks t + 1) (header_ j)) /\
  m' bn = st 1 4 TXN_COMMITTED (put_descriptor now t (m bn)) /\
  m' (bn + 1 + num_blocks t) = put_commit (sequence t) (m (bn + 1 + num_blocks t)) /\
  (forall i b d, 0 <= i -> logged t !! Z.to_nat i = Some (b, d) -> m' (bn + 1 + i) = d).
Proof.
  intros T Ht t bn m'. assert (Hn := x_num _ T). assert (Hll := logged_length _ T). fold t in Hn, Hll.
  assert (E : forall k, m' k = puts (commit_writes now tail j m) m k) by done. clearbody m'.
  unfold commit_writes in E. cbv zeta in E. fold t bn in E. rewrite puts_app, !puts_cons in E.
  cbn [puts foldl] in E. unfold put at 1 2 3 in E. cbn [fst snd] in E. split; [|split; [|split]].
  - rewrite E. by rewrite Z.eqb_refl.
  - rewrite E. destruct (Z.eqb_spec bn js); [subst bn; lia|]. by rewrite Z.eqb_refl.
  - rewrite E. destruct (Z.eqb_spec (bn + 1 + num_blocks t) js); [subst bn; lia|].
    destruct (Z.eqb_spec (bn + 1 + num_blocks t) bn); [lia|]. by rewrite Z.eqb_refl.
  - intros i b d Hi Hl. assert (Hlt := lookup_lt_Some _ _ _ Hl). rewrite E.
    destruct (Z.eqb_spec (bn + 1 + i) js); [subst bn; lia|]. destruct (Z.eqb_spec (bn + 1 + i) bn); [lia|].
    destruct (Z.eqb_spec (bn + 1 + i) (bn + 1 + num_blocks t)); [lia|]. by apply (data_writes_at (bn + 1) (logged t) _ i b d).
Qed.

(** A disk that holds all writes of the commit in its journal replays the
    transaction, whatever the other blocks have become. *)
Lemma committed_mount now j s head tail effs (dc : D) j0 :
  nb = 15 -> ready j s head tail effs -> reliable dc ->
  (forall k, area k -> contents dc k = puts (commit_writes now tail j (contents s.2)) (contents s.2) k) ->
  exists j2 s2, mount_journal js j0 (Cache.init blank, dc) = Ok (j2, s2, true) /\
    forall k, ~ area k -> view s2 k = puts (logged (current_txn_ j)) (puts effs (contents dc)) k.
Proof.
  intros E15 R Hr Hdc. destruct R as [K Hc He Hs Hh Hdk Hp C T Hroom]. set (t := current_txn_ j) in *.
  set (m := contents s.2) in *. assert (Hn := x_num _ T). assert (Htl := chain_le _ _ _ _ C). assert (Hll := logged_length t T).
  destruct (commit_blocks now tail j m T ltac:(lia)) as (B1 & B2 & B3 & B4). fold t in B1, B2, B3, B4. cbv zeta in *.
  set (bn := js + 1 + tail) in *. rewrite <- Hdc in B1, B2, B3 by (unfold area; subst bn; lia).
  assert (B4' : forall i b d, 0 <= i -> logged t !! Z.to_nat i = Some (b, d) -> contents dc (bn + 1 + i) = d).
  { intros i b d Hi Hl. assert (Hlt := lookup_lt_Some _ _ _ Hl). rewrite Hdc by (unfold area; subst bn; lia). by apply (B4 i b). }
  destruct (committed_effect now t (m bn) (m (bn + 1 + num_blocks t)) (contents dc) bn T
    (contents_length _ _) (contents_length _ _) B2 B4' B3) as (V1 & V2 & V3 & V4).
  assert (C0 : chain (contents dc) tail head effs).
  { apply (chain_agree m); [done| |done]. intros k Hk. rewrite Hdc by (unfold area; lia). symmetry. apply puts_other.
    intros [?|?]%commit_keys; [lia|lia|done]. }
  assert (C1 : chain (contents dc) (tail + num_blocks t + 2) head (effs ++ logged t)).
  { rewrite <- V4. apply (chain_snoc _ tail); [done|fold bn; by rewrite V2|done|fold bn; rewrite V2; lia|]. fold bn. rewrite V3.
    apply Forall_forall. intros [b d] Hw. by apply (x_logged _ T b d). }
  destruct (recover_ok j0 dc head (tail + num_blocks t + 2) (effs ++ logged t)) as (j2 & s2 & E2 & _ & Hv2); try done.
  { rewrite B1. apply (header_tail _ head (tail + num_blocks t + 1)); [|unfold in_width; lia].
    apply (header_tail _ head tail); [done|unfold in_width; lia]. }
  exists j2, s2. split; [done|]. intros k Hk. rewrite Hv2, puts_app by (intros ->; apply Hk; unfold area; lia). done.
Qed.

(** The last write is one of the journal: a proper prefix of the writes misses
    some write of the journal. *)
Lemma partial_prefix ws ws' jw :
  in_area ws = jw -> jw <> [] -> last ws = last jw -> ws' `prefix_of` ws -> ws' <> ws ->
  in_area ws' `prefix_of` jw /\ in_area ws' <> jw.
Proof.
  intros Hi Hj Hl [rest ->] Hne. unfold in_area in *. rewrite filter_app in Hi. split; [by exists (filter (fun w => js <= w.1 <= js + nb) rest)|].
  intros E. rewrite E in Hi. destruct rest as [|w rest _] using rev_ind; [by rewrite app_nil_r in Hne|].
  rewrite app_assoc, last_snoc in Hl. symmetry in Hl. apply last_Some_elem_of in Hl as Hw. rewrite <- E in Hw.
  apply list_elem_of_filter in Hw as [Hw _]. rewrite filter_app, (filter_cons_True _ w []) in Hi by done.
  apply (f_equal length) in Hi. rewrite !length_app in Hi. cbn [length] in Hi. lia.
Qed.

(** After some of the writes the journal still replays what it did before. *)
Lemma partial_mount now j s head tail effs ws' (dc : D) j0 :
  nb = 15 -> ready j s head tail effs -> in_area ws' `prefix_of` commit_writes now tail j (contents s.2) ->
  in_area ws' <> commit_writes now tail j (contents s.2) ->
  reliable dc -> (forall k, contents dc k = puts ws' (contents s.2) k) ->
  exists j2 s2, mount_journal js j0 (Cache.init blank, dc) = Ok (j2, s2, true) /\
    forall k, ~ area k -> view s2 k = puts effs (contents dc) k.
Proof.
  intros E15 R Hpre Hne Hr Hdc. destruct R as [K Hc He Hs Hh Hdk Hp C T Hroom]. set (m := contents s.2) in *.
  assert (Htl := chain_le _ _ _ _ C). destruct (commit_prefix _ _ _ _ _ Hpre) as [?|Hk]; [done|]. specialize (Hk T).
  assert (Hn := x_num _ T). assert (Hbelow : forall k, js <= k < js + 1 + tail -> contents dc k = m k).
  { intros k Hkr. rewrite Hdc, puts_in_area by (unfold area; lia). apply puts_other. intros Hin%Hk. lia. }
  destruct (recover_ok j0 dc head tail effs) as (j2 & s2 & E2 & _ & Hv2); [done|done| |done|lia| |].
  { by rewrite Hbelow by lia. }
  { apply (chain_agree m); [done| |done]. intros k Hkr. symmetry. apply Hbelow. lia. }
  exists j2, s2. split; [done|]. intros k Hnk. apply Hv2. intros ->. apply Hnk. unfold area. lia.
Qed.

(** ** A fresh journal *)

Lemma header_st h head tail off n v :
  header_ok h head tail -> (8 <= off)%nat -> (off + n <= 16)%nat -> header_ok (st n off v h) head tail.
Proof.
  intros [Hl Hm Hv (H1 & H2 & H3 & H4)] Ho Hn. unfold h_magic, h_version in *. constructor.
  - by rewrite length_st.
  - unfold h_magic. by rewrite ld_st_other by lia.
  - unfold h_version. by rewrite ld_st_other by lia.
  - unfold header_for, h_start_block, h_num_blocks, h_head, h_tail in *. rewrite !(ld_st_other _ _ n off) by lia. done.
Qed.

(** Initialising the journal on a disk that has none. *)
Lemma init_fresh j0 (s : BlockCache * D) :
  nb = 15 -> holding [] s -> clean s.1 -> length (header_ j0) = Z.to_nat BLOCK_SIZE ->
  h_magic (contents s.2 js) <> JOURNAL_MAGIC ->
  exists j s', Journal.init js JOURNAL_BLOCKS j0 s = Ok (j, s', true) /\ holding [] s' /\ clean s'.1 /\
    enabled_ j = true /\ journal_start_ j = js /\ header_ok (header_ j) 0 0 /\ h_sequence (header_ j) = 0 /\
    header_ok (contents s'.2 js) 0 0 /\ (forall k, k <> js -> contents s'.2 k = contents s.2 k) /\
    active (current_txn_ j) = false /\ blocks (current_txn_ j) = blocks (current_txn_ j0) /\
    tdata (current_txn_ j) = tdata (current_txn_ j0).
Proof.
  intros E15 K Hc Hl Hm. unfold Journal.init. change (JOURNAL_BLOCKS <? 4) with false. cbv zeta.
  destruct (with_read_ok js [] s K ltac:(cbn; lia)) as (s1 & -> & K1 & _ & _ & Hcl). rewrite bind_Ok.
  rewrite (clean_view s (k_inv _ _ K) Hc). destruct (Z.eqb_spec (h_magic (contents s.2 js)) JOURNAL_MAGIC); [done|]. cbn [andb].
  destruct (Hcl Hc) as [Ed Hc1]. cbn [header_]. rewrite u64_small by lia. set (h := st 8 40 0 _).
  assert (Hh : header_ok h 0 0 /\ h_sequence h = 0).
  { change (Z.to_nat BLOCK_SIZE) with (Z.to_nat 4096) in Hl. split; [constructor|].
    - subst h. by rewrite !length_st.
    - subst h. unfold h_magic. rewrite !ld_st_other by lia. rewrite ld_st_same by lia. done.
    - subst h. unfold h_version. rewrite !(ld_st_other 4 4) by lia. rewrite ld_st_same by (rewrite length_st; lia). done.
    - subst h. unfold header_for, h_start_block, h_num_blocks, h_head, h_tail.
      rewrite !(ld_st_other 8 16), !(ld_st_other 8 24), !(ld_st_other 8 32) by lia.
      rewrite !ld_st_same by (rewrite ?length_st; lia). split; [apply Z.mod_small; lia|]. rewrite E15. done.
    - subst h. unfold h_sequence. rewrite !(ld_st_other 8 8) by lia. rewrite ld_st_same by (rewrite !length_st; lia). done. }
  destruct Hh as [Hh Hq]. unfold write_header. cbn [journal_start_ set_header header_].
  destruct (clean_write js (fun _ => h) s1 false K1 Hc1) as (s2 & -> & K2 & Hc2 & _ & Hv2); [intros _ _; apply (ho_len _ _ _ Hh)|].
  rewrite !bind_Ok. cbn [negb]. eexists _, s2. split; [reflexivity|]. rewrite Ed in Hv2. split; [done|]. split; [done|].
  do 2 (split; [done|]). split; [done|]. split; [done|]. split.
  { rewrite Hv2. unfold put. cbn [fst snd]. by rewrite Z.eqb_refl. }
  split; [|done]. intros k Hk. rewrite Hv2. unfold put. cbn [fst snd]. by destruct (Z.eqb_spec k js).
Qed.

(** The first transaction, with one block logged. *)
Lemma first_ready j0 (s : BlockCache * D) b d :
  nb = 15 -> holding [] s -> clean s.1 -> length (header_ j0) = Z.to_nat BLOCK_SIZE ->
  length (blocks (current_txn_ j0)) = 32%nat -> length (tdata (current_txn_ j0)) = 32%nat ->
  h_magic (contents s.2 js) <> JOURNAL_MAGIC ->
  in_width 64 b -> ~ area b -> length d = Z.to_nat BLOCK_SIZE -> is_bytes d ->
  exists j1 s1 j2, Journal.init js JOURNAL_BLOCKS j0 s = Ok (j1, s1, true) /\
    (begin j1).2 = true /\ log_block true b d (begin j1).1 = Ok (j2, true) /\
    ready j2 s1 0 0 [] /\ clean s1.1 /\ logged (current_txn_ j2) = [(b, d)] /\ (forall k, k <> js -> contents s1.2 k = contents s.2 k).
Proof.
  intros E15 K Hc Hl Hlb Hlt Hm Hb Ho Hd Hby.
  destruct (init_fresh j0 s E15 K Hc Hl Hm) as (j & s' & E & K' & Hc' & Hen & Hst & Hh & Hq & Hdk & Hv & Ha & Eb & Et).
  exists j, s'. unfold begin. rewrite Hen, Ha. cbn [negb fst snd]. unfold log_block. cbn [current_txn_ set_txn negb orb active num_blocks].
  change (MAX_JOURNAL_BLOCKS <=? 0) with false. cbn [tdata blocks]. rewrite Eb, Et. cbn [Z.to_nat take find_logged].
  destruct (blocks (current_txn_ j0)) as [|b0 bl]; [done|]. destruct (tdata (current_txn_ j0)) as [|d0 dl]; [done|].
  rewrite !wr_Z by (cbn [length]; lia). rewrite !bind_Ok. cbn [Z.to_nat insert list_insert].
  eexists. split; [done|]. do 2 (split; [reflexivity|]). split; [|done]. constructor; try done.
  - by apply clean_clean_on.
  - cbn [header_ set_txn set_h_sequence set_header]. apply header_st; [done|lia|lia].
  - constructor.
  - cbn [current_txn_ set_txn]. constructor; cbn [active num_blocks blocks tdata sequence].
    + done.
    + split; by vm_compute.
    + done.
    + done.
    + rewrite Hq. lia.
    + intros b' d' H. change (logged _) with [(b, d)] in H. apply list_elem_of_singleton in H. by simplify_eq.
  - rewrite E15. by vm_compute.
Qed.

(** A change of another block that stays in the cache leaves the journal
    ready. *)
Lemma dirty_ready j (s : BlockCache * D) head tail effs n x :
  ready j s head tail effs -> clean s.1 -> ~ area n -> length x = Z.to_nat BLOCK_SIZE ->
  exists s', with_write true false n (fun _ => x) s = Ok (s', true) /\ ready j s' head tail effs /\
    s'.2 = s.2 /\ view s' n = x.
Proof.
  intros R Hcl Hn Hx. destruct R as [K Hc He Hs Hh Hdk Hp C T Hroom].
  destruct (with_write_gen true false n (fun _ => x) [] s K ltac:(cbn; lia) ltac:(done)) as (s' & E & K' & Hv & _ & Hd & HP).
  exists s'. split; [done|]. assert (Ed : s'.2 = s.2) by (by apply Hd). split; [|split; [done|by rewrite Hv, Z.eqb_refl]].
  constructor; rewrite ?Ed; try done. apply HP; [done|by right].
Qed.

End cache.
End journal.

(** ** Claims *)

(** (C20) A commit that fits in what is left of the journal is atomic, whatever
    else the cache holds.  Let the journal be enabled and consistent with the
    disk, with none of its own blocks dirty in the cache, and let the open
    transaction with its two bookkeeping blocks fit behind the tail, so that
    [write_transaction] does not reclaim the journal.  The other blocks of the
    cache may be dirty.  Let [ws] be the writes that [commit] sends to the disk;
    those to other blocks are evictions, which write what the cache shows for
    the block.  Whatever part of [ws], in order, has reached the disk when the
    machine stops, mounting the disk with an empty cache succeeds and shows,
    outside the journal, the blocks of that disk with the transactions
    committed before ([effs]) applied and, exactly if all writes were done, all
    logged blocks replaced as well; never a part of the logged blocks. *)
Theorem commit_atomic {D} `{!BlockDevice D, !DeviceLaws D} js now j (s : BlockCache * D) head tail effs :
  0 <= js -> js + 16 < 2 ^ 64 -> ready js 15 j s head tail effs ->
  exists ws j' s', commit now true j s = Ok (j', s', true) /\ history s'.2 = history s.2 ++ ws /\
    (forall k x, (k, x) ∈ ws -> ~ area js 15 k -> x = view s k) /\
    forall ws' (dc : D) j0, ws' `prefix_of` ws -> reliable dc -> (forall k, contents dc k = puts ws' (contents s.2) k) ->
    exists j2 s2, mount_journal js j0 (Cache.init blank, dc) = Ok (j2, s2, true) /\
      forall k, ~ area js 15 k ->
        view s2 k = puts (if decide (ws' = ws) then effs ++ logged (current_txn_ j) else effs) (contents dc) k.
Proof.
  intros Hjs Hfit R. destruct (commit_trace js 15 ltac:(lia) ltac:(lia) ltac:(lia) now j s head tail effs R)
    as (j' & s' & E & _ & _ & ws & Hh & Hi & Hm & Hl).
  exists ws, j', s'. do 2 (split; [done|]). split.
  { intros k x Hk Ho. rewrite Forall_forall in Hm. by destruct (Hm _ Hk). }
  intros ws' dc j0 Hpre Hr Hdc. destruct (decide (ws' = ws)) as [->|Hne].
  - destruct (committed_mount js 15 ltac:(lia) ltac:(lia) ltac:(lia) now j s head tail effs dc j0 eq_refl R Hr) as (j2 & s2 & E2 & Hv).
    { intros k Hk. by rewrite Hdc, (puts_in_area js 15), Hi. }
    exists j2, s2. split; [done|]. intros k Hk. by rewrite Hv, puts_app.
  - destruct (partial_prefix js 15 ws ws' _ Hi) as [Hp1 Hp2]; [by destruct (commit_writes _ _ _ _ _) eqn:Ew|done..|].
    by apply (partial_mount js 15 ltac:(lia) ltac:(lia) ltac:(lia) now j s head tail effs ws' dc j0).
Qed.

(** A ready journal on a disk in memory, with a change of block 9 that is only
    in the cache. *)
Lemma ram_ready :
  exists j (s : BlockCache * RamDisk), ready 100 15 j s 0 0 [] /\ logged (current_txn_ j) = [(5, replicate (Z.to_nat BLOCK_SIZE) 7)] /\
    view s 9 = replicate (Z.to_nat BLOCK_SIZE) 3 /\ contents s.2 9 = replicate (Z.to_nat BLOCK_SIZE) 0.
Proof.
  assert (Hr : reliable (mkRam ∅ [])) by done.
  destruct (init_calm blank (mkRam ∅ []) eq_refl blank_sized Hr) as (K & Hc & Hv).
  destruct (first_ready 100 15 ltac:(lia) ltac:(lia) blank_journal (Cache.init blank, mkRam ∅ []) 5 (replicate (Z.to_nat BLOCK_SIZE) 7))
    as (j1 & s1 & j2 & _ & _ & _ & R & Hc1 & L & Hk); try done.
  - unfold area. lia.
  - apply Forall_replicate. unfold in_width. lia.
  - destruct (dirty_ready 100 15 j2 s1 0 0 [] 9 (replicate (Z.to_nat BLOCK_SIZE) 3) R Hc1) as (s2 & _ & R2 & Ed & Hv2).
    { unfold area. lia. }
    { apply length_replicate. }
    exists j2, s2. do 3 (split; [done|]). rewrite Ed, Hk by lia. by vm_compute.
Qed.

Lemma commit_atomic_witness :
  exists j (s : BlockCache * RamDisk),
    (ready 100 15 j s 0 0 [] /\ logged (current_txn_ j) = [(5, replicate (Z.to_nat BLOCK_SIZE) 7)] /\
     view s 9 = replicate (Z.to_nat BLOCK_SIZE) 3 /\ contents s.2 9 = replicate (Z.to_nat BLOCK_SIZE) 0) /\
  exists ws j' s', commit 9 true j s = Ok (j', s', true) /\ history s'.2 = history s.2 ++ ws /\
    forall ws' (dc : RamDisk) j0, ws' `prefix_of` ws -> (forall k, contents dc k = puts ws' (contents s.2) k) ->
    exists j2 s2, mount_journal 100 j0 (Cache.init blank, dc) = Ok (j2, s2, true) /\
      view s2 5 = if decide (ws' = ws) then replicate (Z.to_nat BLOCK_SIZE) 7 else contents dc 5.
Proof.
  destruct ram_ready as (j & s & R & L & V9 & C9). exists j, s. split; [done|].
  destruct (commit_atomic 100 9 j s 0 0 [] ltac:(lia) ltac:(lia) R) as (ws & j' & s' & E & Hh & _ & H).
  exists ws, j', s'. do 2 (split; [done|]). intros ws' dc j0 Hpre Hdc. assert (Hr : reliable dc) by done.
  destruct (H ws' dc j0 Hpre Hr Hdc) as (j2 & s2 & E2 & Hv).
  exists j2, s2. split; [done|]. rewrite Hv by (unfold area; lia). rewrite L. by destruct (decide (ws' = ws)).
Defined.

(** A committed transaction stays in the journal: nothing removes it but the
    next mount, which writes its blocks again.  However the file system has
    changed a logged block on the disk since the commit, mounting the disk
    puts the logged data back. *)
Theorem replay_reverts {D} `{!BlockDevice D, !DeviceLaws D} js now j (s : BlockCache * D) head tail effs l1 b x l2 :
  0 <= js -> js + 16 < 2 ^ 64 -> ready js 15 j s head tail effs ->
  logged (current_txn_ j) = l1 ++ (b, x) :: l2 -> b ∉ l2.*1 ->
  exists j' s', commit now true j s = Ok (j', s', true) /\
    forall (d : D) j0, reliable d -> (forall k, area js 15 k -> contents d k = contents s'.2 k) ->
    exists j2 s2, mount_journal js j0 (Cache.init blank, d) = Ok (j2, s2, true) /\ view s2 b = x.
Proof.
  intros Hjs Hfit R L Hl2. destruct (commit_trace js 15 ltac:(lia) ltac:(lia) ltac:(lia) now j s head tail effs R)
    as (j' & s' & E & (K' & Hc' & _) & Hv' & _).
  exists j', s'. split; [done|]. intros d j0 Hr Hd.
  destruct (committed_mount js 15 ltac:(lia) ltac:(lia) ltac:(lia) now j s head tail effs d j0 eq_refl R Hr) as (j2 & s2 & E2 & Hv).
  { intros k Hk. rewrite Hd, <- (clean_on_view _ s' k (k_inv _ _ K') Hc' Hk), Hv' by done. apply puts_ext.
    apply (clean_on_view (area js 15)); [apply (k_inv _ _ (y_calm _ _ _ _ _ _ _ R))|apply (y_clean _ _ _ _ _ _ _ R)|done]. }
  exists j2, s2. split; [done|]. rewrite Hv.
  - rewrite L. by apply puts_last.
  - destruct R as [_ _ _ _ _ _ _ _ T _]. apply (x_logged _ _ _ T b x). rewrite L, elem_of_app. right. apply list_elem_of_here.
Qed.

Lemma replay_reverts_witness :
  (exists j (s : BlockCache * RamDisk), ready 100 15 j s 0 0 [] /\ logged (current_txn_ j) = [(5, replicate (Z.to_nat BLOCK_SIZE) 7)]) /\
  exists j (s : BlockCache * RamDisk) j' s', commit 9 true j s = Ok (j', s', true) /\
    forall j0, exists j2 s2,
      mount_journal 100 j0 (Cache.init blank, (dev_write 5 (replicate (Z.to_nat BLOCK_SIZE) 8) s'.2).1) = Ok (j2, s2, true) /\
      view s2 5 = replicate (Z.to_nat BLOCK_SIZE) 7.
Proof.
  destruct ram_ready as (j & s & R & L & _). split; [by exists j, s|].
  destruct (replay_reverts 100 9 j s 0 0 [] [] 5 _ [] ltac:(lia) ltac:(lia) R L (not_elem_of_nil _)) as (j' & s' & E & H).
  exists j, s, j', s'. split; [done|]. intros j0. apply H; [done|]. intros k Hk.
  destruct (write_law s'.2 5 (replicate (Z.to_nat BLOCK_SIZE) 8) _ _ (surjective_pairing _)) as [Ho _]; [by rewrite length_replicate|].
  apply Ho. unfold area in Hk. lia.
Defined.

End JournalSpec.
