(* ===== verification/FsLayout.v ===== *)
(** * The on-disk structures of ViperFS

    Models [src/kernel/fs/viperfs/format.hpp].  The source reads and writes
    these structures by casting a pointer into a block; here a structure is a
    record, and a cast is its decoding from, or encoding to, the bytes at that
    place.  The class [Codec] states that the two are inverse. *)

From S2P Require Import Prelude Bytes.

Module FsLayout.
Import Bytes.

Definition VIPERFS_MAGIC : Z := 0x53465056.
Definition VIPERFS_VERSION : Z := 1.
Definition SUPERBLOCK_PRIMARY : Z := 0.
Definition SUPERBLOCK_CHECKSUM_OFFSET : Z := 168.
Definition BLOCK_SIZE : Z := 4096.
Definition INODE_SIZE : Z := 256.
Definition INODES_PER_BLOCK : Z := BLOCK_SIZE / INODE_SIZE.
Definition ROOT_INODE : Z := 2.

Definition TYPE_MASK : Z := 0xF000.
Definition TYPE_FILE : Z := 0x8000.
Definition TYPE_DIR : Z := 0x4000.
Definition TYPE_LINK : Z := 0xA000.
Definition PERM_READ : Z := 4.
Definition PERM_WRITE : Z := 2.
Definition PERM_EXEC : Z := 1.

Definition FT_UNKNOWN : Z := 0.
Definition FT_FILE : Z := 1.
Definition FT_DIR : Z := 2.
Definition FT_LINK : Z := 7.

Definition DIR_ENTRY_MIN_SIZE : Z := 12.
Definition MAX_NAME_LEN : Z := 255.

Record Superblock := mkSb {
  magic : Z; version : Z; block_size : Z; total_blocks : Z; free_blocks : Z; inode_count : Z;
  root_inode : Z; bitmap_start : Z; bitmap_blocks : Z; inode_table_start : Z; inode_table_blocks : Z;
  data_start : Z; uuid : list Z; label : list Z; checksum : Z; sb_reserved : list Z
}.

Record Inode := mkInode {
  inode_num : Z; mode : Z; uid : Z; gid : Z; size : Z; blocks : Z; atime : Z; mtime : Z; ctime : Z;
  direct : list Z; indirect : Z; double_indirect : Z; triple_indirect : Z; generation : Z; flags : Z;
  in_reserved : list Z
}.

Definition is_directory (i : Inode) : bool := Z.land (mode i) TYPE_MASK =? TYPE_DIR.
Definition is_file (i : Inode) : bool := Z.land (mode i) TYPE_MASK =? TYPE_FILE.
Definition is_symlink (i : Inode) : bool := Z.land (mode i) TYPE_MASK =? TYPE_LINK.

Definition mode_to_file_type (m : Z) : Z :=
  let t := Z.land m TYPE_MASK in
  if t =? TYPE_FILE then FT_FILE
  else if t =? TYPE_DIR then FT_DIR
  else if t =? TYPE_LINK then FT_LINK
  else FT_UNKNOWN.

(** The complement is taken of an [int]. *)
Definition dir_entry_size (name_len : Z) : Z :=
  u16 (Z.land (u64 (u64 (DIR_ENTRY_MIN_SIZE + name_len) + 7)) (u64 (Z.lnot 7))).

(** ** Fields in sequence *)

Fixpoint put_fields (ws : list nat) (vs : list Z) : list Z :=
  match ws, vs with
  | w :: ws, v :: vs => le_split w v ++ put_fields ws vs
  | _, _ => []
  end.

Fixpoint get_fields (ws : list nat) (bs : list Z) : list Z :=
  match ws with
  | [] => []
  | w :: ws => le_combine (take w bs) :: get_fields ws (drop w bs)
  end.

(** [v] is a value of a [w]-byte field. *)
Definition fits (w : nat) (v : Z) : Prop := 0 <= v < 256 ^ Z.of_nat w.

(** ** Codecs *)

(** Encodings of [n] bytes: [good] values survive the trip through the bytes,
    and [n] bytes survive the trip through the value. *)
Class Codec (A : Type) := {
  width : nat;
  good : A -> Prop;
  encode : A -> list Z;
  decode : list Z -> A;
  decode_encode a : good a -> decode (encode a) = a;
  encode_decode bs : is_bytes bs -> length bs = width -> encode (decode bs) = bs;
  decode_good bs : is_bytes bs -> length bs = width -> good (decode bs);
  encode_length a : good a -> length (encode a) = width;
  encode_bytes a : good a -> is_bytes (encode a)
}.

Definition inode_widths : list nat := [8; 4; 2; 2; 8; 8; 8; 8; 8]%nat ++ replicate 12 8%nat ++ [8; 8; 8; 8; 4]%nat.
Definition inode_fields (i : Inode) : list Z :=
  [inode_num i; mode i; uid i; gid i; size i; blocks i; atime i; mtime i; ctime i] ++ direct i ++
  [indirect i; double_indirect i; triple_indirect i; generation i; flags i].
Definition encode_inode (i : Inode) : list Z := put_fields inode_widths (inode_fields i) ++ in_reserved i.
Definition decode_inode (bs : list Z) : Inode :=
  let v := get_fields inode_widths bs in
  let f k := nth (Z.to_nat k) v 0 in
  mkInode (f 0) (f 1) (f 2) (f 3) (f 4) (f 5) (f 6) (f 7) (f 8) (take 12 (drop 9 v))
    (f 21) (f 22) (f 23) (f 24) (f 25) (drop 188 bs).

Definition sb_widths : list nat := [4; 4; 8; 8; 8; 8; 8; 8; 8; 8; 8; 8]%nat.
Definition sb_fields (s : Superblock) : list Z :=
  [magic s; version s; block_size s; total_blocks s; free_blocks s; inode_count s; root_inode s;
   bitmap_start s; bitmap_blocks s; inode_table_start s; inode_table_blocks s; data_start s].
Definition encode_sb (s : Superblock) : list Z :=
  put_fields sb_widths (sb_fields s) ++ uuid s ++ label s ++ le_split 4 (checksum s) ++ sb_reserved s.
Definition decode_sb (bs : list Z) : Superblock :=
  let v := get_fields sb_widths bs in
  let f k := nth (Z.to_nat k) v 0 in
  mkSb (f 0) (f 1) (f 2) (f 3) (f 4) (f 5) (f 6) (f 7) (f 8) (f 9) (f 10) (f 11)
    (take 16 (drop 88 bs)) (take 64 (drop 104 bs)) (ld 4 168 bs) (drop 172 bs).

(** ** Directory entries

    The header of the entry at [pos] of a buffer and its name; an access
    outside the buffer is undefined. *)

Definition field (n pos : Z) (buf : list Z) : res Z :=
  if (0 <=? pos) && (pos + n <=? Z.of_nat (length buf)) then Ok (ld (Z.to_nat n) (Z.to_nat pos) buf) else Ub.
Definition set_field (n pos v : Z) (buf : list Z) : res (list Z) :=
  if (0 <=? pos) && (pos + n <=? Z.of_nat (length buf)) then Ok (st (Z.to_nat n) (Z.to_nat pos) v buf) else Ub.

Definition e_inode (pos : Z) := field 8 pos.
Definition e_rec_len (pos : Z) := field 2 (pos + 8).
Definition e_name_len (pos : Z) := field 1 (pos + 10).
Definition e_file_type (pos : Z) := field 1 (pos + 11).
Definition e_name (pos : Z) (i : Z) := field 1 (pos + 12 + i).

Definition set_e_inode (pos : Z) := set_field 8 pos.
Definition set_e_rec_len (pos : Z) := set_field 2 (pos + 8).
Definition set_e_name_len (pos : Z) := set_field 1 (pos + 10).
Definition set_e_file_type (pos : Z) := set_field 1 (pos + 11).
Definition set_e_name (pos : Z) (i : Z) := set_field 1 (pos + 12 + i).

(** The loop that copies a name into an entry. *)
Fixpoint put_name (pos i : Z) (name : list Z) (buf : list Z) : res (list Z) :=
  match name with
  | [] => Ok buf
  | c :: name => buf ← set_e_name pos i c buf; put_name pos (i + 1) name buf
  end.

Definition put_entry (pos ino rec_len type : Z) (name : list Z) (buf : list Z) : res (list Z) :=
  buf ← set_e_inode pos ino buf;
  buf ← set_e_rec_len pos rec_len buf;
  buf ← set_e_name_len pos (u8 (Z.of_nat (length name))) buf;
  buf ← set_e_file_type pos type buf;
  put_name pos 0 name buf.

(** ** Round trips *)

Lemma split_combine l : is_bytes l -> le_split (length l) (le_combine l) = l.
Proof.
  induction 1 as [|b l Hb Hl IH]; [done|]. cbn [length le_split le_combine].
  assert (E1 : (b + 256 * le_combine l) mod 256 = b) by div_lia.
  assert (E2 : (b + 256 * le_combine l) / 256 = le_combine l) by div_lia.
  by rewrite E1, E2, IH.
Qed.

Lemma combine_split w v : fits w v -> le_combine (le_split w v) = v.
Proof. intros H. rewrite le_combine_split. by apply Z.mod_small. Qed.

Lemma length_put_fields ws vs : length ws = length vs -> length (put_fields ws vs) = sum_list ws.
Proof.
  revert vs. induction ws as [|w ws IH]; intros [|v vs] H; simplify_eq/=; [done|].
  rewrite length_app, length_le_split, IH; done.
Qed.

Lemma put_fields_bytes ws vs : is_bytes (put_fields ws vs).
Proof.
  revert vs. induction ws as [|w ws IH]; intros [|v vs]; try by constructor. cbn.
  apply Forall_app. split; [apply le_split_bytes|apply IH].
Qed.

Lemma length_get_fields ws bs : length (get_fields ws bs) = length ws.
Proof. revert bs. induction ws as [|w ws IH]; intros bs; cbn; [done|]. by rewrite IH. Qed.

Lemma get_put_fields ws vs rest : Forall2 fits ws vs -> get_fields ws (put_fields ws vs ++ rest) = vs.
Proof.
  induction 1 as [|w v ws vs H _ IH]; [done|]. cbn [get_fields put_fields]. rewrite <- app_assoc.
  rewrite take_app_length', drop_app_length' by (by rewrite length_le_split). by rewrite IH, combine_split.
Qed.

Lemma put_get_fields ws bs :
  is_bytes bs -> (sum_list ws <= length bs)%nat -> put_fields ws (get_fields ws bs) = take (sum_list ws) bs.
Proof.
  revert bs. induction ws as [|w ws IH]; intros bs Hb Hl; [done|]. cbn [put_fields get_fields sum_list] in *.
  change (sum_list_with id ws) with (sum_list ws) in *. cbn in Hl. rewrite IH by (rewrite ?length_drop; lia || by apply Forall_drop).
  assert (E : length (take w bs) = w) by (rewrite length_take; lia).
  rewrite <- E at 1. rewrite split_combine by by apply Forall_take. cbn [id]. by rewrite take_take_drop.
Qed.

Lemma get_fields_fit ws bs : is_bytes bs -> (sum_list ws <= length bs)%nat -> Forall2 fits ws (get_fields ws bs).
Proof.
  revert bs. induction ws as [|w ws IH]; intros bs Hb Hl; [constructor|]. cbn in Hl. constructor.
  - assert (E : length (take w bs) = w) by (rewrite length_take; lia).
    unfold fits. rewrite <- E at 3. by apply le_combine_range, Forall_take.
  - apply IH; [by apply Forall_drop|]. rewrite length_drop. change (sum_list_with id ws) with (sum_list ws) in Hl. lia.
Qed.

(** ** The codecs of the file system *)

Definition good_inode (i : Inode) : Prop :=
  length (direct i) = 12%nat /\ Forall2 fits inode_widths (inode_fields i) /\
  length (in_reserved i) = 68%nat /\ is_bytes (in_reserved i).

Definition good_sb (s : Superblock) : Prop :=
  Forall2 fits sb_widths (sb_fields s) /\ length (uuid s) = 16%nat /\ is_bytes (uuid s) /\
  length (label s) = 64%nat /\ is_bytes (label s) /\ fits 4 (checksum s) /\
  length (sb_reserved s) = 3924%nat /\ is_bytes (sb_reserved s).

Lemma length_inode_fields i : length (direct i) = 12%nat -> length (inode_fields i) = 26%nat.
Proof. intros H. unfold inode_fields. rewrite !length_app, H. done. Qed.

Lemma inode_fields_decode bs : inode_fields (decode_inode bs) = get_fields inode_widths bs.
Proof. done. Qed.

#[export] Program Instance inode_codec : Codec Inode := {|
  width := 256; good := good_inode; encode := encode_inode; decode := decode_inode |}.
Next Obligation.
  intros i (Hd & Hf & Hr & Hb). unfold decode_inode, encode_inode.
  rewrite (get_put_fields inode_widths) by done.
  rewrite drop_app_length' by (rewrite length_put_fields; [done|symmetry; by apply length_inode_fields]).
  destruct i as [? ? ? ? ? ? ? ? ? dd ? ? ? ? ? ?]. cbn in Hd.
  repeat (destruct dd as [|? dd]; [discriminate|]). destruct dd; [done|discriminate].
Qed.
Next Obligation.
  intros bs Hb Hl. cbn beta. unfold encode_inode. rewrite inode_fields_decode.
  rewrite put_get_fields by (done || rewrite Hl; vm_compute; lia). apply take_drop.
Qed.
Next Obligation.
  intros bs Hb Hl. cbn beta in *. split; [|split; [|split]].
  - cbn [direct decode_inode]. rewrite length_take, length_drop, length_get_fields. done.
  - rewrite inode_fields_decode. apply get_fields_fit; [done|]. rewrite Hl. vm_compute. lia.
  - cbn [in_reserved decode_inode]. rewrite length_drop, Hl. done.
  - by apply Forall_drop.
Qed.
Next Obligation.
  intros i (Hd & Hf & Hr & Hb). unfold encode_inode. rewrite length_app, Hr, length_put_fields; [done|].
  symmetry. by apply length_inode_fields.
Qed.
Next Obligation. intros i (Hd & Hf & Hr & Hb). apply Forall_app. split; [apply put_fields_bytes|done]. Qed.

Lemma length_sb_fields s : length (put_fields sb_widths (sb_fields s)) = 88%nat.
Proof. by rewrite length_put_fields. Qed.

Lemma cut_app {A} n m (l1 l2 l3 : list A) :
  length l1 = n -> length l2 = m -> take m (drop n (l1 ++ l2 ++ l3)) = l2.
Proof. intros <- <-. by rewrite drop_app_length, take_app_length. Qed.

#[export] Program Instance sb_codec : Codec Superblock := {|
  width := 4096; good := good_sb; encode := encode_sb; decode := decode_sb |}.
Next Obligation.
  intros s (Hf & Hu & _ & Hl & _ & Hc & Hr & _). unfold decode_sb, encode_sb. assert (L := length_sb_fields s).
  rewrite (get_put_fields sb_widths) by done. set (p := put_fields sb_widths (sb_fields s)) in *.
  rewrite (cut_app 88 16) by done. rewrite (app_assoc p), (cut_app 104 64) by (rewrite ?length_app; lia).
  assert (E : ld 4 168 ((p ++ uuid s) ++ label s ++ le_split 4 (checksum s) ++ sb_reserved s) = checksum s).
  { unfold ld. rewrite (app_assoc _ (label s)), (cut_app 168 4) by (rewrite ?length_app, ?length_le_split; lia).
    by apply combine_split. }
  rewrite E, (app_assoc _ (label s)), (app_assoc _ (le_split 4 _)).
  rewrite drop_app_length' by (rewrite !length_app, length_le_split; lia). by destruct s.
Qed.
Next Obligation.
  intros bs Hb Hl. cbn beta in *. unfold encode_sb. change (sb_fields (decode_sb bs)) with (get_fields sb_widths bs).
  rewrite put_get_fields by (done || rewrite Hl; vm_compute; lia). cbn [uuid label checksum sb_reserved decode_sb].
  assert (E : le_split 4 (ld 4 168 bs) = take 4 (drop 168 bs)).
  { unfold ld. assert (E : length (take 4 (drop 168 bs)) = 4%nat) by (rewrite length_take, length_drop; lia).
    rewrite <- E at 1. apply split_combine. by apply Forall_take, Forall_drop. }
  rewrite E. change 172%nat with (168 + 4)%nat. rewrite <- drop_drop, take_drop.
  change 168%nat with (104 + 64)%nat. rewrite <- drop_drop, take_drop.
  change 104%nat with (88 + 16)%nat. rewrite <- drop_drop, take_drop. apply take_drop.
Qed.
Next Obligation.
  intros bs Hb Hl. cbn beta in *. repeat split.
  1: change (sb_fields (decode_sb bs)) with (get_fields sb_widths bs); apply get_fields_fit; [done|rewrite Hl; vm_compute; lia].
  5, 6: apply ld_range; [done|lia].
  all: cbn [uuid label sb_reserved decode_sb]; rewrite ?length_take, ?length_drop; try lia.
  all: by (repeat apply Forall_take; apply Forall_drop).
Qed.
Next Obligation.
  intros s (Hf & Hu & _ & Hl & _ & Hc & Hr & _). unfold encode_sb.
  rewrite !length_app, length_sb_fields, Hu, Hl, Hr, length_le_split. done.
Qed.
Next Obligation.
  intros s (Hf & _ & Hu & _ & Hl & Hc & _ & Hr). unfold encode_sb. unfold is_bytes. rewrite !Forall_app.
  split; [apply put_fields_bytes|]. split; [done|]. split; [done|]. split; [apply le_split_bytes|done].
Qed.

Lemma good_inode_iff i :
  good_inode i <->
  (length (direct i) = 12%nat /\ Forall (fits 8) (direct i)) /\
  (fits 8 (inode_num i) /\ fits 4 (mode i) /\ fits 2 (uid i) /\ fits 2 (gid i)) /\
  (fits 8 (size i) /\ fits 8 (blocks i) /\ fits 8 (atime i) /\ fits 8 (mtime i) /\ fits 8 (ctime i)) /\
  (fits 8 (indirect i) /\ fits 8 (double_indirect i) /\ fits 8 (triple_indirect i)) /\
  (fits 8 (generation i) /\ fits 4 (flags i)) /\
  length (in_reserved i) = 68%nat /\ is_bytes (in_reserved i).
Proof.
  unfold good_inode, inode_widths, inode_fields. split.
  - intros (Hd & H1 & Hr & Hb). apply Forall2_app_inv in H1 as [H1 H2]; [|done]. apply Forall2_app_inv in H2 as [H2 H3]; [|by rewrite length_replicate].
    assert (Hf : Forall (fits 8) (direct i)).
    { apply Forall_lookup. intros k x Hx. apply (Forall2_lookup_r _ _ _ _ _ H2) in Hx as (w & Hw & Hx).
      by apply lookup_replicate in Hw as [-> _]. }
    repeat match goal with H : Forall2 _ (_ :: _) (_ :: _) |- _ => inversion H; clear H; subst end.
    naive_solver.
  - intros ((Hd & Hf) & (? & ? & ? & ?) & (? & ? & ? & ? & ?) & (? & ? & ?) & (? & ?) & Hr & Hb).
    split; [done|]. split; [|done]. apply Forall2_app; [repeat (apply List.Forall2_cons; [done|]); apply List.Forall2_nil|].
    apply Forall2_app; [|repeat (apply List.Forall2_cons; [done|]); apply List.Forall2_nil]. rewrite <- Hd. clear Hd. induction Hf; by constructor.
Qed.

(** ** The size of a directory entry *)

Lemma dir_entry_size_val n : 0 <= n < 256 -> dir_entry_size n = (n + 19) / 8 * 8.
Proof.
  intros H. unfold dir_entry_size, DIR_ENTRY_MIN_SIZE. rewrite !(u64_small (_ + _)) by (rewrite ?u64_small by lia; lia).
  rewrite (land_align_down 3) by lia. change (2 ^ 3) with 8. replace (12 + n + 7) with (n + 19) by lia.
  apply Z.mod_small. change (2 ^ 16) with 65536. div_lia.
Qed.

End FsLayout.
