(* ===== verification/ViperFs.v ===== *)
(** * The file system ViperFS: definitions

    Models [src/kernel/fs/viperfs/viperfs.cpp] and [viperfs.hpp] on top of the
    block cache, the journal and the on-disk structures.  The state holds the
    driver object, the block cache it uses with the device under it, the
    journal, and the cache of the system disk when the driver uses another one.
    An operation that changes the in-memory inode it is given returns the
    changed inode; pointers passed by callers are not null, and a name or
    buffer is the list of its bytes.  Every operation runs with the lock of the
    file system held by its caller or by itself, so operations do not
    interleave. *)

From S2P Require Import Prelude Bytes Crc32 Cache Journal FsLayout.

Module ViperFs.
Import Bytes FsLayout.

Definition INODE_CACHE_SIZE : Z := 32.
Definition INODE_HASH_SIZE : Z := 16.
Definition PTRS_PER_BLOCK : Z := BLOCK_SIZE / 8.

(** A cached inode is named by its index in [entries_]; the LRU list and the
    hash chains are lists of indices, head first. *)
Record CachedInode := mkCi { inode : Inode; refcount : Z; valid : bool; dirty : bool }.
Record InodeCache := mkIc {
  entries_ : list CachedInode; hash_ : list (list Z); lru_ : list Z; hits_ : Z; misses_ : Z; parent_ : bool
}.

Record ViperFS := mkFs {
  sb_ : Superblock; mounted_ : bool; sb_dirty_ : bool; flash_mode_ : bool; inode_cache_ : InodeCache
}.

(** ** State

    [own] is the cache that [get_cache()] refers to with its device.  [sys_] is
    the system disk's cache when it is another one ([cache_] is set), and
    nothing when they are the same.  [clock_] counts the questions put to the
    surroundings so far. *)
Record st (S G : Type) := mkSt {
  fs : ViperFS; own : S; clock_ : Z; journal_ : Journal.Journal; sys_ : option G
}.
Arguments mkSt {S G}.
Arguments fs {S G}.
Arguments own {S G}.
Arguments clock_ {S G}.
Arguments journal_ {S G}.
Arguments sys_ {S G}.

(** The surroundings: the reading of the millisecond timer, whether an inode
    buffer can be allocated, and the bytes an uninitialised array of a block's
    size holds, for each question. *)
Class Env := {
  get_ms : Z -> Z;
  inode_alloc : Z -> bool;
  stack_bytes : Z -> list Z
}.

Section state.
Context {S G : Type}.
Implicit Type s : st S G.
Definition set_fs f s := mkSt f (own s) (clock_ s) (journal_ s) (sys_ s).
Definition set_own {T} (o : T) s : st T G := mkSt (fs s) o (clock_ s) (journal_ s) (sys_ s).
Definition set_journal j s := mkSt (fs s) (own s) (clock_ s) j (sys_ s).
Definition set_sys (g : option G) s := mkSt (fs s) (own s) (clock_ s) (journal_ s) g.
Definition tick s := mkSt (fs s) (own s) (clock_ s + 1) (journal_ s) (sys_ s).
End state.

Definition with_sb (f : Superblock -> Superblock) (v : ViperFS) : ViperFS :=
  mkFs (f (sb_ v)) (mounted_ v) (sb_dirty_ v) (flash_mode_ v) (inode_cache_ v).
Definition set_mounted b (v : ViperFS) := mkFs (sb_ v) b (sb_dirty_ v) (flash_mode_ v) (inode_cache_ v).
Definition set_sb_dirty b (v : ViperFS) := mkFs (sb_ v) (mounted_ v) b (flash_mode_ v) (inode_cache_ v).
Definition set_flash_mode b (v : ViperFS) := mkFs (sb_ v) (mounted_ v) (sb_dirty_ v) b (inode_cache_ v).
Definition set_inode_cache c (v : ViperFS) := mkFs (sb_ v) (mounted_ v) (sb_dirty_ v) (flash_mode_ v) c.

Definition set_free_blocks n (s : Superblock) :=
  mkSb (magic s) (version s) (block_size s) (total_blocks s) n (inode_count s) (root_inode s) (bitmap_start s)
    (bitmap_blocks s) (inode_table_start s) (inode_table_blocks s) (data_start s) (uuid s) (label s) (checksum s) (sb_reserved s).
Definition set_checksum n (s : Superblock) :=
  mkSb (magic s) (version s) (block_size s) (total_blocks s) (free_blocks s) (inode_count s) (root_inode s) (bitmap_start s)
    (bitmap_blocks s) (inode_table_start s) (inode_table_blocks s) (data_start s) (uuid s) (label s) n (sb_reserved s).

Definition set_size n (i : Inode) := mkInode (inode_num i) (mode i) (uid i) (gid i) n (blocks i) (atime i) (mtime i) (ctime i)
  (direct i) (indirect i) (double_indirect i) (triple_indirect i) (generation i) (flags i) (in_reserved i).
Definition set_blocks n (i : Inode) := mkInode (inode_num i) (mode i) (uid i) (gid i) (size i) n (atime i) (mtime i) (ctime i)
  (direct i) (indirect i) (double_indirect i) (triple_indirect i) (generation i) (flags i) (in_reserved i).
Definition set_atime n (i : Inode) := mkInode (inode_num i) (mode i) (uid i) (gid i) (size i) (blocks i) n (mtime i) (ctime i)
  (direct i) (indirect i) (double_indirect i) (triple_indirect i) (generation i) (flags i) (in_reserved i).
Definition set_mtime n (i : Inode) := mkInode (inode_num i) (mode i) (uid i) (gid i) (size i) (blocks i) (atime i) n (ctime i)
  (direct i) (indirect i) (double_indirect i) (triple_indirect i) (generation i) (flags i) (in_reserved i).
Definition set_ctime n (i : Inode) := mkInode (inode_num i) (mode i) (uid i) (gid i) (size i) (blocks i) (atime i) (mtime i) n
  (direct i) (indirect i) (double_indirect i) (triple_indirect i) (generation i) (flags i) (in_reserved i).
Definition set_direct l (i : Inode) := mkInode (inode_num i) (mode i) (uid i) (gid i) (size i) (blocks i) (atime i) (mtime i) (ctime i)
  l (indirect i) (double_indirect i) (triple_indirect i) (generation i) (flags i) (in_reserved i).
Definition set_indirect n (i : Inode) := mkInode (inode_num i) (mode i) (uid i) (gid i) (size i) (blocks i) (atime i) (mtime i) (ctime i)
  (direct i) n (double_indirect i) (triple_indirect i) (generation i) (flags i) (in_reserved i).
Definition set_double n (i : Inode) := mkInode (inode_num i) (mode i) (uid i) (gid i) (size i) (blocks i) (atime i) (mtime i) (ctime i)
  (direct i) (indirect i) n (triple_indirect i) (generation i) (flags i) (in_reserved i).

(** An inode whose members are all zero. *)
Definition zero_inode : Inode := mkInode 0 0 0 0 0 0 0 0 0 (replicate 12 0) 0 0 0 0 0 (replicate 68 0).

(** The conversion of a [usize] to a signed result. *)
Definition to_i64 (z : Z) : Z := if z <? 2 ^ 63 then z else z - 2 ^ 64.

(** The inode at offset [off] of a block. *)
Definition peek_inode (off : Z) (x : list Z) : Inode := decode_inode (take 256 (drop (Z.to_nat off) x)).
Definition poke_inode (off : Z) (i : Inode) (x : list Z) : list Z := list_inserts (Z.to_nat off) (encode_inode i) x.

(** The pointer at index [k] of an indirect block. *)
Definition ptr (k : Z) (x : list Z) : Z := ld 8 (8 * Z.to_nat k) x.
Definition set_ptr (k v : Z) (x : list Z) : list Z := Bytes.st 8 (8 * Z.to_nat k) v x.

(** How a loop over the entries of a directory block ends. *)
Inductive outcome (A : Type) :=
| Return (a : A)
| Break.
Arguments Return {A} a.
Arguments Break {A}.

Section driver.
Context {D : Type} {BD : Cache.BlockDevice D} {ENV : Env}.

Local Abbreviation store_t := (Cache.BlockCache * D)%type.

Definition M (A : Type) : Type := st store_t store_t -> res (A * st store_t store_t).

#[export] Instance M_ret : MRet M := fun A a s => Ok (a, s).
#[export] Instance M_bind : MBind M := fun A B f m s => r ← m s; f r.1 r.2.

Definition gets {A} (f : st store_t store_t -> A) : M A := fun s => Ok (f s, s).
Definition modify (f : st store_t store_t -> st store_t store_t) : M unit := fun s => Ok (tt, f s).
Definition lift {A} (m : res A) : M A := fun s => a ← m; Ok (a, s).

Definition update_fs (f : ViperFS -> ViperFS) : M unit := modify (fun s => set_fs (f (fs s)) s).
Definition is_mounted : M bool := gets (fun s => mounted_ (fs s)).
Definition the_sb : M Superblock := gets (fun s => sb_ (fs s)).

Definition now : M Z := t ← gets (fun s => get_ms (clock_ s)); _ ← modify tick; mret t.
Definition alloc_inode_buffer : M bool := b ← gets (fun s => inode_alloc (clock_ s)); _ ← modify tick; mret b.
Definition stack_array : M (list Z) := b ← gets (fun s => stack_bytes (clock_ s)); _ ← modify tick; mret b.

(** ** The block cache *)

Definition cache_get (n : Z) : M (option Z) := fun s =>
  '(c, d, o) ← Cache.get n (own s); Ok (o, set_own (c, d) s).
Definition cache_get_for_write (n : Z) : M (option Z) := fun s =>
  '(c, d, o) ← Cache.get_for_write n (own s); Ok (o, set_own (c, d) s).
Definition cache_release (i : Z) : M unit := fun s =>
  c ← Cache.release i (own s).1; Ok (tt, set_own (c, (own s).2) s).
Definition cache_sync : M unit := fun s => r ← Cache.sync (own s); Ok (tt, set_own r s).

(** Reading the buffer of a block, and changing it and marking it dirty. *)
Definition cache_data (i : Z) : M (list Z) := fun s =>
  b ← rd (Cache.blocks_ (own s).1) i; Ok (Cache.data b, s).
Definition cache_store (i : Z) (x : list Z) : M unit := fun s =>
  c ← Cache.store i x (own s).1; Ok (tt, set_own (c, (own s).2) s).

(** Getting a block, using it and releasing it; [fail] is the result when the
    block cannot be got. *)
Definition with_block {A} (n : Z) (fail : A) (body : Z -> M A) : M A :=
  o ← cache_get n;
  match o with
  | None => mret fail
  | Some i => a ← body i; _ ← cache_release i; mret a
  end.

(** The same with a block got for writing. *)
Definition with_block_for_write {A} (n : Z) (fail : A) (body : Z -> M A) : M A :=
  o ← cache_get_for_write n;
  match o with
  | None => mret fail
  | Some i => a ← body i; _ ← cache_release i; mret a
  end.

(** The common case of changing the buffer of a block. *)
Definition change_block (n : Z) (f : list Z -> list Z) : M bool :=
  with_block n false (fun i => x ← cache_data i; _ ← cache_store i (f x); mret true).

(** ** The journal works on the cache of the system disk *)

Definition on_system {A} (f : Journal.Journal -> store_t -> res (Journal.Journal * store_t * A)) : M A := fun s =>
  match sys_ s with
  | None => '(j, g, a) ← f (journal_ s) (own s); Ok (a, set_own g (set_journal j s))
  | Some g => '(j, g, a) ← f (journal_ s) g; Ok (a, set_sys (Some g) (set_journal j s))
  end.

Definition journal_enabled : M bool := gets (fun s => Journal.enabled_ (journal_ s)).
Definition journal_begin : M bool := fun s =>
  let '(j, ok) := Journal.begin (journal_ s) in Ok (ok, set_journal j s).
Definition journal_abort (txn : bool) : M unit :=
  if txn then modify (fun s => set_journal (Journal.abort txn (journal_ s)) s) else mret tt.
Definition journal_log (txn : bool) (n : Z) (x : list Z) : M bool := fun s =>
  '(j, ok) ← Journal.log_block txn n x (journal_ s); Ok (ok, set_journal j s).
Definition journal_commit (txn : bool) : M bool :=
  t ← now; on_system (fun j g => Journal.commit t txn j g).

(** ** Allocation of blocks *)

(** The first bit that is clear in a byte, from bit [b]. *)
Fixpoint clear_bit (fuel : nat) (b v : Z) : option Z :=
  match fuel with
  | O => None
  | Datatypes.S fuel => if Z.land v (Z.shiftl 1 b) =? 0 then Some b else clear_bit fuel (b + 1) v
  end.

(** The first byte with a clear bit, from byte [byte]. *)
Fixpoint clear_byte (byte : Z) (l : list Z) : option (Z * Z) :=
  match l with
  | [] => None
  | v :: l =>
      match (if negb (v =? 0xFF) then clear_bit 8 0 v else None) with
      | Some bit => Some (byte, bit)
      | None => clear_byte (byte + 1) l
      end
  end.

(** A byte of a block. *)
Definition byte_at (byte : Z) (x : list Z) : Z := default 0 (x !! Z.to_nat byte).
Definition set_byte (byte v : Z) (x : list Z) : list Z := <[Z.to_nat byte := v]> x.

Fixpoint alloc_scan (n : nat) (bitmap_block : Z) : M Z :=
  match n with
  | O => mret 0
  | Datatypes.S n =>
      sb ← the_sb;
      r ← with_block (u64 (bitmap_start sb + bitmap_block)) Break (fun i =>
        x ← cache_data i;
        match clear_byte 0 x with
        | None => mret Break
        | Some (byte, bit) =>
            let block_num := u64 (u64 (bitmap_block * (BLOCK_SIZE * 8)) + byte * 8 + bit) in
            if total_blocks sb <=? block_num then mret (Return None)
            else
              _ ← cache_store i (set_byte byte (u8 (Z.lor (byte_at byte x) (Z.shiftl 1 bit))) x);
              mret (Return (Some block_num))
        end);
      match r with
      | Break => alloc_scan n (bitmap_block + 1)
      | Return None => mret 0
      | Return (Some b) =>
          _ ← update_fs (fun v => set_sb_dirty true (with_sb (fun sb => set_free_blocks (u64 (free_blocks sb - 1)) sb) v));
          mret b
      end
  end.

Definition alloc_block_unlocked : M Z :=
  m ← is_mounted;
  if negb m then mret 0
  else
    sb ← the_sb;
    if free_blocks sb =? 0 then mret 0
    else alloc_scan (Z.to_nat (bitmap_blocks sb)) 0.

Definition free_block_unlocked (block_num : Z) : M unit :=
  m ← is_mounted;
  if negb m then mret tt
  else
    sb ← the_sb;
    if total_blocks sb <=? block_num then mret tt
    else
      let bitmap_block := block_num / (BLOCK_SIZE * 8) in
      let byte := (block_num / 8) mod BLOCK_SIZE in
      let bit := block_num mod 8 in
      ok ← change_block (u64 (bitmap_start sb + bitmap_block))
             (fun x => set_byte byte (Z.land (byte_at byte x) (u8 (Z.lnot (Z.shiftl 1 bit)))) x);
      if (ok : bool) then
        update_fs (fun v => set_sb_dirty true (with_sb (fun sb => set_free_blocks (u64 (free_blocks sb + 1)) sb) v))
      else mret tt.

Definition alloc_zeroed_block_unlocked : M Z :=
  block_num ← alloc_block_unlocked;
  if block_num =? 0 then mret 0
  else
    ok ← change_block block_num (fun _ => replicate (Z.to_nat BLOCK_SIZE) 0);
    if negb ok then _ ← free_block_unlocked block_num; mret 0
    else mret block_num.

(** ** The inode table *)

Definition inode_block (sb : Superblock) (ino : Z) : Z := u64 (inode_table_start sb + ino / INODES_PER_BLOCK).
Definition inode_offset (ino : Z) : Z := (ino mod INODES_PER_BLOCK) * INODE_SIZE.

Definition read_inode (ino : Z) : M (option Inode) :=
  m ← is_mounted;
  if negb m then mret None
  else
    sb ← the_sb;
    with_block (inode_block sb ino) None (fun i =>
      ok ← alloc_inode_buffer;
      if negb ok then mret None
      else x ← cache_data i; mret (Some (peek_inode (inode_offset ino) x))).

Definition write_inode (i : Inode) : M bool :=
  m ← is_mounted;
  if negb m then mret false
  else
    sb ← the_sb;
    change_block (inode_block sb (inode_num i)) (poke_inode (inode_offset (inode_num i)) i).

(** [mode] is the four bytes at offset 8 of an inode. *)
Fixpoint inode_scan (n : nat) (ino : Z) : M Z :=
  match n with
  | O => mret 0
  | Datatypes.S n =>
      sb ← the_sb;
      r ← with_block (inode_block sb ino) false (fun i =>
        x ← cache_data i;
        if mode (peek_inode (inode_offset ino) x) =? 0 then
          _ ← cache_store i (Bytes.st 4 (Z.to_nat (inode_offset ino) + 8) TYPE_FILE x);
          mret true
        else mret false);
      if (r : bool) then mret ino else inode_scan n (ino + 1)
  end.

Definition alloc_inode_unlocked : M Z :=
  m ← is_mounted;
  if negb m then mret 0
  else sb ← the_sb; inode_scan (Z.to_nat (inode_count sb - 2)) 2.

Definition free_inode_unlocked (ino : Z) : M unit :=
  m ← is_mounted;
  if negb m then mret tt
  else
    sb ← the_sb;
    _ ← change_block (inode_block sb ino) (Bytes.st 4 (Z.to_nat (inode_offset ino) + 8) 0);
    mret tt.

(** ** Block pointers *)

Definition read_indirect (block_num index : Z) : M Z :=
  if block_num =? 0 then mret 0
  else if PTRS_PER_BLOCK <=? index then mret 0
  else with_block block_num 0 (fun i => x ← cache_data i; mret (ptr index x)).

Definition write_indirect (block_num index value : Z) : M bool :=
  if block_num =? 0 then mret false
  else if PTRS_PER_BLOCK <=? index then mret false
  else change_block block_num (set_ptr index value).

Definition get_block_ptr (i : Inode) (block_idx : Z) : M Z :=
  if block_idx <? 12 then lift (rd (direct i) block_idx)
  else
    let block_idx := block_idx - 12 in
    if block_idx <? PTRS_PER_BLOCK then read_indirect (indirect i) block_idx
    else
      let block_idx := block_idx - PTRS_PER_BLOCK in
      if block_idx <? PTRS_PER_BLOCK * PTRS_PER_BLOCK then
        let l1_idx := block_idx / PTRS_PER_BLOCK in
        let l2_idx := block_idx mod PTRS_PER_BLOCK in
        l1_block ← read_indirect (double_indirect i) l1_idx;
        if l1_block =? 0 then mret 0 else read_indirect l1_block l2_idx
      else mret 0.

Definition set_block_ptr (i : Inode) (block_idx block_num : Z) : M (bool * Inode) :=
  if block_idx <? 12 then
    l ← lift (wr (direct i) block_idx block_num);
    mret (true, set_direct l i)
  else
    let block_idx := block_idx - 12 in
    if block_idx <? PTRS_PER_BLOCK then
      i ← (if indirect i =? 0 then b ← alloc_zeroed_block_unlocked; mret (set_indirect b i) else mret i);
      if indirect i =? 0 then mret (false, i)
      else ok ← write_indirect (indirect i) block_idx block_num; mret (ok, i)
    else
      let block_idx := block_idx - PTRS_PER_BLOCK in
      if block_idx <? PTRS_PER_BLOCK * PTRS_PER_BLOCK then
        i ← (if double_indirect i =? 0 then b ← alloc_zeroed_block_unlocked; mret (set_double b i) else mret i);
        if double_indirect i =? 0 then mret (false, i)
        else
          let l1_idx := block_idx / PTRS_PER_BLOCK in
          let l2_idx := block_idx mod PTRS_PER_BLOCK in
          l1_block ← read_indirect (double_indirect i) l1_idx;
          l1_block ← (if l1_block =? 0 then
              l1_block ← alloc_zeroed_block_unlocked;
              if l1_block =? 0 then mret 0
              else _ ← write_indirect (double_indirect i) l1_idx l1_block; mret l1_block
            else mret l1_block);
          if l1_block =? 0 then mret (false, i)
          else ok ← write_indirect l1_block l2_idx block_num; mret (ok, i)
      else mret (false, i).

(** ** File contents *)

(** [dst] is what has been copied to the caller's buffer. *)
Fixpoint read_loop (fuel : nat) (i : Inode) (offset remaining : Z) (dst : list Z) : M (bool * list Z) :=
  if remaining =? 0 then mret (true, dst)
  else
    match fuel with
    | O => lift Diverge
    | Datatypes.S fuel =>
        let block_idx := offset / BLOCK_SIZE in
        let block_off := offset mod BLOCK_SIZE in
        let to_read := Z.min (BLOCK_SIZE - block_off) remaining in
        block_num ← get_block_ptr i block_idx;
        piece ← (if block_num =? 0 then mret (Some (replicate (Z.to_nat to_read) 0))
          else with_block block_num None (fun b =>
            x ← cache_data b; mret (Some (take (Z.to_nat to_read) (drop (Z.to_nat block_off) x)))));
        match piece with
        | None => mret (false, dst)
        | Some p => read_loop fuel i (u64 (offset + to_read)) (remaining - to_read) (dst ++ p)
        end
    end.

(** The result, the bytes copied, and the inode with its access time. *)
Definition read_data (i : Inode) (offset len : Z) : M (Z * list Z * Inode) :=
  m ← is_mounted;
  if negb m then mret (-1, [], i)
  else if size i <=? offset then mret (0, [], i)
  else
    let len := if size i <? u64 (offset + len) then size i - offset else len in
    '(ok, dst) ← read_loop (Z.to_nat (len / BLOCK_SIZE) + 2) i offset len [];
    if negb ok then mret (-1, dst, i)
    else t ← now; mret (to_i64 len, dst, set_atime t i).

(** The block of a file at an index, allocated when it is missing; no block when
    that fails. *)
Definition get_or_alloc_block (i : Inode) (block_idx : Z) : M (option Z * Inode) :=
  block_num ← get_block_ptr i block_idx;
  if block_num =? 0 then
    block_num ← alloc_block_unlocked;
    if block_num =? 0 then mret (None, i)
    else
      '(ok, i) ← set_block_ptr i block_idx block_num;
      if negb ok then _ ← free_block_unlocked block_num; mret (None, i)
      else mret (Some block_num, set_blocks (u64 (blocks i + 1)) i)
  else mret (Some block_num, i).

(** The loop of a write: an early result, the inode, the offset reached and the
    number of bytes written. *)
Fixpoint write_loop (fuel : nat) (i : Inode) (offset : Z) (src : list Z) (written : Z) : M (option Z * Inode * Z * Z) :=
  let len := Z.of_nat (length src) in
  if len <=? written then mret (None, i, offset, written)
  else
    match fuel with
    | O => lift Diverge
    | Datatypes.S fuel =>
        let block_idx := offset / BLOCK_SIZE in
        let block_off := offset mod BLOCK_SIZE in
        let to_write := Z.min (BLOCK_SIZE - block_off) (len - written) in
        let early := if 0 <? written then to_i64 written else -1 in
        r ← get_or_alloc_block i block_idx;
        match r with
        | (None, i) => mret (Some early, i, offset, written)
        | (Some block_num, i) =>
            ok ← change_block block_num
                   (list_inserts (Z.to_nat block_off) (take (Z.to_nat to_write) (drop (Z.to_nat written) src)));
            if negb ok then mret (Some early, i, offset, written)
            else write_loop fuel i (u64 (offset + to_write)) src (written + to_write)
        end
    end.

Definition write_data (i : Inode) (offset : Z) (src : list Z) : M (Z * Inode) :=
  m ← is_mounted;
  if negb m then mret (-1, i)
  else
    '(early, i, offset, written) ← write_loop (Z.to_nat (Z.of_nat (length src) / BLOCK_SIZE) + 2) i offset src 0;
    match early with
    | Some r => mret (r, i)
    | None =>
        let i := if size i <? offset then set_size offset i else i in
        t ← now;
        mret (to_i64 written, set_mtime t i)
    end.

Fixpoint truncate_loop (n : nat) (block_idx : Z) (i : Inode) : M Inode :=
  match n with
  | O => mret i
  | Datatypes.S n =>
      block_num ← get_block_ptr i block_idx;
      i ← (if negb (block_num =? 0) then
          _ ← free_block_unlocked block_num;
          '(_, i) ← set_block_ptr i block_idx 0;
          mret (set_blocks (u64 (blocks i - 1)) i)
        else mret i);
      truncate_loop n (block_idx + 1) i
  end.

(** Zeroes a block from [off] on; the block is got for writing. *)
Definition zero_tail (n off : Z) : M unit :=
  with_block_for_write n tt (fun i =>
    x ← cache_data i;
    cache_store i (take (Z.to_nat off) x ++ replicate (Z.to_nat (BLOCK_SIZE - off)) 0)).

Definition truncate (i : Inode) (new_size : Z) : M (bool * Inode) :=
  m ← is_mounted;
  if negb m then mret (false, i)
  else
    let old_size := size i in
    if new_size =? old_size then mret (true, i)
    else
      i ← (if new_size <? old_size then
          let new_blocks := u64 (new_size + BLOCK_SIZE - 1) / BLOCK_SIZE in
          let old_blocks := u64 (old_size + BLOCK_SIZE - 1) / BLOCK_SIZE in
          i ← truncate_loop (Z.to_nat (old_blocks - new_blocks)) new_blocks i;
          _ ← (if 0 <? new_size then
              let partial_offset := new_size mod BLOCK_SIZE in
              if 0 <? partial_offset then
                block_num ← get_block_ptr i (new_size / BLOCK_SIZE);
                if negb (block_num =? 0) then zero_tail block_num partial_offset else mret tt
              else mret tt
            else mret tt);
          mret i
        else mret i);
      t ← now;
      let i := set_ctime t (set_mtime t (set_size new_size i)) in
      _ ← write_inode i;
      mret (true, i).

Definition fsync (i : Inode) : M (bool * Inode) :=
  m ← is_mounted;
  if negb m then mret (false, i)
  else
    t ← now;
    let i := set_atime t i in
    ok ← write_inode i;
    if negb ok then mret (false, i)
    else _ ← cache_sync; mret (true, i).

(** ** Directories *)

(** The loop that compares a name with the name of the entry at [pos]. *)
Fixpoint same_name (pos i : Z) (name buf : list Z) : res bool :=
  match name with
  | [] => Ok true
  | c :: name =>
      b ← e_name pos i buf;
      if negb (b =? c) then Ok false else same_name pos (i + 1) name buf
  end.

(** Whether the entry at [pos] is live and has the given name. *)
Definition entry_matches (pos : Z) (name buf : list Z) : res bool :=
  ino ← e_inode pos buf;
  n ← e_name_len pos buf;
  if negb (ino =? 0) && (n =? Z.of_nat (length name)) then same_name pos 0 name buf else Ok false.

(** The test of a record length that every scan makes. *)
Definition bad_rec_len (pos r rec_len : Z) : bool := (rec_len <? DIR_ENTRY_MIN_SIZE) || (r <? pos + rec_len).

Fixpoint lookup_block (fuel : nat) (pos r : Z) (name buf : list Z) : res (outcome Z) :=
  if r <=? pos then Ok Break
  else
    match fuel with
    | O => Diverge
    | Datatypes.S fuel =>
        rec_len ← e_rec_len pos buf;
        if rec_len =? 0 then Ok Break
        else if bad_rec_len pos r rec_len then Ok (Return 0)
        else
          hit ← entry_matches pos name buf;
          if (hit : bool) then ino ← e_inode pos buf; Ok (Return ino)
          else lookup_block fuel (pos + rec_len) r name buf
    end.

(** The first [r] bytes of the buffer are replaced by what was read. *)
Definition fill_buf (bytes buf : list Z) : list Z := bytes ++ drop (length bytes) buf.

(** The number of blocks a scan of a directory can visit. *)
Definition dir_fuel (dir : Inode) : nat := Z.to_nat (size dir / BLOCK_SIZE) + 2.

Fixpoint lookup_loop (fuel : nat) (dir : Inode) (offset : Z) (name buf : list Z) : M (Z * Inode) :=
  if size dir <=? offset then mret (0, dir)
  else
    match fuel with
    | O => lift Diverge
    | Datatypes.S fuel =>
        '(r, bytes, dir) ← read_data dir offset BLOCK_SIZE;
        if r <? 0 then mret (0, dir)
        else if r =? 0 then mret (0, dir)
        else
          let buf := fill_buf bytes buf in
          o ← lift (lookup_block (Z.to_nat r) 0 r name buf);
          match o with
          | Return ino => mret (ino, dir)
          | Break => lookup_loop fuel dir (u64 (offset + r)) name buf
          end
    end.

Definition lookup (dir : Inode) (name : list Z) : M (Z * Inode) :=
  m ← is_mounted;
  if negb m then mret (0, dir)
  else if negb (is_directory dir) then mret (0, dir)
  else buf ← stack_array; lookup_loop (dir_fuel dir) dir 0 name buf.

(** The arguments of a call of the callback: the name, the inode number and the
    type. *)
Definition dirent : Type := list Z * Z * Z.

Definition entry_at (pos : Z) (buf : list Z) : res dirent :=
  n ← e_name_len pos buf;
  ino ← e_inode pos buf;
  t ← e_file_type pos buf;
  Ok (take (Z.to_nat n) (drop (Z.to_nat (pos + 12)) buf), ino, t).

Fixpoint readdir_block (fuel : nat) (pos r : Z) (buf : list Z) (acc : list dirent) : res (bool * list dirent) :=
  if r <=? pos then Ok (true, acc)
  else
    match fuel with
    | O => Diverge
    | Datatypes.S fuel =>
        rec_len ← e_rec_len pos buf;
        if rec_len =? 0 then Ok (true, acc)
        else if bad_rec_len pos r rec_len then Ok (false, acc)
        else
          ino ← e_inode pos buf;
          acc ← (if negb (ino =? 0) then e ← entry_at pos buf; Ok (acc ++ [e]) else Ok acc);
          readdir_block fuel (pos + rec_len) r buf acc
    end.

Fixpoint readdir_loop (fuel : nat) (dir : Inode) (offset : Z) (buf : list Z) (acc : list dirent) : M (bool * list dirent * Inode) :=
  if size dir <=? offset then mret (true, acc, dir)
  else
    match fuel with
    | O => lift Diverge
    | Datatypes.S fuel =>
        '(r, bytes, dir) ← read_data dir offset BLOCK_SIZE;
        if r <? 0 then mret (false, acc, dir)
        else if r =? 0 then mret (true, acc, dir)
        else
          let buf := fill_buf bytes buf in
          '(ok, acc) ← lift (readdir_block (Z.to_nat r) 0 r buf acc);
          if negb ok then mret (false, acc, dir)
          else readdir_loop fuel dir (u64 (offset + r)) buf acc
    end.

(** The result, the calls of the callback in order, and the inode. *)
Definition readdir (dir : Inode) (offset : Z) : M (Z * list dirent * Inode) :=
  m ← is_mounted;
  if negb m then mret (-1, [], dir)
  else if negb (is_directory dir) then mret (-1, [], dir)
  else
    buf ← stack_array;
    '(ok, calls, dir) ← readdir_loop (dir_fuel dir) dir offset buf [];
    mret (if (ok : bool) then Z.of_nat (length calls) else -1, calls, dir).

(** Looks for an entry of the block with room for [needed_len] bytes behind it;
    the result is the block with the new entry, or the failure of a check. *)
Fixpoint add_block (fuel : nat) (pos r ino type needed_len : Z) (name buf : list Z) : res (outcome (option (list Z))) :=
  if r <=? pos then Ok Break
  else
    match fuel with
    | O => Diverge
    | Datatypes.S fuel =>
        rec_len ← e_rec_len pos buf;
        if rec_len =? 0 then Ok Break
        else if bad_rec_len pos r rec_len then Ok (Return None)
        else
          n ← e_name_len pos buf;
          let actual_size := dir_entry_size n in
          if rec_len <? actual_size then Ok (Return None)
          else
            let remaining := rec_len - actual_size in
            if needed_len <=? remaining then
              buf ← set_e_rec_len pos actual_size buf;
              buf ← put_entry (pos + actual_size) ino remaining type name buf;
              Ok (Return (Some buf))
            else add_block fuel (pos + rec_len) r ino type needed_len name buf
    end.

(** The loop ends with a result, or with nothing when no block has room. *)
Fixpoint add_loop (fuel : nat) (dir : Inode) (offset ino type needed_len : Z) (name buf : list Z)
  : M (outcome bool * Inode) :=
  if size dir <=? offset then mret (Break, dir)
  else
    match fuel with
    | O => lift Diverge
    | Datatypes.S fuel =>
        '(r, bytes, dir) ← read_data dir offset BLOCK_SIZE;
        if r <=? 0 then mret (Break, dir)
        else
          let buf := fill_buf bytes buf in
          o ← lift (add_block (Z.to_nat r) 0 r ino type needed_len name buf);
          match o with
          | Return None => mret (Return false, dir)
          | Return (Some buf) =>
              '(w, dir) ← write_data dir offset buf;
              mret (Return (w =? BLOCK_SIZE), dir)
          | Break => add_loop fuel dir (u64 (offset + r)) ino type needed_len name buf
          end
    end.

Definition zero_block : list Z := replicate (Z.to_nat BLOCK_SIZE) 0.

Definition add_dir_entry (dir : Inode) (ino : Z) (name : list Z) (type : Z) : M (bool * Inode) :=
  m ← is_mounted;
  if negb m then mret (false, dir)
  else if negb (is_directory dir) then mret (false, dir)
  else if MAX_NAME_LEN <? Z.of_nat (length name) then mret (false, dir)
  else
    let needed_len := dir_entry_size (u8 (Z.of_nat (length name))) in
    buf ← stack_array;
    '(o, dir) ← add_loop (dir_fuel dir) dir 0 ino type needed_len name buf;
    match o with
    | Return b => mret (b, dir)
    | Break =>
        new_block ← lift (put_entry 0 ino BLOCK_SIZE type name zero_block);
        '(w, dir) ← write_data dir (size dir) new_block;
        mret (w =? BLOCK_SIZE, dir)
    end.

(** [prev] is the position of the entry before. *)
Fixpoint remove_block (fuel : nat) (pos r : Z) (prev : option Z) (name buf : list Z) : res (outcome (option (Z * list Z))) :=
  if r <=? pos then Ok Break
  else
    match fuel with
    | O => Diverge
    | Datatypes.S fuel =>
        rec_len ← e_rec_len pos buf;
        if rec_len =? 0 then Ok Break
        else if bad_rec_len pos r rec_len then Ok (Return None)
        else
          hit ← entry_matches pos name buf;
          if (hit : bool) then
            ino ← e_inode pos buf;
            buf ← match prev with
                  | Some q =>
                      prev_ino ← e_inode q buf;
                      if negb (prev_ino =? 0) then prev_len ← e_rec_len q buf; set_e_rec_len q (u16 (prev_len + rec_len)) buf
                      else Ok buf
                  | None => Ok buf
                  end;
            buf ← set_e_inode pos 0 buf;
            Ok (Return (Some (ino, buf)))
          else remove_block fuel (pos + rec_len) r (Some pos) name buf
    end.

(** The result and the inode number of the removed entry. *)
Fixpoint remove_loop (fuel : nat) (dir : Inode) (offset : Z) (name buf : list Z) : M (bool * option Z * Inode) :=
  if size dir <=? offset then mret (false, None, dir)
  else
    match fuel with
    | O => lift Diverge
    | Datatypes.S fuel =>
        '(r, bytes, dir) ← read_data dir offset BLOCK_SIZE;
        if r <=? 0 then mret (false, None, dir)
        else
          let buf := fill_buf bytes buf in
          o ← lift (remove_block (Z.to_nat r) 0 r None name buf);
          match o with
          | Return None => mret (false, None, dir)
          | Return (Some (ino, buf)) =>
              '(w, dir) ← write_data dir offset buf;
              mret (w =? BLOCK_SIZE, Some ino, dir)
          | Break => remove_loop fuel dir (u64 (offset + r)) name buf
          end
    end.

Definition remove_dir_entry (dir : Inode) (name : list Z) : M (bool * option Z * Inode) :=
  m ← is_mounted;
  if negb m then mret (false, None, dir)
  else if negb (is_directory dir) then mret (false, None, dir)
  else buf ← stack_array; remove_loop (dir_fuel dir) dir 0 name buf.

(** ** Creating *)

Definition inode_of (ino m size_ blocks_ t : Z) (direct_ : list Z) : Inode :=
  mkInode ino m 0 0 size_ blocks_ t t t direct_ 0 0 0 0 0 (replicate 68 0).

Definition create_file (dir : Inode) (name : list Z) : M (Z * Inode) :=
  m ← is_mounted;
  if negb m then mret (0, dir)
  else if negb (is_directory dir) then mret (0, dir)
  else
    '(found, dir) ← lookup dir name;
    if negb (found =? 0) then mret (0, dir)
    else
      en ← journal_enabled;
      txn ← (if (en : bool) then journal_begin else mret false);
      ino ← alloc_inode_unlocked;
      if ino =? 0 then _ ← journal_abort txn; mret (0, dir)
      else
        t ← now;
        let new_inode := inode_of ino (Z.lor (Z.lor TYPE_FILE PERM_READ) PERM_WRITE) 0 0 t (replicate 12 0) in
        sb ← the_sb;
        _ ← (if (txn : bool) then
            with_block (inode_block sb ino) tt (fun i =>
              x ← cache_data i; _ ← journal_log txn (inode_block sb ino) x; mret tt)
          else mret tt);
        ok ← write_inode new_inode;
        if negb ok then _ ← free_inode_unlocked ino; _ ← journal_abort txn; mret (0, dir)
        else
          '(ok, dir) ← add_dir_entry dir ino name FT_FILE;
          if negb ok then _ ← free_inode_unlocked ino; _ ← journal_abort txn; mret (0, dir)
          else
            _ ← write_inode dir;
            _ ← (if (txn : bool) then journal_commit txn else mret true);
            mret (ino, dir).

(** The first block of a new directory. *)
Definition dot_block (ino parent : Z) : res (list Z) :=
  let len := dir_entry_size 1 in
  buf ← put_entry 0 ino len FT_DIR [46] zero_block;
  put_entry len parent (BLOCK_SIZE - len) FT_DIR [46; 46] buf.

Definition create_dir (dir : Inode) (name : list Z) : M (Z * Inode) :=
  m ← is_mounted;
  if negb m then mret (0, dir)
  else if negb (is_directory dir) then mret (0, dir)
  else
    '(found, dir) ← lookup dir name;
    if negb (found =? 0) then mret (0, dir)
    else
      ino ← alloc_inode_unlocked;
      if ino =? 0 then mret (0, dir)
      else
        data_block ← alloc_block_unlocked;
        if data_block =? 0 then _ ← free_inode_unlocked ino; mret (0, dir)
        else
          t ← now;
          let new_inode := inode_of ino (Z.lor (Z.lor (Z.lor TYPE_DIR PERM_READ) PERM_WRITE) PERM_EXEC) BLOCK_SIZE 1 t
                             (data_block :: replicate 11 0) in
          dir_data ← lift (dot_block ino (inode_num dir));
          ok ← change_block data_block (fun _ => dir_data);
          if negb ok then _ ← free_block_unlocked data_block; _ ← free_inode_unlocked ino; mret (0, dir)
          else
            ok ← write_inode new_inode;
            if negb ok then _ ← free_block_unlocked data_block; _ ← free_inode_unlocked ino; mret (0, dir)
            else
              '(ok, dir) ← add_dir_entry dir ino name FT_DIR;
              if negb ok then _ ← free_block_unlocked data_block; _ ← free_inode_unlocked ino; mret (0, dir)
              else _ ← write_inode dir; mret (ino, dir).

Definition create_symlink (dir : Inode) (name target : list Z) : M (Z * Inode) :=
  let target_len := Z.of_nat (length target) in
  m ← is_mounted;
  if negb m then mret (0, dir)
  else if negb (is_directory dir) then mret (0, dir)
  else if (target_len =? 0) || (BLOCK_SIZE <? target_len) then mret (0, dir)
  else
    '(found, dir) ← lookup dir name;
    if negb (found =? 0) then mret (0, dir)
    else
      ino ← alloc_inode_unlocked;
      if ino =? 0 then mret (0, dir)
      else
        t ← now;
        let new_inode := inode_of ino (Z.lor (Z.lor TYPE_LINK PERM_READ) PERM_WRITE) target_len 0 t (replicate 12 0) in
        ok ← write_inode new_inode;
        if negb ok then _ ← free_inode_unlocked ino; mret (0, dir)
        else
          o ← read_inode ino;
          match o with
          | None => _ ← free_inode_unlocked ino; mret (0, dir)
          | Some i =>
              '(written, _) ← write_data i 0 target;
              if negb (written =? target_len) then _ ← free_inode_unlocked ino; mret (0, dir)
              else
                '(ok, dir) ← add_dir_entry dir ino name FT_LINK;
                if negb ok then _ ← free_inode_unlocked ino; mret (0, dir)
                else _ ← write_inode dir; mret (ino, dir)
          end.

Definition read_symlink (i : Inode) (buf_len : Z) : M (Z * list Z * Inode) :=
  m ← is_mounted;
  if negb m then mret (-1, [], i)
  else if negb (is_symlink i) then mret (-1, [], i)
  else read_data i 0 (Z.min buf_len (size i)).

(** ** Deleting *)

(** A [for] loop over indices. *)
Fixpoint for_each (l : list Z) (body : Z -> M unit) : M unit :=
  match l with
  | [] => mret tt
  | k :: l => _ ← body k; for_each l body
  end.

(** Frees a block unless the pointer to it is null. *)
Definition free_ptr (p : Z) : M unit := if negb (p =? 0) then free_block_unlocked p else mret tt.

(** Visits the pointers of the indirect block [n]; each is read from the buffer
    when the loop reaches it. *)
Definition for_ptrs (n : Z) (body : Z -> M unit) : M unit :=
  with_block n tt (fun i =>
    for_each (seqZ 0 PTRS_PER_BLOCK) (fun k => x ← cache_data i; if negb (ptr k x =? 0) then body (ptr k x) else mret tt)).

Definition free_inode_blocks (i : Inode) : M Inode :=
  m ← is_mounted;
  if negb m then mret i
  else
    _ ← for_each (take 12 (direct i)) free_ptr;
    let i := set_direct (replicate 12 0) i in
    i ← (if negb (indirect i =? 0) then
        _ ← for_ptrs (indirect i) free_block_unlocked;
        _ ← free_block_unlocked (indirect i);
        mret (set_indirect 0 i)
      else mret i);
    i ← (if negb (double_indirect i =? 0) then
        _ ← for_ptrs (double_indirect i) (fun l1 => _ ← for_ptrs l1 free_block_unlocked; free_block_unlocked l1);
        _ ← free_block_unlocked (double_indirect i);
        mret (set_double 0 i)
      else mret i);
    mret (set_size 0 (set_blocks 0 i)).

(** [.] and [..]. *)
Definition is_dots (name : list Z) : bool := bool_decide (name = [46]) || bool_decide (name = [46; 46]).

(** The removal of an entry of [dir] and of the file [i] it names; shared by the
    two operations below. *)
Definition drop_entry (dir i : Inode) (ino : Z) (name : list Z) : M (bool * Inode) :=
  '(ok, _, dir) ← remove_dir_entry dir name;
  if negb ok then mret (false, dir)
  else
    _ ← free_inode_blocks i;
    _ ← free_inode_unlocked ino;
    _ ← write_inode dir;
    mret (true, dir).

Definition unlink_file (dir : Inode) (name : list Z) : M (bool * Inode) :=
  m ← is_mounted;
  if negb m then mret (false, dir)
  else if is_dots name then mret (false, dir)
  else
    '(ino, dir) ← lookup dir name;
    if ino =? 0 then mret (false, dir)
    else
      o ← read_inode ino;
      match o with
      | None => mret (false, dir)
      | Some i => if is_directory i then mret (false, dir) else drop_entry dir i ino name
      end.

(** The counting callback ignores [.] and [..]; the result of [readdir] is not
    looked at. *)
Definition dir_is_empty (dir : Inode) : M (bool * Inode) :=
  '(_, calls, dir) ← readdir dir 0;
  mret (forallb (fun e : dirent => is_dots e.1.1) calls, dir).

Definition rmdir (parent : Inode) (name : list Z) : M (bool * Inode) :=
  m ← is_mounted;
  if negb m then mret (false, parent)
  else if is_dots name then mret (false, parent)
  else
    '(ino, parent) ← lookup parent name;
    if ino =? 0 then mret (false, parent)
    else
      o ← read_inode ino;
      match o with
      | None => mret (false, parent)
      | Some dir =>
          if negb (is_directory dir) then mret (false, parent)
          else
            '(empty, dir) ← dir_is_empty dir;
            if negb empty then mret (false, parent) else drop_entry parent dir ino name
      end.

(** ** Renaming *)

(** The change of [..] in the first block of a moved directory. *)
Definition update_dotdot (moved : Inode) (parent : Z) : M unit :=
  buf ← stack_array;
  '(r, bytes, moved) ← read_data moved 0 BLOCK_SIZE;
  if 0 <? r then
    let buf := fill_buf bytes buf in
    rec_len ← lift (e_rec_len 0 buf);
    let pos := if (DIR_ENTRY_MIN_SIZE <=? rec_len) && (rec_len <? BLOCK_SIZE) then rec_len else 0 in
    if (pos <? BLOCK_SIZE) && (DIR_ENTRY_MIN_SIZE <=? pos) then
      n ← lift (e_name_len pos buf);
      hit ← lift (if n =? 2 then same_name pos 0 [46; 46] buf else Ok false);
      if (hit : bool) then
        buf ← lift (set_e_inode pos parent buf);
        _ ← write_data moved 0 buf;
        mret tt
      else mret tt
    else mret tt
  else mret tt.

(** [same] says whether the two directory pointers are equal, so that a change
    of one inode is a change of the other; both inodes are returned. *)
Definition rename (same : bool) (old_dir : Inode) (old_name : list Z) (new_dir : Inode) (new_name : list Z)
  : M (bool * Inode * Inode) :=
  let other (changed kept : Inode) := if same then changed else kept in
  m ← is_mounted;
  if negb m then mret (false, old_dir, new_dir)
  else if is_dots old_name then mret (false, old_dir, new_dir)
  else
    '(src_ino, old_dir) ← lookup old_dir old_name;
    let new_dir := other old_dir new_dir in
    if src_ino =? 0 then mret (false, old_dir, new_dir)
    else
      '(dst_ino, new_dir) ← lookup new_dir new_name;
      let old_dir := other new_dir old_dir in
      if negb (dst_ino =? 0) then mret (false, old_dir, new_dir)
      else
        o ← read_inode src_ino;
        match o with
        | None => mret (false, old_dir, new_dir)
        | Some src_inode =>
            let file_type := if is_directory src_inode then FT_DIR else FT_FILE in
            '(ok, new_dir) ← add_dir_entry new_dir src_ino new_name file_type;
            let old_dir := other new_dir old_dir in
            if negb ok then mret (false, old_dir, new_dir)
            else
              '(ok, _, old_dir) ← remove_dir_entry old_dir old_name;
              let new_dir := other old_dir new_dir in
              if negb ok then
                '(_, _, new_dir) ← remove_dir_entry new_dir new_name;
                mret (false, other new_dir old_dir, new_dir)
              else
                _ ← (if (file_type =? FT_DIR) && negb (inode_num old_dir =? inode_num new_dir) then
                    o ← read_inode src_ino;
                    match o with
                    | Some moved => update_dotdot moved (inode_num new_dir)
                    | None => mret tt
                    end
                  else mret tt);
                _ ← write_inode old_dir;
                _ ← write_inode new_dir;
                mret (true, old_dir, new_dir)
        end.

Definition check_access (i : Inode) (uid gid requested : Z) : bool := true.

(** ** The superblock *)

Definition backup_superblock_location (sb : Superblock) : Z :=
  if total_blocks sb <? 2 then 0 else total_blocks sb - 1.

(** The checks on a block that should hold the superblock. *)
Definition valid_superblock (x : list Z) : bool :=
  let sb := decode_sb x in
  (magic sb =? VIPERFS_MAGIC) && (version sb =? VIPERFS_VERSION) &&
  ((checksum sb =? 0) || (Crc32.crc32_superblock x SUPERBLOCK_CHECKSUM_OFFSET =? checksum sb)).

Definition read_and_validate_superblock (block_num : Z) : M (option Superblock) :=
  with_block block_num None (fun i =>
    x ← cache_data i;
    mret (if valid_superblock x then Some (decode_sb x) else None)).

Definition write_superblock_with_backup : M unit :=
  _ ← update_fs (with_sb (set_checksum 0));
  _ ← update_fs (with_sb (fun sb => set_checksum (Crc32.crc32_superblock (encode_sb sb) SUPERBLOCK_CHECKSUM_OFFSET) sb));
  sb ← the_sb;
  _ ← change_block SUPERBLOCK_PRIMARY (fun _ => encode_sb sb);
  let backup_loc := backup_superblock_location sb in
  if 0 <? backup_loc then _ ← change_block backup_loc (fun _ => encode_sb sb); mret tt
  else mret tt.

(** ** The inode cache *)

Definition the_ic : M InodeCache := gets (fun s => inode_cache_ (fs s)).
Definition set_ic (c : InodeCache) : M unit := update_fs (set_inode_cache c).

Definition ic_entries l (c : InodeCache) := mkIc l (hash_ c) (lru_ c) (hits_ c) (misses_ c) (parent_ c).
Definition ic_hash l (c : InodeCache) := mkIc (entries_ c) l (lru_ c) (hits_ c) (misses_ c) (parent_ c).
Definition ic_lru l (c : InodeCache) := mkIc (entries_ c) (hash_ c) l (hits_ c) (misses_ c) (parent_ c).
Definition ic_hit (c : InodeCache) := mkIc (entries_ c) (hash_ c) (lru_ c) (u64 (hits_ c + 1)) (misses_ c) (parent_ c).
Definition ic_miss (c : InodeCache) := mkIc (entries_ c) (hash_ c) (lru_ c) (hits_ c) (u64 (misses_ c + 1)) (parent_ c).
Definition ic_set_parent (c : InodeCache) := mkIc (entries_ c) (hash_ c) (lru_ c) (hits_ c) (misses_ c) true.

Definition ic_upd (i : Z) (f : CachedInode -> CachedInode) (c : InodeCache) : res InodeCache :=
  e ← rd (entries_ c) i; l ← wr (entries_ c) i (f e); Ok (ic_entries l c).

Definition ci_set_dirty b (e : CachedInode) := mkCi (inode e) (refcount e) (valid e) b.
Definition ci_set_valid b (e : CachedInode) := mkCi (inode e) (refcount e) b (dirty e).
Definition ci_set_refcount n (e : CachedInode) := mkCi (inode e) n (valid e) (dirty e).

Definition ic_init (c : InodeCache) : InodeCache :=
  mkIc ((fun e => mkCi (inode e) 0 false false) <$> entries_ c) (replicate (Z.to_nat INODE_HASH_SIZE) [])
    (seqZ 0 INODE_CACHE_SIZE) 0 0 (parent_ c).

Definition ic_hash_func (ino : Z) : Z := ino mod INODE_HASH_SIZE.

Fixpoint ic_find_chain (ino : Z) (chain : list Z) (c : InodeCache) : res (option Z) :=
  match chain with
  | [] => Ok None
  | i :: chain =>
      e ← rd (entries_ c) i;
      if valid e && (inode_num (inode e) =? ino) then Ok (Some i) else ic_find_chain ino chain c
  end.
Definition ic_find (ino : Z) (c : InodeCache) : res (option Z) :=
  chain ← rd (hash_ c) (ic_hash_func ino); ic_find_chain ino chain c.

Definition ic_touch (i : Z) (c : InodeCache) : InodeCache :=
  match lru_ c with
  | j :: _ => if i =? j then c else ic_lru (i :: Cache.unlink i (lru_ c)) c
  | [] => ic_lru (i :: Cache.unlink i (lru_ c)) c
  end.

Definition ic_insert_hash (i : Z) (c : InodeCache) : res InodeCache :=
  e ← rd (entries_ c) i;
  let h := ic_hash_func (inode_num (inode e)) in
  chain ← rd (hash_ c) h;
  l ← wr (hash_ c) h (i :: chain);
  Ok (ic_hash l c).

Definition ic_remove_hash (i : Z) (c : InodeCache) : res InodeCache :=
  e ← rd (entries_ c) i;
  let h := ic_hash_func (inode_num (inode e)) in
  chain ← rd (hash_ c) h;
  l ← wr (hash_ c) h (Cache.unlink i chain);
  Ok (ic_hash l c).

Definition load_inode (ino : Z) : M (option Inode) :=
  c ← the_ic;
  if negb (parent_ c) then mret None
  else
    sb ← the_sb;
    with_block (inode_block sb ino) None (fun i =>
      x ← cache_data i; mret (Some (peek_inode (inode_offset ino) x))).

Definition store_inode (i : Inode) : M bool :=
  c ← the_ic;
  if negb (parent_ c) then mret false
  else
    sb ← the_sb;
    with_block_for_write (inode_block sb (inode_num i)) false (fun b =>
      x ← cache_data b;
      _ ← cache_store b (poke_inode (inode_offset (inode_num i)) i x);
      mret true).

(** Applies an operation that can leave its arrays to the inode cache. *)
Definition on_ic (f : InodeCache -> res InodeCache) : M unit := c ← the_ic; c ← lift (f c); set_ic c.

Definition ic_sync (i : Z) : M bool :=
  c ← the_ic;
  e ← lift (rd (entries_ c) i);
  if negb (valid e) || negb (dirty e) then mret true
  else
    ok ← store_inode (inode e);
    if (ok : bool) then _ ← on_ic (ic_upd i (ci_set_dirty false)); mret true else mret false.

Fixpoint ic_victim (l : list Z) (c : InodeCache) : res (option Z) :=
  match l with
  | [] => Ok None
  | i :: l => e ← rd (entries_ c) i; if refcount e =? 0 then Ok (Some i) else ic_victim l c
  end.

Definition ic_evict : M (option Z) :=
  c ← the_ic;
  o ← lift (ic_victim (rev (lru_ c)) c);
  match o with
  | None => mret None
  | Some i =>
      e ← lift (rd (entries_ c) i);
      _ ← (if valid e && dirty e then ic_sync i else mret true);
      _ ← (if valid e then on_ic (ic_remove_hash i) else mret tt);
      mret (Some i)
  end.

Definition ic_get (ino : Z) : M (option Z) :=
  c ← the_ic;
  o ← lift (ic_find ino c);
  match o with
  | Some i =>
      _ ← on_ic (fun c => c ← ic_upd i (fun e => ci_set_refcount (u32 (refcount e + 1)) e) (ic_hit c); Ok (ic_touch i c));
      mret (Some i)
  | None =>
      _ ← set_ic (ic_miss c);
      v ← ic_evict;
      match v with
      | None => mret None
      | Some i =>
          r ← load_inode ino;
          match r with
          | None => mret None
          | Some x =>
              _ ← on_ic (ic_upd i (fun _ => mkCi x 1 true false));
              _ ← on_ic (ic_insert_hash i);
              _ ← on_ic (fun c => Ok (ic_touch i c));
              mret (Some i)
          end
      end
  end.

Definition ic_release (i : Z) : M unit :=
  on_ic (ic_upd i (fun e => if 0 <? refcount e then ci_set_refcount (refcount e - 1) e else e)).

Definition ic_sync_all : M unit :=
  for_each (seqZ 0 INODE_CACHE_SIZE) (fun i => _ ← ic_sync i; mret tt).

Definition ic_invalidate (ino : Z) : M unit :=
  c ← the_ic;
  o ← lift (ic_find ino c);
  match o with
  | None => mret tt
  | Some i =>
      e ← lift (rd (entries_ c) i);
      _ ← (if dirty e then ic_sync i else mret true);
      _ ← on_ic (ic_remove_hash i);
      on_ic (ic_upd i (ci_set_valid false))
  end.

Definition get_cached_inode (ino : Z) : M (option Z) :=
  m ← is_mounted; if negb m then mret None else ic_get ino.
Definition release_cached_inode (i : Z) : M unit := ic_release i.
Definition mark_inode_dirty (i : Z) : M unit := on_ic (ic_upd i (ci_set_dirty true)).
Definition sync_inodes : M unit := ic_sync_all.

(** ** Mounting *)

(** The search for a superblock: the primary one, else the backup, which is
    then copied over the primary. *)
Definition find_superblock : M bool :=
  primary ← read_and_validate_superblock SUPERBLOCK_PRIMARY;
  match primary with
  | Some sb => _ ← update_fs (with_sb (fun _ => sb)); mret true
  | None =>
      raw ← with_block SUPERBLOCK_PRIMARY None (fun i => x ← cache_data i; mret (Some (total_blocks (decode_sb x))));
      match raw with
      | None => mret false
      | Some total =>
          if total <? 2 then mret false
          else
            backup ← read_and_validate_superblock (total - 1);
            match backup with
            | None => mret false
            | Some sb =>
                _ ← update_fs (with_sb (fun _ => sb));
                _ ← change_block SUPERBLOCK_PRIMARY (fun _ => encode_sb sb);
                mret true
            end
      end
  end.

Definition mount : M bool :=
  ok ← find_superblock;
  if negb ok then mret false
  else
    _ ← on_ic (fun c => Ok (ic_set_parent (ic_init c)));
    _ ← update_fs (fun v => set_sb_dirty false (set_mounted true v));
    sb ← the_sb;
    sys ← gets sys_;
    _ ← match sys with
        | None =>
            let journal_start := u64 (total_blocks sb - Journal.JOURNAL_BLOCKS) in
            if data_start sb <? journal_start then on_system (Journal.mount_journal journal_start) else mret false
        | Some _ => mret false
        end;
    mret true.

Definition unmount : M unit :=
  m ← is_mounted;
  if negb m then mret tt
  else
    _ ← ic_sync_all;
    _ ← write_superblock_with_backup;
    _ ← update_fs (set_sb_dirty false);
    en ← journal_enabled;
    _ ← (if (en : bool) then on_system (fun j g => g ← Journal.journal_sync j g; Ok (j, g, tt)) else mret tt);
    _ ← cache_sync;
    update_fs (set_mounted false).

Definition sync : M unit :=
  m ← is_mounted;
  if negb m then mret tt
  else
    _ ← sync_inodes;
    d ← gets (fun s => sb_dirty_ (fs s));
    _ ← (if (d : bool) then _ ← write_superblock_with_backup; update_fs (set_sb_dirty false) else mret tt);
    cache_sync.

End driver.
End ViperFs.
