(* ===== verification/FsWorld.v ===== *)
(** * ViperFS over an array of blocks

    The block cache promises its clients an array of blocks ([CacheSpec]).
    [evals l m w a w'] states that the operation [m], run while the blocks of
    [l] are held on a state that shows the world [w], returns [a] and leaves a
    state that shows [w'].  A world is the state of the driver with the cache
    and its device replaced by the array they show.  The rules of this file let
    the other files reason about operations on worlds only. *)

From S2P Require Import Prelude Bytes Cache CacheSpec Journal FsLayout ViperFs.

Module FsWorld.
Import Bytes FsLayout ViperFs.

(** Replaces block [n]. *)
Definition put {G} (n : Z) (x : list Z) (w : st (Z -> list Z) G) : st (Z -> list Z) G :=
  set_own (fun k => if k =? n then x else own w k) w.

Lemma put_other {G} n x (w : st (Z -> list Z) G) k : k <> n -> own (put n x w) k = own w k.
Proof. intros H. cbn. by rewrite (proj2 (Z.eqb_neq k n) H). Qed.
Lemma put_same {G} n x (w : st (Z -> list Z) G) : own (put n x w) n = x.
Proof. cbn. by rewrite Z.eqb_refl. Qed.

Section worlds.
Context {D : Type} {BD : Cache.BlockDevice D} {DL : CacheSpec.DeviceLaws D} {ENV : Env}.

Local Abbreviation store_t := (Cache.BlockCache * D)%type.
Local Abbreviation state := (st store_t store_t).
Local Abbreviation world := (st (Z -> list Z) store_t).

Record sees (l : list (Z * Z)) (s : state) (w : world) : Prop := {
  v_holding : CacheSpec.holding l.*1 (own s);
  v_slots : forall i n, (i, n) ∈ l -> CacheSpec.slot_is (own s) i n;
  v_view : forall k, CacheSpec.view (own s) k = own w k;
  v_fs : fs s = fs w;
  v_clock : clock_ s = clock_ w;
  v_journal : journal_ s = journal_ w;
  v_sys : sys_ s = sys_ w
}.

Definition evals {A} (l : list (Z * Z)) (m : M A) (w : world) (a : A) (w' : world) : Prop :=
  forall s, sees l s w -> exists s', m s = Ok (a, s') /\ sees l s' w'.

Definition sized (w : world) : Prop := forall k, length (own w k) = Z.to_nat BLOCK_SIZE.

(** Equality of worlds, block by block. *)
Definition weq (w w' : world) : Prop :=
  fs w = fs w' /\ clock_ w = clock_ w' /\ journal_ w = journal_ w' /\ sys_ w = sys_ w' /\ forall k, own w k = own w' k.

#[export] Instance weq_equivalence : Equivalence weq.
Proof.
  split.
  - intros w. by repeat split.
  - intros w w' (? & ? & ? & ? & ?). by repeat split.
  - intros w w' w'' (? & ? & ? & ? & H) (? & ? & ? & ? & H'). repeat split; try congruence. intros k. by rewrite H, H'.
Qed.

#[export] Instance sees_proper l s : Proper (weq ==> iff) (sees l s).
Proof.
  cut (forall w w', weq w w' -> sees l s w -> sees l s w'). { intros H w w' E. split; apply H; done. }
  intros w w' (E1 & E2 & E3 & E4 & E5) [Hh Hs Hv Hf Hc Hj Hg].
  constructor; try done; try congruence. intros k. by rewrite Hv, E5.
Qed.

#[export] Instance evals_proper {A} l (m : M A) : Proper (weq ==> eq ==> weq ==> iff) (evals l m).
Proof.
  intros w1 w2 Hw a ? <- v1 v2 Hv. unfold evals.
  split; intros H s Hs; [rewrite <- Hw in Hs|rewrite Hw in Hs]; destruct (H s Hs) as (s' & E & Hs'); exists s';
    (split; [done|]); [by rewrite <- Hv|by rewrite Hv].
Qed.

Lemma put_sized n x w : sized w -> length x = Z.to_nat BLOCK_SIZE -> sized (put n x w).
Proof. intros H Hx k. cbn. by destruct (k =? n). Qed.

(** ** Rules *)

Lemma ev_sized {A} l (m : M A) w a w' : (sized w -> evals l m w a w') -> evals l m w a w'.
Proof.
  intros H s Hs. apply H; [|done]. intros k. rewrite <- (v_view _ _ _ Hs).
  apply CacheSpec.view_length, (CacheSpec.k_inv _ _ (v_holding _ _ _ Hs)).
Qed.

Lemma ev_ret {A} l (a : A) w : evals l (mret a) w a w.
Proof. intros s Hs. by exists s. Qed.

Lemma ev_bind {A B} l (m : M A) (f : A -> M B) w a w1 b w2 :
  evals l m w a w1 -> evals l (f a) w1 b w2 -> evals l (m ≫= f) w b w2.
Proof.
  intros Hm Hf s Hs. destruct (Hm s Hs) as (s1 & E1 & Hs1). destruct (Hf s1 Hs1) as (s2 & E2 & Hs2).
  exists s2. split; [|done]. unfold mbind, M_bind. rewrite E1. exact E2.
Qed.

Lemma ev_lift {A} l (m : res A) a w : m = Ok a -> evals l (lift m) w a w.
Proof. intros -> s Hs. by exists s. Qed.

Lemma ev_mounted l w : evals l is_mounted w (mounted_ (fs w)) w.
Proof. intros s Hs. exists s. split; [|done]. unfold is_mounted, gets. by rewrite (v_fs _ _ _ Hs). Qed.
Lemma ev_sb l w : evals l the_sb w (sb_ (fs w)) w.
Proof. intros s Hs. exists s. split; [|done]. unfold the_sb, gets. by rewrite (v_fs _ _ _ Hs). Qed.
Lemma ev_ic l w : evals l the_ic w (inode_cache_ (fs w)) w.
Proof. intros s Hs. exists s. split; [|done]. unfold the_ic, gets. by rewrite (v_fs _ _ _ Hs). Qed.
Lemma ev_enabled l w : evals l journal_enabled w (Journal.enabled_ (journal_ w)) w.
Proof. intros s Hs. exists s. split; [|done]. unfold journal_enabled, gets. by rewrite (v_journal _ _ _ Hs). Qed.
Lemma ev_dirty l w : evals l (gets (fun s => sb_dirty_ (fs s))) w (sb_dirty_ (fs w)) w.
Proof. intros s Hs. exists s. split; [|done]. unfold gets. by rewrite (v_fs _ _ _ Hs). Qed.
Lemma ev_sys l w : evals l (gets sys_) w (sys_ w) w.
Proof. intros s Hs. exists s. split; [|done]. unfold gets. by rewrite (v_sys _ _ _ Hs). Qed.

Lemma ev_update_fs l f w : evals l (update_fs f) w tt (set_fs (f (fs w)) w).
Proof.
  intros s [Hh Hs Hv Hf Hc Hj Hg]. exists (set_fs (f (fs s)) s). split; [done|]. constructor; cbn; try done. by rewrite Hf.
Qed.

Lemma ev_ask {A} l (q : Z -> A) w :
  evals l (b ← gets (fun s => q (clock_ s)); _ ← modify tick; mret b) w (q (clock_ w)) (tick w).
Proof.
  intros s [Hh Hs Hv Hf Hc Hj Hg]. exists (tick s). split; [by rewrite <- Hc|]. constructor; cbn; congruence || done.
Qed.
Lemma ev_now l w : evals l now w (get_ms (clock_ w)) (tick w).
Proof. apply (ev_ask l get_ms). Qed.
Lemma ev_inode_buffer l w : evals l alloc_inode_buffer w (inode_alloc (clock_ w)) (tick w).
Proof. apply (ev_ask l inode_alloc). Qed.
Lemma ev_stack_array l w : evals l stack_array w (stack_bytes (clock_ w)) (tick w).
Proof. apply (ev_ask l stack_bytes). Qed.

Lemma ev_data l i n w : (i, n) ∈ l -> evals l (cache_data i) w (own w n) w.
Proof.
  intros Hi s Hs. exists s. split; [|done].
  destruct (CacheSpec.slot_data (own s) i n (CacheSpec.k_inv _ _ (v_holding _ _ _ Hs)) (v_slots _ _ _ Hs i n Hi)) as (b & E & Hd & _).
  unfold cache_data. rewrite E, bind_Ok, Hd. by rewrite (v_view _ _ _ Hs).
Qed.

Lemma ev_store l i n x w :
  (i, n) ∈ l -> length x = Z.to_nat BLOCK_SIZE -> evals l (cache_store i x) w tt (put n x w).
Proof.
  intros Hi Hx s [Hh Hs Hv Hf Hc Hj Hg].
  destruct (CacheSpec.store_held i n x l.*1 (own s) Hh (Hs i n Hi) Hx) as (c & b & E & Hh' & _ & _ & Hv' & Hs' & _).
  exists (set_own (c, (own s).2) s). split; [unfold cache_store; by rewrite E|].
  constructor; cbn; try done; [by auto|]. intros k. rewrite Hv'. by destruct (k =? n).
Qed.

Lemma fetch_rule {A} (fetch : bool) l n (fail : A) body w a w' :
  (length l < 60)%nat -> (forall i, evals ((i, n) :: l) (body i) w a w') ->
  evals l (o ← (if fetch then cache_get_for_write n else cache_get n);
           match o with None => mret fail | Some i => a ← body i; _ ← cache_release i; mret a end) w a w'.
Proof.
  intros Hl Hb s [Hh Hs Hv Hf Hc Hj Hg].
  destruct (CacheSpec.fetch_ok fetch n l.*1 (own s) Hh ltac:(rewrite length_fmap; lia))
    as ([c d] & i & b & E & G & Hh1 & Hi & Hk & _).
  set (s1 := set_own (c, d) s).
  assert (H1 : sees ((i, n) :: l) s1 w).
  { constructor; cbn; try done.
    - intros j m [[= -> ->]|Hj']%elem_of_cons; [done|]. apply Hk; [|by apply Hs].
      apply list_elem_of_fmap. by exists (j, m).
    - intros k. rewrite <- Hv. apply (CacheSpec.g_view _ _ _ _ _ G). }
  destruct (Hb i s1 H1) as (s2 & E2 & [Hh2 Hs2 Hv2 Hf2 Hc2 Hj2 Hg2]).
  destruct (CacheSpec.release_held i l.*1 (own s2) Hh2) as (c3 & E3 & Hh3 & Hv3 & Hs3 & _).
  { apply (CacheSpec.slot_exists _ _ n), Hs2. apply list_elem_of_here. }
  exists (set_own (c3, (own s2).2) s2). split.
  - unfold mbind at 1, M_bind at 1. destruct fetch; unfold cache_get, cache_get_for_write; cbn [CacheSpec.fetch_block] in E; rewrite E, !bind_Ok; cbn [fst snd];
      change (set_own (c, d) s) with s1; unfold mbind at 1, M_bind at 1; rewrite E2, bind_Ok; cbn [fst snd];
      unfold mbind at 1, M_bind at 1, cache_release; rewrite E3; done.
  - constructor; cbn; try done.
    + intros j m Hj'. apply Hs3, Hs2. by apply list_elem_of_further.
    + intros k. rewrite Hv3. apply Hv2.
Qed.

Lemma ev_with_block {A} l n (fail : A) body w a w' :
  (length l < 60)%nat -> (forall i, evals ((i, n) :: l) (body i) w a w') -> evals l (with_block n fail body) w a w'.
Proof. intros. by apply (fetch_rule false). Qed.
Lemma ev_with_block_for_write {A} l n (fail : A) body w a w' :
  (length l < 60)%nat -> (forall i, evals ((i, n) :: l) (body i) w a w') -> evals l (with_block_for_write n fail body) w a w'.
Proof. intros. by apply (fetch_rule true). Qed.

Lemma ev_change l n f w :
  (length l < 60)%nat -> (sized w -> length (f (own w n)) = Z.to_nat BLOCK_SIZE) ->
  evals l (change_block n f) w true (put n (f (own w n)) w).
Proof.
  intros Hl Hf. apply ev_sized. intros Hw. apply ev_with_block; [done|]. intros i.
  eapply ev_bind; [apply ev_data, list_elem_of_here|]. eapply ev_bind; [|apply ev_ret].
  apply ev_store; [apply list_elem_of_here|auto].
Qed.

Lemma ev_sync w : evals [] cache_sync w tt w.
Proof.
  intros s [Hh Hs Hv Hf Hc Hj Hg]. destruct (CacheSpec.sync_calm [] (own s) Hh) as (s' & E & Hh' & _ & Hv' & _).
  exists (set_own s' s). split; [unfold cache_sync; by rewrite E|]. constructor; cbn; try done.
  - by intros i n ?%not_elem_of_nil.
  - intros k. by rewrite Hv'.
Qed.

End worlds.
End FsWorld.
