(* ===== verification/FsBitmap.v ===== *)
(** * ViperFS: the allocation bitmap

    [used w b] is the bit of block [b] in the bitmap.  The allocator returns
    the first free block and marks it, never a block of the metadata, and its
    counter of free blocks is the number of clear bits. *)

From S2P Require Import Prelude Bytes Cache CacheSpec FsLayout ViperFs FsWorld.

Module FsBitmap.
Import Bytes FsLayout ViperFs FsWorld.

(** ** Bits of a byte *)

(** The byte with bit [bit] set or cleared, as the source computes it. *)
Definition with_bit (bit : Z) (val : bool) (v : Z) : Z :=
  if val then u8 (Z.lor v (Z.shiftl 1 bit)) else Z.land v (u8 (Z.lnot (Z.shiftl 1 bit))).

Lemma shift_byte bit : 0 <= bit < 8 -> 0 <= Z.shiftl 1 bit < 256.
Proof.
  intros H. rewrite Z.shiftl_1_l. split; [lia|]. change 256 with (2 ^ 8). apply Z.pow_lt_mono_r; lia.
Qed.

Lemma with_bit_test bit val v n :
  0 <= bit < 8 -> 0 <= v < 256 -> 0 <= n -> Z.testbit (with_bit bit val v) n = if n =? bit then val else Z.testbit v n.
Proof.
  intros Hb Hv Hn. unfold with_bit. destruct val.
  - rewrite u8_small by (apply (lor_width 8); [lia|done|by apply shift_byte]).
    rewrite Z.shiftl_1_l, lor_bit by lia. rewrite Z.eqb_sym. by destruct (n =? bit).
  - rewrite (land_clear 8) by (done || lia). rewrite Z.eqb_sym. by destruct (n =? bit).
Qed.

Lemma with_bit_byte bit val v : 0 <= bit < 8 -> 0 <= v < 256 -> 0 <= with_bit bit val v < 256.
Proof. intros Hb Hv. unfold with_bit. destruct val; [apply u8_range|by apply (land_width_l 8)]. Qed.

Lemma clear_bit_spec fuel b v :
  0 <= b ->
  match clear_bit fuel b v with
  | Some n => b <= n < b + Z.of_nat fuel /\ Z.testbit v n = false /\ forall k, b <= k < n -> Z.testbit v k = true
  | None => forall k, b <= k < b + Z.of_nat fuel -> Z.testbit v k = true
  end.
Proof.
  revert b. induction fuel as [|fuel IH]; intros b Hb; cbn [clear_bit]; [intros k; lia|].
  rewrite Z.shiftl_1_l, land_bit by done. destruct (Z.testbit v b) eqn:E; cbn [negb].
  - specialize (IH (b + 1) ltac:(lia)). destruct (clear_bit fuel (b + 1) v).
    + destruct IH as (? & ? & IH). split; [lia|]. split; [done|]. intros k Hk. destruct (decide (k = b)) as [->|]; [done|]. apply IH. lia.
    + intros k Hk. destruct (decide (k = b)) as [->|]; [done|]. apply IH. lia.
  - split; [lia|]. split; [done|]. intros k. lia.
Qed.

Lemma bit_255 n : 0 <= n < 8 -> Z.testbit 255 n = true.
Proof. intros H. apply (Z.ones_spec_low 8). lia. Qed.

(** The bit [i] of a block of the bitmap. *)
Definition bit_of (x : list Z) (i : Z) : bool := Z.testbit (byte_at (i / 8) x) (i mod 8).

Lemma clear_byte_spec byte l :
  0 <= byte -> is_bytes l ->
  match clear_byte byte l with
  | Some (y, n) => exists j, y = byte + j /\ 0 <= j < Z.of_nat (length l) /\ 0 <= n < 8 /\ bit_of l (8 * j + n) = false /\
      forall k, 0 <= k < 8 * j + n -> bit_of l k = true
  | None => forall k, 0 <= k < 8 * Z.of_nat (length l) -> bit_of l k = true
  end.
Proof.
  intros Hb Hl. revert byte Hb. induction Hl as [|v l Hv Hl IH]; intros byte Hbyte; cbn [clear_byte]; [intros k; cbn; lia|].
  assert (Hhead : forall k, 0 <= k < 8 -> bit_of (v :: l) k = Z.testbit v k).
  { intros k Hk. unfold bit_of. rewrite Z.div_small, Z.mod_small by lia. done. }
  assert (Htail : forall k, 8 <= k -> bit_of (v :: l) k = bit_of l (k - 8)).
  { intros k Hk. unfold bit_of, byte_at. replace (k / 8) with ((k - 8) / 8 + 1) by div_lia.
    replace ((k - 8) mod 8) with (k mod 8) by div_lia.
    rewrite Z2Nat.inj_add by div_lia. by rewrite Nat.add_comm. }
  assert (Hc := clear_bit_spec 8 0 v ltac:(lia)).
  set (o := if negb (v =? 0xFF) then clear_bit 8 0 v else None).
  assert (Ho : match o with Some n => 0 <= n < 8 /\ Z.testbit v n = false /\ (forall k, 0 <= k < n -> Z.testbit v k = true)
    | None => forall k, 0 <= k < 8 -> Z.testbit v k = true end).
  { subst o. destruct (Z.eqb_spec v 0xFF) as [->|]; cbn [negb]; [intros k ?; by apply bit_255|].
    destruct (clear_bit 8 0 v); naive_solver lia. }
  destruct o as [n|].
  - destruct Ho as (H1 & H2 & H3). exists 0. split; [lia|]. split; [cbn; lia|]. split; [lia|].
    split; [by rewrite Hhead by lia|]. intros k Hk. rewrite Hhead by lia. apply H3. lia.
  - specialize (IH (byte + 1) ltac:(lia)). destruct (clear_byte (byte + 1) l) as [[y n]|].
    + destruct IH as (j & -> & H1 & H2 & H3 & H4). exists (j + 1). split; [lia|]. split; [cbn; lia|]. split; [lia|].
      split; [rewrite Htail by lia; replace (8 * (j + 1) + n - 8) with (8 * j + n) by lia; done|].
      intros k Hk. destruct (decide (k < 8)); [rewrite Hhead by lia; apply Ho; lia|]. rewrite Htail by lia. apply H4. lia.
    + intros k Hk. cbn [length] in Hk. destruct (decide (k < 8)); [rewrite Hhead by lia; apply Ho; lia|].
      rewrite Htail by lia. apply IH. lia.
Qed.

Lemma bit_of_update x k bit val i :
  is_bytes x -> 0 <= k < Z.of_nat (length x) -> 0 <= bit < 8 -> 0 <= i ->
  bit_of (set_byte k (with_bit bit val (byte_at k x)) x) i = if i =? 8 * k + bit then val else bit_of x i.
Proof.
  intros Hx Hk Hb Hi. unfold bit_of, byte_at, set_byte. destruct (decide (i / 8 = k)) as [<-|Hne].
  - rewrite list_lookup_insert_eq by lia. cbn [from_option id]. rewrite with_bit_test; [|done| |div_lia].
    + replace (i =? 8 * (i / 8) + bit) with (i mod 8 =? bit); [done|]. apply Bool.eq_iff_eq_true. rewrite !Z.eqb_eq. div_lia.
    + destruct (x !! Z.to_nat (i / 8)) eqn:E; cbn; [|lia]. by apply (Forall_lookup_1 _ _ _ _ Hx E).
  - rewrite list_lookup_insert_ne by (intros ?; apply Hne; div_lia). rewrite (proj2 (Z.eqb_neq i _)); [done|]. div_lia.
Qed.

Lemma byte_at_range k x : is_bytes x -> 0 <= byte_at k x < 256.
Proof.
  intros Hx. unfold byte_at. destruct (x !! Z.to_nat k) eqn:E; cbn; [|lia]. by apply (Forall_lookup_1 _ _ _ _ Hx E).
Qed.

(** ** Counting *)

Lemma countb_cons {A} (p : A -> bool) x l : countb p (x :: l) = ((if p x then 1 else 0) + countb p l)%nat.
Proof. unfold countb. cbn. by destruct (p x). Qed.

Lemma countb_flip (p q : Z -> bool) l x :
  NoDup l -> x ∈ l -> p x = false -> q x = true -> (forall y, y ∈ l -> y <> x -> q y = p y) -> countb q l = S (countb p l).
Proof.
  induction 1 as [|y l Hy Hl IH]; intros Hx Hp Hq Ho; [by apply not_elem_of_nil in Hx|]. rewrite !countb_cons.
  apply elem_of_cons in Hx as [<-|Hx].
  - rewrite Hp, Hq. cbn. f_equal. unfold countb. f_equal. apply List.filter_ext_in. intros z Hz. apply list_elem_of_In in Hz.
    apply Ho; [by apply list_elem_of_further|by intros ->].
  - rewrite Ho by (try apply list_elem_of_here; by intros ->). rewrite IH; [lia|done|done|done|].
    intros z Hz Hne. apply Ho; [by apply list_elem_of_further|done].
Qed.

(** ** The bitmap of a file system *)

Section bitmap.
Context {G : Type}.
Local Abbreviation world := (st (Z -> list Z) G).
Implicit Type w : world.

Definition the_super w : Superblock := sb_ (fs w).

(** The regions of the disk follow each other as the superblock lays them out. *)
Record geometry (sb : Superblock) : Prop := {
  g_bitmap_start : 0 < bitmap_start sb;
  g_bitmap_blocks : 0 <= bitmap_blocks sb;
  g_inode_table : bitmap_start sb + bitmap_blocks sb <= inode_table_start sb;
  g_inode_blocks : 0 <= inode_table_blocks sb;
  g_inode_count : inode_count sb <= 16 * inode_table_blocks sb;
  g_data_start : inode_table_start sb + inode_table_blocks sb <= data_start sb;
  g_total : data_start sb <= total_blocks sb;
  g_bits : total_blocks sb <= bitmap_blocks sb * 32768;
  g_small : total_blocks sb < 4294967296
}.

Definition bitmap_of w (b : Z) : Z := bitmap_start (the_super w) + b / 32768.
Definition used w (b : Z) : bool := bit_of (own w (bitmap_of w b)) (b mod 32768).
Definition nfree w : Z := Z.of_nat (countb (fun b => negb (used w b)) (seqZ 0 (total_blocks (the_super w)))).

Record sane w : Prop := {
  s_mounted : mounted_ (fs w) = true;
  s_geometry : geometry (the_super w);
  s_bytes : forall k, is_bytes (own w k);
  s_sized : forall k, length (own w k) = 4096%nat;
  s_meta : forall b, 0 <= b < data_start (the_super w) -> used w b = true;
  s_count : free_blocks (the_super w) = nfree w
}.

(** Setting or clearing the bit of [b]. *)
Definition mark (b : Z) (val : bool) w : world :=
  put (bitmap_of w b)
    (set_byte (b mod 32768 / 8) (with_bit (b mod 8) val (byte_at (b mod 32768 / 8) (own w (bitmap_of w b)))) (own w (bitmap_of w b))) w.

Definition count_free (n : Z) (v : ViperFS) : ViperFS :=
  set_sb_dirty true (with_sb (fun sb => set_free_blocks (u64 (free_blocks sb + n)) sb) v).

(** The world after the allocation of [b], and after its release. *)
Definition take_block (b : Z) w : world := set_fs (count_free (-1) (fs w)) (mark b true w).
Definition drop_block (b : Z) w : world := set_fs (count_free 1 (fs w)) (mark b false w).

(** The blocks of the bitmap. *)
Definition in_bitmap w (k : Z) : Prop :=
  bitmap_start (the_super w) <= k < bitmap_start (the_super w) + bitmap_blocks (the_super w).

Lemma bitmap_of_range w b : sane w -> 0 <= b < total_blocks (the_super w) -> in_bitmap w (bitmap_of w b).
Proof. intros H Hb. unfold in_bitmap, bitmap_of. destruct (s_geometry _ H). div_lia. Qed.

Lemma mark_bits w b val c :
  sane w -> 0 <= b < total_blocks (the_super w) -> 0 <= c ->
  used (mark b val w) c = if c =? b then val else used w c.
Proof.
  intros H Hb Hc. unfold used at 1, mark. change (bitmap_of (put _ _ w) c) with (bitmap_of w c).
  destruct (decide (bitmap_of w c = bitmap_of w b)) as [E|Hne].
  - assert (E' := E). rewrite E, put_same. unfold bitmap_of in E.
    rewrite bit_of_update by (apply (s_bytes _ H) || rewrite ?(s_sized _ H); div_lia).
    replace (8 * (b mod 32768 / 8) + b mod 8) with (b mod 32768) by div_lia.
    replace (c mod 32768 =? b mod 32768) with (c =? b); [unfold used; by rewrite E'|].
    apply Bool.eq_iff_eq_true. rewrite !Z.eqb_eq. div_lia.
  - rewrite put_other by done. destruct (Z.eqb_spec c b); [by subst|done].
Qed.

Lemma mark_other w b val k : k <> bitmap_of w b -> own (mark b val w) k = own w k.
Proof. intros H. by apply put_other. Qed.

Lemma mark_bytes w b val k : sane w -> is_bytes (own (mark b val w) k).
Proof.
  intros H. unfold mark. destruct (decide (k = bitmap_of w b)) as [->|].
  - rewrite put_same. apply Forall_insert; [apply (s_bytes _ H)|].
    apply with_bit_byte; [apply Z.mod_pos_bound; lia|apply byte_at_range, (s_bytes _ H)].
  - rewrite put_other by done. apply (s_bytes _ H).
Qed.

Lemma mark_sized w b val k : sane w -> length (own (mark b val w) k) = 4096%nat.
Proof.
  intros H. unfold mark. destruct (decide (k = bitmap_of w b)) as [->|].
  - rewrite put_same. unfold set_byte. rewrite length_insert. apply (s_sized _ H).
  - rewrite put_other by done. apply (s_sized _ H).
Qed.

Lemma nfree_range w : 0 <= nfree w.
Proof. unfold nfree. lia. Qed.

Lemma nfree_bound w : sane w -> nfree w <= total_blocks (the_super w).
Proof.
  intros H. unfold nfree. assert (L := countb_length (fun b => negb (used w b)) (seqZ 0 (total_blocks (the_super w)))).
  rewrite length_seqZ in L. destruct (s_geometry _ H). lia.
Qed.

Lemma nfree_mark w b val :
  sane w -> 0 <= b < total_blocks (the_super w) -> used w b = negb val ->
  nfree (mark b val w) = nfree w + if val then -1 else 1.
Proof.
  intros H Hb Hu. unfold nfree. change (the_super (mark b val w)) with (the_super w).
  assert (Hin : b ∈ seqZ 0 (total_blocks (the_super w))) by (apply elem_of_seqZ; lia).
  assert (Ho : forall c, c ∈ seqZ 0 (total_blocks (the_super w)) -> c <> b -> used (mark b val w) c = used w c).
  { intros c Hc%elem_of_seqZ Hne. rewrite mark_bits by (done || lia). by rewrite (proj2 (Z.eqb_neq c b)). }
  assert (Hs : used (mark b val w) b = val) by (rewrite mark_bits by (done || lia); by rewrite Z.eqb_refl).
  destruct val; cbn [negb] in Hu.
  - rewrite (countb_flip (fun c => negb (used (mark b true w) c)) (fun c => negb (used w c)) _ b);
      [lia|apply NoDup_seqZ|done|by rewrite Hs|by rewrite Hu|]. intros y Hy Hne. by rewrite Ho.
  - rewrite (countb_flip (fun c => negb (used w c)) (fun c => negb (used (mark b false w) c)) _ b);
      [lia|apply NoDup_seqZ|done|by rewrite Hu|by rewrite Hs|]. intros y Hy Hne. by rewrite Ho.
Qed.

Lemma nfree_pos w b : 0 <= b < total_blocks (the_super w) -> used w b = false -> 0 < nfree w.
Proof.
  intros Hb Hu. unfold nfree, countb. assert (Hin : b ∈ List.filter (fun b => negb (used w b)) (seqZ 0 (total_blocks (the_super w)))).
  { apply list_elem_of_In, filter_In. split; [apply list_elem_of_In, elem_of_seqZ; lia|by rewrite Hu]. }
  destruct (List.filter _ _); [by apply not_elem_of_nil in Hin|]. cbn. lia.
Qed.

Lemma nfree_zero w : (forall b, 0 <= b < total_blocks (the_super w) -> used w b = true) -> nfree w = 0.
Proof.
  intros H. unfold nfree, countb. destruct (List.filter _ _) as [|b l] eqn:E; [done|].
  assert (Hb : List.In b (List.filter (fun b => negb (used w b)) (seqZ 0 (total_blocks (the_super w))))) by (rewrite E; by left).
  apply filter_In in Hb as [Hb Hu]. apply list_elem_of_In, elem_of_seqZ in Hb. rewrite H in Hu by lia. done.
Qed.

(** *** The two operations keep the file system sane *)

Lemma take_bits w b c :
  sane w -> 0 <= b < total_blocks (the_super w) -> 0 <= c -> used (take_block b w) c = (c =? b) || used w c.
Proof. intros H Hb Hc. transitivity (used (mark b true w) c); [done|]. rewrite mark_bits by done. by destruct (c =? b). Qed.

Lemma drop_bits w b c :
  sane w -> 0 <= b < total_blocks (the_super w) -> 0 <= c -> used (drop_block b w) c = negb (c =? b) && used w c.
Proof. intros H Hb Hc. transitivity (used (mark b false w) c); [done|]. rewrite mark_bits by done. by destruct (c =? b). Qed.

Lemma geometry_free n sb : geometry sb -> geometry (set_free_blocks n sb).
Proof. by intros []. Qed.

Lemma take_sane w b :
  sane w -> data_start (the_super w) <= b < total_blocks (the_super w) -> used w b = false -> sane (take_block b w).
Proof.
  intros H Hb Hu. assert (Hg := s_geometry _ H). assert (0 <= b) by (destruct Hg; lia). constructor.
  - apply (s_mounted _ H).
  - by apply geometry_free.
  - intros k. by apply (mark_bytes w b true).
  - intros k. by apply (mark_sized w b true).
  - intros c Hc. change (data_start (the_super (take_block b w))) with (data_start (the_super w)) in Hc.
    rewrite take_bits by (done || lia). rewrite (s_meta _ H) by done. apply orb_true_r.
  - transitivity (u64 (free_blocks (the_super w) + -1)); [done|]. change (nfree (take_block b w)) with (nfree (mark b true w)).
    rewrite (nfree_mark w b true) by (done || lia). rewrite (s_count _ H).
    assert (0 < nfree w) by (apply (nfree_pos w b); [lia|done]). assert (Hn := nfree_bound w H). destruct Hg. apply u64_small. lia.
Qed.

Lemma drop_sane w b :
  sane w -> data_start (the_super w) <= b < total_blocks (the_super w) -> used w b = true -> sane (drop_block b w).
Proof.
  intros H Hb Hu. assert (Hg := s_geometry _ H). assert (0 <= b) by (destruct Hg; lia). constructor.
  - apply (s_mounted _ H).
  - by apply geometry_free.
  - intros k. by apply (mark_bytes w b false).
  - intros k. by apply (mark_sized w b false).
  - intros c Hc. change (data_start (the_super (drop_block b w))) with (data_start (the_super w)) in Hc.
    rewrite drop_bits by (done || lia). rewrite (s_meta _ H) by done. by rewrite (proj2 (Z.eqb_neq c b)) by lia.
  - transitivity (u64 (free_blocks (the_super w) + 1)); [done|]. change (nfree (drop_block b w)) with (nfree (mark b false w)).
    rewrite (nfree_mark w b false) by (done || lia). rewrite (s_count _ H).
    assert (Hn := nfree_bound w H). assert (Hp := nfree_range w). destruct Hg. apply u64_small. lia.
Qed.

(** A change of a block outside the bitmap. *)
Lemma put_used w n x b : sane w -> 0 <= b < total_blocks (the_super w) -> ~ in_bitmap w n -> used (put n x w) b = used w b.
Proof.
  intros H Hb Hn. unfold used. change (bitmap_of (put n x w) b) with (bitmap_of w b). rewrite put_other; [done|].
  intros E. apply Hn. rewrite <- E. by apply bitmap_of_range.
Qed.

Lemma nfree_ext w w' :
  total_blocks (the_super w') = total_blocks (the_super w) ->
  (forall b, 0 <= b < total_blocks (the_super w) -> used w' b = used w b) -> nfree w' = nfree w.
Proof.
  intros Ht H. unfold nfree. rewrite Ht. f_equal. unfold countb. f_equal. apply List.filter_ext_in. intros b Hb.
  apply list_elem_of_In, elem_of_seqZ in Hb. rewrite H by lia. done.
Qed.

Lemma put_sane w n x :
  sane w -> ~ in_bitmap w n -> is_bytes x -> length x = 4096%nat -> sane (put n x w).
Proof.
  intros H Hn Hx Hl. constructor.
  - apply (s_mounted _ H).
  - apply (s_geometry _ H).
  - intros k. cbn. destruct (k =? n); [done|apply (s_bytes _ H)].
  - intros k. cbn. destruct (k =? n); [done|apply (s_sized _ H)].
  - intros b Hb. change (data_start (the_super (put n x w))) with (data_start (the_super w)) in Hb.
    rewrite put_used by (done || destruct (s_geometry _ H); lia). by apply (s_meta _ H).
  - rewrite (nfree_ext w (put n x w)); [apply (s_count _ H)|done|]. intros b Hb. by apply put_used.
Qed.

Lemma tick_sane w : sane w -> sane (tick w).
Proof. intros []. by constructor. Qed.

Lemma data_not_bitmap w b : sane w -> data_start (the_super w) <= b -> ~ in_bitmap w b.
Proof. intros H Hb [? ?]. destruct (s_geometry _ H). lia. Qed.

End bitmap.

(** ** The operations *)

Section ops.
Context {D : Type} {BD : Cache.BlockDevice D} {DL : CacheSpec.DeviceLaws D} {ENV : Env}.
Local Abbreviation world := (st (Z -> list Z) (Cache.BlockCache * D)%type).
Implicit Type w : world.

(** [b] is the first free block. *)
Definition first_free w (b : Z) : Prop :=
  data_start (the_super w) <= b < total_blocks (the_super w) /\ used w b = false /\ forall c, 0 <= c < b -> used w c = true.

Lemma alloc_scan_ok l n bb w :
  (length l < 59)%nat -> sane w -> 0 <= bb -> bb + Z.of_nat n = bitmap_blocks (the_super w) ->
  (forall c, 0 <= c < 32768 * bb -> used w c = true) ->
  (exists b, first_free w b /\ evals l (alloc_scan n bb) w b (take_block b w)) \/
  (nfree w = 0 /\ evals l (alloc_scan n bb) w 0 w).
Proof.
  intros Hl H. assert (Hg := s_geometry _ H). revert bb. induction n as [|n IH]; intros bb Hbb Hn Hlow; cbn [alloc_scan].
  { right. split; [|apply ev_ret]. apply nfree_zero. intros b Hb. apply Hlow. destruct Hg. lia. }
  assert (Hu : u64 (bitmap_start (the_super w) + bb) = bitmap_start (the_super w) + bb) by (destruct Hg; apply u64_small; lia).
  assert (Hx := s_bytes _ H (bitmap_start (the_super w) + bb)). assert (Hlen := s_sized _ H (bitmap_start (the_super w) + bb)).
  assert (Hused : forall k, 0 <= k < 32768 -> used w (32768 * bb + k) = bit_of (own w (bitmap_start (the_super w) + bb)) k).
  { intros k Hk. unfold used, bitmap_of. replace ((32768 * bb + k) / 32768) with bb by div_lia.
    by replace ((32768 * bb + k) mod 32768) with k by div_lia. }
  assert (Hc := clear_byte_spec 0 _ ltac:(lia) Hx). rewrite Hlen in Hc. set (x := own w (bitmap_start (the_super w) + bb)) in *.
  destruct (clear_byte 0 x) as [[byte bit]|] eqn:E.
  - destruct Hc as (j & -> & Hj & Hbit & Hz & Hfirst). rewrite ?Z.add_0_l in *. set (b := 32768 * bb + (8 * j + bit)).
    assert (Hlow' : forall c, 0 <= c < b -> used w c = true).
    { intros c Hc'. destruct (decide (c < 32768 * bb)); [apply Hlow; lia|]. replace c with (32768 * bb + (c - 32768 * bb)) by lia.
      rewrite Hused by lia. apply Hfirst. lia. }
    assert (Hfree : used w b = false) by (unfold b; by rewrite Hused by lia).
    assert (Hnum : u64 (u64 (bb * (BLOCK_SIZE * 8)) + j * 8 + bit) = b).
    { unfold BLOCK_SIZE, b. destruct Hg. rewrite (u64_small (bb * _)) by lia. rewrite u64_small by lia. lia. }
    destruct (Z.leb_spec (total_blocks (the_super w)) b).
    + right. split; [apply nfree_zero; intros c Hc'; apply Hlow'; lia|].
      eapply ev_bind; [apply ev_sb|]. eapply ev_bind.
      { apply ev_with_block; [lia|]. intros i. fold (the_super w). rewrite Hu. eapply ev_bind; [apply ev_data, list_elem_of_here|].
        fold x. rewrite E. cbv zeta. rewrite Hnum. rewrite (proj2 (Z.leb_le _ _)) by done. apply ev_ret. }
      apply ev_ret.
    + left. exists b. assert (Hds : data_start (the_super w) <= b).
      { destruct (decide (data_start (the_super w) <= b)); [done|]. rewrite (s_meta _ H) in Hfree by lia. done. }
      split; [by split_and!|]. eapply ev_bind; [apply ev_sb|]. fold (the_super w). rewrite Hu. eapply ev_bind.
      { apply ev_with_block; [lia|]. intros i. eapply ev_bind; [apply ev_data, list_elem_of_here|].
        fold x. rewrite E. cbv zeta. rewrite Hnum. rewrite (proj2 (Z.leb_gt _ _)) by done.
        eapply ev_bind; [apply ev_store; [apply list_elem_of_here|]|apply ev_ret]. unfold set_byte. rewrite length_insert. exact Hlen. }
      cbn beta iota. eapply ev_bind; [|apply ev_ret]. assert (Hb : bitmap_of w b = bitmap_start (the_super w) + bb).
      { unfold bitmap_of, b. f_equal. div_lia. }
      assert (Hw : set_fs (count_free (-1) (fs w)) (put (bitmap_start (the_super w) + bb) (set_byte j (u8 (Z.lor (byte_at j x) (Z.shiftl 1 bit))) x) w)
        = take_block b w).
      { unfold take_block, mark. rewrite Hb. fold x. replace (b mod 32768 / 8) with j by (unfold b; div_lia).
        replace (b mod 8) with bit by (unfold b; div_lia). done. }
      rewrite <- Hw. exact (ev_update_fs l (count_free (-1)) _).
  - destruct (IH (bb + 1)) as [(b & Hb & He)|[Hz He]]; [lia|lia| | |].
    { intros c Hc'. destruct (decide (c < 32768 * bb)); [apply Hlow; lia|]. replace c with (32768 * bb + (c - 32768 * bb)) by lia.
      rewrite Hused by lia. apply Hc. lia. }
    all: [> left; exists b; split; [done|]|right; split; [done|]].
    all: eapply ev_bind; [apply ev_sb|]; fold (the_super w); rewrite Hu; apply (ev_bind _ _ _ _ Break w); [|exact He].
    all: apply ev_with_block; [lia|]; intros i; eapply ev_bind; [apply ev_data, list_elem_of_here|]; fold x; rewrite E; apply ev_ret.
Qed.

Lemma ev_alloc l w :
  (length l < 59)%nat -> sane w ->
  (exists b, first_free w b /\ evals l alloc_block_unlocked w b (take_block b w)) \/
  (nfree w = 0 /\ evals l alloc_block_unlocked w 0 w).
Proof.
  intros Hl H. assert (Hg := s_geometry _ H). unfold alloc_block_unlocked.
  assert (Hstep : forall b w', evals l (if free_blocks (the_super w) =? 0 then mret 0
      else alloc_scan (Z.to_nat (bitmap_blocks (the_super w))) 0) w b w' ->
    evals l (m ← is_mounted; if negb m then mret 0 else sb ← the_sb; if free_blocks sb =? 0 then mret 0
      else alloc_scan (Z.to_nat (bitmap_blocks sb)) 0) w b w').
  { intros b w' He. eapply ev_bind; [apply ev_mounted|]. rewrite (s_mounted _ H). cbn [negb]. by eapply ev_bind; [apply ev_sb|]. }
  rewrite (s_count _ H) in Hstep. destruct (Z.eqb_spec (nfree w) 0) as [E|E].
  { right. split; [done|]. apply Hstep, ev_ret. }
  destruct (alloc_scan_ok l (Z.to_nat (bitmap_blocks (the_super w))) 0 w Hl H) as [(b & Hb & He)|[? _]];
    [lia|destruct Hg; lia|lia| |lia].
  left. exists b. split; [done|]. by apply Hstep.
Qed.

Lemma ev_free l b w :
  (length l < 59)%nat -> sane w -> 0 <= b < total_blocks (the_super w) ->
  evals l (free_block_unlocked b) w tt (drop_block b w).
Proof.
  intros Hl H Hb. assert (Hg := s_geometry _ H). unfold free_block_unlocked. eapply ev_bind; [apply ev_mounted|].
  rewrite (s_mounted _ H). cbn [negb]. eapply ev_bind; [apply ev_sb|]. fold (the_super w).
  rewrite (proj2 (Z.leb_gt _ _)) by lia. cbv zeta. unfold BLOCK_SIZE. change (4096 * 8) with 32768.
  rewrite u64_small by (destruct Hg; div_lia). fold (bitmap_of w b).
  replace ((b / 8) mod 4096) with (b mod 32768 / 8) by div_lia.
  eapply ev_bind; [apply ev_change; [lia|intros Hs; unfold set_byte; rewrite length_insert; apply Hs]|].
  exact (ev_update_fs l (count_free 1) (mark b false w)).
Qed.

(** The world after the allocation of a zeroed block. *)
Definition take_zeroed (b : Z) w : world := put b zero_block (take_block b w).

Lemma zero_block_ok : is_bytes zero_block /\ length zero_block = 4096%nat.
Proof. split; [|by vm_compute]. apply Forall_replicate. lia. Qed.

Lemma ev_alloc_zeroed l w :
  (length l < 58)%nat -> sane w ->
  (exists b, first_free w b /\ evals l alloc_zeroed_block_unlocked w b (take_zeroed b w)) \/
  (nfree w = 0 /\ evals l alloc_zeroed_block_unlocked w 0 w).
Proof.
  intros Hl H. unfold alloc_zeroed_block_unlocked. destruct (ev_alloc l w ltac:(lia) H) as [(b & Hb & He)|[Hz He]].
  - left. exists b. split; [done|]. eapply ev_bind; [exact He|]. destruct Hb as (Hb & _). destruct (s_geometry _ H).
    rewrite (proj2 (Z.eqb_neq b 0)) by lia. eapply ev_bind; [apply ev_change; [lia|intros _; apply zero_block_ok]|].
    apply ev_ret.
  - right. split; [done|]. eapply ev_bind; [exact He|]. apply ev_ret.
Qed.

End ops.

End FsBitmap.
