(* ===== verification/FsFile.v ===== *)
(** * ViperFS: the blocks of a file

    The block pointers of an inode form a tree: twelve direct pointers, an
    indirect block, and a double indirect block of indirect blocks.  A position
    of the tree names a pointer; [loc] is its value.  In a well-formed file no
    block hangs at two positions, so changing one pointer changes one position
    ([loc_set]). *)

From S2P Require Import Prelude Bytes Cache CacheSpec FsLayout ViperFs FsWorld FsBitmap.

Module FsFile.
Import Bytes FsLayout ViperFs FsWorld FsBitmap.

(** The number of blocks of the longest file. *)
Definition MAX_IDX : Z := 262668.

Inductive pos := PInd | PDbl | PL1 (j : Z) | PData (idx : Z).
#[export] Instance pos_eq_dec : EqDecision pos.
Proof. solve_decision. Defined.

Definition valid_pos (p : pos) : Prop :=
  match p with
  | PInd | PDbl => True
  | PL1 j => 0 <= j < 512
  | PData idx => 0 <= idx < MAX_IDX
  end.

(** The position of the block that holds a pointer, and its index there. *)
Definition parent (p : pos) : option (pos * Z) :=
  match p with
  | PInd | PDbl => None
  | PL1 j => Some (PDbl, j)
  | PData idx =>
      if idx <? 12 then None
      else if idx <? 524 then Some (PInd, idx - 12)
      else Some (PL1 ((idx - 524) / 512), (idx - 524) mod 512)
  end.

Lemma parent_valid p q k : valid_pos p -> parent p = Some (q, k) -> valid_pos q /\ 0 <= k < 512.
Proof.
  destruct p; cbn; try done; [by intros ? [= <- <-]|]. unfold MAX_IDX. intros H. repeat case_cmp; intros [= <- <-]; cbn; div_lia.
Qed.

Lemma parent_inj p p' c : parent p = Some c -> parent p' = Some c -> p = p'.
Proof.
  destruct p as [| |j|x], p' as [| |j'|x']; cbn; try done; repeat case_cmp; intros [= <-] [=]; f_equal; try lia; try done; div_lia.
Qed.

(** Only blocks of pointers have children. *)
Lemma parent_depth p q k r m : parent p = Some (q, k) -> parent q = Some (r, m) -> parent r = None.
Proof. destruct p; cbn; try done; [by intros [= <- <-]|]. repeat case_cmp; intros [= <- <-]; cbn; try done; by intros [= <- <-]. Qed.

Lemma parent_irrefl p k : parent p <> Some (p, k).
Proof. destruct p; cbn; try done. by repeat case_cmp. Qed.

(** Induction from the root of the tree. *)
Lemma pos_tree_ind (P : pos -> Prop) :
  (forall q, valid_pos q -> parent q = None -> P q) ->
  (forall q r k, valid_pos q -> parent q = Some (r, k) -> valid_pos r -> 0 <= k < 512 -> P r -> P q) ->
  forall q, valid_pos q -> P q.
Proof.
  intros Hroot Hstep q Hq. destruct (parent q) as [[r k]|] eqn:Er; [|by apply Hroot].
  destruct (parent_valid _ _ _ Hq Er) as [Hvr Hk]. apply (Hstep q r k Hq Er Hvr Hk).
  destruct (parent r) as [[s m]|] eqn:Es; [|by apply Hroot]. destruct (parent_valid _ _ _ Hvr Es) as [Hvs Hm].
  apply (Hstep r s m Hvr Es Hvs Hm), Hroot; [done|]. exact (parent_depth q r k s m Er Es).
Qed.

Section tree.
Context {G : Type}.
Local Abbreviation world := (st (Z -> list Z) G).
Implicit Type w : world.

(** The pointer at index [k] of the block [b]; a null block has null pointers. *)
Definition ptr_at w (b k : Z) : Z := if b =? 0 then 0 else ptr k (own w b).

Definition loc w (i : Inode) (p : pos) : Z :=
  match p with
  | PInd => indirect i
  | PDbl => double_indirect i
  | PL1 j => ptr_at w (double_indirect i) j
  | PData idx =>
      if idx <? 12 then nth (Z.to_nat idx) (direct i) 0
      else if idx <? 524 then ptr_at w (indirect i) (idx - 12)
      else ptr_at w (ptr_at w (double_indirect i) ((idx - 524) / 512)) ((idx - 524) mod 512)
  end.

Lemma loc_child w i p q k : parent p = Some (q, k) -> loc w i p = ptr_at w (loc w i q) k.
Proof. destruct p; cbn; try done; [by intros [= <- <-]|]. repeat case_cmp; intros [= <- <-]; done. Qed.

(** Sets the pointer at position [p]. *)
Definition set_loc w (i : Inode) (p : pos) (v : Z) : world * Inode :=
  match parent p with
  | Some (q, k) => (put (loc w i q) (set_ptr k v (own w (loc w i q))) w, i)
  | None =>
      (w, match p with
          | PInd => set_indirect v i
          | PDbl => set_double v i
          | PData idx => set_direct (<[Z.to_nat idx := v]> (direct i)) i
          | PL1 _ => i
          end)
  end.

Lemma ptr_set_same k v x : 0 <= k < 512 -> length x = 4096%nat -> fits 8 v -> ptr k (set_ptr k v x) = v.
Proof. intros Hk Hx Hv. unfold ptr, set_ptr. rewrite ld_st_same by lia. by apply Z.mod_small. Qed.

Lemma ptr_set_other k k' v x : 0 <= k -> 0 <= k' -> k <> k' -> ptr k (set_ptr k' v x) = ptr k x.
Proof. intros ? ? ?. unfold ptr, set_ptr. apply ld_st_other. lia. Qed.

Lemma ptr_fits k x : is_bytes x -> 0 <= k < 512 -> length x = 4096%nat -> fits 8 (ptr k x).
Proof. intros Hx Hk Hl. unfold fits, ptr. apply ld_range; [done|lia]. Qed.

(** A file: no block hangs at two positions, and all are allocated data blocks. *)
Record file_ok w (i : Inode) : Prop := {
  f_good : good_inode i;
  f_inj : forall p q, valid_pos p -> valid_pos q -> loc w i p <> 0 -> loc w i p = loc w i q -> p = q;
  f_own : forall p, valid_pos p -> loc w i p <> 0 ->
    data_start (the_super w) <= loc w i p < total_blocks (the_super w) /\ used w (loc w i p) = true
}.

Definition owned w i (b : Z) : Prop := b <> 0 /\ exists p, valid_pos p /\ loc w i p = b.

Lemma direct_len w i : file_ok w i -> length (direct i) = 12%nat.
Proof. intros H. apply (f_good _ _ H). Qed.

(** What changing the pointer at [p] does to every position.  [w] may differ
    from the world the file was well-formed in, as long as the positions agree. *)
Lemma loc_set w i p v :
  (forall p q, valid_pos p -> valid_pos q -> loc w i p <> 0 -> loc w i p = loc w i q -> p = q) ->
  length (direct i) = 12%nat -> valid_pos p -> fits 8 v ->
  (forall q k, parent p = Some (q, k) -> loc w i q <> 0 /\ length (own w (loc w i q)) = 4096%nat) ->
  (forall c k, parent c = Some (p, k) -> valid_pos c -> ptr_at (set_loc w i p v).1 v k = loc w i c) ->
  forall q, valid_pos q -> loc (set_loc w i p v).1 (set_loc w i p v).2 q = if decide (q = p) then v else loc w i q.
Proof.
  intros Hinj Hd Hp Hv Hpar Hch. set (w' := (set_loc w i p v).1) in *. set (i' := (set_loc w i p v).2).
  apply pos_tree_ind.
  { intros q Hq Hn. subst w' i'. unfold set_loc. destruct (parent p) as [[r k]|] eqn:Ep; cbn [fst snd].
    - rewrite decide_False by congruence. destruct q; try done; cbn in Hn |- *; by repeat case_cmp_in Hn.
    - destruct p as [| |j|x], q as [| |j'|y]; cbn in Ep, Hn |- *; try done; repeat case_cmp_in Ep; repeat case_cmp_in Hn; try done.
      cbn in Hp. assert (Hin := list_lookup_insert_eq (direct i) (Z.to_nat x) v ltac:(lia)).
      destruct (decide (PData y = PData x)) as [[= ->]|Hne]; rewrite nth_lookup; [by rewrite Hin|].
      rewrite list_lookup_insert_ne by (cbn in Hq; intros ?; apply Hne; f_equal; lia). by rewrite nth_lookup. }
  { intros q r k Hq Er Hvr Hk Hr. rewrite (loc_child w' i' q r k Er), Hr.
    destruct (decide (r = p)) as [->|Hrp].
    { rewrite decide_False; [by apply (Hch q k)|]. intros ->. by eapply parent_irrefl. }
    rewrite (loc_child w i q r k Er). unfold ptr_at. destruct (Z.eqb_spec (loc w i r) 0) as [E0|E0].
    { destruct (decide (q = p)) as [->|]; [|done]. by destruct (Hpar r k Er). }
    subst w'. unfold set_loc. destruct (parent p) as [[s m]|] eqn:Ep; cbn [fst].
    2:{ rewrite decide_False; [done|congruence]. }
    destruct (Hpar s m eq_refl) as [Hs0 Hsl]. destruct (parent_valid _ _ _ Hp Ep) as [Hvs Hm].
    destruct (decide (loc w i r = loc w i s)) as [E|E].
    - assert (r = s) as <- by by apply Hinj. rewrite put_same. destruct (decide (q = p)) as [->|Hqp].
      + rewrite Er in Ep. injection Ep as <-. by apply ptr_set_same.
      + apply ptr_set_other; [lia|lia|]. intros <-. apply Hqp. exact (parent_inj q p _ Er Ep).
    - rewrite put_other by done. rewrite decide_False; [done|]. intros ->. congruence. }
Qed.

(** ** Worlds that agree on the blocks of a file *)

Lemma loc_ext w w' i :
  (forall q, valid_pos q -> loc w i q <> 0 -> own w' (loc w i q) = own w (loc w i q)) ->
  forall q, valid_pos q -> loc w' i q = loc w i q.
Proof.
  intros H. apply pos_tree_ind.
  - intros q _ Hq. destruct q; try done. cbn in Hq |- *. by repeat case_cmp_in Hq.
  - intros q r k Hq Er Hr _ E. rewrite (loc_child w i q r k Er), (loc_child w' i q r k Er), E. unfold ptr_at.
    destruct (Z.eqb_spec (loc w i r) 0); [done|]. by rewrite H.
Qed.

Lemma file_ok_ext w w' i :
  (forall q, valid_pos q -> loc w' i q = loc w i q) -> data_start (the_super w') = data_start (the_super w) ->
  total_blocks (the_super w') = total_blocks (the_super w) ->
  (forall q, valid_pos q -> loc w i q <> 0 -> used w' (loc w i q) = true) -> file_ok w i -> file_ok w' i.
Proof.
  intros HL Hd Ht Hu [Hg Hi Ho]. constructor; [done| |].
  - intros p q Hp Hq. rewrite !HL by done. by apply Hi.
  - intros p Hp. rewrite HL by done. intros H0. rewrite Hd, Ht. split; [by apply Ho|by apply Hu].
Qed.

(** *** Taking a block that the file does not have *)

Definition data_block w (b : Z) : Prop := data_start (the_super w) <= b < total_blocks (the_super w).

Lemma data_block_pos w b : sane w -> data_block w b -> 0 < b.
Proof. intros H [? ?]. destruct (s_geometry _ H). lia. Qed.

Lemma take_other w b k : sane w -> 0 <= b < total_blocks (the_super w) -> ~ in_bitmap w k -> own (take_block b w) k = own w k.
Proof. intros H Hb Hk. apply (mark_other w b true). intros ->. by apply Hk, bitmap_of_range. Qed.
Lemma drop_other w b k : sane w -> 0 <= b < total_blocks (the_super w) -> ~ in_bitmap w k -> own (drop_block b w) k = own w k.
Proof. intros H Hb Hk. apply (mark_other w b false). intros ->. by apply Hk, bitmap_of_range. Qed.

Lemma loc_data w i p : file_ok w i -> valid_pos p -> loc w i p <> 0 -> data_block w (loc w i p).
Proof. intros H Hp H0. by apply (f_own _ _ H). Qed.

Lemma loc_used w i p : file_ok w i -> valid_pos p -> loc w i p <> 0 -> used w (loc w i p) = true.
Proof. intros H Hp H0. by apply (f_own _ _ H). Qed.

Lemma loc_not_bitmap w i p : sane w -> file_ok w i -> valid_pos p -> loc w i p <> 0 -> ~ in_bitmap w (loc w i p).
Proof. intros H Hf Hp H0 [? ?]. destruct (loc_data w i p Hf Hp H0), (s_geometry _ H). lia. Qed.

Lemma take_loc w i b q : sane w -> file_ok w i -> data_block w b -> valid_pos q -> loc (take_block b w) i q = loc w i q.
Proof.
  intros H Hf Hb. assert (Hpos := data_block_pos w b H Hb). destruct Hb as [Hb1 Hb2]. revert q. apply loc_ext. intros q Hq H0.
  apply take_other; [done|lia|by apply loc_not_bitmap].
Qed.

Lemma take_file w i b : sane w -> file_ok w i -> data_block w b -> file_ok (take_block b w) i.
Proof.
  intros H Hf Hb. apply (file_ok_ext w); try done.
  - intros q Hq. by apply take_loc.
  - intros q Hq H0. assert (Hpos := data_block_pos w b H Hb). destruct Hb as [Hb1 Hb2]. rewrite take_bits; [|done|lia|].
    + rewrite (loc_used w i q) by done. apply orb_true_r.
    + destruct (loc_data w i q Hf Hq H0), (s_geometry _ H). lia.
Qed.

(** A change of a block that is not a block of pointers of the file. *)
Lemma put_loc w i n x :
  (forall c r k, valid_pos c -> parent c = Some (r, k) -> loc w i r <> 0 -> loc w i r <> n) ->
  forall q, valid_pos q -> loc (put n x w) i q = loc w i q.
Proof.
  intros H. apply pos_tree_ind.
  - intros q _ Hq. destruct q; try done. cbn in Hq |- *. by repeat case_cmp_in Hq.
  - intros q r k Hq Er Hr _ E. rewrite (loc_child w i q r k Er), (loc_child _ i q r k Er), E. unfold ptr_at.
    destruct (Z.eqb_spec (loc w i r) 0); [done|]. rewrite put_other; [done|]. by apply (H q r k).
Qed.

(** ** Growing a file *)

(** The byte of a file at an offset. *)
Definition file_byte w i (o : Z) : Z :=
  let b := loc w i (PData (o / 4096)) in
  if b =? 0 then 0 else byte_at (o mod 4096) (own w b).

(** The driver's state may differ in the count of free blocks only. *)
Definition same_fs (v v' : ViperFS) : Prop :=
  exists n d, v' = set_sb_dirty d (with_sb (set_free_blocks n) v).

(** The inode may differ in its block pointers and its count of blocks. *)
Definition same_inode (i i' : Inode) : Prop :=
  exists d a b n, i' = set_blocks n (set_double b (set_indirect a (set_direct d i))).

(** [ext P v w i w' i']: the file has kept its blocks and taken blocks that were
    free before, or [v]; outside the set [P] of offsets its bytes have changed
    at most where a block was missing; no other allocated block has changed. *)
Record ext (P : Z -> Prop) (v : Z) w i w' i' : Prop := {
  e_sane : sane w';
  e_file : file_ok w' i';
  e_fs : same_fs (fs w) (fs w');
  e_clock : clock_ w' = clock_ w;
  e_journal : journal_ w' = journal_ w;
  e_sys : sys_ w' = sys_ w;
  e_inode : same_inode i i';
  e_keep : forall p, valid_pos p -> loc w i p <> 0 -> loc w' i' p = loc w i p;
  e_fresh : forall b, owned w' i' b -> owned w i b \/ used w b = false \/ b = v;
  e_used : forall b, 0 <= b < total_blocks (the_super w) -> used w' b = true <-> used w b = true \/ owned w' i' b;
  e_frame : forall b, 0 <= b < total_blocks (the_super w) -> ~ in_bitmap w b -> used w b = true -> ~ owned w i b ->
    b <> v \/ v = 0 -> own w' b = own w b;
  e_bytes : forall o, 0 <= o < MAX_IDX * 4096 -> ~ P o ->
    loc w i (PData (o / 4096)) <> 0 \/ loc w' i' (PData (o / 4096)) = 0 -> file_byte w' i' o = file_byte w i o
}.

Lemma same_fs_refl v : same_fs v v.
Proof. destruct v as [[] ? ? ? ?]. by eexists _, _. Qed.
Lemma same_fs_trans v v' v'' : same_fs v v' -> same_fs v' v'' -> same_fs v v''.
Proof. intros (n & d & ->) (n' & d' & ->). by eexists _, _. Qed.
Lemma same_inode_refl i : same_inode i i.
Proof. destruct i. by eexists _, _, _, _. Qed.
Lemma same_inode_trans i i' i'' : same_inode i i' -> same_inode i' i'' -> same_inode i i''.
Proof. intros (? & ? & ? & ? & ->) (? & ? & ? & ? & ->). by eexists _, _, _, _. Qed.

Lemma same_super w w' : same_fs (fs w) (fs w') -> the_super w' = set_free_blocks (free_blocks (the_super w')) (the_super w).
Proof. intros (n & d & E). unfold the_super. rewrite E. by destruct (fs w) as [[] ? ? ? ?]. Qed.

Lemma ext_bitmap P v w i w' i' b : ext P v w i w' i' -> in_bitmap w' b <-> in_bitmap w b.
Proof. intros H. unfold in_bitmap. by rewrite (same_super w w' (e_fs _ _ _ _ _ _ H)). Qed.
Lemma ext_total P v w i w' i' : ext P v w i w' i' -> total_blocks (the_super w') = total_blocks (the_super w).
Proof. intros H. by rewrite (same_super w w' (e_fs _ _ _ _ _ _ H)). Qed.
Lemma ext_data P v w i w' i' : ext P v w i w' i' -> data_start (the_super w') = data_start (the_super w).
Proof. intros H. by rewrite (same_super w w' (e_fs _ _ _ _ _ _ H)). Qed.

Lemma ext_owned P v w i w' i' b : ext P v w i w' i' -> owned w i b -> owned w' i' b.
Proof. intros H [H0 (p & Hp & E)]. split; [done|]. exists p. split; [done|]. rewrite (e_keep _ _ _ _ _ _ H p Hp); [done|congruence]. Qed.

Lemma owned_range w i b : sane w -> file_ok w i -> owned w i b -> 0 <= b < total_blocks (the_super w) /\ ~ in_bitmap w b /\ used w b = true.
Proof.
  intros H Hf [H0 (p & Hp & <-)]. split; [|split; [by apply loc_not_bitmap|by apply loc_used]].
  destruct (loc_data w i p Hf Hp H0), (s_geometry _ H). lia.
Qed.

Lemma ext_refl w i : sane w -> file_ok w i -> ext (fun _ => False) 0 w i w i.
Proof.
  intros Hs Hf. constructor; try done; try by auto.
  - apply same_fs_refl.
  - apply same_inode_refl.
  - intros b Hb. split; [by left|]. intros [?|Ho]; [done|]. by apply (owned_range w i b).
Qed.

Lemma ext_trans P Q v1 v2 v w i w1 i1 w2 i2 :
  v1 = 0 \/ v1 = v -> v2 = 0 \/ v2 = v ->
  ext P v1 w i w1 i1 -> ext Q v2 w1 i1 w2 i2 -> ext (fun o => P o \/ Q o) v w i w2 i2.
Proof.
  intros Hv1 Hv2 H1 H2. assert (Ht := ext_total _ _ _ _ _ _ H1).
  assert (Hz : forall b, owned w2 i2 b -> b <> 0) by (intros b []; done).
  assert (Hr : forall b, owned w2 i2 b -> 0 <= b < total_blocks (the_super w)).
  { intros b Hb. rewrite <- Ht, <- (ext_total _ _ _ _ _ _ H2).
    by apply (owned_range w2 i2 b (e_sane _ _ _ _ _ _ H2) (e_file _ _ _ _ _ _ H2)). }
  constructor.
  - apply (e_sane _ _ _ _ _ _ H2).
  - apply (e_file _ _ _ _ _ _ H2).
  - exact (same_fs_trans _ _ _ (e_fs _ _ _ _ _ _ H1) (e_fs _ _ _ _ _ _ H2)).
  - by rewrite (e_clock _ _ _ _ _ _ H2), (e_clock _ _ _ _ _ _ H1).
  - by rewrite (e_journal _ _ _ _ _ _ H2), (e_journal _ _ _ _ _ _ H1).
  - by rewrite (e_sys _ _ _ _ _ _ H2), (e_sys _ _ _ _ _ _ H1).
  - exact (same_inode_trans _ _ _ (e_inode _ _ _ _ _ _ H1) (e_inode _ _ _ _ _ _ H2)).
  - intros p Hp H0. rewrite (e_keep _ _ _ _ _ _ H2), (e_keep _ _ _ _ _ _ H1); try done. by rewrite (e_keep _ _ _ _ _ _ H1).
  - intros b Hb. destruct (e_fresh _ _ _ _ _ _ H2 b Hb) as [Ho|[Hu|Eb]].
    + destruct (e_fresh _ _ _ _ _ _ H1 b Ho) as [?|[?|Eb]]; [by left|by right; left|]. apply Hz in Hb. right. right. lia.
    + right. left. destruct (used w b) eqn:E; [|done].
      rewrite (proj2 (e_used _ _ _ _ _ _ H1 b (Hr b Hb))) in Hu; [done|by left].
    + apply Hz in Hb. right. right. lia.
  - intros b Hb. rewrite (e_used _ _ _ _ _ _ H2), (e_used _ _ _ _ _ _ H1) by (rewrite ?Ht; done).
    split; [|tauto]. intros [[?|Ho]|?]; [by left| |by right]. right. by apply (ext_owned _ _ _ _ _ _ _ H2).
  - intros b Hb Hm Hu Ho Hv. rewrite (e_frame _ _ _ _ _ _ H2).
    + apply (e_frame _ _ _ _ _ _ H1); try done. lia.
    + by rewrite Ht.
    + by rewrite (ext_bitmap _ _ _ _ _ _ b H1).
    + apply (e_used _ _ _ _ _ _ H1); [done|by left].
    + intros Ho'. destruct (e_fresh _ _ _ _ _ _ H1 b Ho') as [?|[?|Eb]]; [done|congruence|].
      destruct Ho' as [Hb0 _]. lia.
    + lia.
  - intros o Ho Hn Hl. assert (Hp : valid_pos (PData (o / 4096))) by (cbn; unfold MAX_IDX in *; div_lia).
    assert (Hk2 := e_keep _ _ _ _ _ _ H2 _ Hp). assert (Hk1 := e_keep _ _ _ _ _ _ H1 _ Hp).
    rewrite (e_bytes _ _ _ _ _ _ H2), (e_bytes _ _ _ _ _ _ H1); try done; try tauto.
    + destruct Hl as [|Hl]; [by left|]. right. destruct (decide (loc w1 i1 (PData (o / 4096)) = 0)); [done|]. by rewrite Hk2 in Hl.
    + destruct Hl as [Hl|]; [left; by rewrite Hk1|by right].
Qed.

Lemma ext_weaken (P Q : Z -> Prop) v w i w' i' : (forall o, P o -> Q o) -> ext P v w i w' i' -> ext Q v w i w' i'.
Proof. intros HPQ []. constructor; auto. Qed.

(** Compositions of steps that change no byte, or the same set of bytes. *)
Lemma ext_step (P : Z -> Prop) v1 v2 v w i w1 i1 w2 i2 :
  v1 = 0 \/ v1 = v -> v2 = 0 \/ v2 = v -> ext P v1 w i w1 i1 -> ext P v2 w1 i1 w2 i2 -> ext P v w i w2 i2.
Proof. intros ? ? H1 H2. eapply ext_weaken; [|by apply (ext_trans P P v1 v2 v w i w1 i1)]. tauto. Qed.

(** *** Hanging a block at an empty position *)

Lemma fits_block w b : sane w -> data_block w b -> fits 8 b.
Proof. intros H Hb. assert (Hp := data_block_pos w b H Hb). destruct Hb, (s_geometry _ H). split; [lia|]. change (256 ^ Z.of_nat 8) with 18446744073709551616. lia. Qed.

(** A block that is allocated and not the file's stays so when the file grows. *)
Lemma ext_pending P w i w' i' v :
  sane w -> ext P 0 w i w' i' -> data_block w v -> used w v = true -> ~ owned w i v ->
  data_block w' v /\ used w' v = true /\ ~ owned w' i' v /\ own w' v = own w v.
Proof.
  intros H X Hv Hu Ho. assert (Hp := data_block_pos w v H Hv). assert (Hr : 0 <= v < total_blocks (the_super w)) by (destruct Hv; lia).
  split; [|split; [|split]].
  - unfold data_block. rewrite (ext_total _ _ _ _ _ _ X), (ext_data _ _ _ _ _ _ X). done.
  - apply (e_used _ _ _ _ _ _ X); [done|by left].
  - intros Ho'. destruct (e_fresh _ _ _ _ _ _ X v Ho') as [?|[?|?]]; [done|congruence|lia].
  - apply (e_frame _ _ _ _ _ _ X); try done; [|by right]. apply data_not_bitmap; [done|apply Hv].
Qed.

Lemma set_loc_inode w i p v : same_inode i (set_loc w i p v).2.
Proof.
  unfold set_loc. destruct (parent p) as [[? ?]|]; [apply same_inode_refl|]. destruct p as [| | |x]; cbn [snd]; [| |apply same_inode_refl|].
  - exists (direct i), v, (double_indirect i), (blocks i). by destruct i.
  - exists (direct i), (indirect i), v, (blocks i). by destruct i.
  - exists (<[Z.to_nat x := v]> (direct i)), (indirect i), (double_indirect i), (blocks i). by destruct i.
Qed.

Lemma set_loc_good w i p v : good_inode i -> fits 8 v -> valid_pos p -> good_inode (set_loc w i p v).2.
Proof.
  intros Hg Hv Hp. unfold set_loc. destruct (parent p) as [[? ?]|]; [done|]. apply good_inode_iff in Hg. apply good_inode_iff.
  destruct p; cbn [snd]; destruct i; cbn in *; try naive_solver.
  rewrite length_insert. destruct Hg as ([? ?] & Hg). split; [|done]. split; [done|]. by apply Forall_insert.
Qed.

Lemma set_loc_fs w i p v : fs (set_loc w i p v).1 = fs w /\ clock_ (set_loc w i p v).1 = clock_ w /\
  journal_ (set_loc w i p v).1 = journal_ w /\ sys_ (set_loc w i p v).1 = sys_ w.
Proof. unfold set_loc. by destruct (parent p) as [[? ?]|]. Qed.

Lemma set_ptr_block k v x : is_bytes x -> length x = 4096%nat -> is_bytes (set_ptr k v x) /\ length (set_ptr k v x) = 4096%nat.
Proof. intros Hx Hl. unfold set_ptr. split; [by apply st_bytes|by rewrite length_st]. Qed.

Lemma set_loc_sane w i p v :
  sane w -> file_ok w i -> valid_pos p -> (forall q k, parent p = Some (q, k) -> loc w i q <> 0) -> sane (set_loc w i p v).1.
Proof.
  intros H Hf Hp Hpar. unfold set_loc. destruct (parent p) as [[q k]|] eqn:E; [|done]. cbn [fst].
  destruct (parent_valid _ _ _ Hp E) as [Hq _]. destruct (set_ptr_block k v (own w (loc w i q))); [apply (s_bytes _ H)|apply (s_sized _ H)|].
  apply put_sane; try done. apply loc_not_bitmap; try done. by apply (Hpar q k).
Qed.

Lemma set_loc_own w i p v b :
  (forall q k, parent p = Some (q, k) -> loc w i q <> b) -> own (set_loc w i p v).1 b = own w b.
Proof. intros H. unfold set_loc. destruct (parent p) as [[q k]|]; [|done]. cbn [fst]. apply put_other. intros ->. by apply (H q k). Qed.

Lemma set_loc_used w i p v b :
  sane w -> file_ok w i -> valid_pos p -> (forall q k, parent p = Some (q, k) -> loc w i q <> 0) ->
  0 <= b < total_blocks (the_super w) -> used (set_loc w i p v).1 b = used w b.
Proof.
  intros H Hf Hp Hpar Hb. unfold set_loc. destruct (parent p) as [[q k]|] eqn:E; [|done]. cbn [fst]. apply put_used; try done.
  destruct (parent_valid _ _ _ Hp E) as [Hq _]. apply loc_not_bitmap; try done. by apply (Hpar q k).
Qed.

Lemma hang_ok w i p v :
  sane w -> file_ok w i -> valid_pos p -> loc w i p = 0 -> data_block w v -> used w v = true -> ~ owned w i v ->
  (forall q k, parent p = Some (q, k) -> loc w i q <> 0) ->
  (forall c k, parent c = Some (p, k) -> valid_pos c -> ptr k (own w v) = 0) ->
  ext (fun _ => False) v w i (set_loc w i p v).1 (set_loc w i p v).2 /\
  forall q, valid_pos q -> loc (set_loc w i p v).1 (set_loc w i p v).2 q = if decide (q = p) then v else loc w i q.
Proof.
  intros H Hf Hp H0 Hv Hu Ho Hpar Hch. assert (Hvp := data_block_pos w v H Hv). assert (Hfv := fits_block w v H Hv).
  assert (Hpo : forall q k, parent p = Some (q, k) -> loc w i q <> v).
  { intros q k E Ev. apply Ho. split; [lia|]. exists q. split; [|done]. by apply (parent_valid p q k). }
  assert (HL : forall q, valid_pos q -> loc (set_loc w i p v).1 (set_loc w i p v).2 q = if decide (q = p) then v else loc w i q).
  { apply loc_set; try done.
    - apply (f_inj _ _ Hf).
    - by apply (direct_len w).
    - intros q k E. split; [by apply (Hpar q k)|apply (s_sized _ H)].
    - intros c k E Hc. rewrite (loc_child w i c p k E), H0. unfold ptr_at at 2. cbn [Z.eqb].
      unfold ptr_at. destruct (Z.eqb_spec v 0); [lia|]. rewrite set_loc_own by done. by apply (Hch c k). }
  destruct (set_loc_fs w i p v) as (Efs & Ec & Ej & Es). set (w' := (set_loc w i p v).1) in *. set (i' := (set_loc w i p v).2) in *.
  assert (Eb : forall b, 0 <= b < total_blocks (the_super w) -> used w' b = used w b) by (intros b Hb; by apply set_loc_used).
  assert (Hsup : the_super w' = the_super w) by (unfold the_super; by rewrite Efs).
  assert (Howned : forall b, owned w' i' b -> owned w i b \/ b = v).
  { intros b [Hb0 (q & Hq & E)]. rewrite HL in E by done. destruct (decide (q = p)); [by right|]. left. split; [done|eauto]. }
  assert (Hown_used : forall b, owned w i b -> 0 <= b < total_blocks (the_super w) /\ used w b = true).
  { intros b Hb. destruct (owned_range w i b H Hf Hb) as (? & _ & ?). done. }
  assert (Hrv : 0 <= v < total_blocks (the_super w)) by (destruct Hv; lia).
  split; [|done]. constructor; try done.
  - by apply set_loc_sane.
  - constructor.
    + apply set_loc_good; [apply (f_good _ _ Hf)|done|done].
    + intros q r Hq Hr. rewrite !HL by done. destruct (decide (q = p)) as [->|], (decide (r = p)) as [->|]; try done.
      * intros _ E. exfalso. apply Ho. split; [lia|]. exists r. done.
      * intros _ E. exfalso. apply Ho. split; [lia|]. exists q. done.
      * by apply (f_inj _ _ Hf).
    + intros q Hq. rewrite HL by done. rewrite Hsup. destruct (decide (q = p)); intros Hn.
      * split; [done|]. by rewrite Eb.
      * split; [by apply (f_own _ _ Hf)|]. rewrite Eb; [by apply (loc_used w i)|]. destruct (loc_data w i q Hf Hq Hn), (s_geometry _ H). lia.
  - rewrite Efs. apply same_fs_refl.
  - apply set_loc_inode.
  - intros q Hq Hn. rewrite HL by done. destruct (decide (q = p)) as [->|]; [done|done].
  - intros b Hb. destruct (Howned b Hb); auto.
  - intros b Hb. rewrite Eb by done. split; [by left|]. intros [?|Hb']; [done|]. destruct (Howned b Hb') as [Hb''| ->]; [|done].
    by apply Hown_used.
  - intros b Hb Hm Hub Hob _. apply set_loc_own. intros q k E Eq. apply Hob. split.
    + rewrite <- Eq. by apply (Hpar q k).
    + exists q. split; [|done]. by apply (parent_valid p q k).
  - intros o Hoo _ Hl. assert (Hpd : valid_pos (PData (o / 4096))) by (cbn; unfold MAX_IDX in *; div_lia).
    unfold file_byte. rewrite HL by done. rewrite HL in Hl by done. destruct (decide (PData (o / 4096) = p)) as [<-|]; [lia|].
    destruct (Z.eqb_spec (loc w i (PData (o / 4096))) 0) as [|Hn]; [done|]. f_equal. apply set_loc_own. intros q k E Eq.
    destruct (parent_valid p q k Hp E) as [Hq _]. assert (q = PData (o / 4096)) as -> by (apply (f_inj _ _ Hf); try done; by apply (Hpar q k)).
    clear -E. destruct p; cbn in E; try done. by repeat case_cmp_in E.
Qed.

(** *** Blocks taken from the free ones *)

(** [w1] is [w] with the free block [b] marked, its contents possibly changed. *)
Record takes w b w1 : Prop := {
  t_sane : sane w1;
  t_block : data_block w b;
  t_free : used w b = false;
  t_fs : same_fs (fs w) (fs w1);
  t_rest : clock_ w1 = clock_ w /\ journal_ w1 = journal_ w /\ sys_ w1 = sys_ w;
  t_used : forall c, 0 <= c < total_blocks (the_super w) -> used w1 c = (c =? b) || used w c;
  t_other : forall k, ~ in_bitmap w k -> k <> b -> own w1 k = own w k
}.

Lemma takes_block w b : sane w -> data_block w b -> used w b = false -> takes w b (take_block b w).
Proof.
  intros H Hb Hu. assert (Hp := data_block_pos w b H Hb). assert (Hb' := Hb). destruct Hb. constructor; try done.
  - by apply take_sane.
  - exists (u64 (free_blocks (the_super w) + -1)), true. done.
  - intros c Hc. apply take_bits; [done|lia|lia].
  - intros k Hk _. apply take_other; [done|lia|done].
Qed.

Lemma takes_zeroed w b : sane w -> data_block w b -> used w b = false -> takes w b (put b zero_block (take_block b w)).
Proof.
  intros H Hb Hu. destruct (takes_block w b H Hb Hu) as [Hs _ _ Hf Hr Hus Ho]. destruct zero_block_ok as [Hz Hl].
  assert (Hn : ~ in_bitmap (take_block b w) b) by (apply data_not_bitmap; [done|apply Hb]).
  constructor; [by apply put_sane|exact Hb|exact Hu|exact Hf|exact Hr| |].
  - intros c Hc. rewrite put_used; [by apply Hus|done|exact Hc|done].
  - intros k Hk Hne. rewrite put_other by done. by apply Ho.
Qed.

Lemma takes_nfree w b w1 : sane w -> takes w b w1 -> nfree w1 = nfree w - 1.
Proof.
  intros H [Hs Hb Hu Hf _ Hus _]. assert (Hp := data_block_pos w b H Hb). destruct Hb as [Hb1 Hb2].
  transitivity (nfree (mark b true w)); [|rewrite (nfree_mark w b true H) by (done || lia); lia]. apply nfree_ext.
  - by rewrite (same_super w w1 Hf).
  - intros c Hc. change (the_super (mark b true w)) with (the_super w) in Hc. rewrite Hus by done. rewrite mark_bits by (done || lia). by destruct (c =? b).
Qed.

Lemma takes_loc w b w1 i : sane w -> file_ok w i -> takes w b w1 -> forall q, valid_pos q -> loc w1 i q = loc w i q.
Proof.
  intros H Hf [Hs Hb Hu _ _ _ Ho]. apply loc_ext. intros q Hq H0. apply Ho; [by apply loc_not_bitmap|].
  intros E. rewrite <- E, (loc_used w i) in Hu by done. done.
Qed.

Lemma takes_file w b w1 i : sane w -> file_ok w i -> takes w b w1 -> file_ok w1 i /\ ~ owned w1 i b /\ used w1 b = true /\ data_block w1 b.
Proof.
  intros H Hf T. assert (HL := takes_loc w b w1 i H Hf T). destruct T as [Hs Hb Hu Hfs _ Hus _].
  assert (E := same_super w w1 Hfs). assert (Hp := data_block_pos w b H Hb). split; [|split; [|split]].
  - apply (file_ok_ext w); try done; try by rewrite E. intros q Hq H0. destruct (owned_range w i (loc w i q) H Hf) as (Hr & _ & Hu').
    { split; [done|eauto]. } by rewrite Hus, Hu', orb_true_r.
  - intros [H0 (q & Hq & Eq)]. rewrite HL in Eq by done. subst b. by rewrite (loc_used w i) in Hu.
  - destruct Hb. rewrite Hus by lia. by rewrite Z.eqb_refl.
  - unfold data_block. by rewrite E.
Qed.

Lemma ext_take P w b w1 i w' i' :
  sane w -> file_ok w i -> takes w b w1 -> ext P b w1 i w' i' -> owned w' i' b -> ext P 0 w i w' i'.
Proof.
  intros H Hf T X Hb'. assert (HL := takes_loc w b w1 i H Hf T). destruct (takes_file w b w1 i H Hf T) as (Hf1 & Hn1 & Hu1 & _).
  destruct T as [Hs Hb Hu Hfs (Ec & Ej & Es) Hus Ho]. assert (E := same_super w w1 Hfs).
  assert (Hp := data_block_pos w b H Hb).
  assert (Howned : forall c, owned w1 i c <-> owned w i c).
  { intros c. unfold owned. split; intros [H0 (q & Hq & Eq)]; (split; [done|]); exists q; (split; [done|]); by rewrite <- Eq, HL. }
  constructor.
  - apply (e_sane _ _ _ _ _ _ X).
  - apply (e_file _ _ _ _ _ _ X).
  - exact (same_fs_trans _ _ _ Hfs (e_fs _ _ _ _ _ _ X)).
  - by rewrite (e_clock _ _ _ _ _ _ X).
  - by rewrite (e_journal _ _ _ _ _ _ X).
  - by rewrite (e_sys _ _ _ _ _ _ X).
  - apply (e_inode _ _ _ _ _ _ X).
  - intros q Hq H0. rewrite (e_keep _ _ _ _ _ _ X q Hq) by (by rewrite HL). by apply HL.
  - intros c Hc. destruct (e_fresh _ _ _ _ _ _ X c Hc) as [Ho1|[Hu2| ->]].
    + left. by apply Howned.
    + right. left. destruct (owned_range w' i' c (e_sane _ _ _ _ _ _ X) (e_file _ _ _ _ _ _ X) Hc) as (Hr & _).
      rewrite (ext_total _ _ _ _ _ _ X), E in Hr. rewrite Hus in Hu2 by exact Hr. by apply orb_false_iff in Hu2 as [_ ?].
    + by right; left.
  - intros c Hc. rewrite (e_used _ _ _ _ _ _ X) by (by rewrite E). rewrite Hus by done.
    destruct (Z.eqb_spec c b) as [->|]; cbn [orb]; [|done]. tauto.
  - intros c Hc Hm Huc Hoc _. assert (Hcb : c <> b) by congruence. rewrite (e_frame _ _ _ _ _ _ X).
    + by apply Ho.
    + by rewrite E.
    + unfold in_bitmap in *. by rewrite E.
    + rewrite Hus by done. by rewrite Huc, orb_true_r.
    + by rewrite Howned.
    + by left.
  - intros o Hoo Hno Hl. assert (Hpd : valid_pos (PData (o / 4096))) by (cbn; unfold MAX_IDX in *; div_lia).
    rewrite (e_bytes _ _ _ _ _ _ X) by (try done; by rewrite HL). unfold file_byte. rewrite HL by done.
    destruct (Z.eqb_spec (loc w i (PData (o / 4096))) 0) as [|Hn]; [done|]. f_equal.
    apply Ho; [by apply loc_not_bitmap|]. intros Eq. rewrite <- Eq, (loc_used w i) in Hu by done. done.
Qed.

(** Hanging a new block of pointers. *)
Lemma install_ok w i p b w1 :
  sane w -> file_ok w i -> valid_pos p -> loc w i p = 0 -> takes w b w1 -> own w1 b = zero_block ->
  (forall q k, parent p = Some (q, k) -> loc w i q <> 0) ->
  let w' := (set_loc w1 i p b).1 in let i' := (set_loc w1 i p b).2 in
  ext (fun _ => False) 0 w i w' i' /\ nfree w' = nfree w - 1 /\
  forall q, valid_pos q -> loc w' i' q = if decide (q = p) then b else loc w i q.
Proof.
  intros H Hf Hp H0 T Hz Hpar. cbv zeta. assert (HL := takes_loc w b w1 i H Hf T). destruct (takes_file w b w1 i H Hf T) as (Hf1 & Hn1 & Hu1 & Hb1).
  assert (Hpar1 : forall q k, parent p = Some (q, k) -> loc w1 i q <> 0).
  { intros q k E. rewrite HL by (by apply (parent_valid p q k)). by apply (Hpar q k). }
  destruct (hang_ok w1 i p b) as [X HX]; try done; [apply (t_sane _ _ _ T)|by rewrite HL| |].
  { intros c k Ec Hc. rewrite Hz. destruct (parent_valid c p k Hc Ec) as [_ Hk]. unfold ptr, zero_block, ld, BLOCK_SIZE.
    rewrite drop_replicate, take_replicate. replace (8 `min` _)%nat with 8%nat by lia. done. }
  assert (Hbp := data_block_pos w b H (t_block _ _ _ T)). split; [|split].
  - apply (ext_take _ w b w1); try done. split; [lia|]. exists p. split; [done|]. rewrite HX by done. by rewrite decide_True.
  - rewrite <- (takes_nfree w b w1 H T). destruct (set_loc_fs w1 i p b) as (Efs & _).
    apply nfree_ext; [unfold the_super; by rewrite Efs|]. intros c Hc. apply set_loc_used; try done. apply (t_sane _ _ _ T).
  - intros q Hq. rewrite HX by done. destruct (decide (q = p)); [done|]. by apply HL.
Qed.

End tree.
End FsFile.
