(* ===== verification/FsData.v ===== *)
(** * ViperFS: reading and writing files

    Reading returns the bytes of the file.  Writing changes the bytes of the
    range it is given and no byte of an allocated block besides; it takes
    blocks from the free ones and leaves every other file alone. *)

From S2P Require Import Prelude Bytes Cache CacheSpec FsLayout ViperFs FsWorld FsBitmap FsFile.

Module FsData.
Import Bytes FsLayout ViperFs FsWorld FsBitmap FsFile.

Section data.
Context {D : Type} {BD : Cache.BlockDevice D} {DL : CacheSpec.DeviceLaws D} {ENV : Env}.
Local Abbreviation world := (st (Z -> list Z) (Cache.BlockCache * D)%type).
Implicit Type w : world.

(** ** Block pointers *)

Lemma ev_read_indirect l w b k : (length l < 60)%nat -> 0 <= k < 512 -> evals l (read_indirect b k) w (ptr_at w b k) w.
Proof.
  intros Hl Hk. unfold read_indirect, ptr_at. destruct (b =? 0); [apply ev_ret|].
  rewrite (proj2 (Z.leb_gt PTRS_PER_BLOCK k)) by (change PTRS_PER_BLOCK with 512; lia).
  apply ev_with_block; [done|]. intros i. eapply ev_bind; [apply ev_data, list_elem_of_here|apply ev_ret].
Qed.

Lemma ev_write_indirect l w b k v :
  (length l < 60)%nat -> b <> 0 -> 0 <= k < 512 -> evals l (write_indirect b k v) w true (put b (set_ptr k v (own w b)) w).
Proof.
  intros Hl Hb Hk. unfold write_indirect. rewrite (proj2 (Z.eqb_neq b 0)) by done.
  rewrite (proj2 (Z.leb_gt PTRS_PER_BLOCK k)) by (change PTRS_PER_BLOCK with 512; lia).
  apply ev_change; [done|]. intros Hs. unfold set_ptr. rewrite length_st. apply Hs.
Qed.

(** The block of a file at an index; null past the longest file. *)
Definition file_ptr w i (idx : Z) : Z := if idx <? MAX_IDX then loc w i (PData idx) else 0.

Lemma ev_get_ptr l w i idx :
  (length l < 60)%nat -> length (direct i) = 12%nat -> 0 <= idx -> evals l (get_block_ptr i idx) w (file_ptr w i idx) w.
Proof.
  intros Hl Hd Hi. unfold get_block_ptr, file_ptr, MAX_IDX. cbn [loc]. change PTRS_PER_BLOCK with 512. change (512 * 512) with 262144.
  destruct (Z.ltb_spec idx 12).
  { rewrite (proj2 (Z.ltb_lt idx 262668)) by lia. apply ev_lift. rewrite nth_lookup.
    destruct (direct i !! Z.to_nat idx) eqn:E; [|apply lookup_ge_None in E; lia]. by apply rd_Z. }
  cbv zeta. destruct (Z.ltb_spec (idx - 12) 512).
  { rewrite (proj2 (Z.ltb_lt idx 262668)), (proj2 (Z.ltb_lt idx 524)) by lia. apply ev_read_indirect; [done|lia]. }
  replace (idx - 12 - 512) with (idx - 524) by lia. destruct (Z.ltb_spec (idx - 524) 262144).
  - rewrite (proj2 (Z.ltb_lt idx 262668)), (proj2 (Z.ltb_ge idx 524)) by lia.
    eapply ev_bind; [apply ev_read_indirect; [done|div_lia]|].
    destruct (Z.eqb_spec (ptr_at w (double_indirect i) ((idx - 524) / 512)) 0) as [E|E].
    + rewrite E. apply ev_ret.
    + apply ev_read_indirect; [done|div_lia].
  - rewrite (proj2 (Z.ltb_ge idx 262668)) by lia. apply ev_ret.
Qed.

Lemma set_indirect_same i : set_indirect (indirect i) i = i.
Proof. by destruct i. Qed.
Lemma set_double_same i : set_double (double_indirect i) i = i.
Proof. by destruct i. Qed.

(** Changing a pointer whose block of pointers is there. *)
Lemma ev_set_present l w i idx v :
  (length l < 60)%nat -> length (direct i) = 12%nat -> 0 <= idx < MAX_IDX ->
  (forall q k, parent (PData idx) = Some (q, k) -> loc w i q <> 0 /\ forall r m, parent q = Some (r, m) -> loc w i r <> 0) ->
  evals l (set_block_ptr i idx v) w (true, (set_loc w i (PData idx) v).2) (set_loc w i (PData idx) v).1.
Proof.
  intros Hl Hd Hi Hpar. unfold MAX_IDX in Hi. unfold set_block_ptr, set_loc. cbn [parent] in *. change PTRS_PER_BLOCK with 512.
  change (512 * 512) with 262144. destruct (Z.ltb_spec idx 12).
  { cbn [fst snd]. eapply ev_bind; [apply ev_lift, wr_Z; lia|apply ev_ret]. }
  cbv zeta. destruct (Z.ltb_spec (idx - 12) 512).
  { rewrite (proj2 (Z.ltb_lt idx 524)) in * by lia. destruct (Hpar _ _ eq_refl) as [H1 _]. cbn [loc fst snd] in *.
    rewrite (proj2 (Z.eqb_neq (indirect i) 0)) by done. eapply ev_bind; [apply ev_ret|].
    rewrite (proj2 (Z.eqb_neq (indirect i) 0)) by done. eapply ev_bind; [apply ev_write_indirect; [done|done|lia]|apply ev_ret]. }
  rewrite (proj2 (Z.ltb_ge idx 524)) in * by lia. destruct (Hpar _ _ eq_refl) as [H1 H2]. specialize (H2 _ _ eq_refl). cbn [loc fst snd] in *.
  replace (idx - 12 - 512) with (idx - 524) by lia. rewrite (proj2 (Z.ltb_lt (idx - 524) 262144)) by lia.
  rewrite (proj2 (Z.eqb_neq (double_indirect i) 0)) by done. eapply ev_bind; [apply ev_ret|].
  rewrite (proj2 (Z.eqb_neq (double_indirect i) 0)) by done. eapply ev_bind; [apply ev_read_indirect; [done|div_lia]|].
  rewrite (proj2 (Z.eqb_neq (ptr_at _ _ _) 0)) by done. eapply ev_bind; [apply ev_ret|].
  rewrite (proj2 (Z.eqb_neq (ptr_at _ _ _) 0)) by done. eapply ev_bind; [apply ev_write_indirect; [done|done|div_lia]|apply ev_ret].
Qed.

(** The result of hanging [v] at an index: the new state, or the failure to get
    a block of pointers. *)
Definition hung w i idx v (ok : bool) w' i' : Prop :=
  (if ok then ext (fun _ => False) v w i w' i' /\ loc w' i' (PData idx) = v /\ own w' v = own w v
   else ext (fun _ => False) 0 w i w' i' /\ loc w' i' (PData idx) = 0 /\ nfree w < 2) /\
  (forall x, 0 <= x < MAX_IDX -> x <> idx -> loc w' i' (PData x) = loc w i (PData x)).

Lemma hung_present w i idx v :
  sane w -> file_ok w i -> 0 <= idx < MAX_IDX -> loc w i (PData idx) = 0 ->
  data_block w v -> used w v = true -> ~ owned w i v ->
  (forall q k, parent (PData idx) = Some (q, k) -> loc w i q <> 0 /\ forall r m, parent q = Some (r, m) -> loc w i r <> 0) ->
  hung w i idx v true (set_loc w i (PData idx) v).1 (set_loc w i (PData idx) v).2 /\ nfree (set_loc w i (PData idx) v).1 = nfree w.
Proof.
  intros H Hf Hi H0 Hv Hu Ho Hpar.
  assert (Hpar' : forall q k, parent (PData idx) = Some (q, k) -> loc w i q <> 0) by (intros q k E; by apply (Hpar q k)).
  destruct (hang_ok w i (PData idx) v) as [X HX]; try done.
  { intros c k E. exfalso. clear -E. destruct c; cbn in E; try done. by repeat case_cmp_in E. }
  split; [split; [split; [exact X|split]|]|].
  - rewrite HX by done. by rewrite decide_True.
  - apply set_loc_own. intros q k E Eq. apply Ho. destruct (parent_valid (PData idx) q k Hi E) as [Hq _]. split; [|by exists q].
    assert (Hp := data_block_pos w v H Hv). lia.
  - intros x Hx Hne. rewrite HX by done. rewrite decide_False; [done|]. by intros [=].
  - destruct (set_loc_fs w i (PData idx) v) as (Efs & _). apply nfree_ext; [unfold the_super; by rewrite Efs|]. intros c Hc.
    by apply set_loc_used.
Qed.

(** After a block of pointers was installed, what remains to be done. *)
Lemma hung_after w i idx v w1 i1 ok w' i' :
  sane w -> ext (fun _ => False) 0 w i w1 i1 -> nfree w1 = nfree w - 1 ->
  (forall x, 0 <= x < MAX_IDX -> loc w1 i1 (PData x) = loc w i (PData x)) ->
  data_block w v -> used w v = true -> ~ owned w i v ->
  hung w1 i1 idx v ok w' i' -> (ok = false -> nfree w1 < 1) -> 0 <= idx < MAX_IDX -> hung w i idx v ok w' i'.
Proof.
  intros H X Hn HL Hv Hu Ho [Hh Hx] Hfail Hi. destruct (ext_pending _ w i w1 i1 v H X Hv Hu Ho) as (_ & _ & _ & Ev). split.
  - destruct ok; destruct Hh as (X' & ? & ?).
    + split; [by apply (ext_step _ 0 v v w i w1 i1); [left|right| |]|]. split; [done|congruence].
    + split; [by apply (ext_step _ 0 0 0 w i w1 i1); [left|left| |]|]. split; [done|]. specialize (Hfail eq_refl). lia.
  - intros x Hxr Hne. by rewrite Hx, HL.
Qed.

(** The allocation of a block of pointers hangs it at its position. *)
Lemma ev_install l w i p :
  (length l < 57)%nat -> sane w -> file_ok w i -> valid_pos p -> loc w i p = 0 ->
  (forall q k, parent p = Some (q, k) -> loc w i q <> 0) -> (forall x, p <> PData x) ->
  (exists b w1, b <> 0 /\ evals l alloc_zeroed_block_unlocked w b w1 /\
     let w' := (set_loc w1 i p b).1 in let i' := (set_loc w1 i p b).2 in
     ext (fun _ => False) 0 w i w' i' /\ nfree w' = nfree w - 1 /\ loc w' i' p = b /\
     (forall q, valid_pos q -> q <> p -> loc w1 i q = loc w i q /\ loc w' i' q = loc w i q)) \/
  (nfree w = 0 /\ evals l alloc_zeroed_block_unlocked w 0 w).
Proof.
  intros Hl H Hf Hp H0 Hpar Hd. destruct (ev_alloc_zeroed l w ltac:(lia) H) as [(b & (Hb & Hu & _) & He)|?]; [left|by right].
  assert (T := takes_zeroed w b H Hb Hu). destruct (install_ok w i p b _ H Hf Hp H0 T (put_same _ _ _) Hpar) as (X & Hn & HL).
  exists b, (take_zeroed b w). split; [|split; [done|split; [done|split; [done|split]]]].
  - assert (Hpos := data_block_pos w b H Hb). lia.
  - change (loc (set_loc (take_zeroed b w) i p b).1 (set_loc (take_zeroed b w) i p b).2 p = b). rewrite HL by done. by rewrite decide_True.
  - intros q Hq Hne. split; [by apply (takes_loc w b _ i H Hf T)|]. etransitivity; [by apply HL|]. by rewrite decide_False.
Qed.

(** How the code continues after such an allocation. *)
Lemma set_ptr_indirect l w i idx v b w1 r w2 :
  12 <= idx < 524 -> indirect i = 0 -> b <> 0 -> evals l alloc_zeroed_block_unlocked w b w1 ->
  evals l (set_block_ptr (set_indirect b i) idx v) w1 r w2 -> evals l (set_block_ptr i idx v) w r w2.
Proof.
  intros Hi H0 Hb Ha. unfold set_block_ptr. change PTRS_PER_BLOCK with 512.
  rewrite (proj2 (Z.ltb_ge idx 12)), (proj2 (Z.ltb_lt (idx - 12) 512)) by lia. rewrite H0. cbn [Z.eqb].
  change (indirect (set_indirect b i)) with b. rewrite (proj2 (Z.eqb_neq b 0)) by done. intros He.
  apply (ev_bind _ _ _ _ (set_indirect b i) w1); [|exact He]. eapply ev_bind; [exact Ha|apply ev_ret].
Qed.

Lemma set_ptr_double l w i idx v b w1 r w2 :
  524 <= idx < MAX_IDX -> double_indirect i = 0 -> b <> 0 -> evals l alloc_zeroed_block_unlocked w b w1 ->
  evals l (set_block_ptr (set_double b i) idx v) w1 r w2 -> evals l (set_block_ptr i idx v) w r w2.
Proof.
  intros Hi H0 Hb Ha. unfold set_block_ptr, MAX_IDX in *. change PTRS_PER_BLOCK with 512. change (512 * 512) with 262144.
  rewrite (proj2 (Z.ltb_ge idx 12)), (proj2 (Z.ltb_ge (idx - 12) 512)), (proj2 (Z.ltb_lt (idx - 12 - 512) 262144)) by lia.
  rewrite H0. cbn [Z.eqb]. change (double_indirect (set_double b i)) with b. rewrite (proj2 (Z.eqb_neq b 0)) by done. intros He.
  apply (ev_bind _ _ _ _ (set_double b i) w1); [|exact He]. eapply ev_bind; [exact Ha|apply ev_ret].
Qed.

Lemma set_ptr_fails l w i idx v :
  12 <= idx < MAX_IDX -> loc w i (if idx <? 524 then PInd else PDbl) = 0 -> evals l alloc_zeroed_block_unlocked w 0 w ->
  evals l (set_block_ptr i idx v) w (false, i) w.
Proof.
  intros Hi H0 Ha. unfold set_block_ptr, MAX_IDX in *. change PTRS_PER_BLOCK with 512. change (512 * 512) with 262144.
  rewrite (proj2 (Z.ltb_ge idx 12)) by lia. cbv zeta. destruct (Z.ltb_spec idx 524); cbn [loc] in H0.
  - rewrite (proj2 (Z.ltb_lt (idx - 12) 512)) by lia. rewrite H0. cbn [Z.eqb]. apply (ev_bind _ _ _ _ i w).
    + eapply ev_bind; [exact Ha|]. rewrite <- H0 at 1. rewrite set_indirect_same. apply ev_ret.
    + rewrite H0. apply ev_ret.
  - rewrite (proj2 (Z.ltb_ge (idx - 12) 512)), (proj2 (Z.ltb_lt (idx - 12 - 512) 262144)) by lia. rewrite H0. cbn [Z.eqb].
    apply (ev_bind _ _ _ _ i w).
    + eapply ev_bind; [exact Ha|]. rewrite <- H0 at 1. rewrite set_double_same. apply ev_ret.
    + rewrite H0. apply ev_ret.
Qed.

(** The first level of the double indirect block. *)
Lemma set_ptr_l1 l w i idx v r w2 b w1 :
  (length l < 57)%nat -> 524 <= idx < MAX_IDX -> double_indirect i <> 0 -> loc w i (PL1 ((idx - 524) / 512)) = 0 ->
  evals l alloc_zeroed_block_unlocked w b w1 ->
  (if b =? 0 then r = (false, i) /\ w2 = w1
   else r = (true, i) /\ w2 = put b (set_ptr ((idx - 524) mod 512) v (own (set_loc w1 i (PL1 ((idx - 524) / 512)) b).1 b))
                               (set_loc w1 i (PL1 ((idx - 524) / 512)) b).1) ->
  evals l (set_block_ptr i idx v) w r w2.
Proof.
  intros Hl Hi Hd H0 Ha Hr. unfold set_block_ptr, MAX_IDX in *. change PTRS_PER_BLOCK with 512. change (512 * 512) with 262144.
  rewrite (proj2 (Z.ltb_ge idx 12)), (proj2 (Z.ltb_ge (idx - 12) 512)), (proj2 (Z.ltb_lt (idx - 12 - 512) 262144)) by lia.
  replace (idx - 12 - 512) with (idx - 524) by lia.
  rewrite (proj2 (Z.eqb_neq (double_indirect i) 0)) by done. eapply ev_bind; [apply ev_ret|].
  rewrite (proj2 (Z.eqb_neq (double_indirect i) 0)) by done. eapply ev_bind; [apply ev_read_indirect; [lia|div_lia]|].
  cbn [loc] in H0. rewrite H0. cbn [Z.eqb]. destruct (Z.eqb_spec b 0) as [->|Hb]; destruct Hr as [-> ->].
  - eapply ev_bind; [eapply ev_bind; [exact Ha|apply ev_ret]|apply ev_ret].
  - eapply ev_bind; [eapply ev_bind; [exact Ha|]|].
    { rewrite (proj2 (Z.eqb_neq b 0)) by done. eapply ev_bind; [apply ev_write_indirect; [lia|done|div_lia]|apply ev_ret]. }
    rewrite (proj2 (Z.eqb_neq b 0)) by done. eapply ev_bind; [apply ev_write_indirect; [lia|done|div_lia]|apply ev_ret].
Qed.

Section growing.
Context (l : list (Z * Z)) (idx v : Z) (Hl : (length l < 57)%nat).

(** [v] is to hang at index [idx], which is empty. *)
Record pending w i : Prop := {
  p_sane : sane w;
  p_file : file_ok w i;
  p_index : 0 <= idx < MAX_IDX;
  p_empty : loc w i (PData idx) = 0;
  p_block : data_block w v;
  p_used : used w v = true;
  p_own : ~ owned w i v
}.

Definition can_hang w i : Prop :=
  exists ok w' i', evals l (set_block_ptr i idx v) w (ok, i') w' /\ hung w i idx v ok w' i' /\ nfree w - 2 <= nfree w'.

Lemma hang_fails w i :
  pending w i -> nfree w < 2 -> evals l (set_block_ptr i idx v) w (false, i) w -> can_hang w i.
Proof. intros [] Hn He. exists false, w, i. split; [done|]. split; [|lia]. split; [|done]. split; [by apply ext_refl|done]. Qed.

Lemma pending_ext w i w1 i1 :
  pending w i -> ext (fun _ => False) 0 w i w1 i1 -> (forall x, 0 <= x < MAX_IDX -> loc w1 i1 (PData x) = loc w i (PData x)) -> pending w1 i1.
Proof.
  intros [H Hf Hi H0 Hv Hu Ho] X HL. destruct (ext_pending _ w i w1 i1 v H X Hv Hu Ho) as (? & ? & ? & _).
  constructor; try done; [apply (e_sane _ _ _ _ _ _ X)|apply (e_file _ _ _ _ _ _ X)|by rewrite HL].
Qed.

Lemma hang_present w i :
  pending w i ->
  (forall q k, parent (PData idx) = Some (q, k) -> loc w i q <> 0 /\ forall r m, parent q = Some (r, m) -> loc w i r <> 0) ->
  evals l (set_block_ptr i idx v) w (true, (set_loc w i (PData idx) v).2) (set_loc w i (PData idx) v).1 /\
  hung w i idx v true (set_loc w i (PData idx) v).1 (set_loc w i (PData idx) v).2 /\ nfree (set_loc w i (PData idx) v).1 = nfree w.
Proof.
  intros [H Hf Hi H0 Hv Hu Ho] Hpar. split; [|by apply hung_present]. apply ev_set_present; [lia|by apply (direct_len w)|done|done].
Qed.

Lemma parent_l1 : 524 <= idx -> parent (PData idx) = Some (PL1 ((idx - 524) / 512), (idx - 524) mod 512).
Proof. intros H. cbn. by rewrite (proj2 (Z.ltb_ge idx 12)), (proj2 (Z.ltb_ge idx 524)) by lia. Qed.

Lemma hang_l1 w i : pending w i -> 524 <= idx -> double_indirect i <> 0 -> exists ok w' i',
  evals l (set_block_ptr i idx v) w (ok, i') w' /\ hung w i idx v ok w' i' /\ nfree w - 1 <= nfree w' /\ (ok = false -> nfree w < 1).
Proof.
  intros Pn H5 Hd. set (j := (idx - 524) / 512). assert (Hpar : parent (PData idx) = Some (PL1 j, (idx - 524) mod 512)) by by apply parent_l1.
  assert (Hi := p_index _ _ Pn). assert (Hj : valid_pos (PL1 j)) by (unfold MAX_IDX in Hi; cbn; subst j; div_lia).
  assert (Hs := fun r b w1 w2 => set_ptr_l1 l w i idx v r w2 b w1 Hl (conj H5 (proj2 Hi)) Hd). fold j in Hs.
  destruct (decide (loc w i (PL1 j) = 0)) as [Ej|Ej].
  - destruct (ev_install l w i (PL1 j) Hl (p_sane _ _ Pn) (p_file _ _ Pn) Hj Ej) as [(b & w1 & Hb & Ha & X & Hn & Eb & Hq)|[Hn Ha]];
      [by intros q k [= <- <-]|done| |].
    + cbv zeta in *. set (w2 := (set_loc w1 i (PL1 j) b).1) in *. change (set_loc w1 i (PL1 j) b).2 with i in *.
      assert (P2 : pending w2 i) by (apply (pending_ext w i); [done|done|]; intros x Hx; by apply Hq).
      destruct (hang_present w2 i P2) as (_ & Hh & Hn').
      { rewrite Hpar. intros q k [= <- <-]. split; [by rewrite Eb|]. intros r m [= <- <-]. done. }
      exists true, (set_loc w2 i (PData idx) v).1, (set_loc w2 i (PData idx) v).2. split; [|split; [|split; [lia|done]]].
      * apply (Hs _ b w1); [done|done|]. rewrite (proj2 (Z.eqb_neq b 0)) by done. unfold set_loc. rewrite Hpar. cbn [fst snd].
        split; [done|]. fold j w2. by rewrite Eb.
      * destruct Pn. apply (hung_after w i idx v w2 i); try done. intros x Hx. by apply Hq.
    + exists false, w, i. split; [by apply (Hs _ 0 w)|]. destruct Pn. split; [|lia]. split; [|done]. split; [by apply ext_refl|]. split; [done|lia].
  - destruct (hang_present w i Pn) as (He & Hh & Hn).
    { rewrite Hpar. intros q k [= <- <-]. split; [done|]. intros r m [= <- <-]. done. }
    eexists true, _, _. split; [exact He|]. split; [exact Hh|]. split; [lia|done].
Qed.

Lemma hang_new w i : pending w i -> can_hang w i.
Proof.
  intros Pn. assert (Hi := p_index _ _ Pn). assert (Hfree := nfree_range w).
  assert (Hroot : forall p, p = PInd \/ p = PDbl -> loc w i p = 0 ->
    (exists b w1, b <> 0 /\ evals l alloc_zeroed_block_unlocked w b w1 /\
      pending w1 (set_loc w1 i p b).2 /\ nfree w1 = nfree w - 1 /\ loc w1 (set_loc w1 i p b).2 p = b /\
      (forall ok w' i', hung w1 (set_loc w1 i p b).2 idx v ok w' i' -> (ok = false -> nfree w1 < 1) -> hung w i idx v ok w' i')) \/
    (nfree w = 0 /\ evals l alloc_zeroed_block_unlocked w 0 w)).
  { intros p Hp H0. assert (Hpp : parent p = None) by (by destruct Hp as [->| ->]). assert (Hvp : valid_pos p) by (by destruct Hp as [->| ->]).
    destruct (ev_install l w i p Hl (p_sane _ _ Pn) (p_file _ _ Pn) Hvp H0) as [(b & w1 & Hb & Ha & X & Hn & Eb & Hq)|?];
      [congruence|by destruct Hp as [->| ->]| |by right].
    left. exists b, w1. assert (E : (set_loc w1 i p b).1 = w1) by (unfold set_loc; by rewrite Hpp).
    cbv zeta in *. rewrite E in *. assert (HL : forall x, 0 <= x < MAX_IDX -> loc w1 (set_loc w1 i p b).2 (PData x) = loc w i (PData x)).
    { intros x Hx. apply Hq; [done|]. by destruct Hp as [->| ->]. }
    split; [done|]. split; [done|].
    split; [by apply (pending_ext w i)|]. split; [done|]. split; [done|]. intros ok w' i' Hh Hf. destruct Pn.
    by apply (hung_after w i idx v w1 (set_loc w1 i p b).2). }
  destruct (decide (idx < 12)) as [H12|H12]; [|destruct (decide (idx < 524)) as [H524|H524]].
  - destruct (hang_present w i Pn) as (He & Hh & Hn).
    { cbn. by rewrite (proj2 (Z.ltb_lt idx 12)). }
    eexists true, _, _. split; [exact He|]. split; [exact Hh|lia].
  - assert (Hpar : parent (PData idx) = Some (PInd, idx - 12)).
    { cbn. by rewrite (proj2 (Z.ltb_ge idx 12)), (proj2 (Z.ltb_lt idx 524)) by lia. }
    destruct (decide (indirect i = 0)) as [E0|E0].
    + destruct (Hroot PInd (or_introl eq_refl) E0) as [(b & w1 & Hb & Ha & P1 & Hn & Eb & Hafter)|[Hn Ha]].
      * destruct (hang_present w1 _ P1) as (He & Hh & Hn'). { rewrite Hpar. intros q k [= <- <-]. by rewrite Eb. }
        eexists true, _, _. split; [by apply (set_ptr_indirect l w i idx v b w1); [lia| | | |exact He]|].
        split; [by apply Hafter|lia].
      * apply hang_fails; [done|lia|]. apply set_ptr_fails; [lia|by rewrite (proj2 (Z.ltb_lt idx 524))|done].
    + destruct (hang_present w i Pn) as (He & Hh & Hn). { rewrite Hpar. intros q k [= <- <-]. done. }
      eexists true, _, _. split; [exact He|]. split; [exact Hh|lia].
  - destruct (decide (double_indirect i = 0)) as [E0|E0].
    + destruct (Hroot PDbl (or_intror eq_refl) E0) as [(b & w1 & Hb & Ha & P1 & Hn & Eb & Hafter)|[Hn Ha]].
      * destruct (hang_l1 w1 _ P1) as (ok & w' & i' & He & Hh & Hn' & Hf); [lia|by rewrite <- Eb in Hb|].
        exists ok, w', i'. split; [by apply (set_ptr_double l w i idx v b w1); [lia| | | |exact He]|].
        split; [by apply Hafter|lia].
      * apply hang_fails; [done|lia|]. apply set_ptr_fails; [lia|by rewrite (proj2 (Z.ltb_ge idx 524)) by lia|done].
    + destruct (hang_l1 w i Pn) as (ok & w' & i' & He & Hh & Hn' & Hf); [lia|done|].
      exists ok, w', i'. split; [done|]. split; [done|lia].
Qed.

End growing.

(** ** Reading *)

Definition MAX_SIZE : Z := MAX_IDX * 4096.

(** [n] bytes of a file from offset [o]. *)
Definition content w i (o n : Z) : list Z := file_byte w i <$> seqZ o n.

Lemma file_content_length w i o n : length (content w i o n) = Z.to_nat n.
Proof. unfold content. by rewrite length_fmap, length_seqZ. Qed.

Lemma content_app w i o n m : 0 <= n -> 0 <= m -> content w i o (n + m) = content w i o n ++ content w i (o + n) m.
Proof. intros Hn Hm. unfold content. rewrite <- fmap_app. f_equal. by apply seqZ_app. Qed.

Lemma content_lookup w i o n (k : nat) : (k < Z.to_nat n)%nat -> content w i o n !! k = Some (file_byte w i (o + Z.of_nat k)).
Proof. intros Hk. unfold content. rewrite list_lookup_fmap, lookup_seqZ_lt by lia. done. Qed.

Lemma content_ext w i w' i' o n :
  (forall k, o <= k < o + n -> file_byte w i k = file_byte w' i' k) -> content w i o n = content w' i' o n.
Proof. intros H. apply list_fmap_ext. intros j k Hk. apply lookup_seqZ in Hk as [-> ?]. apply H. lia. Qed.

(** The part of a file inside one block. *)
Lemma content_block w i o n :
  0 <= o -> 0 <= n -> o mod 4096 + n <= 4096 -> length (own w (loc w i (PData (o / 4096)))) = 4096%nat ->
  content w i o n =
    if loc w i (PData (o / 4096)) =? 0 then replicate (Z.to_nat n) 0
    else take (Z.to_nat n) (drop (Z.to_nat (o mod 4096)) (own w (loc w i (PData (o / 4096))))).
Proof.
  intros Ho Hn Hb Hl. apply list_eq_same_length with (n := Z.to_nat n).
  - destruct (_ =? 0); [by rewrite length_replicate|]. rewrite length_take, length_drop, Hl. div_lia.
  - apply file_content_length.
  - intros k x y Hk. rewrite content_lookup by done. intros [= <-]. unfold file_byte.
    replace ((o + Z.of_nat k) / 4096) with (o / 4096) by div_lia. destruct (_ =? 0).
    + intros H. by apply lookup_replicate in H as [-> _].
    + rewrite lookup_take_lt, lookup_drop by done. unfold byte_at.
      replace (Z.to_nat ((o + Z.of_nat k) mod 4096)) with (Z.to_nat (o mod 4096) + k)%nat by div_lia. by intros ->.
Qed.

Lemma file_ptr_loc w i o : 0 <= o < MAX_SIZE -> file_ptr w i (o / 4096) = loc w i (PData (o / 4096)).
Proof. intros H. unfold file_ptr. rewrite (proj2 (Z.ltb_lt _ _)); [done|]. unfold MAX_SIZE, MAX_IDX in *. div_lia. Qed.

Lemma ev_read_loop fuel l w i o rem dst :
  (length l < 60)%nat -> length (direct i) = 12%nat -> 0 <= o -> 0 <= rem -> o + rem <= MAX_SIZE ->
  rem = 0 \/ (o + rem - 1) / 4096 - o / 4096 < Z.of_nat fuel ->
  evals l (read_loop fuel i o rem dst) w (true, dst ++ content w i o rem) w.
Proof.
  intros Hl Hd. revert o rem dst. induction fuel as [|fuel IH]; intros o rem dst Ho Hr Hmax Hf; cbn [read_loop].
  { destruct (Z.eqb_spec rem 0) as [->|]; [rewrite app_nil_r; apply ev_ret|div_lia]. }
  destruct (Z.eqb_spec rem 0) as [->|Hne]; [rewrite app_nil_r; apply ev_ret|]. cbv zeta. unfold BLOCK_SIZE.
  set (n := Z.min (4096 - o mod 4096) rem). assert (Hn : 0 < n <= rem /\ o mod 4096 + n <= 4096) by (subst n; div_lia).
  assert (Hp : 0 <= o < MAX_SIZE) by lia. eapply ev_bind; [apply ev_get_ptr; [done|done|div_lia]|]. rewrite file_ptr_loc by done.
  apply ev_sized. intros Hs. assert (Hc := content_block w i o n Ho ltac:(lia) (proj2 Hn) (Hs _)).
  eapply (ev_bind _ _ _ _ (Some (content w i o n)) w).
  { rewrite Hc. destruct (_ =? 0); [apply ev_ret|]. apply ev_with_block; [done|]. intros b.
    eapply ev_bind; [apply ev_data, list_elem_of_here|apply ev_ret]. }
  rewrite u64_small by (unfold MAX_SIZE, MAX_IDX in *; lia). replace (content w i o rem) with (content w i o n ++ content w i (o + n) (rem - n)).
  2:{ rewrite <- content_app by lia. f_equal. lia. }
  rewrite app_assoc. apply IH; [lia|lia|lia|]. destruct (decide (rem - n = 0)); [by left|]. right.
  replace (o + n + (rem - n) - 1) with (o + rem - 1) by lia. assert ((o + n) / 4096 = o / 4096 + 1) by (subst n; div_lia). lia.
Qed.

(** The number of bytes a read returns. *)
Definition clamp (i : Inode) (o len : Z) : Z := Z.max 0 (Z.min len (size i - o)).

Lemma ev_read_data l w i o len :
  (length l < 60)%nat -> mounted_ (fs w) = true -> length (direct i) = 12%nat -> 0 <= o -> 0 <= len ->
  o + len < 2 ^ 63 -> size i <= MAX_SIZE ->
  evals l (read_data i o len) w
    (clamp i o len, content w i o (clamp i o len), if size i <=? o then i else set_atime (get_ms (clock_ w)) i)
    (if size i <=? o then w else tick w).
Proof.
  intros Hl Hm Hd Ho Hlen H63 Hs. unfold read_data, clamp. eapply ev_bind; [apply ev_mounted|]. rewrite Hm. cbn [negb].
  change (2 ^ 63) with 9223372036854775808 in H63. destruct (Z.leb_spec (size i) o).
  { replace (Z.max 0 (Z.min len (size i - o))) with 0 by lia. apply ev_ret. }
  rewrite u64_small by lia. replace (if size i <? o + len then size i - o else len) with (Z.min len (size i - o)) by (destruct (Z.ltb_spec (size i) (o + len)); lia).
  replace (Z.max 0 (Z.min len (size i - o))) with (Z.min len (size i - o)) by lia. set (n := Z.min len (size i - o)).
  eapply ev_bind; [apply ev_read_loop; [done|done|done|lia|lia|]|].
  { destruct (decide (n = 0)); [by left|right]. unfold BLOCK_SIZE. div_lia. }
  cbn [negb app]. eapply ev_bind; [apply ev_now|]. unfold to_i64. change (2 ^ 63) with 9223372036854775808.
  rewrite (proj2 (Z.ltb_lt n _)) by lia. apply ev_ret.
Qed.

End data.
End FsData.
