(* ===== verification/FsWrite.v ===== *)
(** * ViperFS: writing files

    A write puts its bytes in the file, takes the blocks it lacks from the free
    ones, and changes nothing else that is allocated; it completes when three
    free blocks are left for every block it touches. *)

From S2P Require Import Prelude Bytes Cache CacheSpec FsLayout ViperFs FsWorld FsBitmap FsFile FsData.

Module FsWrite.
Import Bytes FsLayout ViperFs FsWorld FsBitmap FsFile FsData.

(** Two inodes with the same block pointers. *)
Definition same_ptrs (i i' : Inode) : Prop :=
  direct i' = direct i /\ indirect i' = indirect i /\ double_indirect i' = double_indirect i.

Section tree.
Context {G : Type}.
Local Abbreviation world := (st (Z -> list Z) G).
Implicit Type w : world.

Lemma loc_ptrs w i i' p : same_ptrs i i' -> loc w i' p = loc w i p.
Proof. intros (E1 & E2 & E3). destruct p; cbn; by rewrite ?E1, ?E2, ?E3. Qed.

Lemma file_ok_ptrs w i i' : file_ok w i -> same_ptrs i i' -> good_inode i' -> file_ok w i'.
Proof.
  intros [Hg Hi Ho] E Hg'. constructor; [done| |].
  - intros p q. rewrite !(loc_ptrs w i i') by done. apply Hi.
  - intros p. rewrite !(loc_ptrs w i i') by done. apply Ho.
Qed.

Lemma file_byte_ptrs w i i' o : same_ptrs i i' -> file_byte w i' o = file_byte w i o.
Proof. intros E. unfold file_byte. by rewrite (loc_ptrs w i i'). Qed.

Lemma owned_ptrs w i i' b : same_ptrs i i' -> owned w i' b <-> owned w i b.
Proof. intros E. unfold owned. by setoid_rewrite (loc_ptrs w i i' _ E). Qed.

(** The count of blocks does not matter to the tree. *)
Lemma ext_blocks P v w i w' i' n : ext P v w i w' i' -> fits 8 n -> ext P v w i w' (set_blocks n i').
Proof.
  intros X Hn. assert (E : same_ptrs i' (set_blocks n i')) by done. destruct X. constructor; try done.
  - apply (file_ok_ptrs w' i'); try done. destruct e_file0 as [Hg _ _]. apply good_inode_iff in Hg. apply good_inode_iff. destruct i'; naive_solver.
  - destruct e_inode0 as (d & a & b & m & ->). by exists d, a, b, n.
Qed.

(** *** Changing the contents of a block of the file *)

Lemma put_data_loc w i idx b x q :
  file_ok w i -> 0 <= idx < MAX_IDX -> loc w i (PData idx) = b -> b <> 0 -> valid_pos q -> loc (put b x w) i q = loc w i q.
Proof.
  intros Hf Hi Hb H0. revert q. apply put_loc. intros c r k Hc Er Hr E. rewrite <- Hb in E.
  assert (r = PData idx) as -> by (apply (f_inj _ _ Hf); try done; by apply (parent_valid c r k)).
  clear -Er. destruct c; cbn in Er; try done. by repeat case_cmp_in Er.
Qed.

Lemma put_data_ok w i idx b x :
  sane w -> file_ok w i -> 0 <= idx < MAX_IDX -> loc w i (PData idx) = b -> b <> 0 -> is_bytes x -> length x = 4096%nat ->
  ext (fun o => o / 4096 = idx /\ byte_at (o mod 4096) x <> byte_at (o mod 4096) (own w b)) 0 w i (put b x w) i /\
  nfree (put b x w) = nfree w /\ (forall q, valid_pos q -> loc (put b x w) i q = loc w i q) /\
  (forall o, 0 <= o -> o / 4096 = idx -> file_byte (put b x w) i o = byte_at (o mod 4096) x).
Proof.
  intros H Hf Hi Hb H0 Hx Hl. assert (Hv : valid_pos (PData idx)) by done.
  assert (HL : forall q, valid_pos q -> loc (put b x w) i q = loc w i q) by (intros q Hq; by apply (put_data_loc w i idx)).
  assert (Hnb : ~ in_bitmap w b) by (rewrite <- Hb; apply loc_not_bitmap; congruence || done).
  assert (Hus : forall c, 0 <= c < total_blocks (the_super w) -> used (put b x w) c = used w c) by (intros c Hc; by apply put_used).
  assert (Hown : forall c, owned (put b x w) i c <-> owned w i c).
  { intros c. unfold owned. split; intros [Hc (q & Hq & E)]; (split; [done|]); exists q; (split; [done|]); by rewrite <- E, HL. }
  assert (Hrange : forall c, owned w i c -> 0 <= c < total_blocks (the_super w) /\ used w c = true).
  { intros c Hc. by destruct (owned_range w i c H Hf Hc) as (? & _ & ?). }
  assert (Hbyte : forall o, file_byte (put b x w) i o = if decide (loc w i (PData (o / 4096)) = b /\ 0 <= o / 4096 < MAX_IDX) then byte_at (o mod 4096) x
      else if decide (0 <= o / 4096 < MAX_IDX) then file_byte w i o else file_byte (put b x w) i o).
  { intros o. destruct (decide (0 <= o / 4096 < MAX_IDX)); [|rewrite decide_False by tauto; done]. unfold file_byte. rewrite HL by done.
    destruct (decide (loc w i (PData (o / 4096)) = b)) as [E|E].
    - rewrite decide_True by done. rewrite E, put_same. by destruct (Z.eqb_spec b 0).
    - rewrite decide_False by tauto. by rewrite put_other. }
  split; [|split; [|split; [done|]]].
  - constructor; try done.
    + by apply put_sane.
    + apply (file_ok_ext w); try done. intros q Hq Hq0. rewrite Hus; [by apply (loc_used w i)|]. apply Hrange. split; [done|eauto].
    + apply same_fs_refl.
    + apply same_inode_refl.
    + intros p Hp _. by apply HL.
    + intros c Hc. left. by apply Hown.
    + intros c Hc. rewrite Hus by done. rewrite Hown. split; [by left|]. intros [?|Hc']; [done|]. by apply Hrange.
    + intros c Hc Hm Hu Ho _. apply put_other. intros ->. apply Ho. split; [done|]. by exists (PData idx).
    + intros o Ho Hn _. assert (Hr : 0 <= o / 4096 < MAX_IDX) by (unfold MAX_IDX in *; div_lia). rewrite Hbyte.
      destruct (decide _) as [[E _]|]; [|by rewrite decide_True]. assert (PData (o / 4096) = PData idx) as [= Eo] by (apply (f_inj _ _ Hf); congruence || done).
      unfold file_byte. rewrite E, (proj2 (Z.eqb_neq b 0)) by done. destruct (decide (byte_at (o mod 4096) x = byte_at (o mod 4096) (own w b))); tauto.
  - by apply nfree_ext.
  - intros o Ho Eo. rewrite Hbyte, decide_True; [done|]. by rewrite Eo.
Qed.

(** A block that was taken and given back. *)
Lemma ext_undo P w b w1 i w' i' :
  sane w -> file_ok w i -> takes w b w1 -> ext P 0 w1 i w' i' -> ext P 0 w i (drop_block b w') i' /\ nfree (drop_block b w') = nfree w' + 1.
Proof.
  intros H Hf T X. assert (HL := takes_loc w b w1 i H Hf T). destruct (takes_file w b w1 i H Hf T) as (Hf1 & Hn1 & Hu1 & Hb1).
  destruct (ext_pending P w1 i w' i' b (t_sane _ _ _ T) X Hb1 Hu1 Hn1) as (Hb' & Hu' & Ho' & _).
  destruct T as [Hs Hb Hu Hfs (Ec & Ej & Es) Hus Ho]. assert (E := same_super w w1 Hfs). assert (E' := same_super w1 w' (e_fs _ _ _ _ _ _ X)).
  assert (Hp := data_block_pos w b H Hb). assert (Hs' := e_sane _ _ _ _ _ _ X). assert (Hf' := e_file _ _ _ _ _ _ X).
  assert (Hr' : 0 <= b < total_blocks (the_super w')) by (destruct Hb'; lia).
  assert (HD : forall q, valid_pos q -> loc (drop_block b w') i' q = loc w' i' q).
  { apply loc_ext. intros q Hq H0. apply drop_other; try done. by apply loc_not_bitmap. }
  assert (Hown : forall c, owned (drop_block b w') i' c <-> owned w' i' c).
  { intros c. unfold owned. split; intros [Hc (q & Hq & Eq)]; (split; [done|]); exists q; (split; [done|]); by rewrite <- Eq, HD. }
  assert (Hown1 : forall c, owned w1 i c <-> owned w i c).
  { intros c. unfold owned. split; intros [Hc (q & Hq & Eq)]; (split; [done|]); exists q; (split; [done|]); by rewrite <- Eq, HL. }
  assert (Hbits : forall c, 0 <= c -> used (drop_block b w') c = negb (c =? b) && used w' c) by (intros c Hc; by apply drop_bits).
  assert (Ht : total_blocks (the_super w') = total_blocks (the_super w)) by (by rewrite E', E).
  assert (Hnb : forall c, owned w' i' c -> c <> b) by (intros c Hc ->; done).
  assert (Hrange : forall c, owned w' i' c -> 0 <= c < total_blocks (the_super w) /\ ~ in_bitmap w' c /\ used w' c = true).
  { intros c Hc. rewrite <- Ht. by apply (owned_range w' i'). }
  assert (Hbytes : forall o, 0 <= o < MAX_IDX * 4096 -> file_byte (drop_block b w') i' o = file_byte w' i' o).
  { intros o Hoo. assert (Hpd : valid_pos (PData (o / 4096))) by (cbn; unfold MAX_IDX in *; div_lia). unfold file_byte. rewrite HD by done.
    destruct (Z.eqb_spec (loc w' i' (PData (o / 4096))) 0); [done|]. f_equal. apply drop_other; try done. by apply loc_not_bitmap. }
  split; [|exact (nfree_mark w' b false Hs' Hr' Hu')]. constructor.
  - apply drop_sane; try done.
  - apply (file_ok_ext w'); try done. intros q Hq H0. assert (Hoq : owned w' i' (loc w' i' q)) by (split; [done|eauto]).
    destruct (Hrange _ Hoq) as (? & _ & ?). rewrite Hbits by lia. by rewrite (proj2 (Z.eqb_neq _ _)) by (by apply Hnb).
  - apply (same_fs_trans _ (fs w')); [exact (same_fs_trans _ _ _ Hfs (e_fs _ _ _ _ _ _ X))|].
    exists (u64 (free_blocks (the_super w') + 1)), true. done.
  - change (clock_ (drop_block b w')) with (clock_ w'). by rewrite (e_clock _ _ _ _ _ _ X).
  - change (journal_ (drop_block b w')) with (journal_ w'). by rewrite (e_journal _ _ _ _ _ _ X).
  - change (sys_ (drop_block b w')) with (sys_ w'). by rewrite (e_sys _ _ _ _ _ _ X).
  - apply (e_inode _ _ _ _ _ _ X).
  - intros q Hq H0. rewrite HD by done. rewrite (e_keep _ _ _ _ _ _ X q Hq) by (by rewrite HL). by apply HL.
  - intros c Hc. apply Hown in Hc. destruct (e_fresh _ _ _ _ _ _ X c Hc) as [?|[Hu2|?]]; [left; by apply Hown1| |by right; right].
    right. left. destruct (Hrange c Hc) as (Hr & _). rewrite Hus in Hu2 by done. by apply orb_false_iff in Hu2 as [_ ?].
  - intros c Hc. rewrite Hown, Hbits by lia. assert (Hx := e_used _ _ _ _ _ _ X c ltac:(by rewrite E)). rewrite Hus in Hx by done.
    destruct (Z.eqb_spec c b) as [->|]; cbn [negb andb orb] in *; [|done]. rewrite Hu. split; [done|]. intros [?|?]; [done|]. by apply Hnb in H0.
  - intros c Hc Hm Huc Hoc _. rewrite drop_other; [|done|done|unfold in_bitmap in *; by rewrite E', E]. assert (Hcb : c <> b) by congruence.
    rewrite (e_frame _ _ _ _ _ _ X); [by apply Ho|by rewrite E|unfold in_bitmap in *; by rewrite E| |by rewrite Hown1|by right].
    rewrite Hus by done. by rewrite Huc, orb_true_r.
  - intros o Hoo Hno Hl. assert (Hpd : valid_pos (PData (o / 4096))) by (cbn; unfold MAX_IDX in *; div_lia).
    rewrite HD in Hl by done. rewrite Hbytes by done. rewrite (e_bytes _ _ _ _ _ _ X) by (try done; by rewrite HL). unfold file_byte. rewrite HL by done.
    destruct (Z.eqb_spec (loc w i (PData (o / 4096))) 0) as [|Hn]; [done|]. f_equal.
    apply Ho; [by apply loc_not_bitmap|]. intros Eq. rewrite <- Eq, (loc_used w i) in Hu by done. done.
Qed.

End tree.

Section data.
Context {D : Type} {BD : Cache.BlockDevice D} {DL : CacheSpec.DeviceLaws D} {ENV : Env}.
Local Abbreviation world := (st (Z -> list Z) (Cache.BlockCache * D)%type).
Implicit Type w : world.

Lemma u64_fits n : fits 8 (u64 n).
Proof. exact (u64_range n). Qed.

(** The block at [idx] after it was looked up or allocated; a new one holds what
    was on the disk there. *)
Definition acquired w i idx (o : option Z) w' i' : Prop :=
  ext (fun _ => False) 0 w i w' i' /\ nfree w - 3 <= nfree w' /\
  (forall x, 0 <= x < MAX_IDX -> x <> idx -> loc w' i' (PData x) = loc w i (PData x)) /\
  match o with
  | Some b => b <> 0 /\ loc w' i' (PData idx) = b /\
      (loc w i (PData idx) = 0 -> own w' b = own w b /\ data_block w b /\ used w b = false)
  | None => loc w' i' (PData idx) = 0 /\ nfree w < 3
  end.

Lemma ev_acquire l w i idx :
  (length l < 57)%nat -> sane w -> file_ok w i -> 0 <= idx < MAX_IDX ->
  exists o w' i', evals l (get_or_alloc_block i idx) w (o, i') w' /\ acquired w i idx o w' i'.
Proof.
  intros Hl H Hf Hi. assert (Hd := direct_len w i Hf). unfold get_or_alloc_block.
  assert (Ep : file_ptr w i idx = loc w i (PData idx)) by (unfold file_ptr; by rewrite (proj2 (Z.ltb_lt _ _)) by lia).
  assert (Hget := ev_get_ptr l w i idx ltac:(lia) Hd ltac:(lia)). rewrite Ep in Hget.
  destruct (decide (loc w i (PData idx) = 0)) as [E0|E0].
  2:{ eexists _, w, i. split; [eapply ev_bind; [exact Hget|]; rewrite (proj2 (Z.eqb_neq _ 0)) by done; apply ev_ret|].
      split; [by apply ext_refl|]. split; [lia|]. split; [done|]. done. }
  rewrite E0 in Hget. destruct (ev_alloc l w ltac:(lia) H) as [(b & (Hb & Hu & _) & Ha)|[Hn Ha]].
  2:{ exists None, w, i. split; [eapply ev_bind; [exact Hget|]; cbn [Z.eqb]; eapply ev_bind; [exact Ha|apply ev_ret]|].
      split; [by apply ext_refl|]. split; [lia|]. split; [done|]. split; [done|lia]. }
  assert (T := takes_block w b H Hb Hu). assert (HT := takes_nfree w b _ H T). assert (HL := takes_loc w b _ i H Hf T).
  destruct (takes_file w b _ i H Hf T) as (Hf1 & Ho1 & Hu1 & Hb1). assert (Hbp := data_block_pos w b H Hb).
  assert (Pn : pending idx b (take_block b w) i).
  { constructor; try done; [apply (t_sane _ _ _ T)|by rewrite HL]. }
  destruct (hang_new l idx b Hl _ _ Pn) as (ok & w' & i' & He & [Hh Hx] & Hn'). destruct ok.
  - destruct Hh as (X & El & Eo). exists (Some b), w', (set_blocks (u64 (blocks i' + 1)) i'). split.
    { eapply ev_bind; [exact Hget|]. cbn [Z.eqb]. eapply ev_bind; [exact Ha|]. rewrite (proj2 (Z.eqb_neq b 0)) by lia.
      eapply ev_bind; [exact He|]. apply ev_ret. }
    assert (Hob : owned w' i' b) by (split; [lia|]; by exists (PData idx)).
    split; [apply ext_blocks; [by apply (ext_take _ w b (take_block b w))|apply u64_fits]|]. split; [lia|]. split.
    { intros x Hxr Hne. rewrite (loc_ptrs _ i') by done. rewrite Hx by done. by apply HL. }
    split; [lia|]. split; [by rewrite (loc_ptrs _ i')|]. intros _. split; [|done]. rewrite Eo.
    apply take_other; [done|destruct Hb; lia|]. apply data_not_bitmap; [done|apply Hb].
  - destruct Hh as (X & El & Hn2). destruct (ext_undo _ w b _ i w' i' H Hf T X) as [X' Hn3].
    exists None, (drop_block b w'), i'. split.
    { eapply ev_bind; [exact Hget|]. cbn [Z.eqb]. eapply ev_bind; [exact Ha|]. rewrite (proj2 (Z.eqb_neq b 0)) by lia.
      eapply ev_bind; [exact He|]. cbn [negb]. eapply ev_bind; [|apply ev_ret]. apply ev_free; [lia|apply (e_sane _ _ _ _ _ _ X)|].
      rewrite (ext_total _ _ _ _ _ _ X). change (the_super (take_block b w)) with (set_free_blocks (u64 (free_blocks (the_super w) + -1)) (the_super w)).
      destruct Hb. split; [lia|done]. }
    assert (HD : forall q, valid_pos q -> loc (drop_block b w') i' q = loc w' i' q).
    { assert (Hs' := e_sane _ _ _ _ _ _ X). assert (Hf' := e_file _ _ _ _ _ _ X). apply loc_ext. intros q Hq H0. apply drop_other; [done| |by apply loc_not_bitmap].
      rewrite (ext_total _ _ _ _ _ _ X). destruct Hb. split; [lia|done]. }
    split; [done|]. split; [lia|]. split; [|split; [by rewrite HD|lia]].
    intros x Hxr Hne. rewrite HD by done. rewrite Hx by done. by apply HL.
Qed.

Lemma byte_inserts (k off : Z) (p x : list Z) :
  0 <= k -> 0 <= off -> (Z.to_nat off + length p <= length x)%nat ->
  byte_at k (list_inserts (Z.to_nat off) p x) =
    if decide (off <= k < off + Z.of_nat (length p)) then nth (Z.to_nat (k - off)) p 0 else byte_at k x.
Proof.
  intros Hk Ho Hl. unfold byte_at. destruct (decide _).
  - rewrite list_lookup_inserts by lia. rewrite nth_lookup. do 2 f_equal. lia.
  - destruct (decide (k < off)); [rewrite list_lookup_inserts_lt by lia|rewrite list_lookup_inserts_ge by lia]; done.
Qed.

Lemma nth_piece (src : list Z) (a n j : nat) : (j < n)%nat -> nth j (take n (drop a src)) 0 = nth (a + j) src 0.
Proof. intros Hj. rewrite !nth_lookup, lookup_take_lt, lookup_drop by done. done. Qed.

(** One round of a write: a piece inside one block. *)
Lemma write_piece w i o (n : nat) (p : list Z) b w1 i1 :
  sane w -> file_ok w i -> 0 <= o -> o < MAX_SIZE -> length p = n -> (0 < n)%nat -> o mod 4096 + Z.of_nat n <= 4096 -> is_bytes p ->
  acquired w i (o / 4096) (Some b) w1 i1 ->
  let w2 := put b (list_inserts (Z.to_nat (o mod 4096)) p (own w1 b)) w1 in
  ext (fun x => o <= x < o + Z.of_nat n) 0 w i w2 i1 /\ nfree w - 3 <= nfree w2 /\
  (forall x, o <= x < o + Z.of_nat n -> file_byte w2 i1 x = nth (Z.to_nat (x - o)) p 0 /\ loc w2 i1 (PData (x / 4096)) <> 0) /\
  (forall q, valid_pos q -> loc w2 i1 q = loc w1 i1 q).
Proof.
  intros H Hf Ho Hmax Hlen Hn Hfit Hp (X & Hn1 & Hx & Hb0 & Hb & _) w2. assert (Hi : 0 <= o / 4096 < MAX_IDX) by (unfold MAX_SIZE, MAX_IDX in *; div_lia).
  assert (H1 := e_sane _ _ _ _ _ _ X). assert (Hf1 := e_file _ _ _ _ _ _ X).
  set (x := list_inserts (Z.to_nat (o mod 4096)) p (own w1 b)) in *.
  assert (Hxl : length x = 4096%nat) by (unfold x; rewrite length_inserts; apply (s_sized _ H1)).
  assert (Hxb : is_bytes x) by (apply inserts_Forall; [done|apply (s_bytes _ H1)]).
  assert (Hby : forall k, 0 <= k -> byte_at k x = if decide (o mod 4096 <= k < o mod 4096 + Z.of_nat (length p)) then nth (Z.to_nat (k - o mod 4096)) p 0 else byte_at k (own w1 b)).
  { intros k Hk. apply byte_inserts; [done|div_lia|]. rewrite (s_sized _ H1). rewrite Hlen. div_lia. }
  destruct (put_data_ok w1 i1 (o / 4096) b x H1 Hf1 Hi Hb Hb0 Hxb Hxl) as (X2 & Hn2 & HL & Hbytes). split; [|split; [unfold w2; lia|split; [|done]]].
  - eapply ext_weaken; [|apply (ext_trans _ _ 0 0 0 w i w1 i1 w2 i1 (or_introl eq_refl) (or_introl eq_refl) X X2)].
    intros k [[]|[Ek Hne]]. rewrite Hby in Hne by div_lia. destruct (decide _); [|done]. rewrite Hlen in *. div_lia.
  - intros k Hk. assert (Ek : k / 4096 = o / 4096) by div_lia. split; [|rewrite Ek, HL by done; congruence].
    unfold w2. rewrite Hbytes by (done || lia). rewrite Hby by div_lia. rewrite decide_True by (rewrite Hlen; div_lia). f_equal. div_lia.
Qed.

(** The number of blocks that [n] bytes from offset [o] touch. *)
Definition touched (o n : Z) : Z := if n =? 0 then 0 else (o + n - 1) / 4096 - o / 4096 + 1.

(** The bytes of [src] from [written] up to [wr] have been written at [o]. *)
Definition wrote w i (o written wr : Z) (src : list Z) w' i' : Prop :=
  ext (fun x => o <= x < o + (wr - written)) 0 w i w' i' /\
  (forall x, o <= x < o + (wr - written) -> file_byte w' i' x = nth (Z.to_nat (written + (x - o))) src 0 /\ loc w' i' (PData (x / 4096)) <> 0).

Lemma ev_write_loop fuel l w i o src written :
  (length l < 57)%nat -> sane w -> file_ok w i -> is_bytes src -> 0 <= o -> 0 <= written <= Z.of_nat (length src) ->
  o + (Z.of_nat (length src) - written) <= MAX_SIZE -> touched o (Z.of_nat (length src) - written) <= Z.of_nat fuel ->
  exists early w' i' wr, evals l (write_loop fuel i o src written) w (early, i', o + (wr - written), wr) w' /\
    written <= wr <= Z.of_nat (length src) /\ wrote w i o written wr src w' i' /\
    (forall x, 0 <= x < MAX_IDX -> x < o / 4096 \/ (o + (Z.of_nat (length src) - written) - 1) / 4096 < x -> loc w' i' (PData x) = loc w i (PData x)) /\
    nfree w - 3 * touched o (Z.of_nat (length src) - written) <= nfree w' /\
    match early with
    | None => wr = Z.of_nat (length src)
    | Some r => r = (if 0 <? wr then to_i64 wr else -1) /\ wr < Z.of_nat (length src) /\ nfree w < 3 * touched o (Z.of_nat (length src) - written)
    end.
Proof.
  intros Hl. set (len := Z.of_nat (length src)). revert w i o written.
  assert (Hdone : forall fuel w i o written, sane w -> file_ok w i -> written = len -> exists early w' i' wr,
    evals l (write_loop fuel i o src written) w (early, i', o + (wr - written), wr) w' /\ written <= wr <= len /\ wrote w i o written wr src w' i' /\
    (forall x, 0 <= x < MAX_IDX -> x < o / 4096 \/ (o + (len - written) - 1) / 4096 < x -> loc w' i' (PData x) = loc w i (PData x)) /\
    nfree w - 3 * touched o (len - written) <= nfree w' /\
    match early with None => wr = len | Some r => r = (if 0 <? wr then to_i64 wr else -1) /\ wr < len /\ nfree w < 3 * touched o (len - written) end).
  { intros f w i o written H Hf ->. exists None, w, i, len. split; [|split; [lia|split; [|split; [done|split; [rewrite Z.sub_diag; unfold touched; cbn; lia|done]]]]].
    - replace (o + (len - len)) with o by lia. destruct f; cbn [write_loop]; fold len; rewrite (proj2 (Z.leb_le len len)) by lia; apply ev_ret.
    - split; [|intros x; lia]. eapply ext_weaken; [|by apply ext_refl]. done. }
  induction fuel as [|fuel IH]; intros w i o written H Hf Hsrc Ho Hw Hmax Hfuel.
  { apply Hdone; try done. unfold touched in Hfuel. destruct (Z.eqb_spec (len - written) 0); [lia|]. div_lia. }
  destruct (decide (written = len)) as [E|Hne]; [by apply Hdone|]. cbn [write_loop]. fold len. rewrite (proj2 (Z.leb_gt len written)) by lia.
  cbv zeta. unfold BLOCK_SIZE. set (n := Z.min (4096 - o mod 4096) (len - written)).
  assert (Hn : 0 < n <= len - written /\ o mod 4096 + n <= 4096) by (subst n; div_lia).
  assert (Hi : 0 <= o / 4096 < MAX_IDX) by (unfold MAX_SIZE, MAX_IDX in *; div_lia).
  assert (Ht : 0 < touched o (len - written)).
  { unfold touched. rewrite (proj2 (Z.eqb_neq _ 0)) by lia. assert (o / 4096 <= (o + (len - written) - 1) / 4096) by (apply Z.div_le_mono; lia). lia. }
  destruct (ev_acquire l w i (o / 4096) Hl H Hf Hi) as (ob & w1 & i1 & He & Ha). destruct ob as [b|].
  2:{ destruct Ha as (X & Hn1 & Hx & H01 & Hfail). exists (Some (if 0 <? written then to_i64 written else -1)), w1, i1, written.
      replace (o + (written - written)) with o by lia. split; [eapply ev_bind; [exact He|]; apply ev_ret|]. split; [lia|]. split; [|split; [|split; [lia|]]].
      - split; [|intros x; lia]. eapply ext_weaken; [|exact X]. done.
      - intros x Hxr Ho'. apply Hx; [done|]. assert (o / 4096 <= (o + (len - written) - 1) / 4096) by (apply Z.div_le_mono; lia). lia.
      - split; [done|]. split; [lia|]. lia. }
  set (p := take (Z.to_nat n) (drop (Z.to_nat written) src)).
  assert (Hpl : length p = Z.to_nat n) by (unfold p; rewrite length_take, length_drop; lia).
  assert (Hpb : is_bytes p) by (by apply Forall_take, Forall_drop). assert (Ha' := Ha).
  destruct (write_piece w i o (Z.to_nat n) p b w1 i1 H Hf Ho ltac:(lia) Hpl ltac:(lia) ltac:(lia) Hpb Ha) as (X2 & Hn2 & Hby & HL2).
  rewrite Z2Nat.id in X2, Hby by lia. set (w2 := put b _ w1) in *.
  destruct Ha as (X1 & Hn1 & Hx1 & Hb0 & _). specialize (IH w2 i1 (o + n) (written + n) (e_sane _ _ _ _ _ _ X2) (e_file _ _ _ _ _ _ X2) Hsrc).
  assert (Htn : touched (o + n) (len - (written + n)) <= touched o (len - written) - 1).
  { unfold touched. rewrite (proj2 (Z.eqb_neq (len - written) 0)) by lia. destruct (Z.eqb_spec (len - (written + n)) 0).
    - assert (o / 4096 <= (o + (len - written) - 1) / 4096) by (apply Z.div_le_mono; lia). lia.
    - replace (o + n + (len - (written + n)) - 1) with (o + (len - written) - 1) by lia.
      assert ((o + n) / 4096 = o / 4096 + 1) by (subst n; div_lia). lia. }
  destruct IH as (early & w' & i' & wr & He' & Hwr & [X3 Hby3] & Hx3 & Hn3 & Hearly); [lia|lia|lia|lia|].
  assert (Hstep : evals l (change_block b (list_inserts (Z.to_nat (o mod 4096)) p)) w1 true w2).
  { apply ev_change; [lia|]. intros Hs. rewrite length_inserts. apply Hs. }
  exists early, w', i', wr. split; [|split; [lia|split; [split|split; [|split; [lia|]]]]].
  - eapply ev_bind; [exact He|]. cbn beta iota. eapply ev_bind; [exact Hstep|]. cbn [negb].
    rewrite u64_small by (unfold MAX_SIZE, MAX_IDX in *; lia). by replace (o + (wr - written)) with (o + n + (wr - (written + n))) by lia.
  - eapply ext_weaken; [|exact (ext_trans _ _ 0 0 0 w i w2 i1 w' i' (or_introl eq_refl) (or_introl eq_refl) X2 X3)]. cbn. intros x. lia.
  - intros x Hx. destruct (decide (x < o + n)) as [Hlt|Hge].
    + destruct (Hby x ltac:(lia)) as [E1 E2]. assert (Hv : valid_pos (PData (x / 4096))) by (cbn; unfold MAX_SIZE, MAX_IDX in *; div_lia).
      assert (Hk := e_keep _ _ _ _ _ _ X3 _ Hv E2). split; [|congruence].
      rewrite (e_bytes _ _ _ _ _ _ X3); [|unfold MAX_SIZE in *; lia|lia|by left]. rewrite E1. unfold p. rewrite nth_piece by lia. f_equal. lia.
    + destruct (Hby3 x ltac:(lia)) as [E1 E2]. split; [|done]. rewrite E1. f_equal. lia.
  - intros x Hxr Hout. rewrite Hx3; [|done|replace (o + n + (len - (written + n)) - 1) with (o + (len - written) - 1) by lia].
    + rewrite HL2 by done. apply Hx1; [done|]. assert (o / 4096 <= (o + (len - written) - 1) / 4096) by (apply Z.div_le_mono; lia). lia.
    + destruct Hout; [left|by right]. assert (o / 4096 <= (o + n) / 4096) by (apply Z.div_le_mono; lia). lia.
  - destruct early; [|done]. destruct Hearly as (? & ? & ?). split; [done|]. split; [done|]. lia.
Qed.

(** The size of a file after a write. *)
Definition grow_size (n : Z) (i : Inode) : Inode := if size i <? n then set_size n i else i.

Lemma to_i64_small z : 0 <= z <= MAX_SIZE -> to_i64 z = z.
Proof. intros H. unfold to_i64. rewrite (proj2 (Z.ltb_lt z _)); [done|]. change (2 ^ 63) with 9223372036854775808. unfold MAX_SIZE, MAX_IDX in *. lia. Qed.

Lemma touched_fuel o n : 0 <= o -> 0 <= n -> touched o n <= Z.of_nat (Z.to_nat (n / BLOCK_SIZE) + 2).
Proof. intros Ho Hn. unfold touched, BLOCK_SIZE. destruct (Z.eqb_spec n 0); [lia|]. div_lia. Qed.

(** A complete write, or a write that ran out of blocks: then the size of the
    file is left alone. *)
Lemma ev_write_data l w i o src :
  (length l < 57)%nat -> sane w -> file_ok w i -> is_bytes src -> 0 <= o -> o + Z.of_nat (length src) <= MAX_SIZE ->
  let len := Z.of_nat (length src) in
  exists wr w1 i1, wrote w i o 0 wr src w1 i1 /\ nfree w - 3 * touched o len <= nfree w1 /\
    (forall x, 0 <= x < MAX_IDX -> x < o / 4096 \/ (o + len - 1) / 4096 < x -> loc w1 i1 (PData x) = loc w i (PData x)) /\
    (wr = len /\ evals l (write_data i o src) w (len, set_mtime (get_ms (clock_ w)) (grow_size (o + len) i1)) (tick w1) \/
     0 <= wr < len /\ nfree w < 3 * touched o len /\ evals l (write_data i o src) w (if 0 <? wr then wr else -1, i1) w1).
Proof.
  intros Hl H Hf Hsrc Ho Hmax len.
  destruct (ev_write_loop (Z.to_nat (len / BLOCK_SIZE) + 2) l w i o src 0 Hl H Hf Hsrc Ho) as (early & w1 & i1 & wr & He & Hwr & Hw & Hx & Hfr & Hearly);
    [lia|lia|rewrite Z.sub_0_r; apply touched_fuel; lia|].
  exists wr, w1, i1. split; [done|]. fold len in Hwr, Hx, Hearly, Hfr. split; [by rewrite Z.sub_0_r in Hfr|]. split; [intros x Hxr Hout; apply Hx; [done|]; by rewrite Z.sub_0_r|].
  rewrite Z.sub_0_r in *. assert (Hm := s_mounted _ H). destruct early as [r|].
  - destruct Hearly as (-> & Hlt & Hn). right. split; [lia|]. split; [done|]. eapply ev_bind; [apply ev_mounted|]. rewrite Hm. cbn [negb].
    eapply ev_bind; [exact He|]. rewrite to_i64_small by (unfold MAX_SIZE in *; lia). apply ev_ret.
  - left. split; [done|]. subst wr. eapply ev_bind; [apply ev_mounted|]. rewrite Hm. cbn [negb]. eapply ev_bind; [exact He|].
    cbn beta iota. eapply ev_bind; [apply ev_now|]. rewrite to_i64_small by (unfold MAX_SIZE in *; lia).
    destruct Hw as [X _]. rewrite (e_clock _ _ _ _ _ _ X). apply ev_ret.
Qed.

(** Overwriting a block that the file has. *)
Lemma ev_write_block l w i o src :
  (length l < 57)%nat -> sane w -> file_ok w i -> length src = 4096%nat -> 0 <= o -> o mod 4096 = 0 -> o + 4096 <= size i -> size i <= MAX_SIZE ->
  loc w i (PData (o / 4096)) <> 0 ->
  evals l (write_data i o src) w (4096, set_mtime (get_ms (clock_ w)) i) (tick (put (loc w i (PData (o / 4096))) src w)).
Proof.
  intros Hl H Hf Hlen Ho Hmod Hsize Hmax Hb. set (b := loc w i (PData (o / 4096))) in *. assert (Hsz : Z.of_nat (length src) = 4096) by lia.
  unfold write_data. eapply ev_bind; [apply ev_mounted|]. rewrite (s_mounted _ H). cbn [negb]. rewrite Hsz. unfold BLOCK_SIZE.
  change (Z.to_nat (4096 / 4096) + 2)%nat with 3%nat. eapply ev_bind.
  { cbn [write_loop]. rewrite Hsz. cbn [Z.leb Z.compare]. unfold BLOCK_SIZE. rewrite Hmod. cbv zeta. change (Z.min (4096 - 0) (4096 - 0)) with 4096.
    eapply ev_bind.
    { unfold get_or_alloc_block. eapply ev_bind; [apply ev_get_ptr; [lia|by apply (direct_len w)|div_lia]|].
      rewrite file_ptr_loc by (unfold MAX_SIZE in *; lia). fold b. rewrite (proj2 (Z.eqb_neq b 0)) by done. apply ev_ret. }
    cbn beta iota. eapply ev_bind.
    { apply ev_change; [lia|]. intros Hs. rewrite length_inserts. apply Hs. }
    cbn [negb]. rewrite u64_small by (unfold MAX_SIZE, MAX_IDX in *; lia). cbn [Z.add Z.leb Z.compare]. apply ev_ret. }
  cbn beta iota. rewrite (proj2 (Z.ltb_ge (size i) (o + 4096))) by lia. eapply ev_bind; [apply ev_now|].
  assert (E : list_inserts (Z.to_nat 0) (take (Z.to_nat 4096) (drop (Z.to_nat 0) src)) (own w b) = src).
  { change (Z.to_nat 0) with 0%nat. change (Z.to_nat 4096) with 4096%nat. rewrite drop_0, take_ge by lia.
    rewrite <- (app_nil_r (own w b)), list_inserts_0_r; [apply app_nil_r|]. rewrite (s_sized _ H). lia. }
  rewrite E. change (to_i64 4096) with 4096. apply ev_ret.
Qed.

End data.
End FsWrite.
