(* ===== verification/FsDirent.v ===== *)
(** * ViperFS: directory blocks

    A directory block is a sequence of records that fill it.  [tiles x rs]
    states that [x] holds the records [rs]; the scans of the source over such a
    block find, add and remove records as a list would. *)

From S2P Require Import Prelude Bytes FsLayout ViperFs.

Module FsDirent.
Import Bytes FsLayout ViperFs.

(** ** Fields inside a buffer *)

Lemma field_piece (n : nat) pre v post :
  fits n v -> field (Z.of_nat n) (Z.of_nat (length pre)) (pre ++ le_split n v ++ post) = Ok v.
Proof.
  intros Hv. unfold field. rewrite !length_app, length_le_split.
  rewrite (proj2 (Z.leb_le 0 _)), (proj2 (Z.leb_le _ (Z.of_nat (length pre + _)))) by lia. cbn [andb].
  rewrite !Nat2Z.id. unfold ld. rewrite (cut_app _ n) by (done || apply length_le_split). by rewrite combine_split.
Qed.

Lemma set_field_piece (n : nat) pre mid post v :
  length mid = n -> set_field (Z.of_nat n) (Z.of_nat (length pre)) v (pre ++ mid ++ post) = Ok (pre ++ le_split n v ++ post).
Proof.
  intros Hm. unfold set_field. rewrite !length_app, Hm.
  rewrite (proj2 (Z.leb_le 0 _)), (proj2 (Z.leb_le _ (Z.of_nat (length pre + _)))) by lia. cbn [andb].
  rewrite !Nat2Z.id. unfold Bytes.st. f_equal. replace (length pre) with (length pre + 0)%nat by lia. rewrite list_inserts_app_r. f_equal.
  apply list_inserts_0_r. by rewrite length_le_split.
Qed.

Lemma le_split_1 c : 0 <= c < 256 -> le_split 1 c = [c].
Proof. intros H. cbn. by rewrite Z.mod_small. Qed.

(** ** Records *)

(** The record length is the length of the record; the slack is what follows
    the name. *)
Record drec := mkRec { r_ino : Z; r_len : Z; r_type : Z; r_name : list Z; r_slack : list Z }.

Definition name_len (r : drec) : Z := Z.of_nat (length (r_name r)).

Definition enc (r : drec) : list Z :=
  le_split 8 (r_ino r) ++ le_split 2 (r_len r) ++ le_split 1 (name_len r) ++ le_split 1 (r_type r) ++ r_name r ++ r_slack r.

Record wf_rec (r : drec) : Prop := {
  w_ino : fits 8 (r_ino r);
  w_type : fits 1 (r_type r);
  w_name : (length (r_name r) <= 255)%nat;
  w_name_bytes : is_bytes (r_name r);
  w_slack_bytes : is_bytes (r_slack r);
  w_len : r_len r = 12 + Z.of_nat (length (r_name r)) + Z.of_nat (length (r_slack r));
  w_room : dir_entry_size (name_len r) <= r_len r;
  w_block : r_len r <= 4096
}.

Lemma length_enc r : length (enc r) = (12 + length (r_name r) + length (r_slack r))%nat.
Proof. unfold enc. rewrite !length_app, !length_le_split. lia. Qed.

Lemma enc_len r : wf_rec r -> Z.of_nat (length (enc r)) = r_len r.
Proof. intros H. rewrite length_enc, (w_len _ H). lia. Qed.

Lemma enc_bytes r : wf_rec r -> is_bytes (enc r).
Proof. intros []. unfold enc, is_bytes. rewrite !Forall_app. repeat split; try apply le_split_bytes; done. Qed.

Lemma name_len_byte r : wf_rec r -> 0 <= name_len r < 256.
Proof. intros []. unfold name_len. lia. Qed.

(** Reading the record that follows [pre] in a buffer. *)
Section reading.
Context (pre post : list Z) (r : drec) (Hr : wf_rec r).
Let pos := Z.of_nat (length pre).
Let buf := pre ++ enc r ++ post.

Lemma read_ino : e_inode pos buf = Ok (r_ino r).
Proof. unfold e_inode, buf, enc. rewrite <- !app_assoc. apply (field_piece 8), (w_ino _ Hr). Qed.

Lemma read_rec_len : e_rec_len pos buf = Ok (r_len r).
Proof.
  unfold e_rec_len, buf, enc. rewrite <- !app_assoc, (app_assoc pre). replace (pos + 8) with (Z.of_nat (length (pre ++ le_split 8 (r_ino r)))).
  - apply (field_piece 2). destruct Hr. unfold fits. change (256 ^ Z.of_nat 2) with 65536. lia.
  - rewrite length_app, length_le_split. unfold pos. lia.
Qed.

Lemma read_name_len : e_name_len pos buf = Ok (name_len r).
Proof.
  unfold e_name_len, buf, enc. rewrite <- !app_assoc, (app_assoc pre), (app_assoc (pre ++ _)).
  replace (pos + 10) with (Z.of_nat (length ((pre ++ le_split 8 (r_ino r)) ++ le_split 2 (r_len r)))).
  - apply (field_piece 1). exact (name_len_byte r Hr).
  - rewrite !length_app, !length_le_split. unfold pos. lia.
Qed.

Lemma read_type : e_file_type pos buf = Ok (r_type r).
Proof.
  unfold e_file_type, buf, enc. rewrite <- !app_assoc, (app_assoc pre), (app_assoc (pre ++ _)), (app_assoc ((pre ++ _) ++ _)).
  replace (pos + 11) with (Z.of_nat (length (((pre ++ le_split 8 (r_ino r)) ++ le_split 2 (r_len r)) ++ le_split 1 (name_len r)))).
  - apply (field_piece 1), (w_type _ Hr).
  - rewrite !length_app, !length_le_split. unfold pos. lia.
Qed.

Lemma head_name : exists h, buf = h ++ r_name r ++ r_slack r ++ post /\ Z.of_nat (length h) = pos + 12.
Proof.
  exists (pre ++ le_split 8 (r_ino r) ++ le_split 2 (r_len r) ++ le_split 1 (name_len r) ++ le_split 1 (r_type r)).
  split; [unfold buf, enc; by rewrite <- !app_assoc|]. rewrite !length_app, !length_le_split. unfold pos. lia.
Qed.

Lemma read_name_loop name done_ rest i :
  r_name r = done_ ++ rest -> i = Z.of_nat (length done_) -> length name = length rest ->
  same_name pos i name buf = Ok (bool_decide (name = rest)).
Proof.
  destruct head_name as (h & Eb & Hh). revert done_ rest i. induction name as [|c name IH]; intros done_ [|d rest] i En Ei Hl; try done. cbn [same_name]. rewrite Ei. cbn in Hl.
  assert (Hb : 0 <= d < 256).
  { assert (Hd := w_name_bytes _ Hr). rewrite En in Hd. apply Forall_app in Hd as [_ Hd]. by inversion Hd. }
  assert (E1 : e_name pos (Z.of_nat (length done_)) buf = Ok d).
  { unfold e_name. rewrite Eb, En. rewrite <- app_assoc, (app_assoc h). replace (pos + 12 + Z.of_nat (length done_)) with (Z.of_nat (length (h ++ done_))) by (rewrite length_app; lia).
    change ((d :: rest) ++ r_slack r ++ post) with ([d] ++ rest ++ r_slack r ++ post). rewrite <- (le_split_1 d Hb). apply (field_piece 1). exact Hb. }
  rewrite E1, bind_Ok. destruct (Z.eqb_spec d c) as [->|Hne]; cbn [negb].
  - rewrite (IH (done_ ++ [c]) rest); [|by rewrite <- app_assoc|rewrite length_app; cbn; lia|lia].
    f_equal. apply bool_decide_ext. split; [by intros ->|by intros [=]].
  - rewrite bool_decide_false; [done|]. intros [=]. congruence.
Qed.

(** Whether the record is live and has the name. *)
Definition matches (name : list Z) (r : drec) : bool := negb (r_ino r =? 0) && bool_decide (r_name r = name).

Lemma read_matches name : entry_matches pos name buf = Ok (matches name r).
Proof.
  unfold entry_matches, matches. rewrite read_ino, bind_Ok, read_name_len, bind_Ok. destruct (r_ino r =? 0); cbn [negb andb]; [done|].
  unfold name_len. destruct (Z.eqb_spec (Z.of_nat (length (r_name r))) (Z.of_nat (length name))) as [E|E]; cbn [andb].
  - rewrite (read_name_loop name [] (r_name r)) by (done || lia). f_equal. apply bool_decide_ext. split; congruence.
  - rewrite bool_decide_false; [done|]. intros <-. done.
Qed.

Lemma read_entry : entry_at pos buf = Ok (r_name r, r_ino r, r_type r).
Proof.
  unfold entry_at. rewrite read_name_len, bind_Ok, read_ino, bind_Ok, read_type, bind_Ok. destruct head_name as (h & Eb & Hh).
  rewrite Eb. rewrite <- Hh, Nat2Z.id. unfold name_len. rewrite Nat2Z.id. by rewrite cut_app.
Qed.

End reading.

(** Writing a record over raw bytes. *)
Lemma put_name_ok pos name pre mid post i :
  Z.of_nat (length pre) = pos + 12 + i -> length mid = length name -> is_bytes name ->
  put_name pos i name (pre ++ mid ++ post) = Ok (pre ++ name ++ post).
Proof.
  intros Hp Hl Hb. revert pre mid i Hp Hl. induction Hb as [|c name Hc Hb IH]; intros pre [|m mid] i Hp Hl; simplify_eq/=; [done|].
  unfold set_e_name. rewrite <- Hp. change (m :: mid ++ post) with ([m] ++ mid ++ post). rewrite (set_field_piece 1), bind_Ok, (le_split_1 c Hc) by done.
  rewrite (app_assoc pre), (IH (pre ++ [c]) mid (i + 1)) by (rewrite ?length_app; cbn; lia || done). by rewrite <- app_assoc.
Qed.

Lemma put_entry_ok pre e post ino len type name :
  fits 8 ino -> (12 + length name <= length e)%nat -> (length name <= 255)%nat -> is_bytes name ->
  put_entry (Z.of_nat (length pre)) ino len type name (pre ++ e ++ post) =
    Ok (pre ++ enc (mkRec ino len type name (drop (12 + length name) e)) ++ post).
Proof.
  intros Hi Hl Hn Hb. set (pos := Z.of_nat (length pre)).
  assert (He : e = take 8 e ++ take 2 (drop 8 e) ++ take 1 (drop 10 e) ++ take 1 (drop 11 e) ++ take (length name) (drop 12 e) ++ drop (12 + length name) e).
  { rewrite <- (drop_drop e (length name) 12), (take_drop (length name)).
    change 12%nat with (11 + 1)%nat. rewrite <- (drop_drop e 1 11), (take_drop 1). change 11%nat with (10 + 1)%nat. rewrite <- (drop_drop e 1 10), (take_drop 1).
    change 10%nat with (8 + 2)%nat. rewrite <- (drop_drop e 2 8), (take_drop 2). by rewrite (take_drop 8). }
  set (a1 := take 8 e) in *. set (a2 := take 2 (drop 8 e)) in *. set (a3 := take 1 (drop 10 e)) in *. set (a4 := take 1 (drop 11 e)) in *.
  set (a5 := take (length name) (drop 12 e)) in *. set (a6 := drop (12 + length name) e) in *.
  assert (L : length a1 = 8%nat /\ length a2 = 2%nat /\ length a3 = 1%nat /\ length a4 = 1%nat /\ length a5 = length name).
  { unfold a1, a2, a3, a4, a5. rewrite !length_take, !length_drop. lia. }
  destruct L as (L1 & L2 & L3 & L4 & L5). clearbody a1 a2 a3 a4 a5 a6. subst e. rewrite <- !app_assoc.
  unfold put_entry, set_e_inode, set_e_rec_len, set_e_name_len, set_e_file_type.
  unfold pos. rewrite (set_field_piece 8), bind_Ok by done. rewrite (app_assoc pre (le_split 8 ino)).
  replace (Z.of_nat (length pre) + 8) with (Z.of_nat (length (pre ++ le_split 8 ino))) by (rewrite length_app, length_le_split; lia).
  rewrite (set_field_piece 2), bind_Ok by done. rewrite (app_assoc (pre ++ _) (le_split 2 len)).
  replace (Z.of_nat (length pre) + 10) with (Z.of_nat (length ((pre ++ le_split 8 ino) ++ le_split 2 len))) by (rewrite !length_app, !length_le_split; lia).
  rewrite u8_small by lia. rewrite (set_field_piece 1), bind_Ok by done. rewrite (app_assoc ((pre ++ _) ++ _) (le_split 1 _)).
  replace (Z.of_nat (length pre) + 11) with (Z.of_nat (length (((pre ++ le_split 8 ino) ++ le_split 2 len) ++ le_split 1 (Z.of_nat (length name))))) by (rewrite !length_app, !length_le_split; lia).
  rewrite (set_field_piece 1), bind_Ok by done. rewrite (app_assoc (((pre ++ _) ++ _) ++ _) (le_split 1 type)).
  rewrite (put_name_ok _ _ _ a5) by (rewrite ?length_app, ?length_le_split; lia || done).
  unfold enc, name_len. cbn [r_ino r_len r_type r_name r_slack]. by rewrite <- !app_assoc.
Qed.

(** Changing the inode number or the record length of a record. *)
Lemma set_ino_ok pre post r v :
  set_e_inode (Z.of_nat (length pre)) v (pre ++ enc r ++ post) = Ok (pre ++ enc (mkRec v (r_len r) (r_type r) (r_name r) (r_slack r)) ++ post).
Proof.
  unfold set_e_inode, enc. rewrite <- !app_assoc. rewrite (set_field_piece 8) by apply length_le_split. done.
Qed.

Lemma set_len_ok pre post r v :
  set_e_rec_len (Z.of_nat (length pre)) v (pre ++ enc r ++ post) = Ok (pre ++ enc (mkRec (r_ino r) v (r_type r) (r_name r) (r_slack r)) ++ post).
Proof.
  unfold set_e_rec_len, enc. rewrite <- !app_assoc, (app_assoc pre).
  replace (Z.of_nat (length pre) + 8) with (Z.of_nat (length (pre ++ le_split 8 (r_ino r)))) by (rewrite length_app, length_le_split; lia).
  rewrite (set_field_piece 2) by apply length_le_split. unfold name_len. cbn. by rewrite <- !app_assoc.
Qed.

(** ** Blocks *)

Definition encs (rs : list drec) : list Z := concat (enc <$> rs).

(** The block [x] is filled by the records [rs]. *)
Definition tiles (x : list Z) (rs : list drec) : Prop := x = encs rs /\ length x = 4096%nat /\ Forall wf_rec rs.

(** What the live records of a block say: name, inode number, type. *)
Definition live_of (r : drec) : list (list Z * (Z * Z)) := if r_ino r =? 0 then [] else [(r_name r, (r_ino r, r_type r))].
Definition live (rs : list drec) : list (list Z * (Z * Z)) := concat (live_of <$> rs).

Lemma encs_cons r rs : encs (r :: rs) = enc r ++ encs rs.
Proof. done. Qed.
Lemma encs_app a c : encs (a ++ c) = encs a ++ encs c.
Proof. unfold encs. by rewrite fmap_app, concat_app. Qed.
Lemma live_cons r rs : live (r :: rs) = live_of r ++ live rs.
Proof. done. Qed.
Lemma live_app a c : live (a ++ c) = live a ++ live c.
Proof. unfold live. by rewrite fmap_app, concat_app. Qed.

Lemma encs_bytes rs : Forall wf_rec rs -> is_bytes (encs rs).
Proof. induction 1; [constructor|]. rewrite encs_cons. apply Forall_app. split; [by apply enc_bytes|done]. Qed.

Lemma tiles_bytes x rs : tiles x rs -> is_bytes x.
Proof. intros (-> & _ & H). by apply encs_bytes. Qed.

Lemma enc_pos r : wf_rec r -> (12 <= length (enc r))%nat.
Proof. intros H. rewrite length_enc. lia. Qed.

Lemma encs_length rs : Forall wf_rec rs -> (length rs <= length (encs rs))%nat.
Proof. induction 1 as [|r rs Hr Hrs IH]; [done|]. rewrite encs_cons, length_app. cbn. assert (H := enc_pos r Hr). lia. Qed.

Lemma live_lookup name rs r : List.find (matches name) rs = Some r -> (name, (r_ino r, r_type r)) ∈ live rs /\ r_ino r <> 0 /\ r_name r = name.
Proof.
  intros H. apply List.find_some in H as [Hin Hm]. unfold matches in Hm. apply andb_true_iff in Hm as [H0 Hn%bool_decide_eq_true].
  apply negb_true_iff, Z.eqb_neq in H0. split; [|done]. unfold live. apply list_elem_of_In, List.in_concat.
  exists (live_of r). split; [by apply List.in_map|]. unfold live_of. rewrite (proj2 (Z.eqb_neq _ 0)) by done. rewrite Hn. by left.
Qed.

Lemma live_none name rs : List.find (matches name) rs = None -> name ∉ (live rs).*1.
Proof.
  induction rs as [|r rs IH]; cbn [List.find]; [intros _; by apply not_elem_of_nil|]. destruct (matches name r) eqn:E; [done|]. intros H.
  rewrite live_cons, fmap_app, elem_of_app. intros [H1|H1]; [|by apply IH]. unfold live_of in H1. unfold matches in E.
  destruct (r_ino r =? 0); [by apply not_elem_of_nil in H1|]. apply list_elem_of_singleton in H1. cbn in H1. subst. by rewrite bool_decide_true in E.
Qed.

(** The test of the record length passes in a well-formed block. *)
Lemma rec_len_good pre r rs :
  wf_rec r -> (length (pre ++ enc r ++ rs) = 4096)%nat ->
  (4096 <=? Z.of_nat (length pre)) = false /\ (r_len r =? 0) = false /\ bad_rec_len (Z.of_nat (length pre)) 4096 (r_len r) = false /\
  Z.of_nat (length pre) + r_len r = Z.of_nat (length (pre ++ enc r)).
Proof.
  intros Hr Hl. rewrite !length_app in Hl. assert (He := enc_len r Hr). assert (H12 := enc_pos r Hr). unfold bad_rec_len, DIR_ENTRY_MIN_SIZE.
  rewrite length_app. split; [apply Z.leb_gt; lia|]. split; [apply Z.eqb_neq; lia|]. split; [|lia].
  apply orb_false_iff. split; [apply Z.ltb_ge; lia|apply Z.ltb_ge; lia].
Qed.

(** *** Looking a name up *)

Lemma lookup_scan fuel pre rs name :
  Forall wf_rec rs -> length (pre ++ encs rs) = 4096%nat -> (length rs <= fuel)%nat ->
  lookup_block fuel (Z.of_nat (length pre)) 4096 name (pre ++ encs rs) =
    Ok (match List.find (matches name) rs with Some r => Return (r_ino r) | None => Break end).
Proof.
  intros Hw. revert fuel pre. induction Hw as [|r rs Hr Hw IH]; intros fuel pre Hl Hf.
  { rewrite app_nil_r in Hl. destruct fuel; cbn [lookup_block List.find]; rewrite (proj2 (Z.leb_le 4096 _)) by lia; done. }
  destruct fuel as [|fuel]; [cbn in Hf; lia|]. cbn [lookup_block List.find]. rewrite encs_cons in *.
  destruct (rec_len_good pre r (encs rs) Hr Hl) as (E1 & E2 & E3 & E4). rewrite E1, (read_rec_len pre _ r Hr), bind_Ok, E2, E3.
  rewrite (read_matches pre _ r Hr), bind_Ok. destruct (matches name r); [by rewrite (read_ino pre _ r Hr)|].
  rewrite E4, app_assoc. apply IH; [by rewrite <- app_assoc|cbn in Hf; lia].
Qed.

Lemma lookup_tiles x rs name :
  tiles x rs -> lookup_block 4096 0 4096 name x = Ok (match List.find (matches name) rs with Some r => Return (r_ino r) | None => Break end).
Proof.
  intros (-> & Hl & Hw). apply (lookup_scan 4096 []); [done|done|]. assert (H := encs_length rs Hw). lia.
Qed.

(** *** Enumerating *)

Lemma readdir_scan fuel pre rs acc :
  Forall wf_rec rs -> length (pre ++ encs rs) = 4096%nat -> (length rs <= fuel)%nat ->
  readdir_block fuel (Z.of_nat (length pre)) 4096 (pre ++ encs rs) acc =
    Ok (true, acc ++ ((fun e => (e.1, e.2.1, e.2.2)) <$> live rs)).
Proof.
  intros Hw. revert fuel pre acc. induction Hw as [|r rs Hr Hw IH]; intros fuel pre acc Hl Hf.
  { rewrite app_nil_r in Hl. destruct fuel; cbn [readdir_block]; rewrite (proj2 (Z.leb_le 4096 _)) by lia; cbn; by rewrite app_nil_r. }
  destruct fuel as [|fuel]; [cbn in Hf; lia|]. cbn [readdir_block]. rewrite encs_cons in *.
  destruct (rec_len_good pre r (encs rs) Hr Hl) as (E1 & E2 & E3 & E4). rewrite E1, (read_rec_len pre _ r Hr), bind_Ok, E2, E3.
  rewrite (read_ino pre _ r Hr), bind_Ok, (read_entry pre _ r Hr). rewrite live_cons, fmap_app. unfold live_of.
  assert (Hn : length ((pre ++ enc r) ++ encs rs) = 4096%nat) by (by rewrite <- app_assoc).
  destruct (r_ino r =? 0); cbn [negb]; rewrite !bind_Ok, E4, app_assoc, IH by (done || cbn in Hf; lia); [done|]. by rewrite <- app_assoc.
Qed.

Lemma readdir_tiles x rs acc :
  tiles x rs -> readdir_block 4096 0 4096 x acc = Ok (true, acc ++ ((fun e => (e.1, e.2.1, e.2.2)) <$> live rs)).
Proof.
  intros (-> & Hl & Hw). apply (readdir_scan 4096 []); [done|done|]. assert (H := encs_length rs Hw). lia.
Qed.

(** *** Adding *)

(** The record [r] cut to its own size, and the new record in the rest. *)
Definition cut_rec (r : drec) : drec :=
  mkRec (r_ino r) (dir_entry_size (name_len r)) (r_type r) (r_name r) (take (Z.to_nat (dir_entry_size (name_len r) - 12 - name_len r)) (r_slack r)).
Definition rest_of (r : drec) : list Z := drop (Z.to_nat (dir_entry_size (name_len r) - 12 - name_len r)) (r_slack r).
Definition new_rec (r : drec) (ino type : Z) (name : list Z) : drec :=
  mkRec ino (r_len r - dir_entry_size (name_len r)) type name (drop (12 + length name) (rest_of r)).

Definition has_room (needed : Z) (r : drec) : bool := needed <=? r_len r - dir_entry_size (name_len r).

Lemma entry_size_range n : 0 <= n < 256 -> 12 + n <= dir_entry_size n < 12 + n + 8.
Proof. intros H. rewrite dir_entry_size_val by done. div_lia. Qed.

Lemma rest_length r : wf_rec r -> Z.of_nat (length (rest_of r)) = r_len r - dir_entry_size (name_len r).
Proof.
  intros H. assert (Hs := entry_size_range _ (name_len_byte r H)). destruct H. unfold rest_of, name_len in *. rewrite length_drop. lia.
Qed.

Lemma cut_wf r : wf_rec r -> wf_rec (cut_rec r).
Proof.
  intros H. assert (Hs := entry_size_range _ (name_len_byte r H)). assert (H' := H). destruct H'. constructor; cbn; try done.
  - by apply Forall_take.
  - rewrite length_take. unfold name_len in *. lia.
  - lia.
Qed.

Lemma new_wf r ino type name :
  wf_rec r -> fits 8 ino -> fits 1 type -> (length name <= 255)%nat -> is_bytes name ->
  has_room (dir_entry_size (Z.of_nat (length name))) r = true -> wf_rec (new_rec r ino type name).
Proof.
  intros H Hi Ht Hn Hb Hroom%Z.leb_le. assert (Hl := rest_length r H). assert (Hs := entry_size_range (Z.of_nat (length name)) ltac:(lia)).
  constructor; cbn; try done.
  - unfold rest_of. apply Forall_drop, Forall_drop, (w_slack_bytes _ H).
  - rewrite length_drop. lia.
  - assert (Hs' := entry_size_range _ (name_len_byte r H)). assert (Hb' := w_block _ H). assert (Hn' := name_len_byte r H). lia.
Qed.

Lemma split_rec r : enc (mkRec (r_ino r) (dir_entry_size (name_len r)) (r_type r) (r_name r) (r_slack r)) = enc (cut_rec r) ++ rest_of r.
Proof. unfold enc, cut_rec, rest_of. cbn [r_ino r_len r_type r_name r_slack]. unfold name_len. cbn. rewrite <- !app_assoc. by rewrite take_drop. Qed.

Lemma add_here pre r post ino type name :
  wf_rec r -> fits 8 ino -> (length name <= 255)%nat -> is_bytes name ->
  has_room (dir_entry_size (Z.of_nat (length name))) r = true ->
  (buf ← set_e_rec_len (Z.of_nat (length pre)) (dir_entry_size (name_len r)) (pre ++ enc r ++ post);
   put_entry (Z.of_nat (length pre) + dir_entry_size (name_len r)) ino (r_len r - dir_entry_size (name_len r)) type name buf) =
  Ok (pre ++ enc (cut_rec r) ++ enc (new_rec r ino type name) ++ post).
Proof.
  intros H Hi Hn Hb Hroom%Z.leb_le. assert (Hs := entry_size_range (Z.of_nat (length name)) ltac:(lia)). assert (Hl := rest_length r H).
  rewrite set_len_ok, bind_Ok, split_rec. rewrite <- !app_assoc, (app_assoc pre).
  replace (Z.of_nat (length pre) + dir_entry_size (name_len r)) with (Z.of_nat (length (pre ++ enc (cut_rec r)))).
  - rewrite put_entry_ok by (done || lia). by rewrite <- !app_assoc.
  - rewrite length_app, Nat2Z.inj_add, (enc_len _ (cut_wf r H)). done.
Qed.

Lemma add_scan fuel pre rs ino type name :
  Forall wf_rec rs -> length (pre ++ encs rs) = 4096%nat -> (length rs <= fuel)%nat ->
  fits 8 ino -> (length name <= 255)%nat -> is_bytes name ->
  let needed := dir_entry_size (Z.of_nat (length name)) in
  (existsb (has_room needed) rs = false /\
   add_block fuel (Z.of_nat (length pre)) 4096 ino type needed name (pre ++ encs rs) = Ok Break) \/
  exists a r c, rs = a ++ r :: c /\ has_room needed r = true /\
    add_block fuel (Z.of_nat (length pre)) 4096 ino type needed name (pre ++ encs rs) =
      Ok (Return (Some (pre ++ encs (a ++ cut_rec r :: new_rec r ino type name :: c)))).
Proof.
  intros Hw Hl Hf Hi Hn Hb needed. revert fuel pre Hl Hf. induction Hw as [|r rs Hr Hw IH]; intros fuel pre Hl Hf.
  { left. split; [done|]. rewrite app_nil_r in Hl. destruct fuel; cbn [add_block]; rewrite (proj2 (Z.leb_le 4096 _)) by lia; done. }
  destruct fuel as [|fuel]; [cbn in Hf; lia|]. cbn [add_block]. rewrite encs_cons in *.
  destruct (rec_len_good pre r (encs rs) Hr Hl) as (E1 & E2 & E3 & E4). rewrite E1, (read_rec_len pre _ r Hr), bind_Ok, E2, E3.
  rewrite (read_name_len pre _ r Hr), bind_Ok. cbv zeta. rewrite (proj2 (Z.ltb_ge (r_len r) _)) by apply (w_room _ Hr).
  destruct (has_room needed r) eqn:Er.
  - right. exists [], r, rs. split; [done|]. split; [done|]. fold (has_room needed r). rewrite Er. unfold needed in Er.
    assert (Ha := add_here pre r (encs rs) ino type name Hr Hi Hn Hb Er). apply bind_inv in Ha as (buf & Ha1 & Ha2). rewrite Ha1, bind_Ok, Ha2, bind_Ok. done.
  - fold (has_room needed r). rewrite Er, E4, app_assoc. destruct (IH fuel (pre ++ enc r)) as [[Hno E]|(a & r' & c & -> & Hroom & E)].
    + by rewrite <- app_assoc.
    + cbn in Hf. lia.
    + left. split; [cbn; by rewrite Er|done].
    + right. exists (r :: a), r', c. split; [done|]. split; [done|]. rewrite E. cbn [app]. rewrite (encs_cons r). by rewrite <- app_assoc.
Qed.

Lemma add_tiles x rs ino type name :
  tiles x rs -> fits 8 ino -> fits 1 type -> (length name <= 255)%nat -> is_bytes name ->
  let needed := dir_entry_size (Z.of_nat (length name)) in
  add_block 4096 0 4096 ino type needed name x = Ok Break \/
  exists x' rs' l1 l2, add_block 4096 0 4096 ino type needed name x = Ok (Return (Some x')) /\ tiles x' rs' /\
    live rs = l1 ++ l2 /\ live rs' = l1 ++ live_of (mkRec ino 0 type name []) ++ l2.
Proof.
  intros (-> & Hl & Hw) Hi Ht Hn Hb needed. assert (Hlen := encs_length rs Hw).
  destruct (add_scan 4096 [] rs ino type name Hw Hl ltac:(lia) Hi Hn Hb) as [[_ E]|(a & r & c & -> & Hroom & E)]; [by left|right].
  apply Forall_app in Hw as [Ha Hc]. inversion Hc as [|? ? Hr Hc']. subst.
  exists (encs (a ++ cut_rec r :: new_rec r ino type name :: c)), (a ++ cut_rec r :: new_rec r ino type name :: c), (live a ++ live_of r), (live c).
  split; [done|]. assert (Hcw := cut_wf r Hr). assert (Hnw := new_wf r ino type name Hr Hi Ht Hn Hb Hroom). split.
  - split; [done|]. split; [|apply Forall_app; split; [done|]; by apply Forall_cons; split; [|apply Forall_cons; split]].
    rewrite encs_app, encs_cons in Hl. rewrite encs_app, !encs_cons, !length_app in *. assert (H1 := enc_len _ Hr). assert (H2 := enc_len _ Hcw). assert (H3 := enc_len _ Hnw).
    cbn [r_len cut_rec new_rec] in H2, H3. assert (Hs := entry_size_range _ (name_len_byte r Hr)). assert (Hs' := w_room _ Hr). lia.
  - rewrite !live_app, !live_cons. rewrite <- !app_assoc. done.
Qed.

(** *** Removing *)

(** The record [p] with the record [r] behind it merged into its slack. *)
Definition merge_rec (p r : drec) : drec :=
  mkRec (r_ino p) (r_len p + r_len r) (r_type p) (r_name p) (r_slack p ++ enc r).
Definition dead (r : drec) : drec := mkRec 0 (r_len r) (r_type r) (r_name r) (r_slack r).

Lemma dead_wf r : wf_rec r -> wf_rec (dead r).
Proof. intros []. by constructor. Qed.

Lemma merge_wf p r : wf_rec p -> wf_rec r -> r_len p + r_len r <= 4096 -> wf_rec (merge_rec p r).
Proof.
  intros Hp Hr Hl. assert (Hp' := Hp). destruct Hp'. assert (Hr' := enc_len r Hr). constructor; cbn [r_ino r_len r_type r_name r_slack merge_rec]; try done.
  - apply Forall_app. split; [done|by apply enc_bytes].
  - rewrite length_app. unfold name_len in *. lia.
  - assert (H12 := enc_pos r Hr). unfold name_len in *. cbn [r_name merge_rec]. lia.
Qed.

Lemma merge_enc p r : enc (merge_rec p r) = enc (mkRec (r_ino p) (r_len p + r_len r) (r_type p) (r_name p) (r_slack p)) ++ enc r.
Proof. unfold merge_rec, enc, name_len. cbn [r_ino r_len r_type r_name r_slack]. by rewrite <- !app_assoc. Qed.

(** The position of the record before, when there is one. *)
Definition before (done_ : list drec) (prev : option Z) : Prop :=
  match prev with
  | None => done_ = []
  | Some q => exists d p, done_ = d ++ [p] /\ q = Z.of_nat (length (encs d))
  end.

(** The code that unlinks the matching record. *)
Definition unlink_rec (pos : Z) (prev : option Z) (rec_len : Z) (buf : list Z) : res (list Z) :=
  buf ← match prev with
        | Some q =>
            prev_ino ← e_inode q buf;
            if negb (prev_ino =? 0) then prev_len ← e_rec_len q buf; set_e_rec_len q (u16 (prev_len + rec_len)) buf else Ok buf
        | None => Ok buf
        end;
  set_e_inode pos 0 buf.

Lemma remove_rec_ok done_ prev r rs :
  Forall wf_rec (done_ ++ r :: rs) -> length (encs (done_ ++ r :: rs)) = 4096%nat -> before done_ prev ->
  exists x' rs', unlink_rec (Z.of_nat (length (encs done_))) prev (r_len r) (encs (done_ ++ r :: rs)) = Ok x' /\ tiles x' rs' /\
    live rs' = live done_ ++ live rs.
Proof.
  intros Hw Hl Hp. apply Forall_app in Hw as [Hd Hw]. inversion Hw as [|? ? Hr Hrs]. subst. unfold unlink_rec.
  assert (Hplain : exists x' rs', set_e_inode (Z.of_nat (length (encs done_))) 0 (encs (done_ ++ r :: rs)) = Ok x' /\ tiles x' rs' /\ live rs' = live done_ ++ live rs).
  { exists (encs (done_ ++ dead r :: rs)), (done_ ++ dead r :: rs). rewrite !encs_app, !encs_cons. split; [apply set_ino_ok|]. split.
    - split; [by rewrite encs_app, encs_cons|]. split; [|apply Forall_app; split; [done|]; by apply Forall_cons; split; [apply dead_wf|]].
      rewrite encs_app, encs_cons in Hl. rewrite !length_app in *. rewrite length_enc in *. exact Hl.
    - rewrite live_app, live_cons. done. }
  destruct prev as [q|]; [|rewrite bind_Ok; done]. destruct Hp as (d & p & -> & ->). apply Forall_app in Hd as [Hd Hp]. inversion Hp as [|? ? Hwp _]. subst.
  assert (Eb : encs ((d ++ [p]) ++ r :: rs) = encs d ++ enc p ++ encs (r :: rs)) by (rewrite <- app_assoc; apply encs_app).
  assert (E1 : e_inode (Z.of_nat (length (encs d))) (encs ((d ++ [p]) ++ r :: rs)) = Ok (r_ino p)) by (rewrite Eb; by apply read_ino).
  assert (E2 : e_rec_len (Z.of_nat (length (encs d))) (encs ((d ++ [p]) ++ r :: rs)) = Ok (r_len p)) by (rewrite Eb; by apply read_rec_len).
  rewrite E1, bind_Ok. destruct (r_ino p =? 0) eqn:E0; cbn [negb]; [rewrite bind_Ok; done|]. rewrite E2, bind_Ok, Eb, set_len_ok, bind_Ok.
  assert (Hsum : r_len p + r_len r <= 4096).
  { rewrite Eb, encs_cons, !length_app in Hl. assert (H1 := enc_len p Hwp). assert (H2 := enc_len r Hr). lia. }
  assert (H16 : u16 (r_len p + r_len r) = r_len p + r_len r).
  { apply Z.mod_small. assert (H1 := enc_len p Hwp). assert (H2 := enc_len r Hr). change (2 ^ 16) with 65536. lia. }
  rewrite H16. set (p' := mkRec (r_ino p) (r_len p + r_len r) (r_type p) (r_name p) (r_slack p)). exists (encs (d ++ merge_rec p (dead r) :: rs)), (d ++ merge_rec p (dead r) :: rs).
  assert (Hmw : wf_rec (merge_rec p (dead r))) by (apply merge_wf; [done|by apply dead_wf|done]). split; [|split].
  - assert (Erhs : encs (d ++ merge_rec p (dead r) :: rs) = (encs d ++ enc p') ++ enc (dead r) ++ encs rs).
    { rewrite encs_app, encs_cons, merge_enc. by rewrite <- !app_assoc. }
    assert (Epos : length (encs (d ++ [p])) = length (encs d ++ enc p')).
    { rewrite encs_app, encs_cons, !length_app. unfold p'. rewrite !length_enc. cbn. lia. }
    rewrite Erhs, Epos, encs_cons, app_assoc. apply set_ino_ok.
  - split; [done|]. split; [|apply Forall_app; split; [done|]; by apply Forall_cons].
    rewrite Eb, encs_cons in Hl. rewrite encs_app, encs_cons, merge_enc. rewrite !length_app in *. rewrite !length_enc in *. cbn [r_name r_slack dead]. lia.
  - rewrite !live_app, live_cons. rewrite <- app_assoc. unfold live at 4. cbn. rewrite app_nil_r. unfold live_of. cbn. by rewrite E0.
Qed.

Lemma remove_scan fuel done_ prev rs name :
  Forall wf_rec (done_ ++ rs) -> length (encs (done_ ++ rs)) = 4096%nat -> (length rs <= fuel)%nat -> before done_ prev ->
  match List.find (matches name) rs with
  | None => remove_block fuel (Z.of_nat (length (encs done_))) 4096 prev name (encs (done_ ++ rs)) = Ok Break
  | Some r => exists x' rs' l1 l2, remove_block fuel (Z.of_nat (length (encs done_))) 4096 prev name (encs (done_ ++ rs)) = Ok (Return (Some (r_ino r, x'))) /\
      tiles x' rs' /\ live rs = l1 ++ (name, (r_ino r, r_type r)) :: l2 /\ live rs' = live done_ ++ l1 ++ l2 /\ name ∉ l1.*1
  end.
Proof.
  revert fuel done_ prev. induction rs as [|r rs IH]; intros fuel done_ prev Hw Hl Hf Hp; cbn [List.find].
  { rewrite app_nil_r in *. destruct fuel; cbn [remove_block]; rewrite (proj2 (Z.leb_le 4096 _)) by lia; done. }
  destruct fuel as [|fuel]; [cbn in Hf; lia|]. cbn [remove_block]. assert (Hr : wf_rec r) by (apply Forall_app in Hw as [_ Hw]; by inversion Hw).
  assert (Eb : encs (done_ ++ r :: rs) = encs done_ ++ enc r ++ encs rs) by (by rewrite encs_app, encs_cons).
  destruct (rec_len_good (encs done_) r (encs rs) Hr ltac:(by rewrite <- Eb)) as (E1 & E2 & E3 & E4). rewrite E1.
  set (pos := Z.of_nat (length (encs done_))) in *. set (buf := encs (done_ ++ r :: rs)) in *.
  assert (R1 : e_rec_len pos buf = Ok (r_len r)) by (rewrite Eb; by apply read_rec_len).
  assert (R2 : entry_matches pos name buf = Ok (matches name r)) by (rewrite Eb; by apply read_matches).
  assert (R3 : e_inode pos buf = Ok (r_ino r)) by (rewrite Eb; by apply read_ino).
  rewrite R1, bind_Ok, E2, E3, R2, bind_Ok.
  destruct (matches name r) eqn:Em.
  - unfold matches in Em. apply andb_true_iff in Em as [H0 Hn%bool_decide_eq_true]. apply negb_true_iff in H0.
    destruct (remove_rec_ok done_ prev r rs Hw Hl Hp) as (x' & rs' & E & T & L). exists x', rs', [], (live rs).
    assert (Elive : live_of r = [(name, (r_ino r, r_type r))]) by (unfold live_of; by rewrite H0, Hn).
    split; [|split; [done|split; [rewrite live_cons; by rewrite Elive|split; [done|by apply not_elem_of_nil]]]].
    rewrite R3, bind_Ok. unfold unlink_rec in E. apply bind_inv in E as (buf' & E5 & E6). fold pos buf in E5, E6. rewrite E5, bind_Ok, E6. done.
  - rewrite E4. replace (encs done_ ++ enc r) with (encs (done_ ++ [r])) by (by rewrite encs_app, encs_cons, app_nil_r).
    specialize (IH fuel (done_ ++ [r]) (Some pos)). rewrite <- app_assoc in IH.
    assert (Hb : before (done_ ++ [r]) (Some pos)) by (by exists done_, r).
    specialize (IH Hw Hl ltac:(cbn in Hf; lia) Hb). destruct (List.find (matches name) rs) as [r'|]; [|done].
    destruct IH as (x' & rs' & l1 & l2 & E & T & L1 & L2 & Hn). exists x', rs', (live_of r ++ l1), l2. split; [done|]. split; [done|].
    split; [by rewrite live_cons, L1, <- app_assoc|]. split.
    + rewrite L2, live_app, live_cons. cbn. rewrite app_nil_r. by rewrite <- !app_assoc.
    + rewrite fmap_app, elem_of_app. intros [Hin|Hin]; [|done]. unfold live_of in Hin. unfold matches in Em.
      destruct (r_ino r =? 0); [by apply not_elem_of_nil in Hin|]. apply list_elem_of_singleton in Hin. cbn in Hin. subst. by rewrite bool_decide_true in Em.
Qed.

Lemma remove_tiles x rs name :
  tiles x rs ->
  match List.find (matches name) rs with
  | None => remove_block 4096 0 4096 None name x = Ok Break
  | Some r => exists x' rs' l1 l2, remove_block 4096 0 4096 None name x = Ok (Return (Some (r_ino r, x'))) /\
      tiles x' rs' /\ live rs = l1 ++ (name, (r_ino r, r_type r)) :: l2 /\ live rs' = l1 ++ l2 /\ name ∉ l1.*1
  end.
Proof.
  intros (-> & Hl & Hw). assert (Hlen := encs_length rs Hw). exact (remove_scan 4096 [] None rs name Hw Hl ltac:(lia) eq_refl).
Qed.

(** *** New blocks *)

Definition whole_rec (ino type : Z) (name : list Z) : drec := mkRec ino BLOCK_SIZE type name (drop (12 + length name) zero_block).

Lemma whole_wf ino type name :
  fits 8 ino -> fits 1 type -> (length name <= 255)%nat -> is_bytes name -> wf_rec (whole_rec ino type name).
Proof.
  intros Hi Ht Hn Hb. assert (Hz : length zero_block = 4096%nat) by (unfold zero_block; by rewrite length_replicate).
  assert (Hs := entry_size_range (Z.of_nat (length name)) ltac:(lia)).
  constructor; unfold whole_rec, name_len; cbn [r_ino r_len r_type r_name r_slack]; unfold BLOCK_SIZE; try assumption.
  - apply Forall_drop. unfold zero_block. apply Forall_replicate. lia.
  - rewrite length_drop, Hz. lia.
  - lia.
  - lia.
Qed.

Lemma fresh_block ino type name :
  fits 8 ino -> fits 1 type -> (length name <= 255)%nat -> is_bytes name ->
  put_entry 0 ino BLOCK_SIZE type name zero_block = Ok (enc (whole_rec ino type name)) /\
  tiles (enc (whole_rec ino type name)) [whole_rec ino type name].
Proof.
  intros Hi Ht Hn Hb. assert (Hw := whole_wf ino type name Hi Ht Hn Hb).
  assert (Hz : length zero_block = 4096%nat) by (unfold zero_block; by rewrite length_replicate).
  assert (E := put_entry_ok [] zero_block [] ino BLOCK_SIZE type name Hi ltac:(lia) Hn Hb). rewrite !app_nil_r in E.
  split; [exact E|]. split; [unfold encs; cbn [fmap list_fmap concat]; by rewrite app_nil_r|].
  split; [|by apply Forall_singleton]. assert (H := enc_len _ Hw). change (r_len (whole_rec ino type name)) with 4096 in H. lia.
Qed.

End FsDirent.
