(* ===== verification/FsDir.v ===== *)
(** * ViperFS: directories

    A directory is a file whose blocks hold records; [dir_ok w i rss] states
    that the blocks of the directory [i] hold the records [rss], block by block.
    Its live records form a finite map from names to inode numbers and types;
    looking up, adding, removing and enumerating are the operations of that
    map. *)

From S2P Require Import Prelude Bytes Cache CacheSpec FsLayout ViperFs FsWorld FsBitmap FsFile FsData FsWrite FsDirent.

Module FsDir.
Import Bytes FsLayout ViperFs FsWorld FsBitmap FsFile FsData FsWrite FsDirent.

(** The timer is a [u64], and a stack array has the size of a block. *)
Class EnvLaws `{!Env} := {
  ms_fits n : fits 8 (get_ms n);
  stack_length n : length (stack_bytes n) = 4096%nat
}.

(** Only the access and modification times of an inode differ. *)
Definition retimed (i i' : Inode) : Prop := exists a m, fits 8 a /\ fits 8 m /\ i' = set_mtime m (set_atime a i).

Lemma retimed_refl i : good_inode i -> retimed i i.
Proof. intros H%good_inode_iff. exists (atime i), (mtime i). destruct i. naive_solver. Qed.
Lemma retimed_trans i i' i'' : retimed i i' -> retimed i' i'' -> retimed i i''.
Proof. intros (a & m & Ha & Hm & ->) (a' & m' & Ha' & Hm' & ->). by exists a', m'. Qed.
Lemma retimed_atime i t : good_inode i -> fits 8 t -> retimed i (set_atime t i).
Proof. intros H%good_inode_iff Ht. exists t, (mtime i). destruct i. naive_solver. Qed.
Lemma retimed_mtime i t : good_inode i -> fits 8 t -> retimed i (set_mtime t i).
Proof. intros H%good_inode_iff Ht. exists (atime i), t. destruct i. naive_solver. Qed.

Lemma retimed_ptrs i i' : retimed i i' -> same_ptrs i i'.
Proof. by intros (a & m & _ & _ & ->). Qed.
Lemma retimed_good i i' : retimed i i' -> good_inode i -> good_inode i'.
Proof. intros (a & m & Ha & Hm & ->) H%good_inode_iff. apply good_inode_iff. destruct i; naive_solver. Qed.

Lemma good_grown i n t : good_inode i -> fits 8 n -> fits 8 t -> good_inode (set_mtime t (grow_size n i)).
Proof. intros H%good_inode_iff Hn Ht. apply good_inode_iff. unfold grow_size. destruct (size i <? n), i; naive_solver. Qed.

Section dirs.
Context {G : Type}.
Local Abbreviation world := (st (Z -> list Z) G).
Implicit Type w : world.

(** Only the count of questions put to the surroundings differs. *)
Definition set_clock (c : Z) w : world := mkSt (fs w) (own w) c (journal_ w) (sys_ w).
Definition later w w' : Prop := exists c, w' = set_clock c w.

Lemma later_refl w : later w w.
Proof. exists (clock_ w). by destruct w. Qed.
Lemma later_tick w : later w (tick w).
Proof. by eexists. Qed.
Lemma later_trans w w' w'' : later w w' -> later w' w'' -> later w w''.
Proof. intros [c ->] [d ->]. by exists d. Qed.

Lemma sane_later w w' : later w w' -> sane w -> sane w'.
Proof. intros [c ->] []. by constructor. Qed.
Lemma loc_later w w' i p : later w w' -> loc w' i p = loc w i p.
Proof. by intros [c ->]. Qed.
Lemma file_later w w' i : later w w' -> file_ok w i -> file_ok w' i.
Proof. intros [c ->] []. by constructor. Qed.

(** The entries of a directory. *)
Definition entries (rss : list (list drec)) : list (list Z * (Z * Z)) := concat (live <$> rss).
Definition dmap (rss : list (list drec)) : gmap (list Z) (Z * Z) := list_to_map (entries rss).

Record dir_ok w (i : Inode) (rss : list (list drec)) : Prop := {
  d_file : file_ok w i;
  d_dir : is_directory i = true;
  d_size : size i = 4096 * Z.of_nat (length rss);
  d_max : size i <= MAX_SIZE;
  d_blocks : forall k rs, rss !! k = Some rs ->
    loc w i (PData (Z.of_nat k)) <> 0 /\ tiles (own w (loc w i (PData (Z.of_nat k)))) rs;
  d_names : NoDup (entries rss).*1
}.

Lemma dir_later w w' i rss : later w w' -> dir_ok w i rss -> dir_ok w' i rss.
Proof. intros Hl [Hf ? ? ? Hb ?]. assert (Hf' := file_later w w' i Hl Hf). destruct Hl as [c ->]. by constructor. Qed.

Lemma dir_retimed w i i' rss : retimed i i' -> dir_ok w i rss -> dir_ok w i' rss.
Proof.
  intros Hr [Hf Hd Hs Hm Hb Hn]. assert (Hp := retimed_ptrs _ _ Hr). assert (Hg := retimed_good _ _ Hr (f_good _ _ Hf)).
  assert (Hf' := file_ok_ptrs w i i' Hf Hp Hg). destruct Hr as (a & m & _ & _ & ->). by constructor.
Qed.

(** The record with a name. *)
Definition find_rec (name : list Z) (rss : list (list drec)) : option drec := List.find (matches name) (concat rss).

Lemma find_app {A} (f : A -> bool) l1 l2 : List.find f (l1 ++ l2) = match List.find f l1 with Some x => Some x | None => List.find f l2 end.
Proof. induction l1 as [|a l1 IH]; [done|]. cbn. by destruct (f a). Qed.

Lemma entries_concat rss : entries rss = live (concat rss).
Proof.
  induction rss as [|rs rss IH]; [done|]. change (entries (rs :: rss)) with (live rs ++ entries rss).
  change (concat (rs :: rss)) with (rs ++ concat rss). by rewrite live_app, IH.
Qed.

Lemma find_map name rss :
  NoDup (entries rss).*1 -> dmap rss !! name = (fun r => (r_ino r, r_type r)) <$> find_rec name rss.
Proof.
  intros Hn. unfold dmap, find_rec in *. rewrite entries_concat in *. destruct (List.find (matches name) (concat rss)) as [r|] eqn:E; cbn.
  - apply live_lookup in E as (Hin & _ & _). by apply elem_of_list_to_map_1.
  - apply not_elem_of_list_to_map_1. by apply live_none.
Qed.

(** The inode number a lookup returns. *)
Definition entry_ino (o : option (Z * Z)) : Z := match o with Some e => e.1 | None => 0 end.

Lemma find_ino name rss : NoDup (entries rss).*1 -> match find_rec name rss with Some r => r_ino r | None => 0 end = entry_ino (dmap rss !! name).
Proof. intros Hn. rewrite find_map by done. by destruct (find_rec name rss). Qed.

Lemma entry_nonzero name rss e : NoDup (entries rss).*1 -> dmap rss !! name = Some e -> e.1 <> 0.
Proof.
  intros Hn. rewrite find_map by done. unfold find_rec. destruct (List.find _ _) as [r|] eqn:E; [|done]. cbn. intros [= <-].
  by apply live_lookup in E as (_ & ? & _).
Qed.

(** ** Frames *)

(** A file has kept its blocks and taken free ones; every other allocated block
    is as it was. *)
Record framed w i w' i' : Prop := {
  fr_sane : sane w';
  fr_fs : same_fs (fs w) (fs w');
  fr_journal : journal_ w' = journal_ w;
  fr_sys : sys_ w' = sys_ w;
  fr_num : inode_num i' = inode_num i;
  fr_mode : mode i' = mode i;
  fr_keep : forall b, owned w i b -> owned w' i' b;
  fr_fresh : forall b, owned w' i' b -> owned w i b \/ used w b = false;
  fr_used : forall b, 0 <= b < total_blocks (the_super w) -> used w' b = true <-> used w b = true \/ owned w' i' b;
  fr_frame : forall b, 0 <= b < total_blocks (the_super w) -> ~ in_bitmap w b -> used w b = true -> ~ owned w i b -> own w' b = own w b
}.

(** No block was taken or released. *)
Definition redone w i w' i' : Prop :=
  retimed i i' /\ the_super w' = the_super w /\ forall b, 0 <= b < total_blocks (the_super w) -> used w' b = used w b.

Lemma redone_later w i w' i' : retimed i i' -> later w w' -> redone w i w' i'.
Proof. by intros Hr [c ->]. Qed.
Lemma redone_trans w i w1 i1 w2 i2 : redone w i w1 i1 -> redone w1 i1 w2 i2 -> redone w i w2 i2.
Proof.
  intros (R1 & E1 & U1) (R2 & E2 & U2). split; [exact (retimed_trans _ _ _ R1 R2)|]. split; [congruence|]. intros b Hb. rewrite U2, U1; [done|done|by rewrite E1].
Qed.

Lemma nfree_later w w' : later w w' -> nfree w' = nfree w.
Proof. by intros [c ->]. Qed.
Lemma redone_nfree w i w' i' : redone w i w' i' -> nfree w' = nfree w.
Proof. intros (_ & E & U). apply nfree_ext; [by rewrite E|done]. Qed.

Lemma used_later w w' b : later w w' -> used w' b = used w b.
Proof. by intros [c ->]. Qed.

Lemma ext_framed P w i w1 i1 w' i' :
  ext P 0 w i w1 i1 -> later w1 w' -> same_ptrs i1 i' -> inode_num i' = inode_num i1 -> mode i' = mode i1 -> framed w i w' i'.
Proof.
  intros X L E En Em. assert (Ho : forall b, owned w' i' b <-> owned w1 i1 b).
  { intros b. destruct L as [c ->]. exact (owned_ptrs w1 i1 i' b E). }
  constructor.
  - exact (sane_later w1 w' L (e_sane _ _ _ _ _ _ X)).
  - destruct L as [c ->]. apply (e_fs _ _ _ _ _ _ X).
  - destruct L as [c ->]. apply (e_journal _ _ _ _ _ _ X).
  - destruct L as [c ->]. apply (e_sys _ _ _ _ _ _ X).
  - rewrite En. by destruct (e_inode _ _ _ _ _ _ X) as (? & ? & ? & ? & ->).
  - rewrite Em. by destruct (e_inode _ _ _ _ _ _ X) as (? & ? & ? & ? & ->).
  - intros b Hb. apply Ho. by apply (ext_owned _ _ _ _ _ _ _ X).
  - intros b Hb. apply Ho in Hb. destruct (e_fresh _ _ _ _ _ _ X b Hb) as [?|[?|?]]; auto. by destruct Hb.
  - intros b Hb. rewrite (used_later w1 w' b L), Ho. by apply (e_used _ _ _ _ _ _ X).
  - intros b Hb Hm Hu Hn. transitivity (own w1 b); [by destruct L as [c ->]|]. apply (e_frame _ _ _ _ _ _ X); try done. by right.
Qed.

Lemma framed_super w i w' i' : framed w i w' i' -> the_super w' = set_free_blocks (free_blocks (the_super w')) (the_super w).
Proof. intros H. exact (same_super w w' (fr_fs _ _ _ _ H)). Qed.

Lemma framed_trans w i w1 i1 w2 i2 : file_ok w2 i2 -> framed w i w1 i1 -> framed w1 i1 w2 i2 -> framed w i w2 i2.
Proof.
  intros Hf2 H1 H2. assert (E := framed_super _ _ _ _ H1). assert (E2 := framed_super _ _ _ _ H2).
  assert (Hr : forall b, owned w2 i2 b -> 0 <= b < total_blocks (the_super w)).
  { intros b Hb. destruct (owned_range w2 i2 b (fr_sane _ _ _ _ H2) Hf2 Hb) as (Hr & _). by rewrite E2, E in Hr. }
  constructor.
  - apply (fr_sane _ _ _ _ H2).
  - exact (same_fs_trans _ _ _ (fr_fs _ _ _ _ H1) (fr_fs _ _ _ _ H2)).
  - by rewrite (fr_journal _ _ _ _ H2), (fr_journal _ _ _ _ H1).
  - by rewrite (fr_sys _ _ _ _ H2), (fr_sys _ _ _ _ H1).
  - by rewrite (fr_num _ _ _ _ H2), (fr_num _ _ _ _ H1).
  - by rewrite (fr_mode _ _ _ _ H2), (fr_mode _ _ _ _ H1).
  - intros b Hb. by apply (fr_keep _ _ _ _ H2), (fr_keep _ _ _ _ H1).
  - intros b Hb. destruct (fr_fresh _ _ _ _ H2 b Hb) as [?|Hu]; [by apply (fr_fresh _ _ _ _ H1)|]. right.
    destruct (used w b) eqn:Eu; [|done]. rewrite (proj2 (fr_used _ _ _ _ H1 b (Hr b Hb))) in Hu; [done|by left].
  - intros b Hb. rewrite (fr_used _ _ _ _ H2) by (by rewrite E). rewrite (fr_used _ _ _ _ H1) by done. split; [|tauto].
    intros [[?|Ho]|?]; [by left|right; by apply (fr_keep _ _ _ _ H2)|by right].
  - intros b Hb Hm Hu Ho. rewrite (fr_frame _ _ _ _ H2).
    + by apply (fr_frame _ _ _ _ H1).
    + by rewrite E.
    + unfold in_bitmap in *. by rewrite E.
    + apply (fr_used _ _ _ _ H1); [done|by left].
    + intros Ho'. destruct (fr_fresh _ _ _ _ H1 b Ho'); congruence.
Qed.

Lemma later_framed w i w' i' : sane w -> file_ok w i -> later w w' -> retimed i i' -> framed w i w' i'.
Proof.
  intros H Hf L R. apply (ext_framed (fun _ => False) w i w i); [by apply ext_refl|done|by apply retimed_ptrs| |]; by destruct R as (a & m & _ & _ & ->).
Qed.

(** The contents of a block from the bytes of the file. *)
Lemma block_of_bytes w i (k : nat) x :
  sane w -> Z.of_nat k < MAX_IDX -> length x = 4096%nat -> loc w i (PData (Z.of_nat k)) <> 0 ->
  (forall j, 0 <= j < 4096 -> file_byte w i (4096 * Z.of_nat k + j) = byte_at j x) -> own w (loc w i (PData (Z.of_nat k))) = x.
Proof.
  intros H Hk Hx H0 Hb. apply list_eq_same_length with (n := 4096%nat); [done|apply (s_sized _ H)|]. intros j a c Hj Ha Hc.
  specialize (Hb (Z.of_nat j) ltac:(lia)). unfold file_byte in Hb. replace ((4096 * Z.of_nat k + Z.of_nat j) / 4096) with (Z.of_nat k) in Hb by div_lia.
  replace ((4096 * Z.of_nat k + Z.of_nat j) mod 4096) with (Z.of_nat j) in Hb by div_lia. rewrite (proj2 (Z.eqb_neq _ 0)) in Hb by done.
  unfold byte_at in Hb. rewrite Nat2Z.id, Ha, Hc in Hb. done.
Qed.

(** ** Entries after a change *)

Lemma entries_insert rss (k : nat) rs rs' :
  rss !! k = Some rs -> entries rss = entries (take k rss) ++ live rs ++ entries (drop (S k) rss) /\
  entries (<[k := rs']> rss) = entries (take k rss) ++ live rs' ++ entries (drop (S k) rss).
Proof.
  intros Hk. assert (Hl := lookup_lt_Some _ _ _ Hk). unfold entries. split.
  - rewrite <- (take_drop k rss) at 1. rewrite (drop_S rss rs k Hk), fmap_app, concat_app. done.
  - rewrite insert_take_drop by done. rewrite fmap_app, concat_app. done.
Qed.

Lemma entries_snoc rss rs : entries (rss ++ [rs]) = entries rss ++ live rs.
Proof. unfold entries. rewrite fmap_app, concat_app. cbn [fmap list_fmap concat]. by rewrite app_nil_r. Qed.

(** One entry more, wherever it is. *)
Lemma dmap_add rss rss' l1 l2 name e :
  NoDup (entries rss).*1 -> dmap rss !! name = None -> entries rss = l1 ++ l2 -> entries rss' = l1 ++ (name, e) :: l2 ->
  NoDup (entries rss').*1 /\ dmap rss' = <[name := e]> (dmap rss).
Proof.
  intros Hn H0 E E'. assert (Hp : entries rss' ≡ₚ (name, e) :: entries rss) by (rewrite E', E; symmetry; apply Permutation_middle).
  assert (Hnd : NoDup (((name, e) :: entries rss).*1)).
  { cbn. apply NoDup_cons. split; [|done]. intros Hin. unfold dmap in H0. apply not_elem_of_list_to_map_2 in H0. done. }
  split; [by rewrite Hp|]. unfold dmap. rewrite <- (list_to_map_proper _ _ Hnd (symmetry Hp)). done.
Qed.

(** One entry less. *)
Lemma dmap_del rss rss' l1 l2 name e :
  NoDup (entries rss).*1 -> entries rss = l1 ++ (name, e) :: l2 -> entries rss' = l1 ++ l2 ->
  NoDup (entries rss').*1 /\ dmap rss' = delete name (dmap rss) /\ dmap rss !! name = Some e.
Proof.
  intros Hn E E'. assert (Hp : entries rss ≡ₚ (name, e) :: entries rss') by (rewrite E', E; symmetry; apply Permutation_middle).
  assert (Hnd : NoDup ((name, e) :: entries rss').*1) by (by rewrite <- Hp). cbn in Hnd. apply NoDup_cons in Hnd as [Hni Hnd].
  assert (Hm : dmap rss = <[name := e]> (dmap rss')) by (unfold dmap; by rewrite (list_to_map_proper _ _ Hn Hp)).
  split; [done|]. rewrite Hm. split; [|apply lookup_insert_eq]. rewrite delete_insert_eq. symmetry. apply delete_id. unfold dmap. by apply not_elem_of_list_to_map_1.
Qed.

End dirs.

Section ops.
Context {D : Type} {BD : Cache.BlockDevice D} {DL : CacheSpec.DeviceLaws D} {ENV : Env} {EL : EnvLaws}.
Local Abbreviation world := (st (Z -> list Z) (Cache.BlockCache * D)%type).
Implicit Type w : world.

Lemma fill_full bytes buf : length bytes = 4096%nat -> length buf = 4096%nat -> fill_buf bytes buf = bytes.
Proof. intros H1 H2. unfold fill_buf. rewrite drop_ge by lia. apply app_nil_r. Qed.

(** Reading block [k] of a directory. *)
Lemma ev_read_dir l w i rss (k : nat) rs :
  (length l < 57)%nat -> sane w -> dir_ok w i rss -> rss !! k = Some rs ->
  exists i' w', evals l (read_data i (4096 * Z.of_nat k) BLOCK_SIZE) w (4096, own w (loc w i (PData (Z.of_nat k))), i') w' /\
    retimed i i' /\ later w w' /\ length (own w (loc w i (PData (Z.of_nat k)))) = 4096%nat.
Proof.
  intros Hl H Hd Hk. destruct (d_blocks _ _ _ Hd k rs Hk) as [H0 Ht]. assert (Hg := f_good _ _ (d_file _ _ _ Hd)).
  apply lookup_lt_Some in Hk. assert (Hs := d_size _ _ _ Hd). assert (Hm := d_max _ _ _ Hd). unfold MAX_SIZE, MAX_IDX in Hm.
  assert (He := ev_read_data l w i (4096 * Z.of_nat k) 4096 ltac:(lia) (s_mounted _ H) (direct_len w i (d_file _ _ _ Hd)) ltac:(lia) ltac:(lia) ltac:(lia) (d_max _ _ _ Hd)).
  assert (Ec : clamp i (4096 * Z.of_nat k) 4096 = 4096) by (unfold clamp; lia). rewrite Ec in He.
  rewrite (proj2 (Z.leb_gt (size i) _)) in He by lia. rewrite content_block in He; [|lia|lia|div_lia|].
  2:{ apply (s_sized _ H). }
  replace ((4096 * Z.of_nat k) / 4096) with (Z.of_nat k) in He by div_lia. replace ((4096 * Z.of_nat k) mod 4096) with 0 in He by div_lia.
  rewrite (proj2 (Z.eqb_neq _ 0)) in He by done. change (Z.to_nat 0) with 0%nat in He. rewrite drop_0, take_ge in He by (rewrite (s_sized _ H); lia).
  eexists _, _. split; [exact He|]. split; [apply retimed_atime; [done|apply ms_fits]|]. split; [apply later_tick|apply (s_sized _ H)].
Qed.

(** How the scans of a directory go on from block [k]. *)
Lemma ev_lookup_loop fuel l w i rss (k : nat) name buf :
  (length l < 57)%nat -> sane w -> dir_ok w i rss -> (k <= length rss)%nat -> (length rss - k < fuel)%nat -> length buf = 4096%nat ->
  exists i' w', evals l (lookup_loop fuel i (4096 * Z.of_nat k) name buf) w (match find_rec name (drop k rss) with Some r => r_ino r | None => 0 end, i') w' /\
    retimed i i' /\ later w w'.
Proof.
  intros Hl. revert w i k buf. induction fuel as [|fuel IH]; intros w i k buf H Hd Hk Hf Hb; [lia|]. cbn [lookup_loop].
  assert (Hs := d_size _ _ _ Hd). destruct (rss !! k) as [rs|] eqn:E.
  - assert (Hlt := lookup_lt_Some _ _ _ E). rewrite (proj2 (Z.leb_gt (size i) _)) by lia.
    destruct (ev_read_dir l w i rss k rs Hl H Hd E) as (i1 & w1 & He & Hr1 & Hw1 & Hlen). destruct (d_blocks _ _ _ Hd k rs E) as [_ Ht].
    assert (Hfind : find_rec name (drop k rss) = match List.find (matches name) rs with Some r => Some r | None => find_rec name (drop (S k) rss) end).
    { unfold find_rec. rewrite (drop_S rss rs k E). cbn [concat]. apply find_app. }
    assert (Hblk := lookup_tiles _ rs name Ht). set (x := own w (loc w i (PData (Z.of_nat k)))) in *. rewrite Hfind.
    destruct (List.find (matches name) rs) as [r|].
    + exists i1, w1. split; [|done]. eapply ev_bind; [exact He|]. cbn beta iota. rewrite fill_full by done. cbn [Z.ltb Z.eqb Z.compare].
      eapply ev_bind; [apply ev_lift; exact Hblk|]. apply ev_ret.
    + assert (Hd1 : dir_ok w1 i1 rss) by (apply (dir_later w); [done|by apply (dir_retimed w i)]).
      destruct (IH w1 i1 (S k) x (sane_later w w1 Hw1 H) Hd1) as (i2 & w2 & He2 & Hr2 & Hw2); [lia|lia|done|].
      exists i2, w2. split; [|split; [exact (retimed_trans _ _ _ Hr1 Hr2)|exact (later_trans _ _ _ Hw1 Hw2)]].
      eapply ev_bind; [exact He|]. cbn beta iota. rewrite fill_full by done. cbn [Z.ltb Z.eqb Z.compare].
      eapply ev_bind; [apply ev_lift; exact Hblk|]. cbn beta iota. assert (Hm := d_max _ _ _ Hd). unfold MAX_SIZE, MAX_IDX in Hm.
      rewrite u64_small by lia. by replace (4096 * Z.of_nat k + 4096) with (4096 * Z.of_nat (S k)) by lia.
  - apply lookup_ge_None in E. exists i, w. rewrite (proj2 (Z.leb_le (size i) _)) by lia.
    assert (k = length rss) as -> by lia. rewrite drop_all. split; [apply ev_ret|]. split; [apply retimed_refl, (f_good _ _ (d_file _ _ _ Hd))|apply later_refl].
Qed.

Lemma dir_fuel_ok w i rss : dir_ok w i rss -> (length rss < dir_fuel i)%nat.
Proof. intros Hd. unfold dir_fuel. rewrite (d_size _ _ _ Hd). unfold BLOCK_SIZE. replace (4096 * Z.of_nat (length rss) / 4096) with (Z.of_nat (length rss)) by div_lia. lia. Qed.

Lemma ev_lookup l w i rss name :
  (length l < 57)%nat -> sane w -> dir_ok w i rss ->
  exists i' w', evals l (lookup i name) w (entry_ino (dmap rss !! name), i') w' /\ retimed i i' /\ later w w'.
Proof.
  intros Hl H Hd. unfold lookup. rewrite <- (find_ino name rss (d_names _ _ _ Hd)).
  destruct (ev_lookup_loop (dir_fuel i) l (tick w) i rss 0 name (stack_bytes (clock_ w)) Hl) as (i' & w' & He & Hr & Hw); try done.
  - apply (sane_later w); [apply later_tick|done].
  - apply (dir_later w); [apply later_tick|done].
  - lia.
  - assert (Hf := dir_fuel_ok w i rss Hd). lia.
  - apply stack_length.
  - exists i', w'. split; [|split; [done|exact (later_trans _ _ _ (later_tick w) Hw)]].
    eapply ev_bind; [apply ev_mounted|]. rewrite (s_mounted _ H). cbn [negb]. rewrite (d_dir _ _ _ Hd). cbn [negb].
    eapply ev_bind; [apply ev_stack_array|]. exact He.
Qed.

(** *** Enumerating *)

Definition as_call (e : list Z * (Z * Z)) : dirent := (e.1, e.2.1, e.2.2).

Lemma ev_readdir_loop fuel l w i rss (k : nat) buf acc :
  (length l < 57)%nat -> sane w -> dir_ok w i rss -> (k <= length rss)%nat -> (length rss - k < fuel)%nat -> length buf = 4096%nat ->
  exists i' w', evals l (readdir_loop fuel i (4096 * Z.of_nat k) buf acc) w (true, acc ++ (as_call <$> entries (drop k rss)), i') w' /\
    retimed i i' /\ later w w'.
Proof.
  intros Hl. revert w i k buf acc. induction fuel as [|fuel IH]; intros w i k buf acc H Hd Hk Hf Hb; [lia|]. cbn [readdir_loop].
  assert (Hs := d_size _ _ _ Hd). destruct (rss !! k) as [rs|] eqn:E.
  - assert (Hlt := lookup_lt_Some _ _ _ E). rewrite (proj2 (Z.leb_gt (size i) _)) by lia.
    destruct (ev_read_dir l w i rss k rs Hl H Hd E) as (i1 & w1 & He & Hr1 & Hw1 & Hlen). destruct (d_blocks _ _ _ Hd k rs E) as [_ Ht].
    assert (Hblk := readdir_tiles _ rs acc Ht). set (x := own w (loc w i (PData (Z.of_nat k)))) in *.
    assert (Hd1 : dir_ok w1 i1 rss) by (apply (dir_later w); [done|by apply (dir_retimed w i)]).
    destruct (IH w1 i1 (S k) x (acc ++ (as_call <$> live rs)) (sane_later w w1 Hw1 H) Hd1) as (i2 & w2 & He2 & Hr2 & Hw2); [lia|lia|done|].
    exists i2, w2. split; [|split; [exact (retimed_trans _ _ _ Hr1 Hr2)|exact (later_trans _ _ _ Hw1 Hw2)]].
    assert (Ea : acc ++ (as_call <$> entries (drop k rss)) = (acc ++ (as_call <$> live rs)) ++ (as_call <$> entries (drop (S k) rss))).
    { rewrite (drop_S rss rs k E). change (entries (rs :: drop (S k) rss)) with (live rs ++ entries (drop (S k) rss)). by rewrite fmap_app, app_assoc. }
    rewrite Ea. eapply ev_bind; [exact He|]. cbn beta iota. rewrite fill_full by done. cbn [Z.ltb Z.eqb Z.compare].
    eapply ev_bind; [apply ev_lift; exact Hblk|]. cbn beta iota. cbn [negb]. assert (Hm := d_max _ _ _ Hd). unfold MAX_SIZE, MAX_IDX in Hm.
    rewrite u64_small by lia. replace (4096 * Z.of_nat k + 4096) with (4096 * Z.of_nat (S k)) by lia. exact He2.
  - apply lookup_ge_None in E. exists i, w. rewrite (proj2 (Z.leb_le (size i) _)) by lia. assert (k = length rss) as -> by lia. rewrite drop_all.
    change (as_call <$> entries []) with (@nil dirent). rewrite app_nil_r.
    split; [apply ev_ret|]. split; [apply retimed_refl, (f_good _ _ (d_file _ _ _ Hd))|apply later_refl].
Qed.

Lemma ev_readdir l w i rss :
  (length l < 57)%nat -> sane w -> dir_ok w i rss ->
  exists i' w', evals l (readdir i 0) w (Z.of_nat (length (entries rss)), as_call <$> entries rss, i') w' /\ retimed i i' /\ later w w'.
Proof.
  intros Hl H Hd. unfold readdir.
  destruct (ev_readdir_loop (dir_fuel i) l (tick w) i rss 0 (stack_bytes (clock_ w)) [] Hl) as (i' & w' & He & Hr & Hw); try done.
  - apply (sane_later w); [apply later_tick|done].
  - apply (dir_later w); [apply later_tick|done].
  - lia.
  - assert (Hf := dir_fuel_ok w i rss Hd). lia.
  - apply stack_length.
  - exists i', w'. split; [|split; [done|exact (later_trans _ _ _ (later_tick w) Hw)]].
    eapply ev_bind; [apply ev_mounted|]. rewrite (s_mounted _ H). cbn [negb]. rewrite (d_dir _ _ _ Hd). cbn [negb].
    eapply ev_bind; [apply ev_stack_array|]. eapply ev_bind; [exact He|]. cbn beta iota. rewrite drop_0. cbn [app].
    rewrite length_fmap. apply ev_ret.
Qed.

(** *** Changing a block of the directory *)

Lemma dir_put w i rss (k : nat) rs x rs' :
  sane w -> dir_ok w i rss -> rss !! k = Some rs -> tiles x rs' -> NoDup (entries (<[k := rs']> rss)).*1 ->
  let b := loc w i (PData (Z.of_nat k)) in
  dir_ok (put b x w) i (<[k := rs']> rss) /\ framed w i (put b x w) i.
Proof.
  intros H Hd Hk Ht Hn b. destruct (d_blocks _ _ _ Hd k rs Hk) as [H0 _]. assert (Hlt := lookup_lt_Some _ _ _ Hk).
  assert (Hs := d_size _ _ _ Hd). assert (Hm := d_max _ _ _ Hd). assert (Hkm : 0 <= Z.of_nat k < MAX_IDX) by (unfold MAX_SIZE in Hm; lia).
  destruct (put_data_ok w i (Z.of_nat k) b x H (d_file _ _ _ Hd) Hkm eq_refl H0 (tiles_bytes x rs' Ht)) as (X & _ & HL & _); [apply Ht|].
  split; [|apply (ext_framed _ w i (put b x w) i _ _ X); [apply later_refl|done|done|done]]. constructor; try apply Hd.
  - apply (e_file _ _ _ _ _ _ X).
  - rewrite length_insert. apply Hd.
  - intros j rs0 Hj. assert (Hjl := lookup_lt_Some _ _ _ Hj). rewrite length_insert in Hjl.
    assert (Hjm : valid_pos (PData (Z.of_nat j))) by (cbn; unfold MAX_SIZE in Hm; lia). rewrite HL by done.
    destruct (decide (j = k)) as [->|Hne].
    + rewrite list_lookup_insert_eq in Hj by done. injection Hj as <-. split; [done|]. fold b. by rewrite put_same.
    + rewrite list_lookup_insert_ne in Hj by done. destruct (d_blocks _ _ _ Hd j rs0 Hj) as [Hj0 Htj]. split; [done|].
      rewrite put_other; [done|]. intros Eb. apply Hne. assert (PData (Z.of_nat j) = PData (Z.of_nat k)) as [= ?]; [|lia].
      apply (f_inj _ _ (d_file _ _ _ Hd)); done.
  - done.
Qed.

(** Writing a changed block back. *)
Lemma ev_write_dir l w i rss (k : nat) rs x rs' :
  (length l < 57)%nat -> sane w -> dir_ok w i rss -> rss !! k = Some rs -> tiles x rs' -> NoDup (entries (<[k := rs']> rss)).*1 ->
  exists i' w', evals l (write_data i (4096 * Z.of_nat k) x) w (4096, i') w' /\
    dir_ok w' i' (<[k := rs']> rss) /\ framed w i w' i' /\ redone w i w' i'.
Proof.
  intros Hl H Hd Hk Ht Hn. destruct (d_blocks _ _ _ Hd k rs Hk) as [H0 _]. assert (Hlt := lookup_lt_Some _ _ _ Hk).
  assert (Hs := d_size _ _ _ Hd). assert (Hm := d_max _ _ _ Hd). assert (Hg := f_good _ _ (d_file _ _ _ Hd)).
  assert (Eq : (4096 * Z.of_nat k) / 4096 = Z.of_nat k) by div_lia.
  assert (He := ev_write_block l w i (4096 * Z.of_nat k) x Hl H (d_file _ _ _ Hd) (proj1 (proj2 Ht)) ltac:(lia) ltac:(div_lia) ltac:(lia) Hm).
  rewrite Eq in He. specialize (He H0). destruct (dir_put w i rss k rs x rs' H Hd Hk Ht Hn) as [Hd' Hf'].
  set (w1 := put _ x w) in *. assert (R : retimed i (set_mtime (get_ms (clock_ w)) i)) by (apply retimed_mtime; [done|apply ms_fits]).
  eexists _, _. split; [exact He|]. split; [|split; [|split; [done|split; [done|]]]].
  3:{ intros b Hb. apply (put_used w _ x b H Hb). apply loc_not_bitmap; try done; [apply Hd|]. unfold MAX_SIZE in Hm. cbn. lia. }
  - apply (dir_later w1); [apply later_tick|]. by apply (dir_retimed w1 i).
  - assert (Hf2 : dir_ok (tick w1) (set_mtime (get_ms (clock_ w)) i) (<[k:=rs']> rss)) by (apply (dir_later w1); [apply later_tick|]; by apply (dir_retimed w1 i)).
    apply (framed_trans w i w1 i); [apply Hf2|done|]. apply later_framed; [apply Hf'|apply Hd'|apply later_tick|done].
Qed.

(** *** Removing *)

Lemma ev_remove_loop fuel l w i rss (k : nat) name buf :
  (length l < 57)%nat -> sane w -> dir_ok w i rss -> (k <= length rss)%nat -> (length rss - k < fuel)%nat -> length buf = 4096%nat ->
  match find_rec name (drop k rss) with
  | None => exists i' w', evals l (remove_loop fuel i (4096 * Z.of_nat k) name buf) w (false, None, i') w' /\ retimed i i' /\ later w w'
  | Some r => exists i' w' rss', evals l (remove_loop fuel i (4096 * Z.of_nat k) name buf) w (true, Some (r_ino r), i') w' /\
      dir_ok w' i' rss' /\ length rss' = length rss /\ dmap rss' = delete name (dmap rss) /\ framed w i w' i' /\ redone w i w' i'
  end.
Proof.
  intros Hl. revert w i k buf. induction fuel as [|fuel IH]; intros w i k buf H Hd Hk Hf Hb; [lia|]. cbn [remove_loop].
  assert (Hs := d_size _ _ _ Hd). destruct (rss !! k) as [rs|] eqn:E.
  - assert (Hlt := lookup_lt_Some _ _ _ E). rewrite (proj2 (Z.leb_gt (size i) _)) by lia.
    destruct (ev_read_dir l w i rss k rs Hl H Hd E) as (i1 & w1 & He & Hr1 & Hw1 & Hlen). destruct (d_blocks _ _ _ Hd k rs E) as [_ Ht].
    assert (Hfind : find_rec name (drop k rss) = match List.find (matches name) rs with Some r => Some r | None => find_rec name (drop (S k) rss) end).
    { unfold find_rec. rewrite (drop_S rss rs k E). cbn [concat]. apply find_app. }
    assert (Hblk := remove_tiles _ rs name Ht). set (x := own w (loc w i (PData (Z.of_nat k)))) in *. rewrite Hfind.
    assert (Hd1 : dir_ok w1 i1 rss) by (apply (dir_later w); [done|by apply (dir_retimed w i)]). assert (H1 := sane_later w w1 Hw1 H).
    destruct (List.find (matches name) rs) as [r|].
    + destruct Hblk as (x' & rs' & l1 & l2 & Hblk & T & L1 & L2 & _). destruct (entries_insert rss k rs rs' E) as [E1 E2]. rewrite L1 in E1. rewrite L2 in E2.
      rewrite <- app_assoc in E1, E2. rewrite app_assoc in E1, E2. cbn [app] in E1. destruct (dmap_del rss _ _ _ name _ (d_names _ _ _ Hd) E1 E2) as (Hn' & Hm & _).
      destruct (ev_write_dir l w1 i1 rss k rs x' rs' Hl H1 Hd1 E T Hn') as (i2 & w2 & He2 & Hd2 & Hf2 & Hr2).
      exists i2, w2, (<[k := rs']> rss). split.
      { eapply ev_bind; [exact He|]. cbn beta iota. rewrite fill_full by done. cbn [Z.leb Z.compare]. eapply ev_bind; [apply ev_lift; exact Hblk|].
        cbn beta iota. eapply ev_bind; [exact He2|]. apply ev_ret. }
      split; [done|]. split; [apply length_insert|]. split; [done|]. split; [|exact (redone_trans _ _ _ _ _ _ (redone_later _ _ _ _ Hr1 Hw1) Hr2)].
      apply (framed_trans w i w1 i1); [apply Hd2| |done]. apply later_framed; try done. apply Hd.
    + specialize (IH w1 i1 (S k) x H1 Hd1 ltac:(lia) ltac:(lia) Hlen).
      assert (Hgo : forall res w2, evals l (remove_loop fuel i1 (4096 * Z.of_nat (S k)) name x) w1 res w2 ->
        evals l ('(r, bytes, dir) ← read_data i (4096 * Z.of_nat k) BLOCK_SIZE; if r <=? 0 then mret (false, None, dir)
          else let buf := fill_buf bytes buf in o ← lift (remove_block (Z.to_nat r) 0 r None name buf);
            match o with Return None => mret (false, None, dir) | Return (Some (ino, buf)) => '(w, dir) ← write_data dir (4096 * Z.of_nat k) buf; mret (w =? BLOCK_SIZE, Some ino, dir)
            | Break => remove_loop fuel dir (u64 (4096 * Z.of_nat k + r)) name buf end) w res w2).
      { intros res w2 He2. eapply ev_bind; [exact He|]. cbn beta iota. rewrite fill_full by done. cbn [Z.leb Z.compare]. eapply ev_bind; [apply ev_lift; exact Hblk|].
        cbn beta iota. assert (Hm := d_max _ _ _ Hd). unfold MAX_SIZE, MAX_IDX in Hm. rewrite u64_small by lia.
        replace (4096 * Z.of_nat k + 4096) with (4096 * Z.of_nat (S k)) by lia. exact He2. }
      destruct (find_rec name (drop (S k) rss)) as [r|].
      * destruct IH as (i2 & w2 & rss' & He2 & Hd2 & Hlen2 & Hm2 & Hf2 & Hr2). exists i2, w2, rss'. split; [by apply Hgo|]. split; [done|]. split; [done|]. split; [done|].
        split; [|exact (redone_trans _ _ _ _ _ _ (redone_later _ _ _ _ Hr1 Hw1) Hr2)]. apply (framed_trans w i w1 i1); [apply Hd2| |done]. apply later_framed; try done. apply Hd.
      * destruct IH as (i2 & w2 & He2 & Hr2 & Hw2). exists i2, w2. split; [by apply Hgo|]. split; [exact (retimed_trans _ _ _ Hr1 Hr2)|exact (later_trans _ _ _ Hw1 Hw2)].
  - apply lookup_ge_None in E. rewrite (proj2 (Z.leb_le (size i) _)) by lia. assert (k = length rss) as -> by lia. rewrite drop_all.
    exists i, w. split; [apply ev_ret|]. split; [apply retimed_refl, (f_good _ _ (d_file _ _ _ Hd))|apply later_refl].
Qed.

Lemma ev_remove l w i rss name :
  (length l < 57)%nat -> sane w -> dir_ok w i rss ->
  match dmap rss !! name with
  | None => exists i' w', evals l (remove_dir_entry i name) w (false, None, i') w' /\ retimed i i' /\ later w w'
  | Some e => exists i' w' rss', evals l (remove_dir_entry i name) w (true, Some e.1, i') w' /\
      dir_ok w' i' rss' /\ length rss' = length rss /\ dmap rss' = delete name (dmap rss) /\ framed w i w' i' /\ redone w i w' i'
  end.
Proof.
  intros Hl H Hd. unfold remove_dir_entry. rewrite find_map by apply Hd. assert (Hf := dir_fuel_ok w i rss Hd).
  assert (Hloop := ev_remove_loop (dir_fuel i) l (tick w) i rss 0 name (stack_bytes (clock_ w)) Hl (sane_later w _ (later_tick w) H)
    (dir_later w _ i rss (later_tick w) Hd) ltac:(lia) ltac:(lia) (stack_length _)).
  assert (Hgo : forall res w2, evals l (remove_loop (dir_fuel i) i (4096 * Z.of_nat 0) name (stack_bytes (clock_ w))) (tick w) res w2 ->
    evals l (m ← is_mounted; if negb m then mret (false, None, i) else if negb (is_directory i) then mret (false, None, i)
      else buf ← stack_array; remove_loop (dir_fuel i) i 0 name buf) w res w2).
  { intros res w2 He. eapply ev_bind; [apply ev_mounted|]. rewrite (s_mounted _ H). cbn [negb]. rewrite (d_dir _ _ _ Hd). cbn [negb].
    eapply ev_bind; [apply ev_stack_array|]. exact He. }
  rewrite drop_0 in Hloop. destruct (find_rec name rss) as [r|]; cbn [fmap option_fmap option_map fst].
  - destruct Hloop as (i2 & w2 & rss' & He & Hd2 & Hlen2 & Hm2 & Hf2 & Hr2). exists i2, w2, rss'. split; [by apply Hgo|]. split; [done|]. split; [done|]. split; [done|].
    split; [|done]. apply (framed_trans w i (tick w) i); [apply Hd2| |done].
    apply later_framed; [done|apply Hd|apply later_tick|apply retimed_refl, (f_good _ _ (d_file _ _ _ Hd))].
  - destruct Hloop as (i2 & w2 & He & Hr2 & Hw2). exists i2, w2. split; [by apply Hgo|]. split; [done|]. exact (later_trans _ _ _ (later_tick w) Hw2).
Qed.

(** *** Adding *)

Section adding.
Context (l : list (Z * Z)) (Hl : (length l < 57)%nat) (name : list Z) (ino type : Z).
Context (Hino : fits 8 ino) (Hino0 : ino <> 0) (Htype : fits 1 type) (Hname : (length name <= 255)%nat) (Hbytes : is_bytes name).
Let needed := dir_entry_size (Z.of_nat (length name)).

Lemma live_new : live_of (mkRec ino 0 type name []) = [(name, (ino, type))].
Proof. unfold live_of. cbn [r_ino r_type r_name]. by rewrite (proj2 (Z.eqb_neq ino 0)) by done. Qed.

Definition added w i rss w' i' : Prop :=
  exists rss', dir_ok w' i' rss' /\ dmap rss' = <[name := (ino, type)]> (dmap rss) /\ ((length rss' <= S (length rss))%nat /\ nfree w - 3 <= nfree w') /\ framed w i w' i'.

Lemma ev_add_loop fuel w i rss (k : nat) buf :
  sane w -> dir_ok w i rss -> dmap rss !! name = None -> (k <= length rss)%nat -> (length rss - k < fuel)%nat -> length buf = 4096%nat ->
  (exists i' w', evals l (add_loop fuel i (4096 * Z.of_nat k) ino type needed name buf) w (Break, i') w' /\ retimed i i' /\ later w w') \/
  (exists i' w', evals l (add_loop fuel i (4096 * Z.of_nat k) ino type needed name buf) w (Return true, i') w' /\ added w i rss w' i').
Proof.
  revert w i k buf. induction fuel as [|fuel IH]; intros w i k buf H Hd Hnone Hk Hf Hb; [lia|]. cbn [add_loop].
  assert (Hs := d_size _ _ _ Hd). destruct (rss !! k) as [rs|] eqn:E.
  - assert (Hlt := lookup_lt_Some _ _ _ E). rewrite (proj2 (Z.leb_gt (size i) _)) by lia.
    destruct (ev_read_dir l w i rss k rs Hl H Hd E) as (i1 & w1 & He & Hr1 & Hw1 & Hlen). destruct (d_blocks _ _ _ Hd k rs E) as [_ Ht].
    assert (Hblk := add_tiles _ rs ino type name Ht Hino Htype Hname Hbytes). set (x := own w (loc w i (PData (Z.of_nat k)))) in *.
    assert (Hd1 : dir_ok w1 i1 rss) by (apply (dir_later w); [done|by apply (dir_retimed w i)]). assert (H1 := sane_later w w1 Hw1 H).
    assert (Hfr1 : framed w i w1 i1) by (apply later_framed; try done; apply Hd).
    destruct Hblk as [Hblk|(x' & rs' & l1 & l2 & Hblk & T & L1 & L2)].
    + assert (Hgo : forall res w2, evals l (add_loop fuel i1 (4096 * Z.of_nat (S k)) ino type needed name x) w1 res w2 ->
        evals l ('(r, bytes, dir) ← read_data i (4096 * Z.of_nat k) BLOCK_SIZE; if r <=? 0 then mret (Break, dir)
          else let buf := fill_buf bytes buf in o ← lift (add_block (Z.to_nat r) 0 r ino type needed name buf);
            match o with Return None => mret (Return false, dir) | Return (Some buf) => '(w, dir) ← write_data dir (4096 * Z.of_nat k) buf; mret (Return (w =? BLOCK_SIZE), dir)
            | Break => add_loop fuel dir (u64 (4096 * Z.of_nat k + r)) ino type needed name buf end) w res w2).
      { intros res w2 He2. eapply ev_bind; [exact He|]. cbn beta iota. rewrite fill_full by done. cbn [Z.leb Z.compare]. eapply ev_bind; [apply ev_lift; exact Hblk|].
        cbn beta iota. assert (Hm := d_max _ _ _ Hd). unfold MAX_SIZE, MAX_IDX in Hm. rewrite u64_small by lia.
        replace (4096 * Z.of_nat k + 4096) with (4096 * Z.of_nat (S k)) by lia. exact He2. }
      destruct (IH w1 i1 (S k) x H1 Hd1 Hnone ltac:(lia) ltac:(lia) Hlen) as [(i2 & w2 & He2 & Hr2 & Hw2)|(i2 & w2 & He2 & rss' & Hd2 & Hm2 & Hl2 & Hf2)].
      * left. exists i2, w2. split; [by apply Hgo|]. split; [exact (retimed_trans _ _ _ Hr1 Hr2)|exact (later_trans _ _ _ Hw1 Hw2)].
      * right. exists i2, w2. split; [by apply Hgo|]. exists rss'. split; [done|]. split; [done|]. split; [by rewrite <- (nfree_later w w1)|].
        apply (framed_trans w i w1 i1); [apply Hd2|done|done].
    + right. destruct (entries_insert rss k rs rs' E) as [E1 E2]. rewrite live_new in L2. rewrite L1 in E1. rewrite L2 in E2.
      rewrite <- app_assoc in E1, E2. rewrite app_assoc in E1, E2. cbn [app] in E2. destruct (dmap_add rss _ _ _ name _ (d_names _ _ _ Hd) Hnone E1 E2) as [Hn' Hm].
      destruct (ev_write_dir l w1 i1 rss k rs x' rs' Hl H1 Hd1 E T Hn') as (i2 & w2 & He2 & Hd2 & Hf2 & Hr2). exists i2, w2. split.
      { eapply ev_bind; [exact He|]. cbn beta iota. rewrite fill_full by done. cbn [Z.leb Z.compare]. eapply ev_bind; [apply ev_lift; exact Hblk|].
        cbn beta iota. eapply ev_bind; [exact He2|]. apply ev_ret. }
      exists (<[k := rs']> rss). split; [done|]. split; [done|]. split; [rewrite length_insert, (redone_nfree w1 i1 w2 i2), (nfree_later w w1) by done; lia|]. apply (framed_trans w i w1 i1); [apply Hd2|done|done].
  - apply lookup_ge_None in E. left. rewrite (proj2 (Z.leb_le (size i) _)) by lia. exists i, w. split; [apply ev_ret|].
    split; [apply retimed_refl, (f_good _ _ (d_file _ _ _ Hd))|apply later_refl].
Qed.

(** The blocks a directory had are unchanged by a write behind them. *)
Lemma dir_kept w i rss w1 i1 (P : Z -> Prop) :
  sane w -> dir_ok w i rss -> ext P 0 w i w1 i1 -> (forall o, P o -> size i <= o) ->
  forall k rs, rss !! k = Some rs -> loc w1 i1 (PData (Z.of_nat k)) <> 0 /\ tiles (own w1 (loc w1 i1 (PData (Z.of_nat k)))) rs.
Proof.
  intros H Hd X HP k rs Hk. destruct (d_blocks _ _ _ Hd k rs Hk) as [H0 Ht]. assert (Hlt := lookup_lt_Some _ _ _ Hk).
  assert (Hs := d_size _ _ _ Hd). assert (Hm := d_max _ _ _ Hd). unfold MAX_SIZE in Hm.
  assert (Hv : valid_pos (PData (Z.of_nat k))) by (cbn; lia). assert (Ek := e_keep _ _ _ _ _ _ X _ Hv H0). split; [congruence|].
  rewrite (block_of_bytes w1 i1 k (own w (loc w i (PData (Z.of_nat k))))); [done|apply (e_sane _ _ _ _ _ _ X)|lia|apply (s_sized _ H)|congruence|].
  intros j Hj. assert (Ed : (4096 * Z.of_nat k + j) / 4096 = Z.of_nat k) by div_lia. rewrite (e_bytes _ _ _ _ _ _ X); [|lia|intros Ho%HP; lia|left; by rewrite Ed].
  unfold file_byte. rewrite Ed, (proj2 (Z.eqb_neq _ 0)) by done. f_equal. div_lia.
Qed.

(** Appending a block with one record. *)
Lemma ev_append w i rss :
  sane w -> dir_ok w i rss -> dmap rss !! name = None -> Z.of_nat (length rss) < MAX_IDX ->
  let x := enc (whole_rec ino type name) in
  exists r i' w', evals l (write_data i (size i) x) w (r, i') w' /\
    if r =? BLOCK_SIZE then added w i rss w' i' else dir_ok w' i' rss /\ framed w i w' i' /\ nfree w < 3.
Proof.
  intros H Hd Hnone Hmax x. destruct (fresh_block ino type name Hino Htype Hname Hbytes) as [_ Ht]. fold x in Ht.
  assert (Hxl : length x = 4096%nat) by apply Ht. assert (Hs := d_size _ _ _ Hd). unfold MAX_IDX in Hmax.
  destruct (ev_write_data l w i (size i) x Hl H (d_file _ _ _ Hd) (tiles_bytes x _ Ht) ltac:(lia)) as (wr & w1 & i1 & [X Hby] & Hn5 & _ & Hr).
  { unfold MAX_SIZE, MAX_IDX. lia. }
  assert (Et1 : touched (size i) 4096 = 1) by (unfold touched; change (4096 =? 0) with false; cbn beta iota; rewrite Hs; div_lia).
  rewrite Hxl in Hn5. change (Z.of_nat 4096) with 4096 in Hn5. rewrite Et1 in Hn5.
  assert (Hkept := dir_kept w i rss w1 i1 _ H Hd X ltac:(cbn; lia)). assert (Hg1 := f_good _ _ (e_file _ _ _ _ _ _ X)).
  destruct (e_inode _ _ _ _ _ _ X) as (d & a & b & n & Ei).
  assert (Hmode : mode i1 = mode i) by (by rewrite Ei). assert (Hsize : size i1 = size i) by (by rewrite Ei).
  assert (Hdir : is_directory i1 = true) by (unfold is_directory; rewrite Hmode; apply Hd).
  rewrite Hxl in Hr. change (Z.of_nat 4096) with 4096 in Hr. destruct Hr as [[-> He]|(Hwr & Hn & He)].
  - set (i2 := set_mtime (get_ms (clock_ w)) (grow_size (size i + 4096) i1)) in *. exists 4096, i2, (tick w1). split; [done|]. change (4096 =? BLOCK_SIZE) with true. cbn beta iota.
    assert (Hp2 : same_ptrs i1 i2) by (unfold i2, grow_size; by destruct (_ <? _)).
    assert (Hsz2 : size i2 = size i + 4096). { unfold i2, grow_size. rewrite Hsize, (proj2 (Z.ltb_lt _ _)) by lia. done. }
    assert (Hmd2 : mode i2 = mode i1 /\ inode_num i2 = inode_num i1) by (unfold i2, grow_size; by destruct (_ <? _)).
    assert (Hg2 : good_inode i2).
    { apply good_grown; [done| |apply ms_fits]. unfold fits. change (256 ^ Z.of_nat 8) with 18446744073709551616. lia. }
    set (rss' := rss ++ [[whole_rec ino type name]]).
    assert (Eent : entries rss' = entries rss ++ [(name, (ino, type))]).
    { unfold rss'. rewrite entries_snoc. unfold live. cbn [fmap list_fmap concat]. rewrite app_nil_r. f_equal. exact live_new. }
    destruct (dmap_add rss rss' (entries rss) [] name (ino, type) (d_names _ _ _ Hd) Hnone ltac:(by rewrite app_nil_r) Eent) as [Hn' Hm'].
    assert (Hloc2 : forall p, loc (tick w1) i2 p = loc w1 i1 p) by (intros p; exact (loc_ptrs w1 i1 i2 p Hp2)).
    exists rss'. split; [|split; [done|split; [unfold rss'; rewrite length_app; change (nfree (tick w1)) with (nfree w1); cbn [length]; lia|]]].
    + constructor.
      * apply (file_later w1); [apply later_tick|]. apply (file_ok_ptrs w1 i1); [apply (e_file _ _ _ _ _ _ X)|done|done].
      * unfold is_directory. rewrite (proj1 Hmd2). exact Hdir.
      * rewrite Hsz2, Hs. unfold rss'. rewrite length_app. cbn. lia.
      * rewrite Hsz2. unfold MAX_SIZE, MAX_IDX. lia.
      * intros k rs Hk. rewrite Hloc2. change (own (tick w1)) with (own w1). unfold rss' in Hk. apply lookup_app_Some in Hk as [Hk|[Hge Hk]]; [by apply Hkept|].
        apply list_lookup_singleton_Some in Hk as [Hk <-]. assert (k = length rss) as -> by lia.
        assert (Hbk : forall j, 0 <= j < 4096 -> file_byte w1 i1 (4096 * Z.of_nat (length rss) + j) = byte_at j x /\ loc w1 i1 (PData (Z.of_nat (length rss))) <> 0).
        { intros j Hj. destruct (Hby (4096 * Z.of_nat (length rss) + j) ltac:(lia)) as [B1 B2]. replace ((4096 * Z.of_nat (length rss) + j) / 4096) with (Z.of_nat (length rss)) in B2 by div_lia.
          split; [|done]. rewrite B1, nth_lookup. unfold byte_at. do 2 f_equal. lia. }
        destruct (Hbk 0 ltac:(lia)) as [_ Hl0]. split; [done|].
        rewrite (block_of_bytes w1 i1 (length rss) x); [exact Ht|apply (e_sane _ _ _ _ _ _ X)|unfold MAX_IDX; lia|done|done|]. intros j Hj. by apply Hbk.
      * exact Hn'.
    + apply (ext_framed _ w i w1 i1 _ _ X); [apply later_tick|done|apply Hmd2|apply Hmd2].
  - exists (if 0 <? wr then wr else -1), i1, w1. split; [done|]. rewrite (proj2 (Z.eqb_neq _ BLOCK_SIZE)).
    2:{ unfold BLOCK_SIZE. destruct (0 <? wr); lia. }
    split; [|split].
    + constructor; try done; [apply (e_file _ _ _ _ _ _ X)|by rewrite Hsize|rewrite Hsize; apply Hd|apply Hd].
    + apply (ext_framed _ w i w1 i1 _ _ X); [apply later_refl|done|done|done].
    + unfold touched in Hn. change (4096 =? 0) with false in Hn. cbn beta iota in Hn. assert ((size i + 4096 - 1) / 4096 = size i / 4096) by (rewrite Hs; div_lia). lia.
Qed.

Lemma ev_add w i rss :
  sane w -> dir_ok w i rss -> dmap rss !! name = None -> Z.of_nat (length rss) < MAX_IDX ->
  exists ok i' w', evals l (add_dir_entry i ino name type) w (ok, i') w' /\
    if ok : bool then added w i rss w' i' else dir_ok w' i' rss /\ framed w i w' i' /\ nfree w < 3.
Proof.
  intros H Hd Hnone Hmax. assert (Hf := dir_fuel_ok w i rss Hd). assert (Ht := later_tick w). destruct (fresh_block ino type name Hino Htype Hname Hbytes) as [Eb _].
  destruct (ev_add_loop (dir_fuel i) (tick w) i rss 0 (stack_bytes (clock_ w)) (sane_later w _ Ht H) (dir_later w _ i rss Ht Hd) Hnone ltac:(lia) ltac:(lia) (stack_length _))
    as [(i1 & w1 & He & Hr1 & Hw1)|(i1 & w1 & He & rss' & Hd1 & Hm1 & Hl1 & Hf1)].
  - assert (Hw : later w w1) by exact (later_trans _ _ _ Ht Hw1).
    assert (Hd1 : dir_ok w1 i1 rss) by (apply (dir_later w); [done|by apply (dir_retimed w i)]). assert (H1 := sane_later w w1 Hw H).
    assert (Hfr : framed w i w1 i1) by exact (later_framed w i w1 i1 H (d_file _ _ _ Hd) Hw Hr1).
    destruct (ev_append w1 i1 rss H1 Hd1 Hnone Hmax) as (r & i2 & w2 & He2 & Hres). exists (r =? BLOCK_SIZE), i2, w2. split.
    { unfold add_dir_entry. eapply ev_bind; [apply ev_mounted|]. rewrite (s_mounted _ H). cbn [negb]. rewrite (d_dir _ _ _ Hd). cbn [negb].
      unfold MAX_NAME_LEN. rewrite (proj2 (Z.ltb_ge 255 _)) by lia. cbv zeta. rewrite u8_small by lia. eapply ev_bind; [apply ev_stack_array|].
      eapply ev_bind; [exact He|]. cbn beta iota. eapply ev_bind; [apply ev_lift; exact Eb|]. eapply ev_bind; [exact He2|]. apply ev_ret. }
    destruct (r =? BLOCK_SIZE).
    + destruct Hres as (rss' & Hd2 & Hm2 & Hl2 & Hf2). exists rss'. split; [done|]. split; [done|]. split; [by rewrite <- (nfree_later w w1)|]. apply (framed_trans w i w1 i1); [apply Hd2|done|done].
    + destruct Hres as (Hd2 & Hf2 & Hn2). split; [done|]. split; [apply (framed_trans w i w1 i1); [apply Hd2|done|done]|]. by destruct Hw as [c ->].
  - exists true, i1, w1. split.
    { unfold add_dir_entry. eapply ev_bind; [apply ev_mounted|]. rewrite (s_mounted _ H). cbn [negb]. rewrite (d_dir _ _ _ Hd). cbn [negb].
      unfold MAX_NAME_LEN. rewrite (proj2 (Z.ltb_ge 255 _)) by lia. cbv zeta. rewrite u8_small by lia. eapply ev_bind; [apply ev_stack_array|].
      eapply ev_bind; [exact He|]. apply ev_ret. }
    exists rss'. split; [done|]. split; [done|]. split; [done|]. apply (framed_trans w i (tick w) i); [apply Hd1| |done].
    apply later_framed; [done|apply Hd|done|apply retimed_refl, (f_good _ _ (d_file _ _ _ Hd))].
Qed.

End adding.

End ops.
End FsDir.
