(* ===== verification/FsInode.v ===== *)
(** * ViperFS: the inode table

    [inode_at w ino] is the inode of the table.  Reading and writing an inode,
    and allocating and freeing one, act on one place of the table. *)

From S2P Require Import Prelude Bytes Cache CacheSpec FsLayout ViperFs FsWorld FsBitmap FsFile FsData FsWrite FsDirent FsDir.

Module FsInode.
Import Bytes FsLayout ViperFs FsWorld FsBitmap FsFile FsData FsWrite FsDirent FsDir.

(** ** Inodes inside a block *)

Lemma offset_range ino : 0 <= ino -> 0 <= inode_offset ino <= 3840 /\ inode_offset ino mod 256 = 0.
Proof. intros H. unfold inode_offset, INODES_PER_BLOCK, INODE_SIZE, BLOCK_SIZE. change (4096 / 256) with 16. div_lia. Qed.

Lemma peek_poke o i x :
  good_inode i -> 0 <= o <= 3840 -> length x = 4096%nat -> peek_inode o (poke_inode o i x) = i.
Proof.
  intros Hi Ho Hx. unfold peek_inode, poke_inode. assert (Hl : length (encode_inode i) = 256%nat) by exact (encode_length i Hi).
  assert (E : take 256 (drop (Z.to_nat o) (list_inserts (Z.to_nat o) (encode_inode i) x)) = encode_inode i).
  { apply list_eq_same_length with (n := 256%nat); [done|rewrite length_take, length_drop, length_inserts; lia|]. intros k a b Hk Ha Hb.
    rewrite lookup_take_lt, lookup_drop, list_lookup_inserts in Ha by lia. replace (Z.to_nat o + k - Z.to_nat o)%nat with k in Ha by lia. congruence. }
  rewrite E. exact (decode_encode i Hi).
Qed.

(** Bytes outside the place of an inode do not matter to it. *)
Lemma peek_ext o x y :
  (forall k, (Z.to_nat o <= k < Z.to_nat o + 256)%nat -> x !! k = y !! k) -> peek_inode o x = peek_inode o y.
Proof.
  intros H. unfold peek_inode. f_equal. apply list_eq. intros k. destruct (decide (k < 256)%nat).
  - rewrite !lookup_take_lt, !lookup_drop by done. apply H. lia.
  - by rewrite !lookup_take_ge by lia.
Qed.

Lemma poke_length o i x : length (poke_inode o i x) = length x.
Proof. apply length_inserts. Qed.

Lemma poke_bytes o i x : good_inode i -> is_bytes x -> is_bytes (poke_inode o i x).
Proof. intros Hi Hx. apply inserts_Forall; [exact (encode_bytes i Hi)|done]. Qed.

Lemma peek_poke_other o o' i x :
  good_inode i -> 0 <= o -> 0 <= o' -> o mod 256 = 0 -> o' mod 256 = 0 -> o <> o' -> peek_inode o (poke_inode o' i x) = peek_inode o x.
Proof.
  intros Hi Ho Ho' Hm Hm' Hne. apply peek_ext. intros k Hk. unfold poke_inode. assert (Hl : length (encode_inode i) = 256%nat) by exact (encode_length i Hi).
  assert (o + 256 <= o' \/ o' + 256 <= o) as [|] by div_lia.
  - apply list_lookup_inserts_lt. lia.
  - apply list_lookup_inserts_ge. lia.
Qed.

(** Setting the four bytes of the mode. *)
Definition set_mode_at (o m : Z) (x : list Z) : list Z := Bytes.st 4 (Z.to_nat o + 8) m x.

Lemma peek_mode_other o o' m x :
  0 <= o -> 0 <= o' -> o mod 256 = 0 -> o' mod 256 = 0 -> o <> o' -> peek_inode o (set_mode_at o' m x) = peek_inode o x.
Proof.
  intros Ho Ho' Hm Hm' Hne. apply peek_ext. intros k Hk. apply st_outside. assert (o + 256 <= o' \/ o' + 256 <= o) by div_lia. lia.
Qed.

Section table.
Context {G : Type}.
Local Abbreviation world := (st (Z -> list Z) G).
Implicit Type w : world.

Definition valid_ino w (ino : Z) : Prop := 0 <= ino < inode_count (the_super w).
Definition table_block w (ino : Z) : Z := inode_table_start (the_super w) + ino / 16.
Definition inode_at w (ino : Z) : Inode := peek_inode (inode_offset ino) (own w (table_block w ino)).

Lemma table_range w ino : sane w -> valid_ino w ino ->
  0 <= table_block w ino < data_start (the_super w) /\ ~ in_bitmap w (table_block w ino) /\ inode_block (the_super w) ino = table_block w ino.
Proof.
  intros H [H1 H2]. destruct (s_geometry _ H). unfold table_block, in_bitmap, inode_block, INODES_PER_BLOCK, BLOCK_SIZE, INODE_SIZE. change (4096 / 256) with 16.
  split; [div_lia|]. split; [div_lia|]. apply u64_small. div_lia.
Qed.

Lemma table_not_owned w i ino : sane w -> file_ok w i -> valid_ino w ino -> ~ owned w i (table_block w ino).
Proof. intros H Hf Hi [H0 (p & Hp & E)]. destruct (table_range w ino H Hi) as (Hr & _). rewrite <- E in H0, Hr. destruct (loc_data w i p Hf Hp H0). lia. Qed.

(** Changing a block of the table. *)
Lemma put_table_loc w i ino x p : sane w -> file_ok w i -> valid_ino w ino -> valid_pos p -> loc (put (table_block w ino) x w) i p = loc w i p.
Proof.
  intros H Hf Hi. revert p. apply put_loc. intros c r k Hc Er H0 E. apply (table_not_owned w i ino H Hf Hi). split; [congruence|]. exists r. split; [|done]. by apply (parent_valid c r k).
Qed.

Lemma put_table_file w i ino x : sane w -> file_ok w i -> valid_ino w ino -> file_ok (put (table_block w ino) x w) i.
Proof.
  intros H Hf Hi. apply (file_ok_ext w); try done; [intros q Hq; by apply put_table_loc|]. intros q Hq H0.
  rewrite put_used; [by apply (loc_used w i)|done| |by apply table_range]. destruct (loc_data w i q Hf Hq H0), (s_geometry _ H). lia.
Qed.

Lemma put_table_dir w i ino x rss : sane w -> dir_ok w i rss -> valid_ino w ino -> dir_ok (put (table_block w ino) x w) i rss.
Proof.
  intros H Hd Hi. assert (Hf := d_file _ _ _ Hd). constructor; try apply Hd; [by apply put_table_file|]. intros k rs Hk. destruct (d_blocks _ _ _ Hd k rs Hk) as [H0 Ht].
  assert (Hv : valid_pos (PData (Z.of_nat k))) by (apply lookup_lt_Some in Hk; cbn; assert (Hs := d_size _ _ _ Hd); assert (Hm := d_max _ _ _ Hd); unfold MAX_SIZE in Hm; lia).
  rewrite put_table_loc by done. split; [done|]. rewrite put_other; [done|]. intros E. apply (table_not_owned w i ino H Hf Hi). split; [congruence|eauto].
Qed.

Lemma put_table_sane w ino x : sane w -> valid_ino w ino -> is_bytes x -> length x = 4096%nat -> sane (put (table_block w ino) x w).
Proof. intros H Hi Hx Hl. apply put_sane; try done. by apply table_range. Qed.

Lemma put_table_owned w i ino x b : sane w -> file_ok w i -> valid_ino w ino -> owned (put (table_block w ino) x w) i b <-> owned w i b.
Proof.
  intros H Hf Hi. unfold owned. split; intros [H0 (p & Hp & E)]; (split; [done|]); exists p; (split; [done|]); rewrite <- E; by rewrite put_table_loc.
Qed.

(** The inodes after one was written. *)
Lemma inode_put_other w ino j x :
  sane w -> valid_ino w ino -> valid_ino w j ->
  (table_block w j = table_block w ino -> peek_inode (inode_offset j) x = peek_inode (inode_offset j) (own w (table_block w ino))) ->
  inode_at (put (table_block w ino) x w) j = inode_at w j.
Proof.
  intros H Hi Hj Hx. unfold inode_at. change (table_block (put (table_block w ino) x w) j) with (table_block w j).
  destruct (decide (table_block w j = table_block w ino)) as [E|E]; [|by rewrite put_other]. rewrite E, put_same. by apply Hx.
Qed.

Definition write_table (i : Inode) w : world :=
  put (table_block w (inode_num i)) (poke_inode (inode_offset (inode_num i)) i (own w (table_block w (inode_num i)))) w.

Lemma write_table_same w i : sane w -> good_inode i -> valid_ino w (inode_num i) -> inode_at (write_table i w) (inode_num i) = i.
Proof.
  intros H Hg Hi. unfold inode_at, write_table. change (table_block (put _ _ w) (inode_num i)) with (table_block w (inode_num i)). rewrite put_same.
  apply peek_poke; [done|apply offset_range, Hi|apply (s_sized _ H)].
Qed.

(** Two inodes of one block lie at different offsets. *)
Lemma offset_inj w i j : 0 <= i -> 0 <= j -> table_block w i = table_block w j -> i <> j -> inode_offset i <> inode_offset j.
Proof. unfold table_block, inode_offset, INODES_PER_BLOCK, BLOCK_SIZE, INODE_SIZE. change (4096 / 256) with 16. intros. div_lia. Qed.

Lemma write_table_other w i j :
  sane w -> good_inode i -> valid_ino w (inode_num i) -> valid_ino w j -> j <> inode_num i -> inode_at (write_table i w) j = inode_at w j.
Proof.
  intros H Hg Hi Hj Hne. apply inode_put_other; try done. intros E. destruct (offset_range j (proj1 Hj)), (offset_range (inode_num i) (proj1 Hi)).
  apply peek_poke_other; try done; try lia. apply (offset_inj w); try done; [apply Hj|apply Hi].
Qed.

Lemma write_table_block w i : sane w -> good_inode i ->
  is_bytes (poke_inode (inode_offset (inode_num i)) i (own w (table_block w (inode_num i)))) /\
  length (poke_inode (inode_offset (inode_num i)) i (own w (table_block w (inode_num i)))) = 4096%nat.
Proof. intros H Hg. split; [apply poke_bytes; [done|apply (s_bytes _ H)]|]. rewrite poke_length. apply (s_sized _ H). Qed.

(** The table with the mode of an inode set. *)
Definition mode_table (ino m : Z) w : world :=
  put (table_block w ino) (set_mode_at (inode_offset ino) m (own w (table_block w ino))) w.

Lemma mode_table_other w ino m j : sane w -> valid_ino w ino -> valid_ino w j -> j <> ino -> inode_at (mode_table ino m w) j = inode_at w j.
Proof.
  intros H Hi Hj Hne. apply inode_put_other; try done. intros E. destruct (offset_range j (proj1 Hj)), (offset_range ino (proj1 Hi)).
  apply peek_mode_other; try done; try lia. apply (offset_inj w); try done; [apply Hj|apply Hi].
Qed.

Lemma mode_table_block w ino m : sane w ->
  is_bytes (set_mode_at (inode_offset ino) m (own w (table_block w ino))) /\ length (set_mode_at (inode_offset ino) m (own w (table_block w ino))) = 4096%nat.
Proof. intros H. unfold set_mode_at. split; [apply st_bytes, (s_bytes _ H)|]. rewrite length_st. apply (s_sized _ H). Qed.

End table.

Section ops.
Context {D : Type} {BD : Cache.BlockDevice D} {DL : CacheSpec.DeviceLaws D} {ENV : Env}.
Local Abbreviation world := (st (Z -> list Z) (Cache.BlockCache * D)%type).
Implicit Type w : world.

Lemma ev_read_inode l w ino :
  (length l < 59)%nat -> sane w -> valid_ino w ino ->
  evals l (read_inode ino) w (if inode_alloc (clock_ w) then Some (inode_at w ino) else None) (tick w).
Proof.
  intros Hl H Hi. destruct (table_range w ino H Hi) as (_ & _ & E). unfold read_inode. eapply ev_bind; [apply ev_mounted|]. rewrite (s_mounted _ H). cbn [negb].
  eapply ev_bind; [apply ev_sb|]. fold (the_super w). rewrite E. apply ev_with_block; [lia|]. intros b. eapply ev_bind; [apply ev_inode_buffer|].
  destruct (inode_alloc (clock_ w)); cbn [negb]; [|apply ev_ret]. eapply ev_bind; [apply (ev_data _ b (table_block w ino)), list_elem_of_here|apply ev_ret].
Qed.

Lemma ev_write_inode l w i :
  (length l < 59)%nat -> sane w -> valid_ino w (inode_num i) -> evals l (write_inode i) w true (write_table i w).
Proof.
  intros Hl H Hi. destruct (table_range w _ H Hi) as (_ & _ & E). unfold write_inode. eapply ev_bind; [apply ev_mounted|]. rewrite (s_mounted _ H). cbn [negb].
  eapply ev_bind; [apply ev_sb|]. fold (the_super w). rewrite E. apply ev_change; [lia|]. intros Hs. rewrite poke_length. apply Hs.
Qed.

Lemma ev_free_inode l w ino :
  (length l < 59)%nat -> sane w -> valid_ino w ino -> evals l (free_inode_unlocked ino) w tt (mode_table ino 0 w).
Proof.
  intros Hl H Hi. destruct (table_range w _ H Hi) as (_ & _ & E). unfold free_inode_unlocked. eapply ev_bind; [apply ev_mounted|]. rewrite (s_mounted _ H). cbn [negb].
  eapply ev_bind; [apply ev_sb|]. fold (the_super w). rewrite E. eapply ev_bind; [|apply ev_ret]. apply ev_change; [lia|]. intros Hs. etransitivity; [apply length_st|apply Hs].
Qed.

(** [ino] is the first free inode from [from]. *)
Definition first_inode w (from ino : Z) : Prop :=
  from <= ino < inode_count (the_super w) /\ mode (inode_at w ino) = 0 /\ forall j, from <= j < ino -> mode (inode_at w j) <> 0.

Lemma ev_inode_scan l n w from :
  (length l < 59)%nat -> sane w -> 0 <= from -> Z.of_nat n = inode_count (the_super w) - from \/ (n = 0%nat /\ inode_count (the_super w) <= from) ->
  (exists ino, first_inode w from ino /\ evals l (inode_scan n from) w ino (mode_table ino TYPE_FILE w)) \/
  ((forall j, from <= j < inode_count (the_super w) -> mode (inode_at w j) <> 0) /\ evals l (inode_scan n from) w 0 w).
Proof.
  intros Hl H. revert from. induction n as [|n IH]; intros from Hf Hn; cbn [inode_scan].
  { right. split; [intros j Hj; lia|apply ev_ret]. }
  assert (Hv : valid_ino w from) by (unfold valid_ino; lia). destruct (table_range w from H Hv) as (_ & _ & E).
  destruct (Z.eqb_spec (mode (inode_at w from)) 0) as [E0|E0].
  - left. exists from. split; [split; [unfold valid_ino in Hv; lia|split; [done|intros j; lia]]|]. eapply ev_bind; [apply ev_sb|]. fold (the_super w). rewrite E.
    eapply ev_bind.
    { apply ev_with_block; [lia|]. intros b. eapply ev_bind; [apply ev_data, list_elem_of_here|]. fold (inode_at w from). rewrite E0. cbn [Z.eqb].
      eapply ev_bind; [apply ev_store; [apply list_elem_of_here|]|apply ev_ret]. etransitivity; [apply length_st|apply (s_sized _ H)]. }
    apply ev_ret.
  - assert (Hstep : forall r w', evals l (inode_scan n (from + 1)) w r w' -> evals l (sb ← the_sb;
        r ← with_block (inode_block sb from) false (fun i => x ← cache_data i; if mode (peek_inode (inode_offset from) x) =? 0 then
          _ ← cache_store i (Bytes.st 4 (Z.to_nat (inode_offset from) + 8) TYPE_FILE x); mret true else mret false);
        if (r : bool) then mret from else inode_scan n (from + 1)) w r w').
    { intros r w' He. eapply ev_bind; [apply ev_sb|]. fold (the_super w). rewrite E. apply (ev_bind _ _ _ _ false w); [|exact He].
      apply ev_with_block; [lia|]. intros b. eapply ev_bind; [apply ev_data, list_elem_of_here|]. fold (inode_at w from).
      rewrite (proj2 (Z.eqb_neq _ 0)) by done. apply ev_ret. }
    destruct (IH (from + 1)) as [(ino & (Hr & Hm & Hb) & He)|[Hall He]]; [lia|lia| |].
    + left. exists ino. split; [|by apply Hstep]. split; [lia|]. split; [done|]. intros j Hj. destruct (decide (j = from)) as [->|]; [done|]. apply Hb. lia.
    + right. split; [|by apply Hstep]. intros j Hj. destruct (decide (j = from)) as [->|]; [done|]. apply Hall. lia.
Qed.

Lemma ev_alloc_inode l w :
  (length l < 59)%nat -> sane w ->
  (exists ino, first_inode w 2 ino /\ evals l alloc_inode_unlocked w ino (mode_table ino TYPE_FILE w)) \/
  ((forall j, 2 <= j < inode_count (the_super w) -> mode (inode_at w j) <> 0) /\ evals l alloc_inode_unlocked w 0 w).
Proof.
  intros Hl H. unfold alloc_inode_unlocked.
  assert (Hgo : forall r w', evals l (inode_scan (Z.to_nat (inode_count (the_super w) - 2)) 2) w r w' ->
    evals l (m ← is_mounted; if negb m then mret 0 else sb ← the_sb; inode_scan (Z.to_nat (inode_count sb - 2)) 2) w r w').
  { intros r w' He. eapply ev_bind; [apply ev_mounted|]. rewrite (s_mounted _ H). cbn [negb]. eapply ev_bind; [apply ev_sb|exact He]. }
  destruct (ev_inode_scan l (Z.to_nat (inode_count (the_super w) - 2)) w 2 Hl H) as [(ino & Hi & He)|[Ha He]]; [lia|lia| |].
  - left. exists ino. split; [done|by apply Hgo].
  - right. split; [done|by apply Hgo].
Qed.

End ops.
End FsInode.
