(* ===== verification/FsCreate.v ===== *)
(** * ViperFS: creating files

    Creating a file takes the first free inode, makes it an empty file and adds
    its name to the directory; nothing else changes. *)

From S2P Require Import Prelude Bytes Cache CacheSpec Journal FsLayout ViperFs FsWorld FsBitmap FsFile FsData FsWrite FsDirent FsDir FsInode.

Module FsCreate.
Import Bytes FsLayout ViperFs FsWorld FsBitmap FsFile FsData FsWrite FsDirent FsDir FsInode.

Definition file_mode : Z := Z.lor (Z.lor TYPE_FILE PERM_READ) PERM_WRITE.
Definition empty_file (ino t : Z) : Inode := inode_of ino file_mode 0 0 t (replicate 12 0).

Lemma good_new ino m s b t d :
  fits 8 ino -> fits 4 m -> fits 8 s -> fits 8 b -> fits 8 t -> length d = 12%nat -> Forall (fits 8) d -> good_inode (inode_of ino m s b t d).
Proof.
  intros. assert (fits 8 0 /\ fits 2 0 /\ fits 4 0) as (? & ? & ?) by (unfold fits; cbn; lia). apply good_inode_iff. cbn [inode_of inode_num mode uid gid size blocks atime mtime ctime direct indirect double_indirect triple_indirect generation flags in_reserved].
  split; [done|]. split; [done|]. split; [done|]. split; [done|]. split; [done|]. split; [done|]. apply Forall_replicate. lia.
Qed.

Section table.
Context {G : Type}.
Local Abbreviation world := (st (Z -> list Z) G).
Implicit Type w : world.

(** Blocks of other files are as they were. *)
Definition others w i w' : Prop :=
  forall b, data_block w b -> used w b = true -> ~ owned w i b -> used w' b = true /\ own w' b = own w b.

Lemma framed_inode w i w' i' j : sane w -> file_ok w i -> framed w i w' i' -> valid_ino w j -> valid_ino w' j /\ inode_at w' j = inode_at w j.
Proof.
  intros H Hf F Hj. assert (E := framed_super _ _ _ _ F). destruct (table_range w j H Hj) as (Hr & Hb & _). split; [unfold valid_ino; by rewrite E|].
  unfold inode_at. assert (Et : table_block w' j = table_block w j) by (unfold table_block; by rewrite E). rewrite Et. f_equal.
  apply (fr_frame _ _ _ _ F); [destruct (s_geometry _ H); lia|done|by apply (s_meta _ H)|by apply table_not_owned].
Qed.

Lemma framed_others w i w' i' : sane w -> framed w i w' i' -> others w i w'.
Proof.
  intros H F b Hb Hu Ho. assert (Hp := data_block_pos w b H Hb). assert (Hr : 0 <= b < total_blocks (the_super w)) by (destruct Hb; lia).
  split; [apply (fr_used _ _ _ _ F); [done|by left]|]. apply (fr_frame _ _ _ _ F); try done. apply data_not_bitmap; [done|apply Hb].
Qed.

Lemma table_others w i ino x : sane w -> valid_ino w ino -> others w i (put (table_block w ino) x w).
Proof.
  intros H Hi b Hb Hu _. destruct (table_range w ino H Hi) as (Hr & Hn & _). split.
  - rewrite put_used; [done|done|split; [assert (Hp := data_block_pos w b H Hb); lia|apply Hb]|done].
  - apply put_other. destruct Hb. lia.
Qed.

Lemma others_kept_later w i w' w'' : others w i w' -> later w' w'' -> others w i w''.
Proof. intros H [c ->]. exact H. Qed.

Lemma others_trans w i w1 i1 w2 :
  others w i w1 -> others w1 i1 w2 -> (forall b, data_block w b -> data_block w1 b) ->
  (forall b, data_block w b -> used w b = true -> ~ owned w i b -> ~ owned w1 i1 b) -> others w i w2.
Proof.
  intros H1 H2 Hd Ho b Hb Hu Hn. destruct (H1 b Hb Hu Hn) as [U1 E1]. destruct (H2 b (Hd b Hb) U1 (Ho b Hb Hu Hn)) as [U2 E2]. split; [done|congruence].
Qed.

(** An inode without pointers. *)
Lemma empty_loc w i p : direct i = replicate 12 0 -> indirect i = 0 -> double_indirect i = 0 -> valid_pos p -> loc w i p = 0.
Proof.
  intros Ed Ei E2 Hp. destruct p; cbn; rewrite ?Ed, ?Ei, ?E2; try done. repeat case_cmp; try done. rewrite nth_lookup.
  destruct (replicate 12 0 !! Z.to_nat idx) eqn:E; [|done]. by apply lookup_replicate in E as [-> _].
Qed.

Lemma empty_file_ok w i : good_inode i -> direct i = replicate 12 0 -> indirect i = 0 -> double_indirect i = 0 -> file_ok w i.
Proof. intros Hg Ed Ei E2. constructor; [done| |]; intros; by rewrite empty_loc in *. Qed.

End table.

Section create.
Context {D : Type} {BD : Cache.BlockDevice D} {DL : CacheSpec.DeviceLaws D} {ENV : Env} {EL : EnvLaws}.
Local Abbreviation world := (st (Z -> list Z) (Cache.BlockCache * D)%type).
Implicit Type w : world.

(** What creating an entry needs: a directory whose inode is in use, a name that
    fits, and room in the directory file. *)
Record can_create w (dir : Inode) (rss : list (list drec)) (name : list Z) : Prop := {
  c_sane : sane w;
  c_dir : dir_ok w dir rss;
  c_ino : valid_ino w (inode_num dir);
  c_live : mode (inode_at w (inode_num dir)) <> 0;
  c_name : (length name <= 255)%nat;
  c_bytes : is_bytes name;
  c_new : dmap rss !! name = None;
  c_room : Z.of_nat (length rss) < MAX_IDX;
  c_journal : Journal.enabled_ (journal_ w) = false
}.

(** The directory [dir] has the new entry [e] for the inode [i], which is in the
    table, as is the directory. *)
Record created w dir (rss : list (list drec)) name (e : Z * Z) (i : Inode) w' dir' : Prop := {
  cr_sane : sane w';
  cr_dir : exists rss', dir_ok w' dir' rss' /\ dmap rss' = <[name := e]> (dmap rss);
  cr_num : inode_num dir' = inode_num dir;
  cr_inode : inode_at w' e.1 = i;
  cr_parent : inode_at w' (inode_num dir) = dir';
  cr_inodes : forall j, valid_ino w j -> j <> e.1 -> j <> inode_num dir -> inode_at w' j = inode_at w j;
  cr_others : others w dir w'
}.

(** Nothing was created. *)
Record not_created w dir (rss : list (list drec)) w' dir' : Prop := {
  nc_sane : sane w';
  nc_dir : dir_ok w' dir' rss;
  nc_inodes : forall j, valid_ino w j -> mode (inode_at w j) <> 0 -> inode_at w' j = inode_at w j;
  nc_others : others w dir w'
}.

Lemma mode_table_ok w ino m dir rss :
  sane w -> valid_ino w ino -> dir_ok w dir rss -> sane (mode_table ino m w) /\ dir_ok (mode_table ino m w) dir rss.
Proof.
  intros H Hi Hd. destruct (mode_table_block w ino m H). split; [by apply put_table_sane|by apply put_table_dir].
Qed.

Lemma write_table_ok w i dir rss :
  sane w -> good_inode i -> valid_ino w (inode_num i) -> dir_ok w dir rss -> sane (write_table i w) /\ dir_ok (write_table i w) dir rss.
Proof.
  intros H Hg Hi Hd. destruct (write_table_block w i H Hg). split; [by apply put_table_sane|by apply put_table_dir].
Qed.

(** Writing the new inode, adding the entry and writing the directory. *)
Lemma add_and_write w0 w dir rss name ino i type :
  can_create w0 dir rss name -> sane w -> dir_ok w dir rss -> fits 8 ino -> fits 1 type -> good_inode i -> inode_num i = ino -> first_inode w0 2 ino ->
  (forall j, valid_ino w0 j -> valid_ino w j /\ (j <> ino -> inode_at w j = inode_at w0 j)) -> others w0 dir w ->
  (forall b, data_block w0 b -> data_block w b) -> (forall b, owned w dir b <-> owned w0 dir b) ->
  exists ok dir' w', evals [] (add_dir_entry dir ino name type) (write_table i w) (ok, dir') w' /\ valid_ino w' (inode_num dir') /\
    if ok : bool then sane w' /\ created w0 dir rss name (ino, type) i (write_table dir' w') dir'
    else nfree w < 3 /\ sane w' /\ valid_ino w' ino /\ not_created w0 dir rss (mode_table ino 0 w') dir'.
Proof.
  intros C H Hd Hino Htype Hg Hnum (Hir & Him & _) Hino_ Ho Hdb Hown. destruct C as [H0 Hd0 Hv Hl0 Hn Hb Hnew Hroom _].
  assert (Hvi : valid_ino w ino) by (apply Hino_; unfold valid_ino; lia). assert (Hine : ino <> inode_num dir) by (intros ->; done).
  rewrite <- Hnum in Hvi. destruct (write_table_ok w i dir rss H Hg Hvi Hd) as [H1 Hd1]. set (w1 := write_table i w) in *.
  assert (Hn1 : nfree w1 = nfree w).
  { apply nfree_ext; [done|]. intros b Hbr. apply put_used; [done|done|]. by apply table_range. }
  destruct (ev_add [] ltac:(cbn; lia) name ino type Hino ltac:(lia) Htype Hn Hb w1 dir rss H1 Hd1 Hnew Hroom) as (ok & dir' & w' & He & Hres).
  assert (F : framed w1 dir w' dir') by (destruct ok; [by destruct Hres as (? & _ & _ & _ & ?)|by destruct Hres as (_ & ? & _)]).
  assert (Hinode : forall j, valid_ino w0 j -> valid_ino w' j /\ inode_at w' j = inode_at w1 j).
  { intros j Hj. apply (framed_inode w1 dir w' dir'); [done|apply Hd1|done|]. by apply Hino_. }
  assert (Ho1 : others w0 dir w').
  { assert (Ho_w1 : others w0 dir w1).
    { apply (others_trans w0 dir w dir); [done|by apply table_others|done|]. intros b _ _ Hnb Hob. by apply Hnb, Hown. }
    apply (others_trans w0 dir w1 dir); [done|by apply (framed_others w1 dir w' dir')|exact Hdb|].
    intros b _ _ Hnb Hob. apply Hnb, Hown. unfold w1 in Hob. by apply put_table_owned in Hob; [|done|apply Hd|]. }
  destruct (Hinode (inode_num dir) Hv) as [Hvd' Edir]. rewrite <- (fr_num _ _ _ _ F) in Hvd'. assert (H' := fr_sane _ _ _ _ F).
  assert (Hdb' : forall b, data_block w0 b -> data_block w' b).
  { intros b Hb0. apply Hdb in Hb0. unfold data_block in *. by rewrite (framed_super _ _ _ _ F). }
  assert (Hown' : forall b, data_block w0 b -> used w0 b = true -> ~ owned w0 dir b -> ~ owned w' dir' b).
  { intros b Hb0 Hu Hnb Hob. destruct (fr_fresh _ _ _ _ F b Hob) as [Ho'|Hu'].
    - apply Hnb, Hown. unfold w1 in Ho'. by apply put_table_owned in Ho'; [|done|apply Hd|].
    - destruct (Ho b Hb0 Hu Hnb) as [Hu2 _]. unfold w1, write_table in Hu'. rewrite put_used in Hu'; [congruence|done| |by apply table_range].
      apply Hdb in Hb0. assert (Hp := data_block_pos w b H Hb0). destruct Hb0. lia. }
  exists ok, dir', w'. split; [done|]. split; [done|]. destruct ok.
  - destruct Hres as (rss' & Hd' & Hm' & _ & _). assert (Hg' := f_good _ _ (d_file _ _ _ Hd')).
    destruct (write_table_ok w' dir' dir' rss' H' Hg' Hvd' Hd') as [H2 Hd2]. split; [done|]. constructor; try done.
    + by exists rss'.
    + apply (fr_num _ _ _ _ F).
    + cbn [fst]. rewrite write_table_other; [|done|done|done|apply Hinode; unfold valid_ino; lia|by rewrite (fr_num _ _ _ _ F)].
      rewrite (proj2 (Hinode ino ltac:(unfold valid_ino; lia))). rewrite <- Hnum. by apply write_table_same.
    + rewrite <- (fr_num _ _ _ _ F). by apply write_table_same.
    + cbn [fst]. intros j Hj Hji Hjd. destruct (Hinode j Hj) as [Hvj Ej]. rewrite write_table_other; [|done|done|done|done|by rewrite (fr_num _ _ _ _ F)].
      rewrite Ej. unfold w1. rewrite write_table_other; [by apply Hino_|done|done|done|by apply Hino_|by rewrite Hnum].
    + apply (others_trans w0 dir w' dir'); [done|by apply table_others|done|done].
  - destruct Hres as (Hd' & _ & Hnf). assert (Hvi' : valid_ino w' ino) by (apply Hinode; unfold valid_ino; lia).
    split; [lia|]. split; [done|]. split; [done|]. destruct (mode_table_ok w' ino 0 dir' rss H' Hvi' Hd') as [H2 Hd2]. constructor; try done.
    + intros j Hj Hm. assert (j <> ino) by (intros ->; done). destruct (Hinode j Hj) as [Hvj Ej]. rewrite mode_table_other by done. rewrite Ej.
      unfold w1. rewrite write_table_other; [by apply Hino_|done|done|done|by apply Hino_|by rewrite Hnum].
    + apply (others_trans w0 dir w' dir'); [done|by apply table_others|done|done].
Qed.

Lemma fits_ino w ino : sane w -> valid_ino w ino -> fits 8 ino.
Proof.
  intros H [H1 H2]. destruct (s_geometry _ H). unfold fits. change (256 ^ Z.of_nat 8) with 18446744073709551616. lia.
Qed.

Lemma later_others w i w' : later w w' -> others w i w'.
Proof. intros [c ->] b _ Hu _. done. Qed.

(** The state in which the entry is added, after the inode [ino] was taken. *)
Lemma after_alloc w dir dir1 rss name w1 ino :
  can_create w dir rss name -> retimed dir dir1 -> later w w1 -> first_inode w1 2 ino ->
  let w2 := mode_table ino TYPE_FILE w1 in
  can_create w dir1 rss name /\ first_inode w 2 ino /\ sane w2 /\ dir_ok w2 dir1 rss /\
  (forall j, valid_ino w j -> valid_ino w2 j /\ (j <> ino -> inode_at w2 j = inode_at w j)) /\ others w dir1 w2 /\
  (forall b, data_block w b -> data_block w2 b) /\ (forall b, owned w2 dir1 b <-> owned w dir1 b) /\ nfree w2 = nfree w.
Proof.
  intros C Hr Hw Hi w2. destruct C as [H0 Hd0 Hv Hl0 Hn Hb Hnew Hroom Hj]. assert (H1 := sane_later w w1 Hw H0).
  assert (Hdr := dir_retimed w dir dir1 rss Hr Hd0). assert (Hd1 := dir_later w w1 dir1 rss Hw Hdr).
  assert (En : inode_num dir1 = inode_num dir) by (by destruct Hr as (a & m & _ & _ & ->)).
  assert (Hvi : valid_ino w1 ino) by (unfold valid_ino; destruct Hi as (? & _); lia).
  destruct (mode_table_ok w1 ino TYPE_FILE dir1 rss H1 Hvi Hd1) as [H2 Hd2].
  split; [constructor; try done; by rewrite En|]. split; [by destruct Hw as [c ->]|]. split; [done|]. split; [done|]. split; [|split; [|split; [|split]]].
  - intros j Hj'. assert (Hj1 : valid_ino w1 j) by (by destruct Hw as [c ->]). split; [exact Hj1|]. intros Hne. unfold w2. rewrite mode_table_other by done. by destruct Hw as [c ->].
  - apply (others_trans w dir1 w1 dir1); [by apply later_others|by apply table_others| |]; by destruct Hw as [c ->].
  - by destruct Hw as [c ->].
  - intros b. unfold w2. etransitivity; [apply put_table_owned; [done|apply Hd1|done]|]. by destruct Hw as [c ->].
  - transitivity (nfree w1); [|by destruct Hw as [c ->]]. apply nfree_ext; [done|]. intros b Hbr. apply put_used; [done|done|]. by apply table_range.
Qed.

(** Creating a file: the entry and the empty file, or nothing when the inodes or
    the blocks run out. *)
Lemma ev_create_file w dir rss name :
  can_create w dir rss name ->
  exists ino dir' w', evals [] (create_file dir name) w (ino, dir') w' /\
    if ino =? 0 then not_created w dir rss w' dir' /\ (nfree w < 3 \/ forall j, 2 <= j < inode_count (the_super w) -> mode (inode_at w j) <> 0)
    else first_inode w 2 ino /\ exists t, created w dir rss name (ino, FT_FILE) (empty_file ino t) w' dir'.
Proof.
  intros C. assert (H := c_sane _ _ _ _ C). assert (Hd := c_dir _ _ _ _ C).
  destruct (ev_lookup [] w dir rss name ltac:(cbn; lia) H Hd) as (dir1 & w1 & He1 & Hr1 & Hw1). rewrite (c_new _ _ _ _ C) in He1. cbn [entry_ino] in He1.
  assert (H1 := sane_later w w1 Hw1 H). assert (Hj1 : Journal.enabled_ (journal_ w1) = false) by (destruct Hw1 as [c ->]; apply (c_journal _ _ _ _ C)).
  assert (Hown1 : forall b, owned w dir1 b <-> owned w dir b) by (intros b; apply owned_ptrs; by apply retimed_ptrs).
  assert (Hn1 : inode_num dir1 = inode_num dir) by (by destruct Hr1 as (a & m & _ & _ & ->)).
  assert (Hstart : forall ino w2 res w3, evals [] alloc_inode_unlocked w1 ino w2 ->
    evals [] (if ino =? 0 then _ ← journal_abort false; mret (0, dir1) else
        t ← now; sb ← the_sb; _ ← mret tt; ok ← write_inode (empty_file ino t);
        if negb ok then _ ← free_inode_unlocked ino; _ ← journal_abort false; mret (0, dir1) else
          '(ok, dir) ← add_dir_entry dir1 ino name FT_FILE;
          if negb ok then _ ← free_inode_unlocked ino; _ ← journal_abort false; mret (0, dir) else
            _ ← write_inode dir; _ ← mret true; mret (ino, dir)) w2 res w3 -> evals [] (create_file dir name) w res w3).
  { intros ino w2 res w3 Ha Hk. unfold create_file. eapply ev_bind; [apply ev_mounted|]. rewrite (s_mounted _ H). cbn [negb]. rewrite (d_dir _ _ _ Hd). cbn [negb].
    eapply ev_bind; [exact He1|]. cbn beta iota. cbn [negb Z.eqb]. eapply ev_bind; [apply ev_enabled|]. rewrite Hj1. eapply ev_bind; [apply ev_ret|]. eapply ev_bind; [exact Ha|]. exact Hk. }
  destruct (ev_alloc_inode [] w1 ltac:(cbn; lia) H1) as [(ino & Hi & Ha)|[Hall Ha]].
  2:{ exists 0, dir1, w1. split; [apply (Hstart 0 w1); [done|]; cbn [Z.eqb]; eapply ev_bind; [apply ev_ret|apply ev_ret]|]. cbn [Z.eqb]. split.
      - constructor; [done|apply (dir_later w); [done|by apply (dir_retimed w dir)]| |by apply later_others]. intros j Hj _. by destruct Hw1 as [c ->].
      - right. by destruct Hw1 as [c ->]. }
  destruct (after_alloc w dir dir1 rss name w1 ino C Hr1 Hw1 Hi) as (C1 & Hi0 & H2 & Hd2 & Hinodes & Hoth & Hdb & Hown & Hnf). set (w2 := mode_table ino TYPE_FILE w1) in *.
  set (t := get_ms (clock_ w2)). assert (Ht := later_tick w2). assert (H3 := sane_later w2 _ Ht H2). assert (Hd3 := dir_later w2 _ dir1 rss Ht Hd2).
  assert (Hvi : valid_ino w ino) by (destruct Hi0 as (? & _); unfold valid_ino; lia). assert (Hfi := fits_ino w ino H Hvi).
  assert (Hg : good_inode (empty_file ino t)).
  { apply good_new; [done|split; by vm_compute|unfold fits; cbn; lia|unfold fits; cbn; lia|apply ms_fits|done|apply Forall_replicate; unfold fits; cbn; lia]. }
  destruct (add_and_write w (tick w2) dir1 rss name ino (empty_file ino t) FT_FILE C1 H3 Hd3 Hfi ltac:(split; by vm_compute) Hg eq_refl Hi0 Hinodes Hoth Hdb Hown)
    as (ok & dir' & w' & He & Hvd & Hres).
  assert (Hi0' : ino <> 0) by (destruct Hi0 as (? & _); lia).
  assert (Hback : forall w3, others w dir1 w3 -> others w dir w3) by (intros w3 Ho b Hb Hu Hn; apply Ho; try done; by rewrite Hown1).
  assert (Hpre : forall res w3, evals [] (if negb ok then _ ← free_inode_unlocked ino; _ ← journal_abort false; mret (0, dir') else _ ← write_inode dir'; _ ← mret true; mret (ino, dir')) w' res w3 ->
    evals [] (create_file dir name) w res w3).
  { intros res w3 Hk. apply (Hstart ino w2); [done|]. rewrite (proj2 (Z.eqb_neq ino 0)) by done. eapply ev_bind; [apply ev_now|]. eapply ev_bind; [apply ev_sb|]. eapply ev_bind; [apply ev_ret|].
    eapply ev_bind; [apply ev_write_inode; [cbn; lia|done|by apply Hinodes]|]. cbn [negb]. eapply ev_bind; [exact He|]. exact Hk. }
  destruct ok; cbn [negb] in *.
  - destruct Hres as [S' [S R Nm Ni Np No Nt]]. exists ino, dir', (write_table dir' w'). split.
    { apply Hpre. eapply ev_bind; [apply ev_write_inode; [cbn; lia| |done]|eapply ev_bind; [apply ev_ret|apply ev_ret]]. done. }
    rewrite (proj2 (Z.eqb_neq ino 0)) by done. split; [done|]. exists t. constructor; try done; rewrite <- ?Hn1; try done. by apply Hback.
  - destruct Hres as (Hf & S' & Hvi' & NC). exists 0, dir', (mode_table ino 0 w'). split.
    { apply Hpre. eapply ev_bind; [apply ev_free_inode; [cbn; lia|done|done]|]. eapply ev_bind; [apply ev_ret|apply ev_ret]. }
    cbn [Z.eqb]. split; [|left; change (nfree (tick w2)) with (nfree w2) in Hf; lia]. destruct NC as [? ? ? ?]. constructor; try done. by apply Hback.
Qed.

End create.
End FsCreate.
