(* ===== verification/FsUnlink.v ===== *)
(** * ViperFS: deleting files

    Deleting a file releases exactly the blocks of the file, among them the
    blocks of pointers, clears the mode of its inode and removes its entry. *)

From S2P Require Import Prelude Bytes Cache CacheSpec Journal FsLayout ViperFs FsWorld FsBitmap FsFile FsData FsWrite FsDirent FsDir FsInode FsCreate.

Module FsUnlink.
Import Bytes FsLayout ViperFs FsWorld FsBitmap FsFile FsData FsWrite FsDirent FsDir FsInode FsCreate.

Definition emptied (i : Inode) : Inode := set_size 0 (set_blocks 0 (set_double 0 (set_indirect 0 (set_direct (replicate 12 0) i)))).

Section released.
Context {G : Type}.
Local Abbreviation world := (st (Z -> list Z) G).
Implicit Type w : world.

(** The block [b] hangs at one of the positions [P]. *)
Definition hangs w i (P : pos -> Prop) (b : Z) : Prop := b <> 0 /\ exists p, valid_pos p /\ P p /\ loc w i p = b.

(** [w'] is [w] with the blocks at the positions [P] released. *)
Record released w i (P : pos -> Prop) w' : Prop := {
  re_sane : sane w';
  re_fs : same_fs (fs w) (fs w');
  re_clock : clock_ w' = clock_ w;
  re_journal : journal_ w' = journal_ w;
  re_sys : sys_ w' = sys_ w;
  re_used : forall b, 0 <= b < total_blocks (the_super w) -> used w' b = true <-> used w b = true /\ ~ hangs w i P b;
  re_own : forall k, ~ in_bitmap w k -> own w' k = own w k
}.

Lemma released_iff w i P Q w' : (forall b, hangs w i P b <-> hangs w i Q b) -> released w i P w' -> released w i Q w'.
Proof. intros E [H1 H2 H3 H4 H5 H6 H7]. constructor; try done. intros b Hb. rewrite H6 by done. by rewrite E. Qed.

Lemma released_ext w i P Q w' : (forall p, valid_pos p -> loc w i p <> 0 -> P p <-> Q p) -> released w i P w' -> released w i Q w'.
Proof.
  intros E. apply released_iff. intros b. unfold hangs.
  split; intros [H0 (p & Hp & HP & El)]; (split; [done|]); exists p; (split; [done|split; [|done]]); apply E; try done; congruence.
Qed.

Lemma released_none w i : sane w -> released w i (fun _ => False) w.
Proof.
  intros H. constructor; try done; [apply same_fs_refl|]. intros b _. split; [|by intros []]. intros Hu. split; [done|]. by intros [_ (p & _ & [] & _)].
Qed.

(** One more block. *)
Lemma released_drop w i P p w' :
  sane w -> file_ok w i -> released w i P w' -> valid_pos p -> ~ P p -> loc w i p <> 0 ->
  used w' (loc w i p) = true /\ data_block w' (loc w i p) /\ released w i (fun q => P q \/ q = p) (drop_block (loc w i p) w').
Proof.
  intros H Hf R Hp HP H0. destruct (f_own _ _ Hf p Hp H0) as [Hb Hu]. assert (Es := same_super w w' (re_fs _ _ _ _ R)).
  assert (Hr : 0 <= loc w i p < total_blocks (the_super w)) by (destruct (s_geometry _ H); lia).
  assert (Hu' : used w' (loc w i p) = true).
  { apply (re_used _ _ _ _ R _ Hr). split; [done|]. intros [_ (q & Hq & HQ & E)]. apply HP. rewrite (f_inj _ _ Hf p q); try done. }
  assert (Hd : data_start (the_super w') <= loc w i p < total_blocks (the_super w')) by (rewrite Es; exact Hb).
  assert (Hr' : 0 <= loc w i p < total_blocks (the_super w')) by (rewrite Es; exact Hr).
  split; [done|]. split; [done|]. assert (H' := re_sane _ _ _ _ R). constructor.
  - by apply drop_sane.
  - eapply same_fs_trans; [apply (re_fs _ _ _ _ R)|]. by eexists _, _.
  - apply (re_clock _ _ _ _ R).
  - apply (re_journal _ _ _ _ R).
  - apply (re_sys _ _ _ _ R).
  - intros b Hbr. rewrite drop_bits by (done || lia). rewrite andb_true_iff, negb_true_iff, Z.eqb_neq, (re_used _ _ _ _ R b Hbr). unfold hangs. split.
    + intros (Hne & Hub & Hn). split; [done|]. intros [Hb0 (q & Hq & [HQ| ->] & E)]; [|by apply Hne]. apply Hn. split; [done|]. by exists q.
    + intros (Hub & Hn). split; [|split; [done|]]; [intros ->|intros [Hb0 (q & Hq & HQ & E)]]; apply Hn; (split; [done|]); eauto 10.
  - intros k Hk. rewrite drop_other; [by apply (re_own _ _ _ _ R)|done|done|]. unfold in_bitmap. rewrite Es. exact Hk.
Qed.

Lemma released_super w i P w' : released w i P w' -> the_super w' = set_free_blocks (free_blocks (the_super w')) (the_super w).
Proof. intros R. exact (same_super w w' (re_fs _ _ _ _ R)). Qed.

(** A file with blocks of its own is not affected. *)
Lemma released_file w i P w' j :
  sane w -> released w i P w' -> file_ok w j -> (forall b, owned w j b -> ~ owned w i b) -> file_ok w' j /\ forall p, valid_pos p -> loc w' j p = loc w j p.
Proof.
  intros H R Hj Hd. assert (Es := released_super _ _ _ _ R).
  assert (HL : forall p, valid_pos p -> loc w' j p = loc w j p) by (apply loc_ext; intros q Hq H0; apply (re_own _ _ _ _ R); by apply loc_not_bitmap).
  split; [|done]. apply (file_ok_ext w); try done; try by rewrite Es. intros q Hq H0. destruct (f_own _ _ Hj q Hq H0) as [Hb Hu].
  apply (re_used _ _ _ _ R); [destruct (s_geometry _ H); lia|]. split; [done|]. intros [_ (p & Hp & _ & E)]. apply (Hd (loc w j q)); split; eauto.
Qed.

Lemma dir_pos w i rss (k : nat) rs : dir_ok w i rss -> rss !! k = Some rs -> valid_pos (PData (Z.of_nat k)).
Proof. intros Hd Hk%lookup_lt_Some. cbn. assert (Hs := d_size _ _ _ Hd). assert (Hm := d_max _ _ _ Hd). unfold MAX_SIZE in Hm. lia. Qed.

Lemma released_dir w i P w' j rss :
  sane w -> released w i P w' -> dir_ok w j rss -> (forall b, owned w j b -> ~ owned w i b) -> dir_ok w' j rss.
Proof.
  intros H R Hj Hd. assert (Hfj := d_file _ _ _ Hj). destruct (released_file w i P w' j H R Hfj Hd) as [Hf' HL]. constructor; try apply Hj; [done|].
  intros k rs Hk. assert (Hv := dir_pos w j rss k rs Hj Hk). destruct (d_blocks _ _ _ Hj k rs Hk) as [H0 Ht]. rewrite HL by done. split; [done|].
  by rewrite (re_own _ _ _ _ R) by (by apply loc_not_bitmap).
Qed.

Lemma released_inode w i P w' j : sane w -> released w i P w' -> valid_ino w j -> valid_ino w' j /\ inode_at w' j = inode_at w j.
Proof.
  intros H R Hj. assert (Es := released_super _ _ _ _ R). split; [unfold valid_ino; rewrite Es; exact Hj|]. unfold inode_at.
  assert (Et : table_block w' j = table_block w j) by (unfold table_block; by rewrite Es). rewrite Et, (re_own _ _ _ _ R); [done|]. by apply table_range.
Qed.

(** A file with blocks of its own is not affected by a change of another. *)
Lemma framed_file w i w' i' j :
  sane w -> framed w i w' i' -> file_ok w j -> (forall b, owned w j b -> ~ owned w i b) -> file_ok w' j /\ forall p, valid_pos p -> loc w' j p = loc w j p.
Proof.
  intros H F Hj Hd. assert (Es := framed_super _ _ _ _ F). assert (Hr : forall q, valid_pos q -> loc w j q <> 0 -> 0 <= loc w j q < total_blocks (the_super w) /\ ~ owned w i (loc w j q)).
  { intros q Hq H0. destruct (f_own _ _ Hj q Hq H0) as [Hb _]. split; [destruct (s_geometry _ H); lia|]. apply Hd. split; eauto. }
  assert (HL : forall p, valid_pos p -> loc w' j p = loc w j p).
  { apply loc_ext. intros q Hq H0. destruct (Hr q Hq H0). apply (fr_frame _ _ _ _ F); try done; [by apply loc_not_bitmap|by apply loc_used]. }
  split; [|done]. apply (file_ok_ext w); try done; try by rewrite Es. intros q Hq H0. destruct (Hr q Hq H0). apply (fr_used _ _ _ _ F); [done|]. left. by apply loc_used.
Qed.

Lemma mode_peek o x : mode (peek_inode o x) = ld 4 (Z.to_nat o + 8) x.
Proof.
  unfold peek_inode, ld. transitivity (le_combine (take 4 (drop 8 (take 256 (drop (Z.to_nat o) x))))); [done|]. f_equal.
  rewrite take_drop_commute, take_take. change (8 + 4)%nat with 12%nat. rewrite Nat.min_l by lia. change 12%nat with (8 + 4)%nat. rewrite <- take_drop_commute, drop_drop. done.
Qed.

Lemma mode_table_same w ino m : sane w -> valid_ino w ino -> fits 4 m -> mode (inode_at (mode_table ino m w) ino) = m.
Proof.
  intros H Hi Hm. unfold inode_at, mode_table. change (table_block (put _ _ w) ino) with (table_block w ino). rewrite put_same, mode_peek. unfold set_mode_at.
  destruct (offset_range ino (proj1 Hi)) as [Ho _]. rewrite ld_st_same by (rewrite (s_sized _ H); lia). by apply Z.mod_small.
Qed.

End released.

Section ops.
Context {D : Type} {BD : Cache.BlockDevice D} {DL : CacheSpec.DeviceLaws D} {ENV : Env} {EL : EnvLaws}.
Local Abbreviation world := (st (Z -> list Z) (Cache.BlockCache * D)%type).
Implicit Type w : world.

Section file.
Context (w0 : world) (i : Inode).
Hypothesis (Hs : sane w0) (Hf : file_ok w0 i).

(** Releasing the block at a position, and those at the positions of a list. *)
Definition drop_pos w (p : pos) : world := if loc w0 i p =? 0 then w else drop_block (loc w0 i p) w.
Definition drop_all w (ps : list pos) : world := foldl drop_pos w ps.

Lemma drop_all_app w ps qs : drop_all w (ps ++ qs) = drop_all (drop_all w ps) qs.
Proof. apply foldl_app. Qed.

Lemma drop_all_null w ps : (forall p, p ∈ ps -> loc w0 i p = 0) -> drop_all w ps = w.
Proof.
  induction ps as [|p ps IH]; intros H; [done|]. cbn. unfold drop_pos. rewrite (H p), Z.eqb_refl by apply list_elem_of_here. apply IH. intros q Hq. by apply H, list_elem_of_further.
Qed.

Lemma released_all P w ps :
  released w0 i P w -> NoDup ps -> Forall valid_pos ps -> (forall p, p ∈ ps -> ~ P p) -> released w0 i (fun p => P p \/ p ∈ ps) (drop_all w ps).
Proof.
  intros R Hn. revert P w R. induction Hn as [|p ps Hp Hn IH]; intros P w R Hv HP.
  - apply (released_ext w0 i P); [|done]. intros p _ _. rewrite elem_of_nil. tauto.
  - apply Forall_cons in Hv as [Hvp Hv]. cbn. apply (released_ext w0 i (fun q => (P q \/ q = p) \/ q ∈ ps)); [intros q _ _; rewrite elem_of_cons; tauto|]. apply IH; [|done|].
    + unfold drop_pos. destruct (Z.eqb_spec (loc w0 i p) 0) as [E|E].
      * apply (released_ext w0 i P); [|done]. intros q _ Hq. split; [by left|]. intros [?| ->]; done.
      * apply released_drop; try done. apply HP, list_elem_of_here.
    + intros q Hq [HPq| ->]; [|done]. by apply (HP q); [apply list_elem_of_further|].
Qed.

(** The operation [m] releases the blocks at the positions [ps], whatever other
    blocks were released before. *)
Definition releases (l : list (Z * Z)) (m : M unit) (ps : list pos) : Prop :=
  forall P w, released w0 i P w -> NoDup ps -> Forall valid_pos ps -> (forall p, p ∈ ps -> ~ P p) -> evals l m w tt (drop_all w ps).

Lemma releases_skip l ps : (forall p, p ∈ ps -> loc w0 i p = 0) -> releases l (mret tt) ps.
Proof. intros H P w R _ _ _. rewrite drop_all_null by done. apply ev_ret. Qed.

Lemma releases_bind l m m' ps qs : releases l m ps -> releases l m' qs -> releases l (_ ← m; m') (ps ++ qs).
Proof.
  intros H H' P w R (Hn & Hd & Hn')%NoDup_app [Hv Hv']%Forall_app HP. rewrite drop_all_app.
  assert (HP1 : forall p, p ∈ ps -> ~ P p) by (intros p Hp; apply HP, elem_of_app; by left).
  apply (ev_bind _ _ _ _ tt (drop_all w ps)); [by apply (H P)|]. apply (H' (fun p => P p \/ p ∈ ps)); try done; [by apply released_all|].
  intros p Hp [HPp|Hp']; [|by apply (Hd p)]. apply (HP p); [|done]. apply elem_of_app. by right.
Qed.

Lemma releases_block l p : (length l < 59)%nat -> loc w0 i p <> 0 -> releases l (free_block_unlocked (loc w0 i p)) [p].
Proof.
  intros Hl H0 P w R _ Hv HP. apply Forall_cons in Hv as [Hv _]. destruct (released_drop w0 i P p w Hs Hf R Hv) as (Hu & Hb & R'); [apply HP, list_elem_of_here|done|].
  cbn. unfold drop_pos. rewrite (proj2 (Z.eqb_neq _ 0)) by done. apply ev_free; [done|apply (re_sane _ _ _ _ R)|].
  assert (Hpos := data_block_pos w _ (re_sane _ _ _ _ R) Hb). destruct Hb. lia.
Qed.

Lemma releases_each l ks body (Q : Z -> list pos) :
  (forall k, k ∈ ks -> releases l (body k) (Q k)) -> releases l (for_each ks body) (ks ≫= Q).
Proof.
  induction ks as [|k ks IH]; intros Hb; cbn [for_each].
  - apply releases_skip. by intros p ?%not_elem_of_nil.
  - rewrite bind_cons. apply releases_bind; [apply Hb, list_elem_of_here|]. apply IH. intros k' Hk'. by apply Hb, list_elem_of_further.
Qed.

(** Visiting the pointers of the block at [q]. *)
Lemma releases_ptrs l q body (child : Z -> pos) (Q : Z -> list pos) :
  (length l < 58)%nat -> valid_pos q -> loc w0 i q <> 0 ->
  (forall k, 0 <= k < 512 -> parent (child k) = Some (q, k)) ->
  (forall k b, 0 <= k < 512 -> loc w0 i (child k) <> 0 -> releases ((b, loc w0 i q) :: l) (body (loc w0 i (child k))) (Q k)) ->
  (forall k p, 0 <= k < 512 -> loc w0 i (child k) = 0 -> p ∈ Q k -> loc w0 i p = 0) ->
  releases l (for_ptrs (loc w0 i q) body) (seqZ 0 512 ≫= Q).
Proof.
  intros Hl Hq H0 Hc Hb Hz P w R Hn Hv HP. apply ev_with_block; [lia|]. intros b. revert P w R Hn Hv HP. apply releases_each. intros k Hk%elem_of_seqZ P w R Hn Hv HP.
  assert (Ec : loc w0 i (child k) = ptr k (own w0 (loc w0 i q))).
  { rewrite (loc_child w0 i _ q k) by (apply Hc; lia). unfold ptr_at. by rewrite (proj2 (Z.eqb_neq _ 0)). }
  eapply ev_bind; [apply (ev_data _ b (loc w0 i q)), list_elem_of_here|]. rewrite (re_own _ _ _ _ R) by (by apply loc_not_bitmap). rewrite <- Ec.
  destruct (Z.eqb_spec (loc w0 i (child k)) 0) as [E|E]; cbn [negb].
  - apply (releases_skip _ (Q k)) with (P := P); try done. intros p. apply Hz; [lia|done].
  - apply (Hb k b) with (P := P); done.
Qed.

(** The positions in the order in which the code releases them. *)
Definition direct_ps : list pos := seqZ 0 12 ≫= fun k => [PData k].
Definition indirect_ps : list pos := (seqZ 0 512 ≫= fun k => [PData (12 + k)]) ++ [PInd].
Definition l1_ps (j : Z) : list pos := (seqZ 0 512 ≫= fun k => [PData (524 + 512 * j + k)]) ++ [PL1 j].
Definition double_ps : list pos := (seqZ 0 512 ≫= l1_ps) ++ [PDbl].
Definition file_ps : list pos := direct_ps ++ indirect_ps ++ double_ps.

Lemma elem_l1 j p : p ∈ l1_ps j <-> p = PL1 j \/ exists idx, p = PData idx /\ 524 + 512 * j <= idx < 524 + 512 * j + 512.
Proof.
  unfold l1_ps. rewrite elem_of_app, list_elem_of_singleton, list_elem_of_bind. setoid_rewrite list_elem_of_singleton. setoid_rewrite elem_of_seqZ. split.
  - intros [(k & -> & Hk)| ->]; [right|by left]. exists (524 + 512 * j + k). split; [done|lia].
  - intros [->|(idx & -> & Hk)]; [by right|left]. exists (idx - (524 + 512 * j)). split; [f_equal; lia|lia].
Qed.

Lemma elem_direct p : p ∈ direct_ps <-> exists idx, p = PData idx /\ 0 <= idx < 12.
Proof. unfold direct_ps. rewrite list_elem_of_bind. setoid_rewrite list_elem_of_singleton. setoid_rewrite elem_of_seqZ. done. Qed.

Lemma elem_indirect p : p ∈ indirect_ps <-> p = PInd \/ exists idx, p = PData idx /\ 12 <= idx < 524.
Proof.
  unfold indirect_ps. rewrite elem_of_app, list_elem_of_singleton, list_elem_of_bind. setoid_rewrite list_elem_of_singleton. setoid_rewrite elem_of_seqZ. split.
  - intros [(k & -> & Hk)| ->]; [right|by left]. exists (12 + k). split; [done|lia].
  - intros [->|(idx & -> & Hk)]; [by right|left]. exists (idx - 12). split; [f_equal; lia|lia].
Qed.

Lemma elem_double p : p ∈ double_ps <-> p = PDbl \/ (exists j, p = PL1 j /\ 0 <= j < 512) \/ exists idx, p = PData idx /\ 524 <= idx < MAX_IDX.
Proof.
  unfold double_ps, MAX_IDX. rewrite elem_of_app, list_elem_of_singleton, list_elem_of_bind. setoid_rewrite elem_l1. setoid_rewrite elem_of_seqZ. split.
  - intros [(j & [->|(idx & -> & Hk)] & Hj)| ->]; [right; left; exists j; split; [done|lia]|right; right; exists idx; split; [done|lia]|by left].
  - intros [->|[(j & -> & Hj)|(idx & -> & Hk)]]; [by right|left; exists j; split; [by left|lia]|].
    left. exists ((idx - 524) / 512). split; [right; exists idx; split; [done|div_lia]|div_lia].
Qed.

(** Every position occurs once. *)
Lemma file_ps_all p : p ∈ file_ps <-> valid_pos p.
Proof.
  unfold file_ps. rewrite !elem_of_app, elem_direct, elem_indirect, elem_double. destruct p as [| |j|idx]; cbn; split.
  - done.
  - auto.
  - done.
  - auto.
  - intros [(? & ? & _)|[[?|(? & ? & _)]|[?|[(? & [= ->] & ?)|(? & ? & _)]]]]; done.
  - intros ?. do 2 right. right. left. by exists j.
  - unfold MAX_IDX. intros [(? & [= ->] & ?)|[[?|(? & [= ->] & ?)]|[?|[(? & ? & ?)|(? & [= ->] & ?)]]]]; done || lia.
  - intros ?. destruct (decide (idx < 12)); [left; exists idx; split; [done|lia]|]. right. destruct (decide (idx < 524)); [left; right|right; right; right]; exists idx; (split; [done|lia]).
Qed.

Lemma l1_NoDup j : NoDup (l1_ps j).
Proof.
  apply NoDup_app. split; [|split; [|apply NoDup_singleton]].
  - apply NoDup_bind; [|intros; apply NoDup_singleton|apply NoDup_seqZ]. intros k1 k2 p _ _ ->%list_elem_of_singleton [= ?]%list_elem_of_singleton. lia.
  - by intros p (k & ->%list_elem_of_singleton & _)%list_elem_of_bind ?%list_elem_of_singleton.
Qed.

Lemma file_ps_NoDup : NoDup file_ps.
Proof.
  unfold file_ps. apply NoDup_app. split; [|split].
  - apply NoDup_bind; [|intros; apply NoDup_singleton|apply NoDup_seqZ]. by intros k1 k2 p _ _ ->%list_elem_of_singleton [= ?]%list_elem_of_singleton.
  - intros p (idx & -> & Hi)%elem_direct. rewrite elem_of_app, elem_indirect, elem_double.
    intros [[?|(? & [= ->] & ?)]|[?|[(? & ? & ?)|(? & [= ->] & ?)]]]; done || lia.
  - apply NoDup_app. split; [|split].
    + apply NoDup_app. split; [|split; [|apply NoDup_singleton]].
      * apply NoDup_bind; [|intros; apply NoDup_singleton|apply NoDup_seqZ]. intros k1 k2 p _ _ ->%list_elem_of_singleton [= ?]%list_elem_of_singleton. lia.
      * by intros p (k & ->%list_elem_of_singleton & _)%list_elem_of_bind ?%list_elem_of_singleton.
    + intros p Hp. rewrite elem_double. apply elem_indirect in Hp as [->|(idx & -> & Hi)]; intros [?|[(? & ? & ?)|(? & [= ->] & ?)]]; done || lia.
    + apply NoDup_app. split; [|split; [|apply NoDup_singleton]].
      * apply NoDup_bind; [|intros; apply l1_NoDup|apply NoDup_seqZ]. intros j1 j2 p _ _ H1%elem_l1 H2%elem_l1.
        destruct H1 as [->|(idx & -> & ?)], H2 as [[= ?]|(idx' & [= ?] & ?)]; lia.
      * by intros p (j & [->|(? & -> & _)]%elem_l1 & _)%list_elem_of_bind ?%list_elem_of_singleton.
Qed.

Lemma for_each_fmap (f : Z -> Z) ks (body : Z -> M unit) : for_each (D := D) (f <$> ks) body = for_each (D := D) ks (fun k => body (f k)).
Proof. induction ks as [|k ks IH]; [done|]. rewrite fmap_cons. cbn [for_each]. by rewrite IH. Qed.

Lemma direct_locs : take 12 (direct i) = (fun k => loc w0 i (PData k)) <$> seqZ 0 12.
Proof.
  assert (Hl := direct_len w0 i Hf). rewrite take_ge by lia. apply list_eq_same_length with (n := 12%nat); [by rewrite length_fmap|done|].
  intros k x y Hk Hx Hy. rewrite list_lookup_fmap, lookup_seqZ_lt in Hy by lia. injection Hy as <-. cbn. case_cmp.
  replace (Z.to_nat (0 + Z.of_nat k)) with k by lia. by rewrite nth_lookup, Hx.
Qed.

Lemma releases_direct l : (length l < 58)%nat -> releases l (for_each (take 12 (direct i)) free_ptr) direct_ps.
Proof.
  intros Hl. rewrite direct_locs, for_each_fmap. apply releases_each. intros k _. unfold free_ptr. destruct (Z.eqb_spec (loc w0 i (PData k)) 0) as [E|E]; cbn [negb].
  - apply releases_skip. by intros p ->%list_elem_of_singleton.
  - apply releases_block; [lia|done].
Qed.

Lemma releases_indirect l : (length l < 57)%nat -> loc w0 i PInd <> 0 ->
  releases l (_ ← for_ptrs (indirect i) free_block_unlocked; free_block_unlocked (indirect i)) indirect_ps.
Proof.
  intros Hl H0. apply releases_bind; [|by apply (releases_block l PInd); [lia|]]. apply (releases_ptrs l PInd _ (fun k => PData (12 + k))); try done; [lia| | |].
  - intros k Hk. cbn. repeat case_cmp; try lia. f_equal. f_equal. lia.
  - intros k b Hk E. apply releases_block; [cbn; lia|done].
  - by intros k p Hk E ->%list_elem_of_singleton.
Qed.

Lemma parent_under_l1 j k : 0 <= j -> 0 <= k < 512 -> parent (PData (524 + 512 * j + k)) = Some (PL1 j, k).
Proof. intros Hj Hk. cbn. repeat case_cmp; try lia. f_equal. f_equal; [f_equal|]; div_lia. Qed.

Lemma null_child p q k : parent p = Some (q, k) -> loc w0 i q = 0 -> loc w0 i p = 0.
Proof. intros E H0. rewrite (loc_child w0 i p q k E), H0. done. Qed.

Lemma releases_l1 l j : (length l < 57)%nat -> 0 <= j < 512 -> loc w0 i (PL1 j) <> 0 ->
  releases l (_ ← for_ptrs (loc w0 i (PL1 j)) free_block_unlocked; free_block_unlocked (loc w0 i (PL1 j))) (l1_ps j).
Proof.
  intros Hl Hj H0. apply releases_bind; [|by apply (releases_block l (PL1 j)); [lia|]]. apply (releases_ptrs l (PL1 j) _ (fun k => PData (524 + 512 * j + k))); try done; [lia| | |].
  - intros k Hk. apply parent_under_l1; lia.
  - intros k b Hk E. apply releases_block; [cbn; lia|done].
  - by intros k p Hk E ->%list_elem_of_singleton.
Qed.

Lemma releases_double l : (length l < 56)%nat -> loc w0 i PDbl <> 0 ->
  releases l (_ ← for_ptrs (double_indirect i) (fun l1 => _ ← for_ptrs l1 free_block_unlocked; free_block_unlocked l1); free_block_unlocked (double_indirect i)) double_ps.
Proof.
  intros Hl H0. apply releases_bind; [|by apply (releases_block l PDbl); [lia|]]. apply (releases_ptrs l PDbl _ PL1); try done; [lia| |].
  - intros j b Hj E. apply releases_l1; [cbn; lia|done|done].
  - intros j p Hj E [->|(idx & -> & Hi)]%elem_l1; [done|]. apply (null_child _ (PL1 j) (idx - (524 + 512 * j))); [|done].
    rewrite <- (parent_under_l1 j (idx - (524 + 512 * j))) by lia. f_equal. f_equal. lia.
Qed.

(** The positions below a missing block of pointers. *)
Lemma indirect_null : loc w0 i PInd = 0 -> forall p, p ∈ indirect_ps -> loc w0 i p = 0.
Proof.
  intros E p [->|(idx & -> & Hi)]%elem_indirect; [done|]. apply (null_child _ PInd (idx - 12)); [|done]. cbn. by repeat case_cmp; try lia.
Qed.

Lemma double_null : loc w0 i PDbl = 0 -> forall p, p ∈ double_ps -> loc w0 i p = 0.
Proof.
  intros E p [->|[(j & -> & Hj)|(idx & -> & Hi)]]%elem_double; [done|by apply (null_child _ PDbl j)|].
  apply (null_child _ (PL1 ((idx - 524) / 512)) ((idx - 524) mod 512)); [cbn; by repeat case_cmp; try lia|]. by apply (null_child _ PDbl ((idx - 524) / 512)).
Qed.


End file.

Lemma ev_if_seq {A} l (c : bool) (a b : M unit) (x y : A) w w' :
  evals l (if c then _ ← a; b else mret tt) w tt w' -> evals l (if c then _ ← a; _ ← b; mret x else mret y) w (if c then x else y) w'.
Proof.
  intros H s Hs. destruct (H s Hs) as (s' & E & Hs'). exists s'. split; [|done]. destruct c; [|by injection E as <-]. unfold mbind, M_bind in *.
  destruct (a s) as [[? s1]| |]; cbn in *; try done. destruct (b s1) as [[? s2]| |]; cbn in *; try done. by injection E as _ <-.
Qed.

Lemma ev_free_blocks l w i :
  (length l < 56)%nat -> sane w -> file_ok w i ->
  exists w', evals l (free_inode_blocks i) w (emptied i) w' /\ released w i (fun _ => True) w'.
Proof.
  intros Hl H Hf. assert (Hv : Forall valid_pos file_ps) by (apply Forall_forall; intros p; apply file_ps_all).
  assert (Hd := releases_direct w i H Hf l ltac:(lia)). exists (drop_all w i w file_ps). split.
  2:{ apply (released_ext w i (fun p => False \/ p ∈ file_ps)); [intros p Hp _; rewrite file_ps_all; tauto|].
      apply released_all; [done|done|by apply released_none|apply file_ps_NoDup|done|tauto]. }
  assert (HI : releases w i l (if negb (indirect i =? 0) then _ ← for_ptrs (indirect i) free_block_unlocked; free_block_unlocked (indirect i) else mret tt) indirect_ps).
  { destruct (Z.eqb_spec (indirect i) 0) as [E|E]; cbn [negb]; [apply releases_skip; by apply indirect_null|]. apply releases_indirect; try done. lia. }
  assert (HD : releases w i l (if negb (double_indirect i =? 0) then
    _ ← for_ptrs (double_indirect i) (fun l1 => _ ← for_ptrs l1 free_block_unlocked; free_block_unlocked l1); free_block_unlocked (double_indirect i) else mret tt) double_ps).
  { destruct (Z.eqb_spec (double_indirect i) 0) as [E|E]; cbn [negb]; [apply releases_skip; by apply double_null|]. by apply releases_double. }
  destruct (NoDup_app direct_ps (indirect_ps ++ double_ps)) as [(N1 & N2 & N3) _]; [apply file_ps_NoDup|]. apply NoDup_app in N3 as (N3 & N4 & N5).
  unfold file_ps in Hv. apply Forall_app in Hv as [V1 [V2 V3]%Forall_app].
  assert (R1 := released_all w i H Hf (fun _ => False) w direct_ps (released_none w i H) N1 V1 ltac:(tauto)).
  assert (X2 : forall p, p ∈ indirect_ps -> ~ (False \/ p ∈ direct_ps)) by (intros p Hp [[]|Hq]; apply (N2 p Hq), elem_of_app; by left).
  assert (R2 := released_all w i H Hf _ _ indirect_ps R1 N3 V2 X2).
  assert (X3 : forall p, p ∈ double_ps -> ~ ((False \/ p ∈ direct_ps) \/ p ∈ indirect_ps)).
  { intros p Hp [[[]|Hq]|Hq]; [apply (N2 p Hq), elem_of_app; by right|by apply (N4 p Hq)]. }
  unfold file_ps. rewrite !drop_all_app. unfold free_inode_blocks. eapply ev_bind; [apply ev_mounted|]. rewrite (s_mounted _ H). cbn [negb].
  eapply ev_bind; [apply (Hd _ w (released_none w i H)); [done|done|tauto]|]. cbv zeta.
  eapply ev_bind; [apply ev_if_seq, (HI _ _ R1); done|]. eapply ev_bind.
  { replace (double_indirect _) with (double_indirect i) by (cbn; by destruct (indirect i =? 0)). apply ev_if_seq, (HD _ _ R2); done. }
  replace (emptied i) with (set_size 0 (set_blocks 0 (if negb (double_indirect i =? 0) then
      set_double 0 (if negb (indirect i =? 0) then set_indirect 0 (set_direct (replicate 12 0) i) else set_direct (replicate 12 0) i)
    else (if negb (indirect i =? 0) then set_indirect 0 (set_direct (replicate 12 0) i) else set_direct (replicate 12 0) i)))); [apply ev_ret|].
  unfold emptied. destruct i; cbn. repeat case_match; rewrite ?negb_true_iff, ?negb_false_iff, ?Z.eqb_eq in *; by subst.
Qed.

(** ** Deleting an entry with its file *)

(** The entry [name] of [dir] names the inode [ino], whose blocks are those of
    [i]; the two have no block in common. *)
Record can_drop w (dir : Inode) (rss : list (list drec)) (name : list Z) (ino type : Z) (i : Inode) : Prop := {
  k_sane : sane w;
  k_dir : dir_ok w dir rss;
  k_entry : dmap rss !! name = Some (ino, type);
  k_parent : valid_ino w (inode_num dir);
  k_ino : valid_ino w ino;
  k_other : ino <> inode_num dir;
  k_file : file_ok w i;
  k_disjoint : forall b, owned w dir b -> ~ owned w i b
}.

Record dropped w dir (rss : list (list drec)) name ino i w' dir' : Prop := {
  dr_sane : sane w';
  dr_dir : exists rss', dir_ok w' dir' rss' /\ dmap rss' = delete name (dmap rss);
  dr_free : mode (inode_at w' ino) = 0;
  dr_parent : inode_at w' (inode_num dir) = dir';
  dr_inodes : forall j, valid_ino w j -> j <> ino -> j <> inode_num dir -> inode_at w' j = inode_at w j;
  dr_used : forall b, 0 <= b < total_blocks (the_super w) -> used w' b = true <-> used w b = true /\ ~ owned w i b;
  dr_others : forall b, data_block w b -> used w b = true -> ~ owned w dir b -> own w' b = own w b
}.

Lemma hangs_owned w i b : hangs w i (fun _ => True) b <-> owned w i b.
Proof. unfold hangs, owned. split; intros [H0 (p & H)]; (split; [done|]); exists p; naive_solver. Qed.

(** The blocks of two files stay apart when one of them changes. *)
Lemma framed_disjoint w i w' i' j :
  sane w -> framed w i w' i' -> file_ok w j -> (forall b, owned w i b -> ~ owned w j b) ->
  (forall b, owned w' j b <-> owned w j b) /\ forall b, owned w' i' b -> ~ owned w' j b.
Proof.
  intros H F Hj Hd. destruct (framed_file w i w' i' j H F Hj) as [_ HL]; [intros b Hb Hi; by apply (Hd b)|].
  assert (Ho : forall b, owned w' j b <-> owned w j b).
  { intros b. unfold owned. split; intros [H0 (p & Hp & E)]; (split; [done|]); exists p; (split; [done|]); [by rewrite <- HL|by rewrite HL]. }
  split; [done|]. intros b Hb Hbj%Ho. destruct (fr_fresh _ _ _ _ F b Hb) as [?|Hu]; [by apply (Hd b)|]. destruct (owned_range w j b H Hj Hbj) as (_ & _ & ?). congruence.
Qed.

Lemma ev_drop_entry w dir rss name ino type i :
  can_drop w dir rss name ino type i ->
  exists dir' w', evals [] (drop_entry dir i ino name) w (true, dir') w' /\ dropped w dir rss name ino i w' dir'.
Proof.
  intros [H Hd He Hvd Hvi Hne Hf Hdis]. assert (Hrm := ev_remove [] w dir rss name ltac:(cbn; lia) H Hd). rewrite He in Hrm.
  destruct Hrm as (dir1 & w1 & rss1 & E1 & Hd1 & _ & Hm1 & F1 & (Hr1 & Es1 & Hu1)). assert (H1 := fr_sane _ _ _ _ F1).
  destruct (framed_disjoint w dir w1 dir1 i H F1 Hf Hdis) as [Ho1 Hdis1]. destruct (framed_file w dir w1 dir1 i H F1 Hf) as [Hf1 _]; [intros b Hb Hb'; by apply (Hdis b)|].
  destruct (ev_free_blocks [] w1 i ltac:(cbn; lia) H1 Hf1) as (w2 & E2 & R2). assert (H2 := re_sane _ _ _ _ R2).
  assert (Hd2 := released_dir w1 i _ w2 dir1 rss1 H1 R2 Hd1 Hdis1). assert (Hsup := released_super _ _ _ _ R2).
  assert (Hino : forall j, valid_ino w j -> valid_ino w2 j /\ inode_at w2 j = inode_at w j).
  { intros j Hj. destruct (framed_inode w dir w1 dir1 j H (d_file _ _ _ Hd) F1 Hj) as [Hj1 Ej1]. destruct (released_inode w1 i _ w2 j H1 R2 Hj1) as [Hj2 Ej2]. split; [done|congruence]. }
  assert (Hn : inode_num dir1 = inode_num dir) by apply (fr_num _ _ _ _ F1). destruct (Hino ino Hvi) as [Hvi2 _]. destruct (Hino _ Hvd) as [Hvd2 _]. rewrite <- Hn in Hvd2.
  destruct (mode_table_ok w2 ino 0 dir1 rss1 H2 Hvi2 Hd2) as [H3 Hd3]. set (w3 := mode_table ino 0 w2) in *. assert (Hg1 := f_good _ _ (d_file _ _ _ Hd1)).
  destruct (write_table_ok w3 dir1 dir1 rss1 H3 Hg1 Hvd2 Hd3) as [H4 Hd4].
  exists dir1, (write_table dir1 w3). split.
  { unfold drop_entry. eapply ev_bind; [exact E1|]. cbn beta iota. cbn [negb]. eapply ev_bind; [exact E2|]. eapply ev_bind; [apply ev_free_inode; [cbn; lia|done|done]|].
    eapply ev_bind; [apply ev_write_inode; [cbn; lia|done|done]|]. apply ev_ret. }
  assert (Ht : total_blocks (the_super w2) = total_blocks (the_super w) /\ data_start (the_super w2) = data_start (the_super w)) by (rewrite Hsup; cbn; by rewrite Es1).
  constructor; try done.
  - by exists rss1.
  - rewrite write_table_other; try done; [|congruence]. by apply mode_table_same.
  - rewrite <- Hn. by apply write_table_same.
  - intros j Hj Hji Hjd. destruct (Hino j Hj) as [Hj2 Ej2]. rewrite write_table_other; try done; [|congruence]. unfold w3. rewrite mode_table_other; done.
  - intros b Hb. assert (Hb2 : 0 <= b < total_blocks (the_super w2)) by lia. unfold write_table. rewrite put_used; [|done|done|by apply table_range].
    unfold w3, mode_table. rewrite put_used; [|done|done|by apply table_range]. rewrite (re_used _ _ _ _ R2) by (rewrite Es1; done). rewrite hangs_owned, Ho1, Hu1 by done. done.
  - intros b Hb Hu Hnd. destruct (table_range w3 (inode_num dir1) H3 Hvd2) as (Ha & _). destruct (table_range w2 ino H2 Hvi2) as (Hc & _).
    change (data_start (the_super w3)) with (data_start (the_super w2)) in Ha. unfold write_table. rewrite put_other by (destruct Hb; lia). unfold w3, mode_table.
    rewrite put_other by (destruct Hb; lia). assert (Hp := data_block_pos w b H Hb). rewrite (re_own _ _ _ _ R2) by (unfold in_bitmap; rewrite Es1; apply data_not_bitmap; [done|apply Hb]).
    apply (fr_frame _ _ _ _ F1); try done; [destruct Hb; lia|]. apply data_not_bitmap; [done|apply Hb].
Qed.

Lemma dropped_ext w dir1 dir rss name ino i w' dir' :
  inode_num dir1 = inode_num dir -> (forall b, owned w dir1 b <-> owned w dir b) -> dropped w dir1 rss name ino i w' dir' -> dropped w dir rss name ino i w' dir'.
Proof. intros En Eo [? ? ? ? ? ? ?]. rewrite En in *. constructor; try done. intros b Hb Hu Ho. rewrite <- Eo in Ho. auto. Qed.

Lemma owned_later w w' i b : later w w' -> owned w' i b <-> owned w i b.
Proof. intros L. unfold owned. by setoid_rewrite (loc_later w w' i _ L). Qed.
Lemma super_later w w' : later w w' -> the_super w' = the_super w.
Proof. by intros [c ->]. Qed.
Lemma valid_later w w' j : later w w' -> valid_ino w' j <-> valid_ino w j.
Proof. intros L. unfold valid_ino. by rewrite (super_later w w' L). Qed.
Lemma inode_later w w' j : later w w' -> inode_at w' j = inode_at w j.
Proof. by intros [c ->]. Qed.
Lemma own_later w w' b : later w w' -> own w' b = own w b.
Proof. by intros [c ->]. Qed.

Lemma dropped_later w w1 dir rss name ino i w' dir' : later w w1 -> dropped w1 dir rss name ino i w' dir' -> dropped w dir rss name ino i w' dir'.
Proof.
  intros L [H1 H2 H3 H4 H5 H6 H7]. constructor; [exact H1|exact H2|exact H3|exact H4| | |].
  - intros j Hj. rewrite <- (inode_later w w1 j L). apply H5. by rewrite (valid_later w w1).
  - intros b Hb. rewrite <- (super_later w w1 L) in Hb. by rewrite (H6 b Hb), (used_later w w1), (owned_later w w1).
  - intros b Hb Hu Ho. rewrite <- (own_later w w1 b L). apply H7; [unfold data_block; by rewrite (super_later w w1)|by rewrite (used_later w w1)|by rewrite (owned_later w w1)].
Qed.

(** Deleting a file.  When there is no memory for the inode nothing happens. *)
Lemma ev_unlink w dir rss name ino type :
  can_drop w dir rss name ino type (inode_at w ino) -> ino <> 0 -> is_dots name = false -> is_directory (inode_at w ino) = false ->
  exists ok dir' w', evals [] (unlink_file dir name) w (ok, dir') w' /\
    if ok : bool then dropped w dir rss name ino (inode_at w ino) w' dir' else retimed dir dir' /\ later w w' /\ exists c, inode_alloc c = false.
Proof.
  intros K Hz Hdots Hnd. assert (K' := K). destruct K' as [H Hd He Hvd Hvi Hne Hf Hdis].
  destruct (ev_lookup [] w dir rss name ltac:(cbn; lia) H Hd) as (dir1 & w1 & E1 & Hr1 & Hw1). rewrite He in E1. cbn [entry_ino fst] in E1.
  assert (Hn1 : inode_num dir1 = inode_num dir) by (by destruct Hr1 as (a & m & _ & _ & ->)).
  assert (Hown1 : forall b, owned w dir1 b <-> owned w dir b) by (intros b; apply owned_ptrs; by apply retimed_ptrs).
  assert (Hvi1 : valid_ino w1 ino) by (by destruct Hw1 as [c ->]). assert (H1 := sane_later w w1 Hw1 H). assert (Hw2 := later_trans _ _ _ Hw1 (later_tick w1)).
  assert (Hpre : forall res w3, evals [] (match (if inode_alloc (clock_ w1) then Some (inode_at w1 ino) else None) with None => mret (false, dir1)
      | Some i => if is_directory i then mret (false, dir1) else drop_entry dir1 i ino name end) (tick w1) res w3 -> evals [] (unlink_file dir name) w res w3).
  { intros res w3 Hk. unfold unlink_file. eapply ev_bind; [apply ev_mounted|]. rewrite (s_mounted _ H). cbn [negb]. rewrite Hdots. eapply ev_bind; [exact E1|]. cbn beta iota.
    rewrite (proj2 (Z.eqb_neq ino 0)) by done. eapply ev_bind; [apply ev_read_inode; [cbn; lia|done|done]|]. exact Hk. }
  destruct (inode_alloc (clock_ w1)) eqn:Ea.
  2:{ exists false, dir1, (tick w1). split; [apply Hpre, ev_ret|]. split; [done|]. split; [done|]. by eexists. }
  assert (Ei : inode_at w1 ino = inode_at w ino) by (by destruct Hw1 as [c ->]).
  assert (K2 : can_drop (tick w1) dir1 rss name ino type (inode_at w ino)).
  { constructor; [by apply (sane_later w)|by apply (dir_later w); [|apply (dir_retimed w dir)]|done|by rewrite Hn1, (valid_later w)|done|by rewrite Hn1|by apply (file_later w)|].
    intros b. rewrite !(owned_later w _ _ _ Hw2), Hown1. apply Hdis. }
  destruct (ev_drop_entry _ _ _ _ _ _ _ K2) as (dir' & w' & E' & Dr). exists true, dir', w'. split.
  { apply Hpre. rewrite Ei, Hnd. exact E'. }
  apply (dropped_ext w dir1); [done|done|]. by apply (dropped_later w (tick w1)).
Qed.
End ops.
End FsUnlink.
