(* ===== verification/FsSuper.v ===== *)
(** * ViperFS: the superblock

    The superblock is written to block 0 and to the last block; mounting reads
    the first and falls back to the second.  What unmounting leaves on the
    device and what mounting it again finds. *)

From S2P Require Import Prelude Bytes Crc32 Crc32Spec Cache CacheSpec Journal FsLayout ViperFs FsWorld FsBitmap FsFile.

Module FsSuper.
Import Bytes FsLayout ViperFs FsWorld FsBitmap FsFile.

(** ** The checksum *)

Lemma crc_sb_fits x : is_bytes x -> fits 4 (Crc32.crc32_superblock x SUPERBLOCK_CHECKSUM_OFFSET).
Proof.
  intros Hx. change (in_width 32 (Crc32.crc32_superblock x SUPERBLOCK_CHECKSUM_OFFSET)). unfold Crc32.crc32_superblock. cbv zeta.
  apply Crc32Spec.lxor_width; [lia| |apply Crc32Spec.FFFF_width]. apply Crc32Spec.update_width; [|by apply Forall_take, Forall_drop].
  apply Crc32Spec.update_width; [|repeat (apply Forall_cons; split; [split; by vm_compute|]); by apply Forall_nil].
  apply Crc32Spec.update_width; [apply Crc32Spec.FFFF_width|by apply Forall_take].
Qed.

(** The fields before the checksum. *)
Definition sb_front (s : Superblock) : list Z := put_fields sb_widths (sb_fields s) ++ uuid s ++ label s.

Lemma encode_front s : encode_sb s = sb_front s ++ le_split 4 (checksum s) ++ sb_reserved s.
Proof. unfold encode_sb, sb_front. by rewrite <- !app_assoc. Qed.

Lemma front_length s : good_sb s -> length (sb_front s) = 168%nat.
Proof. intros (_ & Hu & _ & Hl & _). unfold sb_front. rewrite !length_app, length_sb_fields. lia. Qed.

(** The checksum does not depend on the field that holds it. *)
Lemma crc_sb_free s c :
  good_sb s -> Crc32.crc32_superblock (encode_sb (set_checksum c s)) SUPERBLOCK_CHECKSUM_OFFSET = Crc32.crc32_superblock (encode_sb s) SUPERBLOCK_CHECKSUM_OFFSET.
Proof.
  intros H. assert (L := front_length s H). rewrite !encode_front. change (sb_front (set_checksum c s)) with (sb_front s). cbn [checksum sb_reserved set_checksum].
  unfold Crc32.crc32_superblock. cbv zeta. change (Z.to_nat SUPERBLOCK_CHECKSUM_OFFSET) with 168%nat. change (Z.to_nat (SUPERBLOCK_CHECKSUM_OFFSET + 4)) with 172%nat.
  rewrite !take_app_length' by done. by rewrite !app_assoc, !drop_app_length' by (rewrite length_app, length_le_split; lia).
Qed.

Lemma good_checksum s c : good_sb s -> fits 4 c -> good_sb (set_checksum c s).
Proof. intros (? & ? & ? & ? & ? & ? & ? & ?) Hc. repeat split; try done; apply Hc. Qed.

(** The superblock as it is written. *)
Definition stamped (s : Superblock) : Superblock :=
  set_checksum (Crc32.crc32_superblock (encode_sb (set_checksum 0 s)) SUPERBLOCK_CHECKSUM_OFFSET) (set_checksum 0 s).

(** A superblock of this version of the file system. *)
Definition formatted (s : Superblock) : Prop := good_sb s /\ magic s = VIPERFS_MAGIC /\ version s = VIPERFS_VERSION.

Lemma fits_zero : fits 4 0.
Proof. split; by vm_compute. Qed.

Lemma stamped_good s : formatted s -> formatted (stamped s).
Proof.
  intros (H & Hm & Hv). split; [|done]. apply good_checksum; [apply good_checksum; [done|apply fits_zero]|]. apply crc_sb_fits.
  exact (encode_bytes (set_checksum 0 s) (good_checksum s 0 H fits_zero)).
Qed.

Lemma stamped_length s : formatted s -> length (encode_sb (stamped s)) = 4096%nat.
Proof. intros H. exact (encode_length (stamped s) (proj1 (stamped_good s H))). Qed.

Lemma stamped_decode s : formatted s -> decode_sb (encode_sb (stamped s)) = stamped s.
Proof. intros H. exact (decode_encode (stamped s) (proj1 (stamped_good s H))). Qed.

(** What was written is accepted. *)
Lemma stamped_valid s : formatted s -> valid_superblock (encode_sb (stamped s)) = true.
Proof.
  intros H. assert (H0 : good_sb (set_checksum 0 s)) by (apply good_checksum; [apply H|apply fits_zero]). unfold valid_superblock. rewrite stamped_decode by done. cbv zeta.
  destruct H as (_ & Em & Ev). cbn [magic version checksum stamped set_checksum]. rewrite Em, Ev, !Z.eqb_refl. cbn [andb]. apply orb_true_iff. right. apply Z.eqb_eq.
  unfold stamped. by apply crc_sb_free.
Qed.

(** Data blocks hold no pointers. *)
Lemma parent_no_data p k idx : parent p <> Some (PData idx, k).
Proof. destruct p; cbn; try done. by repeat case_cmp. Qed.

Section ops.
Context {D : Type} {BD : Cache.BlockDevice D} {DL : CacheSpec.DeviceLaws D} {ENV : Env}.
Local Abbreviation world := (st (Z -> list Z) (Cache.BlockCache * D)%type).
Implicit Type w : world.

(** The world after the superblock was written to its two places. *)
Definition super_written w : world :=
  let s := stamped (the_super w) in
  let w1 := put 0 (encode_sb s) (set_fs (with_sb (fun _ => s) (fs w)) w) in
  if total_blocks s <? 2 then w1 else put (total_blocks s - 1) (encode_sb s) w1.

Lemma ev_write_super l w : (length l < 60)%nat -> formatted (the_super w) -> evals l write_superblock_with_backup w tt (super_written w).
Proof.
  intros Hl Hs. assert (L := stamped_length _ Hs). unfold write_superblock_with_backup. eapply ev_bind; [apply ev_update_fs|]. eapply ev_bind; [apply ev_update_fs|].
  eapply ev_bind; [apply ev_sb|]. set (w1 := set_fs _ _). assert (E1 : w1 = set_fs (with_sb (fun _ => stamped (the_super w)) (fs w)) w) by (by destruct w as [[[]] ? ? ? ?]).
  change (sb_ (fs w1)) with (stamped (the_super w)). eapply ev_bind; [apply ev_change; [done|intros _; exact L]|]. rewrite E1. unfold backup_superblock_location, super_written. cbv zeta.
  change SUPERBLOCK_PRIMARY with 0. destruct (Z.ltb_spec (total_blocks (stamped (the_super w))) 2) as [E|E]; [apply ev_ret|].
  rewrite (proj2 (Z.ltb_lt 0 _)) by lia. eapply ev_bind; [apply ev_change; [done|intros _; exact L]|]. apply ev_ret.
Qed.

Lemma ev_read_super l n w : (length l < 60)%nat -> evals l (read_and_validate_superblock n) w (if valid_superblock (own w n) then Some (decode_sb (own w n)) else None) w.
Proof. intros Hl. apply ev_with_block; [done|]. intros i. eapply ev_bind; [apply ev_data, list_elem_of_here|apply ev_ret]. Qed.

(** The search for a superblock. *)
Lemma ev_find_primary l w : (length l < 60)%nat -> valid_superblock (own w 0) = true ->
  evals l find_superblock w true (set_fs (with_sb (fun _ => decode_sb (own w 0)) (fs w)) w).
Proof.
  intros Hl Hv. unfold find_superblock. eapply ev_bind; [by apply ev_read_super|]. change SUPERBLOCK_PRIMARY with 0. rewrite Hv. eapply ev_bind; [apply ev_update_fs|apply ev_ret].
Qed.

Lemma ev_find_backup l w :
  (length l < 60)%nat -> valid_superblock (own w 0) = false ->
  let n := total_blocks (decode_sb (own w 0)) - 1 in
  let sb := decode_sb (own w n) in
  if (1 <=? n) && valid_superblock (own w n) then is_bytes (own w n) -> evals l find_superblock w true (put 0 (own w n) (set_fs (with_sb (fun _ => sb) (fs w)) w))
  else evals l find_superblock w false w.
Proof.
  intros Hl Hv n sb.
  assert (Hpre : forall b w', evals l (if n + 1 <? 2 then mret false else backup ← read_and_validate_superblock n;
    match backup with None => mret false | Some sb => _ ← update_fs (with_sb (fun _ => sb)); _ ← change_block SUPERBLOCK_PRIMARY (fun _ => encode_sb sb); mret true end) w b w' ->
    evals l find_superblock w b w').
  { intros b w' Hk. unfold find_superblock. eapply ev_bind; [by apply ev_read_super|]. change SUPERBLOCK_PRIMARY with 0. rewrite Hv.
    eapply ev_bind; [apply ev_with_block; [done|]; intros i; eapply ev_bind; [apply ev_data, list_elem_of_here|apply ev_ret]|]. cbn beta iota.
    replace (total_blocks (decode_sb (own w 0))) with (n + 1) by (unfold n; lia). replace (n + 1 - 1) with n by lia. exact Hk. }
  destruct (Z.leb_spec 1 n) as [Hn|Hn]; cbn [andb].
  2:{ apply Hpre. rewrite (proj2 (Z.ltb_lt _ 2)) by lia. apply ev_ret. }
  destruct (valid_superblock (own w n)) eqn:Hb.
  - intros Hx. apply ev_sized. intros Hz. apply Hpre. rewrite (proj2 (Z.ltb_ge _ 2)) by lia. eapply ev_bind; [by apply ev_read_super|]. rewrite Hb.
    assert (E : encode_sb sb = own w n) by exact (encode_decode (own w n) Hx (Hz n)). fold sb. rewrite <- E.
    eapply ev_bind; [apply ev_update_fs|]. eapply ev_bind; [|apply ev_ret]. apply ev_change; [done|]. intros _. rewrite E. apply Hz.
  - apply Hpre. rewrite (proj2 (Z.ltb_ge _ 2)) by lia. eapply ev_bind; [by apply ev_read_super|]. rewrite Hb. apply ev_ret.
Qed.

(** ** Mounting again *)

(** No inode of the inode cache waits to be written. *)
Definition ic_clean (c : InodeCache) : Prop :=
  length (entries_ c) = 32%nat /\ Forall (fun e => valid e && dirty e = false) (entries_ c).

Lemma ev_sync_clean l w : ic_clean (inode_cache_ (fs w)) -> evals l ic_sync_all w tt w.
Proof.
  intros [Hlen Hc]. unfold ic_sync_all.
  assert (Hall : Forall (fun k => 0 <= k < 32) (seqZ 0 INODE_CACHE_SIZE)) by (apply Forall_forall; intros k Hk%elem_of_seqZ; exact Hk).
  induction Hall as [|k ks Hk _ IH]; cbn [for_each]; [apply ev_ret|]. apply (ev_bind _ _ _ _ tt w); [|exact IH]. apply (ev_bind _ _ _ _ true w); [|apply ev_ret].
  destruct (lookup_lt_is_Some_2 (entries_ (inode_cache_ (fs w))) (Z.to_nat k)) as [e He]; [lia|]. unfold ic_sync. eapply ev_bind; [apply ev_ic|].
  eapply ev_bind; [apply ev_lift, (rd_Z _ k e); [lia|exact He]|].
  rewrite Forall_lookup in Hc. apply Hc in He. replace (negb (valid e) || negb (dirty e)) with true by (destruct (valid e), (dirty e); done). apply ev_ret.
Qed.

(** The driver after mounting. *)
Definition mounted_with (sb : Superblock) (v : ViperFS) : ViperFS :=
  mkFs sb true false (flash_mode_ v) (ic_set_parent (ic_init (inode_cache_ v))).

Lemma ev_mount_user l w w1 g :
  evals l find_superblock w true w1 -> sys_ w1 = Some g -> evals l mount w true (set_fs (mounted_with (the_super w1) (fs w1)) w1).
Proof.
  intros Hf Hg. unfold mount. eapply ev_bind; [exact Hf|]. cbn [negb]. eapply ev_bind.
  { unfold on_ic. eapply ev_bind; [apply ev_ic|]. eapply ev_bind; [by apply ev_lift|]. apply ev_update_fs. }
  eapply ev_bind; [apply ev_update_fs|]. eapply ev_bind; [apply ev_sb|]. eapply ev_bind; [apply ev_sys|]. cbn [sys_ set_fs]. rewrite Hg. eapply ev_bind; [apply ev_ret|]. apply ev_ret.
Qed.

(** What follows [m] on the states it leaves. *)
Lemma ev_then {A B} l (m : M A) (f : A -> M B) w a w1 b (P : st (Cache.BlockCache * D) (Cache.BlockCache * D) -> Prop) :
  evals l m w a w1 -> (forall s, sees l s w1 -> exists s', f a s = Ok (b, s') /\ P s') -> forall s, sees l s w -> exists s', (m ≫= f) s = Ok (b, s') /\ P s'.
Proof. intros Hm Hf s Hs. destruct (Hm s Hs) as (s1 & E1 & Hs1). destruct (Hf s1 Hs1) as (s2 & E2 & Hs2). exists s2. split; [|done]. unfold mbind, M_bind. rewrite E1. exact E2. Qed.

(** After unmounting the device holds what the cache showed. *)
Definition unmounted w : world := set_fs (set_mounted false (set_sb_dirty false (fs (super_written w)))) (super_written w).

Lemma unmount_disk w s :
  formatted (the_super w) -> mounted_ (fs w) = true -> ic_clean (inode_cache_ (fs w)) -> Journal.enabled_ (journal_ w) = false -> sees [] s w ->
  exists s', unmount s = Ok (tt, s') /\ sees [] s' (unmounted w) /\ forall k, CacheSpec.contents (own s').2 k = own (unmounted w) k.
Proof.
  intros Hs Hm Hc Hj. revert s. unfold unmount. eapply ev_then; [apply ev_mounted|]. rewrite Hm. cbn [negb]. eapply ev_then; [by apply ev_sync_clean|].
  eapply ev_then; [apply ev_write_super; [cbn; lia|done]|]. eapply ev_then; [apply ev_update_fs|]. eapply ev_then; [apply ev_enabled|].
  assert (Ej : journal_ (set_fs (set_sb_dirty false (fs (super_written w))) (super_written w)) = journal_ w) by (unfold super_written; cbv zeta; by destruct (_ <? 2)).
  rewrite Ej, Hj. eapply ev_then; [apply ev_ret|]. intros s [Hh Hsl Hv Hf Hck Hjj Hg]. destruct (CacheSpec.sync_calm [] (own s) Hh) as (o & Eo & Ho & _ & Hvo & Hco).
  eexists. split; [unfold mbind, M_bind, cache_sync; rewrite Eo; reflexivity|]. split; [|intros k; cbn; by rewrite Hco].
  constructor; cbn; try done; [by intros i n ?%not_elem_of_nil|intros k; by rewrite Hvo|by rewrite Hf].
Qed.

Lemma written_block w : own (super_written w) 0 = encode_sb (stamped (the_super w)).
Proof. unfold super_written. cbv zeta. cbn [total_blocks stamped set_checksum]. destruct (Z.ltb_spec (total_blocks (the_super w)) 2); [apply put_same|]. rewrite put_other by lia. apply put_same. Qed.

Lemma written_backup w : 2 <= total_blocks (the_super w) -> own (super_written w) (total_blocks (the_super w) - 1) = encode_sb (stamped (the_super w)).
Proof. intros H. unfold super_written. cbv zeta. cbn [total_blocks stamped set_checksum]. destruct (Z.ltb_spec (total_blocks (the_super w)) 2); [lia|]. apply put_same. Qed.

Lemma written_other w k : k <> 0 -> k <> total_blocks (the_super w) - 1 -> own (super_written w) k = own w k.
Proof.
  intros H0 Hk. unfold super_written. cbv zeta. cbn [total_blocks stamped set_checksum]. by destruct (_ <? 2); rewrite !put_other by done.
Qed.

Lemma written_fs w : fs (super_written w) = with_sb (fun _ => stamped (the_super w)) (fs w) /\ clock_ (super_written w) = clock_ w /\ journal_ (super_written w) = journal_ w /\ sys_ (super_written w) = sys_ w.
Proof. unfold super_written. cbv zeta. by destruct (_ <? 2). Qed.

(** The pointers of a file do not change when its data does. *)
Lemma loc_ptr_ext w w' i :
  (forall c r k, valid_pos c -> parent c = Some (r, k) -> loc w i r <> 0 -> own w' (loc w i r) = own w (loc w i r)) ->
  forall q, valid_pos q -> loc w' i q = loc w i q.
Proof.
  intros H. apply pos_tree_ind.
  - intros q _ Hq. destruct q; try done. cbn in Hq |- *. by repeat case_cmp_in Hq.
  - intros q r k Hq Er _ _ E. rewrite (loc_child w i q r k Er), (loc_child w' i q r k Er), E. unfold ptr_at.
    destruct (Z.eqb_spec (loc w i r) 0); [done|]. by rewrite (H q r k).
Qed.

Lemma written_loc w i idx q :
  file_ok w i -> valid_pos (PData idx) -> loc w i (PData idx) <> 0 -> loc w i (PData idx) = total_blocks (the_super w) - 1 -> valid_pos q -> loc (super_written w) i q = loc w i q.
Proof.
  intros Hf Hi H0 Hl. revert q. apply loc_ptr_ext. intros c r k Hc Er Hr. apply written_other; [done|]. rewrite <- Hl. intros E.
  destruct (parent_valid c r k Hc Er) as [Hvr _]. assert (r = PData idx) as -> by (by apply (f_inj _ _ Hf)). by apply parent_no_data in Er.
Qed.

End ops.
End FsSuper.
