(* ===== verification/FsLink.v ===== *)
(** * ViperFS: symbolic links

    Creating a symbolic link writes the target through a copy of the inode that
    is then dropped: the inode of the table has the size of the target and no
    block, so the link reads as zeros. *)

From S2P Require Import Prelude Bytes Cache CacheSpec Journal FsLayout ViperFs FsWorld FsBitmap FsFile FsData FsWrite FsDirent FsDir FsInode FsCreate FsUnlink.

Module FsLink.
Import Bytes FsLayout ViperFs FsWorld FsBitmap FsFile FsData FsWrite FsDirent FsDir FsInode FsCreate FsUnlink.

Definition link_mode : Z := Z.lor (Z.lor TYPE_LINK PERM_READ) PERM_WRITE.
(** The inode of a link in the table. *)
Definition link_inode (ino len t : Z) : Inode := inode_of ino link_mode len 0 t (replicate 12 0).

Section link.
Context {D : Type} {BD : Cache.BlockDevice D} {DL : CacheSpec.DeviceLaws D} {ENV : Env} {EL : EnvLaws}.
Local Abbreviation world := (st (Z -> list Z) (Cache.BlockCache * D)%type).
Implicit Type w : world.

Lemma framed_dir w i w' i' j rss :
  sane w -> framed w i w' i' -> dir_ok w j rss -> (forall b, owned w j b -> ~ owned w i b) -> dir_ok w' j rss.
Proof.
  intros H F Hj Hd. assert (Hfj := d_file _ _ _ Hj). destruct (framed_file w i w' i' j H F Hfj Hd) as [Hf' HL]. constructor; try apply Hj; [done|].
  intros k rs Hk. assert (Hv := dir_pos w j rss k rs Hj Hk). destruct (d_blocks _ _ _ Hj k rs Hk) as [H0 Ht]. rewrite HL by done. split; [done|].
  rewrite (fr_frame _ _ _ _ F); [done|destruct (loc_data w j _ Hfj Hv H0), (s_geometry _ H); lia|by apply loc_not_bitmap|by apply loc_used|]. apply Hd. split; eauto.
Qed.

(** A file without blocks reads as zeros. *)
Lemma empty_content w i o n :
  direct i = replicate 12 0 -> indirect i = 0 -> double_indirect i = 0 -> 0 <= o -> 0 <= n -> o + n <= MAX_SIZE -> content w i o n = replicate (Z.to_nat n) 0.
Proof.
  intros Ed Ei E2 Ho Hn Hm. apply list_eq. intros k. destruct (decide (k < Z.to_nat n)%nat) as [Hk|Hk].
  - rewrite content_lookup by done. rewrite lookup_replicate_2 by done. unfold file_byte. rewrite empty_loc; [done|done|done|done|].
    cbn. unfold MAX_SIZE, MAX_IDX in *. div_lia.
  - rewrite !lookup_ge_None_2; [done|rewrite length_replicate; lia|rewrite file_content_length; lia].
Qed.

Lemma empty_owned w i b : direct i = replicate 12 0 -> indirect i = 0 -> double_indirect i = 0 -> ~ owned w i b.
Proof. intros Ed Ei E2 [H0 (p & Hp & E)]. by rewrite empty_loc in E. Qed.

Lemma link_good ino len t : fits 8 ino -> 0 <= len <= 4096 -> fits 8 t -> good_inode (link_inode ino len t).
Proof.
  intros Hi Hl Ht. assert (fits 8 0) by (split; by vm_compute). apply good_new; [done|split; by vm_compute|unfold fits; change (256 ^ Z.of_nat 8) with 18446744073709551616; lia|done|done|done|by apply Forall_replicate].
Qed.

(** Reading the link of the table. *)
Lemma ev_read_link w ino len t :
  sane w -> 0 < len <= 4096 ->
  evals [] (read_symlink (link_inode ino len t) len) w (len, replicate (Z.to_nat len) 0, set_atime (get_ms (clock_ w)) (link_inode ino len t)) (tick w).
Proof.
  intros H Hl. unfold read_symlink. eapply ev_bind; [apply ev_mounted|]. rewrite (s_mounted _ H). cbn [negb]. change (is_symlink (link_inode ino len t)) with true. cbn [negb].
  cbn [size link_inode inode_of]. rewrite Z.min_id. assert (E := ev_read_data [] w (link_inode ino len t) 0 len ltac:(cbn; lia) (s_mounted _ H) eq_refl ltac:(lia) ltac:(lia)).
  cbn [size link_inode inode_of] in E. rewrite (proj2 (Z.leb_gt len 0)) in E by lia. unfold clamp in E. cbn [size link_inode inode_of] in E. replace (Z.max 0 (Z.min len (len - 0))) with len in E by lia.
  rewrite <- (empty_content w (link_inode ino len t) 0 len); [|done|done|done|lia|lia|unfold MAX_SIZE, MAX_IDX; lia]. apply E; [lia|unfold MAX_SIZE, MAX_IDX; lia].
Qed.

(** The inode of the link is taken and written, the target goes to blocks of its
    own, and the entry is added. *)
Lemma link_steps w dir rss name target ino w2 t :
  can_create w dir rss name -> sane w2 -> dir_ok w2 dir rss -> first_inode w 2 ino ->
  (forall j, valid_ino w j -> valid_ino w2 j) -> nfree w2 = nfree w -> fits 8 t -> is_bytes target -> 0 < Z.of_nat (length target) <= 4096 ->
  let len := Z.of_nat (length target) in
  let w4 := write_table (link_inode ino len t) w2 in
  inode_at w4 ino = link_inode ino len t /\ sane w4 /\ valid_ino w4 ino /\
  exists wr i5 w5, evals [] (write_data (link_inode ino len t) 0 target) (tick w4) (wr, i5) w5 /\ sane w5 /\ valid_ino w5 ino /\
    (wr <> len -> nfree w < 3) /\
    exists ok dir' w6, evals [] (add_dir_entry dir ino name FT_LINK) w5 (ok, dir') w6 /\ sane w6 /\ valid_ino w6 ino /\ valid_ino w6 (inode_num dir') /\
      if ok : bool then exists rss', dir_ok (write_table dir' w6) dir' rss' /\ dmap rss' = <[name := (ino, FT_LINK)]> (dmap rss) /\
        sane (write_table dir' w6) /\ inode_at (write_table dir' w6) ino = link_inode ino len t
      else nfree w < 6.
Proof.
  intros C H2 Hd2 Hfi Hv Hnf Ht Hb Hlen len w4. assert (Hvi : valid_ino w ino) by (destruct Hfi as (? & _); unfold valid_ino; lia). assert (Hi := fits_ino w ino (c_sane _ _ _ _ C) Hvi).
  assert (Hv2 : valid_ino w2 ino) by (by apply Hv). set (li := link_inode ino len t) in *. assert (Hg : good_inode li) by (apply link_good; [done|lia|done]).
  destruct (write_table_ok w2 li dir rss H2 Hg Hv2 Hd2) as [H4 Hd4]. fold w4 in H4, Hd4.
  split; [exact (write_table_same w2 li H2 Hg Hv2)|]. split; [done|]. split; [done|]. assert (Hn4 : nfree (tick w4) = nfree w).
  { rewrite <- Hnf. apply nfree_ext; [done|]. intros b Hbr. change (used (tick w4) b) with (used w4 b). apply put_used; [done|done|]. by apply table_range. }
  assert (Ht4 := later_tick w4). assert (H4' := sane_later _ _ Ht4 H4). assert (Hd4' := dir_later _ _ dir rss Ht4 Hd4). assert (Hf4 : file_ok (tick w4) li) by (by apply empty_file_ok).
  destruct (ev_write_data [] (tick w4) li 0 target ltac:(cbn; lia) H4' Hf4 Hb ltac:(lia) ltac:(unfold MAX_SIZE, MAX_IDX; lia)) as (wr & w1 & i1 & [X _] & Hn5 & _ & Hr).
  assert (Etouch : touched 0 (Z.of_nat (length target)) = 1) by (unfold touched; rewrite (proj2 (Z.eqb_neq _ 0)) by lia; div_lia). fold len in Etouch, Hr, Hn5. rewrite Etouch in Hr, Hn5.
  assert (Hres : exists r i5 w5, evals [] (write_data li 0 target) (tick w4) (r, i5) w5 /\ later w1 w5 /\ same_ptrs i1 i5 /\ inode_num i5 = inode_num i1 /\ mode i5 = mode i1 /\ (r <> len -> nfree w < 3)).
  { destruct Hr as [[_ E]|(Hw & Hn & E)]; eexists _, _, _; (split; [exact E|]).
    - split; [apply later_tick|]. unfold grow_size. destruct (size i1 <? _); done.
    - split; [apply later_refl|]. repeat split; try done. intros _. lia. }
  destruct Hres as (r & i5 & w5 & E5 & L5 & P5 & N5 & M5 & Hr5). assert (F5 := ext_framed _ (tick w4) li w1 i1 w5 i5 X L5 P5 N5 M5). assert (H5 := fr_sane _ _ _ _ F5).
  destruct (framed_inode (tick w4) li w5 i5 ino H4' Hf4 F5 Hv2) as [Hv5 Ei5]. exists r, i5, w5. split; [done|]. split; [done|]. split; [done|]. split; [done|].
  assert (Hd5 : dir_ok w5 dir rss) by (apply (framed_dir (tick w4) li w5 i5); [done|done|done|]; intros b _; by apply empty_owned).
  destruct (ev_add [] ltac:(cbn; lia) name ino FT_LINK Hi ltac:(destruct Hfi as (? & _); lia) ltac:(split; by vm_compute) (c_name _ _ _ _ C) (c_bytes _ _ _ _ C) w5 dir rss H5 Hd5 (c_new _ _ _ _ C) (c_room _ _ _ _ C))
    as (ok & dir' & w6 & E6 & Hadd). exists ok, dir', w6. split; [done|].
  assert (F6 : framed w5 dir w6 dir') by (destruct ok; [by destruct Hadd as (? & _ & _ & _ & ?)|by destruct Hadd as (_ & ? & _)]). assert (H6 := fr_sane _ _ _ _ F6).
  assert (Hfd := d_file _ _ _ Hd5). destruct (framed_inode w5 dir w6 dir' ino H5 Hfd F6 Hv5) as [Hv6 Ei6].
  assert (Hvd : valid_ino w6 (inode_num dir')).
  { rewrite (fr_num _ _ _ _ F6). apply (framed_inode w5 dir w6 dir' _ H5 Hfd F6). apply (framed_inode (tick w4) li w5 i5 _ H4' Hf4 F5). apply (Hv _ (c_ino _ _ _ _ C)). }
  split; [done|]. split; [done|]. split; [done|]. destruct ok.
  - destruct Hadd as (rss' & Hd6 & Hm6 & _). assert (Hg6 := f_good _ _ (d_file _ _ _ Hd6)). destruct (write_table_ok w6 dir' dir' rss' H6 Hg6 Hvd Hd6) as [H7 Hd7].
    exists rss'. split; [done|]. split; [done|]. split; [done|]. rewrite write_table_other; try done.
    + rewrite Ei6, Ei5. exact (write_table_same w2 li H2 Hg Hv2).
    + rewrite (fr_num _ _ _ _ F6). intros ->. apply (c_live _ _ _ _ C). apply Hfi.
  - destruct Hadd as (_ & _ & Hn). assert (nfree w5 = nfree w1) by (by destruct L5 as [c ->]). lia.
Qed.
(** Why nothing was created. *)
Definition short_of w (n : Z) : Prop :=
  nfree w < n \/ (forall j, 2 <= j < inode_count (the_super w) -> mode (inode_at w j) <> 0) \/ exists c, inode_alloc c = false.

Lemma ev_create_symlink w dir rss name target :
  can_create w dir rss name -> is_bytes target -> 0 < Z.of_nat (length target) <= 4096 ->
  let len := Z.of_nat (length target) in
  exists ino dir' w', evals [] (create_symlink dir name target) w (ino, dir') w' /\
    if ino =? 0 then short_of w 6
    else exists rss' t, dir_ok w' dir' rss' /\ dmap rss' = <[name := (ino, FT_LINK)]> (dmap rss) /\ sane w' /\ inode_at w' ino = link_inode ino len t.
Proof.
  intros C Hb Hlen len. assert (H := c_sane _ _ _ _ C). assert (Hd := c_dir _ _ _ _ C).
  destruct (ev_lookup [] w dir rss name ltac:(cbn; lia) H Hd) as (dir1 & w1 & He1 & Hr1 & Hw1). rewrite (c_new _ _ _ _ C) in He1. cbn [entry_ino] in He1.
  assert (H1 := sane_later w w1 Hw1 H).
  assert (Hstart : forall ino w2 res w3, evals [] alloc_inode_unlocked w1 ino w2 ->
    evals [] (if ino =? 0 then mret (0, dir1) else
        t ← now; let new_inode := link_inode ino len t in ok ← write_inode new_inode;
        if negb ok then _ ← free_inode_unlocked ino; mret (0, dir1) else
          o ← read_inode ino;
          match o with
          | None => _ ← free_inode_unlocked ino; mret (0, dir1)
          | Some i =>
              '(written, _) ← write_data i 0 target;
              if negb (written =? len) then _ ← free_inode_unlocked ino; mret (0, dir1)
              else '(ok, dir) ← add_dir_entry dir1 ino name FT_LINK; if negb ok then _ ← free_inode_unlocked ino; mret (0, dir) else _ ← write_inode dir; mret (ino, dir)
          end) w2 res w3 -> evals [] (create_symlink dir name target) w res w3).
  { intros ino w2 res w3 Ha Hk. unfold create_symlink. cbv zeta. eapply ev_bind; [apply ev_mounted|]. rewrite (s_mounted _ H). cbn [negb]. rewrite (d_dir _ _ _ Hd). cbn [negb].
    fold len. unfold BLOCK_SIZE. rewrite (proj2 (Z.eqb_neq len 0)), (proj2 (Z.ltb_ge 4096 len)) by lia. cbn [orb].
    eapply ev_bind; [exact He1|]. cbn beta iota. cbn [negb Z.eqb]. eapply ev_bind; [exact Ha|]. exact Hk. }
  destruct (ev_alloc_inode [] w1 ltac:(cbn; lia) H1) as [(ino & Hi & Ha)|[Hall Ha]].
  2:{ exists 0, dir1, w1. split; [apply (Hstart 0 w1); [done|apply ev_ret]|]. cbn [Z.eqb]. right. left. by destruct Hw1 as [c ->]. }
  destruct (after_alloc w dir dir1 rss name w1 ino C Hr1 Hw1 Hi) as (C1 & Hi0 & H2 & Hd2 & Hinodes & _ & _ & _ & Hnf). set (w2 := mode_table ino TYPE_FILE w1) in *.
  set (t := get_ms (clock_ w2)). assert (Ht := later_tick w2). assert (H3 := sane_later w2 _ Ht H2). assert (Hd3 := dir_later w2 _ dir1 rss Ht Hd2).
  assert (Hi0' : ino <> 0) by (destruct Hi0 as (? & _); lia). assert (Hvi : valid_ino w ino) by (destruct Hi0 as (? & _); unfold valid_ino; lia).
  destruct (link_steps w dir1 rss name target ino (tick w2) t C1 H3 Hd3 Hi0 (fun j Hj => proj1 (Hinodes j Hj)) Hnf (ms_fits _) Hb Hlen) as (Ei & H4 & Hv4 & r & i5 & w5 & E5 & H5 & Hv5 & Hshort & ok & dir' & w6 & E6 & H6 & Hv6 & Hvd & Hres).
  fold len in Ei, H4, Hv4, E5, Hshort, Hres. set (w4 := write_table (link_inode ino len t) (tick w2)) in *.
  assert (Hgo : forall res w', evals [] (match (if inode_alloc (clock_ w4) then Some (inode_at w4 ino) else None) with None => _ ← free_inode_unlocked ino; mret (0, dir1)
      | Some i => '(written, _) ← write_data i 0 target; if negb (written =? len) then _ ← free_inode_unlocked ino; mret (0, dir1)
        else '(ok, dir) ← add_dir_entry dir1 ino name FT_LINK; if negb ok then _ ← free_inode_unlocked ino; mret (0, dir) else _ ← write_inode dir; mret (ino, dir) end) (tick w4) res w' ->
    evals [] (create_symlink dir name target) w res w').
  { intros res w' Hk. apply (Hstart ino w2); [done|]. rewrite (proj2 (Z.eqb_neq ino 0)) by done. eapply ev_bind; [apply ev_now|]. cbv zeta.
    eapply ev_bind; [apply ev_write_inode; [cbn; lia|done|by apply Hinodes]|]. cbn [negb]. eapply ev_bind; [apply ev_read_inode; [cbn; lia|done|done]|]. exact Hk. }
  rewrite Ei in Hgo. destruct (inode_alloc (clock_ w4)) eqn:Ea.
  2:{ exists 0, dir1, (mode_table ino 0 (tick w4)). split; [|cbn [Z.eqb]; right; right; by eexists]. apply Hgo.
      eapply ev_bind; [apply ev_free_inode; [cbn; lia|by apply tick_sane|done]|apply ev_ret]. }
  destruct (Z.eqb_spec r len) as [Er|Er].
  2:{ exists 0, dir1, (mode_table ino 0 w5). split; [|cbn [Z.eqb]; left; specialize (Hshort Er); lia]. apply Hgo. eapply ev_bind; [exact E5|]. cbn beta iota.
      rewrite (proj2 (Z.eqb_neq r len)) by done. cbn [negb]. eapply ev_bind; [apply ev_free_inode; [cbn; lia|done|done]|apply ev_ret]. }
  destruct ok.
  - destruct Hres as (rss' & Hd7 & Hm7 & H7 & E7). exists ino, dir', (write_table dir' w6). split.
    + apply Hgo. eapply ev_bind; [exact E5|]. cbn beta iota. rewrite (proj2 (Z.eqb_eq r len)) by done. cbn [negb]. eapply ev_bind; [exact E6|]. cbn [negb].
      eapply ev_bind; [apply ev_write_inode; [cbn; lia|done|done]|apply ev_ret].
    + rewrite (proj2 (Z.eqb_neq ino 0)) by done. by exists rss', t.
  - exists 0, dir', (mode_table ino 0 w6). split; [|cbn [Z.eqb]; left; lia]. apply Hgo. eapply ev_bind; [exact E5|]. cbn beta iota. rewrite (proj2 (Z.eqb_eq r len)) by done. cbn [negb].
    eapply ev_bind; [exact E6|]. cbn [negb]. eapply ev_bind; [apply ev_free_inode; [cbn; lia|done|done]|apply ev_ret].
Qed.

End link.
End FsLink.
