(* ===== verification/FsDirRefine.v ===== *)
(** * ViperFS: a directory refines a finite map

    Any sequence of lookups, insertions, removals and enumerations of a
    directory gives the answers it gives on a finite map from names to inode
    numbers and types. *)

From S2P Require Import Prelude Bytes Cache CacheSpec Journal FsLayout ViperFs FsWorld FsBitmap FsFile FsData FsWrite FsDirent FsDir FsInode.

Module FsDirRefine.
Import Bytes FsLayout ViperFs FsWorld FsBitmap FsFile FsData FsWrite FsDirent FsDir FsInode.

Local Abbreviation dirmap := (gmap (list Z) (Z * Z)).
Implicit Type m : dirmap.

Inductive dop := Find (name : list Z) | Insert (name : list Z) (ino type : Z) | Erase (name : list Z) | Enumerate.
Inductive dres := RFound (ino : Z) | RInserted (ok : bool) | RErased (ok : bool) (ino : option Z) | RListed (n : Z) (calls : list dirent).

(** What the callers of an operation make sure of. *)
Definition legal (op : dop) m : Prop :=
  match op with
  | Insert name ino type =>
      m !! name = None /\ (length name <= 255)%nat /\ is_bytes name /\ fits 8 ino /\ ino <> 0 /\ fits 1 type
  | _ => True
  end.

(** The operations of the map. *)
Definition effect (op : dop) m : dirmap :=
  match op with
  | Insert name ino type => <[name := (ino, type)]> m
  | Erase name => delete name m
  | _ => m
  end.

(** The answers.  The order of an enumeration is not specified. *)
Definition answer (op : dop) m (r : dres) : Prop :=
  match op with
  | Find name => r = RFound (entry_ino (m !! name))
  | Insert _ _ _ => r = RInserted true
  | Erase name => r = RErased (bool_decide (is_Some (m !! name))) (fst <$> m !! name)
  | Enumerate => exists l, l ≡ₚ map_to_list m /\ r = RListed (Z.of_nat (base.size m)) (as_call <$> l)
  end.

Fixpoint legal_run (ops : list dop) m : Prop :=
  match ops with [] => True | op :: ops => legal op m /\ legal_run ops (effect op m) end.
Fixpoint answers (ops : list dop) m (rs : list dres) : Prop :=
  match ops, rs with
  | [], [] => True
  | op :: ops, r :: rs => answer op m r /\ answers ops (effect op m) rs
  | _, _ => False
  end.
Definition effects (ops : list dop) m : dirmap := foldl (fun m op => effect op m) m ops.

Section dir.
Context {D : Type} {BD : Cache.BlockDevice D} {DL : CacheSpec.DeviceLaws D} {ENV : Env} {EL : EnvLaws}.
Local Abbreviation world := (st (Z -> list Z) (Cache.BlockCache * D)%type).
Implicit Type w : world.

(** The operations of the driver. *)
Definition run_op (dir : Inode) (op : dop) : M (D := D) (dres * Inode) :=
  match op with
  | Find name => '(ino, dir) ← lookup dir name; mret (RFound ino, dir)
  | Insert name ino type => '(ok, dir) ← add_dir_entry dir ino name type; mret (RInserted ok, dir)
  | Erase name => '(ok, ino, dir) ← remove_dir_entry dir name; mret (RErased ok ino, dir)
  | Enumerate => '(n, calls, dir) ← readdir dir 0; mret (RListed n calls, dir)
  end.
Fixpoint run_ops (dir : Inode) (ops : list dop) : M (D := D) (list dres * Inode) :=
  match ops with
  | [] => mret ([], dir)
  | op :: ops => '(r, dir) ← run_op dir op; '(rs, dir) ← run_ops dir ops; mret (r :: rs, dir)
  end.

(** A run keeps the directory well formed and takes at most [n] more blocks. *)
Record advanced w dir (rss : list (list drec)) (n : Z) w' dir' (rss' : list (list drec)) : Prop := {
  a_sane : sane w';
  a_dir : dir_ok w' dir' rss';
  a_frame : framed w dir w' dir';
  a_length : Z.of_nat (length rss') <= Z.of_nat (length rss) + n;
  a_free : nfree w - 3 * n <= nfree w'
}.

Lemma entries_perm rss : NoDup (entries rss).*1 -> entries rss ≡ₚ map_to_list (dmap rss) /\ length (entries rss) = base.size (dmap rss).
Proof.
  intros Hn. assert (E : entries rss ≡ₚ map_to_list (dmap rss)) by (symmetry; by apply map_to_list_to_map). split; [done|].
  rewrite (Permutation_length E). apply length_map_to_list.
Qed.

Lemma still w dir rss w' dir' : sane w -> dir_ok w dir rss -> retimed dir dir' -> later w w' -> advanced w dir rss 1 w' dir' rss.
Proof.
  intros H Hd Hr Hw. constructor; [by apply (sane_later w)|by apply (dir_later w); [|apply (dir_retimed w dir)]|apply later_framed; try done; apply Hd|lia|].
  rewrite (nfree_later w w' Hw). lia.
Qed.

Lemma dir_step op w dir rss :
  sane w -> dir_ok w dir rss -> legal op (dmap rss) -> Z.of_nat (length rss) < MAX_IDX -> 3 <= nfree w ->
  exists r dir' w' rss', evals [] (run_op dir op) w (r, dir') w' /\ answer op (dmap rss) r /\ dmap rss' = effect op (dmap rss) /\ advanced w dir rss 1 w' dir' rss'.
Proof.
  intros H Hd Hop Hmax Hfree. destruct op as [name|name ino type|name|]; cbn [run_op answer effect].
  - destruct (ev_lookup [] w dir rss name ltac:(cbn; lia) H Hd) as (dir1 & w1 & He & Hr & Hw). eexists _, dir1, w1, rss.
    split; [eapply ev_bind; [exact He|apply ev_ret]|]. split; [done|]. split; [done|]. by apply still.
  - destruct Hop as (Hnew & Hlen & Hb & Hi & H0 & Ht). destruct (ev_add [] ltac:(cbn; lia) name ino type Hi H0 Ht Hlen Hb w dir rss H Hd Hnew Hmax) as (ok & dir1 & w1 & He & Hres).
    destruct ok; [|destruct Hres as (_ & _ & ?); lia]. destruct Hres as (rss1 & Hd1 & Hm1 & [Hl1 Hn1] & F1). eexists _, dir1, w1, rss1.
    split; [eapply ev_bind; [exact He|apply ev_ret]|]. split; [done|]. split; [done|]. constructor; [apply (fr_sane _ _ _ _ F1)|done|done|lia|lia].
  - assert (Hrm := ev_remove [] w dir rss name ltac:(cbn; lia) H Hd). destruct (dmap rss !! name) as [e|] eqn:E.
    + destruct Hrm as (dir1 & w1 & rss1 & He & Hd1 & Hl1 & Hm1 & F1 & R1). eexists _, dir1, w1, rss1. split; [eapply ev_bind; [exact He|apply ev_ret]|].
      split; [by rewrite bool_decide_true|]. split; [done|]. constructor; [apply (fr_sane _ _ _ _ F1)|done|done|lia|rewrite (redone_nfree _ _ _ _ R1); lia].
    + destruct Hrm as (dir1 & w1 & He & Hr & Hw). eexists _, dir1, w1, rss. split; [eapply ev_bind; [exact He|apply ev_ret]|].
      split; [by rewrite bool_decide_false by (intros [? ?]; done)|]. split; [by rewrite delete_id|]. by apply still.
  - destruct (ev_readdir [] w dir rss ltac:(cbn; lia) H Hd) as (dir1 & w1 & He & Hr & Hw). destruct (entries_perm rss (d_names _ _ _ Hd)) as [Ep El]. eexists _, dir1, w1, rss.
    split; [eapply ev_bind; [exact He|apply ev_ret]|]. split; [exists (entries rss); split; [done|by rewrite El]|]. split; [done|]. by apply still.
Qed.

Lemma advanced_trans w dir rss n w1 dir1 rss1 k w2 dir2 rss2 :
  advanced w dir rss n w1 dir1 rss1 -> advanced w1 dir1 rss1 k w2 dir2 rss2 -> advanced w dir rss (n + k) w2 dir2 rss2.
Proof.
  intros [? ? F1 ? ?] [? Hd2 F2 ? ?]. constructor; try done; [|lia|lia]. apply (framed_trans w dir w1 dir1); [apply Hd2|done|done].
Qed.

(** Sequences of operations. *)
Lemma run_refines ops w dir rss :
  sane w -> dir_ok w dir rss -> legal_run ops (dmap rss) ->
  Z.of_nat (length rss) + Z.of_nat (length ops) < MAX_IDX -> 3 * Z.of_nat (length ops) <= nfree w ->
  exists rs dir' w' rss', evals [] (run_ops dir ops) w (rs, dir') w' /\
    answers ops (dmap rss) rs /\ dmap rss' = effects ops (dmap rss) /\ advanced w dir rss (Z.of_nat (length ops)) w' dir' rss'.
Proof.
  revert w dir rss. induction ops as [|op ops IH]; intros w dir rss H Hd Hl Hmax Hfree.
  - exists [], dir, w, rss. split; [apply ev_ret|]. split; [done|]. split; [done|]. constructor; [done|done| |cbn; lia|cbn; lia].
    apply later_framed; [done|apply Hd|apply later_refl|apply retimed_refl, (f_good _ _ (d_file _ _ _ Hd))].
  - destruct Hl as [Hop Hl]. cbn [length] in *. destruct (dir_step op w dir rss H Hd Hop ltac:(lia) ltac:(lia)) as (r & dir1 & w1 & rss1 & E1 & A1 & M1 & V1).
    assert (V1' := V1). destruct V1' as [H1 Hd1 _ L1 N1]. rewrite <- M1 in Hl. destruct (IH w1 dir1 rss1 H1 Hd1 Hl ltac:(lia) ltac:(lia)) as (rs & dir2 & w2 & rss2 & E2 & A2 & M2 & V2).
    exists (r :: rs), dir2, w2, rss2. split; [|split; [|split]].
    + cbn [run_ops]. eapply ev_bind; [exact E1|]. cbn beta iota. eapply ev_bind; [exact E2|apply ev_ret].
    + split; [done|]. by rewrite <- M1.
    + rewrite M2, M1. done.
    + replace (Z.of_nat (S (length ops))) with (1 + Z.of_nat (length ops)) by lia. by apply (advanced_trans w dir rss 1 w1 dir1 rss1).
Qed.

End dir.
End FsDirRefine.
