(* ===== verification/FsDemo.v ===== *)
(** * ViperFS: a small disk

    A disk of 64 blocks with a root directory and one file, [a], whose block is
    the last of the disk.  It is the instance on which the theorems of the
    driver are applied. *)

From S2P Require Import Prelude Bytes Cache CacheSpec Journal FsLayout ViperFs FsWorld FsBitmap FsFile FsData FsWrite FsDirent FsDir FsInode FsCreate FsUnlink FsSuper.

Module FsDemo.
Import Bytes FsLayout ViperFs FsWorld FsBitmap FsFile FsData FsWrite FsDirent FsDir FsInode FsCreate FsUnlink FsSuper.

#[export] Existing Instances CacheSpec.ram_device CacheSpec.ram_laws.

#[export] Instance demo_env : Env := {| get_ms _ := 1000; inode_alloc _ := true; stack_bytes _ := replicate 4096 170 |}.
#[export] Instance demo_laws : EnvLaws.
Proof. split; [intros n; split; by vm_compute|]. intros n. apply length_replicate. Qed.

Definition demo_sb : Superblock :=
  mkSb VIPERFS_MAGIC VIPERFS_VERSION 4096 64 59 16 2 1 1 2 1 3 (replicate 16 0) (replicate 64 0) 0 (replicate 3924 0).
Definition dir_mode : Z := Z.lor (Z.lor (Z.lor TYPE_DIR PERM_READ) PERM_WRITE) PERM_EXEC.
Definition demo_root : Inode := inode_of 2 dir_mode 4096 1 5 (3 :: replicate 11 0).
Definition demo_file : Inode := inode_of 3 file_mode 4096 1 6 (63 :: replicate 11 0).

Definition name_a : list Z := [97].
Definition demo_rss : list (list drec) :=
  [[mkRec 2 16 FT_DIR [46] (replicate 3 0); mkRec 2 16 FT_DIR [46; 46] (replicate 2 0); mkRec 3 4064 FT_FILE name_a (replicate 4051 0)]].

Definition demo_disk : CacheSpec.RamDisk :=
  CacheSpec.mkRam (list_to_map [(0, encode_sb (stamped demo_sb)); (1, [15; 0; 0; 0; 0; 0; 0; 128]);
    (2, replicate 512 0 ++ encode_inode demo_root ++ encode_inode demo_file); (3, encs (default [] (head demo_rss))); (63, replicate 4096 7)]) [].

Definition demo_fs : ViperFS :=
  mkFs demo_sb true false false
    (mkIc (replicate 32 (mkCi zero_inode 0 false false)) (replicate 16 []) (seqZ 0 32) 0 0 true).

(** A state of the driver, and the world it shows. *)
Definition demo_store : Cache.BlockCache * CacheSpec.RamDisk := (Cache.init Cache.blank, demo_disk).
Definition demo_state : st (Cache.BlockCache * CacheSpec.RamDisk) (Cache.BlockCache * CacheSpec.RamDisk) :=
  mkSt demo_fs demo_store 0 Journal.blank_journal (Some demo_store).
Definition demo : st (Z -> list Z) (Cache.BlockCache * CacheSpec.RamDisk) :=
  mkSt demo_fs (CacheSpec.ram_block demo_disk) 0 Journal.blank_journal (Some demo_store).

Lemma demo_seen : sees [] demo_state demo.
Proof.
  destruct (CacheSpec.init_calm Cache.blank demo_disk) as (K & _ & Hv); [done|exact CacheSpec.blank_sized|exact I|]. constructor; try done. by intros i n ?%not_elem_of_nil.
Qed.

Definition all_bytes (l : list Z) : bool := forallb (fun b => (0 <=? b) && (b <? 256)) l.
Lemma all_bytes_ok l : all_bytes l = true -> is_bytes l.
Proof.
  intros H. apply Forall_forall. intros b Hb. unfold all_bytes in H. rewrite forallb_forall in H. apply list_elem_of_In, H in Hb. lia.
Qed.

Lemma demo_bytes k : is_bytes (own demo k).
Proof.
  cbn [own demo]. unfold CacheSpec.ram_block. assert (Hz : is_bytes (default [] (CacheSpec.ram demo_disk !! k))).
  { destruct (CacheSpec.ram demo_disk !! k) as [x|] eqn:E; [|apply Forall_nil_2]. apply elem_of_list_to_map_2 in E.
    apply list_elem_of_In in E. assert (Hall : forallb (fun e : Z * list Z => all_bytes e.2)
      [(0, encode_sb (stamped demo_sb)); (1, [15; 0; 0; 0; 0; 0; 0; 128]);
       (2, replicate 512 0 ++ encode_inode demo_root ++ encode_inode demo_file); (3, encs (default [] (head demo_rss))); (63, replicate 4096 7)] = true) by (vm_compute; reflexivity).
    rewrite forallb_forall in Hall. apply Hall in E. by apply all_bytes_ok. }
  apply Forall_resize; [lia|exact Hz].
Qed.

Lemma demo_sane : sane demo.
Proof.
  constructor; [done|constructor; by vm_compute|exact demo_bytes|intros k; apply length_resize| |by vm_compute].
  intros b Hb. change (0 <= b < 3) in Hb. assert (b = 0 \/ b = 1 \/ b = 2) as [->|[->| ->]] by lia; by vm_compute.
Qed.

(** Files of one block. *)
Lemma one_block_loc {G} (w : st (Z -> list Z) G) i b p :
  direct i = b :: replicate 11 0 -> indirect i = 0 -> double_indirect i = 0 -> valid_pos p -> loc w i p = if decide (p = PData 0) then b else 0.
Proof.
  intros Ed Ei E2 Hp. destruct p as [| |j|idx]; cbn; rewrite ?Ed, ?Ei, ?E2; try done. cbn in Hp. destruct (decide (PData idx = PData 0)) as [[= ->]|Hne]; [done|].
  repeat case_cmp; try done. rewrite nth_lookup, lookup_cons_ne_0 by (intros E; apply Hne; f_equal; lia). destruct (replicate 11 0 !! _) eqn:E; [|done]. by apply lookup_replicate in E as [-> _].
Qed.

Lemma one_block_file {G} (w : st (Z -> list Z) G) i b :
  good_inode i -> direct i = b :: replicate 11 0 -> indirect i = 0 -> double_indirect i = 0 -> data_block w b -> used w b = true -> file_ok w i.
Proof.
  intros Hg Ed Ei E2 Hb Hu. assert (HL := fun p => one_block_loc w i b p Ed Ei E2). constructor; [done| |].
  - intros p q Hp Hq. rewrite !HL by done. destruct (decide (p = _)), (decide (q = _)); congruence.
  - intros p Hp. rewrite HL by done. by destruct (decide (p = _)).
Qed.

Lemma one_block_owned {G} (w : st (Z -> list Z) G) i b c :
  direct i = b :: replicate 11 0 -> indirect i = 0 -> double_indirect i = 0 -> owned w i c -> c = b.
Proof. intros Ed Ei E2 [H0 (p & Hp & <-)]. rewrite (one_block_loc w i b p Ed Ei E2 Hp) in *. by destruct (decide _). Qed.

Lemma demo_good ino m t b : fits 8 ino -> fits 4 m -> fits 8 t -> fits 8 b -> good_inode (inode_of ino m 4096 1 t (b :: replicate 11 0)).
Proof.
  intros. apply good_new; [done|done|split; by vm_compute|split; by vm_compute|done|done|]. apply Forall_cons. split; [done|]. apply Forall_replicate. split; by vm_compute.
Qed.

Lemma demo_root_ok : file_ok demo demo_root.
Proof. apply (one_block_file demo _ 3); [apply demo_good; split; by vm_compute|done|done|done|split; by vm_compute|by vm_compute]. Qed.
Lemma demo_file_ok : file_ok demo demo_file.
Proof. apply (one_block_file demo _ 63); [apply demo_good; split; by vm_compute|done|done|done|split; by vm_compute|by vm_compute]. Qed.

Lemma demo_inodes : inode_at demo 2 = demo_root /\ inode_at demo 3 = demo_file.
Proof. split; by vm_compute. Qed.

Lemma demo_tiles : tiles (own demo 3) (default [] (head demo_rss)).
Proof.
  split; [by vm_compute|]. split; [by vm_compute|]. apply Forall_cons_2; [|apply Forall_cons_2; [|apply Forall_cons_2; [|apply Forall_nil_2]]].
  all: constructor; first [apply all_bytes_ok; by vm_compute|apply Nat.leb_le; by vm_compute|split; by vm_compute|by vm_compute].
Qed.

Lemma demo_dir_ok : dir_ok demo demo_root demo_rss.
Proof.
  constructor; [exact demo_root_ok|done|done|by vm_compute| |].
  - intros [|k] rs Hk; [|done]. injection Hk as <-. split; [done|]. exact demo_tiles.
  - apply (bool_decide_unpack _). by vm_compute.
Qed.

End FsDemo.
