(* ===== verification/FsClaims.v ===== *)
(** * ViperFS: what the driver does

    The theorems on the file system: reading back what was written, files and
    directories created and deleted, the superblock and its copy, and the
    places where the driver does not keep what it promises.  The last section
    has a small disk on which the hypotheses hold. *)

From S2P Require Import Prelude Bytes Crc32 Cache CacheSpec Journal FsLayout ViperFs FsWorld FsBitmap FsFile FsData FsWrite FsDirent FsDir FsInode FsCreate FsUnlink FsSuper FsLink FsDirRefine FsDemo.

Module FsClaims.
Import Bytes FsLayout ViperFs FsWorld FsBitmap FsFile FsData FsWrite FsDirent FsDir FsInode FsCreate FsUnlink FsSuper FsLink FsDirRefine.

Section claims.
Context {D : Type} {BD : Cache.BlockDevice D} {DL : CacheSpec.DeviceLaws D} {ENV : Env} {EL : EnvLaws}.
Local Abbreviation world := (st (Z -> list Z) (Cache.BlockCache * D)%type).
Implicit Type w : world.

(** A write inside one block that the file does not have yet. *)
Lemma ev_write_fresh w i o src :
  let len := Z.of_nat (length src) in
  sane w -> file_ok w i -> is_bytes src -> 0 < len -> 0 <= o -> o mod 4096 + len <= 4096 -> o + len <= MAX_SIZE -> 3 <= nfree w ->
  loc w i (PData (o / 4096)) = 0 ->
  exists b i1 w1, evals [] (write_data i o src) w (len, set_mtime (get_ms (clock_ w)) (grow_size (o + len) i1)) (tick w1) /\
    data_block w b /\ used w b = false /\ sane w1 /\ file_ok w1 i1 /\ same_inode i i1 /\ loc w1 i1 (PData (o / 4096)) = b /\
    own w1 b = list_inserts (Z.to_nat (o mod 4096)) src (own w b).
Proof.
  intros len H Hf Hs Hlen Ho Hfit Hmax Hfree H0. assert (Hi : 0 <= o / 4096 < MAX_IDX) by (unfold MAX_SIZE, MAX_IDX in *; div_lia).
  destruct (ev_acquire [] w i (o / 4096) ltac:(cbn; lia) H Hf Hi) as (ob & w1 & i1 & He & Ha). destruct ob as [b|]; [|destruct Ha as (_ & _ & _ & _ & ?); lia].
  assert (Ha' := Ha). destruct Ha' as (X1 & _ & _ & Hb0 & Hb & Hold). destruct (Hold H0) as (Eown & Hdb & Hu).
  destruct (write_piece w i o (length src) src b w1 i1 H Hf Ho ltac:(lia) eq_refl ltac:(lia) Hfit Hs Ha) as (X2 & _ & _ & HL2). set (w2 := put b _ w1) in *.
  exists b, i1, w2. split; [|split; [done|split; [done|]]].
  2:{ split; [apply (e_sane _ _ _ _ _ _ X2)|]. split; [apply (e_file _ _ _ _ _ _ X2)|]. split; [apply (e_inode _ _ _ _ _ _ X2)|]. split; [by rewrite HL2|].
      unfold w2. by rewrite put_same, Eown. }
  unfold write_data. eapply ev_bind; [apply ev_mounted|]. rewrite (s_mounted _ H). cbn [negb]. fold len. replace (Z.to_nat (len / BLOCK_SIZE) + 2)%nat with (S (S (Z.to_nat (len / BLOCK_SIZE)))) by lia.
  eapply ev_bind.
  { cbn [write_loop]. fold len. rewrite (proj2 (Z.leb_gt len 0)) by lia. cbv zeta. unfold BLOCK_SIZE. rewrite Z.min_r by lia.
    eapply ev_bind; [exact He|]. cbn beta iota. eapply ev_bind; [apply ev_change; [cbn; lia|]; intros Hz; rewrite length_inserts; apply Hz|].
    cbn [negb]. rewrite Z.sub_0_r, Z.add_0_l. rewrite (proj2 (Z.leb_le len len)) by lia. apply ev_ret. }
  cbn beta iota. rewrite take_ge by (rewrite length_drop; lia). change (Z.to_nat 0) with 0%nat. rewrite drop_0. fold w2.
  rewrite u64_small by (unfold MAX_SIZE, MAX_IDX in *; lia). eapply ev_bind; [apply ev_now|]. rewrite to_i64_small by (unfold MAX_SIZE in *; lia).
  change (clock_ w2) with (clock_ w1). rewrite (e_clock _ _ _ _ _ _ X1). apply ev_ret.
Qed.

(** A file and the bytes of it that are on the disk. *)
Definition stored w i (x : Z) : Prop := loc w i (PData (x / 4096)) <> 0.

(** (C12) Writing to a file of a well-formed file system, with three free blocks
    for each block the range touches, writes all the bytes, and reading the
    range back through the resulting inode returns them.  The size becomes the
    larger of the old size and the end of the range; bytes outside the range
    that were on the disk are unchanged; the file system and the file stay well
    formed, the file takes only blocks that were free, and no block of another
    file changes. *)
Theorem write_then_read w i o src :
  let len := Z.of_nat (length src) in
  sane w -> file_ok w i -> size i <= MAX_SIZE -> is_bytes src -> 0 <= o -> o + len <= MAX_SIZE -> 3 * touched o len <= nfree w ->
  exists i' w', evals [] (write_data i o src) w (len, i') w' /\ sane w' /\ file_ok w' i' /\ framed w i w' i' /\
    size i' = Z.max (size i) (o + len) /\
    (exists i'' w'', evals [] (read_data i' o len) w' (len, src, i'') w'' /\ retimed i' i'' /\ later w' w'') /\
    forall x, 0 <= x < MAX_IDX * 4096 -> ~ (o <= x < o + len) -> stored w i x -> file_byte w' i' x = file_byte w i x.
Proof.
  intros len H Hf Hsz Hs Ho Hmax Hfree. destruct (ev_write_data [] w i o src ltac:(cbn; lia) H Hf Hs Ho Hmax) as (wr & w1 & i1 & [X Hby] & _ & _ & Hr).
  destruct Hr as [[-> He]|(_ & ? & _)]; [|fold len in H0; lia]. fold len in Hby, He, X. set (i' := set_mtime _ _) in He. rewrite !Z.sub_0_r in *.
  destruct (e_inode _ _ _ _ _ _ X) as (d & a & b & n & Ei). assert (Hsize : size i1 = size i) by (by rewrite Ei). assert (Hg := f_good _ _ (e_file _ _ _ _ _ _ X)).
  assert (Hp : same_ptrs i1 i') by (unfold i', grow_size; by destruct (_ <? _)). assert (Hsz' : size i' = Z.max (size i) (o + len)).
  { unfold i', grow_size. rewrite Hsize. destruct (Z.ltb_spec (size i) (o + len)); cbn [size set_mtime set_size]; lia. }
  assert (Hg' : good_inode i').
  { apply good_grown; [done| |apply ms_fits]. unfold fits. change (256 ^ Z.of_nat 8) with 18446744073709551616. unfold MAX_SIZE, MAX_IDX in *. lia. }
  assert (Hf' : file_ok (tick w1) i') by (apply (file_later w1); [apply later_tick|]; apply (file_ok_ptrs w1 i1); [apply (e_file _ _ _ _ _ _ X)|done|done]).
  assert (Hb' : forall x, file_byte (tick w1) i' x = file_byte w1 i1 x) by (intros x; unfold file_byte; change (own (tick w1)) with (own w1); by rewrite <- (loc_ptrs w1 i1 i' _ Hp)).
  exists i', (tick w1). split; [done|]. split; [apply tick_sane, (e_sane _ _ _ _ _ _ X)|]. split; [done|]. split.
  { apply (ext_framed _ w i w1 i1 _ _ X); [apply later_tick|done| |]; unfold i', grow_size; by destruct (_ <? _). }
  split; [done|]. split.
  - assert (Hc : clamp i' o len = len) by (unfold clamp; lia). assert (Hrd := ev_read_data [] (tick w1) i' o len ltac:(cbn; lia) (s_mounted _ (tick_sane _ (e_sane _ _ _ _ _ _ X))) (direct_len _ _ Hf') Ho ltac:(lia)).
    rewrite Hc in Hrd. assert (Ec : content (tick w1) i' o len = src).
    { apply list_eq. intros k. destruct (decide (k < length src)%nat) as [Hk|Hk].
      - rewrite content_lookup by lia. rewrite Hb'. destruct (Hby (o + Z.of_nat k) ltac:(lia)) as [-> _]. replace (Z.to_nat (0 + (o + Z.of_nat k - o))) with k by lia.
        destruct (lookup_lt_is_Some_2 src k Hk) as [y Hy]. by rewrite nth_lookup, Hy.
      - rewrite !lookup_ge_None_2; [done|lia|rewrite file_content_length; lia]. }
    rewrite Ec in Hrd. eexists _, _. split; [apply Hrd; unfold MAX_SIZE, MAX_IDX in *; lia|]. destruct (size i' <=? o).
    + split; [by apply retimed_refl|apply later_refl].
    + split; [apply retimed_atime; [done|apply ms_fits]|apply later_tick].
  - intros x Hx Hout Hst. rewrite Hb'. apply (e_bytes _ _ _ _ _ _ X); [done|done|by left].
Qed.

(** (C36) A write into a block the file does not have leaves the rest of that
    block as it is on the disk.  A write that starts inside such a block makes
    the bytes before it part of the file, and reading them returns what a file
    deleted earlier left there, not zeros. *)
Theorem write_exposes_stale w i o src :
  let len := Z.of_nat (length src) in
  sane w -> file_ok w i -> size i <= o - o mod 4096 -> is_bytes src -> 0 < len -> 0 <= o -> o mod 4096 + len <= 4096 -> o + len <= MAX_SIZE ->
  3 <= nfree w -> loc w i (PData (o / 4096)) = 0 ->
  exists b i' w' i'' w'', evals [] (write_data i o src) w (len, i') w' /\ data_block w b /\ used w b = false /\ size i' = o + len /\
    evals [] (read_data i' (o - o mod 4096) (o mod 4096)) w' (o mod 4096, take (Z.to_nat (o mod 4096)) (own w b), i'') w''.
Proof.
  intros len H Hf Hsz Hs Hlen Ho Hfit Hmax Hfree H0.
  destruct (ev_write_fresh w i o src H Hf Hs Hlen Ho Hfit Hmax Hfree H0) as (b & i1 & w1 & He & Hdb & Hu & H1 & Hf1 & (d & a & bb & n & Ei) & Hl1 & Eo). fold len in He.
  set (i' := set_mtime _ _) in He. assert (Hsize : size i1 = size i) by (by rewrite Ei). assert (Hsz' : size i' = o + len).
  { unfold i', grow_size. rewrite Hsize. rewrite (proj2 (Z.ltb_lt (size i) _)) by div_lia. done. }
  assert (Hp : same_ptrs i1 i') by (unfold i', grow_size; by destruct (_ <? _)). exists b, i', (tick w1). eexists _, _. split; [done|]. split; [done|]. split; [done|]. split; [done|].
  assert (Hc : clamp i' (o - o mod 4096) (o mod 4096) = o mod 4096) by (unfold clamp; rewrite Hsz'; div_lia).
  assert (Hdir : length (direct i') = 12%nat) by (destruct Hp as (-> & _ & _); apply (direct_len w1 i1 Hf1)).
  assert (Hrd := ev_read_data [] (tick w1) i' (o - o mod 4096) (o mod 4096) ltac:(cbn; lia) (s_mounted _ (tick_sane _ H1)) Hdir ltac:(div_lia) ltac:(div_lia)). rewrite Hc in Hrd.
  assert (Ec : content (tick w1) i' (o - o mod 4096) (o mod 4096) = take (Z.to_nat (o mod 4096)) (own w b)).
  { apply list_eq. intros k. assert (Hm : 0 <= o mod 4096 < 4096) by div_lia. destruct (decide (k < Z.to_nat (o mod 4096))%nat) as [Hk|Hk].
    - rewrite content_lookup by done. unfold file_byte. replace ((o - o mod 4096 + Z.of_nat k) / 4096) with (o / 4096) by div_lia.
      change (own (tick w1)) with (own w1). change (loc (tick w1) i' (PData (o / 4096))) with (loc w1 i' (PData (o / 4096))). rewrite (loc_ptrs w1 i1 i' _ Hp), Hl1.
      assert (Hb0 := data_block_pos w b H Hdb). rewrite (proj2 (Z.eqb_neq b 0)) by lia. replace ((o - o mod 4096 + Z.of_nat k) mod 4096) with (Z.of_nat k) by div_lia.
      rewrite Eo. unfold byte_at. rewrite Nat2Z.id, list_lookup_inserts_lt by lia. rewrite lookup_take_lt by done.
      destruct (lookup_lt_is_Some_2 (own w b) k) as [y Hy]; [rewrite (s_sized _ H); lia|]. by rewrite Hy.
    - rewrite !lookup_ge_None_2; [done|rewrite length_take; lia|rewrite file_content_length; lia]. }
  rewrite Ec in Hrd. apply Hrd; [change (2 ^ 63) with 9223372036854775808; unfold MAX_SIZE, MAX_IDX in *; div_lia|unfold MAX_SIZE, MAX_IDX in *; lia].
Qed.

(** (C15) Creating a file while the journal is disabled takes the first free
    inode, makes it an empty file and adds its name to the directory, both
    written to the inode table; every other inode and every block of other files
    stays.  It returns 0 only when no inode or fewer than three blocks are free,
    and then no inode in use and no entry has changed.  With the journal enabled,
    as it is once a large enough system disk is mounted, the call also logs and
    commits, and the blocks of the journal are not reserved on the disk. *)
Theorem create_file_sound w dir rss name :
  can_create w dir rss name ->
  exists ino dir' w', evals [] (create_file dir name) w (ino, dir') w' /\
    if ino =? 0 then
      not_created w dir rss w' dir' /\ (nfree w < 3 \/ forall j, 2 <= j < inode_count (the_super w) -> mode (inode_at w j) <> 0)
    else first_inode w 2 ino /\ exists t, created w dir rss name (ino, FT_FILE) (empty_file ino t) w' dir'.
Proof. apply ev_create_file. Qed.

(** (C14) Deleting a file removes its entry from the directory, clears its inode
    and releases exactly the blocks of the file, direct, indirect and double
    indirect ones and the blocks of pointers; every other inode and every block
    of other files stays, and the count of free blocks stays exact.  The call
    fails only when there is no memory for the inode, and then changes nothing
    but times. *)
Theorem unlink_releases_exactly w dir rss name ino type :
  can_drop w dir rss name ino type (inode_at w ino) -> ino <> 0 -> is_dots name = false -> is_directory (inode_at w ino) = false ->
  exists ok dir' w', evals [] (unlink_file dir name) w (ok, dir') w' /\
    if ok : bool then dropped w dir rss name ino (inode_at w ino) w' dir'
    else retimed dir dir' /\ later w w' /\ exists c, inode_alloc c = false.
Proof. apply ev_unlink. Qed.

(** (C13) Any sequence of lookups, insertions, removals and enumerations of a
    directory, with three free blocks for each operation, gives the answers it
    gives on a finite map from names to inode numbers and types; the directory
    stays well formed and holds the final map, and no other file changes. *)
Theorem dir_refines ops w dir rss :
  sane w -> dir_ok w dir rss -> legal_run ops (dmap rss) ->
  Z.of_nat (length rss) + Z.of_nat (length ops) < MAX_IDX -> 3 * Z.of_nat (length ops) <= nfree w ->
  exists rs dir' w' rss', evals [] (run_ops dir ops) w (rs, dir') w' /\
    answers ops (dmap rss) rs /\ dmap rss' = effects ops (dmap rss) /\ advanced w dir rss (Z.of_nat (length ops)) w' dir' rss'.
Proof. apply run_refines. Qed.

(** (C35) A symbolic link does not keep its target: when creating one succeeds,
    the directory has the entry, but the inode of the table has no block, and
    reading the link returns as many zeros as the target has bytes. *)
Theorem symlink_reads_zeros w dir rss name target :
  let len := Z.of_nat (length target) in
  can_create w dir rss name -> is_bytes target -> 0 < len <= 4096 ->
  6 <= nfree w -> (exists j, 2 <= j < inode_count (the_super w) /\ mode (inode_at w j) = 0) -> (forall c, inode_alloc c = true) ->
  exists ino dir' w' rss' i' w'', evals [] (create_symlink dir name target) w (ino, dir') w' /\ ino <> 0 /\
    dir_ok w' dir' rss' /\ dmap rss' = <[name := (ino, FT_LINK)]> (dmap rss) /\
    evals [] (read_symlink (inode_at w' ino) len) w' (len, replicate (Z.to_nat len) 0, i') w''.
Proof.
  intros len C Hb Hlen Hfree [j [Hj Hm]] Halloc. destruct (ev_create_symlink w dir rss name target C Hb Hlen) as (ino & dir' & w' & He & Hres).
  destruct (Z.eqb_spec ino 0) as [E|E].
  - destruct Hres as [?|[Hall|[c Hc]]]; [lia|by apply (Hall j) in Hm|by rewrite Halloc in Hc].
  - destruct Hres as (rss' & t & Hd & Hmap & H' & Ei). eexists ino, dir', w', rss', _, _. split; [done|]. split; [done|]. split; [done|]. split; [done|].
    rewrite Ei. by apply ev_read_link.
Qed.

(** (C22) A superblock written to disk is found again.  If later the first block
    no longer holds a valid superblock, but still has the number of blocks in
    its place, the copy in the last block is loaded and written back to the
    first. *)
Theorem superblock_recovery w :
  formatted (the_super w) -> 2 <= total_blocks (the_super w) ->
  exists w1, evals [] write_superblock_with_backup w tt w1 /\
    (exists w2, evals [] find_superblock w1 true w2 /\ weq w2 w1) /\
    forall x, valid_superblock x = false -> total_blocks (decode_sb x) = total_blocks (the_super w) ->
      exists w2, evals [] find_superblock (put 0 x w1) true w2 /\ weq w2 w1.
Proof.
  intros Hs Ht. exists (super_written w). split; [by apply ev_write_super; [cbn; lia|]|]. destruct (written_fs w) as (Ef & _).
  assert (E0 := written_block w). assert (Eb := written_backup w Ht). assert (Hsame : with_sb (fun _ => stamped (the_super w)) (fs (super_written w)) = fs (super_written w)) by (by rewrite Ef).
  split.
  - eexists. split; [apply ev_find_primary; [cbn; lia|]; rewrite E0; by apply stamped_valid|]. rewrite E0, stamped_decode, Hsame by done. by destruct (super_written w).
  - intros x Hx Hxt. assert (Hf := ev_find_backup [] (put 0 x (super_written w)) ltac:(cbn; lia)). rewrite put_same in Hf. specialize (Hf Hx). cbv zeta in Hf. rewrite Hxt in Hf.
    rewrite put_other, Eb in Hf by lia. rewrite (proj2 (Z.leb_le 1 _)), stamped_valid in Hf by (done || lia). cbn [andb] in Hf.
    eexists. split; [apply Hf; exact (encode_bytes (stamped (the_super w)) (proj1 (stamped_good _ Hs)))|]. rewrite stamped_decode by done.
    unfold weq. cbn [fs put set_own set_fs clock_ journal_ sys_ own]. rewrite Hsame. do 4 (split; [done|]). intros k. destruct (Z.eqb_spec k 0) as [->|]; [done|done].
Qed.

(** (C23) Unmounting the user disk, while the journal is disabled, leaves a disk
    that holds the state: the superblock of the driver, free count included, with
    its checksum set, in the first block and in the last one, and in every other
    block what the driver last saw there.  Mounting that disk with an empty cache,
    whatever else the driver still remembers, succeeds and brings the superblock
    back, and every block reads as it is on the disk.  No inode of the inode cache
    waits to be written (nothing in the kernel marks one as dirty). *)
Theorem remount_restores s w g :
  sees [] s w -> formatted (the_super w) -> mounted_ (fs w) = true -> ic_clean (inode_cache_ (fs w)) -> Journal.enabled_ (journal_ w) = false -> sys_ w = Some g ->
  exists s', unmount s = Ok (tt, s') /\ mounted_ (fs s') = false /\
    CacheSpec.contents (own s').2 0 = encode_sb (stamped (the_super w)) /\
    (2 <= total_blocks (the_super w) -> CacheSpec.contents (own s').2 (total_blocks (the_super w) - 1) = encode_sb (stamped (the_super w))) /\
    (forall k, k <> 0 -> k <> total_blocks (the_super w) - 1 -> CacheSpec.contents (own s').2 k = own w k) /\
    forall v t j, exists s'', mount (mkSt v (Cache.init Cache.blank, (own s').2) t j (Some g)) = Ok (true, s'') /\
      sb_ (fs s'') = stamped (the_super w) /\ mounted_ (fs s'') = true /\ sb_dirty_ (fs s'') = false /\
      forall k, CacheSpec.view (own s'') k = CacheSpec.contents (own s').2 k.
Proof.
  intros Hss Hs Hm Hc Hj Hg. destruct (unmount_disk w s Hs Hm Hc Hj Hss) as (s' & E & Hs' & Hd). exists s'. split; [done|]. split; [by rewrite (v_fs _ _ _ Hs')|].
  split; [rewrite Hd; exact (written_block w)|]. split; [intros Ht; rewrite Hd; exact (written_backup w Ht)|]. split; [intros k H0 Hk; rewrite Hd; exact (written_other w k H0 Hk)|].
  intros v t j. set (d := (own s').2) in *. destruct (CacheSpec.init_calm Cache.blank d) as (K & _ & Hv); [done|exact CacheSpec.blank_sized|exact (CacheSpec.k_reliable _ _ (v_holding _ _ _ Hs'))|].
  set (w2 := mkSt v (CacheSpec.contents d) t j (Some g)). assert (Hsees : sees [] (mkSt v (Cache.init Cache.blank, d) t j (Some g)) w2) by (constructor; try done; by intros i n ?%not_elem_of_nil).
  assert (E0 : own w2 0 = encode_sb (stamped (the_super w))) by (cbn; rewrite Hd; exact (written_block w)).
  assert (Hf := ev_find_primary [] w2 ltac:(cbn; lia) ltac:(rewrite E0; by apply stamped_valid)). destruct (ev_mount_user [] w2 _ g Hf eq_refl _ Hsees) as (s2 & E2 & Hs2).
  exists s2. split; [exact E2|]. rewrite (v_fs _ _ _ Hs2). split; [change (decode_sb (own w2 0) = stamped (the_super w)); by rewrite E0, stamped_decode|]. split; [done|]. split; [done|]. intros k. exact (v_view _ _ _ Hs2 k).
Qed.

(** (C38) The last block is not reserved for the copy of the superblock: when a
    file has it, writing the superblock replaces the contents of that block of
    the file, and reading the file there returns the superblock. *)
Theorem backup_overwrites_file w i idx :
  sane w -> formatted (the_super w) -> file_ok w i -> 2 <= total_blocks (the_super w) -> 0 <= idx < MAX_IDX ->
  loc w i (PData idx) = total_blocks (the_super w) - 1 -> 4096 * (idx + 1) <= size i <= MAX_SIZE ->
  exists w1 i2 w2, evals [] write_superblock_with_backup w tt w1 /\
    evals [] (read_data i (4096 * idx) 4096) w1 (4096, encode_sb (stamped (the_super w)), i2) w2.
Proof.
  intros H Hs Hf Ht Hi Hl Hsz. exists (super_written w). eexists _, _. split; [apply ev_write_super; [cbn; lia|done]|]. destruct (written_fs w) as (Ef & _). assert (Eb := written_backup w Ht).
  assert (Hm : mounted_ (fs (super_written w)) = true) by (rewrite Ef; apply (s_mounted _ H)).
  assert (Hrd := ev_read_data [] (super_written w) i (4096 * idx) 4096 ltac:(cbn; lia) Hm (direct_len _ _ Hf) ltac:(lia) ltac:(lia)).
  assert (Hc : clamp i (4096 * idx) 4096 = 4096) by (unfold clamp; lia). rewrite Hc in Hrd. set (v := total_blocks (the_super w)) in *.
  assert (HL : loc (super_written w) i (PData idx) = v - 1) by (rewrite <- Hl; apply (written_loc w i idx); try done; unfold v in Hl; lia).
  assert (Ec : content (super_written w) i (4096 * idx) 4096 = encode_sb (stamped (the_super w))).
  { assert (Hlen := stamped_length _ Hs). apply list_eq. intros k. destruct (decide (k < 4096)%nat) as [Hk|Hk].
    - rewrite content_lookup by lia. unfold file_byte. replace ((4096 * idx + Z.of_nat k) / 4096) with idx by div_lia. rewrite HL, (proj2 (Z.eqb_neq _ 0)) by lia.
      replace ((4096 * idx + Z.of_nat k) mod 4096) with (Z.of_nat k) by div_lia. rewrite Eb. unfold byte_at. rewrite Nat2Z.id.
      destruct (lookup_lt_is_Some_2 (encode_sb (stamped (the_super w))) k) as [y Hy]; [lia|]. by rewrite Hy.
    - rewrite !lookup_ge_None_2; [done|lia|rewrite file_content_length; lia]. }
  rewrite Ec in Hrd. apply Hrd; [change (2 ^ 63) with 9223372036854775808; unfold MAX_IDX in *; lia|lia].
Qed.

End claims.

(** ** The theorems on the small disk *)

Import FsDemo.

Lemma demo_create name : (length name <= 255)%nat -> all_bytes name = true -> dmap demo_rss !! name = None -> can_create demo demo_root demo_rss name.
Proof.
  intros Hl Hb Hn. constructor; [exact demo_sane|exact demo_dir_ok|split; by vm_compute|by vm_compute|done|by apply all_bytes_ok|done|by vm_compute|done].
Qed.

Lemma write_then_read_witness :
  let src := [1; 2; 3] in
  sane demo /\ file_ok demo demo_file /\ 3 * touched 5 3 <= nfree demo /\
  exists i' w', evals [] (write_data demo_file 5 src) demo (3, i') w' /\
    exists i'' w'', evals [] (read_data i' 5 3) w' (3, src, i'') w''.
Proof.
  assert (Hfree : 3 * touched 5 3 <= nfree demo) by (by vm_compute). split; [exact demo_sane|]. split; [exact demo_file_ok|]. split; [done|].
  destruct (write_then_read demo demo_file 5 [1; 2; 3] demo_sane demo_file_ok) as (i' & w' & He & _ & _ & _ & _ & (i'' & w'' & Hr & _) & _).
  - by vm_compute.
  - by apply all_bytes_ok.
  - lia.
  - by vm_compute.
  - exact Hfree.
  - exists i', w'. split; [exact He|]. by exists i'', w''.
Defined.

Lemma write_exposes_stale_witness :
  exists b i' w' i'' w'', evals [] (write_data demo_file 4100 [9]) demo (1, i') w' /\ used demo b = false /\
    evals [] (read_data i' 4096 4) w' (4, take 4 (own demo b), i'') w''.
Proof.
  destruct (write_exposes_stale demo demo_file 4100 [9] demo_sane demo_file_ok) as (b & i' & w' & i'' & w'' & He & _ & Hu & _ & Hr).
  - by vm_compute.
  - by apply all_bytes_ok.
  - by vm_compute.
  - lia.
  - by vm_compute.
  - by vm_compute.
  - by vm_compute.
  - done.
  - exists b, i', w', i'', w''. split; [exact He|]. split; [exact Hu|]. exact Hr.
Defined.

(** The file gets inode 4, the first that is free. *)
Lemma create_file_sound_witness :
  exists dir' w' t, evals [] (create_file demo_root [98]) demo (4, dir') w' /\ created demo demo_root demo_rss [98] (4, FT_FILE) (empty_file 4 t) w' dir'.
Proof.
  assert (C : can_create demo demo_root demo_rss [98]) by (apply demo_create; [apply Nat.leb_le; by vm_compute|by vm_compute|by vm_compute]).
  destruct (create_file_sound demo demo_root demo_rss [98] C) as (ino & dir' & w' & He & Hr).
  assert (M4 : mode (inode_at demo 4) = 0) by (by vm_compute). assert (N4 : 2 <= 4 < inode_count (the_super demo)) by (split; by vm_compute).
  destruct (Z.eqb_spec ino 0) as [E|E].
  - exfalso. destruct Hr as [_ [Hf|Hf]]; [revert Hf; by vm_compute|exact (Hf 4 N4 M4)].
  - destruct Hr as [(Hrange & Hm & Hfirst) (t & Ht)]. assert (ino = 4) as ->; [|by exists dir', w', t].
    destruct (Z.lt_trichotomy ino 4) as [Hlt|[?|Hgt]]; [|done|].
    + exfalso. assert (ino = 2 \/ ino = 3) as [->| ->] by lia; revert Hm; by vm_compute.
    + exfalso. apply (Hfirst 4); [lia|exact M4].
Defined.

Lemma demo_drop : can_drop demo demo_root demo_rss name_a 3 FT_FILE (inode_at demo 3).
Proof.
  rewrite (proj2 demo_inodes). constructor; [exact demo_sane|exact demo_dir_ok|by vm_compute|split; by vm_compute|split; by vm_compute|by vm_compute|exact demo_file_ok|].
  intros b Hb Hb'. apply (one_block_owned demo _ 3) in Hb; [|done..]. apply (one_block_owned demo _ 63) in Hb'; [lia|done..].
Qed.

Lemma unlink_releases_exactly_witness :
  can_drop demo demo_root demo_rss name_a 3 FT_FILE (inode_at demo 3) /\
  exists ok dir' w', evals [] (unlink_file demo_root name_a) demo (ok, dir') w' /\
    (ok = true -> dropped demo demo_root demo_rss name_a 3 (inode_at demo 3) w' dir').
Proof.
  split; [exact demo_drop|]. destruct (unlink_releases_exactly demo demo_root demo_rss name_a 3 FT_FILE demo_drop) as (ok & dir' & w' & He & Hr).
  - done.
  - by vm_compute.
  - by vm_compute.
  - exists ok, dir', w'. split; [exact He|]. intros ->. exact Hr.
Defined.

Definition demo_ops : list dop := [Insert [98] 5 FT_FILE; Find [98]; Erase name_a; Find name_a; Enumerate].

Lemma dir_refines_witness :
  legal_run demo_ops (dmap demo_rss) /\ 3 * 5 <= nfree demo /\
  exists rs dir' w', evals [] (run_ops demo_root demo_ops) demo (rs, dir') w' /\ answers demo_ops (dmap demo_rss) rs.
Proof.
  assert (L : legal_run demo_ops (dmap demo_rss)).
  { split; [|done]. split; [by vm_compute|]. split; [apply Nat.leb_le; by vm_compute|]. split; [by apply all_bytes_ok|]. split; [split; by vm_compute|]. split; [done|split; by vm_compute]. }
  assert (N : 3 * 5 <= nfree demo) by (by vm_compute). split; [exact L|]. split; [exact N|].
  destruct (dir_refines demo_ops demo demo_root demo_rss demo_sane demo_dir_ok L) as (rs & dir' & w' & rss' & He & Ha & _).
  - by vm_compute.
  - exact N.
  - by exists rs, dir', w'.
Defined.

Lemma symlink_reads_zeros_witness :
  exists ino dir' w' i' w'', evals [] (create_symlink demo_root [108] name_a) demo (ino, dir') w' /\ ino <> 0 /\
    evals [] (read_symlink (inode_at w' ino) 1) w' (1, [0], i') w''.
Proof.
  destruct (symlink_reads_zeros demo demo_root demo_rss [108] name_a) as (ino & dir' & w' & rss' & i' & w'' & He & H0 & _ & _ & Hr).
  - apply demo_create; [apply Nat.leb_le; by vm_compute|by vm_compute|by vm_compute].
  - by apply all_bytes_ok.
  - split; by vm_compute.
  - by vm_compute.
  - exists 4. split; [split; by vm_compute|by vm_compute].
  - done.
  - exists ino, dir', w', i', w''. split; [exact He|]. split; [exact H0|]. exact Hr.
Defined.

Lemma demo_formatted : formatted demo_sb.
Proof.
  split; [|done]. split; [repeat (apply List.Forall2_cons; [split; by vm_compute|]); apply List.Forall2_nil|].
  split; [done|]. split; [by apply all_bytes_ok|]. split; [done|]. split; [by apply all_bytes_ok|]. split; [split; by vm_compute|]. split; [by vm_compute|apply all_bytes_ok; by vm_compute].
Qed.

Lemma superblock_recovery_witness :
  exists w1, evals [] write_superblock_with_backup demo tt w1 /\ exists w2, evals [] find_superblock w1 true w2 /\ weq w2 w1.
Proof.
  destruct (superblock_recovery demo demo_formatted) as (w1 & He & Hf & _).
  - by vm_compute.
  - by exists w1.
Defined.

(** The small disk with a driver that has counted down the free blocks but not
    written the superblock. *)
Definition busy_sb : Superblock := mkSb VIPERFS_MAGIC VIPERFS_VERSION 4096 64 41 16 2 1 1 2 1 3 (replicate 16 0) (replicate 64 0) 0 (replicate 3924 0).
Definition busy_state : st (Cache.BlockCache * CacheSpec.RamDisk) (Cache.BlockCache * CacheSpec.RamDisk) := set_fs (with_sb (fun _ => busy_sb) demo_fs) demo_state.
Definition busy : st (Z -> list Z) (Cache.BlockCache * CacheSpec.RamDisk) := set_fs (with_sb (fun _ => busy_sb) demo_fs) demo.

Lemma busy_seen : sees [] busy_state busy.
Proof. destruct demo_seen as [H1 H2 H3 H4 H5 H6 H7]. by constructor. Qed.
Lemma busy_formatted : formatted busy_sb.
Proof.
  split; [|done]. split; [repeat (apply List.Forall2_cons; [split; by vm_compute|]); apply List.Forall2_nil|].
  split; [done|]. split; [by apply all_bytes_ok|]. split; [done|]. split; [by apply all_bytes_ok|]. split; [split; by vm_compute|]. split; [by vm_compute|apply all_bytes_ok; by vm_compute].
Qed.

(** The disk had another superblock before; after unmounting it is the one of the
    driver, and a driver that starts from nothing finds it. *)
Lemma remount_restores_witness :
  CacheSpec.contents demo_disk 0 <> encode_sb (stamped busy_sb) /\
  exists s' s'', unmount busy_state = Ok (tt, s') /\ CacheSpec.contents (own s').2 0 = encode_sb (stamped busy_sb) /\
    mount (mkSt demo_fs (Cache.init Cache.blank, (own s').2) 0 Journal.blank_journal (Some demo_store)) = Ok (true, s'') /\ sb_ (fs s'') = stamped busy_sb.
Proof.
  split; [apply (bool_decide_unpack _); vm_compute; exact I|].
  destruct (remount_restores busy_state busy demo_store busy_seen busy_formatted eq_refl) as (s' & E & _ & E0 & _ & _ & Hmount).
  - split; [done|]. by apply Forall_replicate.
  - done.
  - done.
  - destruct (Hmount demo_fs 0 Journal.blank_journal) as (s'' & E2 & E3 & _). exists s', s''. split; [exact E|]. split; [exact E0|]. split; [exact E2|exact E3].
Defined.

Lemma backup_overwrites_file_witness :
  loc demo demo_file (PData 0) = total_blocks (the_super demo) - 1 /\
  exists w1 i2 w2, evals [] write_superblock_with_backup demo tt w1 /\ evals [] (read_data demo_file 0 4096) w1 (4096, encode_sb (stamped demo_sb), i2) w2.
Proof.
  split; [done|]. apply (backup_overwrites_file demo demo_file 0 demo_sane demo_formatted demo_file_ok).
  - by vm_compute.
  - split; by vm_compute.
  - done.
  - split; by vm_compute.
Defined.
End FsClaims.
